(* ===== verification/_CoqProject ===== *)
-Q . S2P
Prelude.v
Text.v
NetState.v
IpAddr.v
IpRoundTrip.v
SocketAddr.v
Config.v
ConfigV2.v
Ipc.v
Sidecar.v
DataPlane.v
Policy.v
PolicyIdentity.v
PolicyIdentitySafety.v
PolicyDisk.v
Route.v
RouteJournal.v
RouteSafety.v
MacosRoute.v
RouteHelper.v
RouteHelperV3.v
ProductionSession.v
ProductionController.v
ProductionControllerSafety.v
ProductionRouteV3.v
SidecarTrust.v
StdioRuntime.v
StdioRequests.v
StdioRuntimeSafety.v
StdioTermination.v
RouteV3Client.v
TunnelBroker.v
RouteBoundary.v
BrokerBoundRoute.v
PolicyCatalog.v
UnixRuntime.v
Credentials.v
HelperRegistration.v
RouteHelperClient.v
RouteHelperClientSafety.v
ServiceGate.v
ProductionService.v
ProductionServiceSafety.v
ServiceOutcomes.v
Composition.v
Materialization.v
CompositionSafety.v
CommandState.v
CommandSafety.v
Yaml.v
ProfileItem.v
Profiles.v
SelectedNodes.v
ProxyView.v
ProxyViewSafety.v
Enhance.v
EnhancePipeline.v
EnhanceSafety.v
EnhanceOverrides.v
RuntimeConfig.v
ClashConfig.v
Timer.v
Limiter.v
Draft.v
Validation.v
Verge.v
Updater.v
CoreManager.v
CoreManagerSafety.v
Hotkey.v
AutoBackup.v
SaveProfile.v
PatchSettings.v
DesktopServices.v
Samples.v
Witnesses.v
ProductionWitnesses.v
ApplicationWitnesses.v
CommandWitnesses.v
DesktopWitnesses.v
