(* ===== verification/Prelude.v ===== *)
(** * Verification of KyClash

    KyClash is a desktop proxy client with a private network of its own.  The private
    network ([src-tauri/src/networking]) takes a signed policy, checks the profile
    inside it, starts a sidecar process, brings up a tunnel with one of three carriers
    and installs private routes in the system's table.  Around it is the proxy client
    ([config], [enhance], [core], [cmd], [feat], [module] and two crates): it keeps
    profiles and settings, makes from them the configuration of the Mihomo core, and
    starts, stops and reconfigures that core.  This library is a shallow embedding of
    both: every function is a Gallina function on the source's data, [&mut self] methods
    are functions of the state-and-error monad [M] below, and a [Result] error is a
    value.

    ** How the parts fit together

    A policy envelope is verified ([policy.rs]) and its revision recorded durably
    ([policy_identity_store.rs]); the profile inside is validated ([config.rs]).

    The first generation of the network: the sidecar controller ([sidecar.rs], over the
    runtime of [process_runtime.rs]) starts the sidecar and talks to it in the IPC
    protocol ([ipc.rs], with the mock of [mock.rs] as a reference peer).  The data-plane
    controller ([data_plane.rs]) drives tunnel, routes and carriers through the
    connection states of [state.rs]; a user's request is an operation with a log and a
    deadline ([operation.rs]).  Routes are installed by the orchestrator of [route.rs]
    on a platform ([macos_route.rs]) or through the privileged helper
    ([route_helper_client.rs], registered by [route_helper_registration.rs]).

    The production path: the commands ([cmd/networking_production.rs]) ask the
    composition ([production_composition.rs]) to commit a policy of the closed catalogue
    ([production_policy_catalog.rs]) and to build a service with its credentials
    ([credentials.rs]).  The service ([production_service.rs]) connects, monitors,
    disconnects and retires a private network.  It asks the production controller
    ([production_controller.rs]), an actor that owns the sidecar's process through the
    stdio runtime ([stdio_runtime.rs]), whose executable was checked
    ([sidecar_trust.rs]) and whose process is a child of its own or of the privileged
    broker ([tunnel_broker_client.rs]).  A start is answered with a receipt that ties
    sidecar, broker session and tunnel together ([production_session.rs]); with it the
    route boundary ([broker_bound_route_v3.rs]) gets a lease from the route helper
    ([route_helper_v3_client.rs], [route_helper_v3.rs]), unless Mihomo's own TUN is in
    the way ([mihomo_tun_source.rs]); [production_route_v3.rs] is the interlock of hold,
    routes and journal behind such a lease.

    The proxy client: the profile list ([config/profiles.rs], [config/prfitem.rs]), the
    settings ([config/clash.rs], [config/verge.rs]) and the runtime configuration
    ([config/runtime.rs]) are kept in draft cells ([clash-verge-draft]).  [enhance] makes
    the configuration from the current profile, its overrides and the settings; the core
    manager ([core/manager]) has it validated ([core/validate.rs]), applied, or dropped.
    Profiles are switched ([cmd/profile.rs]), saved ([cmd/save_profile.rs]) and updated
    ([feat/profile.rs]) by the user or by the timer ([core/timer.rs]); settings are
    patched ([feat/config.rs]); [core/proxy_view.rs] shows what the core reports.
    Beside these are the silent updater ([core/updater.rs]), automatic backups
    ([module/auto_backup.rs]), hot keys ([core/hotkey.rs]) and a rate limiter.

    ** The files

    Shared:
    - [Prelude] (this file): results, the monad, its weakest preconditions and
      preserved predicates, machine integers, list lemmas, the tactics
      [reflect_bools], [peel_ok], [invert_ok], [wp_step], [preserves_tac], and the
      hint databases [ky] and [preserves].
    - [Text]: Rust strings as byte strings, splitting, identifiers, decimal numbers.
    - [IpAddr], [IpRoundTrip], [SocketAddr]: the parsing and printing of [std::net]
      addresses that the validators and guards rely on, and their round trips.
    - [Yaml]: the values of [serde_yaml_ng], with the class [MappingLib].

    The private network:
    - [NetState]: [state.rs] and [operation.rs].
    - [Config], [ConfigV2]: the two profile schemas of [config.rs] and their
      validators.
    - [Ipc]: [ipc.rs], [mock.rs], [mock_control.rs].
    - [Sidecar]: [sidecar.rs], over the trait [SidecarRuntime] as a class; [UnixRuntime]:
      [process_runtime.rs], an instance of it.
    - [DataPlane]: [data_plane.rs], over the three adapter traits as classes.
    - [Policy]: [policy.rs].
    - [PolicyIdentity], [PolicyIdentitySafety], [PolicyDisk]:
      [policy_identity_store.rs], the laws of the system calls with the theorems,
      and a concrete file system.
    - [Route], [RouteJournal], [RouteSafety]: [route.rs]; the orchestrator with the
      contracts [RoutePlatformLaws] and [RouteJournalLaws] it is proved against, the
      two journals that keep the second contract, and the theorems on whole runs and
      crashes.
    - [MacosRoute]: [macos_route.rs].
    - [RouteHelper], [RouteHelperV3]: the two lease contracts.
    - [RouteHelperClient], [RouteHelperClientSafety], [HelperRegistration]: the client of
      the older helper protocol with its XPC route boundary, and the registration of the
      privileged services.
    - [ProductionSession]: [production_session.rs].
    - [ProductionController], [ProductionControllerSafety]: the actor, its handles and
      their queue; the contract [RuntimeLaws] of a runtime, and the theorems on every
      interleaving of handles and actor.
    - [ProductionRouteV3]: the lease session over journal, broker and routes, with the
      contract [InterlockLaws].
    - [SidecarTrust]: [sidecar_trust.rs].
    - [StdioRuntime], [StdioRequests], [StdioRuntimeSafety], [StdioTermination]:
      [stdio_runtime.rs]; that it keeps [RuntimeLaws] over any process that keeps
      [ProcessLaws], and that its loops end.
    - [RouteV3Client]: the native client and Mihomo's TUN.
    - [TunnelBroker]: the broker's client; that its handle keeps [ProcessLaws], and the
      composition of controller, stdio runtime and broker.
    - [RouteBoundary], [BrokerBoundRoute]: the trait of the service's routes as a class
      with its laws, and the boundary that keeps them.
    - [ServiceGate], [ProductionService], [ProductionServiceSafety], [ServiceOutcomes]:
      [production_service.rs]; the admission gate with retirement, the operations and
      the monitor, the automaton of what is held, and the theorems on all executions.
    - [PolicyCatalog], [Credentials], [Composition], [Materialization],
      [CompositionSafety]: the catalogue, key material, initialization, selection of a
      policy variant and building of the service.
    - [CommandState], [CommandSafety]: the application's slots and the commands.

    The proxy client:
    - [ProfileItem], [Profiles], [SelectedNodes]: the profile list.
    - [Enhance], [EnhancePipeline], [EnhanceSafety], [EnhanceOverrides]:
      [enhance].
    - [RuntimeConfig]: [config/runtime.rs] and the tunnels of [config/config.rs].
    - [ClashConfig]: [config/clash.rs]; [Verge]: [config/verge.rs].
    - [Draft]: the draft cells over shared reference-counted values,
      and the versioned object they refine; [Limiter]: the rate limiter.
    - [Timer]: [core/timer.rs]; [ProxyView], [ProxyViewSafety]:
      [core/proxy_view.rs].
    - [Validation]: [core/validate.rs] and the notices of [cmd/validate.rs].
    - [CoreManager], [CoreManagerSafety]: [core/manager], the generation
      of configurations in [config/config.rs] and the profile switch of
      [cmd/profile.rs], over the versioned objects of [Draft]; what an update and a
      switch leave behind, and which processes are alive.
    - [SaveProfile]: [cmd/save_profile.rs] and [feat/profile.rs].
    - [PatchSettings]: [feat/config.rs] and the change of mode.
    - [Updater]: [core/updater.rs]; [AutoBackup]: [module/auto_backup.rs];
      [Hotkey]: [core/hotkey.rs]; [DesktopServices]: [core/sysopt.rs] and the manager of
      [core/service.rs].

    [Samples] and the files named [...Witnesses] hold concrete libraries, profiles,
    disks, tables, runtimes, helpers and desktops, and each theorem with hypotheses
    applied to them.

    ** What is shown

    - The service: in every execution carriers, routes, tunnel and sidecar are taken
      and given back in order, and Disconnected means nothing is held (C1); how connect
      ends (C21); its gate retires once and for good (C7); the commands lose no service
      they do not retire (C11).
    - The controller: a retirement that is final (C8), and a shutdown after which
      retirement succeeds (C31); over the stdio runtime and the broker, a receipt means
      that the broker's child is gone (C3).
    - The sidecar's process: an answer belongs to its request (C20), and every call ends
      (C29).
    - Leases and production routes: the interlock of hold, routes and journal (C5), the
      record validator is exactly the lease's life (C30), a boundary retires without a
      lease (C23), and the older helper's acknowledged apply (C24).
    - Route transactions: a crash anywhere is undone by the next start (C2); the journal
      accounts for every installed route of ours after any sequence of calls that may
      fail (C4); [apply] is all or nothing (C22); the file journal saves atomically
      (C35).
    - Data plane: at most one carrier at a time and the meaning of "connected" (C9).
    - Policies: verification accepts exactly authentic envelopes (C10); a recorded
      revision is never rolled back (C6); initialization commits verified policies only
      (C12), a selected variant grants its locked routes (C13), and profiles route
      private, disjoint networks only (C28).
    - Configurations: overrides cannot touch the control plane (C14); merging is
      idempotent (C32); the core's settings are usable whatever the file holds (C33).
    - The core: an update is applied or changes nothing (C16), a profile switch is atomic
      (C15), the mode tells the process (C17), a saved profile is applied or restored
      (C19), only owned and newer updates are installed (C18).
    - Shared machinery: draft cells refine a versioned object (C25), the timer neither
      panics nor stalls (C26), the current profile stays listed (C27), and the limiter
      passes once in a period (C34).
    - Defects: a failed patch of the settings stays in the draft (C36), the first
      settings of the backup schedule are lost (C37), an abandoned restart claims a core
      that does not run (C38), a reorder with an unknown identifier loses all profiles
      (C39), a child is leaked when its token cannot be written (C40).  Further theorems
      record others: [late_retirer_demotes_retired_gate] and
      [cancelled_fallback_is_published] on the service,
      [failed_carrier_close_leaves_stale_transport] on the data plane,
      [default_plan_removes_foreign_default] on routes (C2, C4 and C22 therefore speak of
      plans without a default route), [xpc_rollback_leaves_reconciliation_error],
      [timer_readded_profile_is_queued_twice], [unwritable_run_file_keeps_the_draft],
      [failed_spawn_keeps_the_mask], [restarting_patch_leaves_runtime_uncommitted] and
      [failed_hotkey_update_cannot_be_undone].
    - The files hold further theorems beside these, among them how a disconnect ends, the
      chain of authority from sidecar to route, one-time use of leases and credentials,
      the proxy view, proxy chains and groups, the two operation logs, canonical keys and
      prefixes, the macOS commands, the keyword search, the flags of a settings patch,
      the system proxy, the service's operations, and the spacing and clean-up of backups.

    ** Parameters, bounds and fuel

    Code outside the repository is a class with the laws it documents: URLs and
    base64 ([Config]), ed25519, SHA-256 and JSON ([Policy]), HMAC ([ProductionSession]),
    the file system and JSON of the journal ([RouteJournal]), the system calls and JSON
    of the policy store ([PolicyIdentitySafety]), running a command ([MacosRoute]), the
    sidecar process ([Sidecar]), pipes, clock, threads and child processes
    ([StdioRuntime]), the operating system's view of a file ([SidecarTrust]), the native
    broker and helpers ([TunnelBroker], [RouteV3Client], [RouteHelperClient]), the
    keychain ([Credentials]), removal from a YAML mapping ([Yaml]), the script engine
    ([EnhancePipeline], [Validation]), the delay queue ([Timer]), the core, its service
    and files ([CoreManager], [SaveProfile]), the update plugin ([Updater]), the desktop
    ([PatchSettings], [DesktopServices]), archives ([AutoBackup]) and shortcuts ([Hotkey]).  No law promises
    that a call succeeds, unless a theorem says so ([serviceable] in C2,
    [reliable_teardown] in C9, [StdioClockLaws] in C29, a runtime that stops in C31).

    Asynchronous code is explicit about its interleavings: the controller's handles and
    actor take steps on a shared queue; others run at the awaits of the service as a
    schedule says, over which the theorems quantify; the gate, the commands, the timer,
    the limiter, the draft cells and the backups are sequences of events of any number
    of callers; the core manager names its waits, at any of which a time-out may drop
    the future and other tasks may change the profile list.

    Integers are [Z] kept within the width of the source, with saturation and
    wrap-around written out where the source has them.  Fuel: [print_uint] prints up to
    40 digits, more than any 128-bit number has; [print_hex_digits] prints the at most
    four digits of an address group; [trim] takes the length of the text; [lock_loop] and
    what is built on it take the number of turns, with a theorem that says how many are
    enough; the waiting loops of [StdioRuntime] take a number of rounds and answer [Hang]
    when they run out, C29 showing that as many as the timeouts have milliseconds are
    enough; [receive_loop] of [UnixRuntime] has the like theorem,
    [unix_start_is_bounded_and_released]; [discover_loop] counts the attempts the source
    counts.  All other recursion is structural.

    ** What is not modelled

    The laboratories and their sockets (compiled only with lab features),
    diagnostics reports, the download of subscriptions and its headers, the script
    engine, WebDAV backups and the making of archives, the tray, the installers of
    the system service, the encryption of settings, and the Tauri shell with its
    windows and command registration: their logic is in the library and operating-
    system calls they make. Also left out are serde attributes, [Debug] and most
    [Display] implementations, secret zeroing, the closing of file descriptors,
    logging, and panics of spawned tasks other than those the gate handles. *)

From stdpp Require Export prelude strings list gmap.
From Stdlib Require Export ZArith Lia.

#[global] Open Scope Z_scope.

(** ** Results *)

(** Rust's [Result<A, E>]. *)
Inductive result (A E : Type) : Type :=
| Ok (a : A)
| Err (e : E).
Arguments Ok {A E} a.
Arguments Err {A E} e.

#[global] Instance result_eq_dec {A E} `{EqDecision A, EqDecision E} :
  EqDecision (result A E).
Proof. solve_decision. Defined.

Definition rbind {A B E} (m : result A E) (k : A -> result B E) : result B E :=
  match m with Ok a => k a | Err e => Err e end.

Definition map_err {A E F} (f : E -> F) (m : result A E) : result A F :=
  match m with Ok a => Ok a | Err e => Err (f e) end.

Definition is_ok {A E} (m : result A E) : bool :=
  match m with Ok _ => true | Err _ => false end.

(** Rust's [Result::and]: the first error wins. *)
Definition res_and {A B E} (m : result A E) (n : result B E) : result B E :=
  match m with Ok _ => n | Err e => Err e end.

(** [Option::ok_or]. *)
Definition ok_or {A E} (o : option A) (e : E) : result A E :=
  match o with Some a => Ok a | None => Err e end.

(** [Option::is_some_and], [is_some], [is_none]. *)
Definition is_some_and {A} (o : option A) (p : A -> bool) : bool :=
  match o with None => false | Some a => p a end.
Definition is_some {A} (o : option A) : bool :=
  match o with None => false | Some _ => true end.
Definition is_none {A} (o : option A) : bool := negb (is_some o).

(** An [if cond { return Err(e) }] guard. *)
Definition ensure {E} (b : bool) (e : E) : result unit E :=
  if b then Ok tt else Err e.

(** [iter().map(f).collect::<Result<Vec<_>, _>>()]. *)
Fixpoint rmapM {A B E} (f : A -> result B E) (l : list A) : result (list B) E :=
  match l with
  | [] => Ok []
  | x :: l => rbind (f x) (fun y => rbind (rmapM f l) (fun ys => Ok (y :: ys)))
  end.

(** ** The state-and-error monad of [&mut self] methods

    A method that takes [&mut self] and returns a [Result] is a function from
    the state to a result and a state: the state written before an early
    return survives the error, exactly as in the source. *)
Definition M (S E A : Type) : Type := S -> result A E * S.

Definition ret {S E A} (a : A) : M S E A := fun s => (Ok a, s).
Definition raise {S E A} (e : E) : M S E A := fun s => (Err e, s).
Definition bind {S E A B} (m : M S E A) (k : A -> M S E B) : M S E B :=
  fun s => match m s with
           | (Ok a, s') => k a s'
           | (Err e, s') => (Err e, s')
           end.
Definition get {S E} : M S E S := fun s => (Ok s, s).
Definition modify {S E} (f : S -> S) : M S E unit := fun s => (Ok tt, f s).

(** A pure [Result] inside a method: the [?] operator on it. *)
Definition lift {S E A} (r : result A E) : M S E A := fun s => (r, s).

(** A call whose [Result] is inspected instead of being propagated. *)
Definition attempt {S E A} (m : M S E A) : M S E (result A E) :=
  fun s => let (r, s') := m s in (Ok r, s').

(** The same where the caller has another error type. *)
Definition capture {S E F A} (m : M S E A) : M S F (result A E) :=
  fun s => let (r, s') := m s in (Ok r, s').

(** A call that cannot fail. *)
Definition effect {S E A} (f : S -> A * S) : M S E A :=
  fun s => let (a, s') := f s in (Ok a, s').

(** Running a method on a component of a larger state ([self.field.method()]). *)
Definition zoom {S T E A} (view : S -> T) (update : T -> S -> S) (m : M T E A)
  : M S E A :=
  fun s => let (r, t) := m (view s) in (r, update t s).

Declare Scope ky_scope.
Delimit Scope ky_scope with ky.
Notation "'let?' x ':=' c1 'in' c2" := (rbind c1 (fun x => c2))
  (at level 10, x pattern, c1 at level 100, c2 at level 200,
   format "'let?'  x  ':='  c1  'in' '//' c2") : ky_scope.
Notation "c1 ';?' c2" := (rbind c1 (fun _ => c2))
  (at level 100, c2 at level 200, right associativity,
   format "c1  ';?' '//' c2") : ky_scope.
Notation "'let!' x ':=' c1 'in' c2" := (bind c1 (fun x => c2))
  (at level 10, x pattern, c1 at level 100, c2 at level 200,
   format "'let!'  x  ':='  c1  'in' '//' c2") : ky_scope.
Notation "c1 ';!' c2" := (bind c1 (fun _ => c2))
  (at level 100, c2 at level 200, right associativity,
   format "c1  ';!' '//' c2") : ky_scope.
#[global] Open Scope ky_scope.

(** ** Weakest preconditions

    [wp m Q s]: run from [s], the method [m] ends in a result and a state that
    satisfy [Q].  Methods of the model are total functions, so this is total
    correctness. *)
Definition wp {S E A} (m : M S E A) (Q : result A E -> S -> Prop) (s : S) : Prop :=
  Q (m s).1 (m s).2.

Section wp_rules.
Context {S E : Type}.
Implicit Types s : S.

Lemma wp_run {A} (m : M S E A) Q s r s' :
  wp m Q s -> m s = (r, s') -> Q r s'.
Proof. unfold wp. intros H Hm. by rewrite Hm in H. Qed.

Lemma wp_ret {A} (a : A) (Q : result A E -> S -> Prop) s :
  Q (Ok a) s -> wp (ret a) Q s.
Proof. done. Qed.

Lemma wp_raise {A} (e : E) (Q : result A E -> S -> Prop) s :
  Q (Err e) s -> wp (raise e) Q s.
Proof. done. Qed.

Lemma wp_lift {A} (r : result A E) Q s : Q r s -> wp (lift r) Q s.
Proof. done. Qed.

Lemma wp_get (Q : result S E -> S -> Prop) s : Q (Ok s) s -> wp get Q s.
Proof. done. Qed.

Lemma wp_modify (f : S -> S) (Q : result unit E -> S -> Prop) s :
  Q (Ok tt) (f s) -> wp (modify f) Q s.
Proof. done. Qed.

Lemma wp_bind {A B} (m : M S E A) (k : A -> M S E B) Q s :
  wp m (fun r s' => match r with Ok a => wp (k a) Q s' | Err e => Q (Err e) s' end) s ->
  wp (bind m k) Q s.
Proof. unfold wp, bind. by destruct (m s) as [[a|e] s']. Qed.

Lemma wp_attempt {A} (m : M S E A) (Q : result (result A E) E -> S -> Prop) s :
  wp m (fun r s' => Q (Ok r) s') s -> wp (attempt m) Q s.
Proof. unfold wp, attempt. by destruct (m s). Qed.

Lemma wp_effect {A} (f : S -> A * S) (Q : result A E -> S -> Prop) s :
  Q (Ok (f s).1) (f s).2 -> wp (effect f) Q s.
Proof. unfold wp, effect. by destruct (f s). Qed.

Lemma wp_mono {A} (m : M S E A) (Q Q' : result A E -> S -> Prop) s :
  wp m Q s -> (forall r s', Q r s' -> Q' r s') -> wp m Q' s.
Proof. unfold wp. auto. Qed.

Lemma wp_and {A} (m : M S E A) (Q Q' : result A E -> S -> Prop) s :
  wp m Q s -> wp m Q' s -> wp m (fun r s' => Q r s' /\ Q' r s') s.
Proof. unfold wp. auto. Qed.
End wp_rules.

Lemma wp_capture {S E F A} (m : M S E A) (Q : result (result A E) F -> S -> Prop) s :
  wp m (fun r s' => Q (Ok r) s') s -> wp (capture m) Q s.
Proof. unfold wp, capture. by destruct (m s). Qed.

Lemma wp_zoom {S T E A} (view : S -> T) (update : T -> S -> S) (m : M T E A) Q s :
  wp m (fun r t => Q r (update t s)) (view s) -> wp (zoom view update m) Q s.
Proof. unfold wp, zoom. by destruct (m (view s)). Qed.

(** One symbolic step of a method. *)
Ltac wp_step :=
  match goal with
  | |- wp (bind _ _) _ _ => apply wp_bind
  | |- wp (attempt _) _ _ => apply wp_attempt
  | |- wp (capture _) _ _ => apply wp_capture
  | |- wp (effect _) _ _ => apply wp_effect
  | |- wp (ret _) _ _ => apply wp_ret
  | |- wp (raise _) _ _ => apply wp_raise
  | |- wp (lift _) _ _ => apply wp_lift
  | |- wp get _ _ => apply wp_get
  | |- wp (modify _) _ _ => apply wp_modify
  | |- wp (zoom _ _ _) _ _ => apply wp_zoom
  end; cbn beta iota.
Ltac wp_steps := repeat wp_step.

(** ** Methods that keep a predicate of the state *)

Definition preserves {S E A} (P : S -> Prop) (m : M S E A) : Prop := forall s, P s -> P (m s).2.

Section preserves_rules.
Context {S E : Type} (P : S -> Prop).

Lemma preserves_ret {A} (a : A) : preserves P (ret a : M S E A).
Proof. by intros s. Qed.
Lemma preserves_raise {A} (e : E) : preserves P (raise e : M S E A).
Proof. by intros s. Qed.
Lemma preserves_lift {A} (r : result A E) : preserves P (lift r).
Proof. by intros s. Qed.
Lemma preserves_get : preserves P (get : M S E S).
Proof. by intros s. Qed.
Lemma preserves_modify (f : S -> S) : (forall s, P s -> P (f s)) -> preserves P (modify f : M S E unit).
Proof. done. Qed.
Lemma preserves_bind {A B} (m : M S E A) (k : A -> M S E B) :
  preserves P m -> (forall a, preserves P (k a)) -> preserves P (bind m k).
Proof.
  intros Hm Hk s Hs. unfold bind. specialize (Hm s Hs).
  destruct (m s) as [[a|e] s']; [by apply Hk|done].
Qed.
Lemma preserves_get_bind {B} (k : S -> M S E B) :
  (forall s, P s -> P (k s s).2) -> preserves P (bind get k).
Proof. done. Qed.
Lemma preserves_attempt {A} (m : M S E A) : preserves P m -> preserves P (attempt m).
Proof. intros Hm s Hs. unfold attempt. specialize (Hm s Hs). by destruct (m s). Qed.
Lemma preserves_effect {A} (f : S -> A * S) :
  (forall s, P s -> P (f s).2) -> preserves P (effect f : M S E A).
Proof. intros Hf s Hs. unfold effect. specialize (Hf s Hs). by destruct (f s). Qed.
Lemma preserves_capture {F A} (m : M S E A) : preserves P m -> preserves P (capture m : M S F (result A E)).
Proof. intros Hm s Hs. unfold capture. specialize (Hm s Hs). by destruct (m s). Qed.
Lemma preserves_wp {A} (m : M S E A) s : preserves P m -> P s -> wp m (fun _ => P) s.
Proof. intros Hm Hs. by apply Hm. Qed.
End preserves_rules.

Create HintDb preserves.
#[export] Hint Resolve preserves_ret preserves_raise preserves_lift preserves_get : preserves.

(** Follow the structure of a method; what is left are its own steps. *)
Ltac preserves_step :=
  match goal with
  | |- preserves _ (bind _ _) => apply preserves_bind; [|intros ?]
  | |- preserves _ (attempt _) => apply preserves_attempt
  | |- preserves _ (match ?x with _ => _ end) => destruct x
  | |- preserves _ _ => solve [eauto with preserves nocore]
  | |- preserves _ _ => progress cbv zeta
  end.
Ltac preserves_tac := repeat preserves_step.

(** ** Unsigned machine integers, kept as [Z] within their width *)

Definition umax (w : Z) : Z := 2 ^ w - 1.
Definition u8_max : Z := 255.
Definition u16_max : Z := 65535.
Definition u32_max : Z := 4294967295.
Definition u64_max : Z := 18446744073709551615.
Definition u128_max : Z := 340282366920938463463374607431768211455.
Definition i64_max : Z := 9223372036854775807.

Definition saturating_add (hi a b : Z) : Z := Z.min hi (a + b).
Definition saturating_sub (a b : Z) : Z := Z.max 0 (a - b).
Definition saturating_mul (hi a b : Z) : Z := Z.min hi (a * b).
Definition checked_add (hi a b : Z) : option Z :=
  if a + b <=? hi then Some (a + b) else None.

Definition in_u (hi x : Z) : Prop := 0 <= x <= hi.

(** [u128::MAX << n], the bits pushed out at the top being lost. *)
Definition u128_shl (x n : Z) : Z := Z.land (Z.shiftl x n) u128_max.

(** ** Booleans *)

(** Booleans of the source become propositions: [reflect_bools] turns every
    boolean (in)equation of the context into the fact it decides. *)
Lemma bool_decide_eqb_true (P : Prop) `{Decision P} :
  bool_decide P = true <-> P.
Proof. apply bool_decide_eq_true. Qed.

Ltac reflect_bools :=
  repeat match goal with
  | H : _ && _ = true |- _ => apply andb_true_iff in H; destruct H
  | H : _ || _ = false |- _ => apply orb_false_iff in H; destruct H
  | H : negb _ = true |- _ => apply negb_true_iff in H
  | H : negb _ = false |- _ => apply negb_false_iff in H
  | H : (_ =? _) = true |- _ => apply Z.eqb_eq in H
  | H : (_ =? _) = false |- _ => apply Z.eqb_neq in H
  | H : (_ <=? _) = true |- _ => apply Z.leb_le in H
  | H : (_ <=? _) = false |- _ => apply Z.leb_gt in H
  | H : (_ <? _) = true |- _ => apply Z.ltb_lt in H
  | H : (_ <? _) = false |- _ => apply Z.ltb_ge in H
  | H : bool_decide _ = true |- _ => apply bool_decide_eq_true in H
  | H : bool_decide _ = false |- _ => apply bool_decide_eq_false in H
  end.

(** Follow a computation of the model branch by branch. *)
Ltac run_cases :=
  repeat (case_match; simplify_eq/=; try done).

(** ** Results: inversion lemmas *)

Lemma rbind_ok {A B E} (m : result A E) (k : A -> result B E) b :
  rbind m k = Ok b <-> exists a, m = Ok a /\ k a = Ok b.
Proof. destruct m; naive_solver. Qed.

Lemma ensure_ok {E} b (e : E) : ensure b e = Ok tt <-> b = true.
Proof. by destruct b. Qed.

Lemma ensure_ok' {E} b (e : E) u : ensure b e = Ok u <-> b = true.
Proof. destruct u. by destruct b. Qed.

Lemma ensure_err {E} b (e e' : E) : ensure b e = Err e' <-> b = false /\ e' = e.
Proof. destruct b; naive_solver. Qed.

Lemma ok_or_ok {A E} (o : option A) (e : E) a : ok_or o e = Ok a <-> o = Some a.
Proof. destruct o; naive_solver. Qed.

Lemma map_err_ok {A E F} (f : E -> F) (m : result A E) a :
  map_err f m = Ok a <-> m = Ok a.
Proof. destruct m; naive_solver. Qed.

Lemma rmapM_ok {A B E} (f : A -> result B E) l ys :
  rmapM f l = Ok ys <-> Forall2 (fun x y => f x = Ok y) l ys.
Proof.
  revert ys. induction l as [|x l IH]; intros ys; cbn.
  - split; [intros [= <-]; constructor|by intros ?%Forall2_nil_inv_l; subst].
  - rewrite rbind_ok. setoid_rewrite rbind_ok. split.
    + intros (y & Hy & ys' & Hys & [= <-]). constructor; [done|by apply IH].
    + intros (y & ys' & Hy & Hys & ->)%Forall2_cons_inv_l.
      exists y. split; [done|]. exists ys'. by rewrite IH.
Qed.

Create HintDb ky discriminated.
Create Rewrite HintDb ky.
#[export] Hint Rewrite @rbind_ok @ensure_ok @ensure_ok' @ok_or_ok @map_err_ok @rmapM_ok : ky.

(** Invert an equation saying that a chain of [?] succeeded. *)
Ltac invert_ok H :=
  autorewrite with ky in H;
  repeat match type of H with
  | exists x, _ => let y := fresh x in destruct H as [y H]
  | _ /\ _ => let H' := fresh H in destruct H as [H' H]
  end.

(** The same for a long chain, each step becoming a fact of its own. *)
Ltac peel_ok H :=
  repeat (apply rbind_ok in H;
    let a := fresh "a" in let Ha := fresh "Ha" in
    destruct H as (a & Ha & H); cbv beta in H;
    repeat match type of Ha with
    | ok_or _ _ = _ => apply ok_or_ok in Ha
    | ensure _ _ = _ => apply ensure_ok' in Ha
    | map_err _ _ = _ => apply map_err_ok in Ha
    end;
    try match type of a with unit => destruct a end).

(** ** Lists *)

(** [iter().find(p)]. *)
Fixpoint find {A} (p : A -> bool) (l : list A) : option A :=
  match l with
  | [] => None
  | x :: l => if p x then Some x else find p l
  end.

Lemma find_some {A} (p : A -> bool) l x :
  find p l = Some x -> x ∈ l /\ p x = true.
Proof.
  induction l as [|y l IH]; cbn; [done|].
  case_match; intros; simplify_eq; set_solver.
Qed.

Lemma find_none {A} (p : A -> bool) l :
  find p l = None <-> forall x, x ∈ l -> p x = false.
Proof.
  induction l as [|y l IH]; cbn; [set_solver|].
  destruct (p y) eqn:Hy.
  - split; [done|]. intros H. rewrite (H y) in Hy; set_solver.
  - rewrite IH. split; [|set_solver]. intros H x [->|Hx]%elem_of_cons; auto.
Qed.

Lemma existsb_false {A} (p : A -> bool) l :
  existsb p l = false <-> forall x, x ∈ l -> p x = false.
Proof.
  rewrite <- not_true_iff_false, existsb_exists. setoid_rewrite <- list_elem_of_In.
  split.
  - intros Hn x Hx. destruct (p x) eqn:E; [|done]. destruct Hn. by exists x.
  - intros Hp (x & Hx & E). by rewrite Hp in E.
Qed.

Lemma NoDup_omap_inj {A B} (f : A -> option B) l x y b :
  NoDup (omap f l) -> x ∈ l -> y ∈ l -> f x = Some b -> f y = Some b -> x = y.
Proof.
  induction l as [|z l IH]; cbn; [set_solver|].
  assert (Hin : forall z, z ∈ l -> f z = Some b -> b ∈ omap f l).
  { intros z' Hz Hf. apply list_elem_of_omap. eauto. }
  destruct (f z) as [b'|] eqn:Ez; [rewrite NoDup_cons; intros [Hn Hd]|intros Hd];
    intros [->|Hx]%elem_of_cons [->|Hy]%elem_of_cons Hfx Hfy; simplify_eq; eauto;
    by destruct Hn; eauto.
Qed.

(** [slice::windows(2)]. *)
Fixpoint windows2 {A} (l : list A) : list (A * A) :=
  match l with
  | x :: (y :: _) as l' => (x, y) :: windows2 l'
  | _ => []
  end.

(** A [HashSet] filled left to right, [insert] answering whether the value is
    new: [all_unique]. *)
Fixpoint all_unique_from {A} `{EqDecision A} (seen : list A) (l : list A) : bool :=
  match l with
  | [] => true
  | x :: l => negb (bool_decide (x ∈ seen)) && all_unique_from (x :: seen) l
  end.

Lemma all_unique_from_spec {A} `{EqDecision A} (seen l : list A) :
  all_unique_from seen l = true <-> NoDup l /\ (forall x, x ∈ l -> x ∉ seen).
Proof.
  revert seen. induction l as [|x l IH]; intros seen; cbn.
  - split; [intros _; split; [constructor|set_solver]|done].
  - rewrite andb_true_iff, negb_true_iff, bool_decide_eq_false, IH, NoDup_cons.
    set_solver.
Qed.
