(* ===== verification/Text.v ===== *)
(** * Text: Rust strings and the string functions the network core uses

    A Rust [String] or [&str] is modelled as the byte string of its UTF-8
    encoding ([String.string], one [ascii] per byte).  This file holds the
    standard-library functions the sources call on strings: byte and [char]
    classes, UTF-8 decoding, splitting, prefixes and suffixes, and the decimal
    parser and printer of the unsigned integers. *)

From Stdlib Require Import Ascii String.
From S2P Require Import Prelude.

(** ** Bytes *)

Definition byte (c : ascii) : Z := Z.of_N (N_of_ascii c).

Lemma byte_range c : 0 <= byte c <= 255.
Proof. unfold byte. pose proof (N_ascii_bounded c). lia. Qed.

Lemma byte_inj c d : byte c = byte d -> c = d.
Proof.
  unfold byte. intros H.
  rewrite <- (ascii_N_embedding c), <- (ascii_N_embedding d). f_equal. lia.
Qed.

Definition in_range (lo hi : ascii) (c : ascii) : bool :=
  (byte lo <=? byte c) && (byte c <=? byte hi).

Definition is_ascii_digit (c : ascii) : bool := in_range "0" "9" c.
Definition is_ascii_lowercase (c : ascii) : bool := in_range "a" "z" c.
Definition is_ascii_uppercase (c : ascii) : bool := in_range "A" "Z" c.
Definition is_ascii_alphanumeric (c : ascii) : bool :=
  is_ascii_digit c || is_ascii_lowercase c || is_ascii_uppercase c.
Definition is_ascii (c : ascii) : bool := byte c <=? 127.
Definition is_ascii_control (c : ascii) : bool := (byte c <=? 31) || (byte c =? 127).

(** [matches!(c, 'x' | 'y' | ...)]. *)
Definition one_of (cs : list ascii) (c : ascii) : bool :=
  existsb (fun d => bool_decide (c = d)) cs.

Lemma one_of_spec cs c : one_of cs c = true <-> c ∈ cs.
Proof.
  unfold one_of. rewrite existsb_exists. setoid_rewrite bool_decide_eq_true.
  setoid_rewrite <- list_elem_of_In. naive_solver.
Qed.

Definition to_ascii_lowercase_byte (c : ascii) : ascii :=
  if is_ascii_uppercase c then ascii_of_N (Z.to_N (byte c + 32)) else c.

(** ** Strings as lists of bytes *)

Definition bytes (s : string) : list ascii := list_ascii_of_string s.
Definition str (l : list ascii) : string := string_of_list_ascii l.

Lemma str_bytes s : str (bytes s) = s.
Proof. apply string_of_list_ascii_of_string. Qed.
Lemma bytes_str l : bytes (str l) = l.
Proof. apply list_ascii_of_string_of_list_ascii. Qed.
Lemma bytes_inj s t : bytes s = bytes t -> s = t.
Proof. intros H. by rewrite <- (str_bytes s), <- (str_bytes t), H. Qed.

Lemma str_app a b : str (a ++ b) = String.append (str a) (str b).
Proof.
  induction a as [|c a IH]; [done|].
  change (str ((c :: a) ++ b)) with (String c (str (a ++ b))). by rewrite IH.
Qed.
Lemma bytes_append s t : bytes (String.append s t) = bytes s ++ bytes t.
Proof. by rewrite <- (str_bytes s), <- (str_bytes t), <- str_app, !bytes_str. Qed.

(** [str::len]: the number of bytes. *)
Definition len (s : string) : Z := Z.of_nat (length (bytes s)).
Definition is_empty (s : string) : bool := len s =? 0.

Lemma is_empty_true s : is_empty s = true <-> s = EmptyString.
Proof.
  unfold is_empty, len. rewrite Z.eqb_eq. destruct s; cbn; [done|].
  split; [lia|done].
Qed.

Lemma is_empty_false s : is_empty s = false <-> s <> EmptyString.
Proof. rewrite <- is_empty_true. by destruct (is_empty s). Qed.

Definition all_bytes (p : ascii -> bool) (s : string) : bool := forallb p (bytes s).
Definition any_byte (p : ascii -> bool) (s : string) : bool := existsb p (bytes s).

Definition to_ascii_lowercase (s : string) : string :=
  str (map to_ascii_lowercase_byte (bytes s)).

Fixpoint prefix_of (p l : list ascii) : bool :=
  match p, l with
  | [], _ => true
  | c :: p, d :: l => bool_decide (c = d) && prefix_of p l
  | _ :: _, [] => false
  end.

Lemma prefix_of_spec p l : prefix_of p l = true <-> exists r, l = p ++ r.
Proof.
  revert l. induction p as [|c p IH]; intros [|d l]; cbn.
  - naive_solver.
  - naive_solver.
  - split; [done|by intros [r ?]].
  - rewrite andb_true_iff, bool_decide_eq_true, IH. naive_solver.
Qed.

Definition starts_with (s p : string) : bool := prefix_of (bytes p) (bytes s).
Definition ends_with (s p : string) : bool :=
  prefix_of (rev (bytes p)) (rev (bytes s)).

Definition strip_prefix (s p : string) : option string :=
  if starts_with s p then Some (str (drop (length (bytes p)) (bytes s))) else None.

Definition strip_suffix (s p : string) : option string :=
  if ends_with s p
  then Some (str (take (length (bytes s) - length (bytes p)) (bytes s)))
  else None.

(** [String::cmp]: bytewise lexicographic. *)
Fixpoint bytes_leb (a b : list ascii) : bool :=
  match a, b with
  | [], _ => true
  | _ :: _, [] => false
  | x :: a, y :: b =>
      if byte x <? byte y then true
      else if byte y <? byte x then false else bytes_leb a b
  end.

(** ** Splitting *)

(** [split_once(c)]: around the first [c]. *)
Fixpoint split_once_bytes (c : ascii) (l : list ascii) : option (list ascii * list ascii) :=
  match l with
  | [] => None
  | d :: l =>
      if bool_decide (d = c) then Some ([], l)
      else match split_once_bytes c l with
           | Some (a, b) => Some (d :: a, b)
           | None => None
           end
  end.

(** [rsplit_once(c)]: around the last [c]. *)
Fixpoint rsplit_once_bytes (c : ascii) (l : list ascii) : option (list ascii * list ascii) :=
  match l with
  | [] => None
  | d :: l =>
      match rsplit_once_bytes c l with
      | Some (a, b) => Some (d :: a, b)
      | None => if bool_decide (d = c) then Some ([], l) else None
      end
  end.

Definition on_bytes (f : list ascii -> option (list ascii * list ascii)) (s : string)
  : option (string * string) :=
  match f (bytes s) with
  | Some (a, b) => Some (str a, str b)
  | None => None
  end.

Definition split_once (s : string) (c : ascii) := on_bytes (split_once_bytes c) s.
Definition rsplit_once (s : string) (c : ascii) := on_bytes (rsplit_once_bytes c) s.

Lemma rsplit_once_bytes_spec c l a b :
  rsplit_once_bytes c l = Some (a, b) -> l = a ++ c :: b /\ c ∉ b.
Proof.
  assert (Hn : forall l, rsplit_once_bytes c l = None -> c ∉ l).
  { intros l'. induction l' as [|d l' IH]; cbn; [set_solver|].
    destruct (rsplit_once_bytes c l') as [[??]|]; [done|].
    case_bool_decide; set_solver. }
  revert a. induction l as [|d l IH]; intros a; cbn; [done|].
  destruct (rsplit_once_bytes c l) as [[a' b']|] eqn:E.
  - intros [= <- <-]. destruct (IH a' eq_refl) as [-> ?]. done.
  - case_bool_decide; intros [= <- <-]. subst. cbn. auto.
Qed.

Lemma rsplit_once_bytes_app c a b :
  c ∉ b -> rsplit_once_bytes c (a ++ c :: b) = Some (a, b).
Proof.
  intros Hb.
  assert (Hn : rsplit_once_bytes c b = None).
  { clear a. induction b as [|d b IH]; cbn; [done|].
    rewrite IH by set_solver. case_bool_decide; set_solver. }
  induction a as [|d a IH]; cbn; [rewrite Hn; by case_bool_decide|by rewrite IH].
Qed.

(** [str::split(c)]: every piece, the empty ones too. *)
Fixpoint split_bytes (c : ascii) (l : list ascii) : list (list ascii) :=
  match l with
  | [] => [[]]
  | d :: l =>
      if bool_decide (d = c) then [] :: split_bytes c l
      else match split_bytes c l with
           | piece :: pieces => (d :: piece) :: pieces
           | [] => [[d]]
           end
  end.

Definition split (s : string) (c : ascii) : list string := map str (split_bytes c (bytes s)).

(** ** [char]s: decoding UTF-8 *)

(** [str::chars]: the code points of a UTF-8 byte string (a [str] is valid
    UTF-8 by construction, so the decoder trusts the lead byte as
    [core::str::next_code_point] does). *)
Fixpoint chars_bytes (l : list ascii) : list Z :=
  match l with
  | [] => []
  | b0 :: l0 =>
      let x := byte b0 in
      if x <? 128 then x :: chars_bytes l0
      else match l0 with
      | [] => []
      | b1 :: l1 =>
          let y := byte b1 mod 64 in
          if x <? 224 then ((x mod 32) * 64 + y) :: chars_bytes l1
          else match l1 with
          | [] => []
          | b2 :: l2 =>
              let z := byte b2 mod 64 in
              if x <? 240 then ((x mod 16) * 4096 + y * 64 + z) :: chars_bytes l2
              else match l2 with
              | [] => []
              | b3 :: l3 =>
                  ((x mod 8) * 262144 + y * 4096 + z * 64 + byte b3 mod 64)
                    :: chars_bytes l3
              end
          end
      end
  end.

Definition chars (s : string) : list Z := chars_bytes (bytes s).

(** [char::is_control]: general category Cc. *)
Definition char_is_control (c : Z) : bool :=
  (c <=? 31) || ((127 <=? c) && (c <=? 159)).

(** [char::is_whitespace]: the Unicode property White_Space. *)
Definition char_is_whitespace (c : Z) : bool :=
  ((9 <=? c) && (c <=? 13)) || (c =? 32) || (c =? 133) || (c =? 160) ||
  (c =? 5760) || ((8192 <=? c) && (c <=? 8202)) || (c =? 8232) || (c =? 8233) ||
  (c =? 8239) || (c =? 8287) || (c =? 12288).

(** ** Identifiers

    Four modules of the source hold the same identifier check, a non-empty
    string of at most 128 bytes over [A-Za-z0-9] and, after the first
    position, [. _ : -]. *)

(** [chars().enumerate().all(..)].  The predicates it is used with are false on
    every non-ASCII [char], so running it over the bytes is the same. *)
Fixpoint all_enumerated (p : nat -> ascii -> bool) (i : nat) (l : list ascii) : bool :=
  match l with
  | [] => true
  | c :: l => p i c && all_enumerated p (S i) l
  end.

Definition id_shape (s : string) : bool :=
  negb (is_empty s)
  && (len s <=? 128)
  && all_enumerated
       (fun index character =>
          is_ascii_alphanumeric character
          || (bool_decide (0 < index)%nat
              && one_of ["."; "_"; ":"; "-"]%char character)) 0 (bytes s).

Lemma all_enumerated_Forall p (Q : ascii -> Prop) i l :
  (forall i c, p i c = true -> Q c) -> all_enumerated p i l = true -> Forall Q l.
Proof.
  intros Hp. revert i. induction l as [|c l IH]; intros i; cbn; [by constructor|].
  intros [Hc Hl]%andb_true_iff. constructor; [by eapply Hp|by eapply IH].
Qed.

(** ** Decimal integers *)

(** [<uN as FromStr>::from_str]: an optional [+], then one or more digits,
    failing on overflow. *)
Definition digit_value (c : ascii) : option Z :=
  if is_ascii_digit c then Some (byte c - 48) else None.

Fixpoint parse_digits (hi acc : Z) (l : list ascii) : option Z :=
  match l with
  | [] => Some acc
  | c :: l =>
      match digit_value c with
      | Some d => if acc * 10 + d <=? hi then parse_digits hi (acc * 10 + d) l else None
      | None => None
      end
  end.

Definition parse_uint (hi : Z) (s : string) : option Z :=
  match bytes s with
  | [] => None
  | c :: l =>
      if bool_decide (c = "+"%char)
      then match l with [] => None | _ => parse_digits hi 0 l end
      else parse_digits hi 0 (c :: l)
  end.

(** [to_string] of an unsigned integer. *)
Definition digit_char (d : Z) : ascii := ascii_of_N (Z.to_N (48 + d)).

Fixpoint print_digits (fuel : nat) (n : Z) (acc : list ascii) : list ascii :=
  match fuel with
  | O => acc
  | S fuel =>
      let acc := digit_char (n mod 10) :: acc in
      if n <? 10 then acc else print_digits fuel (n / 10) acc
  end.

(** Forty digits hold every [u128]. *)
Definition print_uint (n : Z) : string := str (print_digits 40 n []).

Lemma parse_digits_range hi acc l v :
  0 <= acc -> parse_digits hi acc l = Some v -> acc <= hi -> 0 <= v <= hi.
Proof.
  revert acc. induction l as [|c l IH]; intros acc Ha; cbn; [intros [= <-]; lia|].
  unfold digit_value. destruct (is_ascii_digit c) eqn:Hc; [|done].
  destruct (Z.leb_spec (acc * 10 + (byte c - 48)) hi); [|done].
  intros Hp _. apply IH in Hp; [done| |lia].
  unfold is_ascii_digit, in_range in Hc. reflect_bools. change (byte "0") with 48 in *. lia.
Qed.

Lemma parse_uint_range hi s v : 0 <= hi -> parse_uint hi s = Some v -> 0 <= v <= hi.
Proof.
  intros Hhi. unfold parse_uint. intros Hp.
  repeat case_match; simplify_eq; by eapply parse_digits_range; [..|done|done].
Qed.
