(* ===== verification/NetState.v ===== *)
(** * NetState: the network state machine and its operations

    [src-tauri/src/networking/state.rs] (the states, the error codes and the
    legal transitions) and [src-tauri/src/networking/operation.rs] (one
    cancellable, time-bounded operation with its event log). *)

From stdpp Require Import relations.
From Stdlib Require Import Ascii String.
From S2P Require Import Prelude Text.

(** ** states and errors *)

Inductive NetworkState : Type :=
| Disconnected
| Authenticating
| FetchingConfig
| PreparingTunnel
| ConnectingPrimary
| ConnectedPrimary
| DegradedFallback
| Reconnecting
| Disconnecting
| Error.

Inductive NetworkErrorCode : Type :=
| UnsupportedSchemaVersion
| UnsupportedProtocolVersion
| InvalidConfiguration
| AuthenticationFailed
| PermissionDenied
| PolicySignatureInvalid
| RouteDiscoveryFailed
| RouteConflict
| RouteJournalCorrupted
| RouteJournalUnavailable
| RouteRollbackFailed
| TunnelStartFailed
| PrimaryTransportUnavailable
| FallbackTransportUnavailable
| OperationCancelled
| OperationTimedOut
| SidecarUnavailable
| InvalidStateTransition.

#[global] Instance NetworkState_eq_dec : EqDecision NetworkState.
Proof. solve_decision. Defined.
#[global] Instance NetworkErrorCode_eq_dec : EqDecision NetworkErrorCode.
Proof. solve_decision. Defined.

(** Methods whose error type is [NetworkErrorCode]. *)
Notation Res A := (result A NetworkErrorCode).
Notation Meth S A := (M S NetworkErrorCode A).

Definition can_transition_to (self next : NetworkState) : bool :=
  match self, next with
  | Disconnected, Authenticating => true
  | Authenticating, (FetchingConfig | Disconnecting | Error) => true
  | FetchingConfig, (PreparingTunnel | Disconnecting | Error) => true
  | PreparingTunnel, (ConnectingPrimary | Disconnecting | Error) => true
  | ConnectingPrimary, (ConnectedPrimary | DegradedFallback | Disconnecting | Error) => true
  | ConnectedPrimary, (DegradedFallback | Reconnecting | Disconnecting | Error) => true
  | DegradedFallback, (Reconnecting | Disconnecting | Error) => true
  | Reconnecting, (ConnectedPrimary | DegradedFallback | Disconnecting | Error) => true
  | (Disconnecting | Error), Disconnected => true
  | _, _ => false
  end.

Definition transition_to (next : NetworkState) : Meth NetworkState unit :=
  fun self =>
    if negb (can_transition_to self next)
    then (Err InvalidStateTransition, self)
    else (Ok tt, next).

Lemma transition_to_ok self next :
  can_transition_to self next = true -> transition_to next self = (Ok tt, next).
Proof. unfold transition_to. by intros ->. Qed.

Lemma transition_to_bad self next :
  can_transition_to self next = false ->
  transition_to next self = (Err InvalidStateTransition, self).
Proof. unfold transition_to. by intros ->. Qed.

(** The loops [for next in [..] { state.transition_to(next)?; }]. *)
Fixpoint transition_all (nexts : list NetworkState) : Meth NetworkState unit :=
  match nexts with
  | [] => ret tt
  | next :: nexts => transition_to next ;! transition_all nexts
  end.

(** A legal step of the machine, and its runs. *)
Definition step (s t : NetworkState) : Prop := can_transition_to s t = true.

(** A run, as the list of states it goes through after the first. *)
Fixpoint run_from (s : NetworkState) (path : list NetworkState) : Prop :=
  match path with
  | [] => True
  | t :: path => step s t /\ run_from t path
  end.

Definition connected (s : NetworkState) : bool :=
  match s with ConnectedPrimary | DegradedFallback => true | _ => false end.

(** The states a connection attempt has to go through. *)
Definition preparation : list NetworkState :=
  [Authenticating; FetchingConfig; PreparingTunnel; ConnectingPrimary].

Lemma run_from_snoc s p t :
  run_from s (p ++ [t]) <-> run_from s p /\ step (List.last p s) t.
Proof.
  revert s. induction p as [|u p IH]; intros s; [cbn; naive_solver|].
  cbn [run_from app]. rewrite IH. destruct p; [cbn; naive_solver|].
  assert (Hl : forall d e, List.last (n :: p) d = List.last (n :: p) e).
  { clear. revert n. induction p as [|m p IH]; intros n d e; [done|]. apply (IH m). }
  rewrite (Hl u s). change (List.last (u :: n :: p) s) with (List.last (n :: p) s).
  naive_solver.
Qed.

(** What a connection attempt, a run that left [Disconnected] and did not come
    back, has gone through, by the state it is in. *)
Definition attempt_shape (s : NetworkState) (path : list NetworkState) : Prop :=
  match s with
  | Disconnected => path = []
  | Authenticating => path = take 1 preparation
  | FetchingConfig => path = take 2 preparation
  | PreparingTunnel => path = take 3 preparation
  | ConnectingPrimary => path = preparation
  | ConnectedPrimary | DegradedFallback | Reconnecting =>
      exists later, path = preparation ++ later
  | Disconnecting | Error => True
  end.

Lemma run_decomposes path :
  run_from Disconnected path ->
  exists before attempt,
    path = before ++ attempt /\ List.last before Disconnected = Disconnected /\
    Disconnected ∉ attempt /\ attempt_shape (List.last path Disconnected) attempt.
Proof.
  induction path as [|t path IH] using rev_ind.
  { intros _. exists [], []. split_and!; [done|done|set_solver|done]. }
  intros [Hrun Hstep]%run_from_snoc.
  destruct (IH Hrun) as (before & attempt & Hp & Hb & Hd & Hs).
  rewrite List.last_last. unfold step in Hstep.
  destruct (decide (t = Disconnected)) as [->|Ht].
  { exists (path ++ [Disconnected]), []. rewrite app_nil_r, List.last_last.
    split_and!; [done|done|set_solver|done]. }
  exists before, (attempt ++ [t]). rewrite app_assoc, <- Hp.
  split_and!; [done|done|set_solver|].
  destruct (List.last path Disconnected), t; try done; cbn in Hs |- *;
    try (destruct Hs as [later ->]; cbn; by eexists); subst attempt; cbn;
    done || by eexists.
Qed.

(** ** one operation *)

Record NetworkStateEvent := {
  ev_sequence : Z;
  ev_operation_id : string;
  ev_state : NetworkState;
  ev_reason : option NetworkErrorCode;
}.

Record NetworkOperation := {
  op_operation_id : string;
  op_state : NetworkState;
  op_deadline_ms : Z;
  op_next_sequence : Z;
  op_events : list NetworkStateEvent;
}.

Definition valid_operation_id (value : string) : bool := id_shape value.

Definition op_with_state (s : NetworkState) (self : NetworkOperation) : NetworkOperation :=
  {| op_operation_id := op_operation_id self; op_state := s;
     op_deadline_ms := op_deadline_ms self;
     op_next_sequence := op_next_sequence self; op_events := op_events self |}.

Definition record (reason : option NetworkErrorCode) (self : NetworkOperation) : NetworkOperation :=
  {| op_operation_id := op_operation_id self;
     op_state := op_state self;
     op_deadline_ms := op_deadline_ms self;
     op_next_sequence := saturating_add u64_max (op_next_sequence self) 1;
     op_events := op_events self ++
       [{| ev_sequence := op_next_sequence self;
           ev_operation_id := op_operation_id self;
           ev_state := op_state self;
           ev_reason := reason |}] |}.

Definition NetworkOperation_new (operation_id : string) (started_at_ms timeout_ms : Z)
  : Res NetworkOperation :=
  if negb (valid_operation_id operation_id) || (timeout_ms =? 0)
  then Err InvalidConfiguration
  else Ok (record None
         {| op_operation_id := operation_id;
            op_state := Disconnected;
            op_deadline_ms := saturating_add u64_max started_at_ms timeout_ms;
            op_next_sequence := 1;
            op_events := [] |}).

Definition transition (next : NetworkState) (reason : option NetworkErrorCode)
  : Meth NetworkOperation unit :=
  zoom op_state op_with_state (transition_to next) ;!
  modify (record reason).

Definition terminate (reason : NetworkErrorCode) : Meth NetworkOperation unit :=
  let! self := get in
  match op_state self with
  | Disconnected => ret tt
  | Error => transition Disconnected (Some reason)
  | Disconnecting => transition Disconnected (Some reason)
  | _ =>
      transition Disconnecting (Some reason) ;!
      transition Disconnected (Some reason)
  end.

Definition cancel (operation_id : string) : Meth NetworkOperation unit :=
  let! self := get in
  if negb (bool_decide (operation_id = op_operation_id self))
  then raise OperationCancelled
  else terminate OperationCancelled.

Definition check_timeout (now_ms : Z) : Meth NetworkOperation bool :=
  let! self := get in
  if (now_ms <? op_deadline_ms self) || bool_decide (op_state self = Disconnected)
  then ret false
  else terminate OperationTimedOut ;! ret true.

(** ** invariant of an operation *)

(** The log numbers its events from 1 (up to the saturated counter), stamps
    them with the operation, is a legal run that starts [Disconnected], and
    ends in the current state. *)
Record op_wf (o : NetworkOperation) : Prop := {
  wf_nonempty : op_events o <> [];
  wf_next : op_next_sequence o =
    Z.min u64_max (Z.of_nat (length (op_events o)) + 1);
  wf_sequence : forall i ev, op_events o !! i = Some ev ->
    ev_sequence ev = Z.min u64_max (Z.of_nat i + 1);
  wf_owner : forall ev, ev ∈ op_events o -> ev_operation_id ev = op_operation_id o;
  wf_run : exists path, ev_state <$> op_events o = Disconnected :: path /\
    run_from Disconnected path /\ List.last path Disconnected = op_state o;
}.

Lemma record_new_wf id deadline :
  op_wf (record None {| op_operation_id := id; op_state := Disconnected;
     op_deadline_ms := deadline; op_next_sequence := 1; op_events := [] |}).
Proof.
  constructor; cbn; try done.
  - intros [|i] ev; cbn; [|done]. intros [= <-]. done.
  - set_solver.
  - by exists [].
Qed.

Lemma record_wf o next reason :
  op_wf o -> can_transition_to (op_state o) next = true ->
  op_wf (record reason (op_with_state next o)).
Proof.
  intros [Hne Hnx Hsq How (path & Hst & Hrun & Hlast)] Hstep. constructor; cbn.
  - by destruct (op_events o).
  - rewrite Hnx, length_app. cbn. unfold saturating_add, u64_max. lia.
  - intros i ev. rewrite lookup_app_Some. intros [?|[Hi Hev]]; [by apply Hsq|].
    apply list_lookup_singleton_Some in Hev as [Hz <-]. cbn. rewrite Hnx.
    unfold u64_max. lia.
  - intros ev [?|?%list_elem_of_singleton]%elem_of_app; [by apply How|by subst].
  - exists (path ++ [next]). split_and!.
    + by rewrite fmap_app, Hst.
    + apply run_from_snoc. split; [done|]. unfold step. by rewrite Hlast.
    + apply List.last_last.
Qed.

(** [transition] either records one legal step or changes nothing. *)
Lemma transition_spec next reason o :
  transition next reason o =
  if can_transition_to (op_state o) next
  then (Ok tt, record reason (op_with_state next o))
  else (Err InvalidStateTransition, o).
Proof.
  unfold transition, bind, zoom, transition_to, modify.
  destruct o as [id st dl nx evs]; cbn. by destruct (can_transition_to st next).
Qed.

(** What ending an operation means: it is [Disconnected], still the same
    operation with the same deadline, its log stays well formed and, unless it
    had already ended, closes with the reason. *)
Record terminated (reason : NetworkErrorCode) (o o' : NetworkOperation) : Prop := {
  tm_state : op_state o' = Disconnected;
  tm_id : op_operation_id o' = op_operation_id o;
  tm_deadline : op_deadline_ms o' = op_deadline_ms o;
  tm_wf : op_wf o -> op_wf o';
  tm_idle : op_state o = Disconnected -> o' = o;
  tm_log : op_state o <> Disconnected ->
    exists evs ev, op_events o' = op_events o ++ evs ++ [ev] /\
      ev_reason ev = Some reason /\ ev_state ev = Disconnected;
}.

Lemma terminated_directly reason o :
  can_transition_to (op_state o) Disconnected = true ->
  terminated reason o (record (Some reason) (op_with_state Disconnected o)).
Proof.
  intros Hc. constructor; cbn; try done.
  - intros Hwf. by apply record_wf.
  - intros He. by rewrite He in Hc.
  - intros _. exists []. by eexists.
Qed.

Lemma terminated_through reason o :
  can_transition_to (op_state o) Disconnecting = true ->
  terminated reason o (record (Some reason) (op_with_state Disconnected
    (record (Some reason) (op_with_state Disconnecting o)))).
Proof.
  intros Hc. constructor; cbn; try done.
  - intros Hwf. by apply (record_wf (record _ _)); [apply record_wf|].
  - intros He. by rewrite He in Hc.
  - intros _. eexists [_], _. rewrite <- app_assoc. done.
Qed.

(** [terminate] never fails. *)
Lemma terminate_spec reason o :
  exists o', terminate reason o = (Ok tt, o') /\ terminated reason o o'.
Proof.
  unfold terminate, bind, get, ret.
  destruct (op_state o) eqn:Hst;
    rewrite ?transition_spec, ?Hst; cbn; rewrite ?transition_spec; cbn;
    eexists; (split; [reflexivity|]);
    (apply terminated_through || apply terminated_directly || constructor);
    rewrite ?Hst; done.
Qed.

(** ** theorems *)

(** No shortcut to a connection: every legal path of states from Disconnected to a
    connected state contains, after its last visit to Disconnected, the complete
    preparation in order. *)
Theorem connected_only_after_preparation path t :
  run_from Disconnected (path ++ [t]) -> connected t = true ->
  exists before after, path = before ++ preparation ++ after /\
    List.last before Disconnected = Disconnected /\ Disconnected ∉ after.
Proof.
  intros Hrun Ht.
  destruct (run_decomposes _ Hrun) as (before & attempt & Hp & Hb & Hd & Hs).
  rewrite List.last_last in Hs.
  assert (exists later, attempt = preparation ++ later) as [later ->]
    by (by destruct t).
  destruct later as [|u later _] using rev_ind.
  - rewrite app_nil_r in Hp. unfold preparation in Hp.
    apply (f_equal (fun l => List.last l Disconnected)) in Hp.
    rewrite List.last_last in Hp.
    change [Authenticating; FetchingConfig; PreparingTunnel; ConnectingPrimary] with
      ([Authenticating; FetchingConfig; PreparingTunnel] ++ [ConnectingPrimary]) in Hp.
    rewrite app_assoc, List.last_last in Hp. by subst t.
  - exists before, later. rewrite !app_assoc in Hp.
    apply app_inj_tail in Hp as [-> ->]. rewrite <- app_assoc. set_solver.
Qed.

(** Every state can be torn down in at most two steps. *)
Lemma teardown_always_reachable s :
  exists path, run_from s path /\ (length path <= 2)%nat /\
    List.last path s = Disconnected.
Proof.
  destruct s;
    by (exists []; split_and!; [done|cbn; lia|done]) ||
       (exists [Disconnected]; split_and!; [done|cbn; lia|done]) ||
       (exists [Disconnecting; Disconnected]; split_and!; [done|cbn; lia|done]).
Qed.

(** A new operation is well formed, and every transition, cancellation and timeout check
    keeps it so: the log is never empty, its events are numbered from one without gaps
    (saturating at the 64-bit maximum), carry the operation's id, follow legal
    transitions from Disconnected and end in the current state. *)
Theorem operation_log_invariant id started timeout o :
  NetworkOperation_new id started timeout = Ok o ->
  op_wf o /\
  (forall o1 next reason, op_wf o1 -> op_wf (transition next reason o1).2) /\
  (forall o1 other, op_wf o1 -> op_wf (cancel other o1).2) /\
  (forall o1 now, op_wf o1 -> op_wf (check_timeout now o1).2).
Proof.
  intros Hnew. split_and!.
  - unfold NetworkOperation_new in Hnew. case_match; [done|]. injection Hnew as <-.
    apply record_new_wf.
  - intros o1 next reason Hwf. rewrite transition_spec. case_match; [|done].
    by apply record_wf.
  - intros o1 other Hwf. unfold cancel, bind, get. case_match; [done|].
    destruct (terminate_spec OperationCancelled o1) as (o' & -> & Ht).
    by apply (tm_wf _ _ _ Ht).
  - intros o1 now Hwf. unfold check_timeout, bind, get, ret. case_match; [done|].
    destruct (terminate_spec OperationTimedOut o1) as (o' & -> & Ht).
    by apply (tm_wf _ _ _ Ht).
Qed.

(** Cancel with another operation's id is refused and changes nothing, with its own id
    it ends the operation as cancelled; a timeout check before the deadline does
    nothing, at or after it ends the operation as timed out, once. *)
Theorem cancel_and_timeout_behaviour o :
  (forall id, id <> op_operation_id o -> cancel id o = (Err OperationCancelled, o)) /\
  (exists o', cancel (op_operation_id o) o = (Ok tt, o') /\
     terminated OperationCancelled o o') /\
  (forall now, now < op_deadline_ms o -> check_timeout now o = (Ok false, o)) /\
  (forall now, op_deadline_ms o <= now -> op_state o <> Disconnected ->
     exists o', check_timeout now o = (Ok true, o') /\ terminated OperationTimedOut o o' /\
       forall later, check_timeout later o' = (Ok false, o')).
Proof.
  split_and!.
  - intros id Hid. unfold cancel, bind, get. by rewrite bool_decide_false.
  - unfold cancel, bind, get. rewrite bool_decide_true by done.
    apply terminate_spec.
  - intros now Hnow. unfold check_timeout, bind, get.
    by rewrite (proj2 (Z.ltb_lt _ _) Hnow).
  - intros now Hnow Hst.
    destruct (terminate_spec OperationTimedOut o) as (o' & Heq & Ht).
    exists o'. split_and!; [|done|].
    + unfold check_timeout, bind, get, ret.
      rewrite (proj2 (Z.ltb_ge _ _) Hnow), bool_decide_false by done. cbn [orb].
      by rewrite Heq.
    + intros later. unfold check_timeout, bind, get, ret.
      by rewrite (tm_state _ _ _ Ht), bool_decide_true, orb_true_r by done.
Qed.
