(* ===== verification/IpAddr.v ===== *)
(** * IpAddr: [std::net::IpAddr] as the network core uses it

    The parser of [core::net::parser] (dotted IPv4 without leading zeros, IPv6
    with [::] and an embedded IPv4 tail), the canonical printer of
    [Display for IpAddr], and the arithmetic of network prefixes: masks, the
    addresses a prefix contains, when two prefixes share an address. *)

From Stdlib Require Import Ascii String.
From S2P Require Import Prelude Text.

(** ** addresses *)

Inductive IpAddr : Type :=
| V4 (bits : Z)
| V6 (bits : Z).

#[global] Instance IpAddr_eq_dec : EqDecision IpAddr.
Proof. solve_decision. Defined.

Definition is_ipv4 (a : IpAddr) : bool := match a with V4 _ => true | V6 _ => false end.
Definition is_ipv6 (a : IpAddr) : bool := negb (is_ipv4 a).

(** [u128::from] of either family ([u32] widened for IPv4). *)
Definition addr_value (a : IpAddr) : Z := match a with V4 b => b | V6 b => b end.
Definition addr_width (a : IpAddr) : Z := match a with V4 _ => 32 | V6 _ => 128 end.

Definition addr_wf (a : IpAddr) : Prop := 0 <= addr_value a < 2 ^ addr_width a.

Definition is_unspecified (a : IpAddr) : bool := addr_value a =? 0.

(** 224.0.0.0/4 and ff00::/8. *)
Definition is_multicast (a : IpAddr) : bool :=
  match a with
  | V4 b => (224 <=? Z.shiftr b 24) && (Z.shiftr b 24 <=? 239)
  | V6 b => Z.shiftr b 120 =? 255
  end.

(** Byte [i], counted from the most significant one. *)
Definition octet (width x i : Z) : Z := Z.land (Z.shiftr x (width - 8 * (i + 1))) 255.
(** 16-bit group [i] of an IPv6 address. *)
Definition segment (x i : Z) : Z := Z.land (Z.shiftr x (128 - 16 * (i + 1))) 65535.

(** ** parsing *)

(** A reader takes the rest of the input and answers a value and what is left;
    [None] leaves the caller's input as it was ([read_atomically]). *)
Definition reader A := list ascii -> option (A * list ascii).

Definition to_digit (radix : Z) (c : ascii) : option Z :=
  let d :=
    if is_ascii_digit c then Some (byte c - 48)
    else if in_range "a" "z" c then Some (byte c - 87)
    else if in_range "A" "Z" c then Some (byte c - 55)
    else None in
  match d with
  | Some d => if d <? radix then Some d else None
  | None => None
  end.

Fixpoint take_digits (radix : Z) (l : list ascii) : list Z * list ascii :=
  match l with
  | [] => ([], [])
  | c :: l' =>
      match to_digit radix c with
      | Some d => let (ds, r) := take_digits radix l' in (d :: ds, r)
      | None => ([], l)
      end
  end.

Definition digits_value (radix : Z) (ds : list Z) : Z :=
  fold_left (fun acc d => acc * radix + d) ds 0.

(** [read_number(radix, Some(max_digits), allow_zero_prefix)] at a type whose
    greatest value is [hi]. *)
Definition read_number (hi radix : Z) (max_digits : nat) (allow_zero_prefix : bool)
  : reader Z :=
  fun l =>
    let (ds, r) := take_digits radix l in
    if bool_decide (max_digits < length ds)%nat then None
    else if bool_decide (ds = []) then None
    else if negb allow_zero_prefix && bool_decide (head ds = Some 0)
            && bool_decide (1 < length ds)%nat then None
    else let v := digits_value radix ds in
         if v <=? hi then Some (v, r) else None.

Definition read_given_char (c : ascii) : reader unit :=
  fun l => match l with
           | d :: l => if bool_decide (d = c) then Some (tt, l) else None
           | [] => None
           end.

Definition read_separator {A} (sep : ascii) (index : nat) (inner : reader A) : reader A :=
  fun l =>
    match index with
    | O => inner l
    | S _ => match read_given_char sep l with
             | Some (_, l) => inner l
             | None => None
             end
    end.

Fixpoint read_octets (n i : nat) : reader (list Z) :=
  fun l =>
    match n with
    | O => Some ([], l)
    | S n =>
        match read_separator "." i (read_number 255 10 3 false) l with
        | Some (o, l) =>
            match read_octets n (S i) l with
            | Some (os, l) => Some (o :: os, l)
            | None => None
            end
        | None => None
        end
    end.

Definition of_octets (os : list Z) : Z := fold_left (fun acc o => acc * 256 + o) os 0.
Definition of_groups (gs : list Z) : Z := fold_left (fun acc g => acc * 65536 + g) gs 0.

Definition read_ipv4_addr : reader Z :=
  fun l => match read_octets 4 0 l with
           | Some (os, l) => Some (of_octets os, l)
           | None => None
           end.

(** [read_groups]: the groups read, whether they end in an embedded IPv4
    address, and the rest. *)
Fixpoint read_groups (limit i : nat) (l : list ascii) : list Z * bool * list ascii :=
  match limit with
  | O => ([], false, l)
  | S limit' =>
      match (if bool_decide (2 <= limit)%nat then read_separator ":" i read_ipv4_addr l else None) with
      | Some (v4, l') => ([Z.shiftr v4 16; Z.land v4 65535], true, l')
      | None =>
          match read_separator ":" i (read_number 65535 16 4 true) l with
          | Some (g, l') =>
              let '(gs, v4, r) := read_groups limit' (S i) l' in (g :: gs, v4, r)
          | None => ([], false, l)
          end
      end
  end.

Definition read_ipv6_addr : reader Z :=
  fun l =>
    let '(hd, hd_ipv4, l) := read_groups 8 0 l in
    if bool_decide (length hd = 8%nat) then Some (of_groups hd, l)
    else if (hd_ipv4 : bool) then None
    else match read_given_char ":" l with
    | None => None
    | Some (_, l) =>
        match read_given_char ":" l with
        | None => None
        | Some (_, l) =>
            let limit := (8 - (length hd + 1))%nat in
            let '(tl, _, l) := read_groups limit 0 l in
            Some (of_groups (hd ++ replicate (8 - length hd - length tl) 0 ++ tl), l)
        end
    end.

Definition read_ip_addr : reader IpAddr :=
  fun l =>
    match read_ipv4_addr l with
    | Some (a, l) => Some (V4 a, l)
    | None =>
        match read_ipv6_addr l with
        | Some (a, l) => Some (V6 a, l)
        | None => None
        end
    end.

(** [parse_with]: the whole input has to be consumed. *)
Definition parse_with {A} (inner : reader A) (s : string) : option A :=
  match inner (bytes s) with
  | Some (a, []) => Some a
  | _ => None
  end.

(** [str::parse::<IpAddr>] and [str::parse::<Ipv6Addr>]. *)
Definition parse_ip : string -> option IpAddr := parse_with read_ip_addr.
Definition parse_ipv6 : string -> option Z := parse_with read_ipv6_addr.

(** ** printing *)

Definition hex_char (d : Z) : ascii :=
  if d <? 10 then digit_char d else ascii_of_N (Z.to_N (87 + d)).

Fixpoint print_hex_digits (fuel : nat) (n : Z) (acc : list ascii) : list ascii :=
  match fuel with
  | O => acc
  | S fuel =>
      let acc := hex_char (n mod 16) :: acc in
      if n <? 16 then acc else print_hex_digits fuel (n / 16) acc
  end.
Definition print_hex (n : Z) : string := str (print_hex_digits 32 n []).

Definition join (sep : string) (l : list string) : string := String.concat sep l.

Definition print_ipv4 (x : Z) : string :=
  join "." (map (fun i => print_uint (octet 32 x i)) [0; 1; 2; 3]).

Definition segments (x : Z) : list Z := map (segment x) [0; 1; 2; 3; 4; 5; 6; 7].

(** The longest run of zero segments, the first one among equals: the state is
    (longest start, longest length, current start, current length). *)
Definition zero_run (gs : list Z) : nat * nat :=
  let step (acc : nat * (nat * nat) * (nat * nat)) (g : Z) :=
    let '(i, (ls, ll), (cs, cl)) := acc in
    if g =? 0 then
      let cs := (if bool_decide (cl = 0%nat) then i else cs) in
      let cl := S cl in
      if bool_decide (ll < cl)%nat then (S i, (cs, cl), (cs, cl))
      else (S i, (ls, ll), (cs, cl))
    else (S i, (ls, ll), (0%nat, 0%nat)) in
  let '(_, longest, _) := fold_left step gs (0%nat, (0%nat, 0%nat), (0%nat, 0%nat)) in
  longest.

Definition fmt_subslice (gs : list Z) : string := join ":" (map print_hex gs).

Definition print_ipv6 (x : Z) : string :=
  let gs := segments x in
  if bool_decide (take 6 gs = [0; 0; 0; 0; 0; 65535])
  then String.append "::ffff:" (print_ipv4 (Z.land x u32_max))
  else
    let (start, n) := zero_run gs in
    if bool_decide (1 < n)%nat
    then String.append (fmt_subslice (take start gs))
           (String.append "::" (fmt_subslice (drop (start + n) gs)))
    else fmt_subslice gs.

Definition print_ip (a : IpAddr) : string :=
  match a with V4 x => print_ipv4 x | V6 x => print_ipv6 x end.

Example print_ex1 : print_ip (V6 (2 ^ 120 * 253 + 100 * 2 ^ 96)) = "fd00:64::"%string.
Proof. vm_compute. reflexivity. Qed.
Example parse_ex1 : parse_ip "10.64.0.0" = Some (V4 171966464).
Proof. vm_compute. reflexivity. Qed.
Example parse_ex2 : parse_ip "10.064.0.0" = None.
Proof. vm_compute. reflexivity. Qed.
Example parse_ex3 : parse_ip "::ffff:1.2.3.4" = Some (V6 (65535 * 2 ^ 32 + 16909060)).
Proof. vm_compute. reflexivity. Qed.
Example parse_ex4 : parse_ip "fd00:64::" = Some (V6 (2 ^ 120 * 253 + 100 * 2 ^ 96)).
Proof. vm_compute. reflexivity. Qed.
Example parse_ex5 : parse_ip "1:2:3:4:5:6:7:8:9" = None.
Proof. vm_compute. reflexivity. Qed.
Example parse_ex6 : parse_ip "1::2::3" = None.
Proof. vm_compute. reflexivity. Qed.

(** ** parsed addresses are in range *)

Lemma to_digit_range radix c d : to_digit radix c = Some d -> 0 <= d < radix.
Proof.
  unfold to_digit, is_ascii_digit, in_range.
  change (byte "0") with 48. change (byte "9") with 57. change (byte "a") with 97.
  change (byte "z") with 122. change (byte "A") with 65. change (byte "Z") with 90.
  intros H. repeat case_match; simplify_eq; reflect_bools; lia.
Qed.

Lemma take_digits_range radix l :
  Forall (fun d => 0 <= d) (take_digits radix l).1.
Proof.
  induction l as [|c l IH]; cbn; [constructor|].
  destruct (to_digit radix c) as [d|] eqn:E; [|constructor].
  apply to_digit_range in E.
  destruct (take_digits radix l); cbn in *. constructor; [lia|done].
Qed.

Lemma fold_digits_nonneg radix ds acc :
  0 <= radix -> 0 <= acc -> Forall (fun d => 0 <= d) ds ->
  0 <= fold_left (fun acc d => acc * radix + d) ds acc.
Proof.
  intros Hr Ha Hds. revert acc Ha.
  induction Hds as [|d ds Hd Hds IH]; intros acc Ha; cbn; [done|].
  apply IH. nia.
Qed.

Lemma read_number_range hi radix n z l v r :
  0 <= radix -> read_number hi radix n z l = Some (v, r) -> 0 <= v <= hi.
Proof.
  intros Hr. unfold read_number. pose proof (take_digits_range radix l) as Hd.
  destruct (take_digits radix l) as [ds r']. intros H.
  repeat case_match; simplify_eq. reflect_bools. split; [|done].
  by apply fold_digits_nonneg.
Qed.

Lemma read_separator_inv {A} sep i (inner : reader A) l a r :
  read_separator sep i inner l = Some (a, r) -> exists l', inner l' = Some (a, r).
Proof. unfold read_separator. intros. repeat case_match; naive_solver. Qed.

Lemma read_octets_spec n i l os r :
  read_octets n i l = Some (os, r) ->
  length os = n /\ Forall (fun o => 0 <= o <= 255) os.
Proof.
  revert i l os. induction n as [|n IH]; intros i l os; cbn.
  { intros [= <- <-]. by split. }
  destruct (read_separator _ _ _ l) as [[o l']|] eqn:Eo; [|done].
  destruct (read_octets n (S i) l') as [[os' l'']|] eqn:E; [|done].
  intros [= <- <-]. apply IH in E as [<- ?].
  apply read_separator_inv in Eo as [l0 Hn].
  apply read_number_range in Hn; [|lia]. split; [done|by constructor].
Qed.

Lemma read_ipv4_range l x r : read_ipv4_addr l = Some (x, r) -> 0 <= x < 2 ^ 32.
Proof.
  unfold read_ipv4_addr. destruct (read_octets 4 0 l) as [[os l']|] eqn:E; [|done].
  apply read_octets_spec in E as [Hlen Hos]. intros [= <- <-].
  do 5 (destruct os as [|? os]; try done). cbn in *.
  rewrite !Forall_cons in Hos. unfold of_octets. cbn. lia.
Qed.

Lemma read_groups_spec limit i l gs v4 r :
  read_groups limit i l = (gs, v4, r) ->
  (length gs <= limit)%nat /\ Forall (fun g => 0 <= g <= 65535) gs.
Proof.
  revert i l gs v4. induction limit as [|limit IH]; intros i l gs v4; cbn [read_groups].
  { intros [= <- <- <-]. by split. }
  destruct (if bool_decide _ then _ else _) as [[x l']|] eqn:E4.
  - case_bool_decide as H2; [|done]. intros [= <- <- <-].
    apply read_separator_inv in E4 as [l0 Hv].
    apply read_ipv4_range in Hv. split; [cbn; lia|].
    change (Z.land x 65535) with (Z.land x (Z.ones 16)).
    rewrite !Forall_cons, Z.shiftr_div_pow2, Z.land_ones by lia.
    pose proof (Z.mod_pos_bound x (2 ^ 16)). pose proof (Z.div_pos x (2 ^ 16)).
    pose proof (Z.div_lt_upper_bound x (2 ^ 16) 65536). split_and!; [lia..|done].
  - destruct (read_separator ":" i (read_number 65535 16 4 true) l) as [[g l']|] eqn:Eg.
    + destruct (read_groups limit (S i) l') as [[gs' v4'] r'] eqn:E.
      intros [= <- <- <-]. apply IH in E as [??].
      apply read_separator_inv in Eg as [l0 Hn].
      apply read_number_range in Hn; [|lia]. split; [cbn; lia|by constructor].
    + intros [= <- <- <-]. split; [cbn; lia|constructor].
Qed.

Lemma of_groups_range gs :
  length gs = 8%nat -> Forall (fun g => 0 <= g <= 65535) gs -> 0 <= of_groups gs < 2 ^ 128.
Proof.
  intros Hlen Hgs. do 9 (destruct gs as [|? gs]; try done).
  rewrite !Forall_cons in Hgs. unfold of_groups. cbn [fold_left].
  change (2 ^ 128) with (65536 ^ 8). lia.
Qed.

Lemma read_ipv6_range l x r : read_ipv6_addr l = Some (x, r) -> 0 <= x < 2 ^ 128.
Proof.
  unfold read_ipv6_addr. destruct (read_groups 8 0 l) as [[h v4] l1] eqn:Eh.
  apply read_groups_spec in Eh as [Hlen Hh].
  case_bool_decide as H8; [intros [= <- <-]; by apply of_groups_range|].
  destruct v4; [done|]. destruct (read_given_char _ l1) as [[_ l2]|]; [|done].
  destruct (read_given_char _ l2) as [[_ l3]|]; [|done].
  destruct (read_groups _ 0 l3) as [[t v4'] l4] eqn:Et.
  apply read_groups_spec in Et as [Htl Ht]. intros [= <- <-].
  apply of_groups_range.
  - rewrite !length_app, length_replicate. lia.
  - rewrite !Forall_app. split_and!; [done| |done].
    apply Forall_replicate. lia.
Qed.

Lemma parse_ip_wf s a : parse_ip s = Some a -> addr_wf a.
Proof.
  unfold parse_ip, parse_with, read_ip_addr, addr_wf. intros H.
  destruct (read_ipv4_addr (bytes s)) as [[x l]|] eqn:E4.
  - destruct l; simplify_eq. by apply read_ipv4_range in E4.
  - destruct (read_ipv6_addr (bytes s)) as [[x l]|] eqn:E6; [|done].
    destruct l; simplify_eq. by apply read_ipv6_range in E6.
Qed.

(** ** prefix masks *)

(** The mask of a prefix of [prefix] bits in a family of [width] bits, as the
    sources build it. *)
Definition prefix_mask (width prefix : Z) : Z :=
  if prefix =? 0 then 0 else u128_shl u128_max (width - prefix).

Lemma u128_max_ones : u128_max = Z.ones 128.
Proof. reflexivity. Qed.

(** [MAX << k] at a width of [w] bits keeps the bits from [k] on. *)
Lemma land_shl_ones w a k :
  0 <= a < 2 ^ w -> 0 <= k -> 0 < w ->
  Z.land a (Z.land (Z.shiftl (Z.ones w) k) (Z.ones w)) = Z.shiftl (Z.shiftr a k) k.
Proof.
  intros Ha Hk Hw. apply Z.bits_inj'. intros n Hn.
  rewrite !Z.land_spec, !Z.shiftl_spec by lia.
  destruct (Z.lt_ge_cases n k) as [Hnk|Hnk].
  - rewrite !(Z.testbit_neg_r _ (n - k)) by lia. cbn. by rewrite andb_false_r.
  - rewrite Z.shiftr_spec by lia. replace (n - k + k) with n by lia.
    destruct (Z.lt_ge_cases n w) as [H8|H8].
    + rewrite !Z.testbit_ones_nonneg by lia.
      rewrite (proj2 (Z.ltb_lt (n - k) w)), (proj2 (Z.ltb_lt n w)) by lia.
      by rewrite andb_true_r.
    + rewrite (Z.bits_above_log2 a n); [done|lia|].
      destruct (Z.eq_dec a 0) as [->|]; [cbn; lia|].
      apply Z.log2_lt_pow2; [lia|]. eapply Z.lt_le_trans; [apply Ha|].
      apply Z.pow_le_mono_r; lia.
Qed.

Lemma land_u128_shl a k :
  0 <= a < 2 ^ 128 -> 0 <= k ->
  Z.land a (u128_shl u128_max k) = Z.shiftl (Z.shiftr a k) k.
Proof. intros Ha Hk. by apply (land_shl_ones 128). Qed.

(** Two addresses have the same masked value exactly when they agree above the
    host bits. *)
Lemma land_mask_eq width prefix a b :
  0 <= a < 2 ^ width -> 0 <= b < 2 ^ width -> 0 <= prefix <= width -> width <= 128 ->
  Z.land a (prefix_mask width prefix) = Z.land b (prefix_mask width prefix) <->
  a / 2 ^ (width - prefix) = b / 2 ^ (width - prefix).
Proof.
  intros Ha Hb Hp Hw. unfold prefix_mask.
  assert (2 ^ width <= 2 ^ 128) by (apply Z.pow_le_mono_r; lia).
  destruct (Z.eqb_spec prefix 0) as [->|Hp0].
  - rewrite !Z.land_0_r, Z.sub_0_r, !Z.div_small by lia. done.
  - rewrite !land_u128_shl, !Z.shiftl_mul_pow2, !Z.shiftr_div_pow2 by lia.
    assert (0 < 2 ^ (width - prefix)) by (apply Z.pow_pos_nonneg; lia). nia.
Qed.

(** [addr] lies in the network of [base] with that prefix length. *)
Definition in_prefix (width base prefix addr : Z) : Prop :=
  0 <= addr < 2 ^ width /\
  addr / 2 ^ (width - prefix) = base / 2 ^ (width - prefix).

Lemma div_coarser width p q x y :
  0 <= p <= q -> q <= width -> 0 <= x -> 0 <= y ->
  x / 2 ^ (width - q) = y / 2 ^ (width - q) ->
  x / 2 ^ (width - p) = y / 2 ^ (width - p).
Proof.
  intros Hp Hq Hx Hy H.
  replace (width - p) with ((width - q) + (q - p)) by lia.
  rewrite Z.pow_add_r by lia. rewrite <- !Z.div_div by lia. by rewrite H.
Qed.

(** The test every module uses, equality under the shorter mask, says exactly
    that the two prefixes have an address in common. *)
Lemma same_under_shorter_mask width a p b q :
  0 <= a < 2 ^ width -> 0 <= b < 2 ^ width -> 0 <= p <= width -> 0 <= q <= width ->
  a / 2 ^ (width - Z.min p q) = b / 2 ^ (width - Z.min p q) <->
  exists addr, in_prefix width a p addr /\ in_prefix width b q addr.
Proof.
  intros Ha Hb Hp Hq. split.
  - intros H. destruct (Z.le_ge_cases p q) as [Hpq|Hpq].
    + rewrite Z.min_l in H by lia. exists b. unfold in_prefix. split_and!; done || lia.
    + rewrite Z.min_r in H by lia. exists a. unfold in_prefix. split_and!; done || lia.
  - intros (x & [Hx H1] & [_ H2]).
    transitivity (x / 2 ^ (width - Z.min p q)).
    + symmetry. apply (div_coarser width _ p); [lia|lia|lia|lia|done].
    + apply (div_coarser width _ q); [lia|lia|lia|lia|done].
Qed.
