(* ===== verification/IpRoundTrip.v ===== *)
(** * IpRoundTrip: printed addresses parse back

    The text form of an [IpAddr] ([Display]) is read back by [FromStr] to the
    same address, for both families and through the zero compression of IPv6.
    The network core prints an address and hands the text to another reader in
    several places: the arguments of [/sbin/route], the normalised destinations
    of [netstat], the canonical prefixes of production profiles. *)

From Stdlib Require Import Ascii String.
From S2P Require Import Prelude Text IpAddr.

(** ** numbers, checked exhaustively at their width *)

Fixpoint all_from (fuel : nat) (v : Z) (p : Z -> bool) : bool :=
  match fuel with
  | O => true
  | S fuel => p v && all_from fuel (v + 1) p
  end.

Lemma all_from_spec fuel v p :
  all_from fuel v p = true -> forall w, v <= w < v + Z.of_nat fuel -> p w = true.
Proof.
  revert v. induction fuel as [|fuel IH]; intros v; cbn [all_from]; [lia|].
  intros [Hv Hr]%andb_true_iff w Hw. destruct (Z.eq_dec w v) as [->|]; [done|].
  apply (IH (v + 1)); [done|lia].
Qed.

Definition decimal_reads_back (v : Z) : bool :=
  bool_decide (read_number 255 10 3 false (bytes (print_uint v)) = Some (v, [])) &&
  bool_decide (parse_uint u8_max (print_uint v) = Some v) &&
  negb (bool_decide ("/"%char ∈ bytes (print_uint v))).

Lemma decimal_exhaustive : all_from 256 0 decimal_reads_back = true.
Proof. vm_compute. reflexivity. Qed.

Definition is_hex_digit (c : ascii) : bool := is_ascii_digit c || in_range "a" "f" c.

(** Hexadecimal numbers are printed digit by digit. *)
Fixpoint hex_digits (fuel : nat) (n : Z) (acc : list Z) : list Z :=
  match fuel with
  | O => acc
  | S fuel =>
      let acc := n mod 16 :: acc in
      if n <? 16 then acc else hex_digits fuel (n / 16) acc
  end.

Lemma print_hex_digits_map fuel n acc :
  print_hex_digits fuel n (map hex_char acc) = map hex_char (hex_digits fuel n acc).
Proof.
  revert n acc. induction fuel as [|fuel IH]; intros n acc; cbn; [done|].
  change (hex_char (n mod 16) :: map hex_char acc) with (map hex_char (n mod 16 :: acc)).
  case_match; [done|apply IH].
Qed.

Definition nibble (d : Z) : bool :=
  bool_decide (to_digit 16 (hex_char d) = Some d) && is_hex_digit (hex_char d).

Lemma nibble_exhaustive : all_from 16 0 nibble = true.
Proof. vm_compute. reflexivity. Qed.

Lemma hex_digits_spec k : forall fuel n acc,
  (0 < k <= fuel)%nat -> 0 <= n < 16 ^ Z.of_nat k -> Forall (fun d => 0 <= d < 16) acc ->
  exists ds, hex_digits fuel n acc = ds ++ acc /\ ds <> [] /\ (length ds <= k)%nat /\
    Forall (fun d => 0 <= d < 16) ds /\ forall z, fold_left (fun a d => a * 16 + d) ds z =
      z * 16 ^ Z.of_nat (length ds) + n.
Proof.
  induction k as [|k IH]; intros fuel n acc Hk Hn Hacc; [lia|].
  destruct fuel as [|fuel]; [lia|]. cbn [hex_digits].
  pose proof (Z.mod_pos_bound n 16 ltac:(lia)) as Hm.
  destruct (Z.ltb_spec n 16) as [Hlt|Hge].
  - exists [n mod 16]. rewrite Z.mod_small in * by lia.
    split_and!; [done|done|cbn; lia|by apply Forall_singleton|]. intros z. cbn. lia.
  - assert (k <> 0)%nat by (intros ->; change (16 ^ Z.of_nat 1) with 16 in Hn; lia).
    rewrite Nat2Z.inj_succ, Z.pow_succ_r in Hn by lia.
    destruct (IH fuel (n / 16) (n mod 16 :: acc)) as (ds & Hds & Hne & Hlen & Hr & Hv).
    + lia.
    + split; [apply Z.div_pos; lia|apply Z.div_lt_upper_bound; lia].
    + by constructor.
    + exists (ds ++ [n mod 16]). rewrite Hds, <- app_assoc. split_and!.
      * done.
      * by destruct ds.
      * rewrite length_app. cbn. lia.
      * apply Forall_app. split; [done|by apply Forall_singleton].
      * intros z. rewrite fold_left_app, Hv, length_app. cbn [fold_left length].
        rewrite Nat2Z.inj_add, Z.pow_add_r by lia. change (16 ^ Z.of_nat 1) with 16.
        pose proof (Z_div_mod_eq_full n 16). lia.
Qed.

Lemma take_hex_digits ds :
  Forall (fun d => 0 <= d < 16) ds ->
  take_digits 16 (map hex_char ds) = (ds, []) /\ forallb is_hex_digit (map hex_char ds) = true.
Proof.
  induction 1 as [|d ds Hd _ [IH1 IH2]]; [done|]. cbn [map take_digits forallb].
  pose proof (all_from_spec _ _ _ nibble_exhaustive d ltac:(lia)) as Hn.
  apply andb_true_iff in Hn as [Hn Hh]. apply bool_decide_eq_true in Hn.
  by rewrite Hn, IH1, Hh, IH2.
Qed.

Lemma read_decimal v : 0 <= v <= 255 ->
  read_number 255 10 3 false (bytes (print_uint v)) = Some (v, []).
Proof.
  intros Hv. pose proof (all_from_spec _ _ _ decimal_exhaustive v ltac:(lia)) as Hd.
  unfold decimal_reads_back in Hd. by reflect_bools.
Qed.

Lemma parse_print_u8 v : 0 <= v <= 255 -> parse_uint u8_max (print_uint v) = Some v.
Proof.
  intros Hv. pose proof (all_from_spec _ _ _ decimal_exhaustive v ltac:(lia)) as Hd.
  unfold decimal_reads_back in Hd. by reflect_bools.
Qed.

Lemma print_u8_no_slash v : 0 <= v <= 255 -> "/"%char ∉ bytes (print_uint v).
Proof.
  intros Hv. pose proof (all_from_spec _ _ _ decimal_exhaustive v ltac:(lia)) as Hd.
  unfold decimal_reads_back in Hd. by reflect_bools.
Qed.

Lemma read_hex g : 0 <= g < 65536 ->
  read_number 65535 16 4 true (bytes (print_hex g)) = Some (g, []) /\
  forallb is_hex_digit (bytes (print_hex g)) = true /\ bytes (print_hex g) <> [].
Proof.
  intros Hg. destruct (hex_digits_spec 4 32 g []) as (ds & Hds & Hne & Hlen & Hr & Hv);
    [lia|lia|constructor|].
  assert (Hb : bytes (print_hex g) = map hex_char ds).
  { unfold print_hex. rewrite bytes_str. change [] with (map hex_char []) at 1.
    by rewrite print_hex_digits_map, Hds, app_nil_r. }
  destruct (take_hex_digits ds Hr) as [Ht Hh]. rewrite Hb. split_and!; [|done|by destruct ds].
  unfold read_number. rewrite Ht, !bool_decide_false by (done || lia). cbn [negb andb].
  unfold digits_value. rewrite Hv. by rewrite (proj2 (Z.leb_le _ _)) by lia.
Qed.

(** ** reading stops at a character that is no digit *)

Definition stops (radix : Z) (r : list ascii) : Prop :=
  match r with [] => True | c :: _ => to_digit radix c = None end.

Lemma take_digits_app radix l ds r :
  take_digits radix l = (ds, []) -> stops radix r -> take_digits radix (l ++ r) = (ds, r).
Proof.
  intros Hl Hr. revert ds Hl. induction l as [|c l IH]; intros ds; cbn.
  - intros [= <-]. destruct r as [|c r]; [done|]. cbn in *. by rewrite Hr.
  - destruct (to_digit radix c) as [d|]; [|done].
    destruct (take_digits radix l) as [ds' r']. intros [= <- ->]. by rewrite (IH ds' eq_refl).
Qed.

Lemma read_number_app hi radix n z l v r :
  read_number hi radix n z l = Some (v, []) -> stops radix r ->
  read_number hi radix n z (l ++ r) = Some (v, r).
Proof.
  unfold read_number. intros Hl Hr. destruct (take_digits radix l) as [ds r'] eqn:Ht.
  repeat (case_match; [done|]). case_match; [|done]. injection Hl as <- ->.
  by rewrite (take_digits_app _ _ _ _ Ht Hr), H, H0, H1, H2.
Qed.

(** ** IPv4 *)

Definition octets_text (os : list Z) : list ascii :=
  match os with
  | [] => []
  | o :: os => bytes (print_uint o) ++ flat_map (fun o => "."%char :: bytes (print_uint o)) os
  end.

Lemma read_octets_tail os : forall i r,
  Forall (fun o => 0 <= o <= 255) os -> stops 10 r ->
  read_octets (length os) (S i) (flat_map (fun o => "."%char :: bytes (print_uint o)) os ++ r)
  = Some (os, r).
Proof.
  induction os as [|o os IH]; intros i r Hos Hr; [done|].
  apply Forall_cons in Hos as [Ho Hos]. cbn [length read_octets flat_map app].
  unfold read_separator, read_given_char. rewrite bool_decide_true by done.
  rewrite <- app_assoc. rewrite (read_number_app _ _ _ _ _ o); [|by apply read_decimal|].
  - by rewrite (IH (S i) r Hos Hr).
  - destruct os; cbn; [done|]. reflexivity.
Qed.

Lemma read_octets_text o os r :
  Forall (fun o => 0 <= o <= 255) (o :: os) -> stops 10 r ->
  read_octets (S (length os)) 0 (octets_text (o :: os) ++ r) = Some (o :: os, r).
Proof.
  intros [Ho Hos]%Forall_cons Hr. cbn [octets_text read_octets read_separator].
  rewrite <- app_assoc. rewrite (read_number_app _ _ _ _ _ o); [|by apply read_decimal|].
  - by rewrite (read_octets_tail os 0 r Hos Hr).
  - destruct os; cbn; [done|]. reflexivity.
Qed.

(** One base-[b] digit off the bottom. *)
Lemma digit_step x m b :
  0 < m -> 0 < b -> x / (m * b) * b + (x / m) mod b = x / m.
Proof.
  intros Hm Hb. rewrite <- Z.div_div by lia. rewrite (Z.mul_comm _ b).
  symmetry. apply Z_div_mod_eq_full.
Qed.

Lemma octet_value x i : 0 <= i < 4 -> octet 32 x i = (x / 256 ^ (3 - i)) mod 256.
Proof.
  intros Hi. unfold octet. change 255 with (Z.ones 8). rewrite Z.land_ones by lia.
  rewrite Z.shiftr_div_pow2 by lia. replace (32 - 8 * (i + 1)) with (8 * (3 - i)) by lia.
  by rewrite Z.pow_mul_r by lia.
Qed.

Lemma octet_range x i : 0 <= i < 4 -> 0 <= octet 32 x i <= 255.
Proof.
  intros Hi. rewrite octet_value by done.
  pose proof (Z.mod_pos_bound (x / 256 ^ (3 - i)) 256). lia.
Qed.

Lemma of_octets_octets x :
  0 <= x < 2 ^ 32 -> of_octets (map (octet 32 x) [0; 1; 2; 3]) = x.
Proof.
  intros Hx. cbn [map of_octets fold_left]. rewrite !octet_value by lia.
  pose proof (digit_step x 1 256 ltac:(lia) ltac:(lia)) as H0.
  pose proof (digit_step x 256 256 ltac:(lia) ltac:(lia)) as H1.
  pose proof (digit_step x 65536 256 ltac:(lia) ltac:(lia)) as H2.
  change (256 ^ (3 - 0)) with 16777216. change (256 ^ (3 - 1)) with 65536.
  change (256 ^ (3 - 2)) with 256. change (256 ^ (3 - 3)) with 1.
  change (65536 * 256) with 16777216 in H2. change (256 * 256) with 65536 in H1.
  rewrite Z.mul_1_l in H0. rewrite Z.div_1_r in *.
  rewrite (Z.mod_small (x / 16777216)) by
    (split; [apply Z.div_pos; lia|apply Z.div_lt_upper_bound; lia]).
  lia.
Qed.

Lemma bytes_join_dot x :
  bytes (print_ipv4 x) = octets_text (map (octet 32 x) [0; 1; 2; 3]).
Proof.
  unfold print_ipv4, join. cbn [map String.concat octets_text flat_map].
  rewrite !bytes_append. by rewrite app_nil_r.
Qed.

Lemma read_ipv4_print x r :
  0 <= x < 2 ^ 32 -> stops 10 r ->
  read_ipv4_addr (bytes (print_ipv4 x) ++ r) = Some (x, r).
Proof.
  intros Hx Hr. unfold read_ipv4_addr. rewrite bytes_join_dot.
  change 4%nat with (S (length (map (octet 32 x) [1; 2; 3]))).
  change (map (octet 32 x) [0; 1; 2; 3]) with (octet 32 x 0 :: map (octet 32 x) [1; 2; 3]).
  rewrite read_octets_text; [|..|done].
  - do 2 f_equal. by apply of_octets_octets.
  - repeat constructor; apply octet_range; lia.
Qed.

(** ** IPv6 *)

(** The groups as they are printed, each but the first after a colon. *)
Fixpoint groups_text (first : bool) (gs : list Z) : list ascii :=
  match gs with
  | [] => []
  | g :: gs =>
      (if first then [] else [":"%char]) ++ bytes (print_hex g) ++ groups_text false gs
  end.

Lemma bytes_fmt_subslice gs : bytes (fmt_subslice gs) = groups_text true gs.
Proof.
  unfold fmt_subslice, join.
  induction gs as [|g gs IH]; [done|]. destruct gs as [|g' gs].
  - cbn. by rewrite app_nil_r.
  - change (String.concat ":" (map print_hex (g :: g' :: gs))) with
      (String.append (print_hex g) (String.append ":" (String.concat ":" (map print_hex (g' :: gs))))).
    rewrite !bytes_append, IH. done.
Qed.

Definition closes (c : ascii) : Prop := c = "]"%char \/ c = "%"%char.

Definition hex_stop (r : list ascii) : Prop :=
  match r with [] => True | c :: _ => c = ":"%char \/ closes c end.

(** The end of the text or of a bracketed address. *)
Definition address_stop (r : list ascii) : Prop :=
  match r with [] => True | c :: _ => closes c end.

Lemma address_stop_hex r : address_stop r -> hex_stop r.
Proof. destruct r; [done|by right]. Qed.

Lemma hex_stop_stops r : hex_stop r -> stops 16 r /\ stops 10 r.
Proof. destruct r; [done|]. by intros [->|[->| ->]]. Qed.

(** Hexadecimal digits up to a colon are no IPv4 address. *)
Lemma take_decimal_prefix h r :
  forallb is_hex_digit h = true -> hex_stop r ->
  hd_error (take_digits 10 (h ++ r)).2 <> Some "."%char.
Proof.
  intros Hh Hr. induction h as [|c h IH]; cbn.
  - destruct r as [|c r]; [done|]. by destruct Hr as [->|[->| ->]].
  - cbn in Hh. apply andb_true_iff in Hh as [Hc Hh]. destruct (to_digit 10 c).
    + destruct (take_digits 10 (h ++ r)). by apply IH.
    + cbn. intros [= ->]. by vm_compute in Hc.
Qed.

Lemma read_number_rest hi radix n z l v r :
  read_number hi radix n z l = Some (v, r) -> r = (take_digits radix l).2.
Proof.
  unfold read_number. destruct (take_digits radix l) as [ds r']. intros Hl.
  repeat (case_match; [done|]). case_match; [|done]. by injection Hl as _ <-.
Qed.

Lemma not_ipv4 h r :
  forallb is_hex_digit h = true -> hex_stop r -> read_ipv4_addr (h ++ r) = None.
Proof.
  intros Hh Hr. pose proof (take_decimal_prefix h r Hh Hr) as Hd.
  unfold read_ipv4_addr. cbn [read_octets read_separator].
  destruct (read_number 255 10 3 false (h ++ r)) as [[o rest]|] eqn:Hn; [|done].
  apply read_number_rest in Hn. rewrite <- Hn in Hd.
  assert (Hg : read_given_char "." rest = None).
  { destruct rest as [|c rest]; [done|]. cbn in *. by case_bool_decide; [subst|]. }
  by rewrite Hg.
Qed.

Lemma colon_not_ipv4 l : read_ipv4_addr (":"%char :: l) = None.
Proof. apply (not_ipv4 [] (":"%char :: l)); [done|by left]. Qed.

Lemma colon_not_hex l : read_number 65535 16 4 true (":"%char :: l) = None.
Proof. reflexivity. Qed.

(** Nothing more to read after a group: the end, or the second colon of a pair. *)
Definition group_stop (i : nat) (r : list ascii) : Prop :=
  address_stop r \/
  match i, r with
  | O, c :: _ | S _, [c] => c = ":"%char
  | S _, c :: d :: _ => c = ":"%char /\ d = ":"%char
  | _, [] => True
  end.

Lemma group_stop_hex i r : group_stop i r -> hex_stop r.
Proof. destruct i, r as [|c [|d r]]; unfold group_stop; cbn; intuition. Qed.

Lemma closing_reads_nothing i c r : closes c ->
  read_separator ":" i read_ipv4_addr (c :: r) = None /\
  read_separator ":" i (read_number 65535 16 4 true) (c :: r) = None.
Proof. destruct i; by intros [->| ->]. Qed.

Lemma group_stop_none limit i r : group_stop i r -> read_groups limit i r = ([], false, r).
Proof.
  intros Hs. destruct limit as [|limit]; [done|]. cbn [read_groups].
  assert (Hsep : read_separator ":" i read_ipv4_addr r = None /\
    read_separator ":" i (read_number 65535 16 4 true) r = None).
  { destruct Hs as [Hs|Hs].
    { destruct r as [|c r]; [by destruct i|by apply closing_reads_nothing]. }
    destruct i as [|i], r as [|c [|d r]]; cbn in Hs; intuition; subst; try done;
      cbn [read_separator]; first [apply colon_not_ipv4 | apply colon_not_hex | idtac];
      unfold read_given_char; rewrite bool_decide_true by done;
      first [apply colon_not_ipv4 | done]. }
  destruct Hsep as [-> ->]. by destruct (bool_decide _).
Qed.

Lemma groups_text_stop gs r : hex_stop r -> hex_stop (groups_text false gs ++ r).
Proof. destruct gs; [done|by left]. Qed.

(** Printed groups read back, one after the other. *)
Lemma read_groups_text gs : forall limit i r,
  Forall (fun g => 0 <= g < 65536) gs -> (length gs <= limit)%nat -> hex_stop r ->
  (length gs = limit \/ group_stop (i + length gs) r) ->
  read_groups limit i (groups_text (bool_decide (i = 0%nat)) gs ++ r) = (gs, false, r).
Proof.
  induction gs as [|g gs IH]; intros limit i r Hgs Hlim Hr Hstop.
  - destruct Hstop as [<-|Hs]; [done|]. cbn in *. rewrite Nat.add_0_r in Hs.
    by apply group_stop_none.
  - apply Forall_cons in Hgs as [Hg Hgs]. destruct limit as [|limit]; cbn in Hlim; [lia|].
    destruct (read_hex g Hg) as (Hrd & Hhex & _).
    set (rest := groups_text false gs ++ r).
    assert (Hrest : hex_stop rest) by (by apply groups_text_stop).
    assert (Hin : read_number 65535 16 4 true (bytes (print_hex g) ++ rest) = Some (g, rest)).
    { apply read_number_app; [done|]. by apply hex_stop_stops. }
    assert (Hsep : forall A (inner : reader A),
      read_separator ":" i inner
        ((if bool_decide (i = 0%nat) then [] else [":"%char]) ++ bytes (print_hex g) ++ rest)
      = inner (bytes (print_hex g) ++ rest)).
    { intros A inner. destruct i; [done|]. cbn [read_separator app].
      rewrite bool_decide_false by done. cbn [app]. unfold read_given_char.
      by rewrite bool_decide_true. }
    cbn [groups_text read_groups]. rewrite <- !app_assoc. fold rest. rewrite !Hsep, Hin.
    rewrite (not_ipv4 _ _ Hhex Hrest).
    assert (IHs : read_groups limit (S i) rest = (gs, false, r)).
    { apply (IH limit (S i) r); [done|lia|done|]. cbn in Hstop.
      destruct Hstop as [?|Hs]; [left; lia|right]. by rewrite Nat.add_succ_r in Hs. }
    rewrite IHs. by destruct (bool_decide (2 <= S limit)%nat).
Qed.

Lemma read_groups_first gs limit r :
  Forall (fun g => 0 <= g < 65536) gs -> (length gs <= limit)%nat -> hex_stop r ->
  (length gs = limit \/ group_stop (length gs) r) ->
  read_groups limit 0 (groups_text true gs ++ r) = (gs, false, r).
Proof. apply (read_groups_text gs limit 0 r). Qed.

(** *** recomposing an address from its segments *)

Lemma segment_value x i : 0 <= i < 8 -> segment x i = (x / 65536 ^ (7 - i)) mod 65536.
Proof.
  intros Hi. unfold segment. change 65535 with (Z.ones 16). rewrite Z.land_ones by lia.
  rewrite Z.shiftr_div_pow2 by lia. replace (128 - 16 * (i + 1)) with (16 * (7 - i)) by lia.
  by rewrite Z.pow_mul_r by lia.
Qed.

Lemma segments_range x : Forall (fun g => 0 <= g < 65536) (segments x).
Proof.
  unfold segments. apply Forall_fmap, Forall_forall. intros i Hi. cbn.
  rewrite segment_value by (repeat (apply elem_of_cons in Hi as [->|Hi]; [lia|]); set_solver).
  apply Z.mod_pos_bound. lia.
Qed.

Lemma of_groups_segments x : 0 <= x < 2 ^ 128 -> of_groups (segments x) = x.
Proof.
  intros Hx. unfold segments, of_groups. cbn [map fold_left]. rewrite !segment_value by lia.
  assert (Hstep : forall k, 0 <= k ->
    x / 65536 ^ (k + 1) * 65536 + (x / 65536 ^ k) mod 65536 = x / 65536 ^ k).
  { intros k Hk. rewrite Z.pow_add_r, Z.pow_1_r by lia. apply digit_step; [|lia].
    apply Z.pow_pos_nonneg; lia. }
  assert (Htop : (x / 65536 ^ (7 - 0)) mod 65536 = x / 65536 ^ 7).
  { apply Z.mod_small. split; [apply Z.div_pos; [lia|apply Z.pow_pos_nonneg; lia]|].
    apply Z.div_lt_upper_bound; [apply Z.pow_pos_nonneg; lia|]. lia. }
  rewrite Htop, Z.mul_0_l, Z.add_0_l.
  change (7 - 1) with 6. change (7 - 2) with 5. change (7 - 3) with 4. change (7 - 4) with 3.
  change (7 - 5) with 2. change (7 - 6) with 1. change (7 - 7) with 0.
  change 7 with (6 + 1). rewrite Hstep by lia. change 6 with (5 + 1) at 1. rewrite Hstep by lia.
  change 5 with (4 + 1) at 1. rewrite Hstep by lia. change 4 with (3 + 1) at 1. rewrite Hstep by lia.
  change 3 with (2 + 1) at 1. rewrite Hstep by lia. change 2 with (1 + 1) at 1. rewrite Hstep by lia.
  change 1 with (0 + 1) at 1. rewrite Hstep by lia. by rewrite Z.pow_0_r, Z.div_1_r.
Qed.

(** *** the longest run of zeros *)

Definition zero_step (acc : nat * (nat * nat) * (nat * nat)) (g : Z) :=
  let '(i, (ls, ll), (cs, cl)) := acc in
  if g =? 0 then
    let cs := (if bool_decide (cl = 0%nat) then i else cs) in
    let cl := S cl in
    if bool_decide (ll < cl)%nat then (S i, (cs, cl), (cs, cl))
    else (S i, (ls, ll), (cs, cl))
  else (S i, (ls, ll), (0%nat, 0%nat)).

Definition zeros_at (p : list Z) (s n : nat) : Prop :=
  exists a b, p = a ++ replicate n 0 ++ b /\ length a = s.

Lemma zeros_at_snoc p s n g : zeros_at p s n -> zeros_at (p ++ [g]) s n.
Proof. intros (a & b & -> & <-). exists a, (b ++ [g]). by rewrite <- !app_assoc. Qed.

Lemma zero_run_inv p :
  let '(i, (ls, ll), (cs, cl)) := fold_left zero_step p (0%nat, (0%nat, 0%nat), (0%nat, 0%nat)) in
  i = length p /\ zeros_at p ls ll /\
  (exists a, p = a ++ replicate cl 0 /\ (cl <> 0%nat -> length a = cs)).
Proof.
  induction p as [|g p IH] using rev_ind; cbn.
  - split_and!; [done|by exists [], []|by exists []].
  - rewrite fold_left_app. cbn [fold_left].
    destruct (fold_left zero_step p _) as [[i [ls ll]] [cs cl]].
    destruct IH as (-> & Hl & a & Hp & Ha). unfold zero_step.
    rewrite length_app, Nat.add_1_r.
    destruct (Z.eqb_spec g 0) as [->|Hg].
    + set (cs' := if bool_decide (cl = 0%nat) then length p else cs).
      assert (Hcur : exists a, p ++ [0] = a ++ replicate (S cl) 0 /\ length a = cs').
      { exists a. rewrite replicate_S_end, app_assoc, <- Hp. split; [done|].
        unfold cs'. case_bool_decide as Hz; [|by apply Ha].
        rewrite Hp, Hz. cbn. by rewrite app_nil_r. }
      destruct Hcur as (a' & Hp' & Ha'). case_bool_decide; split_and!; try done.
      * exists a', []. by rewrite app_nil_r.
      * exists a'. done.
      * by apply zeros_at_snoc.
      * exists a'. done.
    + split_and!; [done|by apply zeros_at_snoc|]. exists (p ++ [g]). by rewrite app_nil_r.
Qed.

Lemma zero_run_spec gs s n :
  zero_run gs = (s, n) -> gs = take s gs ++ replicate n 0 ++ drop (s + n) gs.
Proof.
  unfold zero_run. fold zero_step. pose proof (zero_run_inv gs) as Hi.
  destruct (fold_left _ gs _) as [[i [ls ll]] [cs cl]]. intros [= -> ->].
  destruct Hi as (_ & (a & b & -> & <-) & _).
  rewrite take_app_length. rewrite <- (length_replicate n 0) at 3.
  rewrite <- length_app, app_assoc, drop_app_length. by rewrite <- app_assoc.
Qed.

(** *** the three shapes of a printed IPv6 address *)

Lemma segments_length x : length (segments x) = 8%nat.
Proof. reflexivity. Qed.

Lemma low_segments x :
  Z.shiftr (Z.land x u32_max) 16 = segment x 6 /\ Z.land (Z.land x u32_max) 65535 = segment x 7.
Proof.
  change u32_max with (Z.ones 32). change 65535 with (Z.ones 16).
  rewrite !Z.land_ones, Z.shiftr_div_pow2, !segment_value by lia.
  change (2 ^ 32) with (65536 * 65536). change (2 ^ 16) with 65536.
  change (65536 ^ (7 - 6)) with 65536. change (65536 ^ (7 - 7)) with 1.
  rewrite Z.rem_mul_r, Z.div_1_r by lia. rewrite (Z.mul_comm 65536 _). split.
  - rewrite Z.div_add by lia. rewrite Z.div_small; [lia|]. apply Z.mod_pos_bound. lia.
  - rewrite Z.mod_add by lia. by rewrite Z.mod_mod by lia.
Qed.

Lemma read_ipv6_mapped x r :
  0 <= x < 2 ^ 128 -> take 6 (segments x) = [0; 0; 0; 0; 0; 65535] -> address_stop r ->
  read_ipv6_addr (bytes "::ffff:" ++ bytes (print_ipv4 (Z.land x u32_max)) ++ r) = Some (x, r).
Proof.
  intros Hx Hseg Hr. set (v := Z.land x u32_max). set (text := bytes (print_ipv4 v) ++ r).
  assert (Hv : 0 <= v < 2 ^ 32).
  { unfold v. change u32_max with (Z.ones 32). rewrite Z.land_ones by lia.
    apply Z.mod_pos_bound. lia. }
  assert (Hr4 : read_ipv4_addr text = Some (v, r)).
  { apply read_ipv4_print; [done|]. by apply hex_stop_stops, address_stop_hex. }
  assert (Htl : read_groups 7 0 (bytes "ffff" ++ ":"%char :: text) =
    ([65535; segment x 6; segment x 7], true, r)).
  { cbn [read_groups]. rewrite bool_decide_true by lia. cbn [read_separator].
    rewrite not_ipv4 by (done || by left).
    rewrite (read_number_app _ _ _ _ (bytes "ffff") 65535 (":"%char :: text)) by done.
    rewrite bool_decide_true by lia. cbn [read_separator read_given_char].
    rewrite bool_decide_true by done. rewrite Hr4.
    destruct (low_segments x) as [Hhi Hlo]. fold v in Hhi, Hlo. by rewrite Hhi, Hlo. }
  unfold read_ipv6_addr. rewrite group_stop_none by (by right). rewrite bool_decide_false by done.
  change (bytes "::ffff:" ++ text) with (":"%char :: ":"%char :: (bytes "ffff" ++ ":"%char :: text)).
  unfold read_given_char. rewrite !bool_decide_true by done. cbn [length app].
  change (8 - (0 + 1))%nat with 7%nat. rewrite Htl. cbn [length].
  f_equal. f_equal. rewrite <- (of_groups_segments x Hx) at 3.
  by rewrite <- (take_drop 6 (segments x)), Hseg.
Qed.

Lemma read_ipv6_full gs r :
  Forall (fun g => 0 <= g < 65536) gs -> length gs = 8%nat -> address_stop r ->
  read_ipv6_addr (bytes (fmt_subslice gs) ++ r) = Some (of_groups gs, r).
Proof.
  intros Hgs Hl Hr. rewrite bytes_fmt_subslice. unfold read_ipv6_addr.
  rewrite (read_groups_first gs 8 r); [|done|lia|by apply address_stop_hex|by left].
  by rewrite bool_decide_true.
Qed.

Lemma read_ipv6_compressed hd n tl r :
  Forall (fun g => 0 <= g < 65536) hd -> Forall (fun g => 0 <= g < 65536) tl ->
  (1 < n)%nat -> (length hd + n + length tl = 8)%nat -> address_stop r ->
  read_ipv6_addr (bytes (fmt_subslice hd) ++ bytes "::" ++ bytes (fmt_subslice tl) ++ r) =
  Some (of_groups (hd ++ replicate n 0 ++ tl), r).
Proof.
  intros Hhd Htl Hn Hlen Hr. rewrite !bytes_fmt_subslice. unfold read_ipv6_addr.
  rewrite (read_groups_first hd 8 (bytes "::" ++ groups_text true tl ++ r)); [|done|lia|by left|].
  2: { right. right. cbn. by destruct (length hd). }
  rewrite bool_decide_false by lia.
  change (bytes "::" ++ ?l) with (":"%char :: ":"%char :: l).
  unfold read_given_char. rewrite !bool_decide_true by done.
  rewrite (read_groups_first tl (8 - (length hd + 1)) r); [|done|lia|by apply address_stop_hex|].
  2: { right. by left. }
  by replace (8 - length hd - length tl)%nat with n by lia.
Qed.

(** What is printed for an IPv6 address never reads as an IPv4 address. *)
Lemma groups_not_ipv4 gs r :
  Forall (fun g => 0 <= g < 65536) gs -> gs <> [] \/ (exists l, r = ":"%char :: l) ->
  hex_stop r -> read_ipv4_addr (groups_text true gs ++ r) = None.
Proof.
  intros Hgs Hne Hr. destruct gs as [|g gs].
  - destruct Hne as [?|[l ->]]; [done|]. apply colon_not_ipv4.
  - apply Forall_cons in Hgs as [Hg _]. destruct (read_hex g Hg) as (_ & Hhex & _).
    cbn [groups_text app]. rewrite <- app_assoc. apply not_ipv4; [done|].
    by apply groups_text_stop.
Qed.

Lemma print_ipv6_reads x r :
  0 <= x < 2 ^ 128 -> address_stop r ->
  read_ipv4_addr (bytes (print_ipv6 x) ++ r) = None /\
  read_ipv6_addr (bytes (print_ipv6 x) ++ r) = Some (x, r).
Proof.
  intros Hx Hs. pose proof (address_stop_hex r Hs) as Hh.
  unfold print_ipv6. pose proof (segments_range x) as Hr.
  case_bool_decide as Hm.
  - rewrite bytes_append, <- app_assoc. split; [apply colon_not_ipv4|by apply read_ipv6_mapped].
  - destruct (zero_run (segments x)) as [s n] eqn:Hz. apply zero_run_spec in Hz.
    case_bool_decide as Hn.
    + rewrite !bytes_append, <- !app_assoc. set (hd := take s (segments x)) in *.
      set (tl := drop (s + n) (segments x)) in *.
      assert (Hhd : Forall (fun g => 0 <= g < 65536) hd) by (by apply Forall_take).
      assert (Htl : Forall (fun g => 0 <= g < 65536) tl) by (by apply Forall_drop).
      split.
      * rewrite bytes_fmt_subslice. apply groups_not_ipv4; [done| |by left]. right. by eexists.
      * rewrite (read_ipv6_compressed hd n tl r Hhd Htl Hn); [| |done].
        -- by rewrite <- Hz, of_groups_segments.
        -- apply (f_equal length) in Hz. rewrite !length_app, length_replicate in Hz.
           rewrite segments_length in Hz. lia.
    + split.
      * rewrite bytes_fmt_subslice. apply groups_not_ipv4; [done|by left|done].
      * rewrite read_ipv6_full by done. by rewrite of_groups_segments.
Qed.

Lemma parse_ipv6_print x : 0 <= x < 2 ^ 128 -> parse_ipv6 (print_ipv6 x) = Some x.
Proof.
  intros Hx. unfold parse_ipv6, parse_with.
  pose proof (print_ipv6_reads x [] Hx I) as [_ Hr]. rewrite app_nil_r in Hr. by rewrite Hr.
Qed.

Lemma parse_print_ip a : addr_wf a -> parse_ip (print_ip a) = Some a.
Proof.
  unfold addr_wf, parse_ip, parse_with, read_ip_addr. destruct a as [x|x];
    cbn [print_ip addr_value addr_width]; intros Hx.
  - pose proof (read_ipv4_print x [] Hx I) as Hr. rewrite app_nil_r in Hr. by rewrite Hr.
  - pose proof (print_ipv6_reads x [] Hx I) as [H4 H6]. rewrite app_nil_r in H4, H6.
    by rewrite H4, H6.
Qed.

(** ** prefixes as text *)

(** [format!("{address}/{prefix}")]. *)
Definition prefix_text (a : IpAddr) (p : Z) : string :=
  String.append (print_ip a) (String "/" (print_uint p)).

Lemma rsplit_prefix_text a p :
  0 <= p <= 255 -> rsplit_once (prefix_text a p) "/" = Some (print_ip a, print_uint p).
Proof.
  intros Hp. unfold rsplit_once, on_bytes, prefix_text. rewrite bytes_append.
  change (bytes (String "/" (print_uint p))) with ("/"%char :: bytes (print_uint p)).
  rewrite rsplit_once_bytes_app by (by apply print_u8_no_slash). by rewrite !str_bytes.
Qed.
