(* ===== verification/SocketAddr.v ===== *)
(** * SocketAddr: the text form of socket addresses

    [std::net::SocketAddr] as the settings of the core use it: [FromStr] (an IPv4 address or
    a bracketed IPv6 address with an optional scope, a colon and a port, the whole input
    consumed), [Display], [ip().is_unspecified()] and [set_ip].  A parsed address is in
    range, and what is printed for an address in range reads back as that address. *)

From Stdlib Require Import Ascii String.
From S2P Require Import Prelude Text IpAddr IpRoundTrip.

(** The flow information is zero in every address [FromStr] builds and is not printed. *)
Inductive SocketAddr : Type :=
| SocketV4 (ip port : Z)
| SocketV6 (ip port scope : Z).

#[global] Instance SocketAddr_eq_dec : EqDecision SocketAddr.
Proof. solve_decision. Defined.

Definition socket_ip (a : SocketAddr) : IpAddr :=
  match a with SocketV4 ip _ => V4 ip | SocketV6 ip _ _ => V6 ip end.
Definition socket_port (a : SocketAddr) : Z :=
  match a with SocketV4 _ port => port | SocketV6 _ port _ => port end.

(** [set_ip]: another family makes a new address with the same port. *)
Definition set_ip (ip : IpAddr) (a : SocketAddr) : SocketAddr :=
  match ip, a with
  | V4 ip, _ => SocketV4 ip (socket_port a)
  | V6 ip, SocketV6 _ port scope => SocketV6 ip port scope
  | V6 ip, SocketV4 _ port => SocketV6 ip port 0
  end.

(** [read_number(10, None, true)]: any number of digits, failing on overflow. *)
Definition read_decimal_number (hi : Z) : reader Z := fun l =>
  let (ds, r) := take_digits 10 l in
  if bool_decide (ds = []) then None
  else let v := digits_value 10 ds in if v <=? hi then Some (v, r) else None.

Definition read_port : reader Z := fun l =>
  match read_given_char ":" l with Some (_, l) => read_decimal_number u16_max l | None => None end.

Definition read_scope_id : reader Z := fun l =>
  match read_given_char "%" l with Some (_, l) => read_decimal_number u32_max l | None => None end.

(** [read_scope_id().unwrap_or(0)]. *)
Definition scope_or_zero (l : list ascii) : Z * list ascii :=
  match read_scope_id l with Some (s, l) => (s, l) | None => (0, l) end.

Definition read_socket_addr_v4 : reader SocketAddr := fun l =>
  match read_ipv4_addr l with
  | Some (ip, l) => match read_port l with Some (port, l) => Some (SocketV4 ip port, l) | None => None end
  | None => None
  end.

Definition read_socket_addr_v6 : reader SocketAddr := fun l =>
  match read_given_char "[" l with
  | None => None
  | Some (_, l) =>
      match read_ipv6_addr l with
      | None => None
      | Some (ip, l) =>
          let (scope, l) := scope_or_zero l in
          match read_given_char "]" l with
          | None => None
          | Some (_, l) =>
              match read_port l with Some (port, l) => Some (SocketV6 ip port scope, l) | None => None end
          end
      end
  end.

Definition read_socket_addr : reader SocketAddr := fun l =>
  match read_socket_addr_v4 l with Some a => Some a | None => read_socket_addr_v6 l end.

Definition parse_socket : string -> option SocketAddr := parse_with read_socket_addr.

Definition socket_bytes (a : SocketAddr) : list ascii :=
  match a with
  | SocketV4 ip port => bytes (print_ipv4 ip) ++ ":"%char :: bytes (print_uint port)
  | SocketV6 ip port scope =>
      "["%char :: bytes (print_ipv6 ip) ++
      (if scope =? 0 then [] else "%"%char :: bytes (print_uint scope)) ++
      "]"%char :: ":"%char :: bytes (print_uint port)
  end.
Definition print_socket (a : SocketAddr) : string := str (socket_bytes a).

Example socket_ex1 : parse_socket "127.0.0.1:9097" = Some (SocketV4 2130706433 9097).
Proof. vm_compute. reflexivity. Qed.
Example socket_ex2 : parse_socket "[::]:8080" = Some (SocketV6 0 8080 0).
Proof. vm_compute. reflexivity. Qed.
Example socket_ex3 : parse_socket "192.168.1.1:80800" = None.
Proof. vm_compute. reflexivity. Qed.
Example socket_ex4 : print_socket (SocketV6 1 80 3) = "[::1%3]:80"%string.
Proof. vm_compute. reflexivity. Qed.

(** ** parsed addresses are in range *)

Definition socket_wf (a : SocketAddr) : Prop :=
  addr_wf (socket_ip a) /\ 0 <= socket_port a <= u16_max /\
  match a with SocketV4 _ _ => True | SocketV6 _ _ scope => 0 <= scope <= u32_max end.

Lemma read_decimal_number_range hi l v r : read_decimal_number hi l = Some (v, r) -> 0 <= v <= hi.
Proof.
  unfold read_decimal_number. destruct (take_digits 10 l) as [ds r'] eqn:Ht.
  case_bool_decide; [done|]. destruct (Z.leb_spec (digits_value 10 ds) hi); [|done].
  intros [= <- <-]. split; [|done]. apply (f_equal fst) in Ht. cbn in Ht. subst ds.
  apply fold_digits_nonneg; [lia|lia|]. eapply Forall_impl; [apply take_digits_range|].
  cbn. intros. lia.
Qed.

Lemma read_port_range l v r : read_port l = Some (v, r) -> 0 <= v <= u16_max.
Proof. unfold read_port. case_match; [|done]. case_match. apply read_decimal_number_range. Qed.

Lemma read_scope_range l : 0 <= (scope_or_zero l).1 <= u32_max.
Proof.
  unfold scope_or_zero. destruct (read_scope_id l) as [[s r]|] eqn:Hs; [|done]. revert Hs. unfold read_scope_id.
  case_match; [|done]. case_match. apply read_decimal_number_range.
Qed.

Lemma parse_socket_wf s a : parse_socket s = Some a -> socket_wf a.
Proof.
  unfold parse_socket, parse_with, read_socket_addr.
  destruct (read_socket_addr_v4 (bytes s)) as [[a4 r]|] eqn:H4.
  - destruct r; [|done]. intros [= ->]. revert H4. unfold read_socket_addr_v4.
    destruct (read_ipv4_addr _) as [[ip l]|] eqn:Hip; [|done].
    destruct (read_port l) as [[port l']|] eqn:Hport; [|done]. intros [= <- _].
    split; [by eapply read_ipv4_range|]. split; [by eapply read_port_range|done].
  - destruct (read_socket_addr_v6 (bytes s)) as [[a6 r]|] eqn:H6; [|done].
    destruct r; [|done]. intros [= ->]. revert H6. unfold read_socket_addr_v6.
    case_match; [|done]. case_match. destruct (read_ipv6_addr _) as [[ip l1]|] eqn:Hip; [|done].
    pose proof (read_scope_range l1) as Hs. destruct (scope_or_zero l1) as [scope l2].
    case_match; [|done]. case_match. destruct (read_port _) as [[port l']|] eqn:Hport; [|done].
    intros [= <- _]. split; [by eapply read_ipv6_range|]. split; [by eapply read_port_range|done].
Qed.

(** ** printed addresses read back *)

Lemma print_digits_spec k : forall fuel n acc,
  (0 < k <= fuel)%nat -> 0 <= n < 10 ^ Z.of_nat k ->
  exists ds, print_digits fuel n acc = map digit_char ds ++ acc /\ ds <> [] /\
    Forall (fun d => 0 <= d < 10) ds /\
    forall z, fold_left (fun a d => a * 10 + d) ds z = z * 10 ^ Z.of_nat (length ds) + n.
Proof.
  induction k as [|k IH]; intros fuel n acc Hk Hn; [lia|].
  destruct fuel as [|fuel]; [lia|]. cbn [print_digits].
  pose proof (Z.mod_pos_bound n 10 ltac:(lia)) as Hm.
  destruct (Z.ltb_spec n 10) as [Hlt|Hge].
  - exists [n mod 10]. rewrite Z.mod_small in * by lia.
    split_and!; [done|done|by apply Forall_singleton|]. intros z. cbn. lia.
  - assert (k <> 0)%nat by (intros ->; change (10 ^ Z.of_nat 1) with 10 in Hn; lia).
    rewrite Nat2Z.inj_succ, Z.pow_succ_r in Hn by lia.
    destruct (IH fuel (n / 10) (digit_char (n mod 10) :: acc)) as (ds & Hds & Hne & Hr & Hv).
    + lia.
    + split; [apply Z.div_pos; lia|apply Z.div_lt_upper_bound; lia].
    + exists (ds ++ [n mod 10]). rewrite Hds, map_app, <- app_assoc. split_and!.
      * done.
      * by destruct ds.
      * apply Forall_app. split; [done|by apply Forall_singleton].
      * intros z. rewrite fold_left_app, Hv, length_app. cbn [fold_left length].
        rewrite Nat2Z.inj_add, Z.pow_add_r by lia. change (10 ^ Z.of_nat 1) with 10.
        pose proof (Z_div_mod_eq_full n 10). lia.
Qed.

(** A printed character of an address: no blank, and ASCII. *)
Definition graphic (c : ascii) : bool := (33 <=? byte c) && (byte c <=? 126).

Definition decimal_char (d : Z) : bool :=
  bool_decide (to_digit 10 (digit_char d) = Some d) && graphic (digit_char d).

Lemma decimal_char_exhaustive : all_from 10 0 decimal_char = true.
Proof. vm_compute. reflexivity. Qed.

Lemma take_decimal_digits ds : Forall (fun d => 0 <= d < 10) ds ->
  take_digits 10 (map digit_char ds) = (ds, []) /\ forallb graphic (map digit_char ds) = true.
Proof.
  induction 1 as [|d ds Hd _ [IH1 IH2]]; [done|]. cbn [map take_digits forallb].
  pose proof (all_from_spec _ _ _ decimal_char_exhaustive d ltac:(lia)) as Hn.
  apply andb_true_iff in Hn as [Hn Hg]. apply bool_decide_eq_true in Hn.
  by rewrite Hn, IH1, Hg, IH2.
Qed.

Lemma print_uint_reads hi v r : 0 <= v <= hi -> hi < 10 ^ 40 -> stops 10 r ->
  read_decimal_number hi (bytes (print_uint v) ++ r) = Some (v, r) /\
  forallb graphic (bytes (print_uint v)) = true.
Proof.
  intros Hv Hhi Hr. destruct (print_digits_spec 40 40 v []) as (ds & Hds & Hne & Hds' & Hval); [lia|lia|].
  unfold print_uint. rewrite bytes_str, Hds, app_nil_r.
  destruct (take_decimal_digits ds Hds') as [Ht Hg]. split; [|done].
  unfold read_decimal_number. rewrite (take_digits_app _ _ _ _ Ht Hr).
  rewrite bool_decide_false by done. unfold digits_value. rewrite Hval.
  by rewrite (proj2 (Z.leb_le _ _)) by lia.
Qed.

Lemma read_port_print port : 0 <= port <= u16_max ->
  read_port (":"%char :: bytes (print_uint port)) = Some (port, []).
Proof.
  intros Hp. unfold read_port. cbn [read_given_char]. rewrite bool_decide_true by done.
  rewrite <- (app_nil_r (bytes _)). by apply print_uint_reads.
Qed.

Lemma scope_or_zero_print scope r : 0 <= scope <= u32_max ->
  scope_or_zero ((if scope =? 0 then [] else "%"%char :: bytes (print_uint scope)) ++ "]"%char :: r) =
  (scope, "]"%char :: r).
Proof.
  intros Hs. unfold scope_or_zero, read_scope_id. destruct (Z.eqb_spec scope 0) as [->|Hne]; [done|].
  cbn [app read_given_char]. rewrite bool_decide_true by done.
  by rewrite (proj1 (print_uint_reads u32_max scope ("]"%char :: r) Hs eq_refl eq_refl)).
Qed.

Lemma parse_print_socket a : socket_wf a -> parse_socket (print_socket a) = Some a.
Proof.
  intros (Hip & Hport & Hscope). unfold parse_socket, parse_with, print_socket, read_socket_addr.
  rewrite bytes_str. destruct a as [ip port|ip port scope]; cbn in Hip, Hport; cbn [socket_bytes].
  - unfold read_socket_addr_v4. rewrite read_ipv4_print by done. by rewrite read_port_print.
  - assert (read_socket_addr_v4 ("["%char :: bytes (print_ipv6 ip) ++
      (if scope =? 0 then [] else "%"%char :: bytes (print_uint scope)) ++
      "]"%char :: ":"%char :: bytes (print_uint port)) = None) as -> by done.
    unfold read_socket_addr_v6. cbn [read_given_char]. rewrite bool_decide_true by done.
    edestruct (print_ipv6_reads ip) as [_ ->]; [done|by destruct (scope =? 0); [left|right]|].
    rewrite scope_or_zero_print by done. cbn [read_given_char]. rewrite bool_decide_true by done.
    by rewrite read_port_print.
Qed.

(** ** printed addresses are plain text *)

Lemma print_hex_graphic g : 0 <= g < 65536 -> forallb graphic (bytes (print_hex g)) = true.
Proof.
  intros Hg. destruct (read_hex g Hg) as (_ & Hh & _). rewrite forallb_forall in *.
  intros c Hc. apply Hh in Hc. unfold is_hex_digit, graphic, is_ascii_digit, in_range in *.
  change (byte "0") with 48 in *. change (byte "9") with 57 in *.
  change (byte "a") with 97 in *. change (byte "f") with 102 in *. reflect_bools. lia.
Qed.

Lemma concat_graphic sep l : graphic sep = true -> Forall (fun s => forallb graphic (bytes s) = true) l ->
  forallb graphic (bytes (join (String sep "") l)) = true.
Proof.
  intros Hs Hl. induction Hl as [|s l Hgs Hl IH]; [done|]. destruct l as [|t l]; [done|].
  change (join (String sep "") (s :: t :: l)) with
    (String.append s (String.append (String sep "") (join (String sep "") (t :: l)))).
  rewrite !bytes_append, !forallb_app, Hgs, IH. cbn. by rewrite Hs.
Qed.

Lemma print_ipv4_graphic x : forallb graphic (bytes (print_ipv4 x)) = true.
Proof.
  apply (concat_graphic "."); [done|]. cbn [map].
  repeat constructor; apply (print_uint_reads 255 _ []); try done; apply octet_range; lia.
Qed.

Lemma fmt_subslice_graphic gs : Forall (fun g => 0 <= g < 65536) gs ->
  forallb graphic (bytes (fmt_subslice gs)) = true.
Proof.
  intros Hgs. apply (concat_graphic ":"); [done|]. apply Forall_map. eapply Forall_impl; [done|].
  intros g Hg. by apply print_hex_graphic.
Qed.

Lemma print_ipv6_graphic x : forallb graphic (bytes (print_ipv6 x)) = true.
Proof.
  pose proof (segments_range x) as Hr. unfold print_ipv6. repeat case_match;
    rewrite ?bytes_append, ?forallb_app, ?print_ipv4_graphic, ?fmt_subslice_graphic;
    try done; (by apply Forall_take) || (by apply Forall_drop).
Qed.

Lemma print_socket_graphic a : socket_wf a -> forallb graphic (socket_bytes a) = true.
Proof.
  intros (_ & Hport & Hscope). pose proof (print_uint_reads u16_max _ [] Hport eq_refl I) as [_ Hp].
  destruct a as [ip port|ip port scope]; cbn [socket_bytes forallb socket_port] in *.
  - rewrite forallb_app, print_ipv4_graphic. cbn [forallb]. by rewrite Hp.
  - pose proof (print_uint_reads u32_max _ [] Hscope eq_refl I) as [_ Hs].
    rewrite !forallb_app, print_ipv6_graphic. cbn [forallb]. rewrite Hp.
    destruct (scope =? 0); cbn [forallb]; by rewrite ?Hs.
Qed.

(** It is never taken for a bare port. *)
Lemma print_socket_no_colon a : socket_wf a -> starts_with (print_socket a) ":" = false.
Proof.
  intros (Hip & _). destruct a as [ip port|ip port scope]; [|done].
  unfold starts_with, print_socket. rewrite bytes_str. cbn [socket_bytes]. cbn in Hip.
  set (tail := ":"%char :: bytes (print_uint port)).
  destruct (prefix_of (bytes ":") (bytes (print_ipv4 ip) ++ tail)) eqn:Hc; [|done].
  apply prefix_of_spec in Hc as [r Hr]. pose proof (read_ipv4_print ip tail Hip eq_refl) as Hrd.
  rewrite Hr in Hrd. change (bytes ":" ++ r) with (":"%char :: r) in Hrd. by rewrite colon_not_ipv4 in Hrd.
Qed.
