(* ===== verification/Config.v ===== *)
(** * Config: the network profile and its validation

    [src-tauri/src/networking/config.rs], schema version 1: the profile
    structures, the checks of [NetworkProfile::validate] in the order of the
    source, and what a validated profile promises to the components that use
    it.  URL parsing ([reqwest::Url]) and base64 are third-party code: they are
    the classes [UrlLib] and [Base64Lib], parameters of the model. *)

From Stdlib Require Import Ascii String.
From S2P Require Import Prelude Text NetState IpAddr.

(** ** third-party interfaces *)

(** The accessors of [reqwest::Url] the sources read. *)
Class UrlLib := {
  Url : Type;
  Url_parse : string -> option Url;
  scheme : Url -> string;
  username : Url -> string;
  password : Url -> option string;
  host_str : Url -> option string;
  port : Url -> option Z;
  port_or_known_default : Url -> option Z;
  path : Url -> string;
  query : Url -> option string;
  fragment : Url -> option string;
}.

(** [base64::engine::general_purpose::STANDARD]. *)
Class Base64Lib := {
  BASE64_decode : string -> option (list Z);
  BASE64_encode : list Z -> string;
}.

(** ** the profile, schema version 1 *)

Definition NETWORK_SCHEMA_VERSION : Z := 1.

Inductive TransportKind : Type := Quic | Wss | Tcp.

#[global] Instance TransportKind_eq_dec : EqDecision TransportKind.
Proof. solve_decision. Defined.
#[global] Instance TransportKind_countable : Countable TransportKind.
Proof.
  refine (inj_countable'
    (fun k => match k with Quic => 0%nat | Wss => 1%nat | Tcp => 2%nat end)
    (fun n => match n with O => Quic | S O => Wss | _ => Tcp end) _).
  by intros [].
Defined.

Record SiteConfig := {
  site_id : string;
  display_name : string;
  private_cidrs : list string;
}.

Record TunnelConfig := {
  local_addresses : list string;
  peer_public_key : string;
  keepalive_seconds : Z;
}.

Record TransportEndpoint := {
  ep_transport : TransportKind;
  ep_url : string;
}.

Record TransportConfig := {
  primary : TransportKind;
  fallbacks : list TransportKind;
  endpoints : list TransportEndpoint;
}.

Record NetworkPolicy := {
  connect_timeout_seconds : Z;
  health_interval_seconds : Z;
  fallback_threshold : Z;
}.

Record NetworkProfile := {
  schema_version : Z;
  profile_id : string;
  control_plane : string;
  identity_ref : string;
  site : SiteConfig;
  tunnel : TunnelConfig;
  transports : TransportConfig;
  policy : NetworkPolicy;
}.

#[global] Instance SiteConfig_eq_dec : EqDecision SiteConfig.
Proof. solve_decision. Defined.
#[global] Instance TunnelConfig_eq_dec : EqDecision TunnelConfig.
Proof. solve_decision. Defined.
#[global] Instance TransportEndpoint_eq_dec : EqDecision TransportEndpoint.
Proof. solve_decision. Defined.
#[global] Instance TransportConfig_eq_dec : EqDecision TransportConfig.
Proof. solve_decision. Defined.
#[global] Instance NetworkPolicy_eq_dec : EqDecision NetworkPolicy.
Proof. solve_decision. Defined.
#[global] Instance NetworkProfile_eq_dec : EqDecision NetworkProfile.
Proof. solve_decision. Defined.

(** ** helpers of the validator *)

Definition valid_id (value : string) : bool := id_shape value.

Definition all_unique {A} `{EqDecision A} (values : list A) : bool :=
  all_unique_from [] values.

Definition valid_cidr (value : string) : bool :=
  match rsplit_once value "/" with
  | None => false
  | Some (address, prefix) =>
      match parse_ip address with
      | None => false
      | Some address =>
          match parse_uint u8_max prefix with
          | None => false
          | Some prefix => prefix <=? (if is_ipv4 address then 32 else 128)
          end
      end
  end.

Definition valid_unique_cidrs (values : list string) : bool :=
  negb (bool_decide (values = [])) && all_unique values && forallb valid_cidr values.

Definition endpoint_scheme_matches (transport : TransportKind) (s : string) : bool :=
  match transport with
  | Quic => bool_decide (s = "https"%string)
  | Wss => bool_decide (s = "wss"%string)
  | Tcp => bool_decide (s = "tcp"%string)
  end.

Definition is_none_or {A} (o : option A) (p : A -> bool) : bool :=
  match o with None => true | Some a => p a end.

Lemma is_none_or_false {A} (o : option A) p :
  is_none_or o p = false <-> exists a, o = Some a /\ p a = false.
Proof. destruct o; naive_solver. Qed.

Section validate.
Context `{UrlLib} `{Base64Lib}.

(** The closure of the endpoint loop: the endpoint is refused. *)
Definition endpoint_refused (configured : gset TransportKind) (endpoint : TransportEndpoint)
  : bool :=
  negb (bool_decide (ep_transport endpoint ∈ configured))
  || is_none_or (Url_parse (ep_url endpoint)) (fun url =>
       negb (endpoint_scheme_matches (ep_transport endpoint) (scheme url))
       || negb (is_empty (username url))
       || is_some (password url)
       || is_some (query url)
       || is_some (fragment url)
       || is_none (host_str url)
       || (bool_decide (ep_transport endpoint = Tcp) && is_none (port url))
       || (negb (bool_decide (ep_transport endpoint = Wss))
           && negb (bool_decide (path url = ""%string) || bool_decide (path url = "/"%string)))).

Definition NetworkProfile_validate (self : NetworkProfile) : Res unit :=
  if negb (schema_version self =? NETWORK_SCHEMA_VERSION)
  then Err UnsupportedSchemaVersion
  else if negb (valid_id (profile_id self))
    || is_none_or (strip_prefix (identity_ref self) "keychain:")
         (fun identifier => negb (valid_id identifier))
    || negb (valid_id (site_id (site self)))
  then Err InvalidConfiguration
  else
  let? control_plane := ok_or (Url_parse (control_plane self)) InvalidConfiguration in
  if negb (bool_decide (scheme control_plane = "https"%string))
    || negb (is_empty (username control_plane))
    || is_some (password control_plane)
    || is_some (fragment control_plane)
  then Err InvalidConfiguration
  else if is_empty (display_name (site self))
    || negb (valid_unique_cidrs (private_cidrs (site self)))
    || negb (valid_unique_cidrs (local_addresses (tunnel self)))
    || is_none_or (BASE64_decode (peer_public_key (tunnel self)))
         (fun key => negb (bool_decide (length key = 32%nat)))
    || (keepalive_seconds (tunnel self) =? 0)
  then Err InvalidConfiguration
  else if negb (bool_decide (primary (transports self) = Quic))
    || bool_decide (endpoints (transports self) = [])
    || bool_decide (Quic ∈ fallbacks (transports self))
    || negb (all_unique (fallbacks (transports self)))
  then Err InvalidConfiguration
  else
  let configured : gset TransportKind :=
    list_to_set (primary (transports self) :: fallbacks (transports self)) in
  if negb (all_unique (map ep_transport (endpoints (transports self))))
    || negb (bool_decide
         (list_to_set (map ep_transport (endpoints (transports self))) = configured))
    || existsb (endpoint_refused configured) (endpoints (transports self))
  then Err InvalidConfiguration
  else if (connect_timeout_seconds (policy self) =? 0)
    || (health_interval_seconds (policy self) =? 0)
    || (fallback_threshold (policy self) =? 0)
  then Err InvalidConfiguration
  else Ok tt.

End validate.

(** ** what a validated profile promises *)

Lemma all_unique_spec {A} `{EqDecision A} (l : list A) : all_unique l = true <-> NoDup l.
Proof. unfold all_unique. rewrite all_unique_from_spec. set_solver. Qed.

Section contract.
Context `{UrlLib} `{Base64Lib}.

(** The contract the data plane relies on. *)
Record profile_contract (p : NetworkProfile) : Prop := {
  pc_primary : primary (transports p) = Quic;
  pc_fallbacks : NoDup (fallbacks (transports p)) /\ Quic ∉ fallbacks (transports p);
  pc_endpoints : NoDup (map ep_transport (endpoints (transports p)));
  pc_configured : forall k, k ∈ map ep_transport (endpoints (transports p)) <->
    k = Quic \/ k ∈ fallbacks (transports p);
  pc_scheme : forall e, e ∈ endpoints (transports p) -> exists url,
    Url_parse (ep_url e) = Some url /\
    endpoint_scheme_matches (ep_transport e) (scheme url) = true /\
    username url = EmptyString /\ password url = None /\
    query url = None /\ fragment url = None /\ host_str url <> None;
  pc_cidrs : forall c, c ∈ private_cidrs (site p) -> valid_cidr c = true;
  pc_threshold : fallback_threshold (policy p) <> 0;
}.

Lemma endpoint_refused_false configured e :
  endpoint_refused configured e = false ->
  ep_transport e ∈ configured /\
  exists url, Url_parse (ep_url e) = Some url /\
    endpoint_scheme_matches (ep_transport e) (scheme url) = true /\
    username url = EmptyString /\ password url = None /\
    query url = None /\ fragment url = None /\ host_str url <> None.
Proof.
  unfold endpoint_refused. intros [Hc Hu]%orb_false_iff. reflect_bools.
  split; [done|]. apply is_none_or_false in Hu as (url & Hp & Hu). exists url.
  reflect_bools. rewrite is_empty_true in *. unfold is_none, is_some in *.
  split_and!; try done; by repeat case_match.
Qed.

Lemma validate_contract p :
  NetworkProfile_validate p = Ok tt -> profile_contract p.
Proof.
  unfold NetworkProfile_validate. intros Hv.
  case_match; [done|]. case_match; [done|].
  apply rbind_ok in Hv as (cp & _ & Hv).
  do 5 (case_match; [done|]). clear Hv. reflect_bools.
  rewrite all_unique_spec in *. rewrite existsb_false in *.
  constructor; try done.
  - intros k. rewrite <- (elem_of_list_to_set (C:=gset TransportKind)).
    match goal with HH : list_to_set _ = _ |- _ => rewrite HH end. set_solver.
  - intros e He. by eapply endpoint_refused_false; eauto.
  - unfold valid_unique_cidrs in *. reflect_bools.
    match goal with HH : forallb valid_cidr (private_cidrs _) = true |- _ =>
      rewrite forallb_forall in HH; intros c Hc; apply HH; by apply list_elem_of_In end.
Qed.
End contract.
