(* ===== verification/ConfigV2.v ===== *)
(** * ConfigV2: the production profile, schema version 2

    The second half of [src-tauri/src/networking/config.rs]: the production
    profile paired with the Linux peer, and every helper of
    [ProductionNetworkProfileV2::validate] (canonical X25519 keys, canonical
    private prefixes, the fixed QUIC/WSS/TCP endpoint triple, the control-plane
    URL grammar and DNS names). *)

From Stdlib Require Import Ascii String.
From S2P Require Import Prelude Text NetState IpAddr IpRoundTrip Config.

(** ** constants and data *)

Definition PRODUCTION_NETWORK_SCHEMA_VERSION : Z := 2.
Definition PRODUCTION_CARRIER_AUTH_VERSION : Z := 1.
Definition PRODUCTION_WSS_PATH : string := "/kynp".
Definition PRODUCTION_MAX_PRIVATE_CIDRS : Z := 16.
Definition PRODUCTION_MAX_PRIVATE_CIDR_TEXT_BYTES : Z := 1024.

Inductive ProductionTransportKindV2 : Type := QuicV2 | WssV2 | TcpV2.

#[global] Instance ProductionTransportKindV2_eq_dec : EqDecision ProductionTransportKindV2.
Proof. solve_decision. Defined.

Record ProductionSiteConfigV2 := {
  v2_site_id : string;
  v2_display_name : string;
  v2_private_cidrs : list string;
}.

Record ProductionTunnelConfigV2 := {
  v2_local_addresses : list string;
  v2_local_public_key : string;
  v2_peer_public_key : string;
  v2_keepalive_seconds : Z;
}.

Record ProductionTransportEndpointV2 := {
  v2_transport : ProductionTransportKindV2;
  v2_url : string;
}.

Record ProductionTransportConfigV2 := {
  v2_primary : ProductionTransportKindV2;
  v2_fallbacks : list ProductionTransportKindV2;
  v2_endpoints : list ProductionTransportEndpointV2;
}.

Record ProductionNetworkPolicyV2 := {
  v2_connect_timeout_seconds : Z;
  v2_health_interval_seconds : Z;
  v2_fallback_threshold : Z;
}.

Record ProductionNetworkProfileV2 := {
  v2_schema_version : Z;
  v2_carrier_auth_version : Z;
  v2_profile_id : string;
  v2_control_plane : string;
  v2_identity_ref : string;
  v2_site : ProductionSiteConfigV2;
  v2_tunnel : ProductionTunnelConfigV2;
  v2_transports : ProductionTransportConfigV2;
  v2_policy : ProductionNetworkPolicyV2;
}.

Record ProductionPrefix := {
  pp_address : IpAddr;
  pp_bits : Z;
}.

(** ** X25519 public keys *)

Definition PRODUCTION_X25519_LOW_ORDER_POINTS : list (list Z) :=
  [ replicate 32 0;
    1 :: replicate 31 0;
    [224; 235; 122; 124; 59; 65; 184; 174; 22; 86; 227; 250; 241; 159; 196; 106; 218; 9;
     141; 235; 156; 50; 177; 253; 134; 98; 5; 22; 95; 73; 184; 0];
    [95; 156; 149; 188; 163; 80; 140; 36; 177; 208; 177; 85; 156; 131; 239; 91; 4; 68;
     92; 196; 88; 28; 142; 134; 216; 34; 78; 221; 208; 159; 17; 87];
    236 :: replicate 30 255 ++ [127];
    237 :: replicate 30 255 ++ [127];
    238 :: replicate 30 255 ++ [127] ].

Definition PRODUCTION_X25519_FIELD_PRIME : list Z := 237 :: replicate 30 255 ++ [127].

(** The loop from the last (most significant) byte down, the key and the prime
    being given most significant byte first. *)
Fixpoint coordinate_below (key prime : list Z) : bool :=
  match key, prime with
  | k :: key, p :: prime =>
      match k ?= p with
      | Lt => true
      | Gt => false
      | Eq => coordinate_below key prime
      end
  | _, _ => false
  end.

Definition canonical_production_x25519_coordinate (key : list Z) : bool :=
  coordinate_below (rev key) (rev PRODUCTION_X25519_FIELD_PRIME).

Section keys.
Context `{Base64Lib}.

Definition decode_canonical_production_key (value : string) : option (list Z) :=
  if negb (len value =? 44) then None
  else
    match BASE64_decode value with
    | None => None
    | Some key =>
        if negb (bool_decide (length key = 32%nat)) then None
        else if negb (canonical_production_x25519_coordinate key)
          || bool_decide (key ∈ PRODUCTION_X25519_LOW_ORDER_POINTS)
          || negb (bool_decide (BASE64_encode key = value))
        then None
        else Some key
    end.
End keys.

(** ** prefixes *)

Definition production_address_value (address : IpAddr) : Z := addr_value address.
Definition production_address_bits (address : IpAddr) : Z :=
  if is_ipv4 address then 32 else 128.
Definition production_family (address : IpAddr) : Z :=
  if is_ipv4 address then 1 else 2.
Definition production_same_family (left right : IpAddr) : bool :=
  Bool.eqb (is_ipv4 left) (is_ipv4 right).

Definition production_masked_value (address : IpAddr) (bits : Z) : Z :=
  let width := production_address_bits address in
  let value := production_address_value address in
  if bits =? 0 then 0 else Z.land value (u128_shl u128_max (width - bits)).

Definition parse_canonical_production_prefix (value : string) : option ProductionPrefix :=
  match rsplit_once value "/" with
  | None => None
  | Some (raw_address, raw_bits) =>
      match parse_ip raw_address with
      | None => None
      | Some address =>
          match parse_uint u8_max raw_bits with
          | None => None
          | Some bits =>
              if negb (bool_decide (raw_address = print_ip address))
                || negb (bool_decide (raw_bits = print_uint bits))
                || (production_address_bits address <? bits)
              then None
              else Some {| pp_address := address; pp_bits := bits |}
          end
      end
  end.

Definition production_prefix_is_private (prefix : ProductionPrefix) : bool :=
  match pp_address prefix with
  | V4 address =>
      ((8 <=? pp_bits prefix) && (Z.land address 0xff000000 =? 0x0a000000))
      || ((12 <=? pp_bits prefix) && (Z.land address 0xfff00000 =? 0xac100000))
      || ((16 <=? pp_bits prefix) && (Z.land address 0xffff0000 =? 0xc0a80000))
  | V6 address => (7 <=? pp_bits prefix) && (Z.shiftr address 121 =? 0x7e)
  end.

Definition production_prefix_is_network (prefix : ProductionPrefix) : bool :=
  production_masked_value (pp_address prefix) (pp_bits prefix)
  =? production_address_value (pp_address prefix).

Definition production_prefixes_overlap (left right : ProductionPrefix) : bool :=
  production_same_family (pp_address left) (pp_address right)
  && (production_masked_value (pp_address left) (Z.min (pp_bits left) (pp_bits right))
      =? production_masked_value (pp_address right) (Z.min (pp_bits left) (pp_bits right))).

Definition prefix_sets_overlap (left right : list ProductionPrefix) : bool :=
  existsb (fun l => existsb (fun r => production_prefixes_overlap l r) right) left.

Fixpoint host_addresses_loop (values : list string) (prefixes : list ProductionPrefix)
  (families : Z) : option (list ProductionPrefix * Z) :=
  match values with
  | [] => Some (prefixes, families)
  | value :: values =>
      match parse_canonical_production_prefix value with
      | None => None
      | Some prefix =>
          let family := production_family (pp_address prefix) in
          if negb (pp_bits prefix =? production_address_bits (pp_address prefix))
            || negb (production_prefix_is_private prefix)
            || negb (Z.land families family =? 0)
          then None
          else host_addresses_loop values (prefixes ++ [prefix]) (Z.lor families family)
      end
  end.

Definition parse_production_host_addresses (values : list string)
  : option (list ProductionPrefix * Z) :=
  if bool_decide (values = []) || (2 <? Z.of_nat (length values)) then None
  else host_addresses_loop values [] 0.

Fixpoint private_cidrs_loop (values : list string) (text_bytes : Z)
  (prefixes : list ProductionPrefix) (families : Z)
  : option (list ProductionPrefix * Z) :=
  match values with
  | [] => Some (prefixes, families)
  | value :: values =>
      let text_bytes := text_bytes + len value in
      if (64 <? len value) || (PRODUCTION_MAX_PRIVATE_CIDR_TEXT_BYTES <? text_bytes)
      then None
      else match parse_canonical_production_prefix value with
      | None => None
      | Some prefix =>
          if (pp_bits prefix =? 0)
            || negb (production_prefix_is_network prefix)
            || negb (production_prefix_is_private prefix)
            || existsb (fun existing => production_prefixes_overlap existing prefix) prefixes
          then None
          else private_cidrs_loop values text_bytes (prefixes ++ [prefix])
                 (Z.lor families (production_family (pp_address prefix)))
      end
  end.

Definition parse_production_private_cidrs (values : list string)
  : option (list ProductionPrefix * Z) :=
  if bool_decide (values = []) || (PRODUCTION_MAX_PRIVATE_CIDRS <? Z.of_nat (length values))
  then None
  else private_cidrs_loop values 0 [] 0.

(** ** names and URLs *)

Definition production_trim_space (character : Z) : bool :=
  ((9 <=? character) && (character <=? 13))
  || (character =? 0x20) || (character =? 0x85) || (character =? 0xa0)
  || (character =? 0x1680) || ((0x2000 <=? character) && (character <=? 0x200a))
  || (character =? 0x2028) || (character =? 0x2029) || (character =? 0x202f)
  || (character =? 0x205f) || (character =? 0x3000).

Fixpoint display_name_loop (characters : list Z) (count last : Z) : option Z :=
  match characters with
  | [] => Some last
  | character :: characters =>
      let count := count + 1 in
      if 128 <? count then None else display_name_loop characters count character
  end.

Definition valid_production_display_name (value : string) : bool :=
  match chars value with
  | [] => false
  | first :: characters =>
      match display_name_loop characters 1 first with
      | None => false
      | Some last => negb (production_trim_space first) && negb (production_trim_space last)
      end
  end.

Definition valid_server_label (label : string) : bool :=
  negb (is_empty label)
  && (len label <=? 63)
  && negb (starts_with label "-")
  && negb (ends_with label "-")
  && all_bytes (fun c => is_ascii_lowercase c || is_ascii_digit c
                         || bool_decide (c = "-"%char)) label.

Definition valid_production_server_name (value : string) : bool :=
  if is_empty value
    || (253 <? len value)
    || negb (bool_decide (value = to_ascii_lowercase value))
    || ends_with value "."
    || is_some (parse_ip value)
    || all_bytes (fun c => bool_decide (c = "."%char) || is_ascii_digit c) value
  then false
  else
    let labels := split value "." in
    if bool_decide (length labels < 2)%nat then false
    else forallb valid_server_label labels.

Definition production_control_authority_character (c : ascii) : bool :=
  is_ascii_lowercase c || is_ascii_uppercase c || is_ascii_digit c
  || one_of ["-"; "."; "_"; "~"; "!"; "$"; "&"; "'"; "("; ")"; "*"; "+"; ","; ";";
             "="; ":"; "["; "]"]%char c.

Definition production_control_path_character (c : ascii) : bool :=
  (production_control_authority_character c && negb (one_of ["["; "]"]%char c))
  || bool_decide (c = "/"%char) || bool_decide (c = "@"%char).

Definition contains_byte (s : string) (c : ascii) : bool :=
  any_byte (fun d => bool_decide (d = c)) s.

Definition valid_production_control_plane (value : string) : bool :=
  if is_empty value
    || (2048 <? len value)
    || negb (all_bytes is_ascii value)
    || any_byte (fun c => one_of ["%"; "\"; "?"; "#"]%char c || is_ascii_control c) value
  then false
  else match strip_prefix value "https://" with
  | None => false
  | Some remainder =>
      let (authority, path) :=
        match split_once remainder "/" with
        | None => (remainder, None)
        | Some (authority, path) => (authority, Some path)
        end in
      if is_empty authority
        || contains_byte authority "@"
        || (contains_byte authority "[" || contains_byte authority "]")
        || negb (all_bytes production_control_authority_character authority)
        || is_some_and path (fun path => negb (all_bytes production_control_path_character path))
      then false
      else
        let parts :=
          match rsplit_once authority ":" with
          | Some (host, raw_port) =>
              if negb (contains_byte host ":") then Some (host, Some raw_port) else None
          | None => Some (authority, None)
          end in
        match parts with
        | None => false
        | Some (host, raw_port) =>
            if negb (valid_production_server_name host)
              || negb (is_some_and (last (split host "."))
                         (fun label => any_byte is_ascii_lowercase label))
            then false
            else is_none_or raw_port (fun raw_port =>
              is_some_and (parse_uint u16_max raw_port)
                (fun port => (0 <? port) && bool_decide (raw_port = print_uint port)))
        end
  end.

Section endpoints.
Context `{UrlLib}.

Definition parse_production_endpoint (transport : ProductionTransportKindV2) (raw : string)
  : option (string * Z) :=
  let (scheme_, path_) :=
    match transport with
    | QuicV2 => ("https"%string, ""%string)
    | WssV2 => ("wss"%string, PRODUCTION_WSS_PATH)
    | TcpV2 => ("tcp"%string, ""%string)
    end in
  if existsb (fun c => (c =? 37) || (c =? 92) || (c =? 63) || (c =? 35)
                       || char_is_whitespace c) (chars raw)
    || negb (starts_with raw (String.append scheme_ "://"))
    || negb (ends_with raw path_)
  then None
  else match strip_prefix raw (String.append scheme_ "://") with
  | None => None
  | Some rest =>
  match strip_suffix rest path_ with
  | None => None
  | Some authority =>
      if any_byte (one_of ["/"; "@"; "["; "]"]%char) authority then None
      else match rsplit_once authority ":" with
      | None => None
      | Some (host, raw_port) =>
      match parse_uint u16_max raw_port with
      | None => None
      | Some port_ =>
          if (port_ <? 1024)
            || negb (bool_decide (raw_port = print_uint port_))
            || negb (valid_production_server_name host)
          then None
          else match Url_parse raw with
          | None => None
          | Some parsed =>
              if negb (bool_decide (scheme parsed = scheme_))
                || negb (is_empty (username parsed))
                || is_some (password parsed)
                || negb (bool_decide (host_str parsed = Some host))
                || negb (bool_decide (port_or_known_default parsed = Some port_))
                || is_some (query parsed)
                || is_some (fragment parsed)
                || (bool_decide (transport = WssV2)
                    && negb (bool_decide (path parsed = PRODUCTION_WSS_PATH)))
                || (bool_decide (transport = QuicV2)
                    && negb (bool_decide (path parsed = "/"%string)))
                || (bool_decide (transport = TcpV2) && negb (is_empty (path parsed)))
              then None
              else Some (host, port_)
          end
      end
      end
  end
  end.

Definition EXPECTED : list ProductionTransportKindV2 := [QuicV2; WssV2; TcpV2].

Fixpoint transports_loop
  (l : list (ProductionTransportEndpointV2 * ProductionTransportKindV2))
  (expected_host : option string) (ports : list Z) : bool :=
  match l with
  | [] => true
  | (endpoint, expected_transport) :: l =>
      if negb (bool_decide (v2_transport endpoint = expected_transport)) then false
      else match parse_production_endpoint (v2_transport endpoint) (v2_url endpoint) with
      | None => false
      | Some (host, port) =>
          if is_some_and expected_host (fun expected => negb (bool_decide (expected = host)))
            || bool_decide (port ∈ ports)
          then false
          else transports_loop l (Some host) (port :: ports)
      end
  end.

Definition valid_production_transports (transports : ProductionTransportConfigV2) : bool :=
  if negb (bool_decide (v2_primary transports = QuicV2))
    || negb (bool_decide (v2_fallbacks transports = drop 1 EXPECTED))
    || negb (bool_decide (length (v2_endpoints transports) = length EXPECTED))
  then false
  else transports_loop (zip (v2_endpoints transports) EXPECTED) None [].
End endpoints.

(** ** validation *)

Section validate.
Context `{UrlLib} `{Base64Lib}.

Definition ProductionNetworkProfileV2_validate (self : ProductionNetworkProfileV2) : Res unit :=
  if negb (v2_schema_version self =? PRODUCTION_NETWORK_SCHEMA_VERSION)
  then Err UnsupportedSchemaVersion
  else if negb (v2_carrier_auth_version self =? PRODUCTION_CARRIER_AUTH_VERSION)
    || negb (valid_id (v2_profile_id self))
    || is_none_or (strip_prefix (v2_identity_ref self) "keychain:")
         (fun identifier => negb (valid_id identifier))
    || negb (valid_id (v2_site_id (v2_site self)))
    || negb (valid_production_display_name (v2_display_name (v2_site self)))
  then Err InvalidConfiguration
  else if negb (valid_production_control_plane (v2_control_plane self))
  then Err InvalidConfiguration
  else
  let? local_key := ok_or (decode_canonical_production_key
    (v2_local_public_key (v2_tunnel self))) InvalidConfiguration in
  let? peer_key := ok_or (decode_canonical_production_key
    (v2_peer_public_key (v2_tunnel self))) InvalidConfiguration in
  if bool_decide (local_key = peer_key) || (v2_keepalive_seconds (v2_tunnel self) =? 0)
  then Err InvalidConfiguration
  else
  let? (local_addresses, local_families) := ok_or (parse_production_host_addresses
    (v2_local_addresses (v2_tunnel self))) InvalidConfiguration in
  let? (private_cidrs, private_families) := ok_or (parse_production_private_cidrs
    (v2_private_cidrs (v2_site self))) InvalidConfiguration in
  if negb (local_families =? private_families)
    || prefix_sets_overlap local_addresses private_cidrs
    || negb (valid_production_transports (v2_transports self))
    || (v2_connect_timeout_seconds (v2_policy self) =? 0)
    || (300 <? v2_connect_timeout_seconds (v2_policy self))
    || (v2_health_interval_seconds (v2_policy self) =? 0)
    || (300 <? v2_health_interval_seconds (v2_policy self))
    || (v2_fallback_threshold (v2_policy self) =? 0)
    || (20 <? v2_fallback_threshold (v2_policy self))
  then Err InvalidConfiguration
  else Ok tt.
End validate.

Example control_plane_ok :
  valid_production_control_plane "https://control.example.com:8443/v2" = true.
Proof. vm_compute. reflexivity. Qed.
Example control_plane_ip :
  valid_production_control_plane "https://10.0.0.1/" = false.
Proof. vm_compute. reflexivity. Qed.
Example private_cidrs_ok :
  option_map snd (parse_production_private_cidrs ["10.64.0.0/16"; "fd00:64::/48"]%string) = Some 3.
Proof. vm_compute. reflexivity. Qed.

(** ** canonical coordinates are the integers below the field prime *)

(** The integer a little-endian byte string stands for. *)
Fixpoint le_value (l : list Z) : Z :=
  match l with
  | [] => 0
  | b :: l => b + 256 * le_value l
  end.

Fixpoint be_value (l : list Z) : Z :=
  match l with
  | [] => 0
  | b :: l => b * 256 ^ Z.of_nat (length l) + be_value l
  end.

Definition is_byte (b : Z) : Prop := 0 <= b <= 255.

Lemma be_value_range l :
  Forall is_byte l -> 0 <= be_value l < 256 ^ Z.of_nat (length l).
Proof.
  induction 1 as [|b l Hb Hl IH]; cbn; [lia|]. unfold is_byte in Hb.
  change (Z.of_nat (S (length l))) with (Z.of_nat (1 + length l)).
  rewrite Nat2Z.inj_add, Z.pow_add_r by lia. change (256 ^ Z.of_nat 1) with 256. nia.
Qed.

Lemma be_value_app l b :
  be_value (l ++ [b]) = 256 * be_value l + b.
Proof.
  induction l as [|c l IH]; cbn; [lia|].
  rewrite IH, length_app. cbn. rewrite Nat2Z.inj_add, Z.pow_add_r by lia.
  change (256 ^ Z.of_nat 1) with 256. ring.
Qed.

Lemma be_value_rev l : be_value (rev l) = le_value l.
Proof. induction l as [|b l IH]; cbn; [done|]. rewrite be_value_app, IH. lia. Qed.

Lemma coordinate_below_spec k p :
  length k = length p -> Forall is_byte k -> Forall is_byte p ->
  coordinate_below k p = true <-> be_value k < be_value p.
Proof.
  revert p. induction k as [|a k IH]; intros [|b p] Hlen Hk Hp; try done; cbn.
  apply Forall_cons in Hk as [Ha Hk]. apply Forall_cons in Hp as [Hb Hp].
  injection Hlen as Hlen.
  pose proof (be_value_range k Hk) as Hrk. pose proof (be_value_range p Hp) as Hrp.
  rewrite Hlen in *. destruct (Z.compare_spec a b) as [->|Hab|Hab].
  - rewrite IH by done. lia.
  - split; [intros _; nia|done].
  - split; [intros [=]|nia].
Qed.

(** The byte-wise comparison of a key with the field prime accepts exactly the canonical
    coordinates, the little-endian integers below 2^255 - 19. *)
Theorem x25519_coordinate_canonical key :
  length key = 32%nat -> Forall is_byte key ->
  canonical_production_x25519_coordinate key = true <-> le_value key < 2 ^ 255 - 19.
Proof.
  intros Hlen Hb. unfold canonical_production_x25519_coordinate.
  rewrite coordinate_below_spec, !be_value_rev.
  - by replace (le_value PRODUCTION_X25519_FIELD_PRIME) with (2 ^ 255 - 19)
      by (vm_compute; reflexivity).
  - by rewrite !length_rev, Hlen.
  - by apply Forall_rev.
  - apply Forall_rev. by (repeat constructor; unfold is_byte; lia).
Qed.

(** ** prefixes *)

(** RFC 1918 and RFC 4193: the addresses the production profile may route. *)
Definition private_address (a : IpAddr) : Prop :=
  match a with
  | V4 x => x / 2 ^ 24 = 10 \/ x / 2 ^ 20 = 0xac1 \/ x / 2 ^ 16 = 0xc0a8
  | V6 x => x / 2 ^ 121 = 0x7e
  end.

(** The addresses of a prefix. *)
Definition prefix_contains (p : ProductionPrefix) (a : IpAddr) : Prop :=
  is_ipv4 a = is_ipv4 (pp_address p) /\
  in_prefix (addr_width a) (addr_value (pp_address p)) (pp_bits p) (addr_value a).

Definition prefix_wf (p : ProductionPrefix) : Prop :=
  addr_wf (pp_address p) /\ 0 <= pp_bits p <= addr_width (pp_address p).

Lemma production_address_bits_width a : production_address_bits a = addr_width a.
Proof. by destruct a. Qed.

Lemma parse_canonical_spec value p :
  parse_canonical_production_prefix value = Some p ->
  prefix_wf p /\
  value = String.append (print_ip (pp_address p)) (String "/" (print_uint (pp_bits p))).
Proof.
  unfold parse_canonical_production_prefix, rsplit_once, on_bytes. intros Hp.
  destruct (rsplit_once_bytes "/" (bytes value)) as [[ra rb]|] eqn:Hs; [|done].
  destruct (parse_ip (str ra)) as [a|] eqn:Ha; [|done].
  destruct (parse_uint u8_max (str rb)) as [b|] eqn:Hb; [|done].
  case_match eqn:Hg; [done|]. injection Hp as <-. reflect_bools.
  rewrite production_address_bits_width in *.
  unfold prefix_wf. cbn [pp_address pp_bits]. split.
  - split; [by eapply parse_ip_wf|]. apply parse_uint_range in Hb; cbn; lia || done.
  - apply rsplit_once_bytes_spec in Hs as [Hv _].
    rewrite <- (str_bytes value), Hv.
    repeat match goal with E : str _ = _ |- _ => rewrite <- E; clear E end.
    by rewrite str_app.
Qed.

(** The overlap test is exact: it holds when some address lies in both
    prefixes. *)
Lemma production_masked_eq a b bits :
  addr_wf a -> addr_wf b -> is_ipv4 a = is_ipv4 b -> 0 <= bits <= addr_width a ->
  production_masked_value a bits = production_masked_value b bits <->
  addr_value a / 2 ^ (addr_width a - bits) = addr_value b / 2 ^ (addr_width a - bits).
Proof.
  intros Ha Hb Hf Hbits.
  assert (Hm : forall c, addr_width c = addr_width a ->
    production_masked_value c bits = Z.land (addr_value c) (prefix_mask (addr_width a) bits)).
  { intros c Hc. unfold production_masked_value, prefix_mask, production_address_value.
    rewrite production_address_bits_width, Hc.
    destruct (bits =? 0); [by rewrite Z.land_0_r|done]. }
  assert (Hw : addr_width b = addr_width a) by (by destruct a, b).
  rewrite (Hm a), (Hm b) by done. unfold addr_wf in *. rewrite Hw in Hb.
  apply land_mask_eq; try done. destruct a; cbn; lia.
Qed.

Lemma production_prefixes_overlap_spec p q :
  prefix_wf p -> prefix_wf q ->
  production_prefixes_overlap p q = true <->
  exists a, prefix_contains p a /\ prefix_contains q a.
Proof.
  intros [Hp Hpb] [Hq Hqb]. unfold production_prefixes_overlap, production_same_family.
  rewrite andb_true_iff, eqb_true_iff, Z.eqb_eq.
  destruct p as [a pb], q as [b qb]; cbn in *. split.
  - intros [Hf Hm]. assert (Hw : addr_width b = addr_width a) by (by destruct a, b).
    apply production_masked_eq in Hm; try done; [|rewrite Hw in *; lia].
    unfold addr_wf in *. rewrite Hw in *.
    apply same_under_shorter_mask in Hm as (x & Hx1 & Hx2); [|lia..].
    exists (if is_ipv4 a then V4 x else V6 x).
    unfold prefix_contains; cbn. by destruct a, b.
  - intros (x & [Hx1 Hx2] & [Hx3 Hx4]). cbn in *.
    assert (Hf : is_ipv4 a = is_ipv4 b) by congruence. split; [done|].
    assert (addr_width x = addr_width a) as Hwx by (by destruct x, a).
    assert (addr_width b = addr_width a) as Hwb by (by destruct b, a).
    apply production_masked_eq; try done; [rewrite Hwb in *; lia|].
    unfold addr_wf in *. rewrite Hwb, Hwx in *.
    apply same_under_shorter_mask; [lia..|]. eauto.
Qed.

(** A private prefix holds only private addresses. *)
Lemma land_high_mask x m k :
  0 <= x < 2 ^ 32 -> 0 <= k <= 32 -> m = Z.ones 32 - Z.ones k ->
  Z.land x m = 2 ^ k * (x / 2 ^ k).
Proof.
  intros Hx Hk ->.
  replace (Z.ones 32 - Z.ones k) with (Z.shiftl (Z.ones (32 - k)) k).
  2: { rewrite Z.shiftl_mul_pow2, !Z.ones_equiv by lia.
       replace (Z.pred (2 ^ (32 - k)) * 2 ^ k) with (2 ^ (32 - k) * 2 ^ k - 2 ^ k) by lia.
       rewrite <- Z.pow_add_r by lia. replace (32 - k + k) with 32 by lia. lia. }
  rewrite Z.mul_comm, <- Z.shiftl_mul_pow2, <- Z.shiftr_div_pow2 by lia.
  apply Z.bits_inj'. intros n Hn. rewrite Z.land_spec, !Z.shiftl_spec by lia.
  destruct (Z.lt_ge_cases n k).
  { rewrite !(Z.testbit_neg_r _ (n - k)) by lia. by rewrite andb_false_r. }
  rewrite Z.shiftr_spec by lia. replace (n - k + k) with n by lia.
  rewrite Z.testbit_ones_nonneg by lia.
  destruct (Z.lt_ge_cases n 32).
  { rewrite (proj2 (Z.ltb_lt (n - k) (32 - k))) by lia. by rewrite andb_true_r. }
  rewrite (Z.bits_above_log2 x n); [done|lia|].
  destruct (Z.eq_dec x 0) as [->|]; [cbn; lia|].
  apply Z.log2_lt_pow2; [lia|]. eapply Z.lt_le_trans; [apply Hx|].
  apply Z.pow_le_mono_r; lia.
Qed.

Lemma private_prefix_addresses p a :
  prefix_wf p -> production_prefix_is_private p = true -> prefix_contains p a ->
  private_address a.
Proof.
  destruct p as [[b|b] bits]; unfold production_prefix_is_private; cbn;
    intros [Hwf Hbits] Hpriv [Hfam [Ha Hin]]; cbn in *; unfold addr_wf in Hwf; cbn in Hwf;
    destruct a as [x|x]; try done; cbn in *.
  - assert (Hk : forall k, bits >= 32 - k -> 0 <= k <= 32 -> x / 2 ^ k = b / 2 ^ k).
    { intros k Hk1 Hk2. replace k with (32 - (32 - k)) by lia.
      apply (div_coarser 32 _ bits); lia || done. }
    rewrite !orb_true_iff, !andb_true_iff, !Z.leb_le, !Z.eqb_eq in Hpriv.
    destruct Hpriv as [[[H8 H1]|[H8 H1]]|[H8 H1]].
    + left. rewrite (land_high_mask b _ 24) in H1 by (lia || reflexivity).
      rewrite Hk by lia. lia.
    + right; left. rewrite (land_high_mask b _ 20) in H1 by (lia || reflexivity).
      rewrite Hk by lia. lia.
    + right; right. rewrite (land_high_mask b _ 16) in H1 by (lia || reflexivity).
      rewrite Hk by lia. lia.
  - rewrite andb_true_iff, Z.leb_le, Z.eqb_eq, Z.shiftr_div_pow2 in Hpriv by lia.
    destruct Hpriv as [H7 <-]. replace 121 with (128 - 7) by lia.
    apply (div_coarser 128 _ bits); lia || done.
Qed.

(** ** the prefix lists *)

(** What the two loops establish of a prefix and of a list of prefixes. *)
Definition private_prefix (p : ProductionPrefix) : Prop :=
  prefix_wf p /\ production_prefix_is_private p = true.

Definition pairwise_disjoint (ps : list ProductionPrefix) : Prop :=
  forall i j p q, (i < j)%nat -> ps !! i = Some p -> ps !! j = Some q ->
    production_prefixes_overlap p q = false.

Definition text_of (value : string) (p : ProductionPrefix) : Prop :=
  parse_canonical_production_prefix value = Some p.

Definition families_of (ps : list ProductionPrefix) : Z :=
  fold_left (fun f p => Z.lor f (production_family (pp_address p))) ps 0.

Lemma families_of_snoc ps p :
  families_of (ps ++ [p]) = Z.lor (families_of ps) (production_family (pp_address p)).
Proof. unfold families_of. by rewrite fold_left_app. Qed.

Lemma pairwise_disjoint_snoc ps p :
  pairwise_disjoint ps -> (forall q, q ∈ ps -> production_prefixes_overlap q p = false) ->
  pairwise_disjoint (ps ++ [p]).
Proof.
  intros Hps Hp i j q r Hij Hi Hj.
  apply lookup_app_Some in Hj as [Hj|[Hj Hr]].
  - apply (Hps i j); [done| |done].
    rewrite lookup_app_l in Hi; [done|]. apply lookup_lt_Some in Hj. lia.
  - apply list_lookup_singleton_Some in Hr as [Hz ->].
    apply Hp. rewrite lookup_app_l in Hi by lia. by eapply list_elem_of_lookup_2.
Qed.

Lemma private_cidrs_loop_spec values tb ps fam out fam' :
  private_cidrs_loop values tb ps fam = Some (out, fam') ->
  fam = families_of ps -> Forall private_prefix ps -> pairwise_disjoint ps ->
  fam' = families_of out /\ Forall private_prefix out /\ pairwise_disjoint out /\
  exists new, out = ps ++ new /\ Forall2 text_of values new.
Proof.
  revert tb ps fam. induction values as [|v values IH]; intros tb ps fam; cbn.
  { intros [= <- <-] -> ??. split_and!; try done. exists []. by rewrite app_nil_r. }
  case_match; [done|].
  destruct (parse_canonical_production_prefix v) as [p|] eqn:Hp; [|done].
  case_match eqn:Hg; [done|]. intros Hl -> Hps Hd. reflect_bools.
  apply IH in Hl as (-> & Hout & Hdout & new & -> & Hnew).
  - split_and!; try done. exists (p :: new). rewrite <- app_assoc. split; [done|].
    by constructor.
  - by rewrite families_of_snoc.
  - apply Forall_app. split; [done|]. apply Forall_singleton.
    split; [|done]. by apply parse_canonical_spec in Hp as [? _].
  - apply pairwise_disjoint_snoc; [done|]. by apply existsb_false.
Qed.

Lemma host_addresses_loop_spec values ps fam out fam' :
  host_addresses_loop values ps fam = Some (out, fam') ->
  fam = families_of ps -> Forall private_prefix ps ->
  fam' = families_of out /\ Forall private_prefix out /\
  exists new, out = ps ++ new /\ Forall2 text_of values new /\
    Forall (fun p => pp_bits p = addr_width (pp_address p)) new.
Proof.
  revert ps fam. induction values as [|v values IH]; intros ps fam; cbn.
  { intros [= <- <-] -> ?. split_and!; try done. exists []. by rewrite app_nil_r. }
  destruct (parse_canonical_production_prefix v) as [p|] eqn:Hp; [|done].
  case_match eqn:Hg; [done|]. intros Hl -> Hps. reflect_bools.
  rewrite production_address_bits_width in *.
  apply IH in Hl as (-> & Hout & new & -> & Hnew & Hbits).
  - split_and!; try done. exists (p :: new). rewrite <- app_assoc.
    split_and!; [done|by constructor|by constructor].
  - by rewrite families_of_snoc.
  - apply Forall_app. split; [done|]. apply Forall_singleton.
    split; [|done]. by apply parse_canonical_spec in Hp as [? _].
Qed.

Lemma families_of_bits ps :
  Z.testbit (families_of ps) 0 = existsb (fun p => is_ipv4 (pp_address p)) ps /\
  Z.testbit (families_of ps) 1 = existsb (fun p => is_ipv6 (pp_address p)) ps.
Proof.
  induction ps as [|p ps [IH1 IH2]] using rev_ind; [done|].
  rewrite families_of_snoc, !Z.lor_spec, IH1, IH2, !existsb_app. cbn.
  rewrite !orb_false_r. unfold is_ipv6, production_family.
  by destruct (is_ipv4 (pp_address p)).
Qed.

(** What a validated production profile routes: [locals] are its tunnel host
    addresses and [privates] its private prefixes. *)
Record routes_contract (locals privates : list ProductionPrefix) : Prop := {
  rc_private : forall p a, p ∈ privates -> prefix_contains p a -> private_address a;
  rc_disjoint : forall i j p q a, privates !! i = Some p -> privates !! j = Some q ->
    prefix_contains p a -> prefix_contains q a -> i = j;
  rc_local_hosts : forall p, p ∈ locals -> pp_bits p = addr_width (pp_address p);
  rc_local_outside : forall p q, p ∈ locals -> q ∈ privates ->
    ~ prefix_contains q (pp_address p);
  rc_families_v4 : (exists p, p ∈ locals /\ is_ipv4 (pp_address p) = true) <->
    (exists p, p ∈ privates /\ is_ipv4 (pp_address p) = true);
  rc_families_v6 : (exists p, p ∈ locals /\ is_ipv6 (pp_address p) = true) <->
    (exists p, p ∈ privates /\ is_ipv6 (pp_address p) = true);
}.

Lemma existsb_elem {A} (f : A -> bool) l :
  existsb f l = true <-> exists x, x ∈ l /\ f x = true.
Proof. rewrite existsb_exists. by setoid_rewrite <- list_elem_of_In. Qed.

Lemma prefix_contains_self p : prefix_wf p -> prefix_contains p (pp_address p).
Proof. intros [Hwf ?]. split; [done|]. split; [apply Hwf|done]. Qed.

Lemma routes_contract_intro locals privates :
  Forall private_prefix locals -> Forall private_prefix privates ->
  Forall (fun p => pp_bits p = addr_width (pp_address p)) locals ->
  pairwise_disjoint privates -> families_of locals = families_of privates ->
  prefix_sets_overlap locals privates = false ->
  routes_contract locals privates.
Proof.
  intros Hl Hp Hb Hd Hf Ho. rewrite !Forall_forall in *.
  pose proof (families_of_bits locals) as [Hl4 Hl6].
  pose proof (families_of_bits privates) as [Hp4 Hp6].
  constructor.
  - intros p a Hin Ha. destruct (Hp p Hin). by eapply private_prefix_addresses.
  - intros i j p q a Hi Hj Hpa Hqa.
    assert (Hov : forall i j p q, (i < j)%nat -> privates !! i = Some p ->
      privates !! j = Some q -> prefix_contains p a -> prefix_contains q a -> False).
    { clear -Hp Hd. intros i j p q Hij Hi Hj Hpa Hqa.
      pose proof (Hd i j p q Hij Hi Hj) as Hn.
      apply list_elem_of_lookup_2 in Hi, Hj.
      apply not_true_iff_false in Hn. apply Hn.
      apply production_prefixes_overlap_spec; [apply (Hp p Hi)|apply (Hp q Hj)|eauto]. }
    destruct (Nat.lt_trichotomy i j) as [?|[?|?]]; [exfalso|done|exfalso]; eauto.
  - done.
  - intros p q Hpin Hqin Hc. unfold prefix_sets_overlap in Ho.
    rewrite existsb_false in Ho. specialize (Ho p Hpin). rewrite existsb_false in Ho.
    specialize (Ho q Hqin). apply not_true_iff_false in Ho. apply Ho.
    destruct (Hl p Hpin), (Hp q Hqin).
    apply production_prefixes_overlap_spec; [done..|].
    exists (pp_address p). split; [by apply prefix_contains_self|done].
  - by rewrite <- !existsb_elem, <- Hl4, <- Hp4, Hf.
  - by rewrite <- !existsb_elem, <- Hl6, <- Hp6, Hf.
Qed.

(** ** endpoints *)

Section transports.
Context `{UrlLib}.

Lemma parse_production_endpoint_spec t raw host p :
  parse_production_endpoint t raw = Some (host, p) ->
  1024 <= p <= u16_max /\ valid_production_server_name host = true /\
  exists url, Url_parse raw = Some url /\ host_str url = Some host /\
    username url = EmptyString /\ password url = None /\
    query url = None /\ fragment url = None.
Proof.
  unfold parse_production_endpoint. intros Hp.
  destruct (match t with QuicV2 => _ | WssV2 => _ | TcpV2 => _ end) as [sch pth].
  case_match; [done|]. destruct (strip_prefix _ _) as [rest|]; [|done].
  destruct (strip_suffix _ _) as [authority|]; [|done]. case_match; [done|].
  destruct (rsplit_once _ _) as [[h rp]|]; [|done].
  destruct (parse_uint _ _) as [port_|] eqn:Hport; [|done].
  case_match; [done|]. destruct (Url_parse raw) as [url|]; [|done].
  case_match; [done|]. simplify_eq. reflect_bools.
  apply parse_uint_range in Hport; [|by compute].
  rewrite is_empty_true in *. unfold is_some in *.
  split_and!; try done; try lia. exists url. repeat case_match; done.
Qed.

(** The three carriers of a validated profile: QUIC, WSS and TCP, in this
    order, on one server name and three distinct unprivileged ports. *)
Record transports_contract (t : ProductionTransportConfigV2) : Prop := {
  tc_order : v2_primary t = QuicV2 /\ v2_fallbacks t = [WssV2; TcpV2] /\
    map v2_transport (v2_endpoints t) = [QuicV2; WssV2; TcpV2];
  tc_shared : exists host ports, length ports = 3%nat /\ NoDup ports /\
    valid_production_server_name host = true /\
    Forall (fun p => 1024 <= p <= u16_max) ports /\
    Forall2 (fun e p => parse_production_endpoint (v2_transport e) (v2_url e) = Some (host, p))
      (v2_endpoints t) ports;
}.

Lemma transports_loop_step e k l host ports :
  transports_loop ((e, k) :: l) host ports = true ->
  v2_transport e = k /\ exists h p,
    parse_production_endpoint (v2_transport e) (v2_url e) = Some (h, p) /\
    (host = None \/ host = Some h) /\ p ∉ ports /\
    transports_loop l (Some h) (p :: ports) = true.
Proof.
  cbn. case_match eqn:Hk; [done|]. reflect_bools.
  destruct (parse_production_endpoint _ _) as [[h p]|] eqn:Hp; [|done].
  case_match eqn:Hg; [done|]. intros Hl. reflect_bools. split; [done|].
  exists h, p. split_and!; try done.
  destruct host as [h'|]; [right|by left]. cbn in *. reflect_bools. by subst.
Qed.

Lemma valid_production_transports_contract t :
  valid_production_transports t = true -> transports_contract t.
Proof.
  unfold valid_production_transports. case_match eqn:Hg; [done|]. reflect_bools.
  destruct t as [pr fb eps]; cbn in *. subst.
  do 4 (destruct eps as [|? eps]; try done). cbn [zip zip_with EXPECTED].
  intros (Ht1 & h1 & q1 & Hp1 & _ & _ & Hl)%transports_loop_step.
  apply transports_loop_step in Hl as (Ht2 & h2 & q2 & Hp2 & [?|[= ->]] & Hn2 & Hl); [done|].
  apply transports_loop_step in Hl as (Ht3 & h3 & q3 & Hp3 & [?|[= ->]] & Hn3 & _); [done|].
  constructor; cbn; [by rewrite Ht1, Ht2, Ht3|].
  pose proof (parse_production_endpoint_spec _ _ _ _ Hp1) as (? & Hs & _).
  pose proof (parse_production_endpoint_spec _ _ _ _ Hp2) as (? & _ & _).
  pose proof (parse_production_endpoint_spec _ _ _ _ Hp3) as (? & _ & _).
  exists h3, [q1; q2; q3]. split_and!; try done.
  - rewrite !not_elem_of_cons in Hn2. rewrite !not_elem_of_cons in Hn3.
    rewrite !NoDup_cons, !not_elem_of_cons.
    destruct_and!. split_and!; auto using NoDup_nil_2, not_elem_of_nil.
  - by rewrite !Forall_cons.
  - by repeat constructor.
Qed.
End transports.

(** ** the validated production profile *)

Section theorems.
Context `{UrlLib} `{Base64Lib}.

(** C28: a production profile that validates routes private addresses only: its
    texts are canonical prefixes, every address of a site prefix is private, no
    two site prefixes share an address, the tunnel's local prefixes are single
    hosts outside all of them, and an address family is routed exactly when the
    tunnel has a local address in it. *)
Theorem production_profile_routes_private_only p :
  ProductionNetworkProfileV2_validate p = Ok tt ->
  exists locals privates,
    Forall2 text_of (v2_local_addresses (v2_tunnel p)) locals /\
    Forall2 text_of (v2_private_cidrs (v2_site p)) privates /\
    routes_contract locals privates.
Proof.
  unfold ProductionNetworkProfileV2_validate. intros Hv.
  do 3 (case_match; [done|]).
  apply rbind_ok in Hv as (lk & _ & Hv). apply rbind_ok in Hv as (pk & _ & Hv).
  case_match; [done|].
  apply rbind_ok in Hv as ([locals lf] & Hl & Hv). apply ok_or_ok in Hl.
  apply rbind_ok in Hv as ([privates pf] & Hp & Hv). apply ok_or_ok in Hp.
  case_match eqn:Hg; [done|]. reflect_bools. exists locals, privates.
  unfold parse_production_host_addresses in Hl. case_match; [done|].
  unfold parse_production_private_cidrs in Hp. case_match; [done|].
  apply host_addresses_loop_spec in Hl as (-> & Hlp & ? & -> & Hlt & Hlb); [|done..].
  apply private_cidrs_loop_spec in Hp as (-> & Hpp & Hpd & ? & -> & Hpt); [|done..].
  split_and!; [done..|]. by apply routes_contract_intro.
Qed.

(** A production profile that validates offers QUIC, then WSS, then TCP, on one valid
    server name with three distinct ports from 1024 up, and its two tunnel keys decode
    to distinct X25519 coordinates of which neither is a low- order point. *)
Theorem production_profile_carriers p :
  ProductionNetworkProfileV2_validate p = Ok tt ->
  transports_contract (v2_transports p) /\
  exists lk pk,
    decode_canonical_production_key (v2_local_public_key (v2_tunnel p)) = Some lk /\
    decode_canonical_production_key (v2_peer_public_key (v2_tunnel p)) = Some pk /\
    lk <> pk /\ lk ∉ PRODUCTION_X25519_LOW_ORDER_POINTS /\
    pk ∉ PRODUCTION_X25519_LOW_ORDER_POINTS.
Proof.
  unfold ProductionNetworkProfileV2_validate. intros Hv.
  do 3 (case_match; [done|]).
  apply rbind_ok in Hv as (lk & Hlk & Hv). apply rbind_ok in Hv as (pk & Hpk & Hv).
  case_match; [done|]. apply ok_or_ok in Hlk, Hpk.
  apply rbind_ok in Hv as ([locals lf] & Hl & Hv).
  apply rbind_ok in Hv as ([privates pf] & Hp & Hv).
  case_match eqn:Hg; [done|]. reflect_bools.
  split; [by apply valid_production_transports_contract|].
  assert (Hlow : forall v k, decode_canonical_production_key v = Some k ->
    k ∉ PRODUCTION_X25519_LOW_ORDER_POINTS).
  { intros v k. unfold decode_canonical_production_key. case_match; [done|].
    destruct (BASE64_decode v) as [k'|]; [|done]. case_match; [done|].
    case_match eqn:Hk; [done|]. intros [= <-]. by reflect_bools. }
  exists lk, pk. split_and!; eauto.
Qed.
End theorems.

(** A prefix has exactly one accepted text, the one that is printed for it, and that
    text is accepted. *)
Theorem canonical_prefix_round_trip value p :
  parse_canonical_production_prefix value = Some p <->
  prefix_wf p /\ value = prefix_text (pp_address p) (pp_bits p).
Proof.
  split; [apply parse_canonical_spec|]. intros [[Ha Hb] ->].
  assert (0 <= pp_bits p <= 255) by (destruct (pp_address p); cbn in Hb; lia).
  unfold parse_canonical_production_prefix. rewrite rsplit_prefix_text by done.
  rewrite parse_print_ip, parse_print_u8 by done.
  rewrite !bool_decide_true, production_address_bits_width by done. cbn [negb orb].
  rewrite (proj2 (Z.ltb_ge _ _)) by lia. by destruct p.
Qed.
