(* ===== verification/Ipc.v ===== *)
(** * Ipc: the sidecar IPC contract, the mock sidecar and the mock control plane

    [src-tauri/src/networking/ipc.rs] (requests, responses and the correlation
    of a response with its request), [mock.rs] and [mock_control.rs] (the
    in-process peers of that contract). *)

From Stdlib Require Import Ascii String.
From S2P Require Import Prelude Text NetState IpAddr Config.

(** ** messages *)

Definition NETWORK_IPC_PROTOCOL_VERSION : Z := 2.

Record TunnelDeviceFacts := {
  interface_name : string;
  mtu : Z;
  has_ipv4 : bool;
  has_ipv6 : bool;
  instance_id : string;
  operation_id : string;
}.

Record NetworkHealth := {
  nh_reachable : bool;
  nh_latency_ms : Z;
  nh_jitter_ms : Z;
  nh_loss_percent : Z;
}.

Record PrivateReachability := {
  pr_reachable : bool;
  pr_latency_ms : Z;
  pr_mihomo_coexisting : option bool;
  pr_overlay_ssh_verified : option bool;
  pr_system_ssh_verified : option bool;
}.

Record IpcError := {
  ie_code : NetworkErrorCode;
  ie_message : string;
  ie_retryable : bool;
}.

Record NetworkStatus := {
  st_state : NetworkState;
  st_active_profile_id : option string;
  st_active_transport : option TransportKind;
  st_last_error : option NetworkErrorCode;
}.

Inductive IpcRequestPayload : Type :=
| GetStatus
| ApplyProfile (profile : NetworkProfile)
| PrepareTunnel
| StopTunnel
| ConnectTransport (transport : TransportKind)
| DisconnectTransport
| SampleHealth
| SamplePrivateReachability
| Connect
| Disconnect
| Cancel (target_request_id : string).

Record IpcRequest := {
  rq_protocol_version : Z;
  rq_request_id : string;
  rq_payload : IpcRequestPayload;
}.

Inductive IpcResponsePayload : Type :=
| Acknowledged
| CancelAccepted (target_request_id : string)
| Status (status : NetworkStatus)
| Health (health : NetworkHealth)
| Reachability (reachability : PrivateReachability)
| TunnelPrepared (facts : TunnelDeviceFacts).

Record IpcResponse := {
  rs_protocol_version : Z;
  rs_request_id : string;
  rs_result : result IpcResponsePayload IpcError;
}.

#[global] Instance TunnelDeviceFacts_eq_dec : EqDecision TunnelDeviceFacts.
Proof. solve_decision. Defined.
#[global] Instance NetworkStatus_eq_dec : EqDecision NetworkStatus.
Proof. solve_decision. Defined.

(** ** identifiers *)

Definition valid_ipc_id (value : string) : bool :=
  let bytes := bytes value in
  (8 <=? Z.of_nat (length bytes)) && (Z.of_nat (length bytes) <=? 64)
  && negb (bool_decide (head bytes = Some "."%char))
  && negb (bool_decide (last bytes = Some "."%char))
  && negb (existsb (fun pair => bool_decide (pair = ("."%char, "."%char))) (windows2 bytes))
  && forallb (fun byte => is_ascii_alphanumeric byte || one_of ["-"; "_"; "."]%char byte) bytes.

Definition valid_profile_id (value : string) : bool := id_shape value.

Definition MAX_DARWIN_INTERFACE_BYTES : Z := 15.

(** [route_helper::valid_utun_interface]: [utun] and a decimal unit without a
    leading zero. *)
Definition valid_utun_interface (value : string) : bool :=
  let bytes := bytes value in
  (5 <=? Z.of_nat (length bytes))
  && (Z.of_nat (length bytes) <=? MAX_DARWIN_INTERFACE_BYTES)
  && prefix_of (Text.bytes "utun") bytes
  && ((Z.of_nat (length bytes) =? 5) || negb (bool_decide (bytes !! 4%nat = Some "0"%char)))
  && forallb is_ascii_digit (drop 4 bytes).

(** ** validation *)

Definition validate_owner (self : TunnelDeviceFacts) (instance operation : string) : Res unit :=
  if negb (mtu self =? 1420)
    || negb (bool_decide (instance_id self = instance))
    || negb (bool_decide (operation_id self = operation))
  then Err AuthenticationFailed
  else Ok tt.

Definition TunnelDeviceFacts_validate (self : TunnelDeviceFacts) (instance operation : string)
  : Res unit :=
  validate_owner self instance operation ;?
  if negb (valid_utun_interface (interface_name self)) then Err AuthenticationFailed
  else Ok tt.

Definition validate_sidecar_response (self : TunnelDeviceFacts) (instance operation : string)
  : Res unit :=
  validate_owner self instance operation ;?
  if negb (bool_decide (interface_name self = "userspace"%string))
    && negb (valid_utun_interface (interface_name self))
  then Err AuthenticationFailed
  else Ok tt.

Definition NetworkHealth_validate (self : NetworkHealth) : Res unit :=
  if nh_loss_percent self <=? 100 then Ok tt else Err InvalidConfiguration.

Definition IpcRequest_validate_protocol (self : IpcRequest) : Res unit :=
  if negb (rq_protocol_version self =? NETWORK_IPC_PROTOCOL_VERSION)
  then Err UnsupportedProtocolVersion
  else if negb (valid_ipc_id (rq_request_id self))
  then Err InvalidConfiguration
  else match rq_payload self with
  | Cancel target_request_id =>
      if negb (valid_ipc_id target_request_id)
        || bool_decide (target_request_id = rq_request_id self)
      then Err InvalidConfiguration
      else Ok tt
  | _ => Ok tt
  end.

Definition require_status (status : NetworkStatus) (expected_state : NetworkState)
  (expected_transport : option TransportKind) : Res unit :=
  if bool_decide (st_state status = expected_state)
    && bool_decide (st_active_transport status = expected_transport)
    && is_none (st_last_error status)
  then Ok tt
  else Err InvalidConfiguration.

Definition validate_network_status (status : NetworkStatus) : Res unit :=
  if is_some_and (st_active_profile_id status)
       (fun profile_id => negb (valid_profile_id profile_id))
  then Err InvalidConfiguration
  else
    let valid_state :=
      match st_state status with
      | Disconnected => is_none (st_active_transport status)
      | PreparingTunnel =>
          is_some (st_active_profile_id status) && is_none (st_active_transport status)
      | ConnectedPrimary =>
          is_some (st_active_profile_id status)
          && bool_decide (st_active_transport status = Some Quic)
      | DegradedFallback =>
          is_some (st_active_profile_id status)
          && match st_active_transport status with
             | Some (Wss | Tcp) => true
             | _ => false
             end
      | Authenticating | FetchingConfig | ConnectingPrimary | Reconnecting
      | Disconnecting | Error => false
      end in
    if valid_state then Ok tt else Err InvalidConfiguration.

Definition validate_ipc_error (error : IpcError) : Res unit :=
  if is_empty (ie_message error)
    || (512 <? len (ie_message error))
    || existsb char_is_control (chars (ie_message error))
  then Err InvalidConfiguration
  else Ok tt.

Definition validate_response_payload (request : IpcRequest) (response : IpcResponsePayload)
  : Res unit :=
  match rq_payload request, response with
  | GetStatus, Status status => validate_network_status status
  | Connect, Status status =>
      validate_network_status status ;?
      require_status status ConnectedPrimary (Some Quic)
  | StopTunnel, Status status =>
      validate_network_status status ;?
      require_status status Disconnected None
  | ConnectTransport transport, Status status =>
      validate_network_status status ;?
      let expected_state :=
        if bool_decide (transport = Quic) then ConnectedPrimary else DegradedFallback in
      require_status status expected_state (Some transport)
  | DisconnectTransport, Status status =>
      validate_network_status status ;?
      require_status status PreparingTunnel None
  | ApplyProfile _, Acknowledged | Disconnect, Acknowledged => Ok tt
  | Cancel target_request_id, CancelAccepted accepted_target =>
      if valid_ipc_id target_request_id
        && negb (bool_decide (target_request_id = rq_request_id request))
        && bool_decide (accepted_target = target_request_id)
      then Ok tt
      else Err InvalidConfiguration
  | PrepareTunnel, TunnelPrepared facts =>
      map_err (fun _ => InvalidConfiguration)
        (validate_sidecar_response facts (instance_id facts) (rq_request_id request)) ;?
      if negb (valid_ipc_id (instance_id facts))
        || (negb (has_ipv4 facts) && negb (has_ipv6 facts))
      then Err InvalidConfiguration
      else Ok tt
  | SampleHealth, Health health => NetworkHealth_validate health
  | SamplePrivateReachability, Reachability _ => Ok tt
  | _, _ => Err InvalidConfiguration
  end.

Definition IpcResponse_validate_protocol (self : IpcResponse) (request : IpcRequest) : Res unit :=
  IpcRequest_validate_protocol request ;?
  if negb (rs_protocol_version self =? NETWORK_IPC_PROTOCOL_VERSION)
  then Err UnsupportedProtocolVersion
  else if negb (valid_ipc_id (rs_request_id self))
    || negb (bool_decide (rs_request_id self = rq_request_id request))
  then Err AuthenticationFailed
  else match rs_result self with
  | Ok payload => validate_response_payload request payload
  | Err error => validate_ipc_error error
  end.

(** ** the mock sidecar *)

Record MockNetworkSidecar := {
  mk_profile : option NetworkProfile;
  mk_state : NetworkState;
  mk_next_connect_error : option NetworkErrorCode;
}.

Definition MockNetworkSidecar_default : MockNetworkSidecar :=
  {| mk_profile := None; mk_state := Disconnected; mk_next_connect_error := None |}.

Definition fail_next_connect_with (error : NetworkErrorCode) (self : MockNetworkSidecar)
  : MockNetworkSidecar :=
  {| mk_profile := mk_profile self; mk_state := mk_state self;
     mk_next_connect_error := Some error |}.

Definition mk_with_profile p (self : MockNetworkSidecar) :=
  {| mk_profile := Some p; mk_state := mk_state self;
     mk_next_connect_error := mk_next_connect_error self |}.
Definition mk_with_state s (self : MockNetworkSidecar) :=
  {| mk_profile := mk_profile self; mk_state := s;
     mk_next_connect_error := mk_next_connect_error self |}.
Definition mk_take_error (self : MockNetworkSidecar) :=
  {| mk_profile := mk_profile self; mk_state := mk_state self;
     mk_next_connect_error := None |}.

Definition mock_status (self : MockNetworkSidecar) : NetworkStatus :=
  {| st_state := mk_state self;
     st_active_profile_id := option_map profile_id (mk_profile self);
     st_active_transport :=
       if bool_decide (mk_state self = ConnectedPrimary) then Some Quic else None;
     st_last_error := None |}.

(** [format!("{code:?}")]. *)
Definition debug_code (code : NetworkErrorCode) : string :=
  match code with
  | UnsupportedSchemaVersion => "UnsupportedSchemaVersion"
  | UnsupportedProtocolVersion => "UnsupportedProtocolVersion"
  | InvalidConfiguration => "InvalidConfiguration"
  | AuthenticationFailed => "AuthenticationFailed"
  | PermissionDenied => "PermissionDenied"
  | PolicySignatureInvalid => "PolicySignatureInvalid"
  | RouteDiscoveryFailed => "RouteDiscoveryFailed"
  | RouteConflict => "RouteConflict"
  | RouteJournalCorrupted => "RouteJournalCorrupted"
  | RouteJournalUnavailable => "RouteJournalUnavailable"
  | RouteRollbackFailed => "RouteRollbackFailed"
  | TunnelStartFailed => "TunnelStartFailed"
  | PrimaryTransportUnavailable => "PrimaryTransportUnavailable"
  | FallbackTransportUnavailable => "FallbackTransportUnavailable"
  | OperationCancelled => "OperationCancelled"
  | OperationTimedOut => "OperationTimedOut"
  | SidecarUnavailable => "SidecarUnavailable"
  | InvalidStateTransition => "InvalidStateTransition"
  end.

Section mock.
Context `{UrlLib} `{Base64Lib}.

Definition handle_payload (payload : IpcRequestPayload)
  : Meth MockNetworkSidecar IpcResponsePayload :=
  match payload with
  | GetStatus => let! self := get in ret (Status (mock_status self))
  | ApplyProfile profile =>
      lift (NetworkProfile_validate profile) ;!
      let! self := get in
      if negb (bool_decide (mk_state self = Disconnected)) then raise InvalidStateTransition
      else modify (mk_with_profile profile) ;! ret Acknowledged
  | Connect =>
      let! self := get in
      match mk_next_connect_error self with
      | Some error => modify mk_take_error ;! raise error
      | None =>
          if is_none (mk_profile self) then raise InvalidConfiguration
          else
            zoom mk_state mk_with_state (transition_all
              [Authenticating; FetchingConfig; PreparingTunnel; ConnectingPrimary;
               ConnectedPrimary]) ;!
            let! self := get in
            ret (Status (mock_status self))
      end
  | Disconnect =>
      zoom mk_state mk_with_state (transition_to Disconnecting) ;!
      zoom mk_state mk_with_state (transition_to Disconnected) ;!
      ret Acknowledged
  | Cancel _ => raise InvalidStateTransition
  | PrepareTunnel | StopTunnel | ConnectTransport _ | DisconnectTransport
  | SampleHealth | SamplePrivateReachability => raise SidecarUnavailable
  end.

Definition mock_error (code : NetworkErrorCode) : IpcError :=
  {| ie_code := code;
     ie_message := String.append "mock sidecar rejected request: " (debug_code code);
     ie_retryable :=
       match code with SidecarUnavailable | OperationTimedOut => true | _ => false end |}.

Definition handle (request : IpcRequest) (self : MockNetworkSidecar)
  : IpcResponse * MockNetworkSidecar :=
  let (r, self') :=
    (lift (IpcRequest_validate_protocol request) ;!
     handle_payload (rq_payload request)) self in
  ({| rs_protocol_version := NETWORK_IPC_PROTOCOL_VERSION;
      rs_request_id := rq_request_id request;
      rs_result := map_err mock_error r |}, self').

(** [mock_control.rs]: a control plane that serves one validated profile. *)
Definition MockControlPlane_new (profile : NetworkProfile) : Res NetworkProfile :=
  NetworkProfile_validate profile ;? Ok profile.

Definition fetch_profile (self : NetworkProfile) (identity : string) : Res NetworkProfile :=
  if negb (bool_decide (identity = identity_ref self)) then Err AuthenticationFailed
  else Ok self.
End mock.

(** ** specification of an answer *)

(** A status a sidecar may report at rest: no transient state, and a carrier
    exactly in the two connected states. *)
Inductive coherent_status : NetworkStatus -> Prop :=
| coherent_down p e :
    (forall id, p = Some id -> valid_profile_id id = true) ->
    coherent_status {| st_state := Disconnected; st_active_profile_id := p;
      st_active_transport := None; st_last_error := e |}
| coherent_prepared id e :
    valid_profile_id id = true ->
    coherent_status {| st_state := PreparingTunnel; st_active_profile_id := Some id;
      st_active_transport := None; st_last_error := e |}
| coherent_primary id e :
    valid_profile_id id = true ->
    coherent_status {| st_state := ConnectedPrimary; st_active_profile_id := Some id;
      st_active_transport := Some Quic; st_last_error := e |}
| coherent_fallback id k e :
    valid_profile_id id = true -> k <> Quic ->
    coherent_status {| st_state := DegradedFallback; st_active_profile_id := Some id;
      st_active_transport := Some k; st_last_error := e |}.

Lemma validate_network_status_spec status :
  validate_network_status status = Ok tt <-> coherent_status status.
Proof.
  split.
  - unfold validate_network_status. destruct status as [s p t e]; cbn.
    case_match eqn:Hp; [done|]. case_match eqn:Hs; [|done]. intros _.
    assert (Hid : forall id, p = Some id -> valid_profile_id id = true).
    { intros id ->. cbn in Hp. by apply negb_false_iff in Hp. }
    destruct s; try done; destruct p as [id|], t as [[]|]; try done;
      constructor; eauto.
  - intros [p e Hp|id e Hid|id e Hid|id k e Hid Hk]; unfold validate_network_status; cbn.
    + destruct p as [id|]; cbn; [by rewrite (Hp id)|done].
    + by rewrite Hid.
    + by rewrite Hid.
    + rewrite Hid. by destruct k.
Qed.

(** What counts as an answer to a request. *)
Inductive answers (rq : IpcRequest) : IpcResponsePayload -> Prop :=
| answer_status st :
    rq_payload rq = GetStatus -> coherent_status st -> answers rq (Status st)
| answer_transition st s t :
    (rq_payload rq = Connect /\ s = ConnectedPrimary /\ t = Some Quic \/
     rq_payload rq = StopTunnel /\ s = Disconnected /\ t = None \/
     rq_payload rq = DisconnectTransport /\ s = PreparingTunnel /\ t = None \/
     (exists k, rq_payload rq = ConnectTransport k /\ t = Some k /\
        s = if decide (k = Quic) then ConnectedPrimary else DegradedFallback)) ->
    coherent_status st -> st_state st = s -> st_active_transport st = t ->
    st_last_error st = None -> answers rq (Status st)
| answer_applied p : rq_payload rq = ApplyProfile p -> answers rq Acknowledged
| answer_disconnected : rq_payload rq = Disconnect -> answers rq Acknowledged
| answer_cancel target :
    rq_payload rq = Cancel target -> valid_ipc_id target = true ->
    target <> rq_request_id rq -> answers rq (CancelAccepted target)
| answer_tunnel facts :
    rq_payload rq = PrepareTunnel -> mtu facts = 1420 ->
    operation_id facts = rq_request_id rq -> valid_ipc_id (instance_id facts) = true ->
    interface_name facts = "userspace"%string \/
      valid_utun_interface (interface_name facts) = true ->
    has_ipv4 facts = true \/ has_ipv6 facts = true -> answers rq (TunnelPrepared facts)
| answer_health h :
    rq_payload rq = SampleHealth -> nh_loss_percent h <= 100 -> answers rq (Health h)
| answer_reachability r :
    rq_payload rq = SamplePrivateReachability -> answers rq (Reachability r).

Lemma require_status_spec st s t :
  require_status st s t = Ok tt <->
  st_state st = s /\ st_active_transport st = t /\ st_last_error st = None.
Proof.
  unfold require_status. split.
  - case_match eqn:E; [|done]. intros _. reflect_bools.
    split_and!; try done. unfold is_none, is_some in *. by destruct (st_last_error st).
  - intros (-> & -> & ->). by rewrite !bool_decide_true.
Qed.

Lemma status_transition_spec st s t :
  (validate_network_status st ;? require_status st s t) = Ok tt <->
  coherent_status st /\ st_state st = s /\ st_active_transport st = t /\
  st_last_error st = None.
Proof.
  rewrite <- validate_network_status_spec, <- require_status_spec.
  destruct (validate_network_status st) as [[]|]; cbn; naive_solver.
Qed.

Lemma validate_sidecar_response_spec facts operation :
  validate_sidecar_response facts (instance_id facts) operation = Ok tt <->
  mtu facts = 1420 /\ operation_id facts = operation /\
  (interface_name facts = "userspace"%string \/
   valid_utun_interface (interface_name facts) = true).
Proof.
  unfold validate_sidecar_response, validate_owner. rewrite (bool_decide_true (_ = _)) by done.
  split.
  - case_match eqn:Hg; [done|]. cbn. case_match eqn:Hi; [done|]. intros _. reflect_bools.
    split_and!; try done. apply andb_false_iff in Hi as [Hi|Hi]; reflect_bools; auto.
  - intros (-> & -> & Hi). rewrite bool_decide_true by done. cbn.
    destruct Hi as [->| ->]; [by rewrite bool_decide_true|by rewrite andb_false_r].
Qed.

Lemma validate_response_payload_spec rq payload :
  validate_response_payload rq payload = Ok tt <-> answers rq payload.
Proof.
  unfold validate_response_payload. split.
  - destruct (rq_payload rq) as [|p| | |k| | | | | |target] eqn:Hrq,
      payload as [|accepted|st|h|r|facts]; try done.
    + rewrite validate_network_status_spec. by constructor.
    + intros _. by eapply answer_applied.
    + rewrite rbind_ok. intros ([] & Ho & Hg). apply map_err_ok in Ho.
      apply validate_sidecar_response_spec in Ho as (? & ? & ?).
      case_match eqn:E; [done|]. apply orb_false_iff in E as [Hid Hfam].
      apply andb_false_iff in Hfam. rewrite !negb_false_iff in Hfam.
      apply negb_false_iff in Hid. by constructor.
    + intros (? & ? & ? & ?)%status_transition_spec. by eapply answer_transition; eauto.
    + intros (? & Hst & ? & ?)%status_transition_spec.
      eapply answer_transition; [|done|done|done|done]. do 3 right. exists k.
      split_and!; try done. case_bool_decide; by case_decide.
    + intros (? & ? & ? & ?)%status_transition_spec. eapply answer_transition; eauto 8.
    + unfold NetworkHealth_validate. case_match eqn:E; [|done]. intros _.
      apply Z.leb_le in E. by constructor.
    + intros _. by constructor.
    + intros (? & ? & ? & ?)%status_transition_spec. eapply answer_transition; eauto 8.
    + intros _. by apply answer_disconnected.
    + case_match eqn:E; [|done]. intros _. reflect_bools. subst. by constructor.
  - intros [st Hrq Hc|st s t Hcase Hc Hs Ht He|p Hrq|Hrq|target Hrq Hv Hne
            |facts Hrq Hm Ho Hid Hi Hf|h Hrq Hl|r Hrq]; try (by rewrite Hrq).
    + rewrite Hrq. by apply validate_network_status_spec.
    + destruct Hcase as [(Hrq & -> & ->)|[(Hrq & -> & ->)|[(Hrq & -> & ->)
        |(k & Hrq & -> & ->)]]]; rewrite Hrq; apply status_transition_spec; try done.
      split_and!; try done. case_bool_decide; by case_decide.
    + rewrite Hrq, Hv. by rewrite bool_decide_false, bool_decide_true.
    + rewrite Hrq. apply rbind_ok. exists tt. split.
      { by apply map_err_ok, validate_sidecar_response_spec. }
      rewrite Hid. by destruct Hf as [-> | ->]; rewrite ?andb_false_r.
    + rewrite Hrq. unfold NetworkHealth_validate. by rewrite (proj2 (Z.leb_le _ _)).
Qed.

(** ** the mock sidecar keeps the contract *)

Section mock_contract.
Context `{UrlLib} `{Base64Lib}.

(** At rest the mock is disconnected or connected over QUIC with a profile,
    and the profile it holds has been validated. *)
Record mock_inv (m : MockNetworkSidecar) : Prop := {
  mi_state : mk_state m = Disconnected \/
    mk_state m = ConnectedPrimary /\ mk_profile m <> None;
  mi_profile : forall p, mk_profile m = Some p -> NetworkProfile_validate p = Ok tt;
}.

Lemma validated_profile_id p :
  NetworkProfile_validate p = Ok tt -> valid_profile_id (profile_id p) = true.
Proof.
  unfold NetworkProfile_validate. case_match; [done|]. case_match eqn:Hg; [done|].
  intros _. by reflect_bools.
Qed.

Lemma mock_status_coherent m : mock_inv m -> coherent_status (mock_status m).
Proof.
  intros [Hs Hp]. unfold mock_status.
  assert (Hid : forall id, option_map profile_id (mk_profile m) = Some id ->
    valid_profile_id id = true).
  { intros id Hid. destruct (mk_profile m) as [p|]; [|done]. injection Hid as <-.
    by apply validated_profile_id, Hp. }
  destruct Hs as [->|[-> Hsome]]; cbn.
  - by constructor.
  - destruct (mk_profile m) as [p|]; [|done]. cbn in *. constructor. by apply Hid.
Qed.

(** What one request does to the mock. *)
Lemma handle_payload_spec rq m r m' :
  mock_inv m -> IpcRequest_validate_protocol rq = Ok tt ->
  handle_payload (rq_payload rq) m = (r, m') ->
  mock_inv m' /\ (forall payload, r = Ok payload -> answers rq payload).
Proof.
  intros Hinv Hrq. pose proof Hinv as [Hs Hp].
  destruct (rq_payload rq) as [|p| | |k| | | | | |target] eqn:Hpl; cbn;
    try (intros [= <- <-]; by split).
  - intros [= <- <-]. split; [done|]. intros payload [= <-].
    constructor; [done|]. by apply mock_status_coherent.
  - unfold bind, lift, get, modify, raise, ret.
    destruct (NetworkProfile_validate p) as [[]|e] eqn:Hv; [|by intros [= <- <-]].
    case_match eqn:Hd; intros [= <- <-]; [by split|]. reflect_bools. split.
    + constructor; cbn; [by left|]. by intros ? [= <-].
    + intros payload [= <-]. by eapply answer_applied.
  - unfold bind, get, modify, raise, zoom, ret.
    destruct (mk_next_connect_error m) as [e|].
    { intros [= <- <-]. by split. }
    destruct (mk_profile m) as [p|] eqn:Hprof; cbn; [|by intros [= <- <-]].
    destruct Hs as [Hs|[Hs _]]; rewrite Hs; cbn; intros [= <- <-].
    + assert (Hm : mock_inv (mk_with_state ConnectedPrimary m)).
      { constructor; cbn; rewrite Hprof; [by right|]. by intros ? [= <-]; apply Hp. }
      split; [done|]. intros payload [= <-].
      eapply answer_transition; [by left|by apply mock_status_coherent|done..].
    + split; [|done]. constructor; cbn; rewrite ?Hprof; [by right|].
      by intros ? [= <-]; apply Hp.
  - unfold bind, zoom, ret.
    destruct Hs as [Hs|[Hs ?]]; rewrite Hs; cbn; intros [= <- <-].
    + split; [|done]. constructor; cbn; [by left|done].
    + split; [constructor; cbn; [by left|done]|].
      intros payload [= <-]. by apply answer_disconnected.
Qed.

Lemma mock_error_valid code : validate_ipc_error (mock_error code) = Ok tt.
Proof. destruct code; vm_compute; reflexivity. Qed.

(** The mock sidecar implements the protocol: whatever valid request it handles, the
    client's validator accepts its response, and its own invariant is kept. *)
Theorem mock_answers_are_accepted rq m :
  mock_inv m -> IpcRequest_validate_protocol rq = Ok tt ->
  IpcResponse_validate_protocol (handle rq m).1 rq = Ok tt /\ mock_inv (handle rq m).2.
Proof.
  intros Hm Hrq. unfold handle.
  destruct (handle_payload (rq_payload rq) m) as [r m'] eqn:Hh.
  destruct (handle_payload_spec rq m r m' Hm Hrq Hh) as [Hm' Hr].
  unfold bind, lift. rewrite Hrq, Hh. cbn. split; [|by destruct r].
  assert (Hid : valid_ipc_id (rq_request_id rq) = true).
  { unfold IpcRequest_validate_protocol in Hrq. case_match; [done|].
    case_match eqn:E; [done|]. by reflect_bools. }
  destruct r as [payload|e]; unfold IpcResponse_validate_protocol; rewrite Hrq; cbn;
    rewrite Hid, bool_decide_true by done; cbn.
  - by apply validate_response_payload_spec, Hr.
  - apply mock_error_valid.
Qed.

(** A successful response is accepted exactly when the request itself is valid, the
    protocol version and the request id agree, and the payload is the kind of answer
    that request calls for, itself well formed. *)
Theorem accepted_response_answers_request rs rq payload :
  rs_result rs = Ok payload ->
  IpcResponse_validate_protocol rs rq = Ok tt <->
  IpcRequest_validate_protocol rq = Ok tt /\
  rs_protocol_version rs = NETWORK_IPC_PROTOCOL_VERSION /\
  rs_request_id rs = rq_request_id rq /\ answers rq payload.
Proof.
  intros Hp. unfold IpcResponse_validate_protocol. rewrite Hp, rbind_ok. split.
  - intros ([] & Hrq & Hv). case_match eqn:Hver; [done|]. case_match eqn:Hid; [done|].
    reflect_bools. by rewrite validate_response_payload_spec in Hv.
  - intros (Hrq & Hver & Hid & Ha). exists tt. split; [done|].
    rewrite Hver, Hid. rewrite bool_decide_true by done.
    assert (valid_ipc_id (rq_request_id rq) = true) as ->.
    { unfold IpcRequest_validate_protocol in Hrq. case_match; [done|].
      case_match eqn:E; [done|]. by reflect_bools. }
    cbn. by apply validate_response_payload_spec.
Qed.
End mock_contract.
