(* ===== verification/Sidecar.v ===== *)
(** * Sidecar: supervision of the network sidecar process

    [src-tauri/src/networking/sidecar.rs]: the authenticated start of the
    sidecar, the poll loop with exponential backoff and the crash-loop breaker.
    The process itself is the trait [SidecarRuntime], a class over an abstract
    runtime state. *)

From Stdlib Require Import Ascii String Sorted.
From S2P Require Import Prelude Text NetState Ipc.

(** ** data *)

Inductive SidecarLifecycleState : Type :=
| Stopped
| Starting
| Running
| Backoff
| CrashLoop.

#[global] Instance SidecarLifecycleState_eq_dec : EqDecision SidecarLifecycleState.
Proof. solve_decision. Defined.

Record SidecarLaunchContext := {
  lc_instance_id : string;
  lc_auth_token : list Z;
  lc_private_key : list Z;
}.

Record SidecarHandshake := {
  hs_protocol_version : Z;
  hs_instance_id : string;
  hs_auth_proof : string;
}.

Inductive SidecarProcessStatus : Type :=
| ProcessRunning
| ProcessExited (success : bool).

Class SidecarRuntime (R : Type) := {
  runtime_start : SidecarLaunchContext -> Meth R SidecarHandshake;
  runtime_status : Meth R SidecarProcessStatus;
  runtime_stop : Meth R unit;
}.

Record RestartPolicy := {
  max_restarts : Z;
  window_ms : Z;
  initial_backoff_ms : Z;
  max_backoff_ms : Z;
}.

Definition RestartPolicy_default : RestartPolicy :=
  {| max_restarts := 3; window_ms := 60000; initial_backoff_ms := 1000;
     max_backoff_ms := 30000 |}.

Definition SidecarLaunchContext_new (instance_id : string) (auth_token : list Z) :=
  {| lc_instance_id := instance_id; lc_auth_token := auth_token; lc_private_key := [] |}.

Definition with_private_key (private_key : list Z) (self : SidecarLaunchContext) :=
  {| lc_instance_id := lc_instance_id self; lc_auth_token := lc_auth_token self;
     lc_private_key := private_key |}.

Section controller.
Context {R : Type} `{SidecarRuntime R}.

Record SidecarController := {
  sc_runtime : R;
  sc_policy : RestartPolicy;
  sc_state : SidecarLifecycleState;
  sc_context : SidecarLaunchContext;
  sc_expected_auth_proof : string;
  sc_restart_times : list Z;
  sc_consecutive_failures : Z;
  sc_retry_at_ms : option Z;
}.

Definition SidecarController_new (runtime : R) (policy : RestartPolicy)
  (context : SidecarLaunchContext) (expected_auth_proof : string) : SidecarController :=
  {| sc_runtime := runtime; sc_policy := policy; sc_state := Stopped;
     sc_context := context; sc_expected_auth_proof := expected_auth_proof;
     sc_restart_times := []; sc_consecutive_failures := 0; sc_retry_at_ms := None |}.

(** Field updates. *)
Definition with_runtime (r : R) (c : SidecarController) :=
  {| sc_runtime := r; sc_policy := sc_policy c; sc_state := sc_state c;
     sc_context := sc_context c; sc_expected_auth_proof := sc_expected_auth_proof c;
     sc_restart_times := sc_restart_times c;
     sc_consecutive_failures := sc_consecutive_failures c;
     sc_retry_at_ms := sc_retry_at_ms c |}.
Definition with_state (s : SidecarLifecycleState) (c : SidecarController) :=
  {| sc_runtime := sc_runtime c; sc_policy := sc_policy c; sc_state := s;
     sc_context := sc_context c; sc_expected_auth_proof := sc_expected_auth_proof c;
     sc_restart_times := sc_restart_times c;
     sc_consecutive_failures := sc_consecutive_failures c;
     sc_retry_at_ms := sc_retry_at_ms c |}.
Definition with_retry_at (t : option Z) (c : SidecarController) :=
  {| sc_runtime := sc_runtime c; sc_policy := sc_policy c; sc_state := sc_state c;
     sc_context := sc_context c; sc_expected_auth_proof := sc_expected_auth_proof c;
     sc_restart_times := sc_restart_times c;
     sc_consecutive_failures := sc_consecutive_failures c; sc_retry_at_ms := t |}.
Definition with_restarts (ts : list Z) (n : Z) (c : SidecarController) :=
  {| sc_runtime := sc_runtime c; sc_policy := sc_policy c; sc_state := sc_state c;
     sc_context := sc_context c; sc_expected_auth_proof := sc_expected_auth_proof c;
     sc_restart_times := ts; sc_consecutive_failures := n;
     sc_retry_at_ms := sc_retry_at_ms c |}.

Definition on_runtime {A} (m : Meth R A) : Meth SidecarController A :=
  zoom sc_runtime with_runtime m.

(** [while front().is_some_and(..) { pop_front() }]. *)
Fixpoint pop_expired (now_ms window : Z) (times : list Z) : list Z :=
  match times with
  | [] => []
  | timestamp :: rest =>
      if window <? saturating_sub now_ms timestamp then pop_expired now_ms window rest
      else times
  end.

Definition prune_restart_window (now_ms : Z) (self : SidecarController) : SidecarController :=
  let times := pop_expired now_ms (window_ms (sc_policy self)) (sc_restart_times self) in
  with_restarts times
    (if bool_decide (times = []) then 0 else sc_consecutive_failures self) self.

Definition start (now_ms : Z) : Meth SidecarController unit :=
  let! self := get in
  match sc_state self with
  | Stopped | Backoff =>
      modify (with_state Starting) ;!
      let! started := attempt (on_runtime (runtime_start (sc_context self))) in
      match started with
      | Err e => modify (with_state Stopped) ;! raise e
      | Ok handshake =>
          if negb (hs_protocol_version handshake =? NETWORK_IPC_PROTOCOL_VERSION)
          then
            modify (with_state Stopped) ;!
            let! _ := attempt (on_runtime runtime_stop) in
            raise UnsupportedProtocolVersion
          else if negb (bool_decide (hs_instance_id handshake = lc_instance_id (sc_context self)))
            || negb (bool_decide (hs_auth_proof handshake = sc_expected_auth_proof self))
          then
            modify (with_state Stopped) ;!
            let! _ := attempt (on_runtime runtime_stop) in
            raise AuthenticationFailed
          else
            modify (with_state Running) ;!
            modify (with_retry_at None) ;!
            modify (prune_restart_window now_ms)
      end
  | _ => raise InvalidStateTransition
  end.

Definition record_crash (now_ms : Z) : Meth SidecarController unit :=
  modify (prune_restart_window now_ms) ;!
  modify (fun self => with_restarts (sc_restart_times self ++ [now_ms])
    (saturating_add u32_max (sc_consecutive_failures self) 1) self) ;!
  let! self := get in
  if max_restarts (sc_policy self) <? Z.of_nat (length (sc_restart_times self))
  then
    modify (with_state CrashLoop) ;!
    modify (with_retry_at None) ;!
    raise SidecarUnavailable
  else
    let exponent := Z.min (saturating_sub (sc_consecutive_failures self) 1) 31 in
    let delay :=
      Z.min (saturating_mul u64_max (initial_backoff_ms (sc_policy self)) (Z.shiftl 1 exponent))
        (max_backoff_ms (sc_policy self)) in
    modify (with_state Backoff) ;!
    modify (with_retry_at (Some (saturating_add u64_max now_ms delay))).

Definition poll (now_ms : Z) : Meth SidecarController unit :=
  let! self := get in
  match sc_state self with
  | Running =>
      let! status := on_runtime runtime_status in
      match status with
      | ProcessRunning => ret tt
      | ProcessExited _ => record_crash now_ms
      end
  | Backoff =>
      match sc_retry_at_ms self with
      | Some retry_at => if retry_at <=? now_ms then start now_ms else ret tt
      | None => ret tt
      end
  | Stopped | Starting | CrashLoop => ret tt
  end.

Definition stop : Meth SidecarController unit :=
  let! self := get in
  match sc_state self with
  | Running | Starting => on_runtime runtime_stop
  | _ => ret tt
  end ;!
  modify (with_state Stopped) ;!
  modify (with_retry_at None) ;!
  modify (with_restarts [] 0).

End controller.
Arguments SidecarController R : clear implicits.

(** ** executions *)

Section proofs.
Context {R : Type} `{SidecarRuntime R}.
Implicit Types c : SidecarController R.

Inductive SidecarEvent : Type :=
| EvStart (now_ms : Z)
| EvPoll (now_ms : Z)
| EvStop.

Definition run_event (ev : SidecarEvent) (c : SidecarController R)
  : result unit NetworkErrorCode * SidecarController R :=
  match ev with
  | EvStart now => start now c
  | EvPoll now => poll now c
  | EvStop => stop c
  end.

(** The poll finds the process gone. *)
Definition observes_exit c : bool :=
  match sc_state c, (runtime_status (sc_runtime c)).1 with
  | Running, Ok (ProcessExited _) => true
  | _, _ => false
  end.

(** Executions of the supervisor on a clock that does not go back, with the
    times at which crashes were observed since the last explicit stop. *)
Inductive reach (policy : RestartPolicy) : SidecarController R -> list Z -> Z -> Prop :=
| reach_new r context proof :
    reach policy (SidecarController_new r policy context proof) [] 0
| reach_start c crashes t now :
    reach policy c crashes t -> t <= now ->
    reach policy (start now c).2 crashes now
| reach_poll c crashes t now :
    reach policy c crashes t -> t <= now ->
    reach policy (poll now c).2 (if observes_exit c then crashes ++ [now] else crashes) now
| reach_stop c crashes t :
    reach policy c crashes t ->
    reach policy (stop c).2
      (if bool_decide (sc_state (stop c).2 = Stopped) then [] else crashes) t.

(** ** the restart window *)

Lemma pop_expired_suffix now w times :
  exists old, times = old ++ pop_expired now w times /\
    Forall (fun x => w < saturating_sub now x) old.
Proof.
  induction times as [|x times (old & Heq & Hold)]; cbn.
  - by exists [].
  - destruct (Z.ltb_spec w (saturating_sub now x)).
    + exists (x :: old). rewrite Heq at 1. split; [done|by constructor].
    + by exists [].
Qed.

(** What one operation does to the crash bookkeeping: it forgets times that
    left the window, or appends the crash it observed. *)
Record books (policy : RestartPolicy) (crashes : list Z) (t : Z)
  (c : SidecarController R) : Prop := {
  bk_policy : sc_policy c = policy;
  bk_times : exists old, crashes = old ++ sc_restart_times c /\
    Forall (fun x => window_ms policy < t - x) old;
  bk_past : Forall (fun x => 0 <= x <= t) crashes;
  bk_clock : 0 <= t;
  bk_limit : sc_state c <> CrashLoop ->
    Z.of_nat (length (sc_restart_times c)) <= Z.max 0 (max_restarts policy);
  bk_retry : sc_state c = Backoff -> sc_retry_at_ms c <> None;
}.

Lemma books_later policy crashes t t' c :
  books policy crashes t c -> t <= t' -> books policy crashes t' c.
Proof.
  intros [Hp (old & Ho & Hf) Hpast Hc Hl Hr] Ht. constructor; try done; try lia.
  - exists old. split; [done|]. eapply Forall_impl; [exact Hf|]. cbn. lia.
  - eapply Forall_impl; [exact Hpast|]. cbn. lia.
Qed.

(** Changing the state and the runtime keeps the books. *)
Lemma books_update policy crashes t c c' :
  books policy crashes t c -> sc_policy c' = sc_policy c ->
  sc_restart_times c' = sc_restart_times c ->
  (sc_state c' <> CrashLoop -> sc_state c <> CrashLoop) ->
  (sc_state c' = Backoff -> sc_retry_at_ms c' <> None) ->
  books policy crashes t c'.
Proof.
  intros [Hp Ht Hpast Hc Hl Hr] Hp' Ht' Hs' Hr'.
  constructor; rewrite ?Hp', ?Ht'; auto.
Qed.

Lemma books_prune policy crashes t c :
  books policy crashes t c -> books policy crashes t (prune_restart_window t c).
Proof.
  intros [Hp (old & Ho & Hf) Hpast Hc Hl Hr]. unfold prune_restart_window.
  destruct (pop_expired_suffix t (window_ms (sc_policy c)) (sc_restart_times c))
    as (old' & Heq & Hold').
  constructor; cbn; try done.
  - exists (old ++ old'). split; [by rewrite <- app_assoc, <- Heq|].
    rewrite Forall_app. split; [done|]. rewrite Hp in Hold'.
    rewrite Forall_forall in *. intros x Hx. specialize (Hold' x Hx).
    specialize (Hpast x). unfold saturating_sub in Hold'.
    assert (0 <= x <= t) by (apply Hpast; rewrite Ho, Heq; set_solver). lia.
  - intros Hs. specialize (Hl Hs). rewrite Heq, length_app in Hl. lia.
Qed.

(** Observing a crash: the window is pruned, the crash is recorded, and the
    supervisor backs off or trips the breaker. *)
Lemma record_crash_spec now c :
  let p := prune_restart_window now c in
  let times := sc_restart_times p ++ [now] in
  let n := saturating_add u32_max (sc_consecutive_failures p) 1 in
  let c' := (record_crash now c).2 in
  sc_policy c' = sc_policy c /\ sc_restart_times c' = times /\
  sc_consecutive_failures c' = n /\ sc_runtime c' = sc_runtime c /\
  if max_restarts (sc_policy c) <? Z.of_nat (length times)
  then (record_crash now c).1 = Err SidecarUnavailable /\
       sc_state c' = CrashLoop /\ sc_retry_at_ms c' = None
  else (record_crash now c).1 = Ok tt /\ sc_state c' = Backoff /\
       sc_retry_at_ms c' = Some (saturating_add u64_max now
         (Z.min (saturating_mul u64_max (initial_backoff_ms (sc_policy c))
                   (Z.shiftl 1 (Z.min (saturating_sub n 1) 31)))
            (max_backoff_ms (sc_policy c)))).
Proof.
  cbn zeta. unfold record_crash, bind, modify, get.
  destruct c as [r pol s ctx pr ts cf ra]; cbn.
  set (times := pop_expired _ _ _). destruct (_ <? _); cbn; done.
Qed.

Lemma books_crash policy crashes t c :
  books policy crashes t c -> sc_state c = Running ->
  books policy (crashes ++ [t]) t (record_crash t c).2.
Proof.
  intros Hb Hs. apply books_prune in Hb as [Hp (old & Ho & Hf) Hpast Hc Hl Hr].
  destruct (record_crash_spec t c) as (Hp' & Ht' & _ & _ & Hres). cbn zeta in *.
  constructor.
  - by rewrite Hp', <- Hp.
  - exists old. rewrite Ht', Ho, <- app_assoc. done.
  - rewrite Forall_app, Forall_singleton. split; [done|lia].
  - done.
  - rewrite Ht'. destruct (_ <? _) eqn:E in Hres; [naive_solver|].
    intros _. apply Z.ltb_ge in E. rewrite <- Hp. cbn [prune_restart_window sc_policy with_restarts] in *.
    lia.
  - destruct (_ <? _) in Hres; destruct Hres as (_ & Hst & Hra); [congruence|].
    intros _. by rewrite Hra.
Qed.

(** ** the operations keep the books *)

(** The outcome of [start] from a state that allows it, without the monad. *)
Definition start_live (now : Z) c : result unit NetworkErrorCode * SidecarController R :=
  match runtime_start (sc_context c) (sc_runtime c) with
  | (Err e, r) => (Err e, with_state Stopped (with_runtime r (with_state Starting c)))
  | (Ok hs, r) =>
      let c1 := with_runtime r (with_state Starting c) in
      if hs_protocol_version hs =? NETWORK_IPC_PROTOCOL_VERSION
      then
        if bool_decide (hs_instance_id hs = lc_instance_id (sc_context c))
           && bool_decide (hs_auth_proof hs = sc_expected_auth_proof c)
        then (Ok tt, prune_restart_window now (with_retry_at None (with_state Running c1)))
        else (Err AuthenticationFailed,
              with_runtime (runtime_stop r).2 (with_state Stopped c1))
      else (Err UnsupportedProtocolVersion,
            with_runtime (runtime_stop r).2 (with_state Stopped c1))
  end.

Lemma start_spec now c :
  start now c = match sc_state c with
                | Stopped | Backoff => start_live now c
                | _ => (Err InvalidStateTransition, c)
                end.
Proof.
  unfold start, start_live, bind, get, modify, attempt, on_runtime, zoom, raise.
  destruct (sc_state c); try done; cbn;
    destruct (runtime_start (sc_context c) (sc_runtime c)) as [[hs|e] r]; cbn; try done;
    (destruct (_ =? _); cbn; [|by destruct (runtime_stop r)]);
    do 2 case_bool_decide; cbn; try done; by destruct (runtime_stop r).
Qed.

Lemma books_start policy crashes t c :
  books policy crashes t c -> books policy crashes t (start t c).2.
Proof.
  intros Hb. rewrite start_spec. unfold start_live.
  destruct (sc_state c) eqn:Hs; try done;
    destruct (runtime_start _ _) as [[hs|e] r];
    repeat case_match; cbn [snd]; try apply books_prune;
    (eapply books_update; [exact Hb|..]); cbn; congruence.
Qed.

Lemma books_poll policy crashes t c :
  books policy crashes t c ->
  books policy (if observes_exit c then crashes ++ [t] else crashes) t (poll t c).2.
Proof.
  intros Hb. unfold poll, bind, get, observes_exit, on_runtime, zoom, ret.
  destruct (sc_state c) eqn:Hs; try done.
  - destruct (runtime_status (sc_runtime c)) as [[[|b]|e] r]; cbn [fst snd].
    + eapply books_update; [exact Hb|done..| |]; cbn; congruence.
    + apply books_crash; [|by cbn].
      eapply books_update; [exact Hb|done..| |]; cbn; congruence.
    + eapply books_update; [exact Hb|done..| |]; cbn; congruence.
  - destruct (sc_retry_at_ms c); [|done]. case_match; [|done]. by apply books_start.
Qed.

Lemma books_stop policy crashes t c :
  books policy crashes t c ->
  books policy (if bool_decide (sc_state (stop c).2 = Stopped) then [] else crashes) t (stop c).2.
Proof.
  intros Hb. pose proof Hb as [Hp Ht Hpast Hc Hl Hr].
  assert (Hclear : forall c', sc_policy c' = policy -> sc_restart_times c' = [] ->
    sc_state c' = Stopped -> books policy [] t c').
  { intros c' H1 H2 H3. constructor; rewrite ?H2, ?H3; try done.
    - by exists [].
    - cbn. lia. }
  assert (Hkeep : forall r, books policy
    (if bool_decide (sc_state (with_runtime r c) = Stopped) then [] else crashes) t
    (with_runtime r c) \/ sc_state c = Stopped).
  { intros r. case_bool_decide as Hs; [by right|left].
    eapply books_update; [exact Hb|done..| |]; cbn; auto. }
  unfold stop, bind, get, modify, ret, on_runtime, zoom.
  destruct (sc_state c) eqn:Hs; cbn; try (apply Hclear; by rewrite ?Hp);
    destruct (runtime_stop (sc_runtime c)) as [[[]|e] r]; cbn;
    try (apply Hclear; by rewrite ?Hp).
  - by destruct (Hkeep r).
  - by destruct (Hkeep r).
Qed.

Lemma reach_books policy c crashes t : reach policy c crashes t -> books policy crashes t c.
Proof.
  induction 1 as [r ctx pr|c crashes t now Hr IH Ht|c crashes t now Hr IH Ht|c crashes t Hr IH].
  - constructor; try done.
    + by exists [].
    + cbn. lia.
  - apply books_start. by eapply books_later.
  - apply books_poll. by eapply books_later.
  - by apply books_stop.
Qed.

(** ** theorems *)

Definition recent (policy : RestartPolicy) (t : Z) (crashes : list Z) : list Z :=
  filter (fun x => t - x <= window_ms policy) crashes.

(** Rate limit: in every reachable state that is not the crash loop, the crashes
    within the restart window before the last one are at most max_restarts. *)
Theorem restarts_are_rate_limited policy c crashes t :
  reach policy c crashes t -> 0 <= max_restarts policy ->
  sc_state c <> CrashLoop ->
  Z.of_nat (length (recent policy t crashes)) <= max_restarts policy.
Proof.
  intros Hr Hmax Hs. apply reach_books in Hr as [_ (old & -> & Hold) _ _ Hl _].
  unfold recent. rewrite filter_app, length_app.
  assert (filter (fun x => t - x <= window_ms policy) old = []) as ->.
  { apply elem_of_nil_inv. intros x [Hx Hin]%list_elem_of_filter.
    rewrite Forall_forall in Hold. specialize (Hold x Hin). lia. }
  pose proof (length_filter (fun x => t - x <= window_ms policy) (sc_restart_times c)).
  specialize (Hl Hs). cbn. lia.
Qed.

(** The breaker stays open until an explicit stop: in CrashLoop, poll does nothing and
    start is refused, and stop resets the controller without touching the runtime. *)
Theorem crash_loop_is_absorbing c now :
  sc_state c = CrashLoop ->
  poll now c = (Ok tt, c) /\ start now c = (Err InvalidStateTransition, c) /\
  exists c', stop c = (Ok tt, c') /\ sc_state c' = Stopped /\ sc_restart_times c' = [] /\
    sc_consecutive_failures c' = 0 /\ sc_retry_at_ms c' = None /\
    sc_runtime c' = sc_runtime c.
Proof.
  intros Hs. split_and!.
  - unfold poll, bind, get. by rewrite Hs.
  - by rewrite start_spec, Hs.
  - unfold stop, bind, get, modify, ret. rewrite Hs. by eexists.
Qed.

(** A sidecar that start reports as running has answered the handshake with the
    supported protocol version, the instance id it was launched with and the expected
    authentication proof. *)
Theorem start_authenticates now c c' :
  start now c = (Ok tt, c') ->
  sc_state c' = Running /\ exists hs r,
    runtime_start (sc_context c) (sc_runtime c) = (Ok hs, r) /\
    hs_protocol_version hs = NETWORK_IPC_PROTOCOL_VERSION /\
    hs_instance_id hs = lc_instance_id (sc_context c) /\
    hs_auth_proof hs = sc_expected_auth_proof c /\ sc_runtime c' = r.
Proof.
  rewrite start_spec. unfold start_live. intros Hst.
  destruct (sc_state c); try done;
    destruct (runtime_start _ _) as [[hs|e] r]; try done;
    repeat case_match; try done; injection Hst as <-;
    reflect_bools; split; try done; by exists hs, r.
Qed.

(** A sidecar whose handshake has the wrong version, instance or proof is stopped, and
    start reports UnsupportedProtocolVersion or AuthenticationFailed with the controller
    Stopped. *)
Theorem rejected_handshake_stops_runtime now c hs r :
  sc_state c = Stopped \/ sc_state c = Backoff ->
  runtime_start (sc_context c) (sc_runtime c) = (Ok hs, r) ->
  hs_protocol_version hs <> NETWORK_IPC_PROTOCOL_VERSION \/
  hs_instance_id hs <> lc_instance_id (sc_context c) \/
  hs_auth_proof hs <> sc_expected_auth_proof c ->
  exists e c', start now c = (Err e, c') /\ sc_state c' = Stopped /\
    sc_runtime c' = (runtime_stop r).2 /\
    (e = UnsupportedProtocolVersion \/ e = AuthenticationFailed).
Proof.
  intros Hs Hrt Hbad.
  assert (start now c = start_live now c) as ->
    by (rewrite start_spec; by destruct Hs as [-> | ->]).
  unfold start_live. rewrite Hrt. case_match eqn:Hv; [|by eauto 10].
  case_match eqn:Hid; [|by eauto 10]. reflect_bools. naive_solver.
Qed.

(** When a running sidecar has exited, poll opens the breaker or schedules a retry whose
    delay doubles with each consecutive failure up to max_backoff_ms, in saturating
    64-bit arithmetic, and polling before that time does nothing. *)
Theorem crash_backs_off_exponentially now c b r :
  sc_state c = Running -> runtime_status (sc_runtime c) = (Ok (ProcessExited b), r) ->
  exists c', poll now c = ((poll now c).1, c') /\
  ((sc_state c' = CrashLoop /\ (poll now c).1 = Err SidecarUnavailable /\ sc_retry_at_ms c' = None) \/
   (sc_state c' = Backoff /\ (poll now c).1 = Ok tt /\ exists delay,
      sc_retry_at_ms c' = Some (saturating_add u64_max now delay) /\
      delay <= max_backoff_ms (sc_policy c) /\
      delay = Z.min (saturating_mul u64_max (initial_backoff_ms (sc_policy c))
                (2 ^ Z.min (saturating_sub (sc_consecutive_failures c') 1) 31))
                (max_backoff_ms (sc_policy c)) /\
      forall later, later < saturating_add u64_max now delay -> poll later c' = (Ok tt, c'))).
Proof.
  intros Hs Hrt. exists (poll now c).2. split; [by destruct (poll now c)|].
  assert (Hp : poll now c = record_crash now (with_runtime r c)).
  { unfold poll, bind, get, on_runtime, zoom. by rewrite Hs, Hrt. }
  rewrite Hp. set (c0 := with_runtime r c).
  destruct (record_crash_spec now c0) as (_ & _ & Hcf & _ & Hres).
  destruct (_ <? _) in Hres; destruct Hres as (Hr & Hst & Hra); [by left|right].
  split_and!; [done|done|]. eexists. split_and!; [exact Hra|apply Z.le_min_r| |].
  - rewrite Hcf. cbn [c0 sc_policy with_runtime].
    by rewrite Z.shiftl_mul_pow2, Z.mul_1_l by (unfold saturating_sub; lia).
  - intros later Hl. unfold poll at 1, bind, get, ret. rewrite Hst, Hra.
    by rewrite (proj2 (Z.leb_gt _ _)).
Qed.
End proofs.
