(* ===== verification/DataPlane.v ===== *)
(** * DataPlane: tunnel, carriers and routes in order

    [src-tauri/src/networking/data_plane.rs]: the controller that starts the
    WireGuard tunnel, selects a carrier (QUIC first, then the configured
    fallbacks), applies the private routes, watches the carrier's health and
    tears everything down.  The three adapter traits are classes over one
    environment [E], which stands for everything the adapters own; the proofs
    instantiate them with a call log and an arbitrary oracle for the replies. *)

From Stdlib Require Import Ascii String.
From S2P Require Import Prelude Text NetState IpAddr Config.

(** ** health and adapters *)

Record TransportHealth := {
  reachable : bool;
  latency_ms : Z;
  jitter_ms : Z;
  packet_loss_percent : Z;
}.

Definition healthy (self : TransportHealth) : bool :=
  reachable self && (packet_loss_percent self <? 50).

Class WireGuardAdapter (E : Type) := {
  wireguard_start : TunnelConfig -> Meth E unit;
  wireguard_stop : Meth E unit;
}.

Class PrivateRouteAdapter (E : Type) := {
  routes_apply : NetworkProfile -> Meth E unit;
  routes_rollback : Meth E unit;
}.

Class TransportAdapter (E : Type) := {
  transport_connect : TransportEndpoint -> Meth E unit;
  transport_disconnect : TransportKind -> Meth E unit;
  transport_health : TransportKind -> Meth E TransportHealth;
}.

(** ** the controller *)

Section controller.
Context `{UrlLib} `{Base64Lib}.
Context {E : Type} `{WireGuardAdapter E} `{PrivateRouteAdapter E} `{TransportAdapter E}.

Record DataPlaneController := {
  dp_env : E;
  dp_state : NetworkState;
  dp_active_transport : option TransportKind;
  dp_unhealthy_samples : Z;
}.

Definition DataPlaneController_new (env : E) : DataPlaneController :=
  {| dp_env := env; dp_state := Disconnected; dp_active_transport := None;
     dp_unhealthy_samples := 0 |}.

Definition dp_with_env (e : E) (c : DataPlaneController) :=
  {| dp_env := e; dp_state := dp_state c;
     dp_active_transport := dp_active_transport c;
     dp_unhealthy_samples := dp_unhealthy_samples c |}.
Definition dp_with_state (s : NetworkState) (c : DataPlaneController) :=
  {| dp_env := dp_env c; dp_state := s;
     dp_active_transport := dp_active_transport c;
     dp_unhealthy_samples := dp_unhealthy_samples c |}.
Definition dp_with_active (t : option TransportKind) (c : DataPlaneController) :=
  {| dp_env := dp_env c; dp_state := dp_state c; dp_active_transport := t;
     dp_unhealthy_samples := dp_unhealthy_samples c |}.
Definition dp_with_unhealthy (n : Z) (c : DataPlaneController) :=
  {| dp_env := dp_env c; dp_state := dp_state c;
     dp_active_transport := dp_active_transport c; dp_unhealthy_samples := n |}.

(** A call of an adapter, and a transition of the controller's state. *)
Definition call {A} (m : Meth E A) : Meth DataPlaneController A := zoom dp_env dp_with_env m.
Definition goto (next : NetworkState) : Meth DataPlaneController unit :=
  zoom dp_state dp_with_state (transition_to next).
Definition goto_all (nexts : list NetworkState) : Meth DataPlaneController unit :=
  zoom dp_state dp_with_state (transition_all nexts).

Definition connect_kind (profile : NetworkProfile) (kind : TransportKind)
  : Meth DataPlaneController unit :=
  let! endpoint := lift (ok_or
    (find (fun endpoint => bool_decide (ep_transport endpoint = kind))
       (endpoints (transports profile))) InvalidConfiguration) in
  call (transport_connect endpoint) ;!
  modify (dp_with_active (Some kind)).

Definition disconnect_active (kind : TransportKind) : Meth DataPlaneController unit :=
  call (transport_disconnect kind) ;!
  modify (dp_with_active None).

Definition connect_kind_healthy (profile : NetworkProfile) (kind : TransportKind)
  : Meth DataPlaneController unit :=
  connect_kind profile kind ;!
  let! health := call (transport_health kind) in
  if healthy health then ret tt else raise PrimaryTransportUnavailable.

Fixpoint try_fallbacks (profile : NetworkProfile) (kinds : list TransportKind)
  : Meth DataPlaneController unit :=
  match kinds with
  | [] => raise FallbackTransportUnavailable
  | kind :: kinds =>
      let! connected := attempt (connect_kind_healthy profile kind) in
      if is_ok connected then ret tt
      else
        let! self := get in
        (if is_some (dp_active_transport self) then disconnect_active kind else ret tt) ;!
        try_fallbacks profile kinds
  end.

Definition connect_first_fallback (profile : NetworkProfile) : Meth DataPlaneController unit :=
  try_fallbacks profile (fallbacks (transports profile)).

Definition cleanup_after_failure : Meth DataPlaneController unit :=
  modify (dp_with_active None) ;!
  let! route_result := attempt (call routes_rollback) in
  let! tunnel_result := attempt (call wireguard_stop) in
  goto Error ;!
  goto Disconnected ;!
  lift (res_and route_result tunnel_result).

Definition fail_to_disconnected : Meth DataPlaneController unit :=
  goto Error ;! goto Disconnected.

(** The [if let Err(error) = self.routes.apply(..)] step shared by both
    branches of [connect]. *)
Definition apply_routes_or_cleanup (profile : NetworkProfile) (next : NetworkState)
  : Meth DataPlaneController unit :=
  let! applied := attempt (call (routes_apply profile)) in
  match applied with
  | Err error => cleanup_after_failure ;! raise error
  | Ok _ => goto next
  end.

Definition connect (profile : NetworkProfile) : Meth DataPlaneController unit :=
  lift (NetworkProfile_validate profile) ;!
  goto_all [Authenticating; FetchingConfig; PreparingTunnel] ;!
  let! started := attempt (call (wireguard_start (tunnel profile))) in
  match started with
  | Err error => fail_to_disconnected ;! raise error
  | Ok _ =>
      goto ConnectingPrimary ;!
      let! primary_ok := attempt (connect_kind_healthy profile (primary (transports profile))) in
      if is_ok primary_ok then apply_routes_or_cleanup profile ConnectedPrimary
      else
        let! self := get in
        (if is_some (dp_active_transport self)
         then disconnect_active (primary (transports profile)) else ret tt) ;!
        let! fallback_ok := attempt (connect_first_fallback profile) in
        if is_ok fallback_ok then apply_routes_or_cleanup profile DegradedFallback
        else cleanup_after_failure ;! raise FallbackTransportUnavailable
  end.

Definition fallback_or_cleanup (profile : NetworkProfile) : Meth DataPlaneController unit :=
  let! fallback := attempt (connect_first_fallback profile) in
  match fallback with
  | Err error => cleanup_after_failure ;! raise error
  | Ok _ => goto DegradedFallback
  end.

Definition switch_after_failure (profile : NetworkProfile) (failed : TransportKind)
  : Meth DataPlaneController unit :=
  disconnect_active failed ;!
  if bool_decide (failed = primary (transports profile))
  then fallback_or_cleanup profile
  else
    goto Reconnecting ;!
    let! primary_ok := attempt (connect_kind profile (primary (transports profile))) in
    if is_ok primary_ok then goto ConnectedPrimary
    else fallback_or_cleanup profile.

Definition sample_health (profile : NetworkProfile) : Meth DataPlaneController TransportHealth :=
  let! self := get in
  let! active := lift (ok_or (dp_active_transport self) InvalidStateTransition) in
  let! health := call (transport_health active) in
  if healthy health
  then modify (dp_with_unhealthy 0) ;! ret health
  else
    modify (fun c => dp_with_unhealthy (saturating_add u8_max (dp_unhealthy_samples c) 1) c) ;!
    let! self := get in
    if dp_unhealthy_samples self <? fallback_threshold (policy profile)
    then ret health
    else
      modify (dp_with_unhealthy 0) ;!
      switch_after_failure profile active ;!
      ret health.

Definition reconnect_after_network_change (profile : NetworkProfile)
  : Meth DataPlaneController unit :=
  let! self := get in
  let! active := lift (ok_or (dp_active_transport self) InvalidStateTransition) in
  goto Reconnecting ;!
  disconnect_active active ;!
  let! primary_ok := attempt (connect_kind profile (primary (transports profile))) in
  if is_ok primary_ok then goto ConnectedPrimary
  else
    connect_first_fallback profile ;!
    goto DegradedFallback.

Definition disconnect : Meth DataPlaneController unit :=
  let! self := get in
  if bool_decide (dp_state self = Disconnected) then ret tt
  else
    goto Disconnecting ;!
    let! transport_result := attempt
      (match dp_active_transport self with
       | None => ret tt
       | Some active => disconnect_active active
       end) in
    let! route_result := attempt (call routes_rollback) in
    let! tunnel_result := attempt (call wireguard_stop) in
    goto Disconnected ;!
    lift (res_and transport_result (res_and route_result tunnel_result)).

End controller.
Arguments DataPlaneController E : clear implicits.

(** ** adapters observed through their calls

    Whatever the adapters are, the controller sees only their replies, and a
    reply can depend only on the calls made before it.  [oracle] is such an
    adapter: its state is the log of the calls and their outcomes. *)

Inductive Call : Type :=
| WireguardStart (config : TunnelConfig)
| WireguardStop
| RoutesApply (profile : NetworkProfile)
| RoutesRollback
| TransportConnect (endpoint : TransportEndpoint)
| TransportDisconnect (kind : TransportKind)
| TransportHealthOf (kind : TransportKind).

Inductive Event : Type :=
| Done (c : Call)
| Sampled (kind : TransportKind) (health : TransportHealth)
| Failed (c : Call) (e : NetworkErrorCode).

Record Oracle := {
  reply : list Event -> Call -> Res unit;
  sample : list Event -> TransportKind -> Res TransportHealth;
}.

Section logged.
Variable oracle : Oracle.

Definition logged (c : Call) : Meth (list Event) unit :=
  fun log => match reply oracle log c with
             | Ok _ => (Ok tt, log ++ [Done c])
             | Err e => (Err e, log ++ [Failed c e])
             end.

Definition logged_health (kind : TransportKind) : Meth (list Event) TransportHealth :=
  fun log => match sample oracle log kind with
             | Ok h => (Ok h, log ++ [Sampled kind h])
             | Err e => (Err e, log ++ [Failed (TransportHealthOf kind) e])
             end.

Definition logged_wireguard : WireGuardAdapter (list Event) := {|
  wireguard_start config := logged (WireguardStart config);
  wireguard_stop := logged WireguardStop;
|}.
Definition logged_routes : PrivateRouteAdapter (list Event) := {|
  routes_apply profile := logged (RoutesApply profile);
  routes_rollback := logged RoutesRollback;
|}.
Definition logged_transport : TransportAdapter (list Event) := {|
  transport_connect endpoint := logged (TransportConnect endpoint);
  transport_disconnect kind := logged (TransportDisconnect kind);
  transport_health := logged_health;
|}.
End logged.

(** ** what the log says about the machine *)

(** [w_current] holds the carriers connected and not disconnected since, less
    those that were open when an application of the routes failed: [connect]
    then cleans up without disconnecting its carrier and forgets it, so these
    are kept apart, in [w_left], until a disconnect of their kind.  Only
    [transport.disconnect] closes a carrier; stopping the tunnel does not. *)
Record World := {
  w_tunnel : bool;
  w_routes : bool;
  w_current : list TransportKind;
  w_left : list TransportKind;
  w_peak : nat;                  (** the most [w_current] has ever held *)
}.

Definition world_init : World :=
  {| w_tunnel := false; w_routes := false; w_current := []; w_left := []; w_peak := 0 |}.

(** Every carrier open now. *)
Definition w_open (w : World) : list TransportKind := w_current w ++ w_left w.

Definition observe1 (w : World) (ev : Event) : World :=
  match ev with
  | Done (WireguardStart _) =>
      {| w_tunnel := true; w_routes := w_routes w; w_current := w_current w;
         w_left := w_left w; w_peak := w_peak w |}
  | Done WireguardStop =>
      {| w_tunnel := false; w_routes := w_routes w; w_current := w_current w;
         w_left := w_left w; w_peak := w_peak w |}
  | Done (RoutesApply _) =>
      {| w_tunnel := w_tunnel w; w_routes := true; w_current := w_current w;
         w_left := w_left w; w_peak := w_peak w |}
  | Failed (RoutesApply _) _ =>
      {| w_tunnel := w_tunnel w; w_routes := w_routes w; w_current := [];
         w_left := w_current w ++ w_left w; w_peak := w_peak w |}
  | Done RoutesRollback =>
      {| w_tunnel := w_tunnel w; w_routes := false; w_current := w_current w;
         w_left := w_left w; w_peak := w_peak w |}
  | Done (TransportConnect endpoint) =>
      {| w_tunnel := w_tunnel w; w_routes := w_routes w;
         w_current := ep_transport endpoint :: w_current w; w_left := w_left w;
         w_peak := Nat.max (w_peak w) (S (length (w_current w))) |}
  | Done (TransportDisconnect kind) =>
      {| w_tunnel := w_tunnel w; w_routes := w_routes w;
         w_current := filter (fun k => k <> kind) (w_current w);
         w_left := filter (fun k => k <> kind) (w_left w); w_peak := w_peak w |}
  | _ => w
  end.

Definition observe (log : list Event) : World := fold_left observe1 log world_init.

Arguments observe : simpl never.

Lemma observe_snoc log ev : observe (log ++ [ev]) = observe1 (observe log) ev.
Proof. unfold observe. by rewrite fold_left_app. Qed.

(** The applications of the routes that have failed. *)
Definition is_failed_apply (ev : Event) : bool :=
  match ev with Failed (RoutesApply _) _ => true | _ => false end.
Definition failed_applies (log : list Event) : nat := length (filter is_failed_apply log).

Lemma current_within_peak log :
  (length (w_current (observe log)) <= w_peak (observe log))%nat.
Proof.
  induction log as [|ev log IH] using rev_ind; [unfold observe; cbn; lia|]. rewrite observe_snoc.
  destruct ev as [[]|?|[]]; cbn; try done; try lia.
  pose proof (length_filter (fun k => k <> kind) (w_current (observe log))). lia.
Qed.

Lemma failed_applies_snoc log ev :
  failed_applies (log ++ [ev]) = (failed_applies log + Nat.b2n (is_failed_apply ev))%nat.
Proof.
  unfold failed_applies. rewrite filter_app, length_app.
  destruct ev as [[]|?|[]]; reflexivity.
Qed.

(** A failed application leaves behind no more carriers than were ever current. *)
Lemma left_within_failed_applies log :
  (length (w_left (observe log)) <= failed_applies log * w_peak (observe log))%nat.
Proof.
  induction log as [|ev log IH] using rev_ind; [unfold observe; cbn; lia|].
  pose proof (current_within_peak log) as Hc. rewrite failed_applies_snoc, observe_snoc.
  destruct ev as [[]|?|[]]; cbn; rewrite ?Nat.add_0_r; try done; try nia.
  - pose proof (length_filter (fun k => k <> kind) (w_left (observe log))). lia.
  - rewrite length_app. lia.
Qed.

Section proofs.
Context `{UrlLib} `{Base64Lib}.
Variable oracle : Oracle.

Notation Controller := (DataPlaneController (list Event)).
Implicit Types c : Controller.

Definition world c : World := observe (dp_env c).
Arguments world : simpl never.

#[local] Instance oracle_wireguard : WireGuardAdapter (list Event) := logged_wireguard oracle.
#[local] Instance oracle_routes : PrivateRouteAdapter (list Event) := logged_routes oracle.
#[local] Instance oracle_transport : TransportAdapter (list Event) := logged_transport oracle.

(** ** rules for the calls *)

Lemma wp_call cl (Q : Res unit -> Controller -> Prop) c :
  (reply oracle (dp_env c) cl = Ok tt -> Q (Ok tt) (dp_with_env (dp_env c ++ [Done cl]) c)) ->
  (forall e, reply oracle (dp_env c) cl = Err e ->
     Q (Err e) (dp_with_env (dp_env c ++ [Failed cl e]) c)) ->
  wp (call (logged oracle cl)) Q c.
Proof.
  intros Hok Herr. unfold call. apply wp_zoom. unfold wp, logged.
  destruct (reply oracle (dp_env c) cl) as [[]|e] eqn:E; cbn; auto.
Qed.

Lemma wp_health kind (Q : Res TransportHealth -> Controller -> Prop) c :
  (forall h, Q (Ok h) (dp_with_env (dp_env c ++ [Sampled kind h]) c)) ->
  (forall e, Q (Err e) (dp_with_env (dp_env c ++ [Failed (TransportHealthOf kind) e]) c)) ->
  wp (call (logged_health oracle kind)) Q c.
Proof.
  intros Hok Herr. unfold call. apply wp_zoom. unfold wp, logged_health.
  destruct (sample oracle (dp_env c) kind) as [h|e] eqn:E; cbn; auto.
Qed.

Lemma wp_goto next (Q : Res unit -> Controller -> Prop) c :
  (can_transition_to (dp_state c) next = true -> Q (Ok tt) (dp_with_state next c)) ->
  (can_transition_to (dp_state c) next = false -> Q (Err InvalidStateTransition) c) ->
  wp (goto next) Q c.
Proof.
  intros Hok Hbad. unfold goto. apply wp_zoom. unfold wp, transition_to.
  destruct (can_transition_to (dp_state c) next); cbn; [by apply Hok|].
  destruct c; by apply Hbad.
Qed.

(** ** the carrier *)

(** The controller's record of the carrier is what is current, and no two
    carriers have ever been current together. *)
Record carrier_ok c : Prop := {
  co_open : w_current (world c) = option_list (dp_active_transport c);
  co_peak : (w_peak (world c) <= 1)%nat;
}.

(** Nothing but the carrier and the log differs. *)
Record same_plane c c' : Prop := {
  sp_state : dp_state c' = dp_state c;
  sp_unhealthy : dp_unhealthy_samples c' = dp_unhealthy_samples c;
  sp_tunnel : w_tunnel (world c') = w_tunnel (world c);
  sp_routes : w_routes (world c') = w_routes (world c);
}.

#[local] Instance same_plane_preorder : PreOrder same_plane.
Proof.
  split; [by constructor|].
  intros c1 c2 c3 [????] [????]. constructor; congruence.
Qed.

Lemma wp_connect_kind p k c :
  carrier_ok c -> dp_active_transport c = None ->
  wp (connect_kind p k) (fun r c' => carrier_ok c' /\ same_plane c c' /\
    dp_active_transport c' = (if is_ok r then Some k else None)) c.
Proof.
  intros [Ho Hp] Ha. unfold connect_kind. wp_steps.
  destruct (find _ _) as [ep|] eqn:Hf; cbn; [|by constructor].
  apply find_some in Hf as [_ Hk]. apply bool_decide_eq_true in Hk. wp_steps.
  unfold world in *. rewrite Ha in Ho. apply wp_call.
  - intros _. wp_steps. split_and!; [|..|done]; constructor; unfold world; cbn;
      rewrite ?observe_snoc; cbn; rewrite ?Ho; cbn; first [done|by rewrite Hk|lia].
  - intros e _. split_and!; [| |done]; constructor; unfold world; cbn;
      rewrite ?observe_snoc; cbn; rewrite ?Ha, ?Ho; done.
Qed.

Lemma wp_connect_kind_healthy p k c :
  carrier_ok c -> dp_active_transport c = None ->
  wp (connect_kind_healthy p k) (fun r c' => carrier_ok c' /\ same_plane c c' /\
    (r = Ok tt -> dp_active_transport c' = Some k) /\
    (dp_active_transport c' = None \/ dp_active_transport c' = Some k)) c.
Proof.
  intros Hc Ha. unfold connect_kind_healthy. wp_step.
  eapply wp_mono; [by apply wp_connect_kind|]. intros [[]|e] c1 (Hc1 & Hs1 & Ha1); cbn in *.
  2: { split_and!; auto; done. }
  wp_step. destruct Hc1 as [Ho1 Hp1].
  assert (Hk : forall ev, (forall w, observe1 w ev = w) ->
    carrier_ok (dp_with_env (dp_env c1 ++ [ev]) c1) /\
    same_plane c (dp_with_env (dp_env c1 ++ [ev]) c1)).
  { intros ev Hev. destruct Hs1 as [????]. unfold world in *.
    split; constructor; unfold world; cbn; rewrite ?observe_snoc, ?Hev; congruence. }
  apply wp_health.
  - intros h. destruct (Hk (Sampled k h)) as [??]; [done|].
    case_match; wp_steps; split_and!; auto; done.
  - intros e. destruct (Hk (Failed (TransportHealthOf k) e)) as [??]; [done|].
    split_and!; auto; done.
Qed.

(** ** reliable teardown *)

(** Closing a carrier and stopping the tunnel succeed.  Connecting, sampling,
    applying and rolling back routes may fail at any time. *)
Record reliable_teardown : Prop := {
  rt_disconnect : forall log k, reply oracle log (TransportDisconnect k) = Ok tt;
  rt_stop : forall log, reply oracle log WireguardStop = Ok tt;
}.

(** The invariant between two calls of the controller's public methods. *)
Record plane_inv c : Prop := {
  pi_carrier : carrier_ok c;
  pi_rest : match dp_state c with
            | Disconnected => dp_active_transport c = None
            | ConnectedPrimary => dp_active_transport c = Some Quic
            | DegradedFallback => exists k, dp_active_transport c = Some k /\ k <> Quic
            | Reconnecting => dp_active_transport c = None
            | _ => False
            end;
  pi_up : dp_state c <> Disconnected ->
    w_tunnel (world c) = true /\ w_routes (world c) = true;
}.

Section reliable.
Hypothesis Hrel : reliable_teardown.

Lemma wp_disconnect_active k c :
  carrier_ok c -> dp_active_transport c = Some k ->
  wp (disconnect_active k) (fun r c' => r = Ok tt /\ carrier_ok c' /\ same_plane c c' /\
    dp_active_transport c' = None) c.
Proof.
  intros [Ho Hp] Ha. unfold disconnect_active. wp_step. unfold world in *.
  rewrite Ha in Ho. apply wp_call.
  - intros _. wp_steps. split_and!; [done| | |done]; constructor; unfold world; cbn;
      rewrite ?observe_snoc; cbn; rewrite ?Ho; cbn; try done.
    by rewrite decide_False by auto.
  - intros e He. by rewrite (rt_disconnect Hrel) in He.
Qed.

Lemma wp_try_fallbacks p ks c :
  carrier_ok c -> dp_active_transport c = None ->
  wp (try_fallbacks p ks) (fun r c' => carrier_ok c' /\ same_plane c c' /\
    if is_ok r then exists k, k ∈ ks /\ dp_active_transport c' = Some k
    else dp_active_transport c' = None) c.
Proof.
  revert c. induction ks as [|k ks IH]; intros c Hc Ha; cbn [try_fallbacks]; wp_steps.
  { by split_and!. }
  eapply wp_mono; [by apply wp_connect_kind_healthy|].
  intros r c1 (Hc1 & Hs1 & Hok & Ha1). destruct r as [[]|e]; cbn [is_ok]; wp_steps.
  { split_and!; [done|done|]. exists k. split; [set_solver|auto]. }
  assert (Hnext : forall c2, carrier_ok c2 -> dp_active_transport c2 = None -> same_plane c1 c2 ->
    wp (try_fallbacks p ks) (fun r c' => carrier_ok c' /\ same_plane c c' /\
      if is_ok r then exists k', k' ∈ k :: ks /\ dp_active_transport c' = Some k'
      else dp_active_transport c' = None) c2).
  { intros c2 Hc2 Ha2 Hs2. eapply wp_mono; [by apply IH|].
    intros r c' (Hc' & Hs' & Hr). split_and!; [done|by etrans; [|etrans]|].
    destruct (is_ok r); [|done]. set_solver. }
  destruct Ha1 as [Ha1|Ha1]; rewrite Ha1; cbn [is_some].
  - wp_steps. by apply Hnext.
  - eapply wp_mono; [by apply wp_disconnect_active|].
    intros r c2 (-> & Hc2 & Hs2 & Ha2). by apply Hnext.
Qed.

Lemma wp_cleanup c :
  w_current (world c) = [] -> (w_peak (world c) <= 1)%nat ->
  can_transition_to (dp_state c) Error = true ->
  wp cleanup_after_failure (fun r c' => plane_inv c' /\ dp_state c' = Disconnected /\
    w_tunnel (world c') = false /\ (r = Ok tt -> w_routes (world c') = false)) c.
Proof.
  intros Ho Hp Ht. unfold cleanup_after_failure. wp_steps.
  assert (Hstop : forall r1 c1, dp_state c1 = dp_state c -> dp_active_transport c1 = None ->
    w_current (world c1) = [] -> (w_peak (world c1) <= 1)%nat -> (r1 = Ok tt -> w_routes (world c1) = false) ->
    wp (let! tunnel_result := attempt (call wireguard_stop) in
        goto Error ;! goto Disconnected ;! lift (res_and r1 tunnel_result))
      (fun r c' => plane_inv c' /\ dp_state c' = Disconnected /\
        w_tunnel (world c') = false /\ (r = Ok tt -> w_routes (world c') = false)) c1).
  { intros r1 c1 Hst Ha Ho1 Hp1 Hr1. wp_steps. unfold world in *. apply wp_call.
    2: { intros e He. by rewrite (rt_stop Hrel) in He. }
    intros _. wp_steps. apply wp_goto; cbn; rewrite Hst; [intros _|congruence].
    wp_steps. apply wp_goto; [intros _|done]. wp_steps.
    split_and!; [|done|unfold world; cbn; by rewrite observe_snoc|].
    - constructor; cbn; [|done|done].
      constructor; unfold world; cbn; rewrite observe_snoc; cbn; [by rewrite Ha|done].
    - intros Hr. unfold world; cbn. rewrite observe_snoc. cbn. apply Hr1.
      by destruct r1 as [[]|]. }
  unfold world in *. apply wp_call; [intros _|intros e _]; apply Hstop;
    cbn; try done; unfold world; cbn; rewrite observe_snoc; cbn; done.
Qed.

(** ** the public methods keep the invariant *)

Lemma wp_fallback_or_cleanup p c :
  profile_contract p -> carrier_ok c -> dp_active_transport c = None ->
  can_transition_to (dp_state c) Error = true ->
  can_transition_to (dp_state c) DegradedFallback = true ->
  w_tunnel (world c) = true -> w_routes (world c) = true ->
  wp (fallback_or_cleanup p) (fun r c' => plane_inv c' /\
    dp_state c' = if is_ok r then DegradedFallback else Disconnected) c.
Proof.
  intros Hpc Hc Ha He Hd Ht Hr. unfold fallback_or_cleanup, connect_first_fallback. wp_steps.
  eapply wp_mono; [by apply wp_try_fallbacks|].
  intros r c1 (Hc1 & [Hst1 _ Ht1 Hr1] & Hk). destruct r as [[]|e]; cbn in Hk.
  - destruct Hk as (k & Hin & Ha1). apply wp_goto; [intros _|by rewrite Hst1, Hd].
    split; [|done]. destruct Hc1 as [Ho1 Hp1].
    constructor; cbn; [by constructor| |].
    2: { intros _. change (world (dp_with_state DegradedFallback c1)) with (world c1).
         by rewrite Ht1, Hr1. }
    exists k. split; [done|]. intros ->. by apply (pc_fallbacks p Hpc).
  - wp_steps. eapply wp_mono.
    + apply wp_cleanup; [by rewrite (co_open _ Hc1), Hk|apply Hc1|by rewrite Hst1].
    + intros [[]|e'] c2 (Hi & Hs & _); wp_steps; by split.
Qed.

Lemma wp_apply_routes p next c :
  carrier_ok c -> w_tunnel (world c) = true ->
  can_transition_to (dp_state c) next = true ->
  can_transition_to (dp_state c) Error = true ->
  (next = ConnectedPrimary /\ dp_active_transport c = Some Quic \/
   next = DegradedFallback /\ exists k, dp_active_transport c = Some k /\ k <> Quic) ->
  wp (apply_routes_or_cleanup p next) (fun r c' => plane_inv c' /\
    dp_state c' = if is_ok r then next else Disconnected) c.
Proof.
  intros [Ho Hp] Ht Hn He Hnext. unfold apply_routes_or_cleanup. wp_steps.
  unfold world in *. apply wp_call.
  - intros _. apply wp_goto; cbn; rewrite Hn; [intros _|done]. split; [|done].
    constructor; cbn.
    + constructor; unfold world; cbn; by rewrite observe_snoc.
    + destruct Hnext as [[-> ?]|[-> ?]]; done.
    + intros _. unfold world; cbn. by rewrite observe_snoc.
  - intros e _. wp_steps. eapply wp_mono.
    + apply wp_cleanup; cbn; [| |done]; unfold world; cbn; by rewrite observe_snoc.
    + intros [[]|e'] c2 (Hi & Hs & _); wp_steps; by split.
Qed.

Lemma plane_inv_log c ev :
  (forall w, observe1 w ev = w) -> plane_inv c ->
  plane_inv (dp_with_env (dp_env c ++ [ev]) c).
Proof.
  intros Hev [[Ho Hp] Hr Hu]. unfold world in *.
  constructor; cbn; [constructor|..]; unfold world; cbn; rewrite ?observe_snoc, ?Hev; done.
Qed.

(** The primary carrier failed: a fallback is connected, or all is cleaned up. *)
Lemma wp_fallback_connect p c :
  profile_contract p -> carrier_ok c -> dp_active_transport c = None ->
  dp_state c = ConnectingPrimary -> w_tunnel (world c) = true ->
  wp (let! fallback_ok := attempt (connect_first_fallback p) in
      if is_ok fallback_ok then apply_routes_or_cleanup p DegradedFallback
      else cleanup_after_failure ;! raise FallbackTransportUnavailable)
    (fun r c' => plane_inv c' /\ (r = Ok tt -> connected (dp_state c') = true) /\
      (Disconnected = Disconnected -> r <> Ok tt -> dp_state c' = Disconnected)) c.
Proof.
  intros Hpc Hc Ha Hst Ht. unfold connect_first_fallback. wp_steps.
  eapply wp_mono; [by apply wp_try_fallbacks|].
  intros r c4 (Hc4 & [Hst4 _ Ht4 _] & Hk4). destruct r as [[]|e']; cbn [is_ok] in *.
  - destruct Hk4 as (k & Hin & Ha4).
    eapply wp_mono; [apply wp_apply_routes; rewrite ?Hst4, ?Hst, ?Ht4, ?Ht; auto|].
    { right. split; [done|]. exists k. split; [done|]. intros ->.
      by apply (pc_fallbacks p Hpc). }
    intros r c' [Hi' Hs']. split_and!; [done|intros ->; by rewrite Hs'|].
    intros _ Hr. rewrite Hs'. by destruct r as [[]|].
  - wp_steps. eapply wp_mono.
    { apply wp_cleanup; [by rewrite (co_open _ Hc4), Hk4|apply Hc4|by rewrite Hst4, Hst]. }
    intros [[]|e''] c5 (Hi5 & Hs5 & _); wp_steps; by split_and!.
Qed.

Lemma wp_connect p c :
  plane_inv c -> wp (connect p) (fun r c' => plane_inv c' /\
    (r = Ok tt -> connected (dp_state c') = true) /\
    (dp_state c = Disconnected -> r <> Ok tt -> dp_state c' = Disconnected)) c.
Proof.
  intros Hi. unfold connect. wp_steps.
  destruct (NetworkProfile_validate p) as [[]|e] eqn:Hv; [|done].
  apply validate_contract in Hv as Hpc. wp_step. unfold goto_all. wp_step.
  pose proof Hi as [[Ho Hp] Hrest Hup].
  destruct (decide (dp_state c = Disconnected)) as [Hd|Hd].
  2: { assert (Hauth : can_transition_to (dp_state c) Authenticating = false)
         by (by destruct (dp_state c)).
       unfold wp, transition_all, bind, transition_to. rewrite Hauth. cbn.
       destruct c; cbn in *. by split_and!. }
  rewrite Hd in Hrest |- *. unfold wp at 1. cbn. wp_steps. unfold world in *.
  apply wp_call.
  2: { intros e _. wp_steps. unfold fail_to_disconnected. wp_steps.
       apply wp_goto; [intros _|done]. wp_steps. apply wp_goto; [intros _|done]. wp_steps.
       split_and!; [|done..]. constructor; cbn; [|done|done].
       constructor; unfold world; cbn; by rewrite observe_snoc. }
  intros _. wp_steps. apply wp_goto; [intros _|done]. wp_steps.
  match goal with |- wp _ _ ?c1 => set (c1' := c1) end.
  assert (Hc1 : carrier_ok c1').
  { constructor; unfold world; cbn; by rewrite observe_snoc. }
  assert (Ht1 : w_tunnel (world c1') = true).
  { unfold world; cbn. by rewrite observe_snoc. }
  rewrite (pc_primary p Hpc).
  eapply wp_mono; [by apply wp_connect_kind_healthy|].
  intros r c2 (Hc2 & [Hst2 _ Ht2 _] & Hok2 & Ha2). cbn in Hst2.
  destruct r as [[]|e]; cbn [is_ok].
  { eapply wp_mono; [apply wp_apply_routes; rewrite ?Hst2, ?Ht2; auto|].
    intros r c' [Hi' Hs']. split_and!; [done|intros ->; by rewrite Hs'|].
    intros _ Hr. rewrite Hs'. by destruct r as [[]|]. }
  wp_steps.
  destruct Ha2 as [Ha2|Ha2]; rewrite Ha2; cbn [is_some].
  - wp_step. apply wp_fallback_connect; congruence.
  - eapply wp_mono; [by apply wp_disconnect_active|].
    intros r c3 (-> & Hc3 & [Hst3 _ Ht3 _] & Ha3). apply wp_fallback_connect; congruence.
Qed.

Lemma wp_switch p k c :
  profile_contract p -> plane_inv c -> connected (dp_state c) = true ->
  dp_active_transport c = Some k ->
  wp (switch_after_failure p k) (fun r c' => plane_inv c' /\
    (r = Ok tt -> connected (dp_state c') = true)) c.
Proof.
  intros Hpc [Hc Hrest Hup] Hconn Ha. unfold switch_after_failure. wp_step.
  destruct Hup as [Ht Hr]; [by intros Hs; rewrite Hs in Hconn|].
  eapply wp_mono; [by apply wp_disconnect_active|].
  intros r c1 (-> & Hc1 & [Hst1 _ Ht1 Hr1] & Ha1). rewrite (pc_primary p Hpc).
  assert (Hfb : forall c2, carrier_ok c2 -> dp_active_transport c2 = None ->
    w_tunnel (world c2) = true -> w_routes (world c2) = true ->
    dp_state c2 = ConnectedPrimary \/ dp_state c2 = Reconnecting ->
    wp (fallback_or_cleanup p) (fun r c' => plane_inv c' /\
      (r = Ok tt -> connected (dp_state c') = true)) c2).
  { intros c2 Hc2 Ha2 Ht2 Hr2 Hs2. eapply wp_mono.
    - apply wp_fallback_or_cleanup; try done; by destruct Hs2 as [-> | ->].
    - intros r c' [Hi Hs]. split; [done|]. intros ->. by rewrite Hs. }
  destruct (dp_state c) eqn:Hst; try done.
  - assert (k = Quic) as -> by congruence. rewrite bool_decide_true by done.
    apply Hfb; auto; by rewrite ?Ht1, ?Hr1.
  - destruct Hrest as (k' & Hk & Hne). rewrite bool_decide_false by congruence. wp_steps.
    apply wp_goto; rewrite Hst1; [intros _|done]. wp_steps.
    eapply wp_mono; [by apply wp_connect_kind; [destruct Hc1|]|].
    intros r c3 (Hc3 & [Hst3 _ Ht3 Hr3] & Ha3). cbn in Hst3.
    change (world (dp_with_state Reconnecting c1)) with (world c1) in *.
    destruct r as [[]|e]; cbn [is_ok] in *.
    + apply wp_goto; [intros _|by rewrite Hst3]. split; [|done].
      destruct Hc3. constructor; cbn; [by constructor|done|].
      intros _. change (world (dp_with_state ConnectedPrimary c3)) with (world c3).
      by rewrite Ht3, Hr3, Ht1, Hr1.
    + apply Hfb; auto; by rewrite ?Ht3, ?Hr3, ?Ht1, ?Hr1.
Qed.

Lemma plane_inv_unhealthy c n : plane_inv c -> plane_inv (dp_with_unhealthy n c).
Proof. intros [[Ho Hp] Hr Hu]. by constructor; [constructor|..]. Qed.

Lemma wp_sample_health p c :
  profile_contract p -> plane_inv c ->
  wp (sample_health p) (fun r c' => plane_inv c' /\
    (forall h, r = Ok h -> connected (dp_state c') = true)) c.
Proof.
  intros Hpc Hi. unfold sample_health. wp_steps.
  destruct (dp_active_transport c) as [k|] eqn:Ha; cbn; [|by split].
  assert (Hconn : connected (dp_state c) = true).
  { destruct Hi as [_ Hrest _]. destruct (dp_state c); try done; congruence. }
  wp_steps. apply wp_health.
  2: { intros e. split; [by apply plane_inv_log|done]. }
  intros h.
  set (c1 := dp_with_env (dp_env c ++ [Sampled k h]) c).
  assert (Hi1 : plane_inv c1) by (by apply plane_inv_log).
  destruct (healthy h); wp_steps; [split; [by apply plane_inv_unhealthy|done]|].
  case_match; wp_steps; [split; [by apply plane_inv_unhealthy|done]|].
  eapply wp_mono.
  - apply wp_switch; [done|by do 2 apply plane_inv_unhealthy|done|done].
  - intros [[]|e] c' [Hi' Hs']; wp_steps; split; auto; done.
Qed.

Lemma wp_reconnect p c :
  profile_contract p -> plane_inv c ->
  wp (reconnect_after_network_change p) (fun r c' => plane_inv c' /\
    (r = Ok tt -> connected (dp_state c') = true)) c.
Proof.
  intros Hpc Hi. unfold reconnect_after_network_change. wp_steps.
  destruct (dp_active_transport c) as [k|] eqn:Ha; cbn; [|by split].
  pose proof Hi as [[Ho Hp] Hrest Hup].
  assert (Hconn : connected (dp_state c) = true)
    by (destruct (dp_state c); try done; congruence).
  destruct Hup as [Ht Hr]; [by intros Hs; rewrite Hs in Hconn|].
  wp_steps. apply wp_goto; [intros _|by destruct (dp_state c)]. wp_steps.
  eapply wp_mono; [by apply wp_disconnect_active; [constructor|]|].
  intros r c1 (-> & Hc1 & [Hst1 _ Ht1 Hr1] & Ha1). wp_steps. cbn in Hst1.
  change (world (dp_with_state Reconnecting c)) with (world c) in *.
  eapply wp_mono; [by apply wp_connect_kind|].
  intros r c2 (Hc2 & [Hst2 _ Ht2 Hr2] & Ha2). rewrite (pc_primary p Hpc) in Ha2.
  assert (Hdone : forall c3 s, carrier_ok c3 -> dp_state c3 = Reconnecting ->
    w_tunnel (world c3) = true -> w_routes (world c3) = true ->
    (s = ConnectedPrimary /\ dp_active_transport c3 = Some Quic \/
     s = DegradedFallback /\ exists k, dp_active_transport c3 = Some k /\ k <> Quic) ->
    plane_inv (dp_with_state s c3) /\ connected s = true).
  { intros c3 s [Ho3 Hp3] Hs3 Ht3 Hr3 Hcase. split; [|by destruct Hcase as [[-> _]|[-> _]]].
    constructor; cbn; [by constructor|by destruct Hcase as [[-> ?]|[-> ?]]|done]. }
  destruct r as [[]|e]; cbn [is_ok] in *.
  - apply wp_goto; [intros _|by rewrite Hst2, Hst1].
    destruct (Hdone c2 ConnectedPrimary) as [Hi' Hs'];
      [done|congruence|congruence|congruence|by left|]. by split.
  - wp_steps. eapply wp_mono; [by apply wp_try_fallbacks|].
    intros r c3 (Hc3 & [Hst3 _ Ht3 Hr3] & Hk). destruct r as [[]|e']; cbn [is_ok] in Hk.
    + destruct Hk as (k' & Hin & Ha3).
      apply wp_goto; [intros _|by rewrite Hst3, Hst2, Hst1].
      destruct (Hdone c3 DegradedFallback) as [Hi' Hs'];
        [done|congruence|congruence|congruence| |by split].
      right. split; [done|]. exists k'. split; [done|]. intros ->.
      by apply (pc_fallbacks p Hpc).
    + split; [|done]. constructor; [done|by rewrite Hst3, Hst2, Hst1|].
      intros _. by rewrite Ht3, Hr3, Ht2, Hr2, Ht1, Hr1.
Qed.

Lemma wp_disconnect c :
  plane_inv c ->
  wp disconnect (fun r c' => plane_inv c' /\ dp_state c' = Disconnected) c.
Proof.
  intros Hi. unfold disconnect. wp_steps. case_bool_decide as Hd; wp_steps; [by split|].
  pose proof Hi as [[Ho Hp] Hrest Hup].
  assert (Hout : can_transition_to (dp_state c) Disconnecting = true)
    by (by destruct (dp_state c)).
  apply wp_goto; [intros _|by rewrite Hout]. wp_steps.
  assert (Htail : forall (r1 : Res unit) c1, carrier_ok c1 -> dp_active_transport c1 = None ->
    dp_state c1 = Disconnecting ->
    wp (let! route_result := attempt (call routes_rollback) in
        let! tunnel_result := attempt (call wireguard_stop) in
        goto Disconnected ;! lift (res_and r1 (res_and route_result tunnel_result)))
      (fun r c' => plane_inv c' /\ dp_state c' = Disconnected) c1).
  { clear Hi Ho Hp Hrest Hup Hd Hout. intros r1 c1 [Ho Hp] Ha Hs. wp_steps. unfold world in *.
    assert (Hfin : forall ev (r2 : Res unit), observe1 (observe (dp_env c1)) ev =
        {| w_tunnel := w_tunnel (world c1); w_routes := w_routes (observe1 (world c1) ev);
           w_current := w_current (world c1);
           w_left := w_left (world c1); w_peak := w_peak (world c1) |} ->
      wp (let! tunnel_result := attempt (call wireguard_stop) in
        goto Disconnected ;! lift (res_and r1 (res_and r2 tunnel_result)))
      (fun r c' => plane_inv c' /\ dp_state c' = Disconnected)
      (dp_with_env (dp_env c1 ++ [ev]) c1)).
    { intros ev r2 Hev. wp_steps. apply wp_call; [intros _|].
      2: { intros e He. by rewrite (rt_stop Hrel) in He. }
      wp_steps. apply wp_goto; cbn; rewrite Hs; [intros _|done]. wp_steps. split; [|done].
      constructor; [|done|done]. constructor; unfold world in *; cbn;
        rewrite !observe_snoc, Hev; cbn; [by rewrite Ho|done]. }
    apply wp_call; [intros _|intros e _]; apply Hfin; [done|].
    unfold world. cbn. by destruct (observe (dp_env c1)). }
  assert (Hc0 : carrier_ok (dp_with_state Disconnecting c)) by (by constructor).
  destruct (dp_active_transport c) as [k|] eqn:Ha.
  - eapply wp_mono; [by apply wp_disconnect_active|].
    intros r c1 (-> & Hc1 & [Hst1 _ _ _] & Ha1). by apply Htail.
  - wp_step. by apply Htail.
Qed.
End reliable.

(** ** executions *)

Inductive PlaneOp : Type :=
| OpConnect (profile : NetworkProfile)
| OpSampleHealth (profile : NetworkProfile)
| OpReconnect (profile : NetworkProfile)
| OpDisconnect.

Definition run_op (op : PlaneOp) c : Controller :=
  match op with
  | OpConnect p => (connect p c).2
  | OpSampleHealth p => (sample_health p c).2
  | OpReconnect p => (reconnect_after_network_change p c).2
  | OpDisconnect => (disconnect c).2
  end.

(** The profile given to a call on a live connection is one that validates
    ([connect] checks for itself). *)
Definition op_profile_ok (op : PlaneOp) : Prop :=
  match op with
  | OpSampleHealth p | OpReconnect p => NetworkProfile_validate p = Ok tt
  | _ => True
  end.

Definition run_ops (ops : list PlaneOp) : Controller :=
  fold_left (fun c op => run_op op c) ops (DataPlaneController_new []).

Lemma run_ops_inv ops :
  reliable_teardown -> Forall op_profile_ok ops -> plane_inv (run_ops ops).
Proof.
  intros Hrel Hops. unfold run_ops.
  assert (Hi : plane_inv (DataPlaneController_new [])).
  { constructor; [constructor|done|done]; [done|]. change (0 <= 1)%nat. lia. }
  revert Hi. generalize (DataPlaneController_new (E:=list Event) []).
  induction Hops as [|op ops Hop Hops IH]; intros c Hi; cbn; [done|]. apply IH.
  destruct op as [p|p|p|]; cbn in *.
  - apply (wp_connect Hrel p c Hi).
  - apply (wp_sample_health Hrel p c); [by apply validate_contract|done].
  - apply (wp_reconnect Hrel p c); [by apply validate_contract|done].
  - apply (wp_disconnect Hrel c Hi).
Qed.


(** A connection attempt from a disconnected controller ends connected or clean:
    success leaves a connected state, and any error leaves the controller
    Disconnected with no active transport and no carrier open but those left by
    failed applications of the routes. *)
Theorem connect_connects_or_cleans_up p ops :
  reliable_teardown -> Forall op_profile_ok ops ->
  dp_state (run_ops ops) = Disconnected ->
  let r := (connect p (run_ops ops)).1 in
  let c' := (connect p (run_ops ops)).2 in
  (r = Ok tt -> connected (dp_state c') = true) /\
  (r <> Ok tt -> dp_state c' = Disconnected /\ dp_active_transport c' = None /\
     w_open (world c') = w_left (world c')).
Proof.
  intros Hrel Hops Hd r c'.
  destruct (wp_connect Hrel p _ (run_ops_inv ops Hrel Hops)) as ([[Ho _] Hrest _] & Hok & Herr).
  split; [exact Hok|]. intros Hr. specialize (Herr Hd Hr). rewrite Herr in Hrest.
  fold c' in Hrest, Ho, Herr. unfold w_open. by rewrite Ho, Hrest.
Qed.

(** ** teardown order, whatever the adapters answer *)

Definition event_call (ev : Event) : Call :=
  match ev with
  | Done c => c
  | Sampled k _ => TransportHealthOf k
  | Failed c _ => c
  end.

Lemma wp_call_log cl (Q : Res unit -> Controller -> Prop) c :
  (forall ev r, event_call ev = cl -> Q r (dp_with_env (dp_env c ++ [ev]) c)) ->
  wp (call (logged oracle cl)) Q c.
Proof. intros HQ. apply wp_call; intros; by apply HQ. Qed.

(** Disconnecting, from every state that may, ends Disconnected and makes its calls in
    order whatever they answer: the active carrier, if any, is closed, then the routes
    are rolled back, then the tunnel is stopped. *)
Theorem disconnect_tears_down_in_order c :
  can_transition_to (dp_state c) Disconnecting = true ->
  let c' := (disconnect c).2 in
  dp_state c' = Disconnected /\
  exists events, dp_env c' = dp_env c ++ events /\
    map event_call events =
      map TransportDisconnect (option_list (dp_active_transport c)) ++
      [RoutesRollback; WireguardStop].
Proof.
  intros Hs. change (wp disconnect (fun _ c' => dp_state c' = Disconnected /\
    exists events, dp_env c' = dp_env c ++ events /\
      map event_call events =
        map TransportDisconnect (option_list (dp_active_transport c)) ++
        [RoutesRollback; WireguardStop]) c).
  unfold disconnect. wp_steps. rewrite bool_decide_false by (by intros E; rewrite E in Hs).
  wp_steps. apply wp_goto; [intros _|by rewrite Hs]. wp_steps.
  assert (Htail : forall (r1 : Res unit) c1 pre, dp_state c1 = Disconnecting ->
    dp_env c1 = dp_env c ++ pre ->
    map event_call pre = map TransportDisconnect (option_list (dp_active_transport c)) ->
    wp (let! route_result := attempt (call routes_rollback) in
        let! tunnel_result := attempt (call wireguard_stop) in
        goto Disconnected ;! lift (res_and r1 (res_and route_result tunnel_result)))
      (fun _ c' => dp_state c' = Disconnected /\
        exists events, dp_env c' = dp_env c ++ events /\
          map event_call events =
            map TransportDisconnect (option_list (dp_active_transport c)) ++
            [RoutesRollback; WireguardStop]) c1).
  { intros r1 c1 pre Hst Henv Hpre. wp_steps. apply wp_call_log. intros ev1 r2 Hev1.
    wp_steps. apply wp_call_log. intros ev2 r3 Hev2. wp_steps.
    apply wp_goto; cbn; rewrite Hst; [intros _|done]. wp_steps. split; [done|].
    exists (pre ++ [ev1; ev2]). cbn. rewrite Henv, <- !app_assoc. split; [done|].
    rewrite map_app, Hpre. cbn. by rewrite Hev1, Hev2. }
  destruct (dp_active_transport c) as [k|].
  - unfold disconnect_active. wp_steps. apply wp_call.
    + intros _. wp_step. apply (Htail _ _ [Done (TransportDisconnect k)]); done.
    + intros e _. apply (Htail _ _ [Failed (TransportDisconnect k) e]); done.
  - wp_step. apply (Htail _ _ []); [done| |done]. cbn. by rewrite app_nil_r.
Qed.

(** When the carrier refuses to close, disconnect reports the error and ends
    Disconnected with active_transport still set. *)
Theorem failed_carrier_close_leaves_stale_transport c k e :
  can_transition_to (dp_state c) Disconnecting = true ->
  dp_active_transport c = Some k ->
  reply oracle (dp_env c) (TransportDisconnect k) = Err e ->
  (disconnect c).1 = Err e /\ dp_state (disconnect c).2 = Disconnected /\
  dp_active_transport (disconnect c).2 = Some k.
Proof.
  intros Hs Ha He.
  change (wp disconnect (fun r c' => r = Err e /\ dp_state c' = Disconnected /\
    dp_active_transport c' = Some k) c).
  unfold disconnect. wp_steps. rewrite bool_decide_false by (by intros E; rewrite E in Hs).
  wp_steps. apply wp_goto; [intros _|by rewrite Hs]. wp_steps. rewrite Ha.
  unfold disconnect_active. wp_steps. apply wp_call; cbn; rewrite He; [done|].
  intros e' [= <-]. wp_steps. apply wp_call_log. intros ev1 r2 Hev1. wp_steps.
  apply wp_call_log. intros ev2 r3 Hev2. wp_steps.
  apply wp_goto; cbn; [intros _|done]. wp_steps. by split_and!.
Qed.

End proofs.
