(* ===== verification/Policy.v ===== *)
(** * Policy: signed network policies and the keys that are trusted to sign them

    [src-tauri/src/networking/policy.rs].  An envelope carries a key id, an
    algorithm, a base64 payload and a base64 signature over a domain-separated
    message; the payload carries a profile, its revision and its validity
    window.  JSON decoding, Ed25519 and SHA-256 are libraries: they are the
    fields of [PolicyLib], arguments of every definition that calls them. *)

From Stdlib Require Import Ascii String.
From S2P Require Import Prelude Text NetState IpAddr Config.

(** ** constants and data *)

Definition SIGNED_POLICY_ENVELOPE_VERSION : Z := 2.
Definition SIGNED_POLICY_ALGORITHM : string := "ed25519".

Record SignedNetworkPolicyEnvelope := {
  envelope_version : Z;
  env_key_id : string;
  algorithm : string;
  payload_base64 : string;
  signature_base64 : string;
}.

Record SignedNetworkPolicyPayload := {
  pl_issued_at : Z;
  pl_expires_at : Z;
  pl_revision : Z;
  pl_profile : NetworkProfile;
}.

Record VerifiedNetworkPolicy := {
  vp_key_id : string;
  vp_envelope_sha256 : string;
  vp_issued_at : Z;
  vp_expires_at : Z;
  vp_revision : Z;
  vp_profile : NetworkProfile;
}.

Record PolicyTrustKey := {
  tk_key_id : string;
  tk_public_key_base64 : string;
}.

Record PolicyTrustBundle := {
  tb_schema_version : Z;
  tb_keys : list PolicyTrustKey;
}.

Record PolicyTrustStore := {
  public_keys : gmap string (list Z);
}.

(** [serde_json::from_slice] at the three types of this module,
    [ring::signature] for Ed25519 and [ring::digest] for SHA-256. *)
Class PolicyLib := {
  envelope_from_slice : list Z -> option SignedNetworkPolicyEnvelope;
  payload_from_slice : list Z -> option SignedNetworkPolicyPayload;
  trust_bundle_from_slice : list Z -> option PolicyTrustBundle;
  ed25519_verify : list Z -> list Z -> list Z -> bool;
  sha256 : list Z -> list Z;
}.

(** ** helpers *)

Definition validate_at (self : VerifiedNetworkPolicy) (now : Z) : Res unit :=
  if (vp_revision self =? 0) || (now <? vp_issued_at self) ||
     (vp_expires_at self <=? now) || (vp_expires_at self <=? vp_issued_at self)
  then Err PolicySignatureInvalid
  else Ok tt.

(** [str::as_bytes]. *)
Definition as_bytes (s : string) : list Z := map byte (bytes s).

Definition signing_message (key_id algorithm : string) (payload : list Z) : list Z :=
  as_bytes "kyclash-policy-envelope-v2" ++ [0] ++
  as_bytes key_id ++ [0] ++
  as_bytes algorithm ++ [0] ++
  payload.

(** [format!("{byte:02x}")]. *)
Definition hex_byte (b : Z) : list ascii := [hex_char (b / 16); hex_char (b mod 16)].

Definition hex_lower (l : list Z) : string := str (flat_map hex_byte l).

Definition valid_key_id (value : string) : bool := id_shape value.

(** ** the trust store *)

(** The loop of [from_ed25519_keys]: [insert] answers the previous value. *)
Fixpoint insert_keys (keys : list (string * list Z)) (public_keys : gmap string (list Z))
  : Res (gmap string (list Z)) :=
  match keys with
  | [] => Ok public_keys
  | (key_id, public_key) :: keys =>
      if negb (valid_key_id key_id) || negb (Z.of_nat (length public_key) =? 32) ||
         is_some (public_keys !! key_id)
      then Err InvalidConfiguration
      else insert_keys keys (<[key_id := public_key]> public_keys)
  end.

Definition from_ed25519_keys (keys : list (string * list Z)) : Res PolicyTrustStore :=
  let? public_keys := insert_keys keys ∅ in
  if bool_decide (public_keys = ∅)
  then Err InvalidConfiguration
  else Ok {| public_keys := public_keys |}.

Section policy.
Context `{UrlLib} `{Base64Lib} `{PolicyLib}.

Definition hex_sha256 (bytes : list Z) : string := hex_lower (sha256 bytes).

Definition decode_trust_key (key : PolicyTrustKey) : Res (string * list Z) :=
  let? public_key := ok_or (BASE64_decode (tk_public_key_base64 key)) InvalidConfiguration in
  Ok (tk_key_id key, public_key).

Definition from_json (encoded : list Z) : Res PolicyTrustStore :=
  let? bundle := ok_or (trust_bundle_from_slice encoded) InvalidConfiguration in
  if negb (tb_schema_version bundle =? 1) || bool_decide (tb_keys bundle = [])
  then Err InvalidConfiguration
  else
    let? keys := rmapM decode_trust_key (tb_keys bundle) in
    from_ed25519_keys keys.

Definition verify (self : PolicyTrustStore) (encoded : list Z) (now : Z)
  : Res VerifiedNetworkPolicy :=
  let? envelope := ok_or (envelope_from_slice encoded) PolicySignatureInvalid in
  if negb (envelope_version envelope =? SIGNED_POLICY_ENVELOPE_VERSION) ||
     negb (bool_decide (algorithm envelope = SIGNED_POLICY_ALGORITHM)) ||
     negb (valid_key_id (env_key_id envelope))
  then Err PolicySignatureInvalid
  else
    let? public_key := ok_or (public_keys self !! env_key_id envelope) PolicySignatureInvalid in
    let? payload_bytes := ok_or (BASE64_decode (payload_base64 envelope)) PolicySignatureInvalid in
    let? signature := ok_or (BASE64_decode (signature_base64 envelope)) PolicySignatureInvalid in
    let signed := signing_message (env_key_id envelope) (algorithm envelope) payload_bytes in
    ensure (ed25519_verify public_key signed signature) PolicySignatureInvalid ;?
    let? payload := ok_or (payload_from_slice payload_bytes) PolicySignatureInvalid in
    NetworkProfile_validate (pl_profile payload) ;?
    let verified := {|
      vp_key_id := env_key_id envelope;
      vp_envelope_sha256 := hex_sha256 encoded;
      vp_issued_at := pl_issued_at payload;
      vp_expires_at := pl_expires_at payload;
      vp_revision := pl_revision payload;
      vp_profile := pl_profile payload;
    |} in
    validate_at verified now ;?
    Ok verified.

Definition verify_profile (self : PolicyTrustStore) (encoded : list Z) (now : Z)
  : Res NetworkProfile :=
  let? verified := verify self encoded now in Ok (vp_profile verified).
End policy.

(** ** lemmas *)

Lemma is_ascii_alphanumeric_nonzero c : is_ascii_alphanumeric c = true -> byte c <> 0.
Proof.
  unfold is_ascii_alphanumeric, is_ascii_digit, is_ascii_lowercase, is_ascii_uppercase,
    in_range. intros Hc. rewrite !orb_true_iff, !andb_true_iff, !Z.leb_le in Hc.
  change (byte "0") with 48 in Hc. change (byte "9") with 57 in Hc.
  change (byte "a") with 97 in Hc. change (byte "z") with 122 in Hc.
  change (byte "A") with 65 in Hc. change (byte "Z") with 90 in Hc. lia.
Qed.

(** An identifier holds no NUL byte. *)
Lemma id_shape_no_nul s : id_shape s = true -> 0 ∉ as_bytes s.
Proof.
  unfold id_shape, as_bytes. intros Hs. apply andb_true_iff in Hs as [_ Hs].
  apply (all_enumerated_Forall _ (fun c => byte c <> 0)) in Hs.
  - intros (c & Hc & Hin)%list_elem_of_fmap. rewrite Forall_forall in Hs.
    by apply Hs in Hin.
  - intros i c [Hc|[_ Hc]%andb_true_iff]%orb_true_iff;
      [by apply is_ascii_alphanumeric_nonzero|].
    apply one_of_spec in Hc.
    repeat (apply elem_of_cons in Hc as [->|Hc]; [done|]). set_solver.
Qed.

Lemma as_bytes_inj s t : as_bytes s = as_bytes t -> s = t.
Proof.
  unfold as_bytes. intros Hst. apply bytes_inj. revert Hst. generalize (bytes t).
  induction (bytes s) as [|c l IH]; intros [|d m]; cbn; [done..|].
  intros [= Hc Hl]. f_equal; [by apply byte_inj|by apply IH].
Qed.

(** Cutting at the first NUL is unambiguous. *)
Lemma nul_terminated_inj (a b x y : list Z) :
  0 ∉ a -> 0 ∉ b -> a ++ 0 :: x = b ++ 0 :: y -> a = b /\ x = y.
Proof.
  revert b. induction a as [|c a IH]; intros [|d b] Ha Hb; cbn.
  - by intros [= ->].
  - intros [= <- _]. set_solver.
  - intros [= -> _]. set_solver.
  - intros [= -> Heq]. destruct (IH b) as [-> ->]; set_solver.
Qed.

Lemma insert_keys_ok keys m s :
  insert_keys keys m = Ok s <->
  NoDup keys.*1 /\
  Forall (fun '(k, pk) => valid_key_id k = true /\ length pk = 32%nat /\ m !! k = None) keys /\
  s = list_to_map keys ∪ m.
Proof.
  revert m. induction keys as [|[k pk] keys IH]; intros m; cbn.
  - rewrite (left_id_L ∅ (∪)). split; [intros [= ->]|naive_solver]. repeat constructor.
  - rewrite NoDup_cons, Forall_cons. destruct (_ || _) eqn:E.
    + split; [done|]. intros (_ & ((Hk & Hpk & Hm) & _) & _). exfalso.
      rewrite Hk, Hpk, Hm in E. done.
    + reflect_bools. unfold is_some in *.
      assert (m !! k = None) as Hm by (by destruct (m !! k)).
      rewrite IH, !Forall_forall. split.
      * intros (Hnd & Hf & ->). assert (Hk : k ∉ keys.*1).
        { intros ([k' pk'] & -> & Hin)%list_elem_of_fmap. apply Hf in Hin as (_ & _ & Hl).
          cbn in Hl. by simplify_map_eq. }
        rewrite <- insert_union_r by (by apply not_elem_of_list_to_map).
        rewrite <- insert_union_l. split_and!; try done; [lia|].
        intros [k' pk'] Hin. specialize (Hf _ Hin) as (? & ? & Hl).
        apply lookup_insert_None in Hl. naive_solver.
      * intros ((Hk & Hnd) & (_ & Hf) & ->). split_and!; [done| |].
        -- intros [k' pk'] Hin. specialize (Hf _ Hin) as (? & ? & Hl). split_and!; try done.
           rewrite lookup_insert_ne; [done|]. intros ->. apply Hk.
           apply list_elem_of_fmap. by exists (k', pk').
        -- rewrite <- insert_union_r by (by apply not_elem_of_list_to_map).
           by rewrite <- insert_union_l.
Qed.

(** *** hexadecimal digests *)

Definition lower_hex_char (c : ascii) : bool := is_ascii_digit c || in_range "a" "f" c.

Lemma nibble_cases (P : Z -> Prop) :
  Forall P [0;1;2;3;4;5;6;7;8;9;10;11;12;13;14;15] -> forall d, 0 <= d < 16 -> P d.
Proof.
  intros HP d Hd. rewrite Forall_forall in HP. apply HP.
  repeat match goal with |- d ∈ ?k :: _ =>
    destruct (decide (d = k)) as [->|?]; [left|right] end. lia.
Qed.

Lemma hex_char_lower d : 0 <= d < 16 -> lower_hex_char (hex_char d) = true.
Proof.
  revert d. apply (nibble_cases (fun d => lower_hex_char (hex_char d) = true)).
  by repeat constructor.
Qed.

Lemma hex_char_inj d e : 0 <= d < 16 -> 0 <= e < 16 -> hex_char d = hex_char e -> d = e.
Proof.
  intros Hd He. pattern e. apply nibble_cases; [|done]. pattern d. apply nibble_cases; [|done].
  repeat constructor; intros Heq; first [done|discriminate Heq].
Qed.

Lemma hex_lower_spec l :
  Forall (fun b => 0 <= b <= 255) l ->
  len (hex_lower l) = 2 * Z.of_nat (length l) /\ all_bytes lower_hex_char (hex_lower l) = true.
Proof.
  unfold hex_lower, len, all_bytes. rewrite bytes_str.
  induction 1 as [|b l Hb Hl [IH1 IH2]]; [done|]. cbn [flat_map hex_byte app length forallb].
  split; [lia|]. rewrite IH2, !hex_char_lower; [done|apply Z.mod_pos_bound; lia|].
  split; [apply Z.div_pos; lia|apply Z.div_lt_upper_bound; lia].
Qed.

Lemma hex_lower_inj l m :
  Forall (fun b => 0 <= b <= 255) l -> Forall (fun b => 0 <= b <= 255) m ->
  hex_lower l = hex_lower m -> l = m.
Proof.
  unfold hex_lower. intros Hl Hm Heq. apply (f_equal bytes) in Heq. rewrite !bytes_str in Heq.
  revert m Hm Heq. induction Hl as [|b l Hb Hl IH]; intros m Hm Heq;
    destruct Hm as [|b' m Hb' Hm]; [done..|].
  cbn in Heq. injection Heq as Hhi Hlo Heq.
  assert (0 <= b / 16 < 16) by (split; [apply Z.div_pos|apply Z.div_lt_upper_bound]; lia).
  assert (0 <= b' / 16 < 16) by (split; [apply Z.div_pos|apply Z.div_lt_upper_bound]; lia).
  apply hex_char_inj in Hhi; [|done..].
  apply hex_char_inj in Hlo; [|apply Z.mod_pos_bound; lia..].
  rewrite (Z_div_mod_eq_full b 16), (Z_div_mod_eq_full b' 16), Hhi, Hlo.
  f_equal. by apply IH.
Qed.

(** ** theorems *)

Section theorems.
Context `{UrlLib} `{Base64Lib} `{PolicyLib}.

(** The bytes a key has to have signed: the domain tag, the key id and the algorithm,
    each ended by a NUL, then the payload; written out, not through [signing_message].
    The tag is the ASCII of kyclash-policy-envelope-v2, the algorithm that of ed25519. *)
Definition policy_message (key_id : string) (payload : list Z) : list Z :=
  [107; 121; 99; 108; 97; 115; 104; 45; 112; 111; 108; 105; 99; 121; 45;
   101; 110; 118; 101; 108; 111; 112; 101; 45; 118; 50; 0] ++
  map byte (bytes key_id) ++ [0] ++
  [101; 100; 50; 53; 53; 49; 57; 0] ++ payload.

(** The envelope is signed by a key of the store, and [v] is what it signs. *)
Record authentic (store : PolicyTrustStore) (encoded : list Z) (v : VerifiedNetworkPolicy)
    (payload_bytes : list Z) : Prop := {
  au_signed : exists e pk signature, envelope_from_slice encoded = Some e /\
    envelope_version e = 2 /\ algorithm e = "ed25519"%string /\ env_key_id e = vp_key_id v /\
    BASE64_decode (payload_base64 e) = Some payload_bytes /\
    BASE64_decode (signature_base64 e) = Some signature /\
    public_keys store !! vp_key_id v = Some pk /\
    ed25519_verify pk (policy_message (vp_key_id v) payload_bytes) signature = true;
  au_key_id : id_shape (vp_key_id v) = true;
  au_payload : payload_from_slice payload_bytes =
    Some {| pl_issued_at := vp_issued_at v; pl_expires_at := vp_expires_at v;
            pl_revision := vp_revision v; pl_profile := vp_profile v |};
  au_digest : vp_envelope_sha256 v = hex_lower (sha256 encoded);
}.

(** Issued, not expired, and numbered from one. *)
Definition in_force (v : VerifiedNetworkPolicy) (now : Z) : Prop :=
  vp_revision v <> 0 /\ vp_issued_at v <= now < vp_expires_at v.

Lemma validate_at_in_force v now : validate_at v now = Ok tt <-> in_force v now.
Proof.
  unfold validate_at, in_force. case_match eqn:E.
  - split; [done|]. intros Hv. exfalso.
    rewrite !orb_true_iff, Z.eqb_eq, Z.ltb_lt, !Z.leb_le in E. lia.
  - reflect_bools. split; [|done]. intros _. lia.
Qed.

Lemma signing_message_layout key_id payload :
  signing_message key_id "ed25519" payload = policy_message key_id payload.
Proof. reflexivity. Qed.

Lemma verify_ok store encoded now v :
  verify store encoded now = Ok v <->
  (exists payload_bytes, authentic store encoded v payload_bytes) /\
  NetworkProfile_validate (vp_profile v) = Ok tt /\ in_force v now.
Proof.
  rewrite <- validate_at_in_force. unfold verify. rewrite rbind_ok. setoid_rewrite ok_or_ok. split.
  - intros (e & He & Hv). destruct (_ || _) eqn:Hg; [done|]. reflect_bools.
    unfold SIGNED_POLICY_ALGORITHM in *. peel_ok Hv. injection Hv as <-. split_and!; [|done..].
    match goal with Ha : algorithm e = _ |- _ => rewrite Ha, signing_message_layout in * end.
    match goal with Hp : payload_from_slice _ = Some ?pl |- _ => destruct pl end.
    eexists. constructor; [|done..]. by do 3 eexists.
  - intros [(pb & Ha) [Hprof Hval]].
    destruct Ha as [(e & pk & sg & He & Hver & Halg & Hid & Hpb & Hsg & Hpk & Hsig) Hk Hpl Hdig].
    exists e. split; [done|]. rewrite Hver, Halg, Hid. unfold valid_key_id. rewrite Hk.
    cbn [negb orb]. rewrite Hpk, Hpb, Hsg. cbn [rbind ok_or].
    unfold SIGNED_POLICY_ALGORITHM. rewrite signing_message_layout, Hsig.
    cbn [rbind ensure]. rewrite Hpl. cbn [rbind ok_or pl_profile]. rewrite Hprof.
    unfold hex_sha256. rewrite <- Hdig. destruct v. cbn in *. by rewrite Hval.
Qed.

(** A refusal says no more than that, unless the signature was good. *)
Lemma verify_err store encoded now e :
  verify store encoded now = Err e ->
  e = PolicySignatureInvalid \/
  exists v payload_bytes, authentic store encoded v payload_bytes /\
    NetworkProfile_validate (vp_profile v) = Err e.
Proof.
  unfold verify. destruct (envelope_from_slice encoded) as [env|] eqn:He; cbn [rbind ok_or];
    [|intros [= <-]; by left].
  destruct (_ || _) eqn:Hg; [intros [= <-]; by left|]. reflect_bools.
  unfold SIGNED_POLICY_ALGORITHM in *.
  destruct (public_keys store !! _) as [pk|] eqn:Hpk; cbn [rbind ok_or]; [|intros [= <-]; by left].
  destruct (BASE64_decode (payload_base64 env)) as [pb|] eqn:Hpb; cbn [rbind ok_or];
    [|intros [= <-]; by left].
  destruct (BASE64_decode (signature_base64 env)) as [sg|] eqn:Hsg; cbn [rbind ok_or];
    [|intros [= <-]; by left].
  destruct (ed25519_verify _ _ _) eqn:Hsig; cbn [rbind ensure]; [|intros [= <-]; by left].
  destruct (payload_from_slice pb) as [pl|] eqn:Hpl; cbn [rbind ok_or]; [|intros [= <-]; by left].
  destruct (NetworkProfile_validate (pl_profile pl)) as [[]|e'] eqn:Hprof; cbn [rbind].
  - destruct (validate_at _ now) as [[]|e''] eqn:Hv; cbn [rbind]; [done|]. intros [= <-]. left.
    unfold validate_at in Hv. case_match; congruence.
  - intros [= <-]. right.
    exists {| vp_key_id := env_key_id env; vp_envelope_sha256 := hex_sha256 encoded;
              vp_issued_at := pl_issued_at pl; vp_expires_at := pl_expires_at pl;
              vp_revision := pl_revision pl; vp_profile := pl_profile pl |}, pb.
    match goal with Ha : algorithm env = _ |- _ => rewrite Ha, signing_message_layout in Hsig end.
    split; [|done]. constructor; [by do 3 eexists|done|by destruct pl|done].
Qed.

Lemma policy_message_inj k1 p1 k2 p2 :
  id_shape k1 = true -> id_shape k2 = true ->
  policy_message k1 p1 = policy_message k2 p2 -> k1 = k2 /\ p1 = p2.
Proof.
  intros Hk1 Hk2 Heq. unfold policy_message in Heq. apply app_inv_head in Heq. cbn [app] in Heq.
  apply nul_terminated_inj in Heq as [Hk Heq]; [|by apply id_shape_no_nul..].
  injection Heq as Hp. split; [by apply as_bytes_inj|done].
Qed.

(** C10: verify accepts an envelope exactly when it is authentic (a supported
    version and algorithm, a trusted key, canonical base64, a signature by that
    key over the domain-separated message, a payload of a valid profile) and the
    policy is in its validity window, and it answers exactly the signed fields
    and the digest of the bytes received. *)
Theorem verify_accepts_exactly_authentic store encoded now :
  (forall v, verify store encoded now = Ok v <->
     (exists payload_bytes, authentic store encoded v payload_bytes) /\
     NetworkProfile_validate (vp_profile v) = Ok tt /\
     vp_revision v <> 0 /\ vp_issued_at v <= now < vp_expires_at v) /\
  (forall e, verify store encoded now = Err e ->
     e = PolicySignatureInvalid \/
     exists v payload_bytes, authentic store encoded v payload_bytes /\
       NetworkProfile_validate (vp_profile v) = Err e) /\
  (forall v store' encoded' v' payload payload',
     authentic store encoded v payload -> authentic store' encoded' v' payload' ->
     policy_message (vp_key_id v) payload = policy_message (vp_key_id v') payload' ->
     vp_key_id v = vp_key_id v' /\ vp_revision v = vp_revision v' /\
     vp_issued_at v = vp_issued_at v' /\ vp_expires_at v = vp_expires_at v' /\
     vp_profile v = vp_profile v').
Proof.
  split_and!; [apply verify_ok|apply verify_err|].
  intros v store' encoded' v' pb pb' [_ Hk Hpl _] [_ Hk' Hpl' _] Heq.
  apply policy_message_inj in Heq as [Hid ->]; [|done..]. rewrite Hpl in Hpl'.
  injection Hpl' as Hi Hx Hr Hp. by split_and!.
Qed.

(** The signed message determines what it signs: two messages with valid key ids are
    equal only for the same key id and the same payload bytes. *)
Theorem signing_message_unambiguous k1 a1 p1 k2 a2 p2 :
  valid_key_id k1 = true -> valid_key_id k2 = true ->
  a1 = SIGNED_POLICY_ALGORITHM -> a2 = SIGNED_POLICY_ALGORITHM ->
  signing_message k1 a1 p1 = signing_message k2 a2 p2 -> k1 = k2 /\ p1 = p2.
Proof.
  intros Hk1 Hk2 -> -> Heq. unfold signing_message in Heq.
  apply app_inv_head, app_inv_head in Heq. cbn [app] in Heq.
  apply nul_terminated_inj in Heq as [Hk Heq]; [|by apply id_shape_no_nul..].
  apply app_inv_head in Heq. injection Heq as Hp. split; [by apply as_bytes_inj|done].
Qed.

(** A trust store is built exactly from a non-empty list of distinct valid key ids with
    32-byte keys, and then holds exactly these keys. *)
Theorem trust_store_holds_given_keys keys store :
  from_ed25519_keys keys = Ok store <->
  keys <> [] /\ NoDup keys.*1 /\
  Forall (fun '(k, pk) => valid_key_id k = true /\ length pk = 32%nat) keys /\
  public_keys store = list_to_map keys.
Proof.
  unfold from_ed25519_keys. rewrite rbind_ok. setoid_rewrite insert_keys_ok.
  setoid_rewrite (right_id_L ∅ (∪)).
  assert (Hemp : list_to_map keys = (∅ : gmap string (list Z)) <-> keys = []).
  { destruct keys as [|[k pk] keys]; [done|]. cbn. split; [|done].
    intros E%(f_equal (lookup k)). by rewrite lookup_insert_eq in E. }
  setoid_rewrite Forall_forall. split.
  - intros (m & (Hnd & Hf & ->) & Hs). case_bool_decide; [done|]. injection Hs as <-.
    split_and!; [naive_solver|done| |done]. intros [k pk] Hin. by destruct (Hf _ Hin) as (?&?&?).
  - intros (Hne & Hnd & Hf & Hs). exists (list_to_map keys). split_and!; [done| |done|].
    + intros [k pk] Hin. destruct (Hf _ Hin). split_and!; [done|done|apply lookup_empty].
    + rewrite bool_decide_false by naive_solver. destruct store. cbn in *. by subst.
Qed.

(** The digest text of an envelope is 64 lower-case hexadecimal characters and names the
    hash: two envelopes with the same text have the same SHA-256 value. *)
Theorem envelope_digest_faithful e1 e2 :
  Forall (fun b => 0 <= b <= 255) (sha256 e1) -> Forall (fun b => 0 <= b <= 255) (sha256 e2) ->
  length (sha256 e1) = 32%nat ->
  len (hex_sha256 e1) = 64 /\ all_bytes lower_hex_char (hex_sha256 e1) = true /\
  (hex_sha256 e1 = hex_sha256 e2 -> sha256 e1 = sha256 e2).
Proof.
  intros Hb1 Hb2 Hlen. unfold hex_sha256. destruct (hex_lower_spec _ Hb1) as [Hl Ha].
  rewrite Hl, Hlen. split_and!; [done|done|]. by apply hex_lower_inj.
Qed.
End theorems.
