(* ===== verification/PolicyIdentity.v ===== *)
(** * PolicyIdentity: the durable record of the accepted policy

    [src-tauri/src/networking/policy_identity_store.rs]: a transaction locks the
    store, reads the record of the last accepted policy, classifies a candidate
    against it and publishes the new record with an atomic rename.  The system
    calls are a parameter ([Posix]) whose documented effects are the laws of
    [PosixLaws]; every call may fail.  The model is the unix implementation in a
    production build, where [fault_injected] is the constant [false]; closing a
    descriptor is not represented.  The last section shows that the wait for the
    lock ends. *)

From Stdlib Require Import Ascii String.
From S2P Require Import Prelude Text NetState.

Definition NETWORKING_DIRECTORY_NAME : string := "networking".
Definition RECORD_FILE_NAME : string := "policy-revision.json".
Definition LOCK_FILE_NAME : string := "policy-revision.lock".
Definition RECORD_SCHEMA_VERSION : Z := 2.
Definition RECORD_MAX_BYTES : Z := 4 * 1024.
(** Durations are in nanoseconds. *)
Definition DEFAULT_LOCK_TIMEOUT : Z := 2 * 1000000000.

(** ** candidates and decisions *)

Definition valid_digest (value : string) : bool :=
  (len value =? 64) &&
  all_bytes (fun b => is_ascii_digit b || in_range "a" "f" b) value.

Definition valid_key_id (value : string) : bool := id_shape value.

Record PolicyIdentityCandidate := {
  revision : Z;
  envelope_sha256 : string;
  key_id : string;
  issued_at : Z;
  expires_at : Z;
}.

Definition validate_shape (self : PolicyIdentityCandidate) : Res unit :=
  if (revision self =? 0) || (expires_at self <=? issued_at self) ||
     negb (valid_digest (envelope_sha256 self)) || negb (valid_key_id (key_id self))
  then Err PolicySignatureInvalid
  else Ok tt.

Definition PolicyIdentityCandidate_new (revision : Z) (envelope_sha256 key_id : string)
    (issued_at expires_at : Z) : Res PolicyIdentityCandidate :=
  let candidate := {|
    revision := revision; envelope_sha256 := envelope_sha256; key_id := key_id;
    issued_at := issued_at; expires_at := expires_at |} in
  validate_shape candidate ;?
  Ok candidate.

Definition validate_at (self : PolicyIdentityCandidate) (now : Z) : Res unit :=
  validate_shape self ;?
  if (now <? issued_at self) || (expires_at self <=? now)
  then Err PolicySignatureInvalid
  else Ok tt.

Inductive PolicyIdentityDecision : Type :=
| New
| Advance (previous_revision : Z) (legacy : bool)
| Idempotent
| Reject.

#[global] Instance PolicyIdentityDecision_eq_dec : EqDecision PolicyIdentityDecision.
Proof. solve_decision. Defined.

(** ** the operating system *)

Record Stat := {
  st_dev : Z; st_ino : Z; st_mode : Z; st_uid : Z; st_nlink : Z; st_size : Z;
  st_mtime : Z; st_mtime_nsec : Z; st_ctime : Z; st_ctime_nsec : Z;
}.

Record DirectoryIdentity := { device : Z; inode : Z }.

#[global] Instance DirectoryIdentity_eq_dec : EqDecision DirectoryIdentity.
Proof. solve_decision. Defined.

Record FileIdentity := {
  fi_device : Z; fi_inode : Z; fi_length : Z;
  fi_modified_seconds : Z; fi_modified_nanoseconds : Z;
  fi_changed_seconds : Z; fi_changed_nanoseconds : Z;
}.

#[global] Instance FileIdentity_eq_dec : EqDecision FileIdentity.
Proof. solve_decision. Defined.

(** The error numbers the code tells apart ([EAGAIN] is [EWOULDBLOCK]). *)
Inductive Errno : Type := EEXIST | ENOENT | EINTR | EWOULDBLOCK | EOTHER.

#[global] Instance Errno_eq_dec : EqDecision Errno.
Proof. solve_decision. Defined.

Inductive OpenFlag : Type :=
| O_RDONLY | O_WRONLY | O_RDWR | O_CREAT | O_EXCL
| O_DIRECTORY | O_NOFOLLOW | O_CLOEXEC | O_NONBLOCK.

#[global] Instance OpenFlag_eq_dec : EqDecision OpenFlag.
Proof. solve_decision. Defined.

Inductive RenameFlags : Type := EXCHANGE | NOREPLACE.

(** [libc], [rustix], [ring]'s random source, the clock and [std::fs::File]; a
    [File] is an owned open file. *)
Class Posix (W : Type) := {
  File : Type;
  sys_open : string -> list OpenFlag -> M W Errno File;
  sys_openat : File -> string -> list OpenFlag -> Z -> M W Errno File;
  sys_mkdirat : File -> string -> Z -> M W Errno unit;
  sys_fsync : File -> M W Errno unit;
  sys_fchmod : File -> Z -> M W Errno unit;
  sys_flock_ex_nb : File -> M W Errno unit;
  sys_fstat : File -> M W Errno Stat;
  sys_take_read_to_end : File -> Z -> M W Errno (list Z);
  sys_write_all : File -> list Z -> M W Errno unit;
  sys_sync_all : File -> M W Errno unit;
  sys_renameat_with : File -> string -> File -> string -> RenameFlags -> M W Errno unit;
  sys_fill : M W Errno (list Z);
  sys_now : M W Errno Z;
  sys_sleep : Z -> M W Errno unit;
  instant_checked_add : Z -> Z -> option Z;
  sys_geteuid : Z;
  sys_process_id : Z;
}.

(** ** records *)

Record LegacyRecord := { lr_schema_version : Z; lr_revision : Z }.

Record IdentityRecord := {
  ir_schema_version : Z;
  ir_revision : Z;
  ir_envelope_sha256 : string;
  ir_key_id : string;
}.

Inductive StoredRecord : Type :=
| Legacy (record : LegacyRecord)
| Identity (record : IdentityRecord).

Inductive RecordSnapshot : Type :=
| Missing
| Present (bytes : list Z) (identity : FileIdentity).

#[global] Instance RecordSnapshot_eq_dec : EqDecision RecordSnapshot.
Proof. solve_decision. Defined.

(** [serde_json] at the three record types ([VersionProbe] is its one field). *)
Class RecordCodec := {
  probe_from_slice : list Z -> option Z;
  legacy_from_slice : list Z -> option LegacyRecord;
  identity_from_slice : list Z -> option IdentityRecord;
  identity_to_vec : IdentityRecord -> option (list Z);
}.

Definition parse_record `{RecordCodec} (snapshot : RecordSnapshot) : Res (option StoredRecord) :=
  match snapshot with
  | Missing => Ok None
  | Present bytes _ =>
      let? version := ok_or (probe_from_slice bytes) PolicySignatureInvalid in
      if version =? 1 then
        let? record := ok_or (legacy_from_slice bytes) PolicySignatureInvalid in
        if negb (lr_schema_version record =? 1) || (lr_revision record =? 0)
        then Err PolicySignatureInvalid
        else Ok (Some (Legacy record))
      else if version =? RECORD_SCHEMA_VERSION then
        let? record := ok_or (identity_from_slice bytes) PolicySignatureInvalid in
        if negb (ir_schema_version record =? RECORD_SCHEMA_VERSION) || (ir_revision record =? 0) ||
           negb (valid_digest (ir_envelope_sha256 record)) || negb (valid_key_id (ir_key_id record))
        then Err PolicySignatureInvalid
        else Ok (Some (Identity record))
      else Err PolicySignatureInvalid
  end.

(** ** status of files *)

Definition S_IFMT : Z := 61440.   (* 0o170000 *)
Definition S_IFDIR : Z := 16384.  (* 0o040000 *)
Definition S_IFREG : Z := 32768.  (* 0o100000 *)

Definition modified_seconds (status : Stat) : Z := st_mtime status.
Definition modified_nanoseconds (status : Stat) : Z := st_mtime_nsec status.
Definition changed_seconds (status : Stat) : Z := st_ctime status.
Definition changed_nanoseconds (status : Stat) : Z := st_ctime_nsec status.

Definition directory_identity (status : Stat) : DirectoryIdentity :=
  {| device := st_dev status; inode := st_ino status |}.

Definition file_identity (status : Stat) : FileIdentity := {|
  fi_device := st_dev status;
  fi_inode := st_ino status;
  fi_length := st_size status;
  fi_modified_seconds := modified_seconds status;
  fi_modified_nanoseconds := modified_nanoseconds status;
  fi_changed_seconds := changed_seconds status;
  fi_changed_nanoseconds := changed_nanoseconds status;
|}.

Definition retired_identity_matches (status : Stat) (identity : FileIdentity) : bool :=
  (st_dev status =? fi_device identity) && (st_ino status =? fi_inode identity) &&
  (st_size status =? fi_length identity) &&
  (modified_seconds status =? fi_modified_seconds identity) &&
  (modified_nanoseconds status =? fi_modified_nanoseconds identity).

(** [usize::try_from] of a signed size. *)
Definition usize_try_from (n : Z) : option Z := if 0 <=? n then Some n else None.

Definition contains_nul (value : string) : bool := any_byte (fun b => byte b =? 0) value.

Definition cstring (value : string) : Res string :=
  if contains_nul value then Err InvalidConfiguration else Ok value.

Record FilePolicyIdentityStore := {
  app_data_root : string;
  lock_timeout : Z;
}.

(** [Path::is_absolute] on unix: the path starts at the root. *)
Definition FilePolicyIdentityStore_new (app_data_root : string) : Res FilePolicyIdentityStore :=
  if negb (starts_with app_data_root "/") then Err InvalidConfiguration
  else Ok {| app_data_root := app_data_root; lock_timeout := DEFAULT_LOCK_TIMEOUT |}.

(** The process: the world outside and the counter of temporary names. *)
Record Proc (W : Type) := {
  world : W;
  TEMPORARY_SEQUENCE : Z;
}.
Arguments world {W} _.
Arguments TEMPORARY_SEQUENCE {W} _.
Arguments Build_Proc {W} _ _.

Section store.
Context {W : Type} `{Posix W} `{RecordCodec}.
Notation PM A := (Meth (Proc W) A).

(** A system call whose error is inspected. *)
Definition call {A} (m : M W Errno A) : PM (result A Errno) := fun p =>
  let (r, w) := m (world p) in (Ok r, Build_Proc w (TEMPORARY_SEQUENCE p)).

(** A system call whose error becomes [PolicySignatureInvalid]. *)
Definition sys {A} (m : M W Errno A) : PM A :=
  let! r := call m in
  lift (map_err (fun _ => PolicySignatureInvalid) r).

(** [if cond { return Err(PolicySignatureInvalid) }]. *)
Definition guard (b : bool) : PM unit := lift (ensure b PolicySignatureInvalid).

Definition fstat (f : File) : PM Stat := sys (sys_fstat f).
Definition fsync (f : File) : PM unit := sys (sys_fsync f).

Definition validate_directory (status : Stat) (leaf : bool) : Res unit :=
  let mode := Z.land (st_mode status) S_IFMT in
  let permissions := Z.land (st_mode status) 511 in
  if negb (mode =? S_IFDIR) || negb (st_uid status =? sys_geteuid) ||
     negb (Z.land permissions 18 =? 0) ||
     (leaf && negb (Z.land permissions 448 =? 448))
  then Err PolicySignatureInvalid
  else Ok tt.

Definition validate_private_regular (status : Stat) : Res unit :=
  if negb (Z.land (st_mode status) S_IFMT =? S_IFREG) || negb (st_uid status =? sys_geteuid) ||
     negb (st_nlink status =? 1) || negb (Z.land (st_mode status) 511 =? 384)
  then Err PolicySignatureInvalid
  else Ok tt.

Definition open_directory_path (path : string) : PM File :=
  let! encoded := lift (cstring path) in
  sys (sys_open encoded [O_RDONLY; O_DIRECTORY; O_NOFOLLOW; O_CLOEXEC; O_NONBLOCK]).

Definition open_directory_at (parent : File) (name : string) : PM File :=
  sys (sys_openat parent name [O_RDONLY; O_DIRECTORY; O_NOFOLLOW; O_CLOEXEC; O_NONBLOCK] 0).

Definition open_regular_at (parent : File) (name : string) (access : OpenFlag) : PM File :=
  sys (sys_openat parent name [access; O_NOFOLLOW; O_CLOEXEC; O_NONBLOCK] 0).

Definition open_lock_file (networking : File) : PM File :=
  let! name := lift (cstring LOCK_FILE_NAME) in
  let create_flags := [O_RDWR; O_CREAT; O_EXCL; O_NOFOLLOW; O_CLOEXEC; O_NONBLOCK] in
  let! descriptor := call (sys_openat networking name create_flags 384) in
  let! (file, created) :=
    match descriptor with
    | Ok file => ret (file, true)
    | Err EEXIST =>
        let! existing := sys (sys_openat networking name
          [O_RDWR; O_NOFOLLOW; O_CLOEXEC; O_NONBLOCK] 0) in
        ret (existing, false)
    | Err _ => raise PolicySignatureInvalid
    end in
  (if created : bool then
     sys (sys_fchmod file 384) ;!
     sys (sys_sync_all file) ;!
     fsync networking
   else ret tt) ;!
  let! status := fstat file in
  lift (validate_private_regular status) ;!
  ret file.

(** The body of the loop: [Some] leaves it. *)
Definition try_lock (file : File) (deadline : Z) : PM (option unit) :=
  let! locked := call (sys_flock_ex_nb file) in
  match locked with
  | Ok _ => ret (Some tt)
  | Err EINTR =>
      let! now := sys sys_now in
      guard (negb (deadline <=? now)) ;!
      ret None
  | Err EWOULDBLOCK =>
      let! now := sys sys_now in
      guard (negb (deadline <=? now)) ;!
      sys (sys_sleep (5 * 1000000)) ;!
      ret None
  | Err _ => raise PolicySignatureInvalid
  end.

(** [None]: the loop was still waiting when the fuel ran out. *)
Fixpoint lock_loop (fuel : nat) (file : File) (deadline : Z) : PM (option unit) :=
  match fuel with
  | O => ret None
  | S fuel =>
      let! outcome := try_lock file deadline in
      match outcome with
      | Some _ => ret (Some tt)
      | None => lock_loop fuel file deadline
      end
  end.

Definition acquire_lock (fuel : nat) (file : File) (timeout : Z) : PM (option unit) :=
  let! now := sys sys_now in
  let! deadline :=
    match instant_checked_add now timeout with
    | Some deadline => ret deadline
    | None => sys sys_now
    end in
  lock_loop fuel file deadline.

Definition read_record_snapshot (networking : File) : PM RecordSnapshot :=
  let! name := lift (cstring RECORD_FILE_NAME) in
  let! descriptor := call (sys_openat networking name
    [O_RDONLY; O_NOFOLLOW; O_CLOEXEC; O_NONBLOCK] 0) in
  match descriptor with
  | Err ENOENT => ret Missing
  | Err _ => raise PolicySignatureInvalid
  | Ok file =>
      let! before := fstat file in
      lift (validate_private_regular before) ;!
      let! expected_len := lift (ok_or (usize_try_from (st_size before)) PolicySignatureInvalid) in
      guard (negb ((expected_len =? 0) || (RECORD_MAX_BYTES <? expected_len))) ;!
      let! bytes := sys (sys_take_read_to_end file (RECORD_MAX_BYTES + 1)) in
      let! after := fstat file in
      guard (negb (
        negb (st_dev before =? st_dev after)
        || negb (st_ino before =? st_ino after)
        || negb (st_size before =? st_size after)
        || negb (modified_seconds before =? modified_seconds after)
        || negb (modified_nanoseconds before =? modified_nanoseconds after)
        || negb (changed_seconds before =? changed_seconds after)
        || negb (changed_nanoseconds before =? changed_nanoseconds after)
        || negb (Z.of_nat (length bytes) =? expected_len)
        || (RECORD_MAX_BYTES <? Z.of_nat (length bytes)))) ;!
      ret (Present bytes (file_identity before))
  end.

Definition verify_named_private_content (networking : File) (name : string)
    (expected_identity : DirectoryIdentity) (expected_bytes : list Z) : PM unit :=
  let! file := open_regular_at networking name O_RDONLY in
  let! before := fstat file in
  lift (validate_private_regular before) ;!
  guard (negb (
    negb (bool_decide (directory_identity before = expected_identity))
    || negb (bool_decide (usize_try_from (st_size before) =
                          Some (Z.of_nat (length expected_bytes))))
    || (RECORD_MAX_BYTES <? Z.of_nat (length expected_bytes)))) ;!
  let! bytes := sys (sys_take_read_to_end file (RECORD_MAX_BYTES + 1)) in
  let! after := fstat file in
  lift (validate_private_regular after) ;!
  guard (negb (
    negb (bool_decide (directory_identity after = expected_identity))
    || negb (st_size before =? st_size after)
    || negb (modified_seconds before =? modified_seconds after)
    || negb (modified_nanoseconds before =? modified_nanoseconds after)
    || negb (changed_seconds before =? changed_seconds after)
    || negb (changed_nanoseconds before =? changed_nanoseconds after)
    || negb (bool_decide (bytes = expected_bytes)))).

Definition hex_digit (d : Z) : ascii :=
  if d <? 10 then ascii_of_N (Z.to_N (48 + d)) else ascii_of_N (Z.to_N (87 + d)).

(** [format!("{byte:02x}")] over the entropy. *)
Definition entropy_suffix (entropy : list Z) : string :=
  str (flat_map (fun b => [hex_digit (b / 16); hex_digit (b mod 16)]) entropy).

Definition random_temporary_name : PM string :=
  let! p := get in
  let sequence := TEMPORARY_SEQUENCE p in
  modify (fun p => Build_Proc (world p) ((sequence + 1) mod 2 ^ 64)) ;!
  let! entropy := sys sys_fill in
  lift (cstring (String.append ".policy-revision."
    (String.append (print_uint sys_process_id)
      (String.append "."
        (String.append (print_uint sequence)
          (String.append "."
            (String.append (entropy_suffix entropy) ".tmp"))))))).

(** The build for Apple, Linux and Android. *)
Definition publish_record (networking : File) (temporary_name record_name : string)
    (replacing : bool) : PM unit :=
  let flags := if replacing then EXCHANGE else NOREPLACE in
  sys (sys_renameat_with networking temporary_name networking record_name flags).

Definition verify_retired_snapshot (networking : File) (temporary_name : string)
    (snapshot : RecordSnapshot) : PM unit :=
  match snapshot with
  | Missing => raise PolicySignatureInvalid
  | Present bytes identity =>
      let! retired := open_regular_at networking temporary_name O_RDONLY in
      let! retired_status := fstat retired in
      lift (validate_private_regular retired_status) ;!
      guard (retired_identity_matches retired_status identity) ;!
      verify_named_private_content networking temporary_name
        {| device := fi_device identity; inode := fi_inode identity |} bytes
  end.

Definition rollback_publication (networking : File) (temporary_name record_name : string)
    (previous_snapshot : RecordSnapshot) : PM unit :=
  match previous_snapshot with
  | Present _ _ =>
      sys (sys_renameat_with networking temporary_name networking record_name EXCHANGE) ;!
      fsync networking ;!
      verify_retired_snapshot networking record_name previous_snapshot
  | Missing =>
      let! quarantine_name := random_temporary_name in
      sys (sys_renameat_with networking record_name networking quarantine_name NOREPLACE) ;!
      fsync networking ;!
      let! snapshot := read_record_snapshot networking in
      guard (bool_decide (snapshot = Missing))
  end.

(** From the verified temporary file to the verified record. *)
Definition publish_verified (networking : File) (temporary_name : string)
    (identity : DirectoryIdentity) (bytes : list Z) (previous_snapshot : RecordSnapshot)
    (before_report : PM unit) : PM unit :=
  let! record_name := lift (cstring RECORD_FILE_NAME) in
  let replacing := match previous_snapshot with Present _ _ => true | Missing => false end in
  publish_record networking temporary_name record_name replacing ;!
  let! retired :=
    if replacing
    then attempt (verify_retired_snapshot networking temporary_name previous_snapshot)
    else ret (Ok tt) in
  if negb (is_ok retired) then
    rollback_publication networking temporary_name record_name previous_snapshot ;!
    raise PolicySignatureInvalid
  else
    let! published := attempt (verify_named_private_content networking record_name identity bytes) in
    if negb (is_ok published) then
      rollback_publication networking temporary_name record_name previous_snapshot ;!
      raise PolicySignatureInvalid
    else
      fsync networking ;!
      verify_named_private_content networking record_name identity bytes ;!
      before_report ;!
      verify_named_private_content networking record_name identity bytes.

Definition record_of_candidate (candidate : PolicyIdentityCandidate) : IdentityRecord := {|
  ir_schema_version := RECORD_SCHEMA_VERSION;
  ir_revision := revision candidate;
  ir_envelope_sha256 := envelope_sha256 candidate;
  ir_key_id := key_id candidate;
|}.

Definition write_identity_record (networking : File) (candidate : PolicyIdentityCandidate)
    (previous_snapshot : RecordSnapshot) (before_rename before_report : PM unit) : PM unit :=
  let! encoded := lift (ok_or (identity_to_vec (record_of_candidate candidate))
                          PolicySignatureInvalid) in
  let bytes := encoded ++ [10] in
  guard (negb (RECORD_MAX_BYTES <? Z.of_nat (length bytes))) ;!
  let! temporary_name := random_temporary_name in
  let! temporary := sys (sys_openat networking temporary_name
    [O_WRONLY; O_CREAT; O_EXCL; O_NOFOLLOW; O_CLOEXEC; O_NONBLOCK] 384) in
  sys (sys_fchmod temporary 384) ;!
  let! created_stat := fstat temporary in
  lift (validate_private_regular created_stat) ;!
  let identity := directory_identity created_stat in
  sys (sys_write_all temporary bytes) ;!
  sys (sys_sync_all temporary) ;!
  let! synchronized_stat := fstat temporary in
  lift (validate_private_regular synchronized_stat) ;!
  guard (bool_decide (directory_identity synchronized_stat = identity)) ;!
  verify_named_private_content networking temporary_name identity bytes ;!
  before_rename ;!
  verify_named_private_content networking temporary_name identity bytes ;!
  publish_verified networking temporary_name identity bytes previous_snapshot before_report.

(** ** transactions *)

Record PolicyIdentityTransaction := {
  app_data_path : string;
  app_data : File;
  app_data_identity : DirectoryIdentity;
  networking : File;
  networking_identity : DirectoryIdentity;
  lock : File;
  lock_identity : DirectoryIdentity;
  snapshot : RecordSnapshot;
  stored : option StoredRecord;
  candidate : option PolicyIdentityCandidate;
  decision : option PolicyIdentityDecision;
}.

Definition ensure_attached (transaction : PolicyIdentityTransaction) : PM unit :=
  let! current_root := open_directory_path (app_data_path transaction) in
  let! root_stat := fstat current_root in
  lift (validate_directory root_stat false) ;!
  guard (bool_decide (directory_identity root_stat = app_data_identity transaction)) ;!
  let! networking_name := lift (cstring NETWORKING_DIRECTORY_NAME) in
  let! current_leaf := open_directory_at (app_data transaction) networking_name in
  let! leaf_stat := fstat current_leaf in
  lift (validate_directory leaf_stat true) ;!
  guard (bool_decide (directory_identity leaf_stat = networking_identity transaction)) ;!
  let! held_lock_stat := fstat (lock transaction) in
  lift (validate_private_regular held_lock_stat) ;!
  guard (bool_decide (directory_identity held_lock_stat = lock_identity transaction)) ;!
  let! lock_name := lift (cstring LOCK_FILE_NAME) in
  let! named_lock := open_regular_at (networking transaction) lock_name O_RDONLY in
  let! named_lock_stat := fstat named_lock in
  lift (validate_private_regular named_lock_stat) ;!
  guard (bool_decide (directory_identity named_lock_stat = lock_identity transaction)).

Definition with_record (snapshot : RecordSnapshot) (stored : option StoredRecord)
    (t : PolicyIdentityTransaction) : PolicyIdentityTransaction := {|
  app_data_path := app_data_path t; app_data := app_data t;
  app_data_identity := app_data_identity t;
  networking := networking t; networking_identity := networking_identity t;
  lock := lock t; lock_identity := lock_identity t;
  snapshot := snapshot; stored := stored;
  candidate := candidate t; decision := decision t;
|}.

Definition with_decision (c : PolicyIdentityCandidate) (d : PolicyIdentityDecision)
    (t : PolicyIdentityTransaction) : PolicyIdentityTransaction := {|
  app_data_path := app_data_path t; app_data := app_data t;
  app_data_identity := app_data_identity t;
  networking := networking t; networking_identity := networking_identity t;
  lock := lock t; lock_identity := lock_identity t;
  snapshot := snapshot t; stored := stored t;
  candidate := Some c; decision := Some d;
|}.

(** [None]: still waiting for the lock when the fuel ran out. *)
Definition begin (fuel : nat) (store : FilePolicyIdentityStore)
    : PM (option PolicyIdentityTransaction) :=
  let! app_data := open_directory_path (app_data_root store) in
  let! app_data_stat := fstat app_data in
  lift (validate_directory app_data_stat false) ;!
  let! networking_name := lift (cstring NETWORKING_DIRECTORY_NAME) in
  let! made := call (sys_mkdirat app_data networking_name 448) in
  let! created :=
    match made with
    | Ok _ => ret true
    | Err EEXIST => ret false
    | Err _ => raise PolicySignatureInvalid
    end in
  (if created : bool then fsync app_data else ret tt) ;!
  let! networking := open_directory_at app_data networking_name in
  let! networking_stat := fstat networking in
  lift (validate_directory networking_stat true) ;!
  let! lock := open_lock_file networking in
  let! locked := acquire_lock fuel lock (lock_timeout store) in
  match locked with
  | None => ret None
  | Some _ =>
      let! lock_stat := fstat lock in
      lift (validate_private_regular lock_stat) ;!
      let transaction := {|
        app_data_path := app_data_root store;
        app_data := app_data;
        app_data_identity := directory_identity app_data_stat;
        networking := networking;
        networking_identity := directory_identity networking_stat;
        lock := lock;
        lock_identity := directory_identity lock_stat;
        snapshot := Missing;
        stored := None;
        candidate := None;
        decision := None;
      |} in
      ensure_attached transaction ;!
      let! snapshot := read_record_snapshot networking in
      let! stored := lift (parse_record snapshot) in
      ret (Some (with_record snapshot stored transaction))
  end.

(** The decision on a candidate, from the record the transaction holds. *)
Definition decide_candidate (stored : option StoredRecord) (candidate : PolicyIdentityCandidate)
    : PolicyIdentityDecision :=
  match stored with
  | None => New
  | Some (Legacy record) =>
      if lr_revision record <? revision candidate
      then Advance (lr_revision record) true
      else Reject
  | Some (Identity record) =>
      if ir_revision record <? revision candidate
      then Advance (ir_revision record) false
      else if (revision candidate =? ir_revision record) &&
              bool_decide (envelope_sha256 candidate = ir_envelope_sha256 record) &&
              bool_decide (key_id candidate = ir_key_id record)
      then Idempotent
      else Reject
  end.

(** [&mut self]: the transaction is given back with the decision. *)
Definition classify (self : PolicyIdentityTransaction) (c : PolicyIdentityCandidate) (now : Z)
    : PM (PolicyIdentityDecision * PolicyIdentityTransaction) :=
  if is_some (candidate self) || is_some (decision self) then raise PolicySignatureInvalid
  else
    lift (validate_at c now) ;!
    ensure_attached self ;!
    let d := decide_candidate (stored self) c in
    ret (d, with_decision c d self).

(** [if read_record_snapshot(..)? != self.snapshot { return Err(..) }]. *)
Definition recheck_snapshot (self : PolicyIdentityTransaction) : PM unit :=
  let! current := read_record_snapshot (networking self) in
  guard (bool_decide (current = snapshot self)).

Definition commit (self : PolicyIdentityTransaction) (now : Z) : PM PolicyIdentityDecision :=
  let! c := lift (ok_or (candidate self) PolicySignatureInvalid) in
  let! d := lift (ok_or (decision self) PolicySignatureInvalid) in
  if bool_decide (d = Reject) then raise PolicySignatureInvalid
  else
    lift (validate_at c now) ;!
    (if bool_decide (d = Idempotent) then
       ensure_attached self ;!
       recheck_snapshot self ;!
       ensure_attached self ;!
       recheck_snapshot self
     else
       write_identity_record (networking self) c (snapshot self)
         (ensure_attached self ;! recheck_snapshot self)
         (ensure_attached self)) ;!
    ret d.
End store.
Arguments PolicyIdentityTransaction W {_}.

(** ** the wait for the lock *)

(** [Instant::now] and [thread::sleep] on a clock that never goes back, and a
    non-blocking [flock], which cannot be interrupted while waiting. *)
Class ClockLaws (W : Type) `{Posix W} := {
  clock : W -> Z;
  now_reads w : exists t, (sys_now w).1 = Ok t /\ clock w <= t <= clock (sys_now w).2;
  sleep_advances n w : (sys_sleep n w).1 = Ok tt /\ clock w + n <= clock (sys_sleep n w).2;
  flock_monotone f w : clock w <= clock (sys_flock_ex_nb f w).2;
  flock_uninterrupted f w : (sys_flock_ex_nb f w).1 <> Err EINTR;
  checked_add_ok a b c : instant_checked_add a b = Some c -> c = a + b;
}.

Section wait.
Context {W : Type} `{ClockLaws W}.
Implicit Types (w : W) (p : Proc W).

Lemma wp_now (Q : Res Z -> Proc W -> Prop) p :
  (forall t w', clock (world p) <= t <= clock w' ->
     Q (Ok t) (Build_Proc w' (TEMPORARY_SEQUENCE p))) ->
  wp (sys sys_now) Q p.
Proof.
  intros HQ. destruct (now_reads (world p)) as (t & Ht & Hc).
  unfold wp, sys, bind, call. destruct (sys_now (world p)) as [r w']. cbn in *. subst r. by apply HQ.
Qed.

Lemma wp_sleep n (Q : Res unit -> Proc W -> Prop) p :
  (forall w', clock (world p) + n <= clock w' ->
     Q (Ok tt) (Build_Proc w' (TEMPORARY_SEQUENCE p))) ->
  wp (sys (sys_sleep n)) Q p.
Proof.
  intros HQ. destruct (sleep_advances n (world p)) as [Hr Hc].
  unfold wp, sys, bind, call. destruct (sys_sleep n (world p)) as [r w']. cbn in *. subst r. by apply HQ.
Qed.

(** One turn decides, or five milliseconds have passed before the deadline. *)
Lemma wp_try_lock f deadline p :
  wp (try_lock f deadline) (fun r p' => r = Ok None ->
    clock (world p) < deadline /\ clock (world p) + 5 * 1000000 <= clock (world p')) p.
Proof.
  unfold try_lock. wp_step. unfold wp at 1, call.
  pose proof (flock_monotone f (world p)) as Hc. pose proof (flock_uninterrupted f (world p)) as Hi.
  destruct (sys_flock_ex_nb f (world p)) as [[[]|[]] w']; cbn in *; try done.
  wp_step. apply wp_now. cbn. intros t w1 Ht. wp_step. unfold guard. wp_step.
  destruct (ensure _ _) as [[]|] eqn:He; [|done]. apply ensure_ok in He. reflect_bools.
  wp_step. apply wp_sleep. cbn. intros w2 Hw2. wp_step. cbn. intros _. lia.
Qed.

Lemma lock_loop_decides fuel f deadline p :
  deadline <= clock (world p) + Z.of_nat fuel * (5 * 1000000) ->
  wp (lock_loop (S fuel) f deadline) (fun r _ => r <> Ok None) p.
Proof.
  revert p. induction fuel as [|fuel IH]; intros p Hd; cbn [lock_loop]; wp_step;
    (eapply wp_mono; [apply wp_try_lock|]); intros [[[]|]|] p1 Hp1; try done;
    destruct (Hp1 eq_refl) as [Hlt Hadv]; [lia|].
  apply IH. lia.
Qed.

(** The wait for the store's lock ends: with a clock that does not go back, the loop of
    acquire_lock has taken the lock or given up after at most one attempt per five
    milliseconds of the timeout, plus one (401 turns for the two seconds the store waits
    by default). *)
Theorem lock_wait_is_bounded fuel f timeout p :
  0 <= timeout <= Z.of_nat fuel * (5 * 1000000) ->
  (acquire_lock (S fuel) f timeout p).1 <> Ok None.
Proof.
  intros Ht. change (wp (acquire_lock (S fuel) f timeout) (fun r _ => r <> Ok None) p).
  unfold acquire_lock. wp_step. apply wp_now. intros t w1 Hw1. wp_step.
  destruct (instant_checked_add t timeout) as [deadline|] eqn:Ha.
  - wp_step. apply lock_loop_decides. apply checked_add_ok in Ha. cbn. lia.
  - apply wp_now. cbn. intros t' w2 Hw2. apply lock_loop_decides. cbn. lia.
Qed.
End wait.
