(* ===== verification/PolicyIdentitySafety.v ===== *)
(** * PolicyIdentitySafety: an accepted policy is never rolled back

    The laws of the system calls, and the theorems on the store of
    [PolicyIdentity]: whatever calls fail and however the operations of several
    transactions are ordered, a record is only ever replaced by one with a
    higher revision, and one revision stands for one envelope. *)

From Stdlib Require Import Ascii String.
From S2P Require Import Prelude Text NetState PolicyIdentity.

(** ** what the system calls do

    The part of the file system the store depends on: which file a directory
    entry names ([.] and [..] aside), the content of a file, and the position of
    an open file. *)
Class PosixView (W : Type) `{Posix W} := {
  ino_of : File -> DirectoryIdentity;
  entry_at : W -> DirectoryIdentity -> string -> option DirectoryIdentity;
  data_of : W -> DirectoryIdentity -> list Z;
  offset_of : W -> File -> nat;
}.

Section view.
Context {W : Type} `{PosixView W}.
Implicit Types w : W.

Definition quiet w w' : Prop :=
  (forall d n, entry_at w' d n = entry_at w d n) /\ (forall i, data_of w' i = data_of w i).

(** Only the entry [n] of the directory [d] may differ. *)
Definition entries_except w w' (d : DirectoryIdentity) (n : string) : Prop :=
  forall d' n', (d', n') <> (d, n) -> entry_at w' d' n' = entry_at w d' n'.

(** Files that have a name keep their content. *)
Definition named_data_kept w w' : Prop :=
  forall d n i, entry_at w d n = Some i -> data_of w' i = data_of w i.

(** The record in the directory [d]. *)
Definition record_of w (d : DirectoryIdentity) : option (list Z) :=
  data_of w <$> entry_at w d RECORD_FILE_NAME.

Definition kept w w' : Prop := forall d, record_of w' d = record_of w d.
End view.

(** The documented effects of the calls; none of them is promised to succeed. *)
Class PosixLaws (W : Type) `{PosixView W} := {
  open_quiet p fl w : quiet w (sys_open p fl w).2;
  openat_quiet d n fl m w : O_CREAT ∉ fl -> quiet w (sys_openat d n fl m w).2;
  openat_ok d n fl m w f w' : O_CREAT ∉ fl -> sys_openat d n fl m w = (Ok f, w') ->
    entry_at w (ino_of d) n = Some (ino_of f) /\ offset_of w' f = 0%nat;
  openat_absent d n fl m w w' : O_CREAT ∉ fl -> sys_openat d n fl m w = (Err ENOENT, w') ->
    entry_at w (ino_of d) n = None;
  creat_ok d n fl m w f w' : O_CREAT ∈ fl -> O_EXCL ∈ fl -> sys_openat d n fl m w = (Ok f, w') ->
    entries_except w w' (ino_of d) n /\ named_data_kept w w' /\
    forall d' n', entry_at w d' n' <> Some (ino_of f);
  creat_err d n fl m w e w' : O_CREAT ∈ fl -> O_EXCL ∈ fl -> sys_openat d n fl m w = (Err e, w') ->
    quiet w w';
  mkdirat_frame d n m w :
    entries_except w (sys_mkdirat d n m w).2 (ino_of d) n /\
    named_data_kept w (sys_mkdirat d n m w).2;
  fsync_quiet f w : quiet w (sys_fsync f w).2;
  fchmod_quiet f m w : quiet w (sys_fchmod f m w).2;
  flock_quiet f w : quiet w (sys_flock_ex_nb f w).2;
  fstat_quiet f w : quiet w (sys_fstat f w).2;
  fstat_ok f w st w' : sys_fstat f w = (Ok st, w') ->
    directory_identity st = ino_of f /\ forall g, offset_of w' g = offset_of w g;
  read_quiet f n w : quiet w (sys_take_read_to_end f n w).2;
  read_ok f n w b w' : sys_take_read_to_end f n w = (Ok b, w') ->
    b = take (Z.to_nat n) (drop (offset_of w f) (data_of w (ino_of f)));
  write_frame f b w :
    (forall d n, entry_at (sys_write_all f b w).2 d n = entry_at w d n) /\
    (forall i, i <> ino_of f -> data_of (sys_write_all f b w).2 i = data_of w i);
  sync_all_quiet f w : quiet w (sys_sync_all f w).2;
  fill_quiet w : quiet w (sys_fill w).2;
  now_quiet w : quiet w (sys_now w).2;
  sleep_quiet n w : quiet w (sys_sleep n w).2;
  rename_err d n d' n' fl w e w' :
    sys_renameat_with d n d' n' fl w = (Err e, w') -> quiet w w';
  rename_data d n d' n' fl w i : data_of (sys_renameat_with d n d' n' fl w).2 i = data_of w i;
  rename_other d n d' n' fl w d0 n0 :
    (d0, n0) <> (ino_of d, n) -> (d0, n0) <> (ino_of d', n') ->
    entry_at (sys_renameat_with d n d' n' fl w).2 d0 n0 = entry_at w d0 n0;
  exchange_ok d n d' n' w w' : sys_renameat_with d n d' n' EXCHANGE w = (Ok tt, w') ->
    entry_at w' (ino_of d) n = entry_at w (ino_of d') n' /\
    entry_at w' (ino_of d') n' = entry_at w (ino_of d) n;
  noreplace_ok d n d' n' w w' : sys_renameat_with d n d' n' NOREPLACE w = (Ok tt, w') ->
    entry_at w (ino_of d') n' = None /\
    entry_at w' (ino_of d) n = None /\
    entry_at w' (ino_of d') n' = entry_at w (ino_of d) n;
}.

(** [serde_json] reads back what it wrote, white space after it being ignored. *)
Class RecordCodecLaws `{RecordCodec} := {
  record_round_trip r b : identity_to_vec r = Some b ->
    probe_from_slice (b ++ [10]) = Some (ir_schema_version r) /\
    identity_from_slice (b ++ [10]) = Some r;
}.

(** ** methods that respect a preorder on worlds *)

#[global] Instance quiet_preorder `{PosixView W} : PreOrder quiet.
Proof.
  split; [by intros w|]. intros a b c [He Hd] [He' Hd'].
  split; intros; [by rewrite He', He|by rewrite Hd', Hd].
Qed.

#[global] Instance kept_preorder `{PosixView W} : PreOrder kept.
Proof. split; [by intros w|]. intros a b c Hab Hbc d. by rewrite Hbc, Hab. Qed.

Section respects.
Context {W : Type} `{PosixLaws W}.
Context (R : W -> W -> Prop) `{!PreOrder R}.

Definition respects {A} (m : Meth (Proc W) A) : Prop :=
  forall p, wp m (fun _ p' => R (world p) (world p')) p.

Lemma respects_bind {A B} (m : Meth (Proc W) A) (k : A -> Meth (Proc W) B) :
  respects m -> (forall a, respects (k a)) -> respects (bind m k).
Proof.
  intros Hm Hk p. apply wp_bind. eapply wp_mono; [apply Hm|]. intros [a|e] p1 Hp1; [|done].
  eapply wp_mono; [apply Hk|]. intros r p2 Hp2. by etransitivity.
Qed.

Lemma respects_attempt {A} (m : Meth (Proc W) A) : respects m -> respects (attempt m).
Proof. intros Hm p. apply wp_attempt, Hm. Qed.

Lemma respects_ret {A} (a : A) : respects (ret a).
Proof. intros p. apply wp_ret. reflexivity. Qed.

Lemma respects_raise {A} e : respects (raise (A := A) e).
Proof. intros p. apply wp_raise. reflexivity. Qed.

Lemma respects_lift {A} (r : Res A) : respects (lift r).
Proof. intros p. apply wp_lift. reflexivity. Qed.

Lemma respects_guard b : respects (guard b).
Proof. apply respects_lift. Qed.

Lemma respects_call {A} (m : M W Errno A) : (forall w, R w (m w).2) -> respects (call m).
Proof.
  intros Hm p. unfold wp, call. specialize (Hm (world p)). by destruct (m (world p)).
Qed.

Lemma respects_sys {A} (m : M W Errno A) : (forall w, R w (m w).2) -> respects (sys m).
Proof. intros Hm. apply respects_bind; [by apply respects_call|]. intros. apply respects_lift. Qed.

Lemma respects_random_temporary_name :
  (forall w, R w (sys_fill w).2) -> respects random_temporary_name.
Proof.
  intros Hf. unfold random_temporary_name.
  apply respects_bind; [intros p; apply wp_get; reflexivity|]. intros q.
  apply respects_bind; [intros p; apply wp_modify; reflexivity|]. intros _.
  apply respects_bind; [by apply respects_sys|]. intros. apply respects_lift.
Qed.
End respects.

(** ** the parts of a transaction *)

Section access.
Context {W : Type} `{PosixLaws W} `{RecordCodecLaws}.
Implicit Types (w : W) (p : Proc W) (t : PolicyIdentityTransaction W).
Notation PM A := (Meth (Proc W) A).

Lemma quiet_kept w w' : quiet w w' -> kept w w'.
Proof.
  intros [He Hd] d. unfold record_of. rewrite He. destruct (entry_at w d _); [|done]. cbn. by rewrite Hd.
Qed.

Lemma respects_kept {A} (m : PM A) : respects quiet m -> respects kept m.
Proof. intros Hm p. eapply wp_mono; [apply Hm|]. intros r p'. apply quiet_kept. Qed.

Lemma read_flags : O_CREAT ∉ [O_RDONLY; O_NOFOLLOW; O_CLOEXEC; O_NONBLOCK].
Proof. set_solver. Qed.

Lemma read_write_flags : O_CREAT ∉ [O_RDWR; O_NOFOLLOW; O_CLOEXEC; O_NONBLOCK].
Proof. set_solver. Qed.

Lemma directory_flags : O_CREAT ∉ [O_RDONLY; O_DIRECTORY; O_NOFOLLOW; O_CLOEXEC; O_NONBLOCK].
Proof. set_solver. Qed.
End access.

Create HintDb calm discriminated.
#[export] Hint Resolve open_quiet openat_quiet fsync_quiet fchmod_quiet flock_quiet fstat_quiet
  read_quiet sync_all_quiet fill_quiet now_quiet sleep_quiet : calm.
#[export] Hint Resolve read_flags read_write_flags directory_flags : calm.

(** A method made of calls that leave files and entries alone. *)
Ltac calm_tac :=
  repeat first
    [ apply respects_bind; [exact _ | | intros ?]
    | apply respects_attempt | apply respects_ret; exact _ | apply respects_raise; exact _
    | apply respects_lift; exact _ | apply respects_guard; exact _
    | apply respects_call; intros ? | apply respects_sys; [exact _ | intros ?]
    | apply respects_random_temporary_name; [exact _ | intros ?]
    | match goal with |- respects _ (match ?x with _ => _ end) => destruct x end
    | solve [eauto with calm] ].

Section safety.
Context {W : Type} `{PosixLaws W} `{RecordCodecLaws}.
Implicit Types (w : W) (p : Proc W) (t : PolicyIdentityTransaction W).
Notation PM A := (Meth (Proc W) A).

Lemma calm_ensure_attached t : respects quiet (ensure_attached t).
Proof.
  unfold ensure_attached, open_directory_path, open_directory_at, open_regular_at, fstat. calm_tac.
Qed.

Lemma calm_read_record_snapshot f : respects quiet (read_record_snapshot f).
Proof. unfold read_record_snapshot, fstat. calm_tac. Qed.

Lemma calm_verify_named f n i b : respects quiet (verify_named_private_content f n i b).
Proof. unfold verify_named_private_content, open_regular_at, fstat. calm_tac. Qed.

(** *** what a successful check has seen *)

Lemma wp_sys {A} (m : M W Errno A) (Q : Res A -> Proc W -> Prop) p :
  (forall a w', m (world p) = (Ok a, w') -> Q (Ok a) (Build_Proc w' (TEMPORARY_SEQUENCE p))) ->
  (forall e w', m (world p) = (Err e, w') ->
     Q (Err PolicySignatureInvalid) (Build_Proc w' (TEMPORARY_SEQUENCE p))) ->
  wp (sys m) Q p.
Proof.
  intros Hok Herr. unfold wp, sys, bind, call. destruct (m (world p)) as [[a|e] w'] eqn:E; cbn.
  - by apply Hok.
  - by eapply Herr.
Qed.

Lemma wp_system_call {A} (m : M W Errno A) (Q : Res (result A Errno) -> Proc W -> Prop) p :
  (forall r w', m (world p) = (r, w') -> Q (Ok r) (Build_Proc w' (TEMPORARY_SEQUENCE p))) ->
  wp (call m) Q p.
Proof. intros Hr. unfold wp, call. destruct (m (world p)) as [r w'] eqn:E. by apply Hr. Qed.

Lemma wp_guard b (Q : Res unit -> Proc W -> Prop) p :
  (b = true -> Q (Ok tt) p) -> Q (Err PolicySignatureInvalid) p -> wp (guard b) Q p.
Proof. intros Hb He. destruct b; [by apply Hb|exact He]. Qed.

Definition snapshot_bytes (s : RecordSnapshot) : option (list Z) :=
  match s with Missing => None | Present b _ => Some b end.

(** A file that was opened, examined and read whole. *)
Lemma wp_read_whole f (Q : Res (list Z) -> Proc W -> Prop) p :
  offset_of (world p) f = 0%nat ->
  (forall b p', b = take (Z.to_nat (RECORD_MAX_BYTES + 1)) (data_of (world p) (ino_of f)) ->
     Q (Ok b) p') ->
  (forall p', Q (Err PolicySignatureInvalid) p') ->
  wp (sys (sys_take_read_to_end f (RECORD_MAX_BYTES + 1))) Q p.
Proof.
  intros Ho Hok Herr. apply wp_sys; [|done]. intros b w' Hb%read_ok. rewrite Ho in Hb.
  by apply Hok.
Qed.

Lemma take_all_short (b d : list Z) n :
  b = take n d -> (length b < n)%nat -> d = b.
Proof. intros -> Hl. rewrite length_take in Hl. by rewrite take_ge by lia. Qed.

Lemma wp_fstat f (Q : Res Stat -> Proc W -> Prop) p :
  (forall st p', directory_identity st = ino_of f -> quiet (world p) (world p') ->
     (forall g, offset_of (world p') g = offset_of (world p) g) -> Q (Ok st) p') ->
  (forall p', Q (Err PolicySignatureInvalid) p') ->
  wp (fstat f) Q p.
Proof.
  intros Hok Herr. apply wp_sys; [|done]. intros st w' Hst.
  pose proof (fstat_quiet f (world p)) as Hq. rewrite Hst in Hq.
  apply fstat_ok in Hst as [Hi Hg]. by apply Hok.
Qed.

Lemma opened_sound f n w g w' :
  sys_openat f n [O_RDONLY; O_NOFOLLOW; O_CLOEXEC; O_NONBLOCK] 0 w = (Ok g, w') ->
  entry_at w (ino_of f) n = Some (ino_of g) /\ offset_of w' g = 0%nat /\ quiet w w'.
Proof.
  intros Hg. pose proof (openat_quiet f n _ 0 w read_flags) as Hq. rewrite Hg in Hq.
  apply openat_ok in Hg as [He Ho]; [done|apply read_flags].
Qed.

Lemma verify_named_sound f n i b p :
  wp (verify_named_private_content f n i b)
    (fun r _ => is_ok r = true ->
       entry_at (world p) (ino_of f) n = Some i /\ data_of (world p) i = b) p.
Proof.
  unfold verify_named_private_content, open_regular_at. wp_step. apply wp_sys; [|done].
  intros g w1 Hg. pose proof (opened_sound _ _ _ _ _ Hg) as (He & Ho & Hq).
  wp_step. apply wp_fstat; [|done]. intros st p2 Hst Hq2 Ho2.
  do 2 wp_step. destruct (validate_private_regular st); [|done].
  wp_step. apply wp_guard; [intros Hc|done]. reflect_bools.
  wp_step. apply wp_read_whole; [by rewrite Ho2| |done]. intros b' p3 Hb'.
  wp_step. unfold fstat. apply wp_sys; [|done]. intros st' w4 _.
  do 2 wp_step. destruct (validate_private_regular st'); [|done].
  apply wp_guard; [intros Hc|done]. reflect_bools. intros _.
  assert (b' = b) as -> by done. rewrite He. split; [congruence|].
  destruct Hq as [_ Hd], Hq2 as [_ Hd2]. cbn in Hd2.
  replace i with (ino_of g) by congruence. rewrite <- Hd, <- Hd2.
  eapply take_all_short; [exact Hb'|]. unfold RECORD_MAX_BYTES in *. lia.
Qed.

Lemma read_snapshot_sound f p :
  wp (read_record_snapshot f)
    (fun r _ => match r with
       | Ok s => record_of (world p) (ino_of f) = snapshot_bytes s
       | Err _ => True
       end) p.
Proof.
  unfold read_record_snapshot. do 2 wp_step. change (cstring RECORD_FILE_NAME)
    with (Ok (E := NetworkErrorCode) RECORD_FILE_NAME). cbn iota.
  wp_step. apply wp_system_call. intros [g|e] w1 Hg.
  - pose proof (opened_sound _ _ _ _ _ Hg) as (He & Ho & Hq).
    wp_step. apply wp_fstat; [|done]. intros st p2 Hst Hq2 Ho2.
    do 2 wp_step. destruct (validate_private_regular st); [|done].
    do 2 wp_step. destruct (usize_try_from _) as [n|] eqn:Hn; [cbn [ok_or]|done].
    wp_step. apply wp_guard; [intros Hc|done]. reflect_bools.
    wp_step. apply wp_read_whole; [by rewrite Ho2| |done]. intros b p3 Hb.
    wp_step. unfold fstat. apply wp_sys; [|done]. intros st' w4 _.
    wp_step. apply wp_guard; [intros Hc|done]. reflect_bools. wp_step.
    cbn [snapshot_bytes]. unfold record_of. rewrite He. cbn. f_equal.
    destruct Hq as [_ Hd], Hq2 as [_ Hd2]. cbn in Hd2. rewrite <- Hd, <- Hd2.
    eapply take_all_short; [exact Hb|]. unfold RECORD_MAX_BYTES in *. lia.
  - destruct e; try done. apply openat_absent in Hg; [|apply read_flags].
    wp_step. unfold record_of. by rewrite Hg.
Qed.

Lemma wp_calm {A} (m : PM A) (Q : Res A -> Proc W -> Prop) p :
  respects quiet m -> (forall r p', quiet (world p) (world p') -> Q r p') -> wp m Q p.
Proof. intros Hm HQ. eapply wp_mono; [apply Hm|]. apply HQ. Qed.

Lemma random_name_differs p :
  wp random_temporary_name
    (fun r p' => quiet (world p) (world p') /\ forall n, r = Ok n -> n <> RECORD_FILE_NAME) p.
Proof.
  apply wp_and; [apply respects_random_temporary_name; [exact _|]; auto with calm|].
  unfold random_temporary_name. wp_steps. apply wp_sys; [|done]. intros e w' _. wp_step.
  unfold cstring. case_match; [done|]. by intros n [= <-].
Qed.

(** *** publication

    [w] is the world before, [d] the directory, [b] the new content. *)

Definition others_kept w w' (d : DirectoryIdentity) : Prop :=
  forall d', d' <> d -> record_of w' d' = record_of w d'.

Definition settled w w' d (b : list Z) : Prop :=
  others_kept w w' d /\ (record_of w' d = record_of w d \/ record_of w' d = Some b).

(** The new file [i] is the record; the old one, if any, has the temporary name. *)
Record published w w' d (temp : string) i (prev : RecordSnapshot) : Prop := {
  pb_others : others_kept w w' d;
  pb_data : forall j, data_of w' j = data_of w j;
  pb_entry : entry_at w' d RECORD_FILE_NAME = Some i;
  pb_retired : match prev with
    | Missing => entry_at w d RECORD_FILE_NAME = None
    | Present _ _ => entry_at w' d temp = entry_at w d RECORD_FILE_NAME
    end;
}.

Lemma others_kept_trans w w1 w2 d : others_kept w w1 d -> kept w1 w2 -> others_kept w w2 d.
Proof. intros Ha Hb d' Hd. by rewrite Hb, Ha. Qed.

Lemma published_quiet w w1 w2 d temp i prev :
  published w w1 d temp i prev -> quiet w1 w2 -> published w w2 d temp i prev.
Proof.
  intros [Ho Hda He Hr] Hq. destruct (Hq) as [Heq Hdq]. split.
  - by eapply others_kept_trans; [|apply quiet_kept].
  - intros j. by rewrite Hdq.
  - by rewrite Heq.
  - destruct prev; [done|]. by rewrite Heq.
Qed.

Lemma published_record w w' d temp i prev :
  published w w' d temp i prev -> record_of w' d = Some (data_of w i).
Proof. intros [Ho Hda He Hr]. unfold record_of. rewrite He. cbn. by rewrite Hda. Qed.

Lemma published_settled w w' d temp i prev :
  published w w' d temp i prev -> settled w w' d (data_of w i).
Proof. intros Hp. split; [apply Hp|right; by eapply published_record]. Qed.

(** A rename inside the directory leaves contents and the other records alone. *)
Lemma renamed f n n' fl w r w' :
  sys_renameat_with f n f n' fl w = (r, w') ->
  others_kept w w' (ino_of f) /\ forall j, data_of w' j = data_of w j.
Proof.
  intros Hw. pose proof (rename_data f n f n' fl w) as Hd.
  pose proof (rename_other f n f n' fl w) as Ho. rewrite Hw in Hd, Ho. split; [|done].
  intros d' Hne. unfold record_of. cbn in Ho, Hd. rewrite Ho by congruence.
  destruct (entry_at w d' _); [|done]. cbn. by rewrite Hd.
Qed.

Lemma publish_sound f temp i prev p :
  entry_at (world p) (ino_of f) temp = Some i ->
  record_of (world p) (ino_of f) = snapshot_bytes prev ->
  wp (publish_record f temp RECORD_FILE_NAME
        match prev with Present _ _ => true | Missing => false end)
    (fun r p' => if is_ok r then published (world p) (world p') (ino_of f) temp i prev
                 else quiet (world p) (world p')) p.
Proof.
  intros Ht Hr. unfold publish_record.
  apply wp_sys; [intros [] w' Hw|intros e w' Hw; by eapply rename_err].
  destruct (renamed _ _ _ _ _ _ _ Hw) as [Ho Hd]. destruct prev.
  - apply noreplace_ok in Hw as (Hn & _ & He). split; [done..|cbn; congruence|done].
  - apply exchange_ok in Hw as (He1 & He2). split; [done..|cbn; congruence|done].
Qed.

Lemma settled_back w w1 w2 d b :
  others_kept w w1 d -> others_kept w1 w2 d -> record_of w2 d = record_of w d ->
  settled w w2 d b.
Proof. intros H1' H2' Hr. split; [intros d' Hne; by rewrite H2', H1'|by left]. Qed.

Lemma settled_quiet w w1 w2 d b : settled w w1 d b -> quiet w1 w2 -> settled w w2 d b.
Proof.
  intros [Ho Hr] Hq%quiet_kept. split; [by eapply others_kept_trans|]. by rewrite Hq.
Qed.

Lemma rollback_sound f temp i prev w p :
  published w (world p) (ino_of f) temp i prev ->
  wp (rollback_publication f temp RECORD_FILE_NAME prev)
    (fun _ p' => settled w (world p') (ino_of f) (data_of w i)) p.
Proof.
  intros Hp. destruct prev as [|bs id]; cbn [rollback_publication].
  - wp_step. eapply wp_mono; [apply random_name_differs|]. intros [q|e] p1 [Hq Hne];
      apply (published_quiet _ _ _ _ _ _ _ Hp) in Hq; [|by eapply published_settled].
    clear Hp. wp_step. apply wp_sys; intros r w2 Hw.
    + destruct r. destruct (renamed _ _ _ _ _ _ _ Hw) as [Ho Hd].
      apply noreplace_ok in Hw as (_ & Hn & _).
      assert (Hs : settled w w2 (ino_of f) (data_of w i)).
      { eapply settled_back; [apply Hq|done|]. unfold record_of. rewrite Hn.
        by rewrite (pb_retired _ _ _ _ _ _ Hq). }
      apply wp_calm; [unfold fsync; calm_tac|].
      intros r p3 Hq3. by eapply settled_quiet.
    + apply rename_err in Hw. eapply published_settled. by eapply published_quiet.
  - wp_step. apply wp_sys; intros r w2 Hw.
    + destruct r. destruct (renamed _ _ _ _ _ _ _ Hw) as [Ho Hd].
      apply exchange_ok in Hw as (_ & He).
      assert (Hs : settled w w2 (ino_of f) (data_of w i)).
      { eapply settled_back; [apply Hp|done|]. unfold record_of. rewrite He.
        rewrite (pb_retired _ _ _ _ _ _ Hp). destruct (entry_at w _ _) as [j|]; [|done].
        cbn. by rewrite Hd, (pb_data _ _ _ _ _ _ Hp). }
      apply wp_calm; [|intros r p3 Hq3; by eapply settled_quiet].
      unfold fsync. calm_tac.
    + apply rename_err in Hw. eapply published_settled. by eapply published_quiet.
Qed.

Lemma publish_verified_sound f temp i prev (report : PM unit) p :
  entry_at (world p) (ino_of f) temp = Some i ->
  record_of (world p) (ino_of f) = snapshot_bytes prev ->
  respects quiet report ->
  wp (publish_verified f temp i (data_of (world p) i) prev report)
    (fun r p' => settled (world p) (world p') (ino_of f) (data_of (world p) i) /\
       (is_ok r = true -> record_of (world p') (ino_of f) = Some (data_of (world p) i))) p.
Proof.
  intros Ht Hr Hrep. unfold publish_verified. do 2 wp_step.
  change (cstring RECORD_FILE_NAME) with (Ok (E := NetworkErrorCode) RECORD_FILE_NAME). cbn iota.
  wp_step. eapply wp_mono; [by apply publish_sound|]. intros [[]|e] p1 Hp1; cbn [is_ok] in Hp1.
  2:{ split; [|done]. eapply settled_quiet; [|done]. split; [by intros d'|by left]. }
  wp_step. apply wp_calm; [destruct prev; calm_tac|].
  intros r2 p2 Hq2. apply (published_quiet _ _ _ _ _ _ _ Hp1) in Hq2 as Hp2.
  destruct r2 as [retired|]; [|split; [by eapply published_settled|done]].
  destruct (negb (is_ok retired)).
  { wp_step. eapply wp_mono; [by apply rollback_sound|]. by intros [] p3 Hs; (split; [done|]). }
  wp_step. apply wp_calm; [apply respects_attempt, calm_verify_named|].
  intros r3 p3 Hq3. apply (published_quiet _ _ _ _ _ _ _ Hp2) in Hq3 as Hp3.
  destruct r3 as [pub|]; [|split; [by eapply published_settled|done]].
  destruct (negb (is_ok pub)).
  { wp_step. eapply wp_mono; [by apply rollback_sound|]. by intros [] p4 Hs; (split; [done|]). }
  apply wp_calm; [unfold fsync; calm_tac; done|].
  intros r4 p4 Hq4. apply (published_quiet _ _ _ _ _ _ _ Hp3) in Hq4 as Hp4.
  split; [by eapply published_settled|]. intros _. by eapply published_record.
Qed.

(** *** writing a record *)

(** The record of the directory [d] was [prev] and is now that of [c]. *)
Definition rewritten w w' d prev (c : PolicyIdentityCandidate) : Prop :=
  record_of w d = snapshot_bytes prev /\
  exists b, identity_to_vec (record_of_candidate c) = Some b /\ record_of w' d = Some (b ++ [10]).

Definition written w d prev c {A} (r : Res A) w' : Prop :=
  others_kept w w' d /\
  (record_of w' d = record_of w d \/ rewritten w w' d prev c) /\
  (is_ok r = true -> rewritten w w' d prev c).

Lemma written_kept {A} w w' d prev c e : kept w w' -> written w d prev c (Err (A := A) e) w'.
Proof. intros Hk. split; [intros d' _; apply Hk|]. split; [left; apply Hk|done]. Qed.

Lemma settled_written w w1 d prev c b :
  kept w w1 -> record_of w1 d = snapshot_bytes prev ->
  identity_to_vec (record_of_candidate c) = Some b ->
  forall (r : Res unit) p',
    settled w1 (world p') d (b ++ [10]) /\
    (is_ok r = true -> record_of (world p') d = Some (b ++ [10])) ->
    written w d prev c r (world p').
Proof.
  intros Hk Hrec Hb r p' [[Ho Hs] Hok].
  assert (Hre : record_of (world p') d = Some (b ++ [10]) -> rewritten w (world p') d prev c).
  { intros Hr. split; [by rewrite <- Hk|by exists b]. }
  split; [intros d' Hne; by rewrite Ho, Hk|]. rewrite <- Hk. naive_solver.
Qed.

(** The records are as in [w], and the file [i] is none of them. *)
Definition apart w i w' : Prop :=
  kept w w' /\ forall d, entry_at w' d RECORD_FILE_NAME <> Some i.

Lemma apart_quiet w i w1 w2 : apart w i w1 -> quiet w1 w2 -> apart w i w2.
Proof.
  intros [Hk Hi] Hq. split; [by etransitivity; [|apply quiet_kept]|].
  intros d. destruct Hq as [He _]. by rewrite He.
Qed.

(** A new entry of another name leaves the records alone. *)
Lemma entry_kept w w' d n :
  n <> RECORD_FILE_NAME -> entries_except w w' d n -> named_data_kept w w' -> kept w w'.
Proof.
  intros Hn He Hd d'. unfold record_of. rewrite He by congruence.
  destruct (entry_at w d' _) as [i|] eqn:Hi; [|done]. cbn. f_equal. by eapply Hd.
Qed.

Lemma created_apart f n w g w' :
  n <> RECORD_FILE_NAME ->
  sys_openat f n [O_WRONLY; O_CREAT; O_EXCL; O_NOFOLLOW; O_CLOEXEC; O_NONBLOCK] 384 w = (Ok g, w') ->
  apart w (ino_of g) w'.
Proof.
  intros Hn Hg. apply creat_ok in Hg as (He & Hd & Hf); [|set_solver..].
  split; [by eapply entry_kept|]. intros d. rewrite He by congruence. apply Hf.
Qed.

Lemma write_apart w g b w1 : apart w (ino_of g) w1 -> apart w (ino_of g) (sys_write_all g b w1).2.
Proof.
  intros [Hk Hi]. destruct (write_frame g b w1) as [He Hd]. split.
  - intros d. rewrite <- Hk. unfold record_of. rewrite He. specialize (Hi d).
    destruct (entry_at w1 d _) as [i|]; [|done]. cbn. f_equal. apply Hd. congruence.
  - intros d. by rewrite He.
Qed.

(** One call that leaves the records alone, an error ending the method. *)
Ltac calm_step Ha :=
  wp_step; apply wp_calm; [unfold fstat; calm_tac|];
  let r := fresh "r" in let q := fresh "p" in let Hq := fresh "Hq" in
  intros [r|?] q Hq; apply (apart_quiet _ _ _ _ Ha) in Hq;
  [clear Ha; rename Hq into Ha|by apply written_kept, Hq].

Lemma write_identity_record_sound f c prev (check report : PM unit) p :
  (forall p, wp check (fun r p' => quiet (world p) (world p') /\
     (is_ok r = true -> record_of (world p) (ino_of f) = snapshot_bytes prev)) p) ->
  respects quiet report ->
  wp (write_identity_record f c prev check report)
    (fun r p' => written (world p) (ino_of f) prev c r (world p')) p.
Proof.
  intros Hcheck Hrep. unfold write_identity_record. do 2 wp_step.
  destruct (identity_to_vec _) as [enc|] eqn:Henc; cbn [ok_or]; [|by apply written_kept].
  wp_step. apply wp_guard; [intros _|by apply written_kept].
  wp_step. eapply wp_mono; [apply random_name_differs|].
  intros [temp|e] p1 [Hq1 Hne]; [|by apply written_kept, quiet_kept].
  specialize (Hne temp eq_refl). wp_step. apply wp_sys; intros g w2 Hg.
  2:{ apply creat_err in Hg; [|set_solver..]. apply written_kept, quiet_kept. by etransitivity. }
  apply created_apart in Hg as [Hk Hi]; [|done].
  assert (Ha : apart (world p) (ino_of g)
    (world {| world := w2; TEMPORARY_SEQUENCE := TEMPORARY_SEQUENCE p1 |})).
  { split; [by etransitivity; [apply quiet_kept|]|done]. }
  clear Hk Hi Hq1. do 3 calm_step Ha.
  wp_step. apply wp_sys; intros r4 w4 Hw;
    pose proof (write_apart _ _ (enc ++ [10]) _ Ha) as Ha4; rewrite Hw in Ha4; cbn in Ha4;
    [|by apply written_kept, Ha4].
  change w4 with (world {| world := w4; TEMPORARY_SEQUENCE := TEMPORARY_SEQUENCE p3 |}) in Ha4.
  do 5 calm_step Ha4.
  wp_step. eapply wp_mono; [apply Hcheck|]. intros [[]|e] p9 [Hq9 Hrec];
    apply (apart_quiet _ _ _ _ Ha4) in Hq9 as Ha9; [|by apply written_kept, Ha9].
  specialize (Hrec eq_refl). rewrite <- (quiet_kept _ _ Hq9) in Hrec.
  wp_step. eapply wp_mono; [apply wp_and; [apply verify_named_sound|apply calm_verify_named]|].
  intros [[]|e] p10 [Hs Hq10]; apply (apart_quiet _ _ _ _ Ha9) in Hq10 as Ha10;
    [|by apply written_kept, Ha10].
  destruct Hs as [He Hd]; [done|]. rewrite <- (quiet_kept _ _ Hq10) in Hrec.
  destruct Hq10 as [Heq Hdq]. rewrite <- Heq in He. rewrite <- Hdq in Hd.
  rewrite <- Hd at 1. eapply wp_mono; [by apply publish_verified_sound|].
  rewrite Hd. destruct Ha10 as [Hk10 _]. by apply settled_written.
Qed.

(** ** transactions *)

Definition no_identity : FileIdentity :=
  {| fi_device := 0; fi_inode := 0; fi_length := 0; fi_modified_seconds := 0;
     fi_modified_nanoseconds := 0; fi_changed_seconds := 0; fi_changed_nanoseconds := 0 |}.

(** What a content stands for. *)
Definition parsed (content : option (list Z)) : Res (option StoredRecord) :=
  match content with None => Ok None | Some b => parse_record (Present b no_identity) end.

Lemma parsed_snapshot s : parsed (snapshot_bytes s) = parse_record s.
Proof. by destruct s. Qed.

Definition stored_revision (st : StoredRecord) : Z :=
  match st with Legacy r => lr_revision r | Identity r => ir_revision r end.

(** The new content holds an identity whose revision is above the old one. *)
Definition higher (o o' : option (list Z)) : Prop :=
  exists st r, parsed o = Ok st /\ parsed o' = Ok (Some (Identity r)) /\
    forall s, st = Some s -> stored_revision s < ir_revision r.

Definition record_le (o o' : option (list Z)) : Prop := o' = o \/ higher o o'.

#[local] Instance record_le_preorder : PreOrder record_le.
Proof.
  split; [by left|]. intros a b c [->|Hab] [->|Hbc]; [by left|by right|by right|right].
  destruct Hab as (st & r & Ha & Hb & Hlt), Hbc as (st' & r' & Hb' & Hc & Hlt').
  rewrite Hb in Hb'. injection Hb' as <-. exists st, r'. split_and!; [done..|].
  intros s Hs. specialize (Hlt s Hs). specialize (Hlt' _ eq_refl). cbn in Hlt'. lia.
Qed.

Definition transaction_wf t : Prop :=
  parsed (snapshot_bytes (snapshot t)) = Ok (stored t) /\
  forall d, decision t = Some d ->
    exists c, candidate t = Some c /\ d = decide_candidate (stored t) c.

Lemma candidate_valid_at c now :
  validate_at c now = Ok tt ->
  revision c <> 0 /\ valid_digest (envelope_sha256 c) = true /\ valid_key_id (key_id c) = true /\
  issued_at c <= now < expires_at c.
Proof.
  unfold validate_at, validate_shape. intros Hv. apply rbind_ok in Hv as (? & Hs & Hv).
  do 2 (case_match; [done|]). reflect_bools. split_and!; done.
Qed.

(** A record that was written is read back. *)
Lemma parsed_written c b now :
  validate_at c now = Ok tt -> identity_to_vec (record_of_candidate c) = Some b ->
  parsed (Some (b ++ [10])) = Ok (Some (Identity (record_of_candidate c))).
Proof.
  intros (Hr & Hd & Hk & _)%candidate_valid_at [Hp Hi]%record_round_trip. cbn.
  rewrite Hp, Hi. cbn. rewrite Hd, Hk. apply Z.eqb_neq in Hr. by rewrite Hr.
Qed.

Lemma recheck_sound t p :
  wp (ensure_attached t ;! recheck_snapshot t)
    (fun r p' => quiet (world p) (world p') /\
       (is_ok r = true -> record_of (world p) (ino_of (networking t)) = snapshot_bytes (snapshot t))) p.
Proof.
  wp_step. eapply wp_mono; [apply calm_ensure_attached|]. intros [[]|e] p1 Hq1; [|done].
  unfold recheck_snapshot. wp_step.
  eapply wp_mono; [apply wp_and; [apply read_snapshot_sound|apply calm_read_record_snapshot]|].
  intros [s|e] p2 [Hs Hq2]; [|split; [by etransitivity|done]].
  apply wp_guard; [intros Hc; reflect_bools|]; (split; [by etransitivity|]); [|done].
  intros _. rewrite <- (quiet_kept _ _ Hq1), Hs. by subst.
Qed.

Lemma double_check_sound t p :
  wp (ensure_attached t ;! recheck_snapshot t ;! ensure_attached t ;! recheck_snapshot t)
    (fun r p' => quiet (world p) (world p') /\
       (is_ok r = true -> record_of (world p) (ino_of (networking t)) = snapshot_bytes (snapshot t))) p.
Proof.
  wp_step. eapply wp_mono; [apply calm_ensure_attached|]. intros [[]|e] p1 Hq1; [|done].
  wp_step. apply wp_calm; [unfold recheck_snapshot; calm_tac|]. intros [[]|e] p2 Hq2;
    [|split; [by etransitivity|done]].
  assert (Hq : quiet (world p) (world p2)) by (by etransitivity).
  eapply wp_mono; [apply recheck_sound|]. intros r p3 [Hq3 Hr]. split; [by etransitivity|].
  intros Hok. rewrite <- (quiet_kept _ _ Hq). auto.
Qed.

(** What an accepted candidate leaves behind. *)
Definition accepted w w' t now (d : PolicyIdentityDecision) : Prop :=
  exists c st, candidate t = Some c /\ validate_at c now = Ok tt /\
    parsed (record_of w (ino_of (networking t))) = Ok st /\
    d = decide_candidate st c /\ d <> Reject /\
    parsed (record_of w' (ino_of (networking t))) = Ok (Some (Identity (record_of_candidate c))).

(** An identical candidate finds its own record. *)
Lemma idempotent_record st c o :
  parsed o = Ok st -> decide_candidate st c = Idempotent ->
  st = Some (Identity (record_of_candidate c)).
Proof.
  intros Ho. destruct st as [[r|r]|]; cbn; repeat case_match; try done. intros _. reflect_bools.
  destruct o as [b|]; [|done]. cbn in Ho. unfold record_of_candidate.
  repeat (case_match || (apply rbind_ok in Ho as (? & ? & Ho))); try done.
  reflect_bools. injection Ho as ->. destruct r; cbn in *; congruence.
Qed.

(** A candidate that is neither rejected nor known stands above the record. *)
Lemma decided_higher st c o o' :
  parsed o = Ok st -> decide_candidate st c <> Reject -> decide_candidate st c <> Idempotent ->
  parsed o' = Ok (Some (Identity (record_of_candidate c))) -> higher o o'.
Proof.
  intros Ho Hr Hi Ho'. exists st, (record_of_candidate c). split_and!; [done..|].
  intros s ->. destruct s; cbn in *; repeat case_match; try done; by reflect_bools.
Qed.

(** The record in the transaction's directory is that of its candidate, in force [now]. *)
Definition names_candidate w' t now : Prop :=
  exists c, candidate t = Some c /\ validate_at c now = Ok tt /\
    parsed (record_of w' (ino_of (networking t))) = Ok (Some (Identity (record_of_candidate c))).

Lemma commit_sound t now p :
  transaction_wf t ->
  wp (commit t now) (fun r p' =>
    (forall d, record_le (record_of (world p) d) (record_of (world p') d)) /\
    (forall d, r = Ok d -> accepted (world p) (world p') t now d) /\
    (forall d, record_of (world p') d <> record_of (world p) d ->
       d = ino_of (networking t) /\ names_candidate (world p') t now)) p.
Proof.
  intros [Hst Hdec]. unfold commit. do 2 wp_step.
  destruct (candidate t) as [c|] eqn:Hc; cbn [ok_or]; [|done]. do 2 wp_step.
  destruct (decision t) as [d|] eqn:Hd; cbn [ok_or]; [|done].
  destruct (Hdec d eq_refl) as (c' & [= <-] & Hd').
  case_bool_decide as Hrej; [by wp_step|]. do 2 wp_step.
  destruct (validate_at c now) as [[]|] eqn:Hv; [|done]. wp_step.
  case_bool_decide as Hid.
  - eapply wp_mono; [apply double_check_sound|]. intros r p1 [Hq Hr].
    assert (Hle : forall d, record_le (record_of (world p) d) (record_of (world p1) d)).
    { intros d'. rewrite (quiet_kept _ _ Hq). reflexivity. }
    assert (Hsame : forall d, record_of (world p1) d <> record_of (world p) d ->
      d = ino_of (networking t) /\ names_candidate (world p1) t now).
    { intros d' Hne. by rewrite (quiet_kept _ _ Hq) in Hne. }
    destruct r as [[]|e]; [|done]. specialize (Hr eq_refl). wp_step. split_and!; [done| |done].
    intros d' [= <-]. exists c, (stored t). rewrite (quiet_kept _ _ Hq), Hr.
    split_and!; [done..|]. rewrite Hst. do 2 f_equal. eapply idempotent_record; [done|congruence].
  - eapply wp_mono; [apply write_identity_record_sound;
      [apply recheck_sound|apply calm_ensure_attached]|].
    intros r p1 (Ho & Hle & Hok).
    assert (Hw : rewritten (world p) (world p1) (ino_of (networking t)) (snapshot t) c ->
      parsed (record_of (world p) (ino_of (networking t))) = Ok (stored t) /\
      parsed (record_of (world p1) (ino_of (networking t))) =
        Ok (Some (Identity (record_of_candidate c)))).
    { intros (Hr0 & b & Hb & Hr1). rewrite Hr0, Hr1. split; [done|]. by eapply parsed_written. }
    assert (Hmono : forall d, record_le (record_of (world p) d) (record_of (world p1) d)).
    { intros d'. destruct (decide (d' = ino_of (networking t))) as [->|Hne]; [|left; auto].
      destruct Hle as [->|[Hp Hp']%Hw]; [by left|right].
      eapply decided_higher; [exact Hp|by rewrite <- Hd'..|done]. }
    assert (Hnames : forall d, record_of (world p1) d <> record_of (world p) d ->
      d = ino_of (networking t) /\ names_candidate (world p1) t now).
    { intros d' Hne. destruct (decide (d' = ino_of (networking t))) as [->|Hd'']; [|by destruct Hne; auto].
      split; [done|]. destruct Hle as [?|[_ Hp']%Hw]; [done|]. by exists c. }
    destruct r as [[]|e]; [|done]. wp_step. split_and!; [done| |done]. intros d' [= <-].
    destruct (Hw (Hok eq_refl)) as [Hp Hp']. exists c, (stored t). by split_and!.
Qed.

(** *** beginning and classifying *)

Lemma creat_kept f n fl m w : n <> RECORD_FILE_NAME -> O_CREAT ∈ fl -> O_EXCL ∈ fl ->
  kept w (sys_openat f n fl m w).2.
Proof.
  intros Hn Hc Hx. destruct (sys_openat f n fl m w) as [[g|e] w'] eqn:Hg.
  - apply creat_ok in Hg as (He & Hd & _); [|done..]. by eapply entry_kept.
  - apply quiet_kept. by eapply creat_err.
Qed.

Lemma mkdirat_kept f n m w : n <> RECORD_FILE_NAME -> kept w (sys_mkdirat f n m w).2.
Proof. intros Hn. destruct (mkdirat_frame f n m w). by eapply entry_kept. Qed.

Lemma respects_name {B} R n (k : string -> PM B) :
  respects R (k n) -> respects R (bind (lift (Ok n)) k).
Proof. done. Qed.

Lemma calm_lock_loop fuel f deadline : respects quiet (lock_loop fuel f deadline).
Proof.
  induction fuel as [|fuel IH]; cbn [lock_loop]; [calm_tac|].
  apply respects_bind; [exact _|unfold try_lock; calm_tac|]. intros [|]; [calm_tac|exact IH].
Qed.

Lemma keeps_open_lock_file f : respects kept (open_lock_file f).
Proof.
  unfold open_lock_file. apply (respects_name kept LOCK_FILE_NAME).
  apply respects_bind; [exact _|apply respects_call; intros w; apply creat_kept; [done|set_solver..]|].
  intros r. apply respects_kept. unfold fsync, fstat. calm_tac.
Qed.

Lemma keeps_begin fuel store : respects kept (begin fuel store).
Proof.
  unfold begin.
  apply respects_bind; [exact _|apply respects_kept; unfold open_directory_path; calm_tac|intros d].
  do 2 (apply respects_bind; [exact _|apply respects_kept; unfold fstat; calm_tac|intros ?]).
  apply (respects_name kept NETWORKING_DIRECTORY_NAME).
  apply respects_bind; [exact _|apply respects_call; intros w; by apply mkdirat_kept|intros ?].
  do 5 (apply respects_bind; [exact _|apply respects_kept; unfold fsync, fstat, open_directory_at; calm_tac|intros ?]).
  apply respects_bind; [exact _|apply keeps_open_lock_file|intros lk].
  apply respects_bind; [exact _| |intros locked; apply respects_kept; unfold fstat; calm_tac].
  apply respects_kept. unfold acquire_lock. calm_tac; apply calm_lock_loop.
Qed.

(** Follow a method to its last step. *)
Lemma wp_later {A B} (m : PM A) (k : A -> PM B) Q p :
  (forall e p', Q (Err e) p') -> (forall a p', wp (k a) Q p') -> wp (bind m k) Q p.
Proof.
  intros He Hk. apply wp_bind. unfold wp at 1. destruct (m p) as [[a|e] p']; cbn; [apply Hk|apply He].
Qed.

Lemma begin_wf fuel store p :
  wp (begin fuel store) (fun r _ => forall t, r = Ok (Some t) -> transaction_wf t) p.
Proof.
  unfold begin. repeat (apply wp_later; [done|intros ? ?]).
  case_match; [|by wp_step]. do 4 (apply wp_later; [done|intros ? ?]).
  wp_steps. destruct (parse_record _) as [st|] eqn:Hst; [|done]. wp_step.
  intros t [= <-]. split; [by rewrite parsed_snapshot|done].
Qed.

Lemma classify_wf t c now p :
  transaction_wf t ->
  wp (classify t c now) (fun r _ => forall d t', r = Ok (d, t') -> transaction_wf t') p.
Proof.
  intros [Hst _]. unfold classify. case_match; [by wp_step|].
  do 2 (apply wp_later; [done|intros ? ?]). wp_step. intros d t' [= <- <-].
  split; [done|]. intros d [= <-]. by exists c.
Qed.

Lemma calm_classify t c now : respects quiet (classify t c now).
Proof. unfold classify. calm_tac. Qed.

(** ** any order of operations

    A process may hold several transactions; [begin] adds one to the pool (or a
    gap, when it fails), [commit] uses it up. *)
Inductive PolicyOp : Type :=
| OpBegin (store : FilePolicyIdentityStore)
| OpClassify (i : nat) (c : PolicyIdentityCandidate) (now : Z)
| OpCommit (i : nat) (now : Z).

Definition Pool : Type := list (option (PolicyIdentityTransaction W)).

Definition run_policy_op (fuel : nat) (op : PolicyOp) (s : Proc W * Pool) : Proc W * Pool :=
  let (p, pool) := s in
  match op with
  | OpBegin store =>
      let (r, p) := begin fuel store p in
      (p, pool ++ [match r with Ok t => t | Err _ => None end])
  | OpClassify i c now =>
      match pool !! i with
      | Some (Some t) =>
          let (r, p) := classify t c now p in
          (p, match r with Ok (_, t) => <[i := Some t]> pool | Err _ => pool end)
      | _ => (p, pool)
      end
  | OpCommit i now =>
      match pool !! i with
      | Some (Some t) => let (_, p) := commit t now p in (p, <[i := None]> pool)
      | _ => (p, pool)
      end
  end.

Definition run_policy_ops (fuel : nat) (ops : list PolicyOp) (s : Proc W * Pool) : Proc W * Pool :=
  foldl (fun s op => run_policy_op fuel op s) s ops.

Definition pool_wf (pool : Pool) : Prop := forall t, Some t ∈ pool -> transaction_wf t.

Definition records_le w w' : Prop := forall d, record_le (record_of w d) (record_of w' d).

Lemma kept_le w w' : kept w w' -> records_le w w'.
Proof. intros Hk d. left. apply Hk. Qed.

Lemma pool_insert_wf pool i o :
  pool_wf pool -> (forall t, o = Some t -> transaction_wf t) -> pool_wf (<[i := o]> pool).
Proof.
  intros Hp Ho t [j Hj]%list_elem_of_lookup.
  apply list_lookup_insert_Some in Hj as [(-> & Hj & _)|[_ Hj]]; [by apply Ho|].
  apply Hp. by eapply list_elem_of_lookup_2.
Qed.

Lemma run_policy_op_sound fuel op p pool p' pool' :
  run_policy_op fuel op (p, pool) = (p', pool') -> pool_wf pool ->
  records_le (world p) (world p') /\ pool_wf pool'.
Proof.
  intros Hrun Hwf. destruct op as [store|i c now|i now]; unfold run_policy_op in Hrun.
  - destruct (begin fuel store p) as [r p1] eqn:E. injection Hrun as <- <-.
    split; [apply kept_le, (wp_run _ _ _ _ _ (keeps_begin fuel store p) E)|].
    intros t Ht. apply elem_of_app in Ht as [Ht|Ht]; [by apply Hwf|].
    apply list_elem_of_singleton in Ht.
    destruct r as [o|]; [|done]. apply (wp_run _ _ _ _ _ (begin_wf fuel store p) E). congruence.
  - assert (Hno : records_le (world p) (world p)) by (by apply kept_le).
    destruct (pool !! i) as [[t|]|] eqn:Hi; [|by simplify_eq..].
    apply list_elem_of_lookup_2 in Hi as Ht. apply Hwf in Ht.
    destruct (classify t c now p) as [r p1] eqn:E. injection Hrun as <- <-.
    split; [apply kept_le, quiet_kept, (wp_run _ _ _ _ _ (calm_classify t c now p) E)|].
    destruct r as [[d t']|]; [|done]. apply pool_insert_wf; [done|]. intros t0 [= <-].
    by apply (wp_run _ _ _ _ _ (classify_wf t c now p Ht) E d).
  - assert (Hno : records_le (world p) (world p)) by (by apply kept_le).
    destruct (pool !! i) as [[t|]|] eqn:Hi; [|by simplify_eq..].
    apply list_elem_of_lookup_2 in Hi as Ht. apply Hwf in Ht.
    destruct (commit t now p) as [r p1] eqn:E. injection Hrun as <- <-.
    split; [|by apply pool_insert_wf]. exact (proj1 (wp_run _ _ _ _ _ (commit_sound t now p Ht) E)).
Qed.

Lemma run_policy_ops_sound fuel ops p pool p' pool' :
  run_policy_ops fuel ops (p, pool) = (p', pool') -> pool_wf pool ->
  records_le (world p) (world p') /\ pool_wf pool'.
Proof.
  revert p pool. induction ops as [|op ops IH]; intros p pool; cbn [run_policy_ops foldl].
  - intros [= <- <-] Hwf. split; [by apply kept_le|done].
  - intros Hrun Hwf. destruct (run_policy_op fuel op (p, pool)) as [p1 pool1] eqn:E.
    apply run_policy_op_sound in E as [Hle Hwf1]; [|done].
    destruct (IH p1 pool1) as [Hle' Hwf']; [done..|]. split; [|done].
    intros d. transitivity (record_of (world p1) d); auto.
Qed.

Lemma same_revision_same_envelope o o' st c1 c2 :
  record_le o o' -> parsed o = Ok (Some (Identity (record_of_candidate c1))) ->
  parsed o' = Ok st -> decide_candidate st c2 <> Reject -> revision c2 = revision c1 ->
  envelope_sha256 c2 = envelope_sha256 c1 /\ key_id c2 = key_id c1.
Proof.
  intros [->|(st0 & r & Ho0 & Ho' & Hlt)] Ho Hst Hrej Hrev.
  - rewrite Ho in Hst. injection Hst as <-. cbn in Hrej. rewrite Hrev, Z.ltb_irrefl in Hrej.
    case_match; [by reflect_bools|done].
  - rewrite Ho in Ho0. injection Ho0 as <-. specialize (Hlt _ eq_refl). cbn in Hlt.
    rewrite Ho' in Hst. injection Hst as <-. cbn in Hrej.
    repeat case_match; reflect_bools; try done; lia.
Qed.

(** C6: anti-rollback: whatever system calls fail and in whatever order a
    process begins, classifies and commits transactions, the record in every
    directory is at the end byte for byte what it was, or an identity record
    whose revision is above that of the (readable) record it replaced; so a
    record never disappears, and one that cannot be parsed is never overwritten. *)
Theorem policy_revision_never_rolls_back fuel ops p p' pool' :
  run_policy_ops fuel ops (p, []) = (p', pool') ->
  forall d, record_le (record_of (world p) d) (record_of (world p') d).
Proof.
  intros Hrun. apply run_policy_ops_sound in Hrun as [Hle _]; [apply Hle|]. intros t Ht. set_solver.
Qed.

(** One revision, one envelope: if a transaction's commit succeeds for one
    candidate and, after any further operations, another commit in the same
    directory succeeds for a candidate of the same revision, then both
    candidates name the same envelope digest and the same key; and both were
    within their validity period when committed. *)
Theorem revision_names_one_envelope fuel ops ops2 p1 p2 p3 p4 pool1 pool2 t1 t2
    now1 now2 d1 d2 c1 c2 :
  run_policy_ops fuel ops (p1, []) = (p2, pool1) ->
  Some t1 ∈ pool1 -> candidate t1 = Some c1 -> commit t1 now1 p2 = (Ok d1, p3) ->
  run_policy_ops fuel ops2 (p3, pool1) = (p4, pool2) ->
  Some t2 ∈ pool2 -> candidate t2 = Some c2 ->
  (commit t2 now2 p4).1 = Ok d2 ->
  ino_of (networking t2) = ino_of (networking t1) ->
  revision c2 = revision c1 ->
  envelope_sha256 c2 = envelope_sha256 c1 /\ key_id c2 = key_id c1 /\
  issued_at c1 <= now1 < expires_at c1 /\ issued_at c2 <= now2 < expires_at c2.
Proof.
  intros Hrun1 Ht1 Hc1 Hcommit1 Hrun2 Ht2 Hc2 Hcommit2 Hd Hrev.
  apply run_policy_ops_sound in Hrun1 as [_ Hwf1]; [|intros t Ht; set_solver].
  pose proof (wp_run _ _ _ _ _ (commit_sound t1 now1 p2 (Hwf1 _ Ht1)) Hcommit1) as (_ & Hacc1 & _).
  destruct (Hacc1 d1 eq_refl) as (c & st1 & Hc & Hv1 & _ & _ & _ & Hrec1).
  apply run_policy_ops_sound in Hrun2 as [Hle Hwf2]; [|done].
  destruct (commit_sound t2 now2 p4 (Hwf2 _ Ht2)) as (_ & Hacc2 & _).
  destruct (Hacc2 d2 Hcommit2) as (c' & st2 & Hc' & Hv2 & Hrec2 & Hdec & Hrej & _).
  rewrite Hc1 in Hc. rewrite Hc2 in Hc'. injection Hc as <-. injection Hc' as <-.
  rewrite Hd in Hrec2. rewrite Hdec in Hrej. apply candidate_valid_at in Hv1, Hv2.
  destruct (same_revision_same_envelope _ _ _ _ _ (Hle _) Hrec1 Hrec2 Hrej Hrev).
  by split_and!; try apply Hv1; try apply Hv2.
Qed.
End safety.
