(* ===== verification/PolicyDisk.v ===== *)
(** * PolicyDisk: a small file system for the policy store

    A concrete instance of [Posix] that keeps every law of
    [PolicyIdentitySafety], a record codec, and runs of the store on them: the
    hypotheses of the theorems hold there. *)

From Stdlib Require Import Ascii String.
From S2P Require Import Prelude Text NetState PolicyIdentity PolicyIdentitySafety.

(** Entries and files as association lists, the newest binding first. *)
Record PW := {
  pw_entries : list ((DirectoryIdentity * string) * option DirectoryIdentity);
  pw_data : list (DirectoryIdentity * list Z);
  pw_modes : list (DirectoryIdentity * Z);
  pw_clock : Z;
  pw_lock_taken : bool;
}.

Fixpoint assoc {K V} `{EqDecision K} (k : K) (l : list (K * V)) : option V :=
  match l with
  | [] => None
  | (k', v) :: l => if bool_decide (k = k') then Some v else assoc k l
  end.

Definition pw_entry (w : PW) (d : DirectoryIdentity) (n : string) : option DirectoryIdentity :=
  match assoc (d, n) (pw_entries w) with Some o => o | None => None end.

Definition pw_content (w : PW) (i : DirectoryIdentity) : list Z :=
  match assoc i (pw_data w) with Some b => b | None => [] end.

Definition pw_mode (w : PW) (i : DirectoryIdentity) : Z :=
  match assoc i (pw_modes w) with Some m => m | None => 0 end.

(** An inode number above all that have been named. *)
Fixpoint top_inode (l : list ((DirectoryIdentity * string) * option DirectoryIdentity)) : Z :=
  match l with
  | [] => 1
  | (_, Some i) :: l => Z.max (inode i) (top_inode l)
  | (_, None) :: l => top_inode l
  end.

Definition fresh_inode (w : PW) : DirectoryIdentity :=
  {| device := 1; inode := 1 + top_inode (pw_entries w) |}.

Definition pw_bind (d : DirectoryIdentity) (n : string) (o : option DirectoryIdentity) (w : PW) : PW :=
  {| pw_entries := ((d, n), o) :: pw_entries w; pw_data := pw_data w; pw_modes := pw_modes w;
     pw_clock := pw_clock w; pw_lock_taken := pw_lock_taken w |}.

Definition pw_store (i : DirectoryIdentity) (b : list Z) (w : PW) : PW :=
  {| pw_entries := pw_entries w; pw_data := (i, b) :: pw_data w; pw_modes := pw_modes w;
     pw_clock := pw_clock w; pw_lock_taken := pw_lock_taken w |}.

Definition pw_make (d : DirectoryIdentity) (n : string) (mode : Z) (w : PW) : PW :=
  let i := fresh_inode w in
  let w := pw_bind d n (Some i) w in
  {| pw_entries := pw_entries w; pw_data := (i, []) :: pw_data w; pw_modes := (i, mode) :: pw_modes w;
     pw_clock := pw_clock w; pw_lock_taken := pw_lock_taken w |}.

Definition pw_tick (n : Z) (w : PW) : PW :=
  {| pw_entries := pw_entries w; pw_data := pw_data w; pw_modes := pw_modes w;
     pw_clock := pw_clock w + Z.max 0 n; pw_lock_taken := pw_lock_taken w |}.

Definition root_inode : DirectoryIdentity := {| device := 1; inode := 1 |}.

Definition pw_openat (d : DirectoryIdentity) (n : string) (fl : list OpenFlag) (m : Z)
    : M PW Errno DirectoryIdentity := fun w =>
  match pw_entry w d n with
  | Some i => if bool_decide (O_EXCL ∈ fl) then (Err EEXIST, w) else (Ok i, w)
  | None =>
      if bool_decide (O_CREAT ∈ fl) then (Ok (fresh_inode w), pw_make d n (32768 + m) w)
      else (Err ENOENT, w)
  end.

Definition pw_stat (w : PW) (i : DirectoryIdentity) : Stat := {|
  st_dev := device i; st_ino := inode i; st_mode := pw_mode w i; st_uid := 501; st_nlink := 1;
  st_size := Z.of_nat (length (pw_content w i));
  st_mtime := 0; st_mtime_nsec := 0; st_ctime := 0; st_ctime_nsec := 0;
|}.

Definition pw_rename (d : DirectoryIdentity) (n : string) (d' : DirectoryIdentity) (n' : string)
    (fl : RenameFlags) : M PW Errno unit := fun w =>
  match fl, pw_entry w d n, pw_entry w d' n' with
  | EXCHANGE, Some i, Some j => (Ok tt, pw_bind d n (Some j) (pw_bind d' n' (Some i) w))
  | NOREPLACE, Some i, None => (Ok tt, pw_bind d n None (pw_bind d' n' (Some i) w))
  | _, _, _ => (Err EOTHER, w)
  end.

#[global] Instance pw_posix : Posix PW := {
  File := DirectoryIdentity;
  sys_open p _ w := if bool_decide (p = "/data"%string) then (Ok root_inode, w) else (Err ENOENT, w);
  sys_openat := pw_openat;
  sys_mkdirat d n m w :=
    if is_some (pw_entry w d n) then (Err EEXIST, w) else (Ok tt, pw_make d n (16384 + m) w);
  sys_fsync _ w := (Ok tt, w);
  sys_fchmod _ _ w := (Ok tt, w);
  sys_flock_ex_nb _ w := if pw_lock_taken w then (Err EWOULDBLOCK, w) else (Ok tt, w);
  sys_fstat i w := (Ok (pw_stat w i), w);
  sys_take_read_to_end i n w := (Ok (take (Z.to_nat n) (pw_content w i)), w);
  sys_write_all i b w := (Ok tt, pw_store i (pw_content w i ++ b) w);
  sys_sync_all _ w := (Ok tt, w);
  sys_renameat_with := pw_rename;
  sys_fill w := (Ok (replicate 16 167), w);
  sys_now w := (Ok (pw_clock w), w);
  sys_sleep n w := (Ok tt, pw_tick n w);
  instant_checked_add a b := Some (a + b);
  sys_geteuid := 501;
  sys_process_id := 77;
}.

#[global] Instance pw_view : PosixView PW := {
  ino_of f := f;
  entry_at := pw_entry;
  data_of := pw_content;
  offset_of _ _ := 0%nat;
}.

(** ** the laws hold *)

Lemma pw_bind_same d n o w : pw_entry (pw_bind d n o w) d n = o.
Proof. unfold pw_entry. cbn. by rewrite bool_decide_eq_true_2. Qed.

Lemma pw_bind_other d n o w d' n' :
  (d', n') <> (d, n) -> pw_entry (pw_bind d n o w) d' n' = pw_entry w d' n'.
Proof. intros Hne. unfold pw_entry. cbn. by rewrite bool_decide_eq_false_2. Qed.

Lemma pw_store_other i b w j : j <> i -> pw_content (pw_store i b w) j = pw_content w j.
Proof. intros Hne. unfold pw_content. cbn. by rewrite bool_decide_eq_false_2. Qed.

Lemma named_below_top k l i : assoc k l = Some (Some i) -> inode i <= top_inode l.
Proof.
  induction l as [|[k' [j|]] l IH]; cbn; [done|..]; case_bool_decide; intros; simplify_eq; try lia;
    specialize (IH ltac:(done)); lia.
Qed.

Lemma fresh_unnamed w d n : pw_entry w d n <> Some (fresh_inode w).
Proof.
  unfold pw_entry. intros He. destruct (assoc _ _) as [o|] eqn:Ho; [|done]. subst o.
  apply named_below_top in Ho. cbn in Ho. lia.
Qed.

Lemma pw_make_entries d n m w : entries_except w (pw_make d n m w) d n.
Proof. intros d' n' Hne. by apply pw_bind_other. Qed.

Lemma pw_make_data d n m w : named_data_kept w (pw_make d n m w).
Proof.
  intros d' n' i Hi. cbn in *. unfold pw_content. cbn. rewrite bool_decide_eq_false_2; [done|].
  intros ->. by apply fresh_unnamed in Hi.
Qed.

Lemma pw_openat_plain d n fl m w : O_CREAT ∉ fl -> (pw_openat d n fl m w).2 = w.
Proof.
  intros Hf. unfold pw_openat. rewrite (bool_decide_eq_false_2 (O_CREAT ∈ fl)) by done.
  by repeat case_match.
Qed.

Lemma pw_rename_cases d n d' n' fl w r w' :
  pw_rename d n d' n' fl w = (r, w') ->
  (exists e, r = Err e /\ w' = w) \/
  (exists i o, r = Ok tt /\ pw_entry w d n = Some i /\ pw_entry w d' n' = o /\
     w' = pw_bind d n o (pw_bind d' n' (Some i) w) /\
     match fl with EXCHANGE => is_Some o | NOREPLACE => o = None end).
Proof.
  unfold pw_rename. intros Hr.
  destruct fl, (pw_entry w d n) as [i|], (pw_entry w d' n') as [j|]; injection Hr as <- <-;
    first [left; by eexists|right; by eexists i, _].
Qed.

#[local] Obligation Tactic := idtac.

#[global] Program Instance pw_laws : PosixLaws PW.
Next Obligation. intros. cbn. by case_match. Qed.
Next Obligation. intros d n fl m w Hf. cbn. by rewrite pw_openat_plain. Qed.
Next Obligation.
  intros d n fl m w f w' Hf Ho. cbn in *. unfold pw_openat in Ho.
  rewrite (bool_decide_eq_false_2 (O_CREAT ∈ fl)) in Ho by done.
  repeat case_match; by simplify_eq.
Qed.
Next Obligation.
  intros d n fl m w w' Hf Ho. cbn in *. unfold pw_openat in Ho. repeat case_match; by simplify_eq.
Qed.
Next Obligation.
  intros d n fl m w f w' Hc Hx Ho. cbn in *. unfold pw_openat in Ho.
  rewrite !bool_decide_eq_true_2 in Ho by done. case_match; simplify_eq.
  split_and!; [apply pw_make_entries|apply pw_make_data|intros d' n'; apply fresh_unnamed].
Qed.
Next Obligation.
  intros d n fl m w e w' Hc Hx Ho. cbn in *. unfold pw_openat in Ho.
  rewrite !bool_decide_eq_true_2 in Ho by done. by case_match; simplify_eq.
Qed.
Next Obligation.
  intros d n m w. cbn. case_match; [done|]. split; [apply pw_make_entries|apply pw_make_data].
Qed.
Next Obligation. done. Qed.
Next Obligation. done. Qed.
Next Obligation. intros. cbn. by case_match. Qed.
Next Obligation. done. Qed.
Next Obligation. intros f w st w' [= <- <-]. split; [by destruct f|done]. Qed.
Next Obligation. done. Qed.
Next Obligation. by intros f n w b w' [= <- <-]. Qed.
Next Obligation. intros f b w. split; [done|]. intros i Hi. by apply pw_store_other. Qed.
Next Obligation. done. Qed.
Next Obligation. done. Qed.
Next Obligation. done. Qed.
Next Obligation. done. Qed.
Next Obligation.
  intros d n d' n' fl w e w' [(e' & _ & ->)|(i & o & Hr & _)]%pw_rename_cases; done.
Qed.
Next Obligation.
  intros d n d' n' fl w i. cbn. destruct (pw_rename d n d' n' fl w) as [r w'] eqn:E.
  by apply pw_rename_cases in E as [(e & _ & ->)|(j & o & _ & _ & _ & -> & _)].
Qed.
Next Obligation.
  intros d n d' n' fl w d0 n0 H1 H2. cbn in *. destruct (pw_rename d n d' n' fl w) as [r w'] eqn:E.
  apply pw_rename_cases in E as [(e & _ & ->)|(j & o & _ & _ & _ & -> & _)]; [done|].
  cbn. by rewrite !pw_bind_other.
Qed.
Next Obligation.
  intros d n d' n' w w' [(e & He & _)|(i & o & _ & Hi & Ho & -> & Hs)]%pw_rename_cases; [done|].
  cbn. rewrite pw_bind_same. split; [by subst|].
  destruct (decide ((d', n') = (d, n))) as [[= -> ->]|Hne].
  - rewrite pw_bind_same. congruence.
  - by rewrite pw_bind_other, pw_bind_same.
Qed.
Next Obligation.
  intros d n d' n' w w' [(e & He & _)|(i & o & _ & Hi & Ho & -> & Hs)]%pw_rename_cases; [done|].
  cbn. rewrite pw_bind_same. split_and!; [congruence|done|].
  rewrite pw_bind_other, pw_bind_same by congruence. done.
Qed.

#[global] Program Instance pw_clock_laws : ClockLaws PW := { clock := pw_clock }.
Next Obligation. intros w. exists (pw_clock w). cbn. split; [done|lia]. Qed.
Next Obligation. intros n w. cbn. split; [done|lia]. Qed.
Next Obligation. intros f w. cbn. case_match; cbn; lia. Qed.
Next Obligation. intros f w. cbn. by case_match. Qed.
Next Obligation. by intros a b c [= <-]. Qed.

(** ** a codec *)

Definition to_codes (s : string) : list Z := map byte (bytes s).
Definition of_codes (l : list Z) : string := str (map (fun z => ascii_of_N (Z.to_N z)) l).

Lemma of_to_codes s : of_codes (to_codes s) = s.
Proof.
  unfold of_codes, to_codes. rewrite map_map. rewrite <- (str_bytes s) at 2. f_equal.
  rewrite <- (map_id (bytes s)) at 2. apply map_ext. intros c. unfold byte.
  by rewrite N2Z.id, ascii_N_embedding.
Qed.

#[global] Instance sample_record_codec : RecordCodec := {
  probe_from_slice l := head l;
  legacy_from_slice l :=
    match l with [v; r; _] => Some {| lr_schema_version := v; lr_revision := r |} | _ => None end;
  identity_from_slice l :=
    match l with
    | v :: r :: n :: rest => Some {|
        ir_schema_version := v;
        ir_revision := r;
        ir_envelope_sha256 := of_codes (take (Z.to_nat n) rest);
        ir_key_id := of_codes (removelast (drop (Z.to_nat n) rest)) |}
    | _ => None
    end;
  identity_to_vec r := Some (
    ir_schema_version r :: ir_revision r :: Z.of_nat (length (to_codes (ir_envelope_sha256 r))) ::
    to_codes (ir_envelope_sha256 r) ++ to_codes (ir_key_id r));
}.

#[global] Instance sample_record_codec_laws : RecordCodecLaws.
Proof.
  constructor. intros [v r dg k] b [= <-]. split; [done|].
  cbn [identity_from_slice sample_record_codec app ir_schema_version ir_revision
       ir_envelope_sha256 ir_key_id].
  rewrite Nat2Z.id, <- app_assoc, take_app_length, drop_app_length, removelast_last.
  by rewrite !of_to_codes.
Qed.

(** ** runs *)

Definition digest_of (c : ascii) : string := str (replicate 64 c).

Definition candidate_at (r : Z) (c : ascii) (issued : Z) : PolicyIdentityCandidate := {|
  revision := r; envelope_sha256 := digest_of c; key_id := "k1";
  issued_at := issued; expires_at := 1000;
|}.

Definition empty_disk : PW := {|
  pw_entries := []; pw_data := []; pw_modes := [(root_inode, 16832)];
  pw_clock := 0; pw_lock_taken := false;
|}.

Definition first_proc : Proc PW := Build_Proc empty_disk 0.
Definition data_store : FilePolicyIdentityStore :=
  {| app_data_root := "/data"; lock_timeout := DEFAULT_LOCK_TIMEOUT |}.

(** Revision 5 is accepted, revision 4 is then refused. *)
Definition two_sessions : list PolicyOp :=
  [OpBegin data_store; OpClassify 0 (candidate_at 5 "a" 10) 100; OpCommit 0 110;
   OpBegin data_store; OpClassify 1 (candidate_at 4 "b" 10) 120; OpCommit 1 130].

Definition networking_inode : DirectoryIdentity := {| device := 1; inode := 2 |}.

Lemma policy_revision_never_rolls_back_witness :
  let s := run_policy_ops 2 two_sessions (first_proc, []) in
  parsed (record_of (world s.1) networking_inode) =
    Ok (Some (Identity (record_of_candidate (candidate_at 5 "a" 10)))) /\
  forall d, record_le (record_of empty_disk d) (record_of (world s.1) d).
Proof.
  intros s. split; [vm_compute; reflexivity|].
  apply (policy_revision_never_rolls_back 2 two_sessions first_proc s.1 s.2).
  apply surjective_pairing.
Defined.

Definition transaction_in (pool : Pool) (i : nat) : PolicyIdentityTransaction PW :=
  match pool !! i with
  | Some (Some t) => t
  | _ => {| app_data_path := ""; app_data := root_inode; app_data_identity := root_inode;
            networking := root_inode; networking_identity := root_inode; lock := root_inode;
            lock_identity := root_inode; snapshot := Missing; stored := None;
            candidate := None; decision := None |}
  end.

Definition first_session : Proc PW * Pool :=
  run_policy_ops 2 [OpBegin data_store; OpClassify 0 (candidate_at 5 "a" 10) 100] (first_proc, []).
Definition first_transaction := transaction_in first_session.2 0.
Definition first_commit := commit first_transaction 110 first_session.1.
Definition second_session : Proc PW * Pool :=
  run_policy_ops 2 [OpBegin data_store; OpClassify 1 (candidate_at 5 "a" 20) 120]
    (first_commit.2, first_session.2).
Definition second_transaction := transaction_in second_session.2 1.

Lemma revision_names_one_envelope_witness :
  first_commit.1 = Ok New /\
  (commit second_transaction 130 second_session.1).1 = Ok Idempotent /\
  envelope_sha256 (candidate_at 5 "a" 20) = envelope_sha256 (candidate_at 5 "a" 10) /\
  key_id (candidate_at 5 "a" 20) = key_id (candidate_at 5 "a" 10) /\
  10 <= 110 < 1000 /\ 20 <= 130 < 1000.
Proof.
  split; [vm_compute; reflexivity|]. split; [vm_compute; reflexivity|].
  apply (revision_names_one_envelope 2
    [OpBegin data_store; OpClassify 0 (candidate_at 5 "a" 10) 100]
    [OpBegin data_store; OpClassify 1 (candidate_at 5 "a" 20) 120]
    first_proc first_session.1 first_commit.2 second_session.1
    first_session.2 second_session.2 first_transaction second_transaction
    110 130 New Idempotent (candidate_at 5 "a" 10) (candidate_at 5 "a" 20)).
  - apply surjective_pairing.
  - apply (list_elem_of_lookup_2 _ 0). vm_compute. reflexivity.
  - vm_compute. reflexivity.
  - vm_compute. reflexivity.
  - apply surjective_pairing.
  - apply (list_elem_of_lookup_2 _ 1). vm_compute. reflexivity.
  - vm_compute. reflexivity.
  - vm_compute. reflexivity.
  - vm_compute. reflexivity.
  - reflexivity.
Defined.
