(* ===== verification/Route.v ===== *)
(** * Route: the write-ahead route transaction

    [src-tauri/src/networking/route.rs].  The orchestrator installs the routes
    of a plan one by one through a [RoutePlatform], writing each step to a
    [RouteJournal] before it takes it, so that whatever fails, or wherever the
    process dies, the journal still names every route it owns.  The two traits
    are type classes, with the laws the orchestrator relies on as classes of
    their own; the two journals of the source, in memory and on disk, are
    instances of the second. *)

From Stdlib Require Import Ascii String.
From S2P Require Import Prelude Text NetState IpAddr Config.

(** ** data *)

Record RouteSpec := {
  rs_destination : string;
  rs_interface : string;
}.

Record ExistingRoute := {
  er_destination : string;
  er_interface : string;
  er_gateway : option string;
}.

Inductive RouteTransactionState : Type := Prepared | Applied | RolledBack.

Record RouteJournalEntry := {
  transaction_id : string;
  je_profile_id : string;
  desired_routes : list RouteSpec;
  applied_routes : list RouteSpec;
  pending_route : option RouteSpec;
  previous_routes : list ExistingRoute;
  je_state : RouteTransactionState;
}.

#[global] Instance RouteSpec_eq_dec : EqDecision RouteSpec.
Proof. solve_decision. Defined.
#[global] Instance RouteSpec_countable : Countable RouteSpec.
Proof.
  refine (inj_countable' (fun r => (rs_destination r, rs_interface r))
    (fun p => {| rs_destination := p.1; rs_interface := p.2 |}) _). by intros [].
Defined.
#[global] Instance ExistingRoute_eq_dec : EqDecision ExistingRoute.
Proof. solve_decision. Defined.
#[global] Instance RouteTransactionState_eq_dec : EqDecision RouteTransactionState.
Proof. solve_decision. Defined.
#[global] Instance RouteJournalEntry_eq_dec : EqDecision RouteJournalEntry.
Proof. solve_decision. Defined.

(** Field updates of a journal entry ([entry.field = value]). *)
Definition with_applied (rs : list RouteSpec) (e : RouteJournalEntry) : RouteJournalEntry :=
  {| transaction_id := transaction_id e; je_profile_id := je_profile_id e;
     desired_routes := desired_routes e; applied_routes := rs;
     pending_route := pending_route e; previous_routes := previous_routes e;
     je_state := je_state e |}.
Definition with_pending (r : option RouteSpec) (e : RouteJournalEntry) : RouteJournalEntry :=
  {| transaction_id := transaction_id e; je_profile_id := je_profile_id e;
     desired_routes := desired_routes e; applied_routes := applied_routes e;
     pending_route := r; previous_routes := previous_routes e;
     je_state := je_state e |}.
Definition with_je_state (s : RouteTransactionState) (e : RouteJournalEntry) : RouteJournalEntry :=
  {| transaction_id := transaction_id e; je_profile_id := je_profile_id e;
     desired_routes := desired_routes e; applied_routes := applied_routes e;
     pending_route := pending_route e; previous_routes := previous_routes e;
     je_state := s |}.

(** ** the two traits *)

Class RoutePlatform (P : Type) := {
  list_routes : Meth P (list ExistingRoute);
  add_route : RouteSpec -> Meth P unit;
  remove_route : RouteSpec -> Meth P unit;
}.

Class RouteJournal (J : Type) := {
  entries : J -> Res (list RouteJournalEntry);
  save : RouteJournalEntry -> Meth J unit;
}.

(** ** networks *)

Record IpNetwork := {
  net_bits : Z;
  network : Z;
  prefix : Z;
}.

Definition IpNetwork_parse (value : string) : Res IpNetwork :=
  let? (address, prefix) := ok_or (rsplit_once value "/") InvalidConfiguration in
  let? address := ok_or (parse_ip address) InvalidConfiguration in
  let? prefix := ok_or (parse_uint u8_max prefix) InvalidConfiguration in
  let (bits, value) := match address with
                       | V4 address => (32, address)
                       | V6 address => (128, address)
                       end in
  if bits <? prefix then Err InvalidConfiguration
  else
    let mask := if prefix =? 0 then 0 else u128_shl u128_max (bits - prefix) in
    Ok {| net_bits := bits; network := Z.land value mask; prefix := prefix |}.

Definition overlaps (self other : IpNetwork) : bool :=
  if negb (net_bits self =? net_bits other) then false
  else
    let prefix := if prefix self <? prefix other then prefix self else prefix other in
    let mask := if prefix =? 0 then 0 else u128_shl u128_max (net_bits self - prefix) in
    Z.land (network self) mask =? Z.land (network other) mask.

(** ** the conflict policy *)

Record RouteConflictPolicy := {
  mihomo_tun_interfaces : gset string;
}.

Definition valid_macos_utun (value : string) : bool :=
  let bytes := bytes value in
  (5 <=? Z.of_nat (length bytes))
  && (Z.of_nat (length bytes) <=? 15)
  && prefix_of (Text.bytes "utun") bytes
  && ((Z.of_nat (length bytes) =? 5) || negb (bool_decide (bytes !! 4%nat = Some "0"%char)))
  && forallb is_ascii_digit (drop 4 bytes).

Definition with_mihomo_tun_interfaces (values : list string) : Res RouteConflictPolicy :=
  let interfaces : gset string := list_to_set values in
  if bool_decide (1 < length values)%nat
     || negb (bool_decide (size interfaces = length values))
     || existsb (fun interface => negb (valid_macos_utun interface)) (elements interfaces)
  then Err InvalidConfiguration
  else Ok {| mihomo_tun_interfaces := interfaces |}.

Definition permits_trusted_mihomo_covering_route (self : RouteConflictPolicy)
    (existing : ExistingRoute) (existing_network desired : IpNetwork) : bool :=
  bool_decide (er_interface existing ∈ mihomo_tun_interfaces self)
  && (prefix existing_network <? prefix desired).

(** ** checking a plan *)

Fixpoint validate_routes (routes : list RouteSpec) (parsed : list IpNetwork) : Res unit :=
  match routes with
  | [] => Ok tt
  | route :: routes =>
      if is_empty (rs_interface route) then Err InvalidConfiguration
      else
        let? network := IpNetwork_parse (rs_destination route) in
        if existsb (fun existing => overlaps existing network) parsed
        then Err InvalidConfiguration
        else validate_routes routes (parsed ++ [network])
  end.

Definition validate_plan (transaction_id profile_id : string) (routes : list RouteSpec)
  : Res unit :=
  if is_empty transaction_id || is_empty profile_id || bool_decide (routes = [])
  then Err InvalidConfiguration
  else validate_routes routes [].

Fixpoint reject_conflicts_loop (policy : RouteConflictPolicy) (desired : list IpNetwork)
    (existing : list ExistingRoute) : Res unit :=
  match existing with
  | [] => Ok tt
  | route :: rest =>
      let? existing := IpNetwork_parse (er_destination route) in
      if prefix existing =? 0 then reject_conflicts_loop policy desired rest
      else if existsb (fun candidate => overlaps candidate existing
                && negb (permits_trusted_mihomo_covering_route policy route existing candidate))
              desired
      then Err RouteConflict
      else reject_conflicts_loop policy desired rest
  end.

Definition reject_conflicts (existing : list ExistingRoute) (desired : list RouteSpec)
    (policy : RouteConflictPolicy) : Res unit :=
  let? desired := rmapM (fun route => IpNetwork_parse (rs_destination route)) desired in
  reject_conflicts_loop policy desired existing.

(** ** the orchestrator *)

Record RouteOrchestrator (P J : Type) := {
  platform : P;
  journal : J;
  conflict_policy : RouteConflictPolicy;
}.
Arguments platform {P J} _.
Arguments journal {P J} _.
Arguments conflict_policy {P J} _.

Section orchestrator.
Context {P J : Type} `{RoutePlatform P} `{RouteJournal J}.
Notation Orch := (RouteOrchestrator P J).

Definition RouteOrchestrator_new (p : P) (j : J) : Orch :=
  {| platform := p; journal := j;
     conflict_policy := {| mihomo_tun_interfaces := ∅ |} |}.

Definition with_conflict_policy (p : P) (j : J) (c : RouteConflictPolicy) : Orch :=
  {| platform := p; journal := j; conflict_policy := c |}.

Definition on_platform {A} (m : Meth P A) : Meth Orch A :=
  zoom platform (fun p o => with_conflict_policy p (journal o) (conflict_policy o)) m.
Definition on_journal {A} (m : Meth J A) : Meth Orch A :=
  zoom journal (fun j o => with_conflict_policy (platform o) j (conflict_policy o)) m.

Definition journal_entries : Meth Orch (list RouteJournalEntry) :=
  let! self := get in lift (entries (journal self)).

(** [.map_err(|_| RouteRollbackFailed)?]. *)
Definition or_rollback_failed {A} (m : Meth Orch A) : Meth Orch A :=
  let! r := attempt m in lift (map_err (fun _ => RouteRollbackFailed) r).

(** The [while let Some(route) = entry.applied_routes.last()] loop: routes are
    taken from the back, so it recurses on the reversed list. *)
Fixpoint rollback_applied (rev_applied : list RouteSpec) (entry : RouteJournalEntry)
  : Meth Orch RouteJournalEntry :=
  match rev_applied with
  | [] => ret entry
  | route :: rest =>
      or_rollback_failed (on_platform (remove_route route)) ;!
      let entry := with_applied (rev rest) entry in
      or_rollback_failed (on_journal (save entry)) ;!
      rollback_applied rest entry
  end.

Definition rollback_entry (entry : RouteJournalEntry) : Meth Orch unit :=
  let! entry :=
    match pending_route entry with
    | Some route =>
        let entry := with_pending None entry in
        or_rollback_failed (on_platform (remove_route route)) ;!
        or_rollback_failed (on_journal (save entry)) ;!
        ret entry
    | None => ret entry
    end in
  let! entry := rollback_applied (rev (applied_routes entry)) entry in
  let entry := with_je_state RolledBack entry in
  or_rollback_failed (on_journal (save entry)).

Definition rollback_failed_apply (entry : RouteJournalEntry) (original_error : NetworkErrorCode)
  : Meth Orch unit :=
  let! r := attempt (rollback_entry entry) in
  match r with
  | Ok _ => raise original_error
  | Err _ => raise RouteRollbackFailed
  end.

(** The loop of [apply] over the desired routes, with what follows it. *)
Fixpoint install_routes (routes : list RouteSpec) (entry : RouteJournalEntry)
  : Meth Orch unit :=
  match routes with
  | [] =>
      let entry := with_je_state Applied entry in
      let! saved := attempt (on_journal (save entry)) in
      match saved with
      | Err error => rollback_failed_apply entry error
      | Ok _ => ret tt
      end
  | route :: routes =>
      let entry := with_pending (Some route) entry in
      let! saved := attempt (on_journal (save entry)) in
      match saved with
      | Err _ =>
          rollback_failed_apply (with_pending None entry) RouteJournalUnavailable
      | Ok _ =>
          let! added := attempt (on_platform (add_route route)) in
          match added with
          | Err error =>
              let entry := with_pending None entry in
              let! saved := attempt (on_journal (save entry)) in
              match saved with
              | Err _ => rollback_failed_apply entry RouteJournalUnavailable
              | Ok _ => rollback_failed_apply entry error
              end
          | Ok _ =>
              let entry :=
                with_pending None (with_applied (applied_routes entry ++ [route]) entry) in
              let! saved := attempt (on_journal (save entry)) in
              match saved with
              | Err _ => rollback_failed_apply entry RouteRollbackFailed
              | Ok _ => install_routes routes entry
              end
          end
      end
  end.

Definition find_transaction (id : string) (l : list RouteJournalEntry)
  : option RouteJournalEntry :=
  find (fun entry => bool_decide (transaction_id entry = id)) l.

Definition apply (transaction_id profile_id : string) (desired_routes : list RouteSpec)
  : Meth Orch unit :=
  lift (validate_plan transaction_id profile_id desired_routes) ;!
  let! all := journal_entries in
  match find_transaction transaction_id all with
  | Some existing =>
      if bool_decide (je_profile_id existing = profile_id)
         && bool_decide (Route.desired_routes existing = desired_routes)
         && bool_decide (je_state existing = Applied)
      then ret tt
      else raise InvalidStateTransition
  | None =>
      let! previous_routes := on_platform list_routes in
      let! self := get in
      lift (reject_conflicts previous_routes desired_routes (conflict_policy self)) ;!
      let entry := {|
        Route.transaction_id := transaction_id;
        je_profile_id := profile_id;
        Route.desired_routes := desired_routes;
        applied_routes := [];
        pending_route := None;
        Route.previous_routes := previous_routes;
        je_state := Prepared;
      |} in
      on_journal (save entry) ;!
      install_routes desired_routes entry
  end.

Definition rollback (transaction_id : string) : Meth Orch unit :=
  let! all := journal_entries in
  match find_transaction transaction_id all with
  | None => ret tt
  | Some entry =>
      if bool_decide (je_state entry = RolledBack) then ret tt
      else rollback_entry entry
  end.

Definition is_live (entry : RouteJournalEntry) : bool :=
  match je_state entry with Prepared | Applied => true | RolledBack => false end.

Fixpoint rollback_all (stale : list RouteJournalEntry) : Meth Orch unit :=
  match stale with
  | [] => ret tt
  | entry :: stale => rollback_entry entry ;! rollback_all stale
  end.

Definition recover_stale : Meth Orch unit :=
  let! all := journal_entries in
  rollback_all (List.filter is_live all).
End orchestrator.

(** ** what the orchestrator relies on

    The laws of the two traits.  A call that answers an error has had no
    effect: since every call may fail at any point, a process that dies between
    two calls is one whose later calls all fail, so what is proved below of
    every lawful platform and journal covers crashes too ([Budget] makes this
    explicit). *)

Class RoutePlatformLaws (P : Type) `{RoutePlatform P} := {
  installed : P -> gset RouteSpec;
  list_routes_pure p : installed (list_routes p).2 = installed p;
  (** every installed route is listed, with a destination naming the same
      network *)
  list_routes_complete p l r :
    (list_routes p).1 = Ok l -> r ∈ installed p ->
    exists er, er ∈ l /\ er_interface er = rs_interface r /\
      IpNetwork_parse (er_destination er) = IpNetwork_parse (rs_destination r);
  add_route_effect r p :
    installed (add_route r p).2 =
      if is_ok (add_route r p).1 then {[r]} ∪ installed p else installed p;
  remove_route_effect r p :
    installed (remove_route r p).2 =
      if is_ok (remove_route r p).1 then installed p ∖ {[r]} else installed p;
}.

Definition by_id (l : list RouteJournalEntry) : gmap string RouteJournalEntry :=
  list_to_map (map (fun e => (transaction_id e, e)) l).

Class RouteJournalLaws (J : Type) `{RouteJournal J} := {
  journal_inv : J -> Prop;
  contents : J -> gmap string RouteJournalEntry;
  entries_sound j l :
    journal_inv j -> entries j = Ok l ->
    NoDup (map transaction_id l) /\ contents j = by_id l;
  save_inv e j : journal_inv j -> journal_inv (save e j).2;
  save_effect e j :
    journal_inv j ->
    contents (save e j).2 =
      if is_ok (save e j).1 then <[transaction_id e := e]> (contents j) else contents j;
}.

(** ** networks: the overlap test is exact *)

Definition network_wf (n : IpNetwork) : Prop :=
  (net_bits n = 32 \/ net_bits n = 128) /\ 0 <= prefix n <= net_bits n /\
  0 <= network n < 2 ^ net_bits n.

(** The addresses of a network, as (width, value) pairs. *)
Definition network_contains (n : IpNetwork) (width addr : Z) : Prop :=
  width = net_bits n /\ in_prefix width (network n) (prefix n) addr.

Lemma land_below a m w : 0 <= a < 2 ^ w -> 0 <= m -> 0 <= w -> 0 <= Z.land a m < 2 ^ w.
Proof.
  intros Ha Hm Hw. split; [by apply Z.land_nonneg; lia|].
  destruct (Z.eq_dec (Z.land a m) 0) as [->|Hn]; [apply Z.pow_pos_nonneg; lia|].
  assert (0 <= Z.land a m) by (apply Z.land_nonneg; lia).
  apply Z.log2_lt_pow2; [lia|]. eapply Z.le_lt_trans; [apply Z.log2_land; lia|].
  destruct (Z.eq_dec a 0) as [->|]; [by rewrite Z.land_0_l in Hn|].
  destruct (Z.min_spec (Z.log2 a) (Z.log2 m)) as [[? ->]|[? ->]];
    (eapply Z.le_lt_trans; [|apply (Z.log2_lt_pow2 a w); lia]); lia.
Qed.

Lemma prefix_mask_nonneg w p : 0 <= prefix_mask w p.
Proof.
  unfold prefix_mask, u128_shl. case_match; [done|].
  apply Z.land_nonneg. right. by vm_compute.
Qed.

Lemma IpNetwork_parse_wf s n : IpNetwork_parse s = Ok n -> network_wf n.
Proof.
  unfold IpNetwork_parse. intros Hn. apply rbind_ok in Hn as ([a p] & _ & Hn).
  peel_ok Hn. apply parse_ip_wf in Ha. apply parse_uint_range in Ha0; [|done].
  unfold addr_wf in Ha. destruct a0 as [v|v]; cbn in Ha;
    (case_match eqn:Hp; [done|]); reflect_bools; simplify_eq;
    (split; [cbn; auto|split; cbn; [lia|]]); (apply land_below; [done|apply prefix_mask_nonneg|lia]).
Qed.

Lemma overlaps_spec n m :
  network_wf n -> network_wf m ->
  overlaps n m = true <->
  exists width addr, network_contains n width addr /\ network_contains m width addr.
Proof.
  intros (Hb & Hp & Hv) (Hb' & Hp' & Hv'). unfold overlaps, network_contains.
  destruct (Z.eqb_spec (net_bits n) (net_bits m)) as [Heq|Hne]; cbn [negb].
  - rewrite Z.eqb_eq. rewrite <- Heq in *.
    assert ((if prefix n <? prefix m then prefix n else prefix m) = Z.min (prefix n) (prefix m))
      as -> by (destruct (Z.ltb_spec (prefix n) (prefix m)); lia).
    change (if Z.min (prefix n) (prefix m) =? 0 then 0 else
      u128_shl u128_max (net_bits n - Z.min (prefix n) (prefix m)))
      with (prefix_mask (net_bits n) (Z.min (prefix n) (prefix m))).
    rewrite land_mask_eq by lia. rewrite same_under_shorter_mask by lia. naive_solver.
  - split; [done|]. intros (w & a & [-> _] & [? _]). done.
Qed.

Lemma overlaps_refl n : overlaps n n = true.
Proof. unfold overlaps. by rewrite Z.eqb_refl, Z.ltb_irrefl, Z.eqb_refl. Qed.

Lemma overlaps_sym n m : overlaps n m = overlaps m n.
Proof.
  unfold overlaps. rewrite (Z.eqb_sym (net_bits m)).
  destruct (Z.eqb_spec (net_bits n) (net_bits m)) as [->|]; [|done]. cbn [negb].
  rewrite (Z.eqb_sym (Z.land (network m) _)).
  destruct (Z.ltb_spec (prefix n) (prefix m)), (Z.ltb_spec (prefix m) (prefix n)); try done; [lia|].
  by replace (prefix m) with (prefix n) by lia.
Qed.

(** ** plans *)

Definition default_route (r : RouteSpec) : Prop :=
  exists n, IpNetwork_parse (rs_destination r) = Ok n /\ prefix n = 0.

Lemma validate_routes_spec routes parsed :
  validate_routes routes parsed = Ok tt ->
  exists ns, Forall2 (fun r n => IpNetwork_parse (rs_destination r) = Ok n) routes ns /\
    (forall n m, n ∈ parsed -> m ∈ ns -> overlaps n m = false) /\
    ForallOrdPairs (fun n m => overlaps n m = false) ns.
Proof.
  revert parsed. induction routes as [|r routes IH]; intros parsed; cbn.
  - intros _. exists []. split_and!; [constructor|set_solver|constructor].
  - case_match; [done|]. intros Hv. apply rbind_ok in Hv as (n & Hn & Hv).
    destruct (existsb _ parsed) eqn:He; [done|]. pose proof (proj1 (existsb_false _ _) He) as He'.
    apply IH in Hv as (ns & Hns & Hold & Hord). exists (n :: ns). split_and!.
    + by constructor.
    + intros a b Ha [->|Hb]%elem_of_cons; [by apply He'|]. apply Hold; set_solver.
    + constructor; [|done]. apply List.Forall_forall. intros m Hm.
      apply Hold; [set_solver|by apply list_elem_of_In].
Qed.

Lemma validated_routes_NoDup routes ns :
  Forall2 (fun r n => IpNetwork_parse (rs_destination r) = Ok n) routes ns ->
  ForallOrdPairs (fun n m => overlaps n m = false) ns -> NoDup routes.
Proof.
  induction 1 as [|r n routes ns Hr Hrs IH]; intros Hord; [constructor|].
  inversion Hord as [|? ? Hn Hord']; subst. constructor; [|by apply IH].
  intros Hin. apply list_elem_of_lookup in Hin as (i & Hi).
  destruct (Forall2_lookup_l _ _ _ _ _ Hrs Hi) as (m & Hm & Hp).
  rewrite Hr in Hp. injection Hp as <-.
  rewrite List.Forall_forall in Hn. specialize (Hn n).
  rewrite overlaps_refl in Hn. enough (true = false) by done. apply Hn.
  apply list_elem_of_In. by eapply list_elem_of_lookup_2.
Qed.

Lemma reject_conflicts_sound existing desired policy :
  reject_conflicts existing desired policy = Ok tt ->
  forall er r n m, er ∈ existing -> r ∈ desired ->
    IpNetwork_parse (er_destination er) = Ok n -> IpNetwork_parse (rs_destination r) = Ok m ->
    prefix n <> 0 -> overlaps m n = true ->
    er_interface er ∈ mihomo_tun_interfaces policy /\ prefix n < prefix m.
Proof.
  unfold reject_conflicts. intros Hrc. apply rbind_ok in Hrc as (ns & Hns & Hrc).
  apply rmapM_ok in Hns. intros er r n m Her Hr Hn Hm Hp Ho.
  assert (Hin : m ∈ ns).
  { apply list_elem_of_lookup in Hr as [i Hi].
    destruct (Forall2_lookup_l _ _ _ _ _ Hns Hi) as (m' & Hm' & Hpm).
    rewrite Hm in Hpm. injection Hpm as <-. by eapply list_elem_of_lookup_2. }
  revert Hrc. induction existing as [|er' existing IH]; [set_solver|]. cbn.
  intros Hrc. apply rbind_ok in Hrc as (n' & Hn' & Hrc).
  apply elem_of_cons in Her as [->|Her].
  - rewrite Hn in Hn'. injection Hn' as <-. rewrite (proj2 (Z.eqb_neq _ _) Hp) in Hrc.
    destruct (existsb _ ns) eqn:He; [done|]. pose proof (proj1 (existsb_false _ _) He m Hin) as Hm'.
    cbv beta in Hm'. rewrite Ho in Hm'. cbn in Hm'. unfold permits_trusted_mihomo_covering_route in Hm'.
    by reflect_bools.
  - case_match; [by apply IH|]. case_match; [done|by apply IH].
Qed.

(** ** the ledger

    The proofs talk about the routes installed ([gset RouteSpec]) and the
    journal's contents ([gmap]), whatever platform and journal implement
    them. *)

Notation Routes := (gset RouteSpec).
Notation Entries := (gmap string RouteJournalEntry).

(** The routes an entry claims. *)
Definition owned (e : RouteJournalEntry) : Routes :=
  list_to_set (applied_routes e) ∪ list_to_set (option_list (pending_route e)).

(** With [base] the routes of others: none of them is missing or claimed by an
    entry, and every other installed route is claimed by a live entry. *)
Record ledger (base i : Routes) (c : Entries) : Prop := {
  lg_base : base ⊆ i;
  lg_owned r : r ∈ i -> r ∈ base \/ exists id e, c !! id = Some e /\ is_live e = true /\ r ∈ owned e;
  lg_key id e : c !! id = Some e -> transaction_id e = id;
  lg_clean id e : c !! id = Some e -> owned e ## base;
}.

(** The working entry [e] accounts for everything installed that the stored
    entry of the same transaction claims. *)
Definition tracks (base i : Routes) (c : Entries) (e : RouteJournalEntry) : Prop :=
  forall r e0, r ∈ i -> c !! transaction_id e = Some e0 -> is_live e0 = true ->
    r ∈ owned e0 -> r ∈ base \/ (is_live e = true /\ r ∈ owned e).

Definition rolled (e : RouteJournalEntry) : RouteJournalEntry :=
  with_je_state RolledBack (with_applied [] (with_pending None e)).

Lemma ledger_save base i c e :
  ledger base i c -> tracks base i c e -> owned e ## base ->
  ledger base i (<[transaction_id e := e]> c).
Proof.
  intros [Hb Ho Hk Hc] Ht He. constructor; [done|..].
  - intros r Hr. destruct (Ho r Hr) as [?|(id & e0 & Hid & Hl & Hr0)]; [by left|].
    destruct (decide (id = transaction_id e)) as [->|Hne].
    + destruct (Ht r e0) as [?|[??]]; [done..|by left|]. right.
      exists (transaction_id e), e. by rewrite lookup_insert_eq.
    + right. exists id, e0. by rewrite lookup_insert_ne by congruence.
  - intros id e0 [[<- <-]|[? ?]]%lookup_insert_Some; [done|by apply Hk].
  - intros id e0 [[<- <-]|[? ?]]%lookup_insert_Some; [done|by eapply Hc].
Qed.

Lemma ledger_remove base i c r :
  ledger base i c -> r ∉ base -> ledger base (i ∖ {[r]}) c.
Proof.
  intros [Hb Ho Hk Hc] Hr. constructor; [set_solver| |done|done].
  intros r' [Hr' _]%elem_of_difference. by apply Ho.
Qed.

Lemma ledger_add base i c r id e :
  ledger base i c -> c !! id = Some e -> is_live e = true -> r ∈ owned e ->
  ledger base ({[r]} ∪ i) c.
Proof.
  intros [Hb Ho Hk Hc] He Hl Hr. constructor; [set_solver| |done|done].
  intros r' [->%elem_of_singleton|Hr']%elem_of_union; [|by apply Ho].
  right. by exists id, e.
Qed.

Lemma tracks_self base i c e :
  is_live e = true -> c !! transaction_id e = Some e -> tracks base i c e.
Proof. intros Hl He r e0 Hr He0 Hl0 Hr0. rewrite He in He0. simplify_eq. by right. Qed.

Lemma tracks_saved base i c e : is_live e = true -> tracks base i (<[transaction_id e := e]> c) e.
Proof. intros Hl. apply tracks_self; [done|apply lookup_insert_eq]. Qed.

(** Forgetting a route that is no longer (or not) installed. *)
Lemma tracks_drop base i c e e' r :
  tracks base i c e -> transaction_id e' = transaction_id e -> is_live e' = true ->
  owned e ⊆ {[r]} ∪ owned e' -> tracks base (i ∖ {[r]}) c e'.
Proof.
  intros Ht Hid Hl Ho r' e0 Hr' He0 Hl0 Hr0. rewrite Hid in He0.
  apply elem_of_difference in Hr' as [Hi Hn].
  destruct (Ht r' e0) as [?|[_ Hr'']]; [done..|by left|]. right. split; [done|].
  apply Ho in Hr''. set_solver.
Qed.

Section ledger_wp.
Context {P J : Type} `{RoutePlatformLaws P} `{RouteJournalLaws J}.
Notation Orch := (RouteOrchestrator P J).
Implicit Types o : Orch.

(** The abstract state of an orchestrator. *)
Record view (i : Routes) (c : Entries) o : Prop := {
  vw_installed : installed (platform o) = i;
  vw_contents : contents (journal o) = c;
  vw_inv : journal_inv (journal o);
}.

Lemma wp_save i c e (Q : Res unit -> Orch -> Prop) o :
  view i c o ->
  (forall o', view i (<[transaction_id e := e]> c) o' -> Q (Ok tt) o') ->
  (forall x o', view i c o' -> Q (Err x) o') ->
  wp (on_journal (save e)) Q o.
Proof.
  intros [Hi Hc Hv] Hok Herr. apply wp_zoom. unfold wp.
  pose proof (save_inv e _ Hv) as Hv'. pose proof (save_effect e _ Hv) as He.
  destruct (save e (journal o)) as [[[]|x] j]; cbn in *.
  - apply Hok. constructor; cbn; [done|by rewrite He, Hc|done].
  - apply Herr. constructor; cbn; [done|by rewrite He, Hc|done].
Qed.

Lemma wp_add i c r (Q : Res unit -> Orch -> Prop) o :
  view i c o ->
  (forall o', view ({[r]} ∪ i) c o' -> Q (Ok tt) o') ->
  (forall x o', view i c o' -> Q (Err x) o') ->
  wp (on_platform (add_route r)) Q o.
Proof.
  intros [Hi Hc Hv] Hok Herr. apply wp_zoom. unfold wp.
  pose proof (add_route_effect r (platform o)) as He.
  destruct (add_route r (platform o)) as [[[]|x] p]; cbn in *.
  - apply Hok. constructor; cbn; [by rewrite He, Hi|done|done].
  - apply Herr. constructor; cbn; [by rewrite He, Hi|done|done].
Qed.

Lemma wp_remove i c r (Q : Res unit -> Orch -> Prop) o :
  view i c o ->
  (forall o', view (i ∖ {[r]}) c o' -> Q (Ok tt) o') ->
  (forall x o', view i c o' -> Q (Err x) o') ->
  wp (on_platform (remove_route r)) Q o.
Proof.
  intros [Hi Hc Hv] Hok Herr. apply wp_zoom. unfold wp.
  pose proof (remove_route_effect r (platform o)) as He.
  destruct (remove_route r (platform o)) as [[[]|x] p]; cbn in *.
  - apply Hok. constructor; cbn; [by rewrite He, Hi|done|done].
  - apply Herr. constructor; cbn; [by rewrite He, Hi|done|done].
Qed.

(** How rolling an entry back ends: the ledger still balances; on success the
    entry's routes are gone and the journal says so. *)
Definition rollback_post (base i : Routes) (c : Entries) (e : RouteJournalEntry)
    (r : Res unit) o' : Prop :=
  exists i' c', view i' c' o' /\ ledger base i' c' /\
    match r with
    | Ok _ => i' = i ∖ owned e /\ c' = <[transaction_id e := rolled e]> c
    | Err x => x = RouteRollbackFailed
    end.

Lemma rollback_post_err base i c e x o' i' c' :
  x = RouteRollbackFailed -> view i' c' o' -> ledger base i' c' ->
  rollback_post base i c e (Err x) o'.
Proof. intros ???. by exists i', c'. Qed.

Lemma wp_or_rollback_failed {A} (m : Meth Orch A) (Q : Res A -> Orch -> Prop) o :
  wp m (fun r o' => match r with
                    | Ok a => Q (Ok a) o'
                    | Err _ => Q (Err RouteRollbackFailed) o'
                    end) o ->
  wp (or_rollback_failed m) Q o.
Proof.
  intros Hm. unfold or_rollback_failed. do 2 wp_step.
  eapply wp_mono; [exact Hm|]. by intros [a|x] o'.
Qed.

(** Removing one claimed route and recording it. *)
Lemma wp_forget {A} base i c e e' r (k : Meth Orch A) (Q : Res A -> Orch -> Prop) o :
  view i c o -> ledger base i c -> tracks base i c e -> owned e ## base ->
  r ∈ owned e -> transaction_id e' = transaction_id e -> is_live e' = true ->
  owned e ⊆ {[r]} ∪ owned e' -> owned e' ⊆ owned e ->
  (forall o', view (i ∖ {[r]}) (<[transaction_id e := e']> c) o' ->
     ledger base (i ∖ {[r]}) (<[transaction_id e := e']> c) ->
     tracks base (i ∖ {[r]}) (<[transaction_id e := e']> c) e' -> wp k Q o') ->
  (forall i' c' o', view i' c' o' -> ledger base i' c' -> Q (Err RouteRollbackFailed) o') ->
  wp (or_rollback_failed (on_platform (remove_route r)) ;!
      or_rollback_failed (on_journal (save e')) ;! k) Q o.
Proof.
  intros Hv Hl Ht Hcl Hr Hid Hlive Hsub Hsup Hk Herr.
  wp_step. apply wp_or_rollback_failed, (wp_remove i c); [done| |by eauto].
  intros o1 Hv1. wp_step.
  assert (Hl1 : ledger base (i ∖ {[r]}) c) by (apply ledger_remove; set_solver).
  apply wp_or_rollback_failed, (wp_save _ _ _ _ _ Hv1); [|by eauto].
  intros o2 Hv2. rewrite <- Hid in *.
  assert (tracks base (i ∖ {[r]}) c e') by (by eapply tracks_drop).
  apply Hk; [done|apply ledger_save; [done|done|set_solver]|by apply tracks_saved].
Qed.

Lemma wp_rollback_applied base revs : forall i c e o,
  applied_routes e = rev revs -> pending_route e = None -> is_live e = true ->
  view i c o -> ledger base i c -> tracks base i c e -> owned e ## base ->
  wp (rollback_applied revs e) (fun r o' =>
    match r with
    | Ok ef => ef = with_applied [] e /\ exists c', view (i ∖ owned e) c' o' /\
        ledger base (i ∖ owned e) c' /\ tracks base (i ∖ owned e) c' ef /\
        forall x, <[transaction_id e := x]> c' = <[transaction_id e := x]> c
    | Err x => x = RouteRollbackFailed /\ exists i' c', view i' c' o' /\ ledger base i' c'
    end) o.
Proof.
  induction revs as [|r revs IH]; intros i c e o Ha Hp Hlive Hv Hl Ht Hcl;
    cbn [rollback_applied].
  - wp_step. assert (owned e = ∅) as -> by (unfold owned; rewrite Ha, Hp; set_solver).
    rewrite difference_empty_L. destruct e. cbn in *. subst. split; [done|]. by exists c.
  - set (e' := with_applied (rev revs) e).
    assert (Ho : owned e = {[r]} ∪ owned e').
    { unfold owned, e'. cbn. rewrite Ha, Hp. cbn. rewrite list_to_set_app_L. set_solver. }
    apply (wp_forget base i c e); try done; [set_solver..| |].
    + intros o' Hv' Hl' Ht'. eapply wp_mono; [apply IH|]; try done; [set_solver|].
      intros [ef|x] o'' Hpost; [|done]. destruct Hpost as (-> & c' & Hv'' & Hl'' & Ht'' & Hins).
      replace (i ∖ {[r]} ∖ owned e') with (i ∖ owned e) in * by set_solver.
      split; [done|]. exists c'. split_and!; [done..|]. intros y. cbn in Hins.
      by rewrite Hins, insert_insert_eq.
    + intros i' c' o' Hv' Hl'. split; [done|]. by exists i', c'.
Qed.

Lemma wp_rollback_entry base i c e o :
  is_live e = true -> view i c o -> ledger base i c -> tracks base i c e -> owned e ## base ->
  wp (rollback_entry e) (rollback_post base i c e) o.
Proof.
  intros Hlive Hv Hl Ht Hcl. unfold rollback_entry. wp_step.
  assert (Htail : forall i1 c1 e1 o1,
    pending_route e1 = None -> is_live e1 = true -> view i1 c1 o1 -> ledger base i1 c1 ->
    tracks base i1 c1 e1 -> owned e1 ## base -> rolled e1 = rolled e ->
    transaction_id e1 = transaction_id e -> i1 ∖ owned e1 = i ∖ owned e ->
    (forall x, <[transaction_id e := x]> c1 = <[transaction_id e := x]> c) ->
    wp (let! entry := rollback_applied (rev (applied_routes e1)) e1 in
        or_rollback_failed (on_journal (save (with_je_state RolledBack entry))))
      (rollback_post base i c e) o1).
  { intros i1 c1 e1 o1 Hp Hlive1 Hv1 Hl1 Ht1 Hcl1 Hroll Hid Hi Hins. wp_step.
    eapply wp_mono; [eapply (wp_rollback_applied base); try done; by rewrite rev_involutive|].
    intros [ef|x] o2; [|intros (-> & i' & c' & ? & ?); by eapply rollback_post_err].
    intros (-> & c2 & Hv2 & Hl2 & Ht2 & Hins2).
    set (er := with_je_state RolledBack (with_applied [] e1)) in *.
    assert (Her : er = rolled e).
    { rewrite <- Hroll. unfold er, rolled. destruct e1. cbn in *. by subst. }
    apply wp_or_rollback_failed, (wp_save _ _ _ _ _ Hv2).
    - intros o3 Hv3. assert (Hid3 : transaction_id er = transaction_id e) by (by rewrite Her).
      exists (i ∖ owned e), (<[transaction_id e := rolled e]> c).
      assert (Hc3 : <[transaction_id er := er]> c2 = <[transaction_id e := rolled e]> c)
        by (by rewrite Hid3, Her, <- Hid, Hins2, Hid, Hins).
      rewrite <- Hc3, <- Hi. split_and!; try done. apply ledger_save; [done| |set_solver].
      intros r e0 Hr He0 Hl0 Hr0. left.
      destruct (Ht2 r e0) as [?|[_ Hr']]; [done..|].
      unfold owned in Hr'. cbn in Hr'. rewrite Hp in Hr'. set_solver.
    - intros x o3 Hv3. by eapply rollback_post_err. }
  destruct (pending_route e) as [r|] eqn:Hp.
  - set (e1 := with_pending None e).
    assert (Ho : owned e = {[r]} ∪ owned e1) by (unfold owned; rewrite Hp; set_solver).
    apply (wp_forget base i c e); try done; [set_solver..| |].
    + intros o1 Hv1 Hl1 Ht1. wp_step. eapply Htail; try done; [set_solver..|].
      intros x. by rewrite insert_insert_eq.
    + intros i' c' o' Hv' Hl'. by eapply rollback_post_err.
  - wp_step. by eapply Htail.
Qed.
(** How an attempt to install [routes] for the entry [e] ends. *)
Definition install_post (base i : Routes) (c : Entries) (e : RouteJournalEntry)
    (routes : list RouteSpec) (r : Res unit) o' : Prop :=
  exists i' c', view i' c' o' /\ ledger base i' c' /\
    match r with
    | Ok _ => i' = list_to_set routes ∪ i /\
        c' = <[transaction_id e :=
                 with_je_state Applied (with_applied (applied_routes e ++ routes) e)]> c
    | Err x => x = RouteRollbackFailed \/
        (i' = i ∖ list_to_set (applied_routes e) /\ exists e',
           c' = <[transaction_id e := e']> c /\ e' = rolled e')
    end.

Lemma wp_rollback_failed_apply base i c e e0 i0 c0 rs x o :
  is_live e = true -> view i c o -> ledger base i c -> tracks base i c e -> owned e ## base ->
  transaction_id e = transaction_id e0 ->
  i ∖ owned e = i0 ∖ list_to_set (applied_routes e0) ->
  (forall y, <[transaction_id e := y]> c = <[transaction_id e := y]> c0) ->
  wp (rollback_failed_apply e x) (install_post base i0 c0 e0 rs) o.
Proof.
  intros Hlive Hv Hl Ht Hcl Hid Hi Hins. unfold rollback_failed_apply. do 2 wp_step.
  eapply wp_mono; [by apply (wp_rollback_entry base i c)|].
  intros [[]|y] o' (i' & c' & Hv' & Hl' & Hpost); wp_step; exists i', c';
    (split_and!; [done..|]); [|by left].
  destruct Hpost as [-> ->]. right. split; [done|]. exists (rolled e).
  by rewrite <- Hid, Hins.
Qed.

(** One route of the plan: the states between the write-ahead record and the
    next route. *)
Section one_route.
Context (base i : Routes) (c : Entries) (e : RouteJournalEntry) (r : RouteSpec)
  (routes : list RouteSpec).
Hypothesis Hl : ledger base i c.
Hypothesis He : c !! transaction_id e = Some e.
Hypothesis Hs : je_state e = Prepared.
Hypothesis Hp : pending_route e = None.
Hypothesis Hr : r ∉ i.

Let ep : RouteJournalEntry := with_pending (Some r) e.
Let e1 : RouteJournalEntry :=
  with_pending None (with_applied (applied_routes ep ++ [r]) ep).

Lemma install_live : is_live e = true.
Proof using Hs. unfold is_live. by rewrite Hs. Qed.
Lemma install_owned : owned e = list_to_set (applied_routes e).
Proof using Hp. unfold owned. rewrite Hp. clear. set_solver. Qed.
Lemma pending_owned : owned ep = {[r]} ∪ owned e.
Proof using Hp. unfold owned, ep. rewrite Hp. clear. set_solver. Qed.
Lemma added_owned : owned e1 = {[r]} ∪ owned e.
Proof using Hp. unfold owned, e1. cbn. rewrite list_to_set_app_L, Hp. clear. set_solver. Qed.
Lemma pending_clean : ({[r]} ∪ owned e) ## base.
Proof using Hl He Hr.
  pose proof (lg_clean _ _ _ Hl _ _ He). pose proof (lg_base _ _ _ Hl).
  clear -Hr H3 H4. set_solver.
Qed.

Lemma pending_ledger : ledger base i (<[transaction_id e := ep]> c).
Proof using Hl He Hr Hp Hs.
  apply (ledger_save base i c ep); [done| |rewrite pending_owned; apply pending_clean].
  intros r' e0 _ He0 _ Hr0. cbn in He0. rewrite He in He0. injection He0 as <-. right.
  split; [apply install_live|]. rewrite pending_owned. set_solver.
Qed.

(** The route could not be added: the record is taken back, then the
    transaction. *)
Lemma wp_add_failed error o :
  view i (<[transaction_id e := ep]> c) o ->
  wp (let! saved := attempt (on_journal (save e)) in
      match saved with
      | Err _ => rollback_failed_apply e RouteJournalUnavailable
      | Ok _ => rollback_failed_apply e error
      end) (install_post base i c e (r :: routes)) o.
Proof using Hl He Hr Hp Hs.
  intros Hv. assert (Ht : tracks base i (<[transaction_id e := ep]> c) e).
  { intros r' e0 Hr' He0 _ Hr0. rewrite lookup_insert_eq in He0. injection He0 as <-. right.
    split; [apply install_live|]. rewrite pending_owned in Hr0. set_solver. }
  pose proof pending_clean. pose proof pending_ledger. pose proof install_owned as Ho.
  assert (Hcl : owned e ## base) by set_solver.
  do 2 wp_step. apply (wp_save _ _ _ _ _ Hv).
  - intros o1 Hv1. eapply wp_rollback_failed_apply; try done.
    + apply install_live.
    + by apply ledger_save.
    + apply tracks_saved, install_live.
    + by rewrite Ho.
    + intros y. by rewrite !insert_insert_eq.
  - intros x o1 Hv1. eapply wp_rollback_failed_apply; try done.
    + apply install_live.
    + by rewrite Ho.
    + intros y. by rewrite !insert_insert_eq.
Qed.

(** The route is in: it is recorded as applied and the next one follows. *)
Lemma wp_add_succeeded (k : Meth Orch unit) o :
  view ({[r]} ∪ i) (<[transaction_id e := ep]> c) o ->
  (forall o', view ({[r]} ∪ i) (<[transaction_id e := e1]> c) o' ->
     ledger base ({[r]} ∪ i) (<[transaction_id e := e1]> c) ->
     wp k (install_post base i c e (r :: routes)) o') ->
  wp (let! saved := attempt (on_journal (save e1)) in
      match saved with
      | Err _ => rollback_failed_apply e1 RouteRollbackFailed
      | Ok _ => k
      end) (install_post base i c e (r :: routes)) o.
Proof using Hl He Hr Hp Hs.
  intros Hv Hk. pose proof pending_clean. pose proof install_owned as Ho.
  assert (Hlive : is_live e1 = true) by apply install_live.
  assert (Hl1 : ledger base ({[r]} ∪ i) (<[transaction_id e := ep]> c)).
  { apply (ledger_add _ _ _ _ (transaction_id e) ep); [apply pending_ledger|apply lookup_insert_eq| |].
    - apply install_live.
    - rewrite pending_owned. set_solver. }
  assert (Ht : tracks base ({[r]} ∪ i) (<[transaction_id e := ep]> c) e1).
  { intros r' e0 _ He0 _ Hr0. cbn in He0. rewrite lookup_insert_eq in He0. injection He0 as <-.
    right. split; [done|]. by rewrite added_owned, <- pending_owned. }
  assert (Hcl : owned e1 ## base) by (by rewrite added_owned).
  do 2 wp_step. apply (wp_save _ _ _ _ _ Hv).
  - intros o1 Hv1. pose proof (ledger_save _ _ _ _ Hl1 Ht Hcl) as Hl2.
    cbn in Hv1, Hl2. rewrite insert_insert_eq in Hv1, Hl2. by apply Hk.
  - intros x o1 Hv1. eapply wp_rollback_failed_apply; try done.
    + rewrite added_owned, Ho. set_solver.
    + intros y. by rewrite !insert_insert_eq.
Qed.

(** What the rest of the plan achieves is achieved for the whole. *)
Lemma install_post_step res o :
  install_post base ({[r]} ∪ i) (<[transaction_id e := e1]> c) e1 routes res o ->
  install_post base i c e (r :: routes) res o.
Proof using He Hp Hr Hs.
  intros (i' & c' & Hv & Hl' & Hres). exists i', c'. split_and!; [done..|].
  destruct res as [[]|x].
  - destruct Hres as [-> ->]. split; [clear; set_solver|]. cbn. rewrite insert_insert_eq.
    rewrite <- app_assoc. destruct e. cbn in *. by subst.
  - destruct Hres as [->|(-> & e' & -> & Hroll)]; [by left|]. right. split.
    + cbn. rewrite list_to_set_app_L. clear -Hr. set_solver.
    + exists e'. cbn. by rewrite insert_insert_eq.
Qed.
End one_route.

Lemma wp_install_routes base routes : forall i c e o,
  view i c o -> ledger base i c -> c !! transaction_id e = Some e -> je_state e = Prepared ->
  pending_route e = None -> NoDup routes -> (forall r, r ∈ routes -> r ∉ i) ->
  wp (install_routes routes e) (install_post base i c e routes) o.
Proof.
  induction routes as [|r routes IH]; intros i c e o Hv Hl He Hs Hp Hnd Hfresh;
    cbn [install_routes]; pose proof (lg_clean _ _ _ Hl _ _ He) as Hcl;
    pose proof (install_live e Hs) as Hlive; pose proof (install_owned e Hp) as Hoe.
  - do 2 wp_step. set (e' := with_je_state Applied e).
    assert (Ht : tracks base i c e').
    { intros r' e0 Hr He0 _ Hr0. cbn in He0. rewrite He in He0. simplify_eq. by right. }
    apply (wp_save i c); [done| |].
    + intros o1 Hv1. wp_step. exists i, (<[transaction_id e := e']> c). split_and!.
      * done.
      * by apply (ledger_save base i c e').
      * set_solver.
      * rewrite app_nil_r. by destruct e.
    + intros x o1 Hv1. eapply wp_rollback_failed_apply; try done. by rewrite <- Hoe.
  - assert (Hr : r ∉ i) by (apply Hfresh; set_solver). apply NoDup_cons in Hnd as [Hnr Hnd].
    assert (Hen : with_pending None (with_pending (Some r) e) = e)
      by (destruct e; cbn in *; by subst).
    rewrite Hen. do 2 wp_step. apply (wp_save i c); [done| |].
    + intros o1 Hv1. do 2 wp_step. eapply wp_add; [exact Hv1| |].
      * intros o2 Hv2. apply wp_add_succeeded; try done. intros o3 Hv3 Hl3.
        eapply wp_mono; [apply IH|].
        -- exact Hv3.
        -- exact Hl3.
        -- apply lookup_insert_eq.
        -- done.
        -- done.
        -- done.
        -- intros r' Hr'. pose proof (Hfresh r'). set_solver.
        -- intros res o'. by apply install_post_step.
      * intros x o2 Hv2. by apply wp_add_failed.
    + intros x o1 Hv1. eapply wp_rollback_failed_apply; try done;
        [by apply tracks_self|by rewrite Hoe].
Qed.
(** ** the operations *)

Lemma find_by_id id l :
  NoDup (map transaction_id l) -> find_transaction id l = by_id l !! id.
Proof.
  unfold find_transaction, by_id. induction l as [|e l IH]; [done|].
  cbn [map find list_to_map foldr fst snd]. intros [_ Hnd]%NoDup_cons.
  change (foldr _ ∅ (map ?f l)) with (by_id l).
  case_bool_decide as Hid; cbn; [subst; by rewrite lookup_insert_eq|].
  rewrite lookup_insert_ne by done. by apply IH.
Qed.

Lemma by_id_lookup l e :
  NoDup (map transaction_id l) -> e ∈ l -> by_id l !! transaction_id e = Some e.
Proof.
  intros Hnd He. unfold by_id. apply elem_of_list_to_map_1.
  - by rewrite <- list_fmap_compose.
  - apply list_elem_of_fmap. by exists e.
Qed.

Lemma wp_journal_entries i c (Q : Res (list RouteJournalEntry) -> Orch -> Prop) o :
  view i c o ->
  (forall l, NoDup (map transaction_id l) -> c = by_id l -> Q (Ok l) o) ->
  (forall x, Q (Err x) o) ->
  wp journal_entries Q o.
Proof.
  intros [_ Hc Hv] Hok Herr. unfold journal_entries. do 2 wp_step. wp_step.
  destruct (entries (journal o)) as [l|x] eqn:E; [|done].
  destruct (entries_sound _ _ Hv E) as [Hnd Hby]. apply Hok; [done|by rewrite <- Hc].
Qed.

Lemma wp_list_routes i c (Q : Res (list ExistingRoute) -> Orch -> Prop) o :
  view i c o ->
  (forall l o', view i c o' ->
     (forall r, r ∈ i -> exists er, er ∈ l /\ er_interface er = rs_interface r /\
        IpNetwork_parse (er_destination er) = IpNetwork_parse (rs_destination r)) ->
     Q (Ok l) o') ->
  (forall x o', view i c o' -> Q (Err x) o') ->
  wp (on_platform list_routes) Q o.
Proof.
  intros [Hi Hc Hv] Hok Herr. apply wp_zoom. unfold wp.
  pose proof (list_routes_pure (platform o)) as Hpure.
  pose proof (list_routes_complete (platform o)) as Hcomp.
  destruct (list_routes (platform o)) as [[l|x] p]; cbn in *.
  - apply Hok; [constructor; cbn; congruence|]. intros r Hr. apply Hcomp; [done|by rewrite Hi].
  - apply Herr. constructor; cbn; congruence.
Qed.

(** A plan that passes the conflict check asks for nothing that is already
    there. *)
Lemma accepted_plan_fresh (i : Routes) l desired policy ns :
  (forall r, r ∈ i -> exists er, er ∈ l /\ er_interface er = rs_interface r /\
     IpNetwork_parse (er_destination er) = IpNetwork_parse (rs_destination r)) ->
  Forall2 (fun r n => IpNetwork_parse (rs_destination r) = Ok n) desired ns ->
  reject_conflicts l desired policy = Ok tt ->
  (forall r, r ∈ desired -> ~ default_route r) ->
  forall r, r ∈ desired -> r ∉ i.
Proof.
  intros Hcomp Hns Hrc Hdef r Hr Hi. destruct (Hcomp r Hi) as (er & Her & _ & Hp).
  apply list_elem_of_lookup in Hr as Hr'. destruct Hr' as [k Hk].
  destruct (Forall2_lookup_l _ _ _ _ _ Hns Hk) as (n & _ & Hn). cbn in Hn.
  rewrite Hn in Hp.
  destruct (reject_conflicts_sound _ _ _ Hrc er r n n) as [_ Hlt]; [done..| | |lia].
  - intros Hz. apply (Hdef r Hr). by exists n.
  - apply overlaps_refl.
Qed.

Definition apply_post (base i : Routes) (c : Entries) (id profile : string)
    (desired : list RouteSpec) (r : Res unit) o' : Prop :=
  exists i' c', view i' c' o' /\ ledger base i' c' /\
    match r with
    | Ok _ => (exists e, c' !! id = Some e /\ je_state e = Applied /\
          je_profile_id e = profile /\ desired_routes e = desired /\
          (c !! id = None -> applied_routes e = desired /\ pending_route e = None)) /\
        i' = (if c !! id then i else list_to_set desired ∪ i)
    | Err x => x = RouteRollbackFailed \/
        (i' = i /\ (c' = c \/ exists e', c' = <[id := e']> c /\ e' = rolled e'))
    end.

Lemma wp_apply base i c id profile desired o :
  view i c o -> ledger base i c -> (forall r, r ∈ desired -> ~ default_route r) ->
  wp (apply id profile desired) (apply_post base i c id profile desired) o.
Proof.
  intros Hv Hl Hdef. unfold apply.
  assert (Hquiet : forall x o', view i c o' ->
    apply_post base i c id profile desired (Err x) o').
  { intros x o' Hv'. exists i, c. split_and!; [done..|]. right. auto. }
  do 2 wp_step. destruct (validate_plan id profile desired) as [[]|x] eqn:Hplan; [|by apply Hquiet].
  wp_step. apply (wp_journal_entries i c); [done| |by intros; apply Hquiet].
  intros l Hnd Hby. rewrite (find_by_id _ _ Hnd), <- Hby.
  destruct (c !! id) as [ex|] eqn:Hid.
  { destruct (_ && _) eqn:Hsame; wp_step; [|by apply Hquiet]. reflect_bools.
    exists i, c. rewrite Hid. split_and!; try done. by exists ex. }
  wp_step. apply (wp_list_routes i c); [done| |by intros; apply Hquiet].
  intros prev o1 Hv1 Hcomp. do 2 wp_step. do 2 wp_step.
  destruct (reject_conflicts prev desired (conflict_policy o1)) as [[]|x] eqn:Hrc;
    [|by apply Hquiet].
  unfold validate_plan in Hplan. case_match; [done|].
  apply validate_routes_spec in Hplan as (ns & Hns & _ & Hord).
  set (e := Build_RouteJournalEntry _ _ _ _ _ _ _).
  wp_step. apply (wp_save i c); [done| |by intros; apply Hquiet]. intros o2 Hv2.
  eapply wp_mono; [apply (wp_install_routes base)|].
  - exact Hv2.
  - apply (ledger_save base i c e); [done| |set_solver].
    intros r e0 _ He0. cbn in He0. by rewrite Hid in He0.
  - apply lookup_insert_eq.
  - done.
  - done.
  - by eapply validated_routes_NoDup.
  - by eapply accepted_plan_fresh.
  - intros [[]|x] o' (i' & c' & Hv' & Hl' & Hpost); exists i', c'; split_and!; try done.
    + destruct Hpost as [_ ->]. cbn. eexists. rewrite lookup_insert_eq. by split_and!.
    + rewrite Hid. apply Hpost.
    + destruct Hpost as [->|(-> & e' & -> & He')]; [by left|right]. split; [set_solver|].
      right. exists e'. cbn. by rewrite insert_insert_eq.
Qed.

(** Rolling back every live entry of a snapshot. *)
Lemma wp_rollback_all base l : forall i c o,
  view i c o -> ledger base i c -> NoDup (map transaction_id l) ->
  (forall e, e ∈ l -> c !! transaction_id e = Some e /\ is_live e = true) ->
  wp (rollback_all l) (fun r o' => exists i' c', view i' c' o' /\ ledger base i' c' /\
    match r with
    | Ok _ => forall id e, c' !! id = Some e ->
        (c !! id = Some e /\ id ∉ map transaction_id l) \/ e = rolled e
    | Err x => x = RouteRollbackFailed
    end) o.
Proof.
  induction l as [|e l IH]; intros i c o Hv Hl Hnd Hin; cbn [rollback_all].
  - wp_step. exists i, c. split_and!; [done..|]. intros id e He. left. split; [done|set_solver].
  - apply NoDup_cons in Hnd as [Hne Hnd]. destruct (Hin e) as [He Hlive]; [set_solver|].
    wp_step. eapply wp_mono; [apply (wp_rollback_entry base i c)|]; try done.
    { by apply tracks_self. }
    { by eapply lg_clean. }
    intros [[]|x] o1 (i1 & c1 & Hv1 & Hl1 & Hpost); [|by exists i1, c1].
    destruct Hpost as [-> ->]. eapply wp_mono; [apply (IH _ _ _ Hv1 Hl1 Hnd)|].
    + intros e0 He0. rewrite lookup_insert_ne; [apply Hin; set_solver|].
      intros Heq. apply Hne. rewrite Heq. apply list_elem_of_fmap. by exists e0.
    + intros [[]|x] o2 (i2 & c2 & Hv2 & Hl2 & Hpost); exists i2, c2; split_and!; try done.
      intros id e2 He2. destruct (Hpost _ _ He2) as [[Hlk Hn]|?]; [|by right].
      apply lookup_insert_Some in Hlk as [[<- <-]|[Hd Hlk]]; [by right|left].
      split; [done|]. cbn. set_solver.
Qed.

Lemma rolled_not_live e : e = rolled e -> is_live e = false.
Proof. by intros ->. Qed.

Lemma wp_recover_stale base i c o :
  view i c o -> ledger base i c ->
  wp recover_stale (fun r o' => exists i' c', view i' c' o' /\ ledger base i' c' /\
    (r = Ok tt -> i' = base /\ forall id e, c' !! id = Some e -> is_live e = false)) o.
Proof.
  intros Hv Hl. unfold recover_stale. wp_step.
  apply (wp_journal_entries i c); [done| |intros; by exists i, c].
  intros l Hnd Hby. eapply wp_mono; [apply (wp_rollback_all base _ i c)|]; try done.
  - clear Hby. induction l as [|e l IH]; cbn in *; [done|]. apply NoDup_cons in Hnd as [Hn Hnd].
    destruct (is_live e); [|by apply IH]. cbn. constructor; [|by apply IH].
    intros (e0 & Heq & Hin)%list_elem_of_fmap. apply Hn. apply list_elem_of_fmap. exists e0.
    split; [done|]. apply list_elem_of_In, List.filter_In in Hin as [Hin _].
    by apply list_elem_of_In.
  - intros e He. apply list_elem_of_In, List.filter_In in He as [He Hlive].
    apply list_elem_of_In in He. split; [|done]. rewrite Hby. by apply by_id_lookup.
  - intros r o' (i' & c' & Hv' & Hl' & Hpost). exists i', c'. split_and!; [done..|].
    intros ->. assert (Hdead : forall id e, c' !! id = Some e -> is_live e = false).
    { intros id e He. destruct (Hpost _ _ He) as [[Hlk Hn]|?]; [|by apply rolled_not_live].
      destruct (is_live e) eqn:Hlive; [|done]. destruct Hn. apply list_elem_of_fmap. exists e.
      split; [symmetry; by eapply lg_key|]. apply list_elem_of_In, List.filter_In.
      split; [|done]. apply list_elem_of_In. rewrite Hby in Hlk.
      apply elem_of_list_to_map_2, list_elem_of_fmap in Hlk as (e0 & [= -> ->] & ?). done. }
    split; [|done]. destruct Hl' as [Hb Ho _ _]. apply set_eq. intros r. split; [|apply Hb].
    intros Hr. destruct (Ho r Hr) as [?|(id & e & He & Hlive & _)]; [done|].
    by rewrite (Hdead _ _ He) in Hlive.
Qed.

Lemma wp_rollback base i c id o :
  view i c o -> ledger base i c ->
  wp (rollback id) (fun r o' => exists i' c', view i' c' o' /\ ledger base i' c' /\
    (r = Ok tt ->
       (forall e, c !! id = Some e -> is_live e = true -> i' = i ∖ owned e) /\
       (forall e, c' !! id = Some e -> is_live e = false) /\
       delete id c' = delete id c)) o.
Proof.
  intros Hv Hl. unfold rollback. wp_step.
  apply (wp_journal_entries i c); [done| |intros; by exists i, c].
  intros l Hnd Hby. rewrite (find_by_id _ _ Hnd), <- Hby.
  destruct (c !! id) as [e|] eqn:He.
  2: { wp_step. exists i, c. split_and!; try done. intros _. split_and!; [done| |done].
       by rewrite He. }
  pose proof (lg_key _ _ _ Hl _ _ He) as Hid. case_bool_decide as Hst.
  - wp_step. exists i, c. split_and!; try done. intros _. split_and!; [| |done].
    + intros e' [= <-]. unfold is_live. by rewrite Hst.
    + intros e' He'. simplify_eq. unfold is_live. by rewrite Hst.
  - assert (Hlive : is_live e = true) by (unfold is_live; by destruct (je_state e)).
    eapply wp_mono; [apply (wp_rollback_entry base i c)|]; try done.
    { apply tracks_self; [done|by rewrite Hid]. }
    { by eapply lg_clean. }
    intros r o1 (i1 & c1 & Hv1 & Hl1 & Hpost). exists i1, c1. split_and!; [done..|].
    intros ->. destruct Hpost as [-> ->]. rewrite Hid. split_and!.
    + by intros e' [= <-] _.
    + intros e'. rewrite lookup_insert_eq. by intros [= <-].
    + by rewrite delete_insert_eq.
Qed.
End ledger_wp.

Section repeated.
Context {P J : Type} `{RoutePlatform P} `{RouteJournalLaws J}.
Notation Orch := (RouteOrchestrator P J).

(** Repeating a transaction changes nothing: rolling back what is rolled back succeeds
    without effect, and applying under an id the journal knows succeeds exactly for the
    same profile and routes already Applied, and is refused otherwise, without effect. *)
Theorem repeated_transactions_are_noops id profile desired (o : Orch) e l :
  journal_inv (journal o) -> entries (journal o) = Ok l ->
  contents (journal o) !! id = Some e ->
  (je_state e = RolledBack -> rollback id o = (Ok tt, o)) /\
  (validate_plan id profile desired = Ok tt ->
   apply id profile desired o =
     (if bool_decide (je_profile_id e = profile /\ desired_routes e = desired /\
                      je_state e = Applied)
      then Ok tt else Err InvalidStateTransition, o)).
Proof.
  intros Hj Hl He. destruct (entries_sound _ _ Hj Hl) as [Hnd Hby].
  assert (Hf : find_transaction id l = Some e) by (by rewrite find_by_id, <- Hby).
  split.
  - intros Hs. unfold rollback, journal_entries, bind, get, lift. rewrite Hl, Hf, Hs. done.
  - intros Hv. unfold apply, journal_entries, bind, get, lift. rewrite Hv, Hl, Hf.
    by repeat case_bool_decide; try naive_solver.
Qed.
End repeated.
