(* ===== verification/RouteJournal.v ===== *)
(** * RouteJournal: the journal in memory and the journal on disk

    The rest of [src-tauri/src/networking/route.rs]: [MemoryRouteJournal] and
    [FileRouteJournal] (temporary file, sync, atomic rename), both shown to keep
    the contract [RouteJournalLaws] that the orchestrator is proved against, and
    the atomicity of a save to disk.  The file system and the JSON codec are
    parameters with the laws POSIX and [serde_json] document. *)

From Stdlib Require Import Ascii String.
From S2P Require Import Prelude Text NetState IpAddr Config Route.

(** ** the journal in memory *)

Record MemoryRouteJournal := {
  mem_entries : gmap string RouteJournalEntry;
}.

(** [HashMap::values] has no specified order; [map_to_list] stands for it. *)
#[global] Instance MemoryRouteJournal_journal : RouteJournal MemoryRouteJournal := {
  entries self := Ok (map_to_list (mem_entries self)).*2;
  save entry := modify (fun self =>
    {| mem_entries := <[transaction_id entry := entry]> (mem_entries self) |});
}.

(** ** the journal on disk *)

Definition ROUTE_JOURNAL_VERSION : Z := 1.

Record RouteJournalDocument := {
  rd_version : Z;
  rd_entries : list RouteJournalEntry;
}.

Inductive FileKind : Type := RegularFile | Directory | OtherFile.
Inductive IoErrorKind : Type := NotFound | OtherIo.

#[global] Instance FileKind_eq_dec : EqDecision FileKind.
Proof. solve_decision. Defined.

(** [std::fs], [std::path] and [std::process]; a file handle is named by the
    path it was opened at. *)
Class FileSystem (F : Type) := {
  symlink_metadata : string -> F -> result FileKind IoErrorKind;
  fs_read : string -> F -> result (list Z) IoErrorKind;
  create_dir_all : string -> M F IoErrorKind unit;
  set_permissions : string -> Z -> M F IoErrorKind unit;
  open_create_new : string -> Z -> M F IoErrorKind unit;
  write_all : string -> list Z -> M F IoErrorKind unit;
  sync_all : string -> M F IoErrorKind unit;
  fs_rename : string -> string -> M F IoErrorKind unit;
  remove_file : string -> M F IoErrorKind unit;
  path_parent : string -> option string;
  process_id : Z;
}.

(** [serde_json] at the journal document. *)
Class JournalCodec := {
  document_from_slice : list Z -> option RouteJournalDocument;
  document_to_vec_pretty : RouteJournalDocument -> option (list Z);
}.

(** The journal, with the file system it lives in and the process-wide
    counter of temporary names. *)
Record FileRouteJournal (F : Type) := {
  fj_path : string;
  fj_fs : F;
  ROUTE_JOURNAL_TEMP_SEQUENCE : Z;
}.
Arguments fj_path {F} _.
Arguments fj_fs {F} _.
Arguments ROUTE_JOURNAL_TEMP_SEQUENCE {F} _.

Section file_journal.
Context {F : Type} `{FileSystem F} `{JournalCodec}.
Notation FJ := (FileRouteJournal F).

Definition FileRouteJournal_new (path : string) (fs : F) (sequence : Z) : FJ :=
  {| fj_path := path; fj_fs := fs; ROUTE_JOURNAL_TEMP_SEQUENCE := sequence |}.

Definition read_document (self : FJ) : Res RouteJournalDocument :=
  match symlink_metadata (fj_path self) (fj_fs self) with
  | Err NotFound => Ok {| rd_version := ROUTE_JOURNAL_VERSION; rd_entries := [] |}
  | Err _ => Err RouteJournalUnavailable
  | Ok kind =>
      if negb (bool_decide (kind = RegularFile)) then Err RouteJournalUnavailable
      else
        let? bytes := map_err (fun _ => RouteJournalUnavailable)
          (fs_read (fj_path self) (fj_fs self)) in
        let? document := ok_or (document_from_slice bytes) RouteJournalCorrupted in
        if negb (rd_version document =? ROUTE_JOURNAL_VERSION) then Err RouteJournalCorrupted
        else Ok document
  end.

(** A file-system call whose error becomes [RouteJournalUnavailable]. *)
Definition io {A} (m : M F IoErrorKind A) : Meth FJ A := fun self =>
  let (r, fs) := m (fj_fs self) in
  (map_err (fun _ => RouteJournalUnavailable) r,
   FileRouteJournal_new (fj_path self) fs (ROUTE_JOURNAL_TEMP_SEQUENCE self)).

(** [fetch_add(1)] wraps around at 2^64. *)
Definition temporary_journal_path (path : string) : Meth FJ string := fun self =>
  let sequence := ROUTE_JOURNAL_TEMP_SEQUENCE self in
  (Ok (String.append path
        (String.append ".tmp."
          (String.append (print_uint process_id)
            (String.append "." (print_uint sequence))))),
   FileRouteJournal_new (fj_path self) (fj_fs self) ((sequence + 1) mod 2 ^ 64)).

Definition ensure_private_directory (path : string) : Meth FJ unit :=
  io (create_dir_all path) ;!
  let! self := get in
  let! metadata := lift (map_err (fun _ => RouteJournalUnavailable)
                          (symlink_metadata path (fj_fs self))) in
  if negb (bool_decide (metadata = Directory)) then raise RouteJournalUnavailable
  else io (set_permissions path 448).

Definition metadata_is_ok_and (r : result FileKind IoErrorKind) (p : FileKind -> bool) : bool :=
  match r with Ok k => p k | Err _ => false end.

Definition write_document (document : RouteJournalDocument) : Meth FJ unit :=
  let! self := get in
  let! parent := lift (ok_or (path_parent (fj_path self)) RouteJournalUnavailable) in
  ensure_private_directory parent ;!
  let! self := get in
  if metadata_is_ok_and (symlink_metadata (fj_path self) (fj_fs self))
       (fun metadata => negb (bool_decide (metadata = RegularFile)))
  then raise RouteJournalUnavailable
  else
    let! temp_path := temporary_journal_path (fj_path self) in
    let! result := attempt (
      io (open_create_new temp_path 384) ;!
      let! bytes := lift (ok_or (document_to_vec_pretty document) RouteJournalUnavailable) in
      io (write_all temp_path bytes) ;!
      io (sync_all temp_path) ;!
      io (fs_rename temp_path (fj_path self))) in
    (if is_ok result then ret tt
     else let! _ := attempt (io (remove_file temp_path)) in ret tt) ;!
    lift result.

(** [sort_by] on the transaction ids is a stable sort: insertion from the
    right, an equal element staying in front. *)
Fixpoint insert_entry (e : RouteJournalEntry) (l : list RouteJournalEntry)
  : list RouteJournalEntry :=
  match l with
  | [] => [e]
  | e' :: l' =>
      if bytes_leb (bytes (transaction_id e)) (bytes (transaction_id e')) then e :: l
      else e' :: insert_entry e l'
  end.

Definition sort_entries (l : list RouteJournalEntry) : list RouteJournalEntry :=
  foldr insert_entry [] l.

(** [if let Some(existing) = iter_mut().find(..) { *existing = e } else { push }]. *)
Fixpoint upsert (entry : RouteJournalEntry) (l : list RouteJournalEntry)
  : list RouteJournalEntry :=
  match l with
  | [] => [entry]
  | candidate :: l =>
      if bool_decide (transaction_id candidate = transaction_id entry)
      then entry :: l
      else candidate :: upsert entry l
  end.

Definition file_entries (self : FJ) : Res (list RouteJournalEntry) :=
  let? document := read_document self in Ok (rd_entries document).

Definition file_save (entry : RouteJournalEntry) : Meth FJ unit :=
  let! self := get in
  let! document := lift (read_document self) in
  write_document {|
    rd_version := rd_version document;
    rd_entries := sort_entries (upsert entry (rd_entries document));
  |}.

#[global] Instance FileRouteJournal_journal : RouteJournal FJ := {
  entries := file_entries;
  save := file_save;
}.
End file_journal.

(** ** the journal in memory keeps the contract *)

#[global] Program Instance MemoryRouteJournal_laws : RouteJournalLaws MemoryRouteJournal := {
  journal_inv self := map_Forall (fun id e => transaction_id e = id) (mem_entries self);
  contents := mem_entries;
}.
Next Obligation.
  intros j l Hinv [= <-]. assert (Heq : map (fun e => (transaction_id e, e)) (map_to_list (mem_entries j)).*2 = map_to_list (mem_entries j)).
  { rewrite <- list_fmap_compose. rewrite <- (list_fmap_id (map_to_list (mem_entries j))) at 2.
    apply list_fmap_ext. intros k [id e] Hk. cbn. f_equal. apply Hinv.
    apply elem_of_map_to_list. by eapply list_elem_of_lookup_2. }
  split.
  - pose proof (NoDup_fst_map_to_list (mem_entries j)) as Hnd. rewrite <- Heq in Hnd.
    by rewrite <- list_fmap_compose in Hnd.
  - unfold by_id. by rewrite Heq, list_to_map_to_list.
Qed.
Next Obligation. intros e j Hinv. cbn. by apply map_Forall_insert_2. Qed.
Next Obligation. done. Qed.

(** ** the journal on disk keeps the contract *)

Inductive FileObject : Type := FileData (data : list Z) | FileDir | FileOther.

Definition kind_of (o : FileObject) : FileKind :=
  match o with FileData _ => RegularFile | FileDir => Directory | FileOther => OtherFile end.

(** What the journal relies on: queries are truthful, a failed rename changes
    nothing, a successful one replaces the target by the source, and every
    other call touches only the path it names. *)
Class FileSystemLaws (F : Type) `{FileSystem F} := {
  file_at : F -> string -> option FileObject;
  metadata_ok f p k : symlink_metadata p f = Ok k -> kind_of <$> file_at f p = Some k;
  metadata_absent f p : symlink_metadata p f = Err NotFound -> file_at f p = None;
  read_ok f p b : fs_read p f = Ok b -> file_at f p = Some (FileData b);
  create_dir_all_frame f d p :
    path_parent p = Some d -> file_at (create_dir_all d f).2 p = file_at f p;
  set_permissions_frame f d m p : file_at (set_permissions d m f).2 p = file_at f p;
  open_ok f t m : (open_create_new t m f).1 = Ok tt ->
    file_at (open_create_new t m f).2 t = Some (FileData []);
  open_frame f t m p : p <> t -> file_at (open_create_new t m f).2 p = file_at f p;
  write_ok f t b b0 : (write_all t b f).1 = Ok tt -> file_at f t = Some (FileData b0) ->
    file_at (write_all t b f).2 t = Some (FileData (b0 ++ b));
  write_frame f t b p : p <> t -> file_at (write_all t b f).2 p = file_at f p;
  sync_frame f t p : file_at (sync_all t f).2 p = file_at f p;
  rename_ok f t p : (fs_rename t p f).1 = Ok tt -> file_at (fs_rename t p f).2 p = file_at f t;
  rename_err f t p x : (fs_rename t p f).1 = Err x ->
    file_at (fs_rename t p f).2 p = file_at f p;
  remove_frame f t p : p <> t -> file_at (remove_file t f).2 p = file_at f p;
}.

Class JournalCodecLaws `{JournalCodec} := {
  codec_round_trip d b : document_to_vec_pretty d = Some b -> document_from_slice b = Some d;
}.

Lemma insert_entry_perm e l : insert_entry e l ≡ₚ e :: l.
Proof.
  induction l as [|e' l IH]; cbn; [done|]. case_match; [done|].
  rewrite IH. apply Permutation_swap.
Qed.

Lemma sort_entries_perm l : sort_entries l ≡ₚ l.
Proof.
  induction l as [|e l IH]; [done|]. cbn. rewrite insert_entry_perm.
  by apply perm_skip.
Qed.

Lemma upsert_ids e l id : id ∈ map transaction_id (upsert e l) <->
  id = transaction_id e \/ id ∈ map transaction_id l.
Proof.
  induction l as [|e' l IH]; cbn; [set_solver|].
  case_bool_decide as Heq; cbn; rewrite !elem_of_cons; [rewrite Heq; tauto|rewrite IH; tauto].
Qed.

Lemma upsert_spec e l :
  NoDup (map transaction_id l) ->
  NoDup (map transaction_id (upsert e l)) /\
  by_id (upsert e l) = <[transaction_id e := e]> (by_id l).
Proof.
  unfold by_id. induction l as [|e' l IH]; cbn [upsert map].
  - intros _. split; [apply NoDup_singleton|done].
  - intros [Hn Hnd]%NoDup_cons. destruct (IH Hnd) as [IH1 IH2].
    case_bool_decide as Heq; cbn.
    + rewrite Heq in *. split; [by constructor|]. by rewrite insert_insert_eq.
    + split; [constructor; [|done]|].
      * rewrite upsert_ids. intros [?|?]; congruence.
      * rewrite IH2. by apply insert_insert_ne.
Qed.

Lemma by_id_perm l l' :
  l ≡ₚ l' -> NoDup (map transaction_id l) -> by_id l = by_id l'.
Proof.
  intros Hp Hnd. unfold by_id. apply list_to_map_proper.
  - by rewrite <- list_fmap_compose.
  - by apply fmap_Permutation.
Qed.

Section file_laws.
Context {F : Type} `{FileSystemLaws F} `{JournalCodecLaws}.
Notation FJ := (FileRouteJournal F).
Implicit Types self : FJ.

Definition content_at self : option FileObject := file_at (fj_fs self) (fj_path self).

(** [self'] is [self] after calls that did not touch the journal file. *)
Definition undisturbed self self' : Prop :=
  fj_path self' = fj_path self /\ content_at self' = content_at self.

Lemma wp_io {A} (m : M F IoErrorKind A) (Q : Res A -> FJ -> Prop) self :
  (forall r f, m (fj_fs self) = (r, f) ->
     Q (map_err (fun _ => RouteJournalUnavailable) r)
       (FileRouteJournal_new (fj_path self) f (ROUTE_JOURNAL_TEMP_SEQUENCE self))) ->
  wp (io m) Q self.
Proof. unfold wp, io. intros HQ. destruct (m (fj_fs self)) as [r f]. by apply HQ. Qed.

(** A call that leaves the journal file alone. *)
Lemma wp_io_frame {A} (m : M F IoErrorKind A) (Q : Res A -> FJ -> Prop) self :
  file_at (m (fj_fs self)).2 (fj_path self) = file_at (fj_fs self) (fj_path self) ->
  (forall r self', undisturbed self self' -> Q r self') ->
  wp (io m) Q self.
Proof.
  intros Hf HQ. apply wp_io. intros r f Hm. rewrite Hm in Hf. apply HQ. by split.
Qed.

Lemma undisturbed_trans a b c : undisturbed a b -> undisturbed b c -> undisturbed a c.
Proof. unfold undisturbed. intuition congruence. Qed.

Lemma wp_ensure_private_directory d self :
  path_parent (fj_path self) = Some d ->
  wp (ensure_private_directory d) (fun _ self' => undisturbed self self') self.
Proof.
  intros Hd. unfold ensure_private_directory. wp_step.
  apply wp_io_frame; [by apply create_dir_all_frame|]. intros [[]|x] s1 Hs1; [|done].
  wp_steps. destruct (map_err _ _) as [k|x]; [|done]. case_match; [by wp_step|].
  apply wp_io_frame; [apply set_permissions_frame|]. intros r s2 Hs2.
  by eapply undisturbed_trans.
Qed.

Lemma append_longer p s : s <> EmptyString -> String.append p s <> p.
Proof.
  intros Hs Heq. apply (f_equal (fun x => length (bytes x))) in Heq.
  rewrite bytes_append, length_app in Heq. destruct s; [done|]. cbn in Heq. lia.
Qed.

(** The temporary file becomes the journal, or the journal stays as it was. *)
Lemma wp_replace temp d self :
  temp <> fj_path self ->
  wp (io (open_create_new temp 384) ;!
      let! bytes := lift (ok_or (document_to_vec_pretty d) RouteJournalUnavailable) in
      io (write_all temp bytes) ;!
      io (sync_all temp) ;!
      io (fs_rename temp (fj_path self)))
    (fun r self' => fj_path self' = fj_path self /\
       match r with
       | Ok _ => exists b, document_to_vec_pretty d = Some b /\ content_at self' = Some (FileData b)
       | Err _ => content_at self' = content_at self
       end) self.
Proof.
  intros Ht. wp_step. apply wp_io. intros r1 f1 E1.
  pose proof (open_frame (fj_fs self) temp 384 (fj_path self)) as Hf1.
  pose proof (open_ok (fj_fs self) temp 384) as Ho1. rewrite E1 in Hf1, Ho1. cbn in Hf1, Ho1.
  destruct r1 as [[]|x1]; cbn [map_err]; [|split; [done|]; by apply Hf1].
  do 2 wp_step. destruct (document_to_vec_pretty d) as [b|]; cbn [ok_or];
    [|split; [done|]; by apply Hf1].
  wp_step. apply wp_io. intros r2 f2 E2. cbn [fj_fs FileRouteJournal_new] in E2.
  pose proof (write_frame f1 temp b (fj_path self)) as Hf2.
  pose proof (write_ok f1 temp b []) as Ho2. rewrite E2 in Hf2, Ho2. cbn in Hf2, Ho2.
  destruct r2 as [[]|x2]; cbn [map_err]; 
    [|split; [done|]; unfold content_at; cbn; rewrite Hf2, Hf1; done].
  wp_step. apply wp_io. intros r3 f3 E3. cbn [fj_fs FileRouteJournal_new] in E3.
  pose proof (sync_frame f2 temp) as Hf3. rewrite E3 in Hf3. cbn in Hf3.
  destruct r3 as [[]|x3]; cbn [map_err];
    [|split; [done|]; unfold content_at; cbn; rewrite Hf3, Hf2, Hf1; done].
  apply wp_io. intros r4 f4 E4. cbn [fj_fs FileRouteJournal_new] in E4.
  pose proof (rename_ok f3 temp (fj_path self)) as Ho4.
  pose proof (rename_err f3 temp (fj_path self)) as He4. rewrite E4 in Ho4, He4. cbn in Ho4, He4.
  destruct r4 as [[]|x4]; (split; [done|]); unfold content_at; cbn.
  - exists b. split; [done|]. rewrite Ho4, Hf3 by done. auto.
  - by rewrite (He4 x4), Hf3, Hf2, Hf1.
Qed.

Lemma wp_write_document d self :
  wp (write_document d) (fun r self' => fj_path self' = fj_path self /\
    match r with
    | Ok _ => exists b, document_to_vec_pretty d = Some b /\ content_at self' = Some (FileData b)
    | Err _ => content_at self' = content_at self
    end) self.
Proof.
  unfold write_document. do 4 wp_step.
  destruct (path_parent (fj_path self)) as [parent|] eqn:Hpar; cbn [ok_or]; [|done].
  wp_step. eapply wp_mono; [by apply wp_ensure_private_directory|].
  intros [[]|x] s1 [Hp1 Hc1]; [|done]. do 2 wp_step. case_match; [by wp_step|].
  wp_step. unfold wp at 1, temporary_journal_path. cbn [fst snd].
  set (temp := String.append (fj_path s1) _).
  set (s2 := FileRouteJournal_new _ _ _).
  assert (Ht : temp <> fj_path s2) by (by apply append_longer).
  do 2 wp_step. eapply wp_mono; [apply (wp_replace temp d s2 Ht)|].
  intros r s3 [Hp3 Hr3]. wp_step. destruct r as [[]|x]; cbn [is_ok].
  - do 2 wp_step. split; [by rewrite Hp3|done].
  - do 2 wp_step. apply wp_io_frame; [apply remove_frame; congruence|].
    intros r4 s4 [Hp4 Hc4]. do 2 wp_step. split; [by rewrite Hp4, Hp3|].
    by rewrite Hc4, Hr3.
Qed.

(** What is stored: nothing, or a document of this version with one entry per
    transaction. *)
Definition document_of self : option RouteJournalDocument :=
  match content_at self with
  | None => Some {| rd_version := ROUTE_JOURNAL_VERSION; rd_entries := [] |}
  | Some (FileData b) => document_from_slice b
  | _ => None
  end.

Definition document_wf (d : RouteJournalDocument) : Prop :=
  rd_version d = ROUTE_JOURNAL_VERSION /\ NoDup (map transaction_id (rd_entries d)).

Lemma read_document_sound self d : read_document self = Ok d -> document_of self = Some d.
Proof.
  unfold read_document, document_of, content_at.
  destruct (symlink_metadata _ _) as [k|[]] eqn:Hm; [| |done].
  - case_match; [done|]. intros Hd. peel_ok Hd. apply read_ok in Ha. rewrite Ha.
    case_match; [done|]. congruence.
  - apply metadata_absent in Hm. rewrite Hm. by intros [= <-].
Qed.

Lemma wp_file_save e d self :
  document_of self = Some d -> document_wf d ->
  wp (file_save e) (fun r self' => exists d', document_of self' = Some d' /\ document_wf d' /\
    by_id (rd_entries d') =
      if is_ok r then <[transaction_id e := e]> (by_id (rd_entries d)) else by_id (rd_entries d))
    self.
Proof.
  intros Hd Hwf. unfold file_save. do 4 wp_step.
  destruct (read_document self) as [d0|x] eqn:Hr; [|by exists d].
  apply read_document_sound in Hr. rewrite Hd in Hr. injection Hr as <-.
  eapply wp_mono; [apply wp_write_document|]. intros [[]|x] s1 [_ Hpost]; cbn [is_ok].
  - destruct Hpost as (b & Hb & Hc). apply codec_round_trip in Hb.
    eexists. split; [unfold document_of; rewrite Hc; exact Hb|]. destruct Hwf as [Hver Hnd].
    destruct (upsert_spec e _ Hnd) as [Hnd' Hby].
    pose proof (sort_entries_perm (upsert e (rd_entries d))) as Hperm. cbn.
    assert (NoDup (map transaction_id (sort_entries (upsert e (rd_entries d))))).
    { by rewrite (Permutation_map transaction_id Hperm). }
    split; [by split|]. rewrite <- Hby. by apply by_id_perm.
  - exists d. unfold document_of in *. by rewrite Hpost.
Qed.

#[global] Program Instance FileRouteJournal_laws : RouteJournalLaws FJ := {
  journal_inv self := exists d, document_of self = Some d /\ document_wf d;
  contents self := match document_of self with Some d => by_id (rd_entries d) | None => ∅ end;
}.
Next Obligation.
  intros j l (d & Hd & _ & Hnd) Hl. cbn in Hl. apply rbind_ok in Hl as (d' & Hd' & [= <-]).
  apply read_document_sound in Hd'. rewrite Hd in *. by simplify_eq.
Qed.
Next Obligation.
  intros e j (d & Hd & Hwf). destruct (wp_file_save e d j Hd Hwf) as (d' & Hd' & Hwf' & _).
  by exists d'.
Qed.
Next Obligation.
  intros e j (d & Hd & Hwf). destruct (wp_file_save e d j Hd Hwf) as (d' & Hd' & _ & Hby).
  cbn [save FileRouteJournal_journal]. by rewrite Hd', Hd, Hby.
Qed.
End file_laws.

(** ** the journal on disk *)

Section file.
Context {F : Type} `{FileSystemLaws F} `{JournalCodecLaws}.

(** C35: a save to the journal file happens entirely or not at all, and what is
    read back is what was saved: after success the entries read are the old ones
    with the saved one inserted or replaced under its id, after an error they
    are the old ones. *)
Theorem file_journal_saves_atomically (self : FileRouteJournal F) e l :
  journal_inv self -> file_entries self = Ok l ->
  let r := (file_save e self).1 in
  let self' := (file_save e self).2 in
  journal_inv self' /\
  (r = Ok tt -> forall l', file_entries self' = Ok l' ->
     by_id l' = <[transaction_id e := e]> (by_id l) /\ NoDup (map transaction_id l')) /\
  (forall x, r = Err x -> forall l', file_entries self' = Ok l' -> by_id l' = by_id l).
Proof.
  intros Hinv Hl. cbv zeta.
  pose proof (save_inv e self Hinv) as Hinv'. pose proof (save_effect e self Hinv) as Heff.
  destruct (entries_sound self l Hinv Hl) as [_ Hc]. cbn [save FileRouteJournal_journal] in *.
  destruct (file_save e self) as [r self']. cbn [fst snd] in *. split_and!; [done|..].
  - intros -> l' Hl'. destruct (entries_sound self' l' Hinv' Hl') as [Hnd Hc'].
    split; [|done]. by rewrite <- Hc', <- Hc.
  - intros x -> l' Hl'. destruct (entries_sound self' l' Hinv' Hl') as [Hnd Hc'].
    by rewrite <- Hc', <- Hc.
Qed.
End file.
