(* ===== verification/RouteSafety.v ===== *)
(** * RouteSafety: what route transactions guarantee

    The theorems on [src-tauri/src/networking/route.rs]: the overlap test and
    the plan checks mean what they say about addresses; transactions are all or
    nothing; the ledger of owned routes balances after any sequence of calls
    with any failures; and a crash at any point, modelled by [Budget], is
    repaired by [recover_stale]. *)

From Stdlib Require Import Ascii String.
From S2P Require Import Prelude Text NetState IpAddr Config Route RouteJournal.

(** ** crashes

    A component that answers its first [budget] calls and then none: the
    process died, or lost the device. *)

Record Budget (A : Type) := { budget : nat; inner : A }.
Arguments budget {A} _.
Arguments inner {A} _.

Definition spend {A X} (e : NetworkErrorCode) (m : Meth A X) : Meth (Budget A) X := fun b =>
  match budget b with
  | O => (Err e, b)
  | S n => let (r, a) := m (inner b) in (r, {| budget := n; inner := a |})
  end.

#[global] Instance budget_platform {P} `{RoutePlatform P} : RoutePlatform (Budget P) := {
  list_routes := spend RouteDiscoveryFailed list_routes;
  add_route r := spend RouteDiscoveryFailed (add_route r);
  remove_route r := spend RouteDiscoveryFailed (remove_route r);
}.

#[global] Instance budget_journal {J} `{RouteJournal J} : RouteJournal (Budget J) := {
  entries b := entries (inner b);
  save e := spend RouteJournalUnavailable (save e);
}.

#[global] Program Instance budget_platform_laws {P} `{RoutePlatformLaws P} :
  RoutePlatformLaws (Budget P) := {
  installed b := installed (inner b);
}.
Next Obligation.
  intros P ?? [[|n] p]; cbn; [done|]. pose proof (list_routes_pure p) as Hp.
  unfold spend; cbn. by destruct (list_routes p).
Qed.
Next Obligation.
  intros P ?? [[|n] p] l r; cbn; [done|]. pose proof (list_routes_complete p l r) as Hp.
  unfold spend; cbn. by destruct (list_routes p).
Qed.
Next Obligation.
  intros P ?? r [[|n] p]; cbn; [done|]. pose proof (add_route_effect r p) as Hp.
  unfold spend; cbn. by destruct (add_route r p).
Qed.
Next Obligation.
  intros P ?? r [[|n] p]; cbn; [done|]. pose proof (remove_route_effect r p) as Hp.
  unfold spend; cbn. by destruct (remove_route r p).
Qed.

#[global] Program Instance budget_journal_laws {J} `{RouteJournalLaws J} :
  RouteJournalLaws (Budget J) := {
  journal_inv b := journal_inv (inner b);
  contents b := contents (inner b);
}.
Next Obligation. intros J ?? b l Hj Hl. by apply (entries_sound (inner b)). Qed.
Next Obligation.
  intros J ?? e [[|n] j] Hj; cbn; [done|]. pose proof (save_inv e j Hj) as Hp.
  unfold spend; cbn. by destruct (save e j).
Qed.
Next Obligation.
  intros J ?? e [[|n] j] Hj; cbn; [done|]. pose proof (save_effect e j Hj) as Hp.
  unfold spend; cbn. by destruct (save e j).
Qed.

(** ** sequences of operations *)

Inductive RouteOp : Type :=
| OpApply (transaction_id profile_id : string) (desired : list RouteSpec)
| OpRollback (transaction_id : string)
| OpRecover.

(** No plan asks for a default route. *)
Definition op_specific (op : RouteOp) : Prop :=
  match op with
  | OpApply _ _ desired => Forall (fun r => ~ default_route r) desired
  | _ => True
  end.

Section runs.
Context {P J : Type} `{RoutePlatform P} `{RouteJournal J}.
Notation Orch := (RouteOrchestrator P J).

Definition run_route_op (op : RouteOp) : Meth Orch unit :=
  match op with
  | OpApply id profile desired => apply id profile desired
  | OpRollback id => rollback id
  | OpRecover => recover_stale
  end.

Definition run_route_ops (ops : list RouteOp) (o : Orch) : Orch :=
  fold_left (fun o op => (run_route_op op o).2) ops o.
End runs.

Section safety.
Context {P J : Type} `{RoutePlatformLaws P} `{RouteJournalLaws J}.
Notation Orch := (RouteOrchestrator P J).

(** The ledger of an orchestrator: [base] are the routes of others. *)
Definition balanced (base : gset RouteSpec) (o : Orch) : Prop :=
  journal_inv (journal o) /\ ledger base (installed (platform o)) (contents (journal o)).

Lemma balanced_view base o :
  balanced base o <-> exists i c, view i c o /\ ledger base i c.
Proof.
  split.
  - intros [Hj Hl]. exists (installed (platform o)), (contents (journal o)). by split.
  - intros (i & c & [<- <- Hj] & Hl). by split.
Qed.

Lemma run_ops_balanced base ops o :
  Forall op_specific ops -> balanced base o -> balanced base (run_route_ops ops o).
Proof.
  intros Hops. revert o. unfold run_route_ops.
  induction Hops as [|op ops Hop Hops IH]; intros o Hb; cbn; [done|]. apply IH.
  apply balanced_view in Hb as (i & c & Hv & Hl). apply balanced_view.
  destruct op as [id profile desired|id|]; cbn in *.
  - rewrite Forall_forall in Hop.
    destruct (wp_apply base i c id profile desired o Hv Hl Hop) as (i' & c' & Hv' & Hl' & _).
    by exists i', c'.
  - destruct (wp_rollback base i c id o Hv Hl) as (i' & c' & Hv' & Hl' & _). by exists i', c'.
  - destruct (wp_recover_stale base i c o Hv Hl) as (i' & c' & Hv' & Hl' & _). by exists i', c'.
Qed.

(** C4: the write-ahead invariant: after any sequence of applications of plans
    without a default route, rollbacks and recoveries, in which any call of the
    platform or the journal may fail, the routes of others are all still
    installed, and every other installed route is claimed by a live journal
    entry, as an applied or as its pending route. *)
Theorem journal_accounts_for_every_route base ops (o : Orch) :
  Forall op_specific ops -> balanced base o ->
  let o' := run_route_ops ops o in
  base ⊆ installed (platform o') /\
  forall r, r ∈ installed (platform o') -> r ∉ base ->
    exists id e, contents (journal o') !! id = Some e /\ je_state e <> RolledBack /\
      (r ∈ applied_routes e \/ pending_route e = Some r).
Proof.
  intros Hops Hb o'. destruct (run_ops_balanced _ _ _ Hops Hb) as [_ [Hbase Ho _ _]].
  split; [done|]. intros r Hr Hn. destruct (Ho r Hr) as [?|(id & e & He & Hl & Hre)]; [done|].
  exists id, e. split; [done|]. unfold is_live, owned in *. split; [by destruct (je_state e)|].
  apply elem_of_union in Hre as [Hre|Hre]; [left; set_solver|right].
  destruct (pending_route e); set_solver.
Qed.

(** C22: for a new transaction of specific (not default) routes, apply is all or
    nothing: when it succeeds, the desired routes are installed beside the old
    ones and the journal holds an Applied entry with exactly these routes; when
    it fails with anything but RouteRollbackFailed, the installed routes are
    what they were and the entry, if one was written, is RolledBack and claims
    nothing. *)
Theorem apply_all_or_nothing base id profile desired (o : Orch) :
  balanced base o -> Forall (fun r => ~ default_route r) desired ->
  contents (journal o) !! id = None ->
  let r := (apply id profile desired o).1 in
  let o' := (apply id profile desired o).2 in
  (r = Ok tt ->
     installed (platform o') = list_to_set desired ∪ installed (platform o) /\
     exists e, contents (journal o') !! id = Some e /\ je_state e = Applied /\
       applied_routes e = desired /\ pending_route e = None) /\
  (forall x, r = Err x -> x <> RouteRollbackFailed ->
     installed (platform o') = installed (platform o) /\
     forall e, contents (journal o') !! id = Some e ->
       je_state e = RolledBack /\ applied_routes e = [] /\ pending_route e = None).
Proof.
  intros [Hj Hl] Hd Hid. rewrite Forall_forall in Hd.
  destruct (wp_apply base _ _ id profile desired o
    (Build_view _ _ o eq_refl eq_refl Hj) Hl Hd) as (i' & c' & [Hi Hc _] & _ & Hpost).
  rewrite Hid in Hpost. cbv zeta. rewrite Hi, Hc. split.
  - intros Hr. rewrite Hr in Hpost. destruct Hpost as [(e & He & Hs & _ & _ & Hap) ->].
    split; [done|]. exists e. naive_solver.
  - intros x Hr Hx. rewrite Hr in Hpost. destruct Hpost as [?|[-> Hc']]; [done|].
    split; [done|]. intros e He. destruct Hc' as [->|(e' & -> & He')]; [congruence|].
    rewrite lookup_insert_eq in He. injection He as <-. by rewrite He'.
Qed.

(** ** recovery *)

(** Calls that succeed from every state that satisfies the journal's
    invariant. *)
Definition succeeds {A} (m : Meth Orch A) : Prop :=
  forall o, journal_inv (journal o) ->
    is_ok (m o).1 = true /\ journal_inv (journal (m o).2).

Lemma succeeds_bind {A B} (m : Meth Orch A) (k : A -> Meth Orch B) :
  succeeds m -> (forall a, succeeds (k a)) -> succeeds (bind m k).
Proof.
  intros Hm Hk o Ho. destruct (Hm o Ho) as [Hok Hj]. unfold bind.
  destruct (m o) as [[a|x] o']; [|done]. by apply Hk.
Qed.

Lemma succeeds_ret {A} (a : A) : succeeds (ret a).
Proof. by intros o Ho. Qed.

Lemma succeeds_or_rollback_failed {A} (m : Meth Orch A) :
  succeeds m -> succeeds (or_rollback_failed m).
Proof.
  intros Hm o Ho. destruct (Hm o Ho) as [Hok Hj].
  unfold or_rollback_failed, attempt, bind, lift. by destruct (m o) as [[a|x] o'].
Qed.

(** Routes can be removed and the journal read and written. *)
Record serviceable : Prop := {
  sv_remove r (p : P) : is_ok (remove_route r p).1 = true;
  sv_save e (j : J) : journal_inv j -> is_ok (save e j).1 = true;
  sv_entries (j : J) : journal_inv j -> is_ok (entries j) = true;
}.

Lemma recover_succeeds : serviceable -> succeeds recover_stale.
Proof.
  intros [Hrem Hsave Hent].
  assert (Sr : forall r, succeeds (or_rollback_failed (on_platform (remove_route r)))).
  { intros r. apply succeeds_or_rollback_failed. intros o Ho. unfold on_platform, zoom.
    specialize (Hrem r (platform o)). by destruct (remove_route r (platform o)). }
  assert (Ss : forall e, succeeds (or_rollback_failed (on_journal (save e)))).
  { intros e. apply succeeds_or_rollback_failed. intros o Ho. unfold on_journal, zoom.
    specialize (Hsave e _ Ho). pose proof (save_inv e _ Ho). by destruct (save e (journal o)). }
  assert (Sa : forall revs e, succeeds (rollback_applied revs e)).
  { induction revs as [|r revs IH]; intros e; cbn [rollback_applied]; [apply succeeds_ret|].
    do 2 (apply succeeds_bind; [done|intros _]). apply IH. }
  assert (Se : forall e, succeeds (rollback_entry e)).
  { intros e. unfold rollback_entry. apply succeeds_bind; [|intros e1; by apply succeeds_bind].
    case_match; [|apply succeeds_ret].
    do 2 (apply succeeds_bind; [done|intros _]). apply succeeds_ret. }
  assert (Sl : forall l, succeeds (rollback_all l)).
  { induction l as [|e l IH]; cbn [rollback_all]; [apply succeeds_ret|]. by apply succeeds_bind. }
  unfold recover_stale. apply succeeds_bind; [|done]. intros o Ho.
  unfold journal_entries, bind, get, lift. split; [by apply Hent|done].
Qed.

Lemma recover_restores base (o : Orch) :
  balanced base o -> (recover_stale o).1 = Ok tt ->
  installed (platform (recover_stale o).2) = base /\
  forall id e, contents (journal (recover_stale o).2) !! id = Some e -> je_state e = RolledBack.
Proof.
  intros [Hj Hl] Hr.
  destruct (wp_recover_stale base _ _ o (Build_view _ _ o eq_refl eq_refl Hj) Hl)
    as (i' & c' & [Hi Hc _] & _ & Hpost).
  destruct (Hpost Hr) as [-> Hdead]. rewrite Hi, Hc. split; [done|].
  intros id e He. specialize (Hdead id e He). unfold is_live in Hdead.
  by destruct (je_state e).
Qed.
End safety.
Arguments serviceable P J {_ _ _}.

(** ** a crash at any point *)

Section crash.
Context {P J : Type} `{RoutePlatformLaws P} `{RouteJournalLaws J}.
Notation Orch := (RouteOrchestrator P J).

(** The process with [n] platform calls and [m] journal writes left to live. *)
Definition dies_after (n m : nat) (o : Orch) : RouteOrchestrator (Budget P) (Budget J) :=
  {| platform := {| budget := n; inner := platform o |};
     journal := {| budget := m; inner := journal o |};
     conflict_policy := conflict_policy o |}.

(** What the next process finds. *)
Definition restart (o : RouteOrchestrator (Budget P) (Budget J)) : Orch :=
  {| platform := inner (platform o); journal := inner (journal o);
     conflict_policy := conflict_policy o |}.

(** C2: wherever the process dies (after any number of platform and journal
    calls, in the middle of any sequence of applications of plans without a
    default route, rollbacks and recoveries), the next process's recover_stale
    succeeds once calls work again, leaves installed exactly the routes of
    others, and every journal entry is RolledBack. *)
Theorem crash_anywhere_is_recovered base ops n m (o : Orch) :
  serviceable P J -> Forall op_specific ops -> balanced base o ->
  let restarted := restart (run_route_ops ops (dies_after n m o)) in
  (recover_stale restarted).1 = Ok tt /\
  installed (platform (recover_stale restarted).2) = base /\
  forall id e, contents (journal (recover_stale restarted).2) !! id = Some e ->
    je_state e = RolledBack.
Proof.
  intros Hsv Hops Hb restarted.
  assert (Hr : balanced base restarted).
  { assert (Hd : balanced base (dies_after n m o)).
    { destruct Hb as [Hj Hl]. split; cbn; [exact Hj|exact Hl]. }
    apply (run_ops_balanced base ops (dies_after n m o) Hops Hd). }
  destruct (recover_succeeds Hsv restarted (proj1 Hr)) as [Hok _].
  assert (Hr1 : (recover_stale restarted).1 = Ok tt).
  { by destruct (recover_stale restarted) as [[[]|x] o']. }
  split; [done|]. by apply recover_restores.
Qed.
End crash.

(** ** addresses *)

Definition destination_contains (dest : string) (width addr : Z) : Prop :=
  exists n, IpNetwork_parse dest = Ok n /\ network_contains n width addr.

Lemma ordered_pairs_lookup {A} (R : A -> A -> Prop) l i j x y :
  ForallOrdPairs R l -> (i < j)%nat -> l !! i = Some x -> l !! j = Some y -> R x y.
Proof.
  intros Hl. revert i j. induction Hl as [|z l Hz Hl IH]; intros i j Hij Hi Hj; [done|].
  destruct j as [|j]; [lia|]. destruct i as [|i]; cbn in *.
  - simplify_eq. rewrite List.Forall_forall in Hz. apply Hz, list_elem_of_In.
    by eapply list_elem_of_lookup_2.
  - apply (IH i j); [lia|done|done].
Qed.

(** What an accepted plan means for addresses: two routes of the plan have no address in
    common; and where a route of the plan and an existing route do, the existing route
    is a default route, or it is strictly less specific and belongs to a trusted Mihomo
    interface. *)
Theorem accepted_plan_addresses id profile routes existing policy :
  validate_plan id profile routes = Ok tt ->
  reject_conflicts existing routes policy = Ok tt ->
  (forall i j r s w a, routes !! i = Some r -> routes !! j = Some s -> i <> j ->
     destination_contains (rs_destination r) w a ->
     destination_contains (rs_destination s) w a -> False) /\
  (forall r er n m w a, r ∈ routes -> er ∈ existing ->
     IpNetwork_parse (rs_destination r) = Ok n -> IpNetwork_parse (er_destination er) = Ok m ->
     network_contains n w a -> network_contains m w a ->
     prefix m = 0 \/ (er_interface er ∈ mihomo_tun_interfaces policy /\ prefix m < prefix n)).
Proof.
  intros Hv Hrc. split.
  - unfold validate_plan in Hv. case_match; [done|].
    apply validate_routes_spec in Hv as (ns & Hns & _ & Hord).
    assert (Hlt : forall i j r s w a, (i < j)%nat -> routes !! i = Some r -> routes !! j = Some s ->
      destination_contains (rs_destination r) w a ->
      destination_contains (rs_destination s) w a -> False).
    { intros i j r s w a Hij Hr Hs (n & Hn & Hna) (m & Hm & Hma).
      destruct (Forall2_lookup_l _ _ _ _ _ Hns Hr) as (n' & Hi & Hn').
      destruct (Forall2_lookup_l _ _ _ _ _ Hns Hs) as (m' & Hj & Hm'). simplify_eq.
      pose proof (ordered_pairs_lookup _ _ _ _ _ _ Hord Hij Hi Hj) as Ho.
      assert (overlaps n m = true); [|congruence].
      apply overlaps_spec; [by eapply IpNetwork_parse_wf..|]. by exists w, a. }
    intros i j r s w a Hr Hs Hij Hra Hsa.
    destruct (Nat.lt_gt_cases i j) as [Hc _]. destruct (Hc Hij); eauto.
  - intros r er n m w a Hr Her Hn Hm Hna Hma.
    destruct (Z.eq_dec (prefix m) 0) as [?|Hz]; [by left|right].
    eapply reject_conflicts_sound; try done.
    apply overlaps_spec; [by eapply IpNetwork_parse_wf..|]. by exists w, a.
Qed.

(** The overlap test on two parsed destinations answers true exactly when some
    address lies in both. *)
Theorem overlap_test_exact s t n m :
  IpNetwork_parse s = Ok n -> IpNetwork_parse t = Ok m ->
  overlaps n m = true <->
  exists w a, destination_contains s w a /\ destination_contains t w a.
Proof.
  intros Hn Hm. rewrite (overlaps_spec n m (IpNetwork_parse_wf _ _ Hn) (IpNetwork_parse_wf _ _ Hm)).
  unfold destination_contains. split.
  - intros (w & a & ? & ?). exists w, a. split; eauto.
  - intros (w & a & (n' & Hn' & ?) & (m' & Hm' & ?)).
    rewrite Hn in Hn'. rewrite Hm in Hm'. injection Hn' as <-. injection Hm' as <-.
    by exists w, a.
Qed.

(** ** a platform to run examples on *)

Definition Table : Type := gset RouteSpec.

Definition as_existing (r : RouteSpec) : ExistingRoute :=
  {| er_destination := rs_destination r; er_interface := rs_interface r; er_gateway := None |}.

#[global] Instance table_platform : RoutePlatform Table := {
  list_routes t := (Ok (map as_existing (elements t)), t);
  add_route r t := (Ok tt, {[r]} ∪ t);
  remove_route r t := (Ok tt, t ∖ {[r]});
}.

#[global] Program Instance table_platform_laws : RoutePlatformLaws Table := {
  installed t := t;
}.
Next Obligation. done. Qed.
Next Obligation.
  intros p l r [= <-] Hr. exists (as_existing r). split; [|done].
  apply list_elem_of_fmap. exists r. split; [done|]. by apply elem_of_elements.
Qed.
Next Obligation. done. Qed.
Next Obligation. done. Qed.

Definition empty_journal : MemoryRouteJournal := {| mem_entries := ∅ |}.

Lemma table_serviceable : serviceable Table MemoryRouteJournal.
Proof. by constructor. Qed.

Lemma fresh_balanced (t : Table) : balanced t (RouteOrchestrator_new t empty_journal).
Proof.
  split; [apply map_Forall_empty|]. constructor; [done|by left|..];
    intros id e He; cbn in He; by rewrite lookup_empty in He.
Qed.

Definition lan : RouteSpec := {| rs_destination := "10.8.0.0/16"; rs_interface := "utun4" |}.
Definition lab : RouteSpec := {| rs_destination := "10.9.0.0/24"; rs_interface := "utun4" |}.
Definition vpn_default : RouteSpec := {| rs_destination := "0.0.0.0/0"; rs_interface := "utun4" |}.

Lemma specific_not_default r n :
  IpNetwork_parse (rs_destination r) = Ok n -> prefix n <> 0 -> ~ default_route r.
Proof. intros Hn Hp (m & Hm & Hz). congruence. Qed.

Lemma lan_specific : Forall (fun r => ~ default_route r) [lan; lab].
Proof.
  repeat constructor; (eapply specific_not_default; [vm_compute; reflexivity|done]).
Qed.

(** A plan that asks for a default route escapes the conflict check: when
    another VPN's default route is already there on the same interface, the plan
    is accepted and its rollback removes that route. *)
Theorem default_plan_removes_foreign_default :
  let o := RouteOrchestrator_new ({[vpn_default]} : Table) empty_journal in
  let applied := apply "tx" "p" [vpn_default] o in
  applied.1 = Ok tt /\
  (rollback "tx" applied.2).1 = Ok tt /\
  installed (platform (rollback "tx" applied.2).2) = ∅.
Proof. vm_compute. split_and!; reflexivity. Qed.
