(* ===== verification/MacosRoute.v ===== *)
(** * MacosRoute: reading and writing the macOS routing table

    [src-tauri/src/networking/macos_route.rs]: the parser of
    [netstat -rn] output with the normalisation of its abbreviated
    destinations, the argument vector given to [/sbin/route], and the two
    [RoutePlatform]s built on them.  Running a process is the class
    [CommandRunner]. *)

From Stdlib Require Import Ascii String.
From S2P Require Import Prelude Text NetState IpAddr IpRoundTrip Config Route.

(** ** more of [str] *)

(** [str::lines]: split at line feeds, a carriage return before one dropped,
    no empty last line. *)
Definition strip_cr (l : list ascii) : list ascii :=
  match rev l with
  | c :: r => if bool_decide (c = "013"%char) then rev r else l
  | [] => l
  end.

Fixpoint lines_of (pieces : list (list ascii)) : list (list ascii) :=
  match pieces with
  | [] => []
  | [last] => if bool_decide (last = []) then [] else [last]
  | piece :: pieces => strip_cr piece :: lines_of pieces
  end.

Definition lines (s : string) : list string :=
  map str (lines_of (split_bytes "010"%char (bytes s))).

(** The length in bytes of the White_Space character at the front, 0 if the
    first character is none. *)
Definition whitespace_len (l : list ascii) : nat :=
  match map byte l with
  | x :: _ =>
      if ((9 <=? x) && (x <=? 13)) || (x =? 32) then 1%nat
      else match map byte l with
      | 194 :: y :: _ => if (y =? 133) || (y =? 160) then 2%nat else 0%nat
      | 225 :: 154 :: 128 :: _ => 3%nat
      | 226 :: 128 :: z :: _ =>
          if ((128 <=? z) && (z <=? 138)) || (z =? 168) || (z =? 169) || (z =? 175) then 3%nat else 0%nat
      | 226 :: 129 :: 159 :: _ => 3%nat
      | 227 :: 128 :: 128 :: _ => 3%nat
      | _ => 0%nat
      end
  | [] => 0%nat
  end.

(** [str::split_whitespace]; [word] is the current word, last byte first, and
    the fuel is the number of bytes. *)
Fixpoint words (fuel : nat) (word : list ascii) (l : list ascii) : list (list ascii) :=
  let flush := match word with [] => [] | _ => [rev word] end in
  match fuel, l with
  | _, [] => flush
  | O, _ => flush
  | S fuel, c :: l' =>
      match whitespace_len l with
      | O => words fuel (c :: word) l'
      | n => flush ++ words fuel [] (drop n l)
      end
  end.

Definition split_whitespace (s : string) : list string :=
  map str (words (length (bytes s)) [] (bytes s)).

(** [String::from_utf8]: well-formed UTF-8, as the standard's table 3-7. *)
Fixpoint utf8_valid (fuel : nat) (l : list Z) : bool :=
  let cont x := (128 <=? x) && (x <=? 191) in
  match fuel, l with
  | _, [] => true
  | O, _ => false
  | S fuel, a :: l =>
      if a <=? 127 then utf8_valid fuel l
      else match l with
      | b :: l =>
          if (194 <=? a) && (a <=? 223) then cont b && utf8_valid fuel l
          else match l with
          | c :: l =>
              if a =? 224 then (160 <=? b) && (b <=? 191) && cont c && utf8_valid fuel l
              else if a =? 237 then (128 <=? b) && (b <=? 159) && cont c && utf8_valid fuel l
              else if (225 <=? a) && (a <=? 239) then cont b && cont c && utf8_valid fuel l
              else match l with
              | d :: l =>
                  if a =? 240 then
                    (144 <=? b) && (b <=? 191) && cont c && cont d && utf8_valid fuel l
                  else if a =? 244 then
                    (128 <=? b) && (b <=? 143) && cont c && cont d && utf8_valid fuel l
                  else if (241 <=? a) && (a <=? 243) then
                    cont b && cont c && cont d && utf8_valid fuel l
                  else false
              | [] => false
              end
          | [] => false
          end
      | [] => false
      end
  end.

Definition from_utf8 (l : list ascii) : option string :=
  if utf8_valid (length l) (map byte l) then Some (str l) else None.

(** ** data *)

Inductive MacOsRouteFamily : Type := Ipv4 | Ipv6.
Inductive MacOsRouteAction : Type := Add | Delete.

Record MacOsRouteCommand := {
  program : string;
  arguments : list string;
}.

(** ** the command *)

Definition interface_character (c : ascii) : bool :=
  is_ascii_alphanumeric c || one_of ["."; "_"; "-"]%char c.

Definition plan_macos_route_command (action : MacOsRouteAction) (route : RouteSpec)
  : Res MacOsRouteCommand :=
  let? (address, prefix) := ok_or (rsplit_once (rs_destination route) "/") InvalidConfiguration in
  let? address := ok_or (parse_ip address) InvalidConfiguration in
  let? prefix := ok_or (parse_uint u8_max prefix) InvalidConfiguration in
  if ((if is_ipv4 address then 32 else 128) <? prefix)
    || is_empty (rs_interface route)
    || starts_with (rs_interface route) "-"
    || negb (all_bytes interface_character (rs_interface route))
  then Err InvalidConfiguration
  else Ok {|
    program := "/sbin/route";
    arguments :=
      ["-n"; match action with Add => "add" | Delete => "delete" end]%string
      ++ (if is_ipv6 address then ["-inet6"%string] else [])
      ++ ["-net"%string;
          String.append (print_ip address) (String "/" (print_uint prefix));
          "-interface"%string;
          rs_interface route];
  |}.

(** ** netstat *)

(** [split_once('/')] with the whole as its first part when there is none. *)
Definition split_prefix (destination : string) : string * option string :=
  match split_once destination "/" with
  | Some (address, prefix) => (address, Some prefix)
  | None => (destination, None)
  end.

Definition has_flag (flags : string) (c : ascii) : bool :=
  any_byte (fun d => bool_decide (d = c)) flags.

(** The loop over [octets.iter().enumerate()]; its index stays below 4. *)
Definition parse_octets (octets : list string) : Res (list Z) :=
  rmapM (fun octet => ok_or (parse_uint u8_max octet) RouteDiscoveryFailed) octets.

Definition normalize_ipv4_destination (destination flags : string) : Res string :=
  let (address, explicit_prefix) := split_prefix destination in
  let octets := split address "." in
  if bool_decide (octets = []) || bool_decide (4 < length octets)%nat
  then Err RouteDiscoveryFailed
  else
    let? parsed := parse_octets octets in
    let expanded := parsed ++ replicate (4 - length parsed) 0 in
    let? prefix :=
      match explicit_prefix with
      | Some prefix => ok_or (parse_uint u8_max prefix) RouteDiscoveryFailed
      | None =>
          if has_flag flags "H" then Ok 32
          else
            let bits := Z.of_nat (length octets) * 8 in
            if bits <=? u8_max then Ok bits else Err RouteDiscoveryFailed
      end in
    if 32 <? prefix then Err RouteDiscoveryFailed
    else Ok (String.append (print_ipv4 (of_octets expanded)) (String "/" (print_uint prefix))).

Definition normalize_ipv6_destination (destination flags : string) : Res string :=
  let (address, explicit_prefix) := split_prefix destination in
  let address :=
    match split_once address "%" with Some (address, _) => address | None => address end in
  let? address := ok_or (parse_ipv6 address) RouteDiscoveryFailed in
  let? prefix :=
    match explicit_prefix with
    | Some prefix => ok_or (parse_uint u8_max prefix) RouteDiscoveryFailed
    | None => if has_flag flags "H" then Ok 128 else Ok 128
    end in
  if 128 <? prefix then Err RouteDiscoveryFailed
  else Ok (String.append (print_ipv6 address) (String "/" (print_uint prefix))).

Definition normalize_destination (destination flags : string) (family : MacOsRouteFamily)
  : Res string :=
  if bool_decide (destination = "default"%string)
  then Ok (match family with Ipv4 => "0.0.0.0/0" | Ipv6 => "::/0" end)%string
  else match family with
  | Ipv4 => normalize_ipv4_destination destination flags
  | Ipv6 => normalize_ipv6_destination destination flags
  end.

(** The body of the loop over the lines, its early [continue]s as a state that
    does not change. *)
Fixpoint parse_lines (family : MacOsRouteFamily) (found_header : bool) (ls : list string)
    (routes : list ExistingRoute) : Res (bool * list ExistingRoute) :=
  match ls with
  | [] => Ok (found_header, routes)
  | line :: ls =>
      let columns := split_whitespace line in
      if bool_decide (head columns = Some "Destination"%string)
      then parse_lines family true ls routes
      else if negb found_header || bool_decide (columns = [])
      then parse_lines family found_header ls routes
      else match columns with
      | c0 :: c1 :: flags :: c3 :: _ =>
          let? destination := normalize_destination c0 flags family in
          let gateway :=
            if starts_with c1 "link#" || bool_decide (c1 = "-"%string) then None else Some c1 in
          parse_lines family found_header ls
            (routes ++ [{| er_destination := destination; er_interface := c3;
                           er_gateway := gateway |}])
      | _ => Err RouteDiscoveryFailed
      end
  end.

Definition parse_macos_netstat (output : string) (family : MacOsRouteFamily)
  : Res (list ExistingRoute) :=
  let? (found_header, routes) := parse_lines family false (lines output) [] in
  if found_header then Ok routes else Err RouteDiscoveryFailed.

(** ** the platforms *)

(** [std::process::Command]: [output] gives the exit status and what was
    written, [status] the exit status alone; [None] when the process could not
    be started. *)
Class CommandRunner (W : Type) := {
  command_output : string -> list string -> W -> option (bool * list ascii) * W;
  command_status : string -> list string -> W -> option bool * W;
}.

Record MacOsReadOnlyRoutePlatform (W : Type) := {
  netstat_path : string;
  ro_world : W;
}.
Arguments netstat_path {W} _.
Arguments ro_world {W} _.

Section platforms.
Context {W : Type} `{CommandRunner W}.

Definition MacOsReadOnlyRoutePlatform_default (w : W) : MacOsReadOnlyRoutePlatform W :=
  {| netstat_path := "/usr/sbin/netstat"; ro_world := w |}.

Definition discover_family (family : MacOsRouteFamily)
  : Meth (MacOsReadOnlyRoutePlatform W) (list ExistingRoute) := fun self =>
  let family_argument := match family with Ipv4 => "inet" | Ipv6 => "inet6" end%string in
  let (output, w) :=
    command_output (netstat_path self) ["-rn"; "-f"; family_argument]%string (ro_world self) in
  let r :=
    match output with
    | None => Err RouteDiscoveryFailed
    | Some (success, stdout) =>
        if negb success then Err RouteDiscoveryFailed
        else
          let? stdout := ok_or (from_utf8 stdout) RouteDiscoveryFailed in
          parse_macos_netstat stdout family
    end in
  (r, {| netstat_path := netstat_path self; ro_world := w |}).

#[global] Instance MacOsReadOnly_platform : RoutePlatform (MacOsReadOnlyRoutePlatform W) := {
  list_routes :=
    let! v4 := discover_family Ipv4 in
    let! v6 := discover_family Ipv6 in
    ret (v4 ++ v6);
  add_route _ := raise PermissionDenied;
  remove_route _ := raise PermissionDenied;
}.

(** [SystemMacOsRouteCommandExecutor::execute]. *)
Definition execute (command : MacOsRouteCommand) : Meth (MacOsReadOnlyRoutePlatform W) unit :=
  fun self =>
  if negb (bool_decide (program command = "/sbin/route"%string))
  then (Err InvalidConfiguration, self)
  else
    let (status, w) := command_status (program command) (arguments command) (ro_world self) in
    (match status with
     | None => Err PermissionDenied
     | Some success => if negb success then Err PermissionDenied else Ok tt
     end, {| netstat_path := netstat_path self; ro_world := w |}).

(** [MacOsRouteLabPlatform]: discovery and executor over the same machine. *)
Record MacOsRouteLabPlatform := {
  lab_discovery : MacOsReadOnlyRoutePlatform W;
}.

Definition on_lab {A} (m : Meth (MacOsReadOnlyRoutePlatform W) A) : Meth MacOsRouteLabPlatform A :=
  zoom lab_discovery (fun d _ => {| lab_discovery := d |}) m.

#[global] Instance MacOsRouteLab_platform : RoutePlatform MacOsRouteLabPlatform := {
  list_routes := on_lab list_routes;
  add_route route :=
    let! command := lift (plan_macos_route_command Add route) in on_lab (execute command);
  remove_route route :=
    let! command := lift (plan_macos_route_command Delete route) in on_lab (execute command);
}.
End platforms.

Example netstat_sample :
  option_map (map er_destination)
    (match parse_macos_netstat
      "Routing tables

Internet:
Destination        Gateway            Flags               Netif Expire
default            192.168.1.1        UGScg                 en0
127                127.0.0.1          UCS                   lo0
192.168.1          link#6             UCS                   en0      !
10.8/16            utun4              USc                 utun4
10.0.0.7           10.0.0.7           UH                  utun4
" Ipv4 with Ok l => Some l | Err _ => None end)
  = Some ["0.0.0.0/0"; "127.0.0.0/8"; "192.168.1.0/24"; "10.8.0.0/16"; "10.0.0.7/32"]%string.
Proof. vm_compute. reflexivity. Qed.

Example command_sample :
  plan_macos_route_command Add {| rs_destination := "fd00:0:0::/48"; rs_interface := "utun4" |} =
  Ok {| program := "/sbin/route";
        arguments := ["-n"; "add"; "-inet6"; "-net"; "fd00::/48"; "-interface"; "utun4"]%string |}.
Proof. vm_compute. reflexivity. Qed.

(** ** printed destinations are networks *)

Definition network_of (a : IpAddr) (p : Z) : IpNetwork :=
  {| net_bits := addr_width a; network := Z.land (addr_value a) (prefix_mask (addr_width a) p);
     prefix := p |}.

Lemma IpNetwork_parse_text a p :
  addr_wf a -> 0 <= p <= addr_width a -> IpNetwork_parse (prefix_text a p) = Ok (network_of a p).
Proof.
  intros Ha Hp. assert (0 <= p <= 255) by (destruct a; cbn in Hp; lia).
  unfold IpNetwork_parse. rewrite rsplit_prefix_text by done. cbn [ok_or rbind].
  rewrite parse_print_ip by done. cbn [ok_or rbind].
  rewrite parse_print_u8 by done. cbn [ok_or rbind].
  destruct a as [v|v]; cbn in *; by rewrite (proj2 (Z.ltb_ge _ _)) by lia.
Qed.

Lemma IpNetwork_parse_inv s n :
  IpNetwork_parse s = Ok n -> exists a p, addr_wf a /\ 0 <= p <= addr_width a /\ n = network_of a p.
Proof.
  unfold IpNetwork_parse. intros Hn. apply rbind_ok in Hn as ([a p] & _ & Hn).
  peel_ok Hn. apply parse_ip_wf in Ha. apply parse_uint_range in Ha0; [|done].
  exists a0, a1. destruct a0 as [v|v]; (case_match eqn:Hp; [done|]); reflect_bools;
    injection Hn as <-; (split; [done|split; [cbn; lia|done]]).
Qed.

(** The argument vector handed to /sbin/route has a fixed shape, its two caller-
    controlled arguments are a canonical network and an interface name that cannot be
    mistaken for an option, and the destination names exactly the network of the route. *)
Theorem route_command_is_exact action route c :
  plan_macos_route_command action route = Ok c ->
  exists a p,
    program c = "/sbin/route"%string /\
    arguments c =
      ["-n"; match action with Add => "add" | Delete => "delete" end]%string ++
      (if is_ipv4 a then [] else ["-inet6"%string]) ++
      ["-net"%string; prefix_text a p; "-interface"%string; rs_interface route] /\
    starts_with (rs_interface route) "-" = false /\
    all_bytes interface_character (rs_interface route) = true /\
    addr_wf a /\ 0 <= p <= addr_width a /\
    IpNetwork_parse (prefix_text a p) = IpNetwork_parse (rs_destination route).
Proof.
  unfold plan_macos_route_command. intros Hc. apply rbind_ok in Hc as ([ad pr] & Hs & Hc).
  peel_ok Hc. destruct (_ || _) eqn:Hg; [done|]. injection Hc as <-. reflect_bools.
  pose proof (parse_ip_wf _ _ Ha) as Hwf. pose proof (parse_uint_range u8_max _ _ ltac:(done) Ha0) as Hr.
  assert (Hp : 0 <= a0 <= addr_width a) by (destruct a; cbn in *; lia).
  exists a, a0. split_and!; try done; [unfold is_ipv6; by destruct a|lia|lia|].
  rewrite IpNetwork_parse_text by done. unfold IpNetwork_parse.
  rewrite Hs. cbn [rbind]. rewrite Ha. cbn [rbind ok_or]. rewrite Ha0. cbn [rbind ok_or].
  destruct a as [v|v]; cbn in *; by rewrite (proj2 (Z.ltb_ge _ _)) by lia.
Qed.

(** *** discovered routes *)

Definition family_width (f : MacOsRouteFamily) : Z := match f with Ipv4 => 32 | Ipv6 => 128 end.

Definition destination_ok (f : MacOsRouteFamily) (d : string) : Prop :=
  exists n, IpNetwork_parse d = Ok n /\ net_bits n = family_width f.

Lemma prefix_text_ok a p f :
  addr_wf a -> 0 <= p <= addr_width a -> addr_width a = family_width f ->
  destination_ok f (prefix_text a p).
Proof. intros Ha Hp Hw. exists (network_of a p). split; [by apply IpNetwork_parse_text|done]. Qed.

Lemma of_octets_range os :
  Forall (fun o => 0 <= o <= 255) os -> 0 <= of_octets os < 256 ^ Z.of_nat (length os).
Proof.
  unfold of_octets. induction os as [|o os IH] using rev_ind; intros Hos; [cbn; lia|].
  apply Forall_app in Hos as [Hos Ho]. rewrite Forall_singleton in Ho. specialize (IH Hos).
  rewrite fold_left_app, length_app, Nat2Z.inj_add, Z.pow_add_r by lia. cbn [fold_left length].
  change (256 ^ Z.of_nat 1) with 256. lia.
Qed.

Lemma normalize_ipv4_ok d flags s :
  normalize_ipv4_destination d flags = Ok s -> destination_ok Ipv4 s.
Proof.
  unfold normalize_ipv4_destination. destruct (split_prefix d) as [ad ep].
  case_match eqn:Hg; [done|]. intros Hs. apply rbind_ok in Hs as (os & Hos & Hs).
  apply rbind_ok in Hs as (p & Hp & Hs). destruct (Z.ltb_spec 32 p); [done|].
  injection Hs as <-. reflect_bools.
  pose proof Hos as Hlen. unfold parse_octets in Hos. apply rmapM_ok in Hos.
  assert (Hrange : Forall (fun o => 0 <= o <= 255) os).
  { clear -Hos. induction Hos as [|x y l l' Hxy _ IH]; [constructor|]. constructor; [|done].
    apply ok_or_ok in Hxy. by apply parse_uint_range in Hxy. }
  assert (Hl : length os = length (split ad ".")) by (symmetry; by eapply Forall2_length).
  assert (H4 : (length os <= 4)%nat) by lia.
  change (print_ipv4 ?x) with (print_ip (V4 x)). apply prefix_text_ok; [|cbn|done].
  - unfold addr_wf. cbn.
    pose proof (of_octets_range (os ++ replicate (4 - length os) 0)) as Hof.
    rewrite length_app, length_replicate in Hof.
    replace (length os + (4 - length os))%nat with 4%nat in Hof by lia. apply Hof.
    apply Forall_app. split; [done|]. apply Forall_replicate. lia.
  - split; [|lia]. destruct ep as [e|].
    + apply ok_or_ok in Hp. apply parse_uint_range in Hp; [lia|done].
    + case_match; [by injection Hp as <-|]. case_match; [|done]. injection Hp as <-. lia.
Qed.

Lemma parse_ipv6_range s x : parse_ipv6 s = Some x -> 0 <= x < 2 ^ 128.
Proof.
  unfold parse_ipv6, parse_with. intros Hs.
  destruct (read_ipv6_addr (bytes s)) as [[y [|? ?]]|] eqn:E; simplify_eq.
  by apply read_ipv6_range in E.
Qed.

Lemma normalize_ipv6_ok d flags s :
  normalize_ipv6_destination d flags = Ok s -> destination_ok Ipv6 s.
Proof.
  unfold normalize_ipv6_destination. destruct (split_prefix d) as [ad ep]. intros Hs.
  apply rbind_ok in Hs as (x & Hx & Hs). apply ok_or_ok, parse_ipv6_range in Hx.
  apply rbind_ok in Hs as (p & Hp & Hs). destruct (Z.ltb_spec 128 p); [done|].
  injection Hs as <-. change (print_ipv6 ?x) with (print_ip (V6 x)).
  apply prefix_text_ok; [done|cbn|done]. split; [|lia]. destruct ep as [e|].
  - apply ok_or_ok in Hp. apply parse_uint_range in Hp; [lia|done].
  - case_match; by injection Hp as <-.
Qed.

Lemma normalize_ok d flags f s : normalize_destination d flags f = Ok s -> destination_ok f s.
Proof.
  unfold normalize_destination. case_bool_decide; destruct f.
  - intros [= <-]. eexists. split; [vm_compute; reflexivity|done].
  - intros [= <-]. eexists. split; [vm_compute; reflexivity|done].
  - apply normalize_ipv4_ok.
  - apply normalize_ipv6_ok.
Qed.

Lemma parse_lines_ok f ls : forall h rs h' rs',
  Forall (fun er => destination_ok f (er_destination er)) rs ->
  parse_lines f h ls rs = Ok (h', rs') ->
  Forall (fun er => destination_ok f (er_destination er)) rs'.
Proof.
  induction ls as [|line ls IH]; intros h rs h' rs' Hrs; cbn [parse_lines].
  - by intros [= <- <-].
  - case_match; [by apply IH|]. case_match; [by apply IH|].
    destruct (split_whitespace line) as [|c0 [|c1 [|fl [|c3 cs]]]]; try done.
    intros Hp. apply rbind_ok in Hp as (d & Hd & Hp). apply IH in Hp; [done|].
    apply Forall_app. split; [done|]. apply Forall_singleton. by apply normalize_ok in Hd.
Qed.

(** Every route read from netstat has a destination the orchestrator can parse, in the
    family asked for, so discovery never makes the conflict check fail on a malformed
    destination. *)
Theorem discovered_routes_are_networks output family routes desired policy :
  parse_macos_netstat output family = Ok routes ->
  Forall (fun er => destination_ok family (er_destination er)) routes /\
  (Forall (fun r => is_ok (IpNetwork_parse (rs_destination r)) = true) desired ->
   reject_conflicts routes desired policy = Ok tt \/
   reject_conflicts routes desired policy = Err RouteConflict).
Proof.
  unfold parse_macos_netstat. intros Hr. apply rbind_ok in Hr as ([h rs] & Hp & Hr).
  destruct h; [|done]. injection Hr as <-.
  assert (Hok : Forall (fun er => destination_ok family (er_destination er)) rs)
    by (eapply parse_lines_ok; [constructor|exact Hp]).
  split; [done|]. intros Hd. unfold reject_conflicts.
  assert (Hm : exists ns, rmapM (fun r => IpNetwork_parse (rs_destination r)) desired = Ok ns).
  { clear -Hd. induction Hd as [|r l Hr _ [ns IH]]; [by exists []|]. cbn.
    destruct (IpNetwork_parse (rs_destination r)) as [n|]; [|done]. cbn. rewrite IH. by eexists. }
  destruct Hm as [ns ->]. cbn [rbind]. clear Hp Hd.
  induction Hok as [|er rs (n & Hn & _) _ IH]; cbn; [by left|]. rewrite Hn. cbn [rbind].
  case_match; [done|]. case_match; [by right|done].
Qed.
