(* ===== verification/RouteHelper.v ===== *)
(** * RouteHelper: the owner record of a route lease, protocol 2

    [src-tauri/src/networking/route_helper.rs].  The application names, in one
    record, everything the privileged helper may do for it: which private
    networks, on which tunnel, beside which Mihomo interface.  The validator
    decides with bit masks and a byte loop; the theorems say what it decides
    about addresses. *)

From Stdlib Require Import Ascii String.
From S2P Require Import Prelude Text NetState IpAddr Config Ipc.

Definition ROUTE_HELPER_PROTOCOL_VERSION : Z := 2.
Definition MAX_MIHOMO_TUN_INTERFACES : Z := 1.

Record RouteLeaseOwner := {
  ro_protocol_version : Z;
  ro_lease_id : string;
  ro_operation_id : string;
  ro_sidecar_instance_id : string;
  ro_profile_revision : Z;
  ro_tunnel : TunnelDeviceFacts;
  ro_active_mihomo_tun_interfaces : list string;
  ro_private_cidrs : list string;
}.

Record RouteLeaseReference := {
  rr_protocol_version : Z;
  rr_lease_id : string;
  rr_operation_id : string;
}.

Inductive RouteHelperState : Type :=
| HelperIdle
| HelperPrepared
| HelperApplied
| HelperRollingBack
| HelperFailedClosed.

Record RouteHelperStatus := {
  rh_protocol_version : Z;
  rh_state : RouteHelperState;
  rh_operation_id : option string;
  rh_error_code : option NetworkErrorCode;
}.

(** ** networks *)

(** [u32::MAX << n] and [(1u32 << n) - 1] at their width. *)
Definition u32_shl (x n : Z) : Z := Z.land (Z.shiftl x n) u32_max.

(** The [while remaining >= 8] loop over the octets of an IPv6 address; the
    fuel is the number of octets left. *)
Fixpoint octets_zero (fuel : nat) (value remaining index : Z) : bool :=
  match fuel with
  | O => true
  | S fuel =>
      if 8 <=? remaining then
        if negb (octet 128 value index =? 0) then false
        else octets_zero fuel value (remaining - 8) (index + 1)
      else true
  end.

Definition is_network_base (address : IpAddr) (prefix : Z) : bool :=
  match address with
  | V4 value =>
      let host_bits := 32 - prefix in
      let mask := if host_bits =? 32 then u32_max else u32_shl 1 host_bits - 1 in
      Z.land value mask =? 0
  | V6 value =>
      let remaining := 128 - prefix in
      let index := prefix / 8 in
      if (0 <? remaining) && negb (prefix mod 8 =? 0) then
        let host_bits := 8 - prefix mod 8 in
        let mask := Z.shiftl 1 host_bits - 1 in
        if negb (Z.land (octet 128 value index) mask =? 0) then false
        else octets_zero 16 value (remaining - host_bits) (index + 1)
      else octets_zero 16 value remaining index
  end.

Definition parse_cidr (value : string) : option (IpAddr * Z) :=
  match split_once value "/" with
  | None => None
  | Some (address, prefix) =>
  match parse_ip address with
  | None => None
  | Some address =>
  match parse_uint u8_max prefix with
  | None => None
  | Some prefix =>
      if (prefix =? 0)
         || is_unspecified address
         || is_multicast address
         || ((if is_ipv4 address then 32 else 128) <? prefix)
      then None
      else if is_network_base address prefix then Some (address, prefix) else None
  end
  end
  end.

Definition helper_valid_cidr (value : string) : bool := is_some (parse_cidr value).

Definition tunnel_supports_cidr (tunnel : TunnelDeviceFacts) (cidr : string) : bool :=
  match option_map fst (parse_cidr cidr) with
  | Some (V4 _) => has_ipv4 tunnel
  | Some (V6 _) => has_ipv6 tunnel
  | None => false
  end.

Definition cidr_overlaps (left : IpAddr) (left_prefix : Z) (right : IpAddr) (right_prefix : Z)
  : bool :=
  match left, right with
  | V4 l, V4 r =>
      let prefix := Z.min left_prefix right_prefix in
      let mask := u32_shl u32_max (32 - prefix) in
      Z.land l mask =? Z.land r mask
  | V6 l, V6 r =>
      let prefix := Z.min left_prefix right_prefix in
      let mask := u128_shl u128_max (128 - prefix) in
      Z.land l mask =? Z.land r mask
  | _, _ => false
  end.

Fixpoint parse_all (values : list string) : option (list (IpAddr * Z)) :=
  match values with
  | [] => Some []
  | value :: values =>
      match parse_cidr value with
      | None => None
      | Some cidr =>
          match parse_all values with
          | None => None
          | Some cidrs => Some (cidr :: cidrs)
          end
      end
  end.

(** The two nested loops, each element against the ones after it. *)
Fixpoint none_overlap (parsed : list (IpAddr * Z)) : bool :=
  match parsed with
  | [] => true
  | (address, prefix) :: rest =>
      negb (existsb (fun '(other_address, other_prefix) =>
              cidr_overlaps address prefix other_address other_prefix) rest)
      && none_overlap rest
  end.

Definition cidrs_are_non_overlapping (values : list string) : bool :=
  match parse_all values with
  | None => false
  | Some parsed => none_overlap parsed
  end.

(** ** interfaces and identifiers *)

Definition valid_identifier (value : string) : bool := valid_ipc_id value.

Definition string_ltb (a b : string) : bool := negb (bytes_leb (bytes b) (bytes a)).

Definition valid_mihomo_interfaces (values : list string) : bool :=
  (Z.of_nat (length values) <=? MAX_MIHOMO_TUN_INTERFACES)
  && all_unique values
  && forallb (fun '(a, b) => string_ltb a b) (windows2 values)
  && forallb valid_utun_interface values.

(** ** validation *)

Definition RouteLeaseOwner_validate (self : RouteLeaseOwner) : Res unit :=
  if negb (ro_protocol_version self =? ROUTE_HELPER_PROTOCOL_VERSION)
    || negb (valid_identifier (ro_lease_id self))
    || negb (valid_identifier (ro_operation_id self))
    || negb (valid_identifier (ro_sidecar_instance_id self))
    || (ro_profile_revision self =? 0)
    || (i64_max <? ro_profile_revision self)
    || bool_decide (ro_private_cidrs self = [])
    || (64 <? Z.of_nat (length (ro_private_cidrs self)))
    || negb (all_unique (ro_private_cidrs self))
    || negb (forallb helper_valid_cidr (ro_private_cidrs self))
    || negb (forallb (tunnel_supports_cidr (ro_tunnel self)) (ro_private_cidrs self))
    || negb (valid_utun_interface (interface_name (ro_tunnel self)))
    || negb (valid_mihomo_interfaces (ro_active_mihomo_tun_interfaces self))
    || existsb (fun interface => bool_decide (interface = interface_name (ro_tunnel self)))
         (ro_active_mihomo_tun_interfaces self)
    || negb (cidrs_are_non_overlapping (ro_private_cidrs self))
  then Err InvalidConfiguration
  else TunnelDeviceFacts_validate (ro_tunnel self) (ro_sidecar_instance_id self)
         (String.append (ro_operation_id self) ".prepare").

Definition RouteLeaseReference_validate (self : RouteLeaseReference) : Res unit :=
  if negb (rr_protocol_version self =? ROUTE_HELPER_PROTOCOL_VERSION)
    || negb (valid_identifier (rr_lease_id self))
    || negb (valid_identifier (rr_operation_id self))
  then Err InvalidConfiguration
  else Ok tt.

Definition RouteLeaseReference_matches (self : RouteLeaseReference) (owner : RouteLeaseOwner)
  : bool :=
  is_ok (RouteLeaseReference_validate self)
  && bool_decide (rr_lease_id self = ro_lease_id owner)
  && bool_decide (rr_operation_id self = ro_operation_id owner).

Definition RouteHelperStatus_validate (self : RouteHelperStatus) : Res unit :=
  if negb (rh_protocol_version self =? ROUTE_HELPER_PROTOCOL_VERSION)
  then Err UnsupportedProtocolVersion
  else if is_some_and (rh_operation_id self)
            (fun operation => negb (valid_identifier operation))
  then Err InvalidConfiguration
  else Ok tt.

Example lan_cidr : parse_cidr "10.8.0.0/16" = Some (V4 168296448, 16).
Proof. vm_compute. reflexivity. Qed.
Example host_bits_refused : parse_cidr "10.8.0.1/16" = None.
Proof. vm_compute. reflexivity. Qed.
Example ula_cidr : is_some (parse_cidr "fd12:3450::/28") = true.
Proof. vm_compute. reflexivity. Qed.
Example ula_host_bits : parse_cidr "fd12:3458::/28" = None.
Proof. vm_compute. reflexivity. Qed.

(** ** the byte loop decides divisibility *)

(** Everything from octet [index] on, as a number. *)
Lemma octet_div value i :
  0 <= value < 2 ^ 128 -> 0 <= i < 16 ->
  octet 128 value i = (value / 2 ^ (120 - 8 * i)) mod 256.
Proof.
  intros Hv Hi. unfold octet. change 255 with (Z.ones 8). rewrite Z.land_ones by lia.
  rewrite Z.shiftr_div_pow2 by lia. by replace (128 - 8 * (i + 1)) with (120 - 8 * i) by lia.
Qed.

(** The low [n + 8] bits vanish when the octet above the low [n] bits and those
    [n] bits do. *)
Lemma mod_split v n k :
  0 <= n -> 0 <= k ->
  v mod 2 ^ (n + k) = 0 <-> (v / 2 ^ n) mod 2 ^ k = 0 /\ v mod 2 ^ n = 0.
Proof.
  intros Hn Hk. rewrite Z.pow_add_r by lia.
  assert (0 < 2 ^ n) by (apply Z.pow_pos_nonneg; lia).
  assert (0 < 2 ^ k) by (apply Z.pow_pos_nonneg; lia).
  rewrite Z.rem_mul_r by lia.
  pose proof (Z.mod_pos_bound v (2 ^ n)). pose proof (Z.mod_pos_bound (v / 2 ^ n) (2 ^ k)).
  split; nia.
Qed.

Lemma octets_zero_spec fuel value remaining index :
  0 <= value < 2 ^ 128 -> 0 <= index -> index = 16 - remaining / 8 ->
  remaining mod 8 = 0 -> 0 <= remaining <= 8 * Z.of_nat fuel ->
  octets_zero fuel value remaining index = true <-> value mod 2 ^ remaining = 0.
Proof.
  revert remaining index.
  induction fuel as [|fuel IH]; intros remaining index Hv Hi Heq Hm Hr; cbn [octets_zero].
  - replace remaining with 0 by lia. by rewrite Z.mod_1_r.
  - destruct (Z.leb_spec 8 remaining) as [H8|H8].
    + assert (Hq : remaining = 8 * (remaining / 8)) by (apply Z_div_exact_full_2; lia).
      assert (Hq' : (remaining - 8) / 8 = remaining / 8 - 1).
      { replace (remaining - 8) with (remaining + (-1) * 8) by lia. rewrite Z.div_add; lia. }
      rewrite octet_div by lia.
      replace (120 - 8 * index) with (remaining - 8) by lia.
      assert (Hs : value mod 2 ^ remaining = 0 <->
        (value / 2 ^ (remaining - 8)) mod 256 = 0 /\ value mod 2 ^ (remaining - 8) = 0).
      { pose proof (mod_split value (remaining - 8) 8) as Hms.
        replace (remaining - 8 + 8) with remaining in Hms by lia. apply Hms; lia. }
      rewrite Hs. destruct (Z.eqb_spec ((value / 2 ^ (remaining - 8)) mod 256) 0) as [Hz|Hz]; cbn.
      * rewrite IH; [tauto|done|lia|lia| |lia].
        replace (remaining - 8) with (remaining + (-1) * 8) by lia. by rewrite Z.mod_add by lia.
      * split; [done|]. intros [? _]. lia.
    + assert (remaining = 0) as -> by (rewrite Z.mod_small in Hm; lia). by rewrite Z.mod_1_r.
Qed.

Lemma land_low_mask v k : 0 <= k -> Z.land v (Z.shiftl 1 k - 1) = v mod 2 ^ k.
Proof.
  intros Hk. rewrite <- Z.land_ones by lia. rewrite Z.ones_equiv, Z.shiftl_1_l. done.
Qed.

Lemma is_network_base_spec a prefix :
  addr_wf a -> 1 <= prefix <= addr_width a ->
  is_network_base a prefix = true <-> addr_value a mod 2 ^ (addr_width a - prefix) = 0.
Proof.
  unfold addr_wf. destruct a as [v|v]; cbn [addr_value addr_width is_network_base]; intros Hv Hp.
  - rewrite (proj2 (Z.eqb_neq (32 - prefix) 32)) by lia.
    assert (Hs : u32_shl 1 (32 - prefix) = Z.shiftl 1 (32 - prefix)).
    { unfold u32_shl. change u32_max with (Z.ones 32). rewrite Z.land_ones, Z.shiftl_1_l by lia.
      apply Z.mod_small. split; [apply Z.pow_nonneg; lia|apply Z.pow_lt_mono_r; lia]. }
    rewrite Hs, land_low_mask by lia. apply Z.eqb_eq.
  - assert (Hpm : prefix = 8 * (prefix / 8) + prefix mod 8) by (apply Z_div_mod_eq_full).
    pose proof (Z.mod_pos_bound prefix 8 ltac:(lia)) as Hm.
    assert (Hoz : forall r i, i = 16 - r / 8 -> 0 <= i -> r mod 8 = 0 -> 0 <= r <= 128 ->
      octets_zero 16 v r i = true <-> v mod 2 ^ r = 0).
    { intros r i Hi Hi0 Hr Hr'. apply octets_zero_spec; [done|done|done|done|lia]. }
    destruct (Z.eqb_spec (prefix mod 8) 0) as [Hz|Hz]; cbn [negb]; rewrite ?andb_false_r.
    + assert (Hr : 128 - prefix = (16 - prefix / 8) * 8) by lia.
      apply Hoz; [|apply Z.div_pos; lia| |lia].
      * rewrite Hr, Z.div_mul by lia. lia.
      * rewrite Hr. apply Z.mod_mul. lia.
    + rewrite (proj2 (Z.ltb_lt 0 (128 - prefix))) by lia. cbn [andb].
      set (h := 8 - prefix mod 8). set (q := 15 - prefix / 8).
      assert (Hr : 128 - prefix = 8 * q + h) by lia.
      assert (0 <= prefix / 8) by (apply Z.div_pos; lia).
      rewrite octet_div, land_low_mask by lia.
      replace (120 - 8 * (prefix / 8)) with (8 * q) by lia.
      replace (128 - prefix - h) with (q * 8) by lia. rewrite Hr, mod_split by lia.
      assert (Hmm : ((v / 2 ^ (8 * q)) mod 256) mod 2 ^ h = (v / 2 ^ (8 * q)) mod 2 ^ h).
      { symmetry. apply Znumtheory.Zmod_div_mod; [apply Z.pow_pos_nonneg; lia|lia|].
        exists (2 ^ (8 - h)). rewrite <- Z.pow_add_r by lia.
        by replace (8 - h + h) with 8 by lia. }
      rewrite Hmm. replace (8 * q) with (q * 8) by lia.
      destruct (Z.eqb_spec ((v / 2 ^ (q * 8)) mod 2 ^ h) 0) as [He|He]; cbn [negb].
      * rewrite Hoz; [tauto| |lia| |lia]; [rewrite Z.div_mul; lia|apply Z.mod_mul; lia].
      * split; [done|]. intros [? _]. lia.
Qed.

(** ** the overlap test decides a common address *)

(** The addresses of a parsed network. *)
Definition cidr_contains (c : IpAddr * Z) (a : IpAddr) : Prop :=
  is_ipv4 a = is_ipv4 c.1 /\
  in_prefix (addr_width c.1) (addr_value c.1) c.2 (addr_value a).

Definition cidr_wf (c : IpAddr * Z) : Prop :=
  addr_wf c.1 /\ 1 <= c.2 <= addr_width c.1.

Lemma shiftl_shiftr_eq x y k :
  0 <= k -> Z.shiftl (Z.shiftr x k) k = Z.shiftl (Z.shiftr y k) k <-> x / 2 ^ k = y / 2 ^ k.
Proof.
  intros Hk. rewrite !Z.shiftl_mul_pow2, !Z.shiftr_div_pow2 by lia.
  assert (0 < 2 ^ k) by (apply Z.pow_pos_nonneg; lia). nia.
Qed.

Lemma cidr_overlaps_spec c d :
  cidr_wf c -> cidr_wf d ->
  cidr_overlaps c.1 c.2 d.1 d.2 = true <-> exists a, cidr_contains c a /\ cidr_contains d a.
Proof.
  intros [Hc Hp] [Hd Hq]. destruct c as [[x|x] p], d as [[y|y] q];
    unfold addr_wf, cidr_contains in *; cbn in *;
    try (split; [done|]; intros (a & [? _] & [? _]); by destruct a).
  - rewrite Z.eqb_eq. unfold u32_shl. change u32_max with (Z.ones 32).
    rewrite !(land_shl_ones 32), shiftl_shiftr_eq, same_under_shorter_mask by lia. split.
    + intros (z & ? & ?). by exists (V4 z).
    + intros ([z|z] & [? ?] & [? ?]); [by exists z|done].
  - rewrite Z.eqb_eq, !land_u128_shl, shiftl_shiftr_eq, same_under_shorter_mask by lia. split.
    + intros (z & ? & ?). by exists (V6 z).
    + intros ([z|z] & [? ?] & [? ?]); [done|by exists z].
Qed.

Lemma parse_cidr_spec value c :
  parse_cidr value = Some c ->
  cidr_wf c /\ is_unspecified c.1 = false /\ is_multicast c.1 = false /\
  addr_value c.1 mod 2 ^ (addr_width c.1 - c.2) = 0.
Proof.
  unfold parse_cidr. intros Hp.
  destruct (split_once value "/") as [[a p]|]; [|done].
  destruct (parse_ip a) as [addr|] eqn:Ha; [|done]. apply parse_ip_wf in Ha.
  destruct (parse_uint u8_max p) as [bits|] eqn:Hb; [|done]. apply parse_uint_range in Hb; [|done].
  destruct (_ || _) eqn:Hg; [done|]. destruct (is_network_base addr bits) eqn:Hn; [|done].
  injection Hp as <-. reflect_bools.
  assert (Hw : 1 <= bits <= addr_width addr) by (destruct addr; cbn in *; lia).
  split_and!; try done; [lia..|]. by apply is_network_base_spec.
Qed.

Lemma parse_all_spec values parsed :
  parse_all values = Some parsed -> Forall2 (fun v c => parse_cidr v = Some c) values parsed.
Proof.
  revert parsed. induction values as [|v values IH]; intros parsed; cbn.
  - intros [= <-]. constructor.
  - destruct (parse_cidr v) as [c|] eqn:Hc; [|done].
    destruct (parse_all values) as [cs|]; [|done]. intros [= <-]. constructor; auto.
Qed.

Lemma none_overlap_spec parsed i j c d :
  none_overlap parsed = true -> (i < j)%nat -> parsed !! i = Some c -> parsed !! j = Some d ->
  cidr_overlaps c.1 c.2 d.1 d.2 = false.
Proof.
  revert i j. induction parsed as [|[a p] parsed IH]; intros i j; cbn; [done|].
  intros [Hn Hr]%andb_true_iff Hij Hi Hj. destruct j as [|j]; [lia|]. cbn in Hj.
  destruct i as [|i]; cbn in Hi.
  - injection Hi as <-. apply negb_true_iff in Hn.
    apply list_elem_of_lookup_2 in Hj.
    pose proof (proj1 (existsb_false _ _) Hn d Hj) as Ho. by destruct d.
  - apply (IH i j); [done|lia|done|done].
Qed.

(** ** what a validated owner grants *)

Record owner_contract (o : RouteLeaseOwner) (nets : list (IpAddr * Z)) : Prop := {
  oc_parsed : Forall2 (fun v c => parse_cidr v = Some c) (ro_private_cidrs o) nets;
  oc_size : (1 <= length nets <= 64)%nat;
  (** the networks are proper network bases of unicast space, none a default
      route *)
  oc_base : forall c, c ∈ nets -> 1 <= c.2 <= addr_width c.1 /\
    addr_value c.1 mod 2 ^ (addr_width c.1 - c.2) = 0 /\
    is_multicast c.1 = false /\ is_unspecified c.1 = false;
  (** no address is granted twice *)
  oc_disjoint : forall i j c d a, nets !! i = Some c -> nets !! j = Some d -> i <> j ->
    cidr_contains c a -> cidr_contains d a -> False;
  oc_families : forall c, c ∈ nets ->
    (if is_ipv4 c.1 then has_ipv4 (ro_tunnel o) else has_ipv6 (ro_tunnel o)) = true;
  (** the tunnel is this operation's own, and not Mihomo's *)
  oc_tunnel : valid_utun_interface (interface_name (ro_tunnel o)) = true /\
    instance_id (ro_tunnel o) = ro_sidecar_instance_id o /\
    operation_id (ro_tunnel o) = String.append (ro_operation_id o) ".prepare" /\
    interface_name (ro_tunnel o) ∉ ro_active_mihomo_tun_interfaces o;
  oc_revision : 0 < ro_profile_revision o <= i64_max;
}.

Lemma owner_networks o :
  cidrs_are_non_overlapping (ro_private_cidrs o) = true ->
  exists nets, Forall2 (fun v c => parse_cidr v = Some c) (ro_private_cidrs o) nets /\
    none_overlap nets = true.
Proof.
  unfold cidrs_are_non_overlapping. destruct (parse_all _) as [nets|] eqn:Hp; [|done].
  intros Hn. exists nets. split; [by apply parse_all_spec|done].
Qed.

Lemma parsed_elem values nets c :
  Forall2 (fun v c => parse_cidr v = Some c) values nets -> c ∈ nets ->
  exists v, v ∈ values /\ parse_cidr v = Some c.
Proof.
  intros Hf Hc. apply list_elem_of_lookup in Hc as [i Hi].
  destruct (Forall2_lookup_r _ _ _ _ _ Hf Hi) as (v & Hv & Hp). exists v.
  split; [by eapply list_elem_of_lookup_2|done].
Qed.

Lemma disjoint_networks nets i j c d a :
  none_overlap nets = true -> Forall cidr_wf nets ->
  nets !! i = Some c -> nets !! j = Some d -> i <> j ->
  cidr_contains c a -> cidr_contains d a -> False.
Proof.
  intros Hn Hw Hi Hj Hij Hc Hd. rewrite Forall_forall in Hw.
  assert (Hwc : cidr_wf c) by (by eapply Hw, list_elem_of_lookup_2).
  assert (Hwd : cidr_wf d) by (by eapply Hw, list_elem_of_lookup_2).
  destruct (Nat.lt_gt_cases i j) as [Hlt _]. destruct (Hlt Hij) as [H|H].
  - pose proof (none_overlap_spec _ _ _ _ _ Hn H Hi Hj) as Ho.
    rewrite (proj2 (cidr_overlaps_spec c d Hwc Hwd)) in Ho; [done|eauto].
  - pose proof (none_overlap_spec _ _ _ _ _ Hn H Hj Hi) as Ho.
    rewrite (proj2 (cidr_overlaps_spec d c Hwd Hwc)) in Ho; [done|eauto].
Qed.

(** An owner record that validates grants 1 to 64 networks, each a proper base of
    unicast space and none a default route, no address granted twice, in families the
    tunnel has; the tunnel is this operation's own utun interface and not one of
    Mihomo's; and the revision is positive and fits a signed 64-bit integer. *)
Theorem lease_owner_grants_disjoint_networks o :
  RouteLeaseOwner_validate o = Ok tt -> 0 <= ro_profile_revision o ->
  exists nets, owner_contract o nets.
Proof.
  unfold RouteLeaseOwner_validate. intros Hv Hrev. destruct (_ || _) eqn:Hg; [done|].
  reflect_bools. destruct (owner_networks o) as (nets & Hf & Hno); [done|].
  assert (Hw : forall c, c ∈ nets -> cidr_wf c /\ is_unspecified c.1 = false /\
    is_multicast c.1 = false /\ addr_value c.1 mod 2 ^ (addr_width c.1 - c.2) = 0).
  { intros c Hc. destruct (parsed_elem _ _ _ Hf Hc) as (v & _ & Hp). by eapply parse_cidr_spec. }
  unfold TunnelDeviceFacts_validate, validate_owner in Hv.
  peel_ok Hv. destruct (_ || _) eqn:Hto in Ha; [done|]. case_match eqn:Hu; [done|].
  exists nets. pose proof (Forall2_length _ _ _ Hf) as Hlen. constructor.
  - done.
  - destruct (ro_private_cidrs o); [done|]. cbn in *. lia.
  - intros c Hc. destruct (Hw c Hc) as ((? & ?) & ? & ? & ?). split_and!; done || lia.
  - intros i j c d a. apply disjoint_networks; [done|].
    apply Forall_forall. intros c0 Hc0. by apply Hw.
  - intros c Hc. destruct (parsed_elem _ _ _ Hf Hc) as (v & Hin & Hp).
    match goal with HH : forallb (tunnel_supports_cidr _) _ = true |- _ =>
      rewrite forallb_forall in HH; specialize (HH v (proj1 (list_elem_of_In _ _) Hin));
      unfold tunnel_supports_cidr in HH; rewrite Hp in HH; cbn in HH; by destruct c as [[?|?] ?]
    end.
  - reflect_bools. split_and!; try done.
    match goal with HH : existsb _ _ = false |- _ => pose proof (proj1 (existsb_false _ _) HH) as Hm end.
    intros Hin. specialize (Hm _ Hin). cbv beta in Hm. by rewrite bool_decide_true in Hm.
  - lia.
Qed.
