(* ===== verification/RouteHelperV3.v ===== *)
(** * RouteHelperV3: the lease journal of the tunnel/route interlock

    [src-tauri/src/networking/route_helper_v3.rs].  A route lease is a small
    state machine kept in a durable record: a hold is requested, granted, used
    for one mutation, retired and released, each step acknowledged by a message
    that names the exact version it follows. *)

From Stdlib Require Import Ascii String Relations.
From S2P Require Import Prelude Text NetState IpAddr Config Ipc RouteHelper.

Definition ROUTE_HELPER_V3_PROTOCOL_VERSION : Z := 3.
Definition ROUTE_BROKER_PROTOCOL_VERSION : Z := 1.
Definition ROUTE_HELPER_V2_PROTOCOL_VERSION : Z := 2.

(** ** errors *)

Inductive RouteLeaseContractError : Type :=
| LeaseUnsupportedProtocolVersion
| LeaseInvalidConfiguration
| LeaseOwnershipMismatch
| LeaseRecoveryOnly
| LeaseReplayDetected
| LeaseInvalidStateTransition.

Notation LRes A := (result A RouteLeaseContractError).

Definition network_code (self : RouteLeaseContractError) : NetworkErrorCode :=
  match self with
  | LeaseUnsupportedProtocolVersion | LeaseRecoveryOnly => UnsupportedProtocolVersion
  | LeaseInvalidConfiguration => InvalidConfiguration
  | LeaseOwnershipMismatch | LeaseReplayDetected => AuthenticationFailed
  | LeaseInvalidStateTransition => InvalidStateTransition
  end.

Definition from_network_error (error : NetworkErrorCode) : RouteLeaseContractError :=
  match error with
  | UnsupportedProtocolVersion => LeaseUnsupportedProtocolVersion
  | AuthenticationFailed | PolicySignatureInvalid => LeaseOwnershipMismatch
  | InvalidStateTransition => LeaseInvalidStateTransition
  | _ => LeaseInvalidConfiguration
  end.

(** ** the binding of a lease to a broker session *)

Record RouteBrokerSessionReference := {
  bs_broker_protocol_version : Z;
  bs_broker_generation : Z;
  bs_sidecar_instance_id : string;
}.

Definition RouteBrokerSessionReference_validate (self : RouteBrokerSessionReference) : LRes unit :=
  if negb (bs_broker_protocol_version self =? ROUTE_BROKER_PROTOCOL_VERSION)
    || (bs_broker_generation self =? 0)
    || (i64_max <? bs_broker_generation self)
    || negb (valid_ipc_id (bs_sidecar_instance_id self))
  then Err LeaseInvalidConfiguration
  else Ok tt.

Record RouteLeaseBinding := {
  lb_broker_protocol_version : Z;
  lb_broker_generation : Z;
  lb_sidecar_instance_id : string;
  lb_lease_id : string;
  lb_operation_id : string;
}.

#[global] Instance RouteLeaseBinding_eq_dec : EqDecision RouteLeaseBinding.
Proof. solve_decision. Defined.

Definition from_broker (broker : RouteBrokerSessionReference) (lease_id operation_id : string)
  : RouteLeaseBinding :=
  {| lb_broker_protocol_version := bs_broker_protocol_version broker;
     lb_broker_generation := bs_broker_generation broker;
     lb_sidecar_instance_id := bs_sidecar_instance_id broker;
     lb_lease_id := lease_id;
     lb_operation_id := operation_id |}.

Definition RouteLeaseBinding_validate (self : RouteLeaseBinding) : LRes unit :=
  RouteBrokerSessionReference_validate
    {| bs_broker_protocol_version := lb_broker_protocol_version self;
       bs_broker_generation := lb_broker_generation self;
       bs_sidecar_instance_id := lb_sidecar_instance_id self |} ;?
  if negb (valid_ipc_id (lb_lease_id self)) || negb (valid_ipc_id (lb_operation_id self))
  then Err LeaseInvalidConfiguration
  else Ok tt.

Definition RouteLeaseBinding_matches (self other : RouteLeaseBinding) : bool :=
  bool_decide (self = other).

(** ** owners and references *)

Record RouteLeaseOwnerV3 := {
  o3_protocol_version : Z;
  o3_broker_protocol_version : Z;
  o3_broker_generation : Z;
  o3_sidecar_instance_id : string;
  o3_lease_id : string;
  o3_operation_id : string;
  o3_profile_revision : Z;
  o3_tunnel : TunnelDeviceFacts;
  o3_active_mihomo_tun_interfaces : list string;
  o3_private_cidrs : list string;
}.

Definition owner_binding (self : RouteLeaseOwnerV3) : RouteLeaseBinding :=
  {| lb_broker_protocol_version := o3_broker_protocol_version self;
     lb_broker_generation := o3_broker_generation self;
     lb_sidecar_instance_id := o3_sidecar_instance_id self;
     lb_lease_id := o3_lease_id self;
     lb_operation_id := o3_operation_id self |}.

(** The version test shared by owner, reference and record. *)
Definition check_v3 (version : Z) : LRes unit :=
  if negb (version =? ROUTE_HELPER_V3_PROTOCOL_VERSION)
  then Err (if version =? ROUTE_HELPER_V2_PROTOCOL_VERSION
            then LeaseRecoveryOnly else LeaseUnsupportedProtocolVersion)
  else Ok tt.

Definition legacy_owner (self : RouteLeaseOwnerV3) : RouteLeaseOwner :=
  {| ro_protocol_version := ROUTE_HELPER_PROTOCOL_VERSION;
     ro_lease_id := o3_lease_id self;
     ro_operation_id := o3_operation_id self;
     ro_sidecar_instance_id := o3_sidecar_instance_id self;
     ro_profile_revision := o3_profile_revision self;
     ro_tunnel := o3_tunnel self;
     ro_active_mihomo_tun_interfaces := o3_active_mihomo_tun_interfaces self;
     ro_private_cidrs := o3_private_cidrs self |}.

Definition RouteLeaseOwnerV3_validate (self : RouteLeaseOwnerV3) : LRes unit :=
  check_v3 (o3_protocol_version self) ;?
  RouteLeaseBinding_validate (owner_binding self) ;?
  map_err from_network_error (RouteLeaseOwner_validate (legacy_owner self)) ;?
  if negb (bool_decide (instance_id (o3_tunnel self) = o3_sidecar_instance_id self))
  then Err LeaseOwnershipMismatch
  else Ok tt.

Record RouteLeaseReferenceV3 := {
  r3_protocol_version : Z;
  r3_broker_protocol_version : Z;
  r3_broker_generation : Z;
  r3_sidecar_instance_id : string;
  r3_lease_id : string;
  r3_operation_id : string;
}.

#[global] Instance RouteLeaseReferenceV3_eq_dec : EqDecision RouteLeaseReferenceV3.
Proof. solve_decision. Defined.

Definition from_owner (owner : RouteLeaseOwnerV3) : RouteLeaseReferenceV3 :=
  {| r3_protocol_version := o3_protocol_version owner;
     r3_broker_protocol_version := o3_broker_protocol_version owner;
     r3_broker_generation := o3_broker_generation owner;
     r3_sidecar_instance_id := o3_sidecar_instance_id owner;
     r3_lease_id := o3_lease_id owner;
     r3_operation_id := o3_operation_id owner |}.

Definition reference_binding (self : RouteLeaseReferenceV3) : RouteLeaseBinding :=
  {| lb_broker_protocol_version := r3_broker_protocol_version self;
     lb_broker_generation := r3_broker_generation self;
     lb_sidecar_instance_id := r3_sidecar_instance_id self;
     lb_lease_id := r3_lease_id self;
     lb_operation_id := r3_operation_id self |}.

Definition RouteLeaseReferenceV3_validate (self : RouteLeaseReferenceV3) : LRes unit :=
  check_v3 (r3_protocol_version self) ;?
  RouteLeaseBinding_validate (reference_binding self).

Definition matches_owner (self : RouteLeaseReferenceV3) (owner : RouteLeaseOwnerV3) : LRes unit :=
  RouteLeaseReferenceV3_validate self ;?
  RouteLeaseOwnerV3_validate owner ;?
  if negb (bool_decide (self = from_owner owner)) then Err LeaseOwnershipMismatch else Ok tt.

(** ** the journal record *)

Inductive RouteLeaseJournalState : Type :=
| HoldPending
| Held
| LeaseApplied
| RetirementPending
| Released
| RecoveryOnly.

#[global] Instance RouteLeaseJournalState_eq_dec : EqDecision RouteLeaseJournalState.
Proof. solve_decision. Defined.

Definition is_recovery_only (self : RouteLeaseJournalState) : bool :=
  match self with RecoveryOnly => true | _ => false end.

Definition permits_route_mutation (self : RouteLeaseJournalState) : bool :=
  match self with Held => true | _ => false end.

Record RouteLeaseJournalRecord := {
  jr_protocol_version : Z;
  jr_state : RouteLeaseJournalState;
  jr_transition : Z;
  jr_owner : RouteLeaseOwnerV3;
}.

Record RouteLeaseTransition := {
  lt_protocol_version : Z;
  from_state : RouteLeaseJournalState;
  to_state : RouteLeaseJournalState;
  lt_transition : Z;
  lt_reference : RouteLeaseReferenceV3;
}.

Definition hold_pending (owner : RouteLeaseOwnerV3) : LRes RouteLeaseJournalRecord :=
  RouteLeaseOwnerV3_validate owner ;?
  Ok {| jr_protocol_version := ROUTE_HELPER_V3_PROTOCOL_VERSION; jr_state := HoldPending;
        jr_transition := 1; jr_owner := owner |}.

Definition transition_shape_is_valid (state : RouteLeaseJournalState) (transition : Z) : bool :=
  match state with
  | HoldPending => transition =? 1
  | Held => transition =? 2
  | LeaseApplied => transition =? 3
  | RetirementPending => (2 <=? transition) && (transition <=? 4)
  | Released => (3 <=? transition) && (transition <=? 5)
  | RecoveryOnly => false
  end.

Definition RouteLeaseJournalRecord_validate (self : RouteLeaseJournalRecord) : LRes unit :=
  check_v3 (jr_protocol_version self) ;?
  if jr_transition self =? 0 then Err LeaseInvalidConfiguration
  else if bool_decide (jr_state self = RecoveryOnly) then Err LeaseRecoveryOnly
  else if negb (transition_shape_is_valid (jr_state self) (jr_transition self))
  then Err LeaseReplayDetected
  else RouteLeaseOwnerV3_validate (jr_owner self).

Definition require_reference (self : RouteLeaseJournalRecord) (reference : RouteLeaseReferenceV3)
  : LRes unit :=
  RouteLeaseJournalRecord_validate self ;?
  matches_owner reference (jr_owner self).

Definition valid_transition (current next : RouteLeaseJournalState) : bool :=
  match current, next with
  | HoldPending, Held
  | HoldPending, RetirementPending
  | Held, LeaseApplied
  | Held, RetirementPending
  | LeaseApplied, RetirementPending
  | RetirementPending, Released => true
  | _, _ => false
  end.

Definition apply_transition (self : RouteLeaseJournalRecord) (event : RouteLeaseTransition)
  : LRes RouteLeaseJournalRecord :=
  require_reference self (lt_reference event) ;?
  if negb (lt_protocol_version event =? ROUTE_HELPER_V3_PROTOCOL_VERSION)
    || negb (bool_decide (from_state event = jr_state self))
    || negb (lt_transition event =? saturating_add u64_max (jr_transition self) 1)
  then Err LeaseReplayDetected
  else if negb (valid_transition (jr_state self) (to_state event))
  then Err (if bool_decide (jr_state self = to_state event)
            then LeaseReplayDetected else LeaseInvalidStateTransition)
  else Ok {| jr_protocol_version := jr_protocol_version self;
             jr_state := to_state event;
             jr_transition := lt_transition event;
             jr_owner := jr_owner self |}.

Definition lease_transition (self : RouteLeaseJournalRecord) (next : RouteLeaseJournalState)
    (reference : RouteLeaseReferenceV3) : LRes RouteLeaseJournalRecord :=
  let? transition := ok_or (checked_add u64_max (jr_transition self) 1)
                       LeaseInvalidStateTransition in
  apply_transition self
    {| lt_protocol_version := jr_protocol_version self; from_state := jr_state self;
       to_state := next; lt_transition := transition; lt_reference := reference |}.

(** ** compatibility and recovery *)

Inductive RouteLeaseCompatibility : Type := CurrentV3 | RecoveryOnlyV2.

Definition classify_route_helper_protocol (protocol_version : Z) : LRes RouteLeaseCompatibility :=
  if protocol_version =? ROUTE_HELPER_V3_PROTOCOL_VERSION then Ok CurrentV3
  else if protocol_version =? ROUTE_HELPER_V2_PROTOCOL_VERSION then Ok RecoveryOnlyV2
  else Err LeaseUnsupportedProtocolVersion.

Definition classify_legacy_v2 (owner : RouteLeaseOwner) : LRes RouteLeaseCompatibility :=
  map_err from_network_error (RouteLeaseOwner_validate owner) ;?
  classify_route_helper_protocol (ro_protocol_version owner).

Inductive RouteLeaseHoldRecoveryObservation : Type :=
| ExactHeld
| ExactReleased
| ExactSessionNoHold
| HeldByDifferentTuple
| Ambiguous.

Inductive RouteLeaseHoldRecoveryAction : Type :=
| RecordHeld
| RetireWithoutRouteMutation
| FailClosed.

Definition recover_hold_pending (observation : RouteLeaseHoldRecoveryObservation)
  : RouteLeaseHoldRecoveryAction :=
  match observation with
  | ExactHeld => RecordHeld
  | ExactReleased | ExactSessionNoHold => RetireWithoutRouteMutation
  | HeldByDifferentTuple | Ambiguous => FailClosed
  end.

(** ** executions *)

(** One accepted acknowledgement. *)
Definition lease_step (r r' : RouteLeaseJournalRecord) : Prop :=
  exists event, apply_transition r event = Ok r'.

(** The records a lease's life can write. *)
Inductive lease_reach : RouteLeaseJournalRecord -> Prop :=
| lease_opened owner r : hold_pending owner = Ok r -> lease_reach r
| lease_advanced r r' : lease_reach r -> lease_step r r' -> lease_reach r'.

Lemma check_v3_ok v u : check_v3 v = Ok u <-> v = 3.
Proof.
  unfold check_v3, ROUTE_HELPER_V3_PROTOCOL_VERSION.
  destruct (Z.eqb_spec v 3); destruct u; split; intros; done || congruence.
Qed.

Lemma record_validate_ok r :
  RouteLeaseJournalRecord_validate r = Ok tt <->
  jr_protocol_version r = 3 /\
  transition_shape_is_valid (jr_state r) (jr_transition r) = true /\
  RouteLeaseOwnerV3_validate (jr_owner r) = Ok tt.
Proof.
  unfold RouteLeaseJournalRecord_validate. rewrite rbind_ok. setoid_rewrite check_v3_ok. split.
  - intros (_ & Hv & Hr). case_match; [done|]. case_match; [done|].
    destruct (transition_shape_is_valid _ _); [done|done].
  - intros (Hv & Hs & Ho). exists tt. split; [done|]. rewrite Hs, Ho.
    destruct (jr_state r) eqn:Hst; cbn in *; try done;
      (destruct (Z.eqb_spec (jr_transition r) 0) as [Hz|]; [rewrite Hz in Hs; done|done]).
Qed.

Lemma reference_of_owner_valid o :
  RouteLeaseOwnerV3_validate o = Ok tt -> RouteLeaseReferenceV3_validate (from_owner o) = Ok tt.
Proof.
  unfold RouteLeaseOwnerV3_validate, RouteLeaseReferenceV3_validate. intros Ho.
  apply rbind_ok in Ho as (u & Hv & Ho). apply rbind_ok in Ho as ([] & Hb & _).
  cbn [r3_protocol_version from_owner]. by rewrite Hv.
Qed.

Lemma matches_owner_ok ref o :
  matches_owner ref o = Ok tt <-> RouteLeaseOwnerV3_validate o = Ok tt /\ ref = from_owner o.
Proof.
  unfold matches_owner. split.
  - intros Hm. peel_ok Hm. case_bool_decide; [|done]. done.
  - intros [Ho ->].
    rewrite (reference_of_owner_valid o Ho). cbn [rbind]. rewrite Ho. cbn [rbind]. by rewrite bool_decide_true.
Qed.

Lemma shape_range s n : transition_shape_is_valid s n = true -> 1 <= n <= 5.
Proof. destruct s; cbn; intros Hs; reflect_bools; try done; lia. Qed.

(** An acknowledgement is accepted exactly when it is for this owner, from this
    version, along the interlock. *)
Lemma apply_transition_ok r ev r' :
  apply_transition r ev = Ok r' <->
  RouteLeaseJournalRecord_validate r = Ok tt /\
  lt_reference ev = from_owner (jr_owner r) /\
  lt_protocol_version ev = 3 /\ from_state ev = jr_state r /\
  lt_transition ev = jr_transition r + 1 /\
  valid_transition (jr_state r) (to_state ev) = true /\
  r' = {| jr_protocol_version := jr_protocol_version r; jr_state := to_state ev;
          jr_transition := lt_transition ev; jr_owner := jr_owner r |}.
Proof.
  assert (Hsat : forall n, 1 <= n <= 5 -> saturating_add u64_max n 1 = n + 1)
    by (intros; unfold saturating_add, u64_max; lia).
  unfold apply_transition, require_reference, ROUTE_HELPER_V3_PROTOCOL_VERSION. split.
  - intros Hr. apply rbind_ok in Hr as ([] & Hreq & Hr).
    apply rbind_ok in Hreq as ([] & Hv & Hm). apply matches_owner_ok in Hm as [_ Href].
    pose proof (proj1 (record_validate_ok r) Hv) as (_ & Hs & _). apply shape_range in Hs.
    rewrite Hsat in Hr by done. destruct (_ || _) eqn:Hg; [done|]. reflect_bools.
    destruct (valid_transition _ _) eqn:Hval; [|done]. injection Hr as <-. by split_and!.
  - intros (Hv & Href & Hpv & Hfrom & Hseq & Hval & ->).
    pose proof (proj1 (record_validate_ok r) Hv) as (_ & Hs & Ho). apply shape_range in Hs.
    rewrite Hv. cbn [rbind]. rewrite (proj2 (matches_owner_ok _ _) (conj Ho Href)). cbn [rbind].
    rewrite Hsat by done. rewrite Hpv, Hfrom, Hseq, !Z.eqb_refl, bool_decide_true by done.
    cbn [negb orb]. by rewrite Hval.
Qed.

Lemma step_shape s n s' :
  transition_shape_is_valid s n = true -> valid_transition s s' = true ->
  transition_shape_is_valid s' (n + 1) = true.
Proof.
  destruct s, s'; cbn; intros Hs Hv; try done; reflect_bools; subst; try done;
    rewrite andb_true_iff, !Z.leb_le; lia.
Qed.

Lemma step_validates r r' : lease_step r r' -> RouteLeaseJournalRecord_validate r' = Ok tt.
Proof.
  intros [ev Hev]. apply apply_transition_ok in Hev as (Hv & _ & _ & _ & Hseq & Hval & ->).
  apply record_validate_ok in Hv as (Hp & Hs & Ho). apply record_validate_ok. cbn.
  split_and!; [done| |done]. rewrite Hseq. by eapply step_shape.
Qed.

Lemma open_ok owner r :
  hold_pending owner = Ok r <-> RouteLeaseOwnerV3_validate owner = Ok tt /\
  r = {| jr_protocol_version := 3; jr_state := HoldPending; jr_transition := 1;
         jr_owner := owner |}.
Proof.
  unfold hold_pending. rewrite rbind_ok. split.
  - intros ([] & Ho & [= <-]). done.
  - intros [Ho ->]. by exists tt.
Qed.

(** The acknowledgement a conforming helper sends. *)
Definition acknowledge (r : RouteLeaseJournalRecord) (next : RouteLeaseJournalState)
  : RouteLeaseTransition :=
  {| lt_protocol_version := 3; from_state := jr_state r; to_state := next;
     lt_transition := jr_transition r + 1; lt_reference := from_owner (jr_owner r) |}.

Lemma acknowledge_steps r next :
  RouteLeaseJournalRecord_validate r = Ok tt -> valid_transition (jr_state r) next = true ->
  lease_step r {| jr_protocol_version := jr_protocol_version r; jr_state := next;
                  jr_transition := jr_transition r + 1; jr_owner := jr_owner r |}.
Proof. intros Hv Hval. exists (acknowledge r next). by apply apply_transition_ok. Qed.

Lemma lease_reach_valid r : lease_reach r -> RouteLeaseJournalRecord_validate r = Ok tt.
Proof.
  induction 1 as [owner r Ho|r r' _ _ Hst]; [|by eapply step_validates].
  apply open_ok in Ho as [Ho ->]. by apply record_validate_ok.
Qed.

Lemma lease_step_facts r r' :
  lease_step r r' ->
  jr_owner r' = jr_owner r /\ jr_transition r' = jr_transition r + 1 /\
  valid_transition (jr_state r) (jr_state r') = true.
Proof.
  intros [ev Hev]. apply apply_transition_ok in Hev as (_ & _ & _ & _ & Hseq & Hval & ->). done.
Qed.

(** A lease's first record, and the next one along the interlock. *)
Lemma lease_reach_next o s n s' :
  RouteLeaseOwnerV3_validate o = Ok tt ->
  lease_reach {| jr_protocol_version := 3; jr_state := s; jr_transition := n; jr_owner := o |} ->
  valid_transition s s' = true ->
  lease_reach {| jr_protocol_version := 3; jr_state := s'; jr_transition := n + 1; jr_owner := o |}.
Proof.
  intros Ho Hr Hval. eapply lease_advanced; [exact Hr|].
  by apply (acknowledge_steps {| jr_protocol_version := 3; jr_state := s; jr_transition := n;
    jr_owner := o |}); [apply lease_reach_valid|].
Qed.

(** Every valid record can be written by some lease. *)
Lemma lease_records_reach r : RouteLeaseJournalRecord_validate r = Ok tt -> lease_reach r.
Proof.
  intros (Hp & Hs & Ho)%record_validate_ok.
  destruct r as [v s n o]. cbn in *. subst v.
  assert (H1 : lease_reach {| jr_protocol_version := 3; jr_state := HoldPending;
    jr_transition := 1; jr_owner := o |}) by (eapply lease_opened, open_ok; by split).
  pose proof (lease_reach_next o _ _ Held Ho H1 eq_refl) as H2.
  pose proof (lease_reach_next o _ _ LeaseApplied Ho H2 eq_refl) as H3.
  pose proof (lease_reach_next o _ _ RetirementPending Ho H1 eq_refl) as R2.
  pose proof (lease_reach_next o _ _ RetirementPending Ho H2 eq_refl) as R3.
  pose proof (lease_reach_next o _ _ RetirementPending Ho H3 eq_refl) as R4.
  destruct s; cbn in Hs; reflect_bools; subst; try done.
  - assert (n = 2 \/ n = 3 \/ n = 4) as [->|[->| ->]] by lia; done.
  - assert (n = 3 \/ n = 4 \/ n = 5) as [->|[->| ->]] by lia;
      by (apply (lease_reach_next o RetirementPending 2) ||
          apply (lease_reach_next o RetirementPending 3) ||
          apply (lease_reach_next o RetirementPending 4)).
Qed.

(** C30: the validator of lease journal records accepts exactly the records a
    lease's life can write: those that arise from hold_pending on a valid owner
    by accepted acknowledgements. *)
Theorem lease_records_valid_iff_reachable r :
  RouteLeaseJournalRecord_validate r = Ok tt <-> lease_reach r.
Proof. split; [apply lease_records_reach|apply lease_reach_valid]. Qed.

Lemma steps_facts n r r' :
  nsteps lease_step n r r' ->
  jr_owner r' = jr_owner r /\ jr_transition r' = jr_transition r + Z.of_nat n.
Proof.
  induction 1 as [r|n r r1 r' Hst _ [IH1 IH2]]; [split; [done|lia]|].
  apply lease_step_facts in Hst as (Ho & Ht & _). split; [congruence|lia].
Qed.

Lemma rtc_valid r r' :
  RouteLeaseJournalRecord_validate r = Ok tt -> rtc lease_step r r' ->
  RouteLeaseJournalRecord_validate r' = Ok tt.
Proof. intros Hv. induction 1 as [|r r1 r' Hst _ IH]; [done|]. apply IH. by eapply step_validates. Qed.

(** An acknowledgement counts once: after it has been accepted, and however far the
    lease has moved on since, delivering it again is refused as a replay. *)
Theorem acknowledgements_count_once r ev r1 r2 :
  apply_transition r ev = Ok r1 -> rtc lease_step r1 r2 ->
  apply_transition r2 ev = Err LeaseReplayDetected.
Proof.
  intros Hev Hsteps. assert (Hst : lease_step r r1) by (by exists ev).
  pose proof (step_validates _ _ Hst) as Hv1. pose proof (rtc_valid _ _ Hv1 Hsteps) as Hv2.
  apply apply_transition_ok in Hev as (_ & Href & _ & _ & Hseq & _ & ->).
  apply rtc_nsteps in Hsteps as [n Hn]. apply steps_facts in Hn as [Ho Ht]. cbn in Ho, Ht.
  pose proof (proj1 (record_validate_ok r2) Hv2) as (_ & Hs & Hov). apply shape_range in Hs.
  unfold apply_transition, require_reference. rewrite Hv2. cbn [rbind].
  rewrite (proj2 (matches_owner_ok _ _) (conj Hov (eq_trans Href (f_equal from_owner (eq_sym Ho))))).
  cbn [rbind].
  assert (lt_transition ev =? saturating_add u64_max (jr_transition r2) 1 = false) as ->.
  { apply Z.eqb_neq. unfold saturating_add, u64_max. lia. }
  cbn [negb]. by rewrite orb_true_r.
Qed.

(** A lease is used at most once, and dies: only a held lease can become
    applied; no state after that, nor after retirement began, permits a mutation
    again; and a lease accepts at most four acknowledgements, each advancing its
    version by one. *)
Theorem lease_permits_one_mutation r r' n :
  lease_reach r -> nsteps lease_step n r r' ->
  (lease_step r r' -> jr_state r' = LeaseApplied -> permits_route_mutation (jr_state r) = true) /\
  ((0 < n)%nat -> permits_route_mutation (jr_state r) = true \/ jr_state r = LeaseApplied \/
     jr_state r = RetirementPending -> permits_route_mutation (jr_state r') = false) /\
  jr_transition r' = jr_transition r + Z.of_nat n /\ (n <= 4)%nat.
Proof.
  intros Hr Hn. pose proof (lease_reach_valid _ Hr) as Hv.
  destruct (steps_facts _ _ _ Hn) as [_ Ht].
  assert (Hv' : RouteLeaseJournalRecord_validate r' = Ok tt)
    by (eapply rtc_valid; [done|by eapply rtc_nsteps_2]).
  apply record_validate_ok in Hv as (_ & Hs & _). apply record_validate_ok in Hv' as (_ & Hs' & _).
  pose proof (shape_range _ _ Hs). pose proof (shape_range _ _ Hs').
  split_and!; [| |done|lia].
  - intros (_ & _ & Hval)%lease_step_facts Happ. rewrite Happ in Hval. by destruct (jr_state r).
  - intros Hpos Hcase. destruct (jr_state r') eqn:Hst'; try done. exfalso. cbn in Hs'.
    apply Z.eqb_eq in Hs'. destruct (jr_state r); cbn in *; reflect_bools; try lia; naive_solver.
Qed.

(** Protocol 2 is recovery input only: an owner or a record of version 2 is refused as
    recovery-only by every operation that could authorise a mutation, an accepted
    acknowledgement is of version 3, and classifying a legacy owner answers
    RecoveryOnlyV2 or an error. *)
Theorem v2_never_authorises :
  (forall o, o3_protocol_version o = 2 -> RouteLeaseOwnerV3_validate o = Err LeaseRecoveryOnly /\
     hold_pending o = Err LeaseRecoveryOnly) /\
  (forall r ev, jr_protocol_version r = 2 -> apply_transition r ev = Err LeaseRecoveryOnly) /\
  (forall r ev r', apply_transition r ev = Ok r' ->
     r3_protocol_version (lt_reference ev) = 3 /\ o3_protocol_version (jr_owner r') = 3) /\
  (forall o c, classify_legacy_v2 o = Ok c -> c = RecoveryOnlyV2).
Proof.
  split_and!.
  - intros o Ho. unfold hold_pending, RouteLeaseOwnerV3_validate. by rewrite Ho.
  - intros r ev Hr. unfold apply_transition, require_reference, RouteLeaseJournalRecord_validate.
    by rewrite Hr.
  - intros r ev r' Hev. apply apply_transition_ok in Hev as (Hv & -> & _ & _ & _ & _ & ->).
    apply record_validate_ok in Hv as (_ & _ & Ho). unfold RouteLeaseOwnerV3_validate in Ho.
    apply rbind_ok in Ho as (u & Hc & _). apply check_v3_ok in Hc. done.
  - intros o c Hc. unfold classify_legacy_v2 in Hc. apply rbind_ok in Hc as (u & Hv & Hc).
    apply map_err_ok in Hv. unfold RouteLeaseOwner_validate in Hv.
    destruct (_ || _) eqn:Hg; [done|]. reflect_bools.
    unfold classify_route_helper_protocol in Hc.
    match goal with HH : ro_protocol_version o = _ |- _ => rewrite HH in Hc end.
    by injection Hc as <-.
Qed.
