(* ===== verification/ProductionSession.v ===== *)
(** * ProductionSession: the identity chain of a broker-bound session

    [src-tauri/src/networking/production_session.rs], with the session reference of
    [tunnel_broker_client.rs] and the proof computation of [stdio_runtime.rs].
    Launch material is bound to the reference the broker assigned; an accepted
    handshake turns the bound launch into a start receipt; the receipt, a verified
    tunnel and a lease turn into the authority to install routes.  HMAC-SHA256 is
    a parameter. *)

From Stdlib Require Import Ascii String.
From S2P Require Import Prelude Text NetState IpAddr Ipc Sidecar RouteHelperV3.

(** ** the broker's session reference *)

Definition TUNNEL_BROKER_PROTOCOL_VERSION : Z := 1.
Definition MAXIMUM_IDENTIFIER_BYTES : Z := 64.

Record TunnelBrokerSessionReference := {
  br_protocol_version : Z;
  br_generation : Z;
  br_sidecar_instance_id : string;
}.

#[global] Instance TunnelBrokerSessionReference_eq_dec : EqDecision TunnelBrokerSessionReference.
Proof. solve_decision. Defined.

Definition TunnelBrokerSessionReference_validate (self : TunnelBrokerSessionReference) : Res unit :=
  if negb (br_protocol_version self =? TUNNEL_BROKER_PROTOCOL_VERSION)
    || (br_generation self =? 0)
    || (i64_max <? br_generation self)
    || (len (br_sidecar_instance_id self) <? 8)
    || (MAXIMUM_IDENTIFIER_BYTES <? len (br_sidecar_instance_id self))
    || negb (all_bytes (fun byte => is_ascii_alphanumeric byte || one_of ["-"; "."; "_"]%char byte)
               (br_sidecar_instance_id self))
  then Err UnsupportedProtocolVersion
  else Ok tt.

(** ** the authentication proof *)

(** [ring::hmac] with SHA-256: key, message. *)
Class Hmac := { hmac_sign : list Z -> list Z -> list Z }.

(** Two lower-case digits per byte, the high half first. *)
Definition hex (bytes : list Z) : string :=
  str (flat_map (fun byte => [hex_char (Z.shiftr byte 4); hex_char (Z.land byte 15)]) bytes).

Section session.
Context `{Hmac}.

Definition sidecar_auth_proof (auth_token : list Z) (instance_id : string) : string :=
  let message :=
    map byte (bytes "kyclash-sidecar-bootstrap-v2") ++ [0] ++ map byte (bytes instance_id) in
  hex (hmac_sign auth_token message).

(** ** launch material *)

Record SidecarLaunchMaterial := {
  lm_auth_token : list Z;
  lm_private_key : list Z;
}.

Definition SidecarLaunchMaterial_new (auth_token private_key : list Z) : Res SidecarLaunchMaterial :=
  if negb (Z.of_nat (length auth_token) =? 32) || negb (Z.of_nat (length private_key) =? 32)
  then Err InvalidConfiguration
  else Ok {| lm_auth_token := auth_token; lm_private_key := private_key |}.

Record BoundSidecarLaunch := {
  bl_reference : TunnelBrokerSessionReference;
  bl_context : SidecarLaunchContext;
  bl_expected_auth_proof : string;
}.

Definition material_bind (self : SidecarLaunchMaterial) (reference : TunnelBrokerSessionReference)
  : Res BoundSidecarLaunch :=
  TunnelBrokerSessionReference_validate reference ;?
  let instance_id := br_sidecar_instance_id reference in
  Ok {| bl_reference := reference;
        bl_context :=
          with_private_key (lm_private_key self)
            (SidecarLaunchContext_new instance_id (lm_auth_token self));
        bl_expected_auth_proof := sidecar_auth_proof (lm_auth_token self) instance_id |}.

Definition into_parts (self : BoundSidecarLaunch)
  : TunnelBrokerSessionReference * SidecarLaunchContext * string :=
  (bl_reference self, bl_context self, bl_expected_auth_proof self).

(** ** receipts and authority *)

Record ControllerStartReceipt := {
  sr_runtime_generation : Z;
  sr_broker_reference : TunnelBrokerSessionReference;
}.

Definition receipt_issue (runtime_generation : Z) (broker_reference : TunnelBrokerSessionReference)
  (handshake : SidecarHandshake) (expected_auth_proof : string)
  (tunnel : option TunnelDeviceFacts) : Res ControllerStartReceipt :=
  TunnelBrokerSessionReference_validate broker_reference ;?
  if (runtime_generation =? 0)
    || negb (hs_protocol_version handshake =? NETWORK_IPC_PROTOCOL_VERSION)
    || negb (bool_decide (hs_instance_id handshake = br_sidecar_instance_id broker_reference))
    || negb (bool_decide (hs_auth_proof handshake = expected_auth_proof))
    || is_some_and tunnel (fun facts =>
         negb (bool_decide (instance_id facts = br_sidecar_instance_id broker_reference)))
  then Err AuthenticationFailed
  else Ok {| sr_runtime_generation := runtime_generation;
             sr_broker_reference := broker_reference |}.

Record BrokerRouteAuthorization := {
  ra_runtime_generation : Z;
  ra_binding : RouteLeaseBinding;
  ra_tunnel : TunnelDeviceFacts;
}.

(** [format!("{}.prepare", operation_id)]. *)
Definition prepare_id (operation_id : string) : string := (operation_id ++ ".prepare")%string.

Definition authorize_routes (self : ControllerStartReceipt) (tunnel : TunnelDeviceFacts)
  (lease_id operation_id : string) : Res BrokerRouteAuthorization :=
  TunnelBrokerSessionReference_validate (sr_broker_reference self) ;?
  (if negb (br_protocol_version (sr_broker_reference self) =? ROUTE_BROKER_PROTOCOL_VERSION)
   then Err UnsupportedProtocolVersion else Ok tt) ;?
  let binding :=
    {| lb_broker_protocol_version := br_protocol_version (sr_broker_reference self);
       lb_broker_generation := br_generation (sr_broker_reference self);
       lb_sidecar_instance_id := br_sidecar_instance_id (sr_broker_reference self);
       lb_lease_id := lease_id;
       lb_operation_id := operation_id |} in
  map_err network_code (RouteLeaseBinding_validate binding) ;?
  TunnelDeviceFacts_validate tunnel (lb_sidecar_instance_id binding)
    (prepare_id (lb_operation_id binding)) ;?
  Ok {| ra_runtime_generation := sr_runtime_generation self;
        ra_binding := binding;
        ra_tunnel := tunnel |}.

Definition validate_start_identity (reference : TunnelBrokerSessionReference)
  (handshake : SidecarHandshake) (tunnel : TunnelDeviceFacts) : Res unit :=
  TunnelBrokerSessionReference_validate reference ;?
  if negb (bool_decide (hs_instance_id handshake = br_sidecar_instance_id reference))
    || negb (bool_decide (instance_id tunnel = br_sidecar_instance_id reference))
  then Err AuthenticationFailed
  else Ok tt.

(** ** what each step establishes *)

(** A handshake accepted for a reference and a proof. *)
Record handshake_accepted (reference : TunnelBrokerSessionReference) (proof : string)
  (handshake : SidecarHandshake) : Prop := {
  ha_version : hs_protocol_version handshake = NETWORK_IPC_PROTOCOL_VERSION;
  ha_instance : hs_instance_id handshake = br_sidecar_instance_id reference;
  ha_proof : hs_auth_proof handshake = proof;
}.

Lemma receipt_issue_ok generation reference handshake proof tunnel receipt :
  receipt_issue generation reference handshake proof tunnel = Ok receipt <->
  TunnelBrokerSessionReference_validate reference = Ok tt /\ generation <> 0 /\
  handshake_accepted reference proof handshake /\
  (forall facts, tunnel = Some facts -> instance_id facts = br_sidecar_instance_id reference) /\
  receipt = {| sr_runtime_generation := generation; sr_broker_reference := reference |}.
Proof.
  unfold receipt_issue. rewrite rbind_ok. split.
  - intros ([] & Hv & Hr). case_match eqn:E; [done|]. simplify_eq/=. reflect_bools.
    split_and!; try done. intros facts ->. cbn in *. by reflect_bools.
  - intros (Hv & Hg & [Hver Hi Hp] & Ht & ->). exists tt. split; [done|].
    rewrite (proj2 (Z.eqb_neq _ _) Hg), Hver, Hi, Hp, Z.eqb_refl, !bool_decide_true by done.
    destruct tunnel as [facts|]; cbn; [|done]. by rewrite (Ht facts), bool_decide_true.
Qed.

Lemma tunnel_facts_valid_iff facts instance operation :
  TunnelDeviceFacts_validate facts instance operation = Ok tt <->
  mtu facts = 1420 /\ instance_id facts = instance /\ operation_id facts = operation /\
  valid_utun_interface (interface_name facts) = true.
Proof.
  unfold TunnelDeviceFacts_validate, validate_owner. rewrite rbind_ok. split.
  - intros ([] & H1' & H2'). case_match eqn:E1; [done|]. case_match eqn:E2; [done|].
    by reflect_bools.
  - intros (-> & -> & -> & ->). exists tt. by rewrite !bool_decide_true.
Qed.

(** The authority to install routes for a receipt: exactly one binding, whose
    ids are valid, and a tunnel prepared by the same operation of the same
    sidecar. *)
Lemma authorize_routes_ok receipt tunnel lease operation auth :
  authorize_routes receipt tunnel lease operation = Ok auth <->
  let reference := sr_broker_reference receipt in
  TunnelBrokerSessionReference_validate reference = Ok tt /\
  RouteLeaseBinding_validate (ra_binding auth) = Ok tt /\
  mtu tunnel = 1420 /\
  instance_id tunnel = br_sidecar_instance_id reference /\
  operation_id tunnel = prepare_id operation /\
  valid_utun_interface (interface_name tunnel) = true /\
  auth = {| ra_runtime_generation := sr_runtime_generation receipt;
            ra_binding :=
              {| lb_broker_protocol_version := br_protocol_version reference;
                 lb_broker_generation := br_generation reference;
                 lb_sidecar_instance_id := br_sidecar_instance_id reference;
                 lb_lease_id := lease;
                 lb_operation_id := operation |};
            ra_tunnel := tunnel |}.
Proof.
  cbn zeta. unfold authorize_routes. rewrite rbind_ok. split.
  - intros ([] & Hv & Hr). peel_ok Hr. simplify_eq/=.
    apply tunnel_facts_valid_iff in Ha1 as (? & ? & ? & ?). by split_and!.
  - intros (Hv & Hb & Hm & Hi & Ho & Hu & ->). exists tt. split; [done|].
    assert (Hver : br_protocol_version (sr_broker_reference receipt) = 1).
    { unfold TunnelBrokerSessionReference_validate in Hv. case_match eqn:E; [done|].
      by reflect_bools. }
    rewrite Hver at 1. cbn [rbind Z.eqb negb]. cbn in Hb |- *. rewrite Hb. cbn.
    rewrite (proj2 (tunnel_facts_valid_iff _ _ _)); [done|by split_and!].
Qed.

(** An authority to install routes is tied to its origin: the sidecar instance
    in the launch context, the handshake, the tunnel and the lease binding is
    the one the broker named; the handshake proved the launch's token; the
    generations are the controller's and the broker's and in range; and the
    tunnel was prepared by the operation the lease is for. *)
Theorem route_authority_is_chained material reference launch handshake generation facts
  receipt tunnel lease operation auth :
  material_bind material reference = Ok launch ->
  receipt_issue generation (into_parts launch).1.1 handshake (into_parts launch).2 facts
    = Ok receipt ->
  authorize_routes receipt tunnel lease operation = Ok auth ->
  let context := (into_parts launch).1.2 in
  (* one instance from launch to route *)
  lc_instance_id context = br_sidecar_instance_id reference /\
  hs_instance_id handshake = br_sidecar_instance_id reference /\
  instance_id (ra_tunnel auth) = br_sidecar_instance_id reference /\
  lb_sidecar_instance_id (ra_binding auth) = br_sidecar_instance_id reference /\
  (* authenticated with this launch's token *)
  hs_auth_proof handshake
    = sidecar_auth_proof (lc_auth_token context) (br_sidecar_instance_id reference) /\
  (* one generation, one operation, one lease *)
  ra_runtime_generation auth = generation /\ generation <> 0 /\
  lb_broker_generation (ra_binding auth) = br_generation reference /\
  lb_broker_generation (ra_binding auth) <> 0 /\
  lb_broker_generation (ra_binding auth) <= i64_max /\
  ra_tunnel auth = tunnel /\ operation_id tunnel = prepare_id operation /\
  lb_operation_id (ra_binding auth) = operation /\ lb_lease_id (ra_binding auth) = lease /\
  valid_ipc_id operation = true /\ valid_ipc_id lease = true.
Proof.
  intros Hl Hi Ha. unfold material_bind in Hl. peel_ok Hl. simplify_eq/=.
  apply receipt_issue_ok in Hi as (_ & Hg & [Hv Hin Hp] & _ & ->).
  apply authorize_routes_ok in Ha as (Hr & Hb & Hm & Ht & Ho & Hu & ->). cbn in *.
  unfold RouteLeaseBinding_validate in Hb. peel_ok Hb. case_match eqn:E; [done|].
  unfold TunnelBrokerSessionReference_validate in Hr. case_match eqn:E'; [done|].
  reflect_bools. split_and!; try done; congruence.
Qed.

End session.
