(* ===== verification/ProductionController.v ===== *)
(** * ProductionController: the actor that owns the production sidecar

    [src-tauri/src/networking/production_controller.rs].  Callers hold handles; a
    handle validates a request, registers a cancellation token for it and queues a
    command; one actor takes the commands in order and drives the sidecar runtime.
    The runtime and the timer around its calls are the class
    [AsyncProductionRuntime]; a call that is cut off by the timer answers [None].
    The registry of cancellations is shared between handles and actor: it is kept
    in the controller's record, tokens being numbered and their flags kept in the
    world, so that [Arc::ptr_eq] is equality of numbers. *)

From Stdlib Require Import Ascii String.
From S2P Require Import Prelude Text NetState Ipc Sidecar RouteHelperV3 ProductionSession.

Definition COMMAND_CAPACITY : Z := 32.
Definition DIAGNOSTIC_CAPACITY : Z := 128.
Definition STOP_TIMEOUT : Z := 5000.

(** A call under [tokio::time::timeout]: [None] when the time is over first. *)
Notation Timed R A := (R -> option (Res A) * R).

Class AsyncProductionRuntime (R : Type) := {
  rt_start : SidecarLaunchContext -> Meth R SidecarHandshake;
  rt_request : Z -> IpcRequest -> nat -> Timed R IpcResponse;
  rt_status : Meth R SidecarProcessStatus;
  rt_stop : Z -> Timed R unit;
}.

(** ** data *)

Inductive ProductionEventKind : Type :=
| EvStarted
| EvRequestCompleted
| EvCancelled
| EvTimedOut
| EvRestarting
| EvCrashLoop
| EvStopped
| EvFailed.

Record ProductionEvent := {
  pe_sequence : Z;
  pe_operation_id : option string;
  pe_kind : ProductionEventKind;
  pe_error : option NetworkErrorCode;
}.

Inductive ControllerAbsenceKind : Type :=
| NeverSpawned
| Reaped.

#[global] Instance ControllerAbsenceKind_eq_dec : EqDecision ControllerAbsenceKind.
Proof. solve_decision. Defined.

Record ControllerRetirementReceipt := {
  rr_runtime_generation : Z;
  rr_absence : ControllerAbsenceKind;
}.

Inductive Command : Type :=
| CmdStart
| CmdStartBound
| CmdRequest (operation_id : string) (request : IpcRequest) (cancel : nat) (timeout : Z)
| CmdPoll
| CmdHealth (operation_id : string) (request : IpcRequest) (cancel : nat) (timeout : Z)
| CmdDiagnostics
| CmdShutdown
| CmdRetire.

(** What the actor sends back through the command's response channel. *)
Inductive Reply : Type :=
| ReStart (r : Res unit)
| ReStartBound (r : Res ControllerStartReceipt)
| ReRequest (r : Res IpcResponse)
| RePoll (r : Res SidecarLifecycleState)
| ReDiagnostics (events : list ProductionEvent)
| ReShutdown (r : Res unit)
| ReRetire (r : Res ControllerRetirementReceipt).

Record CancellationRegistration := {
  cr_request_id : string;
  cr_cancellable : bool;
  cr_token : nat;
}.

Inductive ControllerMode : Type :=
| Reusable
| BrokerBound (reference : TunnelBrokerSessionReference) (start_consumed : bool).

Definition is_broker_bound (mode : ControllerMode) : bool :=
  match mode with Reusable => false | BrokerBound _ _ => true end.

Inductive ControllerStartOutcome : Type :=
| OutReusable
| OutBrokerBound (receipt : ControllerStartReceipt).

Section controller.
Context {R : Type} `{AsyncProductionRuntime R}.

Record ProductionController := {
  pc_runtime : R;
  pc_context : option SidecarLaunchContext;
  pc_expected_auth_proof : string;
  pc_mode : ControllerMode;
  pc_state : SidecarLifecycleState;
  pc_cancellations : gmap string CancellationRegistration;
  pc_events : list ProductionEvent;
  pc_next_sequence : Z;
  pc_crashes : Z;
  pc_retry_at : option Z;
  pc_stop_timeout : Z;
  pc_runtime_generation : Z;
  pc_absence : option ControllerAbsenceKind;
  pc_retired : bool;
}.

Definition set_runtime (v : R) (self : ProductionController) :=
  {| pc_runtime := v; pc_context := pc_context self; pc_expected_auth_proof :=
     pc_expected_auth_proof self; pc_mode := pc_mode self; pc_state := pc_state self;
     pc_cancellations := pc_cancellations self; pc_events := pc_events self;
     pc_next_sequence := pc_next_sequence self; pc_crashes := pc_crashes self;
     pc_retry_at := pc_retry_at self; pc_stop_timeout := pc_stop_timeout self;
     pc_runtime_generation := pc_runtime_generation self; pc_absence := pc_absence self;
     pc_retired := pc_retired self |}.
Definition set_context (v : option SidecarLaunchContext) (self : ProductionController) :=
  {| pc_runtime := pc_runtime self; pc_context := v; pc_expected_auth_proof :=
     pc_expected_auth_proof self; pc_mode := pc_mode self; pc_state := pc_state self;
     pc_cancellations := pc_cancellations self; pc_events := pc_events self;
     pc_next_sequence := pc_next_sequence self; pc_crashes := pc_crashes self;
     pc_retry_at := pc_retry_at self; pc_stop_timeout := pc_stop_timeout self;
     pc_runtime_generation := pc_runtime_generation self; pc_absence := pc_absence self;
     pc_retired := pc_retired self |}.
Definition set_expected_auth_proof (v : string) (self : ProductionController) :=
  {| pc_runtime := pc_runtime self; pc_context := pc_context self;
     pc_expected_auth_proof := v; pc_mode := pc_mode self; pc_state := pc_state self;
     pc_cancellations := pc_cancellations self; pc_events := pc_events self;
     pc_next_sequence := pc_next_sequence self; pc_crashes := pc_crashes self;
     pc_retry_at := pc_retry_at self; pc_stop_timeout := pc_stop_timeout self;
     pc_runtime_generation := pc_runtime_generation self; pc_absence := pc_absence self;
     pc_retired := pc_retired self |}.
Definition set_mode (v : ControllerMode) (self : ProductionController) :=
  {| pc_runtime := pc_runtime self; pc_context := pc_context self;
     pc_expected_auth_proof := pc_expected_auth_proof self; pc_mode := v; pc_state :=
     pc_state self; pc_cancellations := pc_cancellations self; pc_events := pc_events
     self; pc_next_sequence := pc_next_sequence self; pc_crashes := pc_crashes self;
     pc_retry_at := pc_retry_at self; pc_stop_timeout := pc_stop_timeout self;
     pc_runtime_generation := pc_runtime_generation self; pc_absence := pc_absence self;
     pc_retired := pc_retired self |}.
Definition set_state (v : SidecarLifecycleState) (self : ProductionController) :=
  {| pc_runtime := pc_runtime self; pc_context := pc_context self;
     pc_expected_auth_proof := pc_expected_auth_proof self; pc_mode := pc_mode self;
     pc_state := v; pc_cancellations := pc_cancellations self; pc_events := pc_events
     self; pc_next_sequence := pc_next_sequence self; pc_crashes := pc_crashes self;
     pc_retry_at := pc_retry_at self; pc_stop_timeout := pc_stop_timeout self;
     pc_runtime_generation := pc_runtime_generation self; pc_absence := pc_absence self;
     pc_retired := pc_retired self |}.
Definition set_cancellations (v : gmap string CancellationRegistration) (self : ProductionController) :=
  {| pc_runtime := pc_runtime self; pc_context := pc_context self;
     pc_expected_auth_proof := pc_expected_auth_proof self; pc_mode := pc_mode self;
     pc_state := pc_state self; pc_cancellations := v; pc_events := pc_events self;
     pc_next_sequence := pc_next_sequence self; pc_crashes := pc_crashes self;
     pc_retry_at := pc_retry_at self; pc_stop_timeout := pc_stop_timeout self;
     pc_runtime_generation := pc_runtime_generation self; pc_absence := pc_absence self;
     pc_retired := pc_retired self |}.
Definition set_events (v : list ProductionEvent) (self : ProductionController) :=
  {| pc_runtime := pc_runtime self; pc_context := pc_context self;
     pc_expected_auth_proof := pc_expected_auth_proof self; pc_mode := pc_mode self;
     pc_state := pc_state self; pc_cancellations := pc_cancellations self; pc_events :=
     v; pc_next_sequence := pc_next_sequence self; pc_crashes := pc_crashes self;
     pc_retry_at := pc_retry_at self; pc_stop_timeout := pc_stop_timeout self;
     pc_runtime_generation := pc_runtime_generation self; pc_absence := pc_absence self;
     pc_retired := pc_retired self |}.
Definition set_next_sequence (v : Z) (self : ProductionController) :=
  {| pc_runtime := pc_runtime self; pc_context := pc_context self;
     pc_expected_auth_proof := pc_expected_auth_proof self; pc_mode := pc_mode self;
     pc_state := pc_state self; pc_cancellations := pc_cancellations self; pc_events :=
     pc_events self; pc_next_sequence := v; pc_crashes := pc_crashes self; pc_retry_at
     := pc_retry_at self; pc_stop_timeout := pc_stop_timeout self; pc_runtime_generation
     := pc_runtime_generation self; pc_absence := pc_absence self; pc_retired :=
     pc_retired self |}.
Definition set_crashes (v : Z) (self : ProductionController) :=
  {| pc_runtime := pc_runtime self; pc_context := pc_context self;
     pc_expected_auth_proof := pc_expected_auth_proof self; pc_mode := pc_mode self;
     pc_state := pc_state self; pc_cancellations := pc_cancellations self; pc_events :=
     pc_events self; pc_next_sequence := pc_next_sequence self; pc_crashes := v;
     pc_retry_at := pc_retry_at self; pc_stop_timeout := pc_stop_timeout self;
     pc_runtime_generation := pc_runtime_generation self; pc_absence := pc_absence self;
     pc_retired := pc_retired self |}.
Definition set_retry_at (v : option Z) (self : ProductionController) :=
  {| pc_runtime := pc_runtime self; pc_context := pc_context self;
     pc_expected_auth_proof := pc_expected_auth_proof self; pc_mode := pc_mode self;
     pc_state := pc_state self; pc_cancellations := pc_cancellations self; pc_events :=
     pc_events self; pc_next_sequence := pc_next_sequence self; pc_crashes := pc_crashes
     self; pc_retry_at := v; pc_stop_timeout := pc_stop_timeout self;
     pc_runtime_generation := pc_runtime_generation self; pc_absence := pc_absence self;
     pc_retired := pc_retired self |}.
Definition set_runtime_generation (v : Z) (self : ProductionController) :=
  {| pc_runtime := pc_runtime self; pc_context := pc_context self;
     pc_expected_auth_proof := pc_expected_auth_proof self; pc_mode := pc_mode self;
     pc_state := pc_state self; pc_cancellations := pc_cancellations self; pc_events :=
     pc_events self; pc_next_sequence := pc_next_sequence self; pc_crashes := pc_crashes
     self; pc_retry_at := pc_retry_at self; pc_stop_timeout := pc_stop_timeout self;
     pc_runtime_generation := v; pc_absence := pc_absence self; pc_retired := pc_retired
     self |}.
Definition set_absence (v : option ControllerAbsenceKind) (self : ProductionController) :=
  {| pc_runtime := pc_runtime self; pc_context := pc_context self;
     pc_expected_auth_proof := pc_expected_auth_proof self; pc_mode := pc_mode self;
     pc_state := pc_state self; pc_cancellations := pc_cancellations self; pc_events :=
     pc_events self; pc_next_sequence := pc_next_sequence self; pc_crashes := pc_crashes
     self; pc_retry_at := pc_retry_at self; pc_stop_timeout := pc_stop_timeout self;
     pc_runtime_generation := pc_runtime_generation self; pc_absence := v; pc_retired :=
     pc_retired self |}.
Definition set_retired (v : bool) (self : ProductionController) :=
  {| pc_runtime := pc_runtime self; pc_context := pc_context self;
     pc_expected_auth_proof := pc_expected_auth_proof self; pc_mode := pc_mode self;
     pc_state := pc_state self; pc_cancellations := pc_cancellations self; pc_events :=
     pc_events self; pc_next_sequence := pc_next_sequence self; pc_crashes := pc_crashes
     self; pc_retry_at := pc_retry_at self; pc_stop_timeout := pc_stop_timeout self;
     pc_runtime_generation := pc_runtime_generation self; pc_absence := pc_absence self;
     pc_retired := v |}.

Definition on_runtime {A} (m : Meth R A) : Meth ProductionController A :=
  zoom pc_runtime set_runtime m.

(** Await a call for a bounded time; the outcome is inspected by the caller. *)
Definition timeout {A} (call : Timed R A) : Meth ProductionController (option (Res A)) :=
  fun self => let (outcome, runtime) := call (pc_runtime self) in
              (Ok outcome, set_runtime runtime self).

(** ** the actor's operations *)

Definition record (kind : ProductionEventKind) (operation_id : option string)
  (error : option NetworkErrorCode) (self : ProductionController) : ProductionController :=
  let events :=
    if Z.of_nat (length (pc_events self)) =? DIAGNOSTIC_CAPACITY
    then tail (pc_events self) else pc_events self in
  set_next_sequence (saturating_add u64_max (pc_next_sequence self) 1)
    (set_events
       (events ++ [{| pe_sequence := pc_next_sequence self; pe_operation_id := operation_id;
                      pe_kind := kind; pe_error := error |}]) self).

Definition remove_cancellation (operation_id : string) (token : nat)
  (self : ProductionController) : ProductionController :=
  if is_some_and (pc_cancellations self !! operation_id)
       (fun registration => bool_decide (cr_token registration = token))
  then set_cancellations (delete operation_id (pc_cancellations self)) self
  else self.

Definition stop_runtime_bounded (operation_id : option string)
  : Meth ProductionController unit :=
  let! self := get in
  let! outcome := timeout (rt_stop (pc_stop_timeout self)) in
  let result := match outcome with
                | Some result => result
                | None => Err OperationTimedOut
                end in
  match result with
  | Err error =>
      modify (set_absence None) ;!
      modify (set_state CrashLoop) ;!
      modify (record EvFailed operation_id (Some error))
  | Ok _ =>
      modify (set_absence (Some
        (if pc_runtime_generation self =? 0
         then if is_broker_bound (pc_mode self) then Reaped else NeverSpawned
         else Reaped))) ;!
      modify (set_state Stopped)
  end ;!
  lift result.

(** The failure exits of [start]: stop the runtime, record, answer the error. *)
Definition abandon (error : NetworkErrorCode) {A} : Meth ProductionController A :=
  let! _ := attempt (stop_runtime_bounded None) in
  modify (record EvFailed None (Some error)) ;!
  raise error.

(** The next generation, by mode; a broker-bound controller has only one. *)
Definition next_generation (self : ProductionController) : Res Z :=
  (if is_broker_bound (pc_mode self)
   then ensure ((pc_runtime_generation self =? 0) && is_none (pc_absence self))
          InvalidStateTransition
   else Ok tt) ;?
  ok_or (checked_add u64_max (pc_runtime_generation self) 1) InvalidStateTransition.

(** The checks of [start] on the handshake, and the outcome by mode. *)
Definition accept_handshake (self : ProductionController) (generation : Z)
  (context : SidecarLaunchContext) (handshake : SidecarHandshake) : Res ControllerStartOutcome :=
  ensure (hs_protocol_version handshake =? NETWORK_IPC_PROTOCOL_VERSION)
    UnsupportedProtocolVersion ;?
  ensure (bool_decide (hs_instance_id handshake = lc_instance_id context)
          && bool_decide (hs_auth_proof handshake = pc_expected_auth_proof self))
    AuthenticationFailed ;?
  match pc_mode self with
  | Reusable => Ok OutReusable
  | BrokerBound reference _ =>
      let? receipt := receipt_issue generation reference handshake
                        (pc_expected_auth_proof self) None in
      Ok (OutBrokerBound receipt)
  end.

Definition start (reset_crash_history : bool)
  : Meth ProductionController ControllerStartOutcome :=
  let! self := get in
  if negb (bool_decide (pc_state self = Stopped)) then raise InvalidStateTransition else
  let! generation := lift (next_generation self) in
  modify (set_runtime_generation generation) ;!
  modify (set_absence None) ;!
  modify (set_state Starting) ;!
  let! context := lift (ok_or (pc_context self) InvalidStateTransition) in
  let! started := attempt (on_runtime (rt_start context)) in
  match (let? handshake := started in accept_handshake self generation context handshake) with
  | Err error => abandon error
  | Ok outcome =>
      modify (set_state Running) ;!
      modify (set_retry_at None) ;!
      (if reset_crash_history then modify (set_crashes 0) else ret tt) ;!
      modify (record EvStarted None None) ;!
      ret outcome
  end.

Definition start_broker_bound : Meth ProductionController ControllerStartReceipt :=
  let! self := get in
  match pc_mode self with
  | BrokerBound reference false => modify (set_mode (BrokerBound reference true))
  | Reusable | BrokerBound _ true => raise InvalidStateTransition
  end ;!
  let! outcome := start true in
  match outcome with
  | OutBrokerBound receipt => ret receipt
  | OutReusable => raise InvalidStateTransition
  end.

Definition execute (operation_id : string) (request : IpcRequest) (cancel : nat)
  (timeout_ms : Z) : Meth ProductionController IpcResponse :=
  let! self := get in
  if negb (bool_decide (pc_state self = Running)) then raise InvalidStateTransition else
  lift (IpcRequest_validate_protocol request) ;!
  let! result := timeout (rt_request timeout_ms request cancel) in
  let op := Some operation_id in
  match result with
  | None =>
      let! _ := attempt (stop_runtime_bounded op) in
      modify (record EvTimedOut op (Some OperationTimedOut)) ;!
      raise OperationTimedOut
  | Some (Err error) =>
      (if bool_decide (error = OperationCancelled)
       then modify (record EvCancelled op (Some error))
       else if bool_decide (error = OperationTimedOut)
       then let! _ := attempt (stop_runtime_bounded op) in
            modify (record EvTimedOut op (Some error))
       else let! _ := attempt (stop_runtime_bounded op) in
            modify (record EvFailed op (Some error))) ;!
      raise error
  | Some (Ok response) =>
      match IpcResponse_validate_protocol response request with
      | Err error =>
          let! _ := attempt (stop_runtime_bounded op) in
          modify (record EvFailed op (Some error)) ;!
          raise error
      | Ok _ =>
          let response_error := match rs_result response with
                                | Ok _ => None
                                | Err error => Some (ie_code error)
                                end in
          modify (record EvRequestCompleted op response_error) ;!
          ret response
      end
  end.

(** [100 * 2^min(crashes - 1, 7)] milliseconds, at most ten seconds. *)
Definition restart_delay_ms (crashes : Z) : Z :=
  let exponent := Z.min (saturating_sub crashes 1) 7 in
  Z.min (saturating_mul u64_max 100 (Z.shiftl 1 exponent)) 10000.

Definition poll (now : Z) : Meth ProductionController SidecarLifecycleState :=
  let! self := get in
  match pc_state self with
  | Backoff =>
      (if is_some_and (pc_retry_at self) (fun deadline => deadline <=? now)
       then modify (set_state Stopped) ;!
            modify (record EvRestarting None None) ;!
            start false ;!
            ret tt
       else ret tt) ;!
      let! self := get in
      ret (pc_state self)
  | Running =>
      let! status := attempt (on_runtime rt_status) in
      match status with
      | Err error => abandon error
      | Ok ProcessRunning =>
          modify (set_crashes 0) ;!
          modify (set_absence None)
      | Ok (ProcessExited _) =>
          modify (set_absence (Some Reaped)) ;!
          if is_broker_bound (pc_mode self)
          then
            modify (set_state CrashLoop) ;!
            modify (set_retry_at None) ;!
            modify (record EvCrashLoop None (Some SidecarUnavailable)) ;!
            raise SidecarUnavailable
          else
            let crashes := saturating_add u8_max (pc_crashes self) 1 in
            modify (set_crashes crashes) ;!
            if 3 <? crashes
            then
              modify (set_state CrashLoop) ;!
              modify (record EvCrashLoop None (Some SidecarUnavailable)) ;!
              raise SidecarUnavailable
            else
              modify (set_state Backoff) ;!
              modify (set_retry_at (Some (now + restart_delay_ms crashes))) ;!
              modify (record EvRestarting None (Some SidecarUnavailable))
      end ;!
      let! self := get in
      ret (pc_state self)
  | state => ret state
  end.

Definition shutdown : Meth ProductionController unit :=
  let! stop_result := attempt (stop_runtime_bounded None) in
  modify (set_crashes 0) ;!
  modify (set_retry_at None) ;!
  modify (set_cancellations ∅) ;!
  match stop_result with
  | Ok _ => modify (record EvStopped None None)
  | Err error => raise error
  end.

Definition retire : Meth ProductionController ControllerRetirementReceipt :=
  let! self := get in
  if pc_retired self || negb (bool_decide (pc_state self = Stopped))
    || negb (bool_decide (pc_cancellations self = ∅))
  then raise InvalidStateTransition else
  (if is_none (pc_absence self) then stop_runtime_bounded None else ret tt) ;!
  let! self := get in
  let! absence := lift (ok_or (pc_absence self) SidecarUnavailable) in
  (if is_broker_bound (pc_mode self)
   then if negb (bool_decide (absence = Reaped)) then raise InvalidStateTransition else ret tt
   else if negb (Bool.eqb (pc_runtime_generation self =? 0) (bool_decide (absence = NeverSpawned)))
   then raise InvalidStateTransition else ret tt) ;!
  modify (set_retired true) ;!
  modify (set_retry_at None) ;!
  modify (set_context None) ;!
  modify (set_expected_auth_proof EmptyString) ;!
  let! self := get in
  if is_some (pc_context self) || negb (is_empty (pc_expected_auth_proof self))
  then raise AuthenticationFailed
  else ret {| rr_runtime_generation := pc_runtime_generation self; rr_absence := absence |}.

(** ** the actor's loop *)

(** A command whose handler is refused once the controller is retired. *)
Definition unless_retired {A} (m : Meth ProductionController A) : Meth ProductionController A :=
  let! self := get in
  if pc_retired self then raise InvalidStateTransition else m.

(** One turn of [run].  [claimed] says whether the caller of [StartBound] still
    waits for the receipt, [now] is the clock. *)
Definition dispatch (claimed : bool) (now : Z) (command : Command)
  : Meth ProductionController Reply :=
  match command with
  | CmdStart =>
      let! self := get in
      let! result := attempt
        (if pc_retired self || is_broker_bound (pc_mode self)
         then raise InvalidStateTransition
         else let! outcome := start true in
              match outcome with
              | OutReusable => ret tt
              | OutBrokerBound _ => raise InvalidStateTransition
              end) in
      ret (ReStart result)
  | CmdStartBound =>
      let! result := attempt (unless_retired start_broker_bound) in
      (if negb claimed && is_ok result
       then let! stopped := attempt (stop_runtime_bounded None) in
            if is_ok stopped then modify (record EvStopped None None) else ret tt
       else ret tt) ;!
      ret (ReStartBound result)
  | CmdRequest operation_id request cancel timeout_ms
  | CmdHealth operation_id request cancel timeout_ms =>
      let! result := attempt (unless_retired (execute operation_id request cancel timeout_ms)) in
      modify (remove_cancellation operation_id cancel) ;!
      ret (ReRequest result)
  | CmdPoll =>
      let! result := attempt (unless_retired (poll now)) in
      ret (RePoll result)
  | CmdDiagnostics =>
      let! self := get in
      ret (ReDiagnostics (pc_events self))
  | CmdShutdown =>
      let! result := attempt (unless_retired shutdown) in
      ret (ReShutdown result)
  | CmdRetire =>
      let! result := attempt retire in
      ret (ReRetire result)
  end.

(** The end of [run], when the last handle is gone. *)
Definition run_end : Meth ProductionController unit :=
  let! self := get in
  (if negb (pc_retired self)
      && (negb (bool_decide (pc_state self = Stopped)) || is_none (pc_absence self))
   then let! _ := attempt (stop_runtime_bounded None) in ret tt
   else ret tt) ;!
  modify (set_cancellations ∅).

Definition spawn_controller_actor (runtime : R) (context : SidecarLaunchContext)
  (expected_auth_proof : string) (stop_timeout : Z) (mode : ControllerMode)
  : ProductionController :=
  {| pc_runtime := runtime; pc_context := Some context;
     pc_expected_auth_proof := expected_auth_proof; pc_mode := mode; pc_state := Stopped;
     pc_cancellations := ∅; pc_events := []; pc_next_sequence := 1; pc_crashes := 0;
     pc_retry_at := None; pc_stop_timeout := stop_timeout; pc_runtime_generation := 0;
     pc_absence := if is_broker_bound mode then None else Some NeverSpawned;
     pc_retired := false |}.

Definition spawn_production_controller (runtime : R) (context : SidecarLaunchContext)
  (expected_auth_proof : string) : ProductionController :=
  spawn_controller_actor runtime context expected_auth_proof STOP_TIMEOUT Reusable.

Definition spawn_broker_bound_production_controller (runtime : R) (launch : BoundSidecarLaunch)
  : ProductionController :=
  let '(reference, context, expected_auth_proof) := into_parts launch in
  spawn_controller_actor runtime context expected_auth_proof STOP_TIMEOUT
    (BrokerBound reference false).

(** ** the handles

    The queue between the handles and the actor, the flags of the cancellation
    tokens, and the requests the actor has answered but whose callers have not
    yet woken up. *)
Record World := {
  w_controller : ProductionController;
  w_queue : list Command;
  w_tokens : gmap nat bool;
  w_next_token : nat;
  w_answered : list (string * nat);
}.

Definition World_new (controller : ProductionController) : World :=
  {| w_controller := controller; w_queue := []; w_tokens := ∅; w_next_token := 0;
     w_answered := [] |}.

Definition set_controller (v : ProductionController) (self : World) : World :=
  {| w_controller := v; w_queue := w_queue self; w_tokens := w_tokens self;
     w_next_token := w_next_token self; w_answered := w_answered self |}.
Definition set_queue (v : list Command) (self : World) : World :=
  {| w_controller := w_controller self; w_queue := v; w_tokens := w_tokens self;
     w_next_token := w_next_token self; w_answered := w_answered self |}.
Definition set_tokens (v : gmap nat bool) (n : nat) (self : World) : World :=
  {| w_controller := w_controller self; w_queue := w_queue self; w_tokens := v;
     w_next_token := n; w_answered := w_answered self |}.
Definition set_answered (v : list (string * nat)) (self : World) : World :=
  {| w_controller := w_controller self; w_queue := w_queue self; w_tokens := w_tokens self;
     w_next_token := w_next_token self; w_answered := v |}.

Definition on_controller {A} (m : Meth ProductionController A) : Meth World A :=
  zoom w_controller set_controller m.

Definition cancellable (payload : IpcRequestPayload) : bool :=
  match payload with
  | ConnectTransport _ | SampleHealth => true
  | _ => false
  end.

Definition register_cancellation (operation_id : string) (request : IpcRequest)
  : Meth World nat :=
  let! self := get in
  let token := w_next_token self in
  modify (set_tokens (<[token := false]> (w_tokens self)) (S token)) ;!
  let registration :=
    {| cr_request_id := rq_request_id request; cr_cancellable := cancellable (rq_payload request);
       cr_token := token |} in
  if is_some (pc_cancellations (w_controller self) !! operation_id)
  then raise InvalidStateTransition
  else
    on_controller (modify (fun c =>
      set_cancellations (<[operation_id := registration]> (pc_cancellations c)) c)) ;!
    ret token.

(** [commands.send(command)], room in the queue given. *)
Definition send (command : Command) : Meth World unit :=
  modify (fun self => set_queue (w_queue self ++ [command]) self).

(** [request] and [sample_health] up to the point where the caller waits. *)
Definition submit_request (operation_id : string) (request : IpcRequest) (timeout_ms : Z)
  : Meth World nat :=
  if is_empty operation_id || (timeout_ms =? 0) then raise InvalidConfiguration else
  lift (IpcRequest_validate_protocol request) ;!
  let! cancel := register_cancellation operation_id request in
  send (CmdRequest operation_id request cancel timeout_ms) ;!
  ret cancel.

Definition submit_health (operation_id : string) (request : IpcRequest) (timeout_ms : Z)
  : Meth World nat :=
  if is_empty operation_id || (timeout_ms =? 0)
    || negb (match rq_payload request with SampleHealth => true | _ => false end)
  then raise InvalidConfiguration else
  lift (IpcRequest_validate_protocol request) ;!
  let! cancel := register_cancellation operation_id request in
  send (CmdHealth operation_id request cancel timeout_ms) ;!
  ret cancel.

(** [request] and [sample_health] after the answer has arrived. *)
Definition finish_request (operation_id : string) (token : nat) : Meth World unit :=
  on_controller (modify (remove_cancellation operation_id token)).

Definition cancel (operation_id : string) : Meth World unit :=
  let! self := get in
  let! registration :=
    lift (ok_or (pc_cancellations (w_controller self) !! operation_id) OperationCancelled) in
  if negb (cr_cancellable registration) then raise InvalidStateTransition else
  modify (set_tokens (<[cr_token registration := true]> (w_tokens self)) (w_next_token self)).

(** The actor takes the next command. *)
Definition actor_turn (claimed : bool) (now : Z) : Meth World (option Reply) :=
  let! self := get in
  match w_queue self with
  | [] => ret None
  | command :: queue =>
      modify (set_queue queue) ;!
      let! reply := on_controller (dispatch claimed now command) in
      match command with
      | CmdRequest operation_id _ token _ | CmdHealth operation_id _ token _ =>
          modify (fun w => set_answered ((operation_id, token) :: w_answered w) w)
      | _ => ret tt
      end ;!
      ret (Some reply)
  end.

End controller.
Arguments ProductionController R : clear implicits.
Arguments World R : clear implicits.
