(* ===== verification/ProductionControllerSafety.v ===== *)
(** * ProductionControllerSafety: what the production actor guarantees

    The laws of a sidecar runtime (which calls may leave a child process behind),
    the invariant of the actor of [ProductionController], and its theorems: absence
    proofs are true, retirement is final, a broker-bound launch is used once, the
    event log keeps the latest events, a cancellation names a queued request. *)

From Stdlib Require Import Ascii String.
From S2P Require Import Prelude Text NetState Ipc Sidecar RouteHelperV3 ProductionSession.
From S2P Require Import ProductionController.

(** ** the contract of a runtime

    [child r]: a child process may be alive.  [starts r]: how many children have been
    launched.  [rt_wf] is the runtime's own invariant.  The laws are those the trait
    documents: [stop] owns forced termination and reaping, so its success means there
    is no child; [Exited] is only reported for a reaped child; a call of [start]
    launches at most one child, and no other call launches any. *)
Class RuntimeLaws (R : Type) `{AsyncProductionRuntime R} := {
  child : R -> bool;
  starts : R -> Z;
  rt_wf : R -> Prop;
  law_start_wf : forall ctx r, rt_wf r -> rt_wf (rt_start ctx r).2;
  law_request_wf : forall d rq t r, rt_wf r -> rt_wf (rt_request d rq t r).2;
  law_status_wf : forall r, rt_wf r -> rt_wf (rt_status r).2;
  law_stop_wf : forall d r, rt_wf r -> rt_wf (rt_stop d r).2;
  law_stop_reaps : forall d r, rt_wf r -> (rt_stop d r).1 = Some (Ok tt) ->
    child (rt_stop d r).2 = false;
  law_exited : forall r b, rt_wf r -> (rt_status r).1 = Ok (ProcessExited b) ->
    child (rt_status r).2 = false;
  law_start_counts : forall ctx r, rt_wf r -> starts r <= starts (rt_start ctx r).2 <= starts r + 1;
  law_stop_starts : forall d r, rt_wf r -> starts (rt_stop d r).2 = starts r;
  law_status_starts : forall r, rt_wf r -> starts (rt_status r).2 = starts r;
  law_request_starts : forall d rq t r, rt_wf r -> starts (rt_request d rq t r).2 = starts r;
}.

(** ** the event log *)

(** The log holds the end of the history of all events, numbered from one. *)
Definition log_of (full events : list ProductionEvent) (next_sequence : Z) : Prop :=
  events = drop (length full - 128) full /\
  next_sequence = Z.min u64_max (Z.of_nat (length full) + 1) /\
  forall i ev, full !! i = Some ev -> pe_sequence ev = Z.min u64_max (Z.of_nat i + 1).

Lemma tail_is_drop {A} (l : list A) : tail l = drop 1 l.
Proof. by destruct l. Qed.

Lemma log_of_record {R} full k o e (c : ProductionController R) :
  log_of full (pc_events c) (pc_next_sequence c) ->
  log_of (full ++ [{| pe_sequence := pc_next_sequence c; pe_operation_id := o; pe_kind := k;
                      pe_error := e |}])
    (pc_events (record k o e c)) (pc_next_sequence (record k o e c)).
Proof.
  intros (Hev & Hn & Hseq). unfold record. cbn. split_and!.
  - rewrite length_app. cbn [length]. rewrite Hev, length_drop.
    unfold DIAGNOSTIC_CAPACITY. case_match eqn:E; reflect_bools.
    + rewrite tail_is_drop, drop_drop, drop_app_le by lia. do 2 f_equal. lia.
    + assert (length full < 128)%nat by lia.
      rewrite !(proj2 (Nat.sub_0_le _ _)) by lia. done.
  - unfold saturating_add. rewrite Hn, length_app. cbn [length]. lia.
  - intros i ev [Hi|[Hi Hev']]%lookup_app_Some; [by apply Hseq|].
    apply list_lookup_singleton_Some in Hev' as [Hi' <-]. cbn. rewrite Hn. f_equal. lia.
Qed.

(** ** the invariant *)

Section laws.
Context {R : Type} `{RuntimeLaws R}.
Notation PC := (ProductionController R).
Implicit Types c : PC.

(** The part that holds at every moment, also inside an operation.  [base] is the
    number of starts the runtime had seen before the controller was made. *)
Record core_on (base : Z) (rt : R) (ctx : option SidecarLaunchContext) (proof : string)
  (mode : ControllerMode) (crashes gen : Z) (retired : bool) : Prop := {
  co_gen : 0 <= gen <= u64_max;
  co_wf : rt_wf rt;
  co_starts : base <= starts rt <= base + gen;
  co_broker : is_broker_bound mode = true -> gen <= 1;
  co_consumed : forall ref, mode = BrokerBound ref false -> gen = 0;
  co_secrets : if retired then ctx = None /\ proof = EmptyString else ctx <> None;
  co_crashes : 0 <= crashes <= 4;
}.

(** The part between operations: lifecycle state against absence proof. *)
Record status_on (rt : R) (mode : ControllerMode) (state : SidecarLifecycleState)
  (crashes gen : Z) (absence : option ControllerAbsenceKind) (retry : option Z)
  (retired : bool) : Prop := {
  so_absent : absence <> None -> child rt = false;
  so_kind : forall k, absence = Some k ->
    (k = NeverSpawned <-> gen = 0 /\ is_broker_bound mode = false);
  so_state : match state with
             | Stopped => absence <> None \/ is_broker_bound mode = true /\ gen = 0
             | Starting => False
             | Running => absence = None /\ 0 < gen /\ crashes <= 3
             | Backoff => absence <> None /\ is_broker_bound mode = false /\ 1 <= crashes <= 3
             | CrashLoop => True
             end;
  so_retired : retired = true -> state = Stopped /\ absence <> None;
}.

Definition core base c : Prop :=
  core_on base (pc_runtime c) (pc_context c) (pc_expected_auth_proof c) (pc_mode c)
    (pc_crashes c) (pc_runtime_generation c) (pc_retired c).
Definition status c : Prop :=
  status_on (pc_runtime c) (pc_mode c) (pc_state c) (pc_crashes c) (pc_runtime_generation c)
    (pc_absence c) (pc_retry_at c) (pc_retired c).
Definition logged c : Prop := exists full, log_of full (pc_events c) (pc_next_sequence c).
Definition inv base c : Prop := core base c /\ status c /\ logged c.

Lemma logged_record k o e c : logged c -> logged (record k o e c).
Proof. intros [full Hl]. eexists. by apply log_of_record. Qed.

Lemma inv_record base k o e c : inv base c -> inv base (record k o e c).
Proof. intros (Hc & Hs & Hl). split_and!; [exact Hc|exact Hs|by apply logged_record]. Qed.
Hint Resolve inv_record logged_record : ky.

(** What no operation of the actor but [retire] and the one start right changes. *)
Definition same_identity c c' : Prop :=
  pc_mode c' = pc_mode c /\ pc_context c' = pc_context c /\
  pc_expected_auth_proof c' = pc_expected_auth_proof c /\
  pc_cancellations c' = pc_cancellations c /\ pc_retired c' = pc_retired c.

(** What no operation of the actor but [retire] changes. *)
Definition mode_reference (mode : ControllerMode) : option TunnelBrokerSessionReference :=
  match mode with Reusable => None | BrokerBound ref _ => Some ref end.
Definition same_launch c c' : Prop :=
  mode_reference (pc_mode c') = mode_reference (pc_mode c) /\
  (pc_retired c' = false -> pc_retired c = false /\ pc_context c' = pc_context c /\
     pc_expected_auth_proof c' = pc_expected_auth_proof c).

Lemma same_identity_launch c c' : same_identity c c' -> same_launch c c'.
Proof. intros (Hm & Hc & Hp & _ & Hr). split; [by rewrite Hm|]. rewrite Hr. by intros ->. Qed.
Hint Resolve same_identity_launch : ky.

Lemma same_launch_refl c : same_launch c c.
Proof. by split. Qed.
Lemma same_launch_trans c c' c'' : same_launch c c' -> same_launch c' c'' -> same_launch c c''.
Proof.
  intros [Hm Hl] [Hm' Hl']. split; [congruence|]. intros Hr.
  destruct (Hl' Hr) as (Hr' & -> & ->). by apply Hl.
Qed.
Hint Resolve same_launch_refl : ky.

(** Stopping the runtime restores the invariant from anywhere. *)
Lemma stop_runtime_inv base op c :
  core base c -> logged c -> pc_retired c = false ->
  wp (stop_runtime_bounded op) (fun r c' => inv base c' /\ same_identity c c' /\
    pc_runtime_generation c' = pc_runtime_generation c /\ pc_crashes c' = pc_crashes c /\
    pc_retry_at c' = pc_retry_at c /\
    match r with
    | Ok _ => pc_state c' = Stopped /\ pc_absence c' <> None
    | Err _ => pc_state c' = CrashLoop
    end) c.
Proof.
  intros Hc Hl Hr. unfold stop_runtime_bounded. wp_steps.
  unfold wp at 1, timeout. destruct (rt_stop (pc_stop_timeout c) (pc_runtime c)) as [out rt] eqn:E.
  pose proof (law_stop_reaps (pc_stop_timeout c) (pc_runtime c)) as Hreap.
  pose proof (law_stop_starts (pc_stop_timeout c) (pc_runtime c) (co_wf _ _ _ _ _ _ _ _ Hc)) as Hst.
  pose proof (law_stop_wf (pc_stop_timeout c) (pc_runtime c)) as Hwf.
  rewrite E in Hreap, Hst, Hwf. cbn in Hreap, Hst, Hwf.
  assert (Hc' : core base (set_runtime rt c)).
  { destruct Hc. constructor; cbn; try done; [by apply Hwf|by rewrite Hst]. }
  set (result := match out with Some r => r | None => Err OperationTimedOut end).
  cbn [fst snd]. change (match out with Some r => r | None => Err OperationTimedOut end) with result.
  destruct result as [[]|e] eqn:Er; wp_steps.
  - split_and!; try done.
    split_and!; [exact Hc'| |exact Hl]. destruct Hc as [Hg Hwfc _ _ _ _ _].
    constructor; cbn; [|intros k [= <-]| |by rewrite Hr].
    + intros _. apply Hreap; [done|]. subst result. by destruct out; simplify_eq.
    + destruct (Z.eqb_spec (pc_runtime_generation c) 0) as [->|Hne];
        destruct (is_broker_bound (pc_mode c)); naive_solver.
    + by left.
  - split_and!; try done.
    apply inv_record. split_and!; [exact Hc'| |exact Hl]. constructor; cbn; try done.
    by rewrite Hr.
Qed.

Ltac use_stop :=
  apply wp_attempt; eapply wp_mono; [eapply stop_runtime_inv; eauto|]; cbn beta.

Lemma abandon_inv base e {A} c :
  core base c -> logged c -> pc_retired c = false ->
  wp (abandon (A := A) e) (fun r c' => inv base c' /\ same_identity c c' /\ r = Err e /\
    pc_state c' <> Running) c.
Proof.
  intros Hc Hl Hr. unfold abandon. wp_steps. eapply wp_mono; [by eapply stop_runtime_inv|].
  intros r c' (Hi & Hid & _ & _ & _ & Hst). cbn beta iota. wp_steps. split_and!; [by apply inv_record|done|done|].
  cbn. destruct r; [destruct Hst as [-> _]|rewrite Hst]; done.
Qed.

Lemma next_generation_ok c gen :
  next_generation c = Ok gen <->
  gen = pc_runtime_generation c + 1 /\ gen <= u64_max /\
  (is_broker_bound (pc_mode c) = true -> pc_runtime_generation c = 0 /\ pc_absence c = None).
Proof.
  unfold next_generation, checked_add. rewrite rbind_ok. split.
  - intros ([] & Hb & Ho). apply ok_or_ok in Ho. case_match eqn:E; [|done]. reflect_bools.
    simplify_eq. split_and!; [done|done|]. intros Hm. rewrite Hm in Hb.
    apply ensure_ok in Hb. reflect_bools. destruct (pc_absence c); naive_solver.
  - intros (-> & Hle & Hb). exists tt. split.
    + destruct (is_broker_bound (pc_mode c)); [|done]. apply ensure_ok.
      destruct Hb as [-> ->]; done.
    + by rewrite (proj2 (Z.leb_le _ _) Hle).
Qed.

(** What a successful start has seen. *)
Record authenticated_start c (o : ControllerStartOutcome) : Prop := {
  as_seen : exists ctx hs, pc_context c = Some ctx /\ (rt_start ctx (pc_runtime c)).1 = Ok hs /\
    hs_protocol_version hs = NETWORK_IPC_PROTOCOL_VERSION /\
    hs_instance_id hs = lc_instance_id ctx /\
    hs_auth_proof hs = pc_expected_auth_proof c /\
    match pc_mode c with
    | Reusable => True
    | BrokerBound ref _ => handshake_accepted ref (pc_expected_auth_proof c) hs
    end;
  as_outcome : match pc_mode c with
    | Reusable => o = OutReusable
    | BrokerBound ref _ =>
        o = OutBrokerBound {| sr_runtime_generation := 1; sr_broker_reference := ref |}
    end;
}.

Lemma accept_handshake_ok c gen ctx hs o :
  accept_handshake c gen ctx hs = Ok o ->
  (hs_protocol_version hs = NETWORK_IPC_PROTOCOL_VERSION /\
   hs_instance_id hs = lc_instance_id ctx /\ hs_auth_proof hs = pc_expected_auth_proof c /\
   match pc_mode c with
   | Reusable => True
   | BrokerBound ref _ => handshake_accepted ref (pc_expected_auth_proof c) hs
   end) /\
  match pc_mode c with
  | Reusable => o = OutReusable
  | BrokerBound ref _ =>
      o = OutBrokerBound {| sr_runtime_generation := gen; sr_broker_reference := ref |}
  end.
Proof.
  intros Ho. unfold accept_handshake in Ho. apply rbind_ok in Ho as ([] & Hv & Ho).
  apply rbind_ok in Ho as ([] & Hi & Ho). apply ensure_ok in Hv, Hi. reflect_bools.
  destruct (pc_mode c); [by simplify_eq|].
  apply rbind_ok in Ho as (receipt & Hiss & [= <-]).
  by apply receipt_issue_ok in Hiss as (_ & _ & ? & _ & ->).
Qed.

Definition started_post base c (r : Res ControllerStartOutcome) (c' : PC) : Prop :=
  inv base c' /\ same_identity c c' /\
  match r with
  | Ok o => pc_state c' = Running /\ authenticated_start c o
  | Err _ => pc_state c' = Running -> c' = c
  end.

(** The runtime has been started, its state is [rt]: what is known before the
    handshake is judged. *)
Lemma launched_core base c ctx rt :
  inv base c -> pc_retired c = false -> (forall ref, pc_mode c <> BrokerBound ref false) ->
  pc_context c = Some ctx -> next_generation c = Ok (pc_runtime_generation c + 1) ->
  rt = (rt_start ctx (pc_runtime c)).2 ->
  core base (set_runtime rt (set_state Starting (set_absence None
    (set_runtime_generation (pc_runtime_generation c + 1) c)))).
Proof.
  intros ([Hgen Hwf Hcnt Hbr Hco Hsec Hcr] & _ & _) Hr Hm Hctx Hg ->.
  apply next_generation_ok in Hg as (_ & Hle & Hb). pose proof (law_start_counts ctx (pc_runtime c) Hwf).
  constructor; cbn; [lia|by apply law_start_wf|lia| | |by rewrite Hr, Hctx|done].
  - intros Hbb. destruct (Hb Hbb) as [-> _]. lia.
  - intros ref Hmode. by destruct (Hm ref).
Qed.

(** Becoming [Running]. *)
Lemma running_inv base c (reset : bool) :
  core base c -> logged c -> pc_retired c = false -> pc_absence c = None ->
  0 < pc_runtime_generation c -> reset = true \/ pc_crashes c <= 3 ->
  inv base ((if reset then set_crashes 0 else fun x => x) (set_retry_at None (set_state Running c))).
Proof.
  intros [? ? ? ? ? ? ?] Hl Hr Ha Hg Hcr.
  destruct reset; (split_and!; [constructor|constructor|exact Hl]); cbn; try done;
    rewrite ?Ha, ?Hr; try lia; try done; split_and!; try done; by destruct Hcr.
Qed.

Lemma start_inv base reset c :
  inv base c -> pc_retired c = false -> (forall ref, pc_mode c <> BrokerBound ref false) ->
  reset = true \/ pc_crashes c <= 3 ->
  wp (start reset) (started_post base c) c.
Proof.
  intros Hi Hr Hm Hcr. unfold start. wp_steps.
  case_bool_decide as Hst; cbn [negb]; wp_steps; [|by split_and!].
  destruct (next_generation c) as [gen|e] eqn:Hg; [|by split_and!]. wp_steps.
  destruct (proj1 (next_generation_ok _ _) Hg) as (-> & _ & Hb).
  destruct (pc_context c) as [ctx|] eqn:Hctx; cycle 1.
  { destruct Hi as ([_ _ _ _ _ Hsec _] & _). by rewrite Hr in Hsec. }
  cbn [ok_or]. wp_steps. unfold on_runtime. wp_steps. unfold wp at 1.
  cbn [pc_runtime set_state set_absence set_runtime_generation].
  destruct (rt_start ctx (pc_runtime c)) as [res rt] eqn:E. cbn [fst snd].
  assert (Hcore := launched_core base c ctx rt Hi Hr Hm Hctx Hg ltac:(by rewrite E)).
  assert (Hl : logged c) by apply Hi.
  set (c1 := set_runtime rt _) in *.
  destruct (rbind res _) as [o|e] eqn:Ho.
  - apply rbind_ok in Ho as (hs & -> & Ho). apply accept_handshake_ok in Ho as [Hseen Hout].
    assert (0 < pc_runtime_generation c1).
    { destruct Hi as ([? _ _ _ _ _ _] & _). subst c1. cbn. lia. }
    assert (Hrun := running_inv base c1 reset Hcore Hl Hr eq_refl ltac:(done) Hcr).
    assert (authenticated_start c o).
    { constructor; [exists ctx, hs; by rewrite E|]. destruct (pc_mode c) eqn:Hmode; [done|].
      by destruct Hb as [Hz _]; [|rewrite Hz in Hout]. }
    destruct reset; wp_steps; (split_and!; [by apply inv_record|done..]).
  - eapply wp_mono; [by eapply abandon_inv|]. cbn. intros r c' (Hi' & Hid' & -> & Hn').
    by split_and!.
Qed.

(** Stopping after a failed call: the caller's record and error follow. *)
Lemma stop_then_record base op k o e {A} (error : NetworkErrorCode) c :
  core base c -> logged c -> pc_retired c = false ->
  wp (let! _ := attempt (stop_runtime_bounded op) in
      modify (record k o e) ;! raise (A := A) error)
    (fun r c' => inv base c' /\ same_identity c c') c.
Proof.
  intros Hc Hl Hr. wp_steps. eapply wp_mono; [by eapply stop_runtime_inv|].
  intros r c' (Hi & Hid & _). cbn beta iota. wp_steps. split; [by apply inv_record|done].
Qed.

Lemma execute_inv base op request token ms c :
  inv base c -> pc_retired c = false ->
  wp (execute op request token ms) (fun r c' => inv base c' /\ same_identity c c') c.
Proof.
  intros Hi Hr. unfold execute. wp_steps. case_bool_decide as Hst; cbn [negb]; wp_steps; [|done].
  destruct (IpcRequest_validate_protocol request); cbn beta iota; [|done]. wp_steps.
  unfold wp at 1, timeout.
  destruct (rt_request ms request token (pc_runtime c)) as [out rt] eqn:E. cbn [fst snd].
  pose proof (law_request_starts ms request token (pc_runtime c) (co_wf _ _ _ _ _ _ _ _ (proj1 Hi))) as Hn.
  pose proof (law_request_wf ms request token (pc_runtime c)) as Hwf.
  rewrite E in Hn, Hwf. cbn in Hn, Hwf.
  assert (Hi1 : inv base (set_runtime rt c)).
  { destruct Hi as ([? ? ? ? ? ? ?] & [? ? Hs ?] & Hl). rewrite Hst in Hs.
    split_and!; [constructor; cbn; auto; congruence| |exact Hl].
    destruct Hs as (Ha & ? & ?). constructor; cbn; rewrite ?Hst, ?Ha, ?Hr; done. }
  pose proof Hi1 as (Hc1 & _ & Hl1).
  assert (Hid : same_identity c (set_runtime rt c)) by done.
  destruct out as [[response|error]|].
  - destruct (IpcResponse_validate_protocol response request).
    + wp_steps. split; [by apply inv_record|done].
    + exact (stop_then_record base _ _ _ _ _ (set_runtime rt c) Hc1 Hl1 Hr).
  - case_bool_decide; [wp_steps; split; [by apply inv_record|done]|].
    case_bool_decide; wp_steps; (eapply wp_mono; [by eapply stop_runtime_inv|]);
      intros r c' (Hi' & Hid' & _); cbn beta iota; wp_steps; (split; [by apply inv_record|done]).
  - exact (stop_then_record base _ _ _ _ _ (set_runtime rt c) Hc1 Hl1 Hr).
Qed.

(** A running child was found dead, and reaped. *)
Lemma exited_inv base rt c crashes st :
  inv base c -> pc_retired c = false -> child rt = false -> rt_wf rt ->
  starts rt = starts (pc_runtime c) -> pc_state c = Running -> 0 <= crashes <= 4 ->
  st = CrashLoop \/ st = Backoff /\ is_broker_bound (pc_mode c) = false /\ 1 <= crashes <= 3 ->
  forall t, inv base (set_retry_at t (set_state st (set_crashes crashes (set_absence (Some Reaped)
    (set_runtime rt c))))).
Proof.
  intros ([? ? ? ? ? ? ?] & [_ _ Hs _] & Hl) Hr Hch Hwf Hn Hst Hcr Hd t.
  rewrite Hst in Hs. destruct Hs as (_ & Hgen & _).
  split_and!; [constructor; cbn; try done; congruence|constructor; cbn|exact Hl].
  - done.
  - intros k [= <-]. split; [done|]. lia.
  - destruct Hd as [->|(-> & ? & ?)]; done.
  - by rewrite Hr.
Qed.

Lemma poll_running_inv base now c :
  inv base c -> pc_retired c = false -> pc_state c = Running ->
  wp (poll now) (fun r c' => inv base c' /\ same_identity c c') c.
Proof.
  intros Hi Hr Hst. unfold poll. wp_steps. rewrite Hst. unfold on_runtime. wp_steps.
  unfold wp at 1. destruct (rt_status (pc_runtime c)) as [out rt] eqn:E. cbn [fst snd].
  pose proof (law_status_starts (pc_runtime c) (co_wf _ _ _ _ _ _ _ _ (proj1 Hi))) as Hn. rewrite E in Hn. cbn in Hn.
  pose proof (law_exited (pc_runtime c)) as Hex. pose proof (law_status_wf (pc_runtime c)) as Hwf.
  rewrite E in Hex, Hwf. cbn in Hex, Hwf.
  pose proof Hi as ([? Hwfc Hcnt ? ? ? Hcr] & [? ? Hs ?] & Hl). rewrite Hst in Hs.
  specialize (Hwf Hwfc).
  destruct Hs as (Ha & Hgen & Hcr3).
  destruct out as [[|b]|e].
  - wp_steps. split; [|done]. split_and!; [constructor|constructor|exact Hl]; cbn; try done;
      rewrite ?Hst, ?Hr; try done; try lia; congruence.
  - specialize (Hex b Hwfc eq_refl). wp_steps. destruct (is_broker_bound (pc_mode c)) eqn:Hb.
    + wp_steps. split; [apply inv_record|done].
      refine (exited_inv base rt c (pc_crashes c) CrashLoop _ _ _ _ _ _ _ _ None); auto.
    + wp_steps. unfold saturating_add, u8_max.
      rewrite (Z.min_r 255 (pc_crashes c + 1)) by lia.
      destruct (3 <? pc_crashes c + 1) eqn:E3; reflect_bools; wp_steps; (split; [apply inv_record|done]).
      * refine (exited_inv base rt c (pc_crashes c + 1) CrashLoop _ _ _ _ _ _ _ _ (pc_retry_at c));
          auto; lia.
      * refine (exited_inv base rt c (pc_crashes c + 1) Backoff _ _ _ _ _ _ _ _ _); auto;
          [|right; split_and!]; auto; lia.
  - wp_step. eapply wp_mono; [eapply (abandon_inv base e (set_runtime rt c)); try done|].
    + constructor; cbn; try done. congruence.
    + intros r c' (Hi' & Hid & -> & _). done.
Qed.

Lemma poll_inv base now c :
  inv base c -> pc_retired c = false ->
  wp (poll now) (fun r c' => inv base c' /\ same_identity c c') c.
Proof.
  intros Hi Hr. destruct (pc_state c) eqn:Hst; try by unfold poll; wp_steps; rewrite Hst; wp_steps.
  - by apply poll_running_inv.
  - unfold poll. wp_steps. rewrite Hst. wp_steps. case_match; wp_steps; [|done].
    pose proof Hi as ([? ? ? ? ? Hsec ?] & [Hab Hk Hs ?] & Hl). rewrite Hst in Hs.
    destruct Hs as (Ha & Hb & Hcr).
    eapply wp_mono; [apply (start_inv base)|].
    + apply inv_record. split_and!; [constructor; done| |exact Hl].
      constructor; cbn; try done; by left.
    + done.
    + cbn. intros ref Hm. by rewrite Hm in Hb.
    + right. cbn. lia.
    + intros r c' (Hi' & Hid & _). by destruct r; wp_steps.
Qed.

Lemma shutdown_inv base c :
  inv base c -> pc_retired c = false ->
  wp shutdown (fun r c' => inv base c' /\ pc_cancellations c' = ∅ /\ pc_retired c' = false /\
    same_launch c c' /\
    (is_ok r = true -> pc_state c' = Stopped /\ pc_absence c' <> None)) c.
Proof.
  intros (Hc & _ & Hl) Hr. unfold shutdown. wp_steps.
  eapply wp_mono; [by eapply stop_runtime_inv|]. cbn beta.
  intros r c' (([? ? ? ? ? ? ?] & [? ? Hs ?] & Hl') & (Hmode & Hcx & Hpf & _ & Hret) & _ & _ & _ & Hst).
  assert (Hi : inv base (set_cancellations ∅ (set_retry_at None (set_crashes 0 c')))).
  { split_and!; [constructor|constructor|exact Hl']; cbn; try done.
    destruct r; [destruct Hst as [Hst _]|]; rewrite Hst in Hs |- *; done. }
  rewrite Hr in Hret.
  assert (Hla : same_launch c (set_cancellations ∅ (set_retry_at None (set_crashes 0 c')))).
  { split; cbn; [by rewrite Hmode|]. by rewrite Hr. }
  destruct r; wp_steps.
  - split_and!; [by apply inv_record|done..].
  - by split_and!.
Qed.

Lemma retire_inv base c :
  inv base c ->
  wp retire (fun r c' => inv base c' /\ pc_cancellations c' = pc_cancellations c /\
    same_launch c c' /\
    match r with
    | Ok receipt => pc_retired c = false /\ pc_retired c' = true /\
        rr_runtime_generation receipt = pc_runtime_generation c' /\
        Some (rr_absence receipt) = pc_absence c'
    | Err _ => pc_retired c' = pc_retired c
    end) c.
Proof.
  intros Hi. unfold retire. wp_steps. destruct (_ || _) eqn:Hg; wp_steps; [done|]. reflect_bools.
  assert (Hpost : wp (if is_none (pc_absence c) then stop_runtime_bounded None else ret tt)
    (fun r c' => inv base c' /\ same_identity c c' /\ (is_ok r = true -> pc_state c' = Stopped)) c).
  { case_match; wp_steps; [|done]. pose proof Hi as (? & ? & ?).
    eapply wp_mono; [by eapply stop_runtime_inv|]. cbn beta.
    intros r c' (? & ? & _ & _ & _ & Hst). split_and!; [done|done|]. by destruct r as [|]; [destruct Hst|]. }
  eapply wp_mono; [exact Hpost|]. cbn beta.
  intros r c' (Hi' & Hid & Hst). pose proof (same_identity_launch _ _ Hid) as Hla.
  destruct Hid as (Hm & Hx & Hp & Hca & Hre).
  destruct r as [[]|e]; [|done]. wp_steps.
  destruct (pc_absence c') as [k|] eqn:Ha; [|done]. cbn [ok_or]. cbn beta iota.
  assert (Hdone : inv base (set_expected_auth_proof EmptyString (set_context None
    (set_retry_at None (set_retired true c'))))).
  { destruct Hi' as ([? ? ? ? ? ? ?] & [? ? Hs ?] & Hl').
    split_and!; [constructor|constructor|exact Hl']; cbn; try done. by rewrite Ha, Hst. }
  assert (same_launch c (set_expected_auth_proof EmptyString (set_context None
    (set_retry_at None (set_retired true c'))))) by (split; cbn; [by rewrite Hm|done]).
  destruct (is_broker_bound _); [destruct (negb _)|destruct (negb _)]; wp_steps; try done;
    cbn; wp_steps; (split_and!; [exact Hdone|done..]).
Qed.

(** The receipt of a broker-bound start: authenticated, for the bound reference, of
    generation one. *)
Definition bound_receipt c (receipt : ControllerStartReceipt) : Prop :=
  exists ref, pc_mode c = BrokerBound ref false /\
    authenticated_start (set_mode (BrokerBound ref true) c) (OutBrokerBound receipt) /\
    receipt = {| sr_runtime_generation := 1; sr_broker_reference := ref |}.

Lemma start_broker_bound_inv base c :
  inv base c -> pc_retired c = false ->
  wp start_broker_bound (fun r c' => inv base c' /\ pc_retired c' = false /\
    pc_cancellations c' = pc_cancellations c /\ same_launch c c' /\
    forall receipt, r = Ok receipt -> bound_receipt c receipt /\ pc_state c' = Running) c.
Proof.
  intros Hi Hr. unfold start_broker_bound. wp_steps.
  destruct (pc_mode c) as [|ref [|]] eqn:Hm; wp_steps; [by split_and!; auto with ky..|].
  assert (Hi1 : inv base (set_mode (BrokerBound ref true) c)).
  { destruct Hi as ([? ? ? ? ? ? ?] & [? ? ? ?] & Hl). rewrite Hm in *.
    split_and!; [constructor; try done|constructor; done|exact Hl]. }
  eapply wp_mono; [eapply (start_inv base true _ Hi1); [done|done|by left]|]. cbn beta.
  intros r c' (Hi' & Hid & Ho). pose proof (same_identity_launch _ _ Hid) as Hla.
  assert (Hla' : same_launch c c').
  { eapply same_launch_trans; [|exact Hla]. split; cbn; [by rewrite Hm|done]. }
  destruct Hid as (_ & _ & _ & Hca & Hre).
  destruct r as [[|receipt]|e]; wp_steps; split_and!; try done; try (by rewrite Hre).
  intros receipt' [= <-]. destruct Ho as [Hrun Ho]. split; [|done]. exists ref. split_and!; [done|done|].
  destruct Ho as [_ Ho]. cbn in Ho. by simplify_eq.
Qed.

Lemma dispatch_start_bound base claimed now c :
  inv base c ->
  wp (dispatch claimed now CmdStartBound) (fun r c' => inv base c' /\
    pc_cancellations c' = pc_cancellations c /\ same_launch c c' /\
    forall receipt, r = Ok (ReStartBound (Ok receipt)) ->
      bound_receipt c receipt /\ 0 < pc_runtime_generation c' /\ (pc_state c' = Running <-> claimed = true)) c.
Proof.
  intros Hi. unfold dispatch, unless_retired. wp_steps.
  destruct (pc_retired c) eqn:Hr; [destruct claimed; wp_steps; by split_and!; auto with ky|].
  eapply wp_mono; [by eapply start_broker_bound_inv|]. cbn beta.
  intros r c' (Hi' & Hre & Hca & Hla & Hok). wp_steps.
  assert (Hgen : pc_state c' = Running -> 0 < pc_runtime_generation c').
  { intros E. destruct Hi' as (_ & [_ _ Hs _] & _). rewrite E in Hs. by destruct Hs as (_ & ? & _). }
  destruct (negb claimed && is_ok r) eqn:Hcl; wp_steps.
  - pose proof Hi' as (Hc & _ & Hl). eapply wp_mono; [by eapply stop_runtime_inv|]. cbn beta.
    intros r' c2 (Hi2 & Hid2 & Hg2 & _ & _ & Hst).
    pose proof (same_launch_trans _ _ _ Hla (same_identity_launch _ _ Hid2)).
    destruct Hid2 as (_ & _ & _ & Hca2 & _).
    apply andb_true_iff in Hcl as [->%negb_true_iff _].
    assert (pc_state c2 <> Running) by (destruct r'; [destruct Hst as [-> _]|rewrite Hst]; done).
    destruct r'; cbn [is_ok]; wp_steps; (split_and!; [eauto with ky|by etrans|done|]);
      intros receipt [= ->]; (split_and!; [by apply Hok| |by split]); cbn; rewrite Hg2;
      by apply Hgen, (Hok receipt).
  - split_and!; [done..|]. intros receipt [= ->]. destruct (Hok receipt eq_refl) as [? ?].
    cbn in Hcl. rewrite andb_true_r in Hcl. split_and!; [done|by apply Hgen|]. destruct claimed; done.
Qed.

(** One turn of the actor keeps the invariant and only removes registrations. *)
Definition turn_post base c (c' : PC) : Prop :=
  inv base c' /\ pc_cancellations c' ⊆ pc_cancellations c /\ same_launch c c'.

Lemma turn_post_identity base c c' : inv base c' -> same_identity c c' -> turn_post base c c'.
Proof.
  intros Hi Hid. split_and!; [done| |by apply same_identity_launch].
  by destruct Hid as (_ & _ & _ & -> & _).
Qed.

Lemma turn_post_refl base c : inv base c -> turn_post base c c.
Proof. intros. by apply turn_post_identity. Qed.
Hint Resolve turn_post_identity turn_post_refl : ky.

Lemma dispatch_request_inv base op rq token ms c :
  inv base c ->
  wp (let! result := attempt (unless_retired (execute op rq token ms)) in
      modify (remove_cancellation op token) ;! ret (ReRequest result))
    (fun _ => turn_post base c) c.
Proof.
  intros Hi. unfold unless_retired. wp_steps.
  assert (Hrm : forall c0, turn_post base c c0 -> turn_post base c (remove_cancellation op token c0)).
  { intros c0 (Hi0 & Hs0 & Hl0). unfold remove_cancellation. case_match; [|done].
    split_and!; [done| |done]. cbn. etrans; [apply delete_subseteq|done]. }
  destruct (pc_retired c) eqn:Hr; wp_steps; [by apply Hrm, turn_post_refl|].
  eapply wp_mono; [by eapply execute_inv|]. cbn beta.
  intros r c' [Hi' Hid]. wp_steps. by apply Hrm, turn_post_identity.
Qed.

Lemma dispatch_inv base claimed now command c :
  inv base c -> wp (dispatch claimed now command) (fun _ => turn_post base c) c.
Proof.
  intros Hi.
  destruct command; [| |by apply dispatch_request_inv| |by apply dispatch_request_inv| | |]; cycle 1.
  { eapply wp_mono; [by eapply dispatch_start_bound|].
    intros r c' (? & Hca & ? & _). split_and!; [done|by rewrite Hca|done]. }
  all: unfold dispatch, unless_retired; wp_steps; auto with ky.
  - destruct (pc_retired c) eqn:Hr; wp_steps; auto with ky.
    eapply wp_mono; [by eapply poll_inv|]. intros r c' [Hi' Hid]. wp_steps. auto with ky.
  - destruct (pc_retired c) eqn:Hr; wp_steps; auto with ky.
    eapply wp_mono; [by eapply shutdown_inv|]. intros r c' (? & Hca & _ & ? & _). wp_steps.
    split_and!; [done| |done]. rewrite Hca. apply map_empty_subseteq.
  - eapply wp_mono; [by eapply retire_inv|].
    intros r c' (? & Hca & ? & _). wp_steps. split_and!; [done|by rewrite Hca|done].
  - destruct (pc_retired c) eqn:Hr; cbn [orb]; [wp_steps; by apply turn_post_refl|].
    destruct (pc_mode c) as [|ref con] eqn:Hm; cbn [is_broker_bound]; wp_steps;
      [|by apply turn_post_refl].
    eapply wp_mono; [apply (start_inv base true c); auto; congruence|]. cbn.
    intros [o|e] c' (Hi' & Hid & _); [destruct o|]; wp_steps; auto with ky.
Qed.

(** ** executions: handles and actor interleaved *)

Notation W := (World R).
Implicit Types w : W.

Inductive HandleEvent : Type :=
| HSend (command : Command)
| HRequest (operation_id : string) (request : IpcRequest) (timeout_ms : Z)
| HHealth (operation_id : string) (request : IpcRequest) (timeout_ms : Z)
| HCancel (operation_id : string)
| HFinish (operation_id : string) (token : nat)
| HActor (claimed : bool) (now : Z).

(** The request a queued command carries: operation, request, token. *)
Definition request_of (command : Command) : option (string * IpcRequest * nat) :=
  match command with
  | CmdRequest op rq token _ | CmdHealth op rq token _ => Some (op, rq, token)
  | _ => None
  end.

Definition has_room w : bool := Z.of_nat (length (w_queue w)) <? COMMAND_CAPACITY.

(** A caller whose command finds no room waits, and a woken caller was answered. *)
Definition world_step (ev : HandleEvent) w : W :=
  match ev with
  | HSend command => if has_room w && is_none (request_of command) then (send command w).2 else w
  | HRequest op rq ms => if has_room w then (submit_request op rq ms w).2 else w
  | HHealth op rq ms => if has_room w then (submit_health op rq ms w).2 else w
  | HCancel op => (cancel op w).2
  | HFinish op token =>
      if bool_decide ((op, token) ∈ w_answered w) then (finish_request op token w).2 else w
  | HActor claimed now => (actor_turn claimed now w).2
  end.

Inductive world_reach (w0 : W) : W -> Prop :=
| wr_here : world_reach w0 w0
| wr_step ev w : world_reach w0 w -> world_reach w0 (world_step ev w).

(** A controller as the two constructors make it: a reusable one starts without a
    child. *)
Definition spawned c : Prop :=
  exists r ctx proof d mode, c = spawn_controller_actor r ctx proof d mode /\
    rt_wf r /\
    match mode with
    | Reusable => child r = false
    | BrokerBound _ consumed => consumed = false
    end.

Lemma spawned_inv c : spawned c -> inv (starts (pc_runtime c)) c.
Proof.
  intros (r & ctx & proof & d & mode & -> & Hwf & Hm). split_and!.
  - constructor; cbn; try done; lia.
  - constructor; cbn; destruct mode; try done; naive_solver.
  - exists []. by split_and!.
Qed.

(** The registry of cancellations against the queue. *)
Record registry w : Prop := {
  rg_queued : forall op reg, pc_cancellations (w_controller w) !! op = Some reg ->
    exists command rq, command ∈ w_queue w /\ request_of command = Some (op, rq, cr_token reg) /\
      cr_cancellable reg = cancellable (rq_payload rq) /\ cr_request_id reg = rq_request_id rq;
  rg_fresh : forall command op rq token, command ∈ w_queue w ->
    request_of command = Some (op, rq, token) -> (token < w_next_token w)%nat;
  rg_distinct : NoDup (omap (fun command => snd <$> request_of command) (w_queue w));
}.

Lemma remove_cancellation_lookup op token c op' reg :
  pc_cancellations (remove_cancellation op token c) !! op' = Some reg ->
  pc_cancellations c !! op' = Some reg /\ ~ (op' = op /\ cr_token reg = token).
Proof.
  unfold remove_cancellation. destruct (_ !! op) as [r0|] eqn:E; cbn.
  - case_bool_decide as Ht; cbn.
    + intros [Hne Hl]%lookup_delete_Some. naive_solver.
    + intros Hl. split; [done|]. intros [-> Hr]. congruence.
  - intros Hl. split; [done|]. naive_solver.
Qed.

Lemma inv_remove_cancellation base op token c :
  inv base c -> inv base (remove_cancellation op token c).
Proof. unfold remove_cancellation. by case_match. Qed.

(** Fewer registrations, same queue. *)
Lemma registry_shrink w c :
  registry w -> pc_cancellations c ⊆ pc_cancellations (w_controller w) ->
  registry (set_controller c w).
Proof.
  intros [Hq Hf Hd] Hsub. constructor; [|done..]. intros op reg Hl. cbn in *.
  apply (Hq op). by eapply lookup_weaken.
Qed.

(** A command joins the queue: either it carries no request, or its token is fresh
    and its registration, if any, is the one just made. *)
Lemma registry_send w command :
  registry w -> request_of command = None -> registry (send command w).2.
Proof.
  intros [Hq Hf Hd] Hn. unfold send, modify. cbn. constructor; cbn.
  - intros op reg Hl. destruct (Hq op reg Hl) as (cmd & rq & Hin & ?).
    exists cmd, rq. split; [set_solver|done].
  - intros cmd op rq token [Hin|Hin]%elem_of_app ?; [by eapply Hf|].
    apply list_elem_of_singleton in Hin as ->. congruence.
  - rewrite omap_app. cbn. rewrite Hn. cbn. by rewrite app_nil_r.
Qed.

Lemma registry_submit w op rq command :
  registry w ->
  request_of command = Some (op, rq, w_next_token w) ->
  registry ((let! _ := register_cancellation op rq in send command) w).2.
Proof.
  intros [Hq Hf Hd] Hc. unfold register_cancellation, bind, get, modify, raise, ret, send, modify.
  cbn. destruct (_ !! op) as [reg0|] eqn:E; cbn.
  - constructor; cbn; [done| |done]. intros. apply Nat.lt_lt_succ_r. eauto.
  - constructor; cbn.
    + intros op' reg [[<- <-]|[Hne Hl]]%lookup_insert_Some; cbn.
      * exists command, rq. split; [set_solver|done].
      * destruct (Hq op' reg Hl) as (cmd & rq' & ? & ?). exists cmd, rq'. split; [set_solver|done].
    + intros cmd op' rq' token [Hin|Hin]%elem_of_app Hr; [apply Nat.lt_lt_succ_r; eauto|].
      apply list_elem_of_singleton in Hin as ->. simplify_eq. lia.
    + rewrite omap_app. cbn. rewrite Hc. cbn. apply NoDup_app. split_and!; [done| |by apply NoDup_singleton].
      intros t Ht ->%list_elem_of_singleton. apply list_elem_of_omap in Ht as (cmd & Hin & Hs).
      destruct (request_of cmd) as [[[? ?] ?]|] eqn:Er; [|done]. cbn in Hs. simplify_eq.
      specialize (Hf _ _ _ _ Hin Er). lia.
Qed.

(** Both submissions are a registration followed by a send, or a refusal. *)
Lemma submit_cases op rq ms w :
  ((submit_request op rq ms w).2 = w \/
   exists command, request_of command = Some (op, rq, w_next_token w) /\
     (submit_request op rq ms w).2 = ((let! _ := register_cancellation op rq in send command) w).2) /\
  ((submit_health op rq ms w).2 = w \/
   exists command, request_of command = Some (op, rq, w_next_token w) /\
     (submit_health op rq ms w).2 = ((let! _ := register_cancellation op rq in send command) w).2).
Proof.
  unfold submit_request, submit_health, bind, lift, raise, ret.
  split; case_match; (try by left); (destruct (IpcRequest_validate_protocol rq); [|by left]); right.
  1: exists (CmdRequest op rq (w_next_token w) ms). 2: exists (CmdHealth op rq (w_next_token w) ms).
  all: split; [done|]; unfold register_cancellation, bind, get, modify, raise, ret, send; cbn;
    by destruct (_ !! op).
Qed.

Definition world_inv base w : Prop := inv base (w_controller w) /\ registry w.

Lemma submit_inv base op rq command w :
  world_inv base w -> request_of command = Some (op, rq, w_next_token w) ->
  world_inv base ((let! _ := register_cancellation op rq in send command) w).2.
Proof.
  intros [Hi Hg] Hc. split; [|by apply registry_submit].
  unfold register_cancellation, bind, get, modify, raise, ret, send. cbn. by destruct (_ !! op).
Qed.

Lemma dispatch_request_removes claimed now command op rq token c :
  request_of command = Some (op, rq, token) ->
  exists c1, (dispatch claimed now command c).2 = remove_cancellation op token c1.
Proof.
  destruct command; intros Hc; cbn in Hc; simplify_eq; unfold dispatch, bind at 1, attempt;
    (destruct (unless_retired _ c) as [r c1]; by exists c1).
Qed.

Lemma actor_turn_inv base claimed now w :
  world_inv base w -> world_inv base (actor_turn claimed now w).2.
Proof.
  intros [Hi Hg]. unfold actor_turn, bind at 1, get. destruct (w_queue w) as [|command queue] eqn:Eq; [done|].
  unfold bind, modify, on_controller, zoom, ret. cbn [w_controller set_queue].
  destruct (dispatch claimed now command (w_controller w)) as [r c'] eqn:Ed.
  assert (Hpost := wp_run _ _ _ _ _ (dispatch_inv base claimed now command _ Hi) Ed).
  destruct Hpost as (Hi' & Hsub & _).
  assert (Hreg : registry (set_controller c' (set_queue queue w))).
  { destruct Hg as [Hq Hf Hd]. rewrite Eq in Hq, Hf, Hd. constructor; cbn.
    - intros op reg Hl.
      destruct (Hq op reg) as (cmd & rq & Hin & Hr & ?); [by eapply lookup_weaken|].
      apply elem_of_cons in Hin as [->|Hin]; [|by exists cmd, rq].
      destruct (dispatch_request_removes claimed now _ _ _ _ (w_controller w) Hr) as [c1 Hc1].
      rewrite Ed in Hc1. cbn in Hc1. subst c'.
      apply remove_cancellation_lookup in Hl as [_ Hl]. by destruct Hl.
    - intros. eapply Hf; [by right|done].
    - cbn in Hd. destruct (request_of command); cbn in Hd; [by apply NoDup_cons in Hd as [_ ?]|done]. }
  destruct r as [reply|e]; [|by split].
  destruct command; cbn; (split; [exact Hi'|]); try exact Hreg.
  all: destruct Hreg; by constructor.
Qed.

Lemma world_step_inv base ev w : world_inv base w -> world_inv base (world_step ev w).
Proof.
  intros Hw. pose proof Hw as [Hi Hg]. destruct ev as [cmd|op rq ms|op rq ms|op|op token|cl now]; cbn.
  - case_match eqn:E; [|done]. apply andb_true_iff in E as [_ E]. split; [done|].
    apply registry_send; [done|]. by destruct (request_of cmd).
  - case_match; [|done]. destruct (submit_cases op rq ms w) as [[->|(cmd & Hc & ->)] _]; [done|].
    by apply submit_inv.
  - case_match; [|done]. destruct (submit_cases op rq ms w) as [_ [->|(cmd & Hc & ->)]]; [done|].
    by apply submit_inv.
  - unfold cancel, bind, get, lift. destruct (_ !! op); cbn; [|done]. case_match; [done|]. cbn.
    split; [done|]. destruct Hg. by constructor.
  - case_bool_decide; [|done]. unfold finish_request, on_controller, zoom, modify. cbn.
    split; [by apply inv_remove_cancellation|]. apply registry_shrink; [done|].
    unfold remove_cancellation. case_match; [apply delete_subseteq|done].
  - by apply actor_turn_inv.
Qed.

Lemma world_reach_inv base w0 w : world_reach w0 w -> world_inv base w0 -> world_inv base w.
Proof. induction 1; [done|]. intros. by apply world_step_inv, IHworld_reach. Qed.

Lemma reachable_inv c0 w :
  spawned c0 -> world_reach (World_new c0) w -> world_inv (starts (pc_runtime c0)) w.
Proof.
  intros Hs Hr. eapply world_reach_inv; [done|]. split; [by apply spawned_inv|].
  constructor; cbn; [|set_solver|constructor].
  intros op reg. destruct Hs as (? & ? & ? & ? & ? & -> & _). cbn. by rewrite lookup_empty.
Qed.

Lemma world_step_launch base ev w :
  world_inv base w -> same_launch (w_controller w) (w_controller (world_step ev w)).
Proof.
  intros [Hi Hg].
  assert (Hsub : forall op rq command, same_launch (w_controller w)
    (w_controller ((let! _ := register_cancellation op rq in send command) w).2)).
  { intros. unfold register_cancellation, bind, get, modify, raise, ret, send. cbn.
    by destruct (_ !! op). }
  destruct ev as [cmd|op rq ms|op rq ms|op|op token|cl now]; cbn.
  - by case_match.
  - case_match; [|done]. by destruct (submit_cases op rq ms w) as [[->|(cmd & Hc & ->)] _].
  - case_match; [|done]. by destruct (submit_cases op rq ms w) as [_ [->|(cmd & Hc & ->)]].
  - unfold cancel, bind, get, lift. destruct (_ !! op); cbn; [|done]. by case_match.
  - case_bool_decide; [|done]. cbn. unfold remove_cancellation. by case_match.
  - unfold actor_turn, bind at 1, get. destruct (w_queue w) as [|command queue]; [done|].
    unfold bind, modify, on_controller, zoom, ret. cbn [w_controller set_queue].
    destruct (dispatch cl now command (w_controller w)) as [r c'] eqn:Ed.
    destruct (wp_run _ _ _ _ _ (dispatch_inv base cl now command _ Hi) Ed) as (_ & _ & Hl).
    destruct r; [|done]. by destruct command.
Qed.

Lemma world_reach_launch c0 w :
  spawned c0 -> world_reach (World_new c0) w -> same_launch c0 (w_controller w).
Proof.
  intros Hs. induction 1 as [|ev w Hr IH]; [apply same_launch_refl|].
  eapply same_launch_trans; [done|]. by eapply world_step_launch, reachable_inv.
Qed.

(** ** retirement *)

Definition refused (reply : Reply) : Prop :=
  match reply with
  | ReStart r => r = Err InvalidStateTransition
  | ReStartBound r => r = Err InvalidStateTransition
  | ReRequest r => r = Err InvalidStateTransition
  | RePoll r => r = Err InvalidStateTransition
  | ReShutdown r => r = Err InvalidStateTransition
  | ReRetire r => r = Err InvalidStateTransition
  | ReDiagnostics _ => True
  end.

Lemma dispatch_retired claimed now command c :
  pc_retired c = true ->
  exists reply m, dispatch claimed now command c = (Ok reply, set_cancellations m c) /\ refused reply.
Proof.
  intros Hr.
  assert (Hkeep : forall reply, refused reply -> exists reply' m,
    (Ok reply : Res Reply, c) = (Ok reply', set_cancellations m c) /\ refused reply').
  { intros reply ?. exists reply, (pc_cancellations c). by destruct c. }
  assert (Hrm : forall op token, exists m, remove_cancellation op token c = set_cancellations m c).
  { intros op token. unfold remove_cancellation. case_match; [by eexists|].
    exists (pc_cancellations c). by destruct c. }
  destruct command; unfold dispatch, unless_retired, retire, bind, attempt, get, modify, raise, ret;
    cbn; rewrite ?Hr; cbn; try by apply Hkeep.
  - rewrite andb_false_r. by apply Hkeep.
  - destruct (Hrm operation_id cancel) as [m ->]. by eexists _, m.
  - destruct (Hrm operation_id cancel) as [m ->]. by eexists _, m.
Qed.

(** A retired controller keeps everything but its registrations. *)
Definition frozen c c' : Prop := exists m, c' = set_cancellations m c.

Lemma frozen_trans c c' c'' : frozen c c' -> frozen c' c'' -> frozen c c''.
Proof. intros [m ->] [m' ->]. by exists m'. Qed.

Lemma frozen_refl c : frozen c c.
Proof. exists (pc_cancellations c). by destruct c. Qed.

Lemma world_step_frozen ev w :
  pc_retired (w_controller w) = true -> frozen (w_controller w) (w_controller (world_step ev w)).
Proof.
  intros Hr.
  assert (Hsub : forall op rq command, frozen (w_controller w)
    (w_controller ((let! _ := register_cancellation op rq in send command) w).2)).
  { intros. unfold register_cancellation, bind, get, modify, raise, ret, send. cbn.
    destruct (_ !! op); cbn; [apply frozen_refl|by eexists]. }
  destruct ev as [cmd|op rq ms|op rq ms|op|op token|cl now]; cbn.
  - case_match; apply frozen_refl.
  - case_match; [|apply frozen_refl].
    destruct (submit_cases op rq ms w) as [[->|(cmd & Hc & ->)] _]; [apply frozen_refl|done].
  - case_match; [|apply frozen_refl].
    destruct (submit_cases op rq ms w) as [_ [->|(cmd & Hc & ->)]]; [apply frozen_refl|done].
  - unfold cancel, bind, get, lift. destruct (_ !! op); cbn; [|apply frozen_refl].
    case_match; apply frozen_refl.
  - case_bool_decide; [|apply frozen_refl]. cbn. unfold remove_cancellation.
    case_match; [by eexists|apply frozen_refl].
  - unfold actor_turn, bind at 1, get. destruct (w_queue w) as [|command queue]; [apply frozen_refl|].
    unfold bind, modify, on_controller, zoom, ret. cbn [w_controller set_queue].
    destruct (dispatch_retired cl now command _ Hr) as (reply & m & -> & _).
    destruct command; by exists m.
Qed.

Lemma world_reach_frozen w w' :
  pc_retired (w_controller w) = true -> world_reach w w' ->
  frozen (w_controller w) (w_controller w').
Proof.
  intros Hr. induction 1 as [|ev w' _ IH]; [apply frozen_refl|].
  eapply frozen_trans; [done|]. apply world_step_frozen. destruct IH as [m ->]. done.
Qed.

(** A retirement that was answered with a receipt, and what comes after it. *)
Lemma retire_reply c0 w claimed now receipt c' w' :
  spawned c0 -> world_reach (World_new c0) w ->
  dispatch claimed now CmdRetire (w_controller w) = (Ok (ReRetire (Ok receipt)), c') ->
  world_reach (set_controller c' w) w' ->
  exists m, w_controller w' = set_cancellations m c' /\ inv (starts (pc_runtime c0)) c' /\
    pc_retired c' = true /\ rr_runtime_generation receipt = pc_runtime_generation c' /\
    Some (rr_absence receipt) = pc_absence c' /\ same_launch c0 c'.
Proof.
  intros Hs Hr Hd Hr'. destruct (reachable_inv c0 w Hs Hr) as [Hi _].
  unfold dispatch, bind, attempt, ret in Hd. destruct (retire (w_controller w)) as [r c1] eqn:E.
  simplify_eq/=.
  destruct (wp_run _ _ _ _ _ (retire_inv _ _ Hi) E) as (Hi' & _ & Hla & _ & Hret & Hgen & Hab).
  destruct (world_reach_frozen (set_controller c' w) w' Hret Hr') as [m Hm]. exists m.
  split_and!; try done. by eapply same_launch_trans; [apply world_reach_launch|].
Qed.

Lemma retire_reply_absent c0 w claimed now receipt c' w' :
  spawned c0 -> world_reach (World_new c0) w ->
  dispatch claimed now CmdRetire (w_controller w) = (Ok (ReRetire (Ok receipt)), c') ->
  world_reach (set_controller c' w) w' -> child (pc_runtime (w_controller w')) = false.
Proof.
  intros Hs Hr Hd Hr'.
  destruct (retire_reply c0 w claimed now receipt c' w' Hs Hr Hd Hr') as (m & Hm & Hi' & _ & _ & Hab & _).
  rewrite Hm. destruct Hi' as (_ & [Ha _ _ _] & _). apply Ha. by rewrite <- Hab.
Qed.

(** ** the theorems *)

(** In every state the controller's actor can reach: a claimed absence of the
    child is true, and NeverSpawned exactly when nothing was ever launched;
    starts of the runtime are bounded by the generations; the actor is never
    left in Starting, runs only with a generation, backs off only after one to
    three crashes, and its log holds the last 128 events of the history,
    numbered without gaps. *)
Theorem controller_invariant c0 w :
  spawned c0 -> world_reach (World_new c0) w ->
  let c := w_controller w in
  (* a proof of absence is true *)
  (forall k, pc_absence c = Some k ->
     child (pc_runtime c) = false /\
     (k = NeverSpawned <->
      pc_runtime_generation c = 0 /\ is_broker_bound (pc_mode c) = false)) /\
  (* generations count the attempts to start, so none at generation zero *)
  starts (pc_runtime c0) <= starts (pc_runtime c)
    <= starts (pc_runtime c0) + pc_runtime_generation c /\
  (* between commands the lifecycle is settled *)
  pc_state c <> Starting /\ (pc_state c = Running -> 0 < pc_runtime_generation c) /\
  (pc_state c = Backoff -> 1 <= pc_crashes c <= 3) /\ pc_crashes c <= 4 /\
  (* the log is the end of the history *)
  (exists full, log_of full (pc_events c) (pc_next_sequence c)).
Proof.
  intros Hs Hr. destruct (reachable_inv c0 w Hs Hr) as [([Hg _ Hn Hb _ _ Hcr] & [Ha Hk Hst _] & Hl) _].
  cbn zeta. split_and!; try done; try lia.
  - intros k Hab. split; [by apply Ha; rewrite Hab|by apply Hk].
  - intros E. by rewrite E in Hst.
  - intros E. rewrite E in Hst. by destruct Hst as (_ & ? & _).
  - intros E. rewrite E in Hst. by destruct Hst as (_ & _ & ?).
Qed.

(** C8: after a retirement receipt, whatever is asked of the controller: there
    is no child, the launch context and the proof are gone, no start is added
    beyond the generations of the receipt, NeverSpawned is claimed exactly for a
    controller that never launched, and every command is refused. *)
Theorem retirement_is_final c0 w claimed now receipt c' w' :
  spawned c0 -> world_reach (World_new c0) w ->
  dispatch claimed now CmdRetire (w_controller w) = (Ok (ReRetire (Ok receipt)), c') ->
  world_reach (set_controller c' w) w' ->
  let c := w_controller w' in
  (* no child, no secrets, and none will come *)
  child (pc_runtime c) = false /\ pc_context c = None /\ pc_expected_auth_proof c = EmptyString /\
  (* the receipt bounds the children there were, and says when there was none at all *)
  starts (pc_runtime c) <= starts (pc_runtime c0) + rr_runtime_generation receipt /\
  (rr_absence receipt = NeverSpawned <->
   rr_runtime_generation receipt = 0 /\ is_broker_bound (pc_mode c) = false) /\
  (* every later command is refused *)
  (forall claimed now command, exists reply,
     (dispatch claimed now command c).1 = Ok reply /\ refused reply).
Proof.
  intros Hs Hr Hd Hr'.
  destruct (retire_reply c0 w claimed now receipt c' w' Hs Hr Hd Hr') as (m & Hm & Hi' & Hret & Hgen & Hab & _).
  rewrite Hm.
  destruct Hi' as ([Hg _ Hn _ _ Hsec _] & [Ha Hk Hst Hre] & _). rewrite Hret in Hsec. cbn.
  destruct Hsec as [-> ->]. split_and!; try done.
  - apply Ha. by rewrite <- Hab.
  - rewrite Hgen. lia.
  - rewrite Hgen. by apply Hk.
  - intros cl now' cmd.
    destruct (dispatch_retired cl now' cmd (set_cancellations m c') Hret) as (reply & m' & -> & ?).
    by exists reply.
Qed.

(** A broker-bound launch is used once: the runtime is started at most one time,
    and a start that is answered with a receipt answers that of generation one
    for the launch's own session, after a handshake that proved its token; it
    keeps running only if the caller was still there. *)
Theorem broker_bound_launch_used_once launch r w :
  rt_wf r -> world_reach (World_new (spawn_broker_bound_production_controller r launch)) w ->
  (* the runtime is started at most once, whatever is sent *)
  starts (pc_runtime (w_controller w)) <= starts r + 1 /\
  (* and a receipt is for this launch, after an authenticated handshake *)
  (forall claimed now receipt c',
     dispatch claimed now CmdStartBound (w_controller w)
       = (Ok (ReStartBound (Ok receipt)), c') ->
     receipt = {| sr_runtime_generation := 1; sr_broker_reference := bl_reference launch |} /\
     (exists hs, (rt_start (bl_context launch) (pc_runtime (w_controller w))).1 = Ok hs /\
        handshake_accepted (bl_reference launch) (bl_expected_auth_proof launch) hs) /\
     starts (pc_runtime c') <= starts r + 1 /\
     (pc_state c' = Running <-> claimed = true)).
Proof.
  intros Hwf Hr. set (c0 := spawn_broker_bound_production_controller r launch) in *.
  assert (Hs : spawned c0) by (by eexists _, _, _, _, (BrokerBound _ false)).
  destruct (reachable_inv c0 w Hs Hr) as [Hi _].
  destruct (world_reach_launch c0 w Hs Hr) as [Hm Hl]. cbn in Hm, Hl.
  assert (Hbb : forall c, mode_reference (pc_mode c) = Some (bl_reference launch) ->
    is_broker_bound (pc_mode c) = true) by (intros c; by destruct (pc_mode c)).
  split.
  { destruct Hi as ([_ _ Hn Hb _ _ _] & _). specialize (Hb (Hbb _ Hm)). cbn in Hn. lia. }
  intros claimed now receipt c' Hd.
  destruct (wp_run _ _ _ _ _ (dispatch_start_bound _ claimed now _ Hi) Hd)
    as (Hi' & _ & [Hm' _] & Hrec).
  destruct (Hrec receipt eq_refl) as ((ref & Href & [Hseen _] & ->) & Hg & Hrun).
  rewrite Href in Hm. cbn in Hm. injection Hm as ->. cbn in Hseen.
  destruct Hseen as (ctx & hs & Hctx & Hst & _ & _ & _ & Hacc).
  assert (Hret : pc_retired (w_controller w) = false).
  { destruct Hi as ([_ _ _ _ _ Hsec _] & _). destruct (pc_retired (w_controller w)); [|done].
    destruct Hsec as [Hsec _]. congruence. }
  destruct (Hl Hret) as (_ & Hctx' & Hproof). rewrite Hctx' in Hctx. injection Hctx as <-.
  rewrite Hproof in Hacc. split_and!; [done|by exists hs| |apply Hrun..].
  destruct Hi' as ([_ _ Hn Hb _ _ _] & _). cbn in Hn.
  rewrite Href in Hm'. specialize (Hb (Hbb _ Hm')). lia.
Qed.

(** An accepted cancellation raises the flag of exactly one request, which is
    queued under that operation and cancellable; no other queued request shares
    the flag, and the queue is not touched. *)
Theorem cancel_reaches_one_request c0 w op w' :
  spawned c0 -> world_reach (World_new c0) w ->
  cancel op w = (Ok tt, w') ->
  exists command rq token,
    (* it was queued, not yet taken, and its request may be cancelled *)
    command ∈ w_queue w /\ request_of command = Some (op, rq, token) /\
    cancellable (rq_payload rq) = true /\
    (* its flag is up, and no other queued request sees that flag *)
    w_tokens w' = <[token := true]> (w_tokens w) /\ w_queue w' = w_queue w /\
    (forall command' op' rq', command' ∈ w_queue w ->
       request_of command' = Some (op', rq', token) -> command' = command).
Proof.
  intros Hs Hr Hc. destruct (reachable_inv c0 w Hs Hr) as [_ [Hq Hf Hd]].
  unfold cancel, bind, get, lift in Hc. cbn in Hc.
  destruct (_ !! op) as [reg|] eqn:El; [|done]. cbn in Hc.
  destruct (cr_cancellable reg) eqn:Ecan; cbn in Hc; [|done]. unfold modify in Hc. simplify_eq.
  destruct (Hq op reg El) as (cmd & rq & Hin & Hreq & Hcan & _).
  exists cmd, rq, (cr_token reg). split_and!; try done; [congruence|].
  intros cmd' op' rq' Hin' Hreq'.
  eapply (NoDup_omap_inj _ _ cmd' cmd (cr_token reg)); [exact Hd|done|done|..]; cbn beta.
  - by rewrite Hreq'.
  - by rewrite Hreq.
Qed.

(** ** retirement can always be had *)

(** The actor works through the queue, each turn with its own clock and caller. *)
Fixpoint turns (env : list (bool * Z)) w : W :=
  match env with
  | [] => w
  | (claimed, now) :: env => turns env (actor_turn claimed now w).2
  end.

Lemma dispatch_ok claimed now command c : exists reply, (dispatch claimed now command c).1 = Ok reply.
Proof.
  destruct command; unfold dispatch, bind, attempt, modify, get, ret;
    repeat (case_match; simplify_eq/=); eauto.
Qed.

Lemma actor_turn_pops claimed now command queue w :
  w_queue w = command :: queue ->
  w_queue (actor_turn claimed now w).2 = queue /\
  w_controller (actor_turn claimed now w).2 = (dispatch claimed now command (w_controller w)).2.
Proof.
  intros Hq. unfold actor_turn, bind, get, modify, on_controller, zoom, ret. rewrite !Hq.
  cbn [w_controller set_queue].
  destruct (dispatch_ok claimed now command (w_controller w)) as [reply Hr].
  destruct (dispatch claimed now command (w_controller w)) as [r c']. cbn in Hr. subst r.
  by destruct command.
Qed.

(** A stopped controller with a proof of absence and nothing pending retires. *)
Lemma retire_succeeds base c :
  inv base c -> pc_retired c = false -> pc_state c = Stopped -> pc_absence c <> None ->
  pc_cancellations c = ∅ -> pc_retired (retire c).2 = true.
Proof.
  intros (_ & [_ Hk _ _] & _) Hr Hs Ha Hc. unfold retire, bind, get, ret, lift, modify, raise.
  rewrite Hr, Hs, Hc, !bool_decide_true by done.
  destruct (pc_absence c) as [k|] eqn:Ek; [|done]. specialize (Hk k eq_refl).
  cbn -[Z.eqb]. rewrite Ek. cbn -[Z.eqb].
  destruct (is_broker_bound (pc_mode c)), k; cbn -[Z.eqb]; try done; [naive_solver|..];
    (destruct (Z.eqb_spec (pc_runtime_generation c) 0); cbn; naive_solver).
Qed.

(** Shutting down, when the runtime stops. *)
Lemma shutdown_succeeds c :
  (forall d r, (rt_stop (R := R) d r).1 = Some (Ok tt)) -> (shutdown c).1 = Ok tt.
Proof.
  intros Hstop. unfold shutdown, stop_runtime_bounded, bind, attempt, get, timeout, modify, lift.
  cbn. specialize (Hstop (pc_stop_timeout c) (pc_runtime c)).
  destruct (rt_stop _ _) as [out rt]. cbn in Hstop. by subst out.
Qed.

Lemma shutdown_retire_turns base cl1 now1 cl2 now2 c :
  (forall d r, (rt_stop (R := R) d r).1 = Some (Ok tt)) -> inv base c ->
  pc_retired (dispatch cl2 now2 CmdRetire (dispatch cl1 now1 CmdShutdown c).2).2 = true.
Proof.
  intros Hstop Hi. destruct (pc_retired c) eqn:Hr.
  { destruct (dispatch_retired cl1 now1 CmdShutdown c Hr) as (? & m & -> & _). cbn [snd].
    destruct (dispatch_retired cl2 now2 CmdRetire (set_cancellations m c) Hr) as (? & m' & -> & _).
    done. }
  assert (Hc1 : (dispatch cl1 now1 CmdShutdown c).2 = (shutdown c).2).
  { unfold dispatch, unless_retired, bind, attempt, get, ret. cbn. rewrite Hr. by destruct (shutdown c). }
  assert (Hc2 : forall c, (dispatch cl2 now2 CmdRetire c).2 = (retire c).2).
  { intros c1. unfold dispatch, bind, attempt, ret. by destruct (retire c1). }
  rewrite Hc1, Hc2. pose proof (shutdown_inv base c Hi Hr) as Hw. unfold wp in Hw.
  destruct Hw as (Hi' & Hca & Hre & _ & Hok). rewrite shutdown_succeeds in Hok by done.
  destruct Hok as [Hst Ha]; [done|]. by eapply retire_succeeds.
Qed.

Lemma turns_drain base env w :
  (forall d r, (rt_stop (R := R) d r).1 = Some (Ok tt)) ->
  world_inv base w -> forall queue, w_queue w = queue ++ [CmdShutdown; CmdRetire] ->
  length env = (length queue + 2)%nat ->
  world_inv base (turns env w) /\ pc_retired (w_controller (turns env w)) = true /\
  w_queue (turns env w) = [].
Proof.
  intros Hstop. revert w. induction env as [|[cl now] env IH]; intros w Hw queue Hq Hlen; [cbn in *; lia|].
  destruct queue as [|command queue]; cbn [app length turns] in *.
  - destruct env as [|[cl2 now2] env]; [cbn in *; lia|]. destruct env; [|cbn in *; lia]. cbn [turns].
    destruct (actor_turn_pops cl now _ _ w Hq) as [Hq1 Hc1].
    destruct (actor_turn_pops cl2 now2 _ _ _ Hq1) as [Hq2 Hc2].
    split_and!; [by do 2 apply actor_turn_inv| |done]. rewrite Hc2, Hc1.
    eapply shutdown_retire_turns; [done|apply Hw].
  - apply (IH _ (actor_turn_inv _ _ _ _ Hw) queue); [|lia]. by apply (actor_turn_pops cl now command).
Qed.

Lemma send_step command w :
  request_of command = None -> Z.of_nat (length (w_queue w)) < 32 ->
  world_step (HSend command) w = set_queue (w_queue w ++ [command]) w.
Proof.
  intros Hn Hl. unfold world_step, has_room, COMMAND_CAPACITY.
  by rewrite (proj2 (Z.ltb_lt _ _) Hl), Hn.
Qed.

(** C31: with room in the queue and a runtime that stops when told, a shutdown
    followed by a retirement succeeds whatever was queued before: the controller
    is retired, its child is gone and the queue is empty. *)
Theorem shutdown_then_retire_succeeds c0 w env :
  spawned c0 -> world_reach (World_new c0) w ->
  (* the runtime can stop its child in time *)
  (forall d r, (rt_stop d r).1 = Some (Ok tt)) ->
  (* the queue has room for the two commands, and is worked off *)
  Z.of_nat (length (w_queue w)) + 2 <= COMMAND_CAPACITY ->
  length env = (length (w_queue w) + 2)%nat ->
  let w' := turns env (world_step (HSend CmdRetire) (world_step (HSend CmdShutdown) w)) in
  pc_retired (w_controller w') = true /\ child (pc_runtime (w_controller w')) = false /\
  w_queue w' = [].
Proof.
  intros Hs Hr Hstop Hroom Hlen w'. set (base := starts (pc_runtime c0)).
  set (w1 := world_step (HSend CmdRetire) (world_step (HSend CmdShutdown) w)) in *.
  assert (Hw : world_inv base w1).
  { do 2 apply world_step_inv. by apply reachable_inv. }
  assert (Hq : w_queue w1 = w_queue w ++ [CmdShutdown; CmdRetire]).
  { subst w1. unfold COMMAND_CAPACITY in *. rewrite (send_step CmdShutdown) by (done || lia).
    rewrite send_step; [cbn; by rewrite <- app_assoc|done|]. cbn. rewrite length_app. cbn. lia. }
  destruct (turns_drain base env w1 Hstop Hw _ Hq Hlen) as ([Hi _] & Hret & Hnil).
  split_and!; [done| |done]. destruct Hi as (_ & [Ha _ _ Hre] & _). by apply Ha, Hre.
Qed.
End laws.
