(* ===== verification/ProductionRouteV3.v ===== *)
(** * ProductionRouteV3: the lifecycle of a broker-bound route lease

    [src-tauri/src/networking/production_route_v3.rs].  A session holds the sealed
    authority of [ProductionSession] and the lease record of [RouteHelperV3]; it
    drives three adapters, the durable journal, the broker that grants the hold and
    the helper that changes the routes, each a class over a state of its own.  The
    theorems need what the adapters' traits document: [InterlockLaws]. *)

From Stdlib Require Import Ascii String.
From S2P Require Import Prelude Text NetState Ipc Sidecar RouteHelper RouteHelperV3 ProductionSession.

(** ** confirmations and proofs *)

Inductive BrokerRouteDisposition : Type := DispHeld | DispReleased.

#[global] Instance BrokerRouteDisposition_eq_dec : EqDecision BrokerRouteDisposition.
Proof. solve_decision. Defined.

Record BrokerRouteConfirmation := {
  bc_binding : RouteLeaseBinding;
  bc_disposition : BrokerRouteDisposition;
}.

Definition confirmation_held (binding : RouteLeaseBinding) : BrokerRouteConfirmation :=
  {| bc_binding := binding; bc_disposition := DispHeld |}.
Definition confirmation_released (binding : RouteLeaseBinding) : BrokerRouteConfirmation :=
  {| bc_binding := binding; bc_disposition := DispReleased |}.

Definition confirmation_require (self : BrokerRouteConfirmation) (expected : RouteLeaseBinding)
  (disposition : BrokerRouteDisposition) : LRes unit :=
  RouteLeaseBinding_validate (bc_binding self) ;?
  if negb (RouteLeaseBinding_matches (bc_binding self) expected)
    || negb (bool_decide (bc_disposition self = disposition))
  then Err LeaseOwnershipMismatch
  else Ok tt.

Record RouteAbsenceProofV3 := { ap_reference : RouteLeaseReferenceV3 }.

Definition absence_require (self : RouteAbsenceProofV3) (expected : RouteLeaseReferenceV3)
  : LRes unit :=
  RouteLeaseReferenceV3_validate (ap_reference self) ;?
  if negb (bool_decide (ap_reference self = expected)) then Err LeaseOwnershipMismatch else Ok tt.

(** ** the adapters *)

Class ProductionRouteV3Journal (J : Type) := {
  persist_durable : RouteLeaseJournalRecord -> Meth J unit;
}.

Class ProductionRouteV3Broker (B : Type) := {
  hold_exact : RouteLeaseBinding -> Meth B BrokerRouteConfirmation;
  release_exact : RouteLeaseBinding -> Meth B BrokerRouteConfirmation;
}.

Class ProductionRouteV3Mutation (R : Type) := {
  apply_exact : RouteLeaseOwnerV3 -> Meth R unit;
  rollback_and_prove_absent : RouteLeaseReferenceV3 -> Meth R RouteAbsenceProofV3;
}.

Inductive ProductionRouteV3Error : Type :=
| V3Contract (e : RouteLeaseContractError)
| V3Journal (e : NetworkErrorCode)
| V3Broker (e : NetworkErrorCode)
| V3RouteApply (e : NetworkErrorCode)
| V3RouteRollback (e : NetworkErrorCode).

(** ** the session *)

Record ProductionRouteV3Session := {
  vs_authorization : BrokerRouteAuthorization;
  vs_owner : RouteLeaseOwnerV3;
  vs_reference : RouteLeaseReferenceV3;
  vs_record : option RouteLeaseJournalRecord;
}.

Definition owner_from_authorization (authorization : BrokerRouteAuthorization)
  (profile_revision : Z) (active_mihomo_tun_interfaces private_cidrs : list string)
  : RouteLeaseOwnerV3 :=
  let binding := ra_binding authorization in
  {| o3_protocol_version := ROUTE_HELPER_V3_PROTOCOL_VERSION;
     o3_broker_protocol_version := lb_broker_protocol_version binding;
     o3_broker_generation := lb_broker_generation binding;
     o3_sidecar_instance_id := lb_sidecar_instance_id binding;
     o3_lease_id := lb_lease_id binding;
     o3_operation_id := lb_operation_id binding;
     o3_profile_revision := profile_revision;
     o3_tunnel := ra_tunnel authorization;
     o3_active_mihomo_tun_interfaces := active_mihomo_tun_interfaces;
     o3_private_cidrs := private_cidrs |}.

Definition require_owner_authority (owner : RouteLeaseOwnerV3)
  (authorization : BrokerRouteAuthorization) : result unit ProductionRouteV3Error :=
  map_err V3Contract (RouteLeaseOwnerV3_validate owner) ;?
  if negb (RouteLeaseBinding_matches (owner_binding owner) (ra_binding authorization))
    || negb (bool_decide (o3_tunnel owner = ra_tunnel authorization))
  then Err (V3Contract LeaseOwnershipMismatch)
  else Ok tt.

Definition session_new (authorization : BrokerRouteAuthorization) (profile_revision : Z)
  (active_mihomo_tun_interfaces private_cidrs : list string)
  : result ProductionRouteV3Session ProductionRouteV3Error :=
  let owner := owner_from_authorization authorization profile_revision
                 active_mihomo_tun_interfaces private_cidrs in
  map_err V3Contract (RouteLeaseOwnerV3_validate owner) ;?
  Ok {| vs_authorization := authorization; vs_owner := owner;
        vs_reference := from_owner owner; vs_record := None |}.

Definition session_resume (authorization : BrokerRouteAuthorization)
  (record : RouteLeaseJournalRecord) : result ProductionRouteV3Session ProductionRouteV3Error :=
  map_err V3Contract (RouteLeaseJournalRecord_validate record) ;?
  require_owner_authority (jr_owner record) authorization ;?
  Ok {| vs_authorization := authorization; vs_owner := jr_owner record;
        vs_reference := from_owner (jr_owner record); vs_record := Some record |}.

Definition journal_state (self : ProductionRouteV3Session) : option RouteLeaseJournalState :=
  match vs_record self with Some record => Some (jr_state record) | None => None end.

Definition permits_sidecar_stop (self : ProductionRouteV3Session) : bool :=
  match journal_state self with None | Some Released => true | _ => false end.

Definition validate_authority (self : ProductionRouteV3Session)
  : result unit ProductionRouteV3Error :=
  require_owner_authority (vs_owner self) (vs_authorization self) ;?
  map_err V3Contract (matches_owner (vs_reference self) (vs_owner self)).

Section lifecycle.
Context {J B R : Type} `{ProductionRouteV3Journal J, ProductionRouteV3Broker B,
  ProductionRouteV3Mutation R}.

(** The session and the adapters its calls are given. *)
Record Run := {
  rn_session : ProductionRouteV3Session;
  rn_journal : J;
  rn_broker : B;
  rn_routes : R;
}.
Notation RM A := (M Run ProductionRouteV3Error A).

Definition set_journal (v : J) (s : Run) : Run :=
  {| rn_session := rn_session s; rn_journal := v; rn_broker := rn_broker s;
     rn_routes := rn_routes s |}.
Definition set_broker (v : B) (s : Run) : Run :=
  {| rn_session := rn_session s; rn_journal := rn_journal s; rn_broker := v;
     rn_routes := rn_routes s |}.
Definition set_routes (v : R) (s : Run) : Run :=
  {| rn_session := rn_session s; rn_journal := rn_journal s; rn_broker := rn_broker s;
     rn_routes := v |}.
Definition set_session (v : ProductionRouteV3Session) (s : Run) : Run :=
  {| rn_session := v; rn_journal := rn_journal s; rn_broker := rn_broker s;
     rn_routes := rn_routes s |}.
Definition set_record (v : option RouteLeaseJournalRecord) (s : Run) : Run :=
  set_session {| vs_authorization := vs_authorization (rn_session s);
                 vs_owner := vs_owner (rn_session s);
                 vs_reference := vs_reference (rn_session s); vs_record := v |} s.

(** A call of an adapter, its error tagged with where it came from. *)
Definition call {T A} (tag : NetworkErrorCode -> ProductionRouteV3Error) (view : Run -> T)
  (update : T -> Run -> Run) (m : Meth T A) : RM A :=
  fun s => let (r, t) := m (view s) in (map_err tag r, update t s).

Definition journal_call {A} (m : Meth J A) : RM A := call V3Journal rn_journal set_journal m.
Definition broker_call {A} (m : Meth B A) : RM A := call V3Broker rn_broker set_broker m.

Definition transition_durable (next : RouteLeaseJournalState) : RM unit :=
  let! self := get in
  let! current := lift (ok_or (vs_record (rn_session self))
                          (V3Contract LeaseInvalidStateTransition)) in
  let! next_record := lift (map_err V3Contract
                        (lease_transition current next (vs_reference (rn_session self)))) in
  journal_call (persist_durable next_record) ;!
  modify (set_record (Some next_record)).

Definition release : RM unit :=
  let! self := get in
  if negb (bool_decide (journal_state (rn_session self) = Some RetirementPending))
  then raise (V3Contract LeaseInvalidStateTransition) else
  let binding := ra_binding (vs_authorization (rn_session self)) in
  let! confirmation := broker_call (release_exact binding) in
  lift (map_err V3Contract (confirmation_require confirmation binding DispReleased)) ;!
  transition_durable Released.

Definition rollback_then_release : RM unit :=
  let! self := get in
  let reference := vs_reference (rn_session self) in
  let! proof := call V3RouteRollback rn_routes set_routes
                  (rollback_and_prove_absent reference) in
  lift (map_err V3Contract (absence_require proof reference)) ;!
  transition_durable RetirementPending ;!
  release.

(** Clean up after [error], which is reported unless the cleanup fails too. *)
Definition cleanup_and_fail (error : ProductionRouteV3Error) : RM unit :=
  rollback_then_release ;!
  raise error.

(** The three stages of [connect]: write the request down, ask the broker and write
    its answer down, change the routes and write that down. *)
Definition write_pending (pending : RouteLeaseJournalRecord) : RM unit :=
  journal_call (persist_durable pending) ;!
  modify (set_record (Some pending)).

Definition obtain_hold : RM unit :=
  let! self := get in
  let binding := ra_binding (vs_authorization (rn_session self)) in
  let! confirmation := broker_call (hold_exact binding) in
  lift (map_err V3Contract (confirmation_require confirmation binding DispHeld)) ;!
  transition_durable Held.

Definition apply_or_cleanup : RM unit :=
  let! self := get in
  let! applied := attempt (call V3RouteApply rn_routes set_routes
                             (apply_exact (vs_owner (rn_session self)))) in
  match applied with
  | Err error => cleanup_and_fail error
  | Ok _ =>
      let! recorded := attempt (transition_durable LeaseApplied) in
      match recorded with
      | Err error => cleanup_and_fail error
      | Ok _ => ret tt
      end
  end.

Definition connect : RM unit :=
  let! self := get in
  if is_some (vs_record (rn_session self)) then raise (V3Contract LeaseReplayDetected) else
  lift (validate_authority (rn_session self)) ;!
  let! pending := lift (map_err V3Contract (hold_pending (vs_owner (rn_session self)))) in
  write_pending pending ;!
  obtain_hold ;!
  apply_or_cleanup.

Definition disconnect : RM unit :=
  let! self := get in
  lift (validate_authority (rn_session self)) ;!
  match journal_state (rn_session self) with
  | Some Held | Some LeaseApplied => rollback_then_release
  | Some RetirementPending => release
  | Some HoldPending => transition_durable RetirementPending ;! release
  | Some Released => raise (V3Contract LeaseReplayDetected)
  | Some RecoveryOnly => raise (V3Contract LeaseRecoveryOnly)
  | None => raise (V3Contract LeaseInvalidStateTransition)
  end.

End lifecycle.
Arguments Run J B R : clear implicits.

(** ** the interlock

    What the adapters document: a record that [persist_durable] accepted is on disk,
    one it refused may be or not; a confirmed hold exists and a confirmed release
    has ended it; only [hold_exact] makes a hold; a proof of absence is true, and a
    rollback installs nothing.  Any call may fail, also all calls from some moment
    on, which is how a crash looks from the adapters. *)
Class InterlockLaws (J B R : Type) `{ProductionRouteV3Journal J, ProductionRouteV3Broker B,
  ProductionRouteV3Mutation R} := {
  durable : J -> option RouteLeaseJournalRecord;
  has_hold : B -> RouteLeaseBinding -> bool;
  installed : R -> RouteLeaseReferenceV3 -> bool;
  law_persisted : forall r j, (persist_durable r j).1 = Ok tt ->
    durable (persist_durable r j).2 = Some r;
  law_persist_ambiguous : forall r j,
    durable (persist_durable r j).2 = durable j \/ durable (persist_durable r j).2 = Some r;
  law_hold : forall b s, (hold_exact b s).1 = Ok (confirmation_held b) ->
    has_hold (hold_exact b s).2 b = true;
  law_release : forall b s, (release_exact b s).1 = Ok (confirmation_released b) ->
    has_hold (release_exact b s).2 b = false;
  law_release_keeps : forall b s, has_hold s b = false -> has_hold (release_exact b s).2 b = false;
  law_absent : forall ref s,
    (rollback_and_prove_absent ref s).1 = Ok {| ap_reference := ref |} ->
    installed (rollback_and_prove_absent ref s).2 ref = false;
  law_rollback_keeps : forall ref s, installed s ref = false ->
    installed (rollback_and_prove_absent ref s).2 ref = false;
}.

Section interlock.
Context {J B R : Type} `{InterlockLaws J B R}.
Notation RS := (Run J B R).
Implicit Types s : RS.

Definition held s : bool :=
  has_hold (rn_broker s) (ra_binding (vs_authorization (rn_session s))).
Definition routes_in s : bool := installed (rn_routes s) (vs_reference (rn_session s)).
Definition durable_state s : option RouteLeaseJournalState := jr_state <$> durable (rn_journal s).

(** A lease state that accounts for the hold and the routes. *)
Record accounts (hold inst : bool) (st : option RouteLeaseJournalState) : Prop := {
  ac_routes : inst = true -> st = Some Held \/ st = Some LeaseApplied;
  ac_hold : hold = true -> st <> None /\ st <> Some Released;
  ac_granted : st = Some Held \/ st = Some LeaseApplied -> hold = true;
}.

(** The durable state is the session's, or the next one of the interlock. *)
Definition linked (a b : option RouteLeaseJournalState) : Prop :=
  b = a \/
  match a, b with
  | None, Some HoldPending => True
  | Some x, Some y => valid_transition x y = true
  | _, _ => False
  end.

Definition record_of (owner : RouteLeaseOwnerV3) (o : option RouteLeaseJournalRecord) : Prop :=
  forall r, o = Some r -> RouteLeaseJournalRecord_validate r = Ok tt /\ jr_owner r = owner.

Record interlocked s : Prop := {
  il_authority : require_owner_authority (vs_owner (rn_session s)) (vs_authorization (rn_session s))
    = Ok tt;
  il_reference : vs_reference (rn_session s) = from_owner (vs_owner (rn_session s));
  il_record : record_of (vs_owner (rn_session s)) (vs_record (rn_session s));
  il_durable : record_of (vs_owner (rn_session s)) (durable (rn_journal s));
  il_linked : linked (journal_state (rn_session s)) (durable_state s);
  il_session : accounts (held s) (routes_in s) (journal_state (rn_session s));
  il_disk : accounts (held s) (routes_in s) (durable_state s);
}.

(** What stays put. *)
Definition same_lease s s' : Prop :=
  vs_authorization (rn_session s') = vs_authorization (rn_session s) /\
  vs_owner (rn_session s') = vs_owner (rn_session s) /\
  vs_reference (rn_session s') = vs_reference (rn_session s).

Lemma lease_transition_ok r next ref r' :
  lease_transition r next ref = Ok r' <->
  RouteLeaseJournalRecord_validate r = Ok tt /\ ref = from_owner (jr_owner r) /\
  valid_transition (jr_state r) next = true /\
  r' = {| jr_protocol_version := 3; jr_state := next; jr_transition := jr_transition r + 1;
          jr_owner := jr_owner r |}.
Proof.
  unfold lease_transition, checked_add. rewrite rbind_ok. setoid_rewrite ok_or_ok. split.
  - intros (n & Hn & Ht). case_match; [|done]. simplify_eq.
    apply apply_transition_ok in Ht as (Hv & Href & Hp & _ & _ & Hval & ->). cbn in *.
    by rewrite Hp.
  - intros (Hv & Href & Hval & ->). pose proof (proj1 (record_validate_ok r) Hv) as (Hp & Hs & _).
    apply shape_range in Hs. exists (jr_transition r + 1). split.
    + unfold u64_max. by rewrite (proj2 (Z.leb_le _ _)) by lia.
    + apply apply_transition_ok. cbn. by rewrite Hp.
Qed.

Lemma lease_transition_valid r next ref r' :
  lease_transition r next ref = Ok r' -> RouteLeaseJournalRecord_validate r' = Ok tt.
Proof.
  intros Ht. apply lease_transition_ok in Ht as (Hv & _ & Hval & ->).
  apply record_validate_ok in Hv as (Hp & Hs & Ho). apply record_validate_ok. cbn.
  split_and!; [done|by eapply step_shape|done].
Qed.

(** Writing the next record, when it accounts for the world. *)
Lemma transition_durable_interlocked next s :
  interlocked s -> accounts (held s) (routes_in s) (Some next) ->
  wp (transition_durable next) (fun r s' => interlocked s' /\ same_lease s s' /\
    rn_broker s' = rn_broker s /\ rn_routes s' = rn_routes s /\
    (forall e, r <> Err (V3RouteApply e)) /\
    match r with
    | Ok _ => journal_state (rn_session s') = Some next /\ durable_state s' = Some next
    | Err _ => journal_state (rn_session s') = journal_state (rn_session s)
    end) s.
Proof.
  intros Hi Hacc. pose proof Hi as [Ha Href Hr Hd Hl Hs Hk]. unfold transition_durable. wp_steps.
  destruct (vs_record (rn_session s)) as [cur|] eqn:Ecur; cbn [ok_or]; [|done]. wp_steps.
  destruct (lease_transition cur next _) as [rec|e] eqn:Et; cbn [map_err]; [|done]. wp_steps.
  pose proof (lease_transition_valid _ _ _ _ Et) as Hv'.
  apply lease_transition_ok in Et as (Hv & _ & Hval & Hrec).
  assert (Hnew : record_of (vs_owner (rn_session s)) (Some rec)).
  { intros r' [= <-]. split; [done|]. subst rec. cbn. by apply (Hr cur). }
  assert (Hst : jr_state rec = next) by by subst rec.
  unfold wp at 1, journal_call, call. destruct (persist_durable rec (rn_journal s)) as [r j] eqn:Ej.
  pose proof (law_persisted rec (rn_journal s)) as Hok.
  pose proof (law_persist_ambiguous rec (rn_journal s)) as Hamb. rewrite Ej in Hok, Hamb.
  cbn [fst snd] in *. destruct r as [[]|e]; cbn [map_err]; wp_steps.
  - specialize (Hok eq_refl).
    assert (Hds : jr_state <$> durable j = Some next) by (rewrite Hok; cbn; by rewrite Hst).
    split_and!; [|done..|cbn; by rewrite Hst|exact Hds].
    constructor; unfold durable_state; cbn; rewrite ?Hds, ?Hst, ?Hok; try done. by left.
  - split_and!; [|done..].
    constructor; unfold durable_state; cbn; rewrite ?Ecur; try done;
      destruct Hamb as [E | E]; rewrite ?E; cbn; rewrite ?Hst; try done.
    right. unfold journal_state. by rewrite Ecur.
Qed.

Lemma confirmation_require_ok c b d :
  confirmation_require c b d = Ok tt <->
  RouteLeaseBinding_validate b = Ok tt /\ c = {| bc_binding := b; bc_disposition := d |}.
Proof.
  unfold confirmation_require, RouteLeaseBinding_matches. rewrite rbind_ok. split.
  - intros ([] & Hv & Hr). case_match eqn:E; [done|]. reflect_bools. destruct c. cbn in *. by subst.
  - intros [Hv ->]. exists tt. cbn. by rewrite !bool_decide_true.
Qed.

Lemma absence_require_ok p ref :
  absence_require p ref = Ok tt <->
  RouteLeaseReferenceV3_validate ref = Ok tt /\ p = {| ap_reference := ref |}.
Proof.
  unfold absence_require. rewrite rbind_ok. split.
  - intros ([] & Hv & Hr). case_bool_decide; [|done]. destruct p. cbn in *. by subst.
  - intros [Hv ->]. exists tt. cbn. by rewrite bool_decide_true.
Qed.

(** The broker or the routes change under a state that still accounts for them. *)
Lemma interlocked_broker b s :
  interlocked s ->
  (forall st, st = journal_state (rn_session s) \/ st = durable_state s ->
     accounts (held s) (routes_in s) st -> accounts (held (set_broker b s)) (routes_in s) st) ->
  interlocked (set_broker b s).
Proof. intros [] Hacc. constructor; try done; apply Hacc; auto. Qed.

Lemma interlocked_routes t s :
  interlocked s ->
  (forall st, st = journal_state (rn_session s) \/ st = durable_state s ->
     accounts (held s) (routes_in s) st -> accounts (held s) (routes_in (set_routes t s)) st) ->
  interlocked (set_routes t s).
Proof. intros [] Hacc. constructor; try done; apply Hacc; auto. Qed.

(** The states the disk may show, by the session's. *)
Lemma durable_cases s :
  interlocked s ->
  match journal_state (rn_session s) with
  | Some RetirementPending => durable_state s = Some RetirementPending \/ durable_state s = Some Released
  | Some Held => durable_state s = Some Held \/ durable_state s = Some LeaseApplied \/
                 durable_state s = Some RetirementPending
  | Some LeaseApplied => durable_state s = Some LeaseApplied \/
                         durable_state s = Some RetirementPending
  | _ => True
  end.
Proof.
  intros [_ _ _ _ [Hl|Hl] _ _].
  - rewrite Hl. destruct (journal_state _) as [[]|]; auto.
  - destruct (journal_state _) as [x|]; [|done]. destruct (durable_state s) as [y|]; [|done].
    destruct x, y; try done; auto.
Qed.

Definition step_post s (r : result unit ProductionRouteV3Error) s' : Prop :=
  interlocked s' /\ same_lease s s' /\
  (forall e, r <> Err (V3RouteApply e)) /\
  (r = Ok tt -> journal_state (rn_session s') = Some Released).

Lemma same_lease_trans s s' s'' : same_lease s s' -> same_lease s' s'' -> same_lease s s''.
Proof. intros (? & ? & ?) (? & ? & ?). split_and!; congruence. Qed.

Lemma release_interlocked s : interlocked s -> wp release (step_post s) s.
Proof.
  intros Hi. unfold release. wp_steps. case_bool_decide as Hst; cbn [negb]; wp_steps; [|done].
  unfold broker_call. unfold wp at 1, call.
  set (b := ra_binding (vs_authorization (rn_session s))).
  destruct (release_exact b (rn_broker s)) as [r bs] eqn:E.
  pose proof (law_release b (rn_broker s)) as Hrel.
  pose proof (law_release_keeps b (rn_broker s)) as Hkeep. rewrite E in Hrel, Hkeep.
  cbn [fst snd] in *.
  assert (Hi1 : interlocked (set_broker bs s)).
  { apply interlocked_broker; [done|]. intros st Hcase [Hro Hho Hgr].
    pose proof (durable_cases s Hi) as Hdc. rewrite Hst in Hdc, Hcase.
    assert (st = Some RetirementPending \/ st = Some Released /\ held s = false) as Hs'.
    { destruct Hcase as [-> | ->]; [by left|]. destruct Hdc as [-> | Hd]; [by left|right].
      split; [done|]. rewrite Hd in *. destruct (held s); [|done]. by destruct Hho. }
    destruct Hs' as [-> |[-> Hh]]; (constructor; [exact Hro| |by intros [?|?]]); [done|].
    intros Hh'. unfold held in Hh, Hh'. cbn in Hh'. fold b in Hh, Hh'. by rewrite Hkeep in Hh'. }
  destruct r as [conf|e]; cbn [map_err]; wp_steps; [|by split_and!].
  destruct (confirmation_require conf b DispReleased) as [[]|e] eqn:Ec; cbn [map_err]; [|by split_and!].
  apply confirmation_require_ok in Ec as [_ ->].
  assert (Hno : held (set_broker bs s) = false) by by apply Hrel.
  eapply wp_mono; [apply (transition_durable_interlocked Released _ Hi1)|].
  - constructor; [|by rewrite Hno|by intros [?|?]]. intros Hro.
    destruct Hi1 as [_ _ _ _ _ [Hr1 _ _] _]. cbn in Hr1. rewrite Hst in Hr1.
    destruct (Hr1 Hro); done.
  - cbn beta. intros r s' (? & Hsl & _ & _ & He & Hr). split_and!; [done|exact Hsl|done|].
    intros ->. apply Hr.
Qed.

Lemma rollback_then_release_interlocked s :
  interlocked s ->
  journal_state (rn_session s) = Some Held \/ journal_state (rn_session s) = Some LeaseApplied ->
  wp rollback_then_release (step_post s) s.
Proof.
  intros Hi Hst. unfold rollback_then_release. wp_steps. unfold wp at 1, call.
  set (ref := vs_reference (rn_session s)).
  destruct (rollback_and_prove_absent ref (rn_routes s)) as [r ts] eqn:E.
  pose proof (law_absent ref (rn_routes s)) as Habs.
  pose proof (law_rollback_keeps ref (rn_routes s)) as Hkeep. rewrite E in Habs, Hkeep.
  cbn [fst snd] in *.
  assert (Hi1 : interlocked (set_routes ts s)).
  { apply interlocked_routes; [done|]. intros st Hcase [Hro Hho Hgr]. constructor; try done.
    intros Hin. unfold routes_in in Hro, Hin. cbn in Hin. apply Hro.
    destruct (installed (rn_routes s) (vs_reference (rn_session s))) eqn:Ei; [done|].
    fold ref in Ei, Hin. rewrite Hkeep in Hin by done. done. }
  destruct r as [proof|e]; cbn [map_err]; wp_steps; [|by split_and!].
  destruct (absence_require proof ref) as [[]|e] eqn:Ep; cbn [map_err]; wp_steps; [|by split_and!].
  apply absence_require_ok in Ep as [_ ->].
  assert (Hno : routes_in (set_routes ts s) = false) by by apply Habs.
  eapply wp_mono; [apply (transition_durable_interlocked RetirementPending _ Hi1)|].
  - constructor; [by rewrite Hno|done|by intros [?|?]].
  - cbn beta. intros [[]|e] s' (Hi' & Hsl & _ & _ & He & Hr); [|by split_and!]. wp_steps.
    eapply wp_mono; [by apply release_interlocked|]. cbn beta.
    intros r s'' (Hi'' & Hsl' & He' & Hr'). split_and!; [done| |done..].
    by eapply same_lease_trans; [exact Hsl|].
Qed.

Lemma validate_authority_tag session e : validate_authority session <> Err (V3RouteApply e).
Proof.
  unfold validate_authority, require_owner_authority.
  destruct (RouteLeaseOwnerV3_validate _); cbn; [|done]. case_match; cbn; [done|].
  by destruct (matches_owner _ _).
Qed.

Lemma disconnect_interlocked s : interlocked s -> wp disconnect (step_post s) s.
Proof.
  intros Hi. unfold disconnect. wp_steps.
  destruct (validate_authority _) as [[]|e] eqn:Ea; cycle 1.
  { split_and!; try done. intros e' [= ->]. by destruct (validate_authority_tag (rn_session s) e'). }
  wp_steps. destruct (journal_state (rn_session s)) as [[]|] eqn:Hst; wp_steps; try by split_and!.
  - eapply wp_mono; [apply (transition_durable_interlocked RetirementPending _ Hi)|].
    + destruct Hi as [_ _ _ _ _ [Hr Hh Hg] _]. rewrite Hst in Hr.
      constructor; [|done|by intros [?|?]]. intros Hin. destruct (Hr Hin); done.
    + cbn beta. intros [[]|e] s' (Hi' & Hsl & _ & _ & He & Hr); [|by split_and!]. wp_steps.
      eapply wp_mono; [by apply release_interlocked|]. cbn beta.
      intros r s'' (Hi'' & Hsl' & He' & Hr'). split_and!; [done| |done..]. by eapply same_lease_trans.
  - apply rollback_then_release_interlocked; auto.
  - apply rollback_then_release_interlocked; auto.
  - by apply release_interlocked.
Qed.

Definition connect_post s (r : result unit ProductionRouteV3Error) s' : Prop :=
  interlocked s' /\ same_lease s s' /\
  (r = Ok tt -> journal_state (rn_session s') = Some LeaseApplied) /\
  (forall e, r = Err (V3RouteApply e) -> journal_state (rn_session s') = Some Released).

Lemma cleanup_interlocked e s0 s :
  interlocked s -> same_lease s0 s ->
  journal_state (rn_session s) = Some Held \/ journal_state (rn_session s) = Some LeaseApplied ->
  wp (cleanup_and_fail e) (connect_post s0) s.
Proof.
  intros Hi Hsl Hst. unfold cleanup_and_fail. wp_steps.
  eapply wp_mono; [by apply rollback_then_release_interlocked|]. cbn beta.
  intros [[]|e'] s' (Hi' & Hsl' & He & Hr); wp_steps;
    (split_and!; [done|by eapply same_lease_trans|done|]).
  - intros e' _. by apply Hr.
  - intros e'' [= ->]. by destruct (He e'').
Qed.

(** From the durable hold on: the routes are applied and recorded, or undone. *)
Lemma apply_held_interlocked s0 s :
  interlocked s -> same_lease s0 s -> journal_state (rn_session s) = Some Held ->
  durable_state s = Some Held ->
  wp apply_or_cleanup (connect_post s0) s.
Proof.
  intros Hi Hsl Hst Hds. unfold apply_or_cleanup. wp_steps. unfold wp at 1, call.
  destruct (apply_exact (vs_owner (rn_session s)) (rn_routes s)) as [r ts]. cbn [fst snd].
  assert (Hacc : forall st inst, st = Held \/ st = LeaseApplied ->
    accounts (held s) inst (Some st)).
  { destruct Hi as [_ _ _ _ _ [_ _ Hg] _]. rewrite Hst in Hg. intros st inst Hc.
    rewrite Hg by auto. destruct Hc as [-> | ->]; constructor; auto. }
  assert (Hi1 : interlocked (set_routes ts s)).
  { apply interlocked_routes; [done|]. rewrite Hst, Hds.
    intros st [-> | ->] _; apply Hacc; auto. }
  destruct r as [[]|e]; cbn [map_err].
  - wp_steps. eapply wp_mono; [apply (transition_durable_interlocked LeaseApplied _ Hi1)|].
    + apply Hacc. auto.
    + cbn beta. intros [[]|e] s' (Hi' & Hsl' & _ & _ & He & Hr); wp_steps.
      * split_and!; [done|by eapply same_lease_trans|by intros _; apply Hr|done].
      * apply cleanup_interlocked; [done|by eapply same_lease_trans|].
        left. rewrite Hr. exact Hst.
  - apply cleanup_interlocked; [done|done|]. left. exact Hst.
Qed.

(** From the durable request on: the broker is asked and its answer recorded. *)
Lemma hold_interlocked s0 s :
  interlocked s -> same_lease s0 s -> journal_state (rn_session s) = Some HoldPending ->
  durable_state s = Some HoldPending ->
  wp obtain_hold (fun r s' => interlocked s' /\ same_lease s0 s' /\ (forall e, r <> Err (V3RouteApply e)) /\
       (r = Ok tt -> journal_state (rn_session s') = Some Held /\ durable_state s' = Some Held)) s.
Proof.
  intros Hi Hsl Hst Hds. unfold obtain_hold. wp_steps. unfold wp at 1, broker_call, call.
  set (b := ra_binding (vs_authorization (rn_session s))).
  destruct (hold_exact b (rn_broker s)) as [r bs] eqn:E.
  pose proof (law_hold b (rn_broker s)) as Hhold. rewrite E in Hhold. cbn [fst snd] in *.
  assert (Hnoroutes : routes_in s = false).
  { destruct Hi as [_ _ _ _ _ [Hr _ _] _]. rewrite Hst in Hr.
    destruct (routes_in s); [|done]. destruct Hr; done. }
  assert (Hi1 : interlocked (set_broker bs s)).
  { apply interlocked_broker; [done|]. rewrite Hst, Hds, Hnoroutes.
    intros st [-> | ->] _; (constructor; [done|done|by intros [?|?]]). }
  destruct r as [conf|e]; cbn [map_err]; wp_steps; [|by split_and!].
  destruct (confirmation_require conf b DispHeld) as [[]|e] eqn:Ec; cbn [map_err]; wp_steps; [|by split_and!].
  apply confirmation_require_ok in Ec as [_ ->].
  assert (Hyes : held (set_broker bs s) = true).
  { unfold held. cbn. by apply Hhold. }
  eapply wp_mono; [apply (transition_durable_interlocked Held _ Hi1)|].
  - rewrite Hyes. constructor; auto.
  - cbn beta. intros r s' (Hi' & Hsl' & _ & _ & He & Hr).
    split_and!; [done|by eapply same_lease_trans|done|]. by intros ->.
Qed.

(** The request is written down before the broker is asked. *)
Lemma request_interlocked pending s :
  interlocked s -> vs_record (rn_session s) = None ->
  hold_pending (vs_owner (rn_session s)) = Ok pending ->
  wp (write_pending pending) (fun r s' => interlocked s' /\ same_lease s s' /\ (forall e, r <> Err (V3RouteApply e)) /\
       (r = Ok tt -> journal_state (rn_session s') = Some HoldPending /\
          durable_state s' = Some HoldPending)) s.
Proof.
  intros [Ha Href Hr Hd Hl Hs Hk] Hnone Hp. apply open_ok in Hp as [Hov Hpend].
  assert (Hjs : journal_state (rn_session s) = None) by (unfold journal_state; by rewrite Hnone).
  rewrite Hjs in Hl, Hs. unfold write_pending. wp_steps. unfold wp at 1, journal_call, call.
  destruct (persist_durable pending (rn_journal s)) as [r j] eqn:Ej.
  pose proof (law_persisted pending (rn_journal s)) as Hok.
  pose proof (law_persist_ambiguous pending (rn_journal s)) as Hamb. rewrite Ej in Hok, Hamb.
  cbn [fst snd] in *.
  assert (Hst : jr_state pending = HoldPending) by by subst pending.
  assert (Hnew : record_of (vs_owner (rn_session s)) (Some pending)).
  { intros r' [= <-]. subst pending. split; [by apply record_validate_ok|done]. }
  assert (Hacc : accounts (held s) (routes_in s) (Some HoldPending)).
  { destruct Hs as [Hro Hho _]. constructor; [|done|by intros [?|?]]. intros Hin.
    destruct (Hro Hin); done. }
  destruct r as [[]|e]; cbn [map_err]; wp_steps.
  - specialize (Hok eq_refl).
    assert (Hds : jr_state <$> durable j = Some HoldPending) by (rewrite Hok; cbn; by rewrite Hst).
    split_and!; [|done..|intros _; split; [cbn; by rewrite Hst|exact Hds]].
    constructor; unfold durable_state; cbn; rewrite ?Hds, ?Hst, ?Hok; try done. by left.
  - split_and!; [|done..].
    constructor; unfold durable_state; cbn; rewrite ?Hjs, ?Hnone; try done;
      destruct Hamb as [E | E]; rewrite ?E; cbn; rewrite ?Hst; try done.
    by right.
Qed.

Lemma connect_interlocked s : interlocked s -> wp connect (connect_post s) s.
Proof.
  intros Hi. unfold connect. wp_steps.
  destruct (vs_record (rn_session s)) as [cur|] eqn:Ecur; cbn [is_some]; wp_steps; [by split_and!|].
  destruct (validate_authority _) as [[]|e] eqn:Ea; wp_steps; cycle 1.
  { split_and!; try done. intros e' [= ->]. by destruct (validate_authority_tag (rn_session s) e'). }
  destruct (hold_pending _) as [pending|e] eqn:Ep; cbn [map_err]; wp_steps; [|by split_and!].
  eapply wp_mono; [by apply request_interlocked|]. cbn beta.
  intros [[]|e] s1 (Hi1 & Hsl1 & He1 & Hr1); cycle 1.
  { split_and!; try done. intros e' [= ->]. by destruct (He1 e'). }
  destruct (Hr1 eq_refl) as [Hst1 Hds1]. wp_steps.
  eapply wp_mono; [by apply (hold_interlocked s)|]. cbn beta.
  intros [[]|e] s2 (Hi2 & Hsl2 & He2 & Hr2); cycle 1.
  { split_and!; try done. intros e' [= ->]. by destruct (He2 e'). }
  destruct (Hr2 eq_refl) as [Hst2 Hds2]. by apply apply_held_interlocked.
Qed.

(** ** runs of a lease *)

(** A fresh lease whose session connects, disconnects and is resumed from the
    journal, in any order, with adapters that may fail at any call. *)
Inductive lease_run : RS -> Prop :=
| lr_new s authorization revision interfaces cidrs :
    session_new authorization revision interfaces cidrs = Ok (rn_session s) ->
    durable (rn_journal s) = None -> held s = false -> routes_in s = false ->
    lease_run s
| lr_connect s : lease_run s -> lease_run (connect s).2
| lr_disconnect s : lease_run s -> lease_run (disconnect s).2
| lr_resume s r session :
    lease_run s -> durable (rn_journal s) = Some r ->
    session_resume (vs_authorization (rn_session s)) r = Ok session ->
    lease_run (set_session session s).

Lemma owner_from_authorization_binding auth revision interfaces cidrs :
  owner_binding (owner_from_authorization auth revision interfaces cidrs) = ra_binding auth.
Proof. by destruct auth as [? [] ?]. Qed.

Lemma lease_run_interlocked s : lease_run s -> interlocked s.
Proof.
  induction 1 as [s auth rev ifs cidrs Hn Hd Hh Hr|s _ IH|s _ IH|s r session _ IH Hd Hre].
  - unfold session_new in Hn. peel_ok Hn. injection Hn as Hn. symmetry in Hn.
    unfold durable_state, journal_state in *.
    constructor; unfold durable_state; rewrite ?Hn, ?Hh, ?Hr, ?Hd; cbn; try done.
    + unfold require_owner_authority. rewrite Ha. cbn. unfold RouteLeaseBinding_matches.
      by rewrite owner_from_authorization_binding, !bool_decide_true.
    + by left.
    + by constructor; [..|intros [?|?]].
    + by constructor; [..|intros [?|?]].
  - apply (connect_interlocked s IH).
  - apply (disconnect_interlocked s IH).
  - destruct IH as [Ha Href Hrec Hdur Hl Hs Hk]. pose proof (Hdur r Hd) as [Hv Ho].
    unfold session_resume in Hre. peel_ok Hre. injection Hre as <-.
    assert (Hds : durable_state s = Some (jr_state r)) by (unfold durable_state; by rewrite Hd).
    rewrite Hds in Hk.
    constructor; unfold held, routes_in, durable_state in *; cbn; rewrite ?Hd, ?Ho; cbn;
      rewrite <- ?Href; try done.
    + by intros r' [= <-].
    + by intros r' [= <-].
    + by left.
Qed.

Lemma accounted_stop hold inst st :
  accounts hold inst st -> st = None \/ st = Some Released -> hold = false /\ inst = false.
Proof.
  intros [Hr Hh _] Hst. destruct hold; [by destruct Hh as [? ?]; destruct Hst|].
  destruct inst; [|done]. destruct Hr, Hst; congruence || done.
Qed.

Lemma authority_binding owner auth :
  require_owner_authority owner auth = Ok tt ->
  RouteLeaseOwnerV3_validate owner = Ok tt /\ owner_binding owner = ra_binding auth /\
  RouteLeaseBinding_validate (ra_binding auth) = Ok tt.
Proof.
  intros Ha. unfold require_owner_authority, RouteLeaseBinding_matches in Ha. peel_ok Ha.
  case_match eqn:E; [done|]. reflect_bools. split_and!; [done|done|].
  match goal with HH : owner_binding owner = _ |- _ => rewrite <- HH end.
  unfold RouteLeaseOwnerV3_validate in Ha0. by peel_ok Ha0.
Qed.

(** C5: whatever journal, broker and routes answer, and wherever a session is
    resumed from the journal: the sidecar may stop only when the broker has no
    hold and no routes are in; routes are in only under a hold and with a
    journal that says Held or Applied; a hold always has a record that is not
    Released, of this owner and this authority; and the journal only ever holds
    records the lease contract can reach. *)
Theorem lease_interlock s :
  lease_run s ->
  let session := rn_session s in
  (* the sidecar may only be stopped when nothing is held or installed *)
  (permits_sidecar_stop session = true -> held s = false /\ routes_in s = false) /\
  (* routes are only there under a hold that the disk knows about *)
  (routes_in s = true ->
     held s = true /\ (durable_state s = Some Held \/ durable_state s = Some LeaseApplied)) /\
  (* a hold is always on disk, for exactly this authority, and not yet released *)
  (held s = true -> exists r, durable (rn_journal s) = Some r /\ jr_state r <> Released /\
     jr_owner r = vs_owner session /\
     owner_binding (jr_owner r) = ra_binding (vs_authorization session)) /\
  (* and the disk only ever shows records of a lease's life *)
  (forall r, durable (rn_journal s) = Some r -> lease_reach r).
Proof.
  intros Hrun. destruct (lease_run_interlocked s Hrun) as [Ha Href Hrec Hdur Hl Hs Hk].
  apply authority_binding in Ha as (_ & Hb & _). cbn zeta. split_and!.
  - intros Hp. apply (accounted_stop _ _ _ Hs). unfold permits_sidecar_stop in Hp.
    destruct (journal_state (rn_session s)) as [[]|]; auto; done.
  - intros Hin. destruct Hk as [Hr _ Hg]. specialize (Hr Hin). split; [by apply Hg|done].
  - intros Hh. destruct Hk as [_ Hho _]. destruct (Hho Hh) as [Hn Hnr]. unfold durable_state in *.
    destruct (durable (rn_journal s)) as [r|] eqn:Er; [|done]. exists r. cbn in Hnr.
    destruct (Hdur r eq_refl) as [_ Ho]. split_and!; [done|congruence|done|by rewrite Ho].
  - intros r Hr. destruct (Hdur r Hr) as [Hv _]. by apply lease_records_reach.
Qed.

(** Connecting a lease session ends applied under a hold, or rolled back, or refused
    with what was there kept for recovery. *)
Theorem lease_connect_outcome s r s' :
  lease_run s -> connect s = (r, s') ->
  (r = Ok tt -> journal_state (rn_session s') = Some LeaseApplied /\ held s' = true /\
     permits_sidecar_stop (rn_session s') = false) /\
  (forall e, r = Err (V3RouteApply e) -> journal_state (rn_session s') = Some Released /\
     held s' = false /\ routes_in s' = false).
Proof.
  intros Hrun Hc.
  destruct (wp_run _ _ _ _ _ (connect_interlocked s (lease_run_interlocked s Hrun)) Hc)
    as ([_ _ _ _ _ Hs _] & _ & Hok & Herr). split.
  - intros Hr. specialize (Hok Hr). unfold permits_sidecar_stop. rewrite Hok in *.
    destruct Hs as [_ _ Hg]. split_and!; [done|by apply Hg; right|done].
  - intros e He. specialize (Herr e He). split; [done|].
    apply (accounted_stop _ _ _ Hs). by right.
Qed.

(** ** with working adapters, a lease can be ended *)

Definition adapters_work : Prop :=
  (forall r j, (persist_durable (J := J) r j).1 = Ok tt) /\
  (forall b (t : B), (release_exact b t).1 = Ok (confirmation_released b)) /\
  (forall ref (t : R), (rollback_and_prove_absent ref t).1 = Ok {| ap_reference := ref |}).

(** All that writing the next record needs of the session. *)
Definition ready_for (next : RouteLeaseJournalState) (session : ProductionRouteV3Session) : Prop :=
  vs_reference session = from_owner (vs_owner session) /\
  record_of (vs_owner session) (vs_record session) /\
  exists st, journal_state session = Some st /\ valid_transition st next = true.

Lemma transition_works next s :
  adapters_work -> ready_for next (rn_session s) ->
  wp (transition_durable next) (fun r _ => r = Ok tt) s.
Proof.
  intros (Hp & _ & _) (Href & Hrec & st & Hst & Hval). unfold transition_durable. wp_steps.
  unfold journal_state in Hst. destruct (vs_record (rn_session s)) as [cur|]; [|done].
  injection Hst as <-. destruct (Hrec cur eq_refl) as [Hv Ho]. cbn [ok_or]. wp_steps.
  rewrite (proj2 (lease_transition_ok cur next (vs_reference (rn_session s)) _)
    (conj Hv (conj (eq_trans Href (f_equal from_owner (eq_sym Ho))) (conj Hval eq_refl)))).
  cbn [map_err]. wp_steps. unfold wp at 1, journal_call, call.
  set (rec := {| jr_protocol_version := 3 |}). specialize (Hp rec (rn_journal s)).
  destruct (persist_durable rec (rn_journal s)) as [r j]. cbn in Hp. subst r. by wp_steps.
Qed.

Lemma release_works s :
  adapters_work -> interlocked s -> journal_state (rn_session s) = Some RetirementPending ->
  wp release (fun r _ => r = Ok tt) s.
Proof.
  intros Hw [Ha Href Hrec _ _ _ _] Hst. pose proof Hw as (_ & Hrel & _). unfold release. wp_steps.
  rewrite bool_decide_true by done. cbn [negb]. wp_steps. unfold broker_call.
  set (b := ra_binding (vs_authorization (rn_session s))).
  assert (Hb : RouteLeaseBinding_validate b = Ok tt) by apply (authority_binding _ _ Ha).
  unfold wp at 1, call. specialize (Hrel b (rn_broker s)).
  destruct (release_exact b (rn_broker s)) as [r bs]. cbn in Hrel. subst r.
  cbn [fst snd map_err]. wp_steps.
  rewrite (proj2 (confirmation_require_ok _ b DispReleased)) by done. cbn [map_err].
  apply transition_works; [done|]. split_and!; [done|done|by exists RetirementPending].
Qed.

Lemma retire_and_release_works s :
  adapters_work -> interlocked s -> routes_in s = false -> ready_for RetirementPending (rn_session s) ->
  wp (transition_durable RetirementPending ;! release) (fun r _ => r = Ok tt) s.
Proof.
  intros Hw Hi Hno Hready. wp_steps.
  eapply wp_mono; [apply wp_and; [by apply transition_works|
    apply (transition_durable_interlocked RetirementPending _ Hi)]|].
  - rewrite Hno. constructor; [done|done|by intros [?|?]].
  - cbn beta. intros r s' (-> & Hi' & _ & _ & _ & _ & Hst & _). by apply release_works.
Qed.

Lemma rollback_then_release_works s :
  adapters_work -> interlocked s -> ready_for RetirementPending (rn_session s) ->
  wp rollback_then_release (fun r _ => r = Ok tt) s.
Proof.
  intros Hw Hi Hready. pose proof Hw as (_ & _ & Hroll). unfold rollback_then_release. wp_steps.
  unfold wp at 1, call. set (ref := vs_reference (rn_session s)).
  specialize (Hroll ref (rn_routes s)). pose proof (law_absent ref (rn_routes s) Hroll) as Habs.
  destruct (rollback_and_prove_absent ref (rn_routes s)) as [r ts]. cbn in Hroll, Habs. subst r.
  cbn [fst snd map_err]. wp_steps.
  assert (Hv : RouteLeaseReferenceV3_validate ref = Ok tt).
  { destruct Hi as [Ha Href _ _ _ _ _]. apply authority_binding in Ha as (Ha & _).
    unfold ref. rewrite Href. by apply reference_of_owner_valid. }
  rewrite (proj2 (absence_require_ok _ ref)) by done. cbn [map_err]. cbn beta iota.
  apply retire_and_release_works; [done| |done|done].
  apply interlocked_routes; [done|]. intros st _ [Hro Hho Hgr].
  constructor; [|done|done]. unfold routes_in. cbn. fold ref. by rewrite Habs.
Qed.

(** When journal, broker and routes work, disconnecting a session that holds a
    lease in any state succeeds, and leaves no hold, no routes and a sidecar
    that may stop. *)
Theorem lease_disconnect_completes s st :
  lease_run s -> adapters_work ->
  journal_state (rn_session s) = Some st -> st <> Released ->
  let (r, s') := disconnect s in
  r = Ok tt /\ permits_sidecar_stop (rn_session s') = true /\
  held s' = false /\ routes_in s' = false.
Proof.
  intros Hrun Hw Hst Hne. pose proof (lease_run_interlocked s Hrun) as Hi.
  pose proof (disconnect_interlocked s Hi) as Hpost. unfold wp in Hpost.
  assert (Hok : wp disconnect (fun r _ => r = Ok tt) s).
  { destruct Hi as [Ha Href Hrec ? ? Hs ?] eqn:Hi'. clear Hi'. unfold disconnect. wp_steps.
    assert (validate_authority (rn_session s) = Ok tt) as ->.
    { unfold validate_authority. rewrite Ha. cbn.
      by rewrite (proj2 (matches_owner_ok _ _)); [|split; [apply (authority_binding _ _ Ha)|]]. }
    rewrite Hst.
    assert (Hready : valid_transition st RetirementPending = true ->
      ready_for RetirementPending (rn_session s)) by (intros; split_and!; eauto).
    destruct st; try done.
    - apply retire_and_release_works; auto. rewrite Hst in Hs. destruct Hs as [Hro _ _].
      destruct (routes_in s); [|done]. by destruct Hro.
    - apply rollback_then_release_works; auto.
    - apply rollback_then_release_works; auto.
    - by apply release_works.
    - exfalso. unfold journal_state in Hst. destruct (vs_record (rn_session s)) as [cur|]; [|done].
      destruct (Hrec cur eq_refl) as [Hv _]. apply record_validate_ok in Hv as (_ & Hv & _).
      injection Hst as Hst. by rewrite Hst in Hv. }
  unfold wp in Hok. destruct (disconnect s) as [r s']. cbn in Hok, Hpost.
  destruct Hpost as ([_ _ _ _ _ Hs' _] & _ & _ & Hrel). specialize (Hrel Hok).
  unfold permits_sidecar_stop. rewrite Hrel in *. split_and!; [done|done|..];
    by apply (accounted_stop _ _ _ Hs'); right.
Qed.
End interlock.
