(* ===== verification/SidecarTrust.v ===== *)
(** * SidecarTrust: which executable may become the sidecar

    [src-tauri/src/networking/sidecar_trust.rs]: the file is read through a descriptor,
    its owner, mode, size, architecture and digest are checked, its signature is
    verified by [codesign], and the file is read again to see that it is still the
    same.  System calls, [codesign] and SHA-256 are the class [TrustOs]. *)

From Stdlib Require Import Ascii String.
From S2P Require Import Prelude Text NetState IpAddr Ipc Sidecar RouteHelperV3 ProductionSession.

Record SidecarTrustManifest := {
  tm_schema_version : Z;
  tm_sha256 : string;
  tm_architecture : string;
  tm_team_id : string;
  tm_designated_requirement : string;
}.

Record SidecarFileIdentity := { fi_device : Z; fi_inode : Z; fi_size : Z }.

#[global] Instance SidecarFileIdentity_eq_dec : EqDecision SidecarFileIdentity.
Proof. solve_decision. Defined.

Record SidecarSnapshot := { ss_bytes : list Z; ss_identity : SidecarFileIdentity }.

(** What [fstat] reports. *)
Record FileMetadata := {
  md_is_file : bool;
  md_uid : Z;
  md_mode : Z;
  md_dev : Z;
  md_ino : Z;
  md_size : Z;
}.

(** An [open] fails because the last component is a link ([ELOOP]) or otherwise. *)
Inductive OpenError : Type := OpenLoop | OpenOther.

Class TrustOs (X : Type) := {
  os_open_nofollow : string -> M X OpenError Z;
  os_metadata : Z -> M X unit FileMetadata;
  os_read_to_end : Z -> M X unit (list Z);
  os_geteuid : X -> Z;
  os_codesign_status : list string -> M X unit bool;
  os_codesign_output : list string -> M X unit (bool * string);
  os_sha256 : list Z -> list Z;
}.

Definition trust_valid_identifier (value : string) : bool :=
  negb (is_empty value) && (len value <=? 64) && all_bytes is_ascii_alphanumeric value.

Definition is_ascii_hexdigit (c : ascii) : bool :=
  is_ascii_digit c || in_range "a" "f" c || in_range "A" "F" c.

(** [u32::from_le_bytes]. *)
Definition u32_le (b0 b1 b2 b3 : Z) : Z := b0 + 256 * b1 + 65536 * b2 + 16777216 * b3.

Definition macho_architecture (bytes : list Z) : option string :=
  match bytes with
  | m0 :: m1 :: m2 :: m3 :: c0 :: c1 :: c2 :: c3 :: _ =>
      if bool_decide ([m0; m1; m2; m3] = [207; 250; 237; 254]) then
        if u32_le c0 c1 c2 c3 =? 16777228 then Some "arm64"%string
        else if u32_le c0 c1 c2 c3 =? 16777223 then Some "x86_64"%string
        else None
      else None
  | _ => None
  end.

Definition codesign_requirement_arguments (path requirement : string) : list string :=
  ["--verify"; "--strict"; "--verbose=2"; ("-R=" ++ requirement)%string; path]%string.

Definition map_codesign_requirement_status (success : bool) : Res unit :=
  if success then Ok tt else Err AuthenticationFailed.

(** [str::lines]: split at newlines, a final empty line dropped, one carriage return
    before a newline dropped. *)
Definition strip_cr (line : string) : string :=
  match strip_suffix line (String (ascii_of_nat 13) EmptyString) with
  | Some line => line
  | None => line
  end.
Definition lines (text : string) : list string :=
  let pieces := split text (ascii_of_nat 10) in
  let complete := removelast pieces in
  map strip_cr complete ++ match last pieces with
                           | Some final => if is_empty final then [] else [final]
                           | None => []
                           end.

Definition map_codesign_identity_output (success : bool) (stderr : string) (team_id : string)
  : Res unit :=
  let expected := ("TeamIdentifier=" ++ team_id)%string in
  if success && existsb (fun line => bool_decide (line = expected)) (lines stderr)
  then Ok tt else Err AuthenticationFailed.

Section trust.
Context {X : Type} `{TrustOs X}.

(** A system call whose error is replaced. *)
Definition or_fail {E A} (code : E -> NetworkErrorCode) (m : M X E A) : Meth X A :=
  fun x => let (r, x') := m x in (map_err code r, x').

Definition read_sidecar_snapshot (path : string) : Meth X SidecarSnapshot :=
  let! file := or_fail (fun error => match error with
                                     | OpenLoop => AuthenticationFailed
                                     | OpenOther => SidecarUnavailable
                                     end) (os_open_nofollow path) in
  let! metadata := or_fail (fun _ => SidecarUnavailable) (os_metadata file) in
  if negb (md_is_file metadata) then raise AuthenticationFailed else
  let! x := get in
  if negb (md_uid metadata =? os_geteuid x) || negb (Z.land (md_mode metadata) 18 =? 0)
  then raise AuthenticationFailed else
  let identity := {| fi_device := md_dev metadata; fi_inode := md_ino metadata;
                     fi_size := md_size metadata |} in
  let! bytes := or_fail (fun _ => SidecarUnavailable) (os_read_to_end file) in
  let! final := or_fail (fun _ => SidecarUnavailable) (os_metadata file) in
  if negb (md_size final =? fi_size identity) || negb (Z.of_nat (length bytes) =? fi_size identity)
  then raise AuthenticationFailed
  else ret {| ss_bytes := bytes; ss_identity := identity |}.

Definition verify_code_signature (path : string) (manifest : SidecarTrustManifest) : Meth X unit :=
  let! requirement := or_fail (fun _ => AuthenticationFailed)
    (os_codesign_status
       (codesign_requirement_arguments path (tm_designated_requirement manifest))) in
  lift (map_codesign_requirement_status requirement) ;!
  let! details := or_fail (fun _ => AuthenticationFailed)
    (os_codesign_output ["-d"; "--verbose=4"; path]%string) in
  lift (map_codesign_identity_output details.1 details.2 (tm_team_id manifest)).

Definition manifest_refused (manifest : SidecarTrustManifest) : bool :=
  negb (tm_schema_version manifest =? 1)
  || negb (len (tm_sha256 manifest) =? 64)
  || negb (all_bytes is_ascii_hexdigit (tm_sha256 manifest))
  || negb (trust_valid_identifier (tm_team_id manifest))
  || is_empty (tm_designated_requirement manifest).

Definition verify_macos_sidecar (path : string) (manifest : SidecarTrustManifest) : Meth X unit :=
  if manifest_refused manifest then raise AuthenticationFailed else
  let! before := read_sidecar_snapshot path in
  let bytes := ss_bytes before in
  if negb (bool_decide (macho_architecture bytes = Some (tm_architecture manifest)))
    || negb (bool_decide (hex (os_sha256 bytes) = to_ascii_lowercase (tm_sha256 manifest)))
  then raise AuthenticationFailed else
  verify_code_signature path manifest ;!
  let! after := read_sidecar_snapshot path in
  if negb (bool_decide (ss_identity before = ss_identity after))
    || negb (bool_decide (ss_bytes before = ss_bytes after))
  then raise AuthenticationFailed
  else ret tt.

(** ** what was verified *)

(** A snapshot taken from [x]: a regular file of this user that nobody else may write,
    whose size did not change while it was read. *)
Definition snapshot_from (path : string) (x : X) (snapshot : SidecarSnapshot) (x' : X) : Prop :=
  read_sidecar_snapshot path x = (Ok snapshot, x').

Lemma snapshot_size path x snapshot x' :
  snapshot_from path x snapshot x' ->
  Z.of_nat (length (ss_bytes snapshot)) = fi_size (ss_identity snapshot).
Proof.
  assert (Hw : wp (read_sidecar_snapshot path) (fun r _ => forall s, r = Ok s ->
    Z.of_nat (length (ss_bytes s)) = fi_size (ss_identity s)) x).
  { unfold read_sidecar_snapshot.
    repeat (wp_steps; first [done | case_match; wp_steps; [done|] |
      unfold or_fail at 1; unfold wp at 1; match goal with
      | |- context [match ?m with pair _ _ => _ end] => destruct m as [[]?]; cbn [fst snd map_err]
      end]).
    intros s [= <-]. reflect_bools. done. }
  unfold snapshot_from. intros Hs. by apply (wp_run _ _ _ _ _ Hw Hs).
Qed.

(** A sidecar is verified exactly when the manifest is well formed and the file
    at the path is, before and after the code-signature check, the same snapshot
    with the manifest's architecture and digest. *)
Theorem verified_sidecar_is_the_signed_one path manifest x x' :
  verify_macos_sidecar path manifest x = (Ok tt, x') <->
  manifest_refused manifest = false /\
  exists before x1 x2 after,
    (* what was read has the promised architecture and digest *)
    snapshot_from path x before x1 /\
    macho_architecture (ss_bytes before) = Some (tm_architecture manifest) /\
    hex (os_sha256 (ss_bytes before)) = to_ascii_lowercase (tm_sha256 manifest) /\
    (* the signature was accepted, by requirement and by team *)
    verify_code_signature path manifest x1 = (Ok tt, x2) /\
    (* and after that the same file still had the same bytes *)
    snapshot_from path x2 after x' /\ after = before.
Proof.
  unfold verify_macos_sidecar, snapshot_from. destruct (manifest_refused manifest).
  { unfold raise. split; [done|]. by intros [? _]. }
  unfold bind. split.
  - destruct (read_sidecar_snapshot path x) as [[before|] x1] eqn:E1; [|done].
    case_match eqn:Eg; [done|]. reflect_bools.
    destruct (verify_code_signature path manifest x1) as [[[]|] x2] eqn:E2; [|done].
    destruct (read_sidecar_snapshot path x2) as [[after|] x3] eqn:E3; [|done].
    case_match eqn:Eh; [done|]. reflect_bools. intros [= <-]. split; [done|].
    exists before, x1, x2, after. split_and!; try done. destruct before, after. cbn in *. congruence.
  - intros (_ & before & x1 & x2 & after & -> & Ha & Hh & Hs & Hr & ->).
    rewrite Ha, Hh, !bool_decide_true by done. cbn [negb orb]. rewrite Hs, Hr.
    by rewrite !bool_decide_true.
Qed.
End trust.
