(* ===== verification/StdioRuntime.v ===== *)
(** * StdioRuntime: the sidecar as a child process that speaks over its pipes

    [src-tauri/src/networking/stdio_runtime.rs]: launching with the bootstrap record,
    one request at a time with at most one cancellation, exact termination and
    reaping, and the framing of records.  A process handle and the launcher are the
    classes [SidecarProcessControl] and [StdioSidecarLauncher] (the local process and
    the tunnel broker implement them); pipes, clock and cancellation flag are the
    class [StdioIo], JSON the class [SidecarJson].  Time is in milliseconds.  The
    loops take fuel; running out of it is the outcome [Hang], and the theorems say
    how much is enough. *)

From Stdlib Require Import Ascii String.
From S2P Require Import Prelude Text NetState Config Ipc Sidecar RouteHelperV3 ProductionSession.
From S2P Require Import ProductionController SidecarTrust.

Definition MAX_RECORD_SIZE : Z := 65536.
Definition CANCELLATION_POLL_INTERVAL : Z := 10.
Definition DEFAULT_CANCEL_DRAIN_TIMEOUT : Z := 2000.
Definition CHILD_REAP_TIMEOUT : Z := 2000.
Definition CHILD_REAP_POLL_INTERVAL : Z := 10.

(** ** framing *)

(** [read_records] on everything the child writes until it closes its end: each line
    becomes a record; a line that is too long or not ended stops the reader with an
    error.  [record] is what [read_until] has collected so far. *)
Fixpoint read_records_from (record : list Z) (stream : list Z) : list (Res (list Z)) :=
  match stream with
  | [] => match record with [] => [] | _ => [Err SidecarUnavailable] end
  | byte :: stream =>
      let read := record ++ [byte] in
      if byte =? 10 then
        if MAX_RECORD_SIZE <? Z.of_nat (length read) then [Err SidecarUnavailable]
        else Ok record :: read_records_from [] stream
      else if Z.of_nat (length read) =? MAX_RECORD_SIZE + 1 then [Err SidecarUnavailable]
      else read_records_from read stream
  end.
Definition read_records (stream : list Z) : list (Res (list Z)) := read_records_from [] stream.

(** ** the surroundings *)

Record BootstrapRecord := {
  bo_protocol_version : Z;
  bo_instance_id : string;
  bo_auth_token : string;
  bo_private_key : string;
}.

(** [serde_json] on the records of the protocol. *)
Class SidecarJson := {
  json_bootstrap : BootstrapRecord -> option (list Z);
  json_request : IpcRequest -> option (list Z);
  json_response : list Z -> option IpcResponse;
  json_handshake : list Z -> option SidecarHandshake;
}.

(** What waiting on the channel of records gives. *)
Inductive RecvOutcome : Type :=
| RecvRecord (record : Res (list Z))
| RecvTimeout
| RecvDisconnected.

Class StdioIo (X : Type) := {
  io_now : X -> Z * X;
  io_sleep : Z -> X -> unit * X;
  io_write_line : list Z -> X -> bool * X;
  io_recv_timeout : Z -> X -> RecvOutcome * X;
  io_spawn_reader : X -> unit * X;
  io_cancel_requested : nat -> X -> bool * X;
}.

Inductive IoErrorKind : Type :=
| IoTimedOut | IoBrokenPipe | IoPermissionDenied | IoWouldBlock | IoInvalidInput | IoInvalidData
| IoNotFound | IoOther.

Class SidecarProcessControl (X P : Type) := {
  proc_generation : P -> Z;
  proc_try_wait_status : M (P * X) IoErrorKind (option bool);
  proc_kill_owned : M (P * X) IoErrorKind unit;
  proc_take_stdin : P -> bool * P;
  proc_take_stdout : P -> bool * P;
}.

Class StdioSidecarLauncher (X L P : Type) := {
  launcher_launch : Z -> Meth (L * X) P;
  launcher_cancel_prepared : Meth (L * X) unit;
}.

(** An error of the source, or a loop that has not ended yet. *)
Inductive RtErr : Type :=
| Code (code : NetworkErrorCode)
| Hang.

Section runtime.
Context {X L P : Type}.
Context `{StdioIo X, SidecarProcessControl X P, StdioSidecarLauncher X L P}.
Context `{TrustOs X} `{SidecarJson} `{Base64Lib}.

Record StdioSidecarRuntime := {
  sr_executable : string;
  sr_launcher : L;
  sr_child : option P;
  sr_generation : option Z;
  sr_next_generation : Z;
  sr_stdin : bool;
  sr_records : bool;
  sr_response_timeout : Z;
  sr_cancel_drain_timeout : Z;
  sr_next_cancel_sequence : Z;
  sr_trust : option SidecarTrustManifest;
  sr_world : X;
}.

Definition sr_set_launcher (v : L) (self : StdioSidecarRuntime) :=
  {| sr_executable := sr_executable self; sr_launcher := v; sr_child := sr_child self;
     sr_generation := sr_generation self; sr_next_generation := sr_next_generation self;
     sr_stdin := sr_stdin self; sr_records := sr_records self; sr_response_timeout :=
     sr_response_timeout self; sr_cancel_drain_timeout := sr_cancel_drain_timeout self;
     sr_next_cancel_sequence := sr_next_cancel_sequence self; sr_trust := sr_trust self;
     sr_world := sr_world self |}.
Definition sr_set_child (v : option P) (self : StdioSidecarRuntime) :=
  {| sr_executable := sr_executable self; sr_launcher := sr_launcher self; sr_child :=
     v; sr_generation := sr_generation self; sr_next_generation := sr_next_generation
     self; sr_stdin := sr_stdin self; sr_records := sr_records self; sr_response_timeout
     := sr_response_timeout self; sr_cancel_drain_timeout := sr_cancel_drain_timeout
     self; sr_next_cancel_sequence := sr_next_cancel_sequence self; sr_trust := sr_trust
     self; sr_world := sr_world self |}.
Definition sr_set_generation (v : option Z) (self : StdioSidecarRuntime) :=
  {| sr_executable := sr_executable self; sr_launcher := sr_launcher self; sr_child :=
     sr_child self; sr_generation := v; sr_next_generation := sr_next_generation self;
     sr_stdin := sr_stdin self; sr_records := sr_records self; sr_response_timeout :=
     sr_response_timeout self; sr_cancel_drain_timeout := sr_cancel_drain_timeout self;
     sr_next_cancel_sequence := sr_next_cancel_sequence self; sr_trust := sr_trust self;
     sr_world := sr_world self |}.
Definition sr_set_next_generation (v : Z) (self : StdioSidecarRuntime) :=
  {| sr_executable := sr_executable self; sr_launcher := sr_launcher self; sr_child :=
     sr_child self; sr_generation := sr_generation self; sr_next_generation := v;
     sr_stdin := sr_stdin self; sr_records := sr_records self; sr_response_timeout :=
     sr_response_timeout self; sr_cancel_drain_timeout := sr_cancel_drain_timeout self;
     sr_next_cancel_sequence := sr_next_cancel_sequence self; sr_trust := sr_trust self;
     sr_world := sr_world self |}.
Definition sr_set_stdin (v : bool) (self : StdioSidecarRuntime) :=
  {| sr_executable := sr_executable self; sr_launcher := sr_launcher self; sr_child :=
     sr_child self; sr_generation := sr_generation self; sr_next_generation :=
     sr_next_generation self; sr_stdin := v; sr_records := sr_records self;
     sr_response_timeout := sr_response_timeout self; sr_cancel_drain_timeout :=
     sr_cancel_drain_timeout self; sr_next_cancel_sequence := sr_next_cancel_sequence
     self; sr_trust := sr_trust self; sr_world := sr_world self |}.
Definition sr_set_records (v : bool) (self : StdioSidecarRuntime) :=
  {| sr_executable := sr_executable self; sr_launcher := sr_launcher self; sr_child :=
     sr_child self; sr_generation := sr_generation self; sr_next_generation :=
     sr_next_generation self; sr_stdin := sr_stdin self; sr_records := v;
     sr_response_timeout := sr_response_timeout self; sr_cancel_drain_timeout :=
     sr_cancel_drain_timeout self; sr_next_cancel_sequence := sr_next_cancel_sequence
     self; sr_trust := sr_trust self; sr_world := sr_world self |}.
Definition sr_set_response_timeout (v : Z) (self : StdioSidecarRuntime) :=
  {| sr_executable := sr_executable self; sr_launcher := sr_launcher self; sr_child :=
     sr_child self; sr_generation := sr_generation self; sr_next_generation :=
     sr_next_generation self; sr_stdin := sr_stdin self; sr_records := sr_records self;
     sr_response_timeout := v; sr_cancel_drain_timeout := sr_cancel_drain_timeout self;
     sr_next_cancel_sequence := sr_next_cancel_sequence self; sr_trust := sr_trust self;
     sr_world := sr_world self |}.
Definition sr_set_next_cancel_sequence (v : Z) (self : StdioSidecarRuntime) :=
  {| sr_executable := sr_executable self; sr_launcher := sr_launcher self; sr_child :=
     sr_child self; sr_generation := sr_generation self; sr_next_generation :=
     sr_next_generation self; sr_stdin := sr_stdin self; sr_records := sr_records self;
     sr_response_timeout := sr_response_timeout self; sr_cancel_drain_timeout :=
     sr_cancel_drain_timeout self; sr_next_cancel_sequence := v; sr_trust := sr_trust
     self; sr_world := sr_world self |}.
Definition sr_set_world (v : X) (self : StdioSidecarRuntime) :=
  {| sr_executable := sr_executable self; sr_launcher := sr_launcher self; sr_child :=
     sr_child self; sr_generation := sr_generation self; sr_next_generation :=
     sr_next_generation self; sr_stdin := sr_stdin self; sr_records := sr_records self;
     sr_response_timeout := sr_response_timeout self; sr_cancel_drain_timeout :=
     sr_cancel_drain_timeout self; sr_next_cancel_sequence := sr_next_cancel_sequence
     self; sr_trust := sr_trust self; sr_world := v |}.
Notation RM A := (M StdioSidecarRuntime RtErr A).

Definition with_launcher (executable : string) (launcher : L) (world : X) : StdioSidecarRuntime :=
  {| sr_executable := executable; sr_launcher := launcher; sr_child := None;
     sr_generation := None; sr_next_generation := 0; sr_stdin := false; sr_records := false;
     sr_response_timeout := 2000; sr_cancel_drain_timeout := DEFAULT_CANCEL_DRAIN_TIMEOUT;
     sr_next_cancel_sequence := 1; sr_trust := None; sr_world := world |}.

Definition new_trusted (executable : string) (launcher : L) (trust : SidecarTrustManifest)
  (world : X) : StdioSidecarRuntime :=
  {| sr_executable := executable; sr_launcher := launcher; sr_child := None;
     sr_generation := None; sr_next_generation := 0; sr_stdin := false; sr_records := false;
     sr_response_timeout := 2000; sr_cancel_drain_timeout := DEFAULT_CANCEL_DRAIN_TIMEOUT;
     sr_next_cancel_sequence := 1; sr_trust := Some trust; sr_world := world |}.

Definition with_response_timeout (timeout : Z) (self : StdioSidecarRuntime) : StdioSidecarRuntime :=
  sr_set_response_timeout timeout self.

(** ** acting on parts of the runtime *)

Definition fail {A} (code : NetworkErrorCode) : RM A := raise (Code code).

(** The [?] on a plain result. *)
Definition check {A} (r : Res A) : RM A := lift (map_err Code r).

(** [let _ = ..]: an error is ignored, a hang is not. *)
Definition ignore {A} (m : RM A) : RM (Res A) :=
  fun s => match m s with
           | (Ok a, s') => (Ok (Ok a), s')
           | (Err (Code e), s') => (Ok (Err e), s')
           | (Err Hang, s') => (Err Hang, s')
           end.

Definition on_io {A} (call : X -> A * X) : RM A :=
  fun s => let (a, x) := call (sr_world s) in (Ok a, sr_set_world x s).

Definition on_launcher {A} (m : Meth (L * X) A) : RM A :=
  fun s => let '(r, (l, x)) := m (sr_launcher s, sr_world s) in
           (map_err Code r, sr_set_launcher l (sr_set_world x s)).

(** A call on the child's handle, [None] without one. *)
Definition on_child {A} (m : M (P * X) IoErrorKind A) : RM (option (result A IoErrorKind)) :=
  fun s => match sr_child s with
           | None => (Ok None, s)
           | Some p => let '(r, (p', x)) := m (p, sr_world s) in
                       (Ok (Some r), sr_set_child (Some p') (sr_set_world x s))
           end.

Definition take_child_part (take : P -> bool * P) : RM bool :=
  fun s => match sr_child s with
           | None => (Ok false, s)
           | Some p => let (present, p') := take p in (Ok present, sr_set_child (Some p') s)
           end.

(** ** termination *)

(** [matches!(process.try_wait_status(), Ok(Some(_)))], and then the handle is dropped. *)
Definition reap_if_exited : RM bool :=
  let! status := on_child proc_try_wait_status in
  match status with
  | Some (Ok (Some _)) => modify (sr_set_child None) ;! ret true
  | _ => ret false
  end.

Fixpoint reap_loop (fuel : nat) (deadline : Z) : RM unit :=
  match fuel with
  | O => raise Hang
  | S fuel =>
      let! reaped := reap_if_exited in
      if reaped then ret tt else
      let! now := on_io io_now in
      let remaining := saturating_sub deadline now in
      if remaining =? 0 then fail SidecarUnavailable else
      on_io (io_sleep (Z.min remaining (Z.max CHILD_REAP_POLL_INTERVAL 1))) ;!
      reap_loop fuel deadline
  end.

Definition terminate_child_handle (fuel : nat) : RM unit :=
  let! self := get in
  if is_none (sr_child self) then ret tt else
  let! reaped := reap_if_exited in
  if reaped then ret tt else
  on_child proc_kill_owned ;!
  let! now := on_io io_now in
  reap_loop fuel (now + CHILD_REAP_TIMEOUT).

Definition terminate_child (fuel : nat) : RM unit :=
  modify (sr_set_stdin false) ;!
  modify (sr_set_records false) ;!
  let! self := get in
  match sr_generation self with
  | None =>
      if is_none (sr_child self) then on_launcher launcher_cancel_prepared
      else terminate_child_handle fuel
  | Some expected_generation =>
      match sr_child self with
      | None => modify (sr_set_generation None)
      | Some process =>
          if negb (proc_generation process =? expected_generation)
          then fail InvalidStateTransition
          else
            terminate_child_handle fuel ;!
            modify (sr_set_generation None)
      end
  end.

(** [let _ = self.terminate_child(); return Err(code)]. *)
Definition terminate_and_fail {A} (fuel : nat) (code : NetworkErrorCode) : RM A :=
  ignore (terminate_child fuel) ;! fail code.

(** ** records *)

Definition receive_record_for (timeout : Z) : RM (option (list Z)) :=
  let! self := get in
  if negb (sr_records self) then fail SidecarUnavailable else
  let! outcome := on_io (io_recv_timeout timeout) in
  match outcome with
  | RecvRecord record => let! record := check record in ret (Some record)
  | RecvTimeout => ret None
  | RecvDisconnected => fail SidecarUnavailable
  end.

Definition receive_record : RM (list Z) :=
  let! self := get in
  let! record := receive_record_for (sr_response_timeout self) in
  check (ok_or record OperationTimedOut).

Definition send_request (request : IpcRequest) : RM unit :=
  check (IpcRequest_validate_protocol request) ;!
  let! encoded := check (ok_or (json_request request) InvalidConfiguration) in
  if MAX_RECORD_SIZE <=? Z.of_nat (length encoded) then fail InvalidConfiguration else
  let! self := get in
  if negb (sr_stdin self) then fail SidecarUnavailable else
  let! written := on_io (io_write_line encoded) in
  if written then ret tt else fail SidecarUnavailable.

(** ** requests *)

(** [format!("cancel.{sequence:016}")]. *)
Definition pad16 (digits : string) : string :=
  str (replicate (16 - length (bytes digits)) "0"%char ++ bytes digits).
Definition cancel_id (sequence : Z) : string := ("cancel." ++ pad16 (print_uint sequence))%string.

(** The recursion skips the one sequence number whose id the target already has. *)
Fixpoint cancellation_request (fuel : nat) (target_request_id : string) : RM IpcRequest :=
  match fuel with
  | O => raise Hang
  | S fuel =>
      let! self := get in
      let sequence := sr_next_cancel_sequence self in
      let! next := check (ok_or (checked_add u64_max sequence 1) InvalidConfiguration) in
      modify (sr_set_next_cancel_sequence next) ;!
      let request_id := cancel_id sequence in
      if bool_decide (request_id = target_request_id)
      then cancellation_request fuel target_request_id
      else
        let request := {| rq_protocol_version := NETWORK_IPC_PROTOCOL_VERSION;
                          rq_request_id := request_id;
                          rq_payload := Cancel target_request_id |} in
        check (IpcRequest_validate_protocol request) ;!
        ret request
  end.

Definition error_is (result : result IpcResponsePayload IpcError) (p : IpcError -> bool) : bool :=
  match result with Err error => p error | Ok _ => false end.

Definition finish_cancel_pair (fuel : nat) (request : IpcRequest) (primary control : IpcResponse)
  : RM IpcResponse :=
  let accepted := match rs_result control with
                  | Ok (CancelAccepted target) => bool_decide (target = rq_request_id request)
                  | _ => false
                  end in
  let primary_cancelled := error_is (rs_result primary) (fun error =>
    bool_decide (ie_code error = OperationCancelled) && negb (ie_retryable error)) in
  if accepted && primary_cancelled then fail OperationCancelled
  else if negb accepted
       && error_is (rs_result control) (fun error =>
            bool_decide (ie_code error = InvalidStateTransition) && negb (ie_retryable error)
            && negb (error_is (rs_result primary) (fun primary_error =>
                 bool_decide (ie_code primary_error = OperationCancelled))))
  then ret primary
  else terminate_and_fail fuel SidecarUnavailable.

(** The locals of the receive loop. *)
Record Flight := {
  fl_cancel : option (IpcRequest * Z);
  fl_primary : option IpcResponse;
  fl_control : option IpcResponse;
}.

(** Send the control request once the flag is up. *)
Definition maybe_cancel (fuel : nat) (request : IpcRequest) (cancellable : bool)
  (token : option nat) (flight : Flight) : RM Flight :=
  if is_some (fl_cancel flight) || negb cancellable then ret flight else
  let! requested := match token with
                    | Some token => on_io (io_cancel_requested token)
                    | None => ret false
                    end in
  if negb requested then ret flight else
  let! control := ignore (cancellation_request fuel (rq_request_id request)) in
  match control with
  | Err error => terminate_and_fail fuel error
  | Ok control =>
      let! sent := ignore (send_request control) in
      match sent with
      | Err _ => terminate_and_fail fuel SidecarUnavailable
      | Ok _ =>
          let! now := on_io io_now in
          let! self := get in
          ret {| fl_cancel := Some (control, now + sr_cancel_drain_timeout self);
                 fl_primary := fl_primary flight; fl_control := fl_control flight |}
      end
  end.

(** File a response under the request it answers; [None] when it answers none, does
    not validate or is the second of its kind. *)
Definition file_response (request : IpcRequest) (response : IpcResponse) (flight : Flight)
  : option Flight :=
  if bool_decide (rs_request_id response = rq_request_id request) then
    if negb (is_ok (IpcResponse_validate_protocol response request))
      || is_some (fl_primary flight) then None
    else Some {| fl_cancel := fl_cancel flight; fl_primary := Some response;
                 fl_control := fl_control flight |}
  else match fl_cancel flight with
  | Some (control, _) =>
      if bool_decide (rs_request_id response = rq_request_id control) then
        if negb (is_ok (IpcResponse_validate_protocol response control))
          || is_some (fl_control flight) then None
        else Some {| fl_cancel := fl_cancel flight; fl_primary := fl_primary flight;
                     fl_control := Some response |}
      else None
  | None => None
  end.

Fixpoint flight_loop (fuel : nat) (request : IpcRequest) (cancellable : bool)
  (token : option nat) (primary_deadline : Z) (flight : Flight) : RM IpcResponse :=
  match fuel with
  | O => raise Hang
  | S fuel' =>
      let! now := on_io io_now in
      if is_none (fl_cancel flight) && (primary_deadline <=? now)
      then terminate_and_fail fuel OperationTimedOut else
      let! flight := maybe_cancel fuel request cancellable token flight in
      let deadline := match fl_cancel flight with
                      | Some (_, cancel_deadline) => cancel_deadline
                      | None => primary_deadline
                      end in
      let! now := on_io io_now in
      let remaining := saturating_sub deadline now in
      if remaining =? 0
      then terminate_and_fail fuel
             (if is_some (fl_cancel flight) then SidecarUnavailable else OperationTimedOut)
      else
      let! received :=
        ignore (receive_record_for (Z.min remaining CANCELLATION_POLL_INTERVAL)) in
      match received with
      | Err _ => terminate_and_fail fuel SidecarUnavailable
      | Ok None => flight_loop fuel' request cancellable token primary_deadline flight
      | Ok (Some record) =>
          match json_response record with
          | None => terminate_and_fail fuel SidecarUnavailable
          | Some response =>
              match file_response request response flight with
              | None => terminate_and_fail fuel SidecarUnavailable
              | Some flight =>
                  match fl_cancel flight, fl_primary flight, fl_control flight with
                  | None, Some primary, _ =>
                      if error_is (rs_result primary) (fun error =>
                           bool_decide (ie_code error = OperationCancelled))
                      then terminate_and_fail fuel SidecarUnavailable
                      else ret primary
                  | Some _, Some primary, Some control =>
                      finish_cancel_pair fuel request primary control
                  | _, _, _ => flight_loop fuel' request cancellable token primary_deadline flight
                  end
              end
          end
      end
  end.

Definition runtime_cancellable (payload : IpcRequestPayload) : bool :=
  match payload with
  | ConnectTransport _ | SampleHealth | SamplePrivateReachability => true
  | _ => false
  end.

Definition request_cancellable (fuel : nat) (request : IpcRequest) (token : option nat)
  : RM IpcResponse :=
  check (IpcRequest_validate_protocol request) ;!
  let cancellable := runtime_cancellable (rq_payload request) in
  let! requested := match token with
                    | Some token => if cancellable then on_io (io_cancel_requested token) else ret false
                    | None => ret false
                    end in
  if cancellable && requested then fail OperationCancelled else
  let! sent := ignore (send_request request) in
  match sent with
  | Err error => terminate_and_fail fuel error
  | Ok _ =>
      let! now := on_io io_now in
      let! self := get in
      flight_loop fuel request cancellable token (now + sr_response_timeout self)
        {| fl_cancel := None; fl_primary := None; fl_control := None |}
  end.

(** [request]: the flag it makes is never raised. *)
Definition stdio_request (fuel : nat) (request : IpcRequest) : RM IpcResponse :=
  request_cancellable fuel request None.

(** ** starting *)

Definition on_trust {A} (m : Meth X A) : RM A :=
  fun s => let (r, x) := m (sr_world s) in (map_err Code r, sr_set_world x s).

Definition verify_trust : RM unit :=
  let! self := get in
  match sr_trust self with
  | Some trust => on_trust (verify_macos_sidecar (sr_executable self) trust)
  | None => ret tt
  end.

(** The part of [start_record] that has the process and its pipes. *)
Definition bootstrap (fuel : nat) (context : SidecarLaunchContext) : RM (list Z) :=
  let! stdin := take_child_part proc_take_stdin in
  if negb stdin then terminate_and_fail fuel SidecarUnavailable else
  let! stdout := take_child_part proc_take_stdout in
  if negb stdout then terminate_and_fail fuel SidecarUnavailable else
  on_io io_spawn_reader ;!
  let record := {| bo_protocol_version := NETWORK_IPC_PROTOCOL_VERSION;
                   bo_instance_id := lc_instance_id context;
                   bo_auth_token := BASE64_encode (lc_auth_token context);
                   bo_private_key := BASE64_encode (lc_private_key context) |} in
  match json_bootstrap record with
  | None => terminate_and_fail fuel InvalidConfiguration
  | Some encoded =>
      if MAX_RECORD_SIZE <=? Z.of_nat (length encoded)
      then terminate_and_fail fuel InvalidConfiguration else
      let! written := on_io (io_write_line encoded) in
      if negb written then terminate_and_fail fuel SidecarUnavailable else
      modify (sr_set_stdin true) ;!
      modify (sr_set_records true) ;!
      let! received := ignore receive_record in
      match received with
      | Ok record => ret record
      | Err error => terminate_and_fail fuel error
      end
  end.

Definition start_record (fuel : nat) (context : SidecarLaunchContext) : RM (list Z) :=
  let! self := get in
  if is_some (sr_child self) || negb (Z.of_nat (length (lc_private_key context)) =? 32)
  then fail InvalidConfiguration else
  verify_trust ;!
  let! generation :=
    check (ok_or (checked_add u64_max (sr_next_generation self) 1) InvalidStateTransition) in
  modify (sr_set_next_generation generation) ;!
  let! process := on_launcher (launcher_launch generation) in
  let process_generation := proc_generation process in
  modify (sr_set_generation (Some process_generation)) ;!
  modify (sr_set_child (Some process)) ;!
  if negb (process_generation =? generation)
  then terminate_and_fail fuel InvalidStateTransition
  else bootstrap fuel context.

Definition stdio_start (fuel : nat) (context : SidecarLaunchContext) : RM SidecarHandshake :=
  let! result := ignore (
    let! record := start_record fuel context in
    check (ok_or (json_handshake record) AuthenticationFailed)) in
  match result with
  | Ok handshake => ret handshake
  | Err error => terminate_and_fail fuel error
  end.

(** ** status and stop *)

(** The child has been reaped: forget it and its pipes. *)
Definition forget_child : RM unit :=
  modify (sr_set_child None) ;!
  modify (sr_set_generation None) ;!
  modify (sr_set_stdin false) ;!
  modify (sr_set_records false).

Definition stdio_status : RM SidecarProcessStatus :=
  let! self := get in
  let! child := check (ok_or (sr_child self) SidecarUnavailable) in
  let! expected_generation := check (ok_or (sr_generation self) SidecarUnavailable) in
  if negb (proc_generation child =? expected_generation) then fail InvalidStateTransition else
  let! status := on_child proc_try_wait_status in
  match status with
  | Some (Ok None) => ret ProcessRunning
  | Some (Ok (Some success)) => forget_child ;! ret (ProcessExited success)
  | _ => fail SidecarUnavailable
  end.

Fixpoint graceful_loop (fuel : nat) (deadline : Z) : RM bool :=
  match fuel with
  | O => raise Hang
  | S fuel =>
      let! now := on_io io_now in
      if deadline <=? now then ret false else
      let! status := on_child proc_try_wait_status in
      match status with
      | Some (Ok (Some _)) => forget_child ;! ret true
      | _ =>
          on_io (io_sleep 10) ;!
          graceful_loop fuel deadline
      end
  end.

Definition shutdown_request : IpcRequest :=
  {| rq_protocol_version := NETWORK_IPC_PROTOCOL_VERSION; rq_request_id := "request.shutdown";
     rq_payload := Disconnect |}.

Definition stdio_stop (fuel : nat) : RM unit :=
  let! self := get in
  if is_none (sr_child self) then on_launcher launcher_cancel_prepared else
  let! answer := ignore (request_cancellable fuel shutdown_request None) in
  let! stopped :=
    (if is_ok answer
     then let! now := on_io io_now in
          let! self := get in
          graceful_loop fuel (now + sr_response_timeout self)
     else ret false) in
  if stopped then ret tt else terminate_child fuel.

(** [Drop]: whatever [stop] answers. *)
Definition stdio_drop (fuel : nat) (self : StdioSidecarRuntime) : StdioSidecarRuntime :=
  (stdio_stop fuel self).2.

(** ** the adapter for the controller

    [AsyncStdioSidecarRuntime]: the calls block, so that the timer of the caller never
    cuts one off half way.  A loop that has not ended within the fuel is a call that
    gives no answer. *)
Definition answer {A} (r : result A RtErr) : option (Res A) :=
  match r with
  | Ok a => Some (Ok a)
  | Err (Code e) => Some (Err e)
  | Err Hang => None
  end.

Definition untimed {A} (r : result A RtErr) : Res A :=
  match answer r with Some r => r | None => Err OperationTimedOut end.

Definition async_start (fuel : nat) (context : SidecarLaunchContext)
  : Meth StdioSidecarRuntime SidecarHandshake :=
  fun s => let (r, s') := stdio_start fuel context s in (untimed r, s').
Definition async_request (fuel : nat) (request : IpcRequest) (cancel : nat)
  : Timed StdioSidecarRuntime IpcResponse :=
  fun s => let (r, s') := request_cancellable fuel request (Some cancel) s in (answer r, s').
Definition async_status : Meth StdioSidecarRuntime SidecarProcessStatus :=
  fun s => let (r, s') := stdio_status s in (untimed r, s').
Definition async_stop (fuel : nat) : Timed StdioSidecarRuntime unit :=
  fun s => let (r, s') := stdio_stop fuel s in (answer r, s').

Definition AsyncStdioSidecarRuntime (fuel : nat) : AsyncProductionRuntime StdioSidecarRuntime := {|
  rt_start := async_start fuel;
  rt_request := fun _ => async_request fuel;
  rt_status := async_status;
  rt_stop := fun _ => async_stop fuel;
|}.

End runtime.
Arguments StdioSidecarRuntime X L P : clear implicits.


(** ** local processes *)

(** [std::process]: a child is named by its handle; spawning gives the handle of a new
    child, waiting and killing act on one. *)
Class OsProcess (X : Type) := {
  os_spawn : string -> X -> option nat * X;
  os_try_wait : nat -> X -> result (option bool) IoErrorKind * X;
  os_kill : nat -> X -> result unit IoErrorKind * X;
}.

Record LocalProcessLauncher := { ll_executable : string }.

Record LocalProcessControl := {
  lp_generation : Z;
  lp_child : nat;
  lp_stdin : bool;
  lp_stdout : bool;
}.

Section local.
Context {X : Type} `{OsProcess X}.

Definition local_try_wait_status : M (LocalProcessControl * X) IoErrorKind (option bool) :=
  fun '(p, x) => let (r, x') := os_try_wait (lp_child p) x in (r, (p, x')).

Definition local_kill_owned : M (LocalProcessControl * X) IoErrorKind unit :=
  fun '(p, x) => let (r, x') := os_kill (lp_child p) x in (r, (p, x')).

Definition local_take_stdin (p : LocalProcessControl) : bool * LocalProcessControl :=
  (lp_stdin p, {| lp_generation := lp_generation p; lp_child := lp_child p; lp_stdin := false;
                  lp_stdout := lp_stdout p |}).
Definition local_take_stdout (p : LocalProcessControl) : bool * LocalProcessControl :=
  (lp_stdout p, {| lp_generation := lp_generation p; lp_child := lp_child p;
                   lp_stdin := lp_stdin p; lp_stdout := false |}).

#[export] Instance LocalProcess : SidecarProcessControl X LocalProcessControl := {|
  proc_generation := lp_generation;
  proc_try_wait_status := local_try_wait_status;
  proc_kill_owned := local_kill_owned;
  proc_take_stdin := local_take_stdin;
  proc_take_stdout := local_take_stdout;
|}.

Definition local_launch (generation : Z) : Meth (LocalProcessLauncher * X) LocalProcessControl :=
  fun '(l, x) => let (child, x') := os_spawn (ll_executable l) x in
    (match child with
     | Some child => Ok {| lp_generation := generation; lp_child := child; lp_stdin := true;
                           lp_stdout := true |}
     | None => Err SidecarUnavailable
     end, (l, x')).

(** The default of the trait: nothing is prepared before [launch]. *)
Definition local_cancel_prepared : Meth (LocalProcessLauncher * X) unit := ret tt.

#[export] Instance LocalLauncher : StdioSidecarLauncher X LocalProcessLauncher LocalProcessControl := {|
  launcher_launch := local_launch;
  launcher_cancel_prepared := local_cancel_prepared;
|}.
End local.
