(* ===== verification/StdioRequests.v ===== *)
(** * StdioRequests: an answer of the stdio runtime is the answer to the request

    [request_cancellable] of [StdioRuntime]: what it returns validates against the
    request it was given and is not the trace of a cancellation; every failure that
    leaves the conversation in doubt closes the pipes. *)

From Stdlib Require Import Ascii String.
From S2P Require Import Prelude Text NetState Config Ipc Sidecar RouteHelperV3 ProductionSession.
From S2P Require Import SidecarTrust StdioRuntime.

Section requests.
Context {X L P : Type}.
Context `{StdioIo X, SidecarProcessControl X P, StdioSidecarLauncher X L P}.
Context `{TrustOs X} `{SidecarJson} `{Base64Lib}.
Notation SR := (StdioSidecarRuntime X L P).
Notation RM A := (M SR RtErr A).
Implicit Types s : SR.

Definition closed s : Prop := sr_stdin s = false /\ sr_records s = false.

(** ** terminating closes the pipes *)

Definition stays_closed {A} (m : RM A) : Prop := forall s, closed s -> closed (m s).2.

Lemma stays_bind {A B} (m : RM A) (k : A -> RM B) :
  stays_closed m -> (forall a, stays_closed (k a)) -> stays_closed (bind m k).
Proof.
  intros Hm Hk s Hs. unfold bind. specialize (Hm s Hs). destruct (m s) as [[a|e] s']; [|done]. by apply Hk.
Qed.
Lemma stays_on_io {A} (f : X -> A * X) : stays_closed (on_io f).
Proof. intros s Hs. unfold on_io. by destruct (f (sr_world s)). Qed.
Lemma stays_on_child {A} (m : M (P * X) IoErrorKind A) : stays_closed (on_child m).
Proof. intros s Hs. unfold on_child. destruct (sr_child s) as [p|]; [|done]. by destruct (m (p, sr_world s)) as [? []]. Qed.
Lemma stays_on_launcher {A} (m : Meth (L * X) A) : stays_closed (on_launcher m).
Proof. intros s Hs. unfold on_launcher. by destruct (m (sr_launcher s, sr_world s)) as [? []]. Qed.
Lemma stays_still {A} (m : RM A) : (forall s, closed s -> (m s).2 = s \/ closed (m s).2) -> stays_closed m.
Proof. intros Hm s Hs. destruct (Hm s Hs) as [->|]; done. Qed.

Ltac stays := repeat first
  [ apply stays_on_io | apply stays_on_child | apply stays_on_launcher
  | apply stays_bind; [|intros ?] | case_match
  | apply stays_still; intros ? ?; first [left; reflexivity | right; assumption] ].

Lemma stays_reap_loop fuel deadline : stays_closed (reap_loop fuel deadline).
Proof.
  induction fuel as [|fuel IH]; cbn [reap_loop]; [apply stays_still; by left|].
  unfold reap_if_exited. stays. exact IH.
Qed.

Lemma stays_terminate_child_handle fuel : stays_closed (terminate_child_handle fuel).
Proof.
  unfold terminate_child_handle, reap_if_exited.
  repeat first [apply stays_reap_loop | progress stays].
Qed.

Lemma terminate_child_closes fuel s : closed (terminate_child fuel s).2.
Proof.
  unfold terminate_child.
  assert (Hgen : forall (k : SR -> RM unit), (forall self, stays_closed (k self)) ->
    closed ((modify (sr_set_stdin false) ;! modify (sr_set_records false) ;! let! self := get in k self) s).2).
  { intros k Hk. unfold bind, modify, get. cbn. by apply Hk. }
  apply Hgen. intros self.
  repeat first [apply stays_reap_loop | progress stays].
Qed.

Lemma terminate_and_fail_closes {A} fuel e s :
  wp (terminate_and_fail (A := A) fuel e) (fun r s' => closed s' /\ (r = Err (Code e) \/ r = Err Hang)) s.
Proof.
  pose proof (terminate_child_closes fuel s) as Hc. unfold wp, terminate_and_fail, bind, ignore, fail, raise.
  destruct (terminate_child fuel s) as [[|[]] s']; cbn in *; auto.
Qed.

(** ** the receive loop *)

Definition answers (request : IpcRequest) (response : IpcResponse) : Prop :=
  rs_request_id response = rq_request_id request /\
  IpcResponse_validate_protocol response request = Ok tt.

Definition not_cancelled (response : IpcResponse) : Prop :=
  error_is (rs_result response) (fun error => bool_decide (ie_code error = OperationCancelled)) = false.

(** The three requests that may be cancelled. *)
Definition may_be_cancelled (request : IpcRequest) : Prop :=
  (exists endpoint, rq_payload request = ConnectTransport endpoint) \/
  rq_payload request = SampleHealth \/ rq_payload request = SamplePrivateReachability.

(** *** the conversation

    The calls on the outside world that a request makes until it is answered or given
    up, with what each of them answered. *)

Inductive Event :=
| Clock
| Wrote (line : list Z) (done : bool)
| Received (outcome : RecvOutcome)
| Flag (token : nat) (up : bool).

Inductive talk : X -> list Event -> X -> Prop :=
| talk_nil x : talk x [] x
| talk_clock x now x1 evs x2 : io_now x = (now, x1) -> talk x1 evs x2 -> talk x (Clock :: evs) x2
| talk_wrote x line d x1 evs x2 :
    io_write_line line x = (d, x1) -> talk x1 evs x2 -> talk x (Wrote line d :: evs) x2
| talk_received x timeout o x1 evs x2 :
    io_recv_timeout timeout x = (o, x1) -> talk x1 evs x2 -> talk x (Received o :: evs) x2
| talk_flag x tok up x1 evs x2 :
    io_cancel_requested tok x = (up, x1) -> talk x1 evs x2 -> talk x (Flag tok up :: evs) x2.
Hint Constructors talk : ky.

Lemma talk_app x evs x1 evs' x2 : talk x evs x1 -> talk x1 evs' x2 -> talk x (evs ++ evs') x2.
Proof. induction 1; cbn; eauto with ky. Qed.

(** The request was written to the pipe, whole. *)
Definition sent (evs : list Event) (request : IpcRequest) : Prop :=
  exists line, json_request request = Some line /\ Wrote line true ∈ evs.

(** The response came in over the pipe. *)
Definition heard (evs : list Event) (response : IpcResponse) : Prop :=
  exists record, Received (RecvRecord (Ok record)) ∈ evs /\ json_response record = Some response.

(** The caller's own flag was found raised, for a request that may be cancelled. *)
Definition raised (evs : list Event) (request : IpcRequest) (token : option nat) : Prop :=
  may_be_cancelled request /\ exists tok, token = Some tok /\ Flag tok true ∈ evs.

(** A control request that asks for the cancellation of the request. *)
Definition cancels (request control : IpcRequest) : Prop :=
  rq_payload control = Cancel (rq_request_id request) /\ rq_request_id control <> rq_request_id request.

(** The flag was raised, a control request was sent, and the peer confirmed both: the
    control request was accepted, for this request, and the request itself was answered
    as cancelled. *)
Definition cancel_confirmed (evs : list Event) (request : IpcRequest) (token : option nat) : Prop :=
  raised evs request token /\ exists control accepted primary error,
    cancels request control /\ sent evs control /\
    heard evs accepted /\ answers control accepted /\
    rs_result accepted = Ok (CancelAccepted (rq_request_id request)) /\
    heard evs primary /\ answers request primary /\ rs_result primary = Err error /\
    ie_code error = OperationCancelled /\ ie_retryable error = false.

(** What a request that was sent, in the world [x0], may end with. *)
Definition outcome (x0 : X) (request : IpcRequest) (token : option nat)
    (r : result IpcResponse RtErr) s' : Prop :=
  match r with
  | Ok response => exists evs, talk x0 evs (sr_world s') /\ heard evs response /\ answers request response /\
      not_cancelled response
  | Err (Code e) => (exists evs, talk x0 evs (sr_world s') /\ e = OperationCancelled /\
      cancel_confirmed evs request token) \/ closed s'
  | Err Hang => True
  end.

(** The locals of the loop, after what was said so far. *)
Record flight_ok (request : IpcRequest) (token : option nat) (flight : Flight) (evs : list Event) : Prop := {
  fo_primary : forall response, fl_primary flight = Some response -> heard evs response /\ answers request response;
  fo_cancel : forall control deadline, fl_cancel flight = Some (control, deadline) ->
    cancels request control /\ sent evs control /\ raised evs request token;
  fo_control : forall response, fl_control flight = Some response ->
    exists control deadline, fl_cancel flight = Some (control, deadline) /\
      heard evs response /\ answers control response;
}.

Definition told (x0 : X) (Q : list Event -> Prop) s : Prop := exists evs, talk x0 evs (sr_world s) /\ Q evs.

(** What was said once has been said. *)
Definition lasting (Q : list Event -> Prop) : Prop := forall evs evs', Q evs -> Q (evs ++ evs').

Lemma sent_lasting request : lasting (fun evs => sent evs request).
Proof. intros evs evs' (line & Hl & Hin). exists line. split; [done|]. apply elem_of_app. by left. Qed.
Lemma heard_lasting response : lasting (fun evs => heard evs response).
Proof. intros evs evs' (record & Hin & Hj). exists record. split; [|done]. apply elem_of_app. by left. Qed.
Lemma raised_lasting request token : lasting (fun evs => raised evs request token).
Proof. intros evs evs' (Hm & tok & Ht & Hin). split; [done|]. exists tok. split; [done|]. apply elem_of_app. by left. Qed.
Lemma flight_ok_lasting request token flight : lasting (flight_ok request token flight).
Proof.
  intros evs evs' [Hp Hc Hk]. constructor.
  - intros r Hr. destruct (Hp r Hr). split; [by apply heard_lasting|done].
  - intros c d Hcd. destruct (Hc c d Hcd) as (? & ? & ?).
    split_and!; [done|by apply sent_lasting|by apply raised_lasting].
  - intros r Hr. destruct (Hk r Hr) as (c & d & ? & ? & ?). exists c, d.
    split_and!; [done|by apply heard_lasting|done].
Qed.

Lemma told_more x0 Q s evs s' : lasting Q -> told x0 Q s -> talk (sr_world s) evs (sr_world s') -> told x0 Q s'.
Proof.
  intros HQ (evs0 & Ht & Hev) Hmore. exists (evs0 ++ evs). split; [by eapply talk_app|by apply HQ].
Qed.

Lemma outcome_terminate x0 fuel request token e s :
  wp (terminate_and_fail fuel e) (outcome x0 request token) s.
Proof.
  eapply wp_mono; [apply terminate_and_fail_closes|]. intros r s' [Hc [-> | ->]]; cbn; auto.
Qed.

Lemma file_response_ok request token response flight flight' evs :
  heard evs response -> file_response request response flight = Some flight' ->
  flight_ok request token flight evs -> flight_ok request token flight' evs.
Proof.
  intros Hh. unfold file_response. intros Hf [Hp Hc Hk]. case_bool_decide as Hid.
  - case_match eqn:Eo; [done|]. simplify_eq. apply orb_false_iff in Eo as [Ev _].
    constructor; cbn; [|done|done]. intros r [= <-]. split; [done|]. split; [done|].
    by destruct (IpcResponse_validate_protocol response request) as [[]|].
  - destruct (fl_cancel flight) as [[control deadline]|] eqn:Ec; [|done]. case_bool_decide as Hid'; [|done].
    case_match eqn:Eo; [done|]. simplify_eq. apply orb_false_iff in Eo as [Ev _].
    constructor; cbn; [done..|]. intros r [= <-]. exists control, deadline. split; [done|].
    split; [done|]. split; [done|]. by destruct (IpcResponse_validate_protocol response control) as [[]|].
Qed.

(** *** steps of the conversation *)

(** A method that does no more than talk. *)
Definition talks {A} (m : RM A) : Prop := forall s, exists evs, talk (sr_world s) evs (sr_world (m s).2).

(** Steps that report no error of their own. *)
Definition quiet {A} (m : RM A) : Prop := forall s e, (m s).1 <> Err (Code e).

Lemma clock_talks : talks (on_io io_now).
Proof. intros s. unfold on_io. destruct (io_now (sr_world s)) eqn:E. exists [Clock]. cbn. eauto with ky. Qed.
Lemma clock_quiet : quiet (on_io io_now).
Proof. intros s e. unfold on_io. by destruct (io_now (sr_world s)). Qed.
Hint Resolve clock_talks clock_quiet flight_ok_lasting : ky.

Lemma wp_quiet {A B} (m : RM A) (k : A -> RM B) x0 Q R s :
  quiet m -> talks m -> lasting Q -> told x0 Q s -> (forall s', R (Err Hang) s') ->
  (forall a s', told x0 Q s' -> wp (k a) R s') -> wp (bind m k) R s.
Proof.
  intros Hm Ht HQ Hs Hh Hk. apply wp_bind. unfold wp at 1. specialize (Hm s). destruct (Ht s) as [evs Hevs].
  destruct (m s) as [[a|[e|]] s']; cbn in *; [apply Hk; by eapply told_more|by destruct (Hm e)|apply Hh].
Qed.

(** An ignored method of which something is known. *)
Lemma wp_ignored {A B} (m : RM A) (k : Res A -> RM B) (Post : A -> SR -> Prop) R s :
  wp m (fun r s' => forall a, r = Ok a -> Post a s') s -> (forall s', R (Err Hang) s') ->
  (forall a s', Post a s' -> wp (k (Ok a)) R s') -> (forall e s', wp (k (Err e)) R s') ->
  wp (bind (ignore m) k) R s.
Proof.
  intros Hm Hh Hok Herr. apply wp_bind. unfold wp, ignore in *.
  destruct (m s) as [[a|[e|]] s']; cbn in *; [by apply Hok, Hm|apply Herr|apply Hh].
Qed.

(** Reading the flag. *)
Lemma wp_flag {B} token (k : bool -> RM B) Q s :
  (forall s' evs, talk (sr_world s) evs (sr_world s') -> wp (k false) Q s') ->
  (forall tok x', token = Some tok -> io_cancel_requested tok (sr_world s) = (true, x') ->
     wp (k true) Q (sr_set_world x' s)) ->
  wp (bind (match token with Some token => on_io (io_cancel_requested token) | None => ret false end) k) Q s.
Proof.
  intros Hf Ht. apply wp_bind. destruct token as [tok|]; [|apply (Hf s []); constructor]. unfold wp at 1, on_io.
  destruct (io_cancel_requested tok (sr_world s)) as [[] x'] eqn:E; cbn; [by eapply Ht|].
  apply (Hf _ [Flag tok false]). cbn. eauto with ky.
Qed.

Lemma cancellable_spec request :
  runtime_cancellable (rq_payload request) = true <-> may_be_cancelled request.
Proof.
  unfold may_be_cancelled. split.
  - destruct (rq_payload request); cbn; try done; intros _; eauto.
  - by intros [[endpoint ->]|[-> | ->]].
Qed.

(** Making up a control request says nothing. *)
Lemma cancellation_request_cancels fuel request s :
  wp (cancellation_request fuel (rq_request_id request)) (fun r s' => forall control, r = Ok control ->
    cancels request control /\ sr_world s' = sr_world s) s.
Proof.
  revert s. induction fuel as [|fuel IH]; intros s; cbn [cancellation_request]; [by wp_step|].
  do 2 wp_step. unfold check. do 2 wp_step. destruct (map_err Code _); [|done]. do 2 wp_step.
  case_bool_decide as Hid; [eapply wp_mono; [apply IH|]; cbn; by auto|]. do 2 wp_step. destruct (map_err Code _); [|done]. wp_step.
  by intros control [= <-].
Qed.

Lemma send_request_sends request s :
  wp (send_request request) (fun r s' => forall u, r = Ok u -> exists line,
    json_request request = Some line /\ talk (sr_world s) [Wrote line true] (sr_world s')) s.
Proof.
  unfold send_request, check. do 2 wp_step. destruct (map_err Code _); [|done]. do 2 wp_step.
  destruct (json_request request) as [line|] eqn:Ej; [|done]. cbn.
  case_match; [unfold fail; by wp_step|]. do 2 wp_step. case_match; [unfold fail; by wp_step|]. wp_step.
  unfold wp at 1, on_io. destruct (io_write_line line (sr_world s)) as [[] x'] eqn:E; cbn.
  - wp_step. intros u _. exists line. split; [done|]. cbn. eauto with ky.
  - unfold fail. by wp_step.
Qed.

Lemma receive_heard timeout s :
  wp (receive_record_for timeout) (fun r s' => forall o, r = Ok o -> exists evs,
    talk (sr_world s) evs (sr_world s') /\
    forall record response, o = Some record -> json_response record = Some response -> heard evs response) s.
Proof.
  unfold receive_record_for. do 2 wp_step. case_match; [unfold fail; by wp_step|]. wp_step.
  unfold wp at 1, on_io. destruct (io_recv_timeout timeout (sr_world s)) as [[[record|e]| |] x'] eqn:E; cbn.
  - wp_step. intros o [= <-]. exists [Received (RecvRecord (Ok record))]. cbn. split; [eauto with ky|].
    intros record' response [= <-] Hj. exists record. split; [apply list_elem_of_here|done].
  - done.
  - wp_step. intros o [= <-]. exists [Received RecvTimeout]. cbn. split; [eauto with ky|done].
  - done.
Qed.

(** Asking for a cancellation keeps what is known of the locals. *)
Definition flight_after (x0 : X) (request : IpcRequest) (token : option nat) (r : result Flight RtErr) s' : Prop :=
  match r with
  | Ok flight' => told x0 (flight_ok request token flight') s'
  | Err (Code e) => closed s'
  | Err Hang => True
  end.

Lemma maybe_cancel_flight x0 fuel request token flight s :
  told x0 (flight_ok request token flight) s ->
  wp (maybe_cancel fuel request (runtime_cancellable (rq_payload request)) token flight)
    (flight_after x0 request token) s.
Proof.
  intros Hfl. assert (Ht : forall e s, wp (terminate_and_fail fuel e) (flight_after x0 request token) s).
  { intros e s'. eapply wp_mono; [apply terminate_and_fail_closes|]. by intros r s'' [Hc [-> | ->]]. }
  unfold maybe_cancel. case_match eqn:Eg; [by wp_step|].
  apply orb_false_iff in Eg as [Ec Hc%negb_false_iff]. apply cancellable_spec in Hc.
  apply wp_flag; [intros s1 evs Hevs; cbn [negb]; wp_step; eapply told_more; eauto with ky|].
  intros tok x' Htok Hflag. cbn [negb].
  eapply (wp_ignored _ _ (fun control s' => cancels request control /\ sr_world s' = x'));
    [apply cancellation_request_cancels|done| |intros; apply Ht].
  intros control s2 [Hcan Hw]. eapply wp_ignored; [apply send_request_sends|done| |intros; apply Ht].
  intros u s3 (line & Hline & Hsent). rewrite Hw in Hsent. destruct Hfl as (evs & Hevs & Hfl).
  assert (Htold : told x0 (flight_ok request token {| fl_cancel := Some (control, 0); fl_primary := fl_primary flight;
    fl_control := fl_control flight |}) s3).
  { exists (evs ++ [Flag tok true; Wrote line true]). split.
    { eapply talk_app; [done|]. eapply talk_flag; [done|]. exact Hsent. }
    assert (Hmem : forall e, e ∈ [Flag tok true; Wrote line true] ->
      e ∈ evs ++ [Flag tok true; Wrote line true]) by (intros; apply elem_of_app; by right).
    destruct (flight_ok_lasting _ _ _ _ [Flag tok true; Wrote line true] Hfl) as [Hp _ Hk].
    constructor; cbn; [done| |].
    - intros c d [= <- _]. split_and!; [done|exists line; split; [done|]|split; [done|exists tok; split; [done|]]];
        apply Hmem; set_solver.
    - intros r Hr. destruct (Hk r Hr) as (c & d & Hcd & _). by rewrite Hcd in Ec. }
  eapply wp_quiet; [auto with ky..|exact Htold|done|]. intros now s4 Hs4. wp_steps.
  destruct Hs4 as (evs4 & Hevs4 & [Hp Hca Hk]). exists evs4. split; [done|].
  constructor; cbn; [done| |].
  - intros c d [= <- _]. by eapply Hca.
  - intros r Hr. destruct (Hk r Hr) as (c & d & [= <- _] & ?). eauto.
Qed.

Lemma finish_cancel_pair_outcome x0 fuel request token flight primary control s :
  told x0 (flight_ok request token flight) s ->
  fl_primary flight = Some primary -> fl_control flight = Some control ->
  wp (finish_cancel_pair fuel request primary control) (outcome x0 request token) s.
Proof.
  intros (evs & Hevs & [Hp Hc Hk]) Ep Ek. destruct (Hp _ Ep) as [Hhp Hap].
  destruct (Hk _ Ek) as (ask & d & Ea & Hhc & Hac).
  destruct (Hc _ _ Ea) as (Hcan & Hsent & Hraised). unfold finish_cancel_pair. cbv zeta.
  match goal with |- wp (if ?b then _ else _) _ _ => destruct b eqn:Eb end.
  - apply andb_true_iff in Eb as [Hacc Hcancelled]. unfold fail. wp_steps. left. exists evs. split; [done|].
    split; [done|]. split; [done|]. destruct (rs_result control) as [[]|] eqn:Er; try done.
    apply bool_decide_eq_true in Hacc as ->. unfold error_is in Hcancelled.
    destruct (rs_result primary) as [|error] eqn:Epr; [done|].
    apply andb_true_iff in Hcancelled as [Hcode%bool_decide_eq_true Hretry%negb_true_iff].
    exists ask, control, primary, error. by split_and!.
  - match goal with |- wp (if ?b then _ else _) _ _ => destruct b eqn:Ec end; [|apply outcome_terminate].
    wp_steps. exists evs. split; [done|]. split; [done|]. split; [done|].
    apply andb_true_iff in Ec as [_ Ec]. unfold error_is in Ec at 1. case_match; [done|].
    apply andb_true_iff in Ec as [_ Ec]. by apply negb_true_iff in Ec.
Qed.

Lemma flight_loop_outcome x0 fuel request token deadline : forall flight s,
  told x0 (flight_ok request token flight) s ->
  wp (flight_loop fuel request (runtime_cancellable (rq_payload request)) token deadline flight)
    (outcome x0 request token) s.
Proof.
  induction fuel as [|fuel IH]; intros flight s Hp; cbn [flight_loop]; [done|].
  eapply wp_quiet; [auto with ky..|exact Hp|done|]. intros now s1 Hp1. case_match; [apply outcome_terminate|].
  apply wp_bind. eapply wp_mono; [by apply maybe_cancel_flight|]. intros [flight1|[e|]] s2 Hm; [|by right|done].
  cbn in Hm. eapply wp_quiet; [auto with ky..|exact Hm|done|]. intros now' s3 Hs3.
  destruct (saturating_sub _ now' =? 0); [apply outcome_terminate|].
  eapply wp_ignored; [apply receive_heard|done| |intros; apply outcome_terminate].
  intros o s4 (evs & Hevs & Hheard). assert (Hs4 := told_more _ _ _ _ _ (flight_ok_lasting _ _ _) Hs3 Hevs).
  destruct o as [record|]; [|by apply IH].
  destruct (json_response record) as [response|] eqn:Ej; [|apply outcome_terminate].
  destruct (file_response request response flight1) as [flight2|] eqn:Ef; [|apply outcome_terminate].
  assert (Hp2 : told x0 (flight_ok request token flight2) s4).
  { destruct Hs3 as (evs3 & Ht3 & Hf3). exists (evs3 ++ evs). split; [by eapply talk_app|].
    eapply file_response_ok; [|done|by apply flight_ok_lasting].
    destruct (Hheard _ _ eq_refl Ej) as (rec & Hin & ?). exists rec. split; [apply elem_of_app; by right|done]. }
  assert (Hfinal : forall primary, fl_primary flight2 = Some primary -> not_cancelled primary ->
    outcome x0 request token (Ok primary) s4).
  { intros primary Ep Hn. destruct Hp2 as (evs2 & Ht2 & [Hpr _ _]). exists evs2.
    destruct (Hpr _ Ep). by split_and!. }
  destruct (fl_cancel flight2), (fl_primary flight2) eqn:Ep, (fl_control flight2) eqn:Ek; try by apply IH.
  - by eapply finish_cancel_pair_outcome.
  - destruct (error_is _ _) eqn:En; [apply outcome_terminate|]. wp_steps. by apply Hfinal.
  - destruct (error_is _ _) eqn:En; [apply outcome_terminate|]. wp_steps. by apply Hfinal.
Qed.

(** The whole request: written and then talked about, refused because its flag is up, or
    given up with the pipes closed. *)
Definition conversed request token s (r : result IpcResponse RtErr) s' : Prop :=
  (exists before line x0, json_request request = Some line /\
     talk (sr_world s) (before ++ [Wrote line true]) x0 /\ outcome x0 request token r s') \/
  (exists e, r = Err (Code e) /\ e = OperationCancelled /\ may_be_cancelled request /\ exists tok x',
     token = Some tok /\ io_cancel_requested tok (sr_world s) = (true, x') /\ s' = sr_set_world x' s) \/
  (exists e, r = Err e /\ (e = Hang \/ closed s')).

Lemma request_conversation fuel request token s :
  IpcRequest_validate_protocol request = Ok tt ->
  wp (request_cancellable fuel request token) (conversed request token s) s.
Proof.
  intros Ev. unfold request_cancellable, check. rewrite Ev. do 2 wp_step.
  assert (Hsend : forall s1 evs, talk (sr_world s) evs (sr_world s1) ->
    wp (let! sent := ignore (send_request request) in
      match sent with
      | Err error => terminate_and_fail fuel error
      | Ok _ =>
          let! now := on_io io_now in
          let! self := get in
          flight_loop fuel request (runtime_cancellable (rq_payload request)) token
            (now + sr_response_timeout self) {| fl_cancel := None; fl_primary := None; fl_control := None |}
      end) (conversed request token s) s1).
  { intros s1 evs Hevs. eapply wp_ignored; [apply send_request_sends| | |].
    - intros s'. right; right. eauto.
    - intros u s2 (line & Hline & Hw). eapply wp_mono;
        [|intros r s' Ho; left; exists evs, line, (sr_world s2); split_and!; [done|by eapply talk_app|exact Ho]].
      assert (Hs2 : told (sr_world s2) (flight_ok request token
        {| fl_cancel := None; fl_primary := None; fl_control := None |}) s2)
        by (exists []; split; [constructor|]; by constructor).
      eapply wp_quiet; [auto with ky..|exact Hs2|done|]. intros now s3 Hs3. wp_steps.
      by apply flight_loop_outcome.
    - intros e s2. eapply wp_mono; [apply terminate_and_fail_closes|].
      intros r s' [Hc [-> | ->]]; right; right; eauto. }
  destruct (runtime_cancellable (rq_payload request)) eqn:Ec; cbn [andb].
  - apply wp_flag; [apply Hsend|]. intros tok x' Htok Hflag. unfold fail. wp_step. right; left.
    eexists. split; [done|]. split; [done|]. split; [by apply cancellable_spec|]. eauto 10.
  - destruct token; apply wp_bind, (Hsend s []), talk_nil.
Qed.

(** C20: a request over the pipe is answered by its own response or by none: an
    answer carries the request's id and passes the protocol's checks, and is not
    a cancellation error; an error is a refusal before anything was sent, the
    request's own cancellation, or comes with the pipe closed. *)
Theorem stdio_answers_belong_to_requests fuel request token s :
  let '(r, s') := request_cancellable fuel request token s in
  (* the calls made: the request was written, then [evs] followed *)
  let conversation evs := exists before line, json_request request = Some line /\
    talk (sr_world s) (before ++ Wrote line true :: evs) (sr_world s') in
  match r with
  (* an answer came over the pipe after the request, is a valid response to this very
     request, and no cancelled one *)
  | Ok response => exists evs, conversation evs /\
      heard evs response /\ rs_request_id response = rq_request_id request /\
      IpcResponse_validate_protocol response request = Ok tt /\
      (forall error, rs_result response = Err error -> ie_code error <> OperationCancelled)
  | Err (Code e) =>
      (* a request that is refused has not been sent *)
      (IpcRequest_validate_protocol request = Err e /\ s' = s) \/
      (* nor has one whose flag was up already *)
      (e = OperationCancelled /\ may_be_cancelled request /\ exists tok x',
         token = Some tok /\ io_cancel_requested tok (sr_world s) = (true, x') /\ s' = sr_set_world x' s) \/
      (* a cancellation that was asked for and confirmed *)
      (e = OperationCancelled /\ exists evs, conversation evs /\ cancel_confirmed evs request token) \/
      (* after any other failure the conversation is over *)
      (sr_stdin s' = false /\ sr_records s' = false)
  | Err Hang => True
  end.
Proof.
  destruct (IpcRequest_validate_protocol request) as [[]|e] eqn:Ev.
  2: { unfold request_cancellable, check, lift, bind. rewrite Ev. cbn. by left. }
  assert (Hwp := request_conversation fuel request token s Ev). unfold wp in Hwp.
  assert (Hjoin : forall before line x0 evs x2, talk (sr_world s) (before ++ [Wrote line true]) x0 ->
    talk x0 evs x2 -> talk (sr_world s) (before ++ Wrote line true :: evs) x2).
  { intros before line x0 evs x2 Hb He. pose proof (talk_app _ _ _ _ _ Hb He) as Hall. by rewrite <- app_assoc in Hall. }
  destruct (request_cancellable fuel request token s) as [[response|[e|]] s']; cbn zeta; [..|done].
  - destruct Hwp as [(before & line & x0 & Hj & Hw & evs & Ht & Hh & [Hid Hval] & Hn)|[(e & ? & _)|(e & ? & _)]];
      [|done..].
    exists evs. split; [exists before, line; split; [done|by eapply Hjoin]|]. split_and!; [done..|].
    intros error Herr. unfold not_cancelled, error_is in Hn. rewrite Herr in Hn. by case_bool_decide.
  - right. destruct Hwp as [(before & line & x0 & Hj & Hw & Ho)|[(e' & [= <-] & He)|(e' & [= <-] & [|Hc])]];
      [|by left|done|right; by right].
    destruct Ho as [(evs & Ht & He & Hc)|Ho]; [|right; by right].
    right; left. split; [done|]. exists evs. split; [|done]. exists before, line. split; [done|by eapply Hjoin].
Qed.
End requests.
