(* ===== verification/StdioRuntimeSafety.v ===== *)
(** * StdioRuntimeSafety: the stdio runtime keeps the contract of the controller

    The framing round trip of [StdioRuntime]; the laws of process handles, launchers
    and pipes; and the instance that makes the runtime, over any launcher with these
    laws, a runtime the production controller may rely on ([RuntimeLaws]). *)

From Stdlib Require Import Ascii String.
From S2P Require Import Prelude Text NetState Config Ipc Sidecar RouteHelperV3 ProductionSession.
From S2P Require Import ProductionController ProductionControllerSafety SidecarTrust StdioRuntime.

(** ** framing *)

(** A line the writer sends: no newline inside, and within the limit. *)
Definition sendable (record : list Z) : Prop :=
  10 ∉ record /\ Z.of_nat (length record) < MAX_RECORD_SIZE.

Lemma read_records_line record rest : forall pre,
  10 ∉ record -> Z.of_nat (length pre + length record) < MAX_RECORD_SIZE ->
  read_records_from pre (record ++ 10 :: rest) = Ok (pre ++ record) :: read_records_from [] rest.
Proof.
  unfold MAX_RECORD_SIZE. induction record as [|b record IH]; intros pre Hn Hlen; cbn [app read_records_from].
  - rewrite length_app. cbn [length]. rewrite app_nil_r.
    destruct (Z.ltb_spec MAX_RECORD_SIZE (Z.of_nat (length pre + 1))) as [Hlt|_]; [|done].
    unfold MAX_RECORD_SIZE in Hlt. cbn [length] in Hlen. lia.
  - apply not_elem_of_cons in Hn as [Hb Hn]. rewrite (proj2 (Z.eqb_neq _ _)) by done.
    rewrite length_app. cbn [length] in *.
    destruct (Z.eqb_spec (Z.of_nat (length pre + 1)) (MAX_RECORD_SIZE + 1)) as [Heq|_].
    { unfold MAX_RECORD_SIZE in Heq. lia. }
    rewrite IH; [by rewrite <- app_assoc|done|]. rewrite length_app. cbn [length]. lia.
Qed.

Lemma read_records_bounded stream : forall pre,
  Z.of_nat (length pre) <= MAX_RECORD_SIZE -> 10 ∉ pre ->
  Forall (fun r => match r with Ok record => sendable record | Err _ => True end)
    (read_records_from pre stream).
Proof.
  unfold sendable, MAX_RECORD_SIZE. induction stream as [|b stream IH]; intros pre Hlen Hn; cbn [read_records_from].
  - destruct pre; repeat constructor.
  - rewrite length_app. cbn [length]. destruct (Z.eqb_spec b 10) as [->|Hb].
    + destruct (Z.ltb_spec MAX_RECORD_SIZE (Z.of_nat (length pre + 1))) as [_|Hlt]; [by repeat constructor|].
      unfold MAX_RECORD_SIZE in Hlt. constructor; [split; [done|lia]|]. apply IH; [cbn; lia|set_solver].
    + destruct (Z.eqb_spec (Z.of_nat (length pre + 1)) (MAX_RECORD_SIZE + 1)) as [_|Hne]; [by repeat constructor|].
      unfold MAX_RECORD_SIZE in Hne. apply IH; [rewrite length_app; cbn; lia|set_solver].
Qed.

Lemma read_records_lines records rest :
  Forall sendable records ->
  read_records (concat (map (fun r => r ++ [10]) records) ++ rest) = map Ok records ++ read_records rest.
Proof.
  unfold read_records. induction 1 as [|r records [Hn Hlen] _ IH]; [done|]. cbn [map concat].
  rewrite <- !app_assoc. cbn [app]. rewrite read_records_line by done. cbn. by rewrite IH.
Qed.

(** Records written to the pipe as lines are read back exactly, an unfinished
    last line is an error and not a record, and whatever is read as a record
    could have been sent. *)
Theorem records_round_trip records :
  Forall sendable records ->
  (* what was written line by line is what is read *)
  read_records (concat (map (fun r => r ++ [10]) records)) = map Ok records /\
  (* an unfinished line after them is an error, never a record *)
  (forall rest, rest <> [] -> 10 ∉ rest ->
     read_records (concat (map (fun r => r ++ [10]) records) ++ rest)
       = map Ok records ++ [Err SidecarUnavailable]) /\
  (* and whatever is read, a record is a line within the limit *)
  (forall stream record, Ok record ∈ read_records stream -> sendable record).
Proof.
  intros Hs. split_and!.
  - pose proof (read_records_lines records [] Hs) as Hr. by rewrite !app_nil_r in Hr.
  - intros rest Hne Hn. rewrite read_records_lines by done. f_equal. unfold read_records.
    assert (Hgen : forall pre, pre ++ rest <> [] ->
      read_records_from pre rest = [Err SidecarUnavailable]).
    { clear Hne. induction rest as [|b rest IH]; intros pre Hpre; cbn [read_records_from].
      - rewrite app_nil_r in Hpre. by destruct pre.
      - apply not_elem_of_cons in Hn as [Hb Hn]. rewrite (proj2 (Z.eqb_neq _ _)) by done.
        case_match; [done|]. apply IH; [done|]. rewrite <- app_assoc. by destruct pre. }
    by apply Hgen.
  - intros stream record Hin. pose proof (read_records_bounded stream []) as Hb.
    rewrite Forall_forall in Hb. apply (Hb ltac:(done) ltac:(set_solver) (Ok record) Hin).
Qed.

(** ** the laws of processes *)

(** [alive x]: a child of this runtime may be alive in the world.  [owns p x]: what the
    handle [p] reports is about that child.  [holds l x]: the child, if there is one,
    is in the hands of the launcher (prepared before [launch]); [spent l]: it is not. *)
Class ProcessGhost (X L P : Type) := {
  alive : X -> bool;
  owns : P -> X -> Prop;
  holds : L -> X -> Prop;
  spent : L -> Prop;
}.

(** A step of the world that launches nothing and leaves handles valid. *)
Definition calm {X L P} `{ProcessGhost X L P} {A} (f : X -> A * X) : Prop :=
  forall x, (alive x = false -> alive (f x).2 = false) /\
            (forall p, owns p x -> owns p (f x).2) /\
            (forall l, holds l x -> holds l (f x).2).

(** The laws are the documented ones: a handle reports an exit only after the child
    was waited for; [launch] hands over the handle of the child; [cancel_prepared]
    succeeds only when the prepared child is gone; nothing else makes a child. *)
Class ProcessLaws (X L P : Type) `{StdioIo X, SidecarProcessControl X P,
  StdioSidecarLauncher X L P, TrustOs X} := {
  #[global] process_ghost :: ProcessGhost X L P;
  law_now_calm : calm io_now;
  law_sleep_calm : forall d, calm (io_sleep d);
  law_write_calm : forall b, calm (io_write_line b);
  law_recv_calm : forall d, calm (io_recv_timeout d);
  law_reader_calm : calm io_spawn_reader;
  law_flag_calm : forall t, calm (io_cancel_requested t);
  law_trust_calm : forall path manifest, calm (verify_macos_sidecar path manifest);
  law_take_stdin : forall p x, owns p x -> owns (proc_take_stdin p).2 x;
  law_take_stdout : forall p x, owns p x -> owns (proc_take_stdout p).2 x;
  law_try_wait : forall p x, owns p x ->
    let '(r, (p', x')) := proc_try_wait_status (p, x) in
    owns p' x' /\ (forall success, r = Ok (Some success) -> alive x' = false);
  law_kill : forall p x, owns p x ->
    let '(_, (p', x')) := proc_kill_owned (p, x) in owns p' x';
  law_launch : forall generation l x, holds l x ->
    let '(r, (l', x')) := launcher_launch generation (l, x) in
    match r with
    | Ok p => owns p x' /\ spent l'
    | Err _ => holds l' x'
    end;
  law_cancel_prepared : forall l x, holds l x ->
    let '(r, (l', x')) := launcher_cancel_prepared (l, x) in
    (r = Ok tt -> alive x' = false) /\ holds l' x';
  law_spent : forall l x, spent l -> alive x = false -> holds l x;
}.

Section safety.
Context {X L P : Type} `{ProcessLaws X L P} `{SidecarJson} `{Base64Lib}.
Notation SR := (StdioSidecarRuntime X L P).
Notation RM A := (M SR RtErr A).
Implicit Types s : SR.

(** The handle, if there is one, is for the child; without one, only the launcher may
    have a child. *)
Definition child_wf s : Prop :=
  match sr_child s with
  | Some p => owns p (sr_world s) /\ spent (sr_launcher s)
  | None => holds (sr_launcher s) (sr_world s)
  end.

Definition wf s : Prop := child_wf s /\ is_some (sr_generation s) = is_some (sr_child s).

(** ** operations that keep the invariant and launch nothing *)

Definition keeps {A} (m : RM A) : Prop :=
  forall s, wf s -> wf (m s).2 /\ sr_next_generation (m s).2 = sr_next_generation s.

Lemma keeps_wp {A} (m : RM A) s :
  keeps m -> wf s ->
  wp m (fun _ s' => wf s' /\ sr_next_generation s' = sr_next_generation s) s.
Proof. intros Hm. apply Hm. Qed.

Lemma keeps_ret {A} (a : A) : keeps (ret a).
Proof. by intros s. Qed.
Lemma keeps_raise {A} e : keeps (raise (A := A) e).
Proof. by intros s. Qed.
Lemma keeps_fail {A} e : keeps (fail (A := A) e).
Proof. by intros s. Qed.
Lemma keeps_check {A} (r : Res A) : keeps (check r).
Proof. by intros s. Qed.
Lemma keeps_get : keeps get.
Proof. by intros s. Qed.
Lemma keeps_bind {A B} (m : RM A) (k : A -> RM B) :
  keeps m -> (forall a, keeps (k a)) -> keeps (bind m k).
Proof.
  intros Hm Hk s Hs. unfold bind. specialize (Hm s Hs). destruct (m s) as [[a|e] s']; [|done].
  destruct Hm as [Hs' <-]. by apply Hk.
Qed.
Lemma keeps_ignore {A} (m : RM A) : keeps m -> keeps (ignore m).
Proof.
  intros Hm s Hs. unfold ignore. specialize (Hm s Hs). by destruct (m s) as [[|[]] s'].
Qed.
Lemma keeps_modify (f : SR -> SR) :
  (forall s, sr_child (f s) = sr_child s /\ sr_world (f s) = sr_world s /\
     sr_launcher (f s) = sr_launcher s /\ sr_generation (f s) = sr_generation s /\
     sr_next_generation (f s) = sr_next_generation s) ->
  keeps (modify f).
Proof.
  intros Hf s Hs. unfold modify. cbn. destruct (Hf s) as (H1' & H2' & H3' & H4' & H5').
  split; [|done]. unfold wf, child_wf in *. by rewrite H1', H2', H3', H4'.
Qed.

Lemma child_wf_world {A} (f : X -> A * X) s :
  calm f -> child_wf s -> child_wf (sr_set_world (f (sr_world s)).2 s).
Proof.
  intros Hf Hc. destruct (Hf (sr_world s)) as (_ & Ho & Hh). unfold child_wf in *. cbn.
  destruct (sr_child s); [naive_solver|auto].
Qed.

(** Whatever the slot holds, without a child alive it may be emptied. *)
Lemma child_wf_holds s :
  child_wf s -> alive (sr_world s) = false -> holds (sr_launcher s) (sr_world s).
Proof.
  intros Hc Ha. unfold child_wf in Hc. destruct (sr_child s); [|done]. destruct Hc. by apply law_spent.
Qed.

Lemma keeps_on_io {A} (f : X -> A * X) : calm f -> keeps (on_io f).
Proof.
  intros Hf s [Hc Hg]. pose proof (child_wf_world f s Hf Hc) as Hw. unfold on_io.
  by destruct (f (sr_world s)).
Qed.

Lemma keeps_on_trust {A} (f : Meth X A) : calm f -> keeps (on_trust f).
Proof.
  intros Hf s [Hc Hg]. pose proof (child_wf_world f s Hf Hc) as Hw. unfold on_trust.
  by destruct (f (sr_world s)).
Qed.

Lemma keeps_on_child {A} (m : M (P * X) IoErrorKind A) :
  (forall p x, owns p x -> let '(_, (p', x')) := m (p, x) in owns p' x') -> keeps (on_child m).
Proof.
  intros Hm s Hs. pose proof Hs as [Hc Hg]. unfold on_child.
  destruct (sr_child s) as [p|] eqn:Ep; [|done].
  unfold child_wf in Hc. rewrite Ep in Hc. destruct Hc as [Ho Hp].
  specialize (Hm p (sr_world s) Ho). destruct (m (p, sr_world s)) as [r [p' x]]. cbn.
  split; [|done]. split; [done|]. exact Hg.
Qed.

Lemma keeps_take_part (take : P -> bool * P) :
  (forall p x, owns p x -> owns (take p).2 x) -> keeps (take_child_part take).
Proof.
  intros Ht s Hs. pose proof Hs as [Hc Hg]. unfold take_child_part.
  destruct (sr_child s) as [p|] eqn:Ep; [|done].
  unfold child_wf in Hc. rewrite Ep in Hc. destruct Hc as [Ho Hp].
  specialize (Ht p (sr_world s) Ho). destruct (take p) as [b p']. cbn.
  split; [|done]. split; [done|]. exact Hg.
Qed.

(** ** termination of the child *)

(** The state while the handle is being reaped: the generation is not yet cleared. *)
Definition same_slot s s' : Prop :=
  sr_generation s' = sr_generation s /\ sr_next_generation s' = sr_next_generation s.

Definition reaped s : Prop :=
  sr_child s = None /\ alive (sr_world s) = false /\ holds (sr_launcher s) (sr_world s).

Lemma reaped_child_wf s : reaped s -> child_wf s.
Proof. intros (Hc & _ & Hh). unfold child_wf. by rewrite Hc. Qed.

Lemma on_io_slot {A} (f : X -> A * X) s :
  calm f -> child_wf s ->
  wp (on_io f) (fun r s' => child_wf s' /\ same_slot s s' /\ sr_child s' = sr_child s /\
    exists a, r = Ok a) s.
Proof.
  intros Hf Hc. pose proof (child_wf_world f s Hf Hc) as Hw. unfold wp, on_io.
  destruct (f (sr_world s)) as [a x]. refine (conj Hw (conj _ (conj eq_refl _))); [done|by eexists].
Qed.

Lemma reap_if_exited_slot s p :
  child_wf s -> sr_child s = Some p ->
  wp reap_if_exited (fun r s' => child_wf s' /\ same_slot s s' /\
    match r with
    | Ok true => reaped s'
    | Ok false => is_some (sr_child s') = true
    | Err _ => False
    end) s.
Proof.
  intros Hc Hp. unfold reap_if_exited. wp_steps. unfold wp at 1, on_child. rewrite Hp.
  unfold child_wf in Hc. rewrite Hp in Hc. destruct Hc as [Ho Hpr].
  pose proof (law_try_wait p (sr_world s) Ho) as Hl.
  destruct (proc_try_wait_status (p, sr_world s)) as [r [p' x]]. cbn [fst snd]. destruct Hl as [Ho' Hex].
  destruct r as [[b|]|e]; wp_steps; try by split_and!.
  assert (Hr : reaped (sr_set_child None (sr_set_child (Some p') (sr_set_world x s)))).
  { pose proof (Hex b eq_refl) as Ha. exact (conj eq_refl (conj Ha (law_spent _ _ Hpr Ha))). }
  exact (conj (reaped_child_wf _ Hr) (conj (conj eq_refl eq_refl) Hr)).
Qed.

Definition reap_result s (r : result unit RtErr) s' : Prop :=
  child_wf s' /\ same_slot s s' /\
  match r with Ok _ => reaped s' | Err _ => is_some (sr_child s') = true end.

Lemma same_slot_trans s s' s'' : same_slot s s' -> same_slot s' s'' -> same_slot s s''.
Proof. intros [? ?] [? ?]. split; congruence. Qed.

Lemma reap_loop_slot fuel deadline : forall s p,
  child_wf s -> sr_child s = Some p -> wp (reap_loop fuel deadline) (reap_result s) s.
Proof.
  induction fuel as [|fuel IH]; intros s p Hc Hp; cbn [reap_loop].
  { wp_steps. refine (conj Hc (conj _ _)); [done|by rewrite Hp]. }
  wp_steps. eapply wp_mono; [by eapply reap_if_exited_slot|]. cbn beta.
  intros [[|]|e] s1 (Hc1 & Hs1 & Hr1); wp_steps; [exact (conj Hc1 (conj Hs1 Hr1))| |done].
  eapply wp_mono; [apply on_io_slot; [apply law_now_calm|done]|]. cbn beta.
  intros r s2 (Hc2 & Hs2 & Hp2 & now & ->). pose proof (same_slot_trans _ _ _ Hs1 Hs2) as Hs12.
  case_match; unfold fail; wp_steps; [refine (conj Hc2 (conj Hs12 _)); by rewrite Hp2|].
  eapply wp_mono; [apply on_io_slot; [apply law_sleep_calm|done]|]. cbn beta.
  intros r s3 (Hc3 & Hs3 & Hp3 & [] & ->). rewrite Hp2 in Hp3.
  destruct (sr_child s1) as [p1|] eqn:Ep1; [|done].
  eapply wp_mono; [by eapply IH|]. cbn beta. intros r s4 (Hc4 & Hs4 & Hr4).
  refine (conj Hc4 (conj _ Hr4)). by eapply same_slot_trans; [|eapply same_slot_trans].
Qed.

Lemma terminate_child_handle_slot fuel s p :
  child_wf s -> sr_child s = Some p -> wp (terminate_child_handle fuel) (reap_result s) s.
Proof.
  intros Hc Hp. unfold terminate_child_handle. wp_steps. rewrite Hp. cbn [is_none is_some negb]. wp_steps.
  eapply wp_mono; [by eapply reap_if_exited_slot|]. cbn beta.
  intros [[|]|e] s1 (Hc1 & Hs1 & Hr1); wp_steps; [exact (conj Hc1 (conj Hs1 Hr1))| |done].
  destruct (sr_child s1) as [p1|] eqn:Ep1; [|done].
  unfold wp at 1, on_child. rewrite Ep1. unfold child_wf in Hc1. rewrite Ep1 in Hc1.
  destruct Hc1 as [Ho1 Hpr1]. pose proof (law_kill p1 (sr_world s1) Ho1) as Hk.
  destruct (proc_kill_owned (p1, sr_world s1)) as [r [p2 x2]]. cbn [fst snd]. wp_steps.
  eapply wp_mono; [apply on_io_slot; [apply law_now_calm|exact (conj Hk Hpr1)]|]. cbn beta.
  intros r' s2 (Hc2 & Hs2 & Hp2 & now & ->). cbn in Hp2.
  eapply wp_mono; [exact (reap_loop_slot _ _ s2 p2 Hc2 Hp2)|]. cbn beta. intros r'' s3 (Hc3 & Hs3 & Hr3).
  refine (conj Hc3 (conj _ Hr3)). by eapply same_slot_trans; [|eapply same_slot_trans].
Qed.

Lemma keeps_cancel_prepared s :
  wf s -> sr_child s = None ->
  wp (on_launcher launcher_cancel_prepared) (fun r s' => wf s' /\
    sr_next_generation s' = sr_next_generation s /\ (r = Ok tt -> alive (sr_world s') = false)) s.
Proof.
  intros [Hc Hg] Ep. unfold child_wf in Hc. rewrite Ep in Hc, Hg.
  pose proof (law_cancel_prepared _ _ Hc) as Hl. unfold wp, on_launcher.
  destruct (launcher_cancel_prepared _) as [r [l x]]. cbn.
  refine (conj (conj _ _) (conj eq_refl _)).
  - unfold child_wf. cbn. rewrite Ep. apply Hl.
  - cbn. by rewrite Ep.
  - destruct r as [[]|]; cbn; intros [=]. by apply Hl.
Qed.

(** Terminating: on success there is no child any more. *)
Lemma terminate_child_keeps fuel s :
  wf s ->
  wp (terminate_child fuel) (fun r s' => wf s' /\ sr_next_generation s' = sr_next_generation s /\
    (r = Ok tt -> alive (sr_world s') = false)) s.
Proof.
  intros Hwf. unfold terminate_child. wp_steps.
  set (s1 := sr_set_records false (sr_set_stdin false s)). assert (Hwf1 : wf s1) by done.
  change (sr_generation s1) with (sr_generation s). change (sr_child s1) with (sr_child s).
  destruct Hwf as [Hc Hg]. destruct (sr_generation s) as [g|] eqn:Eg.
  - destruct (sr_child s) as [p|] eqn:Ep; [|done].
    case_match; unfold fail; wp_steps; [by refine (conj Hwf1 (conj eq_refl _))|].
    eapply wp_mono; [by eapply (terminate_child_handle_slot fuel s1 p); [apply Hwf1|]|]. cbn beta.
    intros [[]|e] s2 (Hc2 & [Hg2 Hn2] & Hr2); wp_steps.
    + destruct Hr2 as (Hr2 & Ha2 & _). refine (conj (conj _ _) (conj Hn2 _)); [done|cbn; by rewrite Hr2|done].
    + refine (conj (conj Hc2 _) (conj Hn2 _)); [|done]. rewrite Hg2, Hr2. cbn. by rewrite Eg.
  - destruct (sr_child s) as [p|] eqn:Ep; [done|]. cbn [is_none is_some negb]. wp_steps.
    eapply wp_mono; [by apply (keeps_cancel_prepared s1)|]. done.
Qed.

Lemma keeps_terminate_and_fail {A} fuel e : keeps (terminate_and_fail (A := A) fuel e).
Proof.
  intros s Hs. pose proof (terminate_child_keeps fuel s Hs) as (Hw & Hn & _).
  unfold terminate_and_fail, bind, ignore, fail, raise.
  by destruct (terminate_child fuel s) as [[|[]] s'].
Qed.

Lemma keeps_try_wait : keeps (on_child proc_try_wait_status).
Proof.
  apply keeps_on_child. intros p x Ho. pose proof (law_try_wait p x Ho) as Hl.
  destruct (proc_try_wait_status (p, x)) as [r [p' x']]. by destruct Hl.
Qed.

Hint Resolve law_now_calm law_sleep_calm law_write_calm law_recv_calm law_reader_calm
  law_flag_calm law_trust_calm law_take_stdin law_take_stdout : ky.

(** Walk through a method made of calls that keep the invariant. *)
Ltac keeps_step :=
  first
  [ apply keeps_ret | apply keeps_raise | apply keeps_fail | apply keeps_check | apply keeps_get
  | apply keeps_terminate_and_fail | apply keeps_try_wait
  | apply keeps_on_io; solve [auto with ky]
  | apply keeps_on_trust; solve [auto with ky]
  | apply keeps_take_part; solve [auto with ky]
  | apply keeps_modify; done
  | apply keeps_ignore
  | apply keeps_bind; [|intros ?]
  | case_match ].
Ltac keeps_auto := repeat keeps_step.

Lemma keeps_receive_record_for d : keeps (receive_record_for d).
Proof. unfold receive_record_for. keeps_auto. Qed.

Lemma keeps_send_request request : keeps (send_request request).
Proof. unfold send_request. keeps_auto. Qed.

Lemma keeps_cancellation_request fuel target : keeps (cancellation_request fuel target).
Proof. induction fuel as [|fuel IH]; cbn [cancellation_request]; keeps_auto; done. Qed.

Lemma keeps_finish_cancel_pair fuel request primary control :
  keeps (finish_cancel_pair fuel request primary control).
Proof. unfold finish_cancel_pair. keeps_auto. Qed.

Lemma keeps_maybe_cancel fuel request cancellable token flight :
  keeps (maybe_cancel fuel request cancellable token flight).
Proof.
  unfold maybe_cancel. keeps_auto;
    first [apply keeps_cancellation_request | apply keeps_send_request].
Qed.

Lemma keeps_flight_loop fuel request cancellable token deadline : forall flight,
  keeps (flight_loop fuel request cancellable token deadline flight).
Proof.
  induction fuel as [|fuel IH]; intros flight; cbn [flight_loop]; keeps_auto;
    first [apply keeps_maybe_cancel | apply keeps_receive_record_for
          | apply keeps_finish_cancel_pair | apply IH].
Qed.

Lemma keeps_request_cancellable fuel request token : keeps (request_cancellable fuel request token).
Proof.
  unfold request_cancellable. keeps_auto; first [apply keeps_send_request | apply keeps_flight_loop].
Qed.

Lemma keeps_bootstrap fuel context : keeps (bootstrap fuel context).
Proof. unfold bootstrap, receive_record. keeps_auto; apply keeps_receive_record_for. Qed.

Lemma keeps_verify_trust : keeps verify_trust.
Proof. unfold verify_trust. keeps_auto. Qed.

(** ** status and stop *)

(** The handle has just reported the exit of its child. *)
Lemma forget_child_wf s :
  wf s -> alive (sr_world s) = false ->
  wp forget_child (fun r s' => r = Ok tt /\ wf s' /\ reaped s' /\
    sr_next_generation s' = sr_next_generation s) s.
Proof.
  intros [Hc _] Ha. pose proof (child_wf_holds s Hc Ha) as Hh. unfold forget_child. wp_steps.
  by refine (conj eq_refl (conj (conj Hh eq_refl) (conj (conj eq_refl (conj Ha Hh)) eq_refl))).
Qed.

(** Asking the child whether it has exited. *)
Lemma try_wait_wf s :
  wf s ->
  wp (on_child proc_try_wait_status) (fun r s' => wf s' /\
    sr_next_generation s' = sr_next_generation s /\
    (forall b, r = Ok (Some (Ok (Some b))) -> alive (sr_world s') = false)) s.
Proof.
  intros Hs. pose proof (keeps_try_wait s Hs) as [Hw Hn]. unfold wp.
  refine (conj Hw (conj Hn _)). unfold on_child. destruct Hs as [Hc _]. unfold child_wf in Hc.
  destruct (sr_child s) as [p|]; [|done]. destruct Hc as [Ho _].
  pose proof (law_try_wait p (sr_world s) Ho) as Hl.
  destruct (proc_try_wait_status (p, sr_world s)) as [r [p' x']]. cbn.
  intros b [= ->]. destruct Hl as [_ Hex]. by eapply Hex.
Qed.

Lemma stdio_status_wf s :
  wf s ->
  wp stdio_status (fun r s' => wf s' /\ sr_next_generation s' = sr_next_generation s /\
    (forall b, r = Ok (ProcessExited b) -> reaped s')) s.
Proof.
  intros Hs. unfold stdio_status, check, lift. wp_steps.
  destruct (sr_child s) as [p|]; cbn; wp_steps; [|done].
  destruct (sr_generation s) as [g|]; cbn; wp_steps; [|done].
  case_match; unfold fail; wp_steps; [done|].
  eapply wp_mono; [by apply try_wait_wf|]. cbn beta.
  intros r s1 (Hw & Hn & Hex). destruct r as [[[[b|]|e]|]|e]; wp_steps; try done.
  eapply wp_mono; [by eapply forget_child_wf; [|eapply Hex]|]. cbn beta.
  intros r s2 (-> & Hw2 & Hr2 & Hn2). wp_steps. by rewrite Hn2.
Qed.

Lemma graceful_loop_wf fuel deadline : forall s,
  wf s ->
  wp (graceful_loop fuel deadline) (fun r s' => wf s' /\
    sr_next_generation s' = sr_next_generation s /\ (r = Ok true -> reaped s')) s.
Proof.
  induction fuel as [|fuel IH]; intros s Hs; cbn [graceful_loop]; wp_steps; [done|].
  eapply wp_mono; [exact (keeps_wp _ s (keeps_on_io io_now law_now_calm) Hs)|]. cbn beta.
  intros [now|e] s1 [Hw1 Hn1]; wp_steps; [|done]. case_match; wp_steps; [done|].
  eapply wp_mono; [by apply try_wait_wf|]. cbn beta. intros r s2 (Hw2 & Hn2 & Hex).
  assert (Hlast : wp (on_io (io_sleep 10) ;! graceful_loop fuel deadline) (fun r s' => wf s' /\
    sr_next_generation s' = sr_next_generation s /\ (r = Ok true -> reaped s')) s2).
  { wp_steps. eapply wp_mono; [exact (keeps_wp _ s2 (keeps_on_io _ (law_sleep_calm 10)) Hw2)|]. cbn beta.
    intros [[]|e] s3 [Hw3 Hn3]; [|by rewrite Hn3, Hn2].
    eapply wp_mono; [by apply IH|]. cbn beta. intros r3 s4 (Hw4 & Hn4 & Hr4).
    by rewrite Hn4, Hn3, Hn2. }
  destruct r as [[[[b|]|e]|]|e]; try exact Hlast; [|by rewrite Hn2].
  wp_steps. eapply wp_mono; [by eapply forget_child_wf; [|eapply Hex]|]. cbn beta.
  intros r s3 (-> & Hw3 & Hr3 & Hn3). wp_steps. by rewrite Hn3, Hn2.
Qed.

Lemma stdio_stop_wf fuel s :
  wf s ->
  wp (stdio_stop fuel) (fun r s' => wf s' /\ sr_next_generation s' = sr_next_generation s /\
    (r = Ok tt -> alive (sr_world s') = false)) s.
Proof.
  intros Hs. unfold stdio_stop. wp_steps.
  destruct (sr_child s) as [p|] eqn:Ep; cbn [is_none is_some negb]; [|by apply keeps_cancel_prepared].
  wp_steps. eapply wp_mono;
    [exact (keeps_wp _ s (keeps_ignore _ (keeps_request_cancellable fuel shutdown_request None)) Hs)|]. cbn beta.
  intros [answer|e] s1 [Hw1 Hn1]; [|by rewrite Hn1].
  assert (Hterm : forall s2, wf s2 -> sr_next_generation s2 = sr_next_generation s ->
    wp (terminate_child fuel) (fun r s' => wf s' /\ sr_next_generation s' = sr_next_generation s /\
      (r = Ok tt -> alive (sr_world s') = false)) s2).
  { intros s2 Hw2 Hn2. rewrite <- Hn2. by apply terminate_child_keeps. }
  wp_steps. destruct (is_ok answer); wp_steps; [|by apply Hterm].
  eapply wp_mono; [exact (keeps_wp _ s1 (keeps_on_io io_now law_now_calm) Hw1)|]. cbn beta.
  intros [now|e] s2 [Hw2 Hn2]; wp_steps; [|by rewrite Hn2, Hn1].
  eapply wp_mono; [by apply graceful_loop_wf|]. cbn beta.
  intros [[|]|e] s3 (Hw3 & Hn3 & Hr3); wp_steps; rewrite ?Hn3, ?Hn2, ?Hn1; [|by apply Hterm; congruence|done].
  split_and!; [done|done|]. intros _. by apply Hr3.
Qed.

(** ** starting *)

(** At most one launch. *)
Definition one_launch s {A} (r : result A RtErr) s' : Prop :=
  wf s' /\ sr_next_generation s <= sr_next_generation s' <= sr_next_generation s + 1.

Lemma keeps_one_launch {A} (m : RM A) s s1 :
  keeps m -> wf s1 -> sr_next_generation s <= sr_next_generation s1 <= sr_next_generation s + 1 ->
  wp m (one_launch s) s1.
Proof. intros Hm Hw Hn. destruct (Hm s1 Hw) as [Hw' Hn']. split; [done|]. by rewrite Hn'. Qed.

Lemma verify_trust_child s : sr_child (verify_trust s).2 = sr_child s.
Proof.
  unfold verify_trust, bind, get, ret, on_trust. destruct (sr_trust s); [|done].
  by destruct (verify_macos_sidecar _ _ (sr_world s)).
Qed.

(** The launch itself, from a runtime without a child. *)
Lemma launch_wf generation s :
  wf s -> sr_child s = None ->
  wp (on_launcher (launcher_launch generation)) (fun r s' =>
    sr_next_generation s' = sr_next_generation s /\
    match r with
    | Ok p => forall g, wf (sr_set_child (Some p) (sr_set_generation (Some g) s'))
    | Err _ => wf s'
    end) s.
Proof.
  intros [Hc Hg] Ep. unfold child_wf in Hc. rewrite Ep in Hc, Hg.
  pose proof (law_launch generation _ _ Hc) as Hl. unfold wp, on_launcher.
  destruct (launcher_launch generation _) as [r [l x]]. cbn. split; [done|].
  destruct r as [p|e]; cbn; [done|]. split; [|cbn; by rewrite Ep].
  unfold child_wf. cbn. by rewrite Ep.
Qed.

Lemma start_record_wf fuel context s : wf s -> wp (start_record fuel context) (one_launch s) s.
Proof.
  intros Hs. unfold start_record, fail, check, lift, checked_add. wp_steps.
  case_match eqn:Eg; wp_steps; [split; [done|lia]|]. apply orb_false_iff in Eg as [Ec _].
  pose proof (keeps_wp _ s keeps_verify_trust Hs) as Hv. pose proof (verify_trust_child s) as Hvc.
  unfold wp at 1. unfold wp in Hv. destruct (verify_trust s) as [[[]|e] s1]; cbn in *;
    destruct Hv as [Hw1 Hn1]; [|split; [done|lia]].
  case_match; cbn; wp_steps; [unfold wp at 1; cbn; wp_steps|unfold wp; cbn; split; [done|lia]].
  set (s2 := sr_set_next_generation _ s1). eapply wp_mono; [apply (launch_wf _ s2 Hw1)|].
  { cbn. rewrite Hvc. by destruct (sr_child s). }
  cbn beta. intros [p|e] s3 [Hn3 Hw3]; cbn in Hn3; wp_steps; [|split; [done|lia]].
  case_match; apply keeps_one_launch; auto using keeps_terminate_and_fail, keeps_bootstrap; cbn; lia.
Qed.

Lemma wp_ignore {A} (m : RM A) (Q : result (Res A) RtErr -> SR -> Prop) s :
  wp m (fun r s' => match r with
    | Ok a => Q (Ok (Ok a)) s'
    | Err (Code e) => Q (Ok (Err e)) s'
    | Err Hang => Q (Err Hang) s'
    end) s -> wp (ignore m) Q s.
Proof. unfold wp, ignore. by destruct (m s) as [[|[]] s']. Qed.

Lemma stdio_start_wf fuel context s : wf s -> wp (stdio_start fuel context) (one_launch s) s.
Proof.
  intros Hs. unfold stdio_start. wp_steps. apply wp_ignore. wp_steps.
  eapply wp_mono; [by apply start_record_wf|]. cbn beta.
  intros [record|[e|]] s1 [Hw1 Hn1]; [unfold check, lift, wp at 1; destruct (json_handshake record)| |];
    cbn; wp_steps; try done; apply keeps_one_launch; auto using keeps_terminate_and_fail.
Qed.

(** ** the contract of the controller *)

(** With [alive] as the child and the generation counter as the number of launches,
    the adapter satisfies every law the controller's theorems rest on. *)
#[export] Instance stdio_runtime_laws fuel :
  @RuntimeLaws SR (AsyncStdioSidecarRuntime fuel).
Proof.
  refine (@Build_RuntimeLaws _ (AsyncStdioSidecarRuntime fuel) (fun s => alive (sr_world s))
    sr_next_generation wf _ _ _ _ _ _ _ _ _ _); cbn.
  - intros ctx s Hs. pose proof (stdio_start_wf fuel ctx s Hs) as Hr. unfold wp in Hr.
    unfold async_start. destruct (stdio_start fuel ctx s). apply Hr.
  - intros _ rq t s Hs. pose proof (keeps_request_cancellable fuel rq (Some t) s Hs) as Hr.
    unfold async_request. destruct (request_cancellable fuel rq (Some t) s). apply Hr.
  - intros s Hs. pose proof (stdio_status_wf s Hs) as Hr. unfold wp in Hr.
    unfold async_status. destruct (stdio_status s). apply Hr.
  - intros _ s Hs. pose proof (stdio_stop_wf fuel s Hs) as Hr. unfold wp in Hr.
    unfold async_stop. destruct (stdio_stop fuel s). apply Hr.
  - intros _ s Hs. pose proof (stdio_stop_wf fuel s Hs) as Hr. unfold wp in Hr. unfold async_stop.
    destruct (stdio_stop fuel s) as [[[]|[]] s']; cbn in *; intros [=]. by apply Hr.
  - intros s b Hs. pose proof (stdio_status_wf s Hs) as Hr. unfold wp in Hr. unfold async_status.
    destruct (stdio_status s) as [[st|[]] s']; cbn in *; intros [=]. subst st.
    destruct Hr as (_ & _ & Hr). by destruct (Hr b eq_refl) as (_ & Ha & _).
  - intros ctx s Hs. pose proof (stdio_start_wf fuel ctx s Hs) as Hr. unfold wp in Hr.
    unfold async_start. destruct (stdio_start fuel ctx s). apply Hr.
  - intros _ s Hs. pose proof (stdio_stop_wf fuel s Hs) as Hr. unfold wp in Hr.
    unfold async_stop. destruct (stdio_stop fuel s). apply Hr.
  - intros s Hs. pose proof (stdio_status_wf s Hs) as Hr. unfold wp in Hr.
    unfold async_status. destruct (stdio_status s). apply Hr.
  - intros _ rq t s Hs. pose proof (keeps_request_cancellable fuel rq (Some t) s Hs) as Hr.
    unfold async_request. destruct (request_cancellable fuel rq (Some t) s). apply Hr.
Defined.
End safety.

(** ** local processes keep the laws *)

(** [living x]: the children that may be alive.  [spawn] adds the one whose handle it
    gives; waiting reports an exit only of a child that is gone; no other call adds a
    child. *)
Definition no_spawn {X A} (living : X -> list nat) (f : X -> A * X) : Prop :=
  forall x, living (f x).2 ⊆ living x.

Class OsProcessLaws (X : Type) `{OsProcess X, StdioIo X, TrustOs X} := {
  living : X -> list nat;
  law_spawn : forall executable x, living (os_spawn executable x).2 ⊆
    match (os_spawn executable x).1 with Some child => child :: living x | None => living x end;
  law_os_wait : forall child x, no_spawn living (os_try_wait child) /\
    (forall success, (os_try_wait child x).1 = Ok (Some success) ->
       child ∉ living (os_try_wait child x).2);
  law_os_kill : forall child, no_spawn living (os_kill child);
  law_os_now : no_spawn living io_now;
  law_os_sleep : forall d, no_spawn living (io_sleep d);
  law_os_write : forall b, no_spawn living (io_write_line b);
  law_os_recv : forall d, no_spawn living (io_recv_timeout d);
  law_os_reader : no_spawn living io_spawn_reader;
  law_os_flag : forall t, no_spawn living (io_cancel_requested t);
  law_os_trust : forall path manifest, no_spawn living (verify_macos_sidecar path manifest);
}.

Section local.
Context {X : Type} `{OsProcessLaws X}.

Definition any_living (x : X) : bool := negb (bool_decide (living x = [])).

Lemma any_living_false x : any_living x = false <-> living x = [].
Proof. unfold any_living. case_bool_decide; naive_solver. Qed.

#[export] Instance local_ghost : ProcessGhost X LocalProcessLauncher LocalProcessControl := {|
  alive := any_living;
  owns p x := living x ⊆ [lp_child p];
  holds _ x := living x = [];
  spent _ := True;
|}.

Lemma subseteq_nil_eq (l : list nat) : l ⊆ [] -> l = [].
Proof. destruct l as [|a l]; [done|]. intros Hs. destruct (not_elem_of_nil a). apply Hs. by left. Qed.

Lemma no_spawn_calm {A} (f : X -> A * X) : no_spawn living f -> calm f.
Proof.
  intros Hf x. specialize (Hf x). split_and!; cbn.
  - rewrite !any_living_false. intros Hn. apply subseteq_nil_eq. by rewrite <- Hn.
  - intros p Hp. set_solver.
  - intros _ Hn. apply subseteq_nil_eq. by rewrite <- Hn.
Qed.
Hint Resolve law_os_now law_os_sleep law_os_write law_os_recv law_os_reader law_os_flag
  law_os_trust law_os_kill no_spawn_calm : ky.

#[export] Instance local_process_laws : ProcessLaws X LocalProcessLauncher LocalProcessControl.
Proof.
  refine {| process_ghost := local_ghost |}; auto with ky.
  - intros p x Hp. cbn. unfold local_try_wait_status. destruct (law_os_wait (lp_child p) x) as [Hn Hw].
    specialize (Hn x). destruct (os_try_wait (lp_child p) x) as [r x']. cbn in *.
    split; [set_solver|]. intros b ->. apply any_living_false, subseteq_nil_eq.
    specialize (Hw b eq_refl). intros c Hc. pose proof (Hp c (Hn c Hc)) as Hcp.
    apply list_elem_of_singleton in Hcp as ->. done.
  - intros p x Hp. cbn. unfold local_kill_owned. pose proof (law_os_kill (lp_child p) x) as Hk.
    destruct (os_kill (lp_child p) x) as [r x']. cbn in *. set_solver.
  - intros generation l x Hl. cbn in *. unfold local_launch. pose proof (law_spawn (ll_executable l) x) as Hs.
    destruct (os_spawn (ll_executable l) x) as [[child|] x']; cbn in *; rewrite Hl in Hs; [done|].
    by apply subseteq_nil_eq.
  - intros l x Hl. cbn in *. split; [|done]. intros _. by apply any_living_false.
  - intros l x _ Hx. cbn in *. by apply any_living_false.
Defined.
End local.
