(* ===== verification/StdioTermination.v ===== *)
(** * StdioTermination: every call of the stdio runtime gives an answer

    The loops of [StdioRuntime] run until a deadline.  With a clock that never goes
    back, sleeps that last and waits that end when their time is over, a bound on
    the fuel is computed from the two timeouts of the runtime, and within it no call
    hangs: the runtime reaps, times out or answers. *)

From Stdlib Require Import Ascii String.
From S2P Require Import Prelude Text NetState Config Ipc Sidecar RouteHelperV3 ProductionSession.
From S2P Require Import ProductionController SidecarTrust StdioRuntime.

(** ** the ids of cancellations *)

Lemma print_digits_last fuel n acc c :
  last (print_digits fuel n (acc ++ [c])) = Some c.
Proof.
  revert n acc. induction fuel as [|fuel IH]; intros n acc; cbn [print_digits]; [by rewrite last_snoc|].
  case_match; [rewrite app_comm_cons; by rewrite last_snoc|]. rewrite app_comm_cons. apply IH.
Qed.

Lemma print_uint_last n : last (bytes (print_uint n)) = Some (digit_char (n mod 10)).
Proof.
  unfold print_uint. rewrite bytes_str. cbn [print_digits]. case_match; [done|].
  apply (print_digits_last 39 (n / 10) [] (digit_char (n mod 10))).
Qed.

Lemma cancel_id_last n : last (bytes (cancel_id n)) = Some (digit_char (n mod 10)).
Proof.
  unfold cancel_id, pad16. rewrite bytes_append, bytes_str, app_assoc, last_app.
  by rewrite print_uint_last.
Qed.

(** Two sequence numbers in a row never have the same id. *)
Lemma cancel_id_next n : cancel_id n <> cancel_id (n + 1).
Proof.
  intros Heq. apply (f_equal (fun s => last (bytes s))) in Heq. rewrite !cancel_id_last in Heq.
  pose proof (Z.mod_pos_bound n 10 ltac:(lia)). pose proof (Z.mod_pos_bound (n + 1) 10 ltac:(lia)).
  injection Heq as Heq. unfold digit_char in Heq. apply (f_equal N_of_ascii) in Heq.
  rewrite !N_ascii_embedding in Heq by lia.
  assert (Hm : n mod 10 = (n + 1) mod 10) by lia.
  pose proof (Z.div_mod n 10 ltac:(lia)). pose proof (Z.div_mod (n + 1) 10 ltac:(lia)). lia.
Qed.

(** ** time *)

(** [clock]: the time of the world.  Reading gives the time, nothing turns it back, a
    sleep of [d] lasts at least [d], and a wait that times out has lasted as long as
    it was asked to. *)
Definition forward {X A} (clock : X -> Z) (f : X -> A * X) : Prop :=
  forall x, clock x <= clock (f x).2.

Class StdioClockLaws (X L P : Type) `{StdioIo X, SidecarProcessControl X P,
  StdioSidecarLauncher X L P, TrustOs X} := {
  clock : X -> Z;
  law_now : forall x, (io_now x).1 = clock (io_now x).2;
  law_now_forward : forward clock io_now;
  law_sleep : forall d x, clock x + d <= clock (io_sleep d x).2;
  law_recv : forall d x, (io_recv_timeout d x).1 = RecvTimeout ->
    clock x + d <= clock (io_recv_timeout d x).2;
  law_recv_forward : forall d, forward clock (io_recv_timeout d);
  law_write_forward : forall b, forward clock (io_write_line b);
  law_reader_forward : forward clock io_spawn_reader;
  law_flag_forward : forall t, forward clock (io_cancel_requested t);
  law_trust_forward : forall path manifest, forward clock (verify_macos_sidecar path manifest);
  law_wait_forward : forall p x, clock x <= clock (proc_try_wait_status (p, x)).2.2;
  law_kill_forward : forall p x, clock x <= clock (proc_kill_owned (p, x)).2.2;
  law_launch_forward : forall g l x, clock x <= clock (launcher_launch g (l, x)).2.2;
  law_cancel_forward : forall l x, clock x <= clock (launcher_cancel_prepared (l, x)).2.2;
}.

Section termination.
Context {X L P : Type} `{StdioClockLaws X L P} `{SidecarJson} `{Base64Lib}.
Notation SR := (StdioSidecarRuntime X L P).
Notation RM A := (M SR RtErr A).
Implicit Types s : SR.

Definition time s : Z := clock (sr_world s).

Definition later s s' : Prop :=
  time s <= time s' /\ sr_response_timeout s' = sr_response_timeout s /\
  sr_cancel_drain_timeout s' = sr_cancel_drain_timeout s.

Lemma later_refl s : later s s.
Proof. unfold later. lia. Qed.
Lemma later_trans s s' s'' : later s s' -> later s' s'' -> later s s''.
Proof. intros (? & ? & ?) (? & ? & ?). unfold later. split_and!; [lia|congruence|congruence]. Qed.
Hint Resolve later_refl : ky.

(** The call gives an answer, and time has not gone back. *)
Definition ends_at {A} (m : RM A) s : Prop := later s (m s).2 /\ (m s).1 <> Err Hang.
Definition ends {A} (m : RM A) : Prop := forall s, ends_at m s.

Lemma ends_bind_at {A B} (m : RM A) (k : A -> RM B) s :
  ends_at m s -> (forall a s', m s = (Ok a, s') -> later s s' -> ends_at (k a) s') ->
  ends_at (bind m k) s.
Proof.
  unfold ends_at, bind. intros [Hl Hh] Hk. destruct (m s) as [[a|e] s'] eqn:E; cbn in *; [|split; congruence].
  destruct (Hk a s' eq_refl Hl) as [Hl' Hh']. split; [by eapply later_trans|done].
Qed.
Lemma ends_bind {A B} (m : RM A) (k : A -> RM B) :
  ends m -> (forall a, ends (k a)) -> ends (bind m k).
Proof. intros Hm Hk s. apply ends_bind_at; [done|]. intros. apply Hk. Qed.
Lemma ends_ret {A} (a : A) : ends (ret a).
Proof. intros s. split; [apply later_refl|done]. Qed.
Lemma ends_fail {A} e : ends (fail (A := A) e).
Proof. intros s. split; [apply later_refl|done]. Qed.
Lemma ends_check {A} (r : Res A) : ends (check r).
Proof. intros s. split; [apply later_refl|]. by destruct r. Qed.
Lemma ends_get : ends get.
Proof. intros s. split; [apply later_refl|done]. Qed.
Lemma ends_ignore {A} (m : RM A) s : ends_at m s -> ends_at (ignore m) s.
Proof.
  unfold ends_at, ignore. intros [Hl Hh]. destruct (m s) as [[|[]] s']; (split; [done|]); done.
Qed.
Lemma ends_modify (f : SR -> SR) : (forall s, later s (f s)) -> ends (modify f).
Proof. intros Hf s. by split; [apply Hf|]. Qed.
Lemma ends_on_io {A} (f : X -> A * X) : forward clock f -> ends (on_io f).
Proof.
  intros Hf s. unfold ends_at, on_io, later, time. specialize (Hf (sr_world s)).
  destruct (f (sr_world s)). cbn in *. split; [lia|done].
Qed.
Lemma ends_on_trust {A} (f : Meth X A) : forward clock f -> ends (on_trust f).
Proof.
  intros Hf s. unfold ends_at, on_trust, later, time. specialize (Hf (sr_world s)).
  destruct (f (sr_world s)) as [[] ?]; cbn in *; (split; [lia|done]).
Qed.
Lemma ends_on_child {A} (m : M (P * X) IoErrorKind A) :
  (forall p x, clock x <= clock (m (p, x)).2.2) -> ends (on_child m).
Proof.
  intros Hm s. unfold ends_at, on_child, later, time. destruct (sr_child s) as [p|]; [|cbn; split; [lia|done]].
  specialize (Hm p (sr_world s)). destruct (m (p, sr_world s)) as [r [p' x]]. cbn in *. split; [lia|done].
Qed.
Lemma ends_on_launcher {A} (m : Meth (L * X) A) :
  (forall l x, clock x <= clock (m (l, x)).2.2) -> ends (on_launcher m).
Proof.
  intros Hm s. unfold ends_at, on_launcher, later, time. specialize (Hm (sr_launcher s) (sr_world s)).
  destruct (m (sr_launcher s, sr_world s)) as [[] [l x]]; cbn in *; (split; [lia|done]).
Qed.
Lemma ends_take_part (take : P -> bool * P) : ends (take_child_part take).
Proof.
  intros s. unfold ends_at, take_child_part, later, time. destruct (sr_child s) as [p|]; [|cbn; split; [lia|done]].
  destruct (take p). cbn. split; [lia|done].
Qed.

Hint Resolve law_now_forward law_recv_forward law_write_forward law_reader_forward
  law_flag_forward law_trust_forward law_wait_forward law_kill_forward law_launch_forward
  law_cancel_forward : ky.

Ltac ends_step :=
  first
  [ apply ends_ret | apply ends_fail | apply ends_check | apply ends_get | apply ends_take_part
  | apply ends_on_io; solve [auto with ky]
  | apply ends_on_trust; solve [auto with ky]
  | apply ends_on_child; solve [auto with ky]
  | apply ends_on_launcher; solve [auto with ky]
  | apply ends_modify; solve [intros ?; unfold later, time; cbn; lia]
  | apply ends_bind; [|intros ?]
  | case_match ].
Ltac ends_by tac := repeat first [tac | ends_step].
Ltac ends_auto := repeat ends_step.
Ltac ends_here tac := match goal with |- ends_at ?m _ => let He := fresh in assert (He : ends m); [tac|apply He] end.

Lemma ends_sleep d : 0 <= d -> ends (on_io (io_sleep d)).
Proof. intros Hd. apply ends_on_io. intros x. pose proof (law_sleep d x). lia. Qed.

(** ** reaping and terminating *)

Lemma ends_reap_if_exited : ends reap_if_exited.
Proof. unfold reap_if_exited. ends_auto. Qed.

Lemma on_io_now s : exists s', on_io io_now s = (Ok (time s'), s') /\ later s s'.
Proof.
  pose proof (law_now (sr_world s)) as Hn. pose proof (law_now_forward (sr_world s)) as Hf.
  unfold on_io. destruct (io_now (sr_world s)) as [t x]. cbn in *. exists (sr_set_world x s). split; [by rewrite Hn|].
  unfold later, time. cbn. lia.
Qed.

Lemma ends_now {B} (k : Z -> RM B) s :
  (forall s', later s s' -> ends_at (k (time s')) s') -> ends_at (bind (on_io io_now) k) s.
Proof.
  intros Hk. destruct (on_io_now s) as (s' & Hn & Hl). apply ends_bind_at; [unfold ends_at; rewrite Hn; by split|].
  intros a s'' Heq. rewrite Hn in Heq. simplify_eq. by apply Hk.
Qed.

Lemma ends_slept {B} d (k : RM B) s :
  0 <= d -> (forall s', later s s' -> time s + d <= time s' -> ends_at k s') ->
  ends_at (on_io (io_sleep d) ;! k) s.
Proof.
  intros Hd Hk. apply ends_bind_at; [by apply ends_sleep|]. intros a s' Heq Hl. apply Hk; [done|].
  pose proof (law_sleep d (sr_world s)) as Hs. unfold on_io in Heq.
  destruct (io_sleep d (sr_world s)) as [u x]. by simplify_eq.
Qed.

Lemma reap_loop_ends fuel deadline : forall s,
  deadline - time s < Z.of_nat fuel -> 0 < Z.of_nat fuel -> ends_at (reap_loop fuel deadline) s.
Proof.
  induction fuel as [|fuel IH]; intros s Hd Hf; [lia|]. cbn [reap_loop].
  apply ends_bind_at; [apply ends_reap_if_exited|]. intros [|] s1 _ Hl1; [apply ends_ret|].
  apply ends_now. intros s2 Hl2. unfold saturating_sub, CHILD_REAP_POLL_INTERVAL.
  case_match eqn:Hz; [apply ends_fail|]. apply ends_slept; [lia|]. intros s3 Hl3 Ht3.
  destruct Hl1 as [? _], Hl2 as [? _], Hl3 as [? _]. apply IH; lia.
Qed.

(** Two seconds, one step per millisecond. *)
Definition reap_fuel : Z := 2001.

Section fuel.
Context (fuel : nat) (Hfuel : reap_fuel <= Z.of_nat fuel).

Lemma ends_terminate_child_handle : ends (terminate_child_handle fuel).
Proof using Hfuel H3.
  unfold terminate_child_handle, reap_fuel in *. apply ends_bind; [apply ends_get|intros self].
  case_match; [apply ends_ret|]. apply ends_bind; [apply ends_reap_if_exited|intros [|]]; [apply ends_ret|].
  apply ends_bind; [apply ends_on_child; auto with ky|intros _]. intros s.
  apply ends_now. intros s' _. apply reap_loop_ends; unfold CHILD_REAP_TIMEOUT; lia.
Qed.

Lemma ends_terminate_child : ends (terminate_child fuel).
Proof using Hfuel H3.
  unfold terminate_child. ends_by ltac:(apply ends_terminate_child_handle).
Qed.

Lemma ends_terminate_and_fail {A} e : ends (terminate_and_fail (A := A) fuel e).
Proof using Hfuel H3.
  unfold terminate_and_fail. apply ends_bind; [|intros; apply ends_fail].
  intros s. apply ends_ignore, ends_terminate_child.
Qed.

(** ** requests *)

Lemma ends_receive_record_for d : ends (receive_record_for d).
Proof. unfold receive_record_for. ends_auto. Qed.

Lemma ends_send_request request : ends (send_request request).
Proof. unfold send_request. ends_auto. Qed.

(** The second sequence number always serves. *)
Lemma ends_cancellation_request target : ends (cancellation_request fuel target).
Proof using Hfuel.
  destruct fuel as [|[|n]]; unfold reap_fuel in Hfuel; [lia|lia|]. cbn [cancellation_request].
  intros s. apply ends_bind_at; [apply ends_get|]. intros self s' [= <- <-] _.
  apply ends_bind_at; [apply ends_check|]. intros next s1 Heq _. unfold check, lift, checked_add in Heq.
  case_match; cbn in Heq; simplify_eq. apply ends_bind_at; [ends_auto|]. intros [] s2 Hs2 _. injection Hs2 as Hs2.
  case_bool_decide as Hid; [|ends_here ends_auto].
  apply ends_bind_at; [apply ends_get|]. intros self s3 [= <- <-] _. subst s2. rewrite bool_decide_false by (rewrite <- Hid; apply not_eq_sym, cancel_id_next).
  ends_here ends_auto.
Qed.

Lemma ends_finish_cancel_pair request primary control :
  ends (finish_cancel_pair fuel request primary control).
Proof using Hfuel H3.
  unfold finish_cancel_pair. ends_by ltac:(apply ends_terminate_and_fail).
Qed.

(** ** the receive loop *)

Definition open_slots (flight : Flight) : Z :=
  (if fl_primary flight then 0 else 1) + (if fl_control flight then 0 else 1).

(** How many more rounds the loop may take: one per millisecond until the deadline, one
    per response still expected, and before a cancellation the time to drain it. *)
Definition rounds (drain primary_deadline : Z) (flight : Flight) (now : Z) : Z :=
  open_slots flight +
  match fl_cancel flight with
  | Some (_, cancel_deadline) => Z.max 0 (cancel_deadline - now)
  | None => Z.max 0 (primary_deadline - now) + Z.max 0 drain + 1
  end.

Lemma open_slots_range flight : 0 <= open_slots flight <= 2.
Proof. unfold open_slots. by destruct (fl_primary flight), (fl_control flight). Qed.

Lemma file_response_slots request response flight flight' :
  file_response request response flight = Some flight' ->
  fl_cancel flight' = fl_cancel flight /\ open_slots flight' = open_slots flight - 1.
Proof.
  unfold file_response, open_slots. repeat case_match; intros; simplify_eq/=; split; try done;
    repeat match goal with He : _ || _ = false |- _ => apply orb_false_iff in He as [? ?] end;
    by repeat case_match; simplify_eq/=.
Qed.

(** [ends_at] with a statement about the result. *)
Definition ends_with {A} (m : RM A) (Q : A -> SR -> Prop) s : Prop :=
  ends_at m s /\ forall a s', m s = (Ok a, s') -> Q a s'.

Lemma ends_with_bind {A B} (m : RM A) (k : A -> RM B) Q s :
  ends_at m s -> (forall a s', m s = (Ok a, s') -> later s s' -> ends_with (k a) Q s') ->
  ends_with (bind m k) Q s.
Proof.
  intros Hm Hk. split.
  - apply ends_bind_at; [done|]. intros a s' Heq Hl. by apply Hk.
  - intros b s'. unfold bind. destruct Hm as [Hl _]. destruct (m s) as [[a|e] s1] eqn:E; [|done].
    by apply Hk.
Qed.

Lemma ends_with_never {A} (m : RM A) Q s :
  ends_at m s -> (forall a, (m s).1 <> Ok a) -> ends_with m Q s.
Proof. intros Hm Hn. split; [done|]. intros a s' Heq. specialize (Hn a). by rewrite Heq in Hn. Qed.

Lemma terminate_and_fail_never {A} e (a : A) s : (terminate_and_fail fuel e s).1 <> Ok a.
Proof.
  unfold terminate_and_fail, bind, ignore, fail, raise. by destruct (terminate_child fuel s) as [[|[]] ?].
Qed.

(** The cancellation is sent at most once, with its own deadline. *)
Definition cancel_sent (flight flight' : Flight) s' : Prop :=
  flight' = flight \/
  fl_cancel flight = None /\ open_slots flight' = open_slots flight /\
  exists control d, fl_cancel flight' = Some (control, d) /\ d <= time s' + sr_cancel_drain_timeout s'.

Lemma maybe_cancel_ends request cancellable token flight s :
  ends_with (maybe_cancel fuel request cancellable token flight) (cancel_sent flight) s.
Proof using Hfuel H3.
  unfold maybe_cancel.
  assert (Hret : forall s, ends_with (ret flight) (cancel_sent flight) s).
  { intros s'. split; [apply ends_ret|]. intros a s'' [= <- <-]. by left. }
  destruct (is_some (fl_cancel flight) || negb cancellable) eqn:Ec; [done|].
  apply orb_false_iff in Ec as [Ec _].
  apply ends_with_bind; [ends_here ends_auto|]. intros requested s1 _ _.
  destruct requested; cbn [negb]; [|done].
  apply ends_with_bind; [by apply ends_ignore, ends_cancellation_request|]. intros [control|e] s2 _ _;
    [|apply ends_with_never; [by apply ends_terminate_and_fail|intros a; apply terminate_and_fail_never]].
  apply ends_with_bind; [by apply ends_ignore, ends_send_request|]. intros [u|e] s3 _ _;
    [|apply ends_with_never; [by apply ends_terminate_and_fail|intros a; apply terminate_and_fail_never]].
  destruct (on_io_now s3) as (s4 & Hn & Hl4).
  apply ends_with_bind; [unfold ends_at; rewrite Hn; by split|]. intros now s5 Heq _. rewrite Hn in Heq.
  injection Heq as <- <-. apply ends_with_bind; [apply ends_get|]. intros self s6 [= <- <-] _.
  split; [apply ends_ret|]. intros flight' s7 [= <- <-]. right.
  split_and!; [by destruct (fl_cancel flight)|done|]. do 2 eexists. split; [done|]. lia.
Qed.

(** The wait for a record: a timeout has taken its time. *)
Lemma receive_ends d s :
  0 <= d ->
  ends_with (ignore (receive_record_for d)) (fun received s' =>
    received = Ok None -> time s + d <= time s') s.
Proof using H3.
  intros Hd. split; [apply ends_ignore, ends_receive_record_for|]. intros received s' Heq ->.
  unfold ignore, receive_record_for, bind, get, on_io in Heq. cbn in Heq.
  destruct (sr_records s); cbn in Heq; [|done].
  pose proof (law_recv d (sr_world s)) as Hr. destruct (io_recv_timeout d (sr_world s)) as [o x].
  destruct o as [[]| |]; cbn in *; simplify_eq. by apply Hr.
Qed.
End fuel.

Definition deadline_of (primary_deadline : Z) (flight : Flight) : Z :=
  match fl_cancel flight with Some (_, d) => d | None => primary_deadline end.

Lemma rounds_mono drain primary flight t t' :
  t <= t' -> rounds drain primary flight t' <= rounds drain primary flight t.
Proof. intros Ht. unfold rounds. case_match; [case_match|]; lia. Qed.

Lemma rounds_sent primary flight flight' s s' :
  cancel_sent flight flight' s' -> later s s' ->
  rounds (sr_cancel_drain_timeout s') primary flight' (time s')
    <= rounds (sr_cancel_drain_timeout s) primary flight (time s).
Proof.
  intros [->|(Hc & Ho & control & d & Hc' & Hd)] (Ht & _ & Hdr); unfold rounds.
  - rewrite Hdr. case_match; [case_match|]; lia.
  - rewrite Hc, Hc', Ho. lia.
Qed.

Lemma rounds_wait drain primary flight t t' :
  t < deadline_of primary flight -> t < t' ->
  rounds drain primary flight t' < rounds drain primary flight t.
Proof. unfold rounds, deadline_of. intros Hd Ht. case_match; [case_match|]; lia. Qed.

Lemma rounds_filed drain primary request response flight flight' t :
  file_response request response flight = Some flight' ->
  rounds drain primary flight' t < rounds drain primary flight t.
Proof. intros [Hc Ho]%file_response_slots. unfold rounds. rewrite Hc, Ho. lia. Qed.

Lemma flight_loop_ends request cancellable token primary_deadline fuel : forall flight s,
  rounds (sr_cancel_drain_timeout s) primary_deadline flight (time s) + reap_fuel <= Z.of_nat fuel ->
  ends_at (flight_loop fuel request cancellable token primary_deadline flight) s.
Proof.
  induction fuel as [|fuel IH]; intros flight s Hr.
  { unfold rounds, reap_fuel in Hr. pose proof (open_slots_range flight). case_match; [case_match|]; lia. }
  assert (Hf : reap_fuel <= Z.of_nat (S fuel)).
  { revert Hr. unfold rounds. pose proof (open_slots_range flight). case_match; [case_match|]; lia. }
  assert (Hterm : forall A e s, ends_at (terminate_and_fail (A := A) (S fuel) e) s).
  { intros A e s'. by apply ends_terminate_and_fail. }
  cbn [flight_loop]. apply ends_now. intros s1 Hl1. case_match eqn:Ed; [apply Hterm|].
  pose proof (maybe_cancel_ends (S fuel) Hf request cancellable token flight s1) as [Hme Hmq].
  apply ends_bind_at; [done|]. intros flight1 s2 Hm Hl2. apply Hmq in Hm. clear Hme Hmq.
  apply ends_now. intros s3 Hl3. unfold saturating_sub. case_match eqn:Ez; [apply Hterm|].
  set (deadline := match fl_cancel flight1 with Some (_, d) => d | None => primary_deadline end) in *.
  change deadline with (deadline_of primary_deadline flight1) in *. clear deadline.
  pose proof (receive_ends (Z.min (Z.max 0 (deadline_of primary_deadline flight1 - time s3)) CANCELLATION_POLL_INTERVAL) s3) as Hrec.
  destruct Hrec as [Hre Hrq]; [unfold CANCELLATION_POLL_INTERVAL; lia|].
  apply ends_bind_at; [done|]. intros received s4 Hrcv Hl4.
  pose proof (Hrq received s4 Hrcv) as Hwait. clear Hre Hrq Hrcv.
  assert (Hs4 : rounds (sr_cancel_drain_timeout s4) primary_deadline flight1 (time s4)
            <= rounds (sr_cancel_drain_timeout s) primary_deadline flight (time s)).
  { pose proof (rounds_sent primary_deadline _ _ _ _ Hm Hl2) as H12.
    destruct Hl1 as (? & _ & Hd1), Hl3 as (? & _ & Hd3), Hl4 as (? & _ & Hd4). rewrite Hd4, Hd3.
    etrans; [by apply rounds_mono, (Z.le_trans _ (time s3))|]. etrans; [exact H12|].
    rewrite Hd1. by apply rounds_mono. }
  destruct received as [[record|]|e]; [| |apply Hterm].
  - destruct (json_response record) as [response|]; [|apply Hterm].
    destruct (file_response request response flight1) as [flight2|] eqn:Ef; [|apply Hterm].
    pose proof (rounds_filed (sr_cancel_drain_timeout s4) primary_deadline _ _ _ _ (time s4) Ef) as Hlt.
    assert (Hagain : ends_at (flight_loop fuel request cancellable token primary_deadline flight2) s4)
      by (apply IH; lia).
    destruct (fl_cancel flight2), (fl_primary flight2), (fl_control flight2); try exact Hagain;
      try (by apply ends_finish_cancel_pair); (case_match; [apply Hterm|apply ends_ret]).
  - specialize (Hwait eq_refl). unfold CANCELLATION_POLL_INTERVAL in Hwait. apply IH.
    pose proof (rounds_wait (sr_cancel_drain_timeout s4) primary_deadline flight1 (time s3) (time s4)
      ltac:(lia) ltac:(lia)) as Hw.
    pose proof (rounds_sent primary_deadline _ _ _ _ Hm Hl2) as H12.
    pose proof (rounds_mono (sr_cancel_drain_timeout s2) primary_deadline flight1 _ _ (proj1 Hl3)) as H23.
    pose proof (rounds_mono (sr_cancel_drain_timeout s1) primary_deadline flight _ _ (proj1 Hl1)) as H01.
    destruct Hl1 as (_ & _ & Hd1), Hl2 as (_ & _ & Hd2), Hl3 as (_ & _ & Hd3), Hl4 as (_ & _ & Hd4).
    rewrite Hd4, Hd3, Hd2, Hd1 in *. lia.
Qed.

(** ** the calls *)

(** Both timeouts of the runtime in milliseconds, the reaping, and a few rounds more. *)
Definition enough_fuel s (fuel : nat) : Prop :=
  0 <= sr_response_timeout s /\
  sr_response_timeout s + Z.max 0 (sr_cancel_drain_timeout s) + 3 + reap_fuel <= Z.of_nat fuel.

Lemma enough_fuel_later s s' fuel : later s s' -> enough_fuel s fuel -> enough_fuel s' fuel.
Proof. intros (_ & Hr & Hd) Hf. unfold enough_fuel. by rewrite Hr, Hd. Qed.

Lemma enough_reap s fuel : enough_fuel s fuel -> reap_fuel <= Z.of_nat fuel.
Proof. unfold enough_fuel. lia. Qed.

Lemma request_cancellable_ends fuel request token s :
  enough_fuel s fuel -> ends_at (request_cancellable fuel request token) s.
Proof.
  intros Hf. pose proof (enough_reap _ _ Hf) as Hreap. unfold request_cancellable.
  apply ends_bind_at; [apply ends_check|]. intros _ s1 _ Hl1.
  apply ends_bind_at; [ends_here ends_auto|]. intros requested s2 _ Hl2.
  case_match; [apply ends_fail|].
  apply ends_bind_at; [apply ends_ignore, ends_send_request|]. intros [u|e] s3 _ Hl3;
    [|by apply ends_terminate_and_fail].
  apply ends_now. intros s4 Hl4. apply ends_bind_at; [apply ends_get|]. intros self s5 [= <- <-] _.
  apply flight_loop_ends.
  assert (Hf4 : enough_fuel s4 fuel).
  { eapply enough_fuel_later; [|exact Hf]. eapply later_trans; [exact Hl1|].
    eapply later_trans; [exact Hl2|]. by eapply later_trans. }
  unfold rounds, open_slots, enough_fuel in *. cbn. lia.
Qed.

Lemma graceful_loop_ends fuel deadline : forall s,
  deadline - time s < Z.of_nat fuel -> 0 < Z.of_nat fuel -> ends_at (graceful_loop fuel deadline) s.
Proof.
  induction fuel as [|fuel IH]; intros s Hd Hf; [lia|]. cbn [graceful_loop].
  apply ends_now. intros s1 Hl1. case_match eqn:Ed; [apply ends_ret|].
  apply ends_bind_at; [apply ends_on_child; auto with ky|]. intros status s2 _ Hl2.
  assert (Hagain : ends_at (on_io (io_sleep 10) ;! graceful_loop fuel deadline) s2).
  { apply ends_slept; [lia|]. intros s3 Hl3 Ht3. destruct Hl1 as [? _], Hl2 as [? _]. apply IH; lia. }
  destruct status as [[[]|]|]; try exact Hagain. ends_here ltac:(unfold forget_child; ends_auto).
Qed.

Lemma stdio_stop_ends fuel s : enough_fuel s fuel -> ends_at (stdio_stop fuel) s.
Proof.
  intros Hf. pose proof (enough_reap _ _ Hf) as Hreap. unfold stdio_stop.
  apply ends_bind_at; [apply ends_get|]. intros self s0 [= <- <-] _.
  case_match; [apply ends_on_launcher; auto with ky|].
  apply ends_bind_at; [by apply ends_ignore, request_cancellable_ends|]. intros answer s1 _ Hl1.
  apply ends_bind_at; [|intros [|] s2 _ _; [apply ends_ret|by apply ends_terminate_child]].
  case_match; [|apply ends_ret]. apply ends_now. intros s2 Hl2.
  apply ends_bind_at; [apply ends_get|]. intros self s3 [= <- <-] _.
  pose proof (enough_fuel_later _ _ _ (later_trans _ _ _ Hl1 Hl2) Hf) as Hf2.
  unfold enough_fuel, reap_fuel in *. apply graceful_loop_ends; lia.
Qed.

Lemma stdio_start_ends fuel context : reap_fuel <= Z.of_nat fuel -> ends (stdio_start fuel context).
Proof.
  intros Hf. unfold stdio_start. apply ends_bind; [|intros []; [apply ends_ret|by apply ends_terminate_and_fail]].
  intros s. apply ends_ignore. ends_here ltac:(apply ends_bind; [|intros; apply ends_check]).
  unfold start_record, verify_trust, bootstrap, receive_record.
  ends_by ltac:(first [apply ends_terminate_and_fail; exact Hf | apply ends_receive_record_for
    | intros ?; apply ends_ignore; match goal with |- ends_at ?m _ => enough (ends m) as He; [apply He|] end]).
Qed.

Lemma stdio_status_ends : ends stdio_status.
Proof. unfold stdio_status, forget_child. ends_auto. Qed.

(** C29: every call of the stdio runtime ends: with a clock that does not go
    back and sleeps that last, and as many rounds as the timeouts have
    milliseconds, start, request, status and stop give an answer, also through
    the asynchronous adapter, and the rounds stay enough for the next call. *)
Theorem stdio_calls_end fuel s :
  enough_fuel s fuel ->
  (* no loop is still running when the fuel is used up *)
  (forall context, (stdio_start fuel context s).1 <> Err Hang) /\
  (forall request token, (request_cancellable fuel request token s).1 <> Err Hang) /\
  (stdio_status s).1 <> Err Hang /\
  (stdio_stop fuel s).1 <> Err Hang /\
  (* so the adapter's calls are never cut off, and the bound also serves the next call *)
  (forall request token, (async_request fuel request token s).1 <> None) /\
  (async_stop fuel s).1 <> None /\
  (forall context, enough_fuel (stdio_start fuel context s).2 fuel) /\
  (forall request token, enough_fuel (request_cancellable fuel request token s).2 fuel).
Proof.
  intros Hf. pose proof (enough_reap _ _ Hf) as Hreap.
  pose proof (fun request token => request_cancellable_ends fuel request token s Hf) as Hreq.
  pose proof (stdio_stop_ends fuel s Hf) as Hstop.
  pose proof (fun context => stdio_start_ends fuel context Hreap s) as Hstart.
  refine (conj _ (conj _ (conj _ (conj _ (conj _ (conj _ (conj _ _))))))).
  - intros context. apply Hstart.
  - intros request token. apply Hreq.
  - apply stdio_status_ends.
  - apply Hstop.
  - intros request token. destruct (Hreq request (Some token)) as [_ Hn]. unfold async_request.
    by destruct (request_cancellable _ _ _ s) as [[|[]] ?].
  - destruct Hstop as [_ Hn]. unfold async_stop. by destruct (stdio_stop fuel s) as [[|[]] ?].
  - intros context. eapply enough_fuel_later; [apply Hstart|done].
  - intros request token. eapply enough_fuel_later; [apply Hreq|done].
Qed.
End termination.
