(* ===== verification/RouteV3Client.v ===== *)
(** * RouteV3Client: what crosses the boundary to the route helper

    [src-tauri/src/networking/mihomo_tun_source.rs], the observation of Mihomo's
    tunnel interface, and [route_helper_v3_client.rs], the client of the helper's
    third protocol: every reply of the native bridge is decoded and its identity
    compared with the one asked for.  The bridge itself is Objective-C code outside
    the Rust sources: the class [NativeV3]. *)

From Stdlib Require Import Ascii String.
From S2P Require Import Prelude Text NetState Ipc Sidecar RouteHelper RouteHelperV3 ProductionSession.

(** ** Mihomo's interface *)

Definition MAX_ACTIVE_MIHOMO_TUN_INTERFACES : Z := 1.

Record MihomoTunSnapshot := { active_mihomo_tun_interfaces : list string }.

Definition snapshot_inactive : MihomoTunSnapshot := {| active_mihomo_tun_interfaces := [] |}.

Definition all_unique_and_sorted (values : list string) : bool :=
  forallb (fun '(a, b) => string_ltb a b) (windows2 values).

Definition validate_for (self : MihomoTunSnapshot) (kyclash_interface : string) : Res unit :=
  if negb (valid_utun_interface kyclash_interface)
    || (MAX_ACTIVE_MIHOMO_TUN_INTERFACES <? Z.of_nat (length (active_mihomo_tun_interfaces self)))
    || negb (all_unique_and_sorted (active_mihomo_tun_interfaces self))
    || existsb (fun interface => negb (valid_utun_interface interface))
         (active_mihomo_tun_interfaces self)
  then Err InvalidConfiguration
  else if existsb (fun interface => bool_decide (interface = kyclash_interface))
            (active_mihomo_tun_interfaces self)
  then Err RouteConflict
  else Ok tt.

Definition snapshot_active (interface_name kyclash_interface : string) : Res MihomoTunSnapshot :=
  let snapshot := {| active_mihomo_tun_interfaces := [interface_name] |} in
  validate_for snapshot kyclash_interface ;?
  Ok snapshot.

Definition snapshot_from_observation (core_running app_tun_enabled mihomo_tun_enabled : bool)
  (mihomo_device kyclash_interface : string) (interface_exists : bool) : Res MihomoTunSnapshot :=
  if negb (valid_utun_interface kyclash_interface) then Err InvalidConfiguration
  else if negb core_running then Ok snapshot_inactive
  else if negb (Bool.eqb app_tun_enabled mihomo_tun_enabled) then Err RouteDiscoveryFailed
  else if negb mihomo_tun_enabled then Ok snapshot_inactive
  else if negb interface_exists then Err RouteDiscoveryFailed
  else snapshot_active mihomo_device kyclash_interface.

(** [StaticActiveMihomoTunSource::snapshot]. *)
Definition static_snapshot (result : Res MihomoTunSnapshot) (kyclash_interface : string)
  : Res MihomoTunSnapshot :=
  let? snapshot := result in
  validate_for snapshot kyclash_interface ;?
  Ok snapshot.

Lemma snapshot_active_ok device interface snapshot :
  valid_utun_interface interface = true ->
  snapshot_active device interface = Ok snapshot <->
  valid_utun_interface device = true /\ device <> interface /\
  snapshot = {| active_mihomo_tun_interfaces := [device] |}.
Proof.
  intros Hi. unfold snapshot_active, validate_for. cbn -[valid_utun_interface].
  rewrite Hi. destruct (valid_utun_interface device) eqn:Hd; cbn -[valid_utun_interface].
  - case_bool_decide; cbn; naive_solver.
  - naive_solver.
Qed.

(** The snapshot of Mihomo's TUN is exactly what core, application and interface agree
    on, and an error when they do not. *)
Theorem mihomo_snapshot_exact core app tun device interface exists_ snapshot :
  snapshot_from_observation core app tun device interface exists_ = Ok snapshot <->
  valid_utun_interface interface = true /\
  (* no interface is trusted: the core is stopped, or both sides agree that TUN is off *)
  (snapshot = snapshot_inactive /\ (core = false \/ app = false /\ tun = false) \/
   (* or exactly one: a live utun device, agreed on, that is not KyClash's own *)
   snapshot = {| active_mihomo_tun_interfaces := [device] |} /\
   core = true /\ app = true /\ tun = true /\ exists_ = true /\
   valid_utun_interface device = true /\ device <> interface).
Proof.
  unfold snapshot_from_observation, snapshot_inactive.
  destruct (valid_utun_interface interface) eqn:Hi; cbn [negb]; [|naive_solver].
  destruct core; cbn [negb]; [|naive_solver].
  destruct app, tun; cbn [negb Bool.eqb]; try naive_solver.
  destruct exists_; cbn [negb]; [|naive_solver].
  rewrite snapshot_active_ok by done. naive_solver.
Qed.

(** ** native replies *)

Definition MAX_NATIVE_TEXT : Z := 65.

(** The three text fields are arrays of 65 bytes. *)
Record NativeReplyV3 := {
  nr_transport_status : Z;
  nr_protocol_version : Z;
  nr_state : Z;
  nr_error_code : Z;
  nr_transition : Z;
  nr_broker_generation : Z;
  nr_sidecar_instance_id : list ascii;
  nr_route_lease_id : list ascii;
  nr_operation_id : list ascii;
}.

Inductive RouteHelperV3State : Type :=
| V3Idle
| V3HoldPending
| V3Held
| V3Applied
| V3RetirementPending
| V3Released
| V3RecoveryOnly
| V3FailedClosed.

#[global] Instance RouteHelperV3State_eq_dec : EqDecision RouteHelperV3State.
Proof. solve_decision. Defined.

Record RouteHelperV3Status := {
  hs3_protocol_version : Z;
  hs3_state : RouteHelperV3State;
  hs3_transition : Z;
  hs3_reference : option RouteLeaseReferenceV3;
  hs3_error_code : option NetworkErrorCode;
}.

(** [str::from_utf8]: the encodings Rust accepts, shortest forms of scalar values. *)
Definition in_byte_range (lo hi : Z) (c : ascii) : bool := (lo <=? byte c) && (byte c <=? hi).
Definition continuation : ascii -> bool := in_byte_range 128 191.

Fixpoint utf8_valid (l : list ascii) : bool :=
  match l with
  | [] => true
  | b0 :: l1 =>
      if byte b0 <=? 127 then utf8_valid l1
      else match l1 with
      | [] => false
      | b1 :: l2 =>
          if in_byte_range 194 223 b0 then continuation b1 && utf8_valid l2
          else match l2 with
          | [] => false
          | b2 :: l3 =>
              if byte b0 =? 224 then in_byte_range 160 191 b1 && continuation b2 && utf8_valid l3
              else if byte b0 =? 237
              then in_byte_range 128 159 b1 && continuation b2 && utf8_valid l3
              else if in_byte_range 225 239 b0
              then continuation b1 && continuation b2 && utf8_valid l3
              else match l3 with
              | [] => false
              | b3 :: l4 =>
                  continuation b2 && continuation b3 && utf8_valid l4 &&
                  (if byte b0 =? 240 then in_byte_range 144 191 b1
                   else if byte b0 =? 244 then in_byte_range 128 143 b1
                   else in_byte_range 241 243 b0 && continuation b1)
              end
          end
      end
  end.

(** [iter().position(|byte| byte == 0)]: the bytes before the first NUL and after it. *)
Fixpoint split_nul (value : list ascii) : option (list ascii * list ascii) :=
  match value with
  | [] => None
  | c :: value =>
      if byte c =? 0 then Some ([], value)
      else match split_nul value with
           | Some (text, rest) => Some (c :: text, rest)
           | None => None
           end
  end.

Definition bounded_text (value : list ascii) : Res (option string) :=
  match split_nul value with
  | None => Err UnsupportedProtocolVersion
  | Some (text, rest) =>
      if existsb (fun c => negb (byte c =? 0)) rest then Err UnsupportedProtocolVersion
      else match text with
           | [] => Ok None
           | _ => if utf8_valid text then Ok (Some (str text)) else Err UnsupportedProtocolVersion
           end
  end.

Definition decode_transport (transport_status : Z) : Res unit :=
  match transport_status with
  | 0 => Ok tt
  | 1 => Err OperationTimedOut
  | 2 | 4 | 6 => Err SidecarUnavailable
  | 3 => Err OperationCancelled
  | 5 => Err UnsupportedProtocolVersion
  | 7 => Err InvalidConfiguration
  | _ => Err UnsupportedProtocolVersion
  end.

Definition decode_state (state : Z) : Res RouteHelperV3State :=
  match state with
  | 0 => Ok V3Idle
  | 1 => Ok V3HoldPending
  | 2 => Ok V3Held
  | 3 => Ok V3Applied
  | 4 => Ok V3RetirementPending
  | 5 => Ok V3Released
  | 6 => Ok V3RecoveryOnly
  | 7 => Ok V3FailedClosed
  | _ => Err UnsupportedProtocolVersion
  end.

Definition decode_error (error_code : Z) : Res (option NetworkErrorCode) :=
  match error_code with
  | 0 => Ok None
  | 1 => Ok (Some SidecarUnavailable)
  | 2 => Ok (Some InvalidConfiguration)
  | 3 => Ok (Some PermissionDenied)
  | 4 => Ok (Some RouteJournalUnavailable)
  | 5 => Ok (Some RouteJournalCorrupted)
  | 6 | 7 => Ok (Some RouteRollbackFailed)
  | 8 => Ok (Some RouteConflict)
  | 9 => Ok (Some InvalidStateTransition)
  | 10 => Ok (Some AuthenticationFailed)
  | 11 | 12 => Ok (Some SidecarUnavailable)
  | _ => Err UnsupportedProtocolVersion
  end.

(** The identity a reply echoes: none at all, or a complete and valid one. *)
Definition decode_identity (reply : NativeReplyV3) : Res (option RouteLeaseReferenceV3) :=
  let? sidecar := bounded_text (nr_sidecar_instance_id reply) in
  let? lease := bounded_text (nr_route_lease_id reply) in
  let? operation := bounded_text (nr_operation_id reply) in
  if is_some sidecar || is_some lease || is_some operation
    || negb (nr_broker_generation reply =? 0)
  then
    match sidecar, lease, operation with
    | Some sidecar, Some lease, Some operation =>
        let reference :=
          {| r3_protocol_version := ROUTE_HELPER_V3_PROTOCOL_VERSION;
             r3_broker_protocol_version := ROUTE_BROKER_PROTOCOL_VERSION;
             r3_broker_generation := nr_broker_generation reply;
             r3_sidecar_instance_id := sidecar;
             r3_lease_id := lease;
             r3_operation_id := operation |} in
        map_err network_code (RouteLeaseReferenceV3_validate reference) ;?
        Ok (Some reference)
    | _, _, _ => Err UnsupportedProtocolVersion
    end
  else Ok None.

Definition decode_native_reply (reply : NativeReplyV3) (expected : option RouteLeaseReferenceV3)
  (allow_idle_without_reference : bool) : Res RouteHelperV3Status :=
  decode_transport (nr_transport_status reply) ;?
  ensure (nr_protocol_version reply =? ROUTE_HELPER_V3_PROTOCOL_VERSION)
    UnsupportedProtocolVersion ;?
  let? state := decode_state (nr_state reply) in
  let raw_idle := nr_state reply =? 0 in
  let? error_code := decode_error (nr_error_code reply) in
  let? echoed := decode_identity reply in
  match expected with
  | None =>
      if is_some echoed || negb (nr_transition reply =? 0)
        || (negb raw_idle && negb (nr_state reply =? 6) && negb (nr_state reply =? 7))
      then Err AuthenticationFailed else Ok tt
  | Some expected =>
      match echoed with
      | Some actual =>
          if bool_decide (actual = expected) then Ok tt else Err AuthenticationFailed
      | None =>
          if allow_idle_without_reference && raw_idle && is_none error_code
          then Ok tt else Err AuthenticationFailed
      end
  end ;?
  (if is_some echoed && (nr_transition reply =? 0)
   then Err UnsupportedProtocolVersion else Ok tt) ;?
  Ok {| hs3_protocol_version := ROUTE_HELPER_V3_PROTOCOL_VERSION; hs3_state := state;
        hs3_transition := nr_transition reply; hs3_reference := echoed;
        hs3_error_code := error_code |}.

(** ** the client *)

(** The arguments of [kyclash_route_helper_v3_client_owner]. *)
Record NativeOwnerCall := {
  no_method : Z;
  no_route_version : Z;
  no_broker_version : Z;
  no_broker_generation : Z;
  no_sidecar_instance_id : string;
  no_route_lease_id : string;
  no_operation_id : string;
  no_interface_name : string;
  no_tunnel_operation_id : string;
  no_mtu : Z;
  no_profile_revision : Z;
  no_has_ipv4 : Z;
  no_has_ipv6 : Z;
  no_mihomo_interfaces : list string;
  no_private_cidrs : list string;
}.

(** The arguments of [kyclash_route_helper_v3_client_reference]. *)
Record NativeReferenceCall := {
  nf_method : Z;
  nf_route_version : Z;
  nf_broker_version : Z;
  nf_broker_generation : Z;
  nf_sidecar_instance_id : string;
  nf_route_lease_id : string;
  nf_operation_id : string;
}.

(** The bridge: [create] answers 0 when there is no connection. *)
Class NativeV3 (N : Type) := {
  native_create : N -> Z * N;
  native_discover : Z -> N -> NativeReplyV3 * N;
  native_owner : Z -> NativeOwnerCall -> N -> NativeReplyV3 * N;
  native_reference : Z -> NativeReferenceCall -> N -> NativeReplyV3 * N;
}.

Record RouteHelperV3Client := { rc_native : Z }.

Definition c_string (value : string) : Res string :=
  if any_byte (fun c => byte c =? 0) value then Err InvalidConfiguration else Ok value.

Section client.
Context {N : Type} `{NativeV3 N}.

(** A native call answers a reply and moves the world on. *)
Definition native {A} (call : N -> A * N) : Meth N A :=
  fun n => let (a, n') := call n in (Ok a, n').

Definition client_connect : Meth N RouteHelperV3Client :=
  let! handle := native native_create in
  if handle =? 0 then raise SidecarUnavailable else ret {| rc_native := handle |}.

Definition client_discover (self : RouteHelperV3Client) : Meth N RouteHelperV3Status :=
  let! reply := native (native_discover (rc_native self)) in
  lift (decode_native_reply reply None false).

Definition owner_call (self : RouteHelperV3Client) (method : Z) (owner : RouteLeaseOwnerV3)
  : Meth N RouteHelperV3Status :=
  lift (map_err network_code (RouteLeaseOwnerV3_validate owner)) ;!
  lift (ensure ((method =? 0) || (method =? 1)) InvalidConfiguration) ;!
  let reference := from_owner owner in
  let! sidecar := lift (c_string (o3_sidecar_instance_id owner)) in
  let! lease := lift (c_string (o3_lease_id owner)) in
  let! operation := lift (c_string (o3_operation_id owner)) in
  let! interface := lift (c_string (interface_name (o3_tunnel owner))) in
  let! tunnel_operation := lift (c_string (operation_id (o3_tunnel owner))) in
  let! mihomo := lift (rmapM c_string (o3_active_mihomo_tun_interfaces owner)) in
  let! cidrs := lift (rmapM c_string (o3_private_cidrs owner)) in
  let! reply := native (native_owner (rc_native self)
    {| no_method := method;
       no_route_version := o3_protocol_version owner;
       no_broker_version := o3_broker_protocol_version owner;
       no_broker_generation := o3_broker_generation owner;
       no_sidecar_instance_id := sidecar;
       no_route_lease_id := lease;
       no_operation_id := operation;
       no_interface_name := interface;
       no_tunnel_operation_id := tunnel_operation;
       no_mtu := mtu (o3_tunnel owner);
       no_profile_revision := o3_profile_revision owner;
       no_has_ipv4 := Z.b2z (has_ipv4 (o3_tunnel owner));
       no_has_ipv6 := Z.b2z (has_ipv6 (o3_tunnel owner));
       no_mihomo_interfaces := mihomo;
       no_private_cidrs := cidrs |}) in
  lift (decode_native_reply reply (Some reference) false).

Definition reference_call (self : RouteHelperV3Client) (method : Z)
  (reference : RouteLeaseReferenceV3) : Meth N RouteHelperV3Status :=
  lift (map_err network_code (RouteLeaseReferenceV3_validate reference)) ;!
  lift (ensure ((0 <=? method) && (method <=? 3)) InvalidConfiguration) ;!
  let! sidecar := lift (c_string (r3_sidecar_instance_id reference)) in
  let! lease := lift (c_string (r3_lease_id reference)) in
  let! operation := lift (c_string (r3_operation_id reference)) in
  let! reply := native (native_reference (rc_native self)
    {| nf_method := method;
       nf_route_version := r3_protocol_version reference;
       nf_broker_version := r3_broker_protocol_version reference;
       nf_broker_generation := r3_broker_generation reference;
       nf_sidecar_instance_id := sidecar;
       nf_route_lease_id := lease;
       nf_operation_id := operation |}) in
  lift (decode_native_reply reply (Some reference) (method =? 1)).

Definition client_begin (self : RouteHelperV3Client) := owner_call self 0.
Definition client_recover (self : RouteHelperV3Client) := owner_call self 1.
Definition client_apply (self : RouteHelperV3Client) := reference_call self 0.
Definition client_rollback (self : RouteHelperV3Client) := reference_call self 1.
Definition client_heartbeat (self : RouteHelperV3Client) := reference_call self 2.
Definition client_status (self : RouteHelperV3Client) := reference_call self 3.

End client.

(** ** the echo check *)

(** What a status may say that was accepted for a reference. *)
Definition echoes (reference : RouteLeaseReferenceV3) (allow_idle : bool)
  (status : RouteHelperV3Status) : Prop :=
  hs3_protocol_version status = 3 /\
  (hs3_reference status = Some reference /\ hs3_transition status <> 0 \/
   allow_idle = true /\ hs3_reference status = None /\ hs3_state status = V3Idle /\
   hs3_error_code status = None).

Lemma decode_echoes reply reference allow status :
  decode_native_reply reply (Some reference) allow = Ok status -> echoes reference allow status.
Proof.
  intros Hd. unfold decode_native_reply in Hd. cbv zeta in Hd. peel_ok Hd. injection Hd as <-.
  split; [done|]. cbn [hs3_reference hs3_transition hs3_state hs3_error_code].
  destruct a1 as [actual|].
  - left. case_bool_decide; [|done]. subst. split; [done|].
    destruct (nr_transition reply =? 0) eqn:E; [done|]. by reflect_bools.
  - right. destruct allow; [|done]. destruct (nr_state reply =? 0) eqn:E0; [|done]. reflect_bools.
    rewrite E0 in Ha1. injection Ha1 as <-. by destruct a0.
Qed.

Lemma decode_discovers reply status :
  decode_native_reply reply None false = Ok status ->
  hs3_protocol_version status = 3 /\ hs3_reference status = None /\ hs3_transition status = 0 /\
  (hs3_state status = V3Idle \/ hs3_state status = V3RecoveryOnly \/
   hs3_state status = V3FailedClosed).
Proof.
  intros Hd. unfold decode_native_reply in Hd. cbv zeta in Hd. peel_ok Hd. injection Hd as <-.
  destruct a1 as [actual|]; [done|]. cbn [is_some orb] in Ha4.
  destruct (nr_transition reply =? 0) eqn:Et; [|done]. reflect_bools.
  cbn [hs3_protocol_version hs3_reference hs3_transition hs3_state]. split_and!; [done..|].
  destruct (nr_state reply =? 0) eqn:E0; reflect_bools; [rewrite E0 in Ha1; naive_solver|].
  destruct (nr_state reply =? 6) eqn:E6; reflect_bools; [rewrite E6 in Ha1; naive_solver|].
  destruct (nr_state reply =? 7) eqn:E7; reflect_bools; [rewrite E7 in Ha1; naive_solver|done].
Qed.

Section echo.
Context {N : Type} `{NativeV3 N}.

(** Step through the checks before a native call, then take its reply. *)
Ltac run_native :=
  repeat (wp_steps; match goal with
    | |- match ?r with Ok _ => _ | Err _ => _ end => destruct r; [|done]
    end);
  wp_steps; unfold wp at 1, native;
  match goal with |- context [match ?c with pair _ _ => _ end] => destruct c as [reply n1] end;
  cbn [fst snd]; wp_steps.

Lemma owner_call_echoes self method owner n :
  wp (owner_call self method owner) (fun r _ => forall status, r = Ok status ->
    RouteLeaseOwnerV3_validate owner = Ok tt /\ echoes (from_owner owner) false status) n.
Proof.
  unfold owner_call. wp_steps. destruct (RouteLeaseOwnerV3_validate owner) as [[]|e]; [|done].
  cbn [map_err]. run_native. intros status Hd. split; [done|]. by eapply decode_echoes.
Qed.

Lemma reference_call_echoes self method reference n :
  wp (reference_call self method reference) (fun r _ => forall status, r = Ok status ->
    RouteLeaseReferenceV3_validate reference = Ok tt /\ echoes reference (method =? 1) status) n.
Proof.
  unfold reference_call. wp_steps.
  destruct (RouteLeaseReferenceV3_validate reference) as [[]|e]; [|done].
  cbn [map_err]. run_native. intros status Hd. split; [done|]. by eapply decode_echoes.
Qed.

(** A status the native client answers is about the lease it was asked for: for
    calls of an owner or a reference that validates, the reply names exactly
    that reference (or, for a discovery, none, in a state without a lease). *)
Theorem replies_name_the_lease_asked_for self n :
  (forall method owner status n', owner_call self method owner n = (Ok status, n') ->
     RouteLeaseOwnerV3_validate owner = Ok tt /\ echoes (from_owner owner) false status) /\
  (forall method reference status n', reference_call self method reference n = (Ok status, n') ->
     RouteLeaseReferenceV3_validate reference = Ok tt /\
     echoes reference (method =? 1) status) /\
  (forall status n', client_discover self n = (Ok status, n') ->
     hs3_reference status = None /\ hs3_transition status = 0 /\
     (hs3_state status = V3Idle \/ hs3_state status = V3RecoveryOnly \/
      hs3_state status = V3FailedClosed)).
Proof.
  split_and!.
  - intros method owner status n' Hc. by apply (wp_run _ _ _ _ _ (owner_call_echoes _ _ _ n) Hc).
  - intros method reference status n' Hc.
    by apply (wp_run _ _ _ _ _ (reference_call_echoes _ _ _ n) Hc).
  - intros status n' Hc. unfold client_discover, bind, native, lift in Hc.
    destruct (native_discover (rc_native self) n) as [reply n1]. injection Hc as Hd _.
    by apply decode_discovers in Hd as (_ & ? & ? & ?).
Qed.
End echo.

(** ** round trip *)

(** How the bridge writes an identifier and a status. *)
Definition native_text (value : string) : list ascii :=
  bytes value ++ replicate (65 - length (bytes value)) Ascii.zero.

Definition encode_state (state : RouteHelperV3State) : Z :=
  match state with
  | V3Idle => 0 | V3HoldPending => 1 | V3Held => 2 | V3Applied => 3
  | V3RetirementPending => 4 | V3Released => 5 | V3RecoveryOnly => 6 | V3FailedClosed => 7
  end.

Definition native_reply (state : RouteHelperV3State) (transition : Z)
  (reference : RouteLeaseReferenceV3) : NativeReplyV3 :=
  {| nr_transport_status := 0; nr_protocol_version := 3; nr_state := encode_state state;
     nr_error_code := 0; nr_transition := transition;
     nr_broker_generation := r3_broker_generation reference;
     nr_sidecar_instance_id := native_text (r3_sidecar_instance_id reference);
     nr_route_lease_id := native_text (r3_lease_id reference);
     nr_operation_id := native_text (r3_operation_id reference) |}.

Lemma split_nul_text l rest :
  Forall (fun c => byte c <> 0) l -> split_nul (l ++ Ascii.zero :: rest) = Some (l, rest).
Proof.
  induction 1 as [|c l Hc _ IH]; [done|]. cbn. rewrite (proj2 (Z.eqb_neq _ _) Hc).
  cbn in IH. by rewrite IH.
Qed.

Lemma utf8_valid_ascii l : Forall (fun c => byte c <= 127) l -> utf8_valid l = true.
Proof.
  induction 1 as [|c l Hc _ IH]; [done|]. cbn. by rewrite (proj2 (Z.leb_le _ _) Hc).
Qed.

Lemma identifier_byte c :
  is_ascii_alphanumeric c || one_of ["-"; "_"; "."]%char c = true -> byte c <> 0 /\ byte c <= 127.
Proof. by destruct c as [[] [] [] [] [] [] [] []]; vm_compute. Qed.

Lemma valid_ipc_id_shape value :
  valid_ipc_id value = true ->
  bytes value <> [] /\ (length (bytes value) <= 64)%nat /\
  Forall (fun c => byte c <> 0 /\ byte c <= 127) (bytes value).
Proof.
  unfold valid_ipc_id. intros Hv. reflect_bools. split_and!.
  - intros E. rewrite E in *. done.
  - lia.
  - apply Forall_forall. intros c Hc. apply identifier_byte.
    match goal with HH : forallb _ _ = true |- _ => rewrite forallb_forall in HH; apply HH end.
    by apply list_elem_of_In.
Qed.

Lemma bounded_text_round_trip value :
  valid_ipc_id value = true -> bounded_text (native_text value) = Ok (Some value).
Proof.
  intros (Hne & Hlen & Hb)%valid_ipc_id_shape. unfold bounded_text, native_text.
  destruct (65 - length (bytes value))%nat as [|k] eqn:Ek; [lia|]. cbn [replicate].
  rewrite split_nul_text by (eapply Forall_impl; [done|naive_solver]).
  assert (existsb (fun c => negb (byte c =? 0)) (replicate k Ascii.zero) = false) as ->.
  { apply existsb_false. intros c Hc. apply elem_of_replicate in Hc as [-> _]. done. }
  rewrite utf8_valid_ascii by (eapply Forall_impl; [done|naive_solver]). rewrite str_bytes.
  by destruct (bytes value).
Qed.

Lemma reference_valid_ids reference :
  RouteLeaseReferenceV3_validate reference = Ok tt ->
  r3_protocol_version reference = 3 /\ r3_broker_protocol_version reference = 1 /\
  r3_broker_generation reference <> 0 /\
  valid_ipc_id (r3_sidecar_instance_id reference) = true /\
  valid_ipc_id (r3_lease_id reference) = true /\ valid_ipc_id (r3_operation_id reference) = true.
Proof.
  unfold RouteLeaseReferenceV3_validate, RouteLeaseBinding_validate,
    RouteBrokerSessionReference_validate. cbn. intros Hv. peel_ok Hv. apply check_v3_ok in Ha.
  case_match eqn:E1; [done|]. case_match eqn:E2; [done|]. by reflect_bools.
Qed.

(** A status the helper can send, in its native encoding, is decoded as it was sent. *)
Theorem native_reply_round_trip state transition reference :
  RouteLeaseReferenceV3_validate reference = Ok tt -> 0 < transition ->
  decode_native_reply (native_reply state transition reference) (Some reference) false =
  Ok {| hs3_protocol_version := 3; hs3_state := state; hs3_transition := transition;
        hs3_reference := Some reference; hs3_error_code := None |}.
Proof.
  intros Hv Ht. destruct (reference_valid_ids reference Hv) as (Hver & Hbv & Hgen & Hs & Hl & Ho).
  assert (Hid : decode_identity (native_reply state transition reference) = Ok (Some reference)).
  { unfold decode_identity. cbn [native_reply nr_sidecar_instance_id nr_route_lease_id nr_operation_id
      nr_broker_generation]. rewrite !bounded_text_round_trip by done. cbn [rbind is_some orb].
    assert ({| r3_protocol_version := ROUTE_HELPER_V3_PROTOCOL_VERSION;
      r3_broker_protocol_version := ROUTE_BROKER_PROTOCOL_VERSION;
      r3_broker_generation := r3_broker_generation reference;
      r3_sidecar_instance_id := r3_sidecar_instance_id reference;
      r3_lease_id := r3_lease_id reference; r3_operation_id := r3_operation_id reference |}
      = reference) as -> by (destruct reference; cbn in Hver, Hbv; by subst). by rewrite Hv. }
  unfold decode_native_reply. rewrite Hid. cbn [native_reply nr_transport_status nr_protocol_version
    nr_state nr_error_code nr_transition decode_transport rbind].
  assert (decode_state (encode_state state) = Ok state) as -> by by destruct state.
  cbn. rewrite bool_decide_true by done. cbn. by destruct transition.
Qed.
