(* ===== verification/TunnelBroker.v ===== *)
(** * TunnelBroker: the sidecar in the hands of the privileged broker

    [src-tauri/src/networking/tunnel_broker_client.rs].  The broker starts the sidecar
    and hands over its pipes; a handle asks it for the status and for the end of
    exactly that session, and goes into quarantine as soon as the ownership is in
    doubt.  The native client (Objective-C, outside the Rust sources) is the class
    [TunnelBrokerGeneration].  The second half shows that the handle and the prepared
    launcher keep the laws of [StdioRuntimeSafety], and with it what a retirement of
    the production controller means for the broker's child. *)

From Stdlib Require Import Ascii String.
From S2P Require Import Prelude Text NetState Config Ipc Sidecar RouteHelperV3 ProductionSession.
From S2P Require Import ProductionController ProductionControllerSafety SidecarTrust StdioRuntime.
From S2P Require Import StdioRuntimeSafety RouteV3Client.

(** ** replies of the broker *)

Record NativeReply := {
  nb_transport_status : Z;
  nb_protocol_version : Z;
  nb_state : Z;
  nb_error_code : Z;
  nb_broker_generation : Z;
  nb_input_fd : Z;
  nb_output_fd : Z;
  nb_sidecar_instance_id : list ascii;
}.

Inductive TunnelBrokerState : Type := BsIdle | BsRunning | BsRouteHeld.

Inductive TunnelBrokerError : Type :=
| BeInvalidRequest | BeUnavailable | BeAlreadyRunning | BeOwnershipMismatch | BeStaleGeneration
| BeRouteHeld | BeHoldMismatch | BeLaunchFailed.

Record TunnelBrokerStatus := { bs_state : TunnelBrokerState; bs_error : option TunnelBrokerError }.

#[global] Instance TunnelBrokerState_eq_dec : EqDecision TunnelBrokerState.
Proof. solve_decision. Defined.

Definition decode_broker_transport (transport_status : Z) : Res unit :=
  match transport_status with
  | 0 => Ok tt
  | 1 => Err OperationTimedOut
  | 5 => Err UnsupportedProtocolVersion
  | 7 => Err InvalidConfiguration
  | 2 | 3 | 4 | 6 => Err SidecarUnavailable
  | _ => Err UnsupportedProtocolVersion
  end.

Definition decode_broker_state (state : Z) : Res TunnelBrokerState :=
  match state with
  | 0 => Ok BsIdle
  | 1 => Ok BsRunning
  | 2 => Ok BsRouteHeld
  | _ => Err UnsupportedProtocolVersion
  end.

Definition decode_broker_error (error_code : Z) : Res (option TunnelBrokerError) :=
  match error_code with
  | 0 => Ok None
  | 1 => Ok (Some BeInvalidRequest)
  | 2 => Ok (Some BeUnavailable)
  | 3 => Ok (Some BeAlreadyRunning)
  | 4 => Ok (Some BeOwnershipMismatch)
  | 5 => Ok (Some BeStaleGeneration)
  | 6 => Ok (Some BeRouteHeld)
  | 7 => Ok (Some BeHoldMismatch)
  | 8 => Ok (Some BeLaunchFailed)
  | _ => Err UnsupportedProtocolVersion
  end.

Definition decode_status_reply (reply : NativeReply) : Res TunnelBrokerStatus :=
  decode_broker_transport (nb_transport_status reply) ;?
  (if negb (nb_protocol_version reply =? TUNNEL_BROKER_PROTOCOL_VERSION)
   then Err UnsupportedProtocolVersion
   else
     let? state := decode_broker_state (nb_state reply) in
     let? error := decode_broker_error (nb_error_code reply) in
     Ok {| bs_state := state; bs_error := error |}).

Definition map_broker_status_error (status : TunnelBrokerStatus) : NetworkErrorCode :=
  match bs_error status with
  | Some BeInvalidRequest => InvalidConfiguration
  | Some BeUnavailable => SidecarUnavailable
  | Some BeAlreadyRunning => InvalidStateTransition
  | Some BeOwnershipMismatch => PermissionDenied
  | Some BeStaleGeneration | Some BeHoldMismatch => InvalidStateTransition
  | Some BeRouteHeld => RouteRollbackFailed
  | Some BeLaunchFailed => TunnelStartFailed
  | None => UnsupportedProtocolVersion
  end.

Definition network_error_to_io (error : NetworkErrorCode) : IoErrorKind :=
  match error with
  | OperationTimedOut => IoTimedOut
  | SidecarUnavailable => IoBrokenPipe
  | PermissionDenied => IoPermissionDenied
  | RouteRollbackFailed => IoWouldBlock
  | InvalidConfiguration | InvalidStateTransition => IoInvalidInput
  | _ => IoInvalidData
  end.

Definition stale_generation_io_error : IoErrorKind := IoNotFound.

Definition owned_fd (raw : Z) : option Z := if raw <? 0 then None else Some raw.

Definition decode_identifier (raw : list ascii) : Res string :=
  match split_nul raw with
  | None => Err UnsupportedProtocolVersion
  | Some (text, rest) =>
      if match text with [] => true | _ => false end || existsb (fun c => negb (byte c =? 0)) rest
      then Err UnsupportedProtocolVersion
      else if utf8_valid text then Ok (str text) else Err UnsupportedProtocolVersion
  end.

Record StartedTunnelBrokerSession := {
  st_reference : TunnelBrokerSessionReference;
  st_input : Z;
  st_output : Z;
}.

Definition decode_start_reply (reply : NativeReply) : Res StartedTunnelBrokerSession :=
  let input := owned_fd (nb_input_fd reply) in
  let output := owned_fd (nb_output_fd reply) in
  let? status := decode_status_reply reply in
  if negb (bool_decide (bs_state status = BsRunning)) || is_some (bs_error status)
  then Err (map_broker_status_error status)
  else
    let? input := ok_or input UnsupportedProtocolVersion in
    let? output := ok_or output UnsupportedProtocolVersion in
    (if negb ((0 <=? nb_protocol_version reply) && (nb_protocol_version reply <=? u8_max))
     then Err UnsupportedProtocolVersion
     else
       let? sidecar_instance_id := decode_identifier (nb_sidecar_instance_id reply) in
       let reference := {| br_protocol_version := nb_protocol_version reply;
                           br_generation := nb_broker_generation reply;
                           br_sidecar_instance_id := sidecar_instance_id |} in
       TunnelBrokerSessionReference_validate reference ;?
       Ok {| st_reference := reference; st_input := input; st_output := output |}).

(** ** the handle of one session *)

(** One native client: the calls on the fixed service. *)
Class TunnelBrokerGeneration (X : Type) := {
  bk_create : Meth X unit;
  bk_start : X -> NativeReply * X;
  bk_status : X -> NativeReply * X;
  bk_stop : X -> NativeReply * X;
}.

Record TunnelBrokerProcessControl := {
  bp_runtime_generation : Z;
  bp_session : TunnelBrokerSessionReference;
  bp_input : option Z;
  bp_output : option Z;
  bp_reaped : option bool;
  bp_recovery_only : bool;
}.

Definition bp_set_runtime_generation (v : Z) (p : TunnelBrokerProcessControl) :=
  {| bp_runtime_generation := v; bp_session := bp_session p; bp_input := bp_input p;
     bp_output := bp_output p; bp_reaped := bp_reaped p; bp_recovery_only := bp_recovery_only p |}.
Definition bp_set_input (v : option Z) (p : TunnelBrokerProcessControl) :=
  {| bp_runtime_generation := bp_runtime_generation p; bp_session := bp_session p; bp_input := v;
     bp_output := bp_output p; bp_reaped := bp_reaped p; bp_recovery_only := bp_recovery_only p |}.
Definition bp_set_output (v : option Z) (p : TunnelBrokerProcessControl) :=
  {| bp_runtime_generation := bp_runtime_generation p; bp_session := bp_session p;
     bp_input := bp_input p; bp_output := v; bp_reaped := bp_reaped p;
     bp_recovery_only := bp_recovery_only p |}.
Definition bp_set_reaped (v : option bool) (p : TunnelBrokerProcessControl) :=
  {| bp_runtime_generation := bp_runtime_generation p; bp_session := bp_session p;
     bp_input := bp_input p; bp_output := bp_output p; bp_reaped := v;
     bp_recovery_only := bp_recovery_only p |}.
Definition bp_set_recovery_only (v : bool) (p : TunnelBrokerProcessControl) :=
  {| bp_runtime_generation := bp_runtime_generation p; bp_session := bp_session p;
     bp_input := bp_input p; bp_output := bp_output p; bp_reaped := bp_reaped p;
     bp_recovery_only := v |}.

Definition bind_runtime_generation (generation : Z) (self : TunnelBrokerProcessControl)
  : Res TunnelBrokerProcessControl :=
  if (generation =? 0) || negb (bp_runtime_generation self =? 0) || is_some (bp_reaped self)
    || bp_recovery_only self
  then Err InvalidStateTransition
  else Ok (bp_set_runtime_generation generation self).

Definition enter_recovery_only (self : TunnelBrokerProcessControl) : TunnelBrokerProcessControl :=
  bp_set_recovery_only true (bp_set_output None (bp_set_input None self)).

Definition take_stdin (self : TunnelBrokerProcessControl) : bool * TunnelBrokerProcessControl :=
  (is_some (bp_input self), bp_set_input None self).
Definition take_stdout (self : TunnelBrokerProcessControl) : bool * TunnelBrokerProcessControl :=
  (is_some (bp_output self), bp_set_output None self).

Section broker.
Context {X : Type} `{TunnelBrokerGeneration X}.
Notation PM A := (M (TunnelBrokerProcessControl * X) IoErrorKind A).

Definition on_broker {A} (call : X -> A * X) : PM A :=
  fun '(p, x) => let (a, x') := call x in (Ok a, (p, x')).
Definition on_handle (f : TunnelBrokerProcessControl -> TunnelBrokerProcessControl) : PM unit :=
  fun '(p, x) => (Ok tt, (f p, x)).

(** The reply is decoded; a reply that cannot be is doubt about the ownership. *)
Definition decoded (reply : NativeReply) : PM TunnelBrokerStatus :=
  match decode_status_reply reply with
  | Ok status => ret status
  | Err error => on_handle enter_recovery_only ;! raise (network_error_to_io error)
  end.

Definition try_wait_status : PM (option bool) :=
  let! self := get in
  match bp_reaped self.1 with
  | Some success => ret (Some success)
  | None =>
      if bp_recovery_only self.1 then raise stale_generation_io_error else
      let! reply := on_broker bk_status in
      let! status := decoded reply in
      match bs_state status, bs_error status with
      | _, Some BeStaleGeneration =>
          on_handle enter_recovery_only ;! raise stale_generation_io_error
      | BsRunning, None | BsRouteHeld, None => ret None
      | _, _ => raise (network_error_to_io (map_broker_status_error status))
      end
  end.

Definition kill_owned : PM unit :=
  let! self := get in
  if bp_recovery_only self.1 then raise stale_generation_io_error else
  if is_some (bp_reaped self.1) then ret tt else
  on_handle (bp_set_input None) ;!
  on_handle (bp_set_output None) ;!
  let! reply := on_broker bk_stop in
  let! status := decoded reply in
  match bs_state status, bs_error status with
  | _, Some BeStaleGeneration =>
      on_handle enter_recovery_only ;! raise stale_generation_io_error
  | BsIdle, None => on_handle (bp_set_reaped (Some true))
  | _, _ => raise (network_error_to_io (map_broker_status_error status))
  end.

(** [Drop]: the last resort for a handle that was neither reaped nor quarantined. *)
Definition process_drop (p : TunnelBrokerProcessControl) (x : X) : X :=
  if is_none (bp_reaped p) && negb (bp_recovery_only p) then (kill_owned (p, x)).2.2 else x.

#[export] Instance TunnelBrokerProcess : SidecarProcessControl X TunnelBrokerProcessControl := {|
  proc_generation := bp_runtime_generation;
  proc_try_wait_status := try_wait_status;
  proc_kill_owned := kill_owned;
  proc_take_stdin := take_stdin;
  proc_take_stdout := take_stdout;
|}.

(** ** preparing and launching *)

Record PreparedTunnelBrokerLauncher := {
  pl_process : option TunnelBrokerProcessControl;
  pl_reference : TunnelBrokerSessionReference;
}.

Definition pl_set_process (v : option TunnelBrokerProcessControl) (l : PreparedTunnelBrokerLauncher) :=
  {| pl_process := v; pl_reference := pl_reference l |}.

(** [TunnelBrokerClient::start]. *)
Definition client_start : Meth X TunnelBrokerProcessControl :=
  fun x => let (reply, x') := bk_start x in
    (let? started := decode_start_reply reply in
     Ok {| bp_runtime_generation := 0; bp_session := st_reference started;
           bp_input := Some (st_input started); bp_output := Some (st_output started);
           bp_reaped := None; bp_recovery_only := false |}, x').

(** [TunnelBrokerSidecarLauncher::prepare]. *)
Definition prepare : Meth X PreparedTunnelBrokerLauncher :=
  bk_create ;!
  let! process := client_start in
  ret {| pl_process := Some process; pl_reference := bp_session process |}.

Definition launch (generation : Z) : Meth (PreparedTunnelBrokerLauncher * X) TunnelBrokerProcessControl :=
  fun '(l, x) =>
    match pl_process l with
    | None => (Err InvalidStateTransition, (l, x))
    | Some process =>
        match bind_runtime_generation generation process with
        | Err e => (Err e, (l, x))
        | Ok process => (Ok process, (pl_set_process None l, x))
        end
    end.

Definition cancel_prepared : Meth (PreparedTunnelBrokerLauncher * X) unit :=
  fun '(l, x) =>
    match pl_process l with
    | None => (Ok tt, (l, x))
    | Some process =>
        let '(killed, (process, x)) := kill_owned (process, x) in
        match killed with
        | Err _ => (Err SidecarUnavailable, (pl_set_process (Some process) l, x))
        | Ok _ =>
            let '(status, (process, x)) := try_wait_status (process, x) in
            match status with
            | Ok (Some _) => (Ok tt, (pl_set_process None l, x))
            | _ => (Err SidecarUnavailable, (pl_set_process (Some process) l, x))
            end
        end
    end.

(** [Drop] of the launcher, then of the handle it may still keep. *)
Definition launcher_drop (l : PreparedTunnelBrokerLauncher) (x : X) : X :=
  let '(_, (l, x)) := cancel_prepared (l, x) in
  match pl_process l with Some process => process_drop process x | None => x end.

#[export] Instance PreparedTunnelBroker
  : StdioSidecarLauncher X PreparedTunnelBrokerLauncher TunnelBrokerProcessControl := {|
  launcher_launch := launch;
  launcher_cancel_prepared := cancel_prepared;
|}.

(** ** what a handle may say *)

(** The answers that settle or unsettle the ownership. *)
Definition stop_confirmed (reply : NativeReply) : bool :=
  match decode_status_reply reply with
  | Ok {| bs_state := BsIdle; bs_error := None |} => true
  | _ => false
  end.
Definition doubtful (reply : NativeReply) : bool :=
  match decode_status_reply reply with
  | Ok {| bs_error := Some BeStaleGeneration |} | Err _ => true
  | _ => false
  end.

(** A handle asks the broker while it is neither reaped nor in quarantine. *)
Definition in_doubt (p : TunnelBrokerProcessControl) : Prop :=
  bp_reaped p = None /\ bp_recovery_only p = false.

Lemma kill_owned_cases p x :
  let '(r, (p', x')) := kill_owned (p, x) in
  bp_runtime_generation p' = bp_runtime_generation p /\ bp_session p' = bp_session p /\
  if bp_recovery_only p then r = Err stale_generation_io_error /\ p' = p /\ x' = x
  else match bp_reaped p with
  | Some _ => r = Ok tt /\ p' = p /\ x' = x
  | None =>
      x' = (bk_stop x).2 /\ bp_input p' = None /\ bp_output p' = None /\
      bp_recovery_only p' = doubtful (bk_stop x).1 /\
      bp_reaped p' = (if stop_confirmed (bk_stop x).1 then Some true else None) /\
      (r = Ok tt <-> stop_confirmed (bk_stop x).1 = true)
  end.
Proof.
  unfold kill_owned, bind, get, on_handle, on_broker, decoded, doubtful, stop_confirmed, raise, ret.
  cbn. destruct (bp_recovery_only p) eqn:Er; [done|]. destruct (bp_reaped p) eqn:Ep; [done|]. cbn.
  destruct (bk_stop x) as [reply x']. cbn.
  destruct (decode_status_reply reply) as [[[] [[]|]]|e]; cbn; rewrite ?Ep; by split_and!.
Qed.

Lemma try_wait_cases p x :
  let '(r, (p', x')) := try_wait_status (p, x) in
  bp_runtime_generation p' = bp_runtime_generation p /\ bp_session p' = bp_session p /\
  bp_reaped p' = bp_reaped p /\
  match bp_reaped p with
  | Some success => r = Ok (Some success) /\ p' = p /\ x' = x
  | None =>
      (forall success, r <> Ok (Some success)) /\
      if bp_recovery_only p then r = Err stale_generation_io_error /\ p' = p /\ x' = x
      else x' = (bk_status x).2 /\ bp_recovery_only p' = doubtful (bk_status x).1
  end.
Proof.
  unfold try_wait_status, bind, get, on_handle, on_broker, decoded, doubtful, raise, ret. cbn.
  destruct (bp_reaped p) eqn:Ep; [done|]. destruct (bp_recovery_only p) eqn:Er; [done|]. cbn.
  destruct (bk_status x) as [reply x']. cbn.
  destruct (decode_status_reply reply) as [[[] [[]|]]|e]; cbn; rewrite ?Ep, ?Er; by split_and!.
Qed.

(** Everything that can be done with a handle. *)
Inductive HandleOp : Type :=
| OpTryWait
| OpKill
| OpTakeStdin
| OpTakeStdout
| OpBind (generation : Z).

Definition handle_op (op : HandleOp) (s : TunnelBrokerProcessControl * X)
  : TunnelBrokerProcessControl * X :=
  match op with
  | OpTryWait => (try_wait_status s).2
  | OpKill => (kill_owned s).2
  | OpTakeStdin => ((take_stdin s.1).2, s.2)
  | OpTakeStdout => ((take_stdout s.1).2, s.2)
  | OpBind generation =>
      (match bind_runtime_generation generation s.1 with Ok p => p | Err _ => s.1 end, s.2)
  end.
Definition handle_run (ops : list HandleOp) s := foldl (fun s op => handle_op op s) s ops.

(** A settled handle (reaped, or in quarantine) changes neither its verdict nor the
    broker. *)
Lemma handle_op_settled op p x :
  ~ in_doubt p ->
  let '(p', x') := handle_op op (p, x) in
  x' = x /\ bp_reaped p' = bp_reaped p /\ bp_recovery_only p' = bp_recovery_only p.
Proof.
  unfold in_doubt. intros Hd. pose proof (kill_owned_cases p x) as Hk. pose proof (try_wait_cases p x) as Ht.
  destruct op; cbn [handle_op fst snd].
  - destruct (try_wait_status (p, x)) as [r [p' x']]. cbn. destruct Ht as (_ & _ & Hr & Ht).
    destruct (bp_reaped p) eqn:Er; [destruct Ht as (_ & -> & ->); by rewrite Er|].
    destruct (bp_recovery_only p) eqn:Eq; [destruct Ht as (_ & _ & -> & ->); by rewrite Er, Eq|by destruct Hd].
  - destruct (kill_owned (p, x)) as [r [p' x']]. cbn. destruct Hk as (_ & _ & Hk).
    destruct (bp_recovery_only p) eqn:Eq; [destruct Hk as (_ & -> & ->); by rewrite Eq|].
    destruct (bp_reaped p) eqn:Er; [destruct Hk as (_ & -> & ->); by rewrite Er, Eq|by destruct Hd].
  - done.
  - done.
  - unfold bind_runtime_generation. by destruct (_ || _).
Qed.

Lemma handle_run_settled ops : forall p x,
  ~ in_doubt p ->
  let '(p', x') := handle_run ops (p, x) in
  x' = x /\ bp_reaped p' = bp_reaped p /\ bp_recovery_only p' = bp_recovery_only p.
Proof.
  induction ops as [|op ops IH]; intros p x Hd; [done|]. cbn [handle_run foldl].
  pose proof (handle_op_settled op p x Hd) as Ho. destruct (handle_op op (p, x)) as [p1 x1].
  destruct Ho as (-> & Hr & Hq). specialize (IH p1 x). unfold handle_run in IH.
  destruct (foldl _ (p1, x) ops) as [p' x'].
  rewrite <- Hr, <- Hq. apply IH. unfold in_doubt in *. by rewrite Hr, Hq.
Qed.

(** Only a confirmed stop reaps. *)
Lemma handle_op_reaps op p x b :
  bp_reaped p = None -> bp_reaped (handle_op op (p, x)).1 = Some b ->
  op = OpKill /\ in_doubt p /\ stop_confirmed (bk_stop x).1 = true /\
  (handle_op op (p, x)).2 = (bk_stop x).2 /\ b = true.
Proof.
  intros Hn Hb. pose proof (kill_owned_cases p x) as Hk. pose proof (try_wait_cases p x) as Ht.
  destruct op; cbn [handle_op fst snd take_stdin take_stdout bp_set_input bp_set_output bp_reaped] in *; try congruence.
  - destruct (try_wait_status (p, x)) as [r [p' x']]. cbn in *. destruct Ht as (_ & _ & Hr & _). congruence.
  - destruct (kill_owned (p, x)) as [r [p' x']]. cbn in *. destruct Hk as (_ & _ & Hk). rewrite Hn in Hk.
    destruct (bp_recovery_only p) eqn:Er; [by destruct Hk as (_ & -> & _); congruence|].
    destruct Hk as (-> & _ & _ & _ & Hr & _). rewrite Hr in Hb. by destruct (stop_confirmed _); simplify_eq.
  - unfold bind_runtime_generation in Hb. destruct (_ || _); cbn in Hb; congruence.
Qed.

Lemma handle_op_generation op p x :
  bp_runtime_generation p <> 0 ->
  bp_runtime_generation (handle_op op (p, x)).1 = bp_runtime_generation p.
Proof.
  intros Hg. pose proof (kill_owned_cases p x) as Hk. pose proof (try_wait_cases p x) as Ht.
  destruct op; cbn [handle_op fst snd]; try done.
  - by destruct (try_wait_status (p, x)) as [r [p' x']], Ht.
  - by destruct (kill_owned (p, x)) as [r [p' x']], Hk.
  - unfold bind_runtime_generation. destruct (_ || _) eqn:E; [done|]. reflect_bools. lia.
Qed.

(** The handle of a broker session settles at most once, and only by a stop the
    broker confirmed as idle: a handle that is settled or quarantined asks the
    broker nothing more, a quarantined one answers every call as stale, and a
    bound generation is never rebound. *)
Theorem broker_handle_settles_once ops p x :
  let '(p', x') := handle_run ops (p, x) in
  (* reaped or in quarantine: for good, and the broker is left alone *)
  (~ in_doubt p -> x' = x /\ bp_reaped p' = bp_reaped p /\ bp_recovery_only p' = bp_recovery_only p) /\
  (* a quarantined child is never reported as reaped *)
  (bp_reaped p' = None -> bp_recovery_only p' = true ->
     try_wait_status (p', x') = (Err stale_generation_io_error, (p', x')) /\
     kill_owned (p', x') = (Err stale_generation_io_error, (p', x'))) /\
  (* reaped means that the broker confirmed the stop, to a handle still in doubt *)
  (forall b, bp_reaped p = None -> bp_reaped p' = Some b ->
     exists before after p1 x1, ops = before ++ OpKill :: after /\
       handle_run before (p, x) = (p1, x1) /\ in_doubt p1 /\
       stop_confirmed (bk_stop x1).1 = true /\ x' = (bk_stop x1).2 /\ b = true) /\
  (* the runtime generation is bound at most once *)
  (bp_runtime_generation p <> 0 -> bp_runtime_generation p' = bp_runtime_generation p).
Proof.
  pose proof (handle_run_settled ops p x) as Hset.
  destruct (handle_run ops (p, x)) as [p' x'] eqn:Erun. refine (conj Hset (conj _ (conj _ _))).
  - intros Hr Hq. pose proof (kill_owned_cases p' x') as Hk. pose proof (try_wait_cases p' x') as Ht.
    rewrite Hr, Hq in *. destruct (try_wait_status _) as [? []], (kill_owned _) as [? []]. naive_solver.
  - clear Hset. revert p x Erun. induction ops as [|op ops IH]; intros p x Erun b Hn Hb.
    { cbn in Erun. congruence. }
    cbn [handle_run foldl] in Erun. destruct (handle_op op (p, x)) as [p1 x1] eqn:Eop.
    destruct (bp_reaped p1) as [b1|] eqn:E1.
    + pose proof (handle_op_reaps op p x b1 Hn) as Hop. rewrite Eop in Hop.
      destruct (Hop E1) as (-> & Hd & Hc & Hx & ->). cbn in Hx. subst x1.
      pose proof (handle_run_settled ops p1 (bk_stop x).2) as Hs. unfold handle_run in Hs. rewrite Erun in Hs.
      destruct Hs as (-> & Hr & _); [intros [? _]; congruence|].
      exists [], ops, p, x. split_and!; try done. congruence.
    + destruct (IH p1 x1 Erun b E1 Hb) as (before & after & p2 & x2 & -> & Hrun & ? & ? & ? & ?).
      exists (op :: before), after, p2, x2. split_and!; try done.
      cbn [handle_run foldl]. by rewrite Eop.
  - clear Hset. revert p x Erun. induction ops as [|op ops IH]; intros p x Erun Hg.
    { cbn in Erun. congruence. }
    cbn [handle_run foldl] in Erun. pose proof (handle_op_generation op p x Hg) as Ho.
    destruct (handle_op op (p, x)) as [p1 x1]. cbn in Ho. rewrite <- Ho. eapply IH; [exact Erun|]. congruence.
Qed.
End broker.

(** ** the laws of the broker *)

(** [running x]: the sidecar of the session may be alive.  The broker answers a stop
    with [Idle] and no error only after it has killed and reaped exactly that child;
    neither a stop nor a status starts one, and nothing the runtime does beside the
    broker does. *)
Definition still {X A} (running : X -> bool) (f : X -> A * X) : Prop :=
  forall x, running x = false -> running (f x).2 = false.

Class BrokerLaws (X : Type) `{TunnelBrokerGeneration X, StdioIo X, TrustOs X} := {
  running : X -> bool;
  law_stop_confirmed : forall x, stop_confirmed (bk_stop x).1 = true -> running (bk_stop x).2 = false;
  law_stop_still : still running bk_stop;
  law_status_still : still running bk_status;
  law_now_still : still running io_now;
  law_sleep_still : forall d, still running (io_sleep d);
  law_write_still : forall b, still running (io_write_line b);
  law_recv_still : forall d, still running (io_recv_timeout d);
  law_reader_still : still running io_spawn_reader;
  law_flag_still : forall t, still running (io_cancel_requested t);
  law_trust_still : forall path manifest, still running (verify_macos_sidecar path manifest);
}.

Section composition.
Context {X : Type} `{BrokerLaws X} `{SidecarJson} `{Base64Lib}.
Notation P := TunnelBrokerProcessControl.
Notation L := PreparedTunnelBrokerLauncher.

(** A handle that says it is reaped says the truth. *)
Definition truthful (p : P) (x : X) : Prop := bp_reaped p <> None -> running x = false.

Lemma kill_owned_truthful p x :
  truthful p x ->
  let '(r, (p', x')) := kill_owned (p, x) in truthful p' x' /\ (r = Ok tt -> bp_reaped p' <> None).
Proof.
  intros Hp. pose proof (kill_owned_cases p x) as Hk. destruct (kill_owned (p, x)) as [r [p' x']].
  destruct Hk as (_ & _ & Hk). destruct (bp_recovery_only p); [by destruct Hk as (-> & -> & ->)|].
  destruct (bp_reaped p) eqn:Er; [destruct Hk as (_ & -> & ->); split; [done|by rewrite Er]|].
  destruct Hk as (-> & _ & _ & _ & Hr & Hok). unfold truthful. rewrite Hr.
  destruct (stop_confirmed (bk_stop x).1) eqn:Es; [by split; [intros; apply law_stop_confirmed|]|].
  split; [done|]. naive_solver.
Qed.

Lemma try_wait_truthful p x :
  truthful p x ->
  let '(r, (p', x')) := try_wait_status (p, x) in
  truthful p' x' /\ (forall success, r = Ok (Some success) -> bp_reaped p' <> None).
Proof.
  intros Hp. pose proof (try_wait_cases p x) as Ht. destruct (try_wait_status (p, x)) as [r [p' x']].
  destruct Ht as (_ & _ & Hr & Ht). destruct (bp_reaped p) eqn:Er.
  { destruct Ht as (_ & -> & ->). split; [done|]. by rewrite Er. }
  destruct Ht as [Hn Ht]. split; [|intros b Hb; by destruct (Hn b)]. unfold truthful. by rewrite Hr.
Qed.

#[export] Instance broker_ghost : ProcessGhost X L P := {|
  alive := running;
  owns := truthful;
  holds l x := match pl_process l with None => running x = false | Some p => truthful p x end;
  spent l := pl_process l = None;
|}.

Lemma still_calm {A} (f : X -> A * X) : still running f -> calm f.
Proof.
  intros Hf x. split_and!; cbn; [apply Hf|intros p Hp Hr; by apply Hf, Hp|].
  intros l Hl. destruct (pl_process l); [intros Hr; by apply Hf, Hl|by apply Hf].
Qed.
Hint Resolve law_now_still law_sleep_still law_write_still law_recv_still law_reader_still
  law_flag_still law_trust_still still_calm : ky.

Lemma launch_laws generation (l : L) x :
  holds l x ->
  let '(r, (l', x')) := launch generation (l, x) in
  match r with
  | Ok p => truthful p x' /\ spent l'
  | Err _ => holds l' x'
  end.
Proof.
  cbn. destruct (pl_process l) as [p|] eqn:El; [|by rewrite El]. intros Hp.
  unfold bind_runtime_generation. destruct (_ || _); [by rewrite El|done].
Qed.

Lemma cancel_prepared_laws (l : L) x :
  holds l x ->
  let '(r, (l', x')) := cancel_prepared (l, x) in
  (r = Ok tt -> running x' = false) /\ holds l' x'.
Proof.
  unfold cancel_prepared. cbn [holds broker_ghost]. destruct (pl_process l) as [p|] eqn:El; [|by rewrite El].
  intros Hp.
  pose proof (kill_owned_truthful p x Hp) as Hk. destruct (kill_owned (p, x)) as [killed [p1 x1]].
  destruct Hk as [Hp1 Hk]. destruct killed as [[]|e]; [|by split].
  pose proof (try_wait_truthful p1 x1 Hp1) as Ht. destruct (try_wait_status (p1, x1)) as [st [p2 x2]].
  destruct Ht as [Hp2 Ht]. destruct st as [[b|]|e]; [|by split..].
  pose proof (Hp2 (Ht b eq_refl)) as Hrun. by split.
Qed.

(** The handle and the prepared launcher are what the stdio runtime relies on. *)
#[export] Instance broker_process_laws : ProcessLaws X L P.
Proof.
  refine {| process_ghost := broker_ghost |}; cbn [proc_take_stdin proc_take_stdout proc_try_wait_status
    proc_kill_owned launcher_launch launcher_cancel_prepared TunnelBrokerProcess PreparedTunnelBroker];
    auto with ky.
  - intros p x Hp. pose proof (try_wait_truthful p x Hp) as Ht.
    destruct (try_wait_status (p, x)) as [r [p' x']]. destruct Ht as [Hp' Ht]. split; [done|].
    intros b Hb. by eapply Hp', Ht.
  - intros p x Hp. pose proof (kill_owned_truthful p x Hp) as Hk.
    destruct (kill_owned (p, x)) as [r [p' x']]. apply Hk.
  - intros generation l x Hl. exact (launch_laws generation l x Hl).
  - intros l x Hl. exact (cancel_prepared_laws l x Hl).
  - intros l x Hs Hr. cbn in *. by rewrite Hs.
Defined.

Context (fuel : nat).
#[local] Instance broker_runtime : AsyncProductionRuntime (StdioSidecarRuntime X L P) :=
  AsyncStdioSidecarRuntime fuel.

(** C3: the production controller over the stdio runtime over a prepared broker
    session keeps the controller's contract: once it has answered a retirement
    with a receipt, the broker has confirmed that its child is gone, it stays
    gone whatever happens afterwards, and no more than one generation was ever
    launched. *)
Theorem retirement_ends_the_broker_session executable launch l x0 x w claimed now receipt c' w' :
  prepare x0 = (Ok l, x) ->
  world_reach (World_new (spawn_broker_bound_production_controller
    (with_launcher executable l x) launch)) w ->
  dispatch claimed now CmdRetire (w_controller w) = (Ok (ReRetire (Ok receipt)), c') ->
  world_reach (set_controller c' w) w' ->
  (* the broker has confirmed that its child is gone, and none is launched any more *)
  running (sr_world (pc_runtime (w_controller w'))) = false /\
  sr_next_generation (pc_runtime (w_controller w')) <= 1.
Proof.
  intros Hp Hr Hd Hr'.
  assert (Hwf : rt_wf (with_launcher executable l x)).
  { cbn. unfold prepare, bind, client_start, ret in Hp. destruct (bk_create x0) as [[[]|] x1]; [|done].
    destruct (bk_start x1) as [reply x2]. destruct (decode_start_reply reply); cbn in Hp; [|done].
    simplify_eq. split; [|done]. intros Hn. by destruct Hn. }
  set (c0 := spawn_broker_bound_production_controller _ launch) in *.
  assert (Hs : spawned c0) by (by eexists _, _, _, _, (BrokerBound _ false)).
  split; [exact (retire_reply_absent c0 w claimed now receipt c' w' Hs Hr Hd Hr')|].
  destruct (retire_reply c0 w claimed now receipt c' w' Hs Hr Hd Hr') as (m & Hm & Hi' & _ & _ & _ & [Hla _]).
  rewrite Hm. destruct Hi' as ([_ _ Hn Hb _ _ _] & _). cbn in Hn, Hla |- *.
  assert (is_broker_bound (pc_mode c') = true) as Hbb by by destruct (pc_mode c'). specialize (Hb Hbb). lia.
Qed.
End composition.
