(* ===== verification/RouteBoundary.v ===== *)
(** * RouteBoundary: the interface between the production service and its routes

    The trait [ProductionRouteBoundary] of [production_service.rs] with the values
    it exchanges, the retirement issuer of [route_helper_client.rs], and the laws
    every boundary keeps and the service relies on. *)

From Stdlib Require Import Ascii String.
From S2P Require Import Prelude Text NetState Config Ipc RouteV3Client ProductionSession.

Inductive ProductionRouteDisposition : Type :=
| RouteReusable
| RouteBusy
| RouteRecoveryOnly
| RouteRetired.

#[global] Instance ProductionRouteDisposition_eq_dec : EqDecision ProductionRouteDisposition.
Proof. solve_decision. Defined.

Record ProductionRouteRetirementReceipt := {
  rt_boundary_incarnation : Z;
  rt_native_generation : Z;
}.

Inductive ProductionRouteRetirementResult : Type :=
| RetireRetired (receipt : ProductionRouteRetirementReceipt)
| RetireBusy
| RetireRecoveryOnly
| RetireAlreadyRetired.

(** [RouteRetirementIssuer::allocate], on the process-wide counter. *)
Record RouteRetirementIssuer := { boundary_incarnation : Z }.

Definition issuer_allocate : Meth Z RouteRetirementIssuer :=
  let! next := get in
  match checked_add u64_max next 1 with
  | Some after =>
      modify (fun _ => after) ;!
      ret {| boundary_incarnation := next |}
  | None => raise InvalidStateTransition
  end.

(** [ProductionRouteRetirementReceipt::issued]. *)
Definition receipt_issued (issuer : RouteRetirementIssuer) (native_generation : Z)
  : ProductionRouteRetirementReceipt :=
  {| rt_boundary_incarnation := boundary_incarnation issuer;
     rt_native_generation := native_generation |}.

Class ProductionRouteBoundary (B : Type) := {
  rb_disposition : B -> ProductionRouteDisposition;
  rb_try_retire : B -> ProductionRouteRetirementResult * B;
  rb_apply : NetworkProfile -> string -> TunnelDeviceFacts -> Z -> MihomoTunSnapshot -> Meth B unit;
  rb_apply_broker_bound : NetworkProfile -> string -> TunnelDeviceFacts -> Z -> MihomoTunSnapshot ->
    ControllerStartReceipt -> Meth B unit;
  rb_heartbeat : string -> Meth B unit;
  rb_rollback : string -> Meth B unit;
}.

(** A call of the trait. *)
Inductive BoundaryCall : Type :=
| CallRetire
| CallApply (profile : NetworkProfile) (operation_id : string) (tunnel : TunnelDeviceFacts)
    (revision : Z) (mihomo : MihomoTunSnapshot)
| CallApplyBound (profile : NetworkProfile) (operation_id : string) (tunnel : TunnelDeviceFacts)
    (revision : Z) (mihomo : MihomoTunSnapshot) (receipt : ControllerStartReceipt)
| CallHeartbeat (operation_id : string)
| CallRollback (operation_id : string).

Definition boundary_step {B} `{ProductionRouteBoundary B} (call : BoundaryCall) (b : B) : B :=
  match call with
  | CallRetire => (rb_try_retire b).2
  | CallApply p op t rev m => (rb_apply p op t rev m b).2
  | CallApplyBound p op t rev m r => (rb_apply_broker_bound p op t rev m r b).2
  | CallHeartbeat op => (rb_heartbeat op b).2
  | CallRollback op => (rb_rollback op b).2
  end.

(** What the service relies on: retirement is decided by the disposition, issues
    one receipt, and closes the boundary for good. *)
Class RouteBoundaryLaws (B : Type) `{ProductionRouteBoundary B} := {
  law_retire_iff_reusable : forall b,
    match rb_disposition b with
    | RouteReusable => exists receipt, (rb_try_retire b).1 = RetireRetired receipt /\
        rb_disposition (rb_try_retire b).2 = RouteRetired
    | RouteBusy => rb_try_retire b = (RetireBusy, b)
    | RouteRecoveryOnly => rb_try_retire b = (RetireRecoveryOnly, b)
    | RouteRetired => rb_try_retire b = (RetireAlreadyRetired, b)
    end;
  law_retired_is_closed : forall b call,
    rb_disposition b = RouteRetired -> boundary_step call b = b;
  law_not_reusable_no_apply : forall b p op t rev m r,
    rb_disposition b <> RouteReusable ->
    rb_apply_broker_bound p op t rev m r b = (Err InvalidStateTransition, b);
}.
