(* ===== verification/BrokerBoundRoute.v ===== *)
(** * BrokerBoundRoute: routes under a broker-bound lease

    [src-tauri/src/networking/broker_bound_route_v3.rs]: the seam that turns a sealed
    route authority into calls of the helper's third protocol, and the deferred
    boundary the production service uses, which opens one lease after the carrier is
    up and freezes itself when an answer is not exactly the expected one.  The helper
    service is a class over the state of the world; a client of it is a handle. *)

From Stdlib Require Import Ascii String.
From S2P Require Import Prelude Text NetState Config Ipc Sidecar RouteHelper RouteHelperV3.
From S2P Require Import ProductionSession ProductionRouteV3 RouteV3Client RouteBoundary.

(** ** the operations of the helper *)

Class RouteHelperV3Operations (W C : Type) := {
  op_discover : C -> Meth W RouteHelperV3Status;
  op_begin : C -> RouteLeaseOwnerV3 -> Meth W RouteHelperV3Status;
  op_recover : C -> RouteLeaseOwnerV3 -> Meth W RouteHelperV3Status;
  op_apply : C -> RouteLeaseReferenceV3 -> Meth W RouteHelperV3Status;
  op_rollback : C -> RouteLeaseReferenceV3 -> Meth W RouteHelperV3Status;
  op_heartbeat : C -> RouteLeaseReferenceV3 -> Meth W RouteHelperV3Status;
  op_status : C -> RouteLeaseReferenceV3 -> Meth W RouteHelperV3Status;
}.

#[global] Instance native_operations (N : Type) `{NativeV3 N}
  : RouteHelperV3Operations N RouteHelperV3Client := {
  op_discover := client_discover;
  op_begin := client_begin;
  op_recover := client_recover;
  op_apply := client_apply;
  op_rollback := client_rollback;
  op_heartbeat := client_heartbeat;
  op_status := client_status;
}.

(** [RouteHelperV3Client::connect]. *)
Class RouteHelperV3Connect (W C : Type) := { op_connect : Meth W C }.

#[global] Instance native_connect (N : Type) `{NativeV3 N}
  : RouteHelperV3Connect N RouteHelperV3Client := { op_connect := client_connect }.

Record BrokerBoundRouteHelperV3 (C : Type) := {
  bb_client : C;
  bb_authorization : BrokerRouteAuthorization;
  bb_owner : RouteLeaseOwnerV3;
  bb_reference : RouteLeaseReferenceV3;
  bb_runtime_generation : Z;
}.
Arguments bb_client {C} _.
Arguments bb_authorization {C} _.
Arguments bb_owner {C} _.
Arguments bb_reference {C} _.
Arguments bb_runtime_generation {C} _.

Section seam.
Context {W C : Type} `{RouteHelperV3Operations W C, RouteHelperV3Connect W C}.

(** The owner is built as in [production_route_v3.rs]. *)
Definition bound_new (client : C) (authorization : BrokerRouteAuthorization) (profile_revision : Z)
  (active_mihomo_tun_interfaces private_cidrs : list string)
  : Res (BrokerBoundRouteHelperV3 C) :=
  let owner := owner_from_authorization authorization profile_revision
                 active_mihomo_tun_interfaces private_cidrs in
  map_err network_code (RouteLeaseOwnerV3_validate owner) ;?
  let reference := from_owner owner in
  map_err network_code (RouteLeaseReferenceV3_validate reference) ;?
  Ok {| bb_client := client; bb_authorization := authorization; bb_owner := owner;
        bb_reference := reference;
        bb_runtime_generation := ra_runtime_generation authorization |}.

Definition bound_validate_authority (self : BrokerBoundRouteHelperV3 C) : Res unit :=
  map_err network_code (RouteLeaseOwnerV3_validate (bb_owner self)) ;?
  (if negb (bool_decide (owner_binding (bb_owner self) = ra_binding (bb_authorization self)))
     || negb (bool_decide (o3_tunnel (bb_owner self) = ra_tunnel (bb_authorization self)))
   then Err AuthenticationFailed else Ok tt) ;?
  map_err network_code (matches_owner (bb_reference self) (bb_owner self)).

Definition bound_discover (self : BrokerBoundRouteHelperV3 C) : Meth W RouteHelperV3Status :=
  lift (bound_validate_authority self) ;! op_discover (bb_client self).
Definition bound_begin (self : BrokerBoundRouteHelperV3 C) : Meth W RouteHelperV3Status :=
  lift (bound_validate_authority self) ;! op_begin (bb_client self) (bb_owner self).
Definition bound_recover (self : BrokerBoundRouteHelperV3 C) : Meth W RouteHelperV3Status :=
  lift (bound_validate_authority self) ;! op_recover (bb_client self) (bb_owner self).
Definition bound_apply (self : BrokerBoundRouteHelperV3 C) : Meth W RouteHelperV3Status :=
  lift (bound_validate_authority self) ;! op_apply (bb_client self) (bb_reference self).
Definition bound_rollback (self : BrokerBoundRouteHelperV3 C) : Meth W RouteHelperV3Status :=
  lift (bound_validate_authority self) ;! op_rollback (bb_client self) (bb_reference self).
Definition bound_heartbeat (self : BrokerBoundRouteHelperV3 C) : Meth W RouteHelperV3Status :=
  lift (bound_validate_authority self) ;! op_heartbeat (bb_client self) (bb_reference self).
Definition bound_status (self : BrokerBoundRouteHelperV3 C) : Meth W RouteHelperV3Status :=
  lift (bound_validate_authority self) ;! op_status (bb_client self) (bb_reference self).

Definition bound_is_idle (self : BrokerBoundRouteHelperV3 C) : Meth W bool :=
  let! status := bound_discover self in
  ret (match hs3_state status with V3Idle | V3Released => true | _ => false end).

(** [BrokerBoundRouteHelperV3Factory::connect], which the native session factory
    wraps. *)
Definition factory_create (authorization : BrokerRouteAuthorization) (profile_revision : Z)
  (active_mihomo_tun_interfaces private_cidrs : list string)
  : Meth W (BrokerBoundRouteHelperV3 C) :=
  let! client := op_connect in
  lift (bound_new client authorization profile_revision active_mihomo_tun_interfaces private_cidrs).

(** ** the deferred boundary *)

Context `{UrlLib} `{Base64Lib}.

Record DeferredV3ProductionRouteBoundary := {
  db_world : W;
  db_active : option (BrokerBoundRouteHelperV3 C);
  db_active_operation_id : option string;
  db_retirement_issuer : RouteRetirementIssuer;
  db_native_generation : Z;
  db_recovery_required : bool;
  db_retired : bool;
}.
Notation DB := DeferredV3ProductionRouteBoundary.

Definition db_set_world (v : W) (self : DB) : DB :=
  {| db_world := v; db_active := db_active self;
     db_active_operation_id := db_active_operation_id self;
     db_retirement_issuer := db_retirement_issuer self;
     db_native_generation := db_native_generation self;
     db_recovery_required := db_recovery_required self; db_retired := db_retired self |}.
Definition db_set_active (session : option (BrokerBoundRouteHelperV3 C)) (op : option string)
  (self : DB) : DB :=
  {| db_world := db_world self; db_active := session; db_active_operation_id := op;
     db_retirement_issuer := db_retirement_issuer self;
     db_native_generation := db_native_generation self;
     db_recovery_required := db_recovery_required self; db_retired := db_retired self |}.
Definition db_set_recovery (v : bool) (self : DB) : DB :=
  {| db_world := db_world self; db_active := db_active self;
     db_active_operation_id := db_active_operation_id self;
     db_retirement_issuer := db_retirement_issuer self;
     db_native_generation := db_native_generation self;
     db_recovery_required := v; db_retired := db_retired self |}.
Definition db_set_retired (v : bool) (self : DB) : DB :=
  {| db_world := db_world self; db_active := db_active self;
     db_active_operation_id := db_active_operation_id self;
     db_retirement_issuer := db_retirement_issuer self;
     db_native_generation := db_native_generation self;
     db_recovery_required := db_recovery_required self; db_retired := v |}.

Definition boundary_new (world : W) : Meth Z DB :=
  let! issuer := issuer_allocate in
  ret {| db_world := world; db_active := None; db_active_operation_id := None;
         db_retirement_issuer := issuer; db_native_generation := 1;
         db_recovery_required := false; db_retired := false |}.

Definition on_world {A} (m : Meth W A) : Meth DB A := zoom db_world db_set_world m.

Definition require_live (self : DB) : Res unit :=
  if db_retired self then Err InvalidStateTransition else Ok tt.

(** The start shared by the three checks on a status: protocol and error. *)
Definition status_usable (status : RouteHelperV3Status) : Res unit :=
  (if negb (hs3_protocol_version status =? ROUTE_HELPER_V3_PROTOCOL_VERSION)
   then Err UnsupportedProtocolVersion else Ok tt) ;?
  match hs3_error_code status with Some error => Err error | None => Ok tt end.

Definition validate_active_status (self : DB) (status : RouteHelperV3Status)
  (expected : RouteHelperV3State) (expected_transition : Z) : Res unit :=
  status_usable status ;?
  let? reference := ok_or (bb_reference <$> db_active self) InvalidStateTransition in
  if negb (bool_decide (hs3_state status = expected))
    || negb (bool_decide (hs3_reference status = Some reference))
    || negb (hs3_transition status =? expected_transition)
  then Err AuthenticationFailed else Ok tt.

Definition validate_discover_status (status : RouteHelperV3Status) : Res unit :=
  status_usable status ;?
  if negb (bool_decide (hs3_state status = V3Idle)) || is_some (hs3_reference status)
    || negb (hs3_transition status =? 0)
  then Err InvalidStateTransition else Ok tt.

Definition validate_rollback_status (self : DB) (status : RouteHelperV3Status) : Res unit :=
  status_usable status ;?
  let? reference := ok_or (bb_reference <$> db_active self) InvalidStateTransition in
  match hs3_state status with
  | V3Released =>
      ensure (bool_decide (hs3_reference status = Some reference) && (0 <? hs3_transition status))
        AuthenticationFailed
  | V3Idle =>
      ensure (is_none (hs3_reference status) && (hs3_transition status =? 0)) AuthenticationFailed
  | _ => Err AuthenticationFailed
  end.

(** [return Err(self.freeze(error))]. *)
Definition freeze {A} (error : NetworkErrorCode) : Meth DB A :=
  modify (db_set_recovery true) ;! raise error.

(** A call of the active session whose status must pass a check; whatever goes wrong
    freezes the boundary. *)
Definition checked_call (call : BrokerBoundRouteHelperV3 C -> Meth W RouteHelperV3Status)
  (check : DB -> RouteHelperV3Status -> Res unit) : Meth DB unit :=
  let! self := get in
  let! status := attempt (match db_active self with
                          | Some active => on_world (call active)
                          | None => raise InvalidStateTransition
                          end) in
  match status with
  | Err error => freeze error
  | Ok status =>
      let! self := get in
      match check self status with
      | Err error => freeze error
      | Ok _ => ret tt
      end
  end.

Definition db_disposition (self : DB) : ProductionRouteDisposition :=
  if db_retired self then RouteRetired
  else if db_recovery_required self then RouteRecoveryOnly
  else if is_some (db_active self) || is_some (db_active_operation_id self) then RouteBusy
  else RouteReusable.

Definition db_try_retire (self : DB) : ProductionRouteRetirementResult * DB :=
  match db_disposition self with
  | RouteBusy => (RetireBusy, self)
  | RouteRecoveryOnly => (RetireRecoveryOnly, self)
  | RouteRetired => (RetireAlreadyRetired, self)
  | RouteReusable =>
      (RetireRetired (receipt_issued (db_retirement_issuer self) (db_native_generation self)),
       db_set_retired true self)
  end.

Definition db_apply (profile : NetworkProfile) (operation_id : string) (tunnel : TunnelDeviceFacts)
  (profile_revision : Z) (mihomo : MihomoTunSnapshot) : Meth DB unit :=
  raise InvalidStateTransition.

(** The end of [apply_broker_bound]: discover, begin, apply with the new session. *)
Definition open_lease : Meth DB unit :=
  checked_call bound_discover (fun _ => validate_discover_status) ;!
  checked_call bound_begin (fun self status => validate_active_status self status V3Held 2) ;!
  checked_call bound_apply (fun self status => validate_active_status self status V3Applied 3) ;!
  modify (db_set_recovery false).

Definition db_apply_broker_bound (profile : NetworkProfile) (operation_id : string)
  (tunnel : TunnelDeviceFacts) (profile_revision : Z) (mihomo : MihomoTunSnapshot)
  (receipt : ControllerStartReceipt) : Meth DB unit :=
  let! self := get in
  lift (require_live self) ;!
  if is_some (db_active self) || is_some (db_active_operation_id self) || db_recovery_required self
  then raise InvalidStateTransition else
  lift (NetworkProfile_validate profile) ;!
  lift (validate_for mihomo (interface_name tunnel)) ;!
  let! authorization := lift (authorize_routes receipt tunnel operation_id operation_id) in
  let! session := on_world (factory_create authorization profile_revision
                              (active_mihomo_tun_interfaces mihomo)
                              (private_cidrs (site profile))) in
  modify (db_set_active (Some session) (Some operation_id)) ;!
  open_lease.

Definition db_heartbeat (operation_id : string) : Meth DB unit :=
  let! self := get in
  lift (require_live self) ;!
  if negb (bool_decide (db_active_operation_id self = Some operation_id))
  then raise InvalidStateTransition else
  checked_call bound_heartbeat (fun self status => validate_active_status self status V3Applied 3).

Definition db_rollback (operation_id : string) : Meth DB unit :=
  let! self := get in
  lift (require_live self) ;!
  match db_active_operation_id self with
  | None =>
      if is_none (db_active self) then ret tt else freeze InvalidStateTransition
  | Some active_operation_id =>
      if negb (bool_decide (active_operation_id = operation_id))
      then raise InvalidStateTransition else
      checked_call bound_rollback validate_rollback_status ;!
      modify (db_set_active None None) ;!
      modify (db_set_recovery false)
  end.

Definition db_drop (self : DB) : DB :=
  match db_active self with
  | Some active =>
      if negb (db_retired self) then (on_world (bound_rollback active) self).2 else self
  | None => self
  end.

#[global] Instance deferred_boundary : ProductionRouteBoundary DB := {
  rb_disposition := db_disposition;
  rb_try_retire := db_try_retire;
  rb_apply := db_apply;
  rb_apply_broker_bound := db_apply_broker_bound;
  rb_heartbeat := db_heartbeat;
  rb_rollback := db_rollback;
}.

End seam.
Arguments DeferredV3ProductionRouteBoundary W C : clear implicits.

(** ** the boundary keeps the laws of its interface *)

Section laws.
Context {W C : Type} `{RouteHelperV3Operations W C, RouteHelperV3Connect W C}.
Context `{UrlLib} `{Base64Lib}.
Notation DB := (DeferredV3ProductionRouteBoundary W C).
Implicit Types b : DB.

#[global] Instance deferred_boundary_laws : RouteBoundaryLaws DB.
Proof.
  constructor; cbn.
  - intros b. unfold db_try_retire. destruct (db_disposition b) eqn:E; [|done..].
    eexists. split; [done|]. cbn. done.
  - intros b call Hr. unfold db_disposition in Hr.
    assert (Hret : db_retired b = true).
    { destruct (db_retired b); [done|]. destruct (db_recovery_required b); [done|].
      by destruct (is_some _ || is_some _). }
    destruct call; cbn.
    + unfold db_try_retire, db_disposition. by rewrite Hret.
    + done.
    + unfold db_apply_broker_bound, bind, get, lift, require_live. by rewrite Hret.
    + unfold db_heartbeat, bind, get, lift, require_live. by rewrite Hret.
    + unfold db_rollback, bind, get, lift, require_live. by rewrite Hret.
  - intros b p op t rev m r Hn. unfold db_apply_broker_bound, bind, get, lift, require_live, raise.
    unfold db_disposition in Hn. destruct (db_retired b); [done|].
    destruct (db_recovery_required b); [by rewrite orb_true_r|]. rewrite orb_false_r.
    by destruct (is_some (db_active b) || is_some (db_active_operation_id b)).
Qed.
End laws.

(** ** leases

    [leased w ref]: the helper may keep a hold or routes for [ref].  Only [begin] and
    the calls on a reference touch a lease, each only its own, and a rollback whose
    answer passes the check has ended it. *)
Class HelperLaws (W C : Type) `{RouteHelperV3Operations W C, RouteHelperV3Connect W C} := {
  leased : W -> RouteLeaseReferenceV3 -> bool;
  law_connect : forall w ref, leased (op_connect w).2 ref = leased w ref;
  law_discover : forall c w ref, leased (op_discover c w).2 ref = leased w ref;
  law_begin : forall c owner w ref, ref <> from_owner owner ->
    leased (op_begin c owner w).2 ref = leased w ref;
  law_apply : forall c r w ref, ref <> r -> leased (op_apply c r w).2 ref = leased w ref;
  law_heartbeat : forall c r w ref, ref <> r -> leased (op_heartbeat c r w).2 ref = leased w ref;
  law_rollback : forall c r w ref, ref <> r -> leased (op_rollback c r w).2 ref = leased w ref;
  law_rolled_back : forall c r w status, (op_rollback c r w).1 = Ok status ->
    hs3_error_code status = None ->
    hs3_state status = V3Released /\ hs3_reference status = Some r \/
    hs3_state status = V3Idle /\ hs3_reference status = None ->
    leased (op_rollback c r w).2 r = false;
}.

Section leases.
Context {W C : Type} `{HelperLaws W C}.
Context `{UrlLib} `{Base64Lib}.
Notation DB := (DeferredV3ProductionRouteBoundary W C).
Implicit Types b : DB.

(** A session as the factory makes it. *)
Definition session_wf (s : BrokerBoundRouteHelperV3 C) : Prop :=
  RouteLeaseOwnerV3_validate (bb_owner s) = Ok tt /\ bb_reference s = from_owner (bb_owner s) /\
  owner_binding (bb_owner s) = ra_binding (bb_authorization s) /\
  o3_tunnel (bb_owner s) = ra_tunnel (bb_authorization s).

(** Every lease of the world that was not there when the boundary was made ([w0]) is
    the active session's, and a retired boundary has none. *)
Record owns (w0 : W) b : Prop := {
  ow_leases : forall ref, leased (db_world b) ref = true ->
    leased w0 ref = true \/ exists s, db_active b = Some s /\ bb_reference s = ref;
  ow_session : forall s, db_active b = Some s -> session_wf s;
  ow_paired : is_some (db_active b) = is_some (db_active_operation_id b);
  ow_retired : db_retired b = true -> db_active b = None;
}.

(** A call of the active session only touches its own lease. *)
Definition own_lease_only (call : BrokerBoundRouteHelperV3 C -> Meth W RouteHelperV3Status) : Prop :=
  forall s w ref, session_wf s -> ref <> bb_reference s -> leased (call s w).2 ref = leased w ref.

Lemma session_authority s : session_wf s -> bound_validate_authority s = Ok tt.
Proof.
  intros (Hv & Href & Hb & Ht). unfold bound_validate_authority. rewrite Hv. cbn.
  rewrite !bool_decide_true by done. cbn. by rewrite (proj2 (matches_owner_ok _ _)).
Qed.

Lemma calls_own_lease_only :
  own_lease_only bound_discover /\ own_lease_only bound_begin /\ own_lease_only bound_apply /\
  own_lease_only bound_heartbeat /\ own_lease_only bound_rollback.
Proof.
  split_and!; intros s w ref Hwf Hne; pose proof (session_authority s Hwf) as Ha;
    unfold bound_discover, bound_begin, bound_apply, bound_heartbeat, bound_rollback, bind, lift;
    rewrite Ha.
  - apply law_discover.
  - apply law_begin. destruct Hwf as (_ & <- & _). done.
  - by apply law_apply.
  - by apply law_heartbeat.
  - by apply law_rollback.
Qed.

Lemma owns_world w0 w b :
  owns w0 b ->
  (forall ref, leased w ref = true -> leased (db_world b) ref = true \/
     exists s, db_active b = Some s /\ bb_reference s = ref) ->
  owns w0 (db_set_world w b).
Proof.
  intros [Hl Hs Hp Hr] Hw. constructor; try done. intros ref Hin. cbn in *.
  destruct (Hw ref Hin) as [Hin'|?]; auto.
Qed.

Lemma checked_call_owns w0 call check b :
  own_lease_only call -> owns w0 b ->
  wp (checked_call call check) (fun r b' => owns w0 b' /\ db_active b' = db_active b /\
    db_active_operation_id b' = db_active_operation_id b /\ db_retired b' = db_retired b /\
    match r with
    | Err _ => db_recovery_required b' = true
    | Ok _ => db_recovery_required b' = db_recovery_required b /\
        exists s status, db_active b = Some s /\ (call s (db_world b)).1 = Ok status /\
          check b' status = Ok tt /\ db_world b' = (call s (db_world b)).2
    end) b.
Proof.
  intros Hcall Hb. unfold checked_call. wp_steps.
  destruct (db_active b) as [s|] eqn:Es; [|unfold freeze; wp_steps; split_and!; try done; by destruct Hb].
  unfold on_world. wp_steps. unfold wp at 1.
  destruct (call s (db_world b)) as [r w'] eqn:Ec. cbn [fst snd].
  assert (Hb1 : owns w0 (db_set_world w' b)).
  { apply owns_world; [done|]. intros ref Hin.
    destruct (decide (ref = bb_reference s)) as [->|Hne]; [right; by exists s|left].
    rewrite <- (Hcall s (db_world b) ref); [by rewrite Ec|by apply (ow_session w0 b Hb)|done]. }
  assert (Hfr : owns w0 (db_set_recovery true (db_set_world w' b))) by (destruct Hb1; by constructor).
  destruct r as [status|e]; wp_steps; [|unfold freeze; wp_steps; by split_and!].
  destruct (check (db_set_world w' b) status) as [[]|e] eqn:Ek; [|unfold freeze; wp_steps; by split_and!].
  wp_steps. split_and!; try done. exists s, status. by rewrite Ec.
Qed.

Lemma bound_new_ok client auth revision interfaces cidrs s :
  bound_new client auth revision interfaces cidrs = Ok s ->
  session_wf s /\ bb_authorization s = auth /\ bb_client s = client /\
  bb_owner s = owner_from_authorization auth revision interfaces cidrs.
Proof.
  intros Hn. unfold bound_new in Hn. peel_ok Hn. injection Hn as <-. cbn. split_and!; try done.
  split_and!; try done. apply owner_from_authorization_binding.
Qed.

(** The helper's answer named exactly this lease, in this state and version. *)
Definition confirmed (s : BrokerBoundRouteHelperV3 C) (state : RouteHelperV3State) (transition : Z)
  (status : RouteHelperV3Status) : Prop :=
  hs3_protocol_version status = 3 /\ hs3_error_code status = None /\ hs3_state status = state /\
  hs3_reference status = Some (bb_reference s) /\ hs3_transition status = transition.

Lemma status_usable_ok status :
  status_usable status = Ok tt <->
  hs3_protocol_version status = 3 /\ hs3_error_code status = None.
Proof.
  unfold status_usable, ROUTE_HELPER_V3_PROTOCOL_VERSION.
  destruct (Z.eqb_spec (hs3_protocol_version status) 3); cbn;
    destruct (hs3_error_code status); naive_solver.
Qed.

Lemma validate_active_status_ok b s status state transition :
  db_active b = Some s ->
  validate_active_status b status state transition = Ok tt -> confirmed s state transition status.
Proof.
  intros Hs Hv. unfold validate_active_status in Hv. rewrite Hs in Hv. peel_ok Hv.
  apply status_usable_ok in Ha as [? ?]. cbn in Ha0. simplify_eq.
  case_match eqn:E; [done|]. reflect_bools. by split_and!.
Qed.

(** A lease opened with session [s] from world [w1]: a clean helper, then the hold,
    then the routes, each confirmed for exactly this lease. *)
Definition opened (s : BrokerBoundRouteHelperV3 C) (w1 w' : W) : Prop :=
  exists idle held applied,
    let w2 := (bound_discover s w1).2 in
    let w3 := (bound_begin s w2).2 in
    (bound_discover s w1).1 = Ok idle /\ hs3_state idle = V3Idle /\ hs3_reference idle = None /\
    (bound_begin s w2).1 = Ok held /\ confirmed s V3Held 2 held /\
    (bound_apply s w3).1 = Ok applied /\ confirmed s V3Applied 3 applied /\
    w' = (bound_apply s w3).2.

Lemma validate_discover_status_ok status :
  validate_discover_status status = Ok tt ->
  hs3_state status = V3Idle /\ hs3_reference status = None.
Proof.
  intros Hv. unfold validate_discover_status in Hv. peel_ok Hv. case_match eqn:E; [done|].
  reflect_bools. split; [done|]. by destruct (hs3_reference status).
Qed.

Lemma open_lease_owns w0 s op b :
  owns w0 b -> db_active b = Some s -> db_active_operation_id b = Some op -> db_retired b = false ->
  wp open_lease (fun r b' => owns w0 b' /\ db_active b' = Some s /\
    db_active_operation_id b' = Some op /\ db_retired b' = false /\
    match r with
    | Ok _ => db_recovery_required b' = false /\ opened s (db_world b) (db_world b')
    | Err _ => db_recovery_required b' = true
    end) b.
Proof.
  intros Hb Hs Ho Hr. destruct calls_own_lease_only as (Hcd & Hcb & Hca & _ & _).
  unfold open_lease. wp_steps.
  eapply wp_mono; [by apply (checked_call_owns w0)|]. cbn beta.
  intros [[]|e] b1 (Hb1 & Hs1 & Ho1 & Hr1 & Hres1); [|by rewrite Hs1, Ho1, Hr1].
  destruct Hres1 as (_ & s1 & idle & Hs1' & Hd & Hdv & Hw1).
  rewrite Hs in Hs1'. injection Hs1' as <-. apply validate_discover_status_ok in Hdv as [Hi1 Hi2]. wp_steps.
  eapply wp_mono; [by apply (checked_call_owns w0)|]. cbn beta.
  intros [[]|e] b2 (Hb2 & Hs2 & Ho2 & Hr2 & Hres2);
    [|by rewrite Hs2, Hs1, Ho2, Ho1, Hr2, Hr1].
  destruct Hres2 as (_ & s2 & held & Hs2' & Hh & Hhv & Hw2).
  rewrite Hs1, Hs in Hs2'. injection Hs2' as <-.
  apply (validate_active_status_ok _ s) in Hhv; [|congruence]. wp_steps.
  eapply wp_mono; [by apply (checked_call_owns w0)|]. cbn beta.
  intros [[]|e] b3 (Hb3 & Hs3 & Ho3 & Hr3 & Hres3);
    [|by rewrite Hs3, Hs2, Hs1, Ho3, Ho2, Ho1, Hr3, Hr2, Hr1].
  destruct Hres3 as (_ & s3 & applied & Hs3' & Ha & Hav & Hw3).
  rewrite Hs2, Hs1, Hs in Hs3'. injection Hs3' as <-.
  apply (validate_active_status_ok _ s) in Hav; [|congruence]. wp_steps.
  split_and!; cbn; try congruence.
  - destruct Hb3. by constructor.
  - rewrite Hw1 in Hh. rewrite Hw2, Hw1 in Ha. exists idle, held, applied. cbn zeta.
    split_and!; try done. by rewrite Hw3, Hw2, Hw1.
Qed.

(** A successful application opened the lease the receipt authorises. *)
Definition applied_exactly b op tunnel receipt b' : Prop :=
  exists s, db_active b' = Some s /\ db_active_operation_id b' = Some op /\
    db_disposition b' = RouteBusy /\
    authorize_routes receipt tunnel op op = Ok (bb_authorization s) /\
    opened s (op_connect (db_world b)).2 (db_world b').

Lemma apply_owns w0 profile op tunnel revision mihomo receipt b :
  owns w0 b ->
  wp (db_apply_broker_bound profile op tunnel revision mihomo receipt) (fun r b' => owns w0 b' /\
    match r with
    | Ok _ => applied_exactly b op tunnel receipt b'
    | Err _ => db_disposition b' = db_disposition b /\ db_active b' = db_active b \/
        db_disposition b' = RouteRecoveryOnly
    end) b.
Proof.
  intros Hb. unfold db_apply_broker_bound. wp_steps. unfold require_live.
  destruct (db_retired b) eqn:Hret; [by auto|]. wp_steps.
  destruct (_ || _ || _) eqn:Hg; wp_steps; [by auto|]. apply orb_false_iff in Hg as [Hg Hrec].
  apply orb_false_iff in Hg as [Hact Hop].
  destruct (NetworkProfile_validate profile); [|by auto]. wp_steps.
  destruct (validate_for mihomo _); [|by auto]. wp_steps.
  destruct (authorize_routes receipt tunnel op op) as [auth|] eqn:Hauth; [|by auto]. wp_steps.
  unfold on_world, factory_create. wp_steps. unfold wp at 1.
  destruct (op_connect (db_world b)) as [rc w1] eqn:Ec. cbn [fst snd].
  assert (Hnone : db_active b = None) by (by destruct (db_active b)).
  assert (Hb1 : owns w0 (db_set_world w1 b)).
  { apply owns_world; [done|]. intros ref Hin. left. rewrite <- law_connect, Ec. done. }
  assert (Hdis : db_disposition (db_set_world w1 b) = db_disposition b) by done.
  destruct rc as [client|e]; [|by auto]. wp_steps.
  destruct (bound_new client auth _ _ _) as [s|e] eqn:Hn; [|by auto]. wp_steps.
  apply bound_new_ok in Hn as (Hwf & Hsauth & _).
  set (b2 := db_set_active (Some s) (Some op) (db_set_world w1 b)).
  assert (Hb2 : owns w0 b2).
  { destruct Hb1 as [Hl Hs Hp Hr]. constructor; cbn; try done.
    - intros ref Hin. destruct (Hl ref Hin) as [?|(s' & Hs' & _)]; [by left|].
      cbn in Hs'. congruence.
    - by intros s' [= <-].
    - by rewrite Hret. }
  eapply wp_mono; [by apply (open_lease_owns w0 s op b2)|]. cbn beta.
  intros r b' (Hb' & Hs' & Ho' & Hr' & Hres). split; [done|].
  assert (Hdisp : db_disposition b' = if db_recovery_required b' then RouteRecoveryOnly else RouteBusy)
    by (unfold db_disposition; rewrite Hr', Hs'; by destruct (db_recovery_required b')).
  destruct r as [[]|e].
  - destruct Hres as [Hrr Hopen]. exists s. rewrite Hdisp, Hrr, Hsauth, Ec. by split_and!.
  - right. by rewrite Hdisp, Hres.
Qed.

Lemma heartbeat_owns w0 op b :
  owns w0 b -> wp (db_heartbeat op) (fun _ b' => owns w0 b') b.
Proof.
  intros Hb. unfold db_heartbeat. wp_steps. destruct (require_live b); [|done]. wp_steps.
  case_match; wp_steps; [done|]. destruct calls_own_lease_only as (_ & _ & _ & Hh & _).
  eapply wp_mono; [by apply (checked_call_owns w0)|]. by intros r b' (? & _).
Qed.

Lemma validate_rollback_status_ok b s status :
  db_active b = Some s -> validate_rollback_status b status = Ok tt ->
  hs3_error_code status = None /\
  (hs3_state status = V3Released /\ hs3_reference status = Some (bb_reference s) \/
   hs3_state status = V3Idle /\ hs3_reference status = None).
Proof.
  intros Hs Hv. unfold validate_rollback_status in Hv. rewrite Hs in Hv. peel_ok Hv.
  apply status_usable_ok in Ha as [_ He]. cbn in Ha0. simplify_eq. split; [done|].
  destruct (hs3_state status); try done; apply ensure_ok in Hv; reflect_bools; [right|left];
    split; try done. by destruct (hs3_reference status).
Qed.

Lemma rollback_owns w0 op b :
  owns w0 b -> wp (db_rollback op) (fun _ b' => owns w0 b') b.
Proof.
  intros Hb. unfold db_rollback. wp_steps. destruct (require_live b); [|done]. wp_steps.
  destruct (db_active_operation_id b) as [active|] eqn:Ho; cycle 1.
  { case_match; unfold freeze; wp_steps; [done|]. destruct Hb. by constructor. }
  case_match; wp_steps; [done|]. destruct calls_own_lease_only as (_ & _ & _ & _ & Hroll).
  eapply wp_mono; [by apply (checked_call_owns w0)|]. cbn beta.
  intros [[]|e] b' (Hb' & Hs & _ & Hr & Hres); [|done].
  destruct Hres as (_ & s & status & Hs' & Hst & Hv & Hw). wp_steps.
  apply (validate_rollback_status_ok _ s) in Hv; [|congruence].
  assert (Hwf : session_wf s) by by apply (ow_session w0 b Hb).
  assert (Hgone : leased (db_world b') (bb_reference s) = false).
  { rewrite Hw. unfold bound_rollback, bind, lift in *. rewrite (session_authority s Hwf) in *.
    destruct Hv as [He Hv]. by eapply law_rolled_back. }
  destruct Hb' as [Hl' Hs0 Hp' Hr']. constructor; cbn; try done.
  intros ref Hin. destruct (Hl' ref Hin) as [?|(s' & Hs'' & <-)]; [by left|].
  rewrite Hs, Hs' in Hs''. injection Hs'' as <-. congruence.
Qed.

Lemma boundary_step_owns w0 call b : owns w0 b -> owns w0 (boundary_step call b).
Proof.
  intros Hb. destruct call; cbn.
  - unfold db_try_retire. destruct (db_disposition b) eqn:E; try done. cbn.
    destruct Hb. constructor; try done. intros _. cbn. unfold db_disposition in E.
    destruct (db_retired b), (db_recovery_required b), (db_active b); done.
  - done.
  - apply (apply_owns w0 profile operation_id tunnel revision mihomo receipt b Hb).
  - by apply (heartbeat_owns w0).
  - by apply (rollback_owns w0).
Qed.

Definition fresh_boundary b : Prop := exists next, (boundary_new (db_world b) next).1 = Ok b.

Lemma boundary_steps_own calls b0 :
  fresh_boundary b0 -> owns (db_world b0) (foldl (fun b call => boundary_step call b) b0 calls).
Proof.
  intros [next Hn].
  assert (H0' : owns (db_world b0) b0).
  { unfold boundary_new, issuer_allocate, bind, get, modify, ret, raise in Hn.
    destruct (checked_add _ _ _); cbn in Hn; [|done]. injection Hn as Hn.
    rewrite <- Hn. cbn. constructor; cbn; try done. by left. }
  revert H0'. generalize (db_world b0) as w0. clear next Hn. revert b0.
  induction calls as [|call calls IH]; cbn; intros b w0 Hb; [done|].
  by apply IH, boundary_step_owns.
Qed.

(** C23: a route boundary that has retired holds no lease of its own: whatever
    calls it saw before, every lease the helper has was there before the
    boundary was made; and whatever calls follow, it does nothing any more and
    retires only once. *)
Theorem boundary_retires_without_lease b0 calls receipt b' later :
  fresh_boundary b0 ->
  rb_try_retire (foldl (fun b call => boundary_step call b) b0 calls) = (RetireRetired receipt, b') ->
  let final := foldl (fun b call => boundary_step call b) b' later in
  (* no lease of this boundary is left, and the boundary does nothing any more *)
  (forall ref, leased (db_world final) ref = true -> leased (db_world b0) ref = true) /\
  final = b' /\ (rb_try_retire final).1 = RetireAlreadyRetired /\
  rt_boundary_incarnation receipt = boundary_incarnation (db_retirement_issuer b').
Proof.
  intros Hf Hr. set (b := foldl _ b0 calls) in *. pose proof (boundary_steps_own calls b0 Hf) as Hb.
  fold b in Hb. pose proof (law_retire_iff_reusable b) as Hlaw.
  destruct (rb_disposition b) eqn:Hd; try (rewrite Hr in Hlaw; done).
  destruct Hlaw as (receipt' & Hrec & Hret). rewrite Hr in Hrec, Hret. cbn [fst snd] in Hrec, Hret.
  assert (Hsame : forall later, foldl (fun b call => boundary_step call b) b' later = b').
  { intros l. induction l as [|call l IH]; [done|]. cbn. rewrite law_retired_is_closed; done. }
  cbn zeta. rewrite Hsame. split_and!.
  - assert (db_world b' = db_world b /\ db_active b = None) as [-> Hnone].
    { cbn in Hr, Hd. unfold db_try_retire in Hr. rewrite Hd in Hr. injection Hr as _ <-. split; [done|].
      unfold db_disposition in Hd.
      destruct (db_retired b), (db_recovery_required b), (db_active b); done. }
    intros ref Hin. destruct (ow_leases _ _ Hb ref Hin) as [?|(s & Hs & _)]; [done|]. congruence.
  - done.
  - pose proof (law_retire_iff_reusable b') as Hlaw'. rewrite Hret in Hlaw'. by rewrite Hlaw'.
  - cbn in Hr, Hd. unfold db_try_retire in Hr. rewrite Hd in Hr. by injection Hr as <- <-.
Qed.

(** Applying routes through a boundary either installs exactly the lease that
    was asked for, under the operation, tunnel and receipt given, or fails with
    nothing opened, or fails with the boundary frozen for recovery. *)
Theorem boundary_applies_exactly_or_freezes b0 calls profile op tunnel revision mihomo receipt r b' :
  fresh_boundary b0 ->
  let b := foldl (fun b call => boundary_step call b) b0 calls in
  rb_apply_broker_bound profile op tunnel revision mihomo receipt b = (r, b') ->
  match r with
  | Ok _ => applied_exactly b op tunnel receipt b'
  | Err _ =>
      (* refused before anything was opened, or frozen with its session kept *)
      db_disposition b' = db_disposition b /\ db_active b' = db_active b \/
      db_disposition b' = RouteRecoveryOnly
  end.
Proof.
  intros Hf b Hr. pose proof (boundary_steps_own calls b0 Hf) as Hb.
  by apply (wp_run _ _ _ _ _ (apply_owns _ profile op tunnel revision mihomo receipt b Hb) Hr).
Qed.
End leases.
