(* ===== verification/PolicyCatalog.v ===== *)
(** * PolicyCatalog: the closed catalogue of production policies

    [src-tauri/src/networking/production_policy_catalog.rs] and the reader of app-owned
    resources of [production_composition.rs].  Every catalogue operation reads the
    catalogue, the trust bundle and the four envelopes again, verifies each and checks
    the routes of each against the compiled entitlement.  Files and the clock are the
    class [ResourceOs], JSON is the class [CatalogLib]; Ed25519 and SHA-256 are those of
    the signed policies. *)

From Stdlib Require Import Ascii String.
From S2P Require Import Prelude Text NetState IpAddr Config Policy.

(** ** owned resources *)

Record ResourceMetadata := {
  rm_is_file : bool;
  rm_len : Z;
  rm_dev : Z;
  rm_ino : Z;
  rm_mtime : Z;
  rm_mtime_nsec : Z;
  rm_ctime : Z;
  rm_ctime_nsec : Z;
}.

(** [OpenOptions::open] with [O_NOFOLLOW], [File::metadata], [take(n).read_to_end] and
    [SystemTime::now] in seconds. *)
Class ResourceOs (W : Type) := {
  ResourceFile : Type;
  resource_open : string -> M W unit ResourceFile;
  resource_metadata : ResourceFile -> M W unit ResourceMetadata;
  resource_read : ResourceFile -> Z -> M W unit (list Z);
  unix_now : W -> Z * W;
}.

Definition same_resource_snapshot (before after : ResourceMetadata) : bool :=
  (rm_dev before =? rm_dev after)
  && (rm_ino before =? rm_ino after)
  && (rm_len before =? rm_len after)
  && (rm_mtime before =? rm_mtime after)
  && (rm_mtime_nsec before =? rm_mtime_nsec after)
  && (rm_ctime before =? rm_ctime after)
  && (rm_ctime_nsec before =? rm_ctime_nsec after).

(** [Path::join] of a relative name. *)
Definition path_join (base name : string) : string :=
  if ends_with base "/" then String.append base name else String.append base (String.append "/" name).

Section resources.
Context {W : Type} `{ResourceOs W}.

(** A call whose failure is an invalid configuration. *)
Definition resource {A} (m : M W unit A) : Meth W A :=
  let! r := capture m in lift (map_err (fun _ => InvalidConfiguration) r).

Definition read_owned_resource_with_hook (path : string) (maximum_bytes : Z)
  (after_initial_stat : Meth W unit) : Meth W (list Z) :=
  let! file := resource (resource_open path) in
  let! before := resource (resource_metadata file) in
  let expected_len := rm_len before in
  if negb (rm_is_file before) || (expected_len =? 0) || (maximum_bytes <? expected_len)
  then raise InvalidConfiguration else
  after_initial_stat ;!
  let! bytes := resource (resource_read file (saturating_add u64_max maximum_bytes 1)) in
  let! after := resource (resource_metadata file) in
  if negb (Z.of_nat (length bytes) =? expected_len)
    || (maximum_bytes <? Z.of_nat (length bytes))
    || negb (same_resource_snapshot before after)
  then raise InvalidConfiguration
  else ret bytes.

Definition read_owned_resource (path : string) (maximum_bytes : Z) : Meth W (list Z) :=
  read_owned_resource_with_hook path maximum_bytes (ret tt).
End resources.

(** ** the compiled catalogue *)

Definition POLICY_CATALOG_RESOURCE_NAME : string := "kyclash-networking-policy-catalog-v1.json".
Definition CATALOG_POLICY_TRUST_RESOURCE_NAME : string := "kyclash-networking-policy-keys.json".
Definition POLICY_CATALOG_SCHEMA_VERSION : Z := 1.
Definition POLICY_CATALOG_MAX_BYTES : Z := 32 * 1024.
Definition POLICY_ENVELOPE_MAX_BYTES : Z := 64 * 1024.
Definition POLICY_TRUST_MAX_BYTES : Z := 64 * 1024.

Record LockedVariant := {
  lk_id : string;
  lk_display_name : string;
  lk_envelope_resource : string;
  lk_routes : list string;
}.

Definition BASE_ROUTES : list string := ["10.68.72.0/21"; "10.20.81.0/24"]%string.
Definition HOST_30 : string := "10.68.64.30/32".
Definition HOST_31 : string := "10.68.64.31/32".

Definition LOCKED_VARIANTS : list LockedVariant := [
  {| lk_id := "base"; lk_display_name := "Base routes";
     lk_envelope_resource := "kyclash-networking-policy-base-v2.json"; lk_routes := BASE_ROUTES |};
  {| lk_id := "base+.30"; lk_display_name := "Base + 10.68.64.30";
     lk_envelope_resource := "kyclash-networking-policy-base-30-v2.json";
     lk_routes := BASE_ROUTES ++ [HOST_30] |};
  {| lk_id := "base+.31"; lk_display_name := "Base + 10.68.64.31";
     lk_envelope_resource := "kyclash-networking-policy-base-31-v2.json";
     lk_routes := BASE_ROUTES ++ [HOST_31] |};
  {| lk_id := "base+both"; lk_display_name := "Base + both optional hosts";
     lk_envelope_resource := "kyclash-networking-policy-base-both-v2.json";
     lk_routes := BASE_ROUTES ++ [HOST_30; HOST_31] |}
].

Record PolicyCatalogEntry := { pe_id : string; pe_envelope_resource : string }.

Record PolicyCatalogResource := {
  cr_schema_version : Z;
  cr_revision : Z;
  cr_entries : list PolicyCatalogEntry;
}.

(** [serde_json] at the types of this module. *)
Class CatalogLib := {
  catalog_from_slice : list Z -> option PolicyCatalogResource;
  profile_to_vec : NetworkProfile -> option (list Z);
}.

(** ** bindings *)

Record ProductionPolicyVariantSummary := {
  pv_catalog_id : string;
  pv_display_name : string;
  pv_revision : Z;
  pv_profile_sha256 : string;
  pv_private_cidrs : list string;
}.

Record VerifiedProductionPolicyVariant := {
  vv_summary : ProductionPolicyVariantSummary;
  vv_envelope_sha256 : string;
}.

#[global] Instance ProductionPolicyVariantSummary_eq_dec : EqDecision ProductionPolicyVariantSummary.
Proof. solve_decision. Defined.
#[global] Instance VerifiedProductionPolicyVariant_eq_dec : EqDecision VerifiedProductionPolicyVariant.
Proof. solve_decision. Defined.

Record ProductionPolicyCatalogView := {
  pcv_schema_version : Z;
  pcv_selected_catalog_id : option string;
  pcv_variants : list ProductionPolicyVariantSummary;
}.

Definition view_from_verified (variants : list VerifiedProductionPolicyVariant)
  (selected : option VerifiedProductionPolicyVariant) : Res ProductionPolicyCatalogView :=
  match selected with
  | Some selected =>
      let? current := ok_or (find (fun variant =>
          bool_decide (pv_catalog_id (vv_summary variant) = pv_catalog_id (vv_summary selected)))
        variants) PolicySignatureInvalid in
      ensure (bool_decide (current = selected)) PolicySignatureInvalid
  | None => Ok tt
  end ;?
  Ok {| pcv_schema_version := POLICY_CATALOG_SCHEMA_VERSION;
        pcv_selected_catalog_id := (fun variant => pv_catalog_id (vv_summary variant)) <$> selected;
        pcv_variants := map vv_summary variants |}.

(** Two [BTreeSet]s: no duplicate among the profile's routes, and the same members. *)
Definition validate_route_entitlement (profile : NetworkProfile) (expected : list string) : Res unit :=
  let cidrs := private_cidrs (site profile) in
  let actual : gset string := list_to_set cidrs in
  let expected : gset string := list_to_set expected in
  if negb (Z.of_nat (size actual) =? Z.of_nat (length cidrs)) || negb (bool_decide (actual = expected))
  then Err InvalidConfiguration else Ok tt.

Record VerifiedCatalogEntry := {
  ve_binding : VerifiedProductionPolicyVariant;
  ve_policy : VerifiedNetworkPolicy;
}.

Record VerifiedProductionPolicyCatalog := {
  vc_revision : Z;
  vc_identity_sha256 : string;
  vc_issued_at : Z;
  vc_expires_at : Z;
  vc_entries : list VerifiedCatalogEntry;
}.

Definition catalog_bindings (self : VerifiedProductionPolicyCatalog) : list VerifiedProductionPolicyVariant :=
  map ve_binding (vc_entries self).

Definition catalog_selected (self : VerifiedProductionPolicyCatalog) (catalog_id : string)
  : Res (VerifiedProductionPolicyVariant * VerifiedNetworkPolicy) :=
  let? entry := ok_or (find (fun entry =>
      bool_decide (pv_catalog_id (vv_summary (ve_binding entry)) = catalog_id)) (vc_entries self))
    InvalidConfiguration in
  Ok (ve_binding entry, ve_policy entry).

(** The [for] loop over the entries. *)
Fixpoint entries_valid_at (entries : list VerifiedCatalogEntry) (now : Z) : Res unit :=
  match entries with
  | [] => Ok tt
  | entry :: entries => validate_at (ve_policy entry) now ;? entries_valid_at entries now
  end.

Definition catalog_validate_at (self : VerifiedProductionPolicyCatalog) (now : Z) : Res unit :=
  if (vc_revision self =? 0) || (now <? vc_issued_at self) || (vc_expires_at self <=? now)
  then Err PolicySignatureInvalid
  else entries_valid_at (vc_entries self) now.

(** The loop that fills [resources_by_id]: a repeated id is refused. *)
Fixpoint resources_by_id (entries : list PolicyCatalogEntry) (m : gmap string string)
  : Res (gmap string string) :=
  match entries with
  | [] => Ok m
  | entry :: entries =>
      if is_some (m !! pe_id entry) then Err InvalidConfiguration
      else resources_by_id entries (<[pe_id entry := pe_envelope_resource entry]> m)
  end.

Section verify.
Context {W : Type} `{ResourceOs W} `{UrlLib} `{Base64Lib} `{PolicyLib} `{CatalogLib}.

Definition profile_sha256 (profile : NetworkProfile) : Res string :=
  let? bytes := ok_or (profile_to_vec profile) InvalidConfiguration in
  Ok (hex_sha256 bytes).

Definition variant_new (locked : LockedVariant) (policy : VerifiedNetworkPolicy)
  : Res VerifiedProductionPolicyVariant :=
  validate_route_entitlement (vp_profile policy) (lk_routes locked) ;?
  let? digest := profile_sha256 (vp_profile policy) in
  Ok {| vv_summary :=
          {| pv_catalog_id := lk_id locked; pv_display_name := lk_display_name locked;
             pv_revision := vp_revision policy; pv_profile_sha256 := digest;
             pv_private_cidrs := private_cidrs (site (vp_profile policy)) |};
        vv_envelope_sha256 := vp_envelope_sha256 policy |}.

(** The state of the loop over the locked variants: digest input so far, the bounds and
    the entries, in order. *)
Record CatalogLoop := {
  cl_digest : list Z;
  cl_issued_at : Z;
  cl_expires_at : Z;
  cl_entries : list VerifiedCatalogEntry;
}.

Definition catalog_round (resources : string) (trust : PolicyTrustStore) (now : Z)
  (locked : LockedVariant) (s : CatalogLoop) : Meth W CatalogLoop :=
  let! envelope_bytes := read_owned_resource (path_join resources (lk_envelope_resource locked))
                           POLICY_ENVELOPE_MAX_BYTES in
  let! policy := lift (verify trust envelope_bytes now) in
  let! binding := lift (variant_new locked policy) in
  ret {| cl_digest := cl_digest s ++ as_bytes (lk_id locked) ++ [0]
                        ++ as_bytes (vp_envelope_sha256 policy) ++ [0];
         cl_issued_at := Z.max (cl_issued_at s) (vp_issued_at policy);
         cl_expires_at := Z.min (cl_expires_at s) (vp_expires_at policy);
         cl_entries := cl_entries s ++ [{| ve_binding := binding; ve_policy := policy |}] |}.

Fixpoint catalog_rounds (resources : string) (trust : PolicyTrustStore) (now : Z)
  (locked : list LockedVariant) (s : CatalogLoop) : Meth W CatalogLoop :=
  match locked with
  | [] => ret s
  | variant :: locked =>
      let! s := catalog_round resources trust now variant s in
      catalog_rounds resources trust now locked s
  end.

(** The catalogue file lists exactly the compiled variants. *)
Definition catalog_matches_locked (catalog : PolicyCatalogResource) : Res unit :=
  (if negb (cr_schema_version catalog =? POLICY_CATALOG_SCHEMA_VERSION) || (cr_revision catalog =? 0)
   then Err InvalidConfiguration else Ok tt) ;?
  let? by_id := resources_by_id (cr_entries catalog) ∅ in
  (if negb (Z.of_nat (size by_id) =? Z.of_nat (length LOCKED_VARIANTS))
   then Err InvalidConfiguration else Ok tt) ;?
  if forallb (fun locked => bool_decide (by_id !! lk_id locked = Some (lk_envelope_resource locked)))
       LOCKED_VARIANTS
  then Ok tt else Err InvalidConfiguration.

Definition verify_policy_catalog (resources : string) (now : Z)
  : Meth W VerifiedProductionPolicyCatalog :=
  let! catalog_bytes := read_owned_resource (path_join resources POLICY_CATALOG_RESOURCE_NAME)
                          POLICY_CATALOG_MAX_BYTES in
  let! catalog := lift (ok_or (catalog_from_slice catalog_bytes) InvalidConfiguration) in
  lift (catalog_matches_locked catalog) ;!
  let! trust_bytes := read_owned_resource (path_join resources CATALOG_POLICY_TRUST_RESOURCE_NAME)
                        POLICY_TRUST_MAX_BYTES in
  let! trust := lift (from_json trust_bytes) in
  let! s := catalog_rounds resources trust now LOCKED_VARIANTS
    {| cl_digest := as_bytes "kyclash-production-policy-catalog-v1" ++ [0] ++ catalog_bytes ++ [0]
                      ++ trust_bytes ++ [0];
       cl_issued_at := 0; cl_expires_at := u64_max; cl_entries := [] |} in
  let verified := {| vc_revision := cr_revision catalog;
                     vc_identity_sha256 := hex_sha256 (cl_digest s);
                     vc_issued_at := cl_issued_at s;
                     vc_expires_at := cl_expires_at s;
                     vc_entries := cl_entries s |} in
  lift (catalog_validate_at verified now) ;!
  ret verified.
End verify.

(** ** what the catalogue grants *)

Lemma size_list_to_set_le (l : list string) : (size (list_to_set l : gset string) <= length l)%nat.
Proof.
  induction l as [|x l IH]; cbn; [by rewrite size_empty|].
  rewrite size_union_alt, size_singleton.
  pose proof (subseteq_size (list_to_set l ∖ {[x]} : gset string) (list_to_set l) ltac:(set_solver)). lia.
Qed.

(** No element was lost: there was no duplicate. *)
Lemma size_list_to_set_NoDup (l : list string) :
  size (list_to_set l : gset string) = length l <-> NoDup l.
Proof.
  split; [|apply size_list_to_set]. induction l as [|x l IH]; cbn; [by constructor|].
  rewrite size_union_alt, size_singleton. intros Hs. pose proof (size_list_to_set_le l) as Hle.
  destruct (decide (x ∈ l)) as [Hin|Hin].
  - assert (Hlt : (size (list_to_set l ∖ {[x]} : gset string) < size (list_to_set l : gset string))%nat)
      by (apply subset_size; set_solver). lia.
  - constructor; [done|]. apply IH. replace (list_to_set l ∖ {[x]} : gset string)
      with (list_to_set l : gset string) in Hs by set_solver. lia.
Qed.

Lemma route_entitlement_exact profile routes :
  NoDup routes ->
  validate_route_entitlement profile routes = Ok tt <-> private_cidrs (site profile) ≡ₚ routes.
Proof.
  intros Hn. unfold validate_route_entitlement. set (cidrs := private_cidrs (site profile)).
  split.
  - destruct (Z.of_nat (size _) =? _) eqn:Es; [|done]. case_bool_decide as He; [|done]. intros _.
    reflect_bools. apply NoDup_Permutation; [apply size_list_to_set_NoDup; lia|done|].
    intros x. rewrite <- !(elem_of_list_to_set (C := gset string)). by rewrite He.
  - intros Hp. rewrite (proj2 (size_list_to_set_NoDup cidrs)) by by rewrite Hp.
    rewrite Z.eqb_refl, bool_decide_eq_true_2; [done|]. apply set_eq. intros x.
    by rewrite !elem_of_list_to_set, Hp.
Qed.

Definition entry_pair (e : PolicyCatalogEntry) : string * string := (pe_id e, pe_envelope_resource e).
Definition locked_pair (locked : LockedVariant) : string * string :=
  (lk_id locked, lk_envelope_resource locked).

Lemma resources_by_id_ok entries m m' :
  resources_by_id entries m = Ok m' ->
  NoDup (map entry_pair entries).*1 /\ (forall e, e ∈ entries -> m !! pe_id e = None) /\
  m' = list_to_map (map entry_pair entries) ∪ m.
Proof.
  revert m. induction entries as [|e entries IH]; intros m; cbn.
  - rewrite (left_id_L ∅ (∪)). intros [= <-]. split; [constructor|]. split; [set_solver|done].
  - destruct (m !! pe_id e) eqn:Em; cbn [is_some]; [done|].
    intros (Hd & Hn & ->)%IH. assert (Hk : pe_id e ∉ (map entry_pair entries).*1).
    { rewrite <- list_fmap_compose. intros (e' & He & Hin)%list_elem_of_fmap. cbn in He.
      specialize (Hn e' Hin). by rewrite <- He, lookup_insert_eq in Hn. }
    rewrite <- insert_union_r by (by apply not_elem_of_list_to_map).
    rewrite <- insert_union_l. split_and!; [by constructor| |done].
    intros e' [->|Hin]%elem_of_cons; [done|]. specialize (Hn e' Hin). by apply lookup_insert_None in Hn as [? _].
Qed.

(** The catalogue file must name the compiled variants, each once, and nothing else. *)
Lemma catalog_matches_locked_ok catalog :
  catalog_matches_locked catalog = Ok tt ->
  cr_schema_version catalog = 1 /\ cr_revision catalog <> 0 /\
  map entry_pair (cr_entries catalog) ≡ₚ map locked_pair LOCKED_VARIANTS.
Proof.
  unfold catalog_matches_locked. intros Hc. peel_ok Hc.
  destruct (_ || _) eqn:E0 in Ha; [done|]. destruct (negb _) eqn:E1 in Ha1; [done|].
  destruct (forallb _ _) eqn:E2; [|done]. clear Ha Ha1 Hc. reflect_bools. split_and!; [done..|].
  apply resources_by_id_ok in Ha0 as (Hd & _ & Hm). rewrite (right_id_L ∅ (∪)) in Hm.
  rewrite Hm, map_size_list_to_map in E1 by done. symmetry.
  apply submseteq_length_Permutation.
  - apply NoDup_submseteq; [by apply (bool_decide_unpack _); vm_compute|]. intros [k v] Hin.
    apply list_elem_of_fmap in Hin as (locked & [= -> ->] & Hl).
    rewrite forallb_forall in E2. apply list_elem_of_In, E2 in Hl. reflect_bools.
    rewrite Hm in Hl. by apply elem_of_list_to_map_2.
  - rewrite !length_map in *. lia.
Qed.

(** What an entry of a verified catalogue is. *)
Section granted.
Context {W : Type} `{ResourceOs W} `{UrlLib} `{Base64Lib} `{PolicyLib} `{CatalogLib}.

(** Only resources were read between the two worlds. *)
Inductive after_reads (w : W) : W -> Prop :=
| ar_none : after_reads w w
| ar_read path n w1 : after_reads w w1 -> after_reads w (read_owned_resource path n w1).2.

Lemma after_reads_trans w1 w2 w3 : after_reads w1 w2 -> after_reads w2 w3 -> after_reads w1 w3.
Proof. intros H12. induction 1; [done|]. by constructor. Qed.

(** One variant of a catalogue that was verified from the world [w0] on. *)
Record granted (w0 : W) (resources : string) (trust : PolicyTrustStore) (now : Z) (locked : LockedVariant)
    (entry : VerifiedCatalogEntry) : Prop := {
  gr_signed : exists w bytes w', after_reads w0 w /\
    read_owned_resource (path_join resources (lk_envelope_resource locked)) (64 * 1024) w = (Ok bytes, w') /\
    verify trust bytes now = Ok (ve_policy entry);
  gr_id : pv_catalog_id (vv_summary (ve_binding entry)) = lk_id locked;
  gr_revision : pv_revision (vv_summary (ve_binding entry)) = vp_revision (ve_policy entry);
  gr_digest : vv_envelope_sha256 (ve_binding entry) = vp_envelope_sha256 (ve_policy entry);
  gr_cidrs : pv_private_cidrs (vv_summary (ve_binding entry)) =
    private_cidrs (site (vp_profile (ve_policy entry)));
  gr_routes : private_cidrs (site (vp_profile (ve_policy entry))) ≡ₚ lk_routes locked;
}.

Lemma granted_earlier w0 w1 resources trust now locked entry :
  after_reads w0 w1 -> granted w1 resources trust now locked entry -> granted w0 resources trust now locked entry.
Proof.
  intros Hr [(w & b & w' & Ha & Hs) ? ? ? ? ?]. constructor; try done. exists w, b, w'.
  split; [by eapply after_reads_trans|done].
Qed.

Lemma variant_new_ok locked policy binding :
  NoDup (lk_routes locked) -> variant_new locked policy = Ok binding ->
  pv_catalog_id (vv_summary binding) = lk_id locked /\
  pv_revision (vv_summary binding) = vp_revision policy /\
  vv_envelope_sha256 binding = vp_envelope_sha256 policy /\
  pv_private_cidrs (vv_summary binding) = private_cidrs (site (vp_profile policy)) /\
  private_cidrs (site (vp_profile policy)) ≡ₚ lk_routes locked.
Proof.
  intros Hn Hv. unfold variant_new in Hv. peel_ok Hv. injection Hv as <-. cbn.
  split_and!; try done. by apply route_entitlement_exact.
Qed.

(** What the identity of a catalogue covers: its own bytes, those of the trust bundle,
    and the name and envelope digest of every variant. *)
Definition variant_digest (binding : VerifiedProductionPolicyVariant) : list Z :=
  as_bytes (pv_catalog_id (vv_summary binding)) ++ [0] ++ as_bytes (vv_envelope_sha256 binding) ++ [0].

Definition catalog_digest (catalog_bytes trust_bytes : list Z)
    (bindings : list VerifiedProductionPolicyVariant) : list Z :=
  as_bytes "kyclash-production-policy-catalog-v1" ++ [0] ++ catalog_bytes ++ [0] ++
  trust_bytes ++ [0] ++ concat (map variant_digest bindings).

(** The loop keeps: one granted entry per variant, the latest issue and the earliest end. *)
Lemma catalog_rounds_ok resources trust now locked s w s' w' :
  Forall (fun l => NoDup (lk_routes l)) locked ->
  catalog_rounds resources trust now locked s w = (Ok s', w') ->
  exists entries, cl_entries s' = cl_entries s ++ entries /\ Forall2 (granted w resources trust now) locked entries /\
    cl_digest s' = cl_digest s ++ concat (map variant_digest (map ve_binding entries)) /\
    Forall (fun e => cl_expires_at s' <= vp_expires_at (ve_policy e) /\
                     vp_issued_at (ve_policy e) <= cl_issued_at s') entries /\
    cl_expires_at s' <= cl_expires_at s /\ cl_issued_at s <= cl_issued_at s'.
Proof.
  revert s w. induction locked as [|l locked IH]; intros s w Hn; cbn.
  { intros [= <- <-]. exists []. cbn. rewrite !app_nil_r. split_and!; [done|constructor|done|constructor|lia..]. }
  apply Forall_cons in Hn as [Hl Hn].
  unfold bind at 1. destruct (catalog_round _ _ _ _ _ w) as [[s1|e] w1] eqn:Hr; [|done].
  intros Hrun. destruct (IH _ _ Hn Hrun) as (entries & He & Hg & Hdg & Hb & Hx & Hi).
  unfold catalog_round, bind, lift, ret in Hr.
  destruct (read_owned_resource _ _ w) as [[bytes|] w2] eqn:Hrd; [|done].
  destruct (verify trust bytes now) as [policy|] eqn:Hv; [|done].
  destruct (variant_new l policy) as [binding|] eqn:Hb'; [|done]. injection Hr as <- <-. cbn in *.
  destruct (variant_new_ok _ _ _ Hl Hb') as (Hid & ? & Hsha & ? & ?).
  exists ({| ve_binding := binding; ve_policy := policy |} :: entries). rewrite He, <- app_assoc.
  assert (Hreads : after_reads w w2).
  { pose proof (ar_read w (path_join resources (lk_envelope_resource l)) POLICY_ENVELOPE_MAX_BYTES w (ar_none w)) as Ha.
    by rewrite Hrd in Ha. }
  assert (Hg' : Forall2 (granted w resources trust now) locked entries).
  { eapply Forall2_impl; [exact Hg|]. intros. by eapply granted_earlier. }
  assert (Hfirst : granted w resources trust now l {| ve_binding := binding; ve_policy := policy |}).
  { constructor; try done. exists w, bytes, w2. split; [constructor|done]. }
  split_and!; [done|by constructor| |constructor; [cbn; lia|done]|lia..].
  rewrite Hdg. cbn. unfold variant_digest. rewrite Hid, Hsha. cbn. repeat (rewrite <- app_assoc; cbn). done.
Qed.

Lemma entries_valid_at_ok entries now :
  entries_valid_at entries now = Ok tt <-> Forall (fun e => validate_at (ve_policy e) now = Ok tt) entries.
Proof.
  induction entries as [|e entries IH]; cbn; [by split; [constructor|]|].
  rewrite Forall_cons, rbind_ok, <- IH. split; [by intros ([] & ? & ?)|intros [? ?]; by exists tt].
Qed.

Lemma locked_routes_NoDup : Forall (fun l => NoDup (lk_routes l)) LOCKED_VARIANTS.
Proof. repeat constructor; cbn; set_solver. Qed.

(** Everything that a verified catalogue says. *)
Lemma verify_policy_catalog_ok resources now w catalog w' :
  verify_policy_catalog resources now w = (Ok catalog, w') ->
  exists catalog_bytes resource trust_bytes trust w1 w2,
    read_owned_resource (path_join resources POLICY_CATALOG_RESOURCE_NAME) POLICY_CATALOG_MAX_BYTES w
      = (Ok catalog_bytes, w1) /\
    catalog_from_slice catalog_bytes = Some resource /\ vc_revision catalog = cr_revision resource /\
    read_owned_resource (path_join resources "kyclash-networking-policy-keys.json") (64 * 1024) w1
      = (Ok trust_bytes, w2) /\ from_json trust_bytes = Ok trust /\
    vc_identity_sha256 catalog = hex_sha256 (catalog_digest catalog_bytes trust_bytes (catalog_bindings catalog)) /\
    Forall2 (granted w2 resources trust now) LOCKED_VARIANTS (vc_entries catalog) /\
    vc_revision catalog <> 0 /\ vc_issued_at catalog <= now < vc_expires_at catalog /\
    Forall (fun e => validate_at (ve_policy e) now = Ok tt /\
                     vc_expires_at catalog <= vp_expires_at (ve_policy e) /\
                     vp_issued_at (ve_policy e) <= vc_issued_at catalog) (vc_entries catalog).
Proof.
  unfold verify_policy_catalog. unfold bind, lift, ret.
  destruct (read_owned_resource _ _ w) as [[cb|] w1] eqn:Hcb; [|done].
  destruct (catalog_from_slice cb) as [c|] eqn:Hc; cbn [ok_or]; [|done].
  destruct (catalog_matches_locked c) as [[]|] eqn:Hm; [|done].
  destruct (read_owned_resource _ _ w1) as [[tb|] w2] eqn:Htb; [|done].
  destruct (from_json tb) as [trust|] eqn:Htr; [|done].
  destruct (catalog_rounds _ _ _ _ _ w2) as [[s|] w3] eqn:Hr; [|done].
  destruct (catalog_validate_at _ now) as [[]|] eqn:Hv; [|done]. intros [= <- <-].
  apply catalog_rounds_ok in Hr as (entries & He & Hg & Hdg & Hb & _); [|apply locked_routes_NoDup].
  cbn in He. exists cb, c, tb, trust, w1, w2. unfold catalog_validate_at in Hv. cbn in Hv |- *.
  destruct (_ || _) eqn:E; [done|]. reflect_bools. rewrite He in Hv |- *.
  apply entries_valid_at_ok in Hv. split_and!; try done.
  { rewrite Hdg. unfold catalog_bindings, catalog_digest. cbn. repeat (rewrite <- app_assoc; cbn). done. }
  rewrite Forall_forall in Hv, Hb |- *. intros e Hin. split; [by apply Hv|by apply Hb].
Qed.
End granted.
