(* ===== verification/UnixRuntime.v ===== *)
(** * UnixRuntime: a sidecar behind a unix socket

    [src-tauri/src/networking/process_runtime.rs]: the runtime that listens on a private
    socket, starts the executable with the token on its standard input and waits for one
    handshake line.  Files, sockets, processes and the clock are the class [UnixOs]. *)

From Stdlib Require Import Ascii String.
From S2P Require Import Prelude Text NetState Ipc Sidecar PolicyCatalog.

(** What [symlink_metadata] finds at a path. *)
Inductive PathKind : Type := PathSocket | PathOther | PathAbsent | PathUnreadable.

(** The answer of a non-blocking [accept]. *)
Inductive AcceptError : Type := WouldBlock | AcceptOther.

(** [std::fs], [UnixListener], [Command], [Child] and [Instant], times in milliseconds;
    children, listeners and streams are handles. *)
Class UnixOs (W : Type) := {
  os_create_dir_all : string -> M W unit unit;
  os_set_permissions : string -> Z -> M W unit unit;
  os_path_kind : string -> W -> PathKind * W;
  os_remove_file : string -> M W unit unit;
  os_bind : string -> M W unit Z;
  os_set_nonblocking : Z -> M W unit unit;
  os_accept : Z -> M W AcceptError Z;
  os_read_line : Z -> M W unit string;
  os_spawn : string -> list string -> M W unit Z;
  os_take_stdin : Z -> W -> option Z * W;
  os_write_all : Z -> list Z -> M W unit unit;
  os_try_wait : Z -> M W unit (option bool);
  os_kill : Z -> M W unit unit;
  os_wait : Z -> M W unit unit;
  os_now : W -> Z * W;
  os_sleep : Z -> W -> W;
}.

(** [serde_json::from_str] at the handshake. *)
Class HandshakeJson := { handshake_from_str : string -> option SidecarHandshake }.

Record UnixSidecarRuntime (W : Type) := {
  ur_world : W;
  ur_executable : string;
  ur_runtime_dir : string;
  ur_child : option Z;
  ur_socket_path : option string;
  ur_handshake_timeout : Z;
}.
Arguments ur_world {W} _.
Arguments ur_executable {W} _.
Arguments ur_runtime_dir {W} _.
Arguments ur_child {W} _.
Arguments ur_socket_path {W} _.
Arguments ur_handshake_timeout {W} _.

Section runtime.
Context {W : Type} `{UnixOs W} `{HandshakeJson}.
Notation UR := (UnixSidecarRuntime W).

Definition ur_new (executable runtime_dir : string) (w : W) : UR :=
  {| ur_world := w; ur_executable := executable; ur_runtime_dir := runtime_dir; ur_child := None;
     ur_socket_path := None; ur_handshake_timeout := 2000 |}.
Definition ur_with_handshake_timeout (timeout : Z) (self : UR) : UR :=
  {| ur_world := ur_world self; ur_executable := ur_executable self;
     ur_runtime_dir := ur_runtime_dir self; ur_child := ur_child self;
     ur_socket_path := ur_socket_path self; ur_handshake_timeout := timeout |}.
Definition ur_set_world (w : W) (self : UR) : UR :=
  {| ur_world := w; ur_executable := ur_executable self; ur_runtime_dir := ur_runtime_dir self;
     ur_child := ur_child self; ur_socket_path := ur_socket_path self;
     ur_handshake_timeout := ur_handshake_timeout self |}.
Definition ur_set_child (child : option Z) (self : UR) : UR :=
  {| ur_world := ur_world self; ur_executable := ur_executable self;
     ur_runtime_dir := ur_runtime_dir self; ur_child := child;
     ur_socket_path := ur_socket_path self; ur_handshake_timeout := ur_handshake_timeout self |}.
Definition ur_set_socket (path : option string) (self : UR) : UR :=
  {| ur_world := ur_world self; ur_executable := ur_executable self;
     ur_runtime_dir := ur_runtime_dir self; ur_child := ur_child self;
     ur_socket_path := path; ur_handshake_timeout := ur_handshake_timeout self |}.

Definition in_world {E A} (m : M W E A) : M UR E A := zoom ur_world ur_set_world m.

(** A call and the code its failure becomes. *)
Definition failing {E A} (code : NetworkErrorCode) (m : M W E A) : Meth UR A :=
  let! r := capture (in_world m) in lift (map_err (fun _ => code) r).

Definition remove_stale_socket (path : string) : Meth UR unit :=
  let! kind := in_world (effect (os_path_kind path)) in
  match kind with
  | PathSocket => failing PermissionDenied (os_remove_file path)
  | PathOther => raise PermissionDenied
  | PathAbsent => ret tt
  | PathUnreadable => raise PermissionDenied
  end.

(** [cleanup_socket(self.socket_path.take())]. *)
Definition cleanup_socket : Meth UR unit :=
  let! self := get in
  modify (ur_set_socket None) ;!
  match ur_socket_path self with
  | Some path => let! _ := attempt (remove_stale_socket path) in ret tt
  | None => ret tt
  end.

Definition prepare_listener (instance_id : string) : Meth UR Z :=
  let! self := get in
  failing PermissionDenied (os_create_dir_all (ur_runtime_dir self)) ;!
  failing PermissionDenied (os_set_permissions (ur_runtime_dir self) 448) ;!
  let socket_path := path_join (ur_runtime_dir self) (String.append instance_id ".sock") in
  remove_stale_socket socket_path ;!
  let! listener := failing SidecarUnavailable (os_bind socket_path) in
  failing SidecarUnavailable (os_set_nonblocking listener) ;!
  modify (ur_set_socket (Some socket_path)) ;!
  ret listener.

(** [child.try_wait().ok().flatten().is_some()]; a query that fails counts as running. *)
Definition child_has_exited : Meth UR bool :=
  let! self := get in
  match ur_child self with
  | None => ret false
  | Some child =>
      let! status := capture (in_world (os_try_wait child)) in
      ret (match status with Ok (Some _) => true | _ => false end)
  end.

(** [None]: the fuel ran out while the child was silent. *)
Fixpoint receive_loop (fuel : nat) (listener deadline : Z) : Meth UR (option SidecarHandshake) :=
  match fuel with
  | O => ret None
  | S fuel =>
      let! accepted := capture (in_world (os_accept listener)) in
      match accepted with
      | Ok stream =>
          let! line := failing AuthenticationFailed (os_read_line stream) in
          lift (let? handshake := ok_or (handshake_from_str line) AuthenticationFailed in
                Ok (Some handshake))
      | Err WouldBlock =>
          let! now := in_world (effect os_now) in
          if now <? deadline then
            let! exited := child_has_exited in
            if exited : bool then raise SidecarUnavailable
            else
              in_world (modify (os_sleep 10)) ;!
              receive_loop fuel listener deadline
          else raise OperationTimedOut
      | Err AcceptOther => raise SidecarUnavailable
      end
  end.

Definition receive_handshake (fuel : nat) (listener : Z) : Meth UR (option SidecarHandshake) :=
  let! self := get in
  let! now := in_world (effect os_now) in
  receive_loop fuel listener (now + ur_handshake_timeout self).

Definition ur_stop : Meth UR unit :=
  let! self := get in
  match ur_child self with
  | Some child =>
      modify (ur_set_child None) ;!
      failing SidecarUnavailable (os_kill child) ;!
      failing SidecarUnavailable (os_wait child)
  | None => ret tt
  end ;!
  cleanup_socket.

(** The middle of [start], from the socket path to [self.child = Some(child)]: the process
    is spawned, given its token and only then recorded. *)
Definition spawn_child (context : SidecarLaunchContext) : Meth UR unit :=
  let! self := get in
  let! socket_path := lift (ok_or (ur_socket_path self) SidecarUnavailable) in
  let! child := failing SidecarUnavailable
    (os_spawn (ur_executable self) [socket_path; lc_instance_id context]) in
  let! taken := in_world (effect (os_take_stdin child)) in
  let! stdin := lift (ok_or taken SidecarUnavailable) in
  failing SidecarUnavailable (os_write_all stdin (lc_auth_token context)) ;!
  failing SidecarUnavailable (os_write_all stdin [10]) ;!
  modify (ur_set_child (Some child)).

Definition ur_start (fuel : nat) (context : SidecarLaunchContext) : Meth UR (option SidecarHandshake) :=
  let! self := get in
  if is_some (ur_child self) then raise InvalidStateTransition else
  let! listener := prepare_listener (lc_instance_id context) in
  spawn_child context ;!
  let! result := attempt (receive_handshake fuel listener) in
  (if negb (is_ok result) then let! _ := attempt ur_stop in ret tt else ret tt) ;!
  lift result.

Definition ur_status : Meth UR SidecarProcessStatus :=
  let! self := get in
  let! child := lift (ok_or (ur_child self) SidecarUnavailable) in
  let! status := failing SidecarUnavailable (os_try_wait child) in
  match status with
  | None => ret ProcessRunning
  | Some success =>
      modify (ur_set_child None) ;!
      cleanup_socket ;!
      ret (ProcessExited success)
  end.

Definition ur_drop (self : UR) : UR := (ur_stop self).2.
End runtime.

(** ** the wait is bounded *)

(** Time never goes back, a sleep lasts at least as long as asked, and the other calls
    of the wait do not turn the clock. *)
Class UnixClockLaws (W : Type) `{UnixOs W} := {
  time_of : W -> Z;
  law_now : forall w, (os_now w).1 = time_of w /\ time_of w <= time_of (os_now w).2;
  law_sleep : forall d w, time_of w + d <= time_of (os_sleep d w);
  law_accept : forall l w, time_of w <= time_of (os_accept l w).2;
  law_try_wait : forall c w, time_of w <= time_of (os_try_wait c w).2;
}.

Section bounded.
Context {W : Type} `{UnixClockLaws W} `{HandshakeJson}.
Notation UR := (UnixSidecarRuntime W).
Implicit Types self : UR.

Lemma child_has_exited_time self :
  wp child_has_exited (fun r self' => is_ok r = true /\ time_of (ur_world self) <= time_of (ur_world self')) self.
Proof.
  unfold child_has_exited. do 2 wp_step. destruct (ur_child self) as [child|]; [|wp_step; split; [done|lia]].
  wp_step. unfold in_world. do 2 wp_step. pose proof (law_try_wait child (ur_world self)) as Ht.
  unfold wp. by destruct (os_try_wait child (ur_world self)).
Qed.

Lemma receive_loop_returns fuel listener deadline self :
  Z.max 0 (deadline - time_of (ur_world self)) + 10 <= 10 * Z.of_nat fuel ->
  wp (receive_loop fuel listener deadline) (fun r _ => r <> Ok None) self.
Proof.
  revert self. induction fuel as [|fuel IH]; intros self Hf; [lia|]. cbn [receive_loop].
  unfold in_world. do 3 wp_step. pose proof (law_accept listener (ur_world self)) as Ha. unfold wp at 1.
  destruct (os_accept listener (ur_world self)) as [[stream|[]] w1]; cbn [fst snd] in *; [..|by wp_step].
  - wp_step. unfold failing, in_world. do 3 wp_step. unfold wp at 1. cbn.
    destruct (os_read_line stream w1) as [[line|e] w2]; cbn; [|done]. wp_step. cbn.
    by destruct (handshake_from_str line).
  - do 3 wp_step. cbn [ur_world ur_set_world]. destruct (law_now w1) as [Hn Hn'].
    destruct ((os_now w1).1 <? deadline) eqn:El; [|by wp_step]. reflect_bools.
    wp_step. eapply wp_mono; [apply child_has_exited_time|]. cbn. intros [exited|e] self2 [Hok Ht]; [|done].
    destruct exited; [by wp_step|]. do 3 wp_step. apply IH. cbn.
    pose proof (law_sleep 10 (ur_world self2)) as Hs. lia.
Qed.


Lemma receive_handshake_returns fuel listener self :
  Z.max 0 (ur_handshake_timeout self) + 10 <= 10 * Z.of_nat fuel ->
  wp (receive_handshake fuel listener) (fun r _ => r <> Ok None) self.
Proof.
  intros Hf. unfold receive_handshake, in_world. do 5 wp_step. apply receive_loop_returns. cbn.
  destruct (law_now (ur_world self)) as [-> Hn]. lia.
Qed.
End bounded.

(** ** ownership *)

(** An account of the calls: [left_alone w c] says that [c] was spawned and that neither
    [kill], [wait] nor [try_wait] was called on it since.  A handle that is dropped does
    nothing to its process. *)
Class UnixChildAccount (W : Type) `{UnixOs W} := {
  left_alone : W -> Z -> bool;
  law_spawned : forall exe args w c w', os_spawn exe args w = (Ok c, w') -> left_alone w' c = true;
  law_take_stdin_alone : forall c w x, left_alone (os_take_stdin c w).2 x = left_alone w x;
  law_write_alone : forall i b w x, left_alone (os_write_all i b w).2 x = left_alone w x;
  law_path_kind_alone : forall p w x, left_alone (os_path_kind p w).2 x = left_alone w x;
  law_remove_file_alone : forall p w x, left_alone (os_remove_file p w).2 x = left_alone w x;
}.

Section ownership.
Context {W : Type} `{UnixOs W} `{HandshakeJson}.
Notation UR := (UnixSidecarRuntime W).
Implicit Types self : UR.

(** Methods that leave the recorded child as it is. *)
Definition keeps_child {A} (m : Meth UR A) : Prop := forall c, preserves (fun s => ur_child s = c) m.

Lemma keeps_child_failing {E A} code (m : M W E A) : keeps_child (failing code m).
Proof.
  intros c s Hs. unfold failing, bind, capture, in_world, zoom, lift. by destruct (m (ur_world s)).
Qed.

Lemma failing_run {E A} code (m : M W E A) self :
  failing code m self = (map_err (fun _ => code) (m (ur_world self)).1,
                         ur_set_world (m (ur_world self)).2 self).
Proof. unfold failing, bind, capture, in_world, zoom, lift. by destruct (m (ur_world self)). Qed.

Lemma keeps_child_effect {A} (f : W -> A * W) : keeps_child (in_world (effect f)).
Proof. intros c s Hs. unfold in_world, zoom, effect. by destruct (f (ur_world s)). Qed.

Lemma keeps_child_remove path : keeps_child (remove_stale_socket path).
Proof.
  intros c. unfold remove_stale_socket. preserves_tac; [apply keeps_child_effect|apply keeps_child_failing].
Qed.

Lemma keeps_child_cleanup : keeps_child cleanup_socket.
Proof.
  intros c. unfold cleanup_socket. preserves_tac; [by apply preserves_modify|apply keeps_child_remove].
Qed.

Lemma keeps_child_prepare id : keeps_child (prepare_listener id).
Proof.
  intros c. unfold prepare_listener. preserves_tac; try apply keeps_child_failing;
    try apply keeps_child_remove; by apply preserves_modify.
Qed.

Lemma wp_keeps {A} (m : Meth UR A) c self :
  keeps_child m -> ur_child self = c -> wp m (fun _ s => ur_child s = c) self.
Proof. intros Hm Hs. by apply Hm. Qed.

(** [stop] gives the child up whatever the system answers. *)
Lemma stop_releases self : ur_child (ur_stop self).2 = None.
Proof.
  enough (Hw : wp ur_stop (fun _ s => ur_child s = None) self) by exact Hw.
  unfold ur_stop. do 3 wp_step. destruct (ur_child self) as [child|] eqn:Hc.
  - do 3 wp_step. eapply wp_mono; [by apply wp_keeps; [apply keeps_child_failing|]|].
    intros [[]|e] s1 Hs1; [|done].
    eapply wp_mono; [by apply wp_keeps; [apply keeps_child_failing|]|].
    intros [[]|e'] s2 Hs2; [|done]. by apply wp_keeps; [apply keeps_child_cleanup|].
  - wp_step. by apply wp_keeps; [apply keeps_child_cleanup|].
Qed.

Lemma spawn_child_outcome context self :
  ur_child self = None ->
  wp (spawn_child context) (fun r s => is_ok r = is_some (ur_child s)) self.
Proof.
  intros Hn. unfold spawn_child. do 4 wp_step. destruct (ok_or _ _); [|by rewrite Hn].
  wp_step. eapply wp_mono; [by apply wp_keeps; [apply keeps_child_failing|]|].
  intros [child|e] s1 Hs1; [|by rewrite Hs1].
  wp_step. eapply wp_mono; [by apply wp_keeps; [apply keeps_child_effect|]|].
  intros [stdin|e] s2 Hs2; [|by rewrite Hs2]. do 2 wp_step. destruct (ok_or _ _); [|by rewrite Hs2].
  wp_step. eapply wp_mono; [by apply wp_keeps; [apply keeps_child_failing|]|].
  intros [[]|e] s3 Hs3; [|by rewrite Hs3].
  wp_step. eapply wp_mono; [by apply wp_keeps; [apply keeps_child_failing|]|].
  intros [[]|e] s4 Hs4; [|by rewrite Hs4]. by wp_step.
Qed.

(** A method that does not touch the configured timeout. *)
Definition keeps_timeout {A} (m : Meth UR A) : Prop :=
  forall t, preserves (fun s => ur_handshake_timeout s = t) m.

Lemma keeps_timeout_failing {E A} code (m : M W E A) : keeps_timeout (failing code m).
Proof.
  intros c s Hs. unfold failing, bind, capture, in_world, zoom, lift. by destruct (m (ur_world s)).
Qed.

Lemma keeps_timeout_effect {A} (f : W -> A * W) : keeps_timeout (in_world (effect f)).
Proof. intros c s Hs. unfold in_world, zoom, effect. by destruct (f (ur_world s)). Qed.

Lemma keeps_timeout_prepare id : keeps_timeout (prepare_listener id).
Proof.
  intros c. unfold prepare_listener, remove_stale_socket.
  preserves_tac; try apply keeps_timeout_failing; try apply keeps_timeout_effect; by apply preserves_modify.
Qed.

Lemma keeps_timeout_spawn context : keeps_timeout (spawn_child context).
Proof.
  intros c. unfold spawn_child.
  preserves_tac; try apply keeps_timeout_failing; try apply keeps_timeout_effect; by apply preserves_modify.
Qed.

Lemma start_releases fuel context self :
  ur_child self = None ->
  wp (ur_start fuel context) (fun r s => is_ok r = false -> ur_child s = None) self.
Proof.
  intros Hn. unfold ur_start. do 2 wp_step. rewrite Hn. cbn [is_some]. wp_step.
  eapply wp_mono; [by apply wp_keeps; [apply keeps_child_prepare|]|]. intros [listener|e] s1 Hs1; [|done].
  wp_step. eapply wp_mono; [by apply spawn_child_outcome|].
  intros [[]|e] s2 Hs2; [|intros _; by destruct (ur_child s2)].
  do 2 wp_step. unfold wp at 1. destruct (receive_handshake fuel listener s2) as [[h|e] s3]; cbn [fst snd is_ok negb].
  - do 3 wp_step. done.
  - do 3 wp_step. pose proof (stop_releases s3) as Hst. unfold wp at 1.
    destruct (ur_stop s3) as [r s4]. do 2 wp_step. done.
Qed.
End ownership.

(** Starting the Unix-socket sidecar ends within a number of polls bounded by
    the handshake time-out, and when it fails, the runtime holds no child. *)
Theorem unix_start_is_bounded_and_released {W} `{UnixClockLaws W} `{HandshakeJson}
  fuel context (self self' : UnixSidecarRuntime W) r :
  Z.max 0 (ur_handshake_timeout self) + 10 <= 10 * Z.of_nat fuel ->
  ur_child self = None ->
  ur_start fuel context self = (r, self') ->
  r <> Ok None /\ (is_ok r = false -> ur_child self' = None).
Proof.
  intros Hf Hn Hrun. split; [|by apply (wp_run _ _ _ _ _ (start_releases fuel context self Hn) Hrun)].
  pattern r, self'. eapply wp_run; [|exact Hrun]. clear Hrun r self'.
  unfold ur_start. do 2 wp_step. rewrite Hn. cbn [is_some]. wp_step.
  eapply wp_mono; [exact (preserves_wp _ _ self (keeps_timeout_prepare _ _) eq_refl)|].
  intros [listener|e] s1 Hs1; [|done]. wp_step.
  eapply wp_mono; [exact (preserves_wp _ _ s1 (keeps_timeout_spawn _ _) Hs1)|].
  intros [[]|e] s2 Hs2; [|done]. do 2 wp_step.
  eapply wp_mono; [apply receive_handshake_returns; by rewrite Hs2|]. intros res s3 Hres.
  wp_step. destruct res as [h|e]; cbn [is_ok negb]; do 2 wp_step; [done|].
  unfold wp. by destruct (ur_stop s3).
Qed.

(** ** a lost child *)

Section lost.
Context {W : Type} `{UnixChildAccount W} `{HandshakeJson}.
Notation UR := (UnixSidecarRuntime W).
Implicit Types self : UR.

(** The child is left alone and the runtime does not hold it. *)
Definition lost self (child : Z) : Prop :=
  ur_child self = None /\ left_alone (ur_world self) child = true.

Lemma lost_effect {A} (f : W -> A * W) child :
  (forall w x, left_alone (f w).2 x = left_alone w x) ->
  preserves (fun s => lost s child) (in_world (effect f) : Meth UR A).
Proof.
  intros Hf s [Hc Hl]. unfold in_world, zoom, effect. specialize (Hf (ur_world s) child).
  destruct (f (ur_world s)) as [a w]. cbn in *. split; [done|]. cbn. congruence.
Qed.

Lemma lost_failing {E A} code (m : M W E A) child :
  (forall w x, left_alone (m w).2 x = left_alone w x) ->
  preserves (fun s => lost s child) (failing code m).
Proof.
  intros Hm s [Hc Hl]. rewrite failing_run. split; [done|]. cbn. by rewrite Hm.
Qed.

Lemma lost_cleanup child : preserves (fun s => lost s child) cleanup_socket.
Proof.
  unfold cleanup_socket, remove_stale_socket. preserves_tac.
  - by apply preserves_modify.
  - apply lost_effect, law_path_kind_alone.
  - apply lost_failing, law_remove_file_alone.
Qed.

(** Nothing the runtime does later reaches a lost child. *)
Lemma lost_for_good self child :
  lost self child ->
  lost (ur_stop self).2 child /\ lost (ur_status self).2 child /\ lost (ur_drop self) child.
Proof.
  intros [Hc Hl]. assert (Hstop : lost (ur_stop self).2 child).
  { enough (Hw : wp ur_stop (fun _ s => lost s child) self) by exact Hw.
    unfold ur_stop. do 3 wp_step. rewrite Hc. wp_step. by apply lost_cleanup. }
  split_and!; [done| |done].
  unfold ur_status, bind, get, lift. rewrite Hc. by split.
Qed.

End lost.
