(* ===== verification/Credentials.v ===== *)
(** * Credentials: the WireGuard key in the keychain

    [src-tauri/src/networking/credentials.rs]: references, the store interface, the
    macOS keychain and the in-memory store behind it, and the routine that resolves the
    key or creates it once.  [security_framework] is the class [SecurityFramework]; the
    interface is a class with laws, which the memory store discharges. *)

From Stdlib Require Import Ascii String.
From S2P Require Import Prelude Text NetState Config Ipc Sidecar ProductionSession.

Definition KEYCHAIN_REFERENCE_PREFIX : string := "keychain:".

Record CredentialReference := { keychain_account : string }.

#[global] Instance CredentialReference_eq_dec : EqDecision CredentialReference.
Proof. solve_decision. Defined.

Definition CredentialReference_parse (value : string) : Res CredentialReference :=
  match strip_prefix value KEYCHAIN_REFERENCE_PREFIX with
  | None => Err InvalidConfiguration
  | Some identifier =>
      if is_empty identifier
        || (128 <? len identifier)
        || negb (all_enumerated
                   (fun index character =>
                      is_ascii_alphanumeric character
                      || (bool_decide (0 < index)%nat
                          && one_of ["."; "_"; ":"; "-"]%char character)) 0 (bytes identifier))
      then Err InvalidConfiguration
      else Ok {| keychain_account := identifier |}
  end.

(** The bytes of a credential; dropping them overwrites the buffer. *)
Definition CredentialMaterial_new (bytes : list Z) : Res (list Z) :=
  if bool_decide (bytes = []) then Err InvalidConfiguration else Ok bytes.

(** ** the interface *)

Class CredentialStore (S : Type) := {
  cs_put : CredentialReference -> list Z -> Meth S unit;
  cs_put_if_absent : CredentialReference -> list Z -> Meth S bool;
  cs_get : CredentialReference -> Meth S (list Z);
  cs_delete : CredentialReference -> Meth S unit;
}.

(** [SystemRandom::fill] on 32 bytes is a call of the same world. *)
Class RandomSource (S : Type) := { fill_32 : M S unit (list Z) }.

Section resolve.
Context {S : Type} `{CredentialStore S, RandomSource S}.

Definition system_random : Meth S (list Z) :=
  let! filled := capture fill_32 in
  lift (map_err (fun _ => AuthenticationFailed) filled).

(** The end of the routine: the generated key is stored unless another creator won. *)
Definition persist_generated (reference : CredentialReference) (bytes : list Z)
  : Meth S (list Z * bool) :=
  let! persisted := lift (CredentialMaterial_new bytes) in
  let! created := cs_put_if_absent reference persisted in
  if negb created then
    let! material := cs_get reference in
    if negb (Z.of_nat (length material) =? 32) then raise AuthenticationFailed
    else ret (material, false)
  else
    let! material := lift (CredentialMaterial_new bytes) in
    ret (material, true).

Definition resolve_or_generate_with_status (reference : CredentialReference)
  (generate : Meth S (list Z)) : Meth S (list Z * bool) :=
  let! stored := attempt (cs_get reference) in
  match stored with
  | Ok material =>
      if Z.of_nat (length material) =? 32 then ret (material, false) else raise AuthenticationFailed
  | Err AuthenticationFailed =>
      let! bytes := generate in
      persist_generated reference bytes
  | Err error => raise error
  end.

Definition resolve_or_generate_wireguard_material (reference : CredentialReference)
  : Meth S (list Z) :=
  let! resolved := resolve_or_generate_with_status reference system_random in
  ret resolved.1.

Definition resolve_or_generate_wireguard_material_with_status (reference : CredentialReference)
  : Meth S (list Z * bool) := resolve_or_generate_with_status reference system_random.

Definition prepare_sidecar_launch_context (instance_id : string) (auth_token : list Z)
  (identity_ref : string) : Meth S SidecarLaunchContext :=
  let! reference := lift (CredentialReference_parse identity_ref) in
  let! material := resolve_or_generate_wireguard_material reference in
  ret (with_private_key material (SidecarLaunchContext_new instance_id auth_token)).
End resolve.

(** ** the macOS keychain *)

(** [security_framework::passwords] and [SecKeychain]; an error is an [OSStatus]. *)
Class SecurityFramework (W : Type) := {
  set_generic_password : string -> string -> list Z -> M W Z unit;
  generic_password : string -> string -> M W Z (list Z);
  delete_generic_password : string -> string -> M W Z unit;
  keychain_default : M W Z unit;
  add_generic_password : string -> string -> list Z -> M W Z unit;
}.

Definition ERR_SEC_DUPLICATE_ITEM : Z := -25299.
Definition ERR_SEC_ITEM_NOT_FOUND : Z := -25300.

Record MacOsKeychainCredentialStore (W : Type) := { kc_service : string; kc_world : W }.
Arguments kc_service {W} _.
Arguments kc_world {W} _.

Section keychain.
Context {W : Type} `{SecurityFramework W}.
Notation KC := (MacOsKeychainCredentialStore W).

Definition keychain_new (w : W) : KC := {| kc_service := "net.kysion.kyclash.networking"; kc_world := w |}.
Definition keychain_new_test (w : W) : KC := {| kc_service := "net.kysion.kyclash.test"; kc_world := w |}.
Definition keychain_new_for_runtime (system_lab : bool) (w : W) : KC :=
  if system_lab then keychain_new_test w else keychain_new w.

Definition set_kc_world (w : W) (self : KC) : KC := {| kc_service := kc_service self; kc_world := w |}.

(** A framework call and the code its failure becomes. *)
Definition framework {A} (code : NetworkErrorCode) (call : string -> M W Z A) : Meth KC A :=
  fun self => let (r, w) := call (kc_service self) (kc_world self) in
              (map_err (fun _ => code) r, set_kc_world w self).

Definition keychain_put (reference : CredentialReference) (material : list Z) : Meth KC unit :=
  framework PermissionDenied (fun service =>
    set_generic_password service (keychain_account reference) material).

Definition keychain_put_if_absent (reference : CredentialReference) (material : list Z)
  : Meth KC bool :=
  framework PermissionDenied (fun _ => keychain_default) ;!
  fun self =>
    let (r, w) := add_generic_password (kc_service self) (keychain_account reference) material
                    (kc_world self) in
    (match r with
     | Ok _ => Ok true
     | Err code => if code =? ERR_SEC_DUPLICATE_ITEM then Ok false else Err PermissionDenied
     end, set_kc_world w self).

Definition keychain_get (reference : CredentialReference) : Meth KC (list Z) :=
  let! bytes := framework AuthenticationFailed (fun service =>
    generic_password service (keychain_account reference)) in
  lift (CredentialMaterial_new bytes).

Definition keychain_delete (reference : CredentialReference) : Meth KC unit :=
  framework PermissionDenied (fun service =>
    delete_generic_password service (keychain_account reference)).

Definition get_test_item (reference : CredentialReference) : Meth KC (option (list Z)) :=
  fun self =>
    let (r, w) := generic_password (kc_service self) (keychain_account reference) (kc_world self) in
    (match r with
     | Ok bytes => let? material := CredentialMaterial_new bytes in Ok (Some material)
     | Err code => if code =? ERR_SEC_ITEM_NOT_FOUND then Ok None else Err PermissionDenied
     end, set_kc_world w self).

#[export] Instance keychain_store : CredentialStore KC := {
  cs_put := keychain_put;
  cs_put_if_absent := keychain_put_if_absent;
  cs_get := keychain_get;
  cs_delete := keychain_delete;
}.
End keychain.

(** ** the memory store *)

Record MemoryCredentialStore := { values : gmap string (list Z) }.

Definition memory_put (reference : CredentialReference) (material : list Z)
  : Meth MemoryCredentialStore unit :=
  modify (fun self => {| values := <[keychain_account reference := material]> (values self) |}).

Definition memory_put_if_absent (reference : CredentialReference) (material : list Z)
  : Meth MemoryCredentialStore bool :=
  let! self := get in
  if is_some (values self !! keychain_account reference) then ret false
  else memory_put reference material ;! ret true.

Definition memory_get (reference : CredentialReference) : Meth MemoryCredentialStore (list Z) :=
  let! self := get in
  let! material := lift (ok_or (values self !! keychain_account reference) AuthenticationFailed) in
  lift (CredentialMaterial_new material).

Definition memory_delete (reference : CredentialReference) : Meth MemoryCredentialStore unit :=
  modify (fun self => {| values := delete (keychain_account reference) (values self) |}).

#[export] Instance memory_store : CredentialStore MemoryCredentialStore := {
  cs_put := memory_put;
  cs_put_if_absent := memory_put_if_absent;
  cs_get := memory_get;
  cs_delete := memory_delete;
}.

(** ** what a store promises

    [stored s r]: the value under a reference.  Reading and creating never replace a
    value that is there; others may create items at any time. *)
Class CredentialStoreLaws (S : Type) `{CredentialStore S} := {
  stored : S -> CredentialReference -> option (list Z);
  law_get_keeps : forall r s x v, stored s x = Some v -> stored (cs_get r s).2 x = Some v;
  law_get_ok : forall r s v, (cs_get r s).1 = Ok v -> stored (cs_get r s).2 r = Some v;
  law_create_keeps : forall r m s x v, stored s x = Some v -> stored (cs_put_if_absent r m s).2 x = Some v;
  law_created : forall r m s, (cs_put_if_absent r m s).1 = Ok true ->
    stored (cs_put_if_absent r m s).2 r = Some m;
}.

#[export] Instance memory_store_laws : CredentialStoreLaws MemoryCredentialStore.
Proof.
  refine {| stored s r := values s !! keychain_account r |}; cbn.
  - intros r s x v. unfold memory_get, bind, get, lift. by destruct (ok_or _ _).
  - intros r s v. unfold memory_get, bind, get, lift.
    destruct (values s !! keychain_account r) as [m|] eqn:E; [|done]. cbn. unfold CredentialMaterial_new.
    case_bool_decide; [done|]. intros [= <-]. done.
  - intros r m s x v Hx. unfold memory_put_if_absent, bind, get.
    destruct (values s !! keychain_account r) as [m'|] eqn:E; cbn; [done|].
    rewrite lookup_insert_ne; [done|]. intros Heq. congruence.
  - intros r m s. unfold memory_put_if_absent, bind, get.
    destruct (values s !! keychain_account r) as [m'|] eqn:E; cbn; [done|].
    intros _. by rewrite lookup_insert_eq.
Qed.

Section resolve_laws.
Context {S : Type} `{CredentialStoreLaws S, RandomSource S}.

(** Values present at [s] are unchanged at [s']. *)
Definition keeps_values (s s' : S) : Prop := forall x v, stored s x = Some v -> stored s' x = Some v.

(** A source of keys gives 32 bytes and leaves the store alone. *)
Definition generates (generate : Meth S (list Z)) : Prop :=
  (forall s, keeps_values s (generate s).2) /\
  (forall s v, (generate s).1 = Ok v -> length v = 32%nat).

Lemma material_ok v m : CredentialMaterial_new v = Ok m <-> v <> [] /\ m = v.
Proof. unfold CredentialMaterial_new. case_bool_decide; naive_solver. Qed.

Lemma persist_spec r bytes s :
  length bytes = 32%nat ->
  wp (persist_generated r bytes) (fun res s' => keeps_values s s' /\
    forall material created, res = Ok (material, created) ->
      stored s' r = Some material /\ length material = 32%nat /\
      (created = true -> material = bytes)) s.
Proof.
  intros Hl. unfold persist_generated. do 2 wp_step.
  destruct (CredentialMaterial_new bytes) as [m|] eqn:Hm; [|split; [by intros x v|done]].
  apply material_ok in Hm as [Hne ->]. wp_step. unfold wp at 1.
  pose proof (law_create_keeps r bytes s) as Hk. pose proof (law_created r bytes s) as Hc.
  destruct (cs_put_if_absent r bytes s) as [[[]|e] s1]; cbn [fst snd negb] in *; [..|split; [exact Hk|done]].
  - do 2 wp_step. wp_step.
    split; [exact Hk|]. intros ? ? [= <- <-]. auto.
  - wp_step. unfold wp at 1. pose proof (law_get_keeps r s1) as Hk1. pose proof (law_get_ok r s1) as Hg.
    destruct (cs_get r s1) as [[m|e] s2]; cbn [fst snd negb] in *; [|by split; [intros x v Hx; auto|]].
    destruct (Z.of_nat (length m) =? 32) eqn:E; cbn [negb]; wp_step; (split; [intros x v Hx; auto|]); [|done].
    reflect_bools. intros ? ? [= <- <-]. split_and!; [auto|lia|done].
Qed.

Lemma resolve_spec r generate s res s' :
  generates generate ->
  resolve_or_generate_with_status r generate s = (res, s') ->
  (forall x v, stored s x = Some v -> stored s' x = Some v) /\
  (forall material created, res = Ok (material, created) ->
     stored s' r = Some material /\ length material = 32%nat /\
     (created = true -> exists s0, (generate s0).1 = Ok material) /\
     (forall v, stored s r = Some v -> material = v)).
Proof.
  intros [Hgk Hgl] Hrun.
  enough (Hk : wp (resolve_or_generate_with_status r generate) (fun res s' => keeps_values s s' /\
    forall material created, res = Ok (material, created) ->
      stored s' r = Some material /\ length material = 32%nat /\
      (created = true -> exists s0, (generate s0).1 = Ok material)) s).
  { apply (wp_run _ _ _ _ _ Hk) in Hrun as [Hkeep Hres]. split; [exact Hkeep|].
    intros m c Hm. destruct (Hres m c Hm) as (Hs & Hl & Hc). split_and!; [done..|].
    intros v Hv. apply Hkeep in Hv. congruence. }
  unfold resolve_or_generate_with_status. do 2 wp_step. unfold wp at 1.
  pose proof (law_get_keeps r s) as Hk. pose proof (law_get_ok r s) as Hg.
  destruct (cs_get r s) as [[m|e] s1]; cbn [fst snd negb] in *.
  - destruct (Z.of_nat (length m) =? 32) eqn:E; wp_step; (split; [exact Hk|]); [|done].
    reflect_bools. intros ? ? [= <- <-]. split_and!; [auto|lia|done].
  - destruct e; try (wp_step; split; [exact Hk|done]). wp_step. unfold wp at 1.
    pose proof (Hgk s1) as Hk1. pose proof (Hgl s1) as Hl1. pose proof (eq_refl (generate s1).1) as Hgen.
    destruct (generate s1) as [[bytes|e] s2] eqn:Eg; cbn [fst snd negb] in *; [|split; [|done]; intros x v Hx; auto].
    eapply wp_mono; [by apply persist_spec, Hl1|]. intros res' s3 [Hk3 Hres].
    split; [intros x v Hx; auto|]. intros m c Hm. destruct (Hres m c Hm) as (Hs & Hl & Hc).
    split_and!; [done..|]. intros ->. rewrite Hc by done. exists s1. by rewrite Eg.
Qed.
(** Resolving or generating key material never replaces a stored credential:
    what it answers is what is stored afterwards, 32 bytes long, equal to what
    was stored before when there was something, and fresh from the generator
    when it says it was created, also when another process stores first. *)
Theorem wireguard_key_is_created_once r generate s res s' :
  generates generate ->
  resolve_or_generate_with_status r generate s = (res, s') ->
  (forall x v, stored s x = Some v -> stored s' x = Some v) /\
  (forall material created, res = Ok (material, created) ->
     stored s' r = Some material /\ length material = 32%nat /\
     (created = true -> exists s0, (generate s0).1 = Ok material) /\
     (forall v, stored s r = Some v -> material = v)).
Proof. apply resolve_spec. Qed.
End resolve_laws.

(** A profile's identity reference is accepted exactly when it is the keychain prefix
    followed by an identifier, the same shape the profile's own validation asks for. *)
Lemma reference_parse_ok value reference :
  CredentialReference_parse value = Ok reference <->
  strip_prefix value KEYCHAIN_REFERENCE_PREFIX = Some (keychain_account reference) /\
  id_shape (keychain_account reference) = true.
Proof.
  unfold CredentialReference_parse. destruct (strip_prefix value KEYCHAIN_REFERENCE_PREFIX) as [id|]; [|by split; [|intros [? _]]].
  match goal with |- context [if ?b then _ else _] => assert (Hs : b = negb (id_shape id)) end.
  { unfold id_shape. rewrite !negb_andb, negb_involutive, <- Z.ltb_antisym. reflexivity. }
  rewrite Hs. destruct reference as [account]. cbn. destruct (id_shape id) eqn:E; cbn.
  - split; [by intros [= ->]|]. by intros [[= ->] _].
  - split; [done|]. intros [[= ->] ?]. congruence.
Qed.
