(* ===== verification/HelperRegistration.v ===== *)
(** * HelperRegistration: the two privileged services

    [src-tauri/src/networking/route_helper_registration.rs]: the registration of the
    route helper and of the tunnel broker with the system, as one pair.  The C bridge to
    [SMAppService] is the class [ServiceBridge]. *)

From Stdlib Require Import Ascii String.
From S2P Require Import Prelude NetState.

Inductive RouteHelperRegistrationStatus : Type :=
| NotRegistered
| Enabled
| RequiresApproval
| NotFound
| Unknown.

#[global] Instance RouteHelperRegistrationStatus_eq_dec : EqDecision RouteHelperRegistrationStatus.
Proof. solve_decision. Defined.

(** The bridge answers an [i32]; 0 is success for the calls that change something. *)
Class ServiceBridge (W : Type) := {
  bridge_route_helper_status : W -> Z * W;
  bridge_route_helper_register : W -> Z * W;
  bridge_route_helper_unregister : W -> Z * W;
  bridge_route_helper_open_settings : W -> W;
  bridge_tunnel_broker_status : W -> Z * W;
  bridge_tunnel_broker_register : W -> Z * W;
  bridge_tunnel_broker_unregister : W -> Z * W;
  bridge_verify_bundled_requirements : W -> Z * W;
}.

Definition map_registration_status (raw : Z) : RouteHelperRegistrationStatus :=
  match raw with
  | 0 => NotRegistered
  | 1 => Enabled
  | 2 => RequiresApproval
  | 3 => NotFound
  | _ => Unknown
  end.

Record PrivilegedNetworkingServicesStatus := {
  route_helper : RouteHelperRegistrationStatus;
  tunnel_broker : RouteHelperRegistrationStatus;
  services_ready : bool;
}.

Section registration.
Context {W : Type} `{ServiceBridge W}.

Definition route_helper_registration_status : Meth W RouteHelperRegistrationStatus :=
  let! raw := effect bridge_route_helper_status in ret (map_registration_status raw).

(** A change that must answer 0. *)
Definition change (call : W -> Z * W) : Meth W unit :=
  let! code := effect call in
  if code =? 0 then ret tt else raise SidecarUnavailable.

Definition register_route_helper : Meth W unit := change bridge_route_helper_register.
Definition unregister_route_helper : Meth W unit := change bridge_route_helper_unregister.
Definition open_route_helper_settings : Meth W unit := modify bridge_route_helper_open_settings.

Definition tunnel_broker_registration_status : Meth W RouteHelperRegistrationStatus :=
  let! raw := effect bridge_tunnel_broker_status in ret (map_registration_status raw).
Definition register_tunnel_broker : Meth W unit := change bridge_tunnel_broker_register.
Definition unregister_tunnel_broker : Meth W unit := change bridge_tunnel_broker_unregister.

Definition privileged_networking_services_status : Meth W PrivilegedNetworkingServicesStatus :=
  let! route_helper := route_helper_registration_status in
  let! tunnel_broker := tunnel_broker_registration_status in
  ret {| route_helper := route_helper; tunnel_broker := tunnel_broker;
         services_ready := bool_decide (route_helper = Enabled) && bool_decide (tunnel_broker = Enabled) |}.

Definition register_privileged_networking_services : Meth W PrivilegedNetworkingServicesStatus :=
  let! current := privileged_networking_services_status in
  (if negb (bool_decide (route_helper current = Enabled)) then register_route_helper else ret tt) ;!
  (if negb (bool_decide (tunnel_broker current = Enabled)) then register_tunnel_broker else ret tt) ;!
  privileged_networking_services_status.

Definition unregister_privileged_networking_services : Meth W PrivilegedNetworkingServicesStatus :=
  let! helper := route_helper_registration_status in
  (if bool_decide (helper = Enabled) then unregister_route_helper else ret tt) ;!
  let! broker := tunnel_broker_registration_status in
  (if bool_decide (broker = Enabled) then unregister_tunnel_broker else ret tt) ;!
  privileged_networking_services_status.

Definition awaits_the_user (status : RouteHelperRegistrationStatus) : bool :=
  match status with NotRegistered | RequiresApproval => true | _ => false end.

Definition ensure_privileged_networking_services_ready : Meth W unit :=
  let! status := privileged_networking_services_status in
  if services_ready status then
    let! code := effect bridge_verify_bundled_requirements in
    if negb (code =? 0) then raise PermissionDenied else ret tt
  else if existsb awaits_the_user [route_helper status; tunnel_broker status]
  then raise PermissionDenied
  else raise SidecarUnavailable.
End registration.

(** ** the pair

    What the system promises about its own registrations: asking does not change them,
    and a change that answers 0 concerns its own service only. *)
Class ServiceBridgeLaws (W : Type) `{ServiceBridge W} := {
  helper_of : W -> RouteHelperRegistrationStatus;
  broker_of : W -> RouteHelperRegistrationStatus;
  law_status : forall w, map_registration_status (bridge_route_helper_status w).1 = helper_of w /\
    helper_of (bridge_route_helper_status w).2 = helper_of w /\
    broker_of (bridge_route_helper_status w).2 = broker_of w;
  law_broker_status : forall w, map_registration_status (bridge_tunnel_broker_status w).1 = broker_of w /\
    helper_of (bridge_tunnel_broker_status w).2 = helper_of w /\
    broker_of (bridge_tunnel_broker_status w).2 = broker_of w;
  law_unregister : forall w, (bridge_route_helper_unregister w).1 = 0 ->
    helper_of (bridge_route_helper_unregister w).2 <> Enabled;
  law_unregister_keeps : forall w, broker_of (bridge_route_helper_unregister w).2 = broker_of w;
  law_broker_unregister : forall w, (bridge_tunnel_broker_unregister w).1 = 0 ->
    broker_of (bridge_tunnel_broker_unregister w).2 <> Enabled;
  law_broker_unregister_keeps : forall w, helper_of (bridge_tunnel_broker_unregister w).2 = helper_of w;
  law_verify_keeps : forall w, helper_of (bridge_verify_bundled_requirements w).2 = helper_of w /\
    broker_of (bridge_verify_bundled_requirements w).2 = broker_of w;
}.

Section pair.
Context {W : Type} `{ServiceBridgeLaws W}.

(** The registrations as they were. *)
Definition same_services (w w' : W) : Prop := helper_of w' = helper_of w /\ broker_of w' = broker_of w.

Lemma helper_status_spec w :
  wp route_helper_registration_status (fun r w' => r = Ok (helper_of w) /\ same_services w w') w.
Proof.
  unfold route_helper_registration_status. do 3 wp_step. destruct (law_status w) as (-> & ? & ?). done.
Qed.

Lemma broker_status_spec w :
  wp tunnel_broker_registration_status (fun r w' => r = Ok (broker_of w) /\ same_services w w') w.
Proof.
  unfold tunnel_broker_registration_status. do 3 wp_step. destruct (law_broker_status w) as (-> & ? & ?). done.
Qed.

Lemma services_status_spec w :
  wp privileged_networking_services_status (fun r w' => same_services w w' /\
    r = Ok {| route_helper := helper_of w; tunnel_broker := broker_of w;
              services_ready := bool_decide (helper_of w = Enabled /\ broker_of w = Enabled) |}) w.
Proof.
  unfold privileged_networking_services_status. wp_step.
  eapply wp_mono; [apply helper_status_spec|]. intros r w1 [-> [Hh Hb]]. wp_step.
  eapply wp_mono; [apply broker_status_spec|]. intros r w2 [-> [Hh2 Hb2]]. wp_step.
  split; [split; congruence|]. rewrite Hb. f_equal. f_equal. by rewrite bool_decide_and.
Qed.

(** Unregistering the privileged services gives up the broker only after the
    helper, succeeds only when neither is enabled, and leaves the broker alone
    when the helper refuses. *)
Theorem broker_outlives_no_enabled_helper w r w' :
  unregister_privileged_networking_services w = (r, w') ->
  (* the broker is given up only after the helper is *)
  (broker_of w = Enabled -> broker_of w' <> Enabled -> helper_of w' <> Enabled) /\
  (* success leaves neither enabled *)
  (forall status, r = Ok status -> services_ready status = false /\
     helper_of w' <> Enabled /\ broker_of w' <> Enabled) /\
  (* a refusal of the helper leaves the broker alone *)
  (helper_of w = Enabled -> helper_of w' = Enabled -> broker_of w' = broker_of w).
Proof.
  intros Hrun. pattern r, w'. eapply wp_run; [|exact Hrun]. clear Hrun.
  unfold unregister_privileged_networking_services. wp_step.
  eapply wp_mono; [apply helper_status_spec|]. intros ? w1 [-> [Hh Hb]]. wp_step.
  apply (wp_mono _ (fun r w2 => broker_of w2 = broker_of w /\
    match r with Ok _ => helper_of w2 <> Enabled | Err _ => True end)).
  { case_bool_decide as He; [|wp_step; split; congruence].
    unfold unregister_route_helper, change. do 2 wp_step.
    pose proof (law_unregister w1). pose proof (law_unregister_keeps w1).
    destruct (_ =? 0) eqn:E; wp_step; reflect_bools; split; try congruence; auto. }
  intros [[]|e] w2 [Hb2 Hh2]; [|split_and!; [congruence|done|done]]. wp_step.
  eapply wp_mono; [apply broker_status_spec|]. intros ? w3 [-> [Hh3 Hb3]]. wp_step.
  apply (wp_mono _ (fun r w4 => helper_of w4 = helper_of w2 /\
    match r with Ok _ => broker_of w4 <> Enabled | Err _ => True end)).
  { case_bool_decide as He; [|wp_step; split; congruence].
    unfold unregister_tunnel_broker, change. do 2 wp_step.
    pose proof (law_broker_unregister w3). pose proof (law_broker_unregister_keeps w3).
    destruct (_ =? 0) eqn:E; wp_step; reflect_bools; split; try congruence; auto. }
  intros [[]|e] w4 [Hh4 Hb4]; [|split_and!; [congruence|done|congruence]].
  eapply wp_mono; [apply services_status_spec|]. intros ? w5 [[Hh5 Hb5] ->]. split_and!; [congruence| |congruence].
  intros status [= <-]. cbn. split_and!; [|congruence..]. apply bool_decide_eq_false. intros [? ?]. congruence.
Qed.

(** The service is used only when both are enabled and the bundle is genuine. *)
Lemma ready_exact w :
  wp ensure_privileged_networking_services_ready (fun r w' => same_services w w' /\
    (r = Ok tt -> helper_of w = Enabled /\ broker_of w = Enabled) /\
    (forall e, r = Err e -> e = PermissionDenied \/ e = SidecarUnavailable)) w.
Proof.
  unfold ensure_privileged_networking_services_ready. wp_step.
  eapply wp_mono; [apply services_status_spec|]. intros ? w1 [[Hh Hb] ->]. cbn [services_ready].
  case_bool_decide as Hr.
  - do 2 wp_step. destruct (law_verify_keeps w1) as [Hv1 Hv2].
    destruct (negb _); wp_step; split_and!; [split; congruence|done|naive_solver|split; congruence|done|naive_solver].
  - case_match; wp_step; split_and!; try done; naive_solver.
Qed.
End pair.
