(* ===== verification/RouteHelperClient.v ===== *)
(** * RouteHelperClient: the client of the helper's second protocol

    [src-tauri/src/networking/route_helper_client.rs]: native replies, the client of
    one native connection (a generation), the tracker of calls in flight, the bounded
    discovery loop that waits for an idle helper, and the route boundary that replaces
    a terminal generation once and never replays a mutation on the replacement.  The
    bridge is Objective-C code outside the Rust sources: the class [NativeV2].  A
    generation is a class of operations over the state of the world, so that the
    boundary's theorems are proved against its laws. *)

From Stdlib Require Import Ascii String.
From S2P Require Import Prelude Text NetState Config Ipc RouteHelper ProductionSession.
From S2P Require Import RouteV3Client RouteBoundary.

(** ** errors *)

Inductive RouteHelperCallError : Type :=
| CallTerminal (error : NetworkErrorCode)
| CallLocal (error : NetworkErrorCode).

Definition call_code (self : RouteHelperCallError) : NetworkErrorCode :=
  match self with CallTerminal error | CallLocal error => error end.

Definition call_terminates_generation (self : RouteHelperCallError) : bool :=
  match self with CallTerminal _ => true | CallLocal _ => false end.

Inductive ReconciliationError : Type :=
| RecDeadline
| RecCall (error : RouteHelperCallError)
| RecStatus (error : NetworkErrorCode).

Definition reconciliation_code (self : ReconciliationError) : NetworkErrorCode :=
  match self with
  | RecDeadline => OperationTimedOut
  | RecCall error => call_code error
  | RecStatus error => error
  end.

Definition reconciliation_terminates_generation (self : ReconciliationError) : bool :=
  match self with RecCall error => call_terminates_generation error | _ => false end.

#[global] Instance RouteHelperState_eq_dec : EqDecision RouteHelperState.
Proof. solve_decision. Defined.
#[global] Instance RouteLeaseReference_eq_dec : EqDecision RouteLeaseReference.
Proof. solve_decision. Defined.
#[global] Instance RouteLeaseOwner_eq_dec : EqDecision RouteLeaseOwner.
Proof. solve_decision. Defined.

(** ** statuses *)

Definition is_typed_not_ready (status : RouteHelperStatus) : bool :=
  (rh_protocol_version status =? ROUTE_HELPER_PROTOCOL_VERSION)
  && bool_decide (rh_state status = HelperFailedClosed)
  && is_none (rh_operation_id status)
  && bool_decide (rh_error_code status = Some SidecarUnavailable).

Definition require_helper_status (status : RouteHelperStatus) (expected : RouteHelperState)
  : Res unit :=
  match rh_error_code status with
  | Some error => Err error
  | None =>
      if negb (rh_protocol_version status =? ROUTE_HELPER_PROTOCOL_VERSION)
        || negb (bool_decide (rh_state status = expected))
      then Err InvalidStateTransition
      else Ok tt
  end.

Definition require_authoritative_idle (status : RouteHelperStatus) : Res unit :=
  if is_some (rh_operation_id status) then Err InvalidStateTransition
  else require_helper_status status HelperIdle.

(** ** native replies *)

(** Four [i32] fields. *)
Record NativeReply := {
  n2_transport_status : Z;
  n2_protocol_version : Z;
  n2_state : Z;
  n2_error_code : Z;
}.

Definition native_transport (transport_status : Z) : result unit RouteHelperCallError :=
  match transport_status with
  | 0 => Ok tt
  | 1 => Err (CallTerminal OperationTimedOut)
  | 2 | 3 | 4 | 6 => Err (CallTerminal SidecarUnavailable)
  | 5 => Err (CallTerminal UnsupportedProtocolVersion)
  | 7 => Err (CallLocal InvalidConfiguration)
  | _ => Err (CallTerminal UnsupportedProtocolVersion)
  end.

Definition native_state (state : Z) : result RouteHelperState RouteHelperCallError :=
  match state with
  | 0 => Ok HelperIdle
  | 1 => Ok HelperPrepared
  | 2 => Ok HelperApplied
  | 3 => Ok HelperRollingBack
  | 4 => Ok HelperFailedClosed
  | _ => Err (CallTerminal UnsupportedProtocolVersion)
  end.

Definition native_error (error_code : Z)
  : result (option NetworkErrorCode) RouteHelperCallError :=
  match error_code with
  | 0 => Ok None
  | 1 => Ok (Some SidecarUnavailable)
  | 2 => Ok (Some InvalidConfiguration)
  | 3 => Ok (Some PermissionDenied)
  | 4 => Ok (Some RouteJournalUnavailable)
  | 5 => Ok (Some PermissionDenied)
  | 6 | 7 => Ok (Some RouteRollbackFailed)
  | 8 => Ok (Some RouteJournalCorrupted)
  | 9 => Ok (Some RouteConflict)
  | _ => Err (CallTerminal UnsupportedProtocolVersion)
  end.

Definition native_status (reply : NativeReply) (operation_id : option string)
  : result RouteHelperStatus RouteHelperCallError :=
  native_transport (n2_transport_status reply) ;?
  ensure (n2_protocol_version reply =? ROUTE_HELPER_PROTOCOL_VERSION)
    (CallTerminal UnsupportedProtocolVersion) ;?
  let? state := native_state (n2_state reply) in
  let? error_code := native_error (n2_error_code reply) in
  let status := {| rh_protocol_version := ROUTE_HELPER_PROTOCOL_VERSION;
                   rh_state := state;
                   rh_operation_id := operation_id;
                   rh_error_code := error_code |} in
  map_err CallTerminal (RouteHelperStatus_validate status) ;?
  Ok status.

(** ** the trait of a generation, its factory and the discovery timer *)

Notation Call W A := (M W RouteHelperCallError A).

(** [gen_drop] is the destructor of the boxed generation. *)
Class RouteHelperGeneration (W C : Type) := {
  gen_discover : C -> Call W RouteHelperStatus;
  gen_begin : C -> RouteLeaseOwner -> Call W RouteHelperStatus;
  gen_recover : C -> RouteLeaseOwner -> Call W RouteHelperStatus;
  gen_apply : C -> RouteLeaseReference -> Call W RouteHelperStatus;
  gen_rollback : C -> RouteLeaseReference -> Call W RouteHelperStatus;
  gen_heartbeat : C -> RouteLeaseReference -> Call W RouteHelperStatus;
  gen_drop : C -> W -> W;
}.

Class RouteHelperGenerationFactory (W C : Type) := { gen_create : Meth W C }.

(** Durations and instants in nanoseconds; [Duration::MAX] bounds the former. *)
Definition duration_max : Z := u64_max * 1000000000 + 999999999.
Definition from_millis (ms : Z) : Z := ms * 1000000.

(** [Instant::now] and [thread::sleep]. *)
Class DiscoveryClock (W : Type) := {
  clock_now : W -> Z * W;
  clock_sleep : Z -> W -> W;
}.

Class DiscoveryTimer (W T : Type) := {
  timer_expired : T -> W -> bool * W;
  timer_wait : T -> Z -> W -> bool * W;
}.

Record WallClockDiscoveryTimer := { timer_deadline : Z }.

Section wall_clock.
Context {W : Type} `{DiscoveryClock W}.

Definition wall_new (timeout : Z) (w : W) : WallClockDiscoveryTimer * W :=
  let (now, w) := clock_now w in ({| timer_deadline := now + timeout |}, w).

Definition wall_expired (self : WallClockDiscoveryTimer) (w : W) : bool * W :=
  let (now, w) := clock_now w in (timer_deadline self <=? now, w).

Definition wall_wait (self : WallClockDiscoveryTimer) (delay : Z) (w : W) : bool * W :=
  let (now, w) := clock_now w in
  let remaining := Z.max 0 (timer_deadline self - now) in
  if remaining =? 0 then (false, w)
  else let (expired, w) := wall_expired self (clock_sleep (Z.min delay remaining) w) in
       (negb expired, w).

#[export] Instance wall_clock_timer : DiscoveryTimer W WallClockDiscoveryTimer := {
  timer_expired := wall_expired;
  timer_wait := wall_wait;
}.
End wall_clock.

Record DiscoveryPolicy := {
  total_timeout : Z;
  initial_backoff : Z;
  maximum_backoff : Z;
  maximum_attempts : Z;
}.

Definition DISCOVERY_TOTAL_TIMEOUT : Z := from_millis 10000.
Definition DISCOVERY_INITIAL_BACKOFF : Z := from_millis 25.
Definition DISCOVERY_MAX_BACKOFF : Z := from_millis 200.
Definition DISCOVERY_MAX_ATTEMPTS : Z := 100.

Definition policy_PRODUCTION : DiscoveryPolicy :=
  {| total_timeout := DISCOVERY_TOTAL_TIMEOUT;
     initial_backoff := DISCOVERY_INITIAL_BACKOFF;
     maximum_backoff := DISCOVERY_MAX_BACKOFF;
     maximum_attempts := DISCOVERY_MAX_ATTEMPTS |}.

(** ** the discovery loop *)

Definition next_backoff (policy : DiscoveryPolicy) (backoff : Z) : Z :=
  Z.min (saturating_mul duration_max backoff 2) (maximum_backoff policy).

Section discovery.
Context {W C T : Type} `{RouteHelperGeneration W C, DiscoveryTimer W T}.

(** The fuel is the number of attempts left. *)
Fixpoint discover_loop (fuel : nat) (client : C) (policy : DiscoveryPolicy) (timer : T)
  (backoff attempts : Z) : M W ReconciliationError unit :=
  match fuel with
  | O => raise RecDeadline
  | S fuel =>
      let! expired := effect (timer_expired timer) in
      if expired || (maximum_attempts policy <=? attempts) then raise RecDeadline else
      let attempts := attempts + 1 in
      let! answer := capture (gen_discover client) in
      match answer with
      | Ok status =>
          if is_typed_not_ready status then
            if maximum_attempts policy <=? attempts then raise RecDeadline else
            let! waited := effect (timer_wait timer backoff) in
            if negb waited then raise RecDeadline
            else discover_loop fuel client policy timer (next_backoff policy backoff) attempts
          else
            let! expired := effect (timer_expired timer) in
            if expired then raise RecDeadline
            else lift (map_err RecStatus (require_authoritative_idle status))
      | Err error => raise (RecCall error)
      end
  end.

Definition discover_authoritative_idle_with_timer (client : C) (policy : DiscoveryPolicy)
  (timer : T) : M W ReconciliationError unit :=
  discover_loop (Z.to_nat (maximum_attempts policy) + 1) client policy timer
    (initial_backoff policy) 0.
End discovery.

Definition discover_authoritative_idle {W C} `{RouteHelperGeneration W C, DiscoveryClock W}
  (client : C) (policy : DiscoveryPolicy) : M W ReconciliationError unit :=
  let! timer := effect (wall_new (total_timeout policy)) in
  discover_authoritative_idle_with_timer client policy timer.

(** ** the client of one native connection *)

(** The arguments of [kyclash_route_helper_client_owner] after the handle. *)
Record OwnerRequest := {
  oq_method : Z;
  oq_version : Z;
  oq_lease : string;
  oq_operation : string;
  oq_instance : string;
  oq_interface_name : string;
  oq_tunnel_operation : string;
  oq_mtu : Z;
  oq_revision : Z;
  oq_has_ipv4 : Z;
  oq_has_ipv6 : Z;
  oq_mihomo_interfaces : list string;
  oq_cidrs : list string;
}.

(** The arguments of [kyclash_route_helper_client_reference] after the handle. *)
Record ReferenceRequest := {
  rq_method : Z;
  rq_version : Z;
  rq_lease : string;
  rq_operation : string;
}.

(** The bridge: [create] answers 0 when there is no connection. *)
Class NativeV2 (W : Type) := {
  v2_create : W -> Z * W;
  v2_destroy : Z -> W -> W;
  v2_discover : Z -> W -> NativeReply * W;
  v2_owner : Z -> OwnerRequest -> W -> NativeReply * W;
  v2_reference : Z -> ReferenceRequest -> W -> NativeReply * W;
}.

Record RouteHelperClient := { rhc_native : Z }.

Section native_client.
Context {W : Type} `{NativeV2 W}.

Definition rhc_connect : Meth W RouteHelperClient :=
  let! native := effect v2_create in
  if native =? 0 then raise SidecarUnavailable else ret {| rhc_native := native |}.

Definition discover_call (self : RouteHelperClient) : Call W RouteHelperStatus :=
  let! reply := effect (v2_discover (rhc_native self)) in
  lift (native_status reply None).

Definition local {A} (r : Res A) : result A RouteHelperCallError := map_err CallLocal r.

Definition owner_request_call (self : RouteHelperClient) (method : Z) (owner : RouteLeaseOwner)
  : Call W RouteHelperStatus :=
  lift (local (RouteLeaseOwner_validate owner)) ;!
  let! lease := lift (local (c_string (ro_lease_id owner))) in
  let! operation := lift (local (c_string (ro_operation_id owner))) in
  let! instance := lift (local (c_string (ro_sidecar_instance_id owner))) in
  let! interface_name := lift (local (c_string (interface_name (ro_tunnel owner)))) in
  let! tunnel_operation := lift (local (c_string (operation_id (ro_tunnel owner)))) in
  let! cidrs := lift (local (rmapM c_string (ro_private_cidrs owner))) in
  let! mihomo_interfaces :=
    lift (local (rmapM c_string (ro_active_mihomo_tun_interfaces owner))) in
  let! reply := effect (v2_owner (rhc_native self)
    {| oq_method := method;
       oq_version := ro_protocol_version owner;
       oq_lease := lease;
       oq_operation := operation;
       oq_instance := instance;
       oq_interface_name := interface_name;
       oq_tunnel_operation := tunnel_operation;
       oq_mtu := mtu (ro_tunnel owner);
       oq_revision := ro_profile_revision owner;
       oq_has_ipv4 := Z.b2z (has_ipv4 (ro_tunnel owner));
       oq_has_ipv6 := Z.b2z (has_ipv6 (ro_tunnel owner));
       oq_mihomo_interfaces := mihomo_interfaces;
       oq_cidrs := cidrs |}) in
  lift (native_status reply (Some (ro_operation_id owner))).

Definition reference_request_call (self : RouteHelperClient) (method : Z)
  (reference : RouteLeaseReference) : Call W RouteHelperStatus :=
  lift (local (RouteLeaseReference_validate reference)) ;!
  let! lease := lift (local (c_string (rr_lease_id reference))) in
  let! operation := lift (local (c_string (rr_operation_id reference))) in
  let! reply := effect (v2_reference (rhc_native self)
    {| rq_method := method;
       rq_version := rr_protocol_version reference;
       rq_lease := lease;
       rq_operation := operation |}) in
  lift (native_status reply (Some (rr_operation_id reference))).

Definition begin_call (self : RouteHelperClient) := owner_request_call self 0.
Definition recover_call (self : RouteHelperClient) := owner_request_call self 1.
Definition apply_call (self : RouteHelperClient) := reference_request_call self 0.
Definition rollback_call (self : RouteHelperClient) := reference_request_call self 1.
Definition heartbeat_call (self : RouteHelperClient) := reference_request_call self 2.

(** The public surface flattens the error. *)
Definition flat {A} (m : Call W A) : Meth W A :=
  let! r := capture m in lift (map_err call_code r).

Definition rhc_discover (self : RouteHelperClient) := flat (discover_call self).
Definition rhc_begin (self : RouteHelperClient) owner := flat (begin_call self owner).
Definition rhc_recover (self : RouteHelperClient) owner := flat (recover_call self owner).
Definition rhc_apply (self : RouteHelperClient) reference := flat (apply_call self reference).
Definition rhc_rollback (self : RouteHelperClient) reference := flat (rollback_call self reference).
Definition rhc_heartbeat (self : RouteHelperClient) reference :=
  flat (heartbeat_call self reference).
Definition rhc_status (self : RouteHelperClient) reference :=
  flat (reference_request_call self 3 reference).

Definition rhc_drop (self : RouteHelperClient) (w : W) : W :=
  if negb (rhc_native self =? 0) then v2_destroy (rhc_native self) w else w.

#[export] Instance native_generation : RouteHelperGeneration W RouteHelperClient := {
  gen_discover := discover_call;
  gen_begin := begin_call;
  gen_recover := recover_call;
  gen_apply := apply_call;
  gen_rollback := rollback_call;
  gen_heartbeat := heartbeat_call;
  gen_drop := rhc_drop;
}.

#[export] Instance native_factory : RouteHelperGenerationFactory W RouteHelperClient := {
  gen_create := rhc_connect;
}.
End native_client.

(** ** calls in flight

    The tracker is shared by the boundary and the generations it makes: it is kept
    beside the world.  [usize] is 64 bits wide. *)
Record TrackedWorld (W : Type) := { tw_world : W; in_flight : Z }.
Arguments tw_world {W} _.
Arguments in_flight {W} _.

Section tracker.
Context {W C : Type}.
Context `{RouteHelperGeneration W C, RouteHelperGenerationFactory W C, DiscoveryClock W}.

Definition set_in_flight (n : Z) (t : TrackedWorld W) : TrackedWorld W :=
  {| tw_world := tw_world t; in_flight := n |}.
Definition set_tw_world (w : W) (t : TrackedWorld W) : TrackedWorld W :=
  {| tw_world := w; in_flight := in_flight t |}.

Definition tracker_enter : Call (TrackedWorld W) unit :=
  let! t := get in
  match checked_add u64_max (in_flight t) 1 with
  | Some current => modify (set_in_flight current)
  | None => raise (CallLocal InvalidStateTransition)
  end.

(** [fetch_sub] wraps around at the width of [usize]. *)
Definition guard_drop (t : TrackedWorld W) : TrackedWorld W :=
  set_in_flight ((in_flight t - 1) mod (u64_max + 1)) t.

Definition tracker_is_idle (t : TrackedWorld W) : bool := in_flight t =? 0.

(** The guard lives to the end of the method. *)
Definition tracked {A} (call : Call W A) : Call (TrackedWorld W) A :=
  tracker_enter ;!
  let! r := attempt (zoom tw_world set_tw_world call) in
  modify guard_drop ;!
  lift r.

#[export] Instance tracked_generation : RouteHelperGeneration (TrackedWorld W) C := {
  gen_discover client := tracked (gen_discover client);
  gen_begin client owner := tracked (gen_begin client owner);
  gen_recover client owner := tracked (gen_recover client owner);
  gen_apply client reference := tracked (gen_apply client reference);
  gen_rollback client reference := tracked (gen_rollback client reference);
  gen_heartbeat client reference := tracked (gen_heartbeat client reference);
  gen_drop client t := set_tw_world (gen_drop client (tw_world t)) t;
}.

(** A method of the factory runs outside the tracker. *)
Definition tracked_create : Meth (TrackedWorld W) C := zoom tw_world set_tw_world gen_create.

#[export] Instance tracked_factory : RouteHelperGenerationFactory (TrackedWorld W) C := {
  gen_create := tracked_create;
}.

#[export] Instance tracked_clock : DiscoveryClock (TrackedWorld W) := {
  clock_now t := let (now, w) := clock_now (tw_world t) in (now, set_tw_world w t);
  clock_sleep delay t := set_tw_world (clock_sleep delay (tw_world t)) t;
}.
End tracker.

(** ** the route boundary *)

Record XpcProductionRouteBoundary (W C : Type) := {
  xb_world : TrackedWorld W;
  xb_client : option C;
  xb_native_generation : Z;
  xb_retirement_issuer : RouteRetirementIssuer;
  xb_discovery_policy : DiscoveryPolicy;
  xb_active : option RouteLeaseReference;
  xb_active_owner : option RouteLeaseOwner;
  xb_recovery_required : bool;
  xb_mutations_blocked : bool;
  xb_reconciliation_error : option NetworkErrorCode;
  xb_retired : bool;
}.
Arguments xb_world {W C} _.
Arguments xb_client {W C} _.
Arguments xb_native_generation {W C} _.
Arguments xb_retirement_issuer {W C} _.
Arguments xb_discovery_policy {W C} _.
Arguments xb_active {W C} _.
Arguments xb_active_owner {W C} _.
Arguments xb_recovery_required {W C} _.
Arguments xb_mutations_blocked {W C} _.
Arguments xb_reconciliation_error {W C} _.
Arguments xb_retired {W C} _.

Section boundary.
Context {W C : Type}.
Context `{RouteHelperGeneration W C, RouteHelperGenerationFactory W C, DiscoveryClock W}.
Notation XB := (XpcProductionRouteBoundary W C).

Definition xb_set_world (v : TrackedWorld W) (self : XB) : XB :=
  {| xb_world := v; xb_client := xb_client self;
     xb_native_generation := xb_native_generation self;
     xb_retirement_issuer := xb_retirement_issuer self;
     xb_discovery_policy := xb_discovery_policy self;
     xb_active := xb_active self; xb_active_owner := xb_active_owner self;
     xb_recovery_required := xb_recovery_required self;
     xb_mutations_blocked := xb_mutations_blocked self;
     xb_reconciliation_error := xb_reconciliation_error self; xb_retired := xb_retired self |}.
Definition xb_set_client (v : option C) (generation : Z) (self : XB) : XB :=
  {| xb_world := xb_world self; xb_client := v;
     xb_native_generation := generation;
     xb_retirement_issuer := xb_retirement_issuer self;
     xb_discovery_policy := xb_discovery_policy self;
     xb_active := xb_active self; xb_active_owner := xb_active_owner self;
     xb_recovery_required := xb_recovery_required self;
     xb_mutations_blocked := xb_mutations_blocked self;
     xb_reconciliation_error := xb_reconciliation_error self; xb_retired := xb_retired self |}.
Definition xb_set_active (reference : option RouteLeaseReference) (owner : option RouteLeaseOwner)
  (self : XB) : XB :=
  {| xb_world := xb_world self; xb_client := xb_client self;
     xb_native_generation := xb_native_generation self;
     xb_retirement_issuer := xb_retirement_issuer self;
     xb_discovery_policy := xb_discovery_policy self;
     xb_active := reference; xb_active_owner := owner;
     xb_recovery_required := xb_recovery_required self;
     xb_mutations_blocked := xb_mutations_blocked self;
     xb_reconciliation_error := xb_reconciliation_error self; xb_retired := xb_retired self |}.
(** The three fields that stop or qualify mutations. *)
Definition xb_set_recovery (recovery blocked : bool) (error : option NetworkErrorCode) (self : XB)
  : XB :=
  {| xb_world := xb_world self; xb_client := xb_client self;
     xb_native_generation := xb_native_generation self;
     xb_retirement_issuer := xb_retirement_issuer self;
     xb_discovery_policy := xb_discovery_policy self;
     xb_active := xb_active self; xb_active_owner := xb_active_owner self;
     xb_recovery_required := recovery;
     xb_mutations_blocked := blocked;
     xb_reconciliation_error := error; xb_retired := xb_retired self |}.
Definition xb_set_retired (v : bool) (self : XB) : XB :=
  {| xb_world := xb_world self; xb_client := xb_client self;
     xb_native_generation := xb_native_generation self;
     xb_retirement_issuer := xb_retirement_issuer self;
     xb_discovery_policy := xb_discovery_policy self;
     xb_active := xb_active self; xb_active_owner := xb_active_owner self;
     xb_recovery_required := xb_recovery_required self;
     xb_mutations_blocked := xb_mutations_blocked self;
     xb_reconciliation_error := xb_reconciliation_error self; xb_retired := v |}.

Definition set_recovery_required (v : bool) (self : XB) : XB :=
  xb_set_recovery v (xb_mutations_blocked self) (xb_reconciliation_error self) self.
Definition set_reconciliation_error (error : NetworkErrorCode) (self : XB) : XB :=
  xb_set_recovery (xb_recovery_required self) (xb_mutations_blocked self) (Some error) self.

Definition on_tracked {E A} (m : M (TrackedWorld W) E A) : M XB E A := zoom xb_world xb_set_world m.

(** [drop(self.client.take())]. *)
Definition drop_client (self : XB) : XB :=
  match xb_client self with
  | Some client =>
      xb_set_client None (xb_native_generation self)
        (xb_set_world (gen_drop client (xb_world self)) self)
  | None => self
  end.

(** The process-wide counter of incarnations is the second half of the state.  An
    early return drops the client made so far. *)
Definition connect_with_factory (discovery_policy : DiscoveryPolicy) : Meth (W * Z) XB :=
  let! state := get in
  let next := state.2 in
  let calls := {| tw_world := state.1; in_flight := 0 |} in
  let leave (t : TrackedWorld W) next := modify (fun _ => (tw_world t, next)) in
  match tracked_create calls with
  | (Err error, t) => leave t next ;! raise error
  | (Ok client, t) =>
      match discover_authoritative_idle client discovery_policy t with
      | (Err error, t) => leave (gen_drop client t) next ;! raise (reconciliation_code error)
      | (Ok _, t) =>
          match issuer_allocate next with
          | (Err error, next) => leave (gen_drop client t) next ;! raise error
          | (Ok retirement_issuer, next) =>
              leave t next ;!
              ret {| xb_world := t; xb_client := Some client; xb_native_generation := 1;
                     xb_retirement_issuer := retirement_issuer;
                     xb_discovery_policy := discovery_policy;
                     xb_active := None; xb_active_owner := None;
                     xb_recovery_required := false; xb_mutations_blocked := false;
                     xb_reconciliation_error := None; xb_retired := false |}
          end
      end
  end.

Definition xb_connect : Meth (W * Z) XB := connect_with_factory policy_PRODUCTION.

Definition live_client (self : XB) : Res C :=
  if xb_retired self then Err InvalidStateTransition
  else if xb_mutations_blocked self
  then Err (default InvalidStateTransition (xb_reconciliation_error self))
  else ok_or (xb_client self) SidecarUnavailable.

Definition clear_frozen_owner (self : XB) : XB :=
  xb_set_recovery false false None (xb_set_active None None self).

Definition freeze_without_replacement (error : NetworkErrorCode) (self : XB) : XB :=
  xb_set_recovery true true (Some error) self.

Definition reconcile_terminal_generation (primary : NetworkErrorCode) (self : XB) : XB :=
  let self := drop_client (xb_set_recovery true true (Some primary) self) in
  match on_tracked tracked_create self with
  | (Err error, self) => set_reconciliation_error error self
  | (Ok fresh, self) =>
      match checked_add u64_max (xb_native_generation self) 1 with
      | None =>
          (* the unused replacement is dropped on return *)
          set_reconciliation_error InvalidStateTransition
            (xb_set_world (gen_drop fresh (xb_world self)) self)
      | Some native_generation =>
          let self := xb_set_client (Some fresh) native_generation self in
          match on_tracked (discover_authoritative_idle fresh (xb_discovery_policy self)) self with
          | (Ok _, self) => clear_frozen_owner self
          | (Err error, self) =>
              let self := set_reconciliation_error (reconciliation_code error) self in
              if reconciliation_terminates_generation error then drop_client self else self
          end
      end
  end.

(** [return Err(self.handle_call_error(error))]. *)
Definition handle_call_error {A} (error : RouteHelperCallError) : Meth XB A :=
  (if call_terminates_generation error
   then modify (reconcile_terminal_generation (call_code error)) else ret tt) ;!
  raise (call_code error).

Definition rollback_after_helper_error {A} (reference : RouteLeaseReference)
  (primary : NetworkErrorCode) : Meth XB A :=
  let! self := get in
  match live_client self with
  | Err error =>
      modify (fun self => set_reconciliation_error error (set_recovery_required true self)) ;!
      raise primary
  | Ok client =>
      let! rollback := capture (on_tracked (gen_rollback client reference)) in
      match rollback with
      | Ok status =>
          if is_typed_not_ready status
          then modify (freeze_without_replacement SidecarUnavailable)
          else match require_helper_status status HelperIdle with
               | Ok _ => modify clear_frozen_owner
               | Err error =>
                   modify (fun self =>
                     set_reconciliation_error error (set_recovery_required true self))
               end
      | Err error =>
          if call_terminates_generation error
          then modify (reconcile_terminal_generation primary)
          else ret tt
      end ;!
      raise primary
  end.

(** A call of the live client: a refusal of [live_client] is returned as it is, an
    error of the call goes through [handle_call_error], and the answer that the helper
    is not ready freezes the boundary. *)
Definition live_call (call : C -> Call (TrackedWorld W) RouteHelperStatus)
  : Meth XB RouteHelperStatus :=
  let! self := get in
  let! client := lift (live_client self) in
  let! answer := capture (on_tracked (call client)) in
  match answer with
  | Err error => handle_call_error error
  | Ok status =>
      if is_typed_not_ready status
      then modify (freeze_without_replacement SidecarUnavailable) ;! raise SidecarUnavailable
      else ret status
  end.

Definition recover_active : Meth XB RouteHelperState :=
  let! self := get in
  let! owner := lift (ok_or (xb_active_owner self) InvalidStateTransition) in
  let! recovered := live_call (fun client => gen_recover client owner) in
  match rh_error_code recovered with
  | Some error => raise error
  | None =>
      match rh_state recovered with
      | HelperPrepared | HelperApplied =>
          modify (set_recovery_required false) ;! ret (rh_state recovered)
      | _ => raise InvalidStateTransition
      end
  end.

Definition xb_disposition (self : XB) : ProductionRouteDisposition :=
  if xb_retired self then RouteRetired
  else if negb (tracker_is_idle (xb_world self)) then RouteBusy
  else if xb_recovery_required self || xb_mutations_blocked self
    || is_some (xb_reconciliation_error self) || is_none (xb_client self)
  then RouteRecoveryOnly
  else match xb_active self, xb_active_owner self with
       | None, None => RouteReusable
       | Some _, Some _ => RouteBusy
       | _, _ => RouteRecoveryOnly
       end.

Definition xb_try_retire (self : XB) : ProductionRouteRetirementResult * XB :=
  match xb_disposition self with
  | RouteBusy => (RetireBusy, self)
  | RouteRecoveryOnly => (RetireRecoveryOnly, self)
  | RouteRetired => (RetireAlreadyRetired, self)
  | RouteReusable =>
      match xb_client self with
      | None => (RetireRecoveryOnly, self)
      | Some _ =>
          let self := xb_set_retired true (drop_client self) in
          (RetireRetired (receipt_issued (xb_retirement_issuer self) (xb_native_generation self)),
           self)
      end
  end.

(** The owner envelope of an application, and the reference to it. *)
Definition lease_owner (profile : NetworkProfile) (operation_id : string)
  (tunnel : TunnelDeviceFacts) (profile_revision : Z) (mihomo : MihomoTunSnapshot)
  : RouteLeaseOwner :=
  {| ro_protocol_version := ROUTE_HELPER_PROTOCOL_VERSION;
     ro_lease_id := operation_id;
     ro_operation_id := operation_id;
     ro_sidecar_instance_id := instance_id tunnel;
     ro_profile_revision := profile_revision;
     ro_tunnel := tunnel;
     ro_active_mihomo_tun_interfaces := active_mihomo_tun_interfaces mihomo;
     ro_private_cidrs := private_cidrs (site profile) |}.
Definition lease_reference (owner : RouteLeaseOwner) : RouteLeaseReference :=
  {| rr_protocol_version := ROUTE_HELPER_PROTOCOL_VERSION;
     rr_lease_id := ro_lease_id owner;
     rr_operation_id := ro_operation_id owner |}.

(** The branch that starts a new lease: stage the owner, then [begin]. *)
Definition begin_lease (owner : RouteLeaseOwner) : Meth XB unit :=
  let reference := lease_reference owner in
  let! self := get in
  lift (ensure (negb (is_some (xb_active self) || is_some (xb_active_owner self)))
          InvalidStateTransition) ;!
  modify (xb_set_active (Some reference) (Some owner)) ;!
  let! self := get in
  let! client := lift (live_client self) in
  let! answer := capture (on_tracked (gen_begin client owner)) in
  match answer with
  | Err (CallLocal error) => modify (xb_set_active None None) ;! raise error
  | Err error => handle_call_error error
  | Ok begin =>
      if is_typed_not_ready begin
      then modify (freeze_without_replacement SidecarUnavailable) ;! raise SidecarUnavailable
      else match require_helper_status begin HelperPrepared with
           | Ok _ => ret tt
           | Err error => rollback_after_helper_error reference error
           end
  end.

(** The end of [apply]: the prepared lease is applied, or rolled back. *)
Definition apply_lease (reference : RouteLeaseReference) : Meth XB unit :=
  let! applied := live_call (fun client => gen_apply client reference) in
  match require_helper_status applied HelperApplied with
  | Ok _ => ret tt
  | Err error => rollback_after_helper_error reference error
  end.

Definition xb_apply (profile : NetworkProfile) (operation_id : string)
  (tunnel : TunnelDeviceFacts) (profile_revision : Z) (mihomo : MihomoTunSnapshot)
  : Meth XB unit :=
  let! self := get in
  let! _ := lift (live_client self) in
  let owner := lease_owner profile operation_id tunnel profile_revision mihomo in
  lift (validate_for mihomo (interface_name tunnel)) ;!
  lift (RouteLeaseOwner_validate owner) ;!
  let reference := lease_reference owner in
  if xb_recovery_required self then
    if negb (bool_decide (xb_active self = Some reference))
      || negb (bool_decide (xb_active_owner self = Some owner))
    then raise InvalidStateTransition
    else
      let! state := recover_active in
      match state with
      | HelperApplied => ret tt
      | HelperPrepared => apply_lease reference
      | _ => raise InvalidStateTransition
      end
  else begin_lease owner ;! apply_lease reference.

(** The default method of the trait. *)
Definition xb_apply_broker_bound (profile : NetworkProfile) (operation_id : string)
  (tunnel : TunnelDeviceFacts) (profile_revision : Z) (mihomo : MihomoTunSnapshot)
  (receipt : ControllerStartReceipt) : Meth XB unit :=
  raise InvalidStateTransition.

Definition xb_heartbeat (operation_id : string) : Meth XB unit :=
  let! self := get in
  let! _ := lift (live_client self) in
  (if xb_recovery_required self then
     let! state := recover_active in
     match state with HelperApplied => ret tt | _ => raise InvalidStateTransition end
   else ret tt) ;!
  let! self := get in
  let! reference := lift (match xb_active self with
                          | Some reference =>
                              if bool_decide (rr_operation_id reference = operation_id)
                              then Ok reference else Err InvalidStateTransition
                          | None => Err InvalidStateTransition
                          end) in
  let! status := live_call (fun client => gen_heartbeat client reference) in
  match require_helper_status status HelperApplied with
  | Ok _ => ret tt
  | Err error => modify (set_recovery_required true) ;! raise error
  end.

Definition xb_rollback (operation_id : string) : Meth XB unit :=
  let! self := get in
  let! _ := lift (live_client self) in
  match xb_active self with
  | None => ret tt
  | Some reference =>
      if negb (bool_decide (rr_operation_id reference = operation_id))
      then raise InvalidStateTransition else
      (if xb_recovery_required self then let! _ := recover_active in ret tt else ret tt) ;!
      let! status := live_call (fun client => gen_rollback client reference) in
      match require_helper_status status HelperIdle with
      | Err error => modify (set_recovery_required true) ;! raise error
      | Ok _ =>
          modify (xb_set_active None None) ;!
          modify (set_recovery_required false)
      end
  end.

(** Best-effort cleanup; the client itself is dropped with the boundary. *)
Definition xb_drop (self : XB) : XB :=
  drop_client
    (if negb (xb_mutations_blocked self) && negb (xb_retired self) then
       match xb_client self, xb_active self with
       | Some client, Some reference =>
           (on_tracked (gen_rollback client reference : Call _ _) self).2
       | _, _ => self
       end
     else self).

#[export] Instance xpc_boundary : ProductionRouteBoundary XB := {
  rb_disposition := xb_disposition;
  rb_try_retire := xb_try_retire;
  rb_apply := xb_apply;
  rb_apply_broker_bound := xb_apply_broker_bound;
  rb_heartbeat := xb_heartbeat;
  rb_rollback := xb_rollback;
}.
End boundary.
