(* ===== verification/RouteHelperClientSafety.v ===== *)
(** * RouteHelperClientSafety: discovery is bounded, and a retired boundary has no lease

    The discovery loop of [route_helper_client.rs] succeeds exactly when the helper
    answers idle within its attempts and before the deadline.  The boundary keeps the
    laws of its interface, its frozen owner stays consistent, and whatever calls were
    made, a boundary that may be retired left no lease with the helper. *)

From Stdlib Require Import Ascii String.
From S2P Require Import Prelude Text NetState Config Ipc RouteHelper ProductionSession.
From S2P Require Import RouteV3Client RouteBoundary RouteHelperClient.

(** ** discovery *)

Section discovery_loop.
Context {W C T : Type} `{RouteHelperGeneration W C, DiscoveryTimer W T}.
Implicit Types (w : W) (client : C) (policy : DiscoveryPolicy) (timer : T).

(** One round that goes on: before the deadline, answered not-ready, waited out. *)
Definition poll_round client timer (backoff : Z) w : option W :=
  let (expired, w) := timer_expired timer w in
  if expired then None else
  let (answer, w) := gen_discover client w in
  match answer with
  | Ok status =>
      if is_typed_not_ready status then
        let (waited, w) := timer_wait timer backoff w in
        if waited then Some w else None
      else None
  | Err _ => None
  end.

(** The state after [n] such rounds. *)
Fixpoint poll_rounds (n : nat) client policy timer (backoff : Z) w : option W :=
  match n with
  | O => Some w
  | S n =>
      match poll_round client timer backoff w with
      | Some w => poll_rounds n client policy timer (next_backoff policy backoff) w
      | None => None
      end
  end.

(** The last round: idle, answered and read before the deadline. *)
Definition idle_round client timer w w' : Prop :=
  exists w1 w2 status,
    timer_expired timer w = (false, w1) /\
    gen_discover client w1 = (Ok status, w2) /\
    is_typed_not_ready status = false /\
    timer_expired timer w2 = (false, w') /\
    require_authoritative_idle status = Ok tt.

Lemma discover_loop_step fuel client policy timer backoff attempts w w1 :
  poll_round client timer backoff w = Some w1 -> attempts + 1 < maximum_attempts policy ->
  discover_loop (S fuel) client policy timer backoff attempts w =
  discover_loop fuel client policy timer (next_backoff policy backoff) (attempts + 1) w1.
Proof.
  unfold poll_round. intros Hr Hlt. cbn [discover_loop]. unfold bind, effect, capture.
  destruct (timer_expired timer w) as [[] w2]; [done|].
  replace (maximum_attempts policy <=? attempts) with false by lia. cbn [orb].
  destruct (gen_discover client w2) as [[status|] w3]; [|done].
  destruct (is_typed_not_ready status); [|done].
  replace (maximum_attempts policy <=? attempts + 1) with false by lia.
  by destruct (timer_wait timer backoff w3) as [[] w4]; simplify_eq.
Qed.

(** The loop gave an error, and the last round cannot have been an idle one. *)
Ltac no_idle_round :=
  intros; split; [done|intros (_ & wa & wb & st & ? & ? & ? & ? & ?); congruence].

(** A round that does not go on ends the loop, whatever fuel is left. *)
Lemma discover_loop_stop fuel client policy timer backoff attempts w :
  poll_round client timer backoff w = None \/ maximum_attempts policy <= attempts + 1 ->
  let result := discover_loop (S fuel) client policy timer backoff attempts w in
  result = discover_loop 1 client policy timer backoff attempts w /\
  forall w', result = (Ok tt, w') <->
    attempts < maximum_attempts policy /\ idle_round client timer w w'.
Proof.
  unfold poll_round, idle_round. intros Hr. cbn [discover_loop]. unfold bind, effect, capture, raise, lift.
  destruct (timer_expired timer w) as [[] w2] eqn:E1; [split; [done|no_idle_round]|].
  destruct (maximum_attempts policy <=? attempts) eqn:Ea; cbn [orb];
    reflect_bools; [split; [done|]; intros w'; split; [done|]; intros [? _]; lia|].
  destruct (gen_discover client w2) as [[status|] w3] eqn:E2; [|split; [done|no_idle_round]].
  destruct (is_typed_not_ready status) eqn:E3.
  - destruct (maximum_attempts policy <=? attempts + 1) eqn:Eb; reflect_bools;
      [split; [done|no_idle_round]|].
    destruct (timer_wait timer backoff w3) as [[] w4]; [|split; [done|no_idle_round]].
    destruct Hr; [done|lia].
  - destruct (timer_expired timer w3) as [[] w4] eqn:E4; [split; [done|no_idle_round]|].
    split; [done|].
    intros w'. destruct (require_authoritative_idle status) as [[]|e] eqn:E5; [|no_idle_round].
    split; [|intros (_ & wa & wb & st & ? & ? & ? & ? & ?); cbn; congruence].
    intros [= <-]. split; [done|]. by exists w2, w3, status.
Qed.

Lemma discover_loop_spec fuel client policy timer backoff attempts w w' :
  0 <= attempts -> maximum_attempts policy - attempts < Z.of_nat fuel ->
  discover_loop fuel client policy timer backoff attempts w = (Ok tt, w') <->
  exists n w1, attempts + Z.of_nat n < maximum_attempts policy /\
    poll_rounds n client policy timer backoff w = Some w1 /\ idle_round client timer w1 w'.
Proof.
  revert backoff attempts w. induction fuel as [|fuel IH]; intros backoff attempts w Ha Hf.
  { cbn. split; [done|]. intros (n & w1 & Hlt & _). lia. }
  destruct (poll_round client timer backoff w) as [w1|] eqn:Hr;
    [destruct (decide (attempts + 1 < maximum_attempts policy)) as [Hlt|Hge]|].
  - rewrite (discover_loop_step _ _ _ _ _ _ _ _ Hr Hlt), IH by lia. split.
    + intros (n & w2 & Hn & Hp & Hi). exists (S n), w2. cbn. rewrite Hr. eauto with lia.
    + intros ([|n] & w2 & Hn & Hp & Hi); cbn in Hp.
      * injection Hp as <-. destruct Hi as (wa & wb & status & He & Hd & Hnr & _).
        unfold poll_round in Hr. by rewrite He, Hd, Hnr in Hr.
      * rewrite Hr in Hp. exists n, w2. eauto with lia.
  - destruct (discover_loop_stop fuel client policy timer backoff attempts w) as [_ Hs]; [lia|].
    rewrite Hs. split; [|intros ([|n] & w2 & Hn & Hp & Hi); [|lia]].
    + intros [? ?]. exists O, w. cbn. eauto with lia.
    + cbn in Hp. injection Hp as <-. eauto with lia.
  - destruct (discover_loop_stop fuel client policy timer backoff attempts w) as [_ Hs]; [auto|].
    rewrite Hs. split; [|intros ([|n] & w2 & Hn & Hp & Hi)].
    + intros [? ?]. exists O, w. cbn. eauto with lia.
    + cbn in Hp. injection Hp as <-. eauto with lia.
    + cbn in Hp. by rewrite Hr in Hp.
Qed.

(** The fuel is enough: more of it changes nothing. *)
Lemma discover_loop_fuel fuel more client policy timer backoff attempts w :
  0 <= maximum_attempts policy - attempts < Z.of_nat fuel -> (fuel <= more)%nat ->
  discover_loop more client policy timer backoff attempts w =
  discover_loop fuel client policy timer backoff attempts w.
Proof.
  revert more backoff attempts w.
  induction fuel as [|fuel IH]; intros [|more] backoff attempts w Hf Hm; [lia..|].
  destruct (poll_round client timer backoff w) as [w1|] eqn:Hr;
    [destruct (decide (attempts + 1 < maximum_attempts policy)) as [Hlt|Hge]|].
  - rewrite !(discover_loop_step _ _ _ _ _ _ _ _ Hr Hlt). apply IH; lia.
  - by rewrite (proj1 (discover_loop_stop more client policy timer backoff attempts w ltac:(lia))),
      (proj1 (discover_loop_stop fuel client policy timer backoff attempts w ltac:(lia))).
  - by rewrite (proj1 (discover_loop_stop more client policy timer backoff attempts w ltac:(auto))),
      (proj1 (discover_loop_stop fuel client policy timer backoff attempts w ltac:(auto))).
Qed.

Lemma discover_loop_preserves (P : W -> Prop) fuel client policy timer backoff attempts :
  (forall w, P w -> P (timer_expired timer w).2) ->
  (forall delay w, P w -> P (timer_wait timer delay w).2) ->
  preserves P (gen_discover client) ->
  preserves P (discover_loop fuel client policy timer backoff attempts).
Proof.
  intros He Hw Hd. revert backoff attempts.
  induction fuel as [|fuel IH]; intros backoff attempts; cbn [discover_loop]; preserves_tac.
  all: try solve [apply preserves_effect; auto | by apply preserves_capture | apply IH].
Qed.

Lemma poll_rounds_preserves (P : W -> Prop) n client policy timer backoff w w' :
  (forall w, P w -> P (timer_expired timer w).2) ->
  (forall delay w, P w -> P (timer_wait timer delay w).2) ->
  preserves P (gen_discover client) ->
  poll_rounds n client policy timer backoff w = Some w' -> P w -> P w'.
Proof.
  intros He Hw Hd. revert backoff w. induction n as [|n IH]; intros backoff w; cbn.
  { by intros [= <-]. }
  destruct (poll_round client timer backoff w) as [w1|] eqn:Hr; [|done].
  intros Hp HP. apply (IH _ _ Hp). unfold poll_round in Hr. apply He in HP.
  destruct (timer_expired timer w) as [[] w2]; [done|]. apply Hd in HP. cbn in HP.
  destruct (gen_discover client w2) as [[status|] w3]; [|done].
  destruct (is_typed_not_ready status); [|done]. apply (Hw backoff) in HP. cbn in HP.
  by destruct (timer_wait timer backoff w3) as [[] w4]; simplify_eq.
Qed.
End discovery_loop.

(** The delay before the round [n + 1]. *)
Fixpoint backoff_at (policy : DiscoveryPolicy) (n : nat) : Z :=
  match n with
  | O => initial_backoff policy
  | S n => next_backoff policy (backoff_at policy n)
  end.

Lemma backoff_at_exact policy n :
  0 <= initial_backoff policy <= maximum_backoff policy -> maximum_backoff policy <= duration_max ->
  backoff_at policy n = Z.min (maximum_backoff policy) (initial_backoff policy * 2 ^ Z.of_nat n).
Proof.
  intros Hi Hm. induction n as [|n IH]; cbn [backoff_at]; [cbn; lia|].
  rewrite IH, Nat2Z.inj_succ, Z.pow_succ_r by lia. unfold next_backoff, saturating_mul.
  assert (0 <= initial_backoff policy * 2 ^ Z.of_nat n) by nia. lia.
Qed.

(** Discovery makes at most the configured number of attempts and succeeds
    exactly when, after rounds that the helper answered not ready and that were
    waited out, it answers idle before the deadline; the delay doubles up to its
    cap. *)
Theorem discovery_succeeds_exactly {W C T} `{RouteHelperGeneration W C, DiscoveryTimer W T}
  (client : C) (policy : DiscoveryPolicy) (timer : T) (w : W)
  (Hattempts : in_u u16_max (maximum_attempts policy)) :
  (forall w', discover_authoritative_idle_with_timer client policy timer w = (Ok tt, w') <->
    exists n w1, Z.of_nat n < maximum_attempts policy /\
      poll_rounds n client policy timer (initial_backoff policy) w = Some w1 /\
      idle_round client timer w1 w') /\
  (forall more, (Z.to_nat (maximum_attempts policy) < more)%nat ->
    discover_loop more client policy timer (initial_backoff policy) 0 w =
    discover_authoritative_idle_with_timer client policy timer w) /\
  (forall n, backoff_at policy_PRODUCTION n =
    Z.min (from_millis 200) (from_millis 25 * 2 ^ Z.of_nat n)).
Proof.
  unfold in_u in Hattempts. unfold discover_authoritative_idle_with_timer. split_and!.
  - intros w'. rewrite discover_loop_spec by lia. setoid_rewrite Z.add_0_l. done.
  - intros more Hm. apply discover_loop_fuel; lia.
  - intros n. by apply backoff_at_exact.
Qed.

(** ** what a generation promises

    [held w r]: the helper may keep a hold or routes for the lease [r].  Only [begin]
    and the calls on an owner or a reference may start holding a lease, each its own;
    a refusal before the message is sent changes nothing; a rollback that answers idle
    has ended its lease, and an idle helper without an operation holds none. *)
Class GenerationLaws (W C : Type)
  `{RouteHelperGeneration W C, RouteHelperGenerationFactory W C, DiscoveryClock W} := {
  held : W -> RouteLeaseReference -> bool;
  law_gen_create : forall w r, held (gen_create w).2 r = true -> held w r = true;
  law_gen_drop : forall c w r, held (gen_drop c w) r = true -> held w r = true;
  law_clock_now : forall w r, held (clock_now w).2 r = true -> held w r = true;
  law_clock_sleep : forall delay w r, held (clock_sleep delay w) r = true -> held w r = true;
  law_gen_discover : forall c w r, held (gen_discover c w).2 r = true -> held w r = true;
  law_gen_idle : forall c w status r, (gen_discover c w).1 = Ok status ->
    require_authoritative_idle status = Ok tt -> held (gen_discover c w).2 r = false;
  law_gen_begin : forall c o w r, held (gen_begin c o w).2 r = true ->
    held w r = true \/ r = lease_reference o;
  law_gen_begin_local : forall c o w e r, (gen_begin c o w).1 = Err (CallLocal e) ->
    held (gen_begin c o w).2 r = true -> held w r = true;
  law_gen_recover : forall c o w r, held (gen_recover c o w).2 r = true ->
    held w r = true \/ r = lease_reference o;
  law_gen_apply : forall c ref w r, held (gen_apply c ref w).2 r = true -> held w r = true \/ r = ref;
  law_gen_heartbeat : forall c ref w r, held (gen_heartbeat c ref w).2 r = true ->
    held w r = true \/ r = ref;
  law_gen_rollback : forall c ref w r, held (gen_rollback c ref w).2 r = true ->
    held w r = true \/ r = ref;
  law_gen_rolled_back : forall c ref w status, (gen_rollback c ref w).1 = Ok status ->
    require_helper_status status HelperIdle = Ok tt -> held (gen_rollback c ref w).2 ref = false;
}.

(** What an answer without an error says of the lease it names: [begin] that answers
    prepared has the helper keep the lease of that very owner, [recover] confirms the
    lease of the exact owner it is given, and [apply] applies the lease that is kept. *)
Class KeepingLaws (W C : Type) `{GenerationLaws W C} := {
  lease_kept : W -> RouteLeaseOwner -> bool -> Prop;
  law_gen_begun : forall c o w status, (gen_begin c o w).1 = Ok status ->
    rh_error_code status = None -> rh_state status = HelperPrepared ->
    lease_kept (gen_begin c o w).2 o false;
  law_gen_recovered : forall c o w status (applied : bool), (gen_recover c o w).1 = Ok status ->
    rh_error_code status = None -> rh_state status = (if applied then HelperApplied else HelperPrepared) ->
    lease_kept (gen_recover c o w).2 o applied;
  law_gen_applied : forall c o w status, lease_kept w o false ->
    (gen_apply c (lease_reference o) w).1 = Ok status ->
    rh_error_code status = None -> rh_state status = HelperApplied ->
    lease_kept (gen_apply c (lease_reference o) w).2 o true;
}.

(** ** the tracker adds nothing to a call and counts it exactly *)

Section tracked_laws.
Context {W C : Type} `{GenerationLaws W C}.
Notation TW := (TrackedWorld W).

Lemma tracked_run {A} (call : Call W A) (t : TW) :
  in_u u64_max (in_flight t) ->
  tracked call t =
    if in_flight t =? u64_max then (Err (CallLocal InvalidStateTransition), t)
    else ((call (tw_world t)).1, set_tw_world (call (tw_world t)).2 t).
Proof.
  unfold in_u. intros Hi. unfold tracked, tracker_enter, checked_add, bind, get, attempt, zoom, modify.
  cbv beta iota. destruct (in_flight t =? u64_max) eqn:E; reflect_bools.
  - by replace (in_flight t + 1 <=? u64_max) with false by lia.
  - replace (in_flight t + 1 <=? u64_max) with true by lia. cbn.
    destruct (call (tw_world t)) as [r w']. cbn. unfold lift, guard_drop, set_in_flight, set_tw_world.
    cbn. rewrite Z.mod_small by (unfold u64_max in *; lia). f_equal. f_equal. lia.
Qed.

(** A boundary has no call in flight between its own calls. *)
Lemma tracked_idle {A} (call : Call W A) (t : TW) :
  in_flight t = 0 ->
  tracked call t = ((call (tw_world t)).1, set_tw_world (call (tw_world t)).2 t).
Proof. intros Hi. rewrite tracked_run; rewrite Hi; done. Qed.

Lemma tracked_discover client (t : TW) :
  in_flight t = 0 ->
  gen_discover client t =
    ((gen_discover client (tw_world t)).1, set_tw_world (gen_discover client (tw_world t)).2 t).
Proof. apply tracked_idle. Qed.

Definition tw_held (t : TW) (r : RouteLeaseReference) : bool := held (tw_world t) r.

(** What a step that only reads the helper may do. *)
Definition reads_from (t0 t : TW) : Prop :=
  in_flight t = 0 /\ forall r, tw_held t r = true -> tw_held t0 r = true.

Lemma reads_now t0 t : reads_from t0 t -> reads_from t0 (clock_now t).2.
Proof.
  intros [Hi Hh]. pose proof (law_clock_now (tw_world t)) as Hl. unfold reads_from, tw_held in *. cbn.
  destruct (clock_now (tw_world t)) as [now w]. cbn in *. auto.
Qed.

Lemma reads_sleep t0 t delay : reads_from t0 t -> reads_from t0 (clock_sleep delay t).
Proof.
  intros [Hi Hh]. pose proof (law_clock_sleep delay (tw_world t)) as Hl.
  unfold reads_from, tw_held in *. cbn. auto.
Qed.

Lemma reads_expired t0 t timer : reads_from t0 t -> reads_from t0 (wall_expired timer t).2.
Proof. intros Ht%reads_now. unfold wall_expired. by destruct (clock_now t). Qed.

Lemma reads_wait t0 t timer delay : reads_from t0 t -> reads_from t0 (wall_wait timer delay t).2.
Proof.
  intros Ht%reads_now. unfold wall_wait. destruct (clock_now t) as [now t1]. cbn in Ht.
  case_match; [done|]. pose proof (reads_sleep _ _ (Z.min delay (Z.max 0 (timer_deadline timer - now))) Ht) as Hs.
  apply (reads_expired _ _ timer) in Hs. by destruct (wall_expired timer _).
Qed.

Lemma reads_discover t0 client : preserves (reads_from t0) (gen_discover client).
Proof.
  intros t [Hi Hh]. rewrite tracked_discover by done. split; [done|]. cbn.
  intros r Hr%law_gen_discover. by apply Hh.
Qed.

(** Discovery only reads, and its success means that no lease is held. *)
Lemma discovery_reads client policy t :
  in_flight t = 0 ->
  reads_from t (discover_authoritative_idle client policy t).2 /\
  ((discover_authoritative_idle client policy t).1 = Ok tt ->
   forall r, tw_held (discover_authoritative_idle client policy t).2 r = false).
Proof.
  intros Hi. unfold discover_authoritative_idle, bind, effect, wall_new.
  assert (Ht : reads_from t (clock_now t).2) by by apply reads_now.
  destruct (clock_now t) as [now t1]. cbn in Ht.
  set (timer := {| timer_deadline := now + total_timeout policy |}).
  assert (Hp : preserves (reads_from t) (discover_authoritative_idle_with_timer client policy timer)).
  { apply discover_loop_preserves; [intros; by apply reads_expired|intros; by apply reads_wait|].
    apply reads_discover. }
  split; [by apply Hp|]. intros Hok r.
  destruct (discover_authoritative_idle_with_timer client policy timer t1) as [res t'] eqn:Hrun.
  cbn in Hok |- *. subst res. apply discover_loop_spec in Hrun as (n & t2 & _ & Hpoll & Hidle); [|lia..].
  apply (poll_rounds_preserves (reads_from t)) in Hpoll;
    [|intros; by apply reads_expired|intros; by apply reads_wait|apply reads_discover|done].
  destruct Hidle as (t3 & t4 & status & He & Hd & _ & He' & Hs).
  apply (reads_expired _ _ timer) in Hpoll. change (wall_expired timer t2 = (false, t3)) in He.
  rewrite He in Hpoll. destruct Hpoll as [Hi3 _]. cbn in Hi3.
  rewrite tracked_discover in Hd by done. injection Hd as Hd <-.
  assert (Hn : reads_from (set_tw_world (gen_discover client (tw_world t3)).2 t3) t').
  { pose proof (reads_expired (set_tw_world (gen_discover client (tw_world t3)).2 t3)
      (set_tw_world (gen_discover client (tw_world t3)).2 t3) timer) as Hr.
    change (wall_expired timer (set_tw_world (gen_discover client (tw_world t3)).2 t3) = (false, t')) in He'.
    rewrite He' in Hr. by apply Hr. }
  destruct (tw_held t' r) eqn:Hr'; [|done]. apply (proj2 Hn) in Hr'. unfold tw_held in Hr'. cbn in Hr'.
  by rewrite (law_gen_idle _ _ _ r Hd Hs) in Hr'.
Qed.
End tracked_laws.

(** ** the boundary *)

Section boundary_laws.
Context {W C : Type}.
Context `{RouteHelperGeneration W C, RouteHelperGenerationFactory W C, DiscoveryClock W}.
Notation XB := (XpcProductionRouteBoundary W C).
Implicit Types b : XB.

Lemma retired_no_client b : xb_retired b = true -> live_client b = Err InvalidStateTransition.
Proof. unfold live_client. by intros ->. Qed.

Lemma disposition_retired b : xb_disposition b = RouteRetired <-> xb_retired b = true.
Proof.
  unfold xb_disposition. destruct (xb_retired b); [done|]. split; [|done].
  repeat case_match; done.
Qed.

#[export] Instance xpc_boundary_laws : RouteBoundaryLaws XB.
Proof.
  constructor; cbn.
  - intros b. unfold xb_try_retire. destruct (xb_disposition b) eqn:E; [|done..].
    unfold xb_disposition in E. destruct (xb_client b) eqn:Ec.
    + eexists. split; [done|]. by apply disposition_retired.
    + rewrite orb_true_r in E. by repeat case_match.
  - intros b call Hr%disposition_retired. destruct call; cbn; [|..].
    + unfold xb_try_retire. by rewrite (proj2 (disposition_retired b)).
    + unfold xb_apply, bind, get, lift. by rewrite retired_no_client.
    + done.
    + unfold xb_heartbeat, bind, get, lift. by rewrite retired_no_client.
    + unfold xb_rollback, bind, get, lift. by rewrite retired_no_client.
  - done.
Qed.
End boundary_laws.

Section boundary_safety.
Context {W C : Type} `{GenerationLaws W C}.
Notation XB := (XpcProductionRouteBoundary W C).
Notation TW := (TrackedWorld W).
Implicit Types b : XB.

(** The frozen owner and the flags agree, no call is in flight, and the helper holds no
    lease but the active one. *)
Record xb_inv b : Prop := {
  inv_held : forall r, tw_held (xb_world b) r = true -> xb_active b = Some r;
  inv_owner : xb_active b = lease_reference <$> xb_active_owner b;
  inv_idle : in_flight (xb_world b) = 0;
  inv_blocked : xb_mutations_blocked b = true ->
    xb_recovery_required b = true /\ xb_reconciliation_error b <> None;
  inv_client : xb_client b = None -> xb_retired b = true \/ xb_mutations_blocked b = true;
  inv_retired : xb_retired b = true ->
    xb_client b = None /\ xb_active b = None /\ xb_mutations_blocked b = false /\
    xb_recovery_required b = false /\ xb_reconciliation_error b = None;
  inv_generation : 1 <= xb_native_generation b <= u64_max;
}.

(** A step of the helper on the lease [r]. *)
Definition touches (r : RouteLeaseReference) (w w' : W) : Prop :=
  forall x, held w' x = true -> held w x = true \/ x = r.

Lemma inv_world b t :
  xb_inv b -> in_flight t = 0 ->
  (forall r, tw_held t r = true -> tw_held (xb_world b) r = true \/ xb_active b = Some r) ->
  xb_inv (xb_set_world t b).
Proof. intros [] Hi Hh. constructor; cbn; [|done..]. intros r [?|?]%Hh; auto. Qed.

Lemma inv_reads b t : xb_inv b -> reads_from (xb_world b) t -> xb_inv (xb_set_world t b).
Proof. intros Hb [Hi Hh]. apply inv_world; auto. Qed.

Lemma inv_freeze b e : xb_retired b = false -> xb_inv b -> xb_inv (freeze_without_replacement e b).
Proof. intros Hr []. constructor; cbn; auto; by rewrite Hr. Qed.

Lemma inv_error b e : xb_retired b = false -> xb_inv b -> xb_inv (set_reconciliation_error e b).
Proof.
  intros Hr []. constructor; cbn; auto; [|by rewrite Hr]. intros Hb. split; [|done]. naive_solver.
Qed.

Lemma inv_recovery b v :
  xb_retired b = false -> (v = false -> xb_mutations_blocked b = false) ->
  xb_inv b -> xb_inv (set_recovery_required v b).
Proof.
  intros Hr Hv []. constructor; cbn; auto; [|by rewrite Hr].
  intros Hb. destruct v; [naive_solver|]. by rewrite Hv in Hb.
Qed.

Lemma inv_clear b :
  xb_inv b -> is_Some (xb_client b) -> (forall r, tw_held (xb_world b) r = false) ->
  xb_inv (clear_frozen_owner b).
Proof.
  intros [] [c Hc] Hn. constructor; cbn; try done.
  - intros r Hr. by rewrite Hn in Hr.
  - by rewrite Hc.
  - intros Hr. by destruct (inv_retired0 Hr) as [? _]; congruence.
Qed.

Lemma inv_drop b : xb_mutations_blocked b = true -> xb_inv b -> xb_inv (drop_client b).
Proof.
  intros Hm Hb. unfold drop_client. destruct (xb_client b) as [c|] eqn:Hc; [|done].
  assert (Hw : xb_inv (xb_set_world (gen_drop c (xb_world b)) b)).
  { apply inv_world; [done|apply Hb|]. intros r Hr. left. by apply law_gen_drop in Hr. }
  destruct Hw. constructor; cbn in *; auto. intros Hr. by destruct (inv_retired0 Hr); congruence.
Qed.

Lemma reads_create t : in_flight t = 0 -> reads_from t (gen_create t).2.
Proof.
  intros Hi. unfold reads_from, tw_held. cbn. unfold tracked_create, zoom.
  pose proof (law_gen_create (tw_world t)) as Hl. destruct (gen_create (tw_world t)) as [r w].
  split; [done|]. cbn in *. auto.
Qed.

Lemma on_tracked_run {E A} (m : M TW E A) b :
  on_tracked m b = ((m (xb_world b)).1, xb_set_world (m (xb_world b)).2 b).
Proof. unfold on_tracked, zoom. by destruct (m (xb_world b)). Qed.

(** The fields that only the service's own calls change. *)
Definition live b : Prop := xb_retired b = false.

Lemma reconcile_inv b primary :
  live b -> xb_inv b ->
  xb_inv (reconcile_terminal_generation primary b) /\ live (reconcile_terminal_generation primary b).
Proof.
  unfold live. intros Hr Hb. unfold reconcile_terminal_generation.
  pose proof (inv_freeze _ primary Hr Hb) as Hf. apply inv_drop in Hf; [|done].
  unfold freeze_without_replacement in Hf. set (b1 := drop_client _) in *.
  assert (Hb1 : xb_retired b1 = false /\ xb_mutations_blocked b1 = true).
  { unfold b1, drop_client. by destruct (xb_client _). }
  destruct Hb1 as [Hr1 Hm1]. rewrite on_tracked_run.
  pose proof (inv_reads _ _ Hf (reads_create _ (inv_idle _ Hf))) as Hc.
  change (@gen_create TW C _) with (@tracked_create W C _) in Hc.
  set (b2 := xb_set_world _ b1) in *.
  destruct (tracked_create (xb_world b1)).1 as [fresh|e].
  2: { split; [by apply inv_error|done]. }
  unfold checked_add. destruct (_ <=? _) eqn:Hgen.
  2: { split; [|done]. apply inv_error; [done|]. apply inv_world; [done|apply Hc|].
       intros r Hr'. left. by apply law_gen_drop in Hr'. }
  reflect_bools. rewrite on_tracked_run. set (b3 := xb_set_client (Some fresh) _ b2).
  assert (Hb3 : xb_inv b3).
  { destruct Hc. constructor; cbn in *; auto; [by rewrite Hr1|lia]. }
  destruct (discovery_reads fresh (xb_discovery_policy b3) (xb_world b3) (inv_idle _ Hb3)) as [Hd Hok].
  pose proof (inv_reads _ _ Hb3 Hd) as Hb4.
  set (out := discover_authoritative_idle fresh (xb_discovery_policy b3) (xb_world b3)) in *.
  set (b4 := xb_set_world _ b3) in *. destruct out.1 as [[]|e] eqn:Hout.
  - split; [apply inv_clear; [done|by eexists|by apply Hok]|done].
  - assert (He : xb_inv (set_reconciliation_error (reconciliation_code e) b4)) by by apply inv_error.
    destruct (reconciliation_terminates_generation e); [|done].
    split; [by apply inv_drop|]. unfold drop_client. by destruct (xb_client _).
Qed.

(** Every outcome keeps the invariant, and no call retires the boundary. *)
Definition keeps {A} b (Q : A -> XB -> Prop) (r : Res A) (b' : XB) : Prop :=
  xb_inv b' /\ live b' /\ match r with Ok a => Q a b' | Err _ => True end.

Lemma handle_call_error_keeps {A} b e (Q : A -> XB -> Prop) :
  live b -> xb_inv b -> wp (handle_call_error e) (keeps b Q) b.
Proof.
  intros Hr Hb. unfold handle_call_error. wp_step. destruct (call_terminates_generation e).
  - do 2 wp_step. by destruct (reconcile_inv b (call_code e) Hr Hb).
  - do 2 wp_step. done.
Qed.

Lemma live_client_ok b c :
  live_client b = Ok c -> live b /\ xb_client b = Some c /\ xb_mutations_blocked b = false.
Proof.
  unfold live_client, live. destruct (xb_retired b); [done|]. destruct (xb_mutations_blocked b); [done|].
  by intros ?%ok_or_ok.
Qed.

(** The boundary after a call of the generation has moved the world to [w]. *)
Definition at_world b (w : W) : XB := xb_set_world (set_tw_world w (xb_world b)) b.

Lemma wp_tracked {A} (call : Call W A) Q b :
  xb_inv b ->
  Q (call (tw_world (xb_world b))).1 (at_world b (call (tw_world (xb_world b))).2) ->
  wp (on_tracked (tracked call)) Q b.
Proof.
  intros Hb HQ. unfold wp. rewrite on_tracked_run, (tracked_idle call _ (inv_idle _ Hb)). done.
Qed.

(** A generation's call on the active lease, seen from the boundary. *)
Lemma call_inv {A} b r (call : Call W A) :
  xb_inv b -> xb_active b = Some r -> (forall w, touches r w (call w).2) ->
  xb_inv (at_world b (call (tw_world (xb_world b))).2).
Proof.
  intros Hb Ha Ht. apply inv_world; [done|apply Hb|]. intros x Hx. apply Ht in Hx as [Hx| ->]; auto.
Qed.

(** The answer of a live call: the client's own, with nothing else changed. *)
Definition answered (call : C -> Call W RouteHelperStatus) b (status : RouteHelperStatus) b' : Prop :=
  exists c, xb_client b = Some c /\ xb_mutations_blocked b = false /\
    (call c (tw_world (xb_world b))).1 = Ok status /\
    b' = at_world b (call c (tw_world (xb_world b))).2.

Lemma live_call_keeps b r call :
  live b -> xb_inv b -> xb_active b = Some r -> (forall c w, touches r w (call c w).2) ->
  wp (live_call (fun c => tracked (call c))) (keeps b (answered call b)) b.
Proof.
  intros Hl Hb Ha Ht. unfold live_call. do 4 wp_step.
  destruct (live_client b) as [c|e] eqn:Hc; [|done]. apply live_client_ok in Hc as (_ & Hc & Hm).
  do 2 wp_step. pose proof (call_inv b r (call c) Hb Ha (Ht c)) as Hi.
  apply wp_tracked; [done|]. destruct (call c (tw_world (xb_world b))).1 as [status|e] eqn:Hs.
  - destruct (is_typed_not_ready status).
    + do 3 wp_step. split; [by apply inv_freeze|done].
    + wp_step. split; [done|]. split; [done|]. by exists c.
  - by apply handle_call_error_keeps.
Qed.

Lemma rolled_back_clear b c r status :
  live b -> xb_inv b -> xb_client b = Some c -> xb_active b = Some r ->
  (gen_rollback c r (tw_world (xb_world b))).1 = Ok status ->
  require_helper_status status HelperIdle = Ok tt ->
  xb_inv (at_world b (gen_rollback c r (tw_world (xb_world b))).2) /\
  forall x, held (gen_rollback c r (tw_world (xb_world b))).2 x = false.
Proof.
  intros Hl Hb Hc Ha Hs Hq. split.
  - apply inv_world; [done|apply Hb|]. intros x Hx. apply law_gen_rollback in Hx as [?| ->]; auto.
  - intros x. destruct (held _ x) eqn:Hx; [|done].
    pose proof (law_gen_rolled_back c r _ _ Hs Hq) as Hn.
    destruct (law_gen_rollback _ _ _ _ Hx) as [Hx'| ->]; [|by rewrite Hn in Hx].
    apply (inv_held _ Hb) in Hx'. rewrite Ha in Hx'. injection Hx' as ->. by rewrite Hn in Hx.
Qed.

Lemma rollback_after_keeps {A} b r primary (Q : A -> XB -> Prop) :
  live b -> xb_inv b -> xb_active b = Some r ->
  wp (rollback_after_helper_error r primary) (keeps b Q) b.
Proof.
  intros Hl Hb Ha. unfold rollback_after_helper_error. do 2 wp_step.
  destruct (live_client b) as [c|e] eqn:Hc.
  2: { do 3 wp_step. split; [|done]. apply inv_error; [done|]. by apply inv_recovery. }
  apply live_client_ok in Hc as (_ & Hc & Hm). do 2 wp_step.
  pose proof (call_inv b r (gen_rollback c r) Hb Ha (law_gen_rollback c r)) as Hi.
  apply wp_tracked; [done|]. destruct (gen_rollback c r (tw_world (xb_world b))).1 as [status|e] eqn:Hs.
  - destruct (is_typed_not_ready status).
    { do 3 wp_step. split; [by apply inv_freeze|done]. }
    destruct (require_helper_status status HelperIdle) as [[]|e'] eqn:Hq; do 3 wp_step.
    + destruct (rolled_back_clear b c r status) as [Hi' Hn]; [done..|].
      split; [apply inv_clear; [done|by eexists|done]|done].
    + split; [|done]. apply inv_error; [done|]. by apply inv_recovery.
  - destruct (call_terminates_generation e); do 3 wp_step; [|done].
    by destruct (reconcile_inv (at_world b _) primary Hl Hi).
Qed.

Lemma require_helper_status_ok status state :
  require_helper_status status state = Ok tt <->
  rh_error_code status = None /\ rh_protocol_version status = ROUTE_HELPER_PROTOCOL_VERSION /\
  rh_state status = state.
Proof.
  unfold require_helper_status. destruct (rh_error_code status); [naive_solver|].
  destruct (rh_protocol_version status =? _) eqn:Ev; case_bool_decide; reflect_bools; cbn; naive_solver.
Qed.

(** A call answered, without an error and in this state. *)
Definition reported (r : result RouteHelperStatus RouteHelperCallError) (state : RouteHelperState) : Prop :=
  exists status, r = Ok status /\ rh_error_code status = None /\ rh_state status = state.

(** The calls by which a client takes a prepared lease to an applied one. *)
Definition applied_by (c : C) (owner : RouteLeaseOwner) (w w' : W) : Prop :=
  reported (gen_apply c (lease_reference owner) w).1 HelperApplied /\
  w' = (gen_apply c (lease_reference owner) w).2.

(** The calls of one application, from the world it starts in to the one it ends in: the
    lease is begun with the owner and applied; after a failure that left it in doubt it
    is recovered with the same owner, and applied if it was only prepared. *)
Definition acknowledged (c : C) (owner : RouteLeaseOwner) (recovery : bool) (w w' : W) : Prop :=
  if recovery then
    (reported (gen_recover c owner w).1 HelperApplied /\ w' = (gen_recover c owner w).2) \/
    (reported (gen_recover c owner w).1 HelperPrepared /\ applied_by c owner (gen_recover c owner w).2 w')
  else reported (gen_begin c owner w).1 HelperPrepared /\ applied_by c owner (gen_begin c owner w).2 w'.

(** What recovery leaves: the owner is confirmed and still active. *)
Definition recovered b (state : RouteHelperState) b' : Prop :=
  xb_active b' = xb_active b /\ xb_reconciliation_error b' = xb_reconciliation_error b /\
  xb_recovery_required b' = false /\ xb_client b' = xb_client b /\
  (state = HelperPrepared \/ state = HelperApplied) /\
  exists owner c, xb_active_owner b = Some owner /\ xb_client b = Some c /\
    reported (gen_recover c owner (tw_world (xb_world b))).1 state /\
    tw_world (xb_world b') = (gen_recover c owner (tw_world (xb_world b))).2.

Lemma recover_active_keeps b :
  live b -> xb_inv b -> wp recover_active (keeps b (recovered b)) b.
Proof.
  intros Hl Hb. unfold recover_active. do 4 wp_step.
  destruct (xb_active_owner b) as [owner|] eqn:Ho; [|done]. cbn [ok_or].
  assert (Ha : xb_active b = Some (lease_reference owner)) by by rewrite (inv_owner _ Hb), Ho.
  wp_step. eapply wp_mono.
  { apply (live_call_keeps b _ (fun c => gen_recover c owner) Hl Hb Ha).
    intros c w x. apply law_gen_recover. }
  intros [status|e] b' (Hb' & Hl' & Hq); [|done]. destruct Hq as (c & Hc & Hm & Hs & ->).
  destruct (rh_error_code status) eqn:Ee; [by wp_step|].
  destruct (rh_state status) eqn:Es; try (by wp_step); do 3 wp_step;
    (split; [by apply inv_recovery|split; [done|]]); split_and!; auto;
    exists owner, c; split_and!; auto; by exists status.
Qed.

Lemma begin_lease_keeps b owner :
  live b -> xb_inv b -> wp (begin_lease owner)
    (keeps b (fun _ b' => xb_active b' = Some (lease_reference owner) /\
       xb_recovery_required b' = xb_recovery_required b /\
       exists c, xb_client b = Some c /\ xb_client b' = Some c /\
         reported (gen_begin c owner (tw_world (xb_world b))).1 HelperPrepared /\
         tw_world (xb_world b') = (gen_begin c owner (tw_world (xb_world b))).2)) b.
Proof.
  intros Hl Hb. unfold begin_lease. do 4 wp_step.
  destruct (xb_active b) eqn:Ha, (xb_active_owner b) eqn:Ho; cbn [is_some orb negb ensure]; [done..|].
  do 2 wp_step. set (b1 := xb_set_active _ _ b).
  assert (Hnone : forall x, held (tw_world (xb_world b)) x = true -> False).
  { intros x Hx. apply (inv_held _ Hb) in Hx. congruence. }
  assert (Hb1 : xb_inv b1).
  { destruct Hb. constructor; cbn; auto; [by intros r ?%Hnone|]. by rewrite Hl. }
  do 4 wp_step. destruct (live_client b1) as [c|e] eqn:Hc; [|done].
  apply live_client_ok in Hc as (_ & Hc & Hm). do 2 wp_step.
  pose proof (call_inv b1 (lease_reference owner) (gen_begin c owner) Hb1 eq_refl
    (law_gen_begin c owner)) as Hi.
  apply wp_tracked; [done|]. set (b2 := at_world b1 _) in *.
  destruct (gen_begin c owner (tw_world (xb_world b1))).1 as [status|[e|e]] eqn:Hs.
  - destruct (is_typed_not_ready status); [do 3 wp_step; split; [by apply inv_freeze|done]|].
    destruct (require_helper_status status HelperPrepared) as [[]|] eqn:Hq.
    { wp_step. apply require_helper_status_ok in Hq as (He & _ & Hst).
      split_and!; try done; [apply Hi..|]. exists c. split_and!; try done. by exists status. }
    by apply (rollback_after_keeps b2).
  - by apply (handle_call_error_keeps b2).
  - do 3 wp_step. split; [|done]. destruct Hi. constructor; cbn in *; auto.
    + intros r Hr. exfalso. eapply Hnone, (law_gen_begin_local _ _ _ _ _ Hs), Hr.
    + by rewrite Hl.
Qed.

Lemma apply_lease_keeps b owner :
  let r := lease_reference owner in
  live b -> xb_inv b -> xb_active b = Some r -> wp (apply_lease r)
    (keeps b (fun _ b' => xb_active b' = Some r /\ xb_recovery_required b' = xb_recovery_required b /\
       exists c, xb_client b = Some c /\ applied_by c owner (tw_world (xb_world b)) (tw_world (xb_world b')))) b.
Proof.
  intros r Hl Hb Ha. unfold apply_lease. wp_step. eapply wp_mono.
  { apply (live_call_keeps b r (fun c => gen_apply c r) Hl Hb Ha). intros c w x. apply law_gen_apply. }
  intros [status|e] b' (Hb' & Hl' & Hq); [|done]. destruct Hq as (c & Hc & Hm & Hs & ->).
  destruct (require_helper_status status HelperApplied) as [[]|] eqn:Hq;
    [|by eapply rollback_after_keeps].
  wp_step. apply require_helper_status_ok in Hq as (He & _ & Hst).
  split_and!; try done; [apply Hb'..|]. exists c. split; [done|]. split; [by exists status|done].
Qed.

(** Every method starts with [live_client]: a boundary that is not live is left alone. *)
Definition safe {A} b (Q : A -> XB -> Prop) (r : Res A) (b' : XB) : Prop :=
  xb_inv b' /\ match r with Ok a => live b' /\ Q a b' | Err _ => True end.

Lemma apply_safe b profile op tunnel revision mihomo :
  let owner := lease_owner profile op tunnel revision mihomo in
  xb_inv b -> wp (xb_apply profile op tunnel revision mihomo)
    (safe b (fun _ b' => xb_active b' = Some (lease_reference owner) /\
       xb_recovery_required b' = false /\ exists c, xb_client b = Some c /\
       acknowledged c owner (xb_recovery_required b) (tw_world (xb_world b)) (tw_world (xb_world b')))) b.
Proof.
  intros owner Hb. unfold xb_apply. do 4 wp_step.
  destruct (live_client b) as [c0|e] eqn:Hc; [|done]. apply live_client_ok in Hc as (Hl & _ & _).
  do 2 wp_step. destruct (validate_for _ _); [|done]. do 2 wp_step.
  destruct (RouteLeaseOwner_validate _); [|done].
  destruct (xb_recovery_required b) eqn:Hrec.
  - case_bool_decide as Ha; [|by split]. case_bool_decide as Ho; [|by split]. cbn [negb orb]. wp_step.
    eapply wp_mono; [by apply recover_active_keeps|].
    intros [state|e] b' (Hb' & Hl' & Hq); [|done].
    destruct Hq as (Hq & _ & Hf & Hcl & Hstate & owner' & c & Ho' & Hcb & Hrep & Hw).
    assert (owner' = owner) as -> by (rewrite Ho' in Ho; by injection Ho). destruct Hstate as [-> | ->].
    + eapply wp_mono; [apply (apply_lease_keeps _ owner); [done..|by rewrite Hq]|].
      intros [|] b2 (? & ? & Hk); [|done]. split; [done|]. split; [done|].
      destruct Hk as (Ha2 & Hf2 & c2 & Hc2 & Happ). split; [done|]. split; [congruence|].
      exists c. split; [done|]. right. split; [done|]. rewrite Hw in Happ. by assert (c2 = c) as -> by congruence.
    + wp_step. split; [done|]. split; [done|]. split; [by rewrite Hq|]. split; [done|]. exists c.
      split; [done|]. by left.
  - wp_step. eapply wp_mono; [by apply begin_lease_keeps|].
    intros [[]|e] b' (Hb' & Hl' & Hq); [|done]. destruct Hq as (Hq & Hf & c & Hcb & Hcl & Hrep & Hw).
    eapply wp_mono; [by apply (apply_lease_keeps _ owner)|].
    intros [|] b2 (? & ? & Hk); [|done]. split; [done|]. split; [done|].
    destruct Hk as (Ha2 & Hf2 & c2 & Hc2 & Happ). split; [done|]. split; [congruence|].
    exists c. split; [done|]. split; [done|]. rewrite Hw in Happ. by assert (c2 = c) as -> by congruence.
Qed.

Lemma heartbeat_safe b op : xb_inv b ->
  wp (xb_heartbeat op) (safe b (fun _ b' => rr_operation_id <$> xb_active b' = Some op)) b.
Proof.
  intros Hb. unfold xb_heartbeat. do 4 wp_step.
  destruct (live_client b) as [c|e] eqn:Hc; [|done]. apply live_client_ok in Hc as (Hl & _ & _).
  wp_step. apply (wp_mono _ (keeps b (fun _ b' => True))).
  { destruct (xb_recovery_required b); [|by wp_step]. wp_step.
    eapply wp_mono; [by apply recover_active_keeps|]. intros [state|e] b' (Hb' & Hl' & Hq); [|done].
    destruct state; by wp_step. }
  intros [[]|e] b' (Hb' & Hl' & _); [|done]. do 4 wp_step.
  destruct (xb_active b') as [r|] eqn:Ha; [|done]. case_bool_decide as Hop; [|done]. wp_step.
  eapply wp_mono.
  { apply (live_call_keeps b' r (fun c => gen_heartbeat c r) Hl' Hb' Ha). intros ? ? ?.
    apply law_gen_heartbeat. }
  intros [status|e] b2 (Hb2 & Hl2 & Hq); [|done]. destruct Hq as (c' & Hc' & Hm & Hs & ->).
  destruct (require_helper_status status HelperApplied).
  - wp_step. split; [done|]. split; [done|]. cbn. rewrite Ha. cbn. by rewrite Hop.
  - do 3 wp_step. split; [|done]. by apply inv_recovery.
Qed.

Lemma rollback_safe b op : xb_inv b ->
  wp (xb_rollback op) (safe b (fun _ b' => xb_active b' = None /\
    xb_reconciliation_error b' = xb_reconciliation_error b)) b.
Proof.
  intros Hb. unfold xb_rollback. do 4 wp_step.
  destruct (live_client b) as [c|e] eqn:Hc; [|done]. apply live_client_ok in Hc as (Hl & _ & _).
  destruct (xb_active b) as [r|] eqn:Ha; [|by wp_step]. case_bool_decide as Hop; [|by split].
  cbn [negb]. wp_step. apply (wp_mono _ (keeps b (fun _ b' => xb_active b' = Some r /\
    xb_reconciliation_error b' = xb_reconciliation_error b))).
  { destruct (xb_recovery_required b); [|by wp_step]. wp_step.
    eapply wp_mono; [by apply recover_active_keeps|]. intros [state|e] b' (Hb' & Hl' & Hq); [|done].
    wp_step. split; [done|]. split; [done|]. by destruct Hq as (-> & -> & _). }
  intros [[]|e] b' (Hb' & Hl' & Hq); [destruct Hq as [Ha' He']|done]. wp_step. eapply wp_mono.
  { apply (live_call_keeps b' r (fun c => gen_rollback c r) Hl' Hb' Ha'). intros ? ? ?.
    apply law_gen_rollback. }
  intros [status|e] b2 (Hb2 & Hl2 & Hq); [|done]. destruct Hq as (c' & Hc' & Hm & Hs & ->).
  destruct (require_helper_status status HelperIdle) as [[]|e] eqn:Hq.
  - do 3 wp_step. destruct (rolled_back_clear b' c' r status) as [Hi Hn]; [done..|].
    split; [|by rewrite <- He']. destruct Hi. constructor; cbn in *; auto; try done.
    + intros x Hx. unfold tw_held in Hx. cbn in Hx. by rewrite Hn in Hx.
    + by rewrite Hm.
    + by rewrite Hl'.
  - do 3 wp_step. split; [|done]. by apply inv_recovery.
Qed.

Lemma retire_safe b : xb_inv b -> xb_inv (xb_try_retire b).2.
Proof.
  intros Hb. unfold xb_try_retire. destruct (xb_disposition b) eqn:Hd; [|done..].
  destruct (xb_client b) as [c|] eqn:Hc; [|done]. unfold drop_client. rewrite Hc.
  unfold xb_disposition in Hd. destruct (xb_retired b) eqn:Hr; [done|].
  destruct (negb _); [done|]. destruct (xb_recovery_required b) eqn:E1; [done|].
  destruct (xb_mutations_blocked b) eqn:E2; [done|].
  destruct (xb_reconciliation_error b) eqn:E3; [done|]. rewrite Hc in Hd. cbn in Hd.
  destruct (xb_active b) eqn:Ha; [by destruct (xb_active_owner b)|].
  destruct Hb. constructor; cbn; auto; try done.
  intros r Hr'. apply law_gen_drop in Hr'. exfalso. apply inv_held0 in Hr'. congruence.
Qed.

Lemma step_safe call b : xb_inv b -> xb_inv (boundary_step call b).
Proof.
  intros Hb. destruct call; cbn.
  - by apply retire_safe.
  - exact (proj1 (apply_safe b _ _ _ _ _ Hb)).
  - done.
  - exact (proj1 (heartbeat_safe b _ Hb)).
  - exact (proj1 (rollback_safe b _ Hb)).
Qed.

Lemma connect_safe policy (w : W) (next : Z) b :
  (connect_with_factory policy (w, next)).1 = Ok b -> xb_inv b.
Proof.
  unfold connect_with_factory, bind, get, modify. cbn.
  pose proof (reads_create {| tw_world := w; in_flight := 0 |} eq_refl) as Hr. cbn in Hr.
  destruct (tracked_create _) as [[client|e] t]; [|intros [=]]. cbn in Hr.
  destruct (discovery_reads client policy t (proj1 Hr)) as [Hd Hok].
  destruct (discover_authoritative_idle client policy t) as [[[]|e] t1]; [|intros [=]].
  specialize (Hok eq_refl). cbn in Hd, Hok.
  destruct (checked_add u64_max next 1); intros [= <-].
  constructor; cbn; try done.
  - intros r Hr'. by rewrite Hok in Hr'.
  - apply Hd.
Qed.

Lemma steps_safe calls b : xb_inv b -> xb_inv (fold_left (fun b call => boundary_step call b) calls b).
Proof. revert b. induction calls as [|call calls IH]; cbn; auto using step_safe. Qed.
End boundary_safety.

(** The XPC route boundary issues a retirement receipt only when the helper
    holds no lease, for its own native generation, and changes nothing
    afterwards; while a lease is held the boundary knows it and is not reusable. *)
Theorem xpc_boundary_retires_without_lease {W C} `{GenerationLaws W C}
  (w : W) (next : Z) (b0 : XpcProductionRouteBoundary W C) (calls : list BoundaryCall) :
  (xb_connect (w, next)).1 = Ok b0 ->
  let b := fold_left (fun b call => boundary_step call b) calls b0 in
  let b' := (xb_try_retire b).2 in
  (forall receipt, (xb_try_retire b).1 = RetireRetired receipt ->
     (forall r, held (tw_world (xb_world b')) r = false) /\
     rt_native_generation receipt = xb_native_generation b /\
     forall later, fold_left (fun b call => boundary_step call b) later b' = b') /\
  (forall r, held (tw_world (xb_world b)) r = true ->
     xb_active b = Some r /\ xb_disposition b <> RouteReusable /\ xb_disposition b <> RouteRetired).
Proof.
  intros Hc b b'. assert (Hb : xb_inv b) by by apply steps_safe, (connect_safe _ _ _ _ Hc).
  pose proof (retire_safe b Hb) as Hb'. split.
  - intros receipt Hr. pose proof (law_retire_iff_reusable b) as Hl. cbn in Hl.
    unfold b' in *. clear b'. destruct (xb_disposition b) eqn:Hd; try by rewrite Hl in Hr.
    destruct Hl as (receipt' & Hr' & Hd'). rewrite Hr in Hr'. injection Hr' as <-. split_and!.
    + intros r. destruct (held _ r) eqn:E; [|done]. apply (inv_held _ Hb') in E.
      apply disposition_retired, (inv_retired _ Hb') in Hd' as (_ & Ha & _). congruence.
    + unfold xb_try_retire in Hr. rewrite Hd in Hr. destruct (xb_client b); [|done].
      injection Hr as <-. cbn. unfold drop_client. by destruct (xb_client b).
    + intros later. induction later as [|call later IH]; [done|]. cbn.
      rewrite (@law_retired_is_closed _ xpc_boundary _ (xb_try_retire b).2 call Hd'). apply IH.
  - intros r Hr. apply (inv_held _ Hb) in Hr as Ha. split_and!; [done|..].
    + unfold xb_disposition. rewrite Ha. repeat case_match; done.
    + intros Hd. apply disposition_retired, (inv_retired _ Hb) in Hd as (_ & Ha' & _). congruence.
Qed.

Lemma acknowledged_kept {W C} `{KeepingLaws W C} c owner recovery (w w' : W) :
  acknowledged c owner recovery w w' -> lease_kept w' owner true.
Proof.
  assert (Happly : forall w, lease_kept w owner false -> applied_by c owner w w' -> lease_kept w' owner true).
  { intros w1 Hk [(status & Hs & He & Hst) ->]. by eapply law_gen_applied. }
  destruct recovery; cbn.
  - intros [[(status & Hs & He & Hst) ->]|[(status & Hs & He & Hst) Ha]]; [by eapply (law_gen_recovered _ _ _ _ true)|].
    eapply Happly; [|exact Ha]. by eapply (law_gen_recovered _ _ _ _ false).
  - intros [(status & Hs & He & Hst) Ha]. eapply Happly; [|exact Ha]. by eapply law_gen_begun.
Qed.

(** C24: after any sequence of calls of the XPC route boundary, an apply that
    answers success has the helper holding exactly the lease of the requested
    profile, operation and tunnel, applied, no other lease is held, and the
    boundary has it as its active lease. *)
Theorem xpc_apply_is_acknowledged {W C} `{KeepingLaws W C}
  (w : W) (next : Z) (b0 : XpcProductionRouteBoundary W C) (calls : list BoundaryCall)
  profile op tunnel revision mihomo b' :
  (xb_connect (w, next)).1 = Ok b0 ->
  let b := fold_left (fun b call => boundary_step call b) calls b0 in
  let owner :=
    {| ro_protocol_version := 2; ro_lease_id := op; ro_operation_id := op;
       ro_sidecar_instance_id := instance_id tunnel; ro_profile_revision := revision;
       ro_tunnel := tunnel; ro_active_mihomo_tun_interfaces := active_mihomo_tun_interfaces mihomo;
       ro_private_cidrs := private_cidrs (site profile) |} in
  xb_apply profile op tunnel revision mihomo b = (Ok tt, b') ->
  let now := tw_world (xb_world b') in
  (* the calls made were those of this application *)
  (exists c, xb_client b = Some c /\
     acknowledged c owner (xb_recovery_required b) (tw_world (xb_world b)) now) /\
  (* the helper keeps the lease of this very owner, applied, and no other *)
  lease_kept now owner true /\
  (forall r, held now r = true -> r = lease_reference owner) /\
  (* and the boundary knows it *)
  xb_active b' = Some (lease_reference owner) /\ xb_recovery_required b' = false.
Proof.
  intros Hc b owner Hrun now. assert (Hb : xb_inv b) by by apply steps_safe, (connect_safe _ _ _ _ Hc).
  destruct (wp_run _ _ _ _ _ (apply_safe b profile op tunnel revision mihomo Hb) Hrun)
    as (Hb' & _ & Ha & Hf & c & Hcl & Happ). fold owner in Ha, Happ.
  split_and!; [by exists c|by eapply acknowledged_kept| |done|done].
  intros r Hr. apply (inv_held _ Hb') in Hr. rewrite Ha in Hr. by injection Hr.
Qed.

(** A rollback that succeeds after a failed reconciliation keeps the
    reconciliation error, so the boundary stays recovery-only. *)
Theorem xpc_rollback_leaves_reconciliation_error {W C} `{GenerationLaws W C}
  (b b' : XpcProductionRouteBoundary W C) op error :
  xb_inv b -> xb_reconciliation_error b = Some error ->
  xb_rollback op b = (Ok tt, b') ->
  xb_active b' = None /\ xb_reconciliation_error b' = Some error /\
  xb_disposition b' = RouteRecoveryOnly /\ (xb_try_retire b').1 = RetireRecoveryOnly.
Proof.
  intros Hb He Hrun.
  destruct (wp_run _ _ _ _ _ (rollback_safe b op Hb) Hrun) as (Hb' & Hl & Ha & He').
  assert (Hd : xb_disposition b' = RouteRecoveryOnly).
  { unfold xb_disposition, tracker_is_idle. rewrite Hl, (inv_idle _ Hb'), He', He. cbn.
    by rewrite !orb_true_r. }
  split_and!; [done|congruence|done|]. unfold xb_try_retire. by rewrite Hd.
Qed.

(** ** the native client keeps the laws of a generation *)

Definition owner_request_reference (q : OwnerRequest) : RouteLeaseReference :=
  {| rr_protocol_version := oq_version q; rr_lease_id := oq_lease q; rr_operation_id := oq_operation q |}.
Definition request_reference (q : ReferenceRequest) : RouteLeaseReference :=
  {| rr_protocol_version := rq_version q; rr_lease_id := rq_lease q; rr_operation_id := rq_operation q |}.

(** The reply of a successful call of the service that reports an idle helper. *)
Definition reply_idle (reply : NativeReply) : Prop :=
  n2_transport_status reply = 0 /\ n2_state reply = 0 /\ n2_error_code reply = 0.

(** What the bridge and the service behind it promise: reading calls start nothing, a
    request touches its own lease only, transport status 7 is a refusal before the
    message is sent, and an idle reply is the truth. *)
Class BridgeLaws (W : Type) `{NativeV2 W, DiscoveryClock W} := {
  bridge_held : W -> RouteLeaseReference -> bool;
  bridge_create : forall w r, bridge_held (v2_create w).2 r = true -> bridge_held w r = true;
  bridge_destroy : forall h w r, bridge_held (v2_destroy h w) r = true -> bridge_held w r = true;
  bridge_now : forall w r, bridge_held (clock_now w).2 r = true -> bridge_held w r = true;
  bridge_sleep : forall d w r, bridge_held (clock_sleep d w) r = true -> bridge_held w r = true;
  bridge_discover : forall h w r, bridge_held (v2_discover h w).2 r = true -> bridge_held w r = true;
  bridge_idle : forall h w r, reply_idle (v2_discover h w).1 -> bridge_held (v2_discover h w).2 r = false;
  bridge_owner : forall h q w r, bridge_held (v2_owner h q w).2 r = true ->
    bridge_held w r = true \/
    r = owner_request_reference q /\ n2_transport_status (v2_owner h q w).1 <> 7;
  bridge_reference : forall h q w r, bridge_held (v2_reference h q w).2 r = true ->
    bridge_held w r = true \/ r = request_reference q;
  bridge_rolled_back : forall h q w, rq_method q = 1 -> reply_idle (v2_reference h q w).1 ->
    bridge_held (v2_reference h q w).2 (request_reference q) = false;
}.

(** The request that carries an owner, and the request that began what [q] recovers. *)
Definition owner_message (method : Z) (owner : RouteLeaseOwner) : OwnerRequest :=
  {| oq_method := method; oq_version := ro_protocol_version owner;
     oq_lease := ro_lease_id owner; oq_operation := ro_operation_id owner;
     oq_instance := ro_sidecar_instance_id owner;
     oq_interface_name := interface_name (ro_tunnel owner);
     oq_tunnel_operation := operation_id (ro_tunnel owner);
     oq_mtu := mtu (ro_tunnel owner); oq_revision := ro_profile_revision owner;
     oq_has_ipv4 := Z.b2z (has_ipv4 (ro_tunnel owner)); oq_has_ipv6 := Z.b2z (has_ipv6 (ro_tunnel owner));
     oq_mihomo_interfaces := ro_active_mihomo_tun_interfaces owner; oq_cidrs := ro_private_cidrs owner |}.
Definition begun_as (q : OwnerRequest) : OwnerRequest :=
  {| oq_method := 0; oq_version := oq_version q; oq_lease := oq_lease q; oq_operation := oq_operation q;
     oq_instance := oq_instance q; oq_interface_name := oq_interface_name q;
     oq_tunnel_operation := oq_tunnel_operation q; oq_mtu := oq_mtu q; oq_revision := oq_revision q;
     oq_has_ipv4 := oq_has_ipv4 q; oq_has_ipv6 := oq_has_ipv6 q;
     oq_mihomo_interfaces := oq_mihomo_interfaces q; oq_cidrs := oq_cidrs q |}.

Definition reply_reports (state : Z) (reply : NativeReply) : Prop :=
  n2_transport_status reply = 0 /\ n2_state reply = state /\ n2_error_code reply = 0.

(** What the service keeps: the request that began the lease, and whether it is applied. *)
Class BridgeKeeping (W : Type) `{BridgeLaws W} := {
  bridge_kept : W -> OwnerRequest -> bool -> Prop;
  bridge_begun : forall h q w, oq_method q = 0 -> reply_reports 1 (v2_owner h q w).1 ->
    bridge_kept (v2_owner h q w).2 q false;
  bridge_recovered : forall h q w (applied : bool), oq_method q = 1 ->
    reply_reports (if applied then 2 else 1) (v2_owner h q w).1 ->
    bridge_kept (v2_owner h q w).2 (begun_as q) applied;
  bridge_applied : forall h q r w, rq_method r = 0 -> bridge_kept w q false ->
    request_reference r = owner_request_reference q -> reply_reports 2 (v2_reference h r w).1 ->
    bridge_kept (v2_reference h r w).2 q true;
}.

Lemma native_status_ok reply op status :
  native_status reply op = Ok status ->
  n2_transport_status reply = 0 /\ n2_protocol_version reply = 2 /\
  native_state (n2_state reply) = Ok (rh_state status) /\
  native_error (n2_error_code reply) = Ok (rh_error_code status) /\
  rh_operation_id status = op /\ rh_protocol_version status = 2.
Proof.
  unfold native_status. intros Hs. peel_ok Hs. injection Hs as <-. cbn. reflect_bools.
  split_and!; try done. unfold native_transport in Ha. by repeat case_match.
Qed.

Lemma native_idle reply op status :
  native_status reply op = Ok status -> rh_state status = HelperIdle -> rh_error_code status = None ->
  reply_idle reply.
Proof.
  intros (Ht & _ & Hs & He & _)%native_status_ok Hi Hn. rewrite Hi in Hs. rewrite Hn in He.
  split_and!; [done|..].
  - unfold native_state in Hs. by repeat case_match.
  - unfold native_error in He. by repeat case_match.
Qed.

Lemma native_reports reply op status (applied : bool) :
  native_status reply op = Ok status -> rh_error_code status = None ->
  rh_state status = (if applied then HelperApplied else HelperPrepared) ->
  reply_reports (if applied then 2 else 1) reply.
Proof.
  intros (Ht & _ & Hs & He & _)%native_status_ok Hn Hst. rewrite Hst in Hs. rewrite Hn in He.
  split_and!; [done|..].
  - unfold native_state in Hs. destruct applied; by repeat case_match.
  - unfold native_error in He. by repeat case_match.
Qed.

Lemma c_string_ok s t : c_string s = Ok t -> t = s.
Proof. unfold c_string. case_match; congruence. Qed.

Lemma c_strings_ok ss ts : rmapM c_string ss = Ok ts -> ts = ss.
Proof.
  revert ts. induction ss as [|s ss IH]; intros ts; cbn; [congruence|]. intros Hr.
  destruct (c_string s) as [t|] eqn:E; [|done]. cbn in Hr. destruct (rmapM c_string ss) as [ts'|]; [|done].
  cbn in Hr. injection Hr as <-. apply c_string_ok in E as ->. f_equal. by apply IH.
Qed.

Section native_laws.
Context {W : Type} `{BridgeLaws W}.

(** A call either stops before the bridge, the world untouched, or is one bridge call
    for the owner's own reference. *)
Lemma owner_request_cases client method owner (w : W) :
  (exists e, owner_request_call client method owner w = (Err (CallLocal e), w)) \/
  (exists q, owner_request_reference q = lease_reference owner /\ q = owner_message method owner /\
     owner_request_call client method owner w =
       (native_status (v2_owner (rhc_native client) q w).1 (Some (ro_operation_id owner)),
        (v2_owner (rhc_native client) q w).2)).
Proof.
  unfold owner_request_call, bind, lift, effect, local.
  destruct (RouteLeaseOwner_validate owner) eqn:Hv; cbn [map_err]; [|by left; eauto].
  assert (Hver : ro_protocol_version owner = ROUTE_HELPER_PROTOCOL_VERSION).
  { unfold RouteLeaseOwner_validate in Hv. destruct (ro_protocol_version owner =? _) eqn:E; [|done].
    by reflect_bools. }
  destruct (c_string (ro_lease_id owner)) as [lease|] eqn:E1; cbn [map_err]; [|by left; eauto].
  destruct (c_string (ro_operation_id owner)) as [operation|] eqn:E2; cbn [map_err]; [|by left; eauto].
  apply c_string_ok in E1 as ->, E2 as ->.
  do 3 (destruct (c_string _) as [s|] eqn:E; cbn [map_err]; [apply c_string_ok in E as ->|by left; eauto]).
  do 2 (destruct (rmapM _ _) as [s|] eqn:E; cbn [map_err]; [apply c_strings_ok in E as ->|by left; eauto]).
  right. exists (owner_message method owner).
  split_and!; [|done|by destruct (v2_owner _ _ _)].
  unfold owner_request_reference, lease_reference. cbn. by rewrite Hver.
Qed.

Lemma reference_request_cases client method reference (w : W) :
  (exists e, reference_request_call client method reference w = (Err (CallLocal e), w)) \/
  (exists q, request_reference q = reference /\ rq_method q = method /\
     reference_request_call client method reference w =
       (native_status (v2_reference (rhc_native client) q w).1 (Some (rr_operation_id reference)),
        (v2_reference (rhc_native client) q w).2)).
Proof.
  unfold reference_request_call, bind, lift, effect, local.
  destruct (RouteLeaseReference_validate reference); cbn [map_err]; [|by left; eauto].
  destruct (c_string (rr_lease_id reference)) as [lease|] eqn:E1; cbn [map_err]; [|by left; eauto].
  destruct (c_string (rr_operation_id reference)) as [operation|] eqn:E2; cbn [map_err]; [|by left; eauto].
  apply c_string_ok in E1 as ->, E2 as ->.
  right. match goal with |- context [v2_reference _ ?q _] => exists q end.
  split_and!; [by destruct reference|done|by destruct (v2_reference _ _ _)].
Qed.

Lemma owner_request_touches client method owner (w : W) r :
  bridge_held (owner_request_call client method owner w).2 r = true ->
  bridge_held w r = true \/ r = lease_reference owner.
Proof.
  destruct (owner_request_cases client method owner w) as [[e ->]|(q & Hq & _ & ->)]; cbn; [by left|].
  intros [?|[-> _]]%bridge_owner; [by left|by right].
Qed.

Lemma reference_request_touches client method reference (w : W) r :
  bridge_held (reference_request_call client method reference w).2 r = true ->
  bridge_held w r = true \/ r = reference.
Proof.
  destruct (reference_request_cases client method reference w) as [[e ->]|(q & Hq & _ & ->)]; cbn; [by left|].
  intros [?| ->]%bridge_reference; [by left|by right].
Qed.

Lemma native_local_status reply op e :
  native_status reply op = Err (CallLocal e) -> n2_transport_status reply = 7.
Proof.
  unfold native_status. destruct (native_transport _) as [[]|] eqn:Ht; cbn.
  - destruct (ensure _ _) as [[]|] eqn:Ev; cbn; [|by apply ensure_err in Ev as [_ ->]].
    destruct (native_state _) eqn:Es; cbn.
    2: { unfold native_state in Es. by repeat case_match; simplify_eq. }
    destruct (native_error _) eqn:Ee; cbn.
    2: { unfold native_error in Ee. by repeat case_match; simplify_eq. }
    by repeat case_match.
  - intros [= ->]. unfold native_transport in Ht. by repeat case_match.
Qed.

Lemma owner_request_local client method owner (w : W) e r :
  (owner_request_call client method owner w).1 = Err (CallLocal e) ->
  bridge_held (owner_request_call client method owner w).2 r = true -> bridge_held w r = true.
Proof.
  destruct (owner_request_cases client method owner w) as [[e' ->]|(q & Hq & _ & ->)]; cbn; [done|].
  intros He%native_local_status. intros [?|[_ ?]]%bridge_owner; done.
Qed.

Lemma rollback_request_idle client reference (w : W) status :
  (reference_request_call client 1 reference w).1 = Ok status ->
  require_helper_status status HelperIdle = Ok tt ->
  bridge_held (reference_request_call client 1 reference w).2 reference = false.
Proof.
  destruct (reference_request_cases client 1 reference w) as [[e ->]|(q & <- & Hm & ->)]; cbn; [done|].
  intros Hs (? & _ & ?)%require_helper_status_ok. apply bridge_rolled_back; [done|].
  eapply native_idle; eauto.
Qed.

#[export] Instance native_generation_laws : GenerationLaws W RouteHelperClient.
Proof.
  refine {| held := bridge_held |}; cbn.
  - intros w r. unfold rhc_connect, bind, effect. pose proof (bridge_create w r) as Hc.
    destruct (v2_create w) as [h w']. by destruct (h =? 0).
  - intros c w r. unfold rhc_drop. case_match; [apply bridge_destroy|done].
  - apply bridge_now.
  - apply bridge_sleep.
  - intros c w r. unfold discover_call, bind, effect, lift. pose proof (bridge_discover (rhc_native c) w r) as Hd.
    by destruct (v2_discover _ w).
  - intros c w status r. unfold discover_call, bind, effect, lift.
    pose proof (bridge_idle (rhc_native c) w r) as Hd. destruct (v2_discover _ w) as [reply w']. cbn in *.
    intros Hs Hi. unfold require_authoritative_idle in Hi. destruct (rh_operation_id status); [done|].
    cbn in Hi. apply require_helper_status_ok in Hi as (? & _ & ?). eapply Hd, native_idle; eauto.
  - intros c o w r. apply owner_request_touches.
  - intros c o w e r. apply owner_request_local.
  - intros c o w r. apply owner_request_touches.
  - intros c ref w r. apply reference_request_touches.
  - intros c ref w r. apply reference_request_touches.
  - intros c ref w r. apply reference_request_touches.
  - intros c ref w status. apply rollback_request_idle.
Qed.

Context `{!BridgeKeeping W}.

#[export] Instance native_keeping_laws : KeepingLaws W RouteHelperClient.
Proof.
  refine {| lease_kept w o applied := bridge_kept w (owner_message 0 o) applied /\
              owner_request_reference (owner_message 0 o) = lease_reference o |}.
  - intros c o w status. change (gen_begin c o w) with (owner_request_call c 0 o w).
    destruct (owner_request_cases c 0 o w) as [[e ->]|(q & Hq & -> & ->)]; cbn; [done|].
    intros Hs He Hst. split; [|done]. apply bridge_begun; [done|]. by eapply (native_reports _ _ _ false).
  - intros c o w status applied. change (gen_recover c o w) with (owner_request_call c 1 o w).
    destruct (owner_request_cases c 1 o w) as [[e ->]|(q & Hq & -> & ->)]; cbn; [done|].
    intros Hs He Hst. split; [|done]. apply (bridge_recovered _ (owner_message 1 o)); [done|].
    by eapply native_reports.
  - intros c o w status [Hk Hr].
    change (gen_apply c (lease_reference o) w) with (reference_request_call c 0 (lease_reference o) w).
    destruct (reference_request_cases c 0 (lease_reference o) w) as [[e ->]|(q & Hq & Hm & ->)]; cbn; [done|].
    intros Hs He Hst. split; [|done]. apply bridge_applied; [done|done|congruence|].
    by eapply (native_reports _ _ _ true).
Qed.

(** "Not ready" is the answer of a discovery only. *)
Lemma mutation_never_not_ready reply op status :
  native_status reply (Some op) = Ok status -> is_typed_not_ready status = false.
Proof.
  intros (_ & _ & _ & _ & Ho & _)%native_status_ok. unfold is_typed_not_ready. rewrite Ho. cbn.
  by rewrite andb_false_r.
Qed.
End native_laws.
