(* ===== verification/ServiceGate.v ===== *)
(** * ServiceGate: who may change the production service, and how it is retired

    The mutation gate of [src-tauri/src/networking/production_service.rs]: admissions
    of connections (reservations), mutations in flight (leases), queued calls of the
    route boundary (tickets), and the retirement that must find none of them.  All
    clients share the gate under a lock; an execution is a list of events, each the
    work of some client between two acquisitions of the lock, and the theorems hold
    for all lists.  A gate is named by its generation, unique in the process, so that
    [Arc::ptr_eq] on gates is equality of generations; the progress of a controller
    retirement, shared between its task and the waiting callers, is kept in a store
    and named by its index. *)

From Stdlib Require Import Ascii String.
From S2P Require Import Prelude Text NetState Config Ipc RouteV3Client ProductionSession.
From S2P Require Import ProductionController RouteBoundary.

(** ** data *)

Inductive ProductionServiceGateState : Type :=
| GateOpen
| GateRetiring
| GateRecoveryOnly
| GateRetired.

#[global] Instance ProductionServiceGateState_eq_dec : EqDecision ProductionServiceGateState.
Proof. solve_decision. Defined.

Record ProductionServiceRetirementReceipt := {
  sv_service_generation : Z;
  sv_route : ProductionRouteRetirementReceipt;
  sv_controller : ControllerRetirementReceipt;
}.

Inductive ProductionServiceRetirementResult : Type :=
| SrRetired (receipt : ProductionServiceRetirementReceipt)
| SrBusy
| SrRecoveryOnly
| SrAlreadyRetired.

Record ProductionMutationGate := {
  mg_generation : Z;
  mg_state : ProductionServiceGateState;
  mg_next_reservation_id : Z;
  mg_reservations : gset Z;
  mg_in_flight_mutations : Z;
  mg_next_route_task_id : Z;
  mg_route_tasks : gset Z;
  mg_route_receipt : option ProductionRouteRetirementReceipt;
  mg_controller_retirement : option nat;
  (* the store of [ControllerRetirementProgress] values *)
  mg_progress : list (option (Res ControllerRetirementReceipt));
}.

Definition mg_set_state (v : ProductionServiceGateState) (g : ProductionMutationGate) :=
  {| mg_generation := mg_generation g; mg_state := v;
     mg_next_reservation_id := mg_next_reservation_id g; mg_reservations := mg_reservations g;
     mg_in_flight_mutations := mg_in_flight_mutations g;
     mg_next_route_task_id := mg_next_route_task_id g; mg_route_tasks := mg_route_tasks g;
     mg_route_receipt := mg_route_receipt g;
     mg_controller_retirement := mg_controller_retirement g; mg_progress := mg_progress g |}.
Definition mg_set_reservations (next : Z) (v : gset Z) (g : ProductionMutationGate) :=
  {| mg_generation := mg_generation g; mg_state := mg_state g;
     mg_next_reservation_id := next; mg_reservations := v;
     mg_in_flight_mutations := mg_in_flight_mutations g;
     mg_next_route_task_id := mg_next_route_task_id g; mg_route_tasks := mg_route_tasks g;
     mg_route_receipt := mg_route_receipt g;
     mg_controller_retirement := mg_controller_retirement g; mg_progress := mg_progress g |}.
Definition mg_set_in_flight (v : Z) (g : ProductionMutationGate) :=
  {| mg_generation := mg_generation g; mg_state := mg_state g;
     mg_next_reservation_id := mg_next_reservation_id g; mg_reservations := mg_reservations g;
     mg_in_flight_mutations := v;
     mg_next_route_task_id := mg_next_route_task_id g; mg_route_tasks := mg_route_tasks g;
     mg_route_receipt := mg_route_receipt g;
     mg_controller_retirement := mg_controller_retirement g; mg_progress := mg_progress g |}.
Definition mg_set_route_tasks (next : Z) (v : gset Z) (g : ProductionMutationGate) :=
  {| mg_generation := mg_generation g; mg_state := mg_state g;
     mg_next_reservation_id := mg_next_reservation_id g; mg_reservations := mg_reservations g;
     mg_in_flight_mutations := mg_in_flight_mutations g;
     mg_next_route_task_id := next; mg_route_tasks := v; mg_route_receipt := mg_route_receipt g;
     mg_controller_retirement := mg_controller_retirement g; mg_progress := mg_progress g |}.
Definition mg_set_route_receipt (v : option ProductionRouteRetirementReceipt)
  (g : ProductionMutationGate) :=
  {| mg_generation := mg_generation g; mg_state := mg_state g;
     mg_next_reservation_id := mg_next_reservation_id g; mg_reservations := mg_reservations g;
     mg_in_flight_mutations := mg_in_flight_mutations g;
     mg_next_route_task_id := mg_next_route_task_id g; mg_route_tasks := mg_route_tasks g;
     mg_route_receipt := v;
     mg_controller_retirement := mg_controller_retirement g; mg_progress := mg_progress g |}.
Definition mg_set_controller (current : option nat)
  (v : list (option (Res ControllerRetirementReceipt))) (g : ProductionMutationGate) :=
  {| mg_generation := mg_generation g; mg_state := mg_state g;
     mg_next_reservation_id := mg_next_reservation_id g; mg_reservations := mg_reservations g;
     mg_in_flight_mutations := mg_in_flight_mutations g;
     mg_next_route_task_id := mg_next_route_task_id g; mg_route_tasks := mg_route_tasks g;
     mg_route_receipt := mg_route_receipt g;
     mg_controller_retirement := current; mg_progress := v |}.

Definition ProductionMutationGate_new (generation : Z) : ProductionMutationGate :=
  {| mg_generation := generation; mg_state := GateOpen; mg_next_reservation_id := 0;
     mg_reservations := ∅; mg_in_flight_mutations := 0; mg_next_route_task_id := 0;
     mg_route_tasks := ∅; mg_route_receipt := None; mg_controller_retirement := None;
     mg_progress := [] |}.

Notation Gate := ProductionMutationGate.

(** ** admissions *)

Definition closed_for_admission (g : Gate) : bool :=
  negb (bool_decide (mg_state g = GateOpen)) || negb (bool_decide (mg_reservations g = ∅)).

Definition issue_reservation : Meth Gate Z :=
  let! g := get in
  if closed_for_admission g then raise InvalidStateTransition else
  match checked_add u64_max (mg_next_reservation_id g) 1 with
  | None => modify (mg_set_state GateRecoveryOnly) ;! raise InvalidStateTransition
  | Some id =>
      modify (mg_set_reservations id ({[id]} ∪ mg_reservations g)) ;!
      ret id
  end.

(** [usize::MAX] on a 64-bit machine. *)
Definition consume_reservation (generation reservation_id : Z) : Meth Gate unit :=
  let! g := get in
  if negb (bool_decide (mg_state g = GateOpen)) || negb (mg_generation g =? generation)
  then raise InvalidStateTransition
  else if mg_in_flight_mutations g =? u64_max
  then modify (mg_set_state GateRecoveryOnly) ;! raise InvalidStateTransition
  else if negb (bool_decide (reservation_id ∈ mg_reservations g)) then raise InvalidStateTransition
  else
    modify (mg_set_reservations (mg_next_reservation_id g)
              (mg_reservations g ∖ {[reservation_id]})) ;!
    modify (mg_set_in_flight (mg_in_flight_mutations g + 1)).

(** [ProductionConnectReservation::release]: also by [abandon] and by [Drop]. *)
Definition release_reservation (generation reservation_id : Z) : Meth Gate unit :=
  modify (fun g => if mg_generation g =? generation
                   then mg_set_reservations (mg_next_reservation_id g)
                          (mg_reservations g ∖ {[reservation_id]}) g
                   else g).

Definition begin_mutation : Meth Gate unit :=
  let! g := get in
  if closed_for_admission g then raise InvalidStateTransition else
  match checked_add u64_max (mg_in_flight_mutations g) 1 with
  | None => modify (mg_set_state GateRecoveryOnly) ;! raise InvalidStateTransition
  | Some in_flight => modify (mg_set_in_flight in_flight)
  end.

(** [Drop] of a [ProductionMutationLease]. *)
Definition drop_lease (generation : Z) : Meth Gate unit :=
  modify (fun g => if (mg_generation g =? generation) && (0 <? mg_in_flight_mutations g)
                   then mg_set_in_flight (mg_in_flight_mutations g - 1) g else g).

Definition queue_route_task : Meth Gate Z :=
  let! g := get in
  if closed_for_admission g then raise InvalidStateTransition else
  match checked_add u64_max (mg_next_route_task_id g) 1 with
  | None => modify (mg_set_state GateRecoveryOnly) ;! raise InvalidStateTransition
  | Some id =>
      modify (mg_set_route_tasks id ({[id]} ∪ mg_route_tasks g)) ;!
      ret id
  end.

Definition finish_route_task (id : Z) : Meth Gate unit :=
  modify (fun g => mg_set_route_tasks (mg_next_route_task_id g) (mg_route_tasks g ∖ {[id]}) g).

Definition can_retire (g : Gate) : bool :=
  bool_decide (mg_reservations g = ∅) && (mg_in_flight_mutations g =? 0)
  && bool_decide (mg_route_tasks g = ∅).

(** [RouteTaskLifecycle]: the call has returned, and its join handle was awaited. *)
Record RouteTaskLifecycle := { tk_completed : bool; tk_joined : bool }.

Definition finish_if_joined (id : Z) (ticket : RouteTaskLifecycle) : Meth Gate unit :=
  if tk_completed ticket && tk_joined ticket then finish_route_task id else ret tt.

(** [Drop] of a [RouteTaskJoinGuard] that was not joined, and a call that panicked. *)
Definition freeze_gate : Meth Gate unit := modify (mg_set_state GateRecoveryOnly).

(** ** retirement *)

Inductive RetireEntry : Type :=
| EntryAnswer (result : ProductionServiceRetirementResult)
| EntryNeedsRoute
| EntryResume.

(** Whether the current controller retirement has not finished. *)
Definition controller_pending (g : Gate) : bool :=
  match mg_controller_retirement g with
  | None => false
  | Some id => match mg_progress g !! id with Some None => true | _ => false end
  end.

(** The first block of [try_retire]. *)
Definition retire_enter : Meth Gate RetireEntry :=
  let! g := get in
  match mg_state g with
  | GateRetired => ret (EntryAnswer SrAlreadyRetired)
  | GateRetiring =>
      if is_none (mg_route_receipt g) || controller_pending g then ret (EntryAnswer SrBusy)
      else ret EntryResume
  | GateRecoveryOnly =>
      if is_none (mg_route_receipt g) then ret (EntryAnswer SrRecoveryOnly)
      else if controller_pending g then ret (EntryAnswer SrBusy)
      else modify (mg_set_state GateRetiring) ;! ret EntryResume
  | GateOpen =>
      if negb (can_retire g) then ret (EntryAnswer SrBusy)
      else modify (mg_set_state GateRetiring) ;! ret EntryNeedsRoute
  end.

Definition set_gate_open_after_preflight : Meth Gate unit :=
  modify (fun g => if bool_decide (mg_state g = GateRetiring) && is_none (mg_route_receipt g)
                   then mg_set_state GateOpen g else g).

Definition set_gate_recovery_only : Meth Gate unit := modify (mg_set_state GateRecoveryOnly).

Definition consume_route_retirement_receipt (receipt : ProductionRouteRetirementReceipt)
  : Meth Gate bool :=
  let! g := get in
  if negb (bool_decide (mg_state g = GateRetiring)) || is_some (mg_route_receipt g)
  then ret false
  else modify (mg_set_route_receipt (Some receipt)) ;! ret true.

(** The progress the caller waits for; a task is spawned exactly for a new one. *)
Definition start_or_resume_controller_retirement : Meth Gate nat :=
  let! g := get in
  let fresh := modify (mg_set_controller (Some (length (mg_progress g))) (mg_progress g ++ [None])) ;!
               ret (length (mg_progress g)) in
  match mg_controller_retirement g with
  | Some existing =>
      match mg_progress g !! existing with
      | Some (Some (Err _)) => fresh
      | _ => ret existing
      end
  | None => fresh
  end.

(** The body of the spawned task once the controller has answered. *)
Definition controller_retirement_done (progress : nat) (result : Res ControllerRetirementReceipt)
  : Meth Gate unit :=
  modify (fun g => mg_set_controller (mg_controller_retirement g)
                     (<[progress := Some result]> (mg_progress g)) g) ;!
  (if is_ok result then ret tt
   else modify (fun g => if bool_decide (mg_state g = GateRetiring)
                         then mg_set_state GateRecoveryOnly g else g)).

Definition finish_service_retirement (controller : ControllerRetirementReceipt)
  : Meth Gate ProductionServiceRetirementResult :=
  let! g := get in
  if negb (bool_decide (mg_state g = GateRetiring)) || negb (can_retire g)
  then modify (mg_set_state GateRecoveryOnly) ;! ret SrRecoveryOnly
  else match mg_route_receipt g with
  | None => modify (mg_set_state GateRecoveryOnly) ;! ret SrRecoveryOnly
  | Some route =>
      modify (mg_set_route_receipt None) ;!
      modify (mg_set_state GateRetired) ;!
      ret (SrRetired {| sv_service_generation := mg_generation g; sv_route := route;
                        sv_controller := controller |})
  end.

(** ** executions *)

(** Where a call of [try_retire] stands. *)
Inductive RetireStage : Type :=
| StNeedsRoute
| StStart
| StWait (progress : nat)
| StDone (result : ProductionServiceRetirementResult).

(** What the preflight found. *)
Inductive ServiceRetirementPreflight : Type :=
| PreReady (route : ProductionRouteRetirementResult)
| PreBusy
| PreRecoveryOnly.

(** The gate, and everything its clients hold: reservations, leases, tickets, calls of
    [try_retire], and the receipts handed out. *)
Record GateWorld := {
  gw_gate : Gate;
  gw_reserved : gset Z;
  gw_leases : Z;
  gw_tickets : gmap Z RouteTaskLifecycle;
  gw_retirers : list RetireStage;
  gw_issued : list ProductionServiceRetirementReceipt;
}.

Definition GateWorld_new (generation : Z) : GateWorld :=
  {| gw_gate := ProductionMutationGate_new generation; gw_reserved := ∅; gw_leases := 0;
     gw_tickets := ∅; gw_retirers := []; gw_issued := [] |}.

Inductive GateEvent : Type :=
| EvReserve
| EvConsume (id : Z)
| EvRelease (id : Z)
| EvBegin
| EvDropLease
| EvQueue
| EvComplete (id : Z)
| EvJoin (id : Z)
| EvJoinLost (id : Z)
| EvPanic (id : Z)
| EvRetire
| EvPreflight (caller : nat) (outcome : ServiceRetirementPreflight)
| EvStart (caller : nat)
| EvControllerDone (progress : nat) (result : Res ControllerRetirementReceipt)
| EvWake (caller : nat).

Definition gw_with (g : Gate) (w : GateWorld) : GateWorld :=
  {| gw_gate := g; gw_reserved := gw_reserved w; gw_leases := gw_leases w;
     gw_tickets := gw_tickets w; gw_retirers := gw_retirers w; gw_issued := gw_issued w |}.
Definition gw_hold (reserved : gset Z) (leases : Z) (w : GateWorld) : GateWorld :=
  {| gw_gate := gw_gate w; gw_reserved := reserved; gw_leases := leases;
     gw_tickets := gw_tickets w; gw_retirers := gw_retirers w; gw_issued := gw_issued w |}.
Definition gw_set_tickets (tickets : gmap Z RouteTaskLifecycle) (w : GateWorld) : GateWorld :=
  {| gw_gate := gw_gate w; gw_reserved := gw_reserved w; gw_leases := gw_leases w;
     gw_tickets := tickets; gw_retirers := gw_retirers w; gw_issued := gw_issued w |}.
Definition gw_set_retirers (retirers : list RetireStage) (w : GateWorld) : GateWorld :=
  {| gw_gate := gw_gate w; gw_reserved := gw_reserved w; gw_leases := gw_leases w;
     gw_tickets := gw_tickets w; gw_retirers := retirers; gw_issued := gw_issued w |}.
Definition gw_issue (receipt : ProductionServiceRetirementReceipt) (w : GateWorld) : GateWorld :=
  {| gw_gate := gw_gate w; gw_reserved := gw_reserved w; gw_leases := gw_leases w;
     gw_tickets := gw_tickets w; gw_retirers := gw_retirers w; gw_issued := receipt :: gw_issued w |}.

Definition gw_stage (caller : nat) (stage : RetireStage) (w : GateWorld) : GateWorld :=
  gw_set_retirers (<[caller := stage]> (gw_retirers w)) w.

(** The ticket is updated and the gate told when both halves are there. *)
Definition ticket_step (id : Z) (update : RouteTaskLifecycle -> RouteTaskLifecycle) (w : GateWorld)
  : GateWorld :=
  match gw_tickets w !! id with
  | None => w
  | Some ticket =>
      let ticket := update ticket in
      gw_with (finish_if_joined id ticket (gw_gate w)).2
        (gw_set_tickets (<[id := ticket]> (gw_tickets w)) w)
  end.
Definition set_completed (t : RouteTaskLifecycle) := {| tk_completed := true; tk_joined := tk_joined t |}.
Definition set_joined (t : RouteTaskLifecycle) := {| tk_completed := tk_completed t; tk_joined := true |}.

(** The middle of [try_retire]: preflight, route boundary, receipt. *)
Definition preflight_step (caller : nat) (outcome : ServiceRetirementPreflight) (w : GateWorld)
  : GateWorld :=
  let recovery := gw_stage caller (StDone SrRecoveryOnly) (gw_with (set_gate_recovery_only (gw_gate w)).2 w) in
  let busy := gw_stage caller (StDone SrBusy) (gw_with (set_gate_open_after_preflight (gw_gate w)).2 w) in
  match outcome with
  | PreBusy | PreReady RetireBusy => busy
  | PreRecoveryOnly | PreReady RetireRecoveryOnly | PreReady RetireAlreadyRetired => recovery
  | PreReady (RetireRetired receipt) =>
      match consume_route_retirement_receipt receipt (gw_gate w) with
      | (Ok true, g) => gw_stage caller StStart (gw_with g w)
      | (_, g) => gw_stage caller (StDone SrRecoveryOnly) (gw_with (set_gate_recovery_only g).2 w)
      end
  end.

(** The end of [try_retire]: the awaited result of the controller. *)
Definition wake_step (caller progress : nat) (w : GateWorld) : GateWorld :=
  match mg_progress (gw_gate w) !! progress with
  | Some (Some (Err _)) =>
      gw_stage caller (StDone SrRecoveryOnly) (gw_with (set_gate_recovery_only (gw_gate w)).2 w)
  | Some (Some (Ok controller)) =>
      match finish_service_retirement controller (gw_gate w) with
      | (Ok (SrRetired receipt), g) =>
          gw_issue receipt (gw_stage caller (StDone (SrRetired receipt)) (gw_with g w))
      | (Ok result, g) => gw_stage caller (StDone result) (gw_with g w)
      | (Err _, g) => gw_with g w
      end
  | _ => w
  end.

Definition gate_step (ev : GateEvent) (w : GateWorld) : GateWorld :=
  let g := gw_gate w in
  match ev with
  | EvReserve =>
      match issue_reservation g with
      | (Ok id, g') => gw_hold ({[id]} ∪ gw_reserved w) (gw_leases w) (gw_with g' w)
      | (Err _, g') => gw_with g' w
      end
  | EvConsume id =>
      if bool_decide (id ∈ gw_reserved w) then
        match consume_reservation (mg_generation g) id g with
        | (Ok _, g') => gw_hold (gw_reserved w ∖ {[id]}) (gw_leases w + 1) (gw_with g' w)
        | (Err _, g') =>
            gw_hold (gw_reserved w ∖ {[id]}) (gw_leases w)
              (gw_with (release_reservation (mg_generation g) id g').2 w)
        end
      else w
  | EvRelease id =>
      if bool_decide (id ∈ gw_reserved w)
      then gw_hold (gw_reserved w ∖ {[id]}) (gw_leases w)
             (gw_with (release_reservation (mg_generation g) id g).2 w)
      else w
  | EvBegin =>
      match begin_mutation g with
      | (Ok _, g') => gw_hold (gw_reserved w) (gw_leases w + 1) (gw_with g' w)
      | (Err _, g') => gw_with g' w
      end
  | EvDropLease =>
      if 0 <? gw_leases w
      then gw_hold (gw_reserved w) (gw_leases w - 1) (gw_with (drop_lease (mg_generation g) g).2 w)
      else w
  | EvQueue =>
      match queue_route_task g with
      | (Ok id, g') =>
          gw_set_tickets (<[id := {| tk_completed := false; tk_joined := false |}]> (gw_tickets w))
            (gw_with g' w)
      | (Err _, g') => gw_with g' w
      end
  | EvComplete id => ticket_step id set_completed w
  | EvJoin id => ticket_step id set_joined w
  | EvJoinLost id =>
      match gw_tickets w !! id with
      | Some ticket => if tk_joined ticket then w else gw_with (freeze_gate g).2 w
      | None => w
      end
  | EvPanic id =>
      match gw_tickets w !! id with
      | Some ticket => if tk_joined ticket then w
                       else ticket_step id set_joined (gw_with (freeze_gate g).2 w)
      | None => w
      end
  | EvRetire =>
      match retire_enter g with
      | (Ok entry, g') =>
          gw_set_retirers
            (gw_retirers w ++ [match entry with
                               | EntryAnswer result => StDone result
                               | EntryNeedsRoute => StNeedsRoute
                               | EntryResume => StStart
                               end]) (gw_with g' w)
      | (Err _, g') => gw_with g' w
      end
  | EvPreflight caller outcome =>
      match gw_retirers w !! caller with
      | Some StNeedsRoute => preflight_step caller outcome w
      | _ => w
      end
  | EvStart caller =>
      match gw_retirers w !! caller with
      | Some StStart =>
          match start_or_resume_controller_retirement g with
          | (Ok progress, g') => gw_stage caller (StWait progress) (gw_with g' w)
          | (Err _, g') => gw_with g' w
          end
      | _ => w
      end
  | EvControllerDone progress result =>
      match mg_progress g !! progress with
      | Some None => gw_with (controller_retirement_done progress result g).2 w
      | _ => w
      end
  | EvWake caller =>
      match gw_retirers w !! caller with
      | Some (StWait progress) => wake_step caller progress w
      | _ => w
      end
  end.

Definition gate_run (evs : list GateEvent) (w : GateWorld) : GateWorld :=
  foldl (fun w ev => gate_step ev w) w evs.

(** ** the invariant *)

(** A ticket whose call may still run, or was not seen to end. *)
Definition outstanding (t : RouteTaskLifecycle) : bool := negb (tk_completed t && tk_joined t).

(** The gate counts what its clients hold. *)
Record counted (w : GateWorld) : Prop := {
  ct_reserved : mg_reservations (gw_gate w) = gw_reserved w;
  ct_leases : mg_in_flight_mutations (gw_gate w) = gw_leases w /\ 0 <= gw_leases w;
  ct_tickets : forall id t, gw_tickets w !! id = Some t -> outstanding t = true ->
    id ∈ mg_route_tasks (gw_gate w);
  ct_fresh : forall id t, gw_tickets w !! id = Some t -> id <= mg_next_route_task_id (gw_gate w);
}.

(** Nothing is held by anyone. *)
Definition idle (w : GateWorld) : Prop :=
  gw_reserved w = ∅ /\ gw_leases w = 0 /\
  forall id t, gw_tickets w !! id = Some t -> outstanding t = false.

(** The retirement: open, asking the routes, holding the route receipt, or over. *)
Inductive phase (w : GateWorld) : Prop :=
| PhOpen : mg_state (gw_gate w) <> GateRetiring -> mg_state (gw_gate w) <> GateRetired ->
    mg_route_receipt (gw_gate w) = None -> mg_progress (gw_gate w) = [] -> gw_issued w = [] ->
    Forall (fun st => exists r, st = StDone r) (gw_retirers w) -> phase w
| PhAsking (caller : nat) : mg_state (gw_gate w) = GateRetiring ->
    mg_route_receipt (gw_gate w) = None -> mg_progress (gw_gate w) = [] -> gw_issued w = [] ->
    idle w -> gw_retirers w !! caller = Some StNeedsRoute ->
    (forall i st, gw_retirers w !! i = Some st -> i <> caller -> exists r, st = StDone r) -> phase w
| PhHolding receipt : mg_state (gw_gate w) = GateRetiring \/ mg_state (gw_gate w) = GateRecoveryOnly ->
    mg_route_receipt (gw_gate w) = Some receipt -> gw_issued w = [] -> idle w ->
    Forall (fun st => st <> StNeedsRoute) (gw_retirers w) -> phase w
| PhOver receipt : mg_state (gw_gate w) = GateRetired \/ mg_state (gw_gate w) = GateRecoveryOnly ->
    mg_route_receipt (gw_gate w) = None -> gw_issued w = [receipt] -> idle w ->
    Forall (fun st => st <> StNeedsRoute) (gw_retirers w) -> phase w.

Definition gate_inv (w : GateWorld) : Prop := counted w /\ phase w.

Lemma can_retire_idle w : counted w -> can_retire (gw_gate w) = true -> idle w.
Proof.
  intros [Hr [Hl _] Ht _] Hc. unfold can_retire in Hc. reflect_bools.
  split_and!; [congruence|congruence|]. intros id t Hid. destruct (outstanding t) eqn:Ho; [|done].
  specialize (Ht id t Hid Ho). set_solver.
Qed.

(** Steps that leave the retirement alone. *)
Lemma phase_same w w' :
  phase w -> mg_state (gw_gate w') = mg_state (gw_gate w) ->
  mg_route_receipt (gw_gate w') = mg_route_receipt (gw_gate w) ->
  mg_progress (gw_gate w') = mg_progress (gw_gate w) ->
  gw_issued w' = gw_issued w -> gw_retirers w' = gw_retirers w -> (idle w -> idle w') -> phase w'.
Proof.
  intros Hp Hs Hr Hg Hi Ht Hid. destruct Hp.
  - apply PhOpen; by rewrite ?Hs, ?Hr, ?Hg, ?Hi, ?Ht.
  - eapply PhAsking; rewrite ?Hs, ?Hr, ?Hg, ?Hi, ?Ht; eauto.
  - eapply PhHolding; rewrite ?Hs, ?Hr, ?Hg, ?Hi, ?Ht; eauto.
  - eapply PhOver; rewrite ?Hs, ?Hr, ?Hg, ?Hi, ?Ht; eauto.
Qed.

(** Steps that freeze the gate while somebody holds something. *)
Lemma phase_freeze w w' :
  phase w -> mg_state (gw_gate w) = GateOpen \/ ~ idle w ->
  mg_state (gw_gate w') = GateRecoveryOnly ->
  mg_route_receipt (gw_gate w') = mg_route_receipt (gw_gate w) ->
  mg_progress (gw_gate w') = mg_progress (gw_gate w) ->
  gw_issued w' = gw_issued w -> gw_retirers w' = gw_retirers w -> phase w'.
Proof.
  intros Hp Hn Hs Hr Hg Hi Ht. destruct Hp as [? ? ? ? ? ?|? Hst|? [Hst|Hst]|? [Hst|Hst]];
    try by destruct Hn as [Hn|Hn]; [congruence|].
  apply PhOpen; rewrite ?Hs, ?Hr, ?Hg, ?Hi, ?Ht; done.
Qed.

Lemma open_not_idle_matters w : phase w -> mg_state (gw_gate w) = GateOpen ->
  mg_route_receipt (gw_gate w) = None /\ mg_progress (gw_gate w) = [] /\ gw_issued w = [] /\
  Forall (fun st => exists r, st = StDone r) (gw_retirers w).
Proof. intros [] Ho; try naive_solver congruence. Qed.

Lemma phase_open w w' :
  phase w -> mg_state (gw_gate w) = GateOpen -> mg_state (gw_gate w') = GateOpen ->
  mg_route_receipt (gw_gate w') = mg_route_receipt (gw_gate w) ->
  mg_progress (gw_gate w') = mg_progress (gw_gate w) ->
  gw_issued w' = gw_issued w -> gw_retirers w' = gw_retirers w -> phase w'.
Proof.
  intros Hp Ho Ho' Hr Hg Hi Ht. destruct (open_not_idle_matters w Hp Ho) as (? & ? & ? & ?).
  apply PhOpen; rewrite ?Ho', ?Hr, ?Hg, ?Hi, ?Ht; done.
Qed.

Lemma closed_open g : closed_for_admission g = false -> mg_state g = GateOpen /\ mg_reservations g = ∅.
Proof.
  unfold closed_for_admission. intros [Hs Hr]%orb_false_iff.
  apply negb_false_iff, bool_decide_eq_true in Hs, Hr. done.
Qed.

(** *** admissions *)

Lemma reserve_inv w : gate_inv w -> gate_inv (gate_step EvReserve w).
Proof.
  intros [Hc Hp]. pose proof Hc as [Hr Hl Ht Hf]. cbn [gate_step].
  unfold issue_reservation, bind, get, modify, raise, ret. cbn.
  destruct (closed_for_admission (gw_gate w)) eqn:Ec; [by destruct w|].
  apply closed_open in Ec as [Ho He]. unfold checked_add. destruct (_ <=? u64_max); cbn.
  - split; [constructor; cbn; [by rewrite Hr|done..]|by eapply phase_open].
  - split; [by constructor|]. eapply phase_freeze; eauto.
Qed.

Lemma release_counted w id :
  counted w -> counted (gw_hold (gw_reserved w ∖ {[id]}) (gw_leases w)
    (gw_with (release_reservation (mg_generation (gw_gate w)) id (gw_gate w)).2 w)).
Proof.
  intros [Hr Hl Ht Hf]. unfold release_reservation, modify. cbn. rewrite Z.eqb_refl.
  constructor; cbn; [by rewrite Hr|done..].
Qed.

Lemma release_phase w id :
  phase w -> id ∈ gw_reserved w -> phase (gw_hold (gw_reserved w ∖ {[id]}) (gw_leases w)
    (gw_with (release_reservation (mg_generation (gw_gate w)) id (gw_gate w)).2 w)).
Proof.
  intros Hp Hin. unfold release_reservation, modify. cbn. rewrite Z.eqb_refl.
  eapply phase_same; [exact Hp|done..|]. intros (Hn & _). set_solver.
Qed.

Lemma release_inv w id : gate_inv w -> gate_inv (gate_step (EvRelease id) w).
Proof.
  intros [Hc Hp]. cbn [gate_step]. case_bool_decide as Hin; [|done].
  split; [by apply release_counted|by apply release_phase].
Qed.

Lemma consume_inv w id : gate_inv w -> gate_inv (gate_step (EvConsume id) w).
Proof.
  intros [Hc Hp]. cbn [gate_step]. case_bool_decide as Hin; [|done].
  assert (Hni : ~ idle w) by (intros (He & _); set_solver).
  unfold consume_reservation, bind, get, modify, raise, ret. cbn. rewrite Z.eqb_refl. cbn.
  rewrite orb_false_r. case_bool_decide as Ho; cbn.
  - destruct (mg_in_flight_mutations (gw_gate w) =? u64_max); cbn.
    + unfold release_reservation, modify. cbn. rewrite Z.eqb_refl.
      pose proof (release_counted w id Hc) as [Hr Hl Ht Hf].
      unfold release_reservation, modify in Hr, Hl, Ht, Hf. cbn in Hr, Hl, Ht, Hf.
      rewrite Z.eqb_refl in Hr, Hl, Ht, Hf. cbn in Hr, Hl, Ht, Hf.
      split; [by constructor|]. eapply phase_freeze; eauto.
    + pose proof Hc as [Hr [Hl Hl'] Ht Hf]. rewrite bool_decide_true by (by rewrite Hr). cbn.
      split; [constructor; cbn; [by rewrite Hr|lia|done..]|]. by eapply phase_open.
  - split; [by apply release_counted|by apply release_phase].
Qed.

Lemma begin_inv w : gate_inv w -> gate_inv (gate_step EvBegin w).
Proof.
  intros [Hc Hp]. pose proof Hc as [Hr [Hl Hl'] Ht Hf]. cbn [gate_step].
  unfold begin_mutation, bind, get, modify, raise, ret. cbn.
  destruct (closed_for_admission (gw_gate w)) eqn:Ec; [by destruct w|].
  apply closed_open in Ec as [Ho He]. unfold checked_add. destruct (_ <=? u64_max); cbn.
  - split; [constructor; cbn; [done|lia|done..]|by eapply phase_open].
  - split; [by constructor|]. eapply phase_freeze; eauto.
Qed.

Lemma drop_lease_inv w : gate_inv w -> gate_inv (gate_step EvDropLease w).
Proof.
  intros [Hc Hp]. pose proof Hc as [Hr [Hl Hl'] Ht Hf]. cbn [gate_step].
  destruct (0 <? gw_leases w) eqn:El; [|done]. reflect_bools.
  unfold drop_lease, modify. cbn. rewrite Z.eqb_refl, Hl. rewrite (proj2 (Z.ltb_lt _ _)) by lia. cbn.
  split; [constructor; cbn; [done|lia|done..]|]. eapply phase_same; [exact Hp|done..|].
  intros (_ & Hz & _). lia.
Qed.

Lemma queue_inv w : gate_inv w -> gate_inv (gate_step EvQueue w).
Proof.
  intros [Hc Hp]. pose proof Hc as [Hr Hl Ht Hf]. cbn [gate_step].
  unfold queue_route_task, bind, get, modify, raise, ret. cbn.
  destruct (closed_for_admission (gw_gate w)) eqn:Ec; [by destruct w|].
  apply closed_open in Ec as [Ho He]. unfold checked_add. destruct (_ <=? u64_max); cbn.
  - split; [constructor; cbn; [done|done| |]|by eapply phase_open].
    + intros id t [[<- <-]|[Hne Hid]]%lookup_insert_Some Hout; [set_solver|].
      specialize (Ht id t Hid Hout). set_solver.
    + intros id t [[<- <-]|[Hne Hid]]%lookup_insert_Some; [lia|]. specialize (Hf id t Hid). lia.
  - split; [by constructor|]. eapply phase_freeze; eauto.
Qed.

(** *** tickets *)

Lemma ticket_step_inv w id (update : RouteTaskLifecycle -> RouteTaskLifecycle) :
  (forall t, outstanding t = false -> outstanding (update t) = false) ->
  gate_inv w -> gate_inv (ticket_step id update w).
Proof.
  intros Hu [Hc Hp]. unfold ticket_step. destruct (gw_tickets w !! id) as [t|] eqn:Eid; [|done].
  pose proof Hc as [Hr Hl Ht Hf]. unfold finish_if_joined, finish_route_task, modify, ret.
  assert (Hidle : forall g, idle w -> idle (gw_with g (gw_set_tickets (<[id := update t]> (gw_tickets w)) w))).
  { intros g (H1 & H2 & H3). split_and!; [done|done|]. cbn.
    intros id' t' [[<- <-]|[Hne Hid]]%lookup_insert_Some; [|by eapply H3]. apply Hu. by eapply H3. }
  destruct (tk_completed (update t) && tk_joined (update t)) eqn:Eo; cbn; split.
  - constructor; cbn; [done|done| |].
    + intros id' t' [[<- <-]|[Hne Hid]]%lookup_insert_Some Hout.
      * unfold outstanding in Hout. by rewrite Eo in Hout.
      * specialize (Ht id' t' Hid Hout). set_solver.
    + intros id' t' [[<- <-]|[Hne Hid]]%lookup_insert_Some; by eapply Hf.
  - eapply phase_same; [exact Hp|done..|]. apply Hidle.
  - constructor; cbn; [done|done| |].
    + intros id' t' [[<- <-]|[Hne Hid]]%lookup_insert_Some Hout; [|by eapply Ht].
      eapply Ht; [exact Eid|]. destruct (outstanding t) eqn:E; [done|].
      apply Hu in E. congruence.
    + intros id' t' [[<- <-]|[Hne Hid]]%lookup_insert_Some; by eapply Hf.
  - eapply phase_same; [exact Hp|done..|]. apply Hidle.
Qed.

Lemma freeze_inv w id t :
  gate_inv w -> gw_tickets w !! id = Some t -> tk_joined t = false ->
  gate_inv (gw_with (freeze_gate (gw_gate w)).2 w).
Proof.
  intros [Hc Hp] Hid Hj. split; [by destruct Hc; constructor|]. eapply phase_freeze; [exact Hp|right|done..].
  intros (_ & _ & Hn). specialize (Hn id t Hid). unfold outstanding in Hn.
  rewrite Hj, andb_false_r in Hn. done.
Qed.

(** *** retirement *)

(** Only the gate's state, its receipt, the progress and the callers change. *)
Lemma counted_same w w' :
  counted w -> mg_reservations (gw_gate w') = mg_reservations (gw_gate w) ->
  mg_in_flight_mutations (gw_gate w') = mg_in_flight_mutations (gw_gate w) ->
  mg_route_tasks (gw_gate w') = mg_route_tasks (gw_gate w) ->
  mg_next_route_task_id (gw_gate w') = mg_next_route_task_id (gw_gate w) ->
  gw_reserved w' = gw_reserved w -> gw_leases w' = gw_leases w -> gw_tickets w' = gw_tickets w ->
  counted w'.
Proof.
  intros [Hr Hl Ht Hf] H1 H2 H3 H4 H5 H6 H7.
  constructor; rewrite ?H1, ?H2, ?H3, ?H4, ?H5, ?H6, ?H7; done.
Qed.

Lemma idle_same w w' :
  idle w -> gw_reserved w' = gw_reserved w -> gw_leases w' = gw_leases w ->
  gw_tickets w' = gw_tickets w -> idle w'.
Proof. unfold idle. by intros ? -> -> ->. Qed.

Lemma retirers_snoc (l : list RetireStage) (Q : RetireStage -> Prop) st :
  Forall Q l -> Q st -> Forall Q (l ++ [st]).
Proof. intros. apply Forall_app. by split; [|constructor]. Qed.

Lemma retirers_replace (l : list RetireStage) caller st :
  (forall i st, l !! i = Some st -> i <> caller -> exists r, st = StDone r) ->
  Forall (fun st' => (exists r, st' = StDone r) \/ st' = st) (<[caller := st]> l).
Proof.
  intros Ho. apply Forall_lookup. intros i st' Hi. destruct (decide (i = caller)) as [->|Hne].
  - apply list_lookup_insert_Some in Hi as [(_ & -> & _)|[? _]]; [by right|done].
  - rewrite list_lookup_insert_ne in Hi by done. left. eauto.
Qed.

Lemma gate_retire_inv w : gate_inv w -> gate_inv (gate_step EvRetire w).
Proof.
  intros [Hc Hp]. cbn [gate_step]. unfold retire_enter, bind, get, modify, ret.
  assert (Hans : forall result, gate_inv (gw_set_retirers (gw_retirers w ++ [StDone result]) (gw_with (gw_gate w) w))).
  { intros result. split; [by eapply counted_same|]. destruct Hp as [? ? ? ? ? Hd|caller ? ? ? ? ? Hca Ho| | ].
    - apply PhOpen; try done. apply retirers_snoc; eauto.
    - eapply (PhAsking _ caller); cbn; try done; [by apply lookup_app_l_Some|].
      intros i st [Hi|[_ Hi]]%lookup_app_Some Hne; [eauto|].
      apply list_lookup_singleton_Some in Hi as [_ <-]. eauto.
    - eapply PhHolding; cbn; eauto. by apply retirers_snoc.
    - eapply PhOver; cbn; eauto. by apply retirers_snoc. }
  destruct (mg_state (gw_gate w)) eqn:Es.
  - destruct (can_retire (gw_gate w)) eqn:Ec; cbn; [|apply Hans].
    destruct (open_not_idle_matters w Hp Es) as (Hr & Hg & Hi & Hd).
    pose proof (can_retire_idle w Hc Ec) as Hidle.
    split; [by eapply counted_same|]. eapply (PhAsking _ (length (gw_retirers w))); cbn; try done.
    + by apply list_lookup_middle.
    + intros i st [Hlk|[Hge Hlk]]%lookup_app_Some Hne; [by eapply Forall_lookup_1 in Hd|].
      apply list_lookup_singleton_Some in Hlk as [Hz <-]. lia.
  - destruct (is_none (mg_route_receipt (gw_gate w)) || controller_pending (gw_gate w)) eqn:Eb; [apply Hans|].
    apply orb_false_iff in Eb as [Er _]. split; [by eapply counted_same|].
    destruct Hp as [? ? Hr|? ? Hr|? ? Hr|? ? Hr]; rewrite ?Hr in Er; try done.
    eapply PhHolding; cbn; eauto. by apply retirers_snoc.
  - destruct (is_none (mg_route_receipt (gw_gate w))) eqn:Er; [apply Hans|].
    destruct (controller_pending (gw_gate w)); [apply Hans|]. cbn.
    split; [by eapply counted_same|].
    destruct Hp as [? ? Hr|? ? Hr|? ? Hr|? ? Hr]; rewrite ?Hr in Er; try done.
    eapply PhHolding; cbn; eauto. by apply retirers_snoc.
  - apply Hans.
Qed.

Lemma preflight_inv w caller outcome : gate_inv w -> gate_inv (gate_step (EvPreflight caller outcome) w).
Proof.
  intros [Hc Hp]. cbn [gate_step]. destruct (gw_retirers w !! caller) as [[]|] eqn:Eca; try by split.
  assert (Hask : mg_state (gw_gate w) = GateRetiring /\ mg_route_receipt (gw_gate w) = None /\
    mg_progress (gw_gate w) = [] /\ gw_issued w = [] /\ idle w /\
    (forall i st, gw_retirers w !! i = Some st -> i <> caller -> exists r, st = StDone r)).
  { destruct Hp as [? ? ? ? ? Hd|caller' ? ? ? ? ? Hca Ho|? ? ? ? ? Hd|? ? ? ? ? Hd].
    - eapply Forall_lookup_1 in Hd as [? ?]; [|done]. congruence.
    - destruct (decide (caller = caller')) as [->|Hne]; [done|].
      destruct (Ho caller _ Eca Hne) as [? ?]. congruence.
    - by eapply Forall_lookup_1 in Hd.
    - by eapply Forall_lookup_1 in Hd. }
  destruct Hask as (Hs & Hr & Hg & Hi & Hid & Ho).
  assert (Hdone : forall result, Forall (fun st => exists r, st = StDone r)
    (<[caller := StDone result]> (gw_retirers w))).
  { intros result. eapply Forall_impl; [by apply retirers_replace|]. naive_solver. }
  assert (Hrec : gate_inv (gw_stage caller (StDone SrRecoveryOnly)
    (gw_with (set_gate_recovery_only (gw_gate w)).2 w))).
  { split; [by eapply counted_same|]. apply PhOpen; cbn; auto; done. }
  assert (Hbusy : gate_inv (gw_stage caller (StDone SrBusy)
    (gw_with (set_gate_open_after_preflight (gw_gate w)).2 w))).
  { unfold set_gate_open_after_preflight, modify. cbn. rewrite Hs, Hr. cbn.
    split; [by eapply counted_same|]. apply PhOpen; cbn; auto; done. }
  unfold preflight_step. destruct outcome as [[receipt| | |]| |]; try done.
  unfold consume_route_retirement_receipt, bind, get, modify, ret. cbn. rewrite Hs, Hr. cbn.
  split; [by eapply counted_same|]. eapply (PhHolding _ receipt); cbn; eauto.
  eapply Forall_impl; [by apply retirers_replace|]. naive_solver.
Qed.

(** Callers past the routes: the gate holds the receipt, or the retirement is over. *)
Lemma past_routes w caller st :
  phase w -> gw_retirers w !! caller = Some st -> st <> StNeedsRoute -> (forall r, st <> StDone r) ->
  idle w /\ Forall (fun st => st <> StNeedsRoute) (gw_retirers w) /\
  ((mg_state (gw_gate w) = GateRetiring \/ mg_state (gw_gate w) = GateRecoveryOnly) /\
     (exists receipt, mg_route_receipt (gw_gate w) = Some receipt) /\ gw_issued w = [] \/
   (mg_state (gw_gate w) = GateRetired \/ mg_state (gw_gate w) = GateRecoveryOnly) /\
     mg_route_receipt (gw_gate w) = None /\ exists receipt, gw_issued w = [receipt]).
Proof.
  intros Hp Hca Hn Hd. destruct Hp as [? ? ? ? ? Hf|caller' ? ? ? ? ? Hca' Ho|? ? ? ? ? Hf|? ? ? ? ? Hf].
  - eapply Forall_lookup_1 in Hf as [r ?]; [|done]. by destruct (Hd r).
  - destruct (decide (caller = caller')) as [->|Hne]; [congruence|].
    destruct (Ho caller _ Hca Hne) as [r ?]. by destruct (Hd r).
  - split_and!; eauto 10.
  - split_and!; eauto 10.
Qed.

Lemma gate_start_inv w caller : gate_inv w -> gate_inv (gate_step (EvStart caller) w).
Proof.
  intros [Hc Hp]. cbn [gate_step]. destruct (gw_retirers w !! caller) as [[]|] eqn:Eca; try by split.
  destruct (past_routes w caller _ Hp Eca) as (Hid & Hf & Hcase); [done..|].
  assert (Hgoal : forall progress current v, gate_inv (gw_stage caller (StWait progress)
    (gw_with (mg_set_controller current v (gw_gate w)) w))).
  { intros progress current v. split; [by eapply counted_same|].
    destruct Hcase as [(? & [receipt ?] & ?)|(? & ? & [receipt ?])].
    - eapply (PhHolding _ receipt); cbn; eauto. by apply Forall_insert.
    - eapply (PhOver _ receipt); cbn; eauto. by apply Forall_insert. }
  assert (Hsame : forall progress, gate_inv (gw_stage caller (StWait progress) (gw_with (gw_gate w) w))).
  { intros progress. specialize (Hgoal progress (mg_controller_retirement (gw_gate w)) (mg_progress (gw_gate w))).
    by destruct (gw_gate w). }
  unfold start_or_resume_controller_retirement, bind, get, modify, ret. cbn.
  destruct (mg_controller_retirement (gw_gate w)); [|apply Hgoal].
  destruct (mg_progress (gw_gate w) !! n) as [[[]|]|]; [apply Hsame|apply Hgoal|apply Hsame|apply Hsame].
Qed.

Lemma controller_done_inv w progress result :
  gate_inv w -> gate_inv (gate_step (EvControllerDone progress result) w).
Proof.
  intros [Hc Hp]. cbn [gate_step].
  destruct (mg_progress (gw_gate w) !! progress) as [[|]|] eqn:Eg; try by split.
  unfold controller_retirement_done, bind, modify, ret.
  destruct Hp as [? ? ? Hg|? ? ? Hg|receipt Hs Hr Hi Hid Hf|receipt Hs Hr Hi Hid Hf];
    [by rewrite Hg in Eg|by rewrite Hg in Eg| |].
  all: destruct (is_ok result); cbn; [|case_bool_decide as Hst]; (split; [by eapply counted_same|]).
  1-3: eapply (PhHolding _ receipt); cbn; eauto.
  all: eapply (PhOver _ receipt); cbn; eauto.
Qed.

Lemma wake_inv w caller : gate_inv w -> gate_inv (gate_step (EvWake caller) w).
Proof.
  intros [Hc Hp]. cbn [gate_step]. destruct (gw_retirers w !! caller) as [[]|] eqn:Eca; try by split.
  destruct (past_routes w caller _ Hp Eca) as (Hid & Hf & Hcase); [done..|]. unfold wake_step.
  assert (Hdone : forall result, Forall (fun st => st <> StNeedsRoute)
    (<[caller := StDone result]> (gw_retirers w))) by (intros; by apply Forall_insert).
  assert (Hrec : gate_inv (gw_stage caller (StDone SrRecoveryOnly)
    (gw_with (mg_set_state GateRecoveryOnly (gw_gate w)) w))).
  { split; [by eapply counted_same|].
    destruct Hcase as [(? & [receipt ?] & ?)|(? & ? & [receipt ?])].
    - eapply (PhHolding _ receipt); cbn; eauto.
    - eapply (PhOver _ receipt); cbn; eauto. }
  destruct (mg_progress (gw_gate w) !! progress) as [[[controller|e]|]|]; [|exact Hrec|by split..].
  unfold finish_service_retirement, bind, get, modify, ret. cbn.
  destruct (negb (bool_decide (mg_state (gw_gate w) = GateRetiring)) || negb (can_retire (gw_gate w))) eqn:Eb;
    [done|]. apply orb_false_iff in Eb as [Es _]. apply negb_false_iff, bool_decide_eq_true in Es.
  destruct (mg_route_receipt (gw_gate w)) as [route|] eqn:Er; [|done]. cbn.
  destruct Hcase as [(? & [receipt ?] & Hi)|([?|?] & ? & [receipt ?])]; [|congruence..].
  split; [by eapply counted_same|].
  eapply PhOver; cbn; [by left|done|by rewrite Hi|done|apply Hdone].
Qed.

Lemma gate_step_inv ev w : gate_inv w -> gate_inv (gate_step ev w).
Proof.
  intros Hw. destruct ev;
    auto using reserve_inv, consume_inv, release_inv, begin_inv, drop_lease_inv, queue_inv, gate_retire_inv,
      preflight_inv, gate_start_inv, controller_done_inv, wake_inv.
  - apply ticket_step_inv; [|done]. intros t. unfold outstanding. cbn. by destruct (tk_joined t), (tk_completed t).
  - apply ticket_step_inv; [|done]. intros t. unfold outstanding. cbn. by destruct (tk_joined t), (tk_completed t).
  - cbn [gate_step]. destruct (gw_tickets w !! id) as [t|] eqn:Et; [|done].
    destruct (tk_joined t) eqn:Ej; [done|]. by eapply freeze_inv.
  - cbn [gate_step]. destruct (gw_tickets w !! id) as [t|] eqn:Et; [|done].
    destruct (tk_joined t) eqn:Ej; [done|]. apply ticket_step_inv; [|by eapply freeze_inv].
    intros t'. unfold outstanding. cbn. by destruct (tk_joined t'), (tk_completed t').
Qed.

Lemma gate_run_inv evs : forall w, gate_inv w -> gate_inv (gate_run evs w).
Proof. induction evs as [|ev evs IH]; intros w Hw; [done|]. cbn. by apply IH, gate_step_inv. Qed.

Lemma new_gate_inv generation : gate_inv (GateWorld_new generation).
Proof. split; [by constructor|]. by apply PhOpen. Qed.

(** ** the theorem *)

Lemma gate_step_issued ev w receipt : gw_issued w = [receipt] -> gate_inv w -> gw_issued (gate_step ev w) = [receipt].
Proof.
  intros Hi Hw. pose proof (gate_step_inv ev w Hw) as [_ Hp'].
  assert (Hsub : exists new, gw_issued (gate_step ev w) = new ++ gw_issued w).
  { destruct ev; cbn [gate_step]; unfold ticket_step, preflight_step, wake_step; repeat case_match;
      first [by exists [] | by eexists [_]]. }
  destruct Hsub as [new Hnew]. rewrite Hi in Hnew.
  destruct Hp' as [? ? ? ? Hi'|? ? ? ? Hi'|? ? ? Hi'|? ? ? Hi']; rewrite Hi' in Hnew;
    [by destruct new..|]. destruct new as [|? [|? ?]]; cbn in Hnew; simplify_eq; done.
Qed.

Lemma gate_run_issued evs : forall w receipt,
  gw_issued w = [receipt] -> gate_inv w -> gw_issued (gate_run evs w) = [receipt].
Proof.
  induction evs as [|ev evs IH]; intros w receipt Hi Hw; [done|]. cbn.
  apply IH; [by apply gate_step_issued|by apply gate_step_inv].
Qed.

Lemma issued_over w receipt :
  gate_inv w -> gw_issued w = [receipt] -> idle w /\ mg_state (gw_gate w) <> GateOpen.
Proof.
  intros [_ Hp] Hn. destruct Hp as [? ? ? ? Hi|? ? ? ? Hi|? ? ? Hi|? [Hs|Hs] ? ? ?]; try congruence;
    (split; [done|congruence]).
Qed.

(** C7: whatever order reservations, mutations, route tasks and concurrent
    retirements take on the gate of a service: at most one retirement receipt is
    ever issued, the gate is Retired only after it, and from then on nothing is
    reserved, in flight or queued and every admission is refused for good. *)
Theorem service_retirement_is_exclusive generation evs :
  let w := gate_run evs (GateWorld_new generation) in
  (* at most one receipt is ever handed out *)
  (length (gw_issued w) <= 1)%nat /\
  (* once it is: nothing is reserved, in flight or queued, and nothing is admitted again,
     now or later *)
  (gw_issued w <> [] -> forall later, let w' := gate_run later w in
     gw_issued w' = gw_issued w /\ idle w' /\
     (issue_reservation (gw_gate w')).1 = Err InvalidStateTransition /\
     (begin_mutation (gw_gate w')).1 = Err InvalidStateTransition /\
     (queue_route_task (gw_gate w')).1 = Err InvalidStateTransition /\
     (forall generation id,
        (consume_reservation generation id (gw_gate w')).1 = Err InvalidStateTransition)) /\
  (* a gate that is retired has handed out the receipt *)
  (mg_state (gw_gate w) = GateRetired -> gw_issued w <> []).
Proof.
  cbn zeta. set (w := gate_run evs (GateWorld_new generation)).
  pose proof (gate_run_inv evs _ (new_gate_inv generation)) as Hw. fold w in Hw. split_and!.
  - destruct Hw as [_ [? ? ? ? Hi|? ? ? ? Hi|? ? ? Hi|? ? ? Hi]]; rewrite Hi; cbn; lia.
  - intros Hn later. assert (exists receipt, gw_issued w = [receipt]) as [receipt Hi].
    { destruct Hw as [_ [? ? ? ? Hi|? ? ? ? Hi|? ? ? Hi|? ? ? Hi]]; rewrite Hi in *; [done..|by eexists]. }
    pose proof (gate_run_inv later w Hw) as Hw'. pose proof (gate_run_issued later w receipt Hi Hw) as Hi'.
    destruct (issued_over _ receipt Hw' Hi') as [Hid Hs]. rewrite Hi, Hi'.
    assert (Hcl : closed_for_admission (gw_gate (gate_run later w)) = true).
    { unfold closed_for_admission. by rewrite bool_decide_false. }
    unfold issue_reservation, begin_mutation, queue_route_task, consume_reservation, bind, get, raise. cbn.
    rewrite Hcl, bool_decide_false by done. split_and!; done.
  - intros Hs. destruct Hw as [_ [? ? ? ? Hi|? Hs'|? [Hs'|Hs']|? ? ? Hi]]; congruence.
Qed.

(** A second caller that has resumed the retirement before the first one finished it. *)
Definition late_retirer (route : ProductionRouteRetirementReceipt)
  (controller : ControllerRetirementReceipt) : list GateEvent :=
  [EvRetire; EvPreflight 0 (PreReady (RetireRetired route)); EvStart 0;
   EvControllerDone 0 (Ok controller); EvRetire; EvStart 1; EvWake 0; EvWake 1].

(** Two concurrent retirements of one service: the one that finishes second
    finds the gate already Retired and sets it to RecoveryOnly, so that a
    service whose receipt was issued answers RecoveryOnly from then on. *)
Theorem late_retirer_demotes_retired_gate generation route controller :
  let receipt := {| sv_service_generation := generation; sv_route := route;
                    sv_controller := controller |} in
  let w := gate_run (late_retirer route controller) (GateWorld_new generation) in
  (* the first caller has the receipt, the second an answer of recovery *)
  gw_retirers w = [StDone (SrRetired receipt); StDone SrRecoveryOnly] /\
  gw_issued w = [receipt] /\
  (* and the gate no longer says that it is retired *)
  mg_state (gw_gate w) = GateRecoveryOnly /\
  (retire_enter (gw_gate w)).1 = Ok (EntryAnswer SrRecoveryOnly).
Proof. by split_and!. Qed.
