(* ===== verification/ProductionService.v ===== *)
(** * ProductionService: connecting and disconnecting the private network

    [src-tauri/src/networking/production_service.rs] above its gate: [connect] starts
    the sidecar, prepares the tunnel, tries the carriers in order, applies the routes
    and installs the monitor; [disconnect] and every failure undo this from the
    outside in.  The controller's handle and Mihomo's observation are classes; the
    routes are a [ProductionRouteBoundary].

    The service is asynchronous.  Its shared state is the record
    [ProductionNetworkingService]; operations are kept in a store under their epoch,
    unique in a service, so that [Arc::ptr_eq] is equality of epochs.  At every await
    other callers may run, and so they may where the code gives up its locks between
    a check and the publication it guards: [yield_now] takes the next entry of
    [ps_others], a list of whole calls of [cancel] and of the first, synchronous part of
    [disconnect] (the rest of it joins the monitor and waits for the lifecycle lock;
    until then it is kept in [ps_waiting]).  The two loops of the monitor take their turns, one iteration each, as [ps_turns] says.
    [ps_trace] is a ghost: the calls of controller and routes with their answers. *)

From Stdlib Require Import Ascii String.
From S2P Require Import Prelude Text NetState Config Ipc Sidecar RouteHelperV3 RouteV3Client.
From S2P Require Import ProductionSession ProductionController RouteBoundary ServiceGate.

(** ** data *)

Record ProductionSiteSummary := {
  ss_id : string;
  ss_display_name : string;
  ss_private_route_count : Z;
}.

Record ProductionNetworkStatus := {
  pn_state : NetworkState;
  pn_sidecar_state : SidecarLifecycleState;
  pn_site : ProductionSiteSummary;
  pn_active_transport : option TransportKind;
  pn_health : option NetworkHealth;
  pn_operation_id : option string;
  pn_last_error : option NetworkErrorCode;
}.

Definition pn_set_state (v : NetworkState) (self : ProductionNetworkStatus) : ProductionNetworkStatus :=
  {| pn_state := v; pn_sidecar_state := pn_sidecar_state self; pn_site := pn_site self;
     pn_active_transport := pn_active_transport self; pn_health := pn_health self;
     pn_operation_id := pn_operation_id self; pn_last_error := pn_last_error self |}.
Definition pn_set_sidecar_state (v : SidecarLifecycleState) (self : ProductionNetworkStatus) : ProductionNetworkStatus :=
  {| pn_state := pn_state self; pn_sidecar_state := v; pn_site := pn_site self;
     pn_active_transport := pn_active_transport self; pn_health := pn_health self;
     pn_operation_id := pn_operation_id self; pn_last_error := pn_last_error self |}.
Definition pn_set_active_transport (v : option TransportKind) (self : ProductionNetworkStatus) : ProductionNetworkStatus :=
  {| pn_state := pn_state self; pn_sidecar_state := pn_sidecar_state self; pn_site :=
     pn_site self; pn_active_transport := v; pn_health := pn_health self;
     pn_operation_id := pn_operation_id self; pn_last_error := pn_last_error self |}.
Definition pn_set_health (v : option NetworkHealth) (self : ProductionNetworkStatus) : ProductionNetworkStatus :=
  {| pn_state := pn_state self; pn_sidecar_state := pn_sidecar_state self; pn_site :=
     pn_site self; pn_active_transport := pn_active_transport self; pn_health := v;
     pn_operation_id := pn_operation_id self; pn_last_error := pn_last_error self |}.
Definition pn_set_last_error (v : option NetworkErrorCode) (self : ProductionNetworkStatus) : ProductionNetworkStatus :=
  {| pn_state := pn_state self; pn_sidecar_state := pn_sidecar_state self; pn_site :=
     pn_site self; pn_active_transport := pn_active_transport self; pn_health :=
     pn_health self; pn_operation_id := pn_operation_id self; pn_last_error := v |}.

Record ProductionOperation := {
  op_id : string;
  op_epoch : Z;
  op_cancel_requested : bool;
  op_disconnect_requested : bool;
}.

Definition ProductionOperation_new (id : string) (epoch : Z) : ProductionOperation :=
  {| op_id := id; op_epoch := epoch; op_cancel_requested := false; op_disconnect_requested := false |}.
Definition request_cancel (self : ProductionOperation) : ProductionOperation :=
  {| op_id := op_id self; op_epoch := op_epoch self; op_cancel_requested := true;
     op_disconnect_requested := true |}.
Definition request_disconnect (self : ProductionOperation) : ProductionOperation :=
  {| op_id := op_id self; op_epoch := op_epoch self;
     op_cancel_requested := op_cancel_requested self; op_disconnect_requested := true |}.
Definition is_stopping (self : ProductionOperation) : bool :=
  op_cancel_requested self || op_disconnect_requested self.

(** What the service is constructed with and never changes. *)
Record ServiceConfig := {
  sc_broker_bound : bool;
  sc_profile : NetworkProfile;
  sc_instance_id : string;
  sc_profile_revision : Z;
  sc_timeout : Z;
}.

(** The monitor task: its flag, the variables of its health loop, and which of its two
    loops have ended. *)
Record RouteMonitor := {
  mo_operation : Z;
  mo_cancelled : bool;
  mo_transport : TransportKind;
  mo_failures : Z;
  mo_health_done : bool;
  mo_lease_done : bool;
}.

Definition mo_set_cancelled (v : bool) (self : RouteMonitor) : RouteMonitor :=
  {| mo_operation := mo_operation self; mo_cancelled := v; mo_transport := mo_transport
     self; mo_failures := mo_failures self; mo_health_done := mo_health_done self;
     mo_lease_done := mo_lease_done self |}.
Definition mo_set_transport (v : TransportKind) (self : RouteMonitor) : RouteMonitor :=
  {| mo_operation := mo_operation self; mo_cancelled := mo_cancelled self; mo_transport
     := v; mo_failures := mo_failures self; mo_health_done := mo_health_done self;
     mo_lease_done := mo_lease_done self |}.
Definition mo_set_failures (v : Z) (self : RouteMonitor) : RouteMonitor :=
  {| mo_operation := mo_operation self; mo_cancelled := mo_cancelled self; mo_transport
     := mo_transport self; mo_failures := v; mo_health_done := mo_health_done self;
     mo_lease_done := mo_lease_done self |}.
Definition mo_set_health_done (v : bool) (self : RouteMonitor) : RouteMonitor :=
  {| mo_operation := mo_operation self; mo_cancelled := mo_cancelled self; mo_transport
     := mo_transport self; mo_failures := mo_failures self; mo_health_done := v;
     mo_lease_done := mo_lease_done self |}.
Definition mo_set_lease_done (v : bool) (self : RouteMonitor) : RouteMonitor :=
  {| mo_operation := mo_operation self; mo_cancelled := mo_cancelled self; mo_transport
     := mo_transport self; mo_failures := mo_failures self; mo_health_done :=
     mo_health_done self; mo_lease_done := v |}.

Inductive MonitorTurn : Type := HealthTurn | LeaseTurn.

(** Calls of others at an await. *)
Inductive Intrusion : Type :=
| OtherCancel (operation_id : string)
| OtherDisconnect (operation_id : string).

(** The ghost trace. *)
Inductive ServiceCall : Type :=
| CallIpc (payload : IpcRequestPayload) (answer : Res IpcResponse)
| CallApplyRoutes (answer : Res unit)
| CallRollbackRoutes (answer : Res unit)
| CallShutdown (answer : Res unit).

Class ControllerHandle (X : Type) := {
  ch_start : Meth X unit;
  ch_start_broker_bound : Meth X ControllerStartReceipt;
  ch_request : string -> IpcRequest -> Z -> Meth X IpcResponse;
  ch_sample_health : string -> IpcRequest -> Z -> Meth X IpcResponse;
  ch_cancel : string -> Meth X unit;
  ch_poll : Meth X SidecarLifecycleState;
  ch_shutdown : Meth X unit;
}.

(** [ActiveMihomoTunSource], and whether a call under [tokio::time::timeout] was cut off. *)
Class ServiceSurroundings (X : Type) := {
  su_mihomo : string -> Meth X MihomoTunSnapshot;
  su_cut_off : X -> bool * X;
}.

(** ** pure helpers *)

Definition all_id_bytes (value : string) : bool :=
  all_bytes (fun byte => is_ascii_alphanumeric byte || one_of ["-"; "_"; "."]%char byte) value.

Definition valid_production_operation_id (value : string) : bool :=
  (8 <=? len value) && (len value <=? 56) && all_id_bytes value.

Definition fatal_sidecar_error (error : NetworkErrorCode) : bool :=
  match error with
  | UnsupportedProtocolVersion | AuthenticationFailed | PermissionDenied | OperationTimedOut
  | SidecarUnavailable => true
  | _ => false
  end.

Definition authoritative_operation_error (error : NetworkErrorCode) (stopping : bool)
  : NetworkErrorCode :=
  if bool_decide (error = OperationCancelled) && negb stopping then SidecarUnavailable else error.

Definition carrier_action (transport : TransportKind) : string :=
  match transport with Quic => "carrier.quic" | Wss => "carrier.wss" | Tcp => "carrier.tcp" end.
Definition health_action (transport : TransportKind) : string :=
  match transport with Quic => "health.quic" | Wss => "health.wss" | Tcp => "health.tcp" end.

Definition connected_state (profile : NetworkProfile) (transport : TransportKind) : NetworkState :=
  if bool_decide (transport = primary (transports profile)) then ConnectedPrimary
  else DegradedFallback.

Definition validate_connected_status (status : NetworkStatus) (profile : NetworkProfile)
  (transport : TransportKind) : Res unit :=
  if negb (bool_decide (st_active_profile_id status = Some (profile_id profile)))
    || negb (bool_decide (st_active_transport status = Some transport))
    || negb (bool_decide (st_state status = connected_state profile transport))
  then Err InvalidStateTransition
  else Ok tt.

Definition validate_carrier_disconnected (status : NetworkStatus) : Res unit :=
  if is_some (st_active_transport status) then Err InvalidStateTransition else Ok tt.

Definition request (request_id : string) (payload : IpcRequestPayload) : IpcRequest :=
  {| rq_protocol_version := NETWORK_IPC_PROTOCOL_VERSION; rq_request_id := request_id;
     rq_payload := payload |}.

(** [response.result.map_err(|error| error.code)]. *)
Definition response_payload (response : IpcResponse) : Res IpcResponsePayload :=
  map_err ie_code (rs_result response).

Definition healthy (health : NetworkHealth) : bool :=
  nh_reachable health && (nh_loss_percent health <? 50).

Definition unavailable (transport : TransportKind) : NetworkErrorCode :=
  match transport with Quic => PrimaryTransportUnavailable | _ => FallbackTransportUnavailable end.

Section service.
Context {X B : Type} `{ControllerHandle X, ServiceSurroundings X, ProductionRouteBoundary B}.

Record ProductionNetworkingService := {
  ps_config : ServiceConfig;
  ps_gate : Gate;
  ps_start_consumed : bool;
  ps_routes : B;
  ps_routes_active : bool;
  ps_status : ProductionNetworkStatus;
  ps_route_heartbeat : option RouteMonitor;
  ps_lifecycle : bool;
  ps_request_sequence : Z;
  ps_operations : gmap Z ProductionOperation;
  ps_active_operation : option Z;
  ps_operation_epoch : Z;
  ps_waiting : list (option Z * option NetworkErrorCode);
  ps_world : X;
  ps_trace : list ServiceCall;
  ps_others : list (list Intrusion);
  ps_turns : list MonitorTurn;
}.

Definition ps_set_gate (v : Gate) (self : ProductionNetworkingService) : ProductionNetworkingService :=
  {| ps_config := ps_config self; ps_gate := v; ps_start_consumed := ps_start_consumed
     self; ps_routes := ps_routes self; ps_routes_active := ps_routes_active self;
     ps_status := ps_status self; ps_route_heartbeat := ps_route_heartbeat self;
     ps_lifecycle := ps_lifecycle self; ps_request_sequence := ps_request_sequence self;
     ps_operations := ps_operations self; ps_active_operation := ps_active_operation
     self; ps_operation_epoch := ps_operation_epoch self; ps_waiting := ps_waiting self;
     ps_world := ps_world self; ps_trace := ps_trace self; ps_others := ps_others self;
     ps_turns := ps_turns self |}.
Definition ps_set_start_consumed (v : bool) (self : ProductionNetworkingService) : ProductionNetworkingService :=
  {| ps_config := ps_config self; ps_gate := ps_gate self; ps_start_consumed := v;
     ps_routes := ps_routes self; ps_routes_active := ps_routes_active self; ps_status
     := ps_status self; ps_route_heartbeat := ps_route_heartbeat self; ps_lifecycle :=
     ps_lifecycle self; ps_request_sequence := ps_request_sequence self; ps_operations
     := ps_operations self; ps_active_operation := ps_active_operation self;
     ps_operation_epoch := ps_operation_epoch self; ps_waiting := ps_waiting self;
     ps_world := ps_world self; ps_trace := ps_trace self; ps_others := ps_others self;
     ps_turns := ps_turns self |}.
Definition ps_set_routes (v : B) (self : ProductionNetworkingService) : ProductionNetworkingService :=
  {| ps_config := ps_config self; ps_gate := ps_gate self; ps_start_consumed :=
     ps_start_consumed self; ps_routes := v; ps_routes_active := ps_routes_active self;
     ps_status := ps_status self; ps_route_heartbeat := ps_route_heartbeat self;
     ps_lifecycle := ps_lifecycle self; ps_request_sequence := ps_request_sequence self;
     ps_operations := ps_operations self; ps_active_operation := ps_active_operation
     self; ps_operation_epoch := ps_operation_epoch self; ps_waiting := ps_waiting self;
     ps_world := ps_world self; ps_trace := ps_trace self; ps_others := ps_others self;
     ps_turns := ps_turns self |}.
Definition ps_set_routes_active (v : bool) (self : ProductionNetworkingService) : ProductionNetworkingService :=
  {| ps_config := ps_config self; ps_gate := ps_gate self; ps_start_consumed :=
     ps_start_consumed self; ps_routes := ps_routes self; ps_routes_active := v;
     ps_status := ps_status self; ps_route_heartbeat := ps_route_heartbeat self;
     ps_lifecycle := ps_lifecycle self; ps_request_sequence := ps_request_sequence self;
     ps_operations := ps_operations self; ps_active_operation := ps_active_operation
     self; ps_operation_epoch := ps_operation_epoch self; ps_waiting := ps_waiting self;
     ps_world := ps_world self; ps_trace := ps_trace self; ps_others := ps_others self;
     ps_turns := ps_turns self |}.
Definition ps_set_status (v : ProductionNetworkStatus) (self : ProductionNetworkingService) : ProductionNetworkingService :=
  {| ps_config := ps_config self; ps_gate := ps_gate self; ps_start_consumed :=
     ps_start_consumed self; ps_routes := ps_routes self; ps_routes_active :=
     ps_routes_active self; ps_status := v; ps_route_heartbeat := ps_route_heartbeat
     self; ps_lifecycle := ps_lifecycle self; ps_request_sequence := ps_request_sequence
     self; ps_operations := ps_operations self; ps_active_operation :=
     ps_active_operation self; ps_operation_epoch := ps_operation_epoch self; ps_waiting
     := ps_waiting self; ps_world := ps_world self; ps_trace := ps_trace self; ps_others
     := ps_others self; ps_turns := ps_turns self |}.
Definition ps_set_route_heartbeat (v : option RouteMonitor) (self : ProductionNetworkingService) : ProductionNetworkingService :=
  {| ps_config := ps_config self; ps_gate := ps_gate self; ps_start_consumed :=
     ps_start_consumed self; ps_routes := ps_routes self; ps_routes_active :=
     ps_routes_active self; ps_status := ps_status self; ps_route_heartbeat := v;
     ps_lifecycle := ps_lifecycle self; ps_request_sequence := ps_request_sequence self;
     ps_operations := ps_operations self; ps_active_operation := ps_active_operation
     self; ps_operation_epoch := ps_operation_epoch self; ps_waiting := ps_waiting self;
     ps_world := ps_world self; ps_trace := ps_trace self; ps_others := ps_others self;
     ps_turns := ps_turns self |}.
Definition ps_set_lifecycle (v : bool) (self : ProductionNetworkingService) : ProductionNetworkingService :=
  {| ps_config := ps_config self; ps_gate := ps_gate self; ps_start_consumed :=
     ps_start_consumed self; ps_routes := ps_routes self; ps_routes_active :=
     ps_routes_active self; ps_status := ps_status self; ps_route_heartbeat :=
     ps_route_heartbeat self; ps_lifecycle := v; ps_request_sequence :=
     ps_request_sequence self; ps_operations := ps_operations self; ps_active_operation
     := ps_active_operation self; ps_operation_epoch := ps_operation_epoch self;
     ps_waiting := ps_waiting self; ps_world := ps_world self; ps_trace := ps_trace
     self; ps_others := ps_others self; ps_turns := ps_turns self |}.
Definition ps_set_request_sequence (v : Z) (self : ProductionNetworkingService) : ProductionNetworkingService :=
  {| ps_config := ps_config self; ps_gate := ps_gate self; ps_start_consumed :=
     ps_start_consumed self; ps_routes := ps_routes self; ps_routes_active :=
     ps_routes_active self; ps_status := ps_status self; ps_route_heartbeat :=
     ps_route_heartbeat self; ps_lifecycle := ps_lifecycle self; ps_request_sequence :=
     v; ps_operations := ps_operations self; ps_active_operation := ps_active_operation
     self; ps_operation_epoch := ps_operation_epoch self; ps_waiting := ps_waiting self;
     ps_world := ps_world self; ps_trace := ps_trace self; ps_others := ps_others self;
     ps_turns := ps_turns self |}.
Definition ps_set_operations (v : gmap Z ProductionOperation) (self : ProductionNetworkingService) : ProductionNetworkingService :=
  {| ps_config := ps_config self; ps_gate := ps_gate self; ps_start_consumed :=
     ps_start_consumed self; ps_routes := ps_routes self; ps_routes_active :=
     ps_routes_active self; ps_status := ps_status self; ps_route_heartbeat :=
     ps_route_heartbeat self; ps_lifecycle := ps_lifecycle self; ps_request_sequence :=
     ps_request_sequence self; ps_operations := v; ps_active_operation :=
     ps_active_operation self; ps_operation_epoch := ps_operation_epoch self; ps_waiting
     := ps_waiting self; ps_world := ps_world self; ps_trace := ps_trace self; ps_others
     := ps_others self; ps_turns := ps_turns self |}.
Definition ps_set_active_operation (v : option Z) (self : ProductionNetworkingService) : ProductionNetworkingService :=
  {| ps_config := ps_config self; ps_gate := ps_gate self; ps_start_consumed :=
     ps_start_consumed self; ps_routes := ps_routes self; ps_routes_active :=
     ps_routes_active self; ps_status := ps_status self; ps_route_heartbeat :=
     ps_route_heartbeat self; ps_lifecycle := ps_lifecycle self; ps_request_sequence :=
     ps_request_sequence self; ps_operations := ps_operations self; ps_active_operation
     := v; ps_operation_epoch := ps_operation_epoch self; ps_waiting := ps_waiting self;
     ps_world := ps_world self; ps_trace := ps_trace self; ps_others := ps_others self;
     ps_turns := ps_turns self |}.
Definition ps_set_operation_epoch (v : Z) (self : ProductionNetworkingService) : ProductionNetworkingService :=
  {| ps_config := ps_config self; ps_gate := ps_gate self; ps_start_consumed :=
     ps_start_consumed self; ps_routes := ps_routes self; ps_routes_active :=
     ps_routes_active self; ps_status := ps_status self; ps_route_heartbeat :=
     ps_route_heartbeat self; ps_lifecycle := ps_lifecycle self; ps_request_sequence :=
     ps_request_sequence self; ps_operations := ps_operations self; ps_active_operation
     := ps_active_operation self; ps_operation_epoch := v; ps_waiting := ps_waiting
     self; ps_world := ps_world self; ps_trace := ps_trace self; ps_others := ps_others
     self; ps_turns := ps_turns self |}.
Definition ps_set_waiting (v : list (option Z * option NetworkErrorCode)) (self : ProductionNetworkingService) : ProductionNetworkingService :=
  {| ps_config := ps_config self; ps_gate := ps_gate self; ps_start_consumed :=
     ps_start_consumed self; ps_routes := ps_routes self; ps_routes_active :=
     ps_routes_active self; ps_status := ps_status self; ps_route_heartbeat :=
     ps_route_heartbeat self; ps_lifecycle := ps_lifecycle self; ps_request_sequence :=
     ps_request_sequence self; ps_operations := ps_operations self; ps_active_operation
     := ps_active_operation self; ps_operation_epoch := ps_operation_epoch self;
     ps_waiting := v; ps_world := ps_world self; ps_trace := ps_trace self; ps_others :=
     ps_others self; ps_turns := ps_turns self |}.
Definition ps_set_world (v : X) (self : ProductionNetworkingService) : ProductionNetworkingService :=
  {| ps_config := ps_config self; ps_gate := ps_gate self; ps_start_consumed :=
     ps_start_consumed self; ps_routes := ps_routes self; ps_routes_active :=
     ps_routes_active self; ps_status := ps_status self; ps_route_heartbeat :=
     ps_route_heartbeat self; ps_lifecycle := ps_lifecycle self; ps_request_sequence :=
     ps_request_sequence self; ps_operations := ps_operations self; ps_active_operation
     := ps_active_operation self; ps_operation_epoch := ps_operation_epoch self;
     ps_waiting := ps_waiting self; ps_world := v; ps_trace := ps_trace self; ps_others
     := ps_others self; ps_turns := ps_turns self |}.
Definition ps_set_trace (v : list ServiceCall) (self : ProductionNetworkingService) : ProductionNetworkingService :=
  {| ps_config := ps_config self; ps_gate := ps_gate self; ps_start_consumed :=
     ps_start_consumed self; ps_routes := ps_routes self; ps_routes_active :=
     ps_routes_active self; ps_status := ps_status self; ps_route_heartbeat :=
     ps_route_heartbeat self; ps_lifecycle := ps_lifecycle self; ps_request_sequence :=
     ps_request_sequence self; ps_operations := ps_operations self; ps_active_operation
     := ps_active_operation self; ps_operation_epoch := ps_operation_epoch self;
     ps_waiting := ps_waiting self; ps_world := ps_world self; ps_trace := v; ps_others
     := ps_others self; ps_turns := ps_turns self |}.
Definition ps_set_others (v : list (list Intrusion)) (self : ProductionNetworkingService) : ProductionNetworkingService :=
  {| ps_config := ps_config self; ps_gate := ps_gate self; ps_start_consumed :=
     ps_start_consumed self; ps_routes := ps_routes self; ps_routes_active :=
     ps_routes_active self; ps_status := ps_status self; ps_route_heartbeat :=
     ps_route_heartbeat self; ps_lifecycle := ps_lifecycle self; ps_request_sequence :=
     ps_request_sequence self; ps_operations := ps_operations self; ps_active_operation
     := ps_active_operation self; ps_operation_epoch := ps_operation_epoch self;
     ps_waiting := ps_waiting self; ps_world := ps_world self; ps_trace := ps_trace
     self; ps_others := v; ps_turns := ps_turns self |}.
Definition ps_set_turns (v : list MonitorTurn) (self : ProductionNetworkingService) : ProductionNetworkingService :=
  {| ps_config := ps_config self; ps_gate := ps_gate self; ps_start_consumed :=
     ps_start_consumed self; ps_routes := ps_routes self; ps_routes_active :=
     ps_routes_active self; ps_status := ps_status self; ps_route_heartbeat :=
     ps_route_heartbeat self; ps_lifecycle := ps_lifecycle self; ps_request_sequence :=
     ps_request_sequence self; ps_operations := ps_operations self; ps_active_operation
     := ps_active_operation self; ps_operation_epoch := ps_operation_epoch self;
     ps_waiting := ps_waiting self; ps_world := ps_world self; ps_trace := ps_trace
     self; ps_others := ps_others self; ps_turns := v |}.

Notation SV := ProductionNetworkingService.
Notation SM A := (Meth SV A).

Definition on_gate {A} (m : Meth Gate A) : SM A := zoom ps_gate ps_set_gate m.
Definition on_status (f : ProductionNetworkStatus -> ProductionNetworkStatus) : SM unit :=
  modify (fun s => ps_set_status (f (ps_status s)) s).
Definition on_world {A} (m : Meth X A) : SM A := zoom ps_world ps_set_world m.
Definition on_routes {A} (m : Meth B A) : SM A := zoom ps_routes ps_set_routes m.
Definition note (call : ServiceCall) : SM unit :=
  modify (fun s => ps_set_trace (ps_trace s ++ [call]) s).

Definition set_status (state : NetworkState) (operation_id : option string)
  (active_transport : option TransportKind) (health : option NetworkHealth)
  (last_error : option NetworkErrorCode) : SM unit :=
  on_status (fun st =>
    {| pn_state := state; pn_sidecar_state := pn_sidecar_state st; pn_site := pn_site st;
       pn_active_transport := active_transport; pn_health := health;
       pn_operation_id := operation_id; pn_last_error := last_error |}).

(** ** calls of others *)

(** The operation behind an [Arc], by its epoch. *)
Definition operation_of (epoch : Z) (s : SV) : ProductionOperation :=
  match ps_operations s !! epoch with
  | Some operation => operation
  | None => ProductionOperation_new EmptyString epoch
  end.
Definition on_operation (epoch : Z) (f : ProductionOperation -> ProductionOperation) : SM unit :=
  modify (fun s => ps_set_operations (<[epoch := f (operation_of epoch s)]> (ps_operations s)) s).

Definition signal_route_heartbeat : SM unit :=
  modify (fun s => ps_set_route_heartbeat (mo_set_cancelled true <$> ps_route_heartbeat s) s).

(** The operation with its lease: the lease is dropped when the call is over. *)
Definition with_lease {A} (m : SM A) : SM A :=
  on_gate begin_mutation ;!
  let! r := attempt m in
  let! self := get in
  on_gate (drop_lease (mg_generation (ps_gate self))) ;!
  lift r.

Definition cancellable_state (state : NetworkState) : bool :=
  match state with
  | Authenticating | FetchingConfig | PreparingTunnel | ConnectingPrimary | Reconnecting => true
  | _ => false
  end.

Definition service_cancel (operation_id : string) : SM unit :=
  with_lease (
    let! self := get in
    match ps_active_operation self with
    | None => raise OperationCancelled
    | Some epoch =>
        if negb (bool_decide (op_id (operation_of epoch self) = operation_id))
        then raise OperationCancelled
        else if negb (bool_decide (pn_operation_id (ps_status self) = Some operation_id))
        then raise OperationCancelled
        else if negb (cancellable_state (pn_state (ps_status self)))
        then raise InvalidStateTransition
        else
          on_operation epoch request_cancel ;!
          on_status (pn_set_state Disconnecting) ;!
          signal_route_heartbeat ;!
          attempt (on_world (ch_cancel operation_id)) ;!
          ret tt
    end).

(** The first part of [disconnect], up to its first await: the intent becomes visible. *)
Definition disconnect_request (operation_id : string)
  : SM (option Z * option NetworkErrorCode) :=
  if negb (valid_production_operation_id operation_id) then raise InvalidConfiguration else
  on_gate begin_mutation ;!
  let! self := get in
  match ps_active_operation self with
  | None => ret (None, None)
  | Some epoch =>
      let primary_error := pn_last_error (ps_status self) in
      on_operation epoch request_disconnect ;!
      (if bool_decide (pn_operation_id (ps_status self) = Some (op_id (operation_of epoch self)))
         && negb (bool_decide (pn_state (ps_status self) = Disconnected))
       then on_status (pn_set_state Disconnecting) else ret tt) ;!
      signal_route_heartbeat ;!
      attempt (on_world (ch_cancel (op_id (operation_of epoch self)))) ;!
      ret (Some epoch, primary_error)
  end.

Definition intrude (other : Intrusion) (s : SV) : SV :=
  match other with
  | OtherCancel operation_id => (service_cancel operation_id s).2
  | OtherDisconnect operation_id =>
      match disconnect_request operation_id s with
      | (Ok pending, s) => ps_set_waiting (ps_waiting s ++ [pending]) s
      | (Err _, s) => s
      end
  end.

(** An await: whatever others do now. *)
Definition yield_now : SM unit :=
  modify (fun s => match ps_others s with
                   | [] => s
                   | now :: later => foldl (fun s other => intrude other s) (ps_set_others later s) now
                   end).

(** ** calls of the controller *)

(** A call of the controller; a bounded one runs under [tokio::time::timeout]. *)
Definition controller_call {A} (bounded : bool) (call : Meth X A) (entry : Res A -> ServiceCall) : SM A :=
  yield_now ;!
  let! answer := attempt (on_world call) in
  let! cut_off := (if bounded then on_world (fun x => let (c, x') := su_cut_off x in (Ok c, x')) else ret false) in
  let answer := if (cut_off : bool) then Err OperationTimedOut else answer in
  note (entry answer) ;!
  yield_now ;!
  lift answer.

Definition controller_request (bounded : bool) (operation_id : string) (rq : IpcRequest) : SM IpcResponse :=
  let! self := get in
  controller_call bounded (ch_request operation_id rq (sc_timeout (ps_config self)))
    (CallIpc (rq_payload rq)).

Definition controller_sample_health (bounded : bool) (operation_id : string) (rq : IpcRequest)
  : SM IpcResponse :=
  let! self := get in
  controller_call bounded (ch_sample_health operation_id rq (sc_timeout (ps_config self)))
    (CallIpc (rq_payload rq)).

Definition controller_shutdown (bounded : bool) : SM unit :=
  controller_call bounded ch_shutdown CallShutdown.

(** [next_request_id]: the counter wraps, the value printed does not. *)
Definition next_request_id (action : string) : SM string :=
  if bool_decide (action = EmptyString) || (32 <? len action) || negb (all_id_bytes action)
  then raise InvalidConfiguration else
  let! self := get in
  modify (ps_set_request_sequence ((ps_request_sequence self + 1) mod 2 ^ 64)) ;!
  let value := saturating_add u64_max (ps_request_sequence self) 1 in
  let request_id := ("kyclash." ++ action ++ "." ++ print_uint value)%string in
  if valid_ipc_id request_id then ret request_id else raise InvalidConfiguration.

Definition service_request (operation_id action : string) (payload : IpcRequestPayload) : SM unit :=
  let! request_id := next_request_id action in
  let! response := controller_request false operation_id (request request_id payload) in
  let! answer := lift (response_payload response) in
  match answer with Acknowledged => ret tt | _ => raise InvalidStateTransition end.

Definition request_status (bounded : bool) (operation_id action : string) (payload : IpcRequestPayload)
  : SM NetworkStatus :=
  let! request_id := next_request_id action in
  let! response := controller_request bounded operation_id (request request_id payload) in
  let! answer := lift (response_payload response) in
  match answer with Status status => ret status | _ => raise InvalidStateTransition end.

(** A request that is confirmed by asking for the status when it is refused. *)
Definition confirmed_disconnected (bounded : bool) (operation_id action status_action : string)
  (payload : IpcRequestPayload) : SM unit :=
  let! answer := attempt (request_status bounded operation_id action payload) in
  match answer with
  | Ok status => lift (validate_carrier_disconnected status)
  | Err InvalidStateTransition =>
      let! status := request_status bounded operation_id status_action GetStatus in
      lift (validate_carrier_disconnected status)
  | Err error => raise error
  end.

Definition disconnect_carrier (bounded : bool) (operation_id : string) : SM unit :=
  confirmed_disconnected bounded operation_id "carrier.disconnect" "carrier.status" DisconnectTransport.

Definition stop_tunnel (bounded : bool) (operation_id : string) : SM unit :=
  confirmed_disconnected bounded operation_id "tunnel.stop" "tunnel.status" StopTunnel.

(** ** calls of the route boundary *)

(** [run_tracked_route_call]: a ticket is held while the blocking call runs. *)
Definition tracked_route_call (call : Meth B unit) (entry : Res unit -> ServiceCall) : SM unit :=
  let! id := on_gate queue_route_task in
  yield_now ;!
  let! answer := attempt (on_routes call) in
  note (entry answer) ;!
  on_gate (finish_route_task id) ;!
  yield_now ;!
  lift answer.

Inductive ControllerStartAuthority : Type :=
| AuthReusable
| AuthBrokerBound (receipt : ControllerStartReceipt).

Definition apply_routes (operation_id : string) (tunnel : TunnelDeviceFacts)
  (mihomo : MihomoTunSnapshot) (authority : ControllerStartAuthority) : SM unit :=
  let! self := get in
  let profile := sc_profile (ps_config self) in
  let revision := sc_profile_revision (ps_config self) in
  tracked_route_call
    (match authority with
     | AuthReusable => rb_apply profile operation_id tunnel revision mihomo
     | AuthBrokerBound receipt => rb_apply_broker_bound profile operation_id tunnel revision mihomo receipt
     end) CallApplyRoutes.

Definition rollback_routes (operation_id : string) : SM unit :=
  tracked_route_call (rb_rollback operation_id) CallRollbackRoutes.

(** ** the operation that runs *)

(** [self.lifecycle.lock().await]: whoever waits for the lock does so at this await. *)
Definition with_lifecycle {A} (m : SM A) : SM A :=
  yield_now ;!
  modify (ps_set_lifecycle true) ;!
  let! r := attempt m in
  modify (ps_set_lifecycle false) ;!
  lift r.

Definition ensure_operation_active (epoch : Z) : SM unit :=
  let! self := get in
  let operation := operation_of epoch self in
  if is_stopping operation
    || negb (bool_decide (ps_active_operation self = Some epoch))
    || negb (bool_decide (pn_operation_id (ps_status self) = Some (op_id operation)))
    || bool_decide (pn_state (ps_status self) = Disconnecting)
  then raise OperationCancelled
  else ret tt.

Definition clear_active_operation (epoch : Z) : SM unit :=
  modify (fun s => if bool_decide (ps_active_operation s = Some epoch)
                   then ps_set_active_operation None s else s).

(** ** the monitor *)

(** The monitor that is installed; its turns run only while it is. *)
Definition on_monitor (f : RouteMonitor -> RouteMonitor) : SM unit :=
  modify (fun s => ps_set_route_heartbeat (f <$> ps_route_heartbeat s) s).

Definition ensure_monitor_operation_active (monitor : RouteMonitor) : SM unit :=
  let! self := get in
  let cancelled := match ps_route_heartbeat self with
                   | Some now => mo_cancelled now | None => true end in
  if cancelled then raise OperationCancelled
  else ensure_operation_active (mo_operation monitor).

Definition monitor_carrier_health (operation_id : string) (transport : TransportKind)
  : SM NetworkHealth :=
  let! request_id := next_request_id (health_action transport) in
  let! response := controller_sample_health true operation_id (request request_id SampleHealth) in
  let! answer := lift (response_payload response) in
  match answer with
  | Health health =>
      lift (NetworkHealth_validate health) ;!
      if negb (healthy health) then raise (unavailable transport) else ret health
  | _ => raise InvalidStateTransition
  end.

(** [cleanup_controller], and the teardown below the routes in [cleanup]. *)
Definition teardown_controller (bounded : bool) (operation_id : string) (controller_usable : bool) : SM unit :=
  let! usable :=
    (if controller_usable then
       let! answer := attempt (disconnect_carrier bounded operation_id) in
       ret (match answer with Ok _ => true | Err error => negb (fatal_sidecar_error error) end)
     else ret false) in
  (if (usable : bool) then attempt (stop_tunnel bounded operation_id) ;! ret tt else ret tt) ;!
  controller_shutdown bounded.

Definition monitor_failure_cleanup (monitor : RouteMonitor) (failure : NetworkErrorCode) : SM unit :=
  let! self := get in
  let operation := operation_of (mo_operation monitor) self in
  let failure := authoritative_operation_error failure (is_stopping operation) in
  if is_stopping operation
    || negb (bool_decide (pn_operation_id (ps_status self) = Some (op_id operation)))
    || bool_decide (pn_state (ps_status self) = Disconnected)
    || bool_decide (pn_state (ps_status self) = Disconnecting)
  then ret tt
  else
    on_status (fun st => pn_set_last_error (Some failure) (pn_set_state Error st)) ;!
    (if fatal_sidecar_error failure then on_status (pn_set_sidecar_state CrashLoop) else ret tt) ;!
    with_lifecycle (
    let! self := get in
    if is_stopping (operation_of (mo_operation monitor) self)
      || negb (ps_routes_active self)
      || negb (bool_decide (pn_operation_id (ps_status self) = Some (op_id operation)))
    then ret tt
    else
      let! rollback := attempt (rollback_routes (op_id operation)) in
      match rollback with
      | Ok _ =>
          modify (ps_set_routes_active false) ;!
          let! cleanup :=
            attempt (teardown_controller true (op_id operation) (negb (fatal_sidecar_error failure))) in
          match cleanup with
          | Ok _ =>
              on_status (fun st =>
                pn_set_last_error (Some failure) (pn_set_sidecar_state Stopped (pn_set_health None
                  (pn_set_active_transport None (pn_set_state Error st)))))
          | Err cleanup_error =>
              on_status (fun st => pn_set_last_error
                (Some (if fatal_sidecar_error failure then failure else cleanup_error))
                (pn_set_state Error st))
          end
      | Err rollback_error =>
          on_status (fun st => pn_set_last_error
            (Some (if fatal_sidecar_error failure then failure else rollback_error))
            (pn_set_state Error st))
      end).

(** The status must still be this operation's; then the carrier is gone from it. *)
Definition forget_carrier (operation_id : string) : SM unit :=
  let! self := get in
  if negb (bool_decide (pn_operation_id (ps_status self) = Some operation_id))
  then raise OperationCancelled
  else on_status (fun st => pn_set_health None (pn_set_active_transport None st)).

(** One carrier of the fallback order: [None] when the next one is to be tried. *)
Definition try_carrier (monitor : RouteMonitor) (operation_id : string) (transport : TransportKind)
  : SM (option NetworkHealth) :=
  ensure_monitor_operation_active monitor ;!
  let! connect := attempt (
    let! status := request_status false operation_id (carrier_action transport) (ConnectTransport transport) in
    let! self := get in
    lift (validate_connected_status status (sc_profile (ps_config self)) transport)) in
  let! health :=
    match connect with
    | Ok _ =>
        ensure_monitor_operation_active monitor ;!
        let! health := attempt (monitor_carrier_health operation_id transport) in
        match health with
        | Ok health => ensure_monitor_operation_active monitor ;! ret (Some health)
        | Err OperationCancelled => raise OperationCancelled
        | Err error => if fatal_sidecar_error error then raise error else ret None
        end
    | Err OperationCancelled => raise OperationCancelled
    | Err error => if fatal_sidecar_error error then raise error else ret None
    end in
  match health with
  | Some health => ret (Some health)
  | None =>
      disconnect_carrier false operation_id ;!
      forget_carrier operation_id ;!
      ret None
  end.

Fixpoint try_fallbacks (monitor : RouteMonitor) (operation_id : string)
  (transports : list TransportKind) : SM (TransportKind * NetworkHealth) :=
  match transports with
  | [] => raise FallbackTransportUnavailable
  | transport :: transports =>
      let! health := try_carrier monitor operation_id transport in
      match health with
      | Some health => ret (transport, health)
      | None => try_fallbacks monitor operation_id transports
      end
  end.

(** The carriers after the failed one, [None] when it is not in the profile. *)
Fixpoint after_transport (failed : TransportKind) (ordered : list TransportKind)
  : option (list TransportKind) :=
  match ordered with
  | [] => None
  | transport :: ordered =>
      if bool_decide (transport = failed) then Some ordered else after_transport failed ordered
  end.

Definition monitor_fallback_after_health_failure (monitor : RouteMonitor) (operation_id : string)
  (failed_transport : TransportKind) (failure : NetworkErrorCode)
  : SM (TransportKind * NetworkHealth) :=
  with_lifecycle (
  ensure_monitor_operation_active monitor ;!
  yield_now ;!
  on_status (fun st => pn_set_last_error (Some failure) (pn_set_state Reconnecting st)) ;!
  disconnect_carrier false operation_id ;!
  forget_carrier operation_id ;!
  let! self := get in
  let carriers := transports (sc_profile (ps_config self)) in
  match after_transport failed_transport (primary carriers :: fallbacks carriers) with
  | None => raise InvalidConfiguration
  | Some rest => try_fallbacks monitor operation_id rest
  end).

(** [break] of the health loop: both loops are to end. *)
Definition end_health : SM unit :=
  on_monitor (fun mo => mo_set_health_done true (mo_set_cancelled true mo)).
Definition end_lease : SM unit := on_monitor (mo_set_lease_done true).

(** Run [m]; on an error of it, do [otherwise] instead of what follows. *)
Definition or_else {A} (m : SM A) (otherwise : NetworkErrorCode -> SM unit) (k : A -> SM unit) : SM unit :=
  let! r := attempt m in
  match r with Ok a => k a | Err error => otherwise error end.

(** Publish a health sample under the operation, or end the loop. *)
Definition publish (monitor : RouteMonitor) (operation_id : string)
  (f : ProductionNetworkStatus -> ProductionNetworkStatus) (more : SM unit) : SM unit :=
  or_else (ensure_monitor_operation_active monitor) (fun _ => end_health) (fun _ =>
    yield_now ;!
    let! self := get in
    if negb (bool_decide (pn_operation_id (ps_status self) = Some operation_id)) then end_health
    else on_status f ;! more).

Definition published_fallback (fallback : TransportKind) (health : NetworkHealth)
  (error : NetworkErrorCode) (st : ProductionNetworkStatus) : ProductionNetworkStatus :=
  pn_set_last_error (Some error) (pn_set_health (Some health)
    (pn_set_active_transport (Some fallback) (pn_set_state DegradedFallback st))).

(** What follows a sample that was too bad: count it, and fall back at the threshold. *)
Definition after_bad_health (monitor : RouteMonitor) (operation_id : string)
  (error : NetworkErrorCode) : SM unit :=
  let failures := saturating_add u8_max (mo_failures monitor) 1 in
  on_monitor (mo_set_failures failures) ;!
  let! self := get in
  if failures <? fallback_threshold (policy (sc_profile (ps_config self))) then ret tt else
  let! outcome :=
    attempt (monitor_fallback_after_health_failure monitor operation_id (mo_transport monitor) error) in
  let! self := get in
  match outcome with
  | Ok (fallback, health) =>
      publish monitor operation_id (published_fallback fallback health error)
        (on_monitor (fun mo => mo_set_failures 0 (mo_set_transport fallback mo)))
  | Err fallback_error =>
      if bool_decide (fallback_error = OperationCancelled)
        && match ps_route_heartbeat self with Some now => mo_cancelled now | None => true end
      then end_health
      else monitor_failure_cleanup monitor fallback_error ;! end_health
  end.

(** One iteration of the health loop. *)
Definition health_turn (monitor : RouteMonitor) : SM unit :=
  let! self := get in
  let operation_id := op_id (operation_of (mo_operation monitor) self) in
  let stop := fun _ : NetworkErrorCode => end_health in
  let fail := fun error => monitor_failure_cleanup monitor error ;! end_health in
  or_else (ensure_monitor_operation_active monitor) stop (fun _ =>
  yield_now ;!
  or_else (ensure_monitor_operation_active monitor) stop (fun _ =>
  let! polled := attempt (on_world ch_poll) in
  let! cut_off := on_world (fun x => let (c, x') := su_cut_off x in (Ok c, x')) in
  yield_now ;!
  or_else (ensure_monitor_operation_active monitor) stop (fun _ =>
  or_else (lift (if (cut_off : bool) then Err OperationTimedOut else polled)) fail (fun sidecar_state =>
  let! self := get in
  if negb (bool_decide (pn_operation_id (ps_status self) = Some operation_id)) then end_health else
  on_status (pn_set_sidecar_state sidecar_state) ;!
  if negb (bool_decide (sidecar_state = Running)) then fail SidecarUnavailable else
  let! health_result := attempt (monitor_carrier_health operation_id (mo_transport monitor)) in
  or_else (ensure_monitor_operation_active monitor) stop (fun _ =>
  match health_result with
  | Ok health =>
      publish monitor operation_id (pn_set_health (Some health)) (on_monitor (mo_set_failures 0))
  | Err PrimaryTransportUnavailable => after_bad_health monitor operation_id PrimaryTransportUnavailable
  | Err FallbackTransportUnavailable => after_bad_health monitor operation_id FallbackTransportUnavailable
  | Err error => fail error
  end))))).

Definition monitor_route_lease_state_active (self : SV) (operation_id : string) : bool :=
  bool_decide (pn_operation_id (ps_status self) = Some operation_id) &&
  match pn_state (ps_status self) with
  | ConnectingPrimary | ConnectedPrimary | DegradedFallback | Reconnecting => true
  | _ => false
  end.

(** [monitor_route_heartbeat]: the heartbeat is not traced. *)
Definition monitor_route_heartbeat (operation_id : string) : SM unit :=
  let! id := on_gate queue_route_task in
  yield_now ;!
  let! answer := attempt (on_routes (rb_heartbeat operation_id)) in
  on_gate (finish_route_task id) ;!
  yield_now ;!
  lift answer.

(** One iteration of the lease loop. *)
Definition lease_turn (monitor : RouteMonitor) : SM unit :=
  yield_now ;!
  let! self := get in
  let operation_id := op_id (operation_of (mo_operation monitor) self) in
  or_else (ensure_monitor_operation_active monitor) (fun _ => end_lease) (fun _ =>
  let! self := get in
  if negb (monitor_route_lease_state_active self operation_id) then end_lease else
  let! result := attempt (monitor_route_heartbeat operation_id) in
  or_else (ensure_monitor_operation_active monitor) (fun _ => end_lease) (fun _ =>
  match result with
  | Ok _ => ret tt
  | Err error =>
      on_monitor (mo_set_cancelled true) ;!
      attempt (on_world (ch_cancel operation_id)) ;!
      monitor_failure_cleanup monitor error ;!
      end_lease
  end)).

(** A turn of the monitor, if there is one and the loop has not ended. *)
Definition monitor_turn (turn : MonitorTurn) : SM unit :=
  let! self := get in
  match ps_route_heartbeat self with
  | None => ret tt
  | Some monitor =>
      match turn with
      | HealthTurn => if mo_health_done monitor then ret tt else health_turn monitor
      | LeaseTurn => if mo_lease_done monitor then ret tt else lease_turn monitor
      end
  end.

Fixpoint monitor_turns (turns : list MonitorTurn) : SM unit :=
  match turns with
  | [] => ret tt
  | turn :: turns => attempt (monitor_turn turn) ;! monitor_turns turns
  end.

(** [stop_route_heartbeat]: raise the flag, let the monitor run until the deadline, and
    take it out when both its loops have ended. *)
Definition stop_route_heartbeat : SM unit :=
  yield_now ;!
  signal_route_heartbeat ;!
  let! self := get in
  modify (ps_set_turns []) ;!
  monitor_turns (ps_turns self) ;!
  let! self := get in
  match ps_route_heartbeat self with
  | None => ret tt
  | Some monitor =>
      if mo_health_done monitor && mo_lease_done monitor
      then modify (ps_set_route_heartbeat None)
      else raise OperationTimedOut
  end.

Definition start_route_heartbeat (epoch : Z) (transport : TransportKind) : SM unit :=
  let! self := get in
  if is_some (ps_route_heartbeat self) then raise InvalidStateTransition
  else modify (ps_set_route_heartbeat (Some
         {| mo_operation := epoch; mo_cancelled := false; mo_transport := transport;
            mo_failures := 0; mo_health_done := false; mo_lease_done := false |})).

(** ** connecting *)

Definition prepare_tunnel (operation_id : string) : SM TunnelDeviceFacts :=
  let request_id := (operation_id ++ ".prepare")%string in
  let! response := controller_request false operation_id (request request_id PrepareTunnel) in
  let! answer := lift (response_payload response) in
  match answer with
  | TunnelPrepared facts =>
      let! self := get in
      lift (TunnelDeviceFacts_validate facts (sc_instance_id (ps_config self)) request_id) ;!
      ret facts
  | _ => raise InvalidStateTransition
  end.

Definition connect_and_gate (operation_id : string) (transport : TransportKind) : SM NetworkHealth :=
  let! status := request_status false operation_id (carrier_action transport) (ConnectTransport transport) in
  let! self := get in
  lift (validate_connected_status status (sc_profile (ps_config self)) transport) ;!
  let! request_id := next_request_id (health_action transport) in
  let! response := controller_sample_health false operation_id (request request_id SampleHealth) in
  let! answer := lift (response_payload response) in
  match answer with
  | Health health =>
      lift (NetworkHealth_validate health) ;!
      if negb (healthy health) then raise PrimaryTransportUnavailable else ret health
  | _ => raise InvalidStateTransition
  end.

(** The loop of [connect_inner] over the carriers; [last_error] when none is left. *)
Fixpoint connect_carriers (epoch : Z) (operation_id : string) (last_error : NetworkErrorCode)
  (transports : list TransportKind) : SM (TransportKind * NetworkHealth) :=
  match transports with
  | [] => raise last_error
  | transport :: transports =>
      let! gated := attempt (connect_and_gate operation_id transport) in
      match gated with
      | Ok health => ensure_operation_active epoch ;! ret (transport, health)
      | Err OperationCancelled => raise OperationCancelled
      | Err error =>
          if fatal_sidecar_error error then raise error else
          disconnect_carrier false operation_id ;!
          ensure_operation_active epoch ;!
          connect_carriers epoch operation_id error transports
      end
  end.

(** [start] or the one-shot [start_broker_bound], as the mode says. *)
Definition start_controller : SM ControllerStartAuthority :=
  let! self := get in
  if sc_broker_bound (ps_config self) then
    modify (ps_set_start_consumed true) ;!
    if ps_start_consumed self then raise InvalidStateTransition else
    yield_now ;!
    let! receipt := attempt (on_world ch_start_broker_bound) in
    yield_now ;!
    let! receipt := lift receipt in
    ret (AuthBrokerBound receipt)
  else
    yield_now ;!
    let! started := attempt (on_world ch_start) in
    yield_now ;!
    lift started ;!
    ret AuthReusable.

(** [mihomo_source.snapshot] under a timeout. *)
Definition mihomo_snapshot_of (interface_name : string) : SM MihomoTunSnapshot :=
  yield_now ;!
  let! snapshot := attempt (on_world (su_mihomo interface_name)) in
  let! cut_off := on_world (fun x => let (c, x') := su_cut_off x in (Ok c, x')) in
  yield_now ;!
  lift (if (cut_off : bool) then Err OperationTimedOut else snapshot).

(** Cancellation, disconnection and this publication decide under the same locks. *)
Definition commit_connected (epoch : Z) (state : NetworkState) (transport : TransportKind)
  (health : NetworkHealth) : SM unit :=
  let! self := get in
  let operation := operation_of epoch self in
  if is_stopping operation
    || negb (bool_decide (ps_active_operation self = Some epoch))
    || negb (bool_decide (pn_operation_id (ps_status self) = Some (op_id operation)))
    || negb (bool_decide (pn_state (ps_status self) = ConnectingPrimary))
  then raise OperationCancelled
  else
    start_route_heartbeat epoch transport ;!
    set_status state (Some (op_id operation)) (Some transport) (Some health) None.

Definition connect_inner (epoch : Z) : SM unit :=
  let! self := get in
  let operation_id := op_id (operation_of epoch self) in
  let profile := sc_profile (ps_config self) in
  let! start_authority := start_controller in
  ensure_operation_active epoch ;!
  yield_now ;!
  on_status (pn_set_sidecar_state Running) ;!
  service_request operation_id "profile.apply" (ApplyProfile profile) ;!
  ensure_operation_active epoch ;!
  yield_now ;!
  set_status PreparingTunnel (Some operation_id) None None None ;!
  let! tunnel := prepare_tunnel operation_id in
  ensure_operation_active epoch ;!
  yield_now ;!
  set_status ConnectingPrimary (Some operation_id) None None None ;!
  let! selected := connect_carriers epoch operation_id PrimaryTransportUnavailable
    (primary (transports profile) :: fallbacks (transports profile)) in
  ensure_operation_active epoch ;!
  let! mihomo := mihomo_snapshot_of (interface_name tunnel) in
  ensure_operation_active epoch ;!
  lift (validate_for mihomo (interface_name tunnel)) ;!
  ensure_operation_active epoch ;!
  modify (ps_set_routes_active true) ;!
  apply_routes operation_id tunnel mihomo start_authority ;!
  ensure_operation_active epoch ;!
  yield_now ;!
  commit_connected epoch (connected_state profile selected.1) selected.1 selected.2.

(** From the outside in: monitor, routes, carrier, tunnel, sidecar. *)
Definition cleanup (epoch : Z) (controller_usable : bool) : SM unit :=
  let! self := get in
  let operation_id := op_id (operation_of epoch self) in
  stop_route_heartbeat ;!
  let! self := get in
  (if ps_routes_active self
   then rollback_routes operation_id ;! modify (ps_set_routes_active false)
   else ret tt) ;!
  let! shutdown_result := attempt (teardown_controller false operation_id controller_usable) in
  on_status (pn_set_sidecar_state (if is_ok shutdown_result then Stopped else CrashLoop)) ;!
  lift shutdown_result.

(** [connect] below its admission, without the lease and the lock. *)
Definition connect_locked (operation_id : string) : SM ProductionNetworkStatus :=
  let! self := get in
  if negb (bool_decide (pn_state (ps_status self) = Disconnected))
  then raise InvalidStateTransition else
  stop_route_heartbeat ;!
  let! self := get in
  match checked_add u64_max (ps_operation_epoch self) 1 with
  | None => raise InvalidStateTransition
  | Some epoch =>
      modify (ps_set_operation_epoch epoch) ;!
      on_operation epoch (fun _ => ProductionOperation_new operation_id epoch) ;!
      modify (ps_set_active_operation (Some epoch)) ;!
      set_status Authenticating (Some operation_id) None None None ;!
      let! outcome := attempt (connect_inner epoch) in
      match outcome with
      | Ok _ => yield_now ;! let! self := get in ret (ps_status self)
      | Err error =>
          let! self := get in
          let error := authoritative_operation_error error (is_stopping (operation_of epoch self)) in
          let! cleaned := attempt (cleanup epoch (negb (fatal_sidecar_error error))) in
          match cleaned with
          | Ok _ =>
              set_status Disconnected None None None (Some error) ;!
              clear_active_operation epoch ;!
              raise error
          | Err cleanup_error =>
              let reported := if fatal_sidecar_error error then error else cleanup_error in
              set_status Error (Some operation_id) None None (Some reported) ;!
              raise reported
          end
      end
  end.

(** The mutation lease that [m] runs under is dropped when it is over. *)
Definition dropping_lease {A} (m : SM A) : SM A :=
  let! r := attempt m in
  let! self := get in
  on_gate (drop_lease (mg_generation (ps_gate self))) ;!
  lift r.

Definition connect_with_mutation_lease (operation_id : string) : SM ProductionNetworkStatus :=
  dropping_lease (with_lifecycle (connect_locked operation_id)).

Definition idle_status (st : ProductionNetworkStatus) : bool :=
  is_none (pn_operation_id st) && is_none (pn_active_transport st) && is_none (pn_health st).

Definition reserve_connect : SM Z :=
  let! self := get in
  if (sc_broker_bound (ps_config self) && ps_start_consumed self)
    || negb (bool_decide (mg_state (ps_gate self) = GateOpen))
    || negb (can_retire (ps_gate self))
    || is_some (ps_active_operation self) || is_some (ps_route_heartbeat self)
    || ps_routes_active self
    || negb (bool_decide (pn_state (ps_status self) = Disconnected))
    || negb (idle_status (ps_status self))
    || negb (bool_decide (pn_sidecar_state (ps_status self) = Stopped))
    || ps_lifecycle self
    || negb (bool_decide (rb_disposition (ps_routes self) = RouteReusable))
  then raise InvalidStateTransition
  else on_gate issue_reservation.

(** A [ProductionConnectReservation]: the gate it was issued by is known by its
    generation, which no two services share. *)
Record ProductionConnectReservation := { rv_generation : Z; rv_id : Z }.

Definition connect_reserved (operation_id : string) (reservation : ProductionConnectReservation)
  : SM ProductionNetworkStatus :=
  let release := on_gate (release_reservation (rv_generation reservation) (rv_id reservation)) in
  if negb (valid_production_operation_id operation_id) then release ;! raise InvalidConfiguration else
  let! self := get in
  if negb (rv_generation reservation =? mg_generation (ps_gate self)) then raise InvalidStateTransition else
  let! consumed := attempt (on_gate (consume_reservation (rv_generation reservation) (rv_id reservation))) in
  match consumed with
  | Err error => release ;! raise error
  | Ok _ => connect_with_mutation_lease operation_id
  end.

Definition connect (operation_id : string) : SM ProductionNetworkStatus :=
  if negb (valid_production_operation_id operation_id) then raise InvalidConfiguration else
  let! id := reserve_connect in
  let! self := get in
  connect_reserved operation_id {| rv_generation := mg_generation (ps_gate self); rv_id := id |}.

(** ** disconnecting *)

Definition disconnect_locked (active_operation : option Z) (primary_error : option NetworkErrorCode)
  : SM ProductionNetworkStatus :=
  let! self := get in
  if bool_decide (pn_state (ps_status self) = Disconnected) then
    (match active_operation with Some epoch => clear_active_operation epoch | None => ret tt end) ;!
    let! self := get in ret (ps_status self)
  else match active_operation with
  | None => raise InvalidStateTransition
  | Some epoch =>
      let operation_id := op_id (operation_of epoch self) in
      set_status Disconnecting (Some operation_id) None None primary_error ;!
      let! result := attempt (cleanup epoch (bool_decide (pn_sidecar_state (ps_status self) = Running))) in
      match result with
      | Ok _ =>
          set_status Disconnected None None None primary_error ;!
          clear_active_operation epoch ;!
          yield_now ;!
          let! self := get in ret (ps_status self)
      | Err error =>
          set_status Error (Some operation_id) None None
            (match primary_error with Some e => Some e | None => Some error end) ;!
          raise error
      end
  end.

(** What [disconnect] does after its first part. *)
Definition disconnect_rest (pending : option Z * option NetworkErrorCode) : SM ProductionNetworkStatus :=
  dropping_lease (
    (if is_some pending.1 then stop_route_heartbeat else ret tt) ;!
    with_lifecycle (disconnect_locked pending.1 pending.2)).

Definition disconnect (operation_id : string) : SM ProductionNetworkStatus :=
  let! pending := disconnect_request operation_id in
  disconnect_rest pending.

(** ** dispositions and retirement *)

Inductive ProductionServiceDispositionKind : Type :=
| SdReusable | SdBusy | SdTerminalCandidate | SdRecoveryOnly | SdRetired.

Definition terminal_candidate (st : ProductionNetworkStatus) : bool :=
  bool_decide (pn_state st = Error) && idle_status st && bool_decide (pn_sidecar_state st = Stopped).

Definition disposition (self : SV) : ProductionServiceDispositionKind :=
  let st := ps_status self in
  match mg_state (ps_gate self) with
  | GateRetired => SdRetired
  | GateRecoveryOnly => SdRecoveryOnly
  | GateRetiring => SdBusy
  | GateOpen =>
      if negb (can_retire (ps_gate self)) then SdBusy
      else if is_some (ps_active_operation self) || is_some (ps_route_heartbeat self)
        || ps_lifecycle self || ps_routes_active self
        || (negb (bool_decide (pn_state st = Disconnected)) && negb (terminal_candidate st))
        || negb (idle_status st) || negb (bool_decide (pn_sidecar_state st = Stopped))
      then SdBusy
      else match rb_disposition (ps_routes self) with
      | RouteReusable =>
          if terminal_candidate st || (sc_broker_bound (ps_config self) && ps_start_consumed self)
          then SdTerminalCandidate else SdReusable
      | RouteBusy => SdBusy
      | RouteRecoveryOnly | RouteRetired => SdRecoveryOnly
      end
  end.

(** [service_retirement_preflight], with the boundary's answer when it is asked. *)
Definition service_retirement_preflight : SM ServiceRetirementPreflight :=
  let! self := get in
  let st := ps_status self in
  if is_some (ps_active_operation self) || is_some (ps_route_heartbeat self)
    || ps_routes_active self || ps_lifecycle self then ret PreBusy
  else if bool_decide (pn_state st = Error) && negb (terminal_candidate st) then ret PreRecoveryOnly
  else if (negb (bool_decide (pn_state st = Disconnected)) && negb (terminal_candidate st))
    || negb (idle_status st) then ret PreBusy
  else if negb (bool_decide (pn_sidecar_state st = Stopped)) then ret PreRecoveryOnly
  else match rb_disposition (ps_routes self) with
  | RouteBusy => ret PreBusy
  | RouteRecoveryOnly | RouteRetired => ret PreRecoveryOnly
  | RouteReusable =>
      let (answer, routes) := rb_try_retire (ps_routes self) in
      modify (ps_set_routes routes) ;!
      ret (PreReady answer)
  end.

(** [try_retire] until the controller's retirement is awaited: the answer if it is
    already known, otherwise the progress that is waited for. *)
Definition try_retire_routes : SM (ProductionServiceRetirementResult + nat) :=
  let resume := let! progress := on_gate start_or_resume_controller_retirement in ret (inr progress) in
  let! entry := on_gate retire_enter in
  match entry with
  | EntryAnswer result => ret (inl result)
  | EntryResume => resume
  | EntryNeedsRoute =>
      let! outcome := service_retirement_preflight in
      match outcome with
      | PreBusy | PreReady RetireBusy =>
          on_gate set_gate_open_after_preflight ;! ret (inl SrBusy)
      | PreRecoveryOnly | PreReady RetireRecoveryOnly | PreReady RetireAlreadyRetired =>
          on_gate set_gate_recovery_only ;! ret (inl SrRecoveryOnly)
      | PreReady (RetireRetired receipt) =>
          let! consumed := on_gate (consume_route_retirement_receipt receipt) in
          if (consumed : bool) then resume
          else on_gate set_gate_recovery_only ;! ret (inl SrRecoveryOnly)
      end
  end.

(** ** the service and its executions *)

(** [new_with_start_mode], on the process-wide counter of generations.  The ghosts of
    the new service are the schedule of the others. *)
Definition new_with_start_mode `{UrlLib} `{Base64Lib} (broker_bound : bool) (profile : NetworkProfile) (routes : B)
  (instance_id : string) (profile_revision : Z) (world : X) : Meth Z SV :=
  lift (NetworkProfile_validate profile) ;!
  if profile_revision =? 0 then raise InvalidConfiguration else
  let! generation := get in
  match checked_add u64_max generation 1 with
  | None => raise InvalidStateTransition
  | Some next =>
      modify (fun _ => next) ;!
      ret {| ps_config := {| sc_broker_bound := broker_bound; sc_profile := profile;
                             sc_instance_id := instance_id; sc_profile_revision := profile_revision;
                             sc_timeout := 1000 * connect_timeout_seconds (policy profile) |};
             ps_gate := ProductionMutationGate_new generation;
             ps_start_consumed := false;
             ps_routes := routes;
             ps_routes_active := false;
             ps_status := {| pn_state := Disconnected; pn_sidecar_state := Stopped;
                             pn_site := {| ss_id := site_id (site profile);
                                           ss_display_name := display_name (site profile);
                                           ss_private_route_count :=
                                             Z.of_nat (length (private_cidrs (site profile))) |};
                             pn_active_transport := None; pn_health := None;
                             pn_operation_id := None; pn_last_error := None |};
             ps_route_heartbeat := None;
             ps_lifecycle := false;
             ps_request_sequence := 0;
             ps_operations := ∅;
             ps_active_operation := None;
             ps_operation_epoch := 0;
             ps_waiting := [];
             ps_world := world;
             ps_trace := [];
             ps_others := [];
             ps_turns := [] |}
  end.

(** What may happen to a service, one whole call at a time; during [connect],
    [disconnect] and the turns of the monitor others come in as [others] says. *)
Inductive ServiceEvent : Type :=
| EvConnect (operation_id : string) (others : list (list Intrusion)) (turns : list MonitorTurn)
| EvDisconnect (operation_id : string) (others : list (list Intrusion)) (turns : list MonitorTurn)
| EvDisconnectRest (others : list (list Intrusion)) (turns : list MonitorTurn)
| EvCancel (operation_id : string)
| EvMonitor (turn : MonitorTurn) (others : list (list Intrusion))
| EvTryRetire.

Definition scheduled {A} (others : list (list Intrusion)) (turns : list MonitorTurn) (m : SM A)
  (s : SV) : SV :=
  (m (ps_set_others others (ps_set_turns turns s))).2.

Definition service_step (ev : ServiceEvent) (s : SV) : SV :=
  match ev with
  | EvConnect operation_id others turns => scheduled others turns (connect operation_id) s
  | EvDisconnect operation_id others turns => scheduled others turns (disconnect operation_id) s
  | EvDisconnectRest others turns =>
      match ps_waiting s with
      | [] => s
      | pending :: waiting => scheduled others turns (disconnect_rest pending) (ps_set_waiting waiting s)
      end
  | EvCancel operation_id => (service_cancel operation_id s).2
  | EvMonitor turn others => scheduled others [] (monitor_turn turn) s
  | EvTryRetire => (try_retire_routes s).2
  end.

Definition service_run (evs : list ServiceEvent) (s : SV) : SV :=
  foldl (fun s ev => service_step ev s) s evs.

End service.
