(* ===== verification/ProductionServiceSafety.v ===== *)
(** * ProductionServiceSafety: what the service holds, and in which order

    The calls of a service are run through an automaton of what may be held outside:
    a carrier, and routes.  It refuses a second carrier before the first one is
    observed gone, a tunnel or sidecar that is taken down under routes, routes
    without a carrier.  No execution of the service is refused, whatever cancellations
    and disconnections come in between; a service that says [Disconnected] holds
    nothing. *)

From Stdlib Require Import Ascii String.
From S2P Require Import Prelude Text NetState Config Ipc Sidecar RouteHelperV3 RouteV3Client.
From S2P Require Import ProductionSession ProductionController RouteBoundary ServiceGate ProductionService.

(** ** what may be held *)

Record Held := { carrier_held : bool; routes_held : bool }.

Definition nothing_held : Held := {| carrier_held := false; routes_held := false |}.

(** The sidecar answered that no carrier is active. *)
Definition carrier_gone (answer : Res IpcResponse) : bool :=
  match answer with
  | Ok response => match response_payload response with
                   | Ok (Status status) => is_none (st_active_transport status)
                   | _ => false
                   end
  | Err _ => false
  end.

Definition held_step (held : Held) (call : ServiceCall) : option Held :=
  match call with
  | CallIpc (ApplyProfile _) _ | CallIpc PrepareTunnel _ =>
      if carrier_held held || routes_held held then None else Some held
  | CallIpc (ConnectTransport _) _ =>
      if carrier_held held then None
      else Some {| carrier_held := true; routes_held := routes_held held |}
  | CallIpc DisconnectTransport answer | CallIpc GetStatus answer =>
      Some {| carrier_held := carrier_held held && negb (carrier_gone answer);
              routes_held := routes_held held |}
  | CallIpc StopTunnel answer =>
      if routes_held held then None
      else Some {| carrier_held := carrier_held held && negb (carrier_gone answer);
                   routes_held := false |}
  | CallIpc _ _ => Some held
  | CallApplyRoutes _ =>
      if negb (carrier_held held) || routes_held held then None
      else Some {| carrier_held := true; routes_held := true |}
  | CallRollbackRoutes answer =>
      Some {| carrier_held := carrier_held held; routes_held := routes_held held && negb (is_ok answer) |}
  | CallShutdown answer =>
      if routes_held held then None
      else Some {| carrier_held := carrier_held held && negb (is_ok answer); routes_held := false |}
  end.

Definition held_after (trace : list ServiceCall) : option Held :=
  foldl (fun held call => held ≫= (fun held => held_step held call)) (Some nothing_held) trace.

Lemma held_after_snoc trace call :
  held_after (trace ++ [call]) = held_after trace ≫= (fun held => held_step held call).
Proof. unfold held_after. by rewrite foldl_app. Qed.

Section safety.
Context {X B : Type} `{ControllerHandle X, ServiceSurroundings X, ProductionRouteBoundary B}.

Notation SV := (@ProductionNetworkingService X B).
Notation SM A := (Meth SV A).
Implicit Types s : SV.

(** ** the part of the state the argument is about *)

Record View := {
  vw_held : option Held;
  vw_routes_active : bool;
  vw_disconnected : bool;
}.

Definition view s : View :=
  {| vw_held := held_after (ps_trace s); vw_routes_active := ps_routes_active s;
     vw_disconnected := bool_decide (pn_state (ps_status s) = Disconnected) |}.

Definition vw (carrier routes active disconnected : bool) : View :=
  {| vw_held := Some {| carrier_held := carrier; routes_held := routes |};
     vw_routes_active := active; vw_disconnected := disconnected |}.

(** Routes that may be there are known to be, and [Disconnected] means nothing is. *)
Definition in_order s : Prop :=
  exists c r a d, view s = vw c r a d /\ (r = true -> a = true) /\ (d = true -> c = false /\ a = false).

(** A method that does nothing to the view, whatever its result. *)
Definition quiet {A} (m : SM A) : Prop := forall s, view (m s).2 = view s.

Lemma quiet_return {A} (a : A) : quiet (ret a).
Proof. by intros s. Qed.
Lemma quiet_raise {A} e : quiet (raise e : SM A).
Proof. by intros s. Qed.
Lemma quiet_lift {A} (r : Res A) : quiet (lift r).
Proof. by intros s. Qed.
Lemma quiet_read : quiet get.
Proof. by intros s. Qed.
Lemma quiet_bind {A C} (m : SM A) (k : A -> SM C) :
  quiet m -> (forall a, quiet (k a)) -> quiet (bind m k).
Proof.
  intros Hm Hk s. unfold bind. pose proof (Hm s) as Hv.
  destruct (m s) as [[a|e] s']; simpl in *; [|done]. by rewrite (Hk a s').
Qed.
Lemma quiet_attempt {A} (m : SM A) : quiet m -> quiet (attempt m).
Proof. intros Hm s. unfold attempt. pose proof (Hm s). by destruct (m s). Qed.
Lemma quiet_modify f : (forall s, view (f s) = view s) -> quiet (modify f).
Proof. done. Qed.
Lemma quiet_on_gate {A} (m : Meth Gate A) : quiet (on_gate m).
Proof. intros s. unfold on_gate, zoom. by destruct (m (ps_gate s)). Qed.
Lemma quiet_on_world {A} (m : Meth X A) : quiet (on_world m).
Proof. intros s. unfold on_world, zoom. by destruct (m (ps_world s)). Qed.
Lemma quiet_on_routes {A} (m : Meth B A) : quiet (on_routes m).
Proof. intros s. unfold on_routes, zoom. by destruct (m (ps_routes s)). Qed.

Lemma quiet_wp {A} (m : SM A) (Q : Res A -> SV -> Prop) s :
  quiet m -> (forall r s', view s' = view s -> Q r s') -> wp m Q s.
Proof. intros Hm HQ. unfold wp. apply HQ, Hm. Qed.

End safety.

Create HintDb quiet.
#[export] Hint Resolve quiet_return quiet_raise quiet_lift quiet_read quiet_attempt quiet_on_gate
  quiet_on_world quiet_on_routes : quiet.

(** Follow the structure of a method. *)
Ltac quiet_step :=
  match goal with
  | |- quiet (bind _ _) => apply quiet_bind; [|intros ?]
  | |- quiet (attempt _) => apply quiet_attempt
  | |- quiet (modify _) => apply quiet_modify; intros ?; reflexivity
  | |- quiet (match ?x with _ => _ end) => destruct x
  | |- quiet _ => solve [eauto with quiet nocore]
  | |- quiet _ => progress cbv zeta
  end.
Ltac quiet_tac := repeat quiet_step.

Section safety_of_calls.
Context {X B : Type} `{ControllerHandle X, ServiceSurroundings X, ProductionRouteBoundary B}.

Notation SV := (@ProductionNetworkingService X B).
Notation SM A := (Meth SV A).
Implicit Types s : SV.

(** ** others *)

Lemma view_of s s' :
  ps_trace s' = ps_trace s -> ps_routes_active s' = ps_routes_active s ->
  (pn_state (ps_status s') = Disconnected <-> pn_state (ps_status s) = Disconnected) ->
  view s' = view s.
Proof.
  intros Ht Ha Hd. unfold view. rewrite Ht, Ha. f_equal. by apply bool_decide_ext.
Qed.

Lemma service_cancel_quiet id : quiet (service_cancel id : SM unit).
Proof.
  unfold service_cancel, with_lease. apply quiet_bind; [by auto with quiet|intros _].
  apply quiet_bind; [|intros r; quiet_tac]. apply quiet_attempt. intros s.
  cbn [bind get]. case_match; [|done].
  repeat (case_match; [done|]).
  match goal with Hc : negb (cancellable_state _) = false |- _ => rename Hc into Hstate end.
  transitivity (view (ps_set_status (pn_set_state Disconnecting (ps_status s)) s)).
  - apply (quiet_wp (signal_route_heartbeat ;! attempt (on_world (ch_cancel id)) ;! ret tt)
      (fun _ s' => view s' = _)); [unfold signal_route_heartbeat; quiet_tac|].
    by intros r s' ->.
  - apply view_of; try done. simpl. split; [done|]. intros Hd. by rewrite Hd in Hstate.
Qed.

Lemma disconnect_request_quiet id : quiet (disconnect_request id : SM _).
Proof.
  unfold disconnect_request. case_match; [by auto with quiet|].
  apply quiet_bind; [by auto with quiet|intros _]. intros s. cbn [bind get].
  destruct (ps_active_operation s) as [epoch|]; [|done].
  match goal with |- view (?m s).2 = _ => change (wp m (fun _ s' => view s' = view s) s) end.
  unfold on_operation, on_status. do 2 wp_step. apply wp_bind.
  case_match eqn:Hc; wp_step; (apply quiet_wp; [unfold signal_route_heartbeat; by quiet_tac|intros ? ? ->]); [|done].
  apply andb_true_iff in Hc as [_ Hc%negb_true_iff%bool_decide_eq_false_1].
  by apply view_of.
Qed.

Lemma intrude_quiet other s : view (intrude other s) = view s.
Proof.
  destruct other as [id|id]; simpl; [apply service_cancel_quiet|].
  pose proof (disconnect_request_quiet id s) as Hv.
  by destruct (disconnect_request id s) as [[p|e] s'].
Qed.

Lemma yield_now_quiet : quiet (yield_now : SM unit).
Proof.
  intros s. unfold yield_now, modify. simpl. destruct (ps_others s) as [|now later]; [done|].
  transitivity (view (ps_set_others later s)); [|done].
  generalize (ps_set_others later s). induction now as [|other now IH]; intros t; [done|].
  simpl. by rewrite IH, intrude_quiet.
Qed.

Definition stepv (call : ServiceCall) (v : View) : View :=
  {| vw_held := vw_held v ≫= (fun held => held_step held call);
     vw_routes_active := vw_routes_active v; vw_disconnected := vw_disconnected v |}.

Lemma view_step call s : view ((note call : SM unit) s).2 = stepv call (view s).
Proof. unfold view. simpl. by rewrite held_after_snoc. Qed.

Lemma next_request_id_quiet action : quiet (next_request_id action : SM string).
Proof. unfold next_request_id. quiet_tac. Qed.

Lemma ensure_operation_active_quiet epoch : quiet (ensure_operation_active epoch : SM unit).
Proof. unfold ensure_operation_active. quiet_tac. Qed.

Lemma ensure_monitor_operation_active_quiet mo : quiet (ensure_monitor_operation_active mo : SM unit).
Proof. unfold ensure_monitor_operation_active. quiet_tac. apply ensure_operation_active_quiet. Qed.

Lemma on_monitor_quiet f : quiet (on_monitor f : SM unit).
Proof. unfold on_monitor. quiet_tac. Qed.

Lemma signal_quiet : quiet (signal_route_heartbeat : SM unit).
Proof. unfold signal_route_heartbeat. quiet_tac. Qed.

Lemma clear_active_quiet epoch : quiet (clear_active_operation epoch : SM unit).
Proof. unfold clear_active_operation. apply quiet_modify. intros s. by case_match. Qed.

Lemma on_status_quiet (f : ProductionNetworkStatus -> ProductionNetworkStatus) :
  (forall st, pn_state (f st) = pn_state st) -> quiet (on_status f : SM unit).
Proof. intros Hf s. by apply view_of; simpl; rewrite ?Hf. Qed.

End safety_of_calls.

#[export] Hint Resolve yield_now_quiet next_request_id_quiet ensure_operation_active_quiet
  ensure_monitor_operation_active_quiet on_monitor_quiet signal_quiet clear_active_quiet : quiet.

Section safety_of_steps.
Context {X B : Type} `{ControllerHandle X, ServiceSurroundings X, ProductionRouteBoundary B}.

Notation SV := (@ProductionNetworkingService X B).
Notation SM A := (Meth SV A).
Implicit Types s : SV.

(** ** calls that are traced *)

Lemma wp_yield (Q : Res unit -> SV -> Prop) s :
  (forall s', view s' = view s -> Q (Ok tt) s') -> wp yield_now Q s.
Proof. intros HQ. apply (HQ _ (yield_now_quiet s)). Qed.

Lemma wp_note call (Q : Res unit -> SV -> Prop) s :
  (forall s', view s' = stepv call (view s) -> Q (Ok tt) s') -> wp (note call) Q s.
Proof. intros HQ. apply (HQ _ (view_step call s)). Qed.

Lemma wp_try {A} (m : SM A) (Q : Res (Res A) -> SV -> Prop) s :
  quiet m -> (forall r s', view s' = view s -> Q (Ok r) s') -> wp (attempt m) Q s.
Proof. intros Hm HQ. apply wp_attempt. by apply quiet_wp. Qed.

Lemma controller_call_spec {A} bounded (call : Meth X A) entry s :
  wp (controller_call bounded call entry) (fun r s' => view s' = stepv (entry r) (view s)) s.
Proof.
  unfold controller_call. apply wp_bind, wp_yield. intros s1 E1.
  apply wp_bind, wp_try; [by auto with quiet|]. intros r s2 E2. apply wp_bind.
  assert (Hrest : forall c s3, view s3 = view s ->
    wp (let answer := if (c : bool) then Err OperationTimedOut else r in
        note (entry answer) ;! yield_now ;! lift answer)
      (fun r s' => view s' = stepv (entry r) (view s)) s3).
  { intros c s3 E3. cbv zeta. apply wp_bind, wp_note. intros s4 E4.
    apply wp_bind, wp_yield. intros s5 E5. apply wp_lift. by rewrite E5, E4, E3. }
  destruct bounded; [|apply wp_ret, (Hrest false); congruence].
  unfold on_world. apply wp_zoom. unfold wp. destruct (su_cut_off (ps_world s2)) as [c x].
  apply Hrest. simpl. transitivity (view s2); [done|congruence].
Qed.

Lemma tracked_route_call_spec (call : Meth B unit) entry s :
  wp (tracked_route_call call entry)
    (fun r s' => (exists e, r = Err e /\ view s' = view s) \/ view s' = stepv (entry r) (view s)) s.
Proof.
  unfold tracked_route_call. apply wp_bind, quiet_wp; [by auto with quiet|].
  intros [id|e] s1 E1; [|left; by exists e].
  apply wp_bind, wp_yield. intros s2 E2. apply wp_bind, wp_try; [by auto with quiet|].
  intros r s3 E3. apply wp_bind, wp_note. intros s4 E4.
  apply wp_bind. unfold on_gate, finish_route_task. do 2 wp_step.
  apply wp_bind, wp_yield. intros s5 E5. apply wp_lift. right. rewrite E5.
  transitivity (view s4); [done|congruence].
Qed.

Lemma request_status_spec bounded op action payload s :
  wp (request_status bounded op action payload)
    (fun r s' => (exists e, r = Err e /\ view s' = view s) \/
       exists answer, view s' = stepv (CallIpc payload answer) (view s) /\
         (forall st, r = Ok st -> carrier_gone answer = is_none (st_active_transport st))) s.
Proof.
  unfold request_status. apply wp_bind, quiet_wp; [by auto with quiet|].
  intros [id|e] s1 E1; [|left; by exists e].
  apply wp_bind. unfold controller_request. do 2 wp_step.
  eapply wp_mono; [apply controller_call_spec|]. simpl. rewrite E1. intros [response|e] s2 E2.
  - apply wp_bind, wp_lift.
    destruct (response_payload response) as [answer|] eqn:Hr; [|right; by exists (Ok response)].
    destruct answer; right; exists (Ok response); split; try done.
    intros st [= <-]. simpl. by rewrite Hr.
  - right. by exists (Err e).
Qed.

(** ** what the operations do to the view *)

(** The carrier is no more there than before. *)
Definition loosened c r a d s : Prop := exists c', view s = vw c' r a d /\ implb c' c = true.

Lemma loosened_refl c r a d s : view s = vw c r a d -> loosened c r a d s.
Proof. intros Hv. exists c. by destruct c. Qed.

Lemma loosened_trans c c' r a d s : implb c' c = true -> loosened c' r a d s -> loosened c r a d s.
Proof. intros Hc (c1 & Hv & Hc'). exists c1. split; [done|]. by destruct c, c', c1. Qed.

Lemma status_loosens bounded op action payload c r a d s :
  view s = vw c r a d ->
  payload = DisconnectTransport \/ payload = GetStatus \/ payload = StopTunnel /\ r = false ->
  wp (request_status bounded op action payload)
    (fun res s' => loosened c r a d s' /\
       forall st, res = Ok st -> validate_carrier_disconnected st = Ok tt -> view s' = vw false r a d) s.
Proof.
  intros Hv Hp. eapply wp_mono; [apply request_status_spec|]. simpl.
  intros res s' [(e & -> & E)|(answer & E & Hst)].
  - split; [|done]. apply loosened_refl. congruence.
  - assert (Hv' : view s' = vw (c && negb (carrier_gone answer)) r a d).
    { rewrite E, Hv. by destruct Hp as [->|[->|[-> ->]]]. }
    split; [exists (c && negb (carrier_gone answer)); by destruct c, (carrier_gone answer)|].
    intros st -> Hg. rewrite Hv', (Hst st eq_refl). unfold validate_carrier_disconnected in Hg.
    destruct (st_active_transport st); [done|]. by rewrite andb_false_r.
Qed.

Lemma confirmed_spec bounded op action action' payload c r a d s :
  view s = vw c r a d ->
  payload = DisconnectTransport \/ payload = StopTunnel /\ r = false ->
  wp (confirmed_disconnected bounded op action action' payload)
    (fun res s' => loosened c r a d s' /\ (res = Ok tt -> view s' = vw false r a d)) s.
Proof.
  intros Hv Hp. unfold confirmed_disconnected. apply wp_bind, wp_attempt.
  eapply wp_mono; [apply status_loosens; [exact Hv|tauto]|]. simpl. intros [st|e] s1 [Hl Hgone].
  { apply wp_lift. eauto. }
  assert (Hraise : forall e' : NetworkErrorCode, wp (raise e' : SM unit)
    (fun res s' => loosened c r a d s' /\ (res = Ok tt -> view s' = vw false r a d)) s1)
    by (intros; by apply wp_raise).
  destruct e; try apply Hraise. destruct Hl as (c1 & E1 & Hc1). apply wp_bind.
  eapply wp_mono; [apply status_loosens; [exact E1|tauto]|]. simpl. intros [st|e] s2 [Hl2 Hgone2].
  - apply wp_lift. eauto using loosened_trans.
  - split; [by eapply loosened_trans|done].
Qed.

Lemma disconnect_carrier_spec bounded op c r a d s :
  view s = vw c r a d ->
  wp (disconnect_carrier bounded op)
    (fun res s' => loosened c r a d s' /\ (res = Ok tt -> view s' = vw false r a d)) s.
Proof. intros Hv. by apply confirmed_spec; [|left]. Qed.

Lemma stop_tunnel_spec bounded op c a d s :
  view s = vw c false a d ->
  wp (stop_tunnel bounded op) (fun _ s' => loosened c false a d s') s.
Proof.
  intros Hv. eapply wp_mono; [apply confirmed_spec; [exact Hv|by right]|]. by intros ? ? [? _].
Qed.

Lemma teardown_spec bounded op usable c a d s :
  view s = vw c false a d ->
  wp (teardown_controller bounded op usable)
    (fun res s' => loosened c false a d s' /\ (res = Ok tt -> view s' = vw false false a d)) s.
Proof.
  intros Hv. unfold teardown_controller.
  set (Q := fun (res : Res unit) (s' : SV) => loosened c false a d s' /\ (res = Ok tt -> view s' = vw false false a d)).
  assert (Hend : forall s1, loosened c false a d s1 -> wp (controller_shutdown bounded) Q s1).
  { intros s1 (c1 & E1 & Hc1). eapply wp_mono; [apply controller_call_spec|]. intros res s2 E2.
    rewrite E1 in E2. change (view s2 = vw (c1 && negb (is_ok res)) false a d) in E2. split.
    - exists (c1 && negb (is_ok res)). by destruct c, c1, (is_ok res).
    - intros ->. by rewrite E2, andb_false_r. }
  assert (Hstop : forall (u : bool) s1, loosened c false a d s1 ->
    wp ((if u then attempt (stop_tunnel bounded op) ;! ret tt else ret tt) ;! controller_shutdown bounded) Q s1).
  { intros u s1 Hl. destruct u; [|by apply wp_bind, wp_ret, Hend].
    destruct Hl as (c1 & E1 & Hc1). do 2 apply wp_bind. apply wp_attempt.
    eapply wp_mono; [apply stop_tunnel_spec, E1|]. intros res s2 Hl2. apply wp_ret, Hend.
    by eapply loosened_trans. }
  apply wp_bind. destruct usable; [|apply wp_ret, (Hstop false), loosened_refl, Hv].
  apply wp_bind, wp_attempt. eapply wp_mono; [apply disconnect_carrier_spec, Hv|].
  intros res s1 [Hl _]. apply wp_ret, Hstop, Hl.
Qed.

Lemma rollback_spec op c r a d s :
  view s = vw c r a d ->
  wp (rollback_routes op)
    (fun res s' => exists r', view s' = vw c r' a d /\ implb r' r = true /\ (res = Ok tt -> r' = false)) s.
Proof.
  intros Hv. eapply wp_mono; [apply tracked_route_call_spec|]. simpl.
  intros res s' [(e & -> & E)|E]; rewrite Hv in E.
  - exists r. by destruct r.
  - exists (r && negb (is_ok res)). split; [done|]. split; [by destruct r, (is_ok res)|].
    intros ->. apply andb_false_r.
Qed.
End safety_of_steps.

Section safety_of_monitor.
Context {X B : Type} `{ControllerHandle X, ServiceSurroundings X, ProductionRouteBoundary B}.

Notation SV := (@ProductionNetworkingService X B).
Notation SM A := (Meth SV A).
Implicit Types s : SV.

Lemma quiet_preserves {A} (m : SM A) : quiet m -> preserves in_order m.
Proof. intros Hm s (c & r & a & d & Hv & Ho). exists c, r, a, d. by rewrite Hm. Qed.

Lemma in_order_intro c r a s : view s = vw c r a false -> (r = true -> a = true) -> in_order s.
Proof. intros Hv Ha. by exists c, r, a, false. Qed.

Lemma view_undisconnected (f : ProductionNetworkStatus -> ProductionNetworkStatus) c r a d s :
  view s = vw c r a d -> pn_state (f (ps_status s)) <> Disconnected ->
  view (ps_set_status (f (ps_status s)) s) = vw c r a false.
Proof.
  intros Hv Hf. injection Hv as Hh Ha Hd. unfold view. simpl. rewrite Hh, Ha.
  by rewrite bool_decide_eq_false_2.
Qed.

(** A status that does not become [Disconnected]. *)
Lemma on_status_order (f : ProductionNetworkStatus -> ProductionNetworkStatus) :
  (forall st, pn_state (f st) = pn_state st \/ pn_state (f st) <> Disconnected) ->
  preserves in_order (on_status f : SM unit).
Proof.
  intros Hf s (c & r & a & d & Hv & Hr & Hd). destruct (Hf (ps_status s)) as [He|He].
  - exists c, r, a, d. split; [|done]. rewrite <- Hv. apply view_of; simpl; by rewrite ?He.
  - apply (in_order_intro c r a); [|done]. by apply view_undisconnected with (d := d).
Qed.

Lemma with_lifecycle_wp {A} (m : SM A) (Q : Res A -> SV -> Prop) s :
  (forall s1, view s1 = view s ->
     wp m (fun r s2 => forall s3, view s3 = view s2 -> Q r s3) s1) ->
  wp (with_lifecycle m) Q s.
Proof.
  intros Hm. unfold with_lifecycle. apply wp_bind, wp_yield. intros s1 E1.
  do 2 wp_step. apply wp_bind, wp_attempt.
  eapply wp_mono; [apply Hm; by rewrite <- E1|]. intros r s2 HQ. wp_steps. by apply HQ.
Qed.

Lemma with_lifecycle_order {A} (m : SM A) : preserves in_order m -> preserves in_order (with_lifecycle m).
Proof.
  intros Hm s Hs. apply (with_lifecycle_wp m (fun _ => in_order)). intros s1 E1.
  assert (Ho : in_order s1) by (destruct Hs as (c & r & a & d & Hv & Hx); exists c, r, a, d; by rewrite E1).
  eapply wp_mono; [apply preserves_wp; [exact Hm|exact Ho]|].
  intros res s2 (c & r & a & d & Hv & Hx) s3 E3. exists c, r, a, d. by rewrite E3.
Qed.

Lemma health_call_spec bounded op id c r a d s :
  view s = vw c r a d ->
  wp (controller_sample_health bounded op (request id SampleHealth)) (fun _ s' => view s' = vw c r a d) s.
Proof.
  intros Hv. unfold controller_sample_health. do 2 wp_step.
  eapply wp_mono; [apply controller_call_spec|]. intros res s' E. by rewrite E, Hv.
Qed.

Lemma carrier_health_spec op transport c r a d s :
  view s = vw c r a d ->
  wp (monitor_carrier_health op transport) (fun _ s' => view s' = vw c r a d) s.
Proof.
  intros Hv. unfold monitor_carrier_health. apply wp_bind, quiet_wp; [by auto with quiet|].
  intros [id|e] s1 E1; [|congruence]. apply wp_bind.
  eapply wp_mono; [apply health_call_spec; by rewrite E1|]. intros [response|e] s2 E2; [|done].
  apply quiet_wp; [|intros; congruence]. quiet_tac.
Qed.

Lemma request_connect_spec bounded op action transport r a d s :
  view s = vw false r a d ->
  wp (request_status bounded op action (ConnectTransport transport))
    (fun res s' => exists c, view s' = vw c r a d /\ (is_ok res = true -> c = true)) s.
Proof.
  intros Hv. eapply wp_mono; [apply request_status_spec|]. simpl.
  intros res s' [(e & -> & E)|(answer & E & _)].
  - exists false. by rewrite E.
  - exists true. split; [by rewrite E, Hv|done].
Qed.

Lemma forget_carrier_spec op c r a d s :
  view s = vw c r a d -> wp (forget_carrier op) (fun _ s' => view s' = vw c r a d) s.
Proof.
  intros Hv. unfold forget_carrier. apply quiet_wp; [|congruence].
  quiet_tac.
Qed.

(** The end of [try_carrier]: the carrier was no good, and is taken down. *)
Definition next_carrier (op : string) : SM (option NetworkHealth) :=
  disconnect_carrier false op ;! forget_carrier op ;! ret None.

Definition tried (r a : bool) (res : Res (option NetworkHealth)) (s : SV) : Prop :=
  exists c, view s = vw c r a false /\ (res = Ok None -> c = false).

Lemma next_carrier_spec op c r a s :
  view s = vw c r a false -> wp (next_carrier op) (tried r a) s.
Proof.
  intros Hv. unfold next_carrier. apply wp_bind.
  eapply wp_mono; [apply disconnect_carrier_spec, Hv|]. intros [[]|e] s1 [Hl Hok].
  - apply wp_bind. eapply wp_mono; [apply forget_carrier_spec, Hok, eq_refl|].
    intros [[]|e] s2 E2; exists false; by eauto.
  - destruct Hl as (c' & E1 & _). by exists c'.
Qed.

Lemma try_carrier_spec mo op transport r a s :
  view s = vw false r a false -> wp (try_carrier mo op transport) (tried r a) s.
Proof.
  intros Hv. unfold try_carrier. fold (next_carrier op).
  apply wp_bind, quiet_wp; [by auto with quiet|]. intros [[]|e] s1 E1; [|exists false; by rewrite E1].
  apply wp_bind, wp_attempt, wp_bind.
  eapply wp_mono; [apply request_connect_spec; by rewrite E1|]. intros connect s2 (c & E2 & _).
  assert (Hend : forall (health : Res (option NetworkHealth)) s3, view s3 = vw c r a false ->
    match health with
    | Ok h => wp (match h with Some health => ret (Some health) | None => next_carrier op end) (tried r a) s3
    | Err e => tried r a (Err e) s3
    end).
  { intros [[h|]|e] s3 E3; [apply wp_ret; by exists c| |by exists c]. by apply next_carrier_spec with (c := c). }
  destruct connect as [status|e].
  - do 3 wp_step. destruct (validate_connected_status _ _ _) as [[]|e].
    + apply wp_bind, wp_bind, quiet_wp; [by auto with quiet|].
      intros [[]|e] s3 E3; [|exists c; by rewrite E3]. rewrite <- E3 in E2.
      apply wp_bind, wp_attempt. eapply wp_mono; [apply carrier_health_spec, E2|].
      intros health s4 E4. destruct health as [health|e].
      * apply wp_bind, quiet_wp; [by auto with quiet|]. intros [[]|e] s5 E5; rewrite <- E5 in E4.
        -- wp_step. by apply (Hend (Ok (Some health))).
        -- by exists c.
      * destruct e; cbn [fatal_sidecar_error]; wp_step;
          first [by apply (Hend (Err _)) | by apply (Hend (Ok None))].
    + apply wp_bind. destruct e; cbn [fatal_sidecar_error]; wp_step;
        first [by apply (Hend (Err _)) | by apply (Hend (Ok None))].
  - apply wp_bind. destruct e; cbn [fatal_sidecar_error]; wp_step;
      first [by apply (Hend (Err _)) | by apply (Hend (Ok None))].
Qed.

Lemma try_fallbacks_spec mo op r a transports : forall s,
  view s = vw false r a false ->
  wp (try_fallbacks mo op transports) (fun _ s' => exists c, view s' = vw c r a false) s.
Proof.
  induction transports as [|transport transports IH]; intros s Hv; simpl; [by exists false|].
  apply wp_bind. eapply wp_mono; [apply try_carrier_spec, Hv|].
  intros [[health|]|e] s1 (c & E1 & Hc); [by exists c| |by exists c].
  apply IH. by rewrite E1, (Hc eq_refl).
Qed.

Lemma fallback_order mo op failed failure :
  preserves in_order (monitor_fallback_after_health_failure mo op failed failure : SM _).
Proof.
  apply with_lifecycle_order. intros s Hs.
  change (wp (ensure_monitor_operation_active mo ;! yield_now ;!
    on_status (fun st => pn_set_last_error (Some failure) (pn_set_state Reconnecting st)) ;!
    disconnect_carrier false op ;! forget_carrier op ;!
    let! self := get in
    let carriers := transports (sc_profile (ps_config self)) in
    match after_transport failed (primary carriers :: fallbacks carriers) with
    | None => raise InvalidConfiguration
    | Some rest => try_fallbacks mo op rest
    end) (fun _ => in_order) s).
  apply wp_bind, quiet_wp; [by auto with quiet|]. intros [[]|e] s1 E1.
  2: { destruct Hs as (c & r & a & d & Hv & Hx). exists c, r, a, d. by rewrite E1. }
  apply wp_bind, wp_yield. intros s2 E2. apply wp_bind. unfold on_status. wp_step.
  destruct Hs as (c & r & a & d & Hv & Hr & _). rewrite <- E1, <- E2 in Hv.
  pose proof (view_undisconnected (fun st => pn_set_last_error (Some failure) (pn_set_state Reconnecting st))
    c r a d s2 Hv ltac:(done)) as Hv3.
  apply wp_bind. eapply wp_mono; [apply disconnect_carrier_spec, Hv3|].
  intros [[]|e] s3 [Hl Hok]; [|destruct Hl as (c' & E3 & _); by apply (in_order_intro c' r a)].
  apply wp_bind. eapply wp_mono; [apply forget_carrier_spec, Hok, eq_refl|].
  intros [[]|e] s4 E4; [|by apply (in_order_intro false r a)].
  do 2 wp_step. destruct (after_transport _ _) as [rest|]; [|by apply (in_order_intro false r a)].
  eapply wp_mono; [apply try_fallbacks_spec, E4|]. intros res s5 [c' E5]. by apply (in_order_intro c' r a).
Qed.

(** Routes first, then what is below them. *)
Lemma undo_order {A} op bounded usable (after : Res unit -> SM A) (fail : NetworkErrorCode -> SM A) :
  (forall res, preserves in_order (after res)) -> (forall e, preserves in_order (fail e)) ->
  preserves in_order (
    let! rollback := attempt (rollback_routes op) in
    match rollback with
    | Ok _ => modify (ps_set_routes_active false) ;!
              let! cleanup := attempt (teardown_controller bounded op usable) in after cleanup
    | Err e => fail e
    end).
Proof.
  intros Hafter Hfail s (c & r & a & d & Hv & Hr & Hd).
  match goal with |- in_order (?m s).2 => change (wp m (fun _ => in_order) s) end.
  apply wp_bind, wp_attempt. eapply wp_mono; [apply rollback_spec, Hv|].
  intros [[]|e] s1 (r' & E1 & Hle & Hok).
  - do 2 wp_step. specialize (Hok eq_refl). subst r'.
    assert (E2 : view (ps_set_routes_active false s1) = vw c false false d)
      by (injection E1 as Hh Ha Hdd; unfold view; simpl; by rewrite Hh, Hdd).
    apply wp_bind, wp_attempt. eapply wp_mono; [apply teardown_spec, E2|].
    intros res s2 [(c' & E3 & Hc) _]. apply preserves_wp; [apply Hafter|].
    exists c', false, false, d. split; [done|]. split; [done|]. intros ->.
    destruct (Hd eq_refl) as [-> _]. by destruct c'.
  - apply preserves_wp; [apply Hfail|]. exists c, r', a, d. split; [done|]. split; [|done].
    intros ->. apply Hr. by destruct r.
Qed.

Lemma failure_cleanup_order mo failure : preserves in_order (monitor_failure_cleanup mo failure : SM unit).
Proof.
  unfold monitor_failure_cleanup. cbv zeta. apply preserves_bind; [by auto with preserves|intros self].
  case_match; [by auto with preserves|].
  assert (Hstatus : forall f, (forall st, pn_state (f st) = Error) -> preserves in_order (on_status f : SM unit))
    by (intros f Hf; apply on_status_order; intros st; right; by rewrite Hf).
  apply preserves_bind; [by apply Hstatus|intros _].
  apply preserves_bind; [case_match; [apply on_status_order; by left|by auto with preserves]|intros _].
  apply with_lifecycle_order. apply preserves_bind; [by auto with preserves|intros self'].
  case_match; [by auto with preserves|].
  apply undo_order; [|intros; by apply Hstatus]. intros [[]|]; by apply Hstatus.
Qed.
End safety_of_monitor.

#[export] Hint Resolve failure_cleanup_order fallback_order : preserves.

(** Everything below is in order; what is quiet is in order. *)
Ltac order_tac :=
  repeat first [ preserves_step | solve [apply quiet_preserves; quiet_tac] ].

Section safety_of_turns.
Context {X B : Type} `{ControllerHandle X, ServiceSurroundings X, ProductionRouteBoundary B}.

Notation SV := (@ProductionNetworkingService X B).
Notation SM A := (Meth SV A).
Implicit Types s : SV.

Lemma carrier_health_order op transport : preserves in_order (monitor_carrier_health op transport : SM _).
Proof.
  intros s (c & r & a & d & Hv & Ho).
  exists c, r, a, d. split; [|done]. by apply (carrier_health_spec op transport c r a d s).
Qed.

Lemma or_else_order {A} (m : SM A) otherwise k :
  preserves in_order m -> (forall e, preserves in_order (otherwise e)) ->
  (forall a, preserves in_order (k a)) -> preserves in_order (or_else m otherwise k).
Proof. intros. unfold or_else. order_tac; eauto. Qed.

Lemma end_health_order : preserves in_order (end_health : SM unit).
Proof. unfold end_health. order_tac. Qed.
Lemma end_lease_order : preserves in_order (end_lease : SM unit).
Proof. unfold end_lease. order_tac. Qed.

Lemma publish_order mo op f (more : SM unit) :
  (forall st, pn_state (f st) = pn_state st \/ pn_state (f st) <> Disconnected) ->
  preserves in_order more -> preserves in_order (publish mo op f more).
Proof.
  intros Hf Hmore. unfold publish. apply or_else_order; [|intros; apply end_health_order|intros _]; order_tac;
    first [done|by apply on_status_order].
Qed.

Lemma after_bad_health_order mo op error : preserves in_order (after_bad_health mo op error : SM unit).
Proof.
  unfold after_bad_health. order_tac; try apply end_health_order.
  apply publish_order; [by right|order_tac].
Qed.

Lemma health_turn_order mo : preserves in_order (health_turn mo : SM unit).
Proof.
  unfold health_turn. cbv zeta.
  pose proof (end_health_order). pose proof (carrier_health_order).
  assert (Hfail : forall e, preserves in_order (monitor_failure_cleanup mo e ;! end_health : SM unit))
    by (intros; order_tac; done).
  order_tac. apply or_else_order; [order_tac|done|intros _]. order_tac.
  apply or_else_order; [order_tac|done|intros _]. order_tac.
  apply or_else_order; [order_tac|done|intros _]. order_tac.
  apply or_else_order; [order_tac|done|intros sidecar_state]. order_tac; try done.
  apply or_else_order; [order_tac|done|intros _].
  order_tac; try done; try apply after_bad_health_order. apply publish_order; [by left|order_tac].
Qed.

Lemma lease_turn_order mo : preserves in_order (lease_turn mo : SM unit).
Proof.
  unfold lease_turn. pose proof (end_lease_order). order_tac.
  apply or_else_order; [order_tac|done|intros _]. order_tac; try done.
  - unfold monitor_route_heartbeat. order_tac.
  - apply or_else_order; [order_tac|done|intros _]. order_tac; try done.
Qed.

Lemma monitor_turn_order turn : preserves in_order (monitor_turn turn : SM unit).
Proof. unfold monitor_turn. order_tac; [apply health_turn_order|apply lease_turn_order]. Qed.
End safety_of_turns.

Section safety_of_stopping.
Context {X B : Type} `{ControllerHandle X, ServiceSurroundings X, ProductionRouteBoundary B}.

Notation SV := (@ProductionNetworkingService X B).
Notation SM A := (Meth SV A).
Implicit Types s : SV.

(** ** joining the monitor *)

Definition signalled s : Prop := from_option mo_cancelled true (ps_route_heartbeat s) = true.

Lemma signalled_same (f : SV -> SV) :
  (forall s, ps_route_heartbeat (f s) = ps_route_heartbeat s) -> preserves signalled (modify f : SM unit).
Proof. intros Hf s. unfold signalled. simpl. by rewrite Hf. Qed.

Lemma signal_signalled : preserves signalled (signal_route_heartbeat : SM unit).
Proof. intros s. unfold signalled, signal_route_heartbeat. simpl. by destruct (ps_route_heartbeat s). Qed.

Lemma zoom_signalled {T A} (look : SV -> T) put (m : Meth T A) :
  (forall t s, ps_route_heartbeat (put t s) = ps_route_heartbeat s) -> preserves signalled (zoom look put m).
Proof. intros Hf s. unfold signalled, zoom. destruct (m (look s)). simpl. by rewrite Hf. Qed.

Lemma intrude_signalled other s : signalled s -> signalled (intrude other s).
Proof.
  assert (Hgate : forall A (m : Meth Gate A), preserves signalled (on_gate m : SM A))
    by (intros; by apply zoom_signalled).
  assert (Hworld : forall A (m : Meth X A), preserves signalled (on_world m : SM A))
    by (intros; by apply zoom_signalled).
  assert (Hop : forall e f, preserves signalled (on_operation e f : SM unit)) by (intros; by apply signalled_same).
  assert (Hst : forall f, preserves signalled (on_status f : SM unit)) by (intros; by apply signalled_same).
  pose proof signal_signalled as Hsig.
  destruct other as [id|id]; simpl; intros Hs.
  - revert s Hs. change (preserves signalled (service_cancel id : SM unit)).
    unfold service_cancel, with_lease. preserves_tac; done.
  - assert (Hreq : preserves signalled (disconnect_request id : SM _)).
    { unfold disconnect_request. preserves_tac; done. }
    specialize (Hreq s Hs). by destruct (disconnect_request id s) as [[p|e] s'].
Qed.

Lemma yield_signalled : preserves signalled (yield_now : SM unit).
Proof.
  intros s Hs. unfold yield_now, modify. simpl. destruct (ps_others s) as [|now later]; [done|].
  assert (Hs' : signalled (ps_set_others later s)) by done. revert Hs'.
  generalize (ps_set_others later s). induction now as [|other now IH]; intros t Ht; [done|].
  simpl. by apply IH, intrude_signalled.
Qed.

(** A monitor that was told to stop does nothing any more. *)
Lemma ensure_signalled mo s : signalled s -> ensure_monitor_operation_active mo s = (Err OperationCancelled, s).
Proof.
  unfold signalled, ensure_monitor_operation_active. cbn [bind get].
  destruct (ps_route_heartbeat s) as [now|]; simpl; intros Hs; by rewrite ?Hs.
Qed.

Lemma on_monitor_signalled f :
  (forall mo, mo_cancelled mo = true -> mo_cancelled (f mo) = true) -> preserves signalled (on_monitor f : SM unit).
Proof. intros Hf s. unfold signalled, on_monitor. simpl. destruct (ps_route_heartbeat s); simpl; auto. Qed.

Definition resting (v : View) s : Prop := signalled s /\ view s = v.

Lemma resting_both v {A} (m : SM A) : quiet m -> preserves signalled m -> preserves (resting v) m.
Proof. intros Hq Hs s [Hsig <-]. split; [by apply Hs|apply Hq]. Qed.

Lemma monitor_turn_resting v turn : preserves (resting v) (monitor_turn turn : SM unit).
Proof.
  intros s Hrest. unfold monitor_turn. cbn [bind get].
  destruct (ps_route_heartbeat s) as [mo|]; [|done]. destruct turn; case_match; try done.
  - unfold health_turn. cbn [bind get]. unfold or_else, bind, attempt at 1.
    rewrite (ensure_signalled _ _ (proj1 Hrest)).
    revert s Hrest. apply (resting_both v end_health); [unfold end_health; quiet_tac|].
    by apply on_monitor_signalled.
  - revert s Hrest. change (preserves (resting v) (lease_turn mo : SM unit)). unfold lease_turn.
    apply preserves_bind; [apply resting_both; [by auto with quiet|apply yield_signalled]|intros _].
    intros s Hrest. cbn [bind get]. unfold or_else, bind, attempt at 1.
    rewrite (ensure_signalled _ _ (proj1 Hrest)).
    revert s Hrest. apply (resting_both v end_lease); [unfold end_lease; quiet_tac|].
    by apply on_monitor_signalled.
Qed.

Lemma monitor_turns_resting v turns : preserves (resting v) (monitor_turns turns : SM unit).
Proof.
  induction turns as [|turn turns IH]; simpl; [by auto with preserves|].
  apply preserves_bind; [apply preserves_attempt, monitor_turn_resting|by intros _].
Qed.

Lemma stop_route_heartbeat_quiet : quiet (stop_route_heartbeat : SM unit).
Proof.
  intros s. unfold stop_route_heartbeat.
  match goal with |- view (?m s).2 = _ => change (wp m (fun _ s' => view s' = view s) s) end.
  apply wp_bind, wp_yield. intros s1 E1. apply wp_bind. unfold signal_route_heartbeat at 1.
  wp_step. do 2 wp_step. do 2 wp_step. apply wp_bind.
  eapply wp_mono; [apply (preserves_wp (resting (view s)) (monitor_turns _)); [apply monitor_turns_resting|]|].
  - split; [unfold signalled; simpl; by destruct (ps_route_heartbeat s1)|by rewrite <- E1].
  - intros [[]|e] s2 [_ E2]; [|done]. apply quiet_wp; [quiet_tac|congruence].
Qed.
End safety_of_stopping.

#[export] Hint Resolve stop_route_heartbeat_quiet : quiet.

Section safety_of_operations.
Context {X B : Type} `{ControllerHandle X, ServiceSurroundings X, ProductionRouteBoundary B}.

Notation SV := (@ProductionNetworkingService X B).
Notation SM A := (Meth SV A).
Implicit Types s : SV.

(** ** connecting *)

Lemma start_controller_quiet : quiet (start_controller : SM _).
Proof. unfold start_controller. quiet_tac. Qed.

Lemma mihomo_snapshot_of_quiet name : quiet (mihomo_snapshot_of name : SM _).
Proof. unfold mihomo_snapshot_of. quiet_tac. Qed.

Lemma set_status_view state op transport health error c r a d s :
  view s = vw c r a d -> state <> Disconnected ->
  wp (set_status state op transport health error) (fun res s' => res = Ok tt /\ view s' = vw c r a false) s.
Proof.
  intros Hv Hs. unfold set_status, on_status. wp_step. split; [done|].
  by apply (view_undisconnected (fun st => {| pn_state := state; pn_sidecar_state := pn_sidecar_state st;
    pn_site := pn_site st; pn_active_transport := transport; pn_health := health;
    pn_operation_id := op; pn_last_error := error |}) c r a d).
Qed.

Lemma plain_request_spec bounded op id payload a d s :
  view s = vw false false a d -> (exists p, payload = ApplyProfile p) \/ payload = PrepareTunnel ->
  wp (controller_request bounded op (request id payload)) (fun _ s' => view s' = vw false false a d) s.
Proof.
  intros Hv Hp. unfold controller_request. do 2 wp_step.
  eapply wp_mono; [apply controller_call_spec|]. intros res s' E. rewrite E, Hv.
  by destruct Hp as [[p ->]| ->].
Qed.

Lemma apply_profile_spec op action profile a d s :
  view s = vw false false a d ->
  wp (service_request op action (ApplyProfile profile)) (fun _ s' => view s' = vw false false a d) s.
Proof.
  intros Hv. unfold service_request. apply wp_bind, quiet_wp; [by auto with quiet|].
  intros [id|e] s1 E1; [|congruence]. rewrite <- E1 in Hv. apply wp_bind.
  eapply wp_mono; [apply plain_request_spec; [exact Hv|by left; exists profile]|].
  intros [response|e] s2 E2; [|done]. apply quiet_wp; [quiet_tac|congruence].
Qed.

Lemma prepare_tunnel_spec op a d s :
  view s = vw false false a d -> wp (prepare_tunnel op) (fun _ s' => view s' = vw false false a d) s.
Proof.
  intros Hv. unfold prepare_tunnel. cbv zeta. apply wp_bind.
  eapply wp_mono; [apply plain_request_spec; [exact Hv|by right]|].
  intros [response|e] s1 E1; [|done]. apply quiet_wp; [quiet_tac|congruence].
Qed.

Lemma connect_and_gate_spec op transport r a d s :
  view s = vw false r a d ->
  wp (connect_and_gate op transport)
    (fun res s' => exists c, view s' = vw c r a d /\ (is_ok res = true -> c = true)) s.
Proof.
  intros Hv. unfold connect_and_gate. apply wp_bind.
  eapply wp_mono; [apply request_connect_spec, Hv|]. intros [status|e] s1 (c & E1 & Hc); [|by exists c].
  rewrite (Hc eq_refl) in E1. do 2 wp_step. apply wp_bind, wp_lift.
  case_match; [|by exists true]. apply wp_bind, quiet_wp; [by auto with quiet|].
  intros [id|e] s2 E2; [|exists true; by rewrite E2]. rewrite <- E2 in E1. apply wp_bind.
  eapply wp_mono; [apply health_call_spec, E1|]. intros [response|e] s3 E3; [|by exists true].
  apply quiet_wp; [quiet_tac|]. intros res s4 E4. exists true. by rewrite E4.
Qed.

Lemma connect_carriers_spec epoch op a transports : forall last s,
  view s = vw false false a false ->
  wp (connect_carriers epoch op last transports)
    (fun res s' => exists c, view s' = vw c false a false /\ (is_ok res = true -> c = true)) s.
Proof.
  induction transports as [|transport transports IH]; intros last s Hv; [by exists false|].
  cbn [connect_carriers]. apply wp_bind, wp_attempt.
  eapply wp_mono; [apply connect_and_gate_spec, Hv|]. intros [health|e] s1 (c & E1 & Hc).
  { rewrite (Hc eq_refl) in E1. apply quiet_wp; [quiet_tac|]. intros res s2 E2. exists true. by rewrite E2. }
  assert (Hraise : forall e, wp (raise e : SM (TransportKind * NetworkHealth))
    (fun res s' => exists c, view s' = vw c false a false /\ (is_ok res = true -> c = true)) s1)
    by (intros; by exists c).
  assert (Hnext : forall e, wp (disconnect_carrier false op ;! ensure_operation_active epoch ;!
      connect_carriers epoch op e transports)
    (fun res s' => exists c, view s' = vw c false a false /\ (is_ok res = true -> c = true)) s1).
  { intros e'. apply wp_bind. eapply wp_mono; [apply disconnect_carrier_spec, E1|].
    intros [[]|e2] s2 [(c' & E2 & _) Hok]; [|by exists c']. specialize (Hok eq_refl).
    apply wp_bind, quiet_wp; [by auto with quiet|]. intros [[]|e3] s3 E3; rewrite <- E3 in Hok.
    - by apply IH.
    - by exists false. }
  destruct e; cbn [fatal_sidecar_error]; auto.
Qed.

Lemma apply_routes_spec op tunnel mihomo authority a d s :
  view s = vw true false a d ->
  wp (apply_routes op tunnel mihomo authority)
    (fun res s' => exists r, view s' = vw true r a d /\ (is_ok res = true -> r = true)) s.
Proof.
  intros Hv. unfold apply_routes. do 2 wp_step. eapply wp_mono; [apply tracked_route_call_spec|]. simpl.
  intros res s' [(e & -> & E)|E]; rewrite Hv in E; [by exists false|by exists true].
Qed.

Definition connecting (res : Res unit) s : Prop :=
  exists c r a, view s = vw c r a false /\ (r = true -> a = true) /\
    (is_ok res = true -> c = true /\ r = true /\ a = true).

Lemma connecting_err c r a e s : view s = vw c r a false -> (r = true -> a = true) -> connecting (Err e) s.
Proof. intros. by exists c, r, a. Qed.

Lemma commit_spec epoch state transport health s :
  view s = vw true true true false -> state <> Disconnected ->
  wp (commit_connected epoch state transport health) connecting s.
Proof.
  intros Hv Hs. unfold commit_connected. do 2 wp_step. cbv zeta.
  case_match; [by eapply connecting_err|].
  apply wp_bind, quiet_wp; [unfold start_route_heartbeat; quiet_tac|]. intros [[]|e] s1 E1; rewrite <- E1 in Hv.
  - eapply wp_mono; [eapply set_status_view; [exact Hv|done]|]. intros res s2 [-> E2].
    by exists true, true, true.
  - by eapply connecting_err.
Qed.
End safety_of_operations.

#[export] Hint Resolve start_controller_quiet mihomo_snapshot_of_quiet : quiet.

Section safety_of_service.
Context {X B : Type} `{ControllerHandle X, ServiceSurroundings X, ProductionRouteBoundary B}.

Notation SV := (@ProductionNetworkingService X B).
Notation SM A := (Meth SV A).
Implicit Types s : SV.

(** A quiet step of [connect_inner]: what follows sees the same view. *)
Lemma quiet_then {A} (m : SM A) (k : A -> SM unit) c r a s :
  quiet m -> view s = vw c r a false -> (r = true -> a = true) ->
  (forall x s', view s' = vw c r a false -> wp (k x) connecting s') -> wp (bind m k) connecting s.
Proof.
  intros Hm Hv Hr Hk. apply wp_bind, quiet_wp; [done|]. intros [x|e] s' E; rewrite <- E in Hv; [by apply Hk|].
  by eapply connecting_err.
Qed.

(** A step with a known effect on the carrier, with or without an error. *)
Lemma known_then {A} (m : SM A) (k : A -> SM unit) (Q : Res A -> SV -> Prop) s :
  wp m Q s ->
  (forall e s', Q (Err e) s' -> connecting (Err e) s') ->
  (forall x s', Q (Ok x) s' -> wp (k x) connecting s') -> wp (bind m k) connecting s.
Proof.
  intros Hm He Hk. apply wp_bind. eapply wp_mono; [exact Hm|]. intros [x|e] s' HQ; [by apply Hk|by apply He].
Qed.

Lemma status_then state op c r a d s (k : SM unit) :
  view s = vw c r a d -> state <> Disconnected ->
  (forall s', view s' = vw c r a false -> wp k connecting s') ->
  wp (set_status state op None None None ;! k) connecting s.
Proof.
  intros Hv Hs Hk. apply wp_bind. eapply wp_mono; [by eapply set_status_view|].
  intros res s' [-> E]. by apply Hk.
Qed.

Ltac quietly Hv :=
  eapply quiet_then; [first [by auto with quiet|by apply on_status_quiet]|exact Hv|done|];
  clear Hv; intros ? ? Hv.

Lemma connected_state_live profile transport : connected_state profile transport <> Disconnected.
Proof. unfold connected_state. by case_match. Qed.

Lemma connect_inner_spec epoch s :
  view s = vw false false false false -> wp (connect_inner epoch) connecting s.
Proof.
  intros Hv. unfold connect_inner. do 2 wp_step. cbv zeta.
  do 4 quietly Hv.
  eapply known_then; [apply apply_profile_spec, Hv|intros ? ? Hq; by apply (connecting_err _ _ _ _ _ Hq)|].
  clear Hv. intros ? s5 Hv.
  do 2 quietly Hv.
  eapply status_then; [exact Hv|done|]. clear Hv. intros s8 Hv.
  eapply known_then; [apply prepare_tunnel_spec, Hv|intros ? ? Hq; by apply (connecting_err _ _ _ _ _ Hq)|].
  clear Hv. intros tunnel s9 Hv.
  do 2 quietly Hv.
  eapply status_then; [exact Hv|done|]. clear Hv. intros s12 Hv.
  eapply known_then; [apply connect_carriers_spec, Hv|intros ? ? (c & Hq & _); by apply (connecting_err _ _ _ _ _ Hq)|].
  clear Hv. intros [transport health] s13 (c & Hv & Hc). rewrite (Hc eq_refl) in Hv. clear c Hc.
  do 5 quietly Hv.
  do 2 wp_step. match goal with Hv : view ?s = _ |- _ =>
    assert (Hv' : view (ps_set_routes_active true s) = vw true false true false) end.
  { injection Hv as Hh Ha Hd. unfold view. simpl. by rewrite Hh, Hd. }
  eapply known_then; [apply apply_routes_spec, Hv'|intros ? ? (r & Hq & _); by apply (connecting_err _ _ _ _ _ Hq)|].
  clear Hv Hv'. intros ? s19 (r & Hv & Hr). rewrite (Hr eq_refl) in Hv. clear r Hr.
  do 2 quietly Hv.
  apply commit_spec; [exact Hv|apply connected_state_live].
Qed.

(** ** cleaning up *)

Lemma view_inactive c r a d s :
  view s = vw c r a d -> view (ps_set_routes_active false s) = vw c r false d.
Proof. intros Hv. injection Hv as Hh Ha Hd. unfold view. simpl. by rewrite Hh, Hd. Qed.

Definition cleaned c a d (res : Res unit) s : Prop :=
  exists c' r' a', view s = vw c' r' a' d /\ (r' = true -> a' = true) /\
    implb c' c = true /\ implb a' a = true /\
    (res = Ok tt -> c' = false /\ r' = false /\ a' = false).

Lemma cleanup_spec epoch usable c r a d s :
  view s = vw c r a d -> (r = true -> a = true) -> wp (cleanup epoch usable) (cleaned c a d) s.
Proof.
  intros Hv Hr. unfold cleanup. do 2 wp_step. cbv zeta.
  apply wp_bind, quiet_wp; [by auto with quiet|]. intros [[]|e] s1 E1; rewrite <- E1 in Hv.
  2: { exists c, r, a. by destruct c, a. }
  do 2 wp_step.
  assert (Hend : forall a' s2, view s2 = vw c false a' d -> implb a' a = true ->
    (a' = false) -> wp (let! res := attempt (teardown_controller false (op_id (operation_of epoch s)) usable) in
      on_status (pn_set_sidecar_state (if is_ok res then Stopped else CrashLoop)) ;! lift res) (cleaned c a d) s2).
  { intros a' s2 E2 Hle ->. apply wp_bind, wp_attempt.
    eapply wp_mono; [apply teardown_spec, E2|]. intros res s3 [(c' & E3 & Hc) Hok].
    apply wp_bind, quiet_wp; [by apply on_status_quiet|]. intros [[]|e] s4 E4.
    - apply wp_lift. exists c', false, false. rewrite E4. split; [done|]. split; [done|]. split; [done|].
      split; [done|]. intros ->. specialize (Hok eq_refl). rewrite Hok in E3. by injection E3 as <-.
    - exists c', false, false. rewrite E4. by destruct a. }
  apply wp_bind. destruct (ps_routes_active s1) eqn:Ha.
  - apply wp_bind. eapply wp_mono; [apply rollback_spec, Hv|]. intros [[]|e] s2 (r' & E2 & Hle & Hok).
    + wp_step. rewrite (Hok eq_refl) in E2. apply (Hend false); [by eapply view_inactive|by destruct a|done].
    + exists c, r', a. split; [done|]. split; [intros ->; apply Hr; by destruct r|]. by destruct c, a.
  - wp_step. assert (a = false) as -> by (injection Hv as _ Hva _; congruence).
    assert (r = false) as -> by (destruct r; [by specialize (Hr eq_refl)|done]).
    by apply (Hend false).
Qed.

(** ** whole operations *)

Lemma with_lifecycle_exact {A} (m : SM A) (Q : Res A -> SV -> Prop) s :
  (forall s1, view s1 = view s -> wp m (fun r s2 => Q r (ps_set_lifecycle false s2)) s1) ->
  wp (with_lifecycle m) Q s.
Proof.
  intros Hm. unfold with_lifecycle. apply wp_bind, wp_yield. intros s1 E1. do 2 wp_step.
  apply wp_bind, wp_attempt. eapply wp_mono; [apply Hm; by rewrite <- E1|]. intros r s2 HQ. by wp_steps.
Qed.

Lemma dropping_lease_wp {A} (m : SM A) (Q : Res A -> SV -> Prop) s :
  wp m (fun r s1 => forall g, Q r (ps_set_gate g s1)) s -> wp (dropping_lease m) Q s.
Proof.
  intros Hm. unfold dropping_lease. apply wp_bind, wp_attempt. eapply wp_mono; [exact Hm|].
  intros r s1 HQ. do 2 wp_step. apply wp_bind. unfold on_gate, drop_lease. do 2 wp_step. apply wp_lift, HQ.
Qed.

(** How a call of [connect] or [disconnect] that fails leaves the service: as it was,
    disconnected and empty, or in [Error] under its operation. *)
Definition failed v0 (e : NetworkErrorCode) s : Prop :=
  view s = v0 \/
  (view s = vw false false false true /\ pn_last_error (ps_status s) = Some e) \/
  (in_order s /\ pn_state (ps_status s) = Error /\ is_some (pn_operation_id (ps_status s)) = true /\
   is_some (pn_last_error (ps_status s)) = true).

Lemma set_status_disconnected last c r a d s :
  view s = vw c r a d ->
  view (set_status Disconnected None None None last s).2 = vw c r a true.
Proof. intros Hv. injection Hv as Hh Ha _. unfold view. simpl. by rewrite Hh, Ha. Qed.

Lemma wp_clear_active epoch (Q : Res unit -> SV -> Prop) s :
  (forall active, Q (Ok tt) (ps_set_active_operation active s)) -> wp (clear_active_operation epoch) Q s.
Proof.
  intros HQ. unfold clear_active_operation. wp_step. case_match; [apply HQ|].
  specialize (HQ (ps_active_operation s)). by destruct s.
Qed.

Lemma disconnected_view c r a d s :
  view s = vw c r a d -> (r = true -> a = true) -> (d = true -> c = false /\ a = false) ->
  pn_state (ps_status s) = Disconnected -> view s = vw false false false true.
Proof.
  intros Hv Hr Hd Hg. injection Hv as Hh Ha Hdd. rewrite bool_decide_eq_true_2 in Hdd by done. subst d.
  destruct (Hd eq_refl) as [-> ->]. assert (r = false) as -> by (destruct r; [by specialize (Hr eq_refl)|done]).
  unfold view. by rewrite Hh, Ha, bool_decide_eq_true_2.
Qed.

Lemma connect_locked_spec op s :
  in_order s ->
  wp (connect_locked op)
    (fun res s' => match res with
                   | Ok _ => view s' = vw true true true false
                   | Err e => failed (view s) e s'
                   end) s.
Proof.
  intros (c & r & a & d & Hv & Hr & Hd). unfold connect_locked. do 2 wp_step.
  case_match eqn:Hg; [by left|].
  apply negb_false_iff, bool_decide_eq_true_1 in Hg.
  pose proof (disconnected_view c r a d s Hv Hr Hd Hg) as Hv0.
  clear Hv Hr Hd c r a d. apply wp_bind, quiet_wp; [by auto with quiet|].
  intros [[]|e] s1 E1; [|left; congruence]. do 2 wp_step.
  destruct (checked_add _ _ _) as [epoch|]; [|apply wp_raise; by left].
  unfold on_operation. do 2 wp_step. do 2 wp_step. do 2 wp_step. apply wp_bind.
  eapply wp_mono; [eapply set_status_view; [|done]|].
  { transitivity (view s1); [done|]. by rewrite E1, Hv0. }
  intros res s2 [-> E2]. apply wp_bind, wp_attempt.
  eapply wp_mono; [apply connect_inner_spec, E2|]. intros [[]|e] s3 (c & r & a & E3 & Hr & Hok).
  - destruct (Hok eq_refl) as (-> & -> & ->). apply wp_bind, wp_yield. intros s4 E4. wp_steps. congruence.
  - do 2 wp_step. cbv zeta. apply wp_bind, wp_attempt.
    eapply wp_mono; [apply (cleanup_spec _ _ _ _ _ _ _ E3 Hr)|].
    intros [[]|cleanup_error] s4 (c' & r' & a' & E4 & Hr' & _ & _ & Hc).
    + destruct (Hc eq_refl) as (-> & -> & ->). set (error := authoritative_operation_error _ _).
      apply wp_bind. unfold set_status, on_status. wp_step. apply wp_bind, wp_clear_active. intros active.
      wp_step. right. left. split; [|done].
      by apply (set_status_disconnected (Some error) false false false false s4).
    + apply wp_bind. eapply wp_mono; [apply wp_and; [eapply set_status_view; [exact E4|done]|]|].
      { instantiate (1 := fun _ s' => pn_state (ps_status s') = Error /\
          pn_operation_id (ps_status s') = Some op /\ is_some (pn_last_error (ps_status s')) = true). done. }
      intros res s5 [[-> E5] (Hst & Hop & Hle)]. wp_step. right. right.
      split; [by apply (in_order_intro c' r' a')|]. rewrite Hst, Hop, Hle. done.
Qed.

Lemma in_order_view s s' : view s' = view s -> in_order s -> in_order s'.
Proof. intros E (c & r & a & d & Hv & Ho). exists c, r, a, d. by rewrite E. Qed.

Lemma failed_view v0 e s s' :
  view s' = view s -> ps_status s' = ps_status s -> failed v0 e s -> failed v0 e s'.
Proof.
  intros E Est [Hv|[[Hv Hl]|(Ho & Hs & Hop & Hl)]]; unfold failed; rewrite E, Est; [by left|by auto|].
  right. right. split; [|done]. by eapply in_order_view.
Qed.

Definition connect_answer s (res : Res ProductionNetworkStatus) s' : Prop :=
  match res with
  | Ok _ => view s' = vw true true true false
  | Err e => failed (view s) e s'
  end.

(** Under the lease and the lock. *)
Lemma admitted {A} (m : SM A) (P : SV -> Res A -> SV -> Prop) s :
  (forall s1, in_order s1 -> wp m (P s1) s1) ->
  (forall s1 res s2 s2', view s2' = view s2 -> ps_status s2' = ps_status s2 ->
     view s1 = view s -> P s1 res s2 -> P s res s2') ->
  in_order s -> wp (dropping_lease (with_lifecycle m)) (P s) s.
Proof.
  intros Hm HP Ho. apply dropping_lease_wp, with_lifecycle_exact. intros s1 E1.
  eapply wp_mono; [apply Hm; by eapply in_order_view|]. intros res s2 Hq g. by eapply HP; last exact Hq.
Qed.

Lemma connect_spec op s : in_order s -> wp (connect op) (connect_answer s) s.
Proof.
  intros Ho. unfold connect. case_match; [by left|].
  apply wp_bind, quiet_wp; [unfold reserve_connect; quiet_tac|]. intros [id|e] s1 E1; [|by left].
  do 2 wp_step. unfold connect_reserved. cbv zeta. case_match; [congruence|].
  do 2 wp_step. case_match; [apply wp_raise; by left|]. apply wp_bind, wp_try; [by auto with quiet|].
  intros [[]|e] s2 E2; rewrite E1 in E2.
  - eapply wp_mono; [apply (admitted (connect_locked op) connect_answer)|].
    + intros s3 Ho3. by apply connect_locked_spec.
    + intros s3 [st|e] s4 s4' E4 Est E3; simpl; [congruence|]. rewrite <- E3. by apply failed_view.
    + by eapply in_order_view.
    + unfold connect_answer. by rewrite E2.
  - apply wp_bind. unfold on_gate, release_reservation. wp_step. wp_step. wp_step. left.
    transitivity (view s2); [done|congruence].
Qed.

Definition disconnect_answer s (res : Res ProductionNetworkStatus) s' : Prop :=
  match res with
  | Ok _ => view s' = vw false false false true
  | Err e => view s' = view s \/
      (in_order s' /\ pn_state (ps_status s') = Error /\ is_some (pn_operation_id (ps_status s')) = true /\
       is_some (pn_last_error (ps_status s')) = true)
  end.

Lemma disconnect_locked_spec active primary_error s :
  in_order s -> wp (disconnect_locked active primary_error) (disconnect_answer s) s.
Proof.
  intros (c & r & a & d & Hv & Hr & Hd). unfold disconnect_locked. do 2 wp_step.
  case_match eqn:Hg.
  { apply bool_decide_eq_true_1 in Hg.
    pose proof (disconnected_view c r a d s Hv Hr Hd Hg) as Hv0.
    apply wp_bind. destruct active as [epoch|]; [apply wp_clear_active; intros active|wp_step]; by wp_steps. }
  destruct active as [epoch|]; [|by left]. cbv zeta. apply wp_bind.
  eapply wp_mono; [eapply set_status_view; [exact Hv|done]|]. intros res s1 [-> E1].
  apply wp_bind, wp_attempt. eapply wp_mono; [apply (cleanup_spec _ _ _ _ _ _ _ E1 Hr)|].
  intros [[]|error] s2 (c' & r' & a' & E2 & Hr' & _ & _ & Hc).
  - destruct (Hc eq_refl) as (-> & -> & ->). apply wp_bind. unfold set_status, on_status. wp_step.
    apply wp_bind, wp_clear_active. intros active. apply wp_bind, wp_yield. intros s3 E3. wp_steps.
    simpl. rewrite E3. by apply (set_status_disconnected primary_error false false false false s2).
  - apply wp_bind. eapply wp_mono; [apply wp_and; [eapply set_status_view; [exact E2|done]|]|].
    { instantiate (1 := fun _ s' => pn_state (ps_status s') = Error /\
        is_some (pn_operation_id (ps_status s')) = true /\ is_some (pn_last_error (ps_status s')) = true).
      by destruct primary_error. }
    intros res s3 [[-> E3] (Hst & Hop & Hle)]. wp_step. right.
    split; [by apply (in_order_intro c' r' a')|]. by rewrite Hst.
Qed.

Lemma disconnect_answer_view s1 s res s2 s2' :
  view s2' = view s2 -> ps_status s2' = ps_status s2 -> view s1 = view s ->
  disconnect_answer s1 res s2 -> disconnect_answer s res s2'.
Proof.
  intros E Est E1. destruct res as [st|e]; simpl; [congruence|]. rewrite Est.
  intros [Hv|(Ho & Hx)]; [left; congruence|]. right. split; [by eapply in_order_view|done].
Qed.

Lemma disconnect_rest_spec pending s :
  in_order s -> wp (disconnect_rest pending) (disconnect_answer s) s.
Proof.
  intros Ho. unfold disconnect_rest. apply dropping_lease_wp.
  assert (Hend : forall s1, view s1 = view s ->
    wp (with_lifecycle (disconnect_locked pending.1 pending.2))
      (fun res s2 => forall g, disconnect_answer s res (ps_set_gate g s2)) s1).
  { intros s1 E1. apply with_lifecycle_exact. intros s2 E2.
    eapply wp_mono; [apply disconnect_locked_spec; eapply in_order_view; [|exact Ho]; congruence|].
    intros res s3 Ha g. eapply disconnect_answer_view; [..|exact Ha]; [done|done|congruence]. }
  apply wp_bind. destruct (is_some pending.1); [|by apply wp_ret, Hend].
  apply quiet_wp; [by auto with quiet|]. intros [[]|e] s1 E1; [by apply Hend|]. intros g. by left.
Qed.

Lemma disconnect_spec op s : in_order s -> wp (disconnect op) (disconnect_answer s) s.
Proof.
  intros Ho. unfold disconnect. apply wp_bind, quiet_wp; [apply disconnect_request_quiet|].
  intros [pending|e] s1 E1; [|by left]. eapply wp_mono; [apply disconnect_rest_spec; by eapply in_order_view|].
  intros res s2 Ha. by eapply disconnect_answer_view; [..|exact Ha].
Qed.

Lemma failed_order v0 e s : failed v0 e s -> (forall s', view s' = v0 -> in_order s') -> in_order s.
Proof.
  intros [Hv|[[Hv _]|(Ho & _)]] H0v; [by apply H0v| |done]. by exists false, false, false, true.
Qed.

Lemma try_retire_routes_quiet : quiet (try_retire_routes : SM _).
Proof.
  unfold try_retire_routes, service_retirement_preflight. quiet_tac.
Qed.

Lemma connect_order op s : in_order s -> in_order (connect op s).2.
Proof.
  intros Ho. pose proof (connect_spec op s Ho) as Ha. unfold wp in Ha.
  destruct (connect op s) as [[st|e] s']; simpl in *; [by apply (in_order_intro true true true)|].
  apply (failed_order _ _ _ Ha). intros s'' E. by eapply in_order_view.
Qed.

Lemma disconnect_answer_order s res s' : in_order s -> disconnect_answer s res s' -> in_order s'.
Proof.
  intros Ho. destruct res as [st|e]; simpl; [intros; by exists false, false, false, true|].
  intros [E|[Ho' _]]; [by eapply in_order_view|done].
Qed.

Lemma service_step_order ev s : in_order s -> in_order (service_step ev s).
Proof.
  intros Ho. destruct ev as [op others turns|op others turns|others turns|op|turn others|]; simpl; unfold scheduled.
  - by apply connect_order.
  - by eapply disconnect_answer_order; [|apply disconnect_spec].
  - destruct (ps_waiting s) as [|pending waiting]; [done|].
    by eapply disconnect_answer_order; [|apply disconnect_rest_spec].
  - eapply in_order_view; [apply service_cancel_quiet|done].
  - by apply monitor_turn_order.
  - eapply in_order_view; [apply try_retire_routes_quiet|done].
Qed.
End safety_of_service.
