(* ===== verification/ServiceOutcomes.v ===== *)
(** * ServiceOutcomes: executions of the production service

    What holds in every state that a service can reach from its construction, by any
    sequence of calls, any schedule of cancellations and disconnections during them,
    and any answers of sidecar, Mihomo and routes; and how [connect] and [disconnect]
    end. *)

From Stdlib Require Import Ascii String.
From S2P Require Import Prelude Text NetState Config Ipc Sidecar RouteHelperV3 RouteV3Client.
From S2P Require Import ProductionSession ProductionController RouteBoundary ServiceGate ProductionService ProductionServiceSafety.

Section undisturbed.
Context {X B : Type} `{ControllerHandle X, ServiceSurroundings X, ProductionRouteBoundary B}.

Notation SV := (@ProductionNetworkingService X B).
Notation SM A := (Meth SV A).
Implicit Types s : SV.

(** ** [ConnectedPrimary] is never shown of an operation that was asked to stop *)

Definition undisturbed s : Prop :=
  pn_state (ps_status s) = ConnectedPrimary ->
  exists epoch, ps_active_operation s = Some epoch /\
    is_stopping (operation_of epoch s) = false /\
    pn_operation_id (ps_status s) = Some (op_id (operation_of epoch s)).

Lemma undisturbed_same s s' :
  ps_status s' = ps_status s -> ps_operations s' = ps_operations s ->
  ps_active_operation s' = ps_active_operation s -> undisturbed s -> undisturbed s'.
Proof. unfold undisturbed, operation_of. by intros -> -> ->. Qed.

Lemma undisturbed_other s : pn_state (ps_status s) <> ConnectedPrimary -> undisturbed s.
Proof. by intros Hs Hc. Qed.

Lemma modify_undisturbed (f : SV -> SV) :
  (forall s, ps_status (f s) = ps_status s) -> (forall s, ps_operations (f s) = ps_operations s) ->
  (forall s, ps_active_operation (f s) = ps_active_operation s) -> preserves undisturbed (modify f : SM unit).
Proof. intros Hs Ho Ha. apply preserves_modify. intros s. apply undisturbed_same; auto. Qed.

Lemma zoom_undisturbed {T A} (look : SV -> T) put (m : Meth T A) :
  (forall t s, ps_status (put t s) = ps_status s) -> (forall t s, ps_operations (put t s) = ps_operations s) ->
  (forall t s, ps_active_operation (put t s) = ps_active_operation s) -> preserves undisturbed (zoom look put m).
Proof. intros Hs Ho Ha s. unfold zoom. destruct (m (look s)). apply undisturbed_same; simpl; auto. Qed.

Lemma on_gate_undisturbed {A} (m : Meth Gate A) : preserves undisturbed (on_gate m : SM A).
Proof. by apply zoom_undisturbed. Qed.
Lemma on_world_undisturbed {A} (m : Meth X A) : preserves undisturbed (on_world m : SM A).
Proof. by apply zoom_undisturbed. Qed.
Lemma on_routes_undisturbed {A} (m : Meth B A) : preserves undisturbed (on_routes m : SM A).
Proof. by apply zoom_undisturbed. Qed.

(** A status update that keeps the state and the operation, or leaves the state. *)
Lemma on_status_undisturbed (f : ProductionNetworkStatus -> ProductionNetworkStatus) :
  (forall st, pn_state (f st) <> ConnectedPrimary \/
     pn_state (f st) = pn_state st /\ pn_operation_id (f st) = pn_operation_id st) ->
  preserves undisturbed (on_status f : SM unit).
Proof.
  intros Hf s Hs. destruct (Hf (ps_status s)) as [Hn|[He Ho]]; [by apply undisturbed_other|].
  intros Hc. simpl in *. rewrite He in Hc. destruct (Hs Hc) as (epoch & Ha & Hstop & Hid).
  exists epoch. by rewrite Ho.
Qed.

Lemma set_status_undisturbed state op transport health error :
  state <> ConnectedPrimary -> preserves undisturbed (set_status state op transport health error : SM unit).
Proof. intros Hs. apply on_status_undisturbed. by left. Qed.
End undisturbed.

#[export] Hint Resolve on_gate_undisturbed on_world_undisturbed on_routes_undisturbed : preserves.

Ltac undisturbed_tac :=
  repeat first
    [ preserves_step
    | solve [apply modify_undisturbed; intros; reflexivity]
    | solve [apply set_status_undisturbed; discriminate]
    | solve [apply on_status_undisturbed; intros; first [left; discriminate | right; split; reflexivity]] ].

Section undisturbed_operations.
Context {X B : Type} `{ControllerHandle X, ServiceSurroundings X, ProductionRouteBoundary B}.

Notation SV := (@ProductionNetworkingService X B).
Notation SM A := (Meth SV A).
Implicit Types s : SV.

Lemma signal_undisturbed : preserves undisturbed (signal_route_heartbeat : SM unit).
Proof. unfold signal_route_heartbeat. undisturbed_tac. Qed.

Lemma service_cancel_undisturbed op : preserves undisturbed (service_cancel op : SM unit).
Proof.
  unfold service_cancel, with_lease. apply preserves_bind; [by auto with preserves|intros _].
  apply preserves_bind; [apply preserves_attempt|intros r; undisturbed_tac].
  intros s Hs. cbn [bind get]. case_match; [|done]. repeat (case_match; [done|]).
  match goal with |- undisturbed (?m s).2 => change (wp m (fun _ => undisturbed) s) end.
  unfold on_operation, on_status. do 2 wp_step. do 2 wp_step.
  apply preserves_wp; [|by apply undisturbed_other]. undisturbed_tac.
Qed.

Lemma disconnect_request_undisturbed op : preserves undisturbed (disconnect_request op : SM _).
Proof.
  unfold disconnect_request. case_match; [by auto with preserves|].
  apply preserves_bind; [by auto with preserves|intros _]. intros s Hs. cbn [bind get].
  destruct (ps_active_operation s) as [epoch|] eqn:Ha; [|done].
  match goal with |- undisturbed (?m s).2 => change (wp m (fun _ => undisturbed) s) end.
  assert (Hrest : forall e id, preserves undisturbed (signal_route_heartbeat ;!
      attempt (on_world (ch_cancel id)) ;! ret (Some epoch, e) : SM (option Z * option NetworkErrorCode)))
    by (intros; undisturbed_tac).
  unfold on_operation, on_status. do 2 wp_step. apply wp_bind.
  case_match eqn:Hc; wp_step; (apply preserves_wp; [apply Hrest|]); apply undisturbed_other; simpl; [done|].
  intros Hst. destruct (Hs Hst) as (epoch' & Ha' & _ & Hid). simplify_eq.
  by rewrite Hid, bool_decide_eq_true_2, Hst in Hc.
Qed.

Lemma yield_undisturbed : preserves undisturbed (yield_now : SM unit).
Proof.
  intros s Hs. unfold yield_now, modify. simpl. destruct (ps_others s) as [|now later]; [done|].
  assert (Hs' : undisturbed (ps_set_others later s)) by done. revert Hs'.
  generalize (ps_set_others later s). induction now as [|other now IH]; intros t Ht; [done|].
  simpl. apply IH. destruct other as [id|id]; simpl; [by apply service_cancel_undisturbed|].
  pose proof (disconnect_request_undisturbed id t Ht) as Hr.
  by destruct (disconnect_request id t) as [[p|e] t'].
Qed.
End undisturbed_operations.

#[export] Hint Resolve signal_undisturbed yield_undisturbed : preserves.

Section undisturbed_service.
Context {X B : Type} `{ControllerHandle X, ServiceSurroundings X, ProductionRouteBoundary B}.

Notation SV := (@ProductionNetworkingService X B).
Notation SM A := (Meth SV A).
Implicit Types s : SV.

Lemma controller_call_undisturbed {A} bounded (call : Meth X A) entry :
  preserves undisturbed (controller_call bounded call entry : SM A).
Proof. unfold controller_call, note. undisturbed_tac. Qed.

Lemma tracked_undisturbed (call : Meth B unit) entry :
  preserves undisturbed (tracked_route_call call entry : SM unit).
Proof. unfold tracked_route_call, note. undisturbed_tac. Qed.

Lemma next_request_id_undisturbed action : preserves undisturbed (next_request_id action : SM string).
Proof. unfold next_request_id. undisturbed_tac. Qed.

Lemma with_lifecycle_undisturbed {A} (m : SM A) :
  preserves undisturbed m -> preserves undisturbed (with_lifecycle m).
Proof. intros Hm. unfold with_lifecycle. undisturbed_tac. Qed.

Lemma on_monitor_undisturbed f : preserves undisturbed (on_monitor f : SM unit).
Proof. unfold on_monitor. undisturbed_tac. Qed.

Lemma ensure_undisturbed epoch : preserves undisturbed (ensure_operation_active epoch : SM unit).
Proof. unfold ensure_operation_active. undisturbed_tac. Qed.

Lemma ensure_monitor_undisturbed mo : preserves undisturbed (ensure_monitor_operation_active mo : SM unit).
Proof. unfold ensure_monitor_operation_active. pose proof ensure_undisturbed. undisturbed_tac. Qed.
End undisturbed_service.

#[export] Hint Resolve controller_call_undisturbed tracked_undisturbed next_request_id_undisturbed
  with_lifecycle_undisturbed on_monitor_undisturbed ensure_undisturbed ensure_monitor_undisturbed : preserves.

(** The structure of a method, through the definitions it is made of. *)
Ltac undisturbed_deep :=
  unfold teardown_controller, disconnect_carrier, stop_tunnel, confirmed_disconnected,
    monitor_carrier_health, request_status, service_request, controller_request,
    controller_sample_health, controller_shutdown;
  undisturbed_tac.

Section undisturbed_monitor.
Context {X B : Type} `{ControllerHandle X, ServiceSurroundings X, ProductionRouteBoundary B}.

Notation SV := (@ProductionNetworkingService X B).
Notation SM A := (Meth SV A).
Implicit Types s : SV.

Lemma disconnect_carrier_undisturbed bounded op : preserves undisturbed (disconnect_carrier bounded op : SM unit).
Proof. undisturbed_deep. Qed.
Lemma teardown_undisturbed bounded op usable : preserves undisturbed (teardown_controller bounded op usable : SM unit).
Proof. undisturbed_deep. Qed.
Lemma carrier_health_undisturbed op transport : preserves undisturbed (monitor_carrier_health op transport : SM _).
Proof. undisturbed_deep. Qed.

Lemma failure_cleanup_undisturbed mo failure : preserves undisturbed (monitor_failure_cleanup mo failure : SM unit).
Proof.
  unfold monitor_failure_cleanup, rollback_routes. pose proof teardown_undisturbed. undisturbed_tac.
  all: apply with_lifecycle_undisturbed; undisturbed_tac.
Qed.

Lemma try_carrier_undisturbed mo op transport : preserves undisturbed (try_carrier mo op transport : SM _).
Proof.
  unfold try_carrier, request_status, controller_request, forget_carrier.
  pose proof disconnect_carrier_undisturbed. pose proof carrier_health_undisturbed. undisturbed_tac.
Qed.

Lemma try_fallbacks_undisturbed mo op transports : preserves undisturbed (try_fallbacks mo op transports : SM _).
Proof.
  pose proof try_carrier_undisturbed.
  induction transports; simpl; undisturbed_tac.
Qed.

Lemma fallback_undisturbed mo op failed failure :
  preserves undisturbed (monitor_fallback_after_health_failure mo op failed failure : SM _).
Proof.
  pose proof disconnect_carrier_undisturbed. pose proof try_fallbacks_undisturbed.
  apply with_lifecycle_undisturbed. unfold forget_carrier. undisturbed_tac.
Qed.

Lemma publish_undisturbed mo op f (more : SM unit) :
  (forall st, pn_state (f st) <> ConnectedPrimary \/
     pn_state (f st) = pn_state st /\ pn_operation_id (f st) = pn_operation_id st) ->
  preserves undisturbed more -> preserves undisturbed (publish mo op f more).
Proof.
  intros Hf Hmore. unfold publish, or_else, end_health. undisturbed_tac. by apply on_status_undisturbed.
Qed.

Lemma monitor_turn_undisturbed turn : preserves undisturbed (monitor_turn turn : SM unit).
Proof.
  pose proof fallback_undisturbed. pose proof failure_cleanup_undisturbed. pose proof carrier_health_undisturbed.
  assert (Hbad : forall mo op e, preserves undisturbed (after_bad_health mo op e : SM unit)).
  { intros. unfold after_bad_health, end_health. undisturbed_tac.
    all: apply publish_undisturbed; [by left|undisturbed_tac]. }
  unfold monitor_turn. undisturbed_tac.
  - unfold health_turn, or_else, end_health. undisturbed_tac.
    all: apply publish_undisturbed; [by right|undisturbed_tac].
  - unfold lease_turn, or_else, end_lease, monitor_route_heartbeat. undisturbed_tac.
Qed.

Lemma stop_undisturbed : preserves undisturbed (stop_route_heartbeat : SM unit).
Proof.
  pose proof monitor_turn_undisturbed.
  assert (Hturns : forall turns, preserves undisturbed (monitor_turns turns : SM unit))
    by (induction turns; simpl; undisturbed_tac).
  unfold stop_route_heartbeat. undisturbed_tac.
Qed.
End undisturbed_monitor.

#[export] Hint Resolve stop_undisturbed teardown_undisturbed disconnect_carrier_undisturbed : preserves.

(** ** the operation that runs stays the active one *)

Lemma zoom_keeps {S T E A} (P : S -> Prop) (look : S -> T) put (m : M T E A) :
  (forall t s, P s -> P (put t s)) -> preserves P (zoom look put m).
Proof. intros HP s Hs. unfold zoom. destruct (m (look s)). by apply HP. Qed.

(** Steps that do not touch what is kept. *)
Ltac keeps_tac :=
  repeat first
    [ preserves_step
    | solve [apply preserves_modify; intros ? Hs; exact Hs]
    | solve [apply zoom_keeps; intros ? ? Hs; exact Hs] ].

Section running_operation.
Context {X B : Type} `{ControllerHandle X, ServiceSurroundings X, ProductionRouteBoundary B}.

Notation SV := (@ProductionNetworkingService X B).
Notation SM A := (Meth SV A).
Implicit Types s : SV.

Lemma yield_keeps (P : SV -> Prop) :
  (forall later s, P s -> P (ps_set_others later s)) -> (forall waiting s, P s -> P (ps_set_waiting waiting s)) ->
  (forall op, preserves P (service_cancel op)) -> (forall op, preserves P (disconnect_request op)) ->
  preserves P yield_now.
Proof.
  intros Hothers Hwaiting Hcancel Hrequest s Hs. unfold yield_now, modify. simpl.
  destruct (ps_others s) as [|now later]; [done|]. apply (Hothers later) in Hs. revert Hs.
  generalize (ps_set_others later s). induction now as [|other now IH]; intros t Ht; [done|].
  simpl. apply IH. destruct other as [id|id]; simpl; [by apply Hcancel|].
  pose proof (Hrequest id t Ht) as Hr. destruct (disconnect_request id t) as [[p|e] t']; [by apply Hwaiting|done].
Qed.

(** This is the active operation. *)
Definition operating (epoch : Z) (op : string) s : Prop :=
  ps_active_operation s = Some epoch /\ op_id (operation_of epoch s) = op.

Lemma on_operation_running epoch op e f :
  (forall o, op_id (f o) = op_id o) -> preserves (operating epoch op) (on_operation e f).
Proof.
  intros Hf. apply preserves_modify. intros s [Ha Hid]. split; [done|]. unfold operation_of in *. simpl.
  destruct (decide (e = epoch)) as [->|Hne]; [|by rewrite lookup_insert_ne].
  by rewrite lookup_insert_eq, Hf.
Qed.

Lemma yield_running epoch op : preserves (operating epoch op) yield_now.
Proof.
  assert (Hop : forall e, preserves (operating epoch op) (on_operation e request_cancel) /\
    preserves (operating epoch op) (on_operation e request_disconnect)).
  { intros e. split; by apply on_operation_running. }
  apply yield_keeps; [done|done|intros id|intros id].
  - unfold service_cancel, with_lease, signal_route_heartbeat. keeps_tac. apply Hop.
  - unfold disconnect_request, signal_route_heartbeat. keeps_tac; apply Hop.
Qed.
Hint Resolve yield_running : preserves.

Lemma controller_call_running epoch op {A} bounded (call : Meth X A) entry :
  preserves (operating epoch op) (controller_call bounded call entry).
Proof. unfold controller_call, note. keeps_tac. Qed.
Lemma tracked_running epoch op (call : Meth B unit) entry :
  preserves (operating epoch op) (tracked_route_call call entry).
Proof. unfold tracked_route_call, note. keeps_tac. Qed.
Lemma next_request_id_running epoch op action : preserves (operating epoch op) (next_request_id action : SM string).
Proof. unfold next_request_id. keeps_tac. Qed.
Lemma ensure_running epoch op e : preserves (operating epoch op) (ensure_operation_active e : SM unit).
Proof. unfold ensure_operation_active. keeps_tac. Qed.
Lemma with_lifecycle_running epoch op {A} (m : SM A) :
  preserves (operating epoch op) m -> preserves (operating epoch op) (with_lifecycle m).
Proof. intros Hm. unfold with_lifecycle. keeps_tac. Qed.
Hint Resolve controller_call_running tracked_running next_request_id_running ensure_running
  with_lifecycle_running : preserves.

Ltac running_tac :=
  unfold teardown_controller, disconnect_carrier, stop_tunnel, confirmed_disconnected,
    monitor_carrier_health, request_status, service_request, controller_request,
    controller_sample_health, controller_shutdown, rollback_routes, ensure_monitor_operation_active,
    forget_carrier, on_status, set_status, end_health, end_lease, on_monitor, or_else;
  keeps_tac.

Lemma disconnect_carrier_running epoch op bounded id : preserves (operating epoch op) (disconnect_carrier bounded id : SM unit).
Proof. running_tac. Qed.
Lemma teardown_running epoch op bounded id usable :
  preserves (operating epoch op) (teardown_controller bounded id usable : SM unit).
Proof. running_tac. Qed.
Lemma failure_cleanup_running epoch op mo failure :
  preserves (operating epoch op) (monitor_failure_cleanup mo failure : SM unit).
Proof. unfold monitor_failure_cleanup. running_tac. all: apply with_lifecycle_running; running_tac. Qed.
Lemma try_carrier_running epoch op mo id transport : preserves (operating epoch op) (try_carrier mo id transport : SM _).
Proof. unfold try_carrier. running_tac. Qed.
Lemma fallback_running epoch op mo id failed failure :
  preserves (operating epoch op) (monitor_fallback_after_health_failure mo id failed failure : SM _).
Proof.
  assert (Htry : forall ts, preserves (operating epoch op) (try_fallbacks mo id ts : SM _)).
  { induction ts; simpl; pose proof try_carrier_running; keeps_tac. }
  apply with_lifecycle_running. running_tac.
Qed.
Hint Resolve disconnect_carrier_running teardown_running failure_cleanup_running fallback_running : preserves.

Lemma monitor_turn_running epoch op turn : preserves (operating epoch op) (monitor_turn turn : SM unit).
Proof.
  assert (Hbad : forall mo id e, preserves (operating epoch op) (after_bad_health mo id e : SM unit)).
  { intros. unfold after_bad_health, publish. running_tac. }
  assert (Hcall : forall id, preserves (operating epoch op) (monitor_route_heartbeat id : SM unit)).
  { intros. unfold monitor_route_heartbeat. running_tac. }
  unfold monitor_turn, health_turn, lease_turn, publish. running_tac.
Qed.

Lemma stop_running epoch op : preserves (operating epoch op) (stop_route_heartbeat : SM unit).
Proof.
  pose proof monitor_turn_running.
  assert (Hturns : forall turns, preserves (operating epoch op) (monitor_turns turns : SM unit))
    by (induction turns; simpl; keeps_tac).
  unfold stop_route_heartbeat, signal_route_heartbeat. keeps_tac.
Qed.
Hint Resolve stop_running : preserves.

Lemma connect_inner_running epoch op e : preserves (operating epoch op) (connect_inner e : SM unit).
Proof.
  assert (Hcarriers : forall id ts last, preserves (operating epoch op) (connect_carriers e id last ts : SM _)).
  { induction ts; intros; simpl; unfold connect_and_gate; running_tac. }
  unfold connect_inner, start_controller, prepare_tunnel, mihomo_snapshot_of, apply_routes,
    commit_connected, start_route_heartbeat. running_tac.
Qed.

Lemma cleanup_running epoch op e usable : preserves (operating epoch op) (cleanup e usable : SM unit).
Proof. unfold cleanup. running_tac. Qed.

(** Once the monitor is taken out it stays out. *)
Definition unmonitored s : Prop := ps_route_heartbeat s = None.

Lemma signal_unmonitored : preserves unmonitored (signal_route_heartbeat : SM unit).
Proof. intros s Hs. unfold unmonitored in *. simpl. by rewrite Hs. Qed.
Hint Resolve signal_unmonitored : preserves.

Lemma yield_unmonitored : preserves unmonitored yield_now.
Proof.
  apply yield_keeps; [done|done|intros id|intros id].
  - unfold service_cancel, with_lease, on_operation, on_status. keeps_tac.
  - unfold disconnect_request, on_operation, on_status. keeps_tac.
Qed.
Hint Resolve yield_unmonitored : preserves.

(** A cleanup that succeeds leaves no monitor and a stopped sidecar. *)
Lemma cleanup_stops epoch usable s :
  wp (cleanup epoch usable) (fun r s' => r = Ok tt ->
    ps_route_heartbeat s' = None /\ pn_sidecar_state (ps_status s') = Stopped) s.
Proof.
  assert (Hstop : forall s, wp stop_route_heartbeat (fun r s' => r = Ok tt -> unmonitored s') s).
  { assert (Hany : forall A (m : SM A) (Q : Res A -> SV -> Prop) s, (forall r s', Q r s') -> wp m Q s) by (unfold wp; auto).
    intros s1. unfold stop_route_heartbeat. do 5 (apply wp_bind, Hany; intros [?|?] ?; [|done]). do 2 wp_step.
    destruct (ps_route_heartbeat _) eqn:Eh; [|by wp_step]. case_match; by wp_step. }
  unfold cleanup. do 2 wp_step. cbv zeta. apply wp_bind. eapply wp_mono; [apply Hstop|].
  intros [[]|e] s1 Hs1; [|done]. specialize (Hs1 eq_refl). do 2 wp_step. apply wp_bind.
  eapply wp_mono; [apply (preserves_wp unmonitored); [|exact Hs1]|].
  { unfold rollback_routes, tracked_route_call, note. keeps_tac. }
  intros [[]|e] s2 Hs2; [|done]. apply wp_bind, wp_attempt.
  eapply wp_mono; [apply (preserves_wp unmonitored); [|exact Hs2]|].
  { unfold teardown_controller, disconnect_carrier, stop_tunnel, confirmed_disconnected, request_status,
      controller_request, next_request_id, controller_shutdown, controller_call, note. keeps_tac. }
  intros r s3 Hs3. unfold on_status. do 2 wp_step. apply wp_lift. intros ->. by split.
Qed.
End running_operation.

Section executions.
Context {X B : Type} `{ControllerHandle X, ServiceSurroundings X, ProductionRouteBoundary B}.

Notation SV := (@ProductionNetworkingService X B).
Notation SM A := (Meth SV A).
Implicit Types s : SV.

Lemma commit_undisturbed epoch state transport health :
  preserves undisturbed (commit_connected epoch state transport health : SM unit).
Proof.
  intros s Hs. unfold commit_connected. cbn [bind get]. case_match eqn:Hc; [done|].
  rewrite !orb_false_iff in Hc. destruct Hc as [[[Hstop Ha] _] _].
  apply negb_false_iff, bool_decide_eq_true_1 in Ha.
  match goal with |- undisturbed (?m s).2 => change (wp m (fun _ => undisturbed) s) end.
  apply wp_bind. unfold start_route_heartbeat. do 2 wp_step. case_match; [done|].
  wp_step. unfold set_status, on_status. wp_step. intros _. by exists epoch.
Qed.

Lemma connect_inner_undisturbed epoch : preserves undisturbed (connect_inner epoch : SM unit).
Proof.
  pose proof commit_undisturbed.
  assert (Hgate : forall op t, preserves undisturbed (connect_and_gate op t : SM _))
    by (intros; unfold connect_and_gate; undisturbed_deep).
  assert (Hcarriers : forall op ts last, preserves undisturbed (connect_carriers epoch op last ts : SM _))
    by (induction ts; intros; simpl; undisturbed_tac).
  unfold connect_inner, start_controller, prepare_tunnel, mihomo_snapshot_of, apply_routes. undisturbed_deep.
Qed.

Lemma cleanup_undisturbed epoch usable : preserves undisturbed (cleanup epoch usable : SM unit).
Proof. unfold cleanup, rollback_routes. undisturbed_tac. Qed.

(** Statuses other than [ConnectedPrimary], and what is done under them. *)
Lemma status_then_undisturbed {A} state op transport health error (k : SM A) :
  state <> ConnectedPrimary -> (forall s, pn_state (ps_status s) = state -> undisturbed (k s).2) ->
  preserves undisturbed (set_status state op transport health error ;! k).
Proof. intros Hs Hk s _. apply (Hk (set_status state op transport health error s).2 eq_refl). Qed.

Lemma clear_then_undisturbed {A} epoch (k : SM A) s :
  pn_state (ps_status s) <> ConnectedPrimary -> preserves undisturbed k ->
  undisturbed ((clear_active_operation epoch ;! k) s).2.
Proof.
  intros Hs Hk. unfold clear_active_operation, modify. cbn [bind]. apply Hk, undisturbed_other.
  by destruct (bool_decide _).
Qed.

Lemma cleared_undisturbed {A} epoch error (k : SM A) :
  preserves undisturbed k ->
  preserves undisturbed (set_status Disconnected None None None error ;! clear_active_operation epoch ;! k).
Proof.
  intros Hk. apply status_then_undisturbed; [done|]. intros t Ht.
  apply clear_then_undisturbed; [by rewrite Ht|done].
Qed.

Lemma connect_locked_undisturbed op : preserves undisturbed (connect_locked op : SM _).
Proof.
  pose proof connect_inner_undisturbed as Hinner. pose proof cleanup_undisturbed as Hcleanup.
  unfold connect_locked. apply preserves_bind; [by auto with preserves|intros self].
  case_match; [by auto with preserves|].
  do 2 (apply preserves_bind; [by auto with preserves|intros ?]).
  destruct (checked_add _ _ _) as [epoch|]; [|by auto with preserves].
  intros s _. unfold on_operation.
  match goal with |- undisturbed (?m s).2 => change (wp m (fun _ => undisturbed) s) end.
  do 2 wp_step. do 2 wp_step. do 2 wp_step.
  unfold set_status at 1, on_status. do 2 wp_step.
  apply preserves_wp; [|by apply undisturbed_other].
  apply preserves_bind; [undisturbed_tac|intros [ok|e]]; [undisturbed_tac|].
  apply preserves_bind; [undisturbed_tac|intros ?]. cbv zeta.
  apply preserves_bind; [undisturbed_tac|intros [ok|e']]; [|undisturbed_tac].
  by apply cleared_undisturbed; auto with preserves.
Qed.

Lemma disconnect_locked_undisturbed active error : preserves undisturbed (disconnect_locked active error : SM _).
Proof.
  pose proof cleanup_undisturbed as Hcleanup. intros s Hs. unfold disconnect_locked. cbn [bind get].
  case_match eqn:Hd.
  - apply bool_decide_eq_true_1 in Hd. destruct active as [epoch|]; [|done].
    apply (clear_then_undisturbed epoch (let! self := get in ret (ps_status self))); [by rewrite Hd|undisturbed_tac].
  - destruct active as [epoch|]; [|done]. revert s Hs Hd. intros s Hs _.
    match goal with |- undisturbed (?m s).2 => change (wp m (fun _ => undisturbed) s) end.
    apply preserves_wp; [|done]. cbv zeta. apply preserves_bind; [undisturbed_tac|intros _].
    apply preserves_bind; [undisturbed_tac|intros [ok|e']]; [|undisturbed_tac].
    apply cleared_undisturbed. undisturbed_tac.
Qed.

Lemma disconnect_rest_undisturbed pending : preserves undisturbed (disconnect_rest pending : SM _).
Proof.
  unfold disconnect_rest, dropping_lease. pose proof disconnect_locked_undisturbed.
  undisturbed_tac; apply with_lifecycle_undisturbed, disconnect_locked_undisturbed.
Qed.

Lemma service_step_undisturbed ev s : undisturbed s -> undisturbed (service_step ev s).
Proof.
  intros Hs. destruct ev as [op others turns|op others turns|others turns|op|turn others|]; simpl; unfold scheduled.
  - apply (preserves_wp undisturbed (connect op)); [|done].
    unfold connect, reserve_connect, connect_reserved, connect_with_mutation_lease, dropping_lease.
    undisturbed_tac; apply with_lifecycle_undisturbed, connect_locked_undisturbed.
  - apply (preserves_wp undisturbed (disconnect op)); [|done]. unfold disconnect.
    apply preserves_bind; [apply disconnect_request_undisturbed|intros; apply disconnect_rest_undisturbed].
  - destruct (ps_waiting s) as [|pending waiting]; [done|]. by apply disconnect_rest_undisturbed.
  - by apply service_cancel_undisturbed.
  - by apply monitor_turn_undisturbed.
  - apply (preserves_wp undisturbed try_retire_routes); [|done].
    unfold try_retire_routes, service_retirement_preflight. undisturbed_tac.
Qed.

Definition service_reached `{UrlLib} `{Base64Lib} s : Prop :=
  exists broker_bound profile routes instance_id revision world counter counter' s0 evs,
    new_with_start_mode broker_bound profile routes instance_id revision world counter = (Ok s0, counter') /\
    s = service_run evs s0.

Lemma service_run_keeps (P : SV -> Prop) evs : (forall ev s, P s -> P (service_step ev s)) ->
  forall s, P s -> P (service_run evs s).
Proof. intros Hstep. induction evs as [|ev evs IH]; simpl; eauto. Qed.

Lemma new_service `{UrlLib} `{Base64Lib} broker_bound profile routes instance_id revision world counter s counter' :
  new_with_start_mode broker_bound profile routes instance_id revision world counter = (Ok s, counter') ->
  view s = vw false false false true /\ undisturbed s.
Proof.
  unfold new_with_start_mode, bind, lift. destruct (NetworkProfile_validate profile) as [[]|]; [|done].
  case_match; [done|]. simpl. destruct (checked_add _ _ _); [|done].
  simpl. intros [= <- <-]. done.
Qed.

Lemma reached_in_order `{UrlLib} `{Base64Lib} s : service_reached s -> in_order s /\ undisturbed s.
Proof.
  intros (bb & profile & routes & iid & rev & w & n & n' & s0 & evs & Hnew & ->).
  destruct (new_service _ _ _ _ _ _ _ _ _ Hnew) as [Hv Hu]. split.
  - apply service_run_keeps; [apply service_step_order|]. by exists false, false, false, true.
  - apply service_run_keeps; [apply service_step_undisturbed|done].
Qed.

Lemma view_held c r a d s : view s = vw c r a d ->
  held_after (ps_trace s) = Some {| carrier_held := c; routes_held := r |} /\ ps_routes_active s = a /\
  (pn_state (ps_status s) = Disconnected <-> d = true).
Proof.
  intros Hv. injection Hv as Hh Ha Hd. rewrite Hh. split; [done|]. split; [done|]. rewrite <- Hd.
  by rewrite bool_decide_eq_true.
Qed.

(** C1: in every state a service can reach, by any sequence of connects,
    disconnects, cancellations, turns of the monitor and retirements, whatever
    cancellations and disconnections come in at their awaits and whatever
    sidecar, Mihomo and routes answer, its calls have been in order: no carrier
    is connected before the previous one was observed gone, routes are applied
    once and on a carrier, the tunnel and the sidecar are not taken down while
    routes may be applied, a profile is applied and a tunnel prepared only with
    nothing held; routes that may be applied are known to be, and a service that
    says Disconnected holds neither carrier nor routes. *)
Theorem service_resources_in_order `{UrlLib} `{Base64Lib} s :
  service_reached s ->
  exists held, held_after (ps_trace s) = Some held /\
    (routes_held held = true -> ps_routes_active s = true) /\
    (pn_state (ps_status s) = Disconnected -> held = nothing_held /\ ps_routes_active s = false).
Proof.
  intros [(c & r & a & d & Hv & Hr & Hd) _]%reached_in_order.
  destruct (view_held _ _ _ _ _ Hv) as (Hh & Ha & Hdd).
  exists {| carrier_held := c; routes_held := r |}. split; [done|]. split; [simpl; by rewrite Ha|].
  intros Hdis. destruct (view_held _ _ _ _ _ (disconnected_view _ _ _ _ _ Hv Hr Hd Hdis)) as (Hh' & Ha' & _).
  split; [by simplify_eq|done].
Qed.

(** How a service is left: holding exactly this. *)
Definition holds_exactly (carrier routes : bool) s : Prop :=
  held_after (ps_trace s) = Some {| carrier_held := carrier; routes_held := routes |} /\
  ps_routes_active s = routes.

(** The very same service, the lock, the admission gate and the queue at it apart. *)
Record unchanged_under_lock s s' : Prop := {
  un_config : ps_config s' = ps_config s;
  un_start_consumed : ps_start_consumed s' = ps_start_consumed s;
  un_routes : ps_routes s' = ps_routes s;
  un_routes_active : ps_routes_active s' = ps_routes_active s;
  un_status : ps_status s' = ps_status s;
  un_route_heartbeat : ps_route_heartbeat s' = ps_route_heartbeat s;
  un_request_sequence : ps_request_sequence s' = ps_request_sequence s;
  un_operations : ps_operations s' = ps_operations s;
  un_active_operation : ps_active_operation s' = ps_active_operation s;
  un_operation_epoch : ps_operation_epoch s' = ps_operation_epoch s;
  un_world : ps_world s' = ps_world s;
  un_trace : ps_trace s' = ps_trace s;
}.
Definition unchanged s s' : Prop := unchanged_under_lock s s' /\ ps_lifecycle s' = ps_lifecycle s.

(** Cleaned up after the error [e]. *)
Record disconnected_with (e : NetworkErrorCode) s : Prop := {
  dw_state : pn_state (ps_status s) = Disconnected;
  dw_sidecar : pn_sidecar_state (ps_status s) = Stopped;
  dw_transport : pn_active_transport (ps_status s) = None;
  dw_health : pn_health (ps_status s) = None;
  dw_operation : pn_operation_id (ps_status s) = None;
  dw_error : pn_last_error (ps_status s) = Some e;
  dw_active : ps_active_operation s = None;
  dw_monitor : ps_route_heartbeat s = None;
}.

(** Left in [Error] by the operation [op], which is still there to be disconnected. *)
Record stuck_with (op : string) (e : NetworkErrorCode) s : Prop := {
  sw_state : pn_state (ps_status s) = Error;
  sw_transport : pn_active_transport (ps_status s) = None;
  sw_health : pn_health (ps_status s) = None;
  sw_operation : pn_operation_id (ps_status s) = Some op;
  sw_error : pn_last_error (ps_status s) = Some e;
  sw_active : exists epoch, operating epoch op s;
}.

(** *** a service with no operation *)

Definition idle_as s0 s : Prop :=
  unchanged_under_lock s0 s /\ ps_active_operation s0 = None /\ ps_route_heartbeat s0 = None.

Lemma idle_inactive s0 s : idle_as s0 s -> ps_active_operation s = None.
Proof. intros (Hu & Ha & _). by rewrite (un_active_operation _ _ Hu). Qed.
Lemma idle_unmonitored s0 s : idle_as s0 s -> ps_route_heartbeat s = None.
Proof. intros (Hu & _ & Hh). by rewrite (un_route_heartbeat _ _ Hu). Qed.

(** A change of what [unchanged_under_lock] leaves out. *)
Lemma idle_frame s0 s s' : unchanged_under_lock s s' -> idle_as s0 s -> idle_as s0 s'.
Proof. intros [] ([] & Ha & Hh). split; [|done]. constructor; congruence. Qed.

Ltac idle_tac :=
  repeat first
    [ preserves_step
    | solve [apply preserves_modify; intros ? Hs; eapply idle_frame; [|exact Hs]; by constructor]
    | solve [apply zoom_keeps; intros ? ? Hs; eapply idle_frame; [|exact Hs]; by constructor] ].

Lemma signal_idle s0 : preserves (idle_as s0) signal_route_heartbeat.
Proof.
  apply preserves_modify. intros s Hs. eapply idle_frame; [|exact Hs].
  constructor; try done. simpl. by rewrite (idle_unmonitored _ _ Hs).
Qed.

Lemma yield_idle s0 : preserves (idle_as s0) yield_now.
Proof.
  apply yield_keeps.
  - intros later s. apply idle_frame. by constructor.
  - intros waiting s. apply idle_frame. by constructor.
  - intros id. unfold service_cancel, with_lease. apply preserves_bind; [idle_tac|intros _].
    apply preserves_bind; [apply preserves_attempt|intros r; idle_tac].
    intros s Hs. cbn [bind get]. by rewrite (idle_inactive _ _ Hs).
  - intros id. unfold disconnect_request. case_match; [idle_tac|]. apply preserves_bind; [idle_tac|intros _].
    intros s Hs. cbn [bind get]. by rewrite (idle_inactive _ _ Hs).
Qed.
Hint Resolve signal_idle yield_idle : preserves.

Lemma stop_idle s0 : preserves (idle_as s0) stop_route_heartbeat.
Proof.
  assert (Hturns : forall turns, preserves (idle_as s0) (monitor_turns turns)).
  { induction turns as [|turn turns IH]; cbn [monitor_turns]; [idle_tac|]. apply preserves_bind; [|done].
    apply preserves_attempt. intros s Hs. unfold monitor_turn. cbn [bind get]. by rewrite (idle_unmonitored _ _ Hs). }
  unfold stop_route_heartbeat. do 5 (apply preserves_bind; [idle_tac|intros ?]). intros s Hs. cbn [bind get].
  by rewrite (idle_unmonitored _ _ Hs).
Qed.

(** *** the call of [connect] *)

Lemma wp_yield_keeps (I : SV -> Prop) (Q : Res unit -> SV -> Prop) s :
  preserves I yield_now -> I s -> (forall s', I s' -> Q (Ok tt) s') -> wp yield_now Q s.
Proof. intros Hy Hs HQ. apply HQ, Hy, Hs. Qed.

Definition connect_ended op s (r : Res ProductionNetworkStatus) s' : Prop :=
  match r with
  | Ok _ => exists epoch, operating epoch op s'
  | Err e => unchanged_under_lock s s' \/ disconnected_with e s' \/ stuck_with op e s'
  end.

Lemma failed_connect_ends op epoch error usable s0 s  :
  operating epoch op s ->
  wp (let! cleaned := attempt (cleanup epoch usable) in
      match cleaned with
      | Ok _ =>
          set_status Disconnected None None None (Some error) ;!
          clear_active_operation epoch ;!
          raise error
      | Err cleanup_error =>
          let reported := if fatal_sidecar_error error then error else cleanup_error in
          set_status Error (Some op) None None (Some reported) ;!
          raise reported
      end) (connect_ended op s0) s.
Proof.
  intros Hop. apply wp_bind, wp_attempt. eapply wp_mono.
  { apply wp_and; [apply (preserves_wp (operating epoch op)); [apply cleanup_running|done]|apply cleanup_stops]. }
  intros [[]|e] s1 [[Ha Hid] Hc].
  - destruct (Hc eq_refl) as [Hh Hsc]. unfold set_status, on_status, clear_active_operation. do 4 wp_step.
    rewrite bool_decide_eq_true_2 by done. wp_step. right; left. by constructor.
  - cbv zeta. unfold set_status, on_status. do 2 wp_step. wp_step. right; right. constructor; try done. by exists epoch.
Qed.

Lemma connect_locked_ends op s0 s : idle_as s0 s -> wp (connect_locked op) (connect_ended op s0) s.
Proof.
  intros Hi. unfold connect_locked. do 2 wp_step. case_match; [wp_step; left; apply Hi|].
  apply wp_bind. eapply wp_mono; [apply (preserves_wp (idle_as s0)); [apply stop_idle|exact Hi]|].
  intros [[]|e] s1 Hi1; [|left; apply Hi1]. do 2 wp_step.
  destruct (checked_add _ _ _) as [epoch|]; [|wp_step; left; apply Hi1].
  unfold on_operation, set_status at 1, on_status. do 2 wp_step. do 2 wp_step. do 2 wp_step. do 2 wp_step.
  apply wp_bind, wp_attempt. eapply wp_mono; [apply (preserves_wp (operating epoch op)); [apply connect_inner_running|]|].
  { split; [done|]. unfold operation_of. simpl. by rewrite lookup_insert_eq. }
  intros [[]|e] s2 Hop.
  - apply wp_bind, (wp_yield_keeps (operating epoch op)); [apply yield_running|done|]. intros s3 Hop3.
    wp_steps. by exists epoch.
  - do 2 wp_step. cbv zeta. by apply failed_connect_ends.
Qed.

Lemma connect_ended_frame op s0 r s s' :
  unchanged_under_lock s s' -> connect_ended op s0 r s -> connect_ended op s0 r s'.
Proof.
  intros [] He. assert (Hop : forall epoch, operating epoch op s -> operating epoch op s').
  { intros epoch [Ha Hid]. split; [congruence|]. unfold operation_of in *. by rewrite un_operations0. }
  destruct r as [st|e]; [destruct He as [epoch He]; exists epoch; auto|].
  destruct He as [[]|[[]|[? ? ? ? ? [epoch He]]]]; [left|right; left|right; right]; constructor; try congruence.
  exists epoch. auto.
Qed.

Lemma admitted_connect_ends op s :
  ps_active_operation s = None -> ps_route_heartbeat s = None ->
  wp (connect_with_mutation_lease op) (fun r s' => connect_ended op s r s' /\ ps_lifecycle s' = false) s.
Proof.
  intros Ha Hh. apply dropping_lease_wp. unfold with_lifecycle. apply wp_bind.
  apply (wp_yield_keeps (idle_as s)); [apply yield_idle|by split; [constructor|]|]. intros s1 Hi. do 2 wp_step.
  apply wp_bind, wp_attempt. eapply wp_mono; [apply (connect_locked_ends op s)|].
  { eapply idle_frame; [|exact Hi]. by constructor. }
  intros r s2 He. do 2 wp_step. apply wp_lift. intros g. split; [|done].
  eapply connect_ended_frame; [|exact He]. by constructor.
Qed.

Lemma reserve_connect_idle s :
  wp reserve_connect (fun r s' => unchanged s s' /\
    (is_ok r = true -> ps_active_operation s = None /\ ps_route_heartbeat s = None /\ ps_lifecycle s = false)) s.
Proof.
  unfold reserve_connect. do 2 wp_step. case_match eqn:Hg; [wp_step; by split; [split; [constructor|]|]|].
  rewrite !orb_false_iff in Hg. destruct Hg as [[[[[[[[[[_ _] _] Ha] Hh] _] _] _] _] Hl] _].
  unfold on_gate. wp_step. unfold wp. destruct (issue_reservation (ps_gate s)) as [r g]. simpl.
  split; [by split; [constructor|]|]. intros _. by destruct (ps_active_operation s), (ps_route_heartbeat s).
Qed.

Lemma connect_ends op s :
  wp (connect op) (fun r s' => connect_ended op s r s' /\ (is_ok r = false -> ps_lifecycle s' = ps_lifecycle s)) s.
Proof.
  assert (Hrefused : forall e s', unchanged s s' ->
    connect_ended op s (Err e) s' /\ (is_ok (Err e : Res unit) = false -> ps_lifecycle s' = ps_lifecycle s)).
  { intros e s' [Hu Hl]. split; [by left|done]. }
  unfold connect. case_match; [wp_step; apply Hrefused; by split; [constructor|]|].
  apply wp_bind. eapply wp_mono; [apply reserve_connect_idle|]. intros [id|e] s1 [Hu Hok]; [|by apply Hrefused].
  destruct (Hok eq_refl) as (Ha & Hh & Hl). do 2 wp_step. unfold connect_reserved. cbv zeta. case_match; [congruence|].
  do 2 wp_step. case_match; [wp_step; by apply Hrefused|]. apply wp_bind, wp_attempt. unfold on_gate at 1. wp_step.
  unfold wp at 1. destruct (consume_reservation _ _ (ps_gate s1)) as [[[]|e] g]; simpl.
  - destruct Hu as [Hu Hlock]. eapply wp_mono; [apply admitted_connect_ends; simpl|].
    + by rewrite (un_active_operation _ _ Hu).
    + by rewrite (un_route_heartbeat _ _ Hu).
    + intros r s2 [He Hfree]. split; [|intros _; congruence].
      destruct r as [st|e]; [done|]. destruct He as [Hs|He]; [|by right]. left.
      destruct Hu, Hs. constructor; simpl in *; congruence.
  - unfold on_gate, release_reservation. do 2 wp_step. wp_step. apply Hrefused. by destruct Hu as [[] Hlock]; split; [constructor|].
Qed.

Lemma connect_keeps_order op s : in_order s -> wp (connect op) (fun _ => in_order) s.
Proof.
  intros Ho. eapply wp_mono; [by apply connect_spec|]. intros [st|e] s' Ha; [by exists true, true, true, false|].
  eapply failed_order; [exact Ha|]. intros s1 Hv. by eapply in_order_view.
Qed.

(** C21: a call of connect on any reachable service, whatever happens meanwhile,
    ends in one of four ways: connected, with exactly one carrier and its routes
    held and a status that is not Disconnected; refused, with nothing changed;
    failed and cleaned up, holding nothing and Disconnected with that error; or
    in Error, with the operation and an error kept for a later disconnect. *)
Theorem connect_outcome `{UrlLib} `{Base64Lib} s op others turns :
  service_reached s ->
  match connect op (ps_set_others others (ps_set_turns turns s)) with
  | (Ok _, s') =>
      holds_exactly true true s' /\ pn_state (ps_status s') <> Disconnected /\
      exists epoch, operating epoch op s'
  | (Err e, s') =>
      unchanged s s' \/
      (holds_exactly false false s' /\ disconnected_with e s') \/
      stuck_with op e s'
  end.
Proof.
  intros [Ho _]%reached_in_order. set (s1 := ps_set_others others (ps_set_turns turns s)).
  pose proof (connect_spec op s1 Ho) as Ha. pose proof (connect_ends op s1) as [He Hlock].
  pose proof (connect_keeps_order op s1 Ho) as Hin. unfold wp in Ha, Hin.
  destruct (connect op s1) as [[st|e] s'].
  - destruct (view_held _ _ _ _ _ Ha) as (Hh & Hact & Hd). split; [done|]. split; [|done].
    intros Hs. by apply Hd in Hs.
  - destruct He as [Hu|[Hd|Hs]]; [left|right; left|by right; right].
    + split; [by destruct Hu; constructor|by apply Hlock].
    + split; [|done]. destruct Hin as (c & r & a & d & Hv & Hr & Hdd).
      destruct (view_held _ _ _ _ _ (disconnected_view _ _ _ _ _ Hv Hr Hdd (dw_state _ _ Hd))) as (? & ? & _). done.
Qed.

(** A call of disconnect on any reachable service, whatever happens meanwhile,
    releases everything (no carrier, no routes, Disconnected) when it succeeds,
    and otherwise changes nothing that is held or leaves the service in Error
    with the operation and an error kept. *)
Theorem disconnect_outcome `{UrlLib} `{Base64Lib} s op others turns :
  service_reached s ->
  match disconnect op (ps_set_others others (ps_set_turns turns s)) with
  | (Ok _, s') => holds_exactly false false s' /\ pn_state (ps_status s') = Disconnected
  | (Err e, s') => view s' = view s \/
      (pn_state (ps_status s') = Error /\ is_some (pn_operation_id (ps_status s')) = true /\
       is_some (pn_last_error (ps_status s')) = true)
  end.
Proof.
  intros [Ho _]%reached_in_order.
  pose proof (disconnect_spec op (ps_set_others others (ps_set_turns turns s)) Ho) as Ha. unfold wp in Ha.
  destruct (disconnect op _) as [[st|e] s']; simpl in Ha.
  - destruct (view_held _ _ _ _ _ Ha) as (Hh & Hact & Hd). split; [done|]. by apply Hd.
  - destruct Ha as [Hv|(_ & Hx)]; [by left|by right].
Qed.

(** An accepted cancellation or disconnection and the final publication exclude
    each other: in every reachable state, a service that shows ConnectedPrimary
    shows it of its active operation, which nobody has asked to cancel or to
    disconnect. *)
Theorem connected_primary_is_not_stopping `{UrlLib} `{Base64Lib} s :
  service_reached s -> pn_state (ps_status s) = ConnectedPrimary ->
  exists epoch, ps_active_operation s = Some epoch /\
    op_cancel_requested (operation_of epoch s) = false /\
    op_disconnect_requested (operation_of epoch s) = false /\
    pn_operation_id (ps_status s) = Some (op_id (operation_of epoch s)).
Proof.
  intros [_ Hu]%reached_in_order Hs. destruct (Hu Hs) as (epoch & Ha & Hstop & Hid).
  apply orb_false_iff in Hstop as [Hc Hd]. by exists epoch.
Qed.

(** What an accepted cancellation leaves. *)
Lemma cancel_accepted op s s' :
  service_cancel op s = (Ok tt, s') ->
  exists epoch, ps_active_operation s = Some epoch /\ is_stopping (operation_of epoch s') = true /\
    pn_operation_id (ps_status s') = Some op /\ pn_state (ps_status s') = Disconnecting.
Proof.
  intros Hc. refine (wp_run _ (fun r s' => r = Ok tt -> exists epoch, ps_active_operation s = Some epoch /\
    is_stopping (operation_of epoch s') = true /\ pn_operation_id (ps_status s') = Some op /\
    pn_state (ps_status s') = Disconnecting) _ _ _ _ Hc eq_refl).
  unfold service_cancel, with_lease. apply wp_bind. unfold on_gate at 1. wp_step.
  unfold wp at 1. destruct (begin_mutation (ps_gate s)) as [[[]|e] g]; simpl; [|done].
  apply wp_bind, wp_attempt. do 2 wp_step. simpl.
  destruct (ps_active_operation s) as [epoch|] eqn:Ha; [|by wp_steps].
  case_match; [by wp_steps|]. case_match eqn:Hid; [by wp_steps|]. case_match; [by wp_steps|].
  apply negb_false_iff, bool_decide_eq_true_1 in Hid.
  unfold on_operation, on_status, signal_route_heartbeat. do 2 wp_step. do 2 wp_step. do 2 wp_step.
  apply wp_bind, wp_attempt. unfold on_world. wp_step. unfold wp at 1. simpl.
  destruct (ch_cancel op (ps_world s)) as [r x]. wp_steps. simpl. unfold drop_lease. wp_steps.
  intros _. exists epoch. split; [done|]. split; [|done].
  unfold operation_of. simpl. by simplify_map_eq.
Qed.

(** A cancellation that is accepted between the monitor's last check of a
    fallback and its publication is overwritten: the state it set to
    Disconnecting becomes DegradedFallback although the operation is stopping. *)
Theorem cancelled_fallback_is_published s s1 monitor op fallback health error later :
  ps_others s = [OtherCancel op] :: later ->
  ensure_monitor_operation_active monitor s = (Ok tt, s) ->
  op = op_id (operation_of (mo_operation monitor) s) ->
  service_cancel op (ps_set_others later s) = (Ok tt, s1) ->
  let s' := (publish monitor op (published_fallback fallback health error)
               (on_monitor (fun mo => mo_set_failures 0 (mo_set_transport fallback mo))) s).2 in
  pn_state (ps_status s1) = Disconnecting /\
  pn_state (ps_status s') = DegradedFallback /\
  is_stopping (operation_of (mo_operation monitor) s') = true.
Proof.
  intros Hoth Hens Hop Hcancel s'.
  assert (Hact : ps_active_operation s = Some (mo_operation monitor)).
  { revert Hens. unfold ensure_monitor_operation_active, ensure_operation_active. cbn [bind get].
    match goal with |- (if ?c then _ else _) _ = _ -> _ => destruct c; [done|] end.
    cbn [bind get]. match goal with |- (if ?c then _ else _) _ = _ -> _ => destruct c eqn:Hc; [done|] end.
    intros _. rewrite !orb_false_iff in Hc.
    destruct Hc as [[[_ Ha] _] _]. by apply negb_false_iff, bool_decide_eq_true_1 in Ha. }
  destruct (cancel_accepted _ _ _ Hcancel) as (epoch & Ha & Hstop & Hid & Hdis).
  simpl in Ha. simplify_eq.
  assert (Hs' : s' = (on_monitor (fun mo => mo_set_failures 0 (mo_set_transport fallback mo))
                       (ps_set_status (published_fallback fallback health error (ps_status s1)) s1)).2).
  { unfold s', publish, or_else, bind at 1, attempt at 1. rewrite Hens. unfold yield_now, modify, bind at 1.
    rewrite Hoth. simpl. rewrite Hcancel. simpl.
    cbn [bind get]. by rewrite Hid, bool_decide_eq_true_2. }
  rewrite Hs'. done.
Qed.
End executions.
