(* ===== verification/Composition.v ===== *)
(** * Composition: what a production service is built from

    [src-tauri/src/networking/production_composition.rs]: the verified configuration, the
    deferred factory, the initialization from a signed bundle under the lock of the
    policy identity store, the selection of a policy variant with its second reading
    just before the commit, and the materialization on an explicit connect.  The files,
    the clock, the keychain, the random source and the broker are the classes of the
    components; [serde_json] at the manifest is [ManifestLib]. *)

From Stdlib Require Import Ascii String.
From S2P Require Import Prelude Text NetState IpAddr Config Ipc Sidecar Policy PolicyIdentity.
From S2P Require Import ProductionSession SidecarTrust RouteV3Client ProductionService PolicyCatalog Credentials.

Definition POLICY_RESOURCE_NAME : string := "kyclash-networking-policy-v2.json".
Definition POLICY_TRUST_RESOURCE_NAME : string := "kyclash-networking-policy-keys.json".
Definition POLICY_RESOURCE_MAX_BYTES : Z := 64 * 1024.
Definition POLICY_TRUST_RESOURCE_MAX_BYTES : Z := 64 * 1024.
Definition SIDECAR_TRUST_RESOURCE_MAX_BYTES : Z := 16 * 1024.
Definition SIDECAR_RESOURCE_NAME : string := "kyclash-network-sidecar".

(** The compilation target, which selects the manifest. *)
Inductive BuildTarget : Type := MacosAarch64 | MacosX86_64 | OtherTarget.

Definition SIDECAR_TRUST_RESOURCE_NAME (target : BuildTarget) : string :=
  match target with
  | MacosAarch64 => "kyclash-network-sidecar-aarch64-apple-darwin.trust.json"
  | MacosX86_64 => "kyclash-network-sidecar-x86_64-apple-darwin.trust.json"
  | OtherTarget => "kyclash-network-sidecar-unsupported.trust.json"
  end.

Class ManifestLib := { manifest_from_slice : list Z -> option SidecarTrustManifest }.

(** ** the verified configuration *)

Record VerifiedProductionConfiguration := {
  pc_profile : NetworkProfile;
  pc_profile_revision : Z;
  pc_sidecar_executable : string;
  pc_sidecar_trust : SidecarTrustManifest;
}.

Definition validate_trust_metadata (manifest : SidecarTrustManifest) : Res unit :=
  if negb (tm_schema_version manifest =? 1)
    || negb (len (tm_sha256 manifest) =? 64)
    || negb (all_bytes is_ascii_hexdigit (tm_sha256 manifest))
    || is_empty (tm_architecture manifest)
    || (16 <? len (tm_architecture manifest))
    || negb (all_bytes (fun byte => is_ascii_alphanumeric byte || bool_decide (byte = "_"%char))
               (tm_architecture manifest))
    || is_empty (tm_team_id manifest)
    || (64 <? len (tm_team_id manifest))
    || negb (all_bytes is_ascii_alphanumeric (tm_team_id manifest))
    || is_empty (tm_designated_requirement manifest)
    || (1024 <? len (tm_designated_requirement manifest))
  then Err AuthenticationFailed
  else Ok tt.

Section configuration.
Context `{UrlLib} `{Base64Lib}.

Definition configuration_new (profile : NetworkProfile) (profile_revision : Z)
  (sidecar_executable : string) (sidecar_trust : SidecarTrustManifest)
  : Res VerifiedProductionConfiguration :=
  NetworkProfile_validate profile ;?
  let? _ := CredentialReference_parse (identity_ref profile) in
  (if (profile_revision =? 0) || negb (starts_with sidecar_executable "/")
   then Err InvalidConfiguration else Ok tt) ;?
  validate_trust_metadata sidecar_trust ;?
  Ok {| pc_profile := profile; pc_profile_revision := profile_revision;
        pc_sidecar_executable := sidecar_executable; pc_sidecar_trust := sidecar_trust |}.
End configuration.

(** ** the deferred factory *)

Inductive MihomoSource : Type :=
| StaticSource (snapshot : MihomoTunSnapshot)
| LiveMacosSource.

Record DeferredProductionServiceFactory := {
  df_configuration : VerifiedProductionConfiguration;
  df_mihomo_source : MihomoSource;
}.

Definition factory_new (configuration : VerifiedProductionConfiguration)
  : DeferredProductionServiceFactory :=
  {| df_configuration := configuration; df_mihomo_source := StaticSource snapshot_inactive |}.

Definition with_mihomo_source (source : MihomoSource) (self : DeferredProductionServiceFactory)
  : DeferredProductionServiceFactory :=
  {| df_configuration := df_configuration self; df_mihomo_source := source |}.

Definition initial_status_for (configuration : VerifiedProductionConfiguration)
  : ProductionNetworkStatus :=
  {| pn_state := Disconnected;
     pn_sidecar_state := Stopped;
     pn_site := {| ss_id := site_id (site (pc_profile configuration));
                   ss_display_name := display_name (site (pc_profile configuration));
                   ss_private_route_count :=
                     Z.of_nat (length (private_cidrs (site (pc_profile configuration)))) |};
     pn_active_transport := None;
     pn_health := None;
     pn_operation_id := None;
     pn_last_error := None |}.

(** ** initialization from the bundle *)

Record BundleProductionInitializationProvider := {
  bp_resource_dir : string;
  bp_app_data_dir : string;
  bp_now : option Z;
}.

Definition provider_new (resource_dir app_data_dir : string)
  : Res BundleProductionInitializationProvider :=
  if negb (starts_with resource_dir "/") || negb (starts_with app_data_dir "/")
  then Err InvalidConfiguration
  else Ok {| bp_resource_dir := resource_dir; bp_app_data_dir := app_data_dir; bp_now := None |}.

Record PreparedProductionPolicyVariant := {
  pp_variants : list VerifiedProductionPolicyVariant;
  pp_selected : VerifiedProductionPolicyVariant;
  pp_factory : DeferredProductionServiceFactory;
}.

Section initialization.
Context {W : Type} `{Posix W} `{RecordCodec} `{ResourceOs W}.
Context `{UrlLib} `{Base64Lib} `{PolicyLib} `{CatalogLib} `{ManifestLib}.
(** The target and whether the production feature is compiled in. *)
Context (target : BuildTarget) (production_feature : bool).
Notation PM A := (Meth (Proc W) A).

(** A call on the world, beside the counter of temporary names. *)
Definition on_files {A} (m : Meth W A) : PM A :=
  zoom world (fun w p => Build_Proc w (TEMPORARY_SEQUENCE p)) m.

Definition provider_now (self : BundleProductionInitializationProvider) : PM Z :=
  match bp_now self with Some now => ret now | None => on_files (effect unix_now) end.

Definition resources_of (self : BundleProductionInitializationProvider) : string :=
  path_join (bp_resource_dir self) "resources".

Definition bundle_factory (configuration : VerifiedProductionConfiguration)
  : DeferredProductionServiceFactory :=
  match target with
  | OtherTarget => factory_new configuration
  | _ => if production_feature then with_mihomo_source LiveMacosSource (factory_new configuration)
         else factory_new configuration
  end.

(** The manifest of the sidecar: read, decoded and checked. *)
Definition read_manifest (self : BundleProductionInitializationProvider) : PM SidecarTrustManifest :=
  let! manifest_bytes := on_files (read_owned_resource
    (path_join (resources_of self) (SIDECAR_TRUST_RESOURCE_NAME target))
    SIDECAR_TRUST_RESOURCE_MAX_BYTES) in
  let! manifest := lift (ok_or (manifest_from_slice manifest_bytes) AuthenticationFailed) in
  lift (validate_trust_metadata manifest) ;!
  ret manifest.

(** A candidate is classified and must not be rejected. *)
Definition classify_candidate (transaction : PolicyIdentityTransaction W)
  (candidate : PolicyIdentityCandidate) (now : Z) : PM (PolicyIdentityTransaction W) :=
  let! classified := classify transaction candidate now in
  if bool_decide (classified.1 = Reject) then raise PolicySignatureInvalid else ret classified.2.

(** [None]: the lock was not acquired within the fuel. *)
Definition initialize_sync (fuel : nat) (self : BundleProductionInitializationProvider)
  : PM (option DeferredProductionServiceFactory) :=
  let resources := resources_of self in
  let! store := lift (FilePolicyIdentityStore_new (bp_app_data_dir self)) in
  let! begun := begin fuel store in
  match begun with
  | None => ret None
  | Some transaction =>
      let! now := provider_now self in
      let! trust_bytes := on_files (read_owned_resource
        (path_join resources POLICY_TRUST_RESOURCE_NAME) POLICY_TRUST_RESOURCE_MAX_BYTES) in
      let! policy_bytes := on_files (read_owned_resource
        (path_join resources POLICY_RESOURCE_NAME) POLICY_RESOURCE_MAX_BYTES) in
      let! trust := lift (from_json trust_bytes) in
      let! verified := lift (verify trust policy_bytes now) in
      let! candidate := lift (PolicyIdentityCandidate_new (vp_revision verified)
        (vp_envelope_sha256 verified) (vp_key_id verified) (vp_issued_at verified)
        (vp_expires_at verified)) in
      let! transaction := classify_candidate transaction candidate now in
      let! manifest := read_manifest self in
      let! configuration := lift (configuration_new (vp_profile verified) (vp_revision verified)
        (path_join (bp_resource_dir self) SIDECAR_RESOURCE_NAME) manifest) in
      let! commit_now := provider_now self in
      lift (Policy.validate_at verified commit_now) ;!
      let! _ := commit transaction commit_now in
      ret (Some (bundle_factory configuration))
  end.

Definition verify_policy_variants_sync (self : BundleProductionInitializationProvider)
  : PM (list VerifiedProductionPolicyVariant) :=
  let! now := provider_now self in
  let! catalog := on_files (verify_policy_catalog (resources_of self) now) in
  ret (catalog_bindings catalog).

(** [if expected.is_some_and(|expected| expected != binding)]. *)
Definition expect_binding (expected : option VerifiedProductionPolicyVariant)
  (binding : VerifiedProductionPolicyVariant) : Res unit :=
  if is_some_and expected (fun expected => negb (bool_decide (expected = binding)))
  then Err PolicySignatureInvalid else Ok tt.

Definition prepare_policy_variant_sync (fuel : nat) (self : BundleProductionInitializationProvider)
  (catalog_id : string) (expected : option VerifiedProductionPolicyVariant)
  : PM (option PreparedProductionPolicyVariant) :=
  let resources := resources_of self in
  let! store := lift (FilePolicyIdentityStore_new (bp_app_data_dir self)) in
  let! begun := begin fuel store in
  match begun with
  | None => ret None
  | Some transaction =>
      let! now := provider_now self in
      let! first_catalog := on_files (verify_policy_catalog resources now) in
      let! first := lift (catalog_selected first_catalog catalog_id) in
      lift (expect_binding expected first.1) ;!
      let! candidate := lift (PolicyIdentityCandidate_new (vc_revision first_catalog)
        (vc_identity_sha256 first_catalog) "catalog.v1" (vc_issued_at first_catalog)
        (vc_expires_at first_catalog)) in
      let! transaction := classify_candidate transaction candidate now in
      let! manifest := read_manifest self in
      let! commit_now := provider_now self in
      let! final_catalog := on_files (verify_policy_catalog resources commit_now) in
      (if negb (vc_revision final_catalog =? vc_revision first_catalog)
         || negb (bool_decide (vc_identity_sha256 final_catalog = vc_identity_sha256 first_catalog))
         || negb (bool_decide (catalog_bindings final_catalog = catalog_bindings first_catalog))
       then raise PolicySignatureInvalid else ret tt) ;!
      let! selected := lift (catalog_selected final_catalog catalog_id) in
      lift (expect_binding expected selected.1) ;!
      let! configuration := lift (configuration_new (vp_profile selected.2) (vp_revision selected.2)
        (path_join (bp_resource_dir self) SIDECAR_RESOURCE_NAME) manifest) in
      let! _ := commit transaction commit_now in
      ret (Some {| pp_variants := catalog_bindings final_catalog; pp_selected := selected.1;
                   pp_factory := bundle_factory configuration |})
  end.
End initialization.
