(* ===== verification/Materialization.v ===== *)
(** * Materialization: from a configuration to a service

    [DeferredProductionServiceFactory::build_macos] of [production_composition.rs]: on an
    explicit connect the launch material comes from the keychain, the route boundary is
    allocated, and only then the broker is asked for a session, to which controller and
    service are bound. *)

From Stdlib Require Import Ascii String.
From S2P Require Import Prelude Text NetState IpAddr Config Ipc Sidecar ProductionSession RouteV3Client.
From S2P Require Import SidecarTrust StdioRuntime ProductionController TunnelBroker RouteBoundary BrokerBoundRoute.
From S2P Require Import ServiceGate ProductionService Policy PolicyCatalog Credentials Composition.

(** The keychain with its random source, the process-wide counter of route boundaries,
    and the broker. *)
Record MaterializeWorld (S X : Type) := {
  mw_store : S;
  mw_next_incarnation : Z;
  mw_broker : X;
}.
Arguments mw_store {S X} _.
Arguments mw_next_incarnation {S X} _.
Arguments mw_broker {S X} _.

(** What the constructor of the service is given. *)
Record ServiceParts (X V C : Type) := {
  sp_controller :
    @ProductionController (@StdioSidecarRuntime X PreparedTunnelBrokerLauncher TunnelBrokerProcessControl);
  sp_profile : NetworkProfile;
  sp_routes : DeferredV3ProductionRouteBoundary V C;
  sp_instance_id : string;
  sp_profile_revision : Z;
  sp_mihomo_source : MihomoSource;
}.
Arguments sp_controller {X V C} _.
Arguments sp_profile {X V C} _.
Arguments sp_routes {X V C} _.
Arguments sp_instance_id {X V C} _.
Arguments sp_profile_revision {X V C} _.
Arguments sp_mihomo_source {X V C} _.

Section materialize.
Context {S X V C : Type} `{CredentialStore S, RandomSource S, TunnelBrokerGeneration X}.
Context `{Hmac}.
Notation MW := (MaterializeWorld S X).

Definition on_store {A} (m : Meth S A) : Meth MW A :=
  zoom mw_store (fun s w => {| mw_store := s; mw_next_incarnation := mw_next_incarnation w;
                               mw_broker := mw_broker w |}) m.
Definition on_counter {A} (m : Meth Z A) : Meth MW A :=
  zoom mw_next_incarnation (fun n w => {| mw_store := mw_store w; mw_next_incarnation := n;
                                          mw_broker := mw_broker w |}) m.
Definition set_broker (x : X) (w : MW) : MW :=
  {| mw_store := mw_store w; mw_next_incarnation := mw_next_incarnation w; mw_broker := x |}.
Definition on_generation {A} (m : Meth X A) : Meth MW A := zoom mw_broker set_broker m.

(** The launch material: a fresh token and the key of the profile's identity. *)
Definition launch_material (configuration : VerifiedProductionConfiguration)
  : Meth MW SidecarLaunchMaterial :=
  let! auth_token := on_store system_random in
  let! reference := lift (CredentialReference_parse (identity_ref (pc_profile configuration))) in
  let! private_key := on_store (resolve_or_generate_wireguard_material reference) in
  lift (SidecarLaunchMaterial_new auth_token private_key).

(** [helper] is the world of the route helper, which nothing here contacts.  A launcher
    that is not handed on is dropped. *)
Definition build_macos (self : DeferredProductionServiceFactory) (helper : V)
  : Meth MW (ServiceParts X V C) :=
  let configuration := df_configuration self in
  let! material := launch_material configuration in
  let! routes := on_counter (boundary_new helper) in
  let! prepared := on_generation prepare in
  let broker_reference := pl_reference prepared in
  match material_bind material broker_reference with
  | Err error =>
      modify (fun w => set_broker (launcher_drop prepared (mw_broker w)) w) ;!
      raise error
  | Ok bound_launch =>
      let! w := get in
      ret {| sp_controller := spawn_broker_bound_production_controller
               (with_launcher (pc_sidecar_executable configuration) prepared (mw_broker w))
               bound_launch;
             sp_profile := pc_profile configuration;
             sp_routes := routes;
             sp_instance_id := br_sidecar_instance_id broker_reference;
             sp_profile_revision := pc_profile_revision configuration;
             sp_mihomo_source := df_mihomo_source self |}
  end.
End materialize.

(** ** the order of materialization *)

Section order.
Context {S X V C : Type} `{CredentialStoreLaws S, !RandomSource S, TunnelBrokerGeneration X}.
Context `{Hmac}.
Notation MW := (MaterializeWorld S X).

(** The random source gives 32 bytes and does not touch the store. *)
Hypothesis random_generates : generates (system_random (S := S)).

(** The key and the token that a launch is bound to. *)
Definition material_ready (configuration : VerifiedProductionConfiguration) (s : S)
  (material : SidecarLaunchMaterial) : Prop :=
  length (lm_auth_token material) = 32%nat /\ length (lm_private_key material) = 32%nat /\
  exists reference, CredentialReference_parse (identity_ref (pc_profile configuration)) = Ok reference /\
    stored s reference = Some (lm_private_key material).

Lemma launch_material_spec configuration (w : MW) :
  wp (launch_material configuration) (fun (r : Res SidecarLaunchMaterial) (w' : MW) =>
    mw_broker w' = mw_broker w /\ keeps_values (mw_store w) (mw_store w') /\
    forall material, r = Ok material -> material_ready configuration (mw_store w') material) w.
Proof.
  unfold launch_material, on_store. do 2 wp_step. destruct random_generates as [Hk Hl].
  specialize (Hk (mw_store w)). specialize (Hl (mw_store w)). unfold wp at 1.
  destruct (system_random (mw_store w)) as [[token|e] s1] eqn:Et; cbn [fst snd] in *; [|done].
  do 2 wp_step. destruct (CredentialReference_parse _) as [reference|e] eqn:Er; [|done]. do 2 wp_step.
  unfold resolve_or_generate_wireguard_material. wp_step. unfold wp at 1. cbn [mw_store].
  destruct (resolve_or_generate_with_status reference system_random s1) as [res s2] eqn:Eres.
  destruct (resolve_spec _ _ _ _ _ random_generates Eres) as [Hk2 Hres].
  cbn [fst snd]. assert (Hkeep : keeps_values (mw_store w) s2) by (intros x v Hx; auto).
  destruct res as [[key created]|e]; [|done]. do 2 wp_step. cbn.
  unfold lift, SidecarLaunchMaterial_new. destruct (Hres key created eq_refl) as (Hs & Hlen & _).
  destruct (_ || _) eqn:E; cbn; (split; [done|]; split; [done|]); [done|]. intros ? [= <-].
  split_and!; [by apply Hl|done|]. eauto.
Qed.

(** Building a production service contacts the tunnel broker only after the
    sidecar is verified and the credentials are stored, never replaces a stored
    credential, and on success the service's instance, launch context, profile
    and routes belong to the one broker session. *)
Theorem broker_is_asked_last (self : DeferredProductionServiceFactory) (helper : V) (w : MW) r w' :
  build_macos (C := C) self helper w = (r, w') ->
  (* until every local part exists, the broker is not contacted *)
  (mw_broker w' = mw_broker w \/
   exists material, material_ready (df_configuration self) (mw_store w') material) /\
  (* stored credentials are never replaced *)
  (forall x v, stored (mw_store w) x = Some v -> stored (mw_store w') x = Some v) /\
  (* the parts belong together *)
  (forall parts, r = Ok parts ->
     exists reference launch, TunnelBrokerSessionReference_validate reference = Ok tt /\
       sp_instance_id parts = br_sidecar_instance_id reference /\
       bl_reference launch = reference /\
       lc_instance_id (bl_context launch) = sp_instance_id parts /\
       material_ready (df_configuration self) (mw_store w')
         {| lm_auth_token := lc_auth_token (bl_context launch);
            lm_private_key := lc_private_key (bl_context launch) |} /\
       sp_controller parts = spawn_broker_bound_production_controller
         (pc_runtime (sp_controller parts)) launch /\
       sp_profile parts = pc_profile (df_configuration self) /\
       db_active (sp_routes parts) = None /\ db_retired (sp_routes parts) = false).
Proof.
  intros Hrun. pattern r, w'. eapply wp_run; [|exact Hrun]. clear Hrun r w'.
  unfold build_macos, on_counter, on_generation. wp_step.
  eapply wp_mono; [apply launch_material_spec|]. intros [material|e] w1 (Hb1 & Hk1 & Hm1).
  2: { split_and!; [by left|exact Hk1|done]. }
  specialize (Hm1 _ eq_refl). do 2 wp_step. unfold wp at 1.
  destruct (boundary_new helper (mw_next_incarnation w1)) as [[routes|e] n] eqn:Er; cbn [fst snd].
  2: { split_and!; [by left|exact Hk1|done]. }
  do 2 wp_step. unfold wp at 1. cbn [mw_broker]. destruct (prepare (mw_broker w1)) as [[prepared|e] x] eqn:Ep;
    cbn [fst snd]; [|split_and!; [right; by exists material|exact Hk1|done]].
  destruct (material_bind material (pl_reference prepared)) as [launch|e] eqn:Eb.
  2: { do 3 wp_step. split_and!; [right; by exists material|exact Hk1|done]. }
  do 3 wp_step. split_and!; [right; by exists material|exact Hk1|]. intros parts [= <-].
  unfold material_bind in Eb. peel_ok Eb. injection Eb as Hl.
  exists (pl_reference prepared), launch. rewrite <- Hl. split_and!; try done; cbn.
  all: unfold boundary_new, bind, ret in Er; destruct (issuer_allocate _) as [[issuer|e] n']; [|done].
  all: by injection Er as <- _.
Qed.
End order.
