(* ===== verification/CompositionSafety.v ===== *)
(** * CompositionSafety: nothing is committed before everything is verified

    Whatever fails while a production configuration is composed, the durable policy
    identity is the one found; when it succeeds, the configuration is that of a policy
    signed by a trusted key, accepted by the identity store and durably recorded; a
    selected variant grants exactly its compiled routes. *)

From Stdlib Require Import Ascii String.
From S2P Require Import Prelude Text NetState IpAddr Config Ipc Sidecar Policy PolicyIdentity PolicyIdentitySafety.
From S2P Require Import ProductionSession SidecarTrust RouteV3Client ProductionService PolicyCatalog Credentials Composition.

(** Reading a resource or the clock changes no record of the identity store. *)
Class ResourceLaws (W : Type) `{PosixView W, ResourceOs W} := {
  law_resource_open : forall path w, kept w (resource_open path w).2;
  law_resource_metadata : forall f w, kept w (resource_metadata f w).2;
  law_resource_read : forall f n w, kept w (resource_read f n w).2;
  law_unix_now : forall w, kept w (unix_now w).2;
}.

Section safety.
Context {W : Type} `{PosixLaws W} `{RecordCodecLaws} `{!ResourceOs W, !ResourceLaws W}.
Context `{UrlLib} `{Base64Lib} `{PolicyLib} `{CatalogLib} `{ManifestLib}.
Context (target : BuildTarget) (production_feature : bool).
Notation PM A := (Meth (Proc W) A).

#[local] Instance kept_preorder : PreOrder (kept (W := W)).
Proof. split; [by intros w d|]. intros a b c Hab Hbc d. by rewrite Hbc, Hab. Qed.

(** A method of the world that keeps the records. *)
Definition keeps_records {E A} (m : M W E A) : Prop := forall w, kept w (m w).2.

Lemma keeps_policy_bind {A B} (m : Meth W A) (k : A -> Meth W B) :
  keeps_records m -> (forall a, keeps_records (k a)) -> keeps_records (bind m k).
Proof.
  intros Hm Hk w. unfold bind. specialize (Hm w). destruct (m w) as [[a|e] w1]; [|done].
  etransitivity; [exact Hm|apply Hk].
Qed.

Lemma keeps_resource {A} (m : M W unit A) : keeps_records m -> keeps_records (resource m).
Proof.
  intros Hm w. unfold resource, bind, capture, lift. specialize (Hm w). by destruct (m w).
Qed.

Lemma keeps_pure {A} (r : Res A) : keeps_records (lift r).
Proof. by intros w. Qed.

Lemma keeps_read path n : keeps_records (read_owned_resource path n).
Proof.
  unfold read_owned_resource, read_owned_resource_with_hook.
  apply keeps_policy_bind; [apply keeps_resource; intros w; apply law_resource_open|intros f].
  apply keeps_policy_bind; [apply keeps_resource; intros w; apply law_resource_metadata|intros before].
  case_match; [by intros w|]. apply keeps_policy_bind; [by intros w|intros _].
  apply keeps_policy_bind; [apply keeps_resource; intros w; apply law_resource_read|intros b].
  apply keeps_policy_bind; [apply keeps_resource; intros w; apply law_resource_metadata|intros after].
  case_match; by intros w.
Qed.

Lemma keeps_rounds resources trust now locked s :
  keeps_records (catalog_rounds resources trust now locked s).
Proof.
  revert s. induction locked as [|l locked IH]; intros s; cbn; [by intros w|].
  apply keeps_policy_bind; [|intros s1; apply IH]. unfold catalog_round.
  apply keeps_policy_bind; [apply keeps_read|intros b].
  do 2 (apply keeps_policy_bind; [apply keeps_pure|intros ?]). by intros w.
Qed.

Lemma keeps_catalog resources now : keeps_records (verify_policy_catalog resources now).
Proof.
  unfold verify_policy_catalog. apply keeps_policy_bind; [apply keeps_read|intros cb].
  do 2 (apply keeps_policy_bind; [apply keeps_pure|intros ?]).
  apply keeps_policy_bind; [apply keeps_read|intros tb]. apply keeps_policy_bind; [apply keeps_pure|intros trust].
  apply keeps_policy_bind; [apply keeps_rounds|intros s]. apply keeps_policy_bind; [apply keeps_pure|intros _].
  by intros w.
Qed.

(** ** the same for the process *)

Lemma respects_files {A} (m : Meth W A) : keeps_records m -> respects kept (on_files m).
Proof.
  intros Hm p. unfold wp, on_files, zoom. specialize (Hm (world p)). by destruct (m (world p)).
Qed.

Lemma respects_now self : respects kept (provider_now (W := W) self).
Proof.
  unfold provider_now. case_match; [by intros p|]. apply respects_files. intros w.
  pose proof (law_unix_now w) as Hn. unfold effect. by destruct (unix_now w).
Qed.

Lemma respects_pure {A} (r : Res A) : respects kept (lift r : PM A).
Proof. by intros p. Qed.

Lemma respects_manifest self : respects kept (read_manifest (W := W) target self).
Proof.
  unfold read_manifest. apply respects_bind; [exact _|apply respects_files, keeps_read|intros b].
  do 2 (apply respects_bind; [exact _|apply respects_pure|intros ?]). by intros p.
Qed.

Lemma respects_classify t c now : respects kept (classify_candidate (W := W) t c now).
Proof.
  unfold classify_candidate. apply respects_bind; [exact _|apply respects_kept, calm_classify|intros [d t']].
  case_match; by intros p.
Qed.

(** ** one step before the commit *)

(** Until the commit an early return leaves the records as they were. *)
Lemma wp_before {A B} (m : PM A) (k : A -> PM B) (Q : Res B -> Proc W -> Prop) p0 p :
  respects kept m -> kept (world p0) (world p) ->
  (forall e p1, kept (world p0) (world p1) -> Q (Err e) p1) ->
  (forall a p1, m p = (Ok a, p1) -> kept (world p0) (world p1) -> wp (k a) Q p1) ->
  wp (bind m k) Q p.
Proof.
  intros Hm Hp He Hk. apply wp_bind. specialize (Hm p). unfold wp in Hm |- *.
  destruct (m p) as [[a|e] p1] eqn:E; cbn in *.
  - apply Hk; [done|]. by etransitivity.
  - apply He. by etransitivity.
Qed.

Lemma configuration_new_ok profile revision exe manifest configuration :
  configuration_new profile revision exe manifest = Ok configuration ->
  configuration = {| pc_profile := profile; pc_profile_revision := revision;
                     pc_sidecar_executable := exe; pc_sidecar_trust := manifest |} /\
  NetworkProfile_validate profile = Ok tt /\ is_ok (CredentialReference_parse (identity_ref profile)) = true /\
  revision <> 0 /\ starts_with exe "/" = true /\ validate_trust_metadata manifest = Ok tt.
Proof.
  unfold configuration_new. intros Hc. peel_ok Hc. injection Hc as <-.
  destruct (_ || _) eqn:E in Ha1; [done|]. reflect_bools. rewrite Ha0. by split_and!.
Qed.

Lemma classified_wf t c now p t' p' :
  transaction_wf t -> classify_candidate t c now p = (Ok t', p') ->
  transaction_wf t' /\ candidate t' = Some c /\ ino_of (networking t') = ino_of (networking t).
Proof.
  intros Ht. unfold classify_candidate, bind.
  pose proof (classify_wf t c now p Ht) as Hwf. unfold wp in Hwf.
  destruct (classify t c now p) as [[[d t1]|e] p1] eqn:E; [|done]. cbn.
  case_bool_decide; [done|]. intros [= <- <-]. split; [by apply (Hwf d t1)|].
  unfold classify in E. destruct (_ || _); [done|]. unfold bind, lift in E.
  destruct (validate_at c now); [|done]. destruct (ensure_attached t p) as [[[]|] p2]; [|done].
  unfold ret in E. injection E as <- <- <-. done.
Qed.

(** ** the commit at the end *)

(** What a composition may do: leave every record, or reach the commit of a candidate
    in a directory, with the facts [P] established, and answer [b] if it succeeds. *)
Definition composes {B} (P : DirectoryIdentity -> PolicyIdentityCandidate -> Z -> B -> Prop)
  p (r : Res (option B)) p' : Prop :=
  (kept (world p) (world p') /\ (forall b, r <> Ok (Some b))) \/
  (exists t c now b p1, P (ino_of (networking t)) c now b /\ kept (world p) (world p1) /\
     transaction_wf t /\ candidate t = Some c /\
     (let! _ := commit t now in ret (Some b)) p1 = (r, p')).

Lemma composes_early {B} P p e p' : kept (world p) (world p') -> composes (B := B) P p (Err e) p'.
Proof. intros Hk. left. by split. Qed.

(** The record in directory [d] names the candidate, which is in its validity period. *)
Definition recorded (w : W) (d : DirectoryIdentity) (c : PolicyIdentityCandidate) (now : Z) : Prop :=
  issued_at c <= now < expires_at c /\
  parsed (record_of w d) = Ok (Some (Identity (record_of_candidate c))).

(** Consequences of reaching the commit last. *)
Lemma composes_sound {B} (P : DirectoryIdentity -> PolicyIdentityCandidate -> Z -> B -> Prop) p r p' :
  composes P p r p' ->
  (forall d, record_of (world p') d = record_of (world p) d \/
     higher (record_of (world p) d) (record_of (world p') d) /\
     exists c now b, P d c now b /\ recorded (world p') d c now) /\
  (forall b, r = Ok (Some b) -> exists d c now, P d c now b /\ recorded (world p') d c now).
Proof.
  intros [[Hk Hn]|(t & c & now & b & p1 & HP & Hk & Hwf & Hc & Hrun)].
  { split; [by left|]. intros b ->. by destruct (Hn b). }
  unfold bind in Hrun. destruct (commit t now p1) as [rc p2] eqn:E.
  destruct (wp_run _ _ _ _ _ (commit_sound t now p1 Hwf) E) as (Hle & Hacc & Hnames).
  assert (Hp2 : p' = p2) by (by destruct rc; injection Hrun). subst p'. split.
  - intros d. rewrite <- (Hk d). destruct (Hle d) as [Heq|Hhi]; [by left|].
    destruct (decide (record_of (world p2) d = record_of (world p1) d)) as [?|Hne]; [by left|].
    right. split; [done|]. destruct (Hnames d Hne) as (-> & c' & Hc' & Hv & Hrec).
    rewrite Hc in Hc'. injection Hc' as <-. exists c, now, b.
    apply candidate_valid_at in Hv as (_ & _ & _ & Hv). by split_and!.
  - intros b' ->. destruct rc as [dec|e]; [|done]. injection Hrun as <-.
    destruct (Hacc dec eq_refl) as (c' & st & Hc' & Hv & _ & _ & _ & Hrec).
    rewrite Hc in Hc'. injection Hc' as <-. eexists _, c, now.
    apply candidate_valid_at in Hv as (_ & _ & _ & Hv). by split_and!.
Qed.

Lemma candidate_new_ok revision digest key issued expires c :
  PolicyIdentityCandidate_new revision digest key issued expires = Ok c ->
  c = {| PolicyIdentity.revision := revision; envelope_sha256 := digest; key_id := key;
         issued_at := issued; expires_at := expires |}.
Proof. unfold PolicyIdentityCandidate_new. intros Hc. peel_ok Hc. by injection Hc as <-. Qed.

(** One step of a composition that began at [start] with the records as they were. *)
Ltac before start :=
  apply wp_before with (p0 := start);
    [solve [eauto with composition nocore]|solve [assumption|reflexivity]|intros; by apply composes_early|cbv beta iota].

#[local] Hint Resolve respects_pure respects_now respects_manifest respects_classify
  keeps_begin respects_files keeps_read keeps_catalog : composition.

(** The store of the application's data directory, opened at [p], and its directory. *)
Definition opens_store (fuel : nat) (self : BundleProductionInitializationProvider)
  (p : Proc W) (t : PolicyIdentityTransaction W) (opened : Proc W) (d : DirectoryIdentity) : Prop :=
  exists store, FilePolicyIdentityStore_new (bp_app_data_dir self) = Ok store /\
    begin fuel store p = (Ok (Some t), opened) /\ d = ino_of (networking t).

(** The configuration handed out: the profile and revision of the policy, the bundled
    sidecar and its manifest. *)
Definition configures (self : BundleProductionInitializationProvider) (policy : VerifiedNetworkPolicy)
  (manifest : SidecarTrustManifest) (configuration : VerifiedProductionConfiguration) : Prop :=
  configuration =
    {| pc_profile := vp_profile policy; pc_profile_revision := vp_revision policy;
       pc_sidecar_executable := path_join (bp_resource_dir self) SIDECAR_RESOURCE_NAME;
       pc_sidecar_trust := manifest |}.

(** The bytes of a resource of the bundle, read in the state [s]. *)
Definition reads_resource (self : BundleProductionInitializationProvider) (name : string) (limit : Z)
  (s : Proc W) (bytes : list Z) (s' : Proc W) : Prop :=
  on_files (read_owned_resource (path_join (resources_of self) name) limit) s = (Ok bytes, s').

(** What is established before a policy may be committed in directory [d], along the run
    from [p]: the store is opened, the clock says [read_at], the trust bundle and then the
    policy are read from the bundle, the candidate is classified at [read_at], the manifest
    is read, and the clock says [now] for the commit.  The policy is signed by a key of
    that bundle and in force at both times. *)
Definition signed_policy (fuel : nat) (self : BundleProductionInitializationProvider) (p : Proc W)
  (d : DirectoryIdentity) (c : PolicyIdentityCandidate) (now : Z)
  (factory : DeferredProductionServiceFactory) : Prop :=
  exists t s0 read_at s1 trust_bytes s2 policy_bytes s3 t' s4 manifest s5 s6 trust verified payload,
    opens_store fuel self p t s0 d /\
    provider_now self s0 = (Ok read_at, s1) /\
    reads_resource self "kyclash-networking-policy-keys.json" (64 * 1024) s1 trust_bytes s2 /\
    reads_resource self "kyclash-networking-policy-v2.json" (64 * 1024) s2 policy_bytes s3 /\
    classify_candidate t c read_at s3 = (Ok t', s4) /\
    read_manifest target self s4 = (Ok manifest, s5) /\
    provider_now self s5 = (Ok now, s6) /\
    from_json trust_bytes = Ok trust /\ authentic trust policy_bytes verified payload /\
    in_force verified read_at /\ in_force verified now /\
    configures self verified manifest (df_configuration factory) /\
    c = {| revision := vp_revision verified; envelope_sha256 := vp_envelope_sha256 verified;
           key_id := vp_key_id verified; issued_at := vp_issued_at verified;
           expires_at := vp_expires_at verified |}.

Lemma bundle_factory_configuration configuration :
  df_configuration (bundle_factory target production_feature configuration) = configuration.
Proof. unfold bundle_factory. by destruct target, production_feature. Qed.

Lemma on_files_ok {A} (m : Meth W A) p a p' :
  on_files m p = (Ok a, p') -> m (world p) = (Ok a, world p').
Proof. unfold on_files, zoom. destruct (m (world p)) as [r w]. by intros [= -> <-]. Qed.

Lemma initialize_composes fuel self p :
  wp (initialize_sync target production_feature fuel self) (composes (signed_policy fuel self p) p) p.
Proof.
  unfold initialize_sync. before p. intros store p0 [= Hst <-] Hp0. before p. intros begun p1 Hb Hp1.
  destruct begun as [t|]; [|wp_step; left; by split].
  assert (Ht : transaction_wf t) by by apply (wp_run _ _ _ _ _ (begin_wf fuel store p) Hb).
  before p. intros now p2 Hnow Hp2. before p. intros tb p3 Htb Hp3. before p. intros pb p4 Hpb Hp4.
  before p. intros trust p5 [= Htr <-] Hp5. before p. intros verified p6 [= Hv <-] Hp6.
  before p. intros c p7 [= Hc <-] Hp7. apply candidate_new_ok in Hc.
  before p. intros t' p8 Hcl Hp8. destruct (classified_wf _ _ _ _ _ _ Ht Hcl) as (Ht' & Hc' & Hd).
  before p. intros manifest p9 Hman Hp9. before p. intros configuration p10 [= Hconf <-] Hp10.
  apply configuration_new_ok in Hconf as (-> & _).
  before p. intros commit_now p11 Hcn Hp11. before p. intros [] p12 [= Hval <-] Hp12.
  apply verify_ok in Hv as ((payload & Ha) & _ & Hf). apply validate_at_in_force in Hval.
  right. exists t', c, commit_now. eexists _, p11. split_and!; [|done..|apply surjective_pairing].
  rewrite Hd. exists t, p1, now, p2, tb, p3, pb, p4, t', p8, manifest, p9, p11, trust, verified, payload.
  split_and!; try done; [by exists store|]. by rewrite bundle_factory_configuration.
Qed.

(** C12: initialization from the bundle changes the durable policy record only
    for a policy that was signed by the trusted key and is valid now, never
    lowers a recorded revision, and hands out a service factory only when the
    record on disk names exactly that policy. *)
Theorem initialization_commits_only_verified_policy fuel self p r p' :
  initialize_sync target production_feature fuel self p = (r, p') ->
  (forall d, record_of (world p') d = record_of (world p) d \/
     higher (record_of (world p) d) (record_of (world p') d) /\
     exists c now factory, signed_policy fuel self p d c now factory /\ recorded (world p') d c now) /\
  (forall factory, r = Ok (Some factory) -> exists d c now,
     signed_policy fuel self p d c now factory /\ recorded (world p') d c now).
Proof.
  intros Hrun. exact (composes_sound _ _ _ _ (wp_run _ _ _ _ _ (initialize_composes fuel self p) Hrun)).
Qed.

(** What is established before a variant of the catalogue may be committed, along the run
    from [p]: the store is opened, the catalogue is verified a first time, the candidate
    classified and the manifest read; then, with the clock at [now], the catalogue, the
    trust bundle and the envelope of the variant are read from the bundle, one after the
    other; the envelope is signed by a key of that bundle, in force, and routes what the
    variant of that name is locked to; the selected binding is one of the bindings of the
    catalogue and describes that envelope; and the candidate names the digest of the
    catalogue, of the trust bundle and of all those bindings. *)
Definition signed_variant (fuel : nat) (self : BundleProductionInitializationProvider)
  (catalog_id : string) (expected : option VerifiedProductionPolicyVariant) (p : Proc W)
  (d : DirectoryIdentity) (c : PolicyIdentityCandidate) (now : Z)
  (prepared : PreparedProductionPolicyVariant) : Prop :=
  exists t s0 first_now s1 first s2 t' s3 manifest s4 s5 catalog_bytes w1 trust_bytes w2 w3 envelope w4
      resource trust locked policy payload,
    opens_store fuel self p t s0 d /\
    provider_now self s0 = (Ok first_now, s1) /\
    on_files (verify_policy_catalog (resources_of self) first_now) s1 = (Ok first, s2) /\
    classify_candidate t c first_now s2 = (Ok t', s3) /\
    read_manifest target self s3 = (Ok manifest, s4) /\
    provider_now self s4 = (Ok now, s5) /\
    read_owned_resource (path_join (resources_of self) "kyclash-networking-policy-catalog-v1.json")
      (32 * 1024) (world s5) = (Ok catalog_bytes, w1) /\
    read_owned_resource (path_join (resources_of self) "kyclash-networking-policy-keys.json")
      (64 * 1024) w1 = (Ok trust_bytes, w2) /\
    after_reads w2 w3 /\
    read_owned_resource (path_join (resources_of self) (lk_envelope_resource locked))
      (64 * 1024) w3 = (Ok envelope, w4) /\
    catalog_from_slice catalog_bytes = Some resource /\ from_json trust_bytes = Ok trust /\
    locked ∈ LOCKED_VARIANTS /\ lk_id locked = catalog_id /\
    authentic trust envelope policy payload /\ in_force policy now /\
    private_cidrs (site (vp_profile policy)) ≡ₚ lk_routes locked /\
    configures self policy manifest (df_configuration (pp_factory prepared)) /\
    pp_selected prepared ∈ pp_variants prepared /\
    pv_catalog_id (vv_summary (pp_selected prepared)) = catalog_id /\
    vv_envelope_sha256 (pp_selected prepared) = hex_sha256 envelope /\
    (forall e, expected = Some e -> pp_selected prepared = e) /\
    revision c = cr_revision resource /\ key_id c = "catalog.v1"%string /\
    envelope_sha256 c = hex_sha256 (catalog_digest catalog_bytes trust_bytes (pp_variants prepared)).

Lemma selected_entry catalog catalog_id binding policy :
  catalog_selected catalog catalog_id = Ok (binding, policy) ->
  exists entry, entry ∈ vc_entries catalog /\ binding = ve_binding entry /\ policy = ve_policy entry /\
    pv_catalog_id (vv_summary (ve_binding entry)) = catalog_id.
Proof.
  unfold catalog_selected. intros Hs. peel_ok Hs. injection Hs as <- <-.
  apply find_some in Ha as [Hin Hid]. reflect_bools. by exists a.
Qed.

Lemma granted_entry (w : W) resources trust now catalog entry :
  Forall2 (granted w resources trust now) LOCKED_VARIANTS (vc_entries catalog) -> entry ∈ vc_entries catalog ->
  exists locked, locked ∈ LOCKED_VARIANTS /\ granted w resources trust now locked entry.
Proof.
  intros Hg [i Hi]%list_elem_of_lookup. destruct (Forall2_lookup_r _ _ _ _ _ Hg Hi) as (l & Hl & Hgr).
  exists l. split; [by eapply list_elem_of_lookup_2|done].
Qed.

Lemma expect_binding_ok expected binding :
  expect_binding expected binding = Ok tt -> forall e, expected = Some e -> binding = e.
Proof.
  unfold expect_binding. intros He e ->. cbn in He. by case_bool_decide.
Qed.

Lemma prepare_composes fuel self catalog_id expected p :
  wp (prepare_policy_variant_sync target production_feature fuel self catalog_id expected)
    (composes (signed_variant fuel self catalog_id expected p) p) p.
Proof.
  unfold prepare_policy_variant_sync. before p. intros store p0 [= Hst <-] Hp0.
  before p. intros begun p1 Hb Hp1. destruct begun as [t|]; [|wp_step; left; by split].
  assert (Ht : transaction_wf t) by by apply (wp_run _ _ _ _ _ (begin_wf fuel store p) Hb).
  before p. intros now p2 Hnow Hp2. before p. intros first p3 Hfirst Hp3. before p. intros fs p4 [= _ <-] Hp4.
  before p. intros [] p5 [= _ <-] Hp5. before p. intros c p6 [= Hc <-] Hp6. apply candidate_new_ok in Hc.
  before p. intros t' p7 Hcl Hp7. destruct (classified_wf _ _ _ _ _ _ Ht Hcl) as (Ht' & Hc' & Hd).
  before p. intros manifest p8 Hman Hp8. before p. intros commit_now p9 Hcn Hp9.
  before p. intros final p10 Hf%on_files_ok Hp10. apply wp_before with (p0 := p);
    [case_match; by intros ?|done|intros; by apply composes_early|]. intros [] p11 Hsame Hp11.
  destruct (_ || _) eqn:Heq in Hsame; [done|]. reflect_bools.
  before p. intros [binding policy] p12 [= Hs <-] Hp12. cbn [fst snd]. before p. intros [] p13 [= He <-] Hp13.
  before p. intros configuration p14 [= Hconf <-] Hp14. apply configuration_new_ok in Hconf as (-> & _).
  right. exists t', c, commit_now. eexists _, p11. split_and!; [|done..|apply surjective_pairing].
  apply verify_policy_catalog_ok in Hf as (cb & res & tb & trust & w1 & w2 & Hcb & Hres & Hrev & Htb & Htr
    & Hid & Hg & _ & _ & _).
  apply selected_entry in Hs as (entry & Hin & -> & -> & Hcat).
  destruct (granted_entry _ _ _ _ _ _ Hg Hin) as (locked & Hl & [(w3 & env & w4 & Har & Henv & Hv) Hgid _ Hgd _ Hgr]).
  apply verify_ok in Hv as ((payload & Ha) & _ & Hfo). rewrite Hd.
  exists t, p1, now, p2, first, p3, t', p7, manifest, p8, p9, cb, w1, tb, w2, w3, env, w4.
  exists res, trust, locked, (ve_policy entry), payload.
  split_and!; try done.
  - by exists store.
  - congruence.
  - cbn. by rewrite bundle_factory_configuration.
  - cbn. unfold catalog_bindings. apply list_elem_of_fmap. by exists entry.
  - cbn. by rewrite Hgd, (au_digest _ _ _ _ Ha).
  - by apply expect_binding_ok.
  - rewrite Hc. cbn. congruence.
  - by rewrite Hc.
  - rewrite Hc. cbn [envelope_sha256 pp_variants]. congruence.
Qed.

(** C13: a policy variant that is prepared for selection routes exactly the
    networks that the variant of that name is locked to in the program, is the
    variant the caller expected when it named a binding, is signed and valid
    now, and is the one the durable record names; otherwise no record is
    changed. *)
Theorem selected_variant_grants_locked_routes fuel self catalog_id expected p r p' :
  prepare_policy_variant_sync target production_feature fuel self catalog_id expected p = (r, p') ->
  (forall d, record_of (world p') d = record_of (world p) d \/
     higher (record_of (world p) d) (record_of (world p') d) /\
     exists c now prepared, signed_variant fuel self catalog_id expected p d c now prepared /\
       recorded (world p') d c now) /\
  (forall prepared, r = Ok (Some prepared) -> exists d c now,
     signed_variant fuel self catalog_id expected p d c now prepared /\ recorded (world p') d c now).
Proof.
  intros Hrun.
  exact (composes_sound _ _ _ _ (wp_run _ _ _ _ _ (prepare_composes fuel self catalog_id expected p) Hrun)).
Qed.
End safety.
