(* ===== verification/CommandState.v ===== *)
(** * CommandState: the commands of production networking

    [src-tauri/src/cmd/networking_production.rs]: the application's slots for the service,
    its factory, the providers and the selected policy variant, and the commands that
    fill them.  Every method that writes a slot holds the materialization mutex from
    its first to its last line, so a method is one step; the tasks that [connect]
    spawns run between the steps.  Services, factories and providers are reached
    through the classes below, a service by its address. *)

From Stdlib Require Import Ascii String.
From S2P Require Import Prelude Text NetState Config Ipc RouteV3Client ProductionSession.
From S2P Require Import ProductionController RouteBoundary ServiceGate ProductionService Policy PolicyCatalog.

Definition RETIRED_EVIDENCE_LIMIT : Z := 16.

Record RetiredGenerationEvidence := {
  re_service_generation : Z;
  re_route_boundary_incarnation : Z;
  re_route_native_generation : Z;
  re_controller_runtime_generation : Z;
  re_controller_absence : ControllerAbsenceKind;
  re_primary_error : option NetworkErrorCode;
  re_secondary_error : option NetworkErrorCode;
}.

(** ** the interfaces *)

(** A service behind an [Arc]; a reservation is moved, never copied. *)
Class NetworkingServices (W F : Type) := {
  svc_status : Z -> W -> ProductionNetworkStatus;
  svc_generation : Z -> W -> Z;
  svc_disposition : Z -> W -> ProductionServiceDispositionKind;
  svc_reserve_connect : Z -> Meth W Z;
  svc_abandon : Z -> Z -> W -> W;
  svc_connect_reserved : Z -> string -> Z -> Meth W ProductionNetworkStatus;
  svc_cancel : Z -> string -> Meth W unit;
  svc_disconnect : Z -> string -> Meth W ProductionNetworkStatus;
  svc_try_retire : Z -> W -> ProductionServiceRetirementResult * W;
  svc_diagnostics : Z -> Meth W (list ProductionEvent);
  fct_initial_status : F -> ProductionNetworkStatus;
  fct_build : F -> Meth W Z;
}.

Record PreparedVariant (F : Type) := {
  pr_variants : list VerifiedProductionPolicyVariant;
  pr_selected : VerifiedProductionPolicyVariant;
  pr_factory : F;
}.
Arguments pr_variants {F} _.
Arguments pr_selected {F} _.
Arguments pr_factory {F} _.

Class NetworkingProviders (W F P : Type) := {
  prv_initialize : P -> Meth W F;
  prv_verify_policy_variants : P -> Meth W (list VerifiedProductionPolicyVariant);
  prv_prepare_policy_variant : P -> string -> option VerifiedProductionPolicyVariant ->
    Meth W (PreparedVariant F);
}.

Definition BASE_VARIANT_ID : string := "base".

(** ** the state *)

Record ProductionCommandState (W F P : Type) := {
  cmd_world : W;
  cmd_service : option Z;
  cmd_factory : option F;
  cmd_provider : option P;
  cmd_catalog_provider : option P;
  cmd_selected_variant : option VerifiedProductionPolicyVariant;
  cmd_sequence : Z;
  cmd_retired_evidence : list RetiredGenerationEvidence;
}.
Arguments cmd_world {W F P} _.
Arguments cmd_service {W F P} _.
Arguments cmd_factory {W F P} _.
Arguments cmd_provider {W F P} _.
Arguments cmd_catalog_provider {W F P} _.
Arguments cmd_selected_variant {W F P} _.
Arguments cmd_sequence {W F P} _.
Arguments cmd_retired_evidence {W F P} _.

Record ConnectTarget := { ct_service : Z; ct_reservation : Z }.

Section commands.
Context {W F P : Type} `{NetworkingServices W F, NetworkingProviders W F P}.
Notation CS := (ProductionCommandState W F P).

Definition cmd_new (w : W) : CS :=
  {| cmd_world := w; cmd_service := None; cmd_factory := None; cmd_provider := None;
     cmd_catalog_provider := None; cmd_selected_variant := None; cmd_sequence := 0;
     cmd_retired_evidence := [] |}.

Definition cmd_set_world (v : W) (self : CS) : CS :=
  {| cmd_world := v; cmd_service := cmd_service self; cmd_factory := cmd_factory self;
     cmd_provider := cmd_provider self; cmd_catalog_provider := cmd_catalog_provider self;
     cmd_selected_variant := cmd_selected_variant self; cmd_sequence := cmd_sequence self;
     cmd_retired_evidence := cmd_retired_evidence self |}.
Definition cmd_set_service (v : option Z) (self : CS) : CS :=
  {| cmd_world := cmd_world self; cmd_service := v; cmd_factory := cmd_factory self;
     cmd_provider := cmd_provider self; cmd_catalog_provider := cmd_catalog_provider self;
     cmd_selected_variant := cmd_selected_variant self; cmd_sequence := cmd_sequence self;
     cmd_retired_evidence := cmd_retired_evidence self |}.
Definition cmd_set_factory (v : option F) (self : CS) : CS :=
  {| cmd_world := cmd_world self; cmd_service := cmd_service self; cmd_factory := v;
     cmd_provider := cmd_provider self; cmd_catalog_provider := cmd_catalog_provider self;
     cmd_selected_variant := cmd_selected_variant self; cmd_sequence := cmd_sequence self;
     cmd_retired_evidence := cmd_retired_evidence self |}.
Definition cmd_set_providers (provider catalog : option P) (self : CS) : CS :=
  {| cmd_world := cmd_world self; cmd_service := cmd_service self; cmd_factory := cmd_factory self;
     cmd_provider := provider; cmd_catalog_provider := catalog;
     cmd_selected_variant := cmd_selected_variant self; cmd_sequence := cmd_sequence self;
     cmd_retired_evidence := cmd_retired_evidence self |}.
Definition cmd_set_selected (v : option VerifiedProductionPolicyVariant) (self : CS) : CS :=
  {| cmd_world := cmd_world self; cmd_service := cmd_service self; cmd_factory := cmd_factory self;
     cmd_provider := cmd_provider self; cmd_catalog_provider := cmd_catalog_provider self;
     cmd_selected_variant := v; cmd_sequence := cmd_sequence self;
     cmd_retired_evidence := cmd_retired_evidence self |}.
Definition cmd_set_sequence (v : Z) (self : CS) : CS :=
  {| cmd_world := cmd_world self; cmd_service := cmd_service self; cmd_factory := cmd_factory self;
     cmd_provider := cmd_provider self; cmd_catalog_provider := cmd_catalog_provider self;
     cmd_selected_variant := cmd_selected_variant self; cmd_sequence := v;
     cmd_retired_evidence := cmd_retired_evidence self |}.
Definition cmd_set_evidence (v : list RetiredGenerationEvidence) (self : CS) : CS :=
  {| cmd_world := cmd_world self; cmd_service := cmd_service self; cmd_factory := cmd_factory self;
     cmd_provider := cmd_provider self; cmd_catalog_provider := cmd_catalog_provider self;
     cmd_selected_variant := cmd_selected_variant self; cmd_sequence := cmd_sequence self;
     cmd_retired_evidence := v |}.

Definition in_services {E A} (m : M W E A) : M CS E A := zoom cmd_world cmd_set_world m.

(** ** evidence *)

Definition record_retirement (receipt : ProductionServiceRetirementReceipt)
  (primary_error secondary_error : option NetworkErrorCode) (self : CS) : CS :=
  let records := cmd_retired_evidence self in
  let records := if Z.of_nat (length records) =? RETIRED_EVIDENCE_LIMIT then tail records else records in
  cmd_set_evidence (records ++ [{|
    re_service_generation := sv_service_generation receipt;
    re_route_boundary_incarnation := rt_boundary_incarnation (sv_route receipt);
    re_route_native_generation := rt_native_generation (sv_route receipt);
    re_controller_runtime_generation := rr_runtime_generation (sv_controller receipt);
    re_controller_absence := rr_absence (sv_controller receipt);
    re_primary_error := primary_error;
    re_secondary_error := secondary_error |}]) self.

Definition with_secondary_error (error : NetworkErrorCode) (record : RetiredGenerationEvidence)
  : RetiredGenerationEvidence :=
  {| re_service_generation := re_service_generation record;
     re_route_boundary_incarnation := re_route_boundary_incarnation record;
     re_route_native_generation := re_route_native_generation record;
     re_controller_runtime_generation := re_controller_runtime_generation record;
     re_controller_absence := re_controller_absence record;
     re_primary_error := re_primary_error record;
     re_secondary_error := Some error |}.

(** The last record of the generation; the list is walked from its end. *)
Fixpoint amend_first (generation : Z) (error : NetworkErrorCode) (l : list RetiredGenerationEvidence)
  : list RetiredGenerationEvidence :=
  match l with
  | [] => []
  | record :: l =>
      if re_service_generation record =? generation then with_secondary_error error record :: l
      else record :: amend_first generation error l
  end.

Definition record_secondary_error (generation : Z) (error : NetworkErrorCode) (self : CS) : CS :=
  cmd_set_evidence (rev (amend_first generation error (rev (cmd_retired_evidence self)))) self.

(** ** configuration *)

Definition configure_service_locked (service : Z) : Meth CS unit :=
  let! self := get in
  if is_some (cmd_factory self) then raise InvalidStateTransition
  else if is_some (cmd_service self) then raise InvalidStateTransition
  else modify (cmd_set_service (Some service)).

Definition configure_factory_locked (factory : F) : Meth CS unit :=
  let! self := get in
  if is_some (cmd_service self) then raise InvalidStateTransition
  else if is_some (cmd_factory self) then raise InvalidStateTransition
  else modify (cmd_set_factory (Some factory)).

(** [contended]: a lock is held by a running operation. *)
Definition configure_provider_now (contended : bool) (provider : P) : Meth CS unit :=
  let! self := get in
  if contended then raise InvalidStateTransition
  else if is_some (cmd_provider self) then raise InvalidStateTransition
  else modify (cmd_set_providers (Some provider) (cmd_catalog_provider self)).

Definition configure_bundle_providers_now (contended : bool) (provider catalog_provider : P)
  : Meth CS unit :=
  let! self := get in
  if contended then raise InvalidStateTransition
  else if is_some (cmd_provider self) || is_some (cmd_catalog_provider self)
  then raise InvalidStateTransition
  else modify (cmd_set_providers (Some provider) (Some catalog_provider)).

Definition status_snapshot (self : CS) : option ProductionNetworkStatus :=
  match cmd_service self with
  | Some service => Some (svc_status service (cmd_world self))
  | None => fct_initial_status <$> cmd_factory self
  end.

Definition cmd_initialize : Meth CS ProductionNetworkStatus :=
  let! self := get in
  (if is_none (cmd_factory self) then
     match cmd_catalog_provider self with
     | Some provider =>
         let! prepared := in_services (prv_prepare_policy_variant provider BASE_VARIANT_ID None) in
         modify (cmd_set_selected (Some (pr_selected prepared))) ;!
         configure_factory_locked (pr_factory prepared)
     | None =>
         let! provider := lift (ok_or (cmd_provider self) InvalidConfiguration) in
         let! factory := in_services (prv_initialize provider) in
         configure_factory_locked factory
     end
   else ret tt) ;!
  let! self := get in
  lift (ok_or (status_snapshot self) InvalidConfiguration).

(** ** materialization *)

Definition close_unpublished_service (service : Z) : Meth CS unit :=
  let! result := in_services (effect (svc_try_retire service)) in
  match result with
  | SrRetired _ | SrAlreadyRetired => ret tt
  | SrBusy | SrRecoveryOnly => raise InvalidStateTransition
  end.

(** [close.await.err().unwrap_or(error)]. *)
Definition close_and_fail {A} (service : Z) (error : NetworkErrorCode) : Meth CS A :=
  let! closed := attempt (close_unpublished_service service) in
  match closed with
  | Err close_error => raise close_error
  | Ok _ => raise error
  end.

Definition build_install_reserved_locked : Meth CS ConnectTarget :=
  let! self := get in
  let! factory := lift (ok_or (cmd_factory self) InvalidConfiguration) in
  let! candidate := in_services (fct_build factory) in
  let! reserved := attempt (in_services (svc_reserve_connect candidate)) in
  match reserved with
  | Err error => close_and_fail candidate error
  | Ok reservation =>
      let! self := get in
      if is_none (cmd_service self) then
        modify (cmd_set_service (Some candidate)) ;!
        ret {| ct_service := candidate; ct_reservation := reservation |}
      else
        in_services (modify (svc_abandon candidate reservation)) ;!
        close_and_fail candidate InvalidStateTransition
  end.

Definition compare_remove_service (expected generation : Z) : Meth CS bool :=
  let! self := get in
  let matches := is_some_and (cmd_service self) (fun current =>
    (current =? expected) && (svc_generation current (cmd_world self) =? generation)) in
  (if matches then modify (cmd_set_service None) else ret tt) ;!
  ret matches.

(** Retire the exact service, record the receipt and remove it from its slot. *)
Definition retire_and_remove (service generation : Z) (primary_error : CS -> option NetworkErrorCode)
  : Meth CS unit :=
  let! result := in_services (effect (svc_try_retire service)) in
  match result with
  | SrRetired receipt =>
      modify (fun self => record_retirement receipt (primary_error self) None self) ;!
      let! removed := compare_remove_service service generation in
      if negb removed then
        modify (record_secondary_error generation InvalidStateTransition) ;!
        raise InvalidStateTransition
      else ret tt
  | SrAlreadyRetired | SrBusy | SrRecoveryOnly => raise InvalidStateTransition
  end.

Definition rematerialize_terminal_locked (service generation : Z) : Meth CS ConnectTarget :=
  let! self := get in
  if negb (svc_generation service (cmd_world self) =? generation) then raise InvalidStateTransition else
  let primary_error := pn_last_error (svc_status service (cmd_world self)) in
  retire_and_remove service generation (fun _ => primary_error) ;!
  let! target := attempt build_install_reserved_locked in
  match target with
  | Ok target => ret target
  | Err error => modify (record_secondary_error generation error) ;! raise error
  end.

Definition service_for_connect : Meth CS ConnectTarget :=
  let! self := get in
  match cmd_catalog_provider self with
  | Some provider =>
      let! selected := lift (ok_or (cmd_selected_variant self) InvalidConfiguration) in
      let! prepared := in_services (prv_prepare_policy_variant provider
        (pv_catalog_id (vv_summary selected)) (Some selected)) in
      modify (cmd_set_factory (Some (pr_factory prepared)))
  | None => ret tt
  end ;!
  let! self := get in
  match cmd_service self with
  | Some service =>
      match svc_disposition service (cmd_world self) with
      | SdReusable =>
          let! reservation := in_services (svc_reserve_connect service) in
          ret {| ct_service := service; ct_reservation := reservation |}
      | SdTerminalCandidate =>
          rematerialize_terminal_locked service (svc_generation service (cmd_world self))
      | SdBusy | SdRecoveryOnly | SdRetired => raise InvalidStateTransition
      end
  | None => build_install_reserved_locked
  end.

Definition policy_catalog_view : Meth CS ProductionPolicyCatalogView :=
  let! self := get in
  let! provider := lift (ok_or (cmd_catalog_provider self) InvalidConfiguration) in
  let! variants := in_services (prv_verify_policy_variants provider) in
  let! self := get in
  lift (view_from_verified variants (cmd_selected_variant self)).

Definition select_policy_variant (catalog_id : string) : Meth CS ProductionPolicyCatalogView :=
  let! self := get in
  if is_some_and (cmd_service self) (fun service =>
       negb (bool_decide (pn_state (svc_status service (cmd_world self)) = Disconnected)))
  then raise InvalidStateTransition else
  let! provider := lift (ok_or (cmd_catalog_provider self) InvalidConfiguration) in
  let! prepared := in_services (prv_prepare_policy_variant provider catalog_id None) in
  match cmd_service self with
  | Some service =>
      let! now := get in
      retire_and_remove service (svc_generation service (cmd_world now))
        (fun self => pn_last_error (svc_status service (cmd_world self)))
  | None => ret tt
  end ;!
  modify (cmd_set_factory (Some (pr_factory prepared))) ;!
  modify (cmd_set_selected (Some (pr_selected prepared))) ;!
  lift (view_from_verified (pr_variants prepared) (Some (pr_selected prepared))).

(** ** cancellation and disconnection *)

Definition cancel_exact (operation_id : string) : Meth CS unit :=
  let! self := get in
  let! service := lift (ok_or (cmd_service self) InvalidConfiguration) in
  match svc_disposition service (cmd_world self) with
  | SdRetired => raise InvalidStateTransition
  | _ => in_services (svc_cancel service operation_id)
  end.

Definition disconnect_exact (operation_id : string) : Meth CS ProductionNetworkStatus :=
  let! self := get in
  let! service := lift (ok_or (cmd_service self) InvalidConfiguration) in
  match svc_disposition service (cmd_world self) with
  | SdRetired => raise InvalidStateTransition
  | _ => in_services (svc_disconnect service operation_id)
  end.

(** [fetch_add] wraps at 64 bits, [saturating_add] does not. *)
Definition cmd_operation_id (action : string) : Meth CS string :=
  let! self := get in
  modify (cmd_set_sequence ((cmd_sequence self + 1) mod (u64_max + 1))) ;!
  ret (String.append "networking.production." (String.append action
        (String.append "." (print_uint (saturating_add u64_max (cmd_sequence self) 1))))).

(** ** the commands *)

Definition initialize_networking : Meth CS ProductionNetworkStatus := cmd_initialize.

Definition list_networking_sites : Meth CS (list ProductionSiteSummary) :=
  let! self := get in
  let! status := lift (ok_or (status_snapshot self) InvalidConfiguration) in
  ret [pn_site status].

Definition get_networking_status : Meth CS ProductionNetworkStatus :=
  let! self := get in
  lift (ok_or (status_snapshot self) InvalidConfiguration).

(** The task of a connection: a service, the operation and the reservation moved into it. *)
Record ConnectTask := { tk_service : Z; tk_operation : string; tk_reservation : Z }.

(** [connect_networking] after the check of the privileged services: the task it spawns
    is returned with the status it answers. *)
Definition connect_networking (ready : Res unit) : Meth CS (ProductionNetworkStatus * ConnectTask) :=
  lift ready ;!
  let! operation := cmd_operation_id "connect" in
  let! target := service_for_connect in
  let! self := get in
  ret (svc_status (ct_service target) (cmd_world self),
       {| tk_service := ct_service target; tk_operation := operation;
          tk_reservation := ct_reservation target |}).

Definition run_connect_task (task : ConnectTask) : Meth CS unit :=
  let! _ := attempt (in_services (svc_connect_reserved (tk_service task) (tk_operation task)
                                    (tk_reservation task))) in
  ret tt.

Definition cancel_networking_operation (operation_id : string) : Meth CS unit :=
  if is_empty operation_id || (128 <? len operation_id) then raise InvalidConfiguration
  else cancel_exact operation_id.

Definition disconnect_networking : Meth CS ProductionNetworkStatus :=
  let! operation := cmd_operation_id "disconnect" in
  disconnect_exact operation.

Record ProductionDiagnosticEvent := {
  de_sequence : Z;
  de_operation_id : option string;
  de_kind : string;
  de_error : option NetworkErrorCode;
}.

Definition event_kind_name (kind : ProductionEventKind) : string :=
  match kind with
  | EvStarted => "started"
  | EvRequestCompleted => "request_completed"
  | EvCancelled => "cancelled"
  | EvTimedOut => "timed_out"
  | EvRestarting => "restarting"
  | EvCrashLoop => "crash_loop"
  | EvStopped => "stopped"
  | EvFailed => "failed"
  end.

Definition diagnostic_event (event : ProductionEvent) : ProductionDiagnosticEvent :=
  {| de_sequence := pe_sequence event; de_operation_id := pe_operation_id event;
     de_kind := event_kind_name (pe_kind event); de_error := pe_error event |}.

Definition get_networking_diagnostics : Meth CS (list ProductionDiagnosticEvent) :=
  let! self := get in
  if is_none (cmd_service self) && is_some (cmd_factory self) then ret []
  else
    let! service := lift (ok_or (cmd_service self) InvalidConfiguration) in
    let! events := in_services (svc_diagnostics service) in
    ret (map diagnostic_event events).
End commands.
