(* ===== verification/CommandSafety.v ===== *)
(** * CommandSafety: one service at a time, replaced only when retired

    Over all sequences of commands and of the connection tasks they spawn: a published
    service leaves its slot only after it has been retired, a task holds a reservation of
    the current service or of a retired one, the evidence is bounded, and a selection
    either takes effect completely or changes no slot. *)

From Stdlib Require Import Ascii String.
From S2P Require Import Prelude Text NetState Config Ipc RouteV3Client ProductionSession.
From S2P Require Import ProductionController RouteBoundary ServiceGate ProductionService Policy PolicyCatalog CommandState.

(** ** what services and providers promise *)

Section relation.
Context {W F : Type} `{NetworkingServices W F} (retired known : W -> Z -> bool).

(** Retirement is final, addresses stay in use and generations do not change. *)
Definition advances (w w' : W) : Prop :=
  (forall s, retired w s = true -> retired w' s = true) /\
  (forall s, known w s = true -> known w' s = true /\ svc_generation s w' = svc_generation s w).
End relation.

Class ServiceLaws (W F P : Type) `{NetworkingServices W F, NetworkingProviders W F P} := {
  retired : W -> Z -> bool;
  known : W -> Z -> bool;
  law_reserve : forall s w, advances retired known w (svc_reserve_connect s w).2;
  law_abandon : forall s r w, advances retired known w (svc_abandon s r w);
  law_connect_reserved : forall s o r w, advances retired known w (svc_connect_reserved s o r w).2;
  law_cancel : forall s o w, advances retired known w (svc_cancel s o w).2;
  law_disconnect : forall s o w, advances retired known w (svc_disconnect s o w).2;
  law_diagnostics : forall s w, advances retired known w (svc_diagnostics s w).2;
  law_try_retire : forall s w, advances retired known w (svc_try_retire s w).2;
  law_retired : forall s w receipt w', svc_try_retire s w = (SrRetired receipt, w') -> retired w' s = true;
  law_build : forall f w, advances retired known w (fct_build f w).2;
  law_built : forall f w s w', fct_build f w = (Ok s, w') -> known w' s = true;
  law_initialize : forall p w, advances retired known w (prv_initialize p w).2;
  law_verify_variants : forall p w, advances retired known w (prv_verify_policy_variants p w).2;
  law_prepare : forall p id e w, advances retired known w (prv_prepare_policy_variant p id e w).2;
  (* a prepared selection is one of the variants prepared with it *)
  law_prepared_view : forall p id e w prepared, (prv_prepare_policy_variant p id e w).1 = Ok prepared ->
    is_ok (view_from_verified (pr_variants prepared) (Some (pr_selected prepared))) = true;
}.

Section safety.
Context {W F P : Type} `{ServiceLaws W F P}.
Notation CS := (ProductionCommandState W F P).
Implicit Types (cs : CS) (w : W).
Notation adv := (advances retired known).

#[local] Instance advances_preorder : PreOrder adv.
Proof.
  split; [by intros w; split|]. intros a b c [Hr Hk] [Hr' Hk']. split; [auto|].
  intros s Hs. destruct (Hk s Hs) as [Hb Hg]. destruct (Hk' s Hb) as [Hc Hg']. split; [done|congruence].
Qed.

(** A step from [cs]: the world advances, and the slot keeps its service unless that
    service has been retired. *)
Definition step_ok cs cs' : Prop :=
  adv (cmd_world cs) (cmd_world cs') /\
  (forall s, cmd_service cs' = Some s -> known (cmd_world cs') s = true) /\
  (forall s, cmd_service cs = Some s ->
     cmd_service cs' = Some s \/ retired (cmd_world cs') s = true) /\
  (length (cmd_retired_evidence cs') <= 16)%nat.

Definition cs_wf cs : Prop :=
  (forall s, cmd_service cs = Some s -> known (cmd_world cs) s = true) /\
  (length (cmd_retired_evidence cs) <= 16)%nat.

Lemma step_refl cs : cs_wf cs -> step_ok cs cs.
Proof. intros [Hk He]. split; [done|]. split; [done|]. split; [by left|done]. Qed.

Lemma step_wf cs cs' : step_ok cs cs' -> cs_wf cs'.
Proof. by intros (_ & ? & _ & ?). Qed.

Lemma step_trans cs cs' cs'' : step_ok cs cs' -> step_ok cs' cs'' -> step_ok cs cs''.
Proof.
  intros (Ha & Hk & Hs & He) (Ha' & Hk' & Hs' & He'). split; [by etransitivity|]. split; [done|].
  split; [|done]. intros s Hcs. destruct (Hs s Hcs) as [Hc|Hr]; [by apply Hs'|].
  right. by apply (proj1 Ha').
Qed.

(** Methods all of whose outcomes are such steps. *)
Definition steps {A} (m : Meth CS A) : Prop := forall cs, cs_wf cs -> step_ok cs (m cs).2.

Lemma steps_pure {A} (r : Res A) : steps (lift r).
Proof. intros cs Hcs. by apply step_refl. Qed.
Lemma steps_ret {A} (a : A) : steps (ret a).
Proof. intros cs Hcs. by apply step_refl. Qed.
Lemma steps_raise {A} e : steps (raise e : Meth CS A).
Proof. intros cs Hcs. by apply step_refl. Qed.
Lemma steps_get : steps get.
Proof. intros cs Hcs. by apply step_refl. Qed.
Lemma steps_bind {A B} (m : Meth CS A) (k : A -> Meth CS B) :
  steps m -> (forall a, steps (k a)) -> steps (bind m k).
Proof.
  intros Hm Hk cs Hcs. unfold bind. specialize (Hm cs Hcs). destruct (m cs) as [[a|e] cs1]; [|done].
  eapply step_trans; [exact Hm|]. apply Hk. by apply step_wf in Hm.
Qed.
(** The same where the continuation knows the state it was read from. *)
Lemma steps_get_bind {B} (k : CS -> Meth CS B) :
  (forall cs, cs_wf cs -> step_ok cs (k cs cs).2) -> steps (bind get k).
Proof. done. Qed.
Lemma steps_attempt {A} (m : Meth CS A) : steps m -> steps (attempt m).
Proof. intros Hm cs Hcs. unfold attempt. specialize (Hm cs Hcs). by destruct (m cs). Qed.

Lemma world_step cs w' : cs_wf cs -> adv (cmd_world cs) w' -> step_ok cs (cmd_set_world w' cs).
Proof.
  intros [Hk He] Ha. split; [done|]. split; [intros s Hs; by apply (proj2 Ha), Hk|]. split; [by left|done].
Qed.

Lemma steps_services {A} (m : Meth W A) : (forall w, adv w (m w).2) -> steps (in_services m).
Proof.
  intros Hm cs Hcs. unfold in_services, zoom. specialize (Hm (cmd_world cs)).
  destruct (m (cmd_world cs)). by apply world_step.
Qed.

Lemma steps_modify f :
  (forall cs, cmd_world (f cs) = cmd_world cs /\ cmd_service (f cs) = cmd_service cs /\
     cmd_retired_evidence (f cs) = cmd_retired_evidence cs) -> steps (modify f).
Proof.
  intros Hf cs [Hk He]. destruct (Hf cs) as (Hw & Hs & Hev). unfold step_ok. cbn. rewrite Hw, Hs, Hev.
  split; [done|]. split; [done|]. split; [by left|done].
Qed.

Lemma effect_retire s w : adv w (effect (E := NetworkErrorCode) (svc_try_retire s) w).2.
Proof. pose proof (law_try_retire s w) as Ha. unfold effect. by destruct (svc_try_retire s w). Qed.

#[local] Hint Resolve steps_pure steps_ret steps_raise steps_get : steps.
#[local] Hint Resolve law_reserve law_connect_reserved law_cancel law_disconnect law_diagnostics
  law_build law_initialize law_verify_variants law_prepare effect_retire : steps.

Ltac steps_tac :=
  repeat match goal with
  | |- steps (bind _ _) => apply steps_bind; [|intros ?]
  | |- steps (attempt _) => apply steps_attempt
  | |- steps (in_services _) => apply steps_services; intros; solve [eauto with steps nocore]
  | |- steps (match ?x with _ => _ end) => destruct x
  | |- steps _ => solve [eauto with steps nocore]
  end.

Lemma steps_close service : steps (close_unpublished_service service).
Proof. unfold close_unpublished_service. steps_tac. Qed.

Lemma steps_close_and_fail {A} service e : steps (close_and_fail service e : Meth CS A).
Proof. unfold close_and_fail. steps_tac. apply steps_close. Qed.

Lemma evidence_step cs l :
  cs_wf cs -> (length l <= 16)%nat -> step_ok cs (cmd_set_evidence l cs).
Proof. intros [Hk He] Hl. split; [done|]. split; [done|]. split; [by left|done]. Qed.

Lemma record_length receipt primary secondary cs :
  (length (cmd_retired_evidence cs) <= 16)%nat ->
  (length (cmd_retired_evidence (record_retirement receipt primary secondary cs)) <= 16)%nat.
Proof.
  intros He. cbn. rewrite length_app. cbn. unfold RETIRED_EVIDENCE_LIMIT.
  destruct (_ =? 16) eqn:E; reflect_bools; [|lia].
  destruct (cmd_retired_evidence cs); cbn in *; lia.
Qed.

Lemma amend_length generation e l : length (amend_first generation e l) = length l.
Proof. induction l as [|r l IH]; cbn; [done|]. by case_match; cbn; rewrite ?IH. Qed.

Lemma steps_secondary generation e : steps (modify (record_secondary_error generation e)).
Proof.
  intros cs Hcs. apply evidence_step; [done|]. rewrite length_rev, amend_length, length_rev. apply Hcs.
Qed.

Lemma steps_record receipt f :
  steps (modify (fun cs => record_retirement receipt (f cs) None cs)).
Proof. intros cs Hcs. apply evidence_step; [done|]. by apply (record_length receipt (f cs) None), Hcs. Qed.

(** Retirement and removal from the slot are one: the comparison cannot fail. *)
Lemma retire_and_remove_spec service generation f cs :
  cs_wf cs -> cmd_service cs = Some service -> svc_generation service (cmd_world cs) = generation ->
  wp (retire_and_remove service generation f) (fun r cs' => step_ok cs cs' /\
    cmd_factory cs' = cmd_factory cs /\ cmd_selected_variant cs' = cmd_selected_variant cs /\
    cmd_service cs' = (if is_ok r then None else Some service)) cs.
Proof.
  intros Hwf Hs Hg. unfold retire_and_remove, in_services. do 3 wp_step.
  pose proof (law_try_retire service (cmd_world cs)) as Ha.
  destruct (svc_try_retire service (cmd_world cs)) as [res w1] eqn:Er. cbn [fst snd] in *.
  pose proof (world_step _ _ Hwf Ha) as Hst. set (cs1 := cmd_set_world w1 cs) in *.
  destruct res as [receipt| | |]; [|by wp_step..]. do 3 wp_step.
  pose proof (steps_record receipt f cs1 (step_wf _ _ Hst)) as Hrec. cbn [modify snd] in Hrec.
  set (cs2 := record_retirement receipt (f cs1) None cs1) in *. unfold compare_remove_service. do 3 wp_step.
  assert (Hmatch : is_some_and (cmd_service cs2) (fun current =>
    (current =? service) && (svc_generation current (cmd_world cs2) =? generation)) = true).
  { unfold cs2. cbn. rewrite Hs. cbn. rewrite Z.eqb_refl. cbn. apply Z.eqb_eq.
    rewrite <- Hg. apply (proj2 Ha). by apply Hwf. }
  rewrite Hmatch. do 2 wp_step. cbn [negb]. wp_step. split; [|done]. pose proof (step_trans _ _ _ Hst Hrec) as Hst2.
  destruct Hst2 as (Hadv & Hk & Hsl & Hev). split; [exact Hadv|]. split; [done|]. split; [|exact Hev].
  intros s Hs'. right. rewrite Hs in Hs'. injection Hs' as <-. cbn. by eapply law_retired.
Qed.

(** A candidate is published into an empty slot, or not at all. *)
Lemma build_install_spec cs :
  cs_wf cs -> cmd_service cs = None ->
  wp build_install_reserved_locked (fun r cs' => step_ok cs cs' /\
    cmd_service cs' = (match r with Ok target => Some (ct_service target) | Err _ => None end)) cs.
Proof.
  intros Hwf Hs. unfold build_install_reserved_locked. do 4 wp_step.
  destruct (cmd_factory cs) as [factory|]; cbn [ok_or]; [|by split; [apply step_refl|]].
  wp_step. unfold in_services. wp_step. unfold wp at 1.
  pose proof (law_build factory (cmd_world cs)) as Ha. pose proof (law_built factory (cmd_world cs)) as Hb.
  destruct (fct_build factory (cmd_world cs)) as [[candidate|e] w1]; cbn [fst snd] in *;
    [|by split; [apply world_step|]].
  specialize (Hb _ _ eq_refl). pose proof (world_step _ _ Hwf Ha) as Hst1. do 3 wp_step. unfold wp at 1.
  cbn [cmd_world cmd_set_world]. pose proof (law_reserve candidate w1) as Hr.
  destruct (svc_reserve_connect candidate w1) as [[reservation|e] w2]; cbn [fst snd] in *.
  - pose proof (step_trans _ _ _ Hst1 (world_step _ w2 (step_wf _ _ Hst1) Hr)) as Hst2.
    do 2 wp_step. cbn [cmd_service cmd_set_world]. rewrite Hs. cbn [is_none is_some negb]. do 3 wp_step.
    split; [|done]. destruct Hst2 as (Hadv & Hk & Hsl & Hev). split; [exact Hadv|].
    split; [|split; [|exact Hev]]; cbn.
    + intros s [= <-]. by apply (proj2 Hr).
    + intros s Hs'. congruence.
  - pose proof (step_trans _ _ _ Hst1 (world_step _ w2 (step_wf _ _ Hst1) Hr)) as Hst2.
    unfold close_and_fail. do 2 wp_step. unfold close_unpublished_service, in_services. do 3 wp_step.
    cbn [cmd_world cmd_set_world]. pose proof (law_try_retire candidate w2) as Hc.
    pose proof (step_trans _ _ _ Hst2 (world_step _ _ (step_wf _ _ Hst2) Hc)) as Hst3.
    destruct (svc_try_retire candidate w2) as [[] w3]; cbn [fst snd] in *; do 2 wp_step; done.
Qed.

Lemma rematerialize_spec service cs :
  cs_wf cs -> cmd_service cs = Some service ->
  wp (rematerialize_terminal_locked service (svc_generation service (cmd_world cs)))
    (fun r cs' => step_ok cs cs' /\
       forall target, r = Ok target -> cmd_service cs' = Some (ct_service target)) cs.
Proof.
  intros Hwf Hs. unfold rematerialize_terminal_locked. do 2 wp_step. rewrite Z.eqb_refl. cbn [negb].
  wp_step. eapply wp_mono; [by apply retire_and_remove_spec|].
  intros [[]|e] cs1 (Hst & _ & _ & Hs1); [|by split]. cbn [is_ok] in Hs1. do 2 wp_step.
  eapply wp_mono; [apply build_install_spec; [by eapply step_wf|done]|].
  intros [target|e] cs2 [Hst2 Hs2]; pose proof (step_trans _ _ _ Hst Hst2) as Hst'.
  - wp_step. split; [done|]. by intros ? [= <-].
  - do 3 wp_step. split; [|done]. eapply step_trans; [exact Hst'|].
    by apply (steps_secondary _ e), (step_wf _ _ Hst').
Qed.

Lemma steps_set_factory f : steps (modify (cmd_set_factory f)).
Proof. by apply steps_modify. Qed.
Lemma steps_set_selected v : steps (modify (cmd_set_selected v)).
Proof. by apply steps_modify. Qed.
Lemma steps_set_sequence v : steps (modify (cmd_set_sequence v)).
Proof. by apply steps_modify. Qed.
Lemma steps_set_providers p c : steps (modify (cmd_set_providers p c)).
Proof. by apply steps_modify. Qed.
#[local] Hint Resolve steps_set_factory steps_set_selected steps_set_sequence steps_set_providers : steps.

Lemma steps_configure_factory f : steps (configure_factory_locked f).
Proof. unfold configure_factory_locked. steps_tac. Qed.
#[local] Hint Resolve steps_configure_factory : steps.

Lemma steps_initialize : steps cmd_initialize.
Proof. unfold cmd_initialize. steps_tac. Qed.

(** The first half of [service_for_connect]. *)
Lemma service_for_connect_spec cs :
  cs_wf cs ->
  wp service_for_connect (fun r cs' => step_ok cs cs' /\
    forall target, r = Ok target -> cmd_service cs' = Some (ct_service target)) cs.
Proof.
  intros Hwf. unfold service_for_connect. do 3 wp_step.
  apply (wp_mono _ (fun r cs1 => step_ok cs cs1)).
  { enough (Hs : steps (match cmd_catalog_provider cs with
      | Some provider =>
          let! selected := lift (ok_or (cmd_selected_variant cs) InvalidConfiguration) in
          let! prepared := in_services (prv_prepare_policy_variant provider
            (pv_catalog_id (vv_summary selected)) (Some selected)) in
          modify (cmd_set_factory (Some (pr_factory prepared)))
      | None => ret tt end)) by by apply Hs.
    steps_tac. }
  intros [[]|e] cs1 Hst; [|done]. pose proof (step_wf _ _ Hst) as Hwf1. do 2 wp_step.
  destruct (cmd_service cs1) as [service|] eqn:Hs.
  - destruct (svc_disposition service (cmd_world cs1)); try (by wp_step).
    + wp_step. unfold in_services. wp_step. unfold wp at 1. pose proof (law_reserve service (cmd_world cs1)) as Ha.
      pose proof (step_trans _ _ _ Hst (world_step _ _ Hwf1 Ha)) as Hst2.
      destruct (svc_reserve_connect service (cmd_world cs1)) as [[reservation|e] w2]; cbn [fst snd] in *; [|done].
      wp_step. split; [done|]. by intros ? [= <-].
    + eapply wp_mono; [by apply rematerialize_spec|]. intros r cs2 [Hst2 Ht].
      split; [by eapply step_trans|done].
  - eapply wp_mono; [by apply build_install_spec|]. intros r cs2 [Hst2 Ht].
    split; [by eapply step_trans|]. by intros target ->.
Qed.

Lemma prepared_view provider id e w prepared w' :
  prv_prepare_policy_variant provider id e w = (Ok prepared, w') ->
  is_ok (view_from_verified (pr_variants prepared) (Some (pr_selected prepared))) = true.
Proof. intros Hp. apply (law_prepared_view provider id e w). by rewrite Hp. Qed.

(** A selection takes effect in all its parts, or in none. *)
Definition selected_or_unchanged cs (r : Res ProductionPolicyCatalogView) cs' : Prop :=
  match r with
  | Ok view => exists factory variant, cmd_service cs' = None /\ cmd_factory cs' = Some factory /\
      cmd_selected_variant cs' = Some variant /\
      pcv_selected_catalog_id view = Some (pv_catalog_id (vv_summary variant))
  | Err _ => cmd_service cs' = cmd_service cs /\ cmd_factory cs' = cmd_factory cs /\
      cmd_selected_variant cs' = cmd_selected_variant cs
  end.

Lemma view_selected variants v view :
  view_from_verified variants (Some v) = Ok view ->
  pcv_selected_catalog_id view = Some (pv_catalog_id (vv_summary v)).
Proof. unfold view_from_verified. intros Hv. peel_ok Hv. by injection Hv as <-. Qed.

Lemma select_spec id cs :
  cs_wf cs ->
  wp (select_policy_variant id) (fun r cs' => step_ok cs cs' /\ selected_or_unchanged cs r cs') cs.
Proof.
  intros Hwf. unfold select_policy_variant. do 2 wp_step. destruct (is_some_and _ _).
  { wp_step. split; [by apply step_refl|done]. }
  do 2 wp_step. destruct (cmd_catalog_provider cs) as [provider|]; cbn [ok_or];
    [|split; [by apply step_refl|done]].
  wp_step. unfold in_services. wp_step. unfold wp at 1.
  pose proof (law_prepare provider id None (cmd_world cs)) as Ha.
  destruct (prv_prepare_policy_variant provider id None (cmd_world cs)) as [[prepared|e] w1] eqn:Hp;
    cbn [fst snd] in *; pose proof (world_step _ _ Hwf Ha) as Hst; [|by split].
  apply prepared_view in Hp. destruct (view_from_verified _ _) as [view|] eqn:Hview; [|done].
  set (cs1 := cmd_set_world w1 cs) in *. wp_step.
  apply (wp_mono _ (fun r cs2 => step_ok cs cs2 /\ cmd_factory cs2 = cmd_factory cs /\
    cmd_selected_variant cs2 = cmd_selected_variant cs /\
    cmd_service cs2 = if is_ok r then None else cmd_service cs)).
  { destruct (cmd_service cs) as [service|] eqn:Hs; [|by wp_step]. do 2 wp_step.
    eapply wp_mono; [apply retire_and_remove_spec; [by eapply step_wf|done|done]|].
    intros r cs2 (Hst2 & Hf & Hsel & Hsv). split; [by eapply step_trans|done]. }
  intros [[]|e] cs2 (Hst2 & Hf & Hsel & Hsv); [|by split]. cbn [is_ok] in Hsv.
  do 5 wp_step. split.
  - destruct Hst2 as (Hadv & Hk & Hsl & Hev). by split.
  - exists (pr_factory prepared), (pr_selected prepared). split_and!; [done..|]. by eapply view_selected.
Qed.

(** ** all sequences of commands *)

Inductive CommandEvent : Type :=
| EvConfigure (provider catalog : P)
| EvInitialize
| EvConnect (ready : Res unit)
| EvRunTask (task : nat)
| EvDropTask (task : nat)
| EvView
| EvSelect (catalog_id : string)
| EvCancel (operation_id : string)
| EvDisconnect
| EvDiagnostics.

(** The state and the tasks not yet run. *)
Definition command_step (ev : CommandEvent) (st : CS * list ConnectTask) : CS * list ConnectTask :=
  let (cs, tasks) := st in
  match ev with
  | EvConfigure provider catalog => ((configure_bundle_providers_now false provider catalog cs).2, tasks)
  | EvInitialize => ((initialize_networking cs).2, tasks)
  | EvConnect ready =>
      match connect_networking ready cs with
      | (Ok (_, task), cs) => (cs, tasks ++ [task])
      | (Err _, cs) => (cs, tasks)
      end
  | EvRunTask i =>
      match tasks !! i with
      | Some task => ((run_connect_task task cs).2, delete i tasks)
      | None => (cs, tasks)
      end
  | EvDropTask i =>
      match tasks !! i with
      | Some task => (cmd_set_world (svc_abandon (tk_service task) (tk_reservation task) (cmd_world cs)) cs,
                      delete i tasks)
      | None => (cs, tasks)
      end
  | EvView => ((policy_catalog_view cs).2, tasks)
  | EvSelect id => ((select_policy_variant id cs).2, tasks)
  | EvCancel op => ((cancel_networking_operation op cs).2, tasks)
  | EvDisconnect => ((disconnect_networking cs).2, tasks)
  | EvDiagnostics => ((get_networking_diagnostics cs).2, tasks)
  end.

Definition command_run (evs : list CommandEvent) (st : CS * list ConnectTask) : CS * list ConnectTask :=
  fold_left (fun st ev => command_step ev st) evs st.

(** Every task was admitted by the service that is current, or by one since retired. *)
Definition tasks_ok (st : CS * list ConnectTask) : Prop :=
  forall task, task ∈ st.2 ->
    cmd_service st.1 = Some (tk_service task) \/ retired (cmd_world st.1) (tk_service task) = true.

Lemma tasks_follow cs cs' tasks tasks' :
  step_ok cs cs' -> tasks_ok (cs, tasks) -> tasks' ⊆ tasks -> tasks_ok (cs', tasks').
Proof.
  intros (Ha & _ & Hs & _) Ht Hsub task Hin. destruct (Ht task (Hsub _ Hin)) as [Hc|Hr].
  - by apply Hs.
  - right. by apply (proj1 Ha).
Qed.

Lemma delete_subseteq {A} (i : nat) (l : list A) : delete i l ⊆ l.
Proof.
  intros x [j Hj]%list_elem_of_lookup. destruct (decide (j < i)%nat).
  - rewrite list_lookup_delete_lt in Hj by lia. by apply list_elem_of_lookup_2 with j.
  - rewrite list_lookup_delete_ge in Hj by lia. by apply list_elem_of_lookup_2 with (S j).
Qed.

Lemma steps_operation_id action : steps (cmd_operation_id action).
Proof. unfold cmd_operation_id. steps_tac. Qed.

Lemma steps_cancel op : steps (cancel_networking_operation op).
Proof. unfold cancel_networking_operation, cancel_exact. steps_tac. Qed.

Lemma steps_disconnect : steps disconnect_networking.
Proof. unfold disconnect_networking, disconnect_exact. steps_tac. Qed.

Lemma steps_view : steps policy_catalog_view.
Proof. unfold policy_catalog_view. steps_tac. Qed.

Lemma steps_configure p c : steps (configure_bundle_providers_now false p c).
Proof. unfold configure_bundle_providers_now. steps_tac. Qed.

Lemma steps_diagnostics : steps get_networking_diagnostics.
Proof. unfold get_networking_diagnostics. steps_tac. Qed.

Lemma connect_command_spec ready cs :
  cs_wf cs ->
  wp (connect_networking ready) (fun r cs' => step_ok cs cs' /\
    forall status task, r = Ok (status, task) -> cmd_service cs' = Some (tk_service task)) cs.
Proof.
  intros Hwf. unfold connect_networking. do 2 wp_step. destruct ready; [|split; [by apply step_refl|done]].
  wp_step. apply (wp_mono _ (fun _ cs1 => step_ok cs cs1)); [by apply steps_operation_id|].
  intros [op|e] cs1 Hst; [|done]. wp_step.
  eapply wp_mono; [apply service_for_connect_spec; by eapply step_wf|].
  intros [target|e] cs2 [Hst2 Ht]; pose proof (step_trans _ _ _ Hst Hst2) as Hst'; [|done].
  do 3 wp_step. split; [done|]. intros status task [= <- <-]. by apply Ht.
Qed.

Lemma command_step_ok ev cs tasks cs' tasks' :
  cs_wf cs -> tasks_ok (cs, tasks) -> command_step ev (cs, tasks) = (cs', tasks') ->
  step_ok cs cs' /\ tasks_ok (cs', tasks').
Proof.
  intros Hwf Ht Hrun.
  assert (Hplain : forall A (m : Meth CS A) l, steps m -> l ⊆ tasks ->
    step_ok cs (m cs).2 /\ tasks_ok ((m cs).2, l)).
  { intros A m l Hm Hl. pose proof (Hm cs Hwf) as Hst. split; [done|]. by eapply tasks_follow. }
  destruct ev as [p c| |ready|i|i| |id|op| |]; cbn [command_step] in Hrun.
  - injection Hrun as <- <-. refine (Hplain _ _ _ _ _); [apply steps_configure|done].
  - injection Hrun as <- <-. refine (Hplain _ _ _ _ _); [apply steps_initialize|done].
  - pose proof (connect_command_spec ready cs Hwf) as Hc. unfold wp in Hc.
    destruct (connect_networking ready cs) as [[[status task]|e] cs1]; injection Hrun as <- <-;
      cbn [fst snd] in Hc; destruct Hc as [Hst Hs]; (split; [done|]).
    + intros task' [Hin|Hin]%elem_of_app.
      * exact (tasks_follow _ _ _ _ Hst Ht (reflexivity tasks) _ Hin).
      * apply list_elem_of_singleton in Hin as ->. left. by eapply Hs.
    + by eapply tasks_follow.
  - destruct (tasks !! i) as [task|]; injection Hrun as <- <-; [|split; [by apply step_refl|done]].
    refine (Hplain _ _ _ _ _); [|apply delete_subseteq]. unfold run_connect_task. steps_tac.
  - destruct (tasks !! i) as [task|]; injection Hrun as <- <-; [|split; [by apply step_refl|done]].
    assert (Hst : step_ok cs (cmd_set_world (svc_abandon (tk_service task) (tk_reservation task) (cmd_world cs)) cs))
      by (apply world_step; [done|apply law_abandon]).
    split; [done|]. eapply tasks_follow; [done|done|apply delete_subseteq].
  - injection Hrun as <- <-. refine (Hplain _ _ _ _ _); [apply steps_view|done].
  - injection Hrun as <- <-. refine (Hplain _ _ _ _ _); [|done]. intros cs0 Hcs0. apply (select_spec id cs0 Hcs0).
  - injection Hrun as <- <-. refine (Hplain _ _ _ _ _); [apply steps_cancel|done].
  - injection Hrun as <- <-. refine (Hplain _ _ _ _ _); [apply steps_disconnect|done].
  - injection Hrun as <- <-. refine (Hplain _ _ _ _ _); [apply steps_diagnostics|done].
Qed.

Lemma command_run_ok evs cs tasks cs' tasks' :
  cs_wf cs -> tasks_ok (cs, tasks) -> command_run evs (cs, tasks) = (cs', tasks') ->
  step_ok cs cs' /\ tasks_ok (cs', tasks').
Proof.
  revert cs tasks. induction evs as [|ev evs IH]; intros cs tasks Hwf Ht.
  { intros [= <- <-]. split; [by apply step_refl|done]. }
  unfold command_run. cbn [fold_left].
  destruct (command_step ev (cs, tasks)) as [cs1 tasks1] eqn:Hs. intros Hrun.
  destruct (command_step_ok _ _ _ _ _ Hwf Ht Hs) as [Hst Ht1].
  destruct (IH _ _ (step_wf _ _ Hst) Ht1 Hrun) as [Hst2 Ht2]. split; [by eapply step_trans|done].
Qed.

(** C11: whatever commands run and in whatever order their connect tasks are
    scheduled, a production service that the command state has held is either
    still the published one or retired; the same holds for the service a running
    connect task was started for, so no task acts on a service that was replaced
    while alive; and at most sixteen records of retired generations are kept. *)
Theorem replaced_service_is_retired w evs1 evs2 cs1 tasks1 cs2 tasks2 :
  command_run evs1 (cmd_new w, []) = (cs1, tasks1) ->
  command_run evs2 (cs1, tasks1) = (cs2, tasks2) ->
  (forall s, cmd_service cs1 = Some s ->
     cmd_service cs2 = Some s \/ retired (cmd_world cs2) s = true) /\
  (forall task, task ∈ tasks2 ->
     cmd_service cs2 = Some (tk_service task) \/ retired (cmd_world cs2) (tk_service task) = true) /\
  (length (cmd_retired_evidence cs2) <= 16)%nat.
Proof.
  intros Hrun1 Hrun2.
  apply command_run_ok in Hrun1 as [Hst1 Ht1]; [|split; cbn; [done|lia]|by intros task ?%elem_of_nil].
  apply command_run_ok in Hrun2 as [(_ & _ & Hs & He) Ht2]; [|by eapply step_wf|done].
  split_and!; [exact Hs|exact Ht2|exact He].
Qed.

(** In every reachable state of the commands, selecting a policy variant either
    installs the prepared selection or leaves the published selection as it was,
    and never drops a service that is not retired. *)
Theorem selection_is_all_or_nothing w evs cs tasks catalog_id r cs' :
  command_run evs (cmd_new w, []) = (cs, tasks) ->
  select_policy_variant catalog_id cs = (r, cs') ->
  selected_or_unchanged cs r cs' /\
  (forall s, cmd_service cs = Some s -> cmd_service cs' = Some s \/ retired (cmd_world cs') s = true).
Proof.
  intros Hrun Hsel.
  apply command_run_ok in Hrun as [Hst _]; [|split; cbn; [done|lia]|by intros task ?%elem_of_nil].
  destruct (wp_run _ _ _ _ _ (select_spec catalog_id cs (step_wf _ _ Hst)) Hsel) as [(_ & _ & Hs & _) Hsu].
  split; [exact Hsu|exact Hs].
Qed.
End safety.
