(* ===== verification/Yaml.v ===== *)
(** * Yaml: the values the configuration is made of

    [serde_yaml_ng]'s [Value] and [Mapping].  A mapping keeps its entries in the order of
    insertion and has no repeated key; inserting an existing key replaces its value in
    place.  Where a removal leaves the remaining entries is the library's business
    ([MappingLib]); that it leaves exactly them is its law.  The [as_*] accessors look
    through tags, patterns on [Value] do not. *)

From Stdlib Require Import Ascii String.
From S2P Require Import Prelude Text.

Inductive Number : Type :=
| PosInt (n : Z)
| NegInt (n : Z)
| Float (bits : Z).

#[global] Instance Number_eq_dec : EqDecision Number.
Proof. solve_decision. Defined.

Inductive Value : Type :=
| VNull
| VBool (b : bool)
| VNumber (n : Number)
| VString (s : string)
| VSequence (l : list Value)
| VMapping (m : list (Value * Value))
| VTagged (tag : string) (v : Value).

Notation Mapping := (list (Value * Value)).
Notation Sequence := (list Value).

(** ** induction and equality *)

Section value_ind.
Context (P : Value -> Prop).
Context (Hnull : P VNull) (Hbool : forall b, P (VBool b)) (Hnum : forall n, P (VNumber n))
  (Hstr : forall s, P (VString s)) (Hseq : forall l, Forall P l -> P (VSequence l))
  (Hmap : forall m, Forall (fun e => P e.1 /\ P e.2) m -> P (VMapping m))
  (Htag : forall t v, P v -> P (VTagged t v)).

Fixpoint value_rect (v : Value) : P v :=
  match v with
  | VNull => Hnull
  | VBool b => Hbool b
  | VNumber n => Hnum n
  | VString s => Hstr s
  | VSequence l => Hseq l ((fix go l : Forall P l :=
      match l with [] => Forall_nil_2 _ | x :: l => Forall_cons_2 _ _ _ (value_rect x) (go l) end) l)
  | VMapping m => Hmap m ((fix go m : Forall (fun e => P e.1 /\ P e.2) m :=
      match m with
      | [] => Forall_nil_2 _
      | (k, x) :: m => Forall_cons_2 (fun e => P e.1 /\ P e.2) (k, x) m (conj (value_rect k) (value_rect x)) (go m)
      end) m)
  | VTagged t v => Htag t v (value_rect v)
  end.
End value_ind.

Fixpoint value_eqb (a b : Value) {struct a} : bool :=
  match a, b with
  | VNull, VNull => true
  | VBool x, VBool y => Bool.eqb x y
  | VNumber x, VNumber y => bool_decide (x = y)
  | VString x, VString y => bool_decide (x = y)
  | VSequence l, VSequence l' =>
      (fix go l l' := match l, l' with
                      | [], [] => true
                      | x :: l, y :: l' => value_eqb x y && go l l'
                      | _, _ => false
                      end) l l'
  | VMapping m, VMapping m' =>
      (fix go m m' := match m, m' with
                      | [], [] => true
                      | (k, x) :: m, (k', y) :: m' => value_eqb k k' && value_eqb x y && go m m'
                      | _, _ => false
                      end) m m'
  | VTagged t x, VTagged t' y => bool_decide (t = t') && value_eqb x y
  | _, _ => false
  end.

Lemma value_eqb_true a b : value_eqb a b = true <-> a = b.
Proof.
  revert b. induction a as [|x|x|x|l IH|m IH|t v IH] using value_rect; intros [|y|y|y|l'|m'|t' v']; cbn; try done.
  - rewrite Bool.eqb_true_iff. split; [by intros ->|by intros [= ->]].
  - rewrite bool_decide_eq_true. split; [by intros ->|by intros [= ->]].
  - rewrite bool_decide_eq_true. split; [by intros ->|by intros [= ->]].
  - trans (l = l'); [|split; [by intros ->|by intros [= ->]]]. revert l'.
    induction IH as [|x l Hx IH IHl]; intros [|y l']; try done. rewrite andb_true_iff, Hx, IHl.
    split; [by intros [-> ->]|by intros [= -> ->]].
  - trans (m = m'); [|split; [by intros ->|by intros [= ->]]]. revert m'.
    induction IH as [|[k x] m [Hk Hx] IH IHm]; intros [|[k' y] m']; try done. cbn in Hk, Hx.
    rewrite !andb_true_iff, Hk, Hx, IHm. split; [by intros [[-> ->] ->]|by intros [= -> -> ->]].
  - rewrite andb_true_iff, bool_decide_eq_true, IH. split; [by intros [-> ->]|by intros [= -> ->]].
Qed.

#[global] Instance Value_eq_dec : EqDecision Value.
Proof.
  intros a b. destruct (value_eqb a b) eqn:E; [left; by apply value_eqb_true|right].
  intros ->. by rewrite (proj2 (value_eqb_true b b)) in E.
Defined.

(** ** accessors *)

Fixpoint untag (v : Value) : Value := match v with VTagged _ v => untag v | _ => v end.

Definition as_str (v : Value) : option string := match untag v with VString s => Some s | _ => None end.
Definition as_bool (v : Value) : option bool := match untag v with VBool b => Some b | _ => None end.
Definition as_sequence (v : Value) : option Sequence := match untag v with VSequence l => Some l | _ => None end.
Definition as_mapping (v : Value) : option Mapping := match untag v with VMapping m => Some m | _ => None end.

(** An edit through [as_mapping_mut]. *)
Fixpoint edit_mapping (f : Mapping -> Mapping) (v : Value) : Value :=
  match v with
  | VTagged t v => VTagged t (edit_mapping f v)
  | VMapping m => VMapping (f m)
  | _ => v
  end.

(** ** mappings *)

Fixpoint m_get (k : Value) (m : Mapping) : option Value :=
  match m with
  | [] => None
  | (k', v) :: m => if decide (k' = k) then Some v else m_get k m
  end.

Fixpoint m_insert (k v : Value) (m : Mapping) : Mapping :=
  match m with
  | [] => [(k, v)]
  | (k', v') :: m => if decide (k' = k) then (k', v) :: m else (k', v') :: m_insert k v m
  end.

Definition m_extend (m : Mapping) (l : Mapping) : Mapping := fold_left (fun m e => m_insert e.1 e.2 m) l m.

Definition get_str (k : string) (m : Mapping) : option Value := m_get (VString k) m.
Definition insert_str (k : string) (v : Value) (m : Mapping) : Mapping := m_insert (VString k) v m.
Definition contains_key (k : string) (m : Mapping) : bool := is_some (get_str k m).

(** [value.get(key)] on a value. *)
Definition value_get (k : string) (v : Value) : option Value :=
  match as_mapping v with Some m => get_str k m | None => None end.

(** An edit of the value under a key, through [get_mut]. *)
Definition edit_str (k : string) (f : Value -> Value) (m : Mapping) : Mapping :=
  match get_str k m with Some v => insert_str k (f v) m | None => m end.

Class MappingLib := { m_remove : Value -> Mapping -> Mapping }.

(** No repeated key. *)
Definition mwf (m : Mapping) : Prop := NoDup m.*1.

Class MappingLaws `{MappingLib} := {
  law_m_remove : forall k m, mwf m -> m_remove k m ≡ₚ filter (fun e => e.1 <> k) m;
}.

Definition remove_str `{MappingLib} (k : string) (m : Mapping) : option Value * Mapping :=
  match get_str k m with Some v => (Some v, m_remove (VString k) m) | None => (None, m) end.

(** ** lookups *)

Lemma m_get_elem k v m : mwf m -> m_get k m = Some v <-> (k, v) ∈ m.
Proof.
  unfold mwf. induction m as [|[k' v'] m IH]; cbn; intros Hd.
  { split; [done|by intros ?%elem_of_nil]. }
  apply NoDup_cons in Hd as [Hn Hd]. rewrite elem_of_cons. destruct (decide (k' = k)) as [->|Hne].
  - split; [intros [= ->]; by left|]. intros [[= ->]|Hin]; [done|]. destruct Hn.
    apply list_elem_of_fmap. by exists (k, v).
  - rewrite (IH Hd). split; [by right|]. intros [[= -> ->]|Hin]; [done|done].
Qed.

Lemma m_get_none k m : m_get k m = None <-> k ∉ m.*1.
Proof.
  induction m as [|[k' v'] m IH]; cbn; [split; [by intros _ ?%elem_of_nil|done]|].
  rewrite not_elem_of_cons. destruct (decide (k' = k)) as [->|Hne].
  - split; [done|by intros [? _]].
  - rewrite IH. split; [by intros ?|by intros [_ ?]].
Qed.

(** Lookups do not depend on the order. *)
Lemma m_get_perm m m' k : mwf m -> m ≡ₚ m' -> m_get k m = m_get k m'.
Proof.
  intros Hd Hp. assert (Hd' : mwf m') by (unfold mwf in *; by rewrite <- Hp).
  destruct (m_get k m') as [v|] eqn:E.
  - apply (m_get_elem _ _ _ Hd') in E. apply (m_get_elem _ _ _ Hd). by rewrite Hp.
  - apply m_get_none in E. apply m_get_none. by rewrite Hp.
Qed.

Lemma m_get_insert_eq k v m : m_get k (m_insert k v m) = Some v.
Proof.
  induction m as [|[k' v'] m IH]; cbn; [by rewrite decide_True|].
  destruct (decide (k' = k)) as [->|Hne]; cbn; [by rewrite decide_True|]. by rewrite decide_False.
Qed.

Lemma m_get_insert_ne k k' v m : k <> k' -> m_get k (m_insert k' v m) = m_get k m.
Proof.
  intros Hne. induction m as [|[k0 v0] m IH]; cbn; [by rewrite decide_False|].
  destruct (decide (k0 = k')) as [->|Hn]; cbn; [by rewrite !decide_False|]. by rewrite IH.
Qed.

Lemma get_insert_str k k' v m : get_str k (insert_str k' v m) = if decide (k = k') then Some v else get_str k m.
Proof.
  unfold get_str, insert_str. destruct (decide (k = k')) as [->|Hne]; [apply m_get_insert_eq|].
  apply m_get_insert_ne. congruence.
Qed.

Lemma m_insert_keys k v m : k ∈ m.*1 -> (m_insert k v m).*1 = m.*1.
Proof.
  induction m as [|[k' v'] m IH]; cbn; [by intros ?%elem_of_nil|].
  destruct (decide (k' = k)) as [->|Hne]; [done|]. intros [->|Hin]%elem_of_cons; [done|]. cbn. by rewrite IH.
Qed.

Lemma m_insert_new k v m : k ∉ m.*1 -> m_insert k v m = m ++ [(k, v)].
Proof.
  induction m as [|[k' v'] m IH]; cbn; [done|]. intros [Hne Hn]%not_elem_of_cons.
  rewrite decide_False by done. by rewrite IH.
Qed.

(** Writing what is there changes nothing. *)
Lemma m_insert_same k v m : m_get k m = Some v -> m_insert k v m = m.
Proof.
  induction m as [|[k' v'] m IH]; cbn; [done|]. destruct (decide (k' = k)) as [->|Hne]; [by intros [= ->]|].
  intros Hg. by rewrite IH.
Qed.

Lemma mwf_insert k v m : mwf m -> mwf (m_insert k v m).
Proof.
  unfold mwf. intros Hd. destruct (decide (k ∈ m.*1)) as [Hin|Hn].
  - by rewrite m_insert_keys.
  - rewrite m_insert_new, fmap_app by done. apply NoDup_app. split_and!; [done| |constructor; [apply not_elem_of_nil|constructor]].
    cbn. intros x Hx Hk. apply list_elem_of_singleton in Hk as ->. done.
Qed.

Lemma mwf_nil : mwf [].
Proof. constructor. Qed.

Lemma mwf_extend l m : mwf m -> mwf (m_extend m l).
Proof. revert m. induction l as [|e l IH]; intros m Hm; [done|]. by apply IH, mwf_insert. Qed.

Lemma m_get_extend l m k : mwf l -> m_get k (m_extend m l) = match m_get k l with Some v => Some v | None => m_get k m end.
Proof.
  unfold mwf. revert m. induction l as [|[k' v'] l IH]; intros m Hd; [done|]. cbn in Hd |- *.
  apply NoDup_cons in Hd as [Hn Hd]. unfold m_extend in *. rewrite (IH _ Hd). cbn.
  destruct (decide (k' = k)) as [->|Hne].
  - apply m_get_none in Hn. by rewrite Hn, m_get_insert_eq.
  - destruct (m_get k l); [done|]. by apply m_get_insert_ne.
Qed.

Section remove.
Context `{MappingLaws}.

Lemma mwf_filter (Q : Value * Value -> Prop) `{forall e, Decision (Q e)} m : mwf m -> mwf (filter Q m).
Proof.
  unfold mwf. induction m as [|e m IH]; [done|]. rewrite fmap_cons, NoDup_cons, filter_cons. intros [Hn Hd].
  case_decide; [|by apply IH]. rewrite fmap_cons. constructor; [|by apply IH].
  intros Hin. apply Hn. apply list_elem_of_fmap in Hin as (x & Hx & Hin). apply list_elem_of_filter in Hin as [_ Hin].
  apply list_elem_of_fmap. by exists x.
Qed.

Lemma mwf_remove k m : mwf m -> mwf (m_remove k m).
Proof. intros Hm. unfold mwf. rewrite law_m_remove by done. by apply (mwf_filter (fun e => e.1 <> k)). Qed.

Lemma m_get_remove k k' m : mwf m -> m_get k (m_remove k' m) = if decide (k = k') then None else m_get k m.
Proof.
  intros Hm. rewrite (m_get_perm _ _ k (mwf_remove k' m Hm) (law_m_remove k' m Hm)).
  clear H H0. induction m as [|[k0 v0] m IH]; [by destruct (decide _)|]. rewrite filter_cons. cbn [fst].
  apply NoDup_cons in Hm as [_ Hm]. specialize (IH Hm). destruct (decide (k0 <> k')) as [Hne|He]; cbn [m_get].
  - destruct (decide (k0 = k)) as [->|Hn]; [by rewrite decide_False|done].
  - apply dec_stable in He as ->. rewrite IH. destruct (decide (k = k')) as [->|Hn]; [done|]. by rewrite decide_False.
Qed.

Lemma remove_str_spec k m : mwf m ->
  (remove_str k m).1 = get_str k m /\ mwf (remove_str k m).2 /\
  forall k', m_get k' (remove_str k m).2 = if decide (k' = VString k) then None else m_get k' m.
Proof.
  intros Hm. unfold remove_str. destruct (get_str k m) as [v|] eqn:E; cbn.
  - split_and!; [done|by apply mwf_remove|]. intros k'. by apply m_get_remove.
  - split_and!; [done|done|]. intros k'. destruct (decide (k' = VString k)) as [->|]; done.
Qed.
End remove.

Create HintDb yaml.
#[export] Hint Resolve mwf_insert mwf_nil mwf_extend mwf_remove : yaml.
