(* ===== verification/ProfileItem.v ===== *)
(** * ProfileItem: the items of the profile list

    [src-tauri/src/config/prfitem.rs] and the templates of [utils/tmpl.rs]: the records,
    the merge of two option records, the extension items a profile refers to and how
    they are made.  Identifiers ([nanoid]) and times are arguments. *)

From Stdlib Require Import Ascii String.
From S2P Require Import Prelude Text.

Record PrfSelected := { sel_name : option string; sel_now : option string }.

#[global] Instance PrfSelected_eq_dec : EqDecision PrfSelected.
Proof. solve_decision. Defined.

Record PrfExtra := { ex_upload : Z; ex_download : Z; ex_total : Z; ex_expire : Z }.

Record PrfOption := {
  user_agent : option string;
  with_proxy : option bool;
  self_proxy : option bool;
  update_interval : option Z;
  timeout_seconds : option Z;
  danger_accept_invalid_certs : option bool;
  allow_auto_update : option bool;
  opt_merge : option string;
  opt_script : option string;
  opt_rules : option string;
  opt_proxies : option string;
  opt_groups : option string;
}.

Definition PrfOption_default : PrfOption :=
  {| user_agent := None; with_proxy := None; self_proxy := None; update_interval := None;
     timeout_seconds := None; danger_accept_invalid_certs := None; allow_auto_update := None;
     opt_merge := None; opt_script := None; opt_rules := None; opt_proxies := None; opt_groups := None |}.

Record PrfItem := {
  uid : option string;
  itype : option string;
  item_name : option string;
  file : option string;
  desc : option string;
  item_url : option string;
  selected : option (list PrfSelected);
  extra : option PrfExtra;
  updated : option Z;
  item_option : option PrfOption;
  home : option string;
  file_data : option string;
}.

Definition PrfItem_default : PrfItem :=
  {| uid := None; itype := None; item_name := None; file := None; desc := None; item_url := None;
     selected := None; extra := None; updated := None; item_option := None; home := None; file_data := None |}.

(** [b.or(a)]. *)
Definition opt_or {A} (b a : option A) : option A := match b with Some _ => b | None => a end.

Definition PrfOption_merge (one other : option PrfOption) : option PrfOption :=
  match one, other with
  | Some a, Some b => Some {|
      user_agent := opt_or (user_agent b) (user_agent a);
      with_proxy := opt_or (with_proxy b) (with_proxy a);
      self_proxy := opt_or (self_proxy b) (self_proxy a);
      update_interval := opt_or (update_interval b) (update_interval a);
      timeout_seconds := opt_or (timeout_seconds b) (timeout_seconds a);
      danger_accept_invalid_certs := opt_or (danger_accept_invalid_certs b) (danger_accept_invalid_certs a);
      allow_auto_update := opt_or (allow_auto_update b) (allow_auto_update a);
      opt_merge := opt_or (opt_merge b) (opt_merge a);
      opt_script := opt_or (opt_script b) (opt_script a);
      opt_rules := opt_or (opt_rules b) (opt_rules a);
      opt_proxies := opt_or (opt_proxies b) (opt_proxies a);
      opt_groups := opt_or (opt_groups b) (opt_groups a) |}
  | Some a, None => Some a
  | None, Some b => Some b
  | None, None => None
  end.

Definition current_merge (self : PrfItem) : option string := item_option self ≫= opt_merge.
Definition current_script (self : PrfItem) : option string := item_option self ≫= opt_script.
Definition current_rules (self : PrfItem) : option string := item_option self ≫= opt_rules.
Definition current_proxies (self : PrfItem) : option string := item_option self ≫= opt_proxies.
Definition current_groups (self : PrfItem) : option string := item_option self ≫= opt_groups.

Definition allow_auto_update_enabled (option : option PrfOption) : bool :=
  match option ≫= allow_auto_update with Some b => b | None => true end.

(** ** templates *)

Definition ITEM_LOCAL : string :=
"# Profile Template for KyClash

proxies: []

proxy-groups: []

rules: []
".

Definition ITEM_MERGE : string :=
"# Profile Enhancement Merge Template for KyClash

profile:
  store-selected: true
".

Definition ITEM_MERGE_EMPTY : string :=
"# Profile Enhancement Merge Template for KyClash

".

Definition ITEM_SCRIPT : string :=
"// Define main function (script entry)

function main(config, profileName) {
  return config;
}
".

Definition ITEM_RULES : string :=
"# Profile Enhancement Rules Template for KyClash

prepend: []

append: []

delete: []
".

Definition ITEM_PROXIES : string :=
"# Profile Enhancement Proxies Template for KyClash

prepend: []

append: []

delete: []
".

Definition ITEM_GROUPS : string :=
"# Profile Enhancement Groups Template for KyClash

prepend: []

append: []

delete: []
".

(** ** new items

    [id] is the eleven characters of the new identifier, after its prefix. *)
Definition get_uid (prefix id : string) : string := String.append prefix id.

Definition chain_item (identifier kind file_name data : string) (now : Z) : PrfItem :=
  {| uid := Some identifier; itype := Some kind; item_name := None; file := Some file_name; desc := None;
     item_url := None; selected := None; extra := None; updated := Some now; item_option := None;
     home := None; file_data := Some data |}.

Definition yaml_name (identifier : string) : string := String.append identifier ".yaml".
Definition js_name (identifier : string) : string := String.append identifier ".js".

Definition from_merge (known : option string) (id : string) (now : Z) : PrfItem :=
  let (identifier, template) :=
    match known with Some u => (u, ITEM_MERGE) | None => (get_uid "m" id, ITEM_MERGE_EMPTY) end in
  chain_item identifier "merge" (yaml_name identifier) template now.

Definition from_script (known : option string) (id : string) (now : Z) : PrfItem :=
  let identifier := match known with Some u => u | None => get_uid "s" id end in
  chain_item identifier "script" (js_name identifier) ITEM_SCRIPT now.

Definition from_rules (id : string) (now : Z) : PrfItem :=
  chain_item (get_uid "r" id) "rules" (yaml_name (get_uid "r" id)) ITEM_RULES now.
Definition from_proxies (id : string) (now : Z) : PrfItem :=
  chain_item (get_uid "p" id) "proxies" (yaml_name (get_uid "p" id)) ITEM_PROXIES now.
Definition from_groups (id : string) (now : Z) : PrfItem :=
  chain_item (get_uid "g" id) "groups" (yaml_name (get_uid "g" id)) ITEM_GROUPS now.

(** ** merging options *)

Lemma opt_or_assoc {A} (a b c : option A) : opt_or (opt_or a b) c = opt_or a (opt_or b c).
Proof. by destruct a. Qed.

(** Options merge like updates: associatively, with [None] as unit, and a second time
    without effect. *)
Lemma option_merge_assoc a b c :
  PrfOption_merge (PrfOption_merge a b) c = PrfOption_merge a (PrfOption_merge b c).
Proof. destruct a, b, c; cbn; try done. by rewrite !opt_or_assoc. Qed.

Lemma option_merge_idem a b : PrfOption_merge (PrfOption_merge a b) b = PrfOption_merge a b.
Proof.
  destruct a as [a|], b as [b|]; cbn; try done.
  - by destruct b as [[] [] [] [] [] [] [] [] [] [] [] []].
  - by destruct b as [[] [] [] [] [] [] [] [] [] [] [] []].
Qed.
