(* ===== verification/Profiles.v ===== *)
(** * Profiles: the profile list and its files

    [src-tauri/src/config/profiles.rs], first half: the list, its current profile, the
    operations on it and the cleanup of the profiles directory.  The directory and the
    saving of [profiles.yaml] are the class [ProfileFs]; the operations marked [_safe]
    run on a copy of the committed list, which replaces it when they succeed
    ([Draft.with_data_modify]).  Paths follow the rules of Unix. *)

From Stdlib Require Import Ascii String.
From S2P Require Import Prelude Text ProfileItem.

Record IProfiles := { current : option string; items : option (list PrfItem) }.

Inductive ProfileError : Type :=
| UidIsNull
| FileIsNull
| ItemNotFound (uid : string)
| NotASingleFilename
| NoProfilesDir
| WriteFailed
| SaveFailed
| ReadDirFailed
| TypeIsNull
| InvalidType (kind : string)
| MihomoFailed.

(** What [read_dir] yields: the name if it is valid Unicode, and whether it is a file. *)
Record DirEntry := { de_name : option string; de_is_file : bool }.

Class ProfileFs (W : Type) := {
  app_profiles_dir : M W unit string;
  fs_path_exists : string -> W -> bool * W;
  fs_write : string -> string -> M W unit unit;
  fs_remove_if_exists : string -> M W unit unit;
  (* an entry that cannot be read ends the iteration *)
  fs_read_dir : string -> M W unit (list (result DirEntry unit));
  fs_save_profiles : IProfiles -> M W unit unit;
}.

(** [Path::join] of a single component. *)
Definition file_path (dir name : string) : string := String.append dir (String.append "/" name).

(** ** pure operations *)

Definition has_uid (u : string) (item : PrfItem) : bool := bool_decide (uid item = Some u).

Definition is_main_type (item : PrfItem) : bool :=
  bool_decide (itype item = Some "remote"%string) || bool_decide (itype item = Some "local"%string).

(** [take_item_file_by_uid]: the first item with the identifier, and its file. *)
Fixpoint take_item_file_by_uid (l : list PrfItem) (target : option string)
  : option string * list PrfItem :=
  match l with
  | [] => (None, [])
  | item :: l =>
      if bool_decide (uid item = target) then (file item, l)
      else let (f, l) := take_item_file_by_uid l target in (f, item :: l)
  end.

Definition patch_config (patch self : IProfiles) : IProfiles :=
  let l := match items self with Some l => l | None => [] end in
  match current patch with
  | Some c => if existsb (has_uid c) l then {| current := Some c; items := Some l |}
              else {| current := current self; items := Some l |}
  | None => {| current := current self; items := Some l |}
  end.

Definition get_item (self : IProfiles) (u : string) : result PrfItem ProfileError :=
  match items self with
  | Some l => ok_or (find (has_uid u) l) (ItemNotFound u)
  | None => Err (ItemNotFound u)
  end.

Definition is_current_profile_index (self : IProfiles) (index : string) : bool :=
  bool_decide (current self = Some index).

Definition profiles_preview (self : IProfiles) : option (list (string * string * bool)) :=
  match items self with
  | Some l => Some (omap (fun e => match uid e, item_name e with
                                   | Some u, Some n => Some (u, n, is_current_profile_index self u)
                                   | _, _ => None
                                   end) l)
  | None => None
  end.

Definition get_name_by_uid (self : IProfiles) (u : string) : option string :=
  match items self with
  | Some l => match find (has_uid u) l with Some item => item_name item | None => None end
  | None => None
  end.

(** [IProfiles::new]: the list as read, every missing identifier filled in. *)
Fixpoint fill_uids (l : list PrfItem) (ids : list string) : list PrfItem :=
  match l with
  | [] => []
  | item :: l =>
      match uid item with
      | Some _ => item :: fill_uids l ids
      | None =>
          {| uid := Some (get_uid "d" (match ids with [] => ""%string | id :: _ => id end));
             itype := itype item; item_name := item_name item; file := file item; desc := desc item;
             item_url := item_url item; selected := selected item; extra := extra item;
             updated := updated item; item_option := item_option item; home := home item;
             file_data := file_data item |} :: fill_uids l (tail ids)
      end
  end.

Definition IProfiles_new (read : option IProfiles) (ids : list string) : IProfiles :=
  match read with
  | Some p => {| current := current p;
                 items := Some (fill_uids (match items p with Some l => l | None => [] end) ids) |}
  | None => {| current := None; items := None |}
  end.

(** [validate_profile_file]; ["."] and [".."] are not normal components. *)
Definition validate_profile_file (name : string) : result unit ProfileError :=
  if is_empty name || any_byte (fun c => bool_decide (c = "/"%char)) name
    || any_byte (fun c => bool_decide (c = "092"%char)) name
    || negb (negb (bool_decide (name = "."%string)) && negb (bool_decide (name = ".."%string)))
  then Err NotASingleFilename else Ok tt.

(** The [patch!] macro. *)
Definition patched {A} (lv rv : option A) : option A := match rv with Some _ => rv | None => lv end.

Definition apply_patch (item each : PrfItem) : PrfItem :=
  {| uid := uid each;
     itype := patched (itype each) (itype item);
     item_name := patched (item_name each) (item_name item);
     file := patched (file each) (file item);
     desc := patched (desc each) (desc item);
     item_url := patched (item_url each) (item_url item);
     selected := patched (selected each) (selected item);
     extra := patched (extra each) (extra item);
     updated := patched (updated each) (updated item);
     item_option := patched (item_option each) (item_option item);
     home := home each;
     file_data := file_data each |}.

(** The first item with the identifier is replaced. *)
Fixpoint alter_item (f : PrfItem -> PrfItem) (u : string) (l : list PrfItem) : option (list PrfItem) :=
  match l with
  | [] => None
  | item :: l => if has_uid u item then Some (f item :: l)
                 else match alter_item f u l with Some l => Some (item :: l) | None => None end
  end.

(** The loop of [reorder]: the last position of each identifier. *)
Fixpoint last_index (u : string) (i : nat) (l : list PrfItem) (found : option nat) : option nat :=
  match l with
  | [] => found
  | item :: l => last_index u (S i) l (if has_uid u item then Some i else found)
  end.

(** [Vec::remove] then [Vec::insert]. *)
Definition move_item (old_idx new_idx : nat) (l : list PrfItem) : list PrfItem :=
  match l !! old_idx with
  | Some item => let l := delete old_idx l in take new_idx l ++ item :: drop new_idx l
  | None => l
  end.

(** ** operations on the list *)

Record ProfileWorld (W : Type) := { pf_profiles : IProfiles; pf_world : W }.
Arguments pf_profiles {W} _.
Arguments pf_world {W} _.

Section operations.
Context {W : Type} `{ProfileFs W}.
Notation PW := (ProfileWorld W).
Notation PM A := (M PW ProfileError A).

Definition pf_set (p : IProfiles) (w : PW) : PW := {| pf_profiles := p; pf_world := pf_world w |}.
Definition pf_set_items (l : option (list PrfItem)) (w : PW) : PW :=
  pf_set {| current := current (pf_profiles w); items := l |} w.
Definition pf_set_current (c : option string) (w : PW) : PW :=
  pf_set {| current := c; items := items (pf_profiles w) |} w.

(** A file operation and the error its failure becomes. *)
Definition on_fs {A} (error : ProfileError) (m : M W unit A) : PM A :=
  fun w => let (r, x) := m (pf_world w) in
           (map_err (fun _ => error) r, {| pf_profiles := pf_profiles w; pf_world := x |}).

Definition profiles_dir : PM string := on_fs NoProfilesDir app_profiles_dir.

Definition save_file : PM unit :=
  let! w := get in on_fs SaveFailed (fs_save_profiles (pf_profiles w)).

(** The item is borrowed: its [file_data] is taken when it is written. *)
Definition append_item (item : PrfItem) : PM unit :=
  if is_none (uid item) then raise UidIsNull else
  match file_data item with
  | Some data =>
      let! name := lift (ok_or (file item) FileIsNull) in
      let! dir := profiles_dir in
      on_fs WriteFailed (fs_write (file_path dir name) data)
  | None => ret tt
  end ;!
  let stored := {| uid := uid item; itype := itype item; item_name := item_name item; file := file item;
                   desc := desc item; item_url := item_url item; selected := selected item;
                   extra := extra item; updated := updated item; item_option := item_option item;
                   home := home item; file_data := None |} in
  let! w := get in
  (if is_none (current (pf_profiles w)) && is_main_type item
   then modify (pf_set_current (uid item)) else ret tt) ;!
  modify (fun w => pf_set_items (Some ((match items (pf_profiles w) with Some l => l | None => [] end)
                                        ++ [stored])) w).

Definition take_items : PM (list PrfItem) :=
  let! w := get in
  modify (pf_set_items None) ;!
  ret (match items (pf_profiles w) with Some l => l | None => [] end).

Definition reorder (active_id over_id : string) : PM unit :=
  let! l := take_items in
  match last_index active_id 0 l None, last_index over_id 0 l None with
  | Some old_idx, Some new_idx =>
      modify (pf_set_items (Some (move_item old_idx new_idx l))) ;!
      save_file
  | _, _ => ret tt
  end.

Definition patch_item (u : string) (item : PrfItem) : PM unit :=
  match file item with
  | Some name => lift (validate_profile_file name)
  | None => ret tt
  end ;!
  let! l := take_items in
  match alter_item (apply_patch item) u l with
  | Some l' => modify (pf_set_items (Some l')) ;! save_file
  | None => modify (pf_set_items (Some l)) ;! raise (ItemNotFound u)
  end.

(** What [update_item] makes of the found item before its file is written. *)
Definition refreshed (item each : PrfItem) (name : option string) : PrfItem :=
  {| uid := uid each; itype := itype each; item_name := item_name each; file := name; desc := desc each;
     item_url := item_url each; selected := selected each; extra := extra item; updated := updated item;
     item_option := PrfOption_merge (item_option each) (item_option item); home := home item;
     file_data := file_data each |}.

Definition update_item (u : string) (item : PrfItem) : PM unit :=
  modify (fun w => pf_set_items (Some (match items (pf_profiles w) with Some l => l | None => [] end)) w) ;!
  let! w := get in
  let! found := lift (get_item (pf_profiles w) u) in
  let name := match file_data item with
              | Some _ => Some (match file found with
                                | Some f => f
                                | None => match file item with Some f => f | None => yaml_name u end
                                end)
              | None => file found
              end in
  modify (fun w => pf_set_items
    (match items (pf_profiles w) with
     | Some l => alter_item (fun each => refreshed item each name) u l
     | None => None
     end) w) ;!
  match file_data item, name with
  | Some data, Some name =>
      let! dir := profiles_dir in
      on_fs WriteFailed (fs_write (file_path dir name) data)
  | _, _ => ret tt
  end ;!
  save_file.

(** [let _ = ...remove_if_exists().await]. *)
Definition remove_profile_file (name : option string) : PM unit :=
  match name with
  | Some name =>
      let! dir := profiles_dir in
      let! _ := attempt (on_fs WriteFailed (fs_remove_if_exists (file_path dir name))) in
      ret tt
  | None => ret tt
  end.

(** The items of the list that the loop takes out, one by one. *)
Fixpoint take_all (targets : list (option string)) (l : list PrfItem) : PM (list PrfItem) :=
  match targets with
  | [] => ret l
  | target :: targets =>
      let (name, l) := take_item_file_by_uid l target in
      remove_profile_file name ;!
      take_all targets l
  end.

Definition extension_uids (item : PrfItem) : list (option string) :=
  match item_option item with
  | Some op => [opt_merge op; opt_script op; opt_rules op; opt_proxies op; opt_groups op]
  | None => []
  end.

Definition delete_item (u : string) : PM bool :=
  let! w := get in
  let was_current := match current (pf_profiles w) with Some c => c | None => u end in
  let! item := lift (get_item (pf_profiles w) u) in
  let! l := take_items in
  let! l := take_all (Some u :: extension_uids item) l in
  (if bool_decide (was_current = u)
   then modify (pf_set_current (match find is_main_type l with Some next => uid next | None => None end))
   else ret tt) ;!
  modify (pf_set_items (Some l)) ;!
  save_file ;!
  ret (bool_decide (was_current = u)).

(** ** the committed list

    The closure works on a copy; an error leaves the committed list, not the files. *)
Definition with_profiles {A} (m : PM A) : PM A :=
  fun w => match m w with
           | (Ok a, w') => (Ok a, w')
           | (Err e, w') => (Err e, {| pf_profiles := pf_profiles w; pf_world := pf_world w' |})
           end.

Definition profiles_append_item_safe (item : PrfItem) : PM unit := with_profiles (append_item item).
Definition profiles_patch_item_safe (index : string) (item : PrfItem) : PM unit :=
  with_profiles (patch_item index item).
Definition profiles_delete_item_safe (index : string) : PM bool := with_profiles (delete_item index).
Definition profiles_reorder_safe (active_id over_id : string) : PM unit :=
  with_profiles (reorder active_id over_id).
Definition profiles_save_file_safe : PM unit := with_profiles save_file.
Definition profiles_draft_update_item_safe (index : string) (item : PrfItem) : PM unit :=
  with_profiles (update_item index item).

(** ** a new local profile *)

(** The identifiers of the five extensions, in the order in which they are made. *)
Record NewIds := { id_local : string; id_merge : string; id_script : string; id_rules : string;
                   id_proxies : string; id_groups : string }.

(** An extension that is not given is made and appended. *)
Definition extension_or_new (given : option string) (fresh : PrfItem) : PM (option string) :=
  match given with
  | Some _ => ret given
  | None => profiles_append_item_safe fresh ;! ret (uid fresh)
  end.

Definition from_local (name description : string) (data : option string) (option : option PrfOption)
  (ids : NewIds) (now : Z) : PM PrfItem :=
  let identifier := get_uid "L" (id_local ids) in
  let! merge := extension_or_new (option ≫= opt_merge) (from_merge None (id_merge ids) now) in
  let! script := extension_or_new (option ≫= opt_script) (from_script None (id_script ids) now) in
  let! rules := extension_or_new (option ≫= opt_rules) (from_rules (id_rules ids) now) in
  let! proxies := extension_or_new (option ≫= opt_proxies) (from_proxies (id_proxies ids) now) in
  let! groups := extension_or_new (option ≫= opt_groups) (from_groups (id_groups ids) now) in
  ret {| uid := Some identifier; itype := Some "local"%string; item_name := Some name;
         file := Some (yaml_name identifier); desc := Some description; item_url := None; selected := None;
         extra := None; updated := Some now;
         item_option := Some {| user_agent := None; with_proxy := None; self_proxy := None;
           update_interval := option ≫= update_interval; timeout_seconds := None;
           danger_accept_invalid_certs := None; allow_auto_update := None; opt_merge := merge;
           opt_script := script; opt_rules := rules; opt_proxies := proxies; opt_groups := groups |};
         home := None; file_data := Some (match data with Some d => d | None => ITEM_LOCAL end) |}.

(** ** the cleanup of the directory *)

Definition PROTECTED_FILES : list string := ["Merge.yaml"; "Script.js"]%string.

(** The file of an extension that the item refers to. *)
Definition extension_file (self : IProfiles) (target : option string) : option string :=
  match target with
  | Some u => match get_item self u with Ok item => file item | Err _ => None end
  | None => None
  end.

Definition get_all_active_files (self : IProfiles) : gset string :=
  list_to_set (flat_map (fun item =>
    option_list (file item) ++
    (if is_main_type item then omap (extension_file self) (extension_uids item) else []))
  (match items self with Some l => l | None => [] end)).

(** The regular expression: a prefix letter, alphanumerics, and the suffix. *)
Definition named (prefixes : list ascii) (suffix name : string) : bool :=
  match strip_suffix name suffix with
  | Some stem =>
      match bytes stem with
      | c :: (_ :: _) as rest => one_of prefixes c && forallb is_ascii_alphanumeric rest
      | _ => false
      end
  | None => false
  end.

Definition is_profile_file (name : string) : bool :=
  named ["R"; "L"; "m"; "r"; "p"; "g"]%char ".yaml" name || named ["s"]%char ".js" name.

Record CleanupResult := { total_files : Z; deleted_files : Z; failed_deletions : Z }.

(** Whether an entry is a leftover. *)
Definition orphaned (active : gset string) (entry : DirEntry) : bool :=
  de_is_file entry &&
  match de_name entry with
  | Some name => is_profile_file name && negb (bool_decide (name ∈ PROTECTED_FILES))
                   && negb (bool_decide (name ∈ active))
  | None => false
  end.

Fixpoint cleanup_entries (dir : string) (active : gset string) (entries : list (result DirEntry unit))
  (done : CleanupResult) : PM CleanupResult :=
  match entries with
  | [] => ret done
  | Err _ :: _ => raise ReadDirFailed
  | Ok entry :: entries =>
      let done := {| total_files := total_files done + (if de_is_file entry then 1 else 0);
                     deleted_files := deleted_files done; failed_deletions := failed_deletions done |} in
      match de_name entry with
      | Some name =>
          if orphaned active entry then
            let! removed := attempt (on_fs WriteFailed (fs_remove_if_exists (file_path dir name))) in
            cleanup_entries dir active entries
              (if is_ok removed
               then {| total_files := total_files done; deleted_files := deleted_files done + 1;
                       failed_deletions := failed_deletions done |}
               else {| total_files := total_files done; deleted_files := deleted_files done;
                       failed_deletions := failed_deletions done + 1 |})
          else cleanup_entries dir active entries done
      | None => cleanup_entries dir active entries done
      end
  end.

(** [None]: there is no directory. *)
Definition cleanup_orphaned_files : PM (option CleanupResult) :=
  let! dir := profiles_dir in
  let! w := get in
  let (there, x) := fs_path_exists dir (pf_world w) in
  modify (fun w => {| pf_profiles := pf_profiles w; pf_world := x |}) ;!
  if there : bool then
    let! w := get in
    let! entries := on_fs ReadDirFailed (fs_read_dir dir) in
    let! result := cleanup_entries dir (get_all_active_files (pf_profiles w)) entries
      {| total_files := 0; deleted_files := 0; failed_deletions := 0 |} in
    ret (Some result)
  else ret None.
End operations.

(** * The current profile is listed, and its files survive a cleanup

    The invariant of the profile list over all sequences of its operations, what a
    reordering with an unknown identifier does to it, and what the cleanup of the
    directory may delete. *)

Definition item_list (p : IProfiles) : list PrfItem := match items p with Some l => l | None => [] end.
Definition listed (p : IProfiles) (u : string) : Prop := Some u ∈ map uid (item_list p).

(** Every item has an identifier, and the current one is listed. *)
Definition profiles_wf (p : IProfiles) : Prop :=
  Forall (fun item => is_Some (uid item)) (item_list p) /\ forall c, current p = Some c -> listed p c.

Lemma has_uid_true u item : has_uid u item = true <-> uid item = Some u.
Proof. unfold has_uid. apply bool_decide_eq_true. Qed.

Lemma find_has_uid u l : (exists item, find (has_uid u) l = Some item) <-> Some u ∈ map uid l.
Proof.
  rewrite list_elem_of_fmap. split.
  - intros [item Hf]. apply find_some in Hf as [Hin Hu%has_uid_true]. by exists item.
  - intros (item & Hu & Hin). destruct (find (has_uid u) l) as [i|] eqn:E; [eauto|].
    eapply find_none in E; [|exact Hin].
    rewrite (proj2 (has_uid_true u item) (eq_sym Hu)) in E. done.
Qed.

(** ** altering, taking and moving items *)

Lemma alter_item_uids f u l l' :
  (forall item, uid (f item) = uid item) -> alter_item f u l = Some l' -> map uid l' = map uid l.
Proof.
  intros Hf. revert l'. induction l as [|item l IH]; intros l'; [done|]. cbn.
  destruct (has_uid u item); [intros [= <-]; cbn; by rewrite Hf|].
  destruct (alter_item f u l) as [l1|]; [|done]. intros [= <-]. cbn. by rewrite (IH l1).
Qed.

Lemma alter_item_found f u l : Some u ∈ map uid l -> is_Some (alter_item f u l).
Proof.
  induction l as [|item l IH]; cbn; [by intros ?%elem_of_nil|]. intros [Hu|Hin]%elem_of_cons.
  - by rewrite (proj2 (has_uid_true u item)).
  - destruct (has_uid u item); [done|]. by destruct (IH Hin) as [l' ->].
Qed.

Lemma last_index_lt u i l found j :
  last_index u i l found = Some j -> found = Some j \/ (i <= j < i + length l)%nat.
Proof.
  revert i found. induction l as [|item l IH]; intros i found; cbn; [by left|].
  intros [Hf|Hj]%IH; [|right; lia]. destruct (has_uid u item); [injection Hf as <-; right; lia|by left].
Qed.

Lemma last_index_some u i l found : (is_Some found \/ Some u ∈ map uid l) -> is_Some (last_index u i l found).
Proof.
  revert i found. induction l as [|item l IH]; intros i found; cbn.
  - intros [?|?%elem_of_nil]; done.
  - intros [Hf|[Hu|Hin]%elem_of_cons]; apply IH.
    + left. by destruct (has_uid u item).
    + left. rewrite (proj2 (has_uid_true u item)) by done. by eexists.
    + by right.
Qed.

Lemma last_index_none u i l : ~ Some u ∈ map uid l -> last_index u i l None = None.
Proof.
  revert i. induction l as [|item l IH]; intros i Hn; [done|]. cbn in *.
  rewrite elem_of_cons in Hn. destruct (has_uid u item) eqn:E.
  - apply has_uid_true in E. destruct Hn. by left.
  - apply IH. intros Hin. apply Hn. by right.
Qed.

(** A move only reorders. *)
Lemma move_item_perm i j l : move_item i j l ≡ₚ l.
Proof.
  unfold move_item. destruct (l !! i) as [item|] eqn:E; [|done].
  rewrite <- Permutation_middle, take_drop. symmetry. by apply delete_Permutation.
Qed.

Lemma take_item_sub l target : (take_item_file_by_uid l target).2 ⊆ l.
Proof.
  induction l as [|item l IH]; cbn; [done|]. case_bool_decide; [cbn; intros x Hx; by right|].
  destruct (take_item_file_by_uid l target) as [f l']. cbn in *. intros x [->|Hx]%elem_of_cons; [by left|right; auto].
Qed.

Lemma take_item_keeps l target u :
  target <> Some u -> Some u ∈ map uid l -> Some u ∈ map uid (take_item_file_by_uid l target).2.
Proof.
  intros Hne. induction l as [|item l IH]; cbn; [done|]. case_bool_decide as Ht.
  - cbn. intros [Hu|Hin]%elem_of_cons; [congruence|done].
  - destruct (take_item_file_by_uid l target) as [f l']. cbn in *.
    intros [Hu|Hin]%elem_of_cons; [rewrite Hu; left|right; auto].
Qed.

Section safety.
Context {W : Type} `{ProfileFs W}.
Notation PW := (ProfileWorld W).
Implicit Types w : PW.

(** A file operation leaves the list alone. *)
Lemma wp_on_fs {A} error (m : M W unit A) (R : result A ProfileError -> PW -> Prop) w :
  (forall r x, (forall e, r = Err e -> e = error) -> R r {| pf_profiles := pf_profiles w; pf_world := x |}) ->
  wp (on_fs error m) R w.
Proof.
  intros HR. unfold wp, on_fs. destruct (m (pf_world w)) as [[a|[]] x]; cbn; apply HR; [done|].
  by intros e [= <-].
Qed.

(** The list is unchanged, whatever the outcome. *)
Definition calm_list {A} (m : M PW ProfileError A) : Prop := forall w, pf_profiles (m w).2 = pf_profiles w.

Lemma calm_wp {A} (m : M PW ProfileError A) w :
  calm_list m -> wp m (fun _ w' => pf_profiles w' = pf_profiles w) w.
Proof. intros Hm. apply Hm. Qed.

Lemma calm_on_fs {A} error (m : M W unit A) : calm_list (on_fs error m).
Proof. intros w. apply (wp_on_fs error m (fun _ w' => pf_profiles w' = pf_profiles w)). done. Qed.
Lemma calm_bind {A B} (m : M PW ProfileError A) (k : A -> M PW ProfileError B) :
  calm_list m -> (forall a, calm_list (k a)) -> calm_list (bind m k).
Proof.
  intros Hm Hk w. unfold bind. specialize (Hm w). destruct (m w) as [[a|e] w1]; [|done].
  cbn in Hm. by rewrite Hk.
Qed.
Lemma calm_save : calm_list save_file.
Proof. intros w. unfold save_file. apply calm_bind; [done|intros ?; apply calm_on_fs]. Qed.
Lemma calm_dir : calm_list profiles_dir.
Proof. apply calm_on_fs. Qed.
Lemma calm_attempt {A} (m : M PW ProfileError A) : calm_list m -> calm_list (attempt m).
Proof. intros Hm w. unfold attempt. specialize (Hm w). by destruct (m w). Qed.
Lemma calm_remove name : calm_list (remove_profile_file name).
Proof.
  unfold remove_profile_file. destruct name; [|done]. apply calm_bind; [apply calm_dir|intros dir].
  apply calm_bind; [apply calm_attempt, calm_on_fs|done].
Qed.

(** What is left after the items are taken out. *)
Lemma take_all_spec targets l w :
  wp (take_all targets l) (fun r w' => pf_profiles w' = pf_profiles w /\
    forall l', r = Ok l' -> l' ⊆ l /\
      forall u, Some u ∉ targets -> Some u ∈ map uid l -> Some u ∈ map uid l') w.
Proof.
  revert l w. induction targets as [|t targets IH]; intros l w; cbn [take_all].
  { wp_step. split; [done|]. by intros l' [= <-]. }
  pose proof (take_item_sub l t) as Hsub. pose proof (take_item_keeps l t) as Hkeep.
  destruct (take_item_file_by_uid l t) as [name l1]. cbn in *. wp_step.
  eapply wp_mono; [apply calm_wp, calm_remove|]. intros [[]|e] w1 Hw1; [|done].
  eapply wp_mono; [apply IH|]. cbn. intros r w2 [Hw2 Hr]. split; [congruence|]. intros l' ->.
  destruct (Hr l' eq_refl) as [Hs Hk]. split; [by etransitivity|]. intros u Hn Hu.
  apply not_elem_of_cons in Hn as [Hn1 Hn2]. apply Hk; [done|]. by apply Hkeep.
Qed.

(** ** the invariant *)

Inductive ProfileOp : Type :=
| OpPatchConfig (patch : IProfiles)
| OpAppend (item : PrfItem)
| OpReorder (active_id over_id : string)
| OpPatch (u : string) (item : PrfItem)
| OpUpdate (u : string) (item : PrfItem)
| OpDelete (u : string)
| OpSave.

Definition profile_op (op : ProfileOp) (w : PW) : PW :=
  match op with
  | OpPatchConfig patch => pf_set (patch_config patch (pf_profiles w)) w
  | OpAppend item => (profiles_append_item_safe item w).2
  | OpReorder a b => (profiles_reorder_safe a b w).2
  | OpPatch u item => (profiles_patch_item_safe u item w).2
  | OpUpdate u item => (profiles_draft_update_item_safe u item w).2
  | OpDelete u => (profiles_delete_item_safe u w).2
  | OpSave => (profiles_save_file_safe w).2
  end.

Fixpoint profile_run (ops : list ProfileOp) (w : PW) : PW :=
  match ops with [] => w | op :: ops => profile_run ops (profile_op op w) end.

(** The two operations that can take the current profile out of the list: reordering
    with an identifier that is not listed, and deleting another profile that names the
    current one as an extension. *)
Definition loses_current (op : ProfileOp) (p : IProfiles) : bool :=
  match op with
  | OpReorder a b => negb (bool_decide (Some a ∈ map uid (item_list p)) &&
                           bool_decide (Some b ∈ map uid (item_list p)))
  | OpDelete u => match get_item p u, current p with
                  | Ok item, Some c => negb (bool_decide (c = u)) && bool_decide (Some c ∈ extension_uids item)
                  | _, _ => false
                  end
  | _ => false
  end.

Lemma wf_uids p p' :
  map uid (item_list p') = map uid (item_list p) -> current p' = current p -> profiles_wf p -> profiles_wf p'.
Proof.
  intros Hu Hc [Ha Hl]. unfold profiles_wf, listed. rewrite Hc, Hu. split; [|exact Hl].
  rewrite Forall_forall in Ha |- *. intros x Hx. apply (list_elem_of_fmap_2 uid) in Hx.
  change (uid x ∈ map uid (item_list p')) in Hx. rewrite Hu in Hx.
  apply list_elem_of_fmap in Hx as (y & -> & Hy). by apply Ha.
Qed.

(** A method run on a copy keeps the invariant if it does when it succeeds. *)
Lemma with_profiles_wf {A} (m : M PW ProfileError A) w :
  profiles_wf (pf_profiles w) ->
  wp m (fun r w' => is_ok r = true -> profiles_wf (pf_profiles w')) w ->
  profiles_wf (pf_profiles (with_profiles m w).2).
Proof. intros Hw Hm. unfold with_profiles, wp in *. destruct (m w) as [[a|e] w']; [by apply Hm|done]. Qed.

Lemma append_wf item w :
  profiles_wf (pf_profiles w) ->
  wp (append_item item) (fun r w' => is_ok r = true -> profiles_wf (pf_profiles w')) w.
Proof.
  intros [Ha Hl]. unfold append_item. destruct (uid item) as [u|] eqn:Eu; cbn [is_none is_some negb]; [|by wp_step].
  wp_step. apply (wp_mono _ (fun _ w' => pf_profiles w' = pf_profiles w)).
  { destruct (file_data item); [|by wp_step]. apply calm_wp.
    apply calm_bind; [done|intros name]. apply calm_bind; [apply calm_dir|intros dir; apply calm_on_fs]. }
  intros [[]|e] w1 Hw1; [|done]. do 3 wp_step. rewrite Hw1.
  assert (Hall : forall l p, items p = Some (item_list (pf_profiles w) ++ [l]) -> is_Some (uid l) ->
    Forall (fun item => is_Some (uid item)) (item_list p)).
  { intros l p Hp Hu. unfold item_list at 1. rewrite Hp. apply Forall_app. split; [exact Ha|by constructor]. }
  destruct (is_none (current (pf_profiles w)) && is_main_type item) eqn:Ec; do 2 wp_step; intros _; split.
  - eapply Hall; [cbn; by rewrite Hw1|]. by eexists.
  - intros c [= <-]. unfold listed, item_list. cbn. rewrite map_app, elem_of_app. right. by left.
  - eapply Hall; [cbn; by rewrite Hw1|]. by eexists.
  - intros c Hc. cbn in Hc. rewrite Hw1 in Hc. apply Hl in Hc. unfold listed in *.
    cbn. rewrite Hw1. fold (item_list (pf_profiles w)). rewrite map_app, elem_of_app. by left.
Qed.

Lemma reorder_wf a b w :
  profiles_wf (pf_profiles w) -> listed (pf_profiles w) a -> listed (pf_profiles w) b ->
  wp (reorder a b) (fun r w' => is_ok r = true -> profiles_wf (pf_profiles w')) w.
Proof.
  intros [Hall Hl] Ha Hb. unfold reorder, take_items. do 5 wp_step. wp_step.
  fold (item_list (pf_profiles w)).
  destruct (last_index_some a 0 (item_list (pf_profiles w)) None (or_intror Ha)) as [i ->].
  destruct (last_index_some b 0 (item_list (pf_profiles w)) None (or_intror Hb)) as [j ->].
  do 2 wp_step. eapply wp_mono; [apply calm_wp, calm_save|]. intros r w1 Hw1 _. rewrite Hw1.
  pose proof (move_item_perm i j (item_list (pf_profiles w))) as Hp. split.
  - change (Forall (fun item => is_Some (uid item)) (move_item i j (item_list (pf_profiles w)))). by rewrite Hp.
  - intros c Hc. apply Hl in Hc. unfold listed in *.
    change (Some c ∈ map uid (move_item i j (item_list (pf_profiles w)))). by rewrite Hp.
Qed.

Lemma patch_wf u item w :
  profiles_wf (pf_profiles w) ->
  wp (patch_item u item) (fun r w' => is_ok r = true -> profiles_wf (pf_profiles w')) w.
Proof.
  intros Hwf. unfold patch_item, take_items. wp_step.
  apply (wp_mono _ (fun _ w' => w' = w)); [by destruct (file item); wp_step|].
  intros [[]|e] w1 ->; [|done]. do 6 wp_step. fold (item_list (pf_profiles w)).
  destruct (alter_item (apply_patch item) u (item_list (pf_profiles w))) as [l|] eqn:E; do 2 wp_step; [|by wp_step].
  eapply wp_mono; [apply calm_wp, calm_save|]. intros r w1 Hw1 _. rewrite Hw1.
  apply (wf_uids (pf_profiles w)); [|done|exact Hwf]. by eapply alter_item_uids; [|exact E].
Qed.

Lemma update_wf u item w :
  profiles_wf (pf_profiles w) ->
  wp (update_item u item) (fun r w' => is_ok r = true -> profiles_wf (pf_profiles w')) w.
Proof.
  intros Hwf. unfold update_item. do 6 wp_step. fold (item_list (pf_profiles w)).
  destruct (get_item _ u) as [found|e] eqn:Eg; [|done]. unfold get_item in Eg. cbn in Eg. wp_step.
  set (name := match file_data item with Some _ => _ | None => _ end). do 1 wp_step. cbn [items pf_profiles pf_set_items pf_set].
  assert (Hin : Some u ∈ map uid (item_list (pf_profiles w))).
  { apply find_has_uid. destruct (find _ _) as [i|]; [by exists i|done]. }
  destruct (alter_item_found (fun each => refreshed item each name) u _ Hin) as [l El].
  fold (item_list (pf_profiles w)). rewrite El.
  set (w1 := pf_set_items (Some l) _). assert (Hw1 : profiles_wf (pf_profiles w1)).
  { apply (wf_uids (pf_profiles w)); [|done|exact Hwf]. by eapply alter_item_uids; [|exact El]. }
  wp_step. apply (wp_mono _ (fun _ w' => pf_profiles w' = pf_profiles w1)).
  { destruct (file_data item); [|by wp_step]. destruct name; [|by wp_step]. apply calm_wp.
    apply calm_bind; [apply calm_dir|intros dir; apply calm_on_fs]. }
  intros [[]|e] w2 Hw2; [|done].
  eapply wp_mono; [apply calm_wp, calm_save|]. intros r w3 Hw3 _. by rewrite Hw3, Hw2.
Qed.

Lemma delete_wf u w :
  profiles_wf (pf_profiles w) -> loses_current (OpDelete u) (pf_profiles w) = false ->
  wp (delete_item u) (fun r w' => is_ok r = true -> profiles_wf (pf_profiles w')) w.
Proof.
  intros [Hall Hl] Hs. unfold delete_item, take_items. do 4 wp_step.
  cbn [loses_current] in Hs.
  destruct (get_item (pf_profiles w) u) as [item|e] eqn:Eg; [|done]. do 5 wp_step.
  fold (item_list (pf_profiles w)). do 2 wp_step. eapply wp_mono; [apply take_all_spec|].
  intros [l|e] w1 [Hw1 Hspec]; [|done]. destruct (Hspec l eq_refl) as [Hsub Hkeep]. clear Hspec. wp_step.
  set (was := match current (pf_profiles w) with Some c => c | None => u end).
  assert (Hall' : Forall (fun item => is_Some (uid item)) l).
  { rewrite Forall_forall in Hall |- *. auto. }
  case_bool_decide as Hc.
  - do 4 wp_step. eapply wp_mono; [apply calm_wp, calm_save|]. intros [[]|e] w2 Hw2; [|done]. wp_step.
    intros _. rewrite Hw2. split; [exact Hall'|]. intros c. cbn. destruct (find is_main_type l) as [next|] eqn:Ef; [|done].
    apply find_some in Ef as [Hin _]. intros Hn. unfold listed. cbn. apply list_elem_of_fmap. by exists next.
  - do 4 wp_step. eapply wp_mono; [apply calm_wp, calm_save|]. intros [[]|e] w2 Hw2; [|done]. wp_step.
    intros _. rewrite Hw2. split; [exact Hall'|]. intros c Hcur. cbn in Hcur. rewrite Hw1 in Hcur. cbn in Hcur.
    unfold was in Hc. rewrite Hcur in Hc. unfold listed. cbn. apply Hkeep; [|by apply Hl].
    rewrite Hcur, (bool_decide_eq_false_2 (c = u)) in Hs by done. apply not_elem_of_cons.
    split; [congruence|]. by apply bool_decide_eq_false in Hs.
Qed.

Lemma profile_op_wf op w :
  profiles_wf (pf_profiles w) -> loses_current op (pf_profiles w) = false -> profiles_wf (pf_profiles (profile_op op w)).
Proof.
  intros Hwf Hs. destruct op as [patch|item|a b|u item|u item|u|]; cbn [profile_op].
  - destruct Hwf as [Hall Hl]. unfold patch_config. cbn. fold (item_list (pf_profiles w)).
    destruct (current patch) as [c|]; [|by split]. destruct (existsb _ _) eqn:E; [|by split].
    split; [exact Hall|]. intros c' [= <-]. apply existsb_exists in E as (item & Hin & Hu%has_uid_true).
    apply list_elem_of_fmap. exists item. split; [done|]. by apply list_elem_of_In.
  - by apply with_profiles_wf, append_wf.
  - apply negb_false_iff, andb_true_iff in Hs as [Ha%bool_decide_eq_true Hb%bool_decide_eq_true].
    by apply with_profiles_wf, reorder_wf.
  - by apply with_profiles_wf, patch_wf.
  - by apply with_profiles_wf, update_wf.
  - by apply with_profiles_wf, delete_wf.
  - apply with_profiles_wf; [done|]. eapply wp_mono; [apply calm_wp, calm_save|]. by intros r w1 ->.
Qed.

Lemma profile_run_app ops1 ops2 w : profile_run (ops1 ++ ops2) w = profile_run ops2 (profile_run ops1 w).
Proof. revert w. induction ops1 as [|op ops IH]; intros w; [done|]. cbn. apply IH. Qed.

Lemma run_wf_or_loses ops w :
  profiles_wf (pf_profiles w) ->
  profiles_wf (pf_profiles (profile_run ops w)) \/
  exists before op after, ops = before ++ op :: after /\
    loses_current op (pf_profiles (profile_run before w)) = true.
Proof.
  induction ops as [|op ops IH] using rev_ind; intros Hwf; [by left|].
  destruct (IH Hwf) as [Hr|(before & op' & after & -> & Hl)].
  - rewrite profile_run_app. cbn. destruct (loses_current op (pf_profiles (profile_run ops w))) eqn:E.
    + right. by exists ops, op, [].
    + left. by apply profile_op_wf.
  - right. exists before, op', (after ++ [op]). split; [|done]. by rewrite <- app_assoc.
Qed.

(** Taking out the items of distinct identifiers leaves none of them. *)
Lemma take_item_gone l target :
  NoDup (map uid l) -> target ∉ map uid (take_item_file_by_uid l target).2 /\
  NoDup (map uid (take_item_file_by_uid l target).2).
Proof.
  induction l as [|item l IH]; cbn; [split; [apply not_elem_of_nil|done]|].
  intros [Hn Hd]%NoDup_cons. case_bool_decide as Ht; [subst target; by split|].
  pose proof (take_item_sub l target) as Hsub. destruct (IH Hd) as [Hg Hd'].
  destruct (take_item_file_by_uid l target) as [f l']. cbn in *. split.
  - rewrite not_elem_of_cons. split; [congruence|done].
  - apply NoDup_cons. split; [|done]. intros Hin. apply Hn.
    apply list_elem_of_fmap in Hin as (x & Hx & Hin). rewrite Hx. apply list_elem_of_fmap_2. by apply Hsub.
Qed.

Lemma take_all_gone targets l w :
  NoDup (map uid l) ->
  wp (take_all targets l) (fun r _ => forall l' t, r = Ok l' -> t ∈ targets -> t ∉ map uid l') w.
Proof.
  revert l w. induction targets as [|t targets IH]; intros l w Hd; cbn [take_all].
  { wp_step. by intros l' t _ ?%elem_of_nil. }
  destruct (take_item_gone l t Hd) as [Hg Hd']. destruct (take_item_file_by_uid l t) as [name l1]. cbn in *.
  wp_step. eapply wp_mono; [apply calm_wp, calm_remove|]. intros [[]|e] w1 _; [|done].
  eapply wp_mono; [apply wp_and; [apply IH, Hd'|apply take_all_spec]|]. cbn.
  intros r w2 [Hr [_ Hs]] l' t' -> [->|Hin]%elem_of_cons; [|by apply (Hr l')].
  destruct (Hs l' eq_refl) as [Hsub _]. intros Hin. apply Hg.
  apply list_elem_of_fmap in Hin as (x & -> & Hin). apply list_elem_of_fmap_2. by apply Hsub.
Qed.

Lemma delete_loses u w c :
  NoDup (map uid (item_list (pf_profiles w))) -> current (pf_profiles w) = Some c ->
  loses_current (OpDelete u) (pf_profiles w) = true ->
  wp (delete_item u) (fun r w' => is_ok r = true ->
    current (pf_profiles w') = Some c /\ ~ listed (pf_profiles w') c) w.
Proof.
  intros Hd Hcur Hs. unfold delete_item, take_items. cbn [loses_current] in Hs. do 4 wp_step.
  destruct (get_item (pf_profiles w) u) as [item|e] eqn:Eg; [|done]. rewrite Hcur in Hs |- *.
  apply andb_true_iff in Hs as [Hne%negb_true_iff Hin%bool_decide_eq_true]. rewrite Hne. do 5 wp_step.
  fold (item_list (pf_profiles w)). do 2 wp_step.
  eapply wp_mono; [apply wp_and; [apply take_all_spec|by apply take_all_gone]|].
  intros [l|e] w1 [[Hw1 _] Hgone]; [|done]. do 5 wp_step.
  eapply wp_mono; [apply calm_wp, calm_save|]. intros [[]|e] w2 Hw2; [|done]. wp_step.
  intros _. rewrite Hw2. cbn. rewrite Hw1. split; [exact Hcur|]. apply (Hgone l); [done|by right].
Qed.

Lemma reorder_unknown w active_id over_id :
  ~ listed (pf_profiles w) active_id \/ ~ listed (pf_profiles w) over_id ->
  profiles_reorder_safe active_id over_id w =
    (Ok tt, pf_set {| current := current (pf_profiles w); items := None |} w).
Proof.
  intros Hn. unfold profiles_reorder_safe, with_profiles, reorder, take_items, bind, get, modify, ret.
  fold (item_list (pf_profiles w)). destruct Hn as [Hn|Hn].
  - by rewrite (last_index_none active_id 0 _ Hn).
  - rewrite (last_index_none over_id 0 _ Hn). by destruct (last_index active_id 0 _ None).
Qed.

Lemma losing_op_loses op w c :
  NoDup (map uid (item_list (pf_profiles w))) -> current (pf_profiles w) = Some c ->
  loses_current op (pf_profiles w) = true ->
  pf_profiles (profile_op op w) = pf_profiles w \/
  current (pf_profiles (profile_op op w)) = Some c /\ ~ listed (pf_profiles (profile_op op w)) c.
Proof.
  intros Hd Hc Hl. destruct op as [patch|item|a b|u item|u item|u|]; try done; cbn [profile_op].
  - right. rewrite reorder_unknown.
    + cbn. split; [done|]. unfold listed. cbn. apply not_elem_of_nil.
    + apply negb_true_iff, andb_false_iff in Hl as [Hl|Hl]; apply bool_decide_eq_false in Hl; auto.
  - pose proof (delete_loses u w c Hd Hc Hl) as Hw. unfold profiles_delete_item_safe, with_profiles, wp in *.
    destruct (delete_item u w) as [[b|e] w']; [right; by apply Hw|by left].
Qed.


(** C39: a reorder that names an identifier which is not in the list answers
    success and leaves no profile in the list. *)
Theorem reorder_with_unknown_id_drops_all_profiles w active_id over_id :
  ~ listed (pf_profiles w) active_id \/ ~ listed (pf_profiles w) over_id ->
  profiles_reorder_safe active_id over_id w =
    (Ok tt, pf_set {| current := current (pf_profiles w); items := None |} w).
Proof. apply reorder_unknown. Qed.
End safety.

(** ** the cleanup *)

(** [on_disk w path]: the file is there.  Only a removal makes a file go, its own. *)
Class ProfileFsLaws (W : Type) `{ProfileFs W} := {
  on_disk : W -> string -> bool;
  law_dir : forall w p, on_disk (app_profiles_dir w).2 p = on_disk w p;
  law_exists : forall d w p, on_disk (fs_path_exists d w).2 p = on_disk w p;
  law_read_dir : forall d w p, on_disk (fs_read_dir d w).2 p = on_disk w p;
  law_remove : forall q w p, p <> q -> on_disk (fs_remove_if_exists q w).2 p = on_disk w p;
}.

Section cleanup.
Context {W : Type} `{ProfileFsLaws W}.
Notation PW := (ProfileWorld W).
Implicit Types w : PW.

Lemma file_path_inj dir a b : file_path dir a = file_path dir b -> a = b.
Proof.
  unfold file_path. intros Hp. apply (f_equal bytes) in Hp. rewrite !bytes_append in Hp.
  by apply app_inv_head, app_inv_head, bytes_inj in Hp.
Qed.

(** The files of an item and of its extensions are active. *)
Lemma item_file_active p item name :
  item ∈ item_list p -> file item = Some name -> name ∈ get_all_active_files p.
Proof.
  intros Hin Hf. unfold get_all_active_files. apply elem_of_list_to_set, list_elem_of_In, in_flat_map.
  exists item. split; [by apply list_elem_of_In|]. apply in_or_app. left. rewrite Hf. by left.
Qed.

Lemma extension_file_active p item target name :
  item ∈ item_list p -> is_main_type item = true -> target ∈ extension_uids item ->
  extension_file p target = Some name -> name ∈ get_all_active_files p.
Proof.
  intros Hin Hm Ht Hf. unfold get_all_active_files. apply elem_of_list_to_set, list_elem_of_In, in_flat_map.
  exists item. split; [by apply list_elem_of_In|]. apply in_or_app. right. rewrite Hm.
  apply list_elem_of_In, list_elem_of_omap. eauto.
Qed.

(** What may disappear from the directory. *)
Definition may_go (active : gset string) (name : string) : Prop :=
  is_profile_file name = true /\ name ∉ PROTECTED_FILES /\ name ∉ active.

Lemma orphaned_may_go active entry name :
  de_name entry = Some name -> orphaned active entry = true -> may_go active name.
Proof.
  unfold orphaned, may_go. intros -> Ho. apply andb_true_iff in Ho as [_ Ho].
  reflect_bools. by split_and!.
Qed.

Lemma cleanup_entries_spec dir active entries acc w :
  wp (cleanup_entries dir active entries acc) (fun _ w' => pf_profiles w' = pf_profiles w /\
    forall name, on_disk (pf_world w') (file_path dir name) = on_disk (pf_world w) (file_path dir name) \/
                 may_go active name) w.
Proof.
  revert acc w. induction entries as [|[entry|e] entries IH]; intros acc w; cbn [cleanup_entries].
  - wp_step. auto.
  - destruct (de_name entry) as [gone|] eqn:En; [|apply IH].
    destruct (orphaned active entry) eqn:Eo; [|apply IH]. do 2 wp_step.
    assert (Hw : wp (on_fs WriteFailed (fs_remove_if_exists (file_path dir gone))) (fun _ w' =>
      pf_profiles w' = pf_profiles w /\ pf_world w' = (fs_remove_if_exists (file_path dir gone) (pf_world w)).2) w).
    { unfold wp, on_fs. by destruct (fs_remove_if_exists _ _). }
    eapply wp_mono; [exact Hw|]. intros removed w1 [Hp1 Hw1]. eapply wp_mono; [apply IH|]. cbn.
    intros r w2 [Hp2 Hd]. split; [congruence|]. intros name.
    destruct (decide (name = gone)) as [->|Hne]; [right; by eapply orphaned_may_go|].
    destruct (Hd name) as [Hn|Hn]; [left|by right]. rewrite Hn, Hw1. apply law_remove.
    intros Heq. by apply file_path_inj in Heq.
  - wp_step. auto.
Qed.

(** Cleaning up orphaned files leaves the profile list alone and deletes from
    the profile directory only files that are named like profile files, are not
    protected, and belong neither to an item nor to an extension of a profile. *)
Theorem cleanup_deletes_only_leftovers w r w' dir :
  cleanup_orphaned_files w = (r, w') ->
  (app_profiles_dir (pf_world w)).1 = Ok dir ->
  pf_profiles w' = pf_profiles w /\
  forall name, on_disk (pf_world w) (file_path dir name) = true ->
    on_disk (pf_world w') (file_path dir name) = true \/
    (is_profile_file name = true /\ name ∉ PROTECTED_FILES /\
     (* not the file of an item, nor of an extension of a profile *)
     forall item, item ∈ item_list (pf_profiles w) -> file item <> Some name /\
       (is_main_type item = true -> forall target, target ∈ extension_uids item ->
          extension_file (pf_profiles w) target <> Some name)).
Proof.
  intros Hrun Hdir.
  enough (Hw : wp cleanup_orphaned_files (fun _ w' => pf_profiles w' = pf_profiles w /\
    forall name, on_disk (pf_world w') (file_path dir name) = on_disk (pf_world w) (file_path dir name) \/
                 may_go (get_all_active_files (pf_profiles w)) name) w).
  { destruct (wp_run _ _ _ _ _ Hw Hrun) as [Hp Hd]. split; [done|]. intros name Hn.
    destruct (Hd name) as [Heq|(H1 & H2 & H3)]; [left; congruence|right]. split_and!; [done..|].
    intros item Hin. split; [intros Hf; by eapply H3, item_file_active|].
    intros Hm target Ht Hf. by eapply H3, extension_file_active. }
  clear Hrun. unfold cleanup_orphaned_files, profiles_dir. wp_step. unfold wp at 1, on_fs.
  pose proof (law_dir (pf_world w)) as Hl. destruct (app_profiles_dir (pf_world w)) as [r0 x0]. cbn in *. subst r0.
  cbn [map_err]. do 2 wp_step. cbn [pf_world]. pose proof (law_exists dir x0) as He.
  destruct (fs_path_exists dir x0) as [there x1]. cbn in *. do 2 wp_step.
  assert (Hx1 : forall p, on_disk x1 p = on_disk (pf_world w) p) by (intros p; by rewrite He, Hl).
  destruct there; [|wp_step; split; [done|]; intros name; left; apply Hx1]. do 3 wp_step. unfold wp at 1.
  cbn [pf_world pf_profiles]. pose proof (law_read_dir dir x1) as Hd. destruct (fs_read_dir dir x1) as [[l|[]] x2]; cbn in *.
  - wp_step. eapply wp_mono; [apply cleanup_entries_spec|]. cbn. intros [a|e] w2 [Hp Hk]; [wp_step|]; (split; [done|]);
      intros name; (destruct (Hk name) as [Hk'|?]; [left|by right]); by rewrite Hk', Hd, Hx1.
  - split; [done|]. intros name. left. by rewrite Hd, Hx1.
Qed.
End cleanup.
