(* ===== verification/SelectedNodes.v ===== *)
(** * SelectedNodes: restoring the nodes a profile had selected

    [src-tauri/src/config/profiles.rs], second half: the plan that reconciles the stored
    selections with what Mihomo reports, its application, and its persistence, each step
    of which is given up as soon as a newer activation has started.  The reports of
    [tauri_plugin_mihomo] are the records below; its calls, the clock and the counter of
    activations are the class [MihomoCalls]. *)

From Stdlib Require Import Ascii String.
From S2P Require Import Prelude Text ProfileItem Profiles.

Inductive ProxyType : Type :=
| Selector | URLTest | Fallback | LoadBalance
| OtherProxyType (name : string).

Record DelayHistory := { dh_time : string; dh_delay : Z }.

Record Proxy := {
  px_name : string;
  px_type : ProxyType;
  px_alive : bool;
  px_all : option (list string);
  px_now : option string;
  px_fixed : option string;
  px_hidden : option bool;
  px_icon : option string;
  px_test_url : option string;
  px_id : option string;
  px_history : list DelayHistory;
  px_udp : bool;
  px_xudp : bool;
  px_tfo : bool;
  px_mptcp : bool;
  px_smux : bool;
}.

Definition Proxies : Type := gmap string Proxy.

(** ** the plan *)

Record SelectedNodesPlan := {
  plan_selected : list PrfSelected;
  plan_activations : list (string * string);
  plan_repaired : Z;
}.

Definition node_is_available (available_nodes : list string) (node : string) : bool :=
  existsb (fun available => bool_decide (available = node)) available_nodes.

(** [group.all.as_deref().filter(|nodes| !nodes.is_empty())]. *)
Definition available_nodes (group : Proxy) : option (list string) :=
  match px_all group with Some (n :: l) => Some (n :: l) | _ => None end.

Definition needs_confirmation (proxies : Proxies) (item : PrfSelected) : bool :=
  match sel_name item, sel_now item with
  | Some group_name, Some node =>
      match proxies !! group_name with
      | None => true
      | Some group =>
          match available_nodes group with
          | None => true
          | Some nodes => negb (node_is_available nodes node)
          end
      end
  | _, _ => false
  end.

Definition selected_nodes_need_confirmation (selected : list PrfSelected) (proxies : Proxies) : bool :=
  existsb (needs_confirmation proxies) selected.

(** The filter over the reversed list: the first of each name. *)
Fixpoint first_of_name (seen : gset string) (l : list PrfSelected) : list PrfSelected :=
  match l with
  | [] => []
  | item :: l =>
      match sel_name item with
      | Some name => if bool_decide (name ∈ seen) then first_of_name seen l
                     else item :: first_of_name ({[name]} ∪ seen) l
      | None => first_of_name seen l
      end
  end.

Definition unique_selected (selected : list PrfSelected) : list PrfSelected :=
  rev (first_of_name ∅ (rev selected)).

Definition is_selectable_group (group : Proxy) : bool :=
  match px_type group with Selector | URLTest | Fallback | LoadBalance => true | _ => false end.

(** [group.now.as_deref().filter(...)]. *)
Definition current_node (group : Proxy) (nodes : list string) : option string :=
  match px_now group with
  | Some now => if node_is_available nodes now then Some now else None
  | None => None
  end.

(** The same node was missing from a complete report before. *)
Definition missing_was_confirmed (previous : option Proxies) (group_name node : string) : bool :=
  match previous with
  | Some snapshot =>
      match snapshot !! group_name with
      | Some group => match available_nodes group with
                      | Some nodes => negb (node_is_available nodes node)
                      | None => false
                      end
      | None => false
      end
  | None => false
  end.

(** What becomes of one selection: what is stored, what is activated, whether it counts
    as repaired. *)
Definition reconcile_one (previous : option Proxies) (proxies : Proxies) (item : PrfSelected)
  : option PrfSelected * option (string * string) * bool :=
  match sel_name item, sel_now item with
  | Some group_name, Some node =>
      let stored n := Some {| sel_name := Some group_name; sel_now := Some n |} in
      match proxies !! group_name with
      | None =>
          if is_some_and previous (fun snapshot => is_none (snapshot !! group_name))
          then (None, None, true) else (Some item, None, false)
      | Some group =>
          match available_nodes group with
          | None => (Some item, None, false)
          | Some nodes =>
              if negb (is_selectable_group group) then
                match (match current_node group nodes with
                       | Some now => Some now
                       | None => if node_is_available nodes node then Some node else None
                       end) with
                | Some preferred => (stored preferred, None, negb (bool_decide (preferred = node)))
                | None => (None, None, true)
                end
              else if node_is_available nodes node then
                (Some item, if bool_decide (px_now group = Some node) then None else Some (group_name, node), false)
              else if negb (missing_was_confirmed previous group_name node) then (Some item, None, false)
              else (match current_node group nodes with Some now => stored now | None => None end, None, true)
          end
      end
  | _, _ => (None, None, true)
  end.

Definition extend_plan (plan : SelectedNodesPlan)
  (step : option PrfSelected * option (string * string) * bool) : SelectedNodesPlan :=
  let '(kept, activation, repaired) := step in
  {| plan_selected := plan_selected plan ++ option_list kept;
     plan_activations := plan_activations plan ++ option_list activation;
     plan_repaired := plan_repaired plan + (if repaired : bool then 1 else 0) |}.

Definition reconcile_selected_nodes (selected : list PrfSelected) (previous : option Proxies)
  (proxies : Proxies) : SelectedNodesPlan :=
  let unique := unique_selected selected in
  fold_left (fun plan item => extend_plan plan (reconcile_one previous proxies item)) unique
    {| plan_selected := []; plan_activations := [];
       plan_repaired := Z.of_nat (length selected) - Z.of_nat (length unique) |}.

Definition remaining_activations (activations : list (string * string)) (completed : gmap string string)
  : list (string * string) :=
  filter (fun a => completed !! a.1 <> Some a.2) activations.

(** ** its application *)

(** The calls take time, during which a newer activation may start. *)
Class MihomoCalls (W : Type) := {
  mh_get_proxies : M W unit Proxies;
  mh_select_node : string -> string -> M W unit unit;
  mh_generation : W -> Z;
  mh_sleep : W -> W;
  mh_refresh_clash : W -> W;
  mh_refresh_profiles : W -> W;
}.

Section worker.
Context {W : Type} `{ProfileFs W, MihomoCalls W}.
Notation PW := (ProfileWorld W).
Notation WM A := (M PW ProfileError A).

Definition is_activation_current (generation : Z) (w : PW) : bool :=
  mh_generation (pf_world w) =? generation.

Definition tell (f : W -> W) : WM unit :=
  modify (fun w => {| pf_profiles := pf_profiles w; pf_world := f (pf_world w) |}).

(** [None]: the activation is no longer current. *)
Fixpoint activate_all (remaining : list (string * string)) (completed : gmap string string) (count : Z)
  (generation : Z) : WM (option Z * gmap string string) :=
  match remaining with
  | [] => ret (Some count, completed)
  | (group_name, node) :: remaining =>
      let! w := get in
      if negb (is_activation_current generation w) then ret (None, completed) else
      let! selected := attempt (on_fs MihomoFailed (mh_select_node group_name node)) in
      let! w := get in
      if negb (is_activation_current generation w) then ret (None, completed)
      else match selected with
           | Ok _ => activate_all remaining (<[group_name := node]> completed) (count + 1) generation
           | Err _ => activate_all remaining completed count generation
           end
  end.

Definition apply_activations (activations : list (string * string)) (completed : gmap string string)
  (generation : Z) : WM (option Z * gmap string string) :=
  activate_all (remaining_activations activations completed) completed 0 generation.

Definition set_selected (selected : list PrfSelected) (item : PrfItem) : PrfItem :=
  {| uid := uid item; itype := itype item; item_name := item_name item; file := file item;
     desc := desc item; item_url := item_url item;
     selected := match selected with [] => None | _ => Some selected end;
     extra := extra item; updated := updated item; item_option := item_option item; home := home item;
     file_data := file_data item |}.

(** The closure of [with_data_modify]. *)
Definition persist_selected (profile_uid : string) (original selected' : list PrfSelected) (generation : Z)
  : WM bool :=
  let! w := get in
  if negb (is_activation_current generation w)
    || negb (bool_decide (current (pf_profiles w) = Some profile_uid)) then ret false else
  let! profile := lift (get_item (pf_profiles w) profile_uid) in
  if negb (bool_decide ((match selected profile with Some l => l | None => [] end) = original))
  then ret false
  else
    modify (fun w => pf_set_items (match items (pf_profiles w) with
                                   | Some l => alter_item (set_selected selected') profile_uid l
                                   | None => None
                                   end) w) ;!
    save_file ;!
    ret true.

Definition persist_reconciled_selected (profile_uid : string) (original selected' : list PrfSelected)
  (generation : Z) : WM unit :=
  let! w := get in
  if negb (is_activation_current generation w) then ret tt else
  let! updated := with_profiles (persist_selected profile_uid original selected' generation) in
  if updated : bool then tell mh_refresh_profiles else ret tt.

(** The end of the worker, with the final plan. *)
Definition finish_activation (profile_uid : string) (stored : list PrfSelected) (plan : SelectedNodesPlan)
  (generation : Z) : WM unit :=
  let! w := get in
  if negb (is_activation_current generation w) then ret tt
  else if 0 <? plan_repaired plan
  then persist_reconciled_selected profile_uid stored (plan_selected plan) generation
  else ret tt.

Definition activate_selected_nodes_worker (profile_uid : string) (stored : list PrfSelected)
  (generation : Z) : WM unit :=
  let! first_snapshot := on_fs MihomoFailed mh_get_proxies in
  let! w := get in
  if negb (is_activation_current generation w) then ret tt else
  let immediate_plan := reconcile_selected_nodes stored None first_snapshot in
  let! applied := apply_activations (plan_activations immediate_plan) ∅ generation in
  match applied with
  | (None, _) => ret tt
  | (Some _, completed) =>
      let! w := get in
      (if is_activation_current generation w then tell mh_refresh_clash else ret tt) ;!
      if selected_nodes_need_confirmation stored first_snapshot then
        tell mh_sleep ;!
        let! w := get in
        if negb (is_activation_current generation w) then ret tt else
        let! second_snapshot := on_fs MihomoFailed mh_get_proxies in
        let! w := get in
        if negb (is_activation_current generation w) then ret tt else
        let confirmed_plan := reconcile_selected_nodes stored (Some first_snapshot) second_snapshot in
        let! applied := apply_activations (plan_activations confirmed_plan) completed generation in
        match applied with
        | (None, _) => ret tt
        | (Some confirmed_activated_count, _) =>
            let! w := get in
            (if (0 <? confirmed_activated_count) && is_activation_current generation w
             then tell mh_refresh_clash else ret tt) ;!
            finish_activation profile_uid stored confirmed_plan generation
        end
      else finish_activation profile_uid stored immediate_plan generation
  end.
End worker.

(** ** what a plan is *)

Lemma node_available_elem nodes n : node_is_available nodes n = true <-> n ∈ nodes.
Proof.
  unfold node_is_available. rewrite existsb_exists. setoid_rewrite bool_decide_eq_true.
  setoid_rewrite <- list_elem_of_In. split; [by intros (x & Hx & ->)|by exists n].
Qed.

Lemma first_of_name_elem seen l item :
  item ∈ first_of_name seen l -> item ∈ l /\ exists n, sel_name item = Some n /\ n ∉ seen.
Proof.
  revert seen. induction l as [|x l IH]; intros seen; cbn; [by intros ?%elem_of_nil|].
  destruct (sel_name x) as [n|] eqn:En.
  - case_bool_decide as Hs.
    + intros [Hin (n' & ?)]%IH. split; [by right|eauto].
    + intros [->|Hin]%elem_of_cons; [split; [by left|eauto]|].
      apply IH in Hin as [Hin (n' & Hn & Hns)]. split; [by right|]. exists n'. split; [done|set_solver].
  - intros [Hin (n' & ?)]%IH. split; [by right|eauto].
Qed.

(** Names occur once. *)
Lemma first_of_name_nodup seen l : NoDup (map sel_name (first_of_name seen l)).
Proof.
  revert seen. induction l as [|x l IH]; intros seen; cbn; [constructor|].
  destruct (sel_name x) as [n|] eqn:En; [|apply IH]. case_bool_decide; [apply IH|]. cbn. constructor; [|apply IH].
  rewrite En. intros Hin. apply list_elem_of_fmap in Hin as (y & Hy & Hin).
  apply first_of_name_elem in Hin as [_ (n' & Hn' & Hns)]. rewrite <- Hy in Hn'. injection Hn' as <-. set_solver.
Qed.

Lemma first_of_name_length seen l : (length (first_of_name seen l) <= length l)%nat.
Proof.
  revert seen. induction l as [|x l IH]; intros seen; cbn; [lia|].
  destruct (sel_name x) as [n|]; [|specialize (IH seen); lia].
  case_bool_decide; cbn; [specialize (IH seen); lia|specialize (IH ({[n]} ∪ seen)); lia].
Qed.

(** Nothing was filtered out. *)
Lemma first_of_name_full seen l : length (first_of_name seen l) = length l -> first_of_name seen l = l.
Proof.
  revert seen. induction l as [|x l IH]; intros seen; cbn; [done|].
  destruct (sel_name x); [case_bool_decide|]; cbn; intros Hl.
  - pose proof (first_of_name_length seen l). lia.
  - f_equal. apply IH. lia.
  - pose proof (first_of_name_length seen l). lia.
Qed.

Lemma unique_selected_full l : length (unique_selected l) = length l -> unique_selected l = l.
Proof.
  unfold unique_selected. rewrite length_rev. intros Hl.
  rewrite first_of_name_full; [apply rev_involutive|]. by rewrite length_rev.
Qed.

Lemma unique_selected_length l : (length (unique_selected l) <= length l)%nat.
Proof. unfold unique_selected. rewrite length_rev, first_of_name_length, length_rev. lia. Qed.

(** The plan in closed form. *)
Lemma plan_fold previous proxies l plan :
  fold_left (fun plan item => extend_plan plan (reconcile_one previous proxies item)) l plan =
  {| plan_selected := plan_selected plan ++ omap (fun i => (reconcile_one previous proxies i).1.1) l;
     plan_activations := plan_activations plan ++ omap (fun i => (reconcile_one previous proxies i).1.2) l;
     plan_repaired := plan_repaired plan +
       Z.of_nat (length (filter (fun i => (reconcile_one previous proxies i).2 = true) l)) |}.
Proof.
  revert plan. induction l as [|i l IH]; intros plan; cbn [fold_left].
  { destruct plan. cbn. rewrite !app_nil_r. f_equal. lia. }
  rewrite IH. unfold extend_plan. cbn [omap list_omap]. rewrite filter_cons.
  destruct (reconcile_one previous proxies i) as [[kept act] rep]. cbn [fst snd plan_selected plan_activations plan_repaired].
  rewrite <- !app_assoc. f_equal.
  - f_equal. by destruct kept.
  - f_equal. by destruct act.
  - destruct rep; [rewrite decide_True by done|rewrite decide_False by done]; cbn [length]; lia.
Qed.

(** A selection that is not repaired is stored as it was. *)
Lemma reconcile_unrepaired previous proxies item :
  (reconcile_one previous proxies item).2 = false -> (reconcile_one previous proxies item).1.1 = Some item.
Proof.
  unfold reconcile_one. destruct item as [[g|] [n|]]; cbn; try done.
  destruct (proxies !! g) as [group|]; [|by destruct (is_some_and _ _)].
  destruct (available_nodes group) as [nodes|]; [|done]. destruct (is_selectable_group group); cbn.
  - destruct (node_is_available nodes n); [done|]. by destruct (missing_was_confirmed previous g n).
  - destruct (current_node group nodes) as [now|]; [|destruct (node_is_available nodes n); [|done]]; cbn;
      case_bool_decide; by subst.
Qed.

(** Nothing repaired: the stored selections are the plan's. *)
Lemma unrepaired_plan selected previous proxies :
  plan_repaired (reconcile_selected_nodes selected previous proxies) = 0 ->
  plan_selected (reconcile_selected_nodes selected previous proxies) = selected.
Proof.
  unfold reconcile_selected_nodes. rewrite plan_fold. cbn [plan_repaired plan_selected]. intros Hr.
  pose proof (unique_selected_length selected). set (rest := filter _ _) in Hr.
  assert (Hrest : rest = []) by (apply nil_length_inv; lia).
  assert (Hu : unique_selected selected = selected) by (apply unique_selected_full; lia).
  rewrite Hu in *. clear Hr. cbn. revert Hrest. unfold rest. rewrite Hu. clear. induction selected as [|i l IH]; [done|].
  rewrite filter_cons. case_decide as Hi; [done|]. intros Hl. cbn.
  rewrite (reconcile_unrepaired previous proxies i) by by destruct (reconcile_one _ _ _).2.
  f_equal. by apply IH.
Qed.

Lemma reconcile_activation previous proxies item g n :
  (reconcile_one previous proxies item).1.2 = Some (g, n) ->
  item = {| sel_name := Some g; sel_now := Some n |} /\
  exists group nodes, proxies !! g = Some group /\ is_selectable_group group = true /\
    px_all group = Some nodes /\ n ∈ nodes /\ px_now group <> Some n.
Proof.
  unfold reconcile_one. destruct item as [[g'|] [n'|]]; cbn; try done.
  destruct (proxies !! g') as [group|] eqn:Eg; [|by destruct (is_some_and _ _)].
  unfold available_nodes. destruct (px_all group) as [[|x nodes]|] eqn:Ea; try done.
  destruct (is_selectable_group group) eqn:Es; cbn [negb].
  - destruct (node_is_available (x :: nodes) n') eqn:Ev; cbn.
    + case_bool_decide; [done|]. intros [= <- <-]. split; [done|]. exists group, (x :: nodes).
      apply node_available_elem in Ev. by split_and!.
    + by destruct (missing_was_confirmed previous g' n').
  - destruct (current_node group _) as [now|]; [done|]. by destruct (node_is_available _ _).
Qed.

(** One report is not enough to forget a choice. *)
Lemma reconcile_first_report proxies item g n :
  item = {| sel_name := Some g; sel_now := Some n |} ->
  (forall group, proxies !! g = Some group -> is_selectable_group group = true) ->
  (reconcile_one None proxies item).1.1 = Some item.
Proof.
  intros -> Hs. unfold reconcile_one. cbn. destruct (proxies !! g) as [group|] eqn:Eg; [|done].
  destruct (available_nodes group) as [nodes|]; [|done]. rewrite (Hs group eq_refl). cbn.
  by destruct (node_is_available nodes n).
Qed.

(** The plan that restores stored node choices activates only stored choices
    that their group offers and has not taken, is the stored list when nothing
    is repaired, and drops no last choice on the first report. *)
Theorem selection_plan_is_sound selected previous proxies :
  let plan := reconcile_selected_nodes selected previous proxies in
  (* an activation is a stored choice that its group offers and has not taken *)
  (forall g n, (g, n) ∈ plan_activations plan ->
     {| sel_name := Some g; sel_now := Some n |} ∈ selected /\
     exists group nodes, proxies !! g = Some group /\ is_selectable_group group = true /\
       px_all group = Some nodes /\ n ∈ nodes /\ px_now group <> Some n) /\
  (* without a repair the plan is what is stored *)
  (plan_repaired plan = 0 -> plan_selected plan = selected) /\
  (* on the first report every last choice for a selectable or unknown group is kept *)
  (previous = None -> forall g n, {| sel_name := Some g; sel_now := Some n |} ∈ unique_selected selected ->
     (forall group, proxies !! g = Some group -> is_selectable_group group = true) ->
     {| sel_name := Some g; sel_now := Some n |} ∈ plan_selected plan).
Proof.
  intros plan. unfold plan. split; [|split; [apply unrepaired_plan|]]; unfold reconcile_selected_nodes;
    rewrite plan_fold; cbn [plan_activations plan_selected]; rewrite app_nil_l.
  - intros g n Hin. apply list_elem_of_omap in Hin as (item & Hi & Ha).
    apply reconcile_activation in Ha as [-> Hex]. split; [|exact Hex].
    unfold unique_selected in Hi. apply list_elem_of_In, in_rev, list_elem_of_In, first_of_name_elem in Hi as [Hi _].
    by apply list_elem_of_In, in_rev, list_elem_of_In in Hi.
  - intros -> g n Hin Hs. apply list_elem_of_omap. eexists. split; [exact Hin|]. by apply (reconcile_first_report _ _ g n).
Qed.
