(* ===== verification/ProxyView.v ===== *)
(** * ProxyView: the view of the proxies that the frontend is given

    [src-tauri/src/core/proxy_view.rs]: the core's report and the providers' reports
    become records under identifiers, groups whose members refer to them, and the lists
    of standalone nodes and of providers.  The reports of [tauri_plugin_mihomo] are
    records; a [BTreeMap] is a finite map that is iterated in the order of its keys. *)

From stdpp Require Import sorting.
From Stdlib Require Import Ascii String.
From S2P Require Import Prelude Text ProfileItem Profiles SelectedNodes.

(** ** the reports and the view *)

Inductive VehicleType : Type :=
| VtHTTP | VtFile
| OtherVehicle (name : string).

Record SubscriptionInfo := { su_upload : Z; su_download : Z; su_total : Z; su_expire : Z }.

Record ProxyProvider := {
  pd_vehicle_type : VehicleType;
  pd_proxies : list Proxy;
  pd_updated_at : option string;
  pd_subscription_info : option SubscriptionInfo;
}.

Record ProxyViewInput := {
  runtime_group_order : list string;
  in_proxies : Proxies;
  in_providers : option (gmap string ProxyProvider);
}.

Inductive ProxyViewOrderSource : Type := OrderRuntime | OrderFallback.
Inductive ProxyViewProviderState : Type := ProvidersReady | ProvidersUnavailable.

Record ProxyCapabilities := { cp_udp : bool; cp_xudp : bool; cp_tfo : bool; cp_mptcp : bool; cp_smux : bool }.

Inductive ProxyMemberUnresolvedReason : Type := Missing | Ambiguous | ProviderUnavailable.

Inductive ProxyMemberRef : Type :=
| MemberGroup (name : string)
| MemberNode (name record_id : string)
| MemberUnresolved (name : string) (reason : ProxyMemberUnresolvedReason).

Record ProxyGroupView := {
  gv_name : string;
  gv_proxy_type : ProxyType;
  gv_alive : bool;
  gv_now : option string;
  gv_fixed : option string;
  gv_hidden : option bool;
  gv_icon : option string;
  gv_test_url : option string;
  gv_history : list DelayHistory;
  gv_capabilities : ProxyCapabilities;
  gv_members : list ProxyMemberRef;
}.

Inductive ProxyNodeSource : Type :=
| SourceCore (proxy_name : string)
| SourceProvider (provider_name proxy_name : string).

Record ProxyNodeView := {
  nv_record_id : string;
  nv_name : string;
  nv_proxy_type : ProxyType;
  nv_alive : bool;
  nv_history : list DelayHistory;
  nv_id : option string;
  nv_hidden : option bool;
  nv_icon : option string;
  nv_test_url : option string;
  nv_capabilities : ProxyCapabilities;
  nv_source : ProxyNodeSource;
}.

Inductive ProxyProviderVehicleType : Type := Http | File.

Record ProxySubscriptionInfo := { si_upload : Z; si_download : Z; si_total : Z; si_expire : Z }.

Record ProxyProviderView := {
  pvw_name : string;
  pvw_vehicle_type : ProxyProviderVehicleType;
  pvw_updated_at : option string;
  pvw_subscription_info : option ProxySubscriptionInfo;
  pvw_proxy_record_ids : list string;
}.

Record ProxyViewV1 := {
  vw_schema_version : Z;
  vw_order_source : ProxyViewOrderSource;
  vw_provider_state : ProxyViewProviderState;
  vw_global : option ProxyGroupView;
  vw_direct : option string;
  vw_groups : list ProxyGroupView;
  vw_records : gmap string ProxyNodeView;
  vw_standalone : list string;
  vw_providers : list ProxyProviderView;
}.

(** ** ordered maps *)

(** The order of [String]: byte by byte. *)
Definition key_le {A} (x y : string * A) : Prop := String.leb x.1 y.1 = true.

#[global] Instance key_le_dec {A} : RelDecision (@key_le A).
Proof. intros x y. unfold key_le. apply _. Defined.

(** The iteration of a [BTreeMap]. *)
Definition in_order {A} (m : gmap string A) : list (string * A) := merge_sort key_le (map_to_list m).

Lemma in_order_perm {A} (m : gmap string A) : in_order m ≡ₚ map_to_list m.
Proof. apply merge_sort_Permutation. Qed.

Lemma elem_of_in_order {A} (m : gmap string A) k v : (k, v) ∈ in_order m <-> m !! k = Some v.
Proof. by rewrite in_order_perm, elem_of_map_to_list. Qed.

Lemma NoDup_in_order {A} (m : gmap string A) : NoDup (in_order m).*1.
Proof. rewrite in_order_perm. apply NoDup_fst_map_to_list. Qed.

(** ** the records *)

Definition build_node (record_id name : string) (proxy : Proxy) (source : ProxyNodeSource) : ProxyNodeView :=
  {| nv_record_id := record_id; nv_name := name; nv_proxy_type := px_type proxy; nv_alive := px_alive proxy;
     nv_history := px_history proxy; nv_id := px_id proxy; nv_hidden := px_hidden proxy;
     nv_icon := px_icon proxy; nv_test_url := px_test_url proxy;
     nv_capabilities := {| cp_udp := px_udp proxy; cp_xudp := px_xudp proxy; cp_tfo := px_tfo proxy;
                           cp_mptcp := px_mptcp proxy; cp_smux := px_smux proxy |};
     nv_source := source |}.

Definition partition_core (proxies : Proxies) : gmap string Proxy * gmap string Proxy :=
  (filter (fun e => is_Some (px_all e.2)) proxies, filter (fun e => ~ is_Some (px_all e.2)) proxies).

Definition core_id (index : nat) : string := String.append "c:" (print_uint (Z.of_nat index)).
Definition member_id (provider member : nat) : string :=
  String.append "p:" (String.append (print_uint (Z.of_nat provider))
    (String.append ":" (print_uint (Z.of_nat member)))).

(** The loop of [build_core_records], from an index on. *)
Fixpoint core_records (index : nat) (nodes : list (string * Proxy))
  (acc : gmap string ProxyNodeView * gmap string string) : gmap string ProxyNodeView * gmap string string :=
  match nodes with
  | [] => acc
  | (name, proxy) :: nodes =>
      let record_id := core_id index in
      core_records (S index) nodes
        (<[record_id := build_node record_id name proxy (SourceCore name)]> acc.1, <[name := record_id]> acc.2)
  end.

Definition build_core_records (core_nodes : gmap string Proxy)
  : gmap string ProxyNodeView * gmap string string := core_records 0 (in_order core_nodes) (∅, ∅).

(** [candidates.entry(name).or_insert_with(Vec::new).push(id)]. *)
Definition push_candidate (name record_id : string) (candidates : gmap string (list string))
  : gmap string (list string) :=
  <[name := (match candidates !! name with Some l => l | None => [] end) ++ [record_id]]> candidates.

(** The records and the candidates, while the providers are walked. *)
Notation Collected := (gmap string ProxyNodeView * gmap string (list string))%type.

Definition member_step (provider_name : string) (provider_index member_index : nat) (proxy : Proxy)
  (acc : Collected) : Collected :=
  let record_id := member_id provider_index member_index in
  (<[record_id := build_node record_id (px_name proxy) proxy (SourceProvider provider_name (px_name proxy))]> acc.1,
   push_candidate (px_name proxy) record_id acc.2).

Fixpoint member_records (provider_name : string) (provider_index member_index : nat) (proxies : list Proxy)
  (acc : Collected) : list string * Collected :=
  match proxies with
  | [] => ([], acc)
  | proxy :: proxies =>
      let '(ids, acc) := member_records provider_name provider_index (S member_index) proxies
                           (member_step provider_name provider_index member_index proxy acc) in
      (member_id provider_index member_index :: ids, acc)
  end.

Definition vehicle_view (v : VehicleType) : option ProxyProviderVehicleType :=
  match v with VtHTTP => Some Http | VtFile => Some File | OtherVehicle _ => None end.

Definition provider_view (name : string) (kind : ProxyProviderVehicleType) (provider : ProxyProvider)
  (ids : list string) : ProxyProviderView :=
  {| pvw_name := name; pvw_vehicle_type := kind; pvw_updated_at := pd_updated_at provider;
     pvw_subscription_info := option_map (fun s => {| si_upload := su_upload s; si_download := su_download s;
       si_total := su_total s; si_expire := su_expire s |}) (pd_subscription_info provider);
     pvw_proxy_record_ids := ids |}.

(** The loop of [build_provider_records]; [index] is the number of views so far. *)
Fixpoint provider_records (index : nat) (providers : list (string * ProxyProvider)) (acc : Collected)
  : list ProxyProviderView * Collected :=
  match providers with
  | [] => ([], acc)
  | (name, provider) :: providers =>
      match vehicle_view (pd_vehicle_type provider) with
      | Some kind =>
          let '(ids, acc) := member_records name index 0 (pd_proxies provider) acc in
          let '(views, acc) := provider_records (S index) providers acc in
          (provider_view name kind provider ids :: views, acc)
      | None => provider_records index providers acc
      end
  end.

Definition build_provider_records (providers : option (gmap string ProxyProvider))
  (records : gmap string ProxyNodeView) : list ProxyProviderView * Collected :=
  provider_records 0 (in_order (match providers with Some m => m | None => ∅ end)) (records, ∅).

(** ** the groups *)

Record MemberResolver := {
  group_names : gset string;
  core_node_ids : gmap string string;
  provider_candidates : gmap string (list string);
  provider_available : bool;
}.

Definition resolve (self : MemberResolver) (name : string) : ProxyMemberRef :=
  if bool_decide (name ∈ group_names self) then MemberGroup name
  else match core_node_ids self !! name with
       | Some record_id => MemberNode name record_id
       | None =>
           if negb (provider_available self) then MemberUnresolved name ProviderUnavailable
           else match provider_candidates self !! name with
                | Some [record_id] => MemberNode name record_id
                | None => MemberUnresolved name Missing
                | Some _ => MemberUnresolved name Ambiguous
                end
       end.

Definition build_group (name : string) (proxy : Proxy) (resolver : MemberResolver) : ProxyGroupView :=
  {| gv_name := name; gv_proxy_type := px_type proxy; gv_alive := px_alive proxy; gv_now := px_now proxy;
     gv_fixed := px_fixed proxy; gv_hidden := px_hidden proxy; gv_icon := px_icon proxy;
     gv_test_url := px_test_url proxy; gv_history := px_history proxy;
     gv_capabilities := {| cp_udp := px_udp proxy; cp_xudp := px_xudp proxy; cp_tfo := px_tfo proxy;
                           cp_mptcp := px_mptcp proxy; cp_smux := px_smux proxy |};
     gv_members := map (resolve resolver) (match px_all proxy with Some l => l | None => [] end) |}.

(** The names of the runtime order that are groups, each once. *)
Fixpoint select_names (core_groups : gmap string Proxy) (order : list string) (selected : gset string)
  : list string * gset string :=
  match order with
  | [] => ([], selected)
  | name :: order =>
      if is_some (core_groups !! name) && negb (bool_decide (name ∈ selected)) then
        let '(names, selected) := select_names core_groups order ({[name]} ∪ selected) in
        (name :: names, selected)
      else select_names core_groups order selected
  end.

(** Each name takes its group out of the map. *)
Fixpoint take_groups (names : list string) (core_groups : gmap string Proxy) (resolver : MemberResolver)
  : list ProxyGroupView :=
  match names with
  | [] => []
  | name :: names =>
      match core_groups !! name with
      | Some proxy => build_group name proxy resolver :: take_groups names (delete name core_groups) resolver
      | None => take_groups names core_groups resolver
      end
  end.

Definition build_ordered_groups (core_groups : gmap string Proxy) (order : list string)
  (resolver : MemberResolver) : list ProxyGroupView * ProxyViewOrderSource :=
  let '(names, selected) := select_names core_groups order ∅ in
  let order_source := match names with [] => OrderFallback | _ => OrderRuntime end in
  let names := names ++ filter (fun name => name ∉ selected) (in_order core_groups).*1 in
  (take_groups names core_groups resolver, order_source).

Definition is_standalone_name (name : string) : bool :=
  negb (bool_decide (name = "DIRECT"%string)) && negb (bool_decide (name = "REJECT"%string)).

Definition build_standalone (core_node_ids : gmap string string) : list string :=
  omap (fun name => core_node_ids !! name) ["DIRECT"; "REJECT"]%string ++
  (filter (fun e => is_standalone_name e.1 = true) (in_order core_node_ids)).*2.

Definition build (input : ProxyViewInput) : ProxyViewV1 :=
  let provider_state := match in_providers input with Some _ => ProvidersReady | None => ProvidersUnavailable end in
  let '(core_groups, core_nodes) := partition_core (in_proxies input) in
  let '(records, ids) := build_core_records core_nodes in
  let '(providers, (records, candidates)) := build_provider_records (in_providers input) records in
  let resolver := {| group_names := dom core_groups; core_node_ids := ids; provider_candidates := candidates;
                     provider_available := match provider_state with ProvidersReady => true | _ => false end |} in
  let global := option_map (fun proxy => build_group "GLOBAL" proxy resolver)
                  (core_groups !! "GLOBAL"%string) in
  let '(groups, order_source) :=
    build_ordered_groups (delete "GLOBAL"%string core_groups) (runtime_group_order input) resolver in
  {| vw_schema_version := 1; vw_order_source := order_source; vw_provider_state := provider_state;
     vw_global := global; vw_direct := ids !! "DIRECT"%string; vw_groups := groups; vw_records := records;
     vw_standalone := build_standalone ids; vw_providers := providers |}.
