(* ===== verification/ProxyViewSafety.v ===== *)
(** * ProxyViewSafety: the view refers only to what it contains

    Identifiers of records do not collide, so that no record replaces another; every
    node, group and provider of the reports is in the view once, and every reference of a
    member leads to what it names. *)

From Stdlib Require Import Ascii String.
From S2P Require Import Prelude Text ProfileItem Profiles SelectedNodes ProxyView.

(** ** identifiers *)

Definition dec_value (l : list ascii) : Z := fold_left (fun a c => a * 10 + (byte c - 48)) l 0.

Lemma dec_value_snoc l c : dec_value (l ++ [c]) = dec_value l * 10 + (byte c - 48).
Proof. unfold dec_value. by rewrite fold_left_app. Qed.

Lemma digit_char_ok d : 0 <= d < 10 -> is_ascii_digit (digit_char d) = true /\ byte (digit_char d) - 48 = d.
Proof.
  intros Hd.
  assert (Hin : d ∈ [0; 1; 2; 3; 4; 5; 6; 7; 8; 9]) by (rewrite !elem_of_cons; lia).
  repeat (apply elem_of_cons in Hin as [->|Hin]; [by vm_compute|]). by apply elem_of_nil in Hin.
Qed.

Lemma print_digits_value fuel n acc :
  0 <= n < 10 ^ Z.of_nat fuel -> (0 < fuel)%nat ->
  exists l, print_digits fuel n acc = l ++ acc /\ Forall (fun c => is_ascii_digit c = true) l /\ dec_value l = n.
Proof.
  revert n acc. induction fuel as [|fuel IH]; intros n acc Hn Hf; [lia|]. cbn [print_digits].
  pose proof (Z.mod_pos_bound n 10 ltac:(lia)) as Hm. destruct (digit_char_ok (n mod 10) Hm) as [Hd Hv].
  destruct (Z.ltb_spec n 10).
  - exists [digit_char (n mod 10)]. split_and!; [done|by constructor|].
    change [digit_char (n mod 10)] with ([] ++ [digit_char (n mod 10)]). rewrite dec_value_snoc, Hv. cbn.
    by rewrite Z.mod_small by lia.
  - rewrite Nat2Z.inj_succ, Z.pow_succ_r in Hn by lia.
    assert (Hf' : (0 < fuel)%nat) by (destruct fuel; [cbn in Hn; lia|lia]).
    destruct (IH (n / 10) (digit_char (n mod 10) :: acc)) as (l & -> & Hl & Hval); [|done|].
    { split; [apply Z.div_pos; lia|apply Z.div_lt_upper_bound; lia]. }
    exists (l ++ [digit_char (n mod 10)]). split_and!; [by rewrite <- app_assoc| |].
    + apply Forall_app. by split; [|constructor].
    + rewrite dec_value_snoc, Hval, Hv. pose proof (Z.div_mod n 10). lia.
Qed.

Lemma print_uint_value n :
  0 <= n <= u64_max ->
  Forall (fun c => is_ascii_digit c = true) (bytes (print_uint n)) /\ dec_value (bytes (print_uint n)) = n.
Proof.
  intros Hn. unfold print_uint. rewrite bytes_str.
  destruct (print_digits_value 40 n []) as (l & -> & Hl & Hv); [|lia|].
  - change (10 ^ Z.of_nat 40) with 10000000000000000000000000000000000000000. unfold u64_max in Hn. lia.
  - rewrite app_nil_r. done.
Qed.

Definition index_ok (i : nat) : Prop := Z.of_nat i <= u64_max.

Lemma print_index_inj i j :
  index_ok i -> index_ok j -> bytes (print_uint (Z.of_nat i)) = bytes (print_uint (Z.of_nat j)) -> i = j.
Proof.
  unfold index_ok. intros Hi Hj Heq. destruct (print_uint_value (Z.of_nat i)) as [_ Hvi]; [lia|].
  destruct (print_uint_value (Z.of_nat j)) as [_ Hvj]; [lia|]. rewrite Heq in Hvi. lia.
Qed.

Lemma core_id_inj i j : index_ok i -> index_ok j -> core_id i = core_id j -> i = j.
Proof.
  intros Hi Hj Heq. apply (f_equal bytes) in Heq. unfold core_id in Heq. rewrite !bytes_append in Heq.
  apply app_inv_head in Heq. by apply print_index_inj.
Qed.

(** A colon ends the digits of the first index. *)
Lemma digits_split l l' r r' :
  Forall (fun c => is_ascii_digit c = true) l -> Forall (fun c => is_ascii_digit c = true) l' ->
  l ++ ":"%char :: r = l' ++ ":"%char :: r' -> l = l' /\ r = r'.
Proof.
  revert l'. induction l as [|c l IH]; intros [|c' l'] Hl Hl' Heq; cbn in Heq.
  - by injection Heq as ->.
  - injection Heq as <- _. by apply Forall_cons in Hl' as [Hc _].
  - injection Heq as -> _. by apply Forall_cons in Hl as [Hc _].
  - injection Heq as <- Heq. apply Forall_cons in Hl as [_ Hl], Hl' as [_ Hl'].
    destruct (IH l' Hl Hl' Heq) as [-> ->]. done.
Qed.

Lemma member_id_bytes p m :
  bytes (member_id p m) = bytes "p:" ++ bytes (print_uint (Z.of_nat p)) ++ ":"%char :: bytes (print_uint (Z.of_nat m)).
Proof. unfold member_id. by rewrite !bytes_append. Qed.

(** The two indices, as far as they are indices. *)
Lemma member_id_split p m p' m' :
  index_ok p -> index_ok p' -> member_id p m = member_id p' m' ->
  p = p' /\ bytes (print_uint (Z.of_nat m)) = bytes (print_uint (Z.of_nat m')).
Proof.
  intros Hp Hp' Heq. apply (f_equal bytes) in Heq. rewrite !member_id_bytes in Heq. apply app_inv_head in Heq.
  apply digits_split in Heq as [H1 H2]; [|apply print_uint_value; unfold index_ok in *; lia..].
  split; [by apply print_index_inj|done].
Qed.

Lemma member_id_inj p m p' m' :
  index_ok p -> index_ok m -> index_ok p' -> index_ok m' -> member_id p m = member_id p' m' -> p = p' /\ m = m'.
Proof.
  intros Hp Hm Hp' Hm' [-> Heq]%member_id_split; [|done..]. split; [done|]. by apply print_index_inj.
Qed.

Lemma core_id_not_member i p m : core_id i <> member_id p m.
Proof. intros Heq. apply (f_equal bytes) in Heq. unfold core_id, member_id in Heq. rewrite !bytes_append in Heq. done. Qed.

(** ** the core's records *)

Definition core_record (i : nat) (name : string) (proxy : Proxy) : ProxyNodeView :=
  build_node (core_id i) name proxy (SourceCore name).

Lemma core_records_keep index nodes acc :
  (forall id, (forall i, (index <= i < index + length nodes)%nat -> id <> core_id i) ->
     (core_records index nodes acc).1 !! id = acc.1 !! id) /\
  (forall name, name ∉ nodes.*1 -> (core_records index nodes acc).2 !! name = acc.2 !! name).
Proof.
  revert index acc. induction nodes as [|[name proxy] nodes IH]; intros index acc; [done|]. cbn [core_records length].
  edestruct IH as [Hr Hi]. split.
  - intros id Hid. rewrite Hr by (intros i Hlt; apply Hid; lia). apply lookup_insert_ne. intros Heq.
    apply (Hid index); [lia|done].
  - intros n Hn. cbn in Hn. apply not_elem_of_cons in Hn as [Hne Hn]. rewrite Hi by done. by apply lookup_insert_ne.
Qed.

Lemma core_records_at index nodes acc i name proxy :
  index_ok (index + length nodes) -> NoDup nodes.*1 -> nodes !! i = Some (name, proxy) ->
  (core_records index nodes acc).2 !! name = Some (core_id (index + i)) /\
  (core_records index nodes acc).1 !! core_id (index + i) = Some (core_record (index + i) name proxy).
Proof.
  revert index acc i. induction nodes as [|[n p] nodes IH]; intros index acc [|i]; cbn; try done.
  - intros Hok [Hn Hd]%NoDup_cons [= -> ->]. rewrite Nat.add_0_r.
    destruct (core_records_keep (S index) nodes
      (<[core_id index := build_node (core_id index) name proxy (SourceCore name)]> acc.1, <[name := core_id index]> acc.2)) as [Hr Hi].
    rewrite Hr, Hi; [|done|].
    + cbn. by rewrite !lookup_insert_eq.
    + intros j Hj Heq. apply core_id_inj in Heq; unfold index_ok in *; lia.
  - intros Hok [Hn Hd]%NoDup_cons Hl. rewrite <- !Nat.add_succ_comm. apply IH; [|done|done].
    unfold index_ok in *. lia.
Qed.

Lemma core_records_inv index nodes acc :
  (forall id n, (core_records index nodes acc).1 !! id = Some n -> acc.1 !! id = Some n \/
     exists i name proxy, (name, proxy) ∈ nodes /\ id = core_id i /\ n = core_record i name proxy) /\
  (forall name id, (core_records index nodes acc).2 !! name = Some id -> acc.2 !! name = Some id \/
     exists i proxy, nodes !! i = Some (name, proxy) /\ id = core_id (index + i)).
Proof.
  revert index acc. induction nodes as [|[name proxy] nodes IH]; intros index acc; [cbn; auto|]. cbn [core_records].
  edestruct IH as [Hr Hi]. split.
  - intros id n Hn. apply Hr in Hn as [Hn|(i & m & p & Hin & -> & ->)].
    + cbn in Hn. apply lookup_insert_Some in Hn as [[<- <-]|[_ Hn]]; [|by left].
      right. exists index, name, proxy. split; [left|done].
    + right. exists i, m, p. split; [by right|done].
  - intros n id Hn. apply Hi in Hn as [Hn|(i & p & Hl & ->)].
    + cbn in Hn. apply lookup_insert_Some in Hn as [[<- <-]|[_ Hn]]; [|by left].
      right. exists 0%nat, proxy. by rewrite Nat.add_0_r.
    + right. exists (S i), p. by rewrite <- Nat.add_succ_comm.
Qed.

(** ** the providers' records *)

Definition member_record (provider_name : string) (p m : nat) (proxy : Proxy) : ProxyNodeView :=
  build_node (member_id p m) (px_name proxy) proxy (SourceProvider provider_name (px_name proxy)).

(** A record that is not of the provider is kept, and those of its members are there. *)
Lemma member_records_keep name p m proxies acc id :
  (forall i, (m <= i < m + length proxies)%nat -> id <> member_id p i) ->
  (member_records name p m proxies acc).2.1 !! id = acc.1 !! id.
Proof.
  revert m acc. induction proxies as [|proxy proxies IH]; intros m acc; cbn; [done|]. intros Hid.
  specialize (IH (S m) (member_step name p m proxy acc)).
  destruct (member_records name p (S m) proxies (member_step name p m proxy acc)) as [ids acc']. cbn in *.
  rewrite IH by (intros i Hi; apply Hid; lia). apply lookup_insert_ne. intros Heq. apply (Hid m); [lia|done].
Qed.

Lemma member_records_at name p m proxies acc :
  index_ok p -> index_ok (m + length proxies) ->
  Forall2 (fun id proxy => exists i, id = member_id p i /\ (m <= i < m + length proxies)%nat /\
             (member_records name p m proxies acc).2.1 !! id = Some (member_record name p i proxy))
    (member_records name p m proxies acc).1 proxies.
Proof.
  intros Hp. revert m acc. induction proxies as [|proxy proxies IH]; intros m acc Hm; cbn; [constructor|].
  specialize (IH (S m) (member_step name p m proxy acc)).
  pose proof (member_records_keep name p (S m) proxies (member_step name p m proxy acc) (member_id p m)) as Hk.
  destruct (member_records name p (S m) proxies (member_step name p m proxy acc)) as [ids acc']. cbn in *.
  constructor.
  - exists m. split; [done|]. split; [lia|]. rewrite Hk; [by rewrite lookup_insert_eq|].
    intros i Hi Heq. apply member_id_inj in Heq; unfold index_ok in *; lia.
  - eapply Forall2_impl; [apply IH; unfold index_ok in *; lia|]. intros id x (i & -> & Hi & Hr).
    exists i. split_and!; [done|lia|lia|done].
Qed.

(** While the providers are walked up to a member: a record is under its identifier and
    is of the right kind, and a candidate leads to a record of its name. *)
Record collected_ok (R : ProxyNodeView -> Prop) (p m : nat) (acc : Collected) : Prop := {
  co_records : forall id n, acc.1 !! id = Some n -> nv_record_id n = id /\ R n;
  co_candidates : forall name l id, acc.2 !! name = Some l -> id ∈ l ->
    exists p' m' n, (p' < p \/ p' = p /\ m' < m)%nat /\ index_ok p' /\ index_ok m' /\ id = member_id p' m' /\
      acc.1 !! id = Some n /\ nv_name n = name;
}.

Section collect.
Context (R : ProxyNodeView -> Prop).

Lemma collected_next p m acc : collected_ok R p m acc -> collected_ok R (S p) 0 acc.
Proof.
  intros [Hr Hc]. split; [done|]. intros name l id Hl Hin.
  destruct (Hc name l id Hl Hin) as (p' & m' & n & Hb & ?). exists p', m', n. split; [lia|done].
Qed.

Lemma member_step_ok name p m proxy acc :
  index_ok p -> index_ok m -> R (member_record name p m proxy) ->
  collected_ok R p m acc -> collected_ok R p (S m) (member_step name p m proxy acc).
Proof.
  intros Hp Hm HR [Hr Hc]. unfold member_step. split; cbn [fst snd].
  - intros id n Hn. apply lookup_insert_Some in Hn as [[<- <-]|[_ Hn]]; [done|by apply Hr].
  - assert (Hold : forall x l id, acc.2 !! x = Some l -> id ∈ l -> exists p' m' n,
      (p' < p \/ p' = p /\ m' < S m)%nat /\ index_ok p' /\ index_ok m' /\ id = member_id p' m' /\
      <[member_id p m := member_record name p m proxy]> acc.1 !! id = Some n /\ nv_name n = x).
    { intros x l id Hl Hin. destruct (Hc x l id Hl Hin) as (p' & m' & n & Hb & Hp' & Hm' & -> & Hn & Hx).
      exists p', m', n. split_and!; try done; [lia|]. rewrite lookup_insert_ne; [done|]. intros Heq.
      apply member_id_inj in Heq; [lia|done..]. }
    intros x l id Hl Hin. unfold push_candidate in Hl. apply lookup_insert_Some in Hl as [[<- <-]|[Hne Hl]]; [|by eapply Hold].
    apply elem_of_app in Hin as [Hin|Hin].
    + destruct (acc.2 !! px_name proxy) as [old|] eqn:E; [by eapply Hold|by apply elem_of_nil in Hin].
    + apply list_elem_of_singleton in Hin as ->. exists p, m, (member_record name p m proxy).
      split_and!; try done; [lia|by rewrite lookup_insert_eq].
Qed.

Lemma member_records_ok name p m proxies acc :
  index_ok p -> index_ok (m + length proxies) -> (forall i proxy, proxy ∈ proxies -> R (member_record name p i proxy)) ->
  collected_ok R p m acc -> collected_ok R p (m + length proxies) (member_records name p m proxies acc).2.
Proof.
  intros Hp. revert m acc. induction proxies as [|proxy proxies IH]; intros m acc Hm HR Hacc; cbn.
  { by rewrite Nat.add_0_r. }
  specialize (IH (S m) (member_step name p m proxy acc)).
  destruct (member_records name p (S m) proxies (member_step name p m proxy acc)) as [ids acc']. cbn in *.
  rewrite <- Nat.add_succ_comm. apply IH.
  - unfold index_ok in *. lia.
  - intros i x Hx. apply HR. by right.
  - apply member_step_ok; [done|unfold index_ok in *; lia|apply HR; left|done].
Qed.

(** What is asked of the providers that are still to come. *)
Definition providers_ok (providers : list (string * ProxyProvider)) : Prop :=
  forall name provider, (name, provider) ∈ providers -> index_ok (length (pd_proxies provider)) /\
    forall p i proxy, proxy ∈ pd_proxies provider -> R (member_record name p i proxy).

Lemma providers_ok_cons name provider providers :
  providers_ok ((name, provider) :: providers) ->
  index_ok (length (pd_proxies provider)) /\
  (forall p i proxy, proxy ∈ pd_proxies provider -> R (member_record name p i proxy)) /\ providers_ok providers.
Proof.
  intros Hok. destruct (Hok name provider) as [Hl HR]; [left|]. split_and!; [done|done|].
  intros n q Hin. apply Hok. by right.
Qed.

Lemma provider_records_ok index providers acc :
  index_ok (index + length providers) -> providers_ok providers ->
  collected_ok R index 0 acc ->
  collected_ok R (index + length providers) 0 (provider_records index providers acc).2.
Proof.
  revert index acc. induction providers as [|[name provider] providers IH]; intros index acc Hi Hok Hacc; cbn.
  { by rewrite Nat.add_0_r. }
  apply providers_ok_cons in Hok as (Hl & HR & Hok). cbn in Hi.
  destruct (vehicle_view (pd_vehicle_type provider)) as [kind|].
  - pose proof (member_records_ok name index 0 (pd_proxies provider) acc) as Hm.
    destruct (member_records name index 0 (pd_proxies provider) acc) as [ids acc1]. cbn in Hm.
    assert (Hacc1 : collected_ok R (S index) 0 acc1).
    { eapply collected_next, Hm; [unfold index_ok in *; lia|done|by intros; apply HR|done]. }
    specialize (IH (S index) acc1). destruct (provider_records (S index) providers acc1) as [views acc2]. cbn in *.
    rewrite <- Nat.add_succ_comm. apply IH; [unfold index_ok in *; lia|done|done].
  - rewrite <- Nat.add_succ_comm. apply collected_next with (m := 0%nat).
    apply (IH index acc); [unfold index_ok in *; lia|done|done].
Qed.

Lemma provider_records_keep index providers acc id :
  (forall p m, (index <= p < index + length providers)%nat -> id <> member_id p m) ->
  (provider_records index providers acc).2.1 !! id = acc.1 !! id.
Proof.
  revert index acc. induction providers as [|[name provider] providers IH]; intros index acc Hid; cbn; [done|].
  cbn in Hid. destruct (vehicle_view (pd_vehicle_type provider)) as [kind|].
  - pose proof (member_records_keep name index 0 (pd_proxies provider) acc id) as Hm.
    destruct (member_records name index 0 (pd_proxies provider) acc) as [ids acc1]. cbn in Hm.
    specialize (IH (S index) acc1). destruct (provider_records (S index) providers acc1) as [views acc2]. cbn in *.
    rewrite IH by (intros p m Hp; apply Hid; lia). apply Hm. intros i Hi. apply Hid. lia.
  - apply IH. intros p m Hp. apply Hid. lia.
Qed.

(** A view of a provider: its members, in order, each with its record. *)
Definition shows (records : gmap string ProxyNodeView) (name : string) (provider : ProxyProvider)
  (pv : ProxyProviderView) : Prop :=
  pvw_name pv = name /\
  Forall2 (fun id proxy => records !! id = Some (build_node id (px_name proxy) proxy
             (SourceProvider name (px_name proxy)))) (pvw_proxy_record_ids pv) (pd_proxies provider).

Lemma provider_records_views index providers acc :
  index_ok (index + length providers) -> providers_ok providers ->
  (forall name provider kind, (name, provider) ∈ providers -> vehicle_view (pd_vehicle_type provider) = Some kind ->
     exists pv, pv ∈ (provider_records index providers acc).1 /\
       shows (provider_records index providers acc).2.1 name provider pv) /\
  (forall pv, pv ∈ (provider_records index providers acc).1 -> exists provider, (pvw_name pv, provider) ∈ providers /\
     shows (provider_records index providers acc).2.1 (pvw_name pv) provider pv).
Proof.
  revert index acc. induction providers as [|[name provider] providers IH]; intros index acc Hi Hok; cbn.
  { split; [by intros ? ? ? ?%elem_of_nil|by intros ? ?%elem_of_nil]. }
  apply providers_ok_cons in Hok as (Hl & HR & Hok). cbn in Hi.
  destruct (vehicle_view (pd_vehicle_type provider)) as [kind|] eqn:Ek.
  2: { destruct (IH index acc) as [Hto Hfrom]; [unfold index_ok in *; lia|done|]. split.
       - intros n q k [[= -> ->]|Hin]%elem_of_cons Hk; [congruence|eauto].
       - intros pv Hpv. destruct (Hfrom pv Hpv) as (q & Hin & Hs). exists q. split; [by right|done]. }
  pose proof (member_records_at name index 0 (pd_proxies provider) acc) as Hm.
  destruct (member_records name index 0 (pd_proxies provider) acc) as [ids acc1]. cbn in Hm.
  pose proof (provider_records_keep (S index) providers acc1) as Hkeep.
  destruct (IH (S index) acc1) as [Hto Hfrom]; [unfold index_ok in *; lia|done|].
  destruct (provider_records (S index) providers acc1) as [views acc2]. cbn in *.
  assert (Hshow : shows acc2.1 name provider (provider_view name kind provider ids)).
  { split; [done|]. cbn. eapply Forall2_impl; [apply Hm; unfold index_ok in *; lia|].
    intros id proxy (i & -> & Hlt & Hrec). rewrite Hkeep; [exact Hrec|]. intros p m Hp Heq.
    apply member_id_split in Heq as [Heq _]; unfold index_ok in *; lia. }
  split.
  - intros n q k [[= -> ->]|Hin]%elem_of_cons Hk.
    + exists (provider_view name kind provider ids). split; [left|done].
    + destruct (Hto n q k Hin Hk) as (pv & Hpv & Hs). exists pv. split; [by right|done].
  - intros pv [->|Hpv]%elem_of_cons.
    + exists provider. split; [left|done].
    + destruct (Hfrom pv Hpv) as (q & Hin & Hs). exists q. split; [by right|done].
Qed.
End collect.

(** ** the groups *)

Lemma select_names_spec groups order selected :
  (select_names groups order selected).1 ⊆ (map_to_list groups).*1 /\
  NoDup (select_names groups order selected).1 /\
  (forall n, n ∈ (select_names groups order selected).1 -> n ∉ selected) /\
  (forall n, n ∈ (select_names groups order selected).2 <->
     n ∈ (select_names groups order selected).1 \/ n ∈ selected).
Proof.
  revert selected. induction order as [|name order IH]; intros selected; cbn.
  { split_and!; [by intros ? ?%elem_of_nil|constructor|by intros ? ?%elem_of_nil|set_solver]. }
  destruct (groups !! name) as [proxy|] eqn:E; cbn; [|apply IH]. case_bool_decide as Hs; cbn; [apply IH|].
  specialize (IH ({[name]} ∪ selected)).
  destruct (select_names groups order ({[name]} ∪ selected)) as [names selected']. cbn in *.
  destruct IH as (Hsub & Hd & Hnew & Hsel). split_and!.
  - intros n [->|Hn]%elem_of_cons; [|by apply Hsub]. apply list_elem_of_fmap. exists (name, proxy).
    by rewrite elem_of_map_to_list.
  - constructor; [|done]. intros Hn. apply Hnew in Hn. set_solver.
  - intros n [->|Hn]%elem_of_cons; [done|]. apply Hnew in Hn. set_solver.
  - intros n. rewrite Hsel, elem_of_cons. set_solver.
Qed.

(** All groups, each once: those of the runtime order first. *)
Lemma ordered_names_perm groups order :
  (select_names groups order ∅).1 ++
    filter (fun name => name ∉ (select_names groups order ∅).2) (in_order groups).*1 ≡ₚ (map_to_list groups).*1.
Proof.
  destruct (select_names_spec groups order ∅) as (Hsub & Hd & _ & Hsel).
  apply NoDup_Permutation.
  - apply NoDup_app. split_and!; [done| |apply NoDup_filter, NoDup_in_order].
    intros n Hn [Hout _]%list_elem_of_filter. apply Hout, Hsel. by left.
  - apply NoDup_fst_map_to_list.
  - intros n. rewrite elem_of_app, list_elem_of_filter, Hsel, in_order_perm.
    split; [intros [Hn|[_ Hn]]; [by apply Hsub|done]|].
    intros Hn. destruct (decide (n ∈ (select_names groups order ∅).1)); [by left|right; set_solver].
Qed.

Lemma take_groups_names names groups resolver :
  NoDup names -> (forall n, n ∈ names -> is_Some (groups !! n)) -> map gv_name (take_groups names groups resolver) = names.
Proof.
  intros Hd. revert groups. induction Hd as [|n names Hn Hd IH]; intros groups Hin; [done|]. cbn.
  destruct (Hin n) as [proxy Hp]; [left|]. rewrite Hp. cbn. f_equal. apply IH. intros m Hm.
  rewrite lookup_delete_ne by (intros ->; done). apply Hin. by right.
Qed.

Lemma take_groups_elem names groups resolver g :
  g ∈ take_groups names groups resolver ->
  exists name proxy, groups !! name = Some proxy /\ g = build_group name proxy resolver.
Proof.
  revert groups. induction names as [|n names IH]; intros groups; cbn; [by intros ?%elem_of_nil|].
  destruct (groups !! n) as [proxy|] eqn:E; [|apply IH]. intros [->|Hg]%elem_of_cons; [by exists n, proxy|].
  destruct (IH _ Hg) as (m & p & [_ Hm]%lookup_delete_Some & ->). by exists m, p.
Qed.

Lemma ordered_groups_spec groups order resolver :
  map gv_name (build_ordered_groups groups order resolver).1 ≡ₚ (map_to_list groups).*1 /\
  forall g, g ∈ (build_ordered_groups groups order resolver).1 ->
    exists name proxy, groups !! name = Some proxy /\ g = build_group name proxy resolver.
Proof.
  unfold build_ordered_groups. pose proof (ordered_names_perm groups order) as Hp.
  destruct (select_names groups order ∅) as [names selected]. cbn in *. split; [|apply take_groups_elem].
  rewrite take_groups_names; [exact Hp|rewrite Hp; apply NoDup_fst_map_to_list|].
  intros n Hn. rewrite Hp in Hn. apply list_elem_of_fmap in Hn as ([k v] & -> & Hkv).
  apply elem_of_map_to_list in Hkv. cbn. by exists v.
Qed.

(** ** the standalone nodes *)

Lemma standalone_perm ids : build_standalone ids ≡ₚ (map_to_list ids).*2.
Proof.
  set (l := omap (fun name => option_map (pair name) (ids !! name)) ["DIRECT"; "REJECT"]%string ++
    filter (fun e => is_standalone_name e.1 = true) (in_order ids)).
  assert (Hl : build_standalone ids = l.*2).
  { unfold build_standalone, l. rewrite fmap_app. f_equal. cbn.
    by destruct (ids !! "DIRECT"%string), (ids !! "REJECT"%string). }
  rewrite Hl. apply fmap_Permutation. apply NoDup_Permutation.
  - apply NoDup_app. split_and!.
    + cbn. destruct (ids !! "DIRECT"%string), (ids !! "REJECT"%string); cbn; rewrite ?NoDup_cons, ?list_elem_of_singleton, ?elem_of_nil.
      all: split_and?; first [apply NoDup_nil_2|by intros [=]|by intros []|done].
    + intros [n v] Hin [Hs _]%list_elem_of_filter. apply list_elem_of_omap in Hin as (m & Hm & Hv).
      destruct (ids !! m); [|done]. injection Hv as -> ->. apply elem_of_cons in Hm as [->|[->|Hm]%elem_of_cons]; [done|done|].
      by apply elem_of_nil in Hm.
    + apply NoDup_filter. apply (NoDup_fmap_1 fst), NoDup_in_order.
  - apply NoDup_map_to_list.
  - intros [n v]. rewrite elem_of_map_to_list. unfold l. rewrite elem_of_app, list_elem_of_filter, elem_of_in_order, list_elem_of_omap.
    split.
    + intros [(m & _ & Hv)|[_ Hv]]; [|done]. destruct (ids !! m) eqn:E; [|done]. by injection Hv as -> ->.
    + intros Hv. destruct (is_standalone_name n) eqn:E; [by right|left]. exists n. rewrite Hv. split; [|done].
      unfold is_standalone_name in E. apply andb_false_iff in E as [E|E]; reflect_bools; subst; set_solver.
Qed.

(** ** the view *)

(** What a process can hold. *)
Definition fits (input : ProxyViewInput) : Prop :=
  index_ok (size (in_proxies input)) /\
  match in_providers input with
  | Some providers => index_ok (size providers) /\
      forall name provider, providers !! name = Some provider -> index_ok (length (pd_proxies provider))
  | None => True
  end.

(** The node of a report that a record shows. *)
Definition reported (input : ProxyViewInput) (n : ProxyNodeView) : Prop :=
  (exists proxy, in_proxies input !! nv_name n = Some proxy /\ px_all proxy = None /\
     n = build_node (nv_record_id n) (nv_name n) proxy (SourceCore (nv_name n))) \/
  (exists providers name provider proxy, in_providers input = Some providers /\
     providers !! name = Some provider /\ proxy ∈ pd_proxies provider /\
     n = build_node (nv_record_id n) (px_name proxy) proxy (SourceProvider name (px_name proxy))).

Definition in_view (v : ProxyViewV1) (g : ProxyGroupView) : Prop := g ∈ vw_groups v \/ vw_global v = Some g.

(** Where a member of a group leads. *)
Definition member_leads (input : ProxyViewInput) (v : ProxyViewV1) (m : ProxyMemberRef) : Prop :=
  match m with
  | MemberGroup name => exists g, in_view v g /\ gv_name g = name
  | MemberNode name id => exists n, vw_records v !! id = Some n /\ nv_name n = name
  | MemberUnresolved name _ => in_proxies input !! name = None
  end.

Section view.
Context (input : ProxyViewInput) (input_fits : fits input).

Let nodes := (partition_core (in_proxies input)).2.
Let groups := (partition_core (in_proxies input)).1.
Let core := build_core_records nodes.
Let provided := match in_providers input with Some m => m | None => ∅ end.
Let collected := build_provider_records (in_providers input) core.1.

Lemma nodes_lookup name proxy :
  nodes !! name = Some proxy <-> in_proxies input !! name = Some proxy /\ px_all proxy = None.
Proof.
  unfold nodes, partition_core. cbn. rewrite map_lookup_filter_Some. cbn.
  split; intros [? Hn]; (split; [done|]); [by destruct (px_all proxy); [destruct Hn|]|rewrite Hn; by intros []].
Qed.

Lemma groups_lookup name proxy :
  groups !! name = Some proxy <-> in_proxies input !! name = Some proxy /\ is_Some (px_all proxy).
Proof. unfold groups, partition_core. cbn. by rewrite map_lookup_filter_Some. Qed.

Lemma nodes_fit : index_ok (length (in_order nodes)).
Proof.
  rewrite in_order_perm, length_map_to_list. destruct input_fits as [Hf _]. unfold index_ok in *.
  enough (size nodes <= size (in_proxies input))%nat by lia. apply map_subseteq_size, map_filter_subseteq.
Qed.

(** The nodes of the core. *)
Lemma core_spec :
  (forall name proxy, nodes !! name = Some proxy -> exists i, core.2 !! name = Some (core_id i) /\
     core.1 !! core_id i = Some (core_record i name proxy)) /\
  (forall name id, core.2 !! name = Some id -> exists proxy, nodes !! name = Some proxy /\
     core.1 !! id = Some (build_node id name proxy (SourceCore name))) /\
  (forall id n, core.1 !! id = Some n -> (exists i, id = core_id i) /\ nv_record_id n = id /\ reported input n) /\
  (forall a b id, core.2 !! a = Some id -> core.2 !! b = Some id -> a = b).
Proof.
  pose proof nodes_fit as Hfit.
  assert (Hat : forall i name proxy, in_order nodes !! i = Some (name, proxy) ->
    core.2 !! name = Some (core_id i) /\ core.1 !! core_id i = Some (core_record i name proxy)).
  { intros i name proxy Hi. apply (core_records_at 0 (in_order nodes) (∅, ∅) i); [done|apply NoDup_in_order|done]. }
  destruct (core_records_inv 0 (in_order nodes) (∅, ∅)) as [Hr Hids]. fold (build_core_records nodes) in Hr, Hids. fold core in Hr, Hids.
  assert (Hid : forall name id, core.2 !! name = Some id -> exists i proxy,
    in_order nodes !! i = Some (name, proxy) /\ id = core_id i).
  { intros name id Hn. destruct (Hids name id Hn) as [?|?]; done. }
  split_and!.
  - intros name proxy Hn. apply elem_of_in_order, list_elem_of_lookup in Hn as [i Hi]. exists i. by apply Hat.
  - intros name id Hn. destruct (Hid name id Hn) as (i & proxy & Hi & ->). exists proxy.
    split; [by apply elem_of_in_order, list_elem_of_lookup; exists i|]. by apply Hat.
  - intros id n Hn. destruct (Hr id n Hn) as [?|(i & name & proxy & Hin & -> & ->)]; [done|].
    apply elem_of_in_order, nodes_lookup in Hin as [Hin Hall]. split; [by exists i|]. split; [done|].
    left. by exists proxy.
  - intros a b id Ha Hb. destruct (Hid a id Ha) as (i & p & Hi & ->). destruct (Hid b _ Hb) as (j & q & Hj & Heq).
    apply lookup_lt_Some in Hi as Hli. apply lookup_lt_Some in Hj as Hlj.
    apply core_id_inj in Heq as ->; [congruence|unfold index_ok in *; lia..].
Qed.

(** The providers. *)
Lemma provided_lookup name provider :
  provided !! name = Some provider -> exists providers, in_providers input = Some providers /\ providers !! name = Some provider.
Proof. unfold provided. destruct (in_providers input) as [m|]; [by exists m|done]. Qed.

Lemma provided_fit : index_ok (length (in_order provided)) /\ providers_ok (reported input) (in_order provided).
Proof.
  destruct input_fits as [_ Hf]. split.
  - rewrite in_order_perm, length_map_to_list. unfold provided. destruct (in_providers input); [by destruct Hf|].
    rewrite map_size_empty. done.
  - intros name provider Hin. apply elem_of_in_order, provided_lookup in Hin as (m & Hm & Hl). rewrite Hm in Hf.
    split; [by eapply Hf|]. intros p i proxy Hp. right. by exists m, name, provider, proxy.
Qed.

Lemma collected_spec :
  collected_ok (reported input) (length (in_order provided)) 0 collected.2 /\
  (forall i, collected.2.1 !! core_id i = core.1 !! core_id i) /\
  (forall name provider kind, provided !! name = Some provider -> vehicle_view (pd_vehicle_type provider) = Some kind ->
     exists pv, pv ∈ collected.1 /\ shows collected.2.1 name provider pv) /\
  (forall pv, pv ∈ collected.1 -> exists provider, provided !! pvw_name pv = Some provider /\
     shows collected.2.1 (pvw_name pv) provider pv).
Proof.
  destruct provided_fit as [Hl Hok]. destruct core_spec as (_ & _ & Hcore & _).
  unfold collected, build_provider_records. fold provided. split_and!.
  - apply (provider_records_ok (reported input) 0); [done|done|]. split; [intros id n Hn; by apply Hcore in Hn as (_ & ? & ?)|done].
  - intros i. apply provider_records_keep. intros p m _. apply core_id_not_member.
  - intros name provider kind Hp. apply (provider_records_views (reported input) 0 _ _ Hl Hok). by apply elem_of_in_order.
  - intros pv Hpv. destruct (provider_records_views (reported input) 0 (in_order provided) (core.1, ∅) Hl Hok) as [_ Hfrom].
    destruct (Hfrom pv Hpv) as (provider & Hin & Hs). exists provider. by rewrite <- elem_of_in_order.
Qed.

(** The view, in the terms of its parts. *)
Definition view_resolver : MemberResolver :=
  {| group_names := dom groups; core_node_ids := core.2; provider_candidates := collected.2.2;
     provider_available := is_some (in_providers input) |}.

Lemma build_parts :
  vw_records (build input) = collected.2.1 /\ vw_providers (build input) = collected.1 /\
  vw_direct (build input) = core.2 !! "DIRECT"%string /\ vw_standalone (build input) = build_standalone core.2 /\
  vw_global (build input) = option_map (fun proxy => build_group "GLOBAL" proxy view_resolver) (groups !! "GLOBAL"%string) /\
  vw_groups (build input) =
    (build_ordered_groups (delete "GLOBAL"%string groups) (runtime_group_order input) view_resolver).1.
Proof.
  unfold build, view_resolver, collected, core, groups, nodes. cbn [partition_core fst snd].
  destruct (build_core_records _) as [records ids]. cbn [fst snd].
  destruct (build_provider_records (in_providers input) records) as [views [records' candidates]]. cbn [fst snd].
  destruct (in_providers input); destruct (build_ordered_groups _ _ _) as [gs src]; done.
Qed.

Lemma groups_in_view g :
  in_view (build input) g -> exists name proxy, groups !! name = Some proxy /\ g = build_group name proxy view_resolver.
Proof.
  destruct build_parts as (_ & _ & _ & _ & Hglobal & Hgroups). unfold in_view. rewrite Hglobal, Hgroups.
  intros [Hg|Hg].
  - apply ordered_groups_spec in Hg as (name & proxy & [_ Hn]%lookup_delete_Some & ->). by exists name, proxy.
  - destruct (groups !! "GLOBAL"%string) as [proxy|] eqn:E; [|done]. injection Hg as <-. by exists "GLOBAL"%string, proxy.
Qed.

Lemma group_names_perm :
  map gv_name (vw_groups (build input)) ++ map gv_name (option_list (vw_global (build input))) ≡ₚ (map_to_list groups).*1.
Proof.
  destruct build_parts as (_ & _ & _ & _ & -> & ->).
  rewrite (proj1 (ordered_groups_spec _ _ _)). destruct (groups !! "GLOBAL"%string) as [proxy|] eqn:E; cbn.
  - pose proof (fmap_Permutation fst _ _ (map_to_list_delete groups "GLOBAL"%string proxy E)) as Hd.
    etransitivity; [|exact Hd]. by rewrite Permutation_app_comm.
  - rewrite delete_id by done. by rewrite app_nil_r.
Qed.

Lemma resolve_leads name : member_leads input (build input) (resolve view_resolver name).
Proof.
  destruct build_parts as (Hrec & _). destruct core_spec as (Hto & Hfrom & Hcr & _).
  destruct collected_spec as ([_ Hc] & Hkeep & _).
  unfold resolve. cbn [group_names core_node_ids provider_candidates provider_available view_resolver].
  case_bool_decide as Hg.
  { cbn [member_leads]. assert (Hn : name ∈ map gv_name (vw_groups (build input)) ++ map gv_name (option_list (vw_global (build input)))).
    { rewrite group_names_perm. apply elem_of_dom in Hg as [proxy Hg]. apply list_elem_of_fmap. exists (name, proxy).
      by rewrite elem_of_map_to_list. }
    apply elem_of_app in Hn as [Hn|Hn]; apply list_elem_of_In, in_map_iff in Hn as (g & Hname & Hin); exists g; (split; [|done]).
    - left. by apply list_elem_of_In.
    - right. destruct (vw_global (build input)) as [g0|] eqn:Eg; cbn in Hin; [|done]. by destruct Hin as [->|[]]. }
  assert (Hnone : core.2 !! name = None -> in_proxies input !! name = None).
  { intros Hi. destruct (in_proxies input !! name) as [proxy|] eqn:E; [|done]. exfalso.
    destruct (px_all proxy) eqn:Ea.
    - apply Hg, elem_of_dom. exists proxy. apply groups_lookup. by rewrite Ea.
    - destruct (Hto name proxy) as (i & Hi' & _); [by apply nodes_lookup|]. congruence. }
  destruct (core.2 !! name) as [id|] eqn:Ei.
  - cbn [member_leads]. destruct (Hfrom name id Ei) as (proxy & _ & Hr). exists (build_node id name proxy (SourceCore name)).
    destruct (Hcr id _ Hr) as [[i ->] _]. rewrite Hrec, Hkeep. done.
  - destruct (negb (is_some (in_providers input))); [by apply Hnone|].
    destruct (collected.2.2 !! name) as [l|] eqn:El; [|by apply Hnone].
    assert (Hone : forall id, id ∈ l -> exists n, vw_records (build input) !! id = Some n /\ nv_name n = name).
    { intros id Hin. rewrite Hrec. destruct (Hc name l id El Hin) as (p & m & n & _ & _ & _ & _ & Hn & Hname). by exists n. }
    destruct l as [|id [|id' l]]; [by apply Hnone|apply Hone; left|by apply Hnone].
Qed.
End view.

(** The proxy view shown to the user is complete and consistent: every record is
    under its identifier and shows a reported node, every node of the core and
    every member of a fetched provider has a record, every group is shown once,
    and a group's member leads to the group or node it names or says why it does
    not. *)
Theorem proxy_view_is_consistent input :
  fits input ->
  (* a record is under its own identifier and shows a node of the reports *)
  (forall id n, vw_records (build input) !! id = Some n -> nv_record_id n = id /\ reported input n) /\
  (* every node of the core has its record, which is listed once as standalone *)
  NoDup (vw_standalone (build input)) /\
  (forall name proxy, in_proxies input !! name = Some proxy -> px_all proxy = None ->
     exists id, id ∈ vw_standalone (build input) /\
       vw_records (build input) !! id = Some (build_node id name proxy (SourceCore name))) /\
  (* every provider that is fetched or read has its view, with a record per member *)
  (forall providers name provider kind, in_providers input = Some providers -> providers !! name = Some provider ->
     vehicle_view (pd_vehicle_type provider) = Some kind ->
     exists pv, pv ∈ vw_providers (build input) /\ shows (vw_records (build input)) name provider pv) /\
  (* every group of the core is shown once *)
  map gv_name (vw_groups (build input)) ++ map gv_name (option_list (vw_global (build input))) ≡ₚ
    (map_to_list (partition_core (in_proxies input)).1).*1 /\
  (* a member of a group leads to what it names, or names nothing the core reported *)
  (forall g m, in_view (build input) g -> m ∈ gv_members g -> member_leads input (build input) m).
Proof.
  intros Hfit. destruct (build_parts input) as (Hrec & Hprov & _ & Hst & _).
  destruct (core_spec input Hfit) as (Hto & Hfrom & Hcr & Hinj).
  destruct (collected_spec input Hfit) as ([Hr _] & Hkeep & Hviews & _). rewrite Hrec, Hprov, Hst. split_and!.
  - exact Hr.
  - rewrite standalone_perm. apply NoDup_fmap_2_strong; [|apply NoDup_map_to_list].
    intros [a x] [b y] Ha Hb. cbn. intros ->. apply elem_of_map_to_list in Ha, Hb. f_equal. by eapply Hinj.
  - intros name proxy Hp Hall. destruct (Hto name proxy) as (i & Hi & Hri); [by apply nodes_lookup|].
    exists (core_id i). split; [|by rewrite Hkeep]. rewrite standalone_perm. apply list_elem_of_fmap.
    exists (name, core_id i). by rewrite elem_of_map_to_list.
  - intros providers name provider kind Hp Hl Hk. eapply Hviews; [|exact Hk]. by rewrite Hp.
  - apply group_names_perm.
  - intros g m Hg Hm. apply groups_in_view in Hg as (name & proxy & _ & ->). cbn in Hm.
    apply list_elem_of_fmap in Hm as (n & -> & _). by apply resolve_leads.
Qed.
