(* ===== verification/Enhance.v ===== *)
(** * Enhance: from a profile to the configuration of the core

    [src-tauri/src/enhance/]: sequences ([seq.rs]), merging ([merge.rs]), fields
    ([field.rs]), the TUN block ([tun.rs]), the chain items ([chain.rs]) and the pipeline
    of [mod.rs].  The script engine is the class [ScriptEngine]; the files and settings
    the pipeline gathers first are its arguments. *)

From Stdlib Require Import Ascii String.
From S2P Require Import Prelude Text IpAddr Yaml ProfileItem.

(** ** fields *)

Definition HANDLE_FIELDS : list string :=
  ["mode"; "redir-port"; "tproxy-port"; "mixed-port"; "socks-port"; "port"; "allow-lan"; "log-level";
   "ipv6"; "external-controller"; "secret"; "unified-delay"]%string.

Definition DEFAULT_FIELDS : list string :=
  ["proxies"; "proxy-providers"; "proxy-groups"; "rule-providers"; "rules"]%string.

Definition lowercase_key (key : string) : Value := VString (to_ascii_lowercase key).

Definition use_lowercase (config : Mapping) : Mapping :=
  fold_left (fun lowercased e => match as_str e.1 with
                                 | Some key => m_insert (lowercase_key key) e.2 lowercased
                                 | None => lowercased
                                 end) config [].

Definition use_keys (config : Mapping) : list string :=
  omap (fun e => option_map to_ascii_lowercase (as_str e.1)) config.

(** ** merging *)

Fixpoint deep_merge (a b : Value) {struct b} : Value :=
  match b with
  | VMapping b_map =>
      match a with
      | VMapping a_map =>
          VMapping ((fix go (b_map a_map : Mapping) : Mapping :=
            match b_map with
            | [] => a_map
            | (key, value) :: b_map =>
                go b_map (match m_get key a_map with
                          | Some existing => m_insert key (deep_merge existing value) a_map
                          | None => m_insert key value a_map
                          end)
            end) b_map a_map)
      | _ => b
      end
  | _ => b
  end.

Definition use_merge (merge config : Mapping) : Mapping :=
  match as_mapping (deep_merge (VMapping config) (VMapping (use_lowercase merge))) with
  | Some m => m
  | None => []
  end.

(** ** sequences *)

Record SeqMap := { prepend : Sequence; append : Sequence; seq_delete : list string }.
Definition SeqMap_default : SeqMap := {| prepend := []; append := []; seq_delete := [] |}.

Definition proxy_name (item : Value) : option string :=
  match item with
  | VMapping map => get_str "name" map ≫= as_str
  | VString name => Some name
  | _ => None
  end.

Definition collect_proxy_names (seq : Sequence) : list string := omap proxy_name seq.

Definition is_selector_group (group_map : Mapping) : bool :=
  match get_str "type" group_map ≫= as_str with
  | Some value => let value := to_ascii_lowercase value in
                  bool_decide (value = "select"%string) || bool_decide (value = "selector"%string)
  | None => false
  end.

(** [filter(|name| seen.insert(name.clone()))]: the first occurrence of each. *)
Fixpoint first_occurrences (seen : gset string) (names : list string) : list string :=
  match names with
  | [] => []
  | name :: names => if bool_decide (name ∈ seen) then first_occurrences seen names
                     else name :: first_occurrences ({[name]} ∪ seen) names
  end.

Definition added_proxy_names (seq : SeqMap) (field : string) : list string :=
  if bool_decide (field = "proxies"%string)
  then first_occurrences ∅ (collect_proxy_names (prepend seq) ++ collect_proxy_names (append seq))
  else [].

(** An item that is not deleted. *)
Definition item_kept (deleted : list string) (item : Value) : bool :=
  match item with
  | VString s => negb (bool_decide (s ∈ deleted))
  | VMapping m => match get_str "name" m with
                  | Some (VString name) => negb (bool_decide (name ∈ deleted))
                  | _ => true
                  end
  | _ => true
  end.

(** A reference that is not deleted. *)
Definition reference_kept (deleted : list string) (reference : Value) : bool :=
  match reference with VString name => negb (bool_decide (name ∈ deleted)) | _ => true end.

(** The values of a group that are not already there by name. *)
Fixpoint unseen_values (seen : gset string) (l : Sequence) : Sequence :=
  match l with
  | [] => []
  | VString name :: l => if bool_decide (name ∈ seen) then unseen_values seen l
                         else VString name :: unseen_values ({[name]} ∪ seen) l
  | value :: l => value :: unseen_values seen l
  end.

Section sequences.
Context `{MappingLib}.

(** One group of the loop; the flag says whether a selector was extended before. *)
Definition update_group (deleted added : list string) (appended : bool) (group_map : Mapping)
  : bool * Mapping :=
  let (removed, group_map) := remove_str "proxies" group_map in
  let (group_proxies, group_map) :=
    match removed with
    | Some (VSequence proxies) =>
        (Some (filter (fun p => reference_kept deleted p = true) proxies), group_map)
    | Some value => (None, insert_str "proxies" value group_map)
    | None => (None, group_map)
    end in
  let extends := negb appended && negb (bool_decide (added = [])) && is_selector_group group_map in
  let group_proxies :=
    if extends then
      let base := match group_proxies with Some l => l | None => [] end in
      Some (map VString added ++ unseen_values (list_to_set added) base)
    else group_proxies in
  (appended || extends,
   match group_proxies with
   | Some l => insert_str "proxies" (VSequence l) group_map
   | None => group_map
   end).

Fixpoint update_groups (deleted added : list string) (appended : bool) (groups : Sequence) : Sequence :=
  match groups with
  | [] => []
  | VMapping group_map :: groups =>
      let (appended, group_map) := update_group deleted added appended group_map in
      VMapping group_map :: update_groups deleted added appended groups
  | group :: groups => group :: update_groups deleted added appended groups
  end.

Definition use_seq (seq : SeqMap) (config : Mapping) (field : string) : Mapping :=
  let added := added_proxy_names seq field in
  let (existing, config) := remove_str field config in
  let kept := match existing with
              | Some (VSequence l) => filter (fun item => item_kept (seq_delete seq) item = true) l
              | _ => []
              end in
  let config := insert_str field (VSequence (prepend seq ++ kept ++ append seq)) config in
  if negb (bool_decide (field = "proxies"%string)) then config
  else
    match remove_str "proxy-groups" config with
    | (None, config) => config
    | (Some (VSequence groups), config) =>
        insert_str "proxy-groups" (VSequence (update_groups (seq_delete seq) added false groups)) config
    | (Some value, config) => insert_str "proxy-groups" value config
    end.

(** ** order *)

(** The fields that are there move from [config] to [sorted]. *)
Definition move_field (acc : Mapping * Mapping) (key : string) : Mapping * Mapping :=
  let (config, sorted) := acc in
  match remove_str key config with
  | (Some value, config) => (config, insert_str key value sorted)
  | (None, config) => (config, sorted)
  end.

(** The middle loop: default fields wait, the others follow; other keys are dropped. *)
Definition place_field (acc : Mapping * Mapping) (e : Value * Value) : Mapping * Mapping :=
  let (defaults, sorted) := acc in
  match as_str e.1 with
  | Some key =>
      if bool_decide (key ∈ DEFAULT_FIELDS) then (m_insert e.1 e.2 defaults, sorted)
      else if negb (bool_decide (key ∈ HANDLE_FIELDS)) then (defaults, m_insert e.1 e.2 sorted)
      else (defaults, sorted)
  | None => (defaults, sorted)
  end.

Definition use_sort (config : Mapping) : Mapping :=
  let (config, sorted) := fold_left move_field HANDLE_FIELDS (config, []) in
  let (defaults, sorted) := fold_left place_field config ([], sorted) in
  (fold_left move_field DEFAULT_FIELDS (defaults, sorted)).2.
End sequences.

(** ** the TUN block *)

Definition mapping_at (k : string) (config : Mapping) : Mapping :=
  match get_str k config ≫= as_mapping with Some m => m | None => [] end.

Definition bool_at (k : string) (config : Mapping) : bool :=
  match get_str k config ≫= as_bool with Some b => b | None => false end.

Definition insert_missing (k : string) (v : Value) (m : Mapping) : Mapping :=
  if contains_key k m then m else insert_str k v m.

Definition tun_dns (dns_val : Mapping) (ipv6_val : bool) : Mapping :=
  let current_mode := match get_str "enhanced-mode" dns_val ≫= as_str with Some s => s | None => "fake-ip"%string end in
  if bool_decide (current_mode = "fake-ip"%string) || negb (contains_key "enhanced-mode" dns_val) then
    let dns_val := insert_str "enable" (VBool true) dns_val in
    let dns_val := insert_str "ipv6" (VBool ipv6_val) dns_val in
    let dns_val := insert_missing "enhanced-mode" (VString "fake-ip") dns_val in
    let dns_val := insert_missing "fake-ip-range" (VString "198.18.0.1/16") dns_val in
    if ipv6_val then insert_missing "fake-ip-range6" (VString "fdfe:dcba:9876::1/64") dns_val else dns_val
  else dns_val.

Definition use_tun (config : Mapping) (enable : bool) : Mapping :=
  let tun_val := mapping_at "tun" config in
  let config :=
    if enable then insert_str "dns" (VMapping (tun_dns (mapping_at "dns" config) (bool_at "ipv6" config))) config
    else config in
  insert_str "tun" (VMapping (insert_str "enable" (VBool enable) tun_val)) config.

(** ** chain items *)

Inductive ChainType : Type :=
| ChMerge (m : Mapping)
| ChScript (s : string)
| ChRules (s : SeqMap)
| ChProxies (s : SeqMap)
| ChGroups (s : SeqMap).

Record ChainItem := { ch_uid : string; ch_data : ChainType }.

Inductive ChainSupport : Type := ClashMeta | ClashMetaAlpha.

Definition is_support (self : ChainSupport) (core : option string) : bool :=
  match core with
  | Some core =>
      match self with
      | ClashMeta => bool_decide (core = "verge-mihomo"%string)
      | ClashMetaAlpha => bool_decide (core = "verge-mihomo-alpha"%string)
      end
  | None => true
  end.

(** The files of the profiles directory, as the readers of [help.rs] give them. *)
Class ChainFiles := {
  chain_path_exists : string -> bool;
  read_script : string -> option string;
  read_mapping : string -> option Mapping;
  read_seq_map : string -> option SeqMap;
}.

Definition chain_item_from `{ChainFiles} (item : PrfItem) : option ChainItem :=
  match itype item, file item with
  | Some kind, Some name =>
      let u := match uid item with Some u => u | None => ""%string end in
      let made (data : option ChainType) := option_map (fun d => {| ch_uid := u; ch_data := d |}) data in
      if negb (chain_path_exists name) then None
      else if bool_decide (kind = "script"%string) then made (option_map ChScript (read_script name))
      else if bool_decide (kind = "merge"%string) then made (option_map ChMerge (read_mapping name))
      else if bool_decide (kind = "rules"%string) then made (option_map ChRules (read_seq_map name))
      else if bool_decide (kind = "proxies"%string) then made (option_map ChProxies (read_seq_map name))
      else if bool_decide (kind = "groups"%string) then made (option_map ChGroups (read_seq_map name))
      else None
  | _, _ => None
  end.

Definition chain_item_or_default `{ChainFiles} (item : option PrfItem) (default_item : ChainItem) : ChainItem :=
  match item with
  | Some item => match chain_item_from item with Some c => c | None => default_item end
  | None => default_item
  end.

(** ** the control plane *)

Inductive Platform : Type := Windows | Linux | OtherUnix.
#[global] Instance Platform_eq_dec : EqDecision Platform.
Proof. solve_decision. Defined.

Definition CONTROL_PLANE_KEYS (platform : Platform) : list string :=
  ["external-controller"%string] ++
  (match platform with Windows => ["external-controller-pipe"] | _ => ["external-controller-unix"] end)%string ++
  ["external-controller-cors"; "secret"; "mixed-port"; "socks-port"; "port"]%string ++
  (match platform with Windows => [] | _ => ["redir-port"%string] end) ++
  (match platform with Linux => ["tproxy-port"%string] | _ => [] end) ++
  ["tun"; "mode"; "allow-lan"; "log-level"; "ipv6"; "unified-delay"]%string.

Definition snapshot_control_plane (platform : Platform) (config : Mapping) : Mapping :=
  fold_left (fun snapshot key => match get_str key config with
                                 | Some value => insert_str key value snapshot
                                 | None => snapshot
                                 end) (CONTROL_PLANE_KEYS platform) [].

Section control_plane.
Context `{MappingLib}.

Definition enforce_control_plane (platform : Platform) (config snapshot : Mapping) : Mapping :=
  m_extend (fold_left (fun config key =>
    if contains_key key snapshot then config else (remove_str key config).2) (CONTROL_PLANE_KEYS platform) config)
    snapshot.
End control_plane.

Definition snapshot_dns_ipv6 (config : Mapping) : option Value := get_str "dns" config ≫= value_get "ipv6".

(** Only a [dns] that is a mapping itself, not a tagged one. *)
Definition enforce_dns_ipv6 (config : Mapping) (dns_ipv6 : option Value) : Mapping :=
  match dns_ipv6 with
  | Some v => match get_str "dns" config with
              | Some (VMapping dns) => insert_str "dns" (VMapping (insert_str "ipv6" v dns)) config
              | _ => config
              end
  | None => config
  end.

(** ** the bind address *)

(** [str::trim] on the bytes: whitespace characters at both ends. *)
Definition char_len (c : Z) : nat :=
  if c <? 128 then 1 else if c <? 2048 then 2 else if c <? 65536 then 3 else 4.
Fixpoint trim_start (fuel : nat) (l : list ascii) : list ascii :=
  match fuel, chars_bytes l with
  | S fuel, c :: _ => if char_is_whitespace c then trim_start fuel (drop (char_len c) l) else l
  | _, _ => l
  end.
Fixpoint trim_end (fuel : nat) (l : list ascii) : list ascii :=
  match fuel, last (chars_bytes l) with
  | S fuel, Some c => if char_is_whitespace c then trim_end fuel (take (length l - char_len c) l) else l
  | _, _ => l
  end.
Definition trim (s : string) : string :=
  let l := bytes s in str (trim_end (length l) (trim_start (length l) l)).

(** [str.split('.').map(parse::<u32>).collect()]. *)
Definition is_ipv4_shorthand_loopback (addr : string) : bool :=
  match rmapM (fun part => ok_or (parse_uint u32_max part) tt) (split addr "."%char) with
  | Ok [first; rest] => (first =? 127) && (rest <=? 16777215)
  | Ok [first; second; rest] => (first =? 127) && (second <=? 255) && (rest <=? 65535)
  | Ok [first; second; third; fourth] =>
      (first =? 127) && (second <=? 255) && (third <=? 255) && (fourth <=? 255)
  | _ => false
  end.

(** [IpAddr::is_loopback]. *)
Definition is_loopback (a : IpAddr) : bool :=
  match a with V4 x => Z.shiftr x 24 =? 127 | V6 x => x =? 1 end.

Definition is_loopback_bind_address (addr : string) : bool :=
  let addr := trim addr in
  let addr := match strip_prefix addr "[" with
              | Some inner => match strip_suffix inner "]" with Some a => a | None => addr end
              | None => addr
              end in
  bool_decide (to_ascii_lowercase addr = "localhost"%string)
  || match parse_ip addr with Some a => is_loopback a | None => false end
  || is_ipv4_shorthand_loopback addr.

Definition ensure_lan_bind_address (config : Mapping) : Mapping :=
  if bool_at "allow-lan" config
    && match get_str "bind-address" config ≫= as_str with
       | Some addr => is_loopback_bind_address addr
       | None => false
       end
  then insert_str "bind-address" (VString "*") config
  else config.
