(* ===== verification/EnhancePipeline.v ===== *)
(** * EnhancePipeline: the steps of [enhance]

    [src-tauri/src/enhance/mod.rs]: gathering the items of the current profile, the
    application's own settings, the manual overrides, and the clean-up at the end. *)

From Stdlib Require Import Ascii String.
From S2P Require Import Prelude Text IpAddr Yaml ProfileItem Profiles Enhance.

Notation ResultLog := (list (string * string)).

(** [use_script]: the configuration and the log, or the text of the exception. *)
Class ScriptEngine := {
  use_script : string -> Mapping -> string -> result (Mapping * ResultLog) string;
  (* the four built-in scripts *)
  BUILTIN : list (ChainSupport * ChainItem);
}.

Record ConfigValues := {
  cv_clash_config : Mapping;
  cv_clash_core : option string;
  cv_enable_tun : bool;
  cv_enable_builtin : bool;
  cv_socks_enabled : bool;
  cv_http_enabled : bool;
  cv_enable_dns_settings : bool;
  cv_redir_enabled : bool;
  cv_tproxy_enabled : bool;
  (* read in [merge_default_config] *)
  cv_enable_external_controller : bool;
}.

Record ProfileItems := {
  pi_config : Mapping;
  pi_merge_item : ChainItem;
  pi_script_item : ChainItem;
  pi_rules_item : ChainItem;
  pi_proxies_item : ChainItem;
  pi_groups_item : ChainItem;
  pi_global_merge : ChainItem;
  pi_global_script : ChainItem;
  pi_profile_name : string;
}.

Definition merge_default (u : string) : ChainItem := {| ch_uid := u; ch_data := ChMerge [] |}.
Definition script_default (u : string) : ChainItem := {| ch_uid := u; ch_data := ChScript ITEM_SCRIPT |}.
Definition rules_default : ChainItem := {| ch_uid := ""; ch_data := ChRules SeqMap_default |}.
Definition proxies_default : ChainItem := {| ch_uid := ""; ch_data := ChProxies SeqMap_default |}.
Definition groups_default : ChainItem := {| ch_uid := ""; ch_data := ChGroups SeqMap_default |}.

Definition ProfileItems_default : ProfileItems :=
  {| pi_config := []; pi_merge_item := merge_default ""; pi_script_item := script_default "";
     pi_rules_item := rules_default; pi_proxies_item := proxies_default; pi_groups_item := groups_default;
     pi_global_merge := merge_default "Merge"; pi_global_script := script_default "Script";
     pi_profile_name := "" |}.

(** ** the items of the current profile *)

Section collect.
Context `{ChainFiles}.

(** [IProfiles::current_mapping]; [None] where the file cannot be read. *)
Definition current_mapping (self : IProfiles) : option Mapping :=
  match current self, items self with
  | Some c, Some l =>
      match find (has_uid c) l with
      | Some item => file item ≫= read_mapping
      | None => None
      end
  | _, _ => Some []
  end.

Definition item_of (self : IProfiles) (u : string) : option PrfItem :=
  match get_item self u with Ok item => Some item | Err _ => None end.

Definition or_named (given : option string) (name : string) : string :=
  match given with Some u => u | None => name end.

(** [None]: the current profile cannot be read. *)
Definition collect_profile_items (self : IProfiles) : option ProfileItems :=
  match current self with
  | None => Some ProfileItems_default
  | Some c =>
      match current_mapping self, item_of self c with
      | Some config, Some item =>
          let chain u default := chain_item_or_default (item_of self u) default in
          Some {| pi_config := config;
                  pi_merge_item := chain (or_named (current_merge item) "Merge") (merge_default "");
                  pi_script_item := chain (or_named (current_script item) "Script") (script_default "");
                  pi_rules_item := chain (or_named (current_rules item) "Rules") rules_default;
                  pi_proxies_item := chain (or_named (current_proxies item) "Proxies") proxies_default;
                  pi_groups_item := chain (or_named (current_groups item) "Groups") groups_default;
                  pi_global_merge := chain "Merge"%string (merge_default "Merge");
                  pi_global_script := chain "Script"%string (script_default "Script");
                  pi_profile_name := or_named (item_name item) "" |}
      | _, _ => None
      end
  end.
End collect.

(** ** the steps *)

Section pipeline.
Context `{MappingLib} `{ScriptEngine}.
Context (platform : Platform).

Definition process_seq_items (config : Mapping) (rules_item proxies_item groups_item : ChainItem) : Mapping :=
  let config := match ch_data rules_item with ChRules rules => use_seq rules config "rules" | _ => config end in
  let config := match ch_data proxies_item with ChProxies l => use_seq l config "proxies" | _ => config end in
  match ch_data groups_item with ChGroups l => use_seq l config "proxy-groups" | _ => config end.

(** The keys a script changed, in lower case. *)
Definition changed_keys (config res_config : Mapping) : list string :=
  omap (fun e => if bool_decide (m_get e.1 config = Some e.2) then None
                 else option_map to_ascii_lowercase (as_str e.1)) res_config.

(** The manual overrides of one level: a merge, then a script. *)
Definition process_items (st : Mapping * list string * gmap string ResultLog)
  (merge_item script_item : ChainItem) (profile_name : string)
  : Mapping * list string * gmap string ResultLog :=
  let '(config, exists_keys, result_map) := st in
  let '(config, exists_keys) :=
    match ch_data merge_item with
    | ChMerge merge => (use_merge merge config, exists_keys ++ use_keys merge)
    | _ => (config, exists_keys)
    end in
  match ch_data script_item with
  | ChScript script =>
      match use_script script config profile_name with
      | Ok (res_config, res_logs) =>
          (res_config, exists_keys ++ changed_keys config res_config,
           <[ch_uid script_item := res_logs]> result_map)
      | Err err =>
          (config, exists_keys, <[ch_uid script_item := [("exception"%string, err)]]> result_map)
      end
  | _ => (config, exists_keys, result_map)
  end.

Definition process_global_items := process_items.
Definition process_profile_items := process_items.

(** One entry of the application's configuration. *)
Definition merge_default_entry (cv : ConfigValues) (config : Mapping) (e : Value * Value) : Mapping :=
  let (key, value) := e in
  let key_is name := bool_decide (as_str key = Some name) in
  let removed name := (remove_str name config).2 in
  if key_is "tun"%string then
    let patch_tun := match as_mapping value with Some m => m | None => [] end in
    insert_str "tun" (VMapping (m_extend (mapping_at "tun" config) patch_tun)) config
  else if key_is "socks-port"%string && negb (cv_socks_enabled cv) then removed "socks-port"%string
  else if key_is "port"%string && negb (cv_http_enabled cv) then removed "port"%string
  else if key_is "redir-port"%string && bool_decide (platform = Windows) then config
  else if key_is "redir-port"%string && negb (cv_redir_enabled cv) then removed "redir-port"%string
  else if key_is "tproxy-port"%string && bool_decide (platform = Linux) && negb (cv_tproxy_enabled cv)
  then removed "tproxy-port"%string
  else if key_is "tproxy-port"%string && negb (bool_decide (platform = Linux)) then removed "tproxy-port"%string
  else if key_is "external-controller"%string then
    m_insert key (if cv_enable_external_controller cv then value else VString "") config
  else m_insert key value config.

Definition merge_default_config (cv : ConfigValues) (config : Mapping) : Mapping :=
  fold_left (merge_default_entry cv) (cv_clash_config cv) config.

Definition run_builtin (config : Mapping) (item : ChainItem) : Mapping :=
  match ch_data item with
  | ChScript script => match use_script script config "" with Ok (res_config, _) => res_config | Err _ => config end
  | _ => config
  end.

Definition apply_builtin_scripts (config : Mapping) (clash_core : option string) (enable_builtin : bool)
  : Mapping :=
  if enable_builtin
  then fold_left run_builtin (map snd (filter (fun e => is_support e.1 clash_core = true) BUILTIN)) config
  else config.

Definition ensure_fake_ip_range6 (dns : Mapping) : Mapping :=
  let ipv6_enabled := bool_at "ipv6" dns in
  let is_fake_ip := match get_str "enhanced-mode" dns ≫= as_str with
                    | Some m => bool_decide (m = "fake-ip"%string)
                    | None => true
                    end in
  let range6_missing := match get_str "fake-ip-range6" dns ≫= as_str with
                        | Some s => is_empty (trim s)
                        | None => true
                        end in
  if ipv6_enabled && is_fake_ip && range6_missing
  then insert_str "fake-ip-range6" (VString "fdfe:dcba:9876::1/64") dns
  else dns.

(** [dns_file]: the contents of the DNS file where it can be read and parsed. *)
Definition apply_dns_settings (config : Mapping) (enable_dns_settings : bool) (dns_file : option Mapping)
  : Mapping :=
  match (if enable_dns_settings then dns_file else None) with
  | Some dns_config =>
      let config := match get_str "hosts" dns_config with
                    | Some hosts_value => if is_some (as_mapping hosts_value)
                                          then insert_str "hosts" hosts_value config else config
                    | None => config
                    end in
      match get_str "dns" dns_config with
      | Some dns_value =>
          match as_mapping dns_value with
          | Some dns_mapping => insert_str "dns" (VMapping (ensure_fake_ip_range6 dns_mapping)) config
          | None => config
          end
      | None => insert_str "dns" (VMapping (ensure_fake_ip_range6 dns_config)) config
      end
  | None => config
  end.

(** ** the clean-up of the groups *)

Definition BUILTIN_POLICIES : list string := ["DIRECT"; "REJECT"; "REJECT-DROP"; "PASS"]%string.

Definition names_at (k : string) (name_of : Value -> option string) (config : Mapping) : gset string :=
  match get_str k config ≫= as_sequence with
  | Some l => list_to_set (omap name_of l)
  | None => ∅
  end.

Definition group_name (item : Value) : option string :=
  match as_mapping item with Some map => get_str "name" map ≫= as_str | None => None end.

Definition provider_names (config : Mapping) : gset string :=
  match get_str "proxy-providers" config ≫= as_mapping with
  | Some map => list_to_set (omap as_str map.*1)
  | None => ∅
  end.

Definition allowed_names (config : Mapping) : gset string :=
  names_at "proxies" proxy_name config ∪ names_at "proxy-groups" group_name config
  ∪ provider_names config ∪ list_to_set BUILTIN_POLICIES.

(** A provider that exists. *)
Definition provider_exists (providers : gset string) (v : Value) : bool :=
  match v with VString name => bool_decide (name ∈ providers) | _ => false end.

Definition member_kept (allowed : gset string) (has_valid_provider : bool) (v : Value) : bool :=
  match v with VString name => bool_decide (name ∈ allowed) || has_valid_provider | _ => true end.

Definition cleanup_group (allowed providers : gset string) (group_map : Mapping) : Mapping :=
  let '(has_valid_provider, group_map) :=
    match get_str "use" group_map with
    | Some (VSequence uses) =>
        (existsb (provider_exists providers) uses,
         insert_str "use" (VSequence (filter (fun v => provider_exists providers v = true) uses)) group_map)
    | _ => (false, group_map)
    end in
  match get_str "proxies" group_map with
  | Some (VSequence proxies) =>
      insert_str "proxies"
        (VSequence (filter (fun v => member_kept allowed has_valid_provider v = true) proxies)) group_map
  | _ => group_map
  end.

Definition cleanup_proxy_groups (config : Mapping) : Mapping :=
  let allowed := allowed_names config in
  let providers := provider_names config in
  match get_str "proxy-groups" config with
  | Some (VSequence groups) =>
      insert_str "proxy-groups" (VSequence (map (edit_mapping (cleanup_group allowed providers)) groups)) config
  | _ => config
  end.

(** ** the pipeline *)

(** What the application makes of the profile, before any manual override. *)
Definition app_config (cv : ConfigValues) (profile : ProfileItems) (dns_file : option Mapping) : Mapping :=
  let config := process_seq_items (pi_config profile) (pi_rules_item profile) (pi_proxies_item profile)
                  (pi_groups_item profile) in
  let config := merge_default_config cv config in
  let config := apply_builtin_scripts config (cv_clash_core cv) (cv_enable_builtin cv) in
  let config := use_tun config (cv_enable_tun cv) in
  apply_dns_settings config (cv_enable_dns_settings cv) dns_file.

Definition enhance (cv : ConfigValues) (profile : ProfileItems) (dns_file : option Mapping)
  : Mapping * gset string * gmap string ResultLog :=
  let exists_keys := use_keys (process_seq_items (pi_config profile) (pi_rules_item profile)
                                 (pi_proxies_item profile) (pi_groups_item profile)) in
  let config := app_config cv profile dns_file in
  let control_plane := snapshot_control_plane platform config in
  let dns_ipv6 := if cv_enable_dns_settings cv then snapshot_dns_ipv6 config else None in
  let st := process_global_items (config, exists_keys, ∅) (pi_global_merge profile)
              (pi_global_script profile) (pi_profile_name profile) in
  let '(config, exists_keys, result_map) :=
    process_profile_items st (pi_merge_item profile) (pi_script_item profile) (pi_profile_name profile) in
  let config := enforce_control_plane platform config control_plane in
  let config := enforce_dns_ipv6 config dns_ipv6 in
  let config := ensure_lan_bind_address config in
  let config := cleanup_proxy_groups config in
  let config := use_sort config in
  (config, list_to_set exists_keys, result_map).
End pipeline.
