(* ===== verification/EnhanceSafety.v ===== *)
(** * EnhanceSafety: what the pipeline guarantees of the final configuration

    Sorting loses no field; the control plane is the application's, whatever merges and
    scripts do; merging twice is merging once; groups refer to what exists. *)

From Stdlib Require Import Ascii String.
From S2P Require Import Prelude Text IpAddr Yaml ProfileItem Profiles Enhance EnhancePipeline.

Lemma get_str_cons k key v l :
  get_str k ((key, v) :: l) = if decide (key = VString k) then Some v else get_str k l.
Proof. reflexivity. Qed.

Lemma mwf_insert_str k v m : mwf m -> mwf (insert_str k v m).
Proof. apply mwf_insert. Qed.
#[export] Hint Resolve mwf_insert_str : yaml.

Section sorting.
Context `{MappingLaws}.

Lemma get_remove_str k k' m : mwf m ->
  get_str k (remove_str k' m).2 = if decide (k = k') then None else get_str k m.
Proof.
  intros Hm. destruct (remove_str_spec k' m Hm) as (_ & _ & Hg). unfold get_str. rewrite Hg.
  destruct (decide (k = k')) as [->|Hne]; [by rewrite decide_True|]. rewrite decide_False by congruence. done.
Qed.

Lemma mwf_remove_str k m : mwf m -> mwf (remove_str k m).2.
Proof. intros Hm. by destruct (remove_str_spec k m Hm) as (_ & ? & _). Qed.

(** ** sorting *)

(** The two mappings of a loop, seen as one: each field is in one of them. *)
Definition both (acc : Mapping * Mapping) (k : string) : option Value :=
  match get_str k acc.2 with Some v => Some v | None => get_str k acc.1 end.

Record split_ok (acc : Mapping * Mapping) : Prop := {
  so_left : mwf acc.1;
  so_right : mwf acc.2;
  so_disjoint : forall k, get_str k acc.1 = None \/ get_str k acc.2 = None;
}.

Lemma move_field_ok acc key :
  split_ok acc -> split_ok (move_field acc key) /\
  (forall k, both (move_field acc key) k = both acc k) /\
  (forall k, get_str k (move_field acc key).1 = if decide (k = key) then None else get_str k acc.1).
Proof.
  intros [Hl Hr Hd]. destruct acc as [c s]. cbn [fst snd] in *. unfold move_field.
  pose proof (remove_str_spec key c Hl) as (Hv & Hw & _). pose proof (fun k => get_remove_str k key c Hl) as Hg.
  destruct (remove_str key c) as [[v|] c']; cbn [fst snd] in *.
  - assert (Hks : get_str key s = None) by (destruct (Hd key) as [Hn|Hn]; [congruence|done]).
    split_and!; [split; cbn [fst snd]; [done|by apply mwf_insert|]|..].
    + intros k. rewrite Hg, get_insert_str. destruct (decide (k = key)); [by left|apply Hd].
    + intros k. unfold both. cbn [fst snd]. rewrite Hg, get_insert_str. destruct (decide (k = key)) as [->|]; [|done].
      by rewrite Hks, <- Hv.
    + exact Hg.
  - split_and!; [split; cbn [fst snd]; [done|done|]|..].
    + intros k. rewrite Hg. destruct (decide (k = key)); [by left|apply Hd].
    + intros k. unfold both. cbn [fst snd]. rewrite Hg. destruct (decide (k = key)) as [->|]; [|done]. by rewrite <- Hv.
    + exact Hg.
Qed.

Lemma move_fields_ok keys acc :
  split_ok acc -> split_ok (fold_left move_field keys acc) /\
  (forall k, both (fold_left move_field keys acc) k = both acc k) /\
  (forall k, get_str k (fold_left move_field keys acc).1 = if decide (k ∈ keys) then None else get_str k acc.1).
Proof.
  revert acc. induction keys as [|key keys IH]; intros acc Hok; cbn [fold_left].
  { split_and!; [done..|]. intros k. by rewrite decide_False by apply not_elem_of_nil. }
  destruct (move_field_ok acc key Hok) as (Hok1 & Hb1 & Hg1). destruct (IH _ Hok1) as (Hok2 & Hb2 & Hg2).
  split_and!; [done|intros k; by rewrite Hb2, Hb1|]. intros k. rewrite Hg2, Hg1.
  destruct (decide (k ∈ keys)) as [Hin|Hn]; [by rewrite decide_True by by right|].
  destruct (decide (k = key)) as [->|Hne]; [by rewrite decide_True by by left|].
  rewrite decide_False; [done|]. by intros [?|?]%elem_of_cons.
Qed.

(** The middle loop, field by field. *)
Lemma place_fields_ok l d s acc :
  mwf l -> mwf d -> mwf s -> fold_left place_field l (d, s) = acc ->
  mwf acc.1 /\ mwf acc.2 /\
  (forall k, get_str k acc.1 = if decide (k ∈ DEFAULT_FIELDS) then
     match get_str k l with Some v => Some v | None => get_str k d end else get_str k d) /\
  (forall k, get_str k acc.2 = if decide (k ∈ DEFAULT_FIELDS \/ k ∈ HANDLE_FIELDS) then get_str k s else
     match get_str k l with Some v => Some v | None => get_str k s end).
Proof.
  revert d s. induction l as [|[key v] l IH]; intros d s Hl Hd Hs; cbn [fold_left].
  { intros <-. cbn. split_and!; [done..| |]; intros k; by destruct (decide _). }
  apply NoDup_cons in Hl as [Hn Hl]. cbn in Hn. unfold place_field at 2. cbn [fst snd]. intros Hacc.
  (* an entry whose key is not the string looked for *)
  assert (Hother : forall k m, key <> VString k -> get_str k (m_insert key v m) = get_str k m).
  { intros k m Hne. unfold get_str. by apply m_get_insert_ne. }
  assert (Hnone : forall k, key = VString k -> get_str k l = None).
  { intros k ->. unfold get_str. by apply m_get_none. }
  destruct (as_str key) as [name|] eqn:Ek.
  - assert (Hkey : forall k, key = VString k -> k = name) by (intros k ->; by injection Ek).
    case_bool_decide as Hdef; [|case_bool_decide as Hh; cbn [negb]].
    + destruct (IH (m_insert key v d) s Hl (mwf_insert _ _ _ Hd) Hs Hacc) as (H1 & H2 & H3 & H4). split_and!; [done..| |].
      * intros k. rewrite H3. rewrite get_str_cons. destruct (decide (key = VString k)) as [->|Hne].
        -- pose proof (Hkey k eq_refl); subst name. rewrite !decide_True by done. rewrite (Hnone k eq_refl).
           unfold get_str. by rewrite m_get_insert_eq.
        -- by rewrite Hother.
      * intros k. rewrite H4. rewrite get_str_cons. destruct (decide (key = VString k)) as [->|Hne]; [|done].
        pose proof (Hkey k eq_refl); subst name. by rewrite !decide_True by by left.
    + destruct (IH d s Hl Hd Hs Hacc) as (H1 & H2 & H3 & H4). split_and!; [done..| |].
      * intros k. rewrite H3. rewrite get_str_cons. destruct (decide (key = VString k)) as [->|Hne]; [|done].
        pose proof (Hkey k eq_refl); subst name. by rewrite !decide_False.
      * intros k. rewrite H4. rewrite get_str_cons. destruct (decide (key = VString k)) as [->|Hne]; [|done].
        pose proof (Hkey k eq_refl); subst name. by rewrite !decide_True by by right.
    + destruct (IH d (m_insert key v s) Hl Hd (mwf_insert _ _ _ Hs) Hacc) as (H1 & H2 & H3 & H4). split_and!; [done..| |].
      * intros k. rewrite H3. rewrite get_str_cons. destruct (decide (key = VString k)) as [->|Hne]; [|done].
        pose proof (Hkey k eq_refl); subst name. by rewrite !decide_False.
      * intros k. rewrite H4. rewrite get_str_cons. destruct (decide (key = VString k)) as [->|Hne].
        -- pose proof (Hkey k eq_refl); subst name. rewrite !decide_False by by intros [?|?]. rewrite (Hnone k eq_refl).
           unfold get_str. by rewrite m_get_insert_eq.
        -- by rewrite Hother.
  - destruct (IH d s Hl Hd Hs Hacc) as (H1 & H2 & H3 & H4). split_and!; [done..| |]; intros k; [rewrite H3|rewrite H4];
      rewrite get_str_cons; by destruct (decide (key = VString k)) as [->|].
Qed.

(** Every field keeps its value. *)
Lemma use_sort_get k m : mwf m -> mwf (use_sort m) /\ get_str k (use_sort m) = get_str k m.
Proof.
  intros Hm. unfold use_sort.
  assert (Hok0 : split_ok (m, [])) by (split; cbn; [done|constructor|by right]).
  destruct (move_fields_ok HANDLE_FIELDS _ Hok0) as ([Hl1 Hr1 Hd1] & Hb1 & Hg1).
  destruct (fold_left move_field HANDLE_FIELDS (m, [])) as [c s]. cbn [fst snd] in *.
  destruct (place_fields_ok c [] s _ Hl1 mwf_nil Hr1 eq_refl) as (Hl2 & Hr2 & Hg2 & Hg3).
  destruct (fold_left place_field c ([], s)) as [d s2]. cbn [fst snd] in *.
  assert (Hok2 : split_ok (d, s2)).
  { split; [done|done|]. intros x. cbn [fst snd]. rewrite Hg2, Hg3. destruct (decide (x ∈ DEFAULT_FIELDS)) as [Hx|Hx]; [|by left].
    rewrite decide_True by by left. pose proof (Hd1 x) as [Hn|Hn]; [|by right]. left. by rewrite Hn. }
  destruct (move_fields_ok DEFAULT_FIELDS _ Hok2) as ([Hl3 Hr3 Hd3] & Hb3 & Hg4).
  destruct (fold_left move_field DEFAULT_FIELDS (d, s2)) as [d3 s3]. cbn [fst snd] in *. split; [done|].
  (* nothing is left behind *)
  specialize (Hb3 k). unfold both in Hb3. cbn [fst snd] in Hb3. rewrite Hg4 in Hb3.
  assert (Hs3 : get_str k s3 = match get_str k s2 with Some v => Some v | None => get_str k d end).
  { rewrite <- Hb3. destruct (get_str k s3) as [v|]; [done|]. destruct (decide (k ∈ DEFAULT_FIELDS)); [done|].
    rewrite Hg2. by rewrite decide_False. }
  rewrite Hs3, Hg2, Hg3. specialize (Hb1 k). unfold both in Hb1. cbn [fst snd] in Hb1.
  specialize (Hg1 k). change (get_str k []) with (@None Value) in *.
  destruct (decide (k ∈ DEFAULT_FIELDS)) as [Hd|Hd].
  - rewrite decide_True by by left. destruct (get_str k s); [done|]. by destruct (get_str k c).
  - destruct (decide (k ∈ HANDLE_FIELDS)) as [Hh|Hh].
    + rewrite decide_True by by right. rewrite Hg1 in Hb1. by destruct (get_str k s).
    + rewrite decide_False by by intros [?|?]. rewrite <- Hb1. destruct (Hd1 k) as [Hn|Hn]; rewrite Hn.
      * by destruct (get_str k s).
      * by destruct (get_str k c).
Qed.

(** ** the control plane *)

Lemma snapshot_get keys config acc k :
  mwf acc ->
  let snap := fold_left (fun snapshot key => match get_str key config with
                                   | Some value => insert_str key value snapshot
                                   | None => snapshot end) keys acc in
  mwf snap /\ get_str k snap = if decide (k ∈ keys) then
    match get_str k config with Some v => Some v | None => get_str k acc end else get_str k acc.
Proof.
  revert acc. induction keys as [|key keys IH]; intros acc Hacc; cbn [fold_left].
  { split; [done|]. by rewrite decide_False by apply not_elem_of_nil. }
  destruct (get_str key config) as [v|] eqn:E.
  - destruct (IH (insert_str key v acc)) as [Hw Hg]; [by apply mwf_insert|]. split; [done|].
    rewrite Hg, get_insert_str. destruct (decide (k = key)) as [->|Hne].
    + rewrite (decide_True (P := key ∈ key :: keys)) by by left. rewrite E. by destruct (decide _).
    + destruct (decide (k ∈ keys)) as [Hin|Hn]; [by rewrite decide_True by by right|].
      rewrite decide_False; [done|]. by intros [?|?]%elem_of_cons.
  - destruct (IH acc Hacc) as [Hw Hg]. split; [done|]. rewrite Hg. destruct (decide (k ∈ keys)) as [Hin|Hn].
    + by rewrite decide_True by by right.
    + destruct (decide (k = key)) as [->|Hne]; [rewrite decide_True by (by left); by rewrite E|].
      rewrite decide_False; [done|]. by intros [?|?]%elem_of_cons.
Qed.

Lemma removed_get keys snap config k :
  mwf config ->
  let c := fold_left (fun config key => if contains_key key snap then config else (remove_str key config).2)
             keys config in
  mwf c /\ get_str k c = if decide (k ∈ keys /\ get_str k snap = None) then None else get_str k config.
Proof.
  revert config. induction keys as [|key keys IH]; intros config Hm; cbn [fold_left].
  { split; [done|]. rewrite decide_False; [done|]. by intros [?%elem_of_nil _]. }
  unfold contains_key at 2 4. destruct (get_str key snap) as [v|] eqn:E; cbn [is_some].
  - destruct (IH config Hm) as [Hw Hg]. split; [done|]. rewrite Hg.
    destruct (decide (k ∈ keys /\ get_str k snap = None)) as [[Hin Hs]|Hn].
    + rewrite decide_True; [done|]. split; [by right|done].
    + rewrite decide_False; [done|]. intros [[->|Hin]%elem_of_cons Hs]; [congruence|]. by apply Hn.
  - destruct (IH _ (mwf_remove_str key config Hm)) as [Hw Hg]. split; [done|]. rewrite Hg, get_remove_str by done.
    destruct (decide (k ∈ keys /\ get_str k snap = None)) as [[Hin Hs]|Hn].
    + rewrite decide_True; [done|]. split; [by right|done].
    + destruct (decide (k = key)) as [->|Hne]; [rewrite decide_True; [done|split; [by left|done]]|].
      rewrite decide_False; [done|]. intros [[->|Hin]%elem_of_cons Hs]; [done|]. by apply Hn.
Qed.

(** The enforced configuration has the snapshot's control plane and keeps the rest. *)
Lemma enforce_get platform base config k :
  mwf config ->
  mwf (enforce_control_plane platform config (snapshot_control_plane platform base)) /\
  get_str k (enforce_control_plane platform config (snapshot_control_plane platform base)) =
    if decide (k ∈ CONTROL_PLANE_KEYS platform) then get_str k base else get_str k config.
Proof.
  intros Hm. unfold enforce_control_plane, snapshot_control_plane.
  set (snap := fold_left _ _ []).
  assert (Hsnap : mwf snap /\ forall x, get_str x snap =
    if decide (x ∈ CONTROL_PLANE_KEYS platform) then get_str x base else None).
  { split; [by apply (snapshot_get _ base [] k mwf_nil)|]. intros x.
    destruct (snapshot_get (CONTROL_PLANE_KEYS platform) base [] x mwf_nil) as [_ Hg]. unfold snap. rewrite Hg.
    destruct (decide _); [|done]. by destruct (get_str x base). }
  destruct Hsnap as [Hw Hg]. destruct (removed_get (CONTROL_PLANE_KEYS platform) snap config k Hm) as [Hw2 Hg2].
  split; [by apply mwf_extend|]. unfold get_str at 1. rewrite m_get_extend by done.
  change (match get_str k snap with Some v => Some v | None => get_str k (fold_left
    (fun config key => if contains_key key snap then config else (remove_str key config).2)
    (CONTROL_PLANE_KEYS platform) config) end = if decide (k ∈ CONTROL_PLANE_KEYS platform) then get_str k base
    else get_str k config).
  rewrite Hg2, Hg. destruct (decide (k ∈ CONTROL_PLANE_KEYS platform)) as [Hin|Hn].
  - destruct (get_str k base) as [v|]; [done|]. by rewrite decide_True.
  - rewrite decide_False; [done|]. by intros [? _].
Qed.
End sorting.
