(* ===== verification/EnhanceOverrides.v ===== *)
(** * EnhanceOverrides: manual overrides

    Merging is idempotent; no merge and no script changes the control plane of the final
    configuration; the groups of the final configuration refer to names that exist; a
    deleted proxy is gone from the list and from every group. *)

From Stdlib Require Import Ascii String.
From S2P Require Import Prelude Text IpAddr Yaml ProfileItem Profiles Enhance EnhancePipeline EnhanceSafety.

(** ** merging *)

(** The loop over the entries of the second mapping. *)
Fixpoint merge_entries (b_map a_map : Mapping) : Mapping :=
  match b_map with
  | [] => a_map
  | (key, value) :: b_map =>
      merge_entries b_map (match m_get key a_map with
                           | Some existing => m_insert key (deep_merge existing value) a_map
                           | None => m_insert key value a_map
                           end)
  end.

Lemma deep_merge_mappings a b : deep_merge (VMapping a) (VMapping b) = VMapping (merge_entries b a).
Proof. reflexivity. Qed.

Lemma mwf_merge_entries b a : mwf a -> mwf (merge_entries b a).
Proof.
  revert a. induction b as [|[k v] b IH]; intros a Ha; [done|]. cbn.
  apply IH. destruct (m_get k a); by apply mwf_insert.
Qed.

(** What is under a key after merging. *)
Definition merged_value (old : option Value) (v : Value) : Value :=
  match old with Some existing => deep_merge existing v | None => v end.

Lemma merge_entries_get b a k :
  mwf b -> m_get k (merge_entries b a) =
    match m_get k b with Some v => Some (merged_value (m_get k a) v) | None => m_get k a end.
Proof.
  unfold mwf. revert a. induction b as [|[k' v] b IH]; intros a Hb; [done|]. cbn in Hb |- *.
  apply NoDup_cons in Hb as [Hn Hb]. rewrite IH by done. destruct (decide (k' = k)) as [->|Hne].
  - rewrite (proj2 (m_get_none k b) Hn). destruct (m_get k a) as [e|] eqn:E; by rewrite m_get_insert_eq.
  - assert (Hg : m_get k match m_get k' a with
        | Some existing => m_insert k' (deep_merge existing v) a | None => m_insert k' v a end = m_get k a).
    { destruct (m_get k' a); apply m_get_insert_ne; congruence. }
    by rewrite Hg.
Qed.

(** Nothing happens where every value is merged already. *)
Lemma merge_entries_fixed b a :
  (forall k v, (k, v) ∈ b -> exists e, m_get k a = Some e /\ deep_merge e v = e) -> merge_entries b a = a.
Proof.
  induction b as [|[k v] b IH]; intros Hb; [done|]. cbn. destruct (Hb k v) as (e & He & Hm); [by left|].
  rewrite He, Hm, m_insert_same by done. apply IH. intros k' v' Hin. apply Hb. by right.
Qed.

(** Mappings without repeated keys, at every depth. *)
Fixpoint vwf (v : Value) : Prop :=
  match v with
  | VMapping m => mwf m /\ (fix go (m : Mapping) : Prop :=
      match m with [] => True | (_, x) :: m => vwf x /\ go m end) m
  | _ => True
  end.

Lemma vwf_mapping m : vwf (VMapping m) <-> mwf m /\ Forall (fun e => vwf e.2) m.
Proof.
  cbn. assert (Hf : (fix go (m : Mapping) : Prop :=
      match m with [] => True | (_, x) :: m => vwf x /\ go m end) m <-> Forall (fun e => vwf e.2) m).
  { induction m as [|[k x] m IH]; [split; [constructor|done]|]. rewrite Forall_cons, IH. done. }
  by rewrite Hf.
Qed.

Lemma deep_merge_scalar a b : (forall m, b <> VMapping m) -> deep_merge a b = b.
Proof. destruct b; try done. intros Hb. by destruct (Hb m). Qed.
Lemma deep_merge_over a m : (forall m', a <> VMapping m') -> deep_merge a (VMapping m) = VMapping m.
Proof. destruct a; try done. intros Ha. by destruct (Ha m0). Qed.

(** A value merged into itself is itself, and merging twice is merging once. *)
Lemma deep_merge_idem b : vwf b -> deep_merge b b = b /\ forall a, deep_merge (deep_merge a b) b = deep_merge a b.
Proof.
  induction b as [|x|x|x|l _|m IH|t v _] using value_rect; intros Hb;
    try (split; [done|intros a; by rewrite !deep_merge_scalar]).
  apply vwf_mapping in Hb as [Hm Hall]. rewrite Forall_forall in IH, Hall.
  assert (Hself : deep_merge (VMapping m) (VMapping m) = VMapping m).
  { rewrite deep_merge_mappings. f_equal. apply merge_entries_fixed. intros k v Hin. exists v.
    split; [by apply m_get_elem|]. destruct (IH _ Hin) as [_ Hv]. by apply Hv, (Hall (k, v)). }
  split; [exact Hself|]. intros a. destruct a as [| | | | |ma|]; try exact Hself.
  rewrite !deep_merge_mappings. f_equal. apply merge_entries_fixed. intros k v Hin.
  destruct (IH _ Hin) as [_ Hv]. destruct (Hv (Hall _ Hin)) as [Hvv Hva]. cbn in Hvv, Hva.
  rewrite merge_entries_get by done. rewrite (proj2 (m_get_elem k v m Hm) Hin).
  eexists. split; [done|]. unfold merged_value. destruct (m_get k ma) as [e|]; [apply Hva|exact Hvv].
Qed.

Lemma use_merge_entries merge config : use_merge merge config = merge_entries (use_lowercase merge) config.
Proof. unfold use_merge. by rewrite deep_merge_mappings. Qed.

Lemma use_lowercase_wf l acc :
  mwf acc /\ Forall (fun e => vwf e.2) acc -> Forall (fun e => vwf e.2) l ->
  let m := fold_left (fun lowercased e => match as_str e.1 with
                                 | Some key => m_insert (lowercase_key key) e.2 lowercased
                                 | None => lowercased end) l acc in
  mwf m /\ Forall (fun e => vwf e.2) m.
Proof.
  revert acc. induction l as [|[k v] l IH]; intros acc Hacc Hl; [done|]. cbn.
  apply Forall_cons in Hl as [Hv Hl]. cbn in Hv. apply IH; [|done]. destruct (as_str k) as [key|]; [|done].
  destruct Hacc as [Hm Hf]. split; [by apply mwf_insert|].
  clear -Hf Hv. induction acc as [|[k' v'] acc IH]; cbn; [by constructor|].
  apply Forall_cons in Hf as [Hv' Hf]. destruct (decide _); constructor; auto.
Qed.

(** What merging [b] into [a] means, without the program: an override that is not a
    mapping, or that meets something that is not one, replaces it; of two mappings, a key
    only one of them has keeps its value, and where both have it the values are merged. *)
Inductive merges : Value -> Value -> Value -> Prop :=
| merges_replace a b :
    (forall m, a <> VMapping m) \/ (forall m, b <> VMapping m) -> merges a b b
| merges_mapping a b r :
    (forall k, m_get k b = None -> m_get k r = m_get k a) ->
    (forall k v, m_get k a = None -> m_get k b = Some v -> m_get k r = Some v) ->
    (forall k x v, m_get k a = Some x -> m_get k b = Some v ->
       exists y, m_get k r = Some y /\ merges x v y) ->
    merges (VMapping a) (VMapping b) (VMapping r).

Lemma deep_merge_merges b a : vwf b -> merges a b (deep_merge a b).
Proof.
  revert a. induction b as [|x|x|x|l _|m IH|t v _] using value_rect; intros a Hb;
    try (rewrite deep_merge_scalar by done; constructor; by right).
  apply vwf_mapping in Hb as [Hm Hall]. rewrite Forall_forall in IH, Hall.
  destruct a as [| | | | |ma|]; try (rewrite deep_merge_over by done; constructor; by left).
  rewrite deep_merge_mappings. constructor; intros k; intros; rewrite merge_entries_get by done.
  - by rewrite H.
  - by rewrite H, H0.
  - rewrite H, H0. eexists. split; [done|]. apply m_get_elem in H0; [|done].
    exact (proj2 (IH _ H0) x (Hall _ H0)).
Qed.

(** C32: merging an override is idempotent and is, key by key, the recursive
    merge of the values: a key of the override (in lower case) wins, mappings
    merge recursively, every other key is untouched. *)
Theorem merging_twice_is_merging_once merge config :
  vwf (VMapping merge) ->
  use_merge merge (use_merge merge config) = use_merge merge config /\
  merges (VMapping config) (VMapping (use_lowercase merge)) (VMapping (use_merge merge config)).
Proof.
  intros [Hm Hf]%vwf_mapping.
  destruct (use_lowercase_wf merge [] ltac:(split; constructor) Hf) as [Hlm Hlf].
  change (mwf (use_lowercase merge)) in Hlm. change (Forall (fun e => vwf e.2) (use_lowercase merge)) in Hlf.
  assert (Hw : vwf (VMapping (use_lowercase merge))) by by apply vwf_mapping.
  rewrite !use_merge_entries. split.
  - destruct (deep_merge_idem _ Hw) as [_ Hi].
    specialize (Hi (VMapping config)). rewrite !deep_merge_mappings in Hi. by injection Hi.
  - rewrite <- deep_merge_mappings. by apply deep_merge_merges.
Qed.

(** ** the control plane *)

Section overrides.
Context `{MappingLaws} `{ScriptEngine}.
Context (platform : Platform).
(** A script answers a mapping, which has no repeated key. *)
Context (script_wf : forall script config name config' logs,
  use_script script config name = Ok (config', logs) -> mwf config').

Lemma mwf_use_seq seq config field : mwf config -> mwf (use_seq seq config field).
Proof.
  intros Hm. unfold use_seq. pose proof (mwf_remove_str field config Hm) as Hr.
  destruct (remove_str field config) as [old c]. cbn in Hr. set (c1 := insert_str _ _ c).
  assert (Hc1 : mwf c1) by by apply mwf_insert. destruct (negb _); [done|].
  pose proof (mwf_remove_str "proxy-groups" c1 Hc1) as Hr2. destruct (remove_str "proxy-groups" c1) as [[v|] c2]; [|done].
  cbn in Hr2. by destruct v; apply mwf_insert.
Qed.

Lemma mwf_seq_items config a b c : mwf config -> mwf (process_seq_items config a b c).
Proof.
  intros Hm. unfold process_seq_items.
  destruct (ch_data a), (ch_data b), (ch_data c); repeat apply mwf_use_seq; done.
Qed.

Lemma mwf_default_entry cv config e : mwf config -> mwf (merge_default_entry platform cv config e).
Proof.
  intros Hm. destruct e as [key value]. unfold merge_default_entry.
  repeat (case_match; [by first [apply mwf_insert|apply mwf_remove_str|idtac]|]). by apply mwf_insert.
Qed.

Lemma mwf_default_config cv config : mwf config -> mwf (merge_default_config platform cv config).
Proof.
  unfold merge_default_config. revert config. induction (cv_clash_config cv) as [|e l IH]; intros config Hm; [done|].
  cbn. by apply IH, mwf_default_entry.
Qed.

Lemma mwf_builtin config core enable : mwf config -> mwf (apply_builtin_scripts config core enable).
Proof.
  unfold apply_builtin_scripts. destruct enable; [|done].
  generalize (map snd (filter (fun e => is_support e.1 core = true) BUILTIN)). intros l. revert config.
  induction l as [|item l IH]; intros config Hm; [done|]. cbn. apply IH. unfold run_builtin.
  destruct (ch_data item); try done. destruct (use_script _ _ _) as [[c logs]|] eqn:E; [by eapply script_wf|done].
Qed.

Lemma mwf_dns config enable dns_file : mwf config -> mwf (apply_dns_settings config enable dns_file).
Proof.
  intros Hm. unfold apply_dns_settings. destruct (if enable then dns_file else None) as [d|]; [|done].
  assert (Hc : mwf (match get_str "hosts" d with
    | Some hosts_value => if is_some (as_mapping hosts_value) then insert_str "hosts" hosts_value config else config
    | None => config end)).
  { destruct (get_str "hosts" d); [|done]. destruct (is_some _); [by apply mwf_insert|done]. }
  destruct (get_str "dns" d) as [v|]; [destruct (as_mapping v); [by apply mwf_insert|done]|by apply mwf_insert].
Qed.

Lemma mwf_app_config cv profile dns_file :
  mwf (pi_config profile) -> mwf (app_config platform cv profile dns_file).
Proof.
  intros Hm. unfold app_config. apply mwf_dns. unfold use_tun.
  assert (Hb : mwf (apply_builtin_scripts (merge_default_config platform cv (process_seq_items (pi_config profile)
    (pi_rules_item profile) (pi_proxies_item profile) (pi_groups_item profile))) (cv_clash_core cv) (cv_enable_builtin cv)))
    by by apply mwf_builtin, mwf_default_config, mwf_seq_items.
  destruct (cv_enable_tun cv); repeat apply mwf_insert; done.
Qed.

Lemma mwf_process_items st merge_item script_item name :
  mwf st.1.1 -> mwf (process_items st merge_item script_item name).1.1.
Proof.
  destruct st as [[config keys] results]. cbn. intros Hm. unfold process_items.
  assert (Hc : mwf (match ch_data merge_item with
    | ChMerge merge => (use_merge merge config, keys ++ use_keys merge) | _ => (config, keys) end).1).
  { destruct (ch_data merge_item); try done. cbn [fst]. rewrite use_merge_entries. by apply mwf_merge_entries. }
  destruct (match ch_data merge_item with ChMerge merge => _ | _ => _ end) as [c k]. cbn in Hc.
  destruct (ch_data script_item); try done.
  destruct (use_script _ _ _) as [[c' logs]|] eqn:E; [by eapply script_wf|done].
Qed.

(** The steps after the control plane is restored leave a field alone unless it is their own. *)
Lemma enforce_dns_get config v k : k <> "dns"%string ->
  get_str k (enforce_dns_ipv6 config v) = get_str k config.
Proof.
  intros Hk. unfold enforce_dns_ipv6. destruct v; [|done]. destruct (get_str "dns" config) as [[]|] eqn:E; try done.
  rewrite get_insert_str. by rewrite decide_False.
Qed.
Lemma bind_address_get config k : k <> "bind-address"%string ->
  get_str k (ensure_lan_bind_address config) = get_str k config.
Proof.
  intros Hk. unfold ensure_lan_bind_address. destruct (_ && _); [|done]. rewrite get_insert_str. by rewrite decide_False.
Qed.
Lemma cleanup_get config k : k <> "proxy-groups"%string ->
  get_str k (cleanup_proxy_groups config) = get_str k config.
Proof.
  intros Hk. unfold cleanup_proxy_groups. destruct (get_str "proxy-groups" config) as [[]|] eqn:E; try done.
  rewrite get_insert_str. by rewrite decide_False.
Qed.
Lemma mwf_finish config v : mwf config ->
  mwf (cleanup_proxy_groups (ensure_lan_bind_address (enforce_dns_ipv6 config v))).
Proof.
  intros Hm. assert (Hd : mwf (enforce_dns_ipv6 config v)).
  { unfold enforce_dns_ipv6. destruct v; [|done]. destruct (get_str _ _) as [[]|]; try done. by apply mwf_insert. }
  assert (Hl : mwf (ensure_lan_bind_address (enforce_dns_ipv6 config v))).
  { unfold ensure_lan_bind_address. destruct (_ && _); [by apply mwf_insert|done]. }
  unfold cleanup_proxy_groups. destruct (get_str _ _) as [[]|]; try done. by apply mwf_insert.
Qed.

Lemma control_plane_keys_own key : key ∈ CONTROL_PLANE_KEYS platform ->
  key <> "dns"%string /\ key <> "bind-address"%string /\ key <> "proxy-groups"%string.
Proof.
  intros Hin. assert (Hall : Forall (fun k => k <> "dns" /\ k <> "bind-address" /\ k <> "proxy-groups")%string
    (CONTROL_PLANE_KEYS platform)) by (destruct platform; repeat constructor; discriminate).
  rewrite Forall_forall in Hall. by apply Hall.
Qed.

(** Overrides come after the snapshot and are undone on the control plane. *)
Lemma enhance_control_plane cv profile dns_file key :
  mwf (pi_config profile) ->
  key ∈ CONTROL_PLANE_KEYS platform ->
  get_str key (enhance platform cv profile dns_file).1.1 = get_str key (app_config platform cv profile dns_file).
Proof.
  intros Hm Hkey. destruct (control_plane_keys_own key Hkey) as (Hk1 & Hk2 & Hk3). unfold enhance.
  set (app := app_config platform cv profile dns_file). set (dns6 := if cv_enable_dns_settings cv then _ else _).
  set (st := process_global_items _ _ _ _).
  assert (Hst : mwf st.1.1) by (apply mwf_process_items; by apply mwf_app_config).
  pose proof (mwf_process_items st (pi_merge_item profile) (pi_script_item profile) (pi_profile_name profile) Hst) as Hp.
  unfold process_profile_items. destruct (process_items st _ _ _) as [[config keys] results]. cbn [fst] in *.
  destruct (enforce_get platform app config key Hp) as [Hw Hg].
  rewrite (proj2 (use_sort_get key _ (mwf_finish _ dns6 Hw))).
  rewrite cleanup_get, bind_address_get, enforce_dns_get by done. rewrite Hg. by rewrite decide_True.
Qed.

(** ** the application's settings on the control plane *)

(** The sequence edits change their own fields only. *)
Lemma use_seq_get seq config field k : mwf config ->
  k <> field -> k <> "proxy-groups"%string -> get_str k (use_seq seq config field) = get_str k config.
Proof.
  intros Hm Hf Hg. unfold use_seq. pose proof (get_remove_str k field config Hm) as Hr.
  rewrite decide_False in Hr by done. pose proof (mwf_remove_str field config Hm) as Hw.
  destruct (remove_str field config) as [old c]. cbn [snd] in Hr, Hw. set (c1 := insert_str field _ c).
  assert (Hc1 : get_str k c1 = get_str k config) by (unfold c1; by rewrite get_insert_str, decide_False).
  assert (Hw1 : mwf c1) by by apply mwf_insert. destruct (negb _); [done|].
  pose proof (get_remove_str k "proxy-groups" c1 Hw1) as Hr2. rewrite decide_False in Hr2 by done.
  destruct (remove_str "proxy-groups" c1) as [[v|] c2]; cbn [snd] in Hr2; [|congruence].
  destruct v; rewrite get_insert_str, decide_False by done; congruence.
Qed.

Lemma seq_items_get config a b c k : mwf config ->
  k ∉ ["rules"; "proxies"; "proxy-groups"]%string ->
  get_str k (process_seq_items config a b c) = get_str k config.
Proof.
  rewrite !not_elem_of_cons. intros Hm (Hr & Hp & Hg & _). unfold process_seq_items.
  destruct (ch_data a), (ch_data b), (ch_data c);
    rewrite ?use_seq_get by (try done; repeat apply mwf_use_seq; done); done.
Qed.

(** Whether the switch of a port is on; every other setting has none. *)
Definition switched_on (cv : ConfigValues) (key : string) : bool :=
  match key with
  | "socks-port" => cv_socks_enabled cv
  | "port" => cv_http_enabled cv
  | "redir-port" => cv_redir_enabled cv
  | "tproxy-port" => cv_tproxy_enabled cv
  | _ => true
  end%string.

(** What a setting of the application puts at its key. *)
Definition setting_value (cv : ConfigValues) (key : string) (v : Value) : option Value :=
  if switched_on cv key
  then Some (if bool_decide (key = "external-controller"%string) && negb (cv_enable_external_controller cv)
             then VString "" else v)
  else None.

(** Decide the equations between constants. *)
Ltac decide_constants :=
  repeat match goal with |- context [bool_decide (?a = ?b)] =>
    first [rewrite (bool_decide_eq_true_2 (a = b)) by reflexivity
          |rewrite (bool_decide_eq_false_2 (a = b)) by discriminate] end.

Lemma name_decided k s : bool_decide (Some k = Some s) = bool_decide (k = s :> string).
Proof. apply bool_decide_ext. split; congruence. Qed.

(** An entry changes its own key only. *)
Lemma default_entry_other cv config key k v : mwf config -> key <> k ->
  get_str key (merge_default_entry platform cv config (VString k, v)) = get_str key config.
Proof.
  intros Hm Hne. unfold merge_default_entry. cbn [as_str untag]. rewrite !name_decided.
  assert (Hrem : forall s, k = s -> get_str key (remove_str s config).2 = get_str key config).
  { intros s <-. rewrite get_remove_str by done. by rewrite decide_False. }
  assert (Hif : forall s b x, get_str key x = get_str key config ->
    get_str key (if bool_decide (k = s) && b then (remove_str s config).2 else x) = get_str key config).
  { intros s b x Hx. destruct (bool_decide (k = s) && b) eqn:E; [|done].
    apply andb_true_iff in E as [E%bool_decide_eq_true _]. by apply Hrem. }
  case_match eqn:Hk; [apply bool_decide_eq_true in Hk as ->; by rewrite get_insert_str, decide_False|].
  do 2 apply Hif. case_match; [done|]. rewrite <- andb_assoc. do 3 apply Hif.
  pose proof (get_insert_str key k) as Hi. unfold insert_str in Hi.
  repeat case_match; try done; by rewrite Hi.
Qed.

Lemma default_entry_get cv config key k v : mwf config ->
  key ∈ CONTROL_PLANE_KEYS platform -> key <> "tun"%string ->
  get_str key (merge_default_entry platform cv config (VString k, v)) =
    if decide (key = k) then setting_value cv key v else get_str key config.
Proof.
  intros Hm Hkey Ht. unfold merge_default_entry. cbn [as_str untag].
  unfold setting_value.
  pose proof (get_insert_str key k) as Hi. unfold insert_str in Hi. destruct (decide (key = k)) as [<-|Hne].
  - rewrite !name_decided, (bool_decide_eq_false_2 _ Ht).
    unfold CONTROL_PLANE_KEYS in Hkey. rewrite !elem_of_app, !elem_of_cons in Hkey.
    destruct platform; repeat match type of Hkey with _ \/ _ => destruct Hkey as [Hkey|Hkey] end;
      rewrite ?elem_of_cons, ?elem_of_nil in Hkey;
      repeat match type of Hkey with _ \/ _ => destruct Hkey as [Hkey|Hkey] end; try done;
      subst key; decide_constants; cbn [switched_on andb negb]; rewrite ?Hi; try done;
      match goal with |- context [negb ?b] => destruct b end; cbn [negb]; rewrite ?Hi; try done;
      by rewrite get_remove_str, decide_True.
  - by apply default_entry_other.
Qed.
(** The settings are a mapping whose keys are plain strings, and so is its TUN block. *)
Record plain_settings (m : Mapping) : Prop := {
  ps_keys : mwf m;
  ps_strings : Forall (fun e => exists k, e.1 = VString k) m;
  ps_tun : mwf (mapping_at "tun" m);
}.

Lemma default_config_get cv l config key :
  mwf l -> Forall (fun e => exists k, e.1 = VString k) l -> mwf config ->
  key ∈ CONTROL_PLANE_KEYS platform -> key <> "tun"%string ->
  get_str key (fold_left (merge_default_entry platform cv) l config) =
    match get_str key l with Some v => setting_value cv key v | None => get_str key config end.
Proof.
  intros Hl Hs. revert config. induction l as [|[kv v] l IH]; intros config Hm Hkey Ht; [done|].
  apply NoDup_cons in Hl as [Hn Hl]. apply Forall_cons in Hs as [[k Hk] Hs]. cbn in Hk. subst kv.
  cbn [fold_left]. rewrite IH by (try done; by apply mwf_default_entry).
  rewrite default_entry_get by done. rewrite get_str_cons. cbn in Hn.
  destruct (decide (key = k)) as [->|Hne].
  - rewrite decide_True by done. apply m_get_none in Hn. unfold get_str. by rewrite Hn.
  - rewrite decide_False by congruence. done.
Qed.

Lemma mapping_at_cons k key v l :
  mapping_at k ((VString key, v) :: l) =
    if decide (key = k) then match as_mapping v with Some m => m | None => [] end else mapping_at k l.
Proof.
  unfold mapping_at. rewrite get_str_cons. destruct (decide (key = k)) as [->|Hne].
  - by rewrite decide_True.
  - by rewrite decide_False by congruence.
Qed.

Lemma default_config_tun cv l config k :
  plain_settings l -> mwf config ->
  m_get k (mapping_at "tun" (fold_left (merge_default_entry platform cv) l config)) =
    match m_get k (mapping_at "tun" l) with Some v => Some v | None => m_get k (mapping_at "tun" config) end.
Proof.
  intros [Hl Hs Ht]. revert config. induction l as [|[kv v] l IH]; intros config Hm; [done|].
  apply NoDup_cons in Hl as [Hn Hl]. apply Forall_cons in Hs as [[key Hk] Hs]. cbn in Hk, Hn. subst kv.
  rewrite mapping_at_cons in Ht |- *. cbn [fold_left]. destruct (decide (key = "tun"%string)) as [->|Hne].
  - assert (Hnone : mapping_at "tun" l = []).
    { unfold mapping_at, get_str. by rewrite (proj2 (m_get_none _ _) Hn). }
    assert (Ht' : mwf (mapping_at "tun" l)) by (rewrite Hnone; constructor).
    rewrite IH by (try done; by apply mwf_default_entry). rewrite Hnone. cbn [m_get]. unfold mapping_at at 1, merge_default_entry. cbn [as_str untag].
    rewrite bool_decide_eq_true_2, get_insert_str, decide_True by done. cbn [mbind option_bind as_mapping untag].
    by apply m_get_extend.
  - rewrite IH by (try done; by apply mwf_default_entry).
    unfold mapping_at at 2. rewrite default_entry_other by done. done.
Qed.

(** The built-in scripts leave a key of the configuration alone. *)
Definition builtin_leaves (cv : ConfigValues) (key : string) : Prop :=
  forall config, get_str key (apply_builtin_scripts config (cv_clash_core cv) (cv_enable_builtin cv)) =
    get_str key config.

Lemma dns_settings_get config enable dns_file key :
  key <> "dns"%string -> key <> "hosts"%string ->
  get_str key (apply_dns_settings config enable dns_file) = get_str key config.
Proof.
  intros Hd Hh. unfold apply_dns_settings. destruct (if enable then dns_file else None) as [d|]; [|done].
  set (c := match get_str "hosts" d with Some _ => _ | None => _ end).
  assert (Hc : get_str key c = get_str key config).
  { unfold c. destruct (get_str "hosts" d); [|done]. destruct (is_some _); [|done].
    by rewrite get_insert_str, decide_False. }
  destruct (get_str "dns" d) as [v|]; [destruct (as_mapping v); [|done]|];
    by rewrite get_insert_str, decide_False.
Qed.

Lemma use_tun_get config enable key :
  key <> "dns"%string -> key <> "tun"%string -> get_str key (use_tun config enable) = get_str key config.
Proof.
  intros Hd Ht. unfold use_tun. rewrite get_insert_str, decide_False by done.
  destruct enable; [|done]. by rewrite get_insert_str, decide_False.
Qed.

Lemma control_plane_keys_seq key : key ∈ CONTROL_PLANE_KEYS platform ->
  key <> "hosts"%string /\ key ∉ ["rules"; "proxies"; "proxy-groups"]%string.
Proof.
  intros Hin. assert (Hall : Forall (fun k => k <> "hosts" /\ k ∉ ["rules"; "proxies"; "proxy-groups"])%string
    (CONTROL_PLANE_KEYS platform)).
  { destruct platform; repeat constructor; try discriminate; rewrite !not_elem_of_cons; repeat split;
      try discriminate; apply not_elem_of_nil. }
  rewrite Forall_forall in Hall. by apply Hall.
Qed.

End overrides.

(** * Proxies and the groups that refer to them

    After the clean-up every reference of a group names something of the same
    configuration; after [use_seq] a deleted proxy is gone from the list and from every
    group. *)

Lemma omap_cons_eq {A B} (f : A -> option B) x l :
  omap f (x :: l) = match f x with Some y => y :: omap f l | None => omap f l end.
Proof. reflexivity. Qed.

(** ** the clean-up *)

Lemma as_mapping_edit f v : as_mapping (edit_mapping f v) = option_map f (as_mapping v).
Proof. induction v using value_rect; try done. Qed.

Section cleanup.
Context (allowed providers : gset string).

(** The two edits of a group, as lookups. *)
Lemma cleanup_group_get m k :
  k <> "use"%string -> k <> "proxies"%string -> get_str k (cleanup_group allowed providers m) = get_str k m.
Proof.
  intros Hu Hp. unfold cleanup_group.
  assert (Hin : forall v m', get_str k (insert_str "proxies" v m') = get_str k m')
    by (intros; rewrite get_insert_str; by rewrite decide_False).
  assert (Hiu : forall v m', get_str k (insert_str "use" v m') = get_str k m')
    by (intros; rewrite get_insert_str; by rewrite decide_False).
  destruct (match get_str "use" m with Some (VSequence uses) => _ | _ => _ end) as [b m1] eqn:E.
  assert (Hm1 : get_str k m1 = get_str k m).
  { destruct (get_str "use" m) as [[]|]; injection E as <- <-; by rewrite ?Hiu. }
  destruct (get_str "proxies" m1) as [[]|]; by rewrite ?Hin, ?Hm1.
Qed.

Lemma cleanup_group_use m l :
  get_str "use" (cleanup_group allowed providers m) = Some (VSequence l) ->
  exists uses, get_str "use" m = Some (VSequence uses) /\
    l = filter (fun v => provider_exists providers v = true) uses.
Proof.
  unfold cleanup_group.
  assert (Hp : forall v m', get_str "use" (insert_str "proxies" v m') = get_str "use" m')
    by (intros; rewrite get_insert_str; by rewrite decide_False).
  destruct (get_str "use" m) as [[]|] eqn:E; cbn; intros Hl;
    try (destruct (get_str "proxies" m) as [[]|]; rewrite ?Hp, E in Hl; done).
  exists l0. split; [done|].
  destruct (get_str "proxies" (insert_str "use" _ m)) as [[]|]; rewrite ?Hp, get_insert_str, decide_True in Hl by done;
    by injection Hl.
Qed.

(** What stays in a group is allowed, or the group has a provider. *)
Lemma cleanup_group_proxies m l n :
  get_str "proxies" (cleanup_group allowed providers m) = Some (VSequence l) -> VString n ∈ l ->
  n ∈ allowed \/ exists uses p, get_str "use" (cleanup_group allowed providers m) = Some (VSequence uses) /\
    VString p ∈ uses /\ p ∈ providers.
Proof.
  unfold cleanup_group.
  assert (Hu : forall v m', get_str "proxies" (insert_str "use" v m') = get_str "proxies" m')
    by (intros; rewrite get_insert_str; by rewrite decide_False).
  assert (Hp : forall v m', get_str "use" (insert_str "proxies" v m') = get_str "use" m')
    by (intros; rewrite get_insert_str; by rewrite decide_False).
  destruct (match get_str "use" m with Some (VSequence uses) => _ | _ => _ end) as [b m1] eqn:E.
  assert (Hb : b = true -> exists uses p, get_str "use" m1 = Some (VSequence uses) /\ VString p ∈ uses /\ p ∈ providers).
  { destruct (get_str "use" m) as [[| | | |uses| |]|]; injection E as <- <-; try done.
    intros (v & Hv & He)%existsb_exists. eexists. destruct v as [| | |p| | |]; try done. exists p.
    rewrite get_insert_str, decide_True by done. split; [done|]. cbn in He. split; [|by reflect_bools].
    apply list_elem_of_filter. split; [done|]. by apply list_elem_of_In. }
  destruct (get_str "proxies" m1) as [[| | | |proxies| |]|] eqn:Ep; intros Hl Hn; try congruence.
  rewrite get_insert_str, decide_True in Hl by done. injection Hl as <-.
  apply list_elem_of_filter in Hn as [Hk _]. cbn in Hk. apply orb_true_iff in Hk as [Hk|Hk]; [left; by reflect_bools|].
  right. rewrite Hp. by apply Hb.
Qed.
End cleanup.

Lemma cleanup_group_names allowed providers groups :
  omap group_name (map (edit_mapping (cleanup_group allowed providers)) groups) = omap group_name groups.
Proof.
  induction groups as [|g groups IH]; [done|]. cbn [map].
  assert (Hn : group_name (edit_mapping (cleanup_group allowed providers) g) = group_name g).
  { unfold group_name. rewrite as_mapping_edit. destruct (as_mapping g); cbn; [|done]. by rewrite cleanup_group_get. }
  rewrite !omap_cons_eq, Hn. by rewrite IH.
Qed.

(** The clean-up changes no name. *)
Lemma cleanup_names config :
  allowed_names (cleanup_proxy_groups config) = allowed_names config /\
  provider_names (cleanup_proxy_groups config) = provider_names config.
Proof.
  unfold cleanup_proxy_groups. destruct (get_str "proxy-groups" config) as [[| | | |groups| |]|] eqn:E; try done.
  set (c' := insert_str "proxy-groups" _ config).
  assert (Hother : forall k, k <> "proxy-groups"%string -> get_str k c' = get_str k config).
  { intros k Hk. unfold c'. rewrite get_insert_str. by rewrite decide_False. }
  assert (Hprov : provider_names c' = provider_names config) by (unfold provider_names; by rewrite Hother).
  split; [|done]. unfold allowed_names. rewrite Hprov. f_equal. f_equal. f_equal.
  - unfold names_at. by rewrite Hother.
  - unfold names_at. rewrite E. unfold c'. rewrite get_insert_str, decide_True by done. cbn. by rewrite cleanup_group_names.
Qed.

(** After the clean-up of the proxy groups, every provider a group uses exists,
    and every proxy a group names is a proxy, a group or a built-in policy of
    the cleaned configuration, unless the group also uses a provider, whose
    members are not known here. *)
Theorem cleaned_groups_refer_to_existing_names config groups g group_map :
  get_str "proxy-groups" (cleanup_proxy_groups config) = Some (VSequence groups) ->
  g ∈ groups -> as_mapping g = Some group_map ->
  (forall l v, get_str "use" group_map = Some (VSequence l) -> v ∈ l ->
     exists p, v = VString p /\ p ∈ provider_names (cleanup_proxy_groups config)) /\
  (forall l n, get_str "proxies" group_map = Some (VSequence l) -> VString n ∈ l ->
     n ∈ allowed_names (cleanup_proxy_groups config) \/
     exists uses p, get_str "use" group_map = Some (VSequence uses) /\ VString p ∈ uses).
Proof.
  destruct (cleanup_names config) as [-> ->]. unfold cleanup_proxy_groups.
  intros Hg Hin Hm. destruct (get_str "proxy-groups" config) as [[| | | |old| |]|] eqn:E; try congruence.
  rewrite get_insert_str, decide_True in Hg by done. injection Hg as <-.
  apply list_elem_of_fmap in Hin as (g0 & -> & _). rewrite as_mapping_edit in Hm.
  destruct (as_mapping g0) as [m0|]; [|done]. injection Hm as <-. split.
  - intros l v Hu Hv. apply cleanup_group_use in Hu as (uses & _ & ->).
    apply list_elem_of_filter in Hv as [Hv _]. destruct v as [| | |p| | |]; try done. exists p. split; [done|].
    cbn in Hv. by reflect_bools.
  - intros l n Hp Hn. destruct (cleanup_group_proxies _ _ _ _ _ Hp Hn) as [?|(uses & p & Hu & Hpin & _)]; [by left|].
    right. by exists uses, p.
Qed.

(** ** deleted proxies *)

Lemma first_occurrences_sub seen names n : n ∈ first_occurrences seen names -> n ∈ names.
Proof.
  revert seen. induction names as [|x names IH]; intros seen; cbn; [done|]. case_bool_decide.
  - intros Hin. right. by eapply IH.
  - intros [->|Hin]%elem_of_cons; [by left|right; by eapply IH].
Qed.

Lemma unseen_values_sub seen l v : v ∈ unseen_values seen l -> v ∈ l.
Proof.
  revert seen. induction l as [|x l IH]; intros seen; cbn; [done|].
  destruct x; try (intros [->|Hin]%elem_of_cons; [by left|right; by eapply IH]).
  case_bool_decide; [intros Hin; right; by eapply IH|].
  intros [->|Hin]%elem_of_cons; [by left|right; by eapply IH].
Qed.

(** A value that names a proxy. *)
Definition names_proxy (n : string) (item : Value) : Prop :=
  item = VString n \/ exists m, item = VMapping m /\ get_str "name" m = Some (VString n).

Lemma kept_not_named deleted n item : n ∈ deleted -> item_kept deleted item = true -> ~ names_proxy n item.
Proof.
  intros Hn Hk [->|(m & -> & Hm)]; cbn in Hk; [|rewrite Hm in Hk]; by rewrite bool_decide_eq_true_2 in Hk.
Qed.

Lemma named_collected n item l : item ∈ l -> names_proxy n item -> n ∈ collect_proxy_names l.
Proof.
  intros Hin Hn. apply list_elem_of_omap. exists item. split; [done|].
  destruct Hn as [->|(m & -> & Hm)]; cbn; [done|]. by rewrite Hm.
Qed.

Section sequences.
Context `{MappingLaws}.

Lemma update_group_clean deleted added appended m n l :
  mwf m -> n ∈ deleted -> n ∉ added ->
  get_str "proxies" (update_group deleted added appended m).2 = Some (VSequence l) -> VString n ∉ l.
Proof.
  intros Hm Hn Ha. unfold update_group.
  pose proof (get_remove_str "proxies" "proxies" m Hm) as Hg. rewrite decide_True in Hg by done.
  destruct (remove_str "proxies" m) as [removed m1]. cbn [fst snd] in Hg.
  set (inner := match removed with Some (VSequence proxies) => _ | Some value => _ | None => _ end).
  assert (Hinner : (forall base, inner.1 = Some base -> VString n ∉ base) /\
    (inner.1 = None -> forall l, get_str "proxies" inner.2 <> Some (VSequence l))).
  { unfold inner. destruct removed as [[]|]; cbn [fst snd]; (split; [|intros Hi l1]); try done.
    all: try (rewrite get_insert_str, decide_True by done; done).
    - intros base [= <-] Hin. apply list_elem_of_filter in Hin as [Hk _]. cbn in Hk.
      by rewrite bool_decide_eq_true_2 in Hk.
    - by rewrite Hg. }
  clearbody inner. destruct inner as [group_proxies m2]. cbn [fst snd] in Hinner. destruct Hinner as [Hb Hno].
  cbn [snd]. destruct (negb appended && negb (bool_decide (added = [])) && is_selector_group m2).
  - rewrite get_insert_str, decide_True by done. intros [= <-] [Hin|Hin]%elem_of_app.
    + apply list_elem_of_fmap in Hin as (x & [= ->] & Hin). done.
    + apply unseen_values_sub in Hin. destruct group_proxies as [base|]; [by eapply Hb|by apply elem_of_nil in Hin].
  - destruct group_proxies as [base|]; [|intros Hl; by destruct (Hno eq_refl l)].
    rewrite get_insert_str, decide_True by done. intros [= <-]. by apply Hb.
Qed.

Lemma update_groups_clean deleted added appended groups n m l :
  Forall (fun g => match g with VMapping m => mwf m | _ => True end) groups -> n ∈ deleted -> n ∉ added ->
  VMapping m ∈ update_groups deleted added appended groups ->
  get_str "proxies" m = Some (VSequence l) -> VString n ∉ l.
Proof.
  intros Hw Hn Ha. revert appended. induction Hw as [|g groups Hg Hw IH]; intros appended; cbn; [by intros ?%elem_of_nil|].
  destruct g as [| | | | |gm|]; try (intros [Heq|Hin]%elem_of_cons; [done|by eapply IH]).
  pose proof (update_group_clean deleted added appended gm n l Hg Hn Ha) as Hc.
  destruct (update_group deleted added appended gm) as [a m']. cbn in Hc.
  intros [[= ->]|Hin]%elem_of_cons; [exact Hc|by eapply IH].
Qed.

(** A proxy that a sequence edit deletes and does not add again is neither in
    the proxies nor in any group afterwards. *)
Theorem deleted_proxy_is_gone seq config n :
  mwf config -> n ∈ seq_delete seq ->
  (* it is not added again by the same edit *)
  n ∉ collect_proxy_names (prepend seq ++ append seq) ->
  (forall groups, get_str "proxy-groups" config = Some (VSequence groups) ->
     Forall (fun g => match g with VMapping m => mwf m | _ => True end) groups) ->
  (exists l, get_str "proxies" (use_seq seq config "proxies") = Some (VSequence l) /\
     forall item, item ∈ l -> ~ names_proxy n item) /\
  (forall groups m l, get_str "proxy-groups" (use_seq seq config "proxies") = Some (VSequence groups) ->
     VMapping m ∈ groups -> get_str "proxies" m = Some (VSequence l) -> VString n ∉ l).
Proof.
  intros Hm Hn Hre Hgroups. unfold use_seq. rewrite (bool_decide_eq_true_2 ("proxies" = "proxies")%string) by done. cbn [negb].
  pose proof (get_remove_str "proxy-groups" "proxies" config Hm) as Hg0. rewrite decide_False in Hg0 by done.
  pose proof (mwf_remove_str "proxies" config Hm) as Hw0.
  destruct (remove_str "proxies" config) as [old c0]. cbn [fst snd] in *.
  set (kept := match old with Some (VSequence l) => _ | _ => _ end). set (list := prepend seq ++ kept ++ append seq).
  set (c1 := insert_str "proxies" (VSequence list) c0). assert (Hw1 : mwf c1) by by apply mwf_insert.
  assert (Hp1 : get_str "proxies" c1 = Some (VSequence list)) by (unfold c1; by rewrite get_insert_str, decide_True).
  assert (Hg1 : get_str "proxy-groups" c1 = get_str "proxy-groups" config)
    by (unfold c1; rewrite get_insert_str, decide_False by done; exact Hg0).
  assert (Hlist : forall item, item ∈ list -> ~ names_proxy n item).
  { intros item [Hin|[Hin|Hin]%elem_of_app]%elem_of_app Hnp.
    - apply Hre. eapply named_collected; [apply elem_of_app; by left|done].
    - unfold kept in Hin. destruct old as [[| | | |l0| |]|]; try by apply elem_of_nil in Hin.
      apply list_elem_of_filter in Hin as [Hk _]. by eapply kept_not_named.
    - apply Hre. eapply named_collected; [apply elem_of_app; by right|done]. }
  assert (Hadd : n ∉ added_proxy_names seq "proxies").
  { unfold added_proxy_names. rewrite bool_decide_eq_true_2 by done. intros Hin. apply Hre.
    apply first_occurrences_sub in Hin. unfold collect_proxy_names in *. by rewrite omap_app. }
  pose proof (remove_str_spec "proxy-groups" c1 Hw1) as (Hv & Hw2 & _).
  pose proof (get_remove_str "proxies" "proxy-groups" c1 Hw1) as Hp2. rewrite decide_False in Hp2 by done.
  pose proof (get_remove_str "proxy-groups" "proxy-groups" c1 Hw1) as Hg2. rewrite decide_True in Hg2 by done.
  destruct (remove_str "proxy-groups" c1) as [v c2]. cbn [fst snd] in *. rewrite Hg1 in Hv.
  assert (Hins : forall x, get_str "proxies" (insert_str "proxy-groups" x c2) = Some (VSequence list)).
  { intros x. rewrite get_insert_str, decide_False by done. congruence. }
  destruct v as [[| | | |old_groups| |]|]; cbv iota.
  5: { split; [exists list; by rewrite Hins|]. intros groups gm l. rewrite get_insert_str, decide_True by done.
       intros [= <-]. by apply update_groups_clean, Hadd; [apply Hgroups|]. }
  7: { split; [exists list; split; [congruence|done]|]. intros groups gm l Hg. congruence. }
  all: split; [exists list; by rewrite Hins|]; intros groups gm l; rewrite get_insert_str, decide_True by done; done.
Qed.
End sequences.
