(* ===== verification/RuntimeConfig.v ===== *)
(** * RuntimeConfig: the configuration the core runs with

    [src-tauri/src/config/runtime.rs] (patches and proxy chains) and the end of
    [config/config.rs] (tunnels whose proxy does not exist).  A chain is exact: a proxy
    dials through its predecessor in the chain, and no other proxy dials through
    anything. *)

From Stdlib Require Import Ascii String.
From S2P Require Import Prelude Text IpAddr Yaml ProfileItem Profiles Enhance EnhancePipeline EnhanceSafety EnhanceOverrides.

Record IRuntime := {
  rt_config : option Mapping;
  rt_exists_keys : gset string;
  rt_chain_logs : gmap string ResultLog;
}.

Definition IRuntime_new : IRuntime := {| rt_config := None; rt_exists_keys := ∅; rt_chain_logs := ∅ |}.

Definition rt_set_config (c : Mapping) (self : IRuntime) : IRuntime :=
  {| rt_config := Some c; rt_exists_keys := rt_exists_keys self; rt_chain_logs := rt_chain_logs self |}.

(** ** patches *)

Definition PATCH_CONFIG_INNER : list string := ["allow-lan"; "ipv6"; "log-level"; "unified-delay"; "tunnels"]%string.

Definition patch_key (patch config : Mapping) (key : string) : Mapping :=
  match get_str key patch with Some value => insert_str key value config | None => config end.

Definition runtime_patch_config (patch : Mapping) (self : IRuntime) : IRuntime :=
  match rt_config self with
  | None => self
  | Some config =>
      let config := fold_left (patch_key patch) PATCH_CONFIG_INNER config in
      match get_str "tun" patch with
      | None => rt_set_config config self
      | Some patch_tun =>
          let config := match get_str "tun" config with
                        | Some (VMapping _) => config
                        | _ => insert_str "tun" (VMapping []) config
                        end in
          match as_mapping patch_tun, get_str "tun" config with
          | Some patch_tun_mapping, Some (VMapping tun) =>
              rt_set_config
                (insert_str "tun" (VMapping (fold_left (patch_key patch_tun_mapping) (use_keys patch_tun_mapping) tun))
                   config) self
          | _, _ => rt_set_config config self
          end
      end
  end.

(** ** proxy chains *)

(** [iter_mut().find(..)], then the edit of what was found. *)
Fixpoint edit_first (p : Value -> bool) (f : Value -> Value) (l : Sequence) : Sequence :=
  match l with
  | [] => []
  | v :: l => if p v then f v :: l else v :: edit_first p f l
  end.

Definition is_named (name proxy : Value) : bool := bool_decide (value_get "name" proxy = Some name).

Definition dial_through (dialer proxy : Value) : Value :=
  match proxy with VMapping m => VMapping (insert_str "dialer-proxy" dialer m) | _ => proxy end.

(** The loop over the chain; [previous] is the entry before. *)
Fixpoint link_chain (previous : option Value) (chain : list Value) (proxies : Sequence) : Sequence :=
  match chain with
  | [] => proxies
  | name :: chain =>
      link_chain (Some name) chain
        match previous with
        | Some dialer => edit_first (is_named name) (dial_through dialer) proxies
        | None => proxies
        end
  end.

Section chains.
Context `{MappingLib}.

Definition without_dialer : Value -> Value :=
  edit_mapping (fun m => match get_str "dialer-proxy" m with Some _ => (remove_str "dialer-proxy" m).2 | None => m end).

Definition update_proxy_chain_config (proxy_chain_config : option Value) (self : IRuntime) : IRuntime :=
  match rt_config self with
  | None => self
  | Some config =>
      let config := match get_str "proxies" config with
                    | Some (VSequence proxies) => insert_str "proxies" (VSequence (map without_dialer proxies)) config
                    | _ => config
                    end in
      match proxy_chain_config, get_str "proxies" config with
      | Some (VSequence dialer_proxies), Some (VSequence proxies) =>
          rt_set_config (insert_str "proxies" (VSequence (link_chain None dialer_proxies proxies)) config) self
      | _, _ => rt_set_config config self
      end
  end.

(** ** tunnels *)

Definition tunnel_proxy (item : Value) : option string := value_get "proxy" item ≫= as_str.

Definition is_direct (name : string) : bool :=
  bool_decide (name = "DIRECT"%string) || bool_decide (name = "REJECT"%string).

Definition tunnels_need_validation (tunnels : Sequence) : bool :=
  existsb (fun item => match tunnel_proxy item with Some name => negb (is_direct name) | None => false end) tunnels.

Definition collected_name (item : Value) : option string :=
  match item with
  | VMapping map => match get_str "name" map with
                    | Some (VString n) => if is_empty n then None else Some n
                    | _ => None
                    end
  | _ => None
  end.

Definition collect_names (config : Mapping) (list_key : string) : gset string :=
  match get_str list_key config with
  | Some (VSequence seq) => list_to_set (omap collected_name seq)
  | _ => ∅
  end.

Definition valid_targets (config : Mapping) : gset string :=
  collect_names config "proxies" ∪ collect_names config "proxy-groups" ∪ {["DIRECT"%string; "REJECT"%string]}.

(** An edit through [as_sequence_mut]. *)
Fixpoint edit_sequence (f : Sequence -> Sequence) (v : Value) : Value :=
  match v with
  | VTagged t v => VTagged t (edit_sequence f v)
  | VSequence l => VSequence (f l)
  | _ => v
  end.

Definition sanitize_tunnel (valid : gset string) (tunnel : Mapping) : Mapping :=
  match get_str "proxy" tunnel ≫= as_str with
  | Some proxy_name =>
      if is_direct proxy_name then tunnel
      else if bool_decide (proxy_name ∈ valid) then tunnel else (remove_str "proxy" tunnel).2
  | None => tunnel
  end.

Definition sanitize_tunnels_proxy (config : Mapping) : Mapping :=
  match get_str "tunnels" config ≫= as_sequence with
  | Some tunnels =>
      if tunnels_need_validation tunnels
      then edit_str "tunnels" (edit_sequence (map (edit_mapping (sanitize_tunnel (valid_targets config))))) config
      else config
  | None => config
  end.
End chains.

(** ** what a chain does *)

(** The entry before a name in a chain. *)
Fixpoint predecessor (previous : option Value) (chain : list Value) (name : option Value) : option Value :=
  match chain with
  | [] => None
  | n :: chain => if bool_decide (name = Some n) then previous else predecessor (Some n) chain name
  end.

Definition dialer (proxy : Value) : option Value := value_get "dialer-proxy" proxy.

(** One pass of the chain over a proxy. *)
Fixpoint chained (previous : option Value) (chain : list Value) (proxy : Value) : Value :=
  match chain with
  | [] => proxy
  | name :: chain =>
      chained (Some name) chain
        match previous with Some d => if is_named name proxy then dial_through d proxy else proxy | None => proxy end
  end.

Lemma dial_through_get d proxy k :
  k <> "dialer-proxy"%string -> value_get k (dial_through d proxy) = value_get k proxy.
Proof. intros Hk. destruct proxy; try done. unfold value_get. cbn. rewrite get_insert_str. by rewrite decide_False. Qed.

Lemma edit_first_map name f l :
  NoDup (omap (value_get "name") l) -> edit_first (is_named name) f l = map (fun p => if is_named name p then f p else p) l.
Proof.
  assert (Hnone : forall l, name ∉ omap (value_get "name") l -> map (fun p => if is_named name p then f p else p) l = l).
  { clear l. intros l Hn. induction l as [|p l IH]; [done|]. cbn. unfold is_named at 1. case_bool_decide as Hp.
    - destruct Hn. apply list_elem_of_omap. exists p. split; [left|done].
    - f_equal. apply IH. intros Hin. apply Hn. apply list_elem_of_omap in Hin as (x & Hx & Hv).
      apply list_elem_of_omap. exists x. split; [by right|done]. }
  induction l as [|p l IH]; intros Hd; [done|]. cbn.
  rewrite omap_cons_eq in Hd. unfold is_named at 1 3.
  destruct (value_get "name" p) as [n|] eqn:En; [apply NoDup_cons in Hd as [Hn Hd]|]; case_bool_decide as Hp; try done.
  - injection Hp as ->. f_equal. symmetry. by apply Hnone.
  - f_equal. by apply IH.
  - f_equal. by apply IH.
Qed.

Lemma omap_names_map f l :
  (forall p, p ∈ l -> value_get "name" (f p) = value_get "name" p) ->
  omap (value_get "name") (map f l) = omap (value_get "name") l.
Proof.
  intros Hf. induction l as [|p l IH]; [done|]. cbn [map]. rewrite !omap_cons_eq, Hf by left.
  rewrite IH; [done|]. intros x Hx. apply Hf. by right.
Qed.

Lemma link_chain_map previous chain l :
  NoDup (omap (value_get "name") l) -> link_chain previous chain l = map (chained previous chain) l.
Proof.
  revert previous l. induction chain as [|name chain IH]; intros previous l Hd; cbn [link_chain chained].
  { by rewrite map_id. }
  destruct previous as [d|]; [|by apply IH]. rewrite edit_first_map by done.
  rewrite IH, map_map; [done|]. rewrite omap_names_map; [done|]. intros p _. destruct (is_named name p); [|done].
  by rewrite dial_through_get.
Qed.

(** A plain mapping dials through its predecessor, and keeps everything else. *)
Lemma chained_spec previous chain m :
  NoDup chain -> exists m', chained previous chain (VMapping m) = VMapping m' /\
    (forall k, k <> "dialer-proxy"%string -> get_str k m' = get_str k m) /\
    get_str "dialer-proxy" m' = match predecessor previous chain (get_str "name" m) with
                                | Some d => Some d
                                | None => get_str "dialer-proxy" m
                                end.
Proof.
  intros Hd. revert previous m. induction Hd as [|name chain Hn Hd IH]; intros previous m; cbn [chained predecessor].
  { by exists m. }
  assert (Hnamed : is_named name (VMapping m) = bool_decide (get_str "name" m = Some name)) by done.
  rewrite Hnamed. case_bool_decide as Hname.
  - assert (Hrest : forall q, predecessor q chain (Some name) = None).
    { clear IH Hd Hnamed. induction chain as [|n chain IHc]; intros q; [done|]. cbn. apply not_elem_of_cons in Hn as [Hne Hn].
      rewrite bool_decide_eq_false_2 by congruence. by apply IHc. }
    destruct previous as [d|].
    + destruct (IH (Some name) (insert_str "dialer-proxy" d m)) as (m' & Hm' & Hk & Hdial). exists m'. split; [exact Hm'|].
      split; [intros k Hne; rewrite Hk by done; rewrite get_insert_str; by rewrite decide_False|].
      rewrite Hdial, !get_insert_str, decide_False, decide_True by done. by rewrite Hname, Hrest.
    + destruct (IH (Some name) m) as (m' & Hm' & Hk & Hdial). exists m'. split; [exact Hm'|]. split; [done|].
      by rewrite Hdial, Hname, Hrest.
  - destruct previous as [d|]; apply IH.
Qed.

Section exact.
Context `{MappingLaws}.

(** A proxy with no tag and no repeated key. *)
Definition plain_proxy (v : Value) : Prop := exists m, v = VMapping m /\ mwf m.

Lemma without_dialer_spec v :
  plain_proxy v -> exists m, without_dialer v = VMapping m /\ get_str "dialer-proxy" m = None /\
    forall k, k <> "dialer-proxy"%string -> get_str k m = value_get k v.
Proof.
  intros (m & -> & Hm). unfold without_dialer. cbn [edit_mapping].
  destruct (get_str "dialer-proxy" m) eqn:Ed; eexists; (split; [reflexivity|]); [|by split].
  rewrite get_remove_str, decide_True by done.
  split; [done|]. intros k Hk. rewrite get_remove_str by done. by rewrite decide_False.
Qed.

Lemma chained_proxy chain p :
  NoDup chain -> plain_proxy p ->
  (forall k, k <> "dialer-proxy"%string -> value_get k (chained None chain (without_dialer p)) = value_get k p) /\
  dialer (chained None chain (without_dialer p)) = predecessor None chain (value_get "name" p).
Proof.
  intros Hchain Hp. destruct (without_dialer_spec p Hp) as (m & -> & Hnone & Hkeep).
  destruct (chained_spec None chain m Hchain) as (m' & -> & Hk & Hd). unfold dialer. split.
  - intros k Hne. rewrite <- (Hkeep k Hne), <- (Hk k Hne). done.
  - rewrite <- (Hkeep "name"%string) by done. change (get_str "dialer-proxy" m' = predecessor None chain (get_str "name" m)).
    rewrite Hd, Hnone. by destruct (predecessor _ _ _).
Qed.

(** Updating the proxy chain makes every proxy of the chain dial through its
    predecessor and no other proxy dial through anything, and changes nothing
    else of the configuration. *)
Theorem proxy_chain_is_exact self config proxies chain :
  rt_config self = Some config -> get_str "proxies" config = Some (VSequence proxies) ->
  Forall plain_proxy proxies ->
  (* no two proxies have the same name, and no name is twice in the chain *)
  NoDup (omap (value_get "name") proxies) -> NoDup chain ->
  exists config' proxies',
    rt_config (update_proxy_chain_config (Some (VSequence chain)) self) = Some config' /\
    get_str "proxies" config' = Some (VSequence proxies') /\
    (forall k, k <> "proxies"%string -> get_str k config' = get_str k config) /\
    Forall2 (fun p p' =>
      (forall k, k <> "dialer-proxy"%string -> value_get k p' = value_get k p) /\
      dialer p' = predecessor None chain (value_get "name" p)) proxies proxies'.
Proof.
  intros Hc Hp Hplain Hnames Hchain. unfold update_proxy_chain_config. rewrite Hc, Hp.
  rewrite get_insert_str, decide_True by done. rewrite link_chain_map.
  - eexists _, _. split; [done|]. rewrite get_insert_str, decide_True by done. split; [done|].
    split; [intros k Hk; rewrite !get_insert_str; by rewrite !decide_False|].
    rewrite map_map. clear Hc Hp Hnames. induction Hplain as [|p ps Hpp Hps IH]; [constructor|]. constructor; [|done].
    by apply chained_proxy.
  - rewrite omap_names_map; [done|]. intros p Hin. rewrite Forall_forall in Hplain.
    destruct (without_dialer_spec p (Hplain p Hin)) as (m & -> & _ & Hkeep). by rewrite <- Hkeep.
Qed.

(** ** tunnels *)

Lemma as_sequence_edit f v : as_sequence (edit_sequence f v) = option_map f (as_sequence v).
Proof. by induction v using value_rect. Qed.

(** After sanitizing, a tunnel that names a proxy names a proxy or a group of
    the configuration, DIRECT or REJECT. *)
Theorem tunnels_name_existing_proxies config tunnels tunnel name :
  (forall item m, item ∈ default [] (get_str "tunnels" config ≫= as_sequence) -> as_mapping item = Some m -> mwf m) ->
  get_str "tunnels" (sanitize_tunnels_proxy config) ≫= as_sequence = Some tunnels ->
  tunnel ∈ tunnels -> tunnel_proxy tunnel = Some name ->
  name ∈ valid_targets (sanitize_tunnels_proxy config).
Proof.
  unfold sanitize_tunnels_proxy. destruct (get_str "tunnels" config ≫= as_sequence) as [old|] eqn:Eo.
  2: { intros _ Ht. by rewrite Eo in Ht. }
  cbn [default]. intros Hw. destruct (tunnels_need_validation old) eqn:En.
  - destruct (get_str "tunnels" config) as [v|] eqn:Et; [|done]. cbn in Eo. unfold edit_str. rewrite Et.
    set (edit := map (edit_mapping (sanitize_tunnel (valid_targets config)))).
    assert (Hvalid : valid_targets (insert_str "tunnels" (edit_sequence edit v) config) = valid_targets config).
    { unfold valid_targets, collect_names. rewrite !get_insert_str. by rewrite !decide_False. }
    rewrite Hvalid, get_insert_str, decide_True by done. cbn. rewrite as_sequence_edit, Eo. intros [= <-] Hin Hname.
    apply list_elem_of_fmap in Hin as (item & -> & Hin). unfold tunnel_proxy, value_get in Hname.
    rewrite as_mapping_edit in Hname. destruct (as_mapping item) as [m|] eqn:Em; [|done]. cbn [option_map] in Hname.
    unfold sanitize_tunnel in Hname. destruct (get_str "proxy" m ≫= as_str) as [n|] eqn:Ep; [|by rewrite Ep in Hname].
    destruct (is_direct n) eqn:Ed.
    { rewrite Ep in Hname. injection Hname as <-. unfold valid_targets. apply orb_true_iff in Ed as [Ed|Ed]; reflect_bools; set_solver. }
    case_bool_decide as Hv; [rewrite Ep in Hname; by injection Hname as <-|].
    rewrite get_remove_str, decide_True in Hname by (done || by eapply Hw). done.
  - intros Ht Hin Hname. rewrite Eo in Ht. injection Ht as <-. unfold tunnels_need_validation in En.
    assert (Hd : is_direct name = true).
    { destruct (is_direct name) eqn:Ed; [done|]. rewrite <- En. apply existsb_exists. exists tunnel.
      split; [by apply list_elem_of_In|]. by rewrite Hname, Ed. }
    unfold valid_targets. apply orb_true_iff in Hd as [Hd|Hd]; reflect_bools; set_solver.
Qed.
End exact.
