(* ===== verification/ClashConfig.v ===== *)
(** * ClashConfig: the settings of the core

    [IClashTemp] ([src-tauri/src/config/clash.rs]): the mapping the desktop application
    keeps for the core.  Its template, the guards that read a port or a control address out
    of whatever the file holds, the normalisation [guard] done when the file is read,
    patching, and the view handed to the clients of the control port.

    A port given as a number is cut to sixteen bits ([u as u16]), one given as text has to
    parse; zero and everything else is the default.  The platform is a parameter, like the
    path of the control socket ([ipc_path]) and the text of a floating-point number. *)

From Stdlib Require Import Ascii String.
From S2P Require Import Prelude Text IpAddr IpRoundTrip SocketAddr Yaml Enhance.

Definition DEFAULT_EXTERNAL_CONTROLLER : string := "127.0.0.1:9097".
Definition DEFAULT_REDIR : Z := 7895.
Definition DEFAULT_TPROXY : Z := 7896.
Definition DEFAULT_MIXED : Z := 7897.
Definition DEFAULT_SOCKS : Z := 7898.
Definition DEFAULT_HTTP : Z := 7899.
Definition DEFAULT_STACK : string := "gvisor".
Definition DNS_HIJACK : list string := ["any:53"%string].

Record ClashInfo := {
  info_mixed_port : Z;
  info_socks_port : Z;
  info_port : Z;
  info_server : string;
  info_secret : option string
}.

(** What the settings take from the rest of the program: the path of the control socket
    where there is one, [Number]'s text of a float, the development build. *)
Class ClashEnv := {
  ce_platform : Platform;
  ce_ipc_path : option string;
  ce_float_text : Z -> string;
  ce_verge_dev : bool
}.

Definition port_value (port : Z) : Value := VNumber (PosInt port).

(** ** the guards *)

(** [Number::as_u64]. *)
Definition as_u64 (n : Number) : option Z := match n with PosInt n => Some n | _ => None end.

(** The closure the port guards share, at [u16]. *)
Definition port_of (value : Value) : option Z :=
  match value with
  | VString s => parse_uint u16_max s
  | VNumber n => u ← as_u64 n; Some (u mod 2 ^ 16)
  | _ => None
  end.

Definition guard_port_at (key : string) (default_port : Z) (config : Mapping) : Z :=
  let port := default default_port (get_str key config ≫= port_of) in
  if port =? 0 then default_port else port.

Definition guard_redir_port : Mapping -> Z := guard_port_at "redir-port" DEFAULT_REDIR.
Definition guard_tproxy_port : Mapping -> Z := guard_port_at "tproxy-port" DEFAULT_TPROXY.
Definition guard_mixed_port : Mapping -> Z := guard_port_at "mixed-port" DEFAULT_MIXED.
Definition guard_socks_port : Mapping -> Z := guard_port_at "socks-port" DEFAULT_SOCKS.
Definition guard_port : Mapping -> Z := guard_port_at "port" DEFAULT_HTTP.

Definition controller_text (val_str : string) : option string :=
  let val_str := trim val_str in
  let val := if starts_with val_str ":" then String.append "127.0.0.1" val_str else val_str in
  a ← parse_socket val; Some (print_socket a).

Definition guard_server_ctrl (config : Mapping) : string :=
  default DEFAULT_EXTERNAL_CONTROLLER
    (v ← get_str "external-controller" config; s ← as_str v; controller_text s).

Definition guard_external_controller : Mapping -> string := guard_server_ctrl.

Definition guard_external_controller_with_setting (enable_external_controller : option bool)
    (config : Mapping) : string :=
  if default false enable_external_controller then guard_server_ctrl config else ""%string.

Definition LOCALHOST : IpAddr := V4 2130706433.

Definition guard_client_ctrl (config : Mapping) : string :=
  match parse_socket (guard_server_ctrl config) with
  | Some socket =>
      print_socket (if is_unspecified (socket_ip socket) then set_ip LOCALHOST socket else socket)
  | None => DEFAULT_EXTERNAL_CONTROLLER
  end.

Section clash.
Context `{ClashEnv}.

Definition guard_external_controller_ipc : string := default DEFAULT_EXTERNAL_CONTROLLER ce_ipc_path.

(** The keys and the values [guard] writes, in its order. *)
Definition guarded_entries (config : Mapping) : list (string * Value) :=
  (match ce_platform with Windows => [] | _ => [("redir-port"%string, port_value (guard_redir_port config))] end) ++
  (match ce_platform with Linux => [("tproxy-port"%string, port_value (guard_tproxy_port config))] | _ => [] end) ++
  [("mixed-port"%string, port_value (guard_mixed_port config));
   ("socks-port"%string, port_value (guard_socks_port config));
   ("port"%string, port_value (guard_port config));
   ("external-controller"%string, VString (guard_external_controller config))] ++
  (match ce_platform with
   | Windows => [("external-controller-pipe"%string, VString guard_external_controller_ipc)]
   | _ => [("external-controller-unix"%string, VString guard_external_controller_ipc)]
   end).

Definition insert_all (l : list (string * Value)) (config : Mapping) : Mapping :=
  fold_left (fun config e => insert_str e.1 e.2 config) l config.

Definition guard (config : Mapping) : Mapping := insert_all (guarded_entries config) config.

(** ** the template, reading and patching *)

Definition template_tun : Mapping :=
  insert_all [("enable", VBool false); ("stack", VString DEFAULT_STACK); ("auto-route", VBool true);
    ("strict-route", VBool false); ("auto-detect-interface", VBool true);
    ("dns-hijack", VSequence (map VString DNS_HIJACK))]%string [].

Definition template_cors : Mapping :=
  insert_all [("allow-private-network", VBool true);
    ("allow-origins", VSequence (map VString
      (["tauri://localhost"; "http://tauri.localhost"] ++
       (if ce_verge_dev then ["http://localhost:3000"] else []) ++
       ["https://yacd.metacubex.one"; "https://metacubex.github.io"; "https://board.zash.run.place"])))]%string [].

Definition template : Mapping :=
  insert_all
    ((match ce_platform with Windows => [] | _ => [("redir-port"%string, port_value DEFAULT_REDIR)] end) ++
     (match ce_platform with Linux => [("tproxy-port"%string, port_value DEFAULT_TPROXY)] | _ => [] end) ++
     [("mixed-port", port_value DEFAULT_MIXED); ("socks-port", port_value DEFAULT_SOCKS);
      ("port", port_value DEFAULT_HTTP); ("log-level", VString "info"); ("allow-lan", VBool false);
      ("ipv6", VBool true); ("mode", VString "rule");
      ("external-controller", VString DEFAULT_EXTERNAL_CONTROLLER)]%string ++
     (match ce_platform with
      | Windows => [("external-controller-pipe"%string, VString guard_external_controller_ipc)]
      | _ => [("external-controller-unix"%string, VString guard_external_controller_ipc)]
      end) ++
     [("tun", VMapping template_tun); ("secret", VString "set-your-secret");
      ("external-controller-cors", VMapping template_cors); ("unified-delay", VBool true)]%string) [].

(** The template's entries the file does not have are added. *)
Definition add_missing (map template_map : Mapping) : Mapping :=
  fold_left (fun map e => if is_some (m_get e.1 map) then map else m_insert e.1 e.2 map) template_map map.

Definition fill_secret (map : Mapping) : Mapping :=
  match get_str "secret" map with
  | Some (VString s) => if is_empty s then insert_str "secret" (VString "set-your-secret") map else map
  | _ => map
  end.

(** [IClashTemp::new], from what [read_mapping] makes of the file. *)
Definition clash_new (map_result : option Mapping) : Mapping :=
  match map_result with
  | Some map => guard (fill_secret (add_missing map template))
  | None => template
  end.

Definition clash_patch_config (patch config : Mapping) : Mapping := m_extend config patch.

(** ** what the clients see *)

Definition number_text (n : Number) : string :=
  match n with
  | PosInt n => print_uint n
  | NegInt n => String.append "-" (print_uint (- n))
  | Float bits => ce_float_text bits
  end.

Definition secret_text (value : Value) : option string :=
  match value with
  | VString s => Some s
  | VBool b => Some (if b then "true" else "false")%string
  | VNumber n => Some (number_text n)
  | _ => None
  end.

Definition get_client_info (config : Mapping) : ClashInfo := {|
  info_mixed_port := guard_mixed_port config;
  info_socks_port := guard_socks_port config;
  info_port := guard_port config;
  info_server := guard_client_ctrl config;
  info_secret := get_str "secret" config ≫= secret_text
|}.

Definition get_mode (config : Mapping) : option string :=
  match get_str "mode" config with Some (VString s) => Some s | _ => None end.
End clash.

(** * The normalised settings of the core are usable

    Whatever the settings file holds, after [guard] every port is a port and the control
    address reads as an address; normalising again changes nothing, and the clients are
    given the same ports and an address they can connect to. *)

(** ** writing entries *)

Lemma get_insert_all_ne k l m : k ∉ l.*1 -> get_str k (insert_all l m) = get_str k m.
Proof.
  revert m. induction l as [|[k' v] l IH]; intros m; [done|]. cbn [fmap list_fmap fst].
  intros [Hne Hin]%not_elem_of_cons.
  change (insert_all ((k', v) :: l) m) with (insert_all l (insert_str k' v m)). rewrite IH by done.
  rewrite get_insert_str. by rewrite decide_False.
Qed.

Lemma get_insert_all k v l m : NoDup l.*1 -> (k, v) ∈ l -> get_str k (insert_all l m) = Some v.
Proof.
  revert m. induction l as [|[k' v'] l IH]; intros m; [by intros _ ?%elem_of_nil|].
  cbn [fmap list_fmap fst].
  intros [Hk Hnd]%NoDup_cons [[= -> ->]|Hin]%elem_of_cons.
  - change (insert_all ((k', v') :: l) m) with (insert_all l (insert_str k' v' m)).
    rewrite get_insert_all_ne by done. rewrite get_insert_str. by rewrite decide_True.
  - by apply IH.
Qed.

Lemma insert_all_same l m : Forall (fun e => get_str e.1 m = Some e.2) l -> insert_all l m = m.
Proof.
  induction 1 as [|[k v] l Hk _ IH]; [done|].
  change (insert_all ((k, v) :: l) m) with (insert_all l (insert_str k v m)).
  unfold insert_str. cbn in Hk. by rewrite m_insert_same.
Qed.

Lemma insert_all_twice l m : NoDup l.*1 -> insert_all l (insert_all l m) = insert_all l m.
Proof.
  intros Hnd. apply insert_all_same, Forall_forall. intros [k v] Hin. by apply get_insert_all.
Qed.

(** ** the guards *)

Lemma port_of_range v p : port_of v = Some p -> 0 <= p <= u16_max.
Proof.
  destruct v as [| |n|s| | |]; cbn; try done.
  - destruct n as [n| |]; cbn; try done. intros [= <-]. pose proof (Z.mod_pos_bound n (2 ^ 16)).
    change (Z.pow_pos 2 16) with (2 ^ 16). unfold u16_max. lia.
  - by apply parse_uint_range.
Qed.

Lemma guard_port_at_range key d config : 1 <= d <= 65535 -> 1 <= guard_port_at key d config <= 65535.
Proof.
  intros Hd. unfold guard_port_at. destruct (get_str key config ≫= port_of) as [p|] eqn:Hp; cbn.
  - apply bind_Some in Hp as (v & _ & Hp%port_of_range). unfold u16_max in Hp.
    destruct (Z.eqb_spec p 0); lia.
  - destruct (Z.eqb_spec d 0); lia.
Qed.

Lemma guard_port_at_fixed key d config p :
  get_str key config = Some (port_value p) -> 1 <= p <= 65535 -> guard_port_at key d config = p.
Proof.
  intros Hk Hp. unfold guard_port_at. rewrite Hk. cbn -[Z.modulo Z.pow].
  rewrite Z.mod_small by lia. by rewrite (proj2 (Z.eqb_neq _ _)) by lia.
Qed.

(** Nothing is trimmed from text without blanks. *)
Lemma chars_graphic l : forallb graphic l = true -> chars_bytes l = map byte l.
Proof.
  induction l as [|c l IH]; [done|]. cbn [forallb chars_bytes map]. unfold graphic at 1.
  intros Hl. reflect_bools. rewrite (proj2 (Z.ltb_lt _ _)) by lia. by rewrite IH.
Qed.

Lemma graphic_not_white c : graphic c = true -> char_is_whitespace (byte c) = false.
Proof.
  unfold graphic, char_is_whitespace. intros Hc. reflect_bools.
  repeat (apply orb_false_iff; split); try apply andb_false_iff; lia.
Qed.

Lemma trim_graphic s : forallb graphic (bytes s) = true -> trim s = s.
Proof.
  intros Hg. unfold trim. set (l := bytes s) in *.
  assert (Hs : trim_start (length l) l = l).
  { destruct l as [|c l]; [done|]. cbn [length trim_start]. rewrite chars_graphic by done.
    cbn in Hg |- *. apply andb_true_iff in Hg as [Hc _]. by rewrite graphic_not_white. }
  assert (He : trim_end (length l) l = l).
  { destruct (length l) eqn:Hl; [done|]. cbn [trim_end]. rewrite chars_graphic by done.
    change (map byte l) with (byte <$> l). rewrite fmap_last. destruct (last l) as [c|] eqn:Hc; [|done]. cbn.
    rewrite graphic_not_white; [done|]. rewrite forallb_forall in Hg. apply Hg, list_elem_of_In.
    by eapply last_Some_elem_of. }
  rewrite Hs, He. apply str_bytes.
Qed.

Lemma controller_text_printed a : socket_wf a -> controller_text (print_socket a) = Some (print_socket a).
Proof.
  intros Ha. unfold controller_text. rewrite trim_graphic.
  - rewrite print_socket_no_colon by done. by rewrite parse_print_socket.
  - unfold print_socket. rewrite bytes_str. by apply print_socket_graphic.
Qed.

Definition default_controller : SocketAddr := SocketV4 2130706433 9097.

Lemma guard_server_ctrl_printed config :
  exists a, socket_wf a /\ guard_server_ctrl config = print_socket a.
Proof.
  unfold guard_server_ctrl. destruct (v ← _; _) as [t|] eqn:Ht; cbn [default from_option].
  - apply bind_Some in Ht as (v & _ & Ht). apply bind_Some in Ht as (s & _ & Ht).
    unfold controller_text in Ht. apply bind_Some in Ht as (a & Ha & [= <-]).
    exists a. split; [|done]. by eapply parse_socket_wf.
  - exists default_controller. split; [|by vm_compute].
    by apply (parse_socket_wf DEFAULT_EXTERNAL_CONTROLLER).
Qed.

Lemma guard_server_ctrl_fixed config a : socket_wf a ->
  get_str "external-controller" config = Some (VString (print_socket a)) ->
  guard_server_ctrl config = print_socket a.
Proof.
  intros Ha Hk. unfold guard_server_ctrl. rewrite Hk.
  change (default DEFAULT_EXTERNAL_CONTROLLER (controller_text (print_socket a)) = print_socket a).
  by rewrite controller_text_printed.
Qed.

Lemma guard_client_ctrl_spec config a : socket_wf a -> guard_server_ctrl config = print_socket a ->
  exists b, socket_wf b /\ guard_client_ctrl config = print_socket b /\
    is_unspecified (socket_ip b) = false /\ socket_port b = socket_port a /\
    (is_unspecified (socket_ip a) = false -> b = a).
Proof.
  intros Ha Hs. unfold guard_client_ctrl. rewrite Hs, parse_print_socket by done.
  destruct (is_unspecified (socket_ip a)) eqn:Hu.
  - exists (set_ip LOCALHOST a). destruct Ha as (_ & Hp & _).
    split; [|done]. split; [|done]. unfold addr_wf. cbn. lia.
  - by exists a.
Qed.

(** ** the normalised settings *)

Section guard.
Context `{ClashEnv}.

(** The port settings the platform has, with their defaults. *)
Definition port_keys : list (string * Z) :=
  (match ce_platform with Windows => [] | _ => [("redir-port"%string, DEFAULT_REDIR)] end) ++
  (match ce_platform with Linux => [("tproxy-port"%string, DEFAULT_TPROXY)] | _ => [] end) ++
  [("mixed-port"%string, DEFAULT_MIXED); ("socks-port"%string, DEFAULT_SOCKS); ("port"%string, DEFAULT_HTTP)].

Lemma guarded_keys config : (guarded_entries config).*1 =
  port_keys.*1 ++ ["external-controller"%string;
    match ce_platform with Windows => "external-controller-pipe"%string | _ => "external-controller-unix"%string end].
Proof. unfold guarded_entries, port_keys. by destruct ce_platform. Qed.

Lemma guarded_keys_nodup config : NoDup (guarded_entries config).*1.
Proof.
  rewrite guarded_keys. unfold port_keys. destruct ce_platform; by apply (bool_decide_eq_true_1 (NoDup _)).
Qed.

Lemma guarded_port key d config : (key, d) ∈ port_keys ->
  (key, port_value (guard_port_at key d config)) ∈ guarded_entries config /\ 1 <= d <= 65535.
Proof.
  unfold port_keys, guarded_entries. intros Hin.
  destruct ce_platform; cbn in Hin; rewrite !elem_of_cons, elem_of_nil in Hin;
    destruct_or?; simplify_eq; (split; [|done]); set_solver.
Qed.

Lemma guarded_controller config :
  ("external-controller"%string, VString (guard_server_ctrl config)) ∈ guarded_entries config.
Proof. unfold guarded_entries. destruct ce_platform; set_solver. Qed.

Lemma guard_get_port key d config : (key, d) ∈ port_keys ->
  get_str key (guard config) = Some (port_value (guard_port_at key d config)).
Proof. intros Hin. apply get_insert_all; [apply guarded_keys_nodup|by apply guarded_port]. Qed.

Lemma guard_keeps_port key d config : (key, d) ∈ port_keys ->
  guard_port_at key d (guard config) = guard_port_at key d config.
Proof.
  intros Hin. apply guard_port_at_fixed; [by apply guard_get_port|].
  by apply guard_port_at_range, (guarded_port key d config).
Qed.

Lemma guard_get_controller config :
  get_str "external-controller" (guard config) = Some (VString (guard_server_ctrl config)).
Proof. apply get_insert_all; [apply guarded_keys_nodup|apply guarded_controller]. Qed.

Lemma guard_keeps_controller config : guard_server_ctrl (guard config) = guard_server_ctrl config.
Proof.
  destruct (guard_server_ctrl_printed config) as (a & Ha & Hs). rewrite Hs.
  apply guard_server_ctrl_fixed; [done|]. by rewrite guard_get_controller, Hs.
Qed.

Lemma guarded_entries_fixed config : guarded_entries (guard config) = guarded_entries config.
Proof.
  unfold guarded_entries, guard_redir_port, guard_tproxy_port, guard_mixed_port, guard_socks_port, guard_port,
    guard_external_controller.
  rewrite !guard_keeps_controller.
  rewrite (guard_keeps_port "mixed-port"), (guard_keeps_port "socks-port"), (guard_keeps_port "port")
    by (unfold port_keys; set_solver).
  destruct ce_platform eqn:Hp; [done|..].
  all: rewrite (guard_keeps_port "redir-port") by (unfold port_keys; rewrite Hp; set_solver).
  - by rewrite (guard_keeps_port "tproxy-port") by (unfold port_keys; rewrite Hp; set_solver).
  - done.
Qed.

Lemma guard_idempotent config : guard (guard config) = guard config.
Proof.
  unfold guard at 1. rewrite guarded_entries_fixed. apply insert_all_twice, guarded_keys_nodup.
Qed.

(** The ports of each platform with their defaults, and every key [guard] may write,
    written out. *)
Definition platform_ports : list (string * Z) :=
  match ce_platform with
  | Windows => [("mixed-port", 7897); ("socks-port", 7898); ("port", 7899)]
  | Linux => [("redir-port", 7895); ("tproxy-port", 7896); ("mixed-port", 7897); ("socks-port", 7898);
              ("port", 7899)]
  | OtherUnix => [("redir-port", 7895); ("mixed-port", 7897); ("socks-port", 7898); ("port", 7899)]
  end%string.

Definition normalised_keys : list string :=
  match ce_platform with
  | Windows => ["mixed-port"; "socks-port"; "port"; "external-controller"; "external-controller-pipe"]
  | Linux => ["redir-port"; "tproxy-port"; "mixed-port"; "socks-port"; "port"; "external-controller";
              "external-controller-unix"]
  | OtherUnix => ["redir-port"; "mixed-port"; "socks-port"; "port"; "external-controller";
                  "external-controller-unix"]
  end%string.

Definition ipc_key : string :=
  match ce_platform with Windows => "external-controller-pipe" | _ => "external-controller-unix" end.

Lemma platform_ports_eq : platform_ports = port_keys.
Proof. unfold platform_ports, port_keys. by destruct ce_platform. Qed.

Lemma normalised_keys_eq config : normalised_keys = (guarded_entries config).*1.
Proof. rewrite guarded_keys. unfold normalised_keys, port_keys. by destruct ce_platform. Qed.

Lemma guard_get_ipc config :
  get_str ipc_key (guard config) =
    Some (VString match ce_ipc_path with Some path => path | None => "127.0.0.1:9097" end).
Proof.
  apply get_insert_all; [apply guarded_keys_nodup|].
  assert (Hipc : guard_external_controller_ipc =
    match ce_ipc_path with Some path => path | None => "127.0.0.1:9097"%string end)
    by (unfold guard_external_controller_ipc; by destruct ce_ipc_path).
  rewrite <- Hipc. unfold ipc_key, guarded_entries. destruct ce_platform; set_solver.
Qed.


(** ** reading the file *)

Lemma add_missing_get k m t :
  m_get k (add_missing m t) = match m_get k m with Some v => Some v | None => m_get k t end.
Proof.
  revert m. induction t as [|[k' v] t IH]; intros m; cbn; [by destruct (m_get k m)|].
  change (fold_left _ t ?m') with (add_missing m' t). rewrite IH.
  destruct (decide (k' = k)) as [->|Hne]; destruct (m_get _ m) as [w|] eqn:Hm; cbn;
    rewrite ?Hm, ?m_get_insert_eq, ?m_get_insert_ne by done; done.
Qed.
Lemma fill_secret_get k m : k <> "secret"%string -> get_str k (fill_secret m) = get_str k m.
Proof.
  intros Hk. unfold fill_secret. repeat case_match; try done. rewrite get_insert_str.
  by rewrite decide_False.
Qed.

Lemma fill_secret_filled m : get_str "secret" (fill_secret m) <> Some (VString "").
Proof.
  unfold fill_secret. destruct (get_str "secret" m) as [[| | |s| | |]|] eqn:Hs; try congruence.
  destruct (is_empty s) eqn:He; [by rewrite get_insert_str|]. apply is_empty_false in He. congruence.
Qed.

Lemma template_is_guarded : guard template = template.
Proof. unfold guard, guarded_entries, template. destruct ce_platform; by vm_compute. Qed.

(** What [IClashTemp::new] makes of the settings file: without a readable file it is the
    template, and otherwise a key outside the guarded ones and the secret has the file's
    value, or the template's where the file has none; the secret is never empty; and the
    result is normalised in both cases. *)
Theorem read_settings_are_complete map_result :
  guard (clash_new map_result) = clash_new map_result /\
  get_str "secret" (clash_new map_result) <> Some (VString "") /\
  match map_result with
  | None => clash_new map_result = template
  | Some file =>
      forall key, key ∉ (guarded_entries file).*1 -> key <> "secret"%string ->
        get_str key (clash_new map_result) =
          match get_str key file with Some v => Some v | None => get_str key template end
  end.
Proof.
  destruct map_result as [file|]; cbn [clash_new].
  - set (m := fill_secret (add_missing file template)). split; [apply guard_idempotent|].
    assert (Hget : forall key, key ∉ (guarded_entries file).*1 -> get_str key (guard m) = get_str key m).
    { intros key Hin. apply get_insert_all_ne. by rewrite guarded_keys in *. }
    split.
    + rewrite Hget; [apply fill_secret_filled|]. rewrite guarded_keys. unfold port_keys.
      destruct ce_platform; by apply (bool_decide_eq_true_1 (_ ∉ _)).
    + intros key Hin Hs. rewrite Hget by done. unfold m. rewrite fill_secret_get by done. apply add_missing_get.
  - split; [apply template_is_guarded|]. split; [|done].
    unfold template. destruct ce_platform; by vm_compute.
Qed.
End guard.
