(* ===== verification/Timer.v ===== *)
(** * Timer: the scheduler of profile updates

    [src-tauri/src/core/timer.rs]: the map from profiles to intervals, the commands, and
    the scheduler task with its delay queue.  [tokio_util]'s [DelayQueue] is the class
    [DelayQueue]; removing or resetting a key it does not hold panics there, which is the
    error of the scheduler's monad here.  Which entry expires next is the environment's
    choice; an update that was spawned is in progress until its [TaskFinished] arrives. *)

From Stdlib Require Import Ascii String.
From S2P Require Import Prelude Text ProfileItem.

Class DelayQueue (Q : Type) := {
  dq_new : Q;
  (* [None]: the deadline is too far in the future *)
  dq_insert : string -> Z -> Q -> option (Z * Q);
  dq_remove : Z -> Q -> option Q;
  dq_reset : Z -> Z -> Q -> option Q;
  (* the entry under the key has expired *)
  dq_expire : Z -> Q -> option (string * Q);
}.

(** A [HashMap] that is iterated is given in the order of its iteration. *)
Inductive TimerCommand : Type :=
| TcApply (map : list (string * Z))
| TcRunNow (uid : string)
| TcTaskFinished (uid : string).

Record TaskState := { ts_key : option Z; ts_interval_minutes : Z; ts_running : bool }.

Definition TaskState_new (key interval_minutes : Z) : TaskState :=
  {| ts_key := Some key; ts_interval_minutes := interval_minutes; ts_running := false |}.

Definition ts_set_key (key : option Z) (st : TaskState) : TaskState :=
  {| ts_key := key; ts_interval_minutes := ts_interval_minutes st; ts_running := ts_running st |}.
Definition ts_set_interval (v : Z) (st : TaskState) : TaskState :=
  {| ts_key := ts_key st; ts_interval_minutes := v; ts_running := ts_running st |}.
Definition ts_set_running (v : bool) (st : TaskState) : TaskState :=
  {| ts_key := ts_key st; ts_interval_minutes := ts_interval_minutes st; ts_running := v |}.

(** ** the map *)

(** Whether the loop inserts the item, and with which interval. *)
Definition timer_entry (item : PrfItem) : option (string * Z) :=
  match item_option item with
  | Some option =>
      match update_interval option, uid item with
      | Some interval, Some uid =>
          if match allow_auto_update option with Some b => b | None => true end && (0 <? interval)
          then Some (uid, interval) else None
      | _, _ => None
      end
  | None => None
  end.

Definition gen_map_from_items (items : list PrfItem) : gmap string Z :=
  fold_left (fun new_map item =>
    match timer_entry item with Some (uid, interval) => <[uid := interval]> new_map | None => new_map end)
  items ∅.

Definition gen_map (items : option (list PrfItem)) : gmap string Z :=
  match items with Some items => gen_map_from_items items | None => ∅ end.

(** ** the timer *)

Record Timer := {
  tm_sent : list TimerCommand;
  tm_scheduler_started : bool;
  tm_timer_map : gmap string Z;
  tm_initialized : bool;
}.

Definition Timer_new : Timer :=
  {| tm_sent := []; tm_scheduler_started := false; tm_timer_map := ∅; tm_initialized := false |}.

Definition send_command (c : TimerCommand) (self : Timer) : Timer :=
  {| tm_sent := tm_sent self ++ [c]; tm_scheduler_started := tm_scheduler_started self;
     tm_timer_map := tm_timer_map self; tm_initialized := tm_initialized self |}.

Definition refresh (items : option (list PrfItem)) (self : Timer) : Timer :=
  let new_map := gen_map items in
  if bool_decide (tm_timer_map self = new_map) then self
  else send_command (TcApply (map_to_list new_map))
    {| tm_sent := tm_sent self; tm_scheduler_started := tm_scheduler_started self;
       tm_timer_map := new_map; tm_initialized := tm_initialized self |}.

(** [as i64], and the wrap-around of [i64] arithmetic in the release build. *)
Definition as_i64 (x : Z) : Z := (x + 2 ^ 63) mod 2 ^ 64 - 2 ^ 63.

(** The condition under which [init] runs an update at once; times in seconds. *)
Definition overdue (now : Z) (item : PrfItem) : option string :=
  match item_option item, uid item, updated item with
  | Some option, Some uid, Some updated =>
      match update_interval option with
      | Some interval =>
          if match allow_auto_update option with Some b => b | None => true end && (0 <? interval)
            && (as_i64 (as_i64 interval * 60) <=? as_i64 (now - as_i64 updated))
          then Some uid else None
      | None => None
      end
  | _, _, _ => None
  end.

Definition timer_init (items : option (list PrfItem)) (now : Z) (self : Timer) : Timer :=
  if tm_initialized self then self
  else
    let self := refresh items
      {| tm_sent := tm_sent self; tm_scheduler_started := true; tm_timer_map := tm_timer_map self;
         tm_initialized := true |} in
    fold_left (fun self item => match overdue now item with
                                | Some uid => send_command (TcRunNow uid) self
                                | None => self end)
      (match items with Some items => items | None => [] end) self.

Definition get_next_update_time (items : option (list PrfItem)) (identifier : string) (self : Timer)
  : option Z :=
  match tm_timer_map self !! identifier, items with
  | Some task_interval, Some items =>
      match find (fun item => bool_decide (uid item = Some identifier)) items with
      | Some profile =>
          let updated := as_i64 (match updated profile with Some u => u | None => 0 end) in
          if 0 <? updated then Some (as_i64 (updated + as_i64 (as_i64 task_interval * 60))) else None
      | None => None
      end
  | _, _ => None
  end.

(** ** the scheduler *)

Record Scheduler (Q : Type) := {
  sch_queue : Q;
  sch_tasks : gmap string TaskState;
  sch_spawned : list string;
}.
Arguments sch_queue {Q} _.
Arguments sch_tasks {Q} _.
Arguments sch_spawned {Q} _.

Section scheduler.
Context {Q : Type} `{DelayQueue Q}.
Notation SC := (Scheduler Q).
(** The only error is a panic of the queue. *)
Notation SM A := (M SC unit A).

Definition Scheduler_new : SC := {| sch_queue := dq_new; sch_tasks := ∅; sch_spawned := [] |}.

Definition sch_set_queue (q : Q) (s : SC) : SC :=
  {| sch_queue := q; sch_tasks := sch_tasks s; sch_spawned := sch_spawned s |}.
Definition sch_set_task (uid : string) (st : TaskState) (s : SC) : SC :=
  {| sch_queue := sch_queue s; sch_tasks := <[uid := st]> (sch_tasks s); sch_spawned := sch_spawned s |}.
Definition sch_drop_task (uid : string) (s : SC) : SC :=
  {| sch_queue := sch_queue s; sch_tasks := delete uid (sch_tasks s); sch_spawned := sch_spawned s |}.
Definition sch_set_spawned (l : list string) (s : SC) : SC :=
  {| sch_queue := sch_queue s; sch_tasks := sch_tasks s; sch_spawned := l |}.

Definition interval_duration (interval_minutes : Z) : Z := saturating_mul u64_max interval_minutes 60.

Definition schedule_task (uid : string) (interval_minutes : Z) : SM Z :=
  fun s => match dq_insert uid (interval_duration interval_minutes) (sch_queue s) with
           | Some (key, q) => (Ok key, sch_set_queue q s)
           | None => (Err tt, s)
           end.

Definition queue_remove (key : Z) : SM unit :=
  fun s => match dq_remove key (sch_queue s) with
           | Some q => (Ok tt, sch_set_queue q s)
           | None => (Err tt, s)
           end.

Definition queue_reset (key interval_minutes : Z) : SM unit :=
  fun s => match dq_reset key (interval_duration interval_minutes) (sch_queue s) with
           | Some q => (Ok tt, sch_set_queue q s)
           | None => (Err tt, s)
           end.

Definition remove_key (key : option Z) : SM unit :=
  match key with Some key => queue_remove key | None => ret tt end.

Definition insert_task (uid : string) (interval_minutes : Z) : SM unit :=
  let! key := schedule_task uid interval_minutes in
  modify (sch_set_task uid (TaskState_new key interval_minutes)).

Definition update_task_interval (uid : string) (st : TaskState) (interval_minutes : Z) : SM unit :=
  let st := ts_set_interval interval_minutes st in
  match ts_key st with
  | Some key =>
      queue_reset key interval_minutes ;!
      modify (sch_set_task uid st)
  | None =>
      if negb (ts_running st) then
        let! key := schedule_task uid interval_minutes in
        modify (sch_set_task uid (ts_set_key (Some key) st))
      else modify (sch_set_task uid st)
  end.

(** [tasks.retain]: one task of the old map. *)
Definition retain_task (new_map : list (string * Z)) (entry : string * TaskState) : SM unit :=
  if bool_decide (entry.1 ∈ new_map.*1) then ret tt
  else
    remove_key (ts_key entry.2) ;!
    modify (sch_drop_task entry.1).

(** One entry of the new map. *)
Definition apply_entry (entry : string * Z) : SM unit :=
  let! s := get in
  match sch_tasks s !! entry.1 with
  | None => insert_task entry.1 entry.2
  | Some st =>
      if ts_interval_minutes st =? entry.2 then ret tt
      else update_task_interval entry.1 st entry.2
  end.

Fixpoint for_each {A} (f : A -> SM unit) (l : list A) : SM unit :=
  match l with [] => ret tt | x :: l => f x ;! for_each f l end.

Definition apply_timer_map (new_map : list (string * Z)) : SM unit :=
  let! s := get in
  for_each (retain_task new_map) (map_to_list (sch_tasks s)) ;!
  for_each apply_entry new_map.

Definition mark_task_running (st : TaskState) : bool * TaskState :=
  if negb (ts_running st) then (true, ts_set_running true st) else (false, st).

Definition spawn_update_task (uid : string) : SM unit :=
  modify (fun s => sch_set_spawned (sch_spawned s ++ [uid]) s).

Definition run_expired_task (uid : string) : SM unit :=
  let! s := get in
  match sch_tasks s !! uid with
  | None => ret tt
  | Some st =>
      let (started, st) := mark_task_running (ts_set_key None st) in
      modify (sch_set_task uid st) ;!
      if started : bool then spawn_update_task uid else ret tt
  end.

Definition run_task_now (uid : string) : SM unit :=
  let! s := get in
  match sch_tasks s !! uid with
  | None => ret tt
  | Some st =>
      let (started, st) := mark_task_running st in
      if negb started then ret tt
      else
        remove_key (ts_key st) ;!
        modify (sch_set_task uid (ts_set_key None st)) ;!
        spawn_update_task uid
  end.

Definition finish_task (uid : string) : SM unit :=
  let! s := get in
  match sch_tasks s !! uid with
  | None => ret tt
  | Some st =>
      let! key := schedule_task uid (ts_interval_minutes st) in
      modify (sch_set_task uid (ts_set_key (Some key) (ts_set_running false st)))
  end.

(** One turn of [run_scheduler]. *)
Inductive SchedulerEvent : Type :=
| SeExpired (key : Z)
| SeApply (new_map : list (string * Z))
| SeRunNow (uid : string)
| SeFinished (spawned : nat).

Definition scheduler_turn (ev : SchedulerEvent) : SM unit :=
  match ev with
  | SeExpired key =>
      fun s => match dq_expire key (sch_queue s) with
               | Some (uid, q) => run_expired_task uid (sch_set_queue q s)
               | None => (Ok tt, s)
               end
  | SeApply new_map => apply_timer_map new_map
  | SeRunNow uid => run_task_now uid
  | SeFinished i =>
      let! s := get in
      match sch_spawned s !! i with
      | Some uid =>
          modify (sch_set_spawned (delete i (sch_spawned s))) ;!
          finish_task uid
      | None => ret tt
      end
  end.

Fixpoint scheduler_run (evs : list SchedulerEvent) : SM unit :=
  match evs with [] => ret tt | ev :: evs => scheduler_turn ev ;! scheduler_run evs end.
End scheduler.

(** * Every profile in the map keeps being updated

    Over all orders of commands, expirations and finished updates: the queue is never
    asked for a key it does not hold, and every task is queued or its update is in
    progress.  While no profile is taken from the map during its own update, a profile
    has one entry or one update; a profile that is taken out and put back during its
    update gets two entries. *)

(** What the queue promises: the entries it holds, by key; a new key is not in use. *)
Class DelayQueueLaws (Q : Type) `{DelayQueue Q} := {
  dq_view : Q -> gmap Z string;
  (* the longest delay the queue accepts, in seconds; its documentation says that a
     deadline too far in the future panics *)
  dq_longest : Z;
  law_dq_new : dq_view dq_new = ∅;
  law_dq_insert : forall uid d q, d <= dq_longest -> exists k q', dq_insert uid d q = Some (k, q') /\
    dq_view q !! k = None /\ dq_view q' = <[k := uid]> (dq_view q);
  law_dq_insert_far : forall uid d q, dq_longest < d -> dq_insert uid d q = None;
  law_dq_remove : forall k q uid, dq_view q !! k = Some uid ->
    exists q', dq_remove k q = Some q' /\ dq_view q' = delete k (dq_view q);
  law_dq_reset : forall k d q uid, d <= dq_longest -> dq_view q !! k = Some uid ->
    exists q', dq_reset k d q = Some q' /\ dq_view q' = dq_view q;
  law_dq_expire : forall k q uid q', dq_expire k q = Some (uid, q') ->
    dq_view q !! k = Some uid /\ dq_view q' = delete k (dq_view q);
}.

Section safety.
Context {Q : Type} `{DelayQueueLaws Q}.
Notation SC := (Scheduler Q).
Implicit Types s : SC.

Definition entries s : gmap Z string := dq_view (sch_queue s).

(** The queue accepts the interval. *)
Definition fits (interval_minutes : Z) : Prop := interval_duration interval_minutes <= dq_longest.

(** A task has an entry of its own, or its update is in progress. *)
Definition task_ok s (u : string) (st : TaskState) : Prop :=
  match ts_key st with Some k => entries s !! k = Some u | None => ts_running st = true end /\
  (ts_running st = true -> u ∈ sch_spawned s) /\ fits (ts_interval_minutes st).

Definition sched_ok s : Prop := forall u st, sch_tasks s !! u = Some st -> task_ok s u st.

(** A turn that keeps this, whatever it was, and does not panic. *)
Definition sound (m : M SC unit unit) : Prop :=
  forall s, sched_ok s -> wp m (fun r s' => r = Ok tt /\ sched_ok s') s.

Lemma wp_schedule u d (R : result Z unit -> SC -> Prop) s :
  fits d ->
  (forall k s', entries s !! k = None -> entries s' = <[k := u]> (entries s) ->
     sch_tasks s' = sch_tasks s -> sch_spawned s' = sch_spawned s -> R (Ok k) s') ->
  wp (schedule_task u d) R s.
Proof.
  intros Hd HR. unfold wp, schedule_task.
  destruct (law_dq_insert u (interval_duration d) (sch_queue s) Hd) as (k & q & -> & Hn & Hv).
  by apply HR.
Qed.

Lemma wp_queue_remove k u (R : result unit unit -> SC -> Prop) s :
  entries s !! k = Some u ->
  (forall s', entries s' = delete k (entries s) -> sch_tasks s' = sch_tasks s ->
     sch_spawned s' = sch_spawned s -> R (Ok tt) s') ->
  wp (queue_remove k) R s.
Proof.
  intros Hk HR. destruct (law_dq_remove k (sch_queue s) u Hk) as (q & Hq & Hv).
  unfold wp, queue_remove. rewrite Hq. by apply HR.
Qed.

Lemma wp_queue_reset k d u (R : result unit unit -> SC -> Prop) s :
  fits d -> entries s !! k = Some u ->
  (forall s', entries s' = entries s -> sch_tasks s' = sch_tasks s ->
     sch_spawned s' = sch_spawned s -> R (Ok tt) s') ->
  wp (queue_reset k d) R s.
Proof.
  intros Hd Hk HR. destruct (law_dq_reset k (interval_duration d) (sch_queue s) u Hd Hk) as (q & Hq & Hv).
  unfold wp, queue_reset. rewrite Hq. by apply HR.
Qed.

(** The other tasks are unaffected by a change that keeps their entries and updates. *)
Lemma sched_ok_set s s' u st :
  sched_ok s -> sch_tasks s' = <[u := st]> (sch_tasks s) -> task_ok s' u st ->
  (forall k v, v <> u -> entries s !! k = Some v -> entries s' !! k = Some v) ->
  (forall v, v <> u -> v ∈ sch_spawned s -> v ∈ sch_spawned s') -> sched_ok s'.
Proof.
  intros Hok Ht Hu He Hs v stv Hv. rewrite Ht in Hv.
  apply lookup_insert_Some in Hv as [[<- <-]|[Hne Hv]]; [done|].
  destruct (Hok v stv Hv) as (Hk & Hr & Hf). split_and!; [|auto|done]. destruct (ts_key stv); [by apply He|done].
Qed.

(** The same for a task that leaves. *)
Lemma sched_ok_drop s s' u :
  sched_ok s -> sch_tasks s' = delete u (sch_tasks s) ->
  (forall k v, v <> u -> entries s !! k = Some v -> entries s' !! k = Some v) ->
  sch_spawned s' = sch_spawned s -> sched_ok s'.
Proof.
  intros Hok Ht He Hs v stv Hv. rewrite Ht in Hv. apply lookup_delete_Some in Hv as [Hne Hv].
  destruct (Hok v stv Hv) as (Hk & Hr & Hf). split_and!; [|by rewrite Hs|done]. destruct (ts_key stv); [by apply He|done].
Qed.

(** Entries of other profiles survive when an entry of [u] is added or removed. *)
Lemma insert_keeps k u (m : gmap Z string) k' v :
  m !! k = None -> m !! k' = Some v -> <[k := u]> m !! k' = Some v.
Proof. intros Hk Hk'. rewrite lookup_insert_ne; [done|]. congruence. Qed.
Lemma delete_keeps k u (m : gmap Z string) k' v :
  m !! k = Some u -> v <> u -> m !! k' = Some v -> delete k m !! k' = Some v.
Proof. intros Hk Hne Hk'. rewrite lookup_delete_ne; [done|]. congruence. Qed.

Lemma sound_retain new_map s u st :
  sched_ok s -> sch_tasks s !! u = Some st ->
  wp (retain_task new_map (u, st)) (fun r s' => r = Ok tt /\ sched_ok s' /\
    (forall v, v <> u -> sch_tasks s' !! v = sch_tasks s !! v)) s.
Proof.
  intros Hok Hu. unfold retain_task. cbn [fst snd]. case_bool_decide; [by wp_step|]. wp_step.
  apply (wp_mono _ (fun r s' => r = Ok tt /\ sch_tasks s' = sch_tasks s /\ sch_spawned s' = sch_spawned s /\
    forall k v, v <> u -> entries s !! k = Some v -> entries s' !! k = Some v)).
  { destruct (Hok u st Hu) as [Hk _]. unfold remove_key. destruct (ts_key st) as [k|]; [|by wp_step].
    apply (wp_queue_remove k u); [done|]. intros s' He Ht Hs. split_and!; [done..|].
    intros k' v Hne Hv. rewrite He. by eapply delete_keeps. }
  intros r s1 (-> & Ht & Hs & He). wp_step. split; [done|]. split.
  - apply (sched_ok_drop s _ u); cbn; [done|by rewrite Ht|done|done].
  - intros v Hne. cbn. rewrite Ht. by rewrite lookup_delete_ne.
Qed.

Lemma sound_retain_all new_map l s :
  sched_ok s -> NoDup l.*1 -> (forall u st, (u, st) ∈ l -> sch_tasks s !! u = Some st) ->
  wp (for_each (retain_task new_map) l) (fun r s' => r = Ok tt /\ sched_ok s') s.
Proof.
  revert s. induction l as [|[u st] l IH]; intros s Hok Hd Hl; cbn [for_each]; [by wp_step|].
  apply NoDup_cons in Hd as [Hu Hd]. wp_step.
  eapply wp_mono; [apply sound_retain; [done|apply Hl; by left]|]. intros r s1 (-> & Hok1 & Hkeep).
  apply IH; [done|done|]. intros v stv Hv. rewrite Hkeep; [apply Hl; by right|]. intros ->.
  apply Hu, list_elem_of_fmap. by exists (u, stv).
Qed.

Lemma sound_insert u d s :
  fits d -> sched_ok s -> wp (insert_task u d) (fun r s' => r = Ok tt /\ sched_ok s') s.
Proof.
  intros Hd Hok. unfold insert_task. wp_step. apply wp_schedule; [done|]. intros k s1 Hk He Ht Hs. wp_step.
  split; [done|]. eapply (sched_ok_set s); cbn; [done|by rewrite Ht|..|by rewrite Hs].
  - split; [|done]. change (entries s1 !! k = Some u). by rewrite He, lookup_insert_eq.
  - intros k' v Hne Hv. change (entries s1 !! k' = Some v). rewrite He. by apply insert_keeps.
Qed.

Lemma sound_update u st d s :
  fits d -> sched_ok s -> sch_tasks s !! u = Some st ->
  wp (update_task_interval u st d) (fun r s' => r = Ok tt /\ sched_ok s') s.
Proof.
  intros Hd Hok Hu. destruct (Hok u st Hu) as (Hk & Hr & _). unfold update_task_interval. cbn [ts_key ts_set_interval ts_running].
  destruct (ts_key st) as [k|] eqn:Ek.
  - wp_step. apply (wp_queue_reset k d u); [done|done|]. intros s1 He Ht Hs. wp_step. split; [done|].
    eapply (sched_ok_set s); cbn; [done|by rewrite Ht|..|by rewrite Hs].
    + unfold task_ok. cbn. rewrite Ek. change (entries s1 !! k = Some u /\ (ts_running st = true -> u ∈ sch_spawned s1) /\ fits d).
      by rewrite He, Hs.
    + intros k' v Hne Hv. change (entries s1 !! k' = Some v). by rewrite He.
  - rewrite Hk. cbn [negb]. wp_step. split; [done|].
    eapply (sched_ok_set s); cbn; [done|done|..|done].
    + unfold task_ok. cbn. rewrite Ek. by split_and!; [|intros _; apply Hr|].
    + done.
Qed.

Lemma sound_apply_entry entry : fits entry.2 -> sound (apply_entry entry).
Proof.
  intros Hd s Hok. unfold apply_entry. do 2 wp_step. destruct (sch_tasks s !! entry.1) as [st|] eqn:Et;
    [|by apply sound_insert].
  case_match; [by wp_step|by apply sound_update].
Qed.

Lemma sound_for_each {A} (f : A -> M SC unit unit) l : Forall (fun x => sound (f x)) l -> sound (for_each f l).
Proof.
  induction 1 as [|x l Hx Hl IH]; intros s Hok; cbn [for_each]; [by wp_step|]. wp_step.
  eapply wp_mono; [by apply Hx|]. intros r s1 [-> Hok1]. by apply IH.
Qed.

Lemma sound_apply new_map : Forall (fun e => fits e.2) new_map -> sound (apply_timer_map new_map).
Proof.
  intros Hm s Hok. unfold apply_timer_map. do 3 wp_step. eapply wp_mono.
  - apply sound_retain_all; [done|apply NoDup_fst_map_to_list|]. intros u st. apply elem_of_map_to_list.
  - intros r s1 [-> Hok1]. apply sound_for_each; [|done].
    eapply Forall_impl; [exact Hm|]. intros e. apply sound_apply_entry.
Qed.

(** The expired entry is gone; the other profiles keep theirs. *)
Lemma sound_expired u s s0 k :
  sched_ok s0 -> entries s0 !! k = Some u -> entries s = delete k (entries s0) ->
  sch_tasks s = sch_tasks s0 -> sch_spawned s = sch_spawned s0 ->
  wp (run_expired_task u) (fun r s' => r = Ok tt /\ sched_ok s') s.
Proof.
  intros Hok Hk He Ht Hs. unfold run_expired_task. do 2 wp_step.
  assert (Hkeep : forall k' v, v <> u -> entries s0 !! k' = Some v -> entries s !! k' = Some v).
  { intros k' v Hne Hv. rewrite He. by eapply delete_keeps. }
  destruct (sch_tasks s !! u) as [st|] eqn:Eu.
  - rewrite Ht in Eu. destruct (Hok u st Eu) as (_ & Hr & Hf). unfold mark_task_running. cbn [ts_running ts_set_key].
    destruct (ts_running st) eqn:Er; cbn [negb]; do 2 wp_step.
    + wp_step. split; [done|]. eapply (sched_ok_set s0); cbn; [done|by rewrite Ht|..|by rewrite Hs].
      * unfold task_ok. cbn. rewrite Hs, Er. by split_and!; [|intros _; apply Hr|].
      * exact Hkeep.
    + unfold spawn_update_task. wp_step. split; [done|].
      eapply (sched_ok_set s0); cbn; [done|by rewrite Ht|..].
      * unfold task_ok. cbn. split_and!; [done| |done]. intros _. apply elem_of_app. right. by left.
      * exact Hkeep.
      * intros v _ Hv. rewrite Hs. apply elem_of_app. by left.
  - wp_step. split; [done|]. rewrite Ht in Eu. apply (sched_ok_drop s0 _ u); [done| |done|done].
    rewrite Ht. symmetry. by apply delete_id.
Qed.

Lemma sound_run_now u : sound (run_task_now u).
Proof.
  intros s Hok. unfold run_task_now. do 2 wp_step. destruct (sch_tasks s !! u) as [st|] eqn:Eu; [|by wp_step].
  destruct (Hok u st Eu) as (Hk & Hr & Hf). unfold mark_task_running. destruct (ts_running st) eqn:Er; cbn [negb];
    [by wp_step|]. wp_step. cbn [ts_key ts_set_running]. destruct (ts_key st) as [k|]; [|done].
  cbn [remove_key]. apply (wp_queue_remove k u); [done|]. intros s1 He Ht Hs. unfold spawn_update_task.
  do 3 wp_step. split; [done|]. eapply (sched_ok_set s); cbn; [done|by rewrite Ht|..].
  - unfold task_ok. cbn. split_and!; [done| |done]. intros _. apply elem_of_app. right. by left.
  - intros k' v Hne Hv. change (entries s1 !! k' = Some v). rewrite He. by eapply delete_keeps.
  - intros v _ Hv. rewrite Hs. apply elem_of_app. by left.
Qed.

Lemma delete_other (l : list string) i u v : l !! i = Some u -> v <> u -> v ∈ l -> v ∈ delete i l.
Proof.
  intros Hi Hne Hv. apply list_elem_of_lookup in Hv as [j Hj]. apply list_elem_of_lookup.
  destruct (decide (j < i)%nat).
  - exists j. by rewrite list_lookup_delete_lt.
  - exists (pred j). assert (j <> i) by congruence. rewrite list_lookup_delete_ge by lia.
    by replace (S (pred j)) with j by lia.
Qed.

(** Every interval of a refresh is one the queue accepts. *)
Definition intervals_fit (ev : SchedulerEvent) : Prop :=
  match ev with SeApply new_map => Forall (fun e => fits e.2) new_map | _ => True end.

Lemma sound_turn ev : intervals_fit ev -> sound (scheduler_turn ev).
Proof.
  destruct ev as [k|new_map|u|i]; cbn [scheduler_turn intervals_fit]; intros Hev;
    [|by apply sound_apply|apply sound_run_now|].
  - intros s Hok. unfold wp. destruct (dq_expire k (sch_queue s)) as [[u q]|] eqn:E; [|done].
    apply law_dq_expire in E as [Hk Hv]. by apply (sound_expired u _ s k).
  - intros s Hok. do 2 wp_step. destruct (sch_spawned s !! i) as [u|] eqn:Ei; [|by wp_step]. do 2 wp_step.
    unfold finish_task. do 2 wp_step. cbn [sch_tasks sch_set_spawned].
    destruct (sch_tasks s !! u) as [st|] eqn:Eu.
    + destruct (Hok u st Eu) as (_ & _ & Hf). wp_step. apply wp_schedule; [done|].
      intros k s1 Hk He Ht Hs. cbn in Ht, Hs. wp_step. split; [done|].
      eapply (sched_ok_set s); cbn; [done|by rewrite Ht|..].
      * split; [|done]. change (entries s1 !! k = Some u). by rewrite He, lookup_insert_eq.
      * intros k' v Hne Hv. change (entries s1 !! k' = Some v). rewrite He. by apply insert_keeps.
      * intros v Hne Hv. rewrite Hs. by eapply delete_other.
    + wp_step. split; [done|]. intros v stv Hv. cbn in Hv. destruct (Hok v stv Hv) as (Hk & Hr & Hf).
      split_and!; [done| |done]. intros Hrun. cbn. eapply delete_other; [done| |by apply Hr]. congruence.
Qed.

Lemma sound_run evs : Forall intervals_fit evs -> sound (scheduler_run evs).
Proof.
  induction 1 as [|ev evs Hev _ IH]; intros s Hok; cbn [scheduler_run]; [by wp_step|]. wp_step.
  eapply wp_mono; [by apply sound_turn|]. intros r s1 [-> Hok1]. by apply IH.
Qed.

(** A refresh with one new profile whose interval the queue does not accept panics. *)
Lemma distant_interval_panics u d evs :
  ~ fits d -> (scheduler_run (SeApply [(u, d)] :: evs) (Scheduler_new (Q := Q))).1 = Err tt.
Proof.
  unfold fits. intros Hd.
  enough (Hw : wp (scheduler_run (SeApply [(u, d)] :: evs)) (fun r _ => r = Err tt) (Scheduler_new (Q := Q)))
    by exact Hw.
  cbn [scheduler_run scheduler_turn]. unfold apply_timer_map. do 4 wp_step. cbn [sch_tasks Scheduler_new].
  rewrite map_to_list_empty. cbn [for_each]. wp_step. unfold apply_entry. do 3 wp_step.
  cbn [fst snd sch_tasks Scheduler_new]. rewrite lookup_empty. unfold insert_task, schedule_task. wp_step.
  unfold wp. cbn [sch_queue]. by rewrite law_dq_insert_far by lia.
Qed.


(** A profile alone in the map, and taken from it again while its update is in progress. *)
Lemma wp_apply_one u d (R : result unit unit -> SC -> Prop) s :
  fits d -> sch_tasks s = ∅ ->
  (forall k s', entries s !! k = None -> entries s' = <[k := u]> (entries s) ->
     sch_tasks s' = {[u := TaskState_new k d]} -> sch_spawned s' = sch_spawned s -> R (Ok tt) s') ->
  wp (apply_timer_map [(u, d)]) R s.
Proof.
  intros Hd Ht HR. unfold apply_timer_map. do 3 wp_step. rewrite Ht, map_to_list_empty. cbn [for_each]. wp_step.
  unfold apply_entry. do 3 wp_step. cbn [fst snd]. rewrite Ht, lookup_empty. unfold insert_task. wp_step.
  apply wp_schedule; [done|]. intros k s1 Hk He Ht1 Hs. do 2 wp_step. apply (HR k); [done|done|cbn; by rewrite Ht1, Ht|done].
Qed.

Lemma wp_apply_none u st (R : result unit unit -> SC -> Prop) s :
  sch_tasks s = {[u := st]} -> ts_key st = None ->
  (forall s', entries s' = entries s -> sch_tasks s' = ∅ -> sch_spawned s' = sch_spawned s -> R (Ok tt) s') ->
  wp (apply_timer_map []) R s.
Proof.
  intros Ht Hk HR. unfold apply_timer_map. do 3 wp_step. rewrite Ht, map_to_list_singleton. cbn [for_each].
  unfold retain_task. wp_step. cbn [fst snd]. rewrite bool_decide_eq_false_2 by (cbn; apply not_elem_of_nil).
  wp_step. rewrite Hk. cbn [remove_key]. do 4 wp_step. apply HR; [done| |done]. cbn. rewrite Ht.
  apply delete_singleton_eq.
Qed.

(** A profile that is removed and added again while its update runs is scheduled
    twice when the old update finishes. *)
Theorem timer_readded_profile_is_queued_twice u d :
  fits d -> exists s k1 k2,
    scheduler_run [SeApply [(u, d)]; SeRunNow u; SeApply []; SeApply [(u, d)]; SeFinished 0] Scheduler_new =
      (Ok tt, s) /\
    k1 <> k2 /\ dq_view (sch_queue s) !! k1 = Some u /\ dq_view (sch_queue s) !! k2 = Some u.
Proof.
  intros Hd. enough (Hw : wp (scheduler_run [SeApply [(u, d)]; SeRunNow u; SeApply []; SeApply [(u, d)]; SeFinished 0])
    (fun r s => r = Ok tt /\ exists k1 k2, k1 <> k2 /\ entries s !! k1 = Some u /\ entries s !! k2 = Some u)
    (Scheduler_new (Q := Q))).
  { unfold wp in Hw. destruct (scheduler_run _ _) as [r s]. destruct Hw as [Hr (k1 & k2 & Hw)].
    cbn in Hr, Hw. subst r. by exists s, k1, k2. }
  cbn [scheduler_run scheduler_turn]. wp_step. apply wp_apply_one; [done|done|]. intros k s1 Hk He Ht Hs.
  wp_step. unfold run_task_now. do 2 wp_step. rewrite Ht, lookup_singleton_eq. cbn.
  wp_step. apply (wp_queue_remove k u); [by rewrite He, lookup_insert_eq|]. intros s2 He2 Ht2 Hs2.
  unfold spawn_update_task. do 4 wp_step.
  eapply wp_apply_none; [cbn; rewrite Ht2, Ht; by rewrite insert_singleton_eq|done|].
  intros s3 He3 Ht3 Hs3. wp_step. apply wp_apply_one; [done|done|]. intros k1 s4 Hk1 He4 Ht4 Hs4.
  wp_step. do 2 wp_step. assert (Hsp : sch_spawned s4 = [u]).
  { rewrite Hs4, Hs3. cbn. by rewrite Hs2, Hs. }
  rewrite Hsp. cbn [lookup list_lookup]. do 2 wp_step. unfold finish_task. do 2 wp_step. cbn [sch_tasks sch_set_spawned].
  rewrite Ht4, lookup_singleton_eq. wp_step. apply wp_schedule; [done|]. intros k2 s5 Hk2 He5 _ _. do 2 wp_step.
  split; [done|]. exists k1, k2. change (k1 <> k2 /\ entries s5 !! k1 = Some u /\ entries s5 !! k2 = Some u).
  change (entries s4 !! k2 = None) in Hk2. change (entries s5 = <[k2 := u]> (entries s4)) in He5.
  assert (Hk4 : entries s4 !! k1 = Some u) by by rewrite He4, lookup_insert_eq.
  split; [congruence|]. rewrite He5. split; [by apply insert_keeps|apply lookup_insert_eq].
Qed.
End safety.
