(* ===== verification/Limiter.v ===== *)
(** * Limiter: at most one run per period

    [crates/clash-verge-limiter/src/lib.rs].  A call reads the clock, loads the time of
    the last run and, unless the period is still running, tries to exchange it; calls of
    several threads interleave between these three steps.  The sum of the last run and
    the period wraps at 64 bits, as in the release build. *)

From S2P Require Import Prelude.

Record Limiter := { last_run_ms : Z; period_ms : Z }.

(** [period.as_millis() as u64]. *)
Definition limiter_new (period_millis : Z) : Limiter :=
  {| last_run_ms := 0; period_ms := period_millis mod (u64_max + 1) |}.

(** The condition of the early return. *)
Definition still_running (self : Limiter) (now last : Z) : bool :=
  (now <? (last + period_ms self) mod (u64_max + 1)) && (last <=? now).

Definition limiter_exchange (self : Limiter) (last now : Z) : bool * Limiter :=
  if last_run_ms self =? last
  then (true, {| last_run_ms := now; period_ms := period_ms self |})
  else (false, self).

(** A call that nothing interrupts. *)
Definition limiter_check (now : Z) (self : Limiter) : bool * Limiter :=
  let last := last_run_ms self in
  if still_running self now last then (false, self) else limiter_exchange self last now.

(** ** interleaved calls *)

Inductive CallState : Type :=
| CallClocked (now : Z)
| CallLoaded (now last : Z)
| CallEnded (passed : bool).

Record LimiterWorld := {
  lw_limiter : Limiter;
  lw_calls : list CallState;
  (* the times of the calls that passed, the newest first *)
  lw_passed : list Z;
}.

Inductive LimiterEvent : Type :=
| LeCall (now : Z)
| LeLoad (call : nat)
| LeExchange (call : nat).

Definition limiter_step (ev : LimiterEvent) (w : LimiterWorld) : LimiterWorld :=
  let set_call i c := {| lw_limiter := lw_limiter w; lw_calls := <[i := c]> (lw_calls w);
                         lw_passed := lw_passed w |} in
  match ev with
  | LeCall now => {| lw_limiter := lw_limiter w; lw_calls := lw_calls w ++ [CallClocked now];
                     lw_passed := lw_passed w |}
  | LeLoad i =>
      match lw_calls w !! i with
      | Some (CallClocked now) =>
          let last := last_run_ms (lw_limiter w) in
          set_call i (if still_running (lw_limiter w) now last then CallEnded false else CallLoaded now last)
      | _ => w
      end
  | LeExchange i =>
      match lw_calls w !! i with
      | Some (CallLoaded now last) =>
          let (passed, limiter) := limiter_exchange (lw_limiter w) last now in
          {| lw_limiter := limiter; lw_calls := <[i := CallEnded passed]> (lw_calls w);
             lw_passed := if passed then now :: lw_passed w else lw_passed w |}
      | _ => w
      end
  end.

Definition limiter_world (period_millis : Z) : LimiterWorld :=
  {| lw_limiter := limiter_new period_millis; lw_calls := []; lw_passed := [] |}.

Definition limiter_run (evs : list LimiterEvent) (w : LimiterWorld) : LimiterWorld :=
  fold_left (fun w ev => limiter_step ev w) evs w.

(** ** passes are a period apart *)

(** The clock is a 64-bit count that does not reach its end within a period. *)
Definition clocked (period : Z) (ev : LimiterEvent) : Prop :=
  match ev with LeCall now => 0 <= now <= u64_max - period | _ => True end.

(** A pass at [newer] after one at [older]: a period has gone by, or the clock was set back. *)
Definition spaced (period newer older : Z) : Prop := older + period <= newer \/ newer < older.

Fixpoint all_spaced (period : Z) (passed : list Z) : Prop :=
  match passed with
  | newer :: (older :: _) as rest => spaced period newer older /\ all_spaced period rest
  | _ => True
  end.

Definition call_ok (period : Z) (c : CallState) : Prop :=
  match c with
  | CallClocked now => 0 <= now <= u64_max - period
  | CallLoaded now last => 0 <= now <= u64_max - period /\ spaced period now last
  | CallEnded _ => True
  end.

Record limiter_ok (period : Z) (w : LimiterWorld) : Prop := {
  lo_period : period_ms (lw_limiter w) = period;
  lo_last : 0 <= last_run_ms (lw_limiter w) <= u64_max - period;
  lo_head : match lw_passed w with [] => True | p :: _ => last_run_ms (lw_limiter w) = p end;
  lo_calls : Forall (call_ok period) (lw_calls w);
  lo_spaced : all_spaced period (lw_passed w);
}.

(** Without wrap-around the early return is the running period. *)
Lemma still_running_exact self now last :
  0 <= period_ms self -> 0 <= last <= u64_max - period_ms self ->
  still_running self now last = false <-> spaced (period_ms self) now last.
Proof.
  intros Hp Hl. unfold still_running, spaced. rewrite Z.mod_small by lia.
  rewrite andb_false_iff, Z.ltb_ge, Z.leb_gt. lia.
Qed.

Lemma limiter_step_ok period ev w :
  0 <= period -> clocked period ev -> limiter_ok period w -> limiter_ok period (limiter_step ev w).
Proof.
  intros Hp Hc [Hper Hlast Hhead Hcalls Hsp]. destruct ev as [now|i|i]; cbn [limiter_step].
  - split; cbn; try done. apply Forall_app. by split; [|constructor].
  - destruct (lw_calls w !! i) as [[now|now last|b]|] eqn:E; try done.
    split; cbn; try done. apply Forall_insert; [done|].
    rewrite Forall_lookup in Hcalls. specialize (Hcalls i _ E). cbn in Hcalls.
    destruct (still_running _ _ _) eqn:Es; [done|].
    apply still_running_exact in Es; [|lia|rewrite Hper; lia]. by rewrite Hper in Es.
  - destruct (lw_calls w !! i) as [[now|now last|b]|] eqn:E; try done.
    rewrite Forall_lookup in Hcalls. pose proof (Hcalls i _ E) as [Hnow Hs]. unfold limiter_exchange.
    destruct (last_run_ms (lw_limiter w) =? last) eqn:El; cbn.
    + reflect_bools. split; cbn; try done; [apply Forall_insert; [by apply Forall_lookup|done]|].
      destruct (lw_passed w) as [|p rest]; [done|]. split; [|done]. congruence.
    + split; cbn; try done. apply Forall_insert; [by apply Forall_lookup|done].
Qed.

Lemma limiter_run_ok period evs w :
  0 <= period -> Forall (clocked period) evs -> limiter_ok period w -> limiter_ok period (limiter_run evs w).
Proof.
  intros Hp Hc. revert w. induction Hc as [|ev evs Hev Hc IH]; intros w Hw; [done|].
  apply IH. by apply limiter_step_ok.
Qed.

Lemma all_spaced_at period l pre newer older rest :
  all_spaced period l -> l = pre ++ newer :: older :: rest -> spaced period newer older.
Proof.
  intros Hs ->. induction pre as [|x pre IH]; cbn in Hs; [by destruct Hs|].
  apply IH. by destruct pre; cbn in *; destruct Hs.
Qed.

(** C34: however many threads call the limiter and however their loads and
    exchanges interleave, two calls that pass one after the other are a period
    apart, unless the clock went back between them. *)
Theorem limiter_passes_once_per_period period evs pre newer older rest :
  0 <= period <= u64_max ->
  Forall (clocked period) evs ->
  lw_passed (limiter_run evs (limiter_world period)) = pre ++ newer :: older :: rest ->
  older + period <= newer \/ newer < older.
Proof.
  intros Hp Hc Hl. assert (Hm : period mod (u64_max + 1) = period) by (apply Z.mod_small; lia).
  refine (all_spaced_at period _ pre newer older rest _ Hl).
  apply (limiter_run_ok period evs); [lia|done|].
  split; cbn; try done; lia.
Qed.

(** A call that nothing interrupts passes exactly when the period is over or the clock
    was set back, and then restarts the period. *)
Lemma limiter_check_exact now self :
  0 <= period_ms self -> 0 <= last_run_ms self <= u64_max - period_ms self ->
  limiter_check now self =
    if bool_decide (last_run_ms self <= now < last_run_ms self + period_ms self) then (false, self)
    else (true, {| last_run_ms := now; period_ms := period_ms self |}).
Proof.
  intros Hp Hl. unfold limiter_check, limiter_exchange. rewrite Z.eqb_refl.
  pose proof (still_running_exact self now (last_run_ms self) Hp Hl) as He. unfold spaced in He.
  destruct (still_running _ _ _); case_bool_decide; try done; exfalso.
  - assert (Hf : last_run_ms self + period_ms self <= now \/ now < last_run_ms self) by lia.
    apply He in Hf. done.
  - assert (Hf := proj1 He eq_refl). lia.
Qed.
