(* ===== verification/Draft.v ===== *)
(** * Draft: committed data, a draft of it, and optimistic modification

    [crates/clash-verge-draft/src/lib.rs].  Both slots hold an [Arc]: what readers,
    the slots and a running modification share is a cell, and an edit in place is
    allowed only for the one owner of a cell.  The model keeps the cells and who owns
    them; an address whose last owner is gone may be allocated again.  The abstract
    object has values and a version number instead. *)

From S2P Require Import Prelude.

(** ** the shared cells *)

Section draft.
Context {T : Type} `{Inhabited T}.

(** [DraftInner] with what lives outside it: the snapshots readers hold and the
    modification that holds the permit, with its [original_arc] and its local copy. *)
Record DraftWorld := {
  dr_cells : gmap Z T;
  dr_committed : Z;
  dr_draft : option Z;
  dr_modifying : bool;
  dr_readers : list Z;
  dr_task : option (Z * T);
}.

Definition dr_value (w : DraftWorld) (arc : Z) : T := dr_cells w !!! arc.

(** Owners other than the draft slot, and all of them. *)
Definition other_owners (w : DraftWorld) : list Z :=
  dr_committed w :: dr_readers w ++ (match dr_task w with Some (arc, _) => [arc] | None => [] end).
Definition owners (w : DraftWorld) : list Z :=
  other_owners w ++ (match dr_draft w with Some arc => [arc] | None => [] end).

(** [Arc::new]: an address nobody owns, the proposed one if it is free. *)
Definition allocate (proposed : Z) (w : DraftWorld) : Z :=
  if bool_decide (proposed ∈ owners w) then 1 + foldr Z.max 0 (owners w) else proposed.

Definition store_cell (arc : Z) (v : T) (w : DraftWorld) : DraftWorld :=
  {| dr_cells := <[arc := v]> (dr_cells w); dr_committed := dr_committed w; dr_draft := dr_draft w;
     dr_modifying := dr_modifying w; dr_readers := dr_readers w; dr_task := dr_task w |}.
Definition set_slots (committed : Z) (draft : option Z) (w : DraftWorld) : DraftWorld :=
  {| dr_cells := dr_cells w; dr_committed := committed; dr_draft := draft;
     dr_modifying := dr_modifying w; dr_readers := dr_readers w; dr_task := dr_task w |}.
Definition set_readers (readers : list Z) (w : DraftWorld) : DraftWorld :=
  {| dr_cells := dr_cells w; dr_committed := dr_committed w; dr_draft := dr_draft w;
     dr_modifying := dr_modifying w; dr_readers := readers; dr_task := dr_task w |}.
Definition set_task (modifying : bool) (task : option (Z * T)) (w : DraftWorld) : DraftWorld :=
  {| dr_cells := dr_cells w; dr_committed := dr_committed w; dr_draft := dr_draft w;
     dr_modifying := modifying; dr_readers := dr_readers w; dr_task := task |}.

Definition draft_new (data : T) (address : Z) : DraftWorld :=
  {| dr_cells := {[address := data]}; dr_committed := address; dr_draft := None;
     dr_modifying := false; dr_readers := []; dr_task := None |}.

Definition data_arc (w : DraftWorld) : Z := dr_committed w.
Definition latest_arc (w : DraftWorld) : Z :=
  match dr_draft w with Some arc => arc | None => dr_committed w end.

(** [Arc::make_mut] copies the cell unless the draft is its only owner. *)
Definition edit_draft (f : T -> T) (proposed : Z) (w : DraftWorld) : DraftWorld :=
  let draft_arc := match dr_draft w with Some arc => arc | None => dr_committed w end in
  let edited := f (dr_value w draft_arc) in
  if bool_decide (draft_arc ∈ other_owners w) then
    let copy := allocate proposed w in
    set_slots (dr_committed w) (Some copy) (store_cell copy edited w)
  else set_slots (dr_committed w) (Some draft_arc) (store_cell draft_arc edited w).

Definition draft_apply (w : DraftWorld) : DraftWorld :=
  match dr_draft w with Some arc => set_slots arc None w | None => w end.

Definition draft_discard (w : DraftWorld) : DraftWorld := set_slots (dr_committed w) None w.

(** The compare-and-exchange on [data_modifying]. *)
Definition try_acquire_data_modify_permit (w : DraftWorld) : option DraftWorld :=
  if dr_modifying w then None else Some (set_task true (dr_task w) w).

(** Dropping the permit. *)
Definition release_permit (w : DraftWorld) : DraftWorld := set_task false None w.

(** [with_data_modify] up to the call of the closure; without the permit it waits. *)
Definition with_data_modify_begin (w : DraftWorld) : option DraftWorld :=
  match try_acquire_data_modify_permit w with
  | Some w => Some (set_task true (Some (dr_committed w, dr_value w (dr_committed w))) w)
  | None => None
  end.

(** The rest of it, with the closure's answer: [None] is an error, or a future that was
    dropped. *)
Definition with_data_modify_finish (answer : option T) (proposed : Z) (w : DraftWorld)
  : bool * DraftWorld :=
  match dr_task w, answer with
  | Some (original_arc, _), Some new_local =>
      if negb (dr_committed w =? original_arc) then (false, release_permit w)
      else
        let arc := allocate proposed w in
        (true, release_permit (set_slots arc (dr_draft w) (store_cell arc new_local w)))
  | _, _ => (false, release_permit w)
  end.

(** ** executions *)

Inductive DraftEvent : Type :=
| DrData
| DrLatest
| DrDropReader (reader : nat)
| DrRead (reader : nat)
| DrEdit (f : T -> T) (proposed : Z)
| DrApply
| DrDiscard
| DrBegin
| DrFinish (modify : T -> option T) (proposed : Z).

(** What an event shows: a value read, or whether a modification was committed. *)
Inductive DraftShown : Type :=
| ShowValue (v : T)
| ShowCommitted (b : bool)
| ShowNothing.

Definition draft_step (ev : DraftEvent) (w : DraftWorld) : DraftShown * DraftWorld :=
  match ev with
  | DrData => (ShowValue (dr_value w (data_arc w)), set_readers (dr_readers w ++ [data_arc w]) w)
  | DrLatest => (ShowValue (dr_value w (latest_arc w)), set_readers (dr_readers w ++ [latest_arc w]) w)
  | DrDropReader i => (ShowNothing, set_readers (delete i (dr_readers w)) w)
  | DrRead i => (match dr_readers w !! i with Some arc => ShowValue (dr_value w arc) | None => ShowNothing end, w)
  | DrEdit f proposed => (ShowNothing, edit_draft f proposed w)
  | DrApply => (ShowNothing, draft_apply w)
  | DrDiscard => (ShowNothing, draft_discard w)
  | DrBegin =>
      match with_data_modify_begin w with Some w => (ShowCommitted true, w) | None => (ShowCommitted false, w) end
  | DrFinish modify proposed =>
      match dr_task w with
      | Some (_, local) =>
          let (done, w) := with_data_modify_finish (modify local) proposed w in (ShowCommitted done, w)
      | None => (ShowNothing, w)
      end
  end.

Fixpoint draft_run (evs : list DraftEvent) (w : DraftWorld) : list DraftShown * DraftWorld :=
  match evs with
  | [] => ([], w)
  | ev :: evs =>
      let (shown, w) := draft_step ev w in
      let (rest, w) := draft_run evs w in (shown :: rest, w)
  end.

(** ** the abstract object *)

(** Values, a version that counts the replacements of the committed value, and the
    snapshots as values: nothing is shared. *)
Record Versioned := {
  ve_committed : T;
  ve_version : nat;
  ve_draft : option T;
  ve_readers : list T;
  ve_task : option (nat * T);
}.

Definition versioned_new (data : T) : Versioned :=
  {| ve_committed := data; ve_version := 0; ve_draft := None; ve_readers := []; ve_task := None |}.

Definition ve_latest (a : Versioned) : T := match ve_draft a with Some v => v | None => ve_committed a end.

Definition versioned_step (ev : DraftEvent) (a : Versioned) : DraftShown * Versioned :=
  let with_slots committed version draft :=
    {| ve_committed := committed; ve_version := version; ve_draft := draft; ve_readers := ve_readers a;
       ve_task := ve_task a |} in
  let with_readers readers :=
    {| ve_committed := ve_committed a; ve_version := ve_version a; ve_draft := ve_draft a;
       ve_readers := readers; ve_task := ve_task a |} in
  match ev with
  | DrData => (ShowValue (ve_committed a), with_readers (ve_readers a ++ [ve_committed a]))
  | DrLatest => (ShowValue (ve_latest a), with_readers (ve_readers a ++ [ve_latest a]))
  | DrDropReader i => (ShowNothing, with_readers (delete i (ve_readers a)))
  | DrRead i => (match ve_readers a !! i with Some v => ShowValue v | None => ShowNothing end, a)
  | DrEdit f _ => (ShowNothing, with_slots (ve_committed a) (ve_version a) (Some (f (ve_latest a))))
  | DrApply =>
      (ShowNothing, match ve_draft a with Some v => with_slots v (S (ve_version a)) None | None => a end)
  | DrDiscard => (ShowNothing, with_slots (ve_committed a) (ve_version a) None)
  | DrBegin =>
      match ve_task a with
      | Some _ => (ShowCommitted false, a)
      | None => (ShowCommitted true,
          {| ve_committed := ve_committed a; ve_version := ve_version a; ve_draft := ve_draft a;
             ve_readers := ve_readers a; ve_task := Some (ve_version a, ve_committed a) |})
      end
  | DrFinish modify _ =>
      match ve_task a with
      | Some (version, base) =>
          let ended committed n :=
            {| ve_committed := committed; ve_version := n; ve_draft := ve_draft a;
               ve_readers := ve_readers a; ve_task := None |} in
          match modify base with
          | Some v => if bool_decide (version = ve_version a)
                      then (ShowCommitted true, ended v (S (ve_version a)))
                      else (ShowCommitted false, ended (ve_committed a) (ve_version a))
          | None => (ShowCommitted false, ended (ve_committed a) (ve_version a))
          end
      | None => (ShowNothing, a)
      end
  end.

Fixpoint versioned_run (evs : list DraftEvent) (a : Versioned) : list DraftShown * Versioned :=
  match evs with
  | [] => ([], a)
  | ev :: evs =>
      let (shown, a) := versioned_step ev a in
      let (rest, a) := versioned_run evs a in (shown :: rest, a)
  end.
End draft.
Arguments DraftWorld T : clear implicits.
Arguments DraftEvent T : clear implicits.
Arguments DraftShown T : clear implicits.
Arguments Versioned T : clear implicits.

(** * The shared cells implement the versioned object

    Every execution of [Draft] shows what the abstract object shows: snapshots never
    change under their readers, and the comparison of addresses that guards a commit is
    a comparison of versions, although addresses are used again. *)

Section refinement.
Context {T : Type} `{Inhabited T}.
Notation DW := (DraftWorld T).
Implicit Types (w : DW) (a : Versioned T).

Lemma allocate_fresh proposed w : allocate proposed w ∉ owners w.
Proof.
  unfold allocate. case_bool_decide as Hin; [|done].
  assert (Hb : forall l x, x ∈ l -> x <= foldr Z.max 0 l).
  { induction l as [|y l IH]; intros x; [by intros ?%elem_of_nil|]. cbn.
    intros [->|Hx]%elem_of_cons; [lia|]. specialize (IH x Hx). lia. }
  intros Hx. apply Hb in Hx. lia.
Qed.

Lemma value_store_same arc v w : dr_value (store_cell arc v w) arc = v.
Proof. unfold dr_value. cbn. apply lookup_total_insert_eq. Qed.
Lemma value_store_other arc v w b : b <> arc -> dr_value (store_cell arc v w) b = dr_value w b.
Proof. intros Hne. unfold dr_value. cbn. by apply lookup_total_insert_ne. Qed.

(** The address the running modification started from. *)
Definition task_arc w : option Z := fst <$> dr_task w.

(** Concrete and abstract state: the same values, and the draft has a cell of its own. *)
Record agrees w a : Prop := {
  ag_committed : dr_value w (dr_committed w) = ve_committed a;
  ag_draft : match dr_draft w, ve_draft a with
    | Some arc, Some v => dr_value w arc = v /\ arc <> dr_committed w /\ task_arc w <> Some arc
    | None, None => True
    | _, _ => False
    end;
  ag_readers : map (dr_value w) (dr_readers w) = ve_readers a;
  ag_task : match dr_task w, ve_task a with
    | Some (arc, local), Some (n, base) =>
        local = base /\ (n <= ve_version a)%nat /\ (arc = dr_committed w <-> n = ve_version a)
    | None, None => True
    | _, _ => False
    end;
  ag_permit : dr_modifying w = is_some (dr_task w);
}.

Lemma agrees_new data address : agrees (draft_new data address) (versioned_new data).
Proof. split; try done. unfold dr_value. cbn. apply lookup_total_singleton_eq. Qed.

Lemma latest_agrees w a : agrees w a -> dr_value w (latest_arc w) = ve_latest a.
Proof.
  intros [Hc Hd _ _ _]. unfold latest_arc, ve_latest.
  destruct (dr_draft w), (ve_draft a); try done. by destruct Hd.
Qed.

Lemma readers_kept arc v w : arc ∉ dr_readers w ->
  map (dr_value (store_cell arc v w)) (dr_readers w) = map (dr_value w) (dr_readers w).
Proof.
  intros Hn. apply list_fmap_ext. intros i x Hx. apply value_store_other. intros ->.
  by apply list_elem_of_lookup_2 in Hx.
Qed.

(** A cell that no other owner has may be written and made the draft. *)
Lemma agrees_edit arc v w a :
  agrees w a -> arc ∉ other_owners w ->
  agrees (set_slots (dr_committed w) (Some arc) (store_cell arc v w))
    {| ve_committed := ve_committed a; ve_version := ve_version a; ve_draft := Some v;
       ve_readers := ve_readers a; ve_task := ve_task a |}.
Proof.
  intros [Hc Hd Hr Ht Hp] Hn. unfold other_owners in Hn.
  rewrite elem_of_cons, elem_of_app in Hn. apply Decidable.not_or in Hn as [Hn1 Hn2].
  apply Decidable.not_or in Hn2 as [Hn2 Hn3].
  split; cbn [set_slots store_cell dr_committed dr_draft dr_readers dr_task dr_modifying ve_committed ve_draft
    ve_readers ve_task ve_version]; [..|done|done].
  - rewrite <- Hc. by apply value_store_other.
  - split_and!; [apply value_store_same|done|]. unfold task_arc. cbn. destruct (dr_task w) as [[t l]|]; [|done].
    cbn. intros [= ->]. apply Hn3. by left.
  - rewrite <- Hr. by apply readers_kept.
Qed.

Lemma other_owners_sub w : other_owners w ⊆ owners w.
Proof. intros x Hx. apply elem_of_app. by left. Qed.

Lemma agrees_finish m p w a :
  agrees w a ->
  (draft_step (DrFinish m p) w).1 = (versioned_step (DrFinish m p) a).1 /\
  agrees (draft_step (DrFinish m p) w).2 (versioned_step (DrFinish m p) a).2.
Proof.
  intros Hag. pose proof Hag as [Hc Hd Hr Ht Hp]. cbn [draft_step versioned_step].
  destruct (dr_task w) as [[t l]|] eqn:Et, (ve_task a) as [[n b]|] eqn:Ea; try done.
  destruct Ht as (-> & Hle & Ht). unfold with_data_modify_finish. rewrite Et.
  destruct (m b) as [v|]; [|split; [done|]; split; cbn; try done].
  2: { unfold task_arc. cbn. destruct (dr_draft w), (ve_draft a); try done. by destruct Hd as (? & ? & _). }
  destruct (dr_committed w =? t) eqn:E; cbn [negb]; reflect_bools.
  + rewrite bool_decide_eq_true_2 by (apply Ht; done). split; [done|].
    pose proof (allocate_fresh p w) as Hf. set (arc := allocate p w) in *.
    assert (Hf' : arc ∉ dr_readers w /\ dr_draft w <> Some arc /\ arc <> dr_committed w).
    { unfold owners, other_owners in Hf. rewrite Et in Hf. split_and!.
      - intros Hx. apply Hf, elem_of_app. left. right. apply elem_of_app. by left.
      - intros Hx. apply Hf, elem_of_app. right. rewrite Hx. by left.
      - intros Hx. apply Hf. rewrite Hx. by left. }
    destruct Hf' as (Hf1 & Hf2 & Hf3). split; cbn; [apply value_store_same| | |done|done].
    * unfold task_arc. cbn. destruct (dr_draft w) as [d|], (ve_draft a) as [v'|]; try done.
      destruct Hd as (Hv & Hne & _). split_and!; [|congruence|done].
      rewrite <- Hv. apply (value_store_other arc). congruence.
    * rewrite <- Hr. by apply (readers_kept arc).
  + rewrite bool_decide_eq_false_2 by (intros Hn; apply E; symmetry; by apply Ht). split; [done|].
    split; cbn; try done. unfold task_arc. cbn.
    destruct (dr_draft w), (ve_draft a); try done. by destruct Hd as (? & ? & _).
Qed.

Lemma agrees_step ev w a :
  agrees w a ->
  (draft_step ev w).1 = (versioned_step ev a).1 /\ agrees (draft_step ev w).2 (versioned_step ev a).2.
Proof.
  intros Hag. pose proof Hag as [Hc Hd Hr Ht Hp]. destruct ev as [| |i|i|f p| | | |m p]; cbn [draft_step versioned_step fst snd].
  - unfold data_arc. rewrite Hc. split; [done|]. split; try done.
    change (map (dr_value w) (dr_readers w ++ [dr_committed w]) = ve_readers a ++ [ve_committed a]).
    rewrite map_app, Hr. cbn [map]. by rewrite Hc.
  - rewrite (latest_agrees _ _ Hag). split; [done|]. split; try done.
    change (map (dr_value w) (dr_readers w ++ [latest_arc w]) = ve_readers a ++ [ve_latest a]).
    rewrite map_app, Hr. cbn [map]. by rewrite (latest_agrees _ _ Hag).
  - split; [done|]. split; try done. cbn. rewrite <- Hr.
    change (map (dr_value w) (delete i (dr_readers w)) = delete i (map (dr_value w) (dr_readers w))).
    apply list_fmap_delete.
  - split; [|done]. rewrite <- Hr. setoid_rewrite list_lookup_fmap. by destruct (dr_readers w !! i).
  - split; [done|]. rewrite <- (latest_agrees _ _ Hag). unfold edit_draft.
    fold (latest_arc w). case_bool_decide as Hin; apply agrees_edit; try done.
    intros Hx. by apply other_owners_sub, allocate_fresh in Hx.
  - split; [done|]. unfold draft_apply. destruct (dr_draft w) as [arc|] eqn:Ed, (ve_draft a) as [v|] eqn:Ea; try done.
    destruct Hd as (Hv & Hne & Hta). split; cbn; [done|done|done| |done].
    unfold task_arc in Hta. destruct (dr_task w) as [[t l]|], (ve_task a) as [[n b]|]; try done.
    destruct Ht as (-> & Hle & Ht). split_and!; [done|lia|]. split; [|lia]. intros ->. by destruct Hta.
  - split; [done|]. split; try done.
  - unfold with_data_modify_begin, try_acquire_data_modify_permit. rewrite Hp.
    destruct (dr_task w) as [[t l]|] eqn:Et, (ve_task a) as [[n b]|] eqn:Ea; try done. cbn [is_some fst snd].
    split; [done|]. split; cbn; [done| |done| |done].
    + unfold task_arc in *. cbn in *. destruct (dr_draft w) as [arc|], (ve_draft a) as [v|]; try done.
      destruct Hd as (Hv & Hne & _). split_and!; [done..|]. cbn. congruence.
    + split_and!; [exact Hc|lia|done].
  - by apply agrees_finish.
Qed.

Lemma agrees_run evs w a :
  agrees w a -> (draft_run evs w).1 = (versioned_run evs a).1 /\
    agrees (draft_run evs w).2 (versioned_run evs a).2.
Proof.
  revert w a. induction evs as [|ev evs IH]; intros w a Hag; [done|]. cbn [draft_run versioned_run].
  pose proof (agrees_step ev w a Hag) as [Hs Hag1].
  destruct (draft_step ev w) as [s w1], (versioned_step ev a) as [s' a1]. cbn [fst snd] in *. subst s'.
  destruct (IH _ _ Hag1) as [Hs2 Hag2].
  destruct (draft_run evs w1) as [r w2], (versioned_run evs a1) as [r' a2]. cbn [fst snd] in *. by subst r'.
Qed.

(** C25: under every interleaving of reads, edits, applications, discards and
    asynchronous modifications, the copy-on-write draft over shared reference-
    counted values answers exactly as the abstract versioned object, which has
    one committed and at most one draft value and one permit, and has the same
    committed value. *)
Theorem draft_refines_versioned_object (data : T) address (evs : list (DraftEvent T)) :
  (draft_run evs (draft_new data address)).1 = (versioned_run evs (versioned_new data)).1 /\
  dr_value (draft_run evs (draft_new data address)).2 (dr_committed (draft_run evs (draft_new data address)).2) =
    ve_committed (versioned_run evs (versioned_new data)).2.
Proof.
  destruct (agrees_run evs _ _ (agrees_new data address)) as [Hs Hag]. split; [exact Hs|]. apply Hag.
Qed.
End refinement.
