(* ===== verification/Validation.v ===== *)
(** * Validation: checking a configuration before it is used

    [src-tauri/src/core/validate.rs] and the notices of [cmd/validate.rs]: how a message is
    classified, how the kind of a file is guessed, and what the core's own check says.
    Reading files, parsing YAML, evaluating a script and running the core are the class
    [ValidationOs].  Paths are valid Unicode. *)

From Stdlib Require Import Ascii String.
From S2P Require Import Prelude Text MacosRoute.

(** ** outcomes *)

Inductive ValidationErrorKind : Type :=
| KindFileMissing
| KindFileRead
| KindYamlSyntax
| KindYamlMapping
| KindScriptSyntax
| KindScriptMissingMain
| KindCoreRejected
| KindProcessTerminated
| KindTimeout.

Inductive ValidationSkipReason : Type := SkipExiting | SkipDebounced.

Inductive ValidationOutcome : Type :=
| Valid
| Invalid (kind : ValidationErrorKind) (message : string)
| Skipped (reason : ValidationSkipReason)
| Busy.

#[global] Instance validation_kind_eq_dec : EqDecision ValidationErrorKind.
Proof. solve_decision. Defined.
#[global] Instance validation_skip_eq_dec : EqDecision ValidationSkipReason.
Proof. solve_decision. Defined.
#[global] Instance validation_outcome_eq_dec : EqDecision ValidationOutcome.
Proof. solve_decision. Defined.

Definition outcome_is_valid (o : ValidationOutcome) : bool := match o with Valid => true | _ => false end.

Definition skip_reason_text (r : ValidationSkipReason) : string :=
  match r with SkipExiting => "application is exiting" | SkipDebounced => "debounced" end.

Definition outcome_text (o : ValidationOutcome) : string :=
  match o with
  | Valid => "configuration is valid"
  | Invalid _ message => message
  | Skipped reason => String.append "Configuration validation skipped: " (skip_reason_text reason)
  | Busy => "Configuration validation is already running"
  end.

(** ** messages *)

(** [slice::contains] of a run of bytes, by the definition of an infix. *)
Fixpoint infix_bytes (p l : list ascii) : bool :=
  prefix_of p l || match l with [] => false | _ :: l => infix_bytes p l end.

(** [str::contains]. *)
Definition contains (s p : string) : bool := infix_bytes (bytes p) (bytes s).

Definition kind_from_message (message : string) : ValidationErrorKind :=
  let lower := to_ascii_lowercase message in
  if contains lower "file not found" then KindFileMissing
  else if contains lower "failed to read" || contains lower "无法读取" then KindFileRead
  else if contains lower "script must contain a main function" then KindScriptMissingMain
  else if contains lower "script syntax error" then KindScriptSyntax
  else if contains lower "mapping values are not allowed"
          || contains lower "failed to transform to yaml mapping"
          || contains lower "failed to apply merge" then KindYamlMapping
  else if contains lower "yaml syntax error" || contains lower "did not find expected key" then KindYamlSyntax
  else if contains lower "timeout" || contains lower "超时" then KindTimeout
  else if contains lower "terminated" || contains lower "被终止" then KindProcessTerminated
  else KindCoreRejected.

Definition invalid_from_message (message : string) : ValidationOutcome :=
  Invalid (kind_from_message message) message.

(** ** searching the core's output *)

(** The [while] loop for one keyword, from index [i]; [fuel] bounds its rounds. *)
Fixpoint keyword_at (fuel : nat) (buf needle : list ascii) (i : nat) : bool :=
  match fuel with
  | O => false
  | S fuel =>
      if (i + length needle <=? length buf)%nat
      then if bool_decide (take (length needle) (drop i buf) = needle) then true
           else keyword_at fuel buf needle (i + 1)
      else false
  end.

Fixpoint contains_any_keyword (buf : list ascii) (keywords : list string) : bool :=
  match keywords with
  | [] => false
  | kw :: keywords =>
      if is_empty kw then contains_any_keyword buf keywords
      else if keyword_at (S (length buf)) buf (bytes kw) 0 then true
           else contains_any_keyword buf keywords
  end.

Definition error_keywords : list string := ["FATA"; "fatal"; "Parse config error"; "level=fatal"]%string.

(** ** the kind of a file *)

(** [Path::extension] of the last component of a path that does not end in a slash: what
    follows its last dot, unless the dot is its first byte. *)
Definition path_extension (path : string) : option string :=
  let name := match rsplit_once path "/" with Some (_, n) => n | None => path end in
  match rsplit_once name "." with
  | Some (stem, ext) => if is_empty stem then None else Some ext
  | None => None
  end.

Definition has_ext (path ext : string) : bool :=
  match path_extension path with
  | Some s => bool_decide (to_ascii_lowercase s = to_ascii_lowercase ext)
  | None => false
  end.

(** [str::lines]: a final line feed does not begin a line, and a carriage return before
    a line feed is dropped. *)
Fixpoint lines_bytes (acc l : list ascii) : list (list ascii) :=
  match l with
  | [] => match acc with [] => [] | _ => [rev acc] end
  | c :: l =>
      if bool_decide (c = "010"%char)
      then rev (match acc with r :: a => if bool_decide (r = "013"%char) then a else acc | [] => acc end) :: lines_bytes [] l
      else lines_bytes (c :: acc) l
  end.

Definition text_lines (s : string) : list string := map str (lines_bytes [] (bytes s)).

(** [line.trim().starts_with("- ")]: the end of the line matters too, since a dash and
    trailing blanks trim to a bare dash. *)
Fixpoint trim_start_chars (l : list Z) : list Z :=
  match l with c :: r => if char_is_whitespace c then trim_start_chars r else l | [] => [] end.
Definition trim_chars (l : list Z) : list Z := rev (trim_start_chars (rev (trim_start_chars l))).
Definition is_list_line (line : string) : bool :=
  match trim_chars (chars line) with 45 :: 32 :: _ => true | _ => false end.

Definition has_yaml_features (content : string) : bool :=
  contains content ": " || contains content "#" || contains content "---" || existsb is_list_line (text_lines content).

Definition has_js_features (content : string) : bool :=
  existsb (contains content)
    ["function "; "const "; "let "; "var "; "//"; "/*"; "*/"; "export "; "import "]%string.

(** What the content decides when the extension does not. *)
Definition script_by_content (content : string) : bool :=
  let yaml := has_yaml_features content in
  let js := has_js_features content in
  if yaml && negb js then false
  else if js && negb yaml then true
  else if yaml && js
       then existsb (contains content) ["function main"; "module.exports"; "export default"]%string
       else false.

(** [str::from_utf8(..).unwrap_or_default()] *)
Definition utf8_or_empty (l : list ascii) : string :=
  if utf8_valid (length l) (map byte l) then str l else EmptyString.

(** ** the system *)

(** The exit status of a process: its code, or none when a signal ended it. *)
Record Output := { out_code : option Z; out_stdout : list ascii; out_stderr : list ascii }.

Class ValidationOs (W : Type) := {
  os_is_exiting : W -> bool;
  os_path_exists : string -> W -> bool;
  os_read_to_string : string -> W -> result string string;
  os_parse_yaml : string -> result unit string;
  os_eval_script : string -> result unit string;
  (* the core with [-t]; an error when it cannot be run *)
  os_core_output : string -> list string -> W -> result Output string * W;
}.

(** What the output of [-t] means. *)
Definition output_outcome (output : Output) : ValidationOutcome :=
  let success := bool_decide (out_code output = Some 0) in
  let has_error := negb success || contains_any_keyword (out_stderr output) error_keywords in
  if has_error
  then
    let error_msg :=
      match out_stdout output, out_stderr output with
      | _ :: _, _ => utf8_or_empty (out_stdout output)
      | [], _ :: _ => utf8_or_empty (out_stderr output)
      | [], [] =>
          match out_code output with
          | Some code => String.append "验证进程异常退出，退出码: " (if code <? 0 then String.append "-" (print_uint (- code)) else print_uint code)
          | None => "验证进程被终止"%string
          end
      end in
    match out_code output with
    | None => Invalid KindProcessTerminated error_msg
    | Some _ => invalid_from_message error_msg
    end
  else Valid.

Section validator.
Context {W : Type} `{ValidationOs W}.

(** [is_script_file]; the third decision counts [: ] lines but answers [false] either way. *)
Definition is_script_file (path : string) (w : W) : result bool string :=
  if has_ext path "yaml" || has_ext path "yml" then Ok false
  else if has_ext path "js" then Ok true
  else match os_read_to_string path w with
       | Err err => Err (String.append "Failed to read file to detect type: " err)
       | Ok content => Ok (script_by_content content)
       end.

Definition validate_file_syntax_outcome (config_path : string) (w : W) : ValidationOutcome :=
  match os_read_to_string config_path w with
  | Err err => invalid_from_message (String.append "Failed to read file: " err)
  | Ok content =>
      match os_parse_yaml content with
      | Ok _ => Valid
      | Err err => invalid_from_message (String.append "YAML syntax error: " err)
      end
  end.

Definition validate_script_file_outcome (path : string) (w : W) : ValidationOutcome :=
  match os_read_to_string path w with
  | Err err => invalid_from_message (String.append "Failed to read script file: " err)
  | Ok content =>
      match os_eval_script content with
      | Ok _ =>
          if negb (contains content "function main") && negb (contains content "const main")
             && negb (contains content "let main")
          then invalid_from_message "Script must contain a main function"
          else Valid
      | Err err => invalid_from_message (String.append "Script syntax error: " err)
      end
  end.

End validator.

(** ** notices *)

Inductive ValidationNoticeTarget : Type := TargetRuntime | TargetMerge | TargetScript.

Definition notice_key (kind : ValidationErrorKind) (target : ValidationNoticeTarget) : string :=
  match kind with
  | KindFileMissing => "config_validate::file_not_found"
  | KindFileRead =>
      match target with
      | TargetScript => "config_validate::script_error"
      | _ => "config_validate::yaml_read_error"
      end
  | KindYamlSyntax =>
      match target with
      | TargetMerge => "config_validate::merge_syntax_error"
      | TargetScript => "config_validate::script_error"
      | TargetRuntime => "config_validate::yaml_syntax_error"
      end
  | KindYamlMapping =>
      match target with
      | TargetMerge => "config_validate::merge_mapping_error"
      | TargetScript => "config_validate::script_error"
      | TargetRuntime => "config_validate::yaml_mapping_error"
      end
  | KindScriptSyntax => "config_validate::script_syntax_error"
  | KindScriptMissingMain => "config_validate::script_missing_main"
  | KindProcessTerminated => "config_validate::process_terminated"
  | KindCoreRejected | KindTimeout => "config_validate::error"
  end.

(** [handle_validation_notice]: the notice it sends, if any. *)
Definition handle_validation_notice (outcome : ValidationOutcome) (target : ValidationNoticeTarget)
  : option (string * string) :=
  match outcome with
  | Invalid kind message => Some (notice_key kind target, message)
  | Busy | Skipped _ => Some ("config_validate::error"%string, outcome_text outcome)
  | Valid => None
  end.

(** ** the search is a search *)

Lemma prefix_of_take p l : prefix_of p l = true <-> take (length p) l = p.
Proof.
  rewrite prefix_of_spec. split; [intros (q & ->); by rewrite take_app_length|].
  intros Ht. exists (drop (length p) l). rewrite <- Ht at 1. by rewrite take_drop.
Qed.

Lemma infix_bytes_spec p l : infix_bytes p l = true <-> exists pre post, l = pre ++ p ++ post.
Proof.
  induction l as [|c l IH]; cbn [infix_bytes]; rewrite orb_true_iff, prefix_of_take.
  - split; [intros [Hp|]; [|done]; exists [], []; rewrite take_nil in Hp; by subst|].
    intros (pre & post & He). left. symmetry in He. apply app_nil in He as [-> He]. by apply app_nil in He as [-> ->].
  - rewrite IH. split.
    + intros [Hp|(pre & post & ->)]; [|by exists (c :: pre), post].
      exists [], (drop (length p) (c :: l)). cbn [app]. rewrite <- Hp at 1. by rewrite take_drop.
    + intros ([|d pre] & post & He); [left|right].
      * rewrite He. cbn [app]. by rewrite take_app_length.
      * injection He as -> ->. by exists pre, post.
Qed.

Lemma keyword_at_spec fuel buf needle i :
  needle <> [] -> (length buf < fuel + i)%nat ->
  keyword_at fuel buf needle i = infix_bytes needle (drop i buf).
Proof.
  intros Hn. revert i. induction fuel as [|fuel IH]; intros i Hf.
  { rewrite drop_ge by lia. destruct needle; [done|]. reflexivity. }
  cbn [keyword_at]. destruct (i + length needle <=? length buf)%nat eqn:El.
  - apply Nat.leb_le in El. assert (length needle <> 0%nat) by (by destruct needle).
    case_bool_decide as Ht.
    + symmetry. apply infix_bytes_spec. exists [], (drop (length needle) (drop i buf)). cbn [app].
      rewrite <- Ht at 1. by rewrite take_drop.
    + rewrite IH by lia. destruct (drop i buf) as [|c rest] eqn:Ed.
      { apply (f_equal length) in Ed. rewrite length_drop in Ed. cbn in Ed. lia. }
      cbn [infix_bytes]. replace (drop (i + 1) buf) with rest.
      * destruct (prefix_of needle (c :: rest)) eqn:Ep; [|done]. by apply prefix_of_take in Ep.
      * rewrite <- drop_drop, Ed. done.
  - apply Nat.leb_gt in El. symmetry. apply not_true_is_false. intros (pre & post & He)%infix_bytes_spec.
    apply (f_equal length) in He. rewrite length_drop, !length_app in He.
    destruct needle; [done|]. cbn in *. lia.
Qed.

(** The hand-written search of the core's output finds a keyword exactly when one that is
    not empty occurs in it. *)
Theorem keyword_search_is_exact buf keywords :
  contains_any_keyword buf keywords = true <->
  exists kw pre post, kw ∈ keywords /\ kw <> EmptyString /\ buf = pre ++ bytes kw ++ post.
Proof.
  induction keywords as [|kw keywords IH]; cbn [contains_any_keyword].
  { split; [done|]. intros (kw & pre & post & Hin & _). by apply not_elem_of_nil in Hin. }
  destruct (is_empty kw) eqn:Ek.
  - apply is_empty_true in Ek. subst kw. rewrite IH. split; intros (k & pre & post & Hin & Hne & He).
    + exists k, pre, post. split; [by right|done].
    + apply elem_of_cons in Hin as [->|Hin]; [done|]. by exists k, pre, post.
  - rewrite keyword_at_spec; [|intros Hb; apply is_empty_false in Ek; apply Ek; by destruct kw|lia].
    rewrite drop_0. destruct (infix_bytes (bytes kw) buf) eqn:Ei.
    + split; [intros _|done]. apply infix_bytes_spec in Ei as (pre & post & He). exists kw, pre, post.
      split; [left|split; [by apply is_empty_false|done]].
    + rewrite IH. split; intros (k & pre & post & Hin & Hne & He).
      * exists k, pre, post. split; [by right|done].
      * apply elem_of_cons in Hin as [->|Hin]; [|by exists k, pre, post].
        assert (infix_bytes (bytes kw) buf = true) by (apply infix_bytes_spec; by exists pre, post). congruence.
Qed.
