(* ===== verification/Verge.v ===== *)
(** * Verge: the settings of the desktop application

    [IVerge] ([src-tauri/src/config/verge.rs]): every setting is optional, a patch is a
    settings value in which the settings to change are present.  A field the platform does
    not have ([cfg]) is absent there: it is [None] in every value of that platform.  The
    cards of the home page are a JSON value that is only passed along. *)

From Stdlib Require Import Ascii String.
From S2P Require Import Prelude Text Yaml Enhance.

Record IVergeTestItem := {
  ti_uid : option string; ti_name : option string; ti_icon : option string; ti_url : option string
}.

Record IVergeTheme := {
  th_primary_color : option string; th_secondary_color : option string;
  th_primary_text : option string; th_secondary_text : option string;
  th_info_color : option string; th_error_color : option string;
  th_warning_color : option string; th_success_color : option string;
  th_font_family : option string; th_css_injection : option string
}.

Record IVerge := {
  iv_app_log_level : option string; iv_app_log_max_size : option Z; iv_app_log_max_count : option Z;
  iv_language : option string; iv_theme_mode : option string; iv_tray_event : option string;
  iv_env_type : option string; iv_start_page : option string; iv_startup_script : option string;
  iv_traffic_graph : option bool; iv_enable_memory_usage : option bool; iv_enable_group_icon : option bool;
  iv_pause_render_traffic_stats_on_blur : option bool; iv_common_tray_icon : option bool;
  iv_tray_icon : option string; iv_menu_icon : option string; iv_menu_order : option (list string);
  iv_notice_position : option string; iv_collapse_navbar : option bool; iv_sysproxy_tray_icon : option bool;
  iv_tun_tray_icon : option bool; iv_enable_tun_mode : option bool; iv_enable_auto_launch : option bool;
  iv_enable_silent_start : option bool; iv_enable_system_proxy : option bool;
  iv_enable_proxy_guard : option bool; iv_enable_bypass_check : option bool;
  iv_enable_dns_settings : option bool; iv_use_default_bypass : option bool;
  iv_system_proxy_bypass : option string; iv_proxy_guard_duration : option Z;
  iv_proxy_auto_config : option bool; iv_pac_file_content : option string; iv_proxy_host : option string;
  iv_theme_setting : option IVergeTheme; iv_web_ui_list : option (list string); iv_clash_core : option string;
  iv_hotkeys : option (list string); iv_enable_global_hotkey : option bool; iv_home_cards : option Value;
  iv_auto_close_connection : option bool; iv_auto_check_update : option bool;
  iv_default_latency_test : option string; iv_default_latency_timeout : option Z;
  iv_enable_auto_delay_detection : option bool; iv_auto_delay_detection_interval_minutes : option Z;
  iv_enable_builtin_enhanced : option bool; iv_proxy_layout_column : option Z;
  iv_test_list : option (list IVergeTestItem); iv_auto_log_clean : option Z;
  iv_enable_auto_backup_schedule : option bool; iv_auto_backup_interval_hours : option Z;
  iv_auto_backup_on_change : option bool; iv_verge_redir_port : option Z; iv_verge_redir_enabled : option bool;
  iv_verge_tproxy_port : option Z; iv_verge_tproxy_enabled : option bool; iv_verge_mixed_port : option Z;
  iv_verge_socks_port : option Z; iv_verge_socks_enabled : option bool; iv_verge_port : option Z;
  iv_verge_http_enabled : option bool; iv_webdav_url : option string; iv_webdav_username : option string;
  iv_webdav_password : option string; iv_enable_tray_speed : option bool;
  iv_tray_proxy_groups_display_mode : option string; iv_tray_inline_outbound_modes : option bool;
  iv_enable_auto_light_weight_mode : option bool; iv_auto_light_weight_minutes : option Z;
  iv_enable_hover_jump_navigator : option bool; iv_hover_jump_navigator_delay : option Z;
  iv_enable_external_controller : option bool
}.

Definition IVerge_default : IVerge := {|
  iv_app_log_level := None; iv_app_log_max_size := None; iv_app_log_max_count := None; iv_language := None;
  iv_theme_mode := None; iv_tray_event := None; iv_env_type := None; iv_start_page := None;
  iv_startup_script := None; iv_traffic_graph := None; iv_enable_memory_usage := None;
  iv_enable_group_icon := None; iv_pause_render_traffic_stats_on_blur := None; iv_common_tray_icon := None;
  iv_tray_icon := None; iv_menu_icon := None; iv_menu_order := None; iv_notice_position := None;
  iv_collapse_navbar := None; iv_sysproxy_tray_icon := None; iv_tun_tray_icon := None;
  iv_enable_tun_mode := None; iv_enable_auto_launch := None; iv_enable_silent_start := None;
  iv_enable_system_proxy := None; iv_enable_proxy_guard := None; iv_enable_bypass_check := None;
  iv_enable_dns_settings := None; iv_use_default_bypass := None; iv_system_proxy_bypass := None;
  iv_proxy_guard_duration := None; iv_proxy_auto_config := None; iv_pac_file_content := None;
  iv_proxy_host := None; iv_theme_setting := None; iv_web_ui_list := None; iv_clash_core := None;
  iv_hotkeys := None; iv_enable_global_hotkey := None; iv_home_cards := None; iv_auto_close_connection := None;
  iv_auto_check_update := None; iv_default_latency_test := None; iv_default_latency_timeout := None;
  iv_enable_auto_delay_detection := None; iv_auto_delay_detection_interval_minutes := None;
  iv_enable_builtin_enhanced := None; iv_proxy_layout_column := None; iv_test_list := None;
  iv_auto_log_clean := None; iv_enable_auto_backup_schedule := None; iv_auto_backup_interval_hours := None;
  iv_auto_backup_on_change := None; iv_verge_redir_port := None; iv_verge_redir_enabled := None;
  iv_verge_tproxy_port := None; iv_verge_tproxy_enabled := None; iv_verge_mixed_port := None;
  iv_verge_socks_port := None; iv_verge_socks_enabled := None; iv_verge_port := None;
  iv_verge_http_enabled := None; iv_webdav_url := None; iv_webdav_username := None; iv_webdav_password := None;
  iv_enable_tray_speed := None; iv_tray_proxy_groups_display_mode := None;
  iv_tray_inline_outbound_modes := None; iv_enable_auto_light_weight_mode := None;
  iv_auto_light_weight_minutes := None; iv_enable_hover_jump_navigator := None;
  iv_hover_jump_navigator_delay := None; iv_enable_external_controller := None
|}.

(** [patch!]: a setting the patch has replaces the present one. *)
Definition patched {A} (new old : option A) : option A := match new with Some _ => new | None => old end.

Definition verge_patch_config (patch self : IVerge) : IVerge := {|
  iv_app_log_level := patched (iv_app_log_level patch) (iv_app_log_level self);
  iv_app_log_max_size := patched (iv_app_log_max_size patch) (iv_app_log_max_size self);
  iv_app_log_max_count := patched (iv_app_log_max_count patch) (iv_app_log_max_count self);
  iv_language := patched (iv_language patch) (iv_language self);
  iv_theme_mode := patched (iv_theme_mode patch) (iv_theme_mode self);
  iv_tray_event := patched (iv_tray_event patch) (iv_tray_event self);
  iv_env_type := patched (iv_env_type patch) (iv_env_type self);
  iv_start_page := patched (iv_start_page patch) (iv_start_page self);
  iv_startup_script := patched (iv_startup_script patch) (iv_startup_script self);
  iv_traffic_graph := patched (iv_traffic_graph patch) (iv_traffic_graph self);
  iv_enable_memory_usage := patched (iv_enable_memory_usage patch) (iv_enable_memory_usage self);
  iv_enable_group_icon := patched (iv_enable_group_icon patch) (iv_enable_group_icon self);
  iv_pause_render_traffic_stats_on_blur := patched (iv_pause_render_traffic_stats_on_blur patch) (iv_pause_render_traffic_stats_on_blur self);
  iv_common_tray_icon := patched (iv_common_tray_icon patch) (iv_common_tray_icon self);
  iv_tray_icon := patched (iv_tray_icon patch) (iv_tray_icon self);
  iv_menu_icon := patched (iv_menu_icon patch) (iv_menu_icon self);
  iv_menu_order := patched (iv_menu_order patch) (iv_menu_order self);
  iv_notice_position := patched (iv_notice_position patch) (iv_notice_position self);
  iv_collapse_navbar := patched (iv_collapse_navbar patch) (iv_collapse_navbar self);
  iv_sysproxy_tray_icon := patched (iv_sysproxy_tray_icon patch) (iv_sysproxy_tray_icon self);
  iv_tun_tray_icon := patched (iv_tun_tray_icon patch) (iv_tun_tray_icon self);
  iv_enable_tun_mode := patched (iv_enable_tun_mode patch) (iv_enable_tun_mode self);
  iv_enable_auto_launch := patched (iv_enable_auto_launch patch) (iv_enable_auto_launch self);
  iv_enable_silent_start := patched (iv_enable_silent_start patch) (iv_enable_silent_start self);
  iv_enable_system_proxy := patched (iv_enable_system_proxy patch) (iv_enable_system_proxy self);
  iv_enable_proxy_guard := patched (iv_enable_proxy_guard patch) (iv_enable_proxy_guard self);
  iv_enable_bypass_check := patched (iv_enable_bypass_check patch) (iv_enable_bypass_check self);
  iv_enable_dns_settings := patched (iv_enable_dns_settings patch) (iv_enable_dns_settings self);
  iv_use_default_bypass := patched (iv_use_default_bypass patch) (iv_use_default_bypass self);
  iv_system_proxy_bypass := patched (iv_system_proxy_bypass patch) (iv_system_proxy_bypass self);
  iv_proxy_guard_duration := patched (iv_proxy_guard_duration patch) (iv_proxy_guard_duration self);
  iv_proxy_auto_config := patched (iv_proxy_auto_config patch) (iv_proxy_auto_config self);
  iv_pac_file_content := patched (iv_pac_file_content patch) (iv_pac_file_content self);
  iv_proxy_host := patched (iv_proxy_host patch) (iv_proxy_host self);
  iv_theme_setting := patched (iv_theme_setting patch) (iv_theme_setting self);
  iv_web_ui_list := patched (iv_web_ui_list patch) (iv_web_ui_list self);
  iv_clash_core := patched (iv_clash_core patch) (iv_clash_core self);
  iv_hotkeys := patched (iv_hotkeys patch) (iv_hotkeys self);
  iv_enable_global_hotkey := patched (iv_enable_global_hotkey patch) (iv_enable_global_hotkey self);
  iv_home_cards := patched (iv_home_cards patch) (iv_home_cards self);
  iv_auto_close_connection := patched (iv_auto_close_connection patch) (iv_auto_close_connection self);
  iv_auto_check_update := patched (iv_auto_check_update patch) (iv_auto_check_update self);
  iv_default_latency_test := patched (iv_default_latency_test patch) (iv_default_latency_test self);
  iv_default_latency_timeout := patched (iv_default_latency_timeout patch) (iv_default_latency_timeout self);
  iv_enable_auto_delay_detection := patched (iv_enable_auto_delay_detection patch) (iv_enable_auto_delay_detection self);
  iv_auto_delay_detection_interval_minutes := patched (iv_auto_delay_detection_interval_minutes patch) (iv_auto_delay_detection_interval_minutes self);
  iv_enable_builtin_enhanced := patched (iv_enable_builtin_enhanced patch) (iv_enable_builtin_enhanced self);
  iv_proxy_layout_column := patched (iv_proxy_layout_column patch) (iv_proxy_layout_column self);
  iv_test_list := patched (iv_test_list patch) (iv_test_list self);
  iv_auto_log_clean := patched (iv_auto_log_clean patch) (iv_auto_log_clean self);
  iv_enable_auto_backup_schedule := patched (iv_enable_auto_backup_schedule patch) (iv_enable_auto_backup_schedule self);
  iv_auto_backup_interval_hours := patched (iv_auto_backup_interval_hours patch) (iv_auto_backup_interval_hours self);
  iv_auto_backup_on_change := patched (iv_auto_backup_on_change patch) (iv_auto_backup_on_change self);
  iv_verge_redir_port := patched (iv_verge_redir_port patch) (iv_verge_redir_port self);
  iv_verge_redir_enabled := patched (iv_verge_redir_enabled patch) (iv_verge_redir_enabled self);
  iv_verge_tproxy_port := patched (iv_verge_tproxy_port patch) (iv_verge_tproxy_port self);
  iv_verge_tproxy_enabled := patched (iv_verge_tproxy_enabled patch) (iv_verge_tproxy_enabled self);
  iv_verge_mixed_port := patched (iv_verge_mixed_port patch) (iv_verge_mixed_port self);
  iv_verge_socks_port := patched (iv_verge_socks_port patch) (iv_verge_socks_port self);
  iv_verge_socks_enabled := patched (iv_verge_socks_enabled patch) (iv_verge_socks_enabled self);
  iv_verge_port := patched (iv_verge_port patch) (iv_verge_port self);
  iv_verge_http_enabled := patched (iv_verge_http_enabled patch) (iv_verge_http_enabled self);
  iv_webdav_url := patched (iv_webdav_url patch) (iv_webdav_url self);
  iv_webdav_username := patched (iv_webdav_username patch) (iv_webdav_username self);
  iv_webdav_password := patched (iv_webdav_password patch) (iv_webdav_password self);
  iv_enable_tray_speed := patched (iv_enable_tray_speed patch) (iv_enable_tray_speed self);
  iv_tray_proxy_groups_display_mode := patched (iv_tray_proxy_groups_display_mode patch) (iv_tray_proxy_groups_display_mode self);
  iv_tray_inline_outbound_modes := patched (iv_tray_inline_outbound_modes patch) (iv_tray_inline_outbound_modes self);
  iv_enable_auto_light_weight_mode := patched (iv_enable_auto_light_weight_mode patch) (iv_enable_auto_light_weight_mode self);
  iv_auto_light_weight_minutes := patched (iv_auto_light_weight_minutes patch) (iv_auto_light_weight_minutes self);
  iv_enable_hover_jump_navigator := patched (iv_enable_hover_jump_navigator patch) (iv_enable_hover_jump_navigator self);
  iv_hover_jump_navigator_delay := patched (iv_hover_jump_navigator_delay patch) (iv_hover_jump_navigator_delay self);
  iv_enable_external_controller := patched (iv_enable_external_controller patch) (iv_enable_external_controller self)
|}.

Definition set_clash_core (core : option string) (self : IVerge) : IVerge := {|
  iv_app_log_level := iv_app_log_level self; iv_app_log_max_size := iv_app_log_max_size self;
  iv_app_log_max_count := iv_app_log_max_count self; iv_language := iv_language self;
  iv_theme_mode := iv_theme_mode self; iv_tray_event := iv_tray_event self; iv_env_type := iv_env_type self;
  iv_start_page := iv_start_page self; iv_startup_script := iv_startup_script self;
  iv_traffic_graph := iv_traffic_graph self; iv_enable_memory_usage := iv_enable_memory_usage self;
  iv_enable_group_icon := iv_enable_group_icon self;
  iv_pause_render_traffic_stats_on_blur := iv_pause_render_traffic_stats_on_blur self;
  iv_common_tray_icon := iv_common_tray_icon self; iv_tray_icon := iv_tray_icon self;
  iv_menu_icon := iv_menu_icon self; iv_menu_order := iv_menu_order self;
  iv_notice_position := iv_notice_position self; iv_collapse_navbar := iv_collapse_navbar self;
  iv_sysproxy_tray_icon := iv_sysproxy_tray_icon self; iv_tun_tray_icon := iv_tun_tray_icon self;
  iv_enable_tun_mode := iv_enable_tun_mode self; iv_enable_auto_launch := iv_enable_auto_launch self;
  iv_enable_silent_start := iv_enable_silent_start self; iv_enable_system_proxy := iv_enable_system_proxy self;
  iv_enable_proxy_guard := iv_enable_proxy_guard self; iv_enable_bypass_check := iv_enable_bypass_check self;
  iv_enable_dns_settings := iv_enable_dns_settings self; iv_use_default_bypass := iv_use_default_bypass self;
  iv_system_proxy_bypass := iv_system_proxy_bypass self;
  iv_proxy_guard_duration := iv_proxy_guard_duration self; iv_proxy_auto_config := iv_proxy_auto_config self;
  iv_pac_file_content := iv_pac_file_content self; iv_proxy_host := iv_proxy_host self;
  iv_theme_setting := iv_theme_setting self; iv_web_ui_list := iv_web_ui_list self; iv_clash_core := core;
  iv_hotkeys := iv_hotkeys self; iv_enable_global_hotkey := iv_enable_global_hotkey self;
  iv_home_cards := iv_home_cards self; iv_auto_close_connection := iv_auto_close_connection self;
  iv_auto_check_update := iv_auto_check_update self; iv_default_latency_test := iv_default_latency_test self;
  iv_default_latency_timeout := iv_default_latency_timeout self;
  iv_enable_auto_delay_detection := iv_enable_auto_delay_detection self;
  iv_auto_delay_detection_interval_minutes := iv_auto_delay_detection_interval_minutes self;
  iv_enable_builtin_enhanced := iv_enable_builtin_enhanced self;
  iv_proxy_layout_column := iv_proxy_layout_column self; iv_test_list := iv_test_list self;
  iv_auto_log_clean := iv_auto_log_clean self;
  iv_enable_auto_backup_schedule := iv_enable_auto_backup_schedule self;
  iv_auto_backup_interval_hours := iv_auto_backup_interval_hours self;
  iv_auto_backup_on_change := iv_auto_backup_on_change self; iv_verge_redir_port := iv_verge_redir_port self;
  iv_verge_redir_enabled := iv_verge_redir_enabled self; iv_verge_tproxy_port := iv_verge_tproxy_port self;
  iv_verge_tproxy_enabled := iv_verge_tproxy_enabled self; iv_verge_mixed_port := iv_verge_mixed_port self;
  iv_verge_socks_port := iv_verge_socks_port self; iv_verge_socks_enabled := iv_verge_socks_enabled self;
  iv_verge_port := iv_verge_port self; iv_verge_http_enabled := iv_verge_http_enabled self;
  iv_webdav_url := iv_webdav_url self; iv_webdav_username := iv_webdav_username self;
  iv_webdav_password := iv_webdav_password self; iv_enable_tray_speed := iv_enable_tray_speed self;
  iv_tray_proxy_groups_display_mode := iv_tray_proxy_groups_display_mode self;
  iv_tray_inline_outbound_modes := iv_tray_inline_outbound_modes self;
  iv_enable_auto_light_weight_mode := iv_enable_auto_light_weight_mode self;
  iv_auto_light_weight_minutes := iv_auto_light_weight_minutes self;
  iv_enable_hover_jump_navigator := iv_enable_hover_jump_navigator self;
  iv_hover_jump_navigator_delay := iv_hover_jump_navigator_delay self;
  iv_enable_external_controller := iv_enable_external_controller self
|}.

Definition quote : string := String "034" EmptyString.
Definition line_end : string := String "010" EmptyString.
Definition DEFAULT_PAC : string :=
  String.concat EmptyString
    ["function FindProxyForURL(url, host) {"; line_end;
     "  return "; quote; "PROXY 127.0.0.1:%mixed-port%; SOCKS5 127.0.0.1:%mixed-port%; DIRECT;"; quote; ";"; line_end;
     "}"; line_end]%string.

Definition verge_template (platform : Platform) (system_language : string) : IVerge := {|
  iv_app_log_level := None; iv_app_log_max_size := Some 128; iv_app_log_max_count := Some 8;
  iv_language := Some system_language; iv_theme_mode := Some "system"%string; iv_tray_event := None;
  iv_env_type := match platform with Windows => Some "powershell"%string | _ => Some "bash"%string end;
  iv_start_page := Some "/"%string; iv_startup_script := None; iv_traffic_graph := Some true;
  iv_enable_memory_usage := Some true; iv_enable_group_icon := Some true;
  iv_pause_render_traffic_stats_on_blur := Some true; iv_common_tray_icon := Some false;
  iv_tray_icon := match platform with OtherUnix => Some "monochrome"%string | _ => None end;
  iv_menu_icon := Some "monochrome"%string; iv_menu_order := None;
  iv_notice_position := Some "top-right"%string; iv_collapse_navbar := Some false;
  iv_sysproxy_tray_icon := Some false; iv_tun_tray_icon := Some false; iv_enable_tun_mode := None;
  iv_enable_auto_launch := Some false; iv_enable_silent_start := Some false;
  iv_enable_system_proxy := Some false; iv_enable_proxy_guard := Some false;
  iv_enable_bypass_check := Some true; iv_enable_dns_settings := Some false;
  iv_use_default_bypass := Some true; iv_system_proxy_bypass := None; iv_proxy_guard_duration := Some 30;
  iv_proxy_auto_config := Some false; iv_pac_file_content := Some DEFAULT_PAC;
  iv_proxy_host := Some "127.0.0.1"%string; iv_theme_setting := None; iv_web_ui_list := None;
  iv_clash_core := Some "verge-mihomo"%string; iv_hotkeys := None; iv_enable_global_hotkey := Some true;
  iv_home_cards := None; iv_auto_close_connection := Some true; iv_auto_check_update := Some true;
  iv_default_latency_test := None; iv_default_latency_timeout := None; iv_enable_auto_delay_detection := None;
  iv_auto_delay_detection_interval_minutes := None; iv_enable_builtin_enhanced := Some true;
  iv_proxy_layout_column := None; iv_test_list := None; iv_auto_log_clean := Some 2;
  iv_enable_auto_backup_schedule := Some false; iv_auto_backup_interval_hours := Some 24;
  iv_auto_backup_on_change := Some true;
  iv_verge_redir_port := match platform with Windows => None | _ => Some 7895 end;
  iv_verge_redir_enabled := match platform with Windows => None | _ => Some false end;
  iv_verge_tproxy_port := match platform with Linux => Some 7896 | _ => None end;
  iv_verge_tproxy_enabled := match platform with Linux => Some false | _ => None end;
  iv_verge_mixed_port := Some 7897; iv_verge_socks_port := Some 7898; iv_verge_socks_enabled := Some false;
  iv_verge_port := Some 7899; iv_verge_http_enabled := Some false; iv_webdav_url := None;
  iv_webdav_username := None; iv_webdav_password := None;
  iv_enable_tray_speed := match platform with OtherUnix => Some false | _ => None end;
  iv_tray_proxy_groups_display_mode := Some "default"%string; iv_tray_inline_outbound_modes := Some false;
  iv_enable_auto_light_weight_mode := Some false; iv_auto_light_weight_minutes := Some 10;
  iv_enable_hover_jump_navigator := Some true; iv_hover_jump_navigator_delay := Some 280;
  iv_enable_external_controller := Some false
|}.

Definition VALID_CLASH_CORES : list string := ["verge-mihomo"; "verge-mihomo-alpha"]%string.

Definition get_valid_clash_core (v : IVerge) : string :=
  match iv_clash_core v with Some c => c | None => "verge-mihomo"%string end.

(** [validate_and_fix_config]: the settings after it, and whether they were changed (and are
    saved and reloaded). *)
Definition fix_clash_core (config : IVerge) : IVerge * bool :=
  match iv_clash_core config with
  | Some core =>
      let core_str := trim core in
      if is_empty core_str || negb (bool_decide (core_str ∈ VALID_CLASH_CORES))
      then (set_clash_core (Some "verge-mihomo"%string) config, true)
      else (config, false)
  | None => (set_clash_core (Some "verge-mihomo"%string) config, true)
  end.

Definition validate_and_fix_config (platform : Platform) (system_language : string)
    (read : option IVerge) : IVerge * bool :=
  fix_clash_core (default (verge_template platform system_language) read).

Inductive LevelFilter : Type := LevelOff | LevelError | LevelWarn | LevelInfo | LevelDebug | LevelTrace.

(** [to_lowercase]: no name here has a letter that comes from outside ASCII. *)
Definition get_log_level (v : IVerge) : LevelFilter :=
  match iv_app_log_level v with
  | Some level =>
      let level := to_ascii_lowercase level in
      if bool_decide (level = "silent"%string) then LevelOff
      else if bool_decide (level = "error"%string) then LevelError
      else if bool_decide (level = "warn"%string) then LevelWarn
      else if bool_decide (level = "info"%string) then LevelInfo
      else if bool_decide (level = "debug"%string) then LevelDebug
      else if bool_decide (level = "trace"%string) then LevelTrace
      else LevelInfo
  | None => LevelInfo
  end.

(** ** patches *)

Lemma patched_assoc {A} (c b a : option A) : patched c (patched b a) = patched (patched c b) a.
Proof. by destruct c. Qed.
Lemma patched_same {A} (b a : option A) : patched b (patched b a) = patched b a.
Proof. by destruct b. Qed.

(** Two patches in a row are one patch, the later one winning, and the same patch twice is
    that patch once; the empty patch changes nothing. *)
Lemma verge_patch_assoc c b a :
  verge_patch_config c (verge_patch_config b a) = verge_patch_config (verge_patch_config c b) a.
Proof. unfold verge_patch_config. cbn. by rewrite !patched_assoc. Qed.

Lemma verge_patch_twice p a : verge_patch_config p (verge_patch_config p a) = verge_patch_config p a.
Proof. unfold verge_patch_config. cbn. by rewrite !patched_same. Qed.

Lemma verge_patch_default a : verge_patch_config IVerge_default a = a.
Proof. by destruct a. Qed.

(** After the check the core's name, without blanks around it, is one of the two. *)
Lemma fixed_core_is_valid platform lang read :
  trim (get_valid_clash_core (validate_and_fix_config platform lang read).1) ∈ VALID_CLASH_CORES.
Proof.
  unfold validate_and_fix_config, fix_clash_core. set (config := default _ read).
  destruct (iv_clash_core config) as [core|] eqn:Hc; [destruct (is_empty _ || _) eqn:Hv|]; cbn [fst].
  1, 3: (change (trim "verge-mihomo" ∈ VALID_CLASH_CORES); by apply (bool_decide_eq_true_1 (_ ∈ _))).
  apply orb_false_iff in Hv as [_ Hv]. apply negb_false_iff, bool_decide_eq_true in Hv.
  unfold get_valid_clash_core. by rewrite Hc.
Qed.
