(* ===== verification/Updater.v ===== *)
(** * Updater: the silent updater

    [src-tauri/src/core/updater.rs]: the contract of an owned update, the cached download,
    the install at the next start and the background check.  JSON, semantic versions,
    base64 and minisign are the class [UpdateLib]; files, dialogs, the update server and the
    installer are the class [UpdateOs].  The splash window is left out. *)

From Stdlib Require Import Ascii String.
From S2P Require Import Prelude Text MacosRoute Validation.

Definition APP_UPDATES_ENABLED : bool := false.
Definition OWNED_PLATFORM : string := "darwin-aarch64-app".

Inductive OwnedUpdateChannel : Type := ChannelStable | ChannelCandidate | ChannelInternal.

Record OwnedUpdateArtifact := { oa_url : string; oa_signature : string; oa_sha256 : string; oa_size : Z }.

Record OwnedUpdatePolicy := {
  op_schema_version : Z;
  op_source_commit : string;
  op_rollback_version : string;
  op_channel : OwnedUpdateChannel;
  op_sample : bool;
}.

Record OwnedUpdateManifest := {
  om_version : string;
  om_notes : string;
  om_pub_date : string;
  om_platforms : gmap string OwnedUpdateArtifact;
  om_kyclash : OwnedUpdatePolicy;
}.

Record UpdateCacheMeta := { cache_version : string; cache_downloaded_at : string }.

(** What the libraries do. *)
Class UpdateLib := {
  Json : Type;
  json_manifest : Json -> option OwnedUpdateManifest;
  meta_print : UpdateCacheMeta -> option (list ascii);
  meta_parse : list ascii -> option UpdateCacheMeta;
  SemVer : Type;
  semver_parse : string -> option SemVer;
  semver_ltb : SemVer -> SemVer -> bool;
  b64_decode : string -> option (list ascii);
  MinisignKey : Type;
  MinisignSignature : Type;
  key_decode : string -> option MinisignKey;
  signature_decode : string -> option MinisignSignature;
  minisign_verify : MinisignKey -> list ascii -> MinisignSignature -> bool;
}.

Section updates.
Context `{UpdateLib}.

(** [Update] of the plugin: what the server announced. *)
Record Update := {
  up_raw_json : Json;
  up_version : string;
  up_download_url : string;
  up_signature : string;
  up_body : option string;
}.

(** [trim().is_empty()] *)
Definition is_blank (s : string) : bool := forallb char_is_whitespace (chars s).

Definition is_lower_hex (c : ascii) : bool := is_ascii_digit c || in_range "a" "f" c.

Definition expected_url (version : string) : string :=
  String.append "https://github.com/kysion/kyclash/releases/download/v" (String.append version
    (String.append "/KyClash_" (String.append version "_aarch64.app.tar.gz"))).

(** Which requirement of the metadata is not met. *)
Inductive UpdateRejection : Type :=
| RejectJson | RejectVersion | RejectNotes | RejectDate | RejectPlatforms | RejectPlatformMissing | RejectForeignUrl
| RejectUrl | RejectSignature | RejectSize | RejectSha256 | RejectSchema | RejectSample | RejectCommit | RejectSemver
| RejectRollback.

Definition validate_owned_update_metadata (raw_json : Json) (announced_version announced_url announced_signature : string)
  : result unit UpdateRejection :=
  let? manifest := ok_or (json_manifest raw_json) RejectJson in
  ensure (bool_decide (om_version manifest = announced_version)) RejectVersion ;?
  ensure (negb (is_blank (om_notes manifest))) RejectNotes ;?
  ensure (negb (is_blank (om_pub_date manifest))) RejectDate ;?
  ensure (bool_decide (size (om_platforms manifest) = 1%nat)) RejectPlatforms ;?
  let? artifact := ok_or (om_platforms manifest !! OWNED_PLATFORM) RejectPlatformMissing in
  ensure (bool_decide (oa_url artifact = expected_url (om_version manifest))) RejectForeignUrl ;?
  ensure (bool_decide (oa_url artifact = announced_url)) RejectUrl ;?
  ensure (bool_decide (oa_signature artifact = announced_signature)) RejectSignature ;?
  ensure (0 <? oa_size artifact) RejectSize ;?
  ensure ((len (oa_sha256 artifact) =? 64) && all_bytes is_lower_hex (oa_sha256 artifact)) RejectSha256 ;?
  let policy := om_kyclash manifest in
  ensure (op_schema_version policy =? 1) RejectSchema ;?
  ensure (negb (op_sample policy)) RejectSample ;?
  ensure ((len (op_source_commit policy) =? 40) && all_bytes is_lower_hex (op_source_commit policy)
          && any_byte (fun b => negb (bool_decide (b = "0"%char))) (op_source_commit policy)) RejectCommit ;?
  let? version := ok_or (semver_parse (om_version manifest)) RejectSemver in
  let? rollback_version := ok_or (semver_parse (op_rollback_version policy)) RejectSemver in
  ensure (semver_ltb rollback_version version) RejectRollback.

Definition validate_owned_update (update : Update) : result unit UpdateRejection :=
  validate_owned_update_metadata (up_raw_json update) (up_version update) (up_download_url update) (up_signature update).

(** [std::str::from_utf8(..)?] *)
Definition from_utf8 (l : list ascii) : option string :=
  if utf8_valid (length l) (map byte l) then Some (str l) else None.

Definition verify_cached_update_signature (update_bytes : list ascii) (encoded_signature encoded_public_key : string) : bool :=
  match (b64_decode encoded_public_key ≫= from_utf8) ≫= key_decode with
  | None => false
  | Some public_key =>
      match (b64_decode encoded_signature ≫= from_utf8) ≫= signature_decode with
      | None => false
      | Some signature => minisign_verify public_key update_bytes signature
      end
  end.

(** ** versions *)

Fixpoint trim_start_v (l : list ascii) : list ascii :=
  match l with c :: r => if bool_decide (c = "v"%char) then trim_start_v r else l | [] => [] end.

Definition version_parts (v : string) : list Z :=
  omap (fun part => parse_uint u64_max (match split part "-" with numeric :: _ => numeric | [] => "0"%string end))
       (split (str (trim_start_v (bytes v))) ".").

(** The loop over the parts; a missing part is 0. *)
Fixpoint parts_lte (n : nat) (i : nat) (a b : list Z) : bool :=
  match n with
  | O => true
  | S n =>
      let av := default 0 (a !! i) in
      let bv := default 0 (b !! i) in
      if av <? bv then true else if bv <? av then false else parts_lte n (S i) a b
  end.

Definition version_lte (a b : string) : bool :=
  let a_parts := version_parts a in
  let b_parts := version_parts b in
  parts_lte (max (length a_parts) (length b_parts)) 0 a_parts b_parts.

(** ** the system *)

(** How the blocking install ended within its thirty seconds. *)
Inductive InstallEnd : Type := InstallDone | InstallFailed | InstallPanicked | InstallTimedOut.

(** What the server answers. *)
Inductive CheckAnswer : Type := CheckUpdate (u : Update) | CheckNothing | CheckFailed.

Class UpdateOs (W : Type) := {
  uo_home_dir : W -> option string;
  uo_create_dir : string -> W -> bool * W;
  uo_write : string -> list ascii -> W -> bool * W;
  uo_read : string -> W -> option (list ascii);
  uo_exists : string -> W -> bool;
  uo_remove_dir_all : string -> W -> W;
  uo_now : W -> string;
  uo_current_version : string;
  uo_public_key : option string;
  uo_ask_user : string -> W -> bool * W;
  (* the updater of the application, or [None] when it cannot be made, and its check *)
  uo_check : W -> option CheckAnswer * W;
  uo_download : Update -> W -> option (list ascii) * W;
  uo_install : Update -> list ascii -> W -> InstallEnd * W;
  uo_is_portable : bool;
  uo_auto_check : W -> option bool;
  uo_notice : string -> string -> W -> W;
}.

Record SilentUpdater (W : Type) := {
  su_world : W;
  su_update_ready : bool;
  su_pending_bytes : option (list ascii);
  su_pending_update : option Update;
  su_pending_version : option string;
}.
Arguments su_world {W} _.
Arguments su_update_ready {W} _.
Arguments su_pending_bytes {W} _.
Arguments su_pending_update {W} _.
Arguments su_pending_version {W} _.

Section os.
Context {W : Type} `{UpdateOs W}.

Definition updater_new (w : W) : SilentUpdater W :=
  {| su_world := w; su_update_ready := false; su_pending_bytes := None; su_pending_update := None;
     su_pending_version := None |}.

(** [Path::join] *)
Definition join (dir name : string) : string := String.append dir (String.append "/" name).

Definition cache_dir (w : W) : option string :=
  match uo_home_dir w with Some home => Some (join home "update_cache") | None => None end.

(** Whether the cache was written; the bytes come first. *)
Definition write_cache (update_bytes : list ascii) (version : string) (w : W) : bool * W :=
  match cache_dir w with
  | None => (false, w)
  | Some dir =>
      let (made, w) := uo_create_dir dir w in
      if negb made then (false, w)
      else
        let (written, w) := uo_write (join dir "pending_update.bin") update_bytes w in
        if negb written then (false, w)
        else
          match meta_print {| cache_version := version; cache_downloaded_at := uo_now w |} with
          | None => (false, w)
          | Some text => uo_write (join dir "pending_update.json") text w
          end
  end.

Definition read_cache_bytes (w : W) : option (list ascii) :=
  match cache_dir w with Some dir => uo_read (join dir "pending_update.bin") w | None => None end.

Definition read_cache_meta (w : W) : option UpdateCacheMeta :=
  match cache_dir w with
  | Some dir =>
      match uo_read (join dir "pending_update.json") w with
      | Some content => match from_utf8 content with Some _ => meta_parse content | None => None end
      | None => None
      end
  | None => None
  end.

Definition delete_cache (w : W) : W :=
  match cache_dir w with
  | Some dir => if uo_exists dir w then uo_remove_dir_all dir w else w
  | None => w
  end.

Definition verify_cached_update_for_install (update : Update) (update_bytes : list ascii) : bool :=
  match uo_public_key with
  | Some public_key => verify_cached_update_signature update_bytes (up_signature update) public_key
  | None => false
  end.

(** What is done with the answer of the server. *)
Definition install_checked (cached_version : string) (update_bytes : list ascii) (update : Update) (w : W) : bool * W :=
  if negb (is_ok (validate_owned_update update)) then (false, delete_cache w)
  else if negb (bool_decide (up_version update = cached_version)) then (false, delete_cache w)
  else if negb (verify_cached_update_for_install update update_bytes) then (false, delete_cache w)
  else
    match uo_install update update_bytes w with
    | (InstallDone, w) => (true, delete_cache w)
    | (InstallFailed, w) | (InstallPanicked, w) | (InstallTimedOut, w) => (false, w)
    end.

Definition try_install_on_startup (w : W) : bool * W :=
  match read_cache_meta w with
  | None => (false, w)
  | Some meta =>
      let cached_version := cache_version meta in
      if version_lte cached_version uo_current_version then (false, delete_cache w)
      else
        let (confirmed, w) := uo_ask_user cached_version w in
        if negb confirmed then (false, w)
        else
          match read_cache_bytes w with
          | None => (false, delete_cache w)
          | Some update_bytes =>
              match uo_check w with
              | (Some (CheckUpdate update), w) => install_checked cached_version update_bytes update w
              | (Some CheckNothing, w) => (false, delete_cache w)
              | (Some CheckFailed, w) | (None, w) => (false, w)
              end
          end
  end.

(** [str::to_lowercase] as far as ASCII letters come out of it: besides the ASCII capitals,
    the Kelvin sign becomes [k] and the dotted capital I an [i] with a mark. *)
Fixpoint lowercase_bytes (l : list ascii) : list ascii :=
  match l with
  | "226"%char :: "132"%char :: "170"%char :: r => "k"%char :: lowercase_bytes r
  | "196"%char :: "176"%char :: r => "i"%char :: "204"%char :: "135"%char :: lowercase_bytes r
  | c :: r => to_ascii_lowercase_byte c :: lowercase_bytes r
  | [] => []
  end.

Definition announces_break (update : Update) : bool :=
  match up_body update with Some body => infix_bytes (bytes "break change") (lowercase_bytes (bytes body)) | None => false end.

Definition su_set_world (w : W) (su : SilentUpdater W) : SilentUpdater W :=
  {| su_world := w; su_update_ready := su_update_ready su; su_pending_bytes := su_pending_bytes su;
     su_pending_update := su_pending_update su; su_pending_version := su_pending_version su |}.

(** Whether the cycle ended without an error, and the updater after it. *)
Definition check_and_download (su : SilentUpdater W) : bool * SilentUpdater W :=
  let w := su_world su in
  if uo_is_portable then (true, su)
  else if negb (default true (uo_auto_check w)) then (true, su)
  else if su_update_ready su then (true, su)
  else
    match uo_check w with
    | (None, w) | (Some CheckFailed, w) => (false, su_set_world w su)
    | (Some CheckNothing, w) => (true, su_set_world w su)
    | (Some (CheckUpdate update), w) =>
        if negb (is_ok (validate_owned_update update)) then (false, su_set_world w su)
        else if announces_break update
        then (true, su_set_world (uo_notice "info" (String.append "New version v" (String.append (up_version update)
                      " contains breaking changes. Please update manually.")) w) su)
        else
          match uo_download update w with
          | (None, w) => (false, su_set_world w su)
          | (Some update_bytes, w) =>
              let (_, w) := write_cache update_bytes (up_version update) w in
              (true, {| su_world := w; su_update_ready := true; su_pending_bytes := Some update_bytes;
                        su_pending_update := Some update; su_pending_version := Some (up_version update) |})
          end
    end.
(** [start_background_check] after so many cycles of its endless loop; an error of a cycle is
    only logged. *)
Fixpoint start_background_check (cycles : nat) (su : SilentUpdater W) : SilentUpdater W :=
  match cycles with
  | O => su
  | S cycles => (check_and_download (start_background_check cycles su)).2
  end.
End os.
End updates.
Arguments su_world {_ W} _.
Arguments su_update_ready {_ W} _.
Arguments su_pending_bytes {_ W} _.
Arguments su_pending_update {_ W} _.
Arguments su_pending_version {_ W} _.

(** * What the updater installs

    The metadata check is exactly the contract of an owned update; versions are ordered; and
    at start only a newer owned update is installed, with bytes its signature covers, after
    the user agreed. *)

(** ** the contract *)

Section contract.
Context `{UpdateLib}.

(** The metadata [m] and the artifact [a] behind the announcement [u]. *)
Record owned_by (u : Update) (m : OwnedUpdateManifest) (a : OwnedUpdateArtifact) : Prop := {
  ow_json : json_manifest (up_raw_json u) = Some m;
  ow_version : om_version m = up_version u;
  ow_texts : is_blank (om_notes m) = false /\ is_blank (om_pub_date m) = false;
  ow_platform : om_platforms m = {[OWNED_PLATFORM := a]};
  ow_url : up_download_url u = expected_url (up_version u) /\ oa_url a = up_download_url u;
  ow_signature : oa_signature a = up_signature u;
  ow_content : 0 < oa_size a /\ len (oa_sha256 a) = 64 /\ Forall (fun c => is_lower_hex c = true) (bytes (oa_sha256 a));
  ow_policy : op_schema_version (om_kyclash m) = 1 /\ op_sample (om_kyclash m) = false;
  ow_commit : len (op_source_commit (om_kyclash m)) = 40 /\
              Forall (fun c => is_lower_hex c = true) (bytes (op_source_commit (om_kyclash m))) /\
              exists c, c ∈ bytes (op_source_commit (om_kyclash m)) /\ c <> "0"%char;
  ow_rollback : exists v r, semver_parse (up_version u) = Some v /\
                semver_parse (op_rollback_version (om_kyclash m)) = Some r /\ semver_ltb r v = true;
}.
Definition owned (u : Update) : Prop := exists m a, owned_by u m a.

Lemma all_bytes_forall p s : all_bytes p s = true <-> Forall (fun c => p c = true) (bytes s).
Proof.
  unfold all_bytes. induction (bytes s) as [|c l IH]; cbn; [by split|].
  rewrite andb_true_iff, IH, Forall_cons. done.
Qed.

Lemma any_byte_exists p s : any_byte p s = true <-> exists c, c ∈ bytes s /\ p c = true.
Proof.
  unfold any_byte. rewrite existsb_exists. split; intros (c & Hin & Hp); exists c; (split; [|done]).
  - by apply list_elem_of_In.
  - by apply list_elem_of_In.
Qed.

Lemma sole_platform (m : gmap string OwnedUpdateArtifact) a :
  size m = 1%nat /\ m !! OWNED_PLATFORM = Some a <-> m = {[OWNED_PLATFORM := a]}.
Proof.
  split.
  - intros [Hs Hl]. rewrite <- (insert_delete_id m OWNED_PLATFORM a Hl) in Hs.
    rewrite map_size_insert_None in Hs by apply lookup_delete_eq. injection Hs as Hs. apply map_size_empty_inv in Hs.
    by rewrite <- (insert_delete_id m OWNED_PLATFORM a Hl), Hs.
  - intros ->. split; [apply map_size_singleton|apply lookup_singleton_eq].
Qed.

(** The check accepts exactly the owned updates. *)
Lemma validate_exactly_owned u : validate_owned_update u = Ok tt <-> owned u.
Proof.
  unfold validate_owned_update, validate_owned_update_metadata. split.
  - intros Hv. apply rbind_ok in Hv as (m & Hm & Hv). apply ok_or_ok in Hm.
    repeat (apply rbind_ok in Hv as ([] & ?%ensure_ok & Hv)).
    apply rbind_ok in Hv as (a & Ha%ok_or_ok & Hv).
    repeat (apply rbind_ok in Hv as ([] & ?%ensure_ok & Hv)).
    apply rbind_ok in Hv as (v & Hsv%ok_or_ok & Hv). apply rbind_ok in Hv as (r & Hsr%ok_or_ok & Hv).
    apply ensure_ok in Hv. reflect_bools.
    exists m, a. split; try done; [by apply sole_platform|by split; congruence|by rewrite <- all_bytes_forall| |].
    + rewrite <- all_bytes_forall. split_and!; [done..|].
      match goal with Hx : any_byte _ _ = true |- _ => apply any_byte_exists in Hx as (c & Hin & Hc) end.
      exists c. split; [done|]. by reflect_bools.
    + exists v, r. by split_and!; [congruence|..].
  - intros (m & a & [Hj Hver [Hn Hd] Hp [Hu Hu'] Hs (Hsize & Hl & Hh) [Hsc Hsa] (Hcl & Hch & c & Hc & Hc0)
      (v & r & Hv & Hr & Hlt)]).
    apply sole_platform in Hp as [Hp1 Hp2]. apply all_bytes_forall in Hh, Hch.
    rewrite Hj. cbn [ok_or rbind]. rewrite (bool_decide_eq_true_2 _ Hver), Hn, Hd, (bool_decide_eq_true_2 _ Hp1), Hp2.
    cbn [negb ensure rbind ok_or]. rewrite Hver, !bool_decide_eq_true_2 by congruence.
    rewrite (proj2 (Z.ltb_lt _ _) Hsize), (proj2 (Z.eqb_eq _ _) Hl), Hh, (proj2 (Z.eqb_eq _ _) Hsc), Hsa,
      (proj2 (Z.eqb_eq _ _) Hcl), Hch.
    assert (any_byte (fun b => negb (bool_decide (b = "0"%char))) (op_source_commit (om_kyclash m)) = true) as ->.
    { apply any_byte_exists. exists c. split; [done|]. by rewrite bool_decide_eq_false_2. }
    cbn [negb andb ensure rbind ok_or]. rewrite Hv, Hr. cbn [ok_or rbind]. by rewrite Hlt.
Qed.
End contract.

(** ** the order of versions *)

(** A comparison over more positions than either version has parts is the same. *)
Lemma parts_lte_more n k i a b :
  (length a <= n + i)%nat -> (length b <= n + i)%nat -> parts_lte (n + k) i a b = parts_lte n i a b.
Proof.
  revert i. induction n as [|n IH]; intros i Ha Hb; cbn [parts_lte Nat.add].
  - revert i Ha Hb. induction k as [|k IHk]; intros i Ha Hb; [done|]. cbn [parts_lte].
    rewrite !lookup_ge_None_2 by lia. cbn. apply IHk; lia.
  - by rewrite IH by lia.
Qed.

Lemma parts_lte_refl n i a : parts_lte n i a a = true.
Proof. revert i. induction n as [|n IH]; intros i; [done|]. cbn. by rewrite Z.ltb_irrefl. Qed.

Lemma parts_lte_total n i a b : parts_lte n i a b = true \/ parts_lte n i b a = true.
Proof.
  revert i. induction n as [|n IH]; intros i; [by left|]. cbn.
  destruct (default 0 (a !! i) <? default 0 (b !! i)) eqn:E1; [by left|].
  destruct (default 0 (b !! i) <? default 0 (a !! i)) eqn:E2; [by right|]. apply IH.
Qed.

Lemma parts_lte_trans n i a b c : parts_lte n i a b = true -> parts_lte n i b c = true -> parts_lte n i a c = true.
Proof.
  revert i. induction n as [|n IH]; intros i; [done|]. cbn.
  generalize (default 0 (a !! i)) (default 0 (b !! i)) (default 0 (c !! i)). intros x y z Hab Hbc.
  destruct (x <? z) eqn:Exz; [done|]. destruct (x <? y) eqn:Exy, (y <? x) eqn:Eyx, (y <? z) eqn:Eyz, (z <? y) eqn:Ezy,
    (z <? x) eqn:Ezx; try done; reflect_bools; try lia. by apply (IH (S i)).
Qed.

(** The comparison at a common number of positions. *)
Lemma version_lte_at n a b :
  (length (version_parts a) <= n)%nat -> (length (version_parts b) <= n)%nat ->
  version_lte a b = parts_lte n 0 (version_parts a) (version_parts b).
Proof.
  intros Ha Hb. unfold version_lte. set (m := max _ _). replace n with (m + (n - m))%nat by lia.
  symmetry. apply parts_lte_more; lia.
Qed.

(** Versions are ordered: the comparison is reflexive, total and transitive. *)
Theorem versions_are_ordered a b c :
  version_lte a a = true /\ (version_lte a b = true \/ version_lte b a = true) /\
  (version_lte a b = true -> version_lte b c = true -> version_lte a c = true).
Proof.
  set (n := max (length (version_parts a)) (max (length (version_parts b)) (length (version_parts c)))).
  rewrite !(version_lte_at n) by lia. split_and!; [apply parts_lte_refl|apply parts_lte_total|apply parts_lte_trans].
Qed.

(** ** installing *)

(** What was handed to the installer: only the install adds to it. *)
Class InstallLaws (W : Type) {UL : UpdateLib} {UO : UpdateOs W} := {
  installed : W -> list (Update * list ascii);
  law_installed_install u b w : installed (uo_install u b w).2 = installed w ++ [(u, b)];
  law_installed_ask v w : installed (uo_ask_user v w).2 = installed w;
  law_installed_check w : installed (uo_check w).2 = installed w;
  law_installed_remove dir w : installed (uo_remove_dir_all dir w) = installed w;
}.

Section installing.
Context {W : Type} {UL : UpdateLib} {UO : UpdateOs W} {HL : InstallLaws W}.

Lemma installed_delete_cache w : installed (delete_cache w) = installed w.
Proof. unfold delete_cache. destruct (cache_dir w); [|done]. destruct (uo_exists _ _); [apply law_installed_remove|done]. Qed.

(** Everything that has to be so before bytes are handed to the installer, when the
    program starts in [w]: the cache names a version newer than the program, the user was
    asked about that version and agreed, the cache then holds [b], the server, asked after
    that, offers [u] of exactly that version, [u] is an owned update, and the configured
    key signed [b]. *)
Record ready_to_install (w : W) (u : Update) (b : list ascii) (offered : W) : Prop := {
  ri_cached : exists dir text meta, uo_home_dir w = Some dir /\
    uo_read (String.append dir "/update_cache/pending_update.json") w = Some text /\
    is_Some (from_utf8 text) /\ meta_parse text = Some meta /\ cache_version meta = up_version u;
  ri_newer : version_lte (up_version u) uo_current_version = false;
  ri_agreed : exists asked dir, uo_ask_user (up_version u) w = (true, asked) /\
    uo_home_dir asked = Some dir /\
    uo_read (String.append dir "/update_cache/pending_update.bin") asked = Some b /\
    uo_check asked = (Some (CheckUpdate u), offered);
  ri_owned : owned u;
  ri_signed : exists key, uo_public_key = Some key /\ verify_cached_update_signature b (up_signature u) key = true;
}.

Lemma cache_path home name :
  join (join home "update_cache") name = String.append home (String.append "/update_cache/" name).
Proof.
  unfold join. apply bytes_inj. rewrite !bytes_append, <- !app_assoc. f_equal.
Qed.

Lemma read_cache_meta_some w meta :
  read_cache_meta w = Some meta <->
  exists dir text, uo_home_dir w = Some dir /\
    uo_read (String.append dir "/update_cache/pending_update.json") w = Some text /\
    is_Some (from_utf8 text) /\ meta_parse text = Some meta.
Proof.
  unfold read_cache_meta, cache_dir. destruct (uo_home_dir w) as [dir|]; [|split; [done|by intros (? & ? & ? & _)]].
  rewrite cache_path. change (String.append "/update_cache/" ?x) with ("/update_cache/pending_update.json"%string).
  destruct (uo_read _ w) as [text|] eqn:Er;
    [|split; [done|intros (dir' & text & [= <-] & Hr & _); congruence]].
  split.
  - intros Hm. exists dir, text. destruct (from_utf8 text) as [t|] eqn:Eu; [|done]. by split_and!.
  - intros (dir' & text' & [= <-] & Hr & [t Hu] & Hm). rewrite Er in Hr. injection Hr as <-. by rewrite Hu.
Qed.

Lemma read_cache_bytes_some w b :
  read_cache_bytes w = Some b <->
  exists dir, uo_home_dir w = Some dir /\
    uo_read (String.append dir "/update_cache/pending_update.bin") w = Some b.
Proof.
  unfold read_cache_bytes, cache_dir. destruct (uo_home_dir w) as [dir|]; [|split; [done|by intros (? & ? & _)]].
  rewrite cache_path. change (String.append "/update_cache/" ?x) with ("/update_cache/pending_update.bin"%string).
  split; [intros Hb; by exists dir|by intros (dir' & [= <-] & Hb)].
Qed.

(** Handed to the installer, whose success is the answer; or left alone. *)
Definition install_outcome (w w' : W) (r : bool) : Prop :=
  (exists u b offered, ready_to_install w u b offered /\ installed w' = installed w ++ [(u, b)] /\
     (r = true <-> (uo_install u b offered).1 = InstallDone)) \/
  ((forall u b offered, ~ ready_to_install w u b offered) /\ installed w' = installed w /\ r = false).

(** The last three checks, for the answer [u] of the server. *)
Lemma install_checked_outcome version b u w :
  let passes := owned u /\ up_version u = version /\
    (exists key, uo_public_key = Some key /\ verify_cached_update_signature b (up_signature u) key = true) in
  let (r, w') := install_checked version b u w in
  (passes /\ installed w' = installed w ++ [(u, b)] /\ (r = true <-> (uo_install u b w).1 = InstallDone)) \/
  (~ passes /\ installed w' = installed w /\ r = false).
Proof.
  intros passes. unfold install_checked. pose proof (validate_exactly_owned u) as Hown.
  destruct (validate_owned_update u) as [[]|e] eqn:Eo; cbn [is_ok negb];
    [|right; rewrite installed_delete_cache; split; [by intros [Ho%Hown _]|done]].
  pose proof (proj1 Hown eq_refl) as Ho.
  case_bool_decide as Hver; cbn [negb];
    [|right; rewrite installed_delete_cache; split; [by intros (_ & ? & _)|done]].
  unfold verify_cached_update_for_install, passes.
  destruct uo_public_key as [key|]; cbn [negb];
    [|right; rewrite installed_delete_cache; split; [by intros (_ & _ & ? & ? & _)|done]].
  destruct (verify_cached_update_signature b (up_signature u) key) eqn:Es; cbn [negb].
  - pose proof (law_installed_install u b w) as Hi.
    destruct (uo_install u b w) as [[] w1]; cbn in Hi |- *; left; rewrite ?installed_delete_cache;
      (split; [split_and!; [done..|by exists key]|by split]).
  - right. rewrite installed_delete_cache. split; [|done]. intros (_ & _ & key' & [= <-] & ?). congruence.
Qed.

(** C18: at startup an update is installed only when the cached version is newer
    than the running one, the user agreed, the server still offers exactly that
    version with metadata of the project's own release, and the cached bytes
    carry a signature of the configured key; in every other case nothing is
    installed. *)
Theorem startup_installs_only_owned_newer_updates w r w' :
  try_install_on_startup w = (r, w') -> install_outcome w w' r.
Proof.
  assert (Hstale : forall w1, installed w1 = installed w ->
    (forall u b offered, ~ ready_to_install w u b offered) -> install_outcome w w1 false)
    by (intros; by right).
  unfold try_install_on_startup. destruct (read_cache_meta w) as [meta|] eqn:Em.
  2: { intros [= <- <-]. apply Hstale; [done|]. intros u b o [(dir & text & meta & Hd & Hr & Hu & Hm & _) _ _ _ _].
       assert (read_cache_meta w = Some meta) by (apply read_cache_meta_some; eauto 10). congruence. }
  assert (Hmeta : forall u b o, ready_to_install w u b o -> up_version u = cache_version meta).
  { intros u b o [(dir & text & meta' & Hd & Hr & Hu & Hm & Hv) _ _ _ _].
    assert (read_cache_meta w = Some meta') by (apply read_cache_meta_some; eauto 10). congruence. }
  destruct (version_lte (cache_version meta) uo_current_version) eqn:Ev.
  { intros [= <- <-]. apply Hstale; [by rewrite installed_delete_cache|]. intros u b o Hr.
    pose proof (Hmeta _ _ _ Hr) as Hv. destruct Hr as [_ Hn _ _ _]. congruence. }
  pose proof (law_installed_ask (cache_version meta) w) as Ha.
  destruct (uo_ask_user (cache_version meta) w) as [confirmed w1] eqn:Eask. cbn [snd] in Ha.
  assert (Hasked : forall u b o, ready_to_install w u b o -> confirmed = true /\ read_cache_bytes w1 = Some b /\
    uo_check w1 = (Some (CheckUpdate u), o)).
  { intros u b o Hr. pose proof (Hmeta _ _ _ Hr) as Hv. destruct Hr as [_ _ (asked & dir & Hak & Hd & Hb & Hc) _ _].
    rewrite Hv, Eask in Hak. injection Hak as -> ->. split_and!; [done| |done].
    apply read_cache_bytes_some. eauto. }
  destruct confirmed; cbn [negb].
  2: { intros [= <- <-]. apply Hstale; [done|]. intros u b o Hr. by destruct (Hasked u b o Hr). }
  destruct (read_cache_bytes w1) as [b|] eqn:Eb.
  2: { intros [= <- <-]. apply Hstale; [by rewrite installed_delete_cache|].
       intros u b o Hr. by destruct (Hasked u b o Hr) as (_ & ? & _). }
  pose proof (law_installed_check w1) as Hc.
  destruct (uo_check w1) as [[[u| |]|] w2] eqn:Ec; cbn [snd] in Hc.
  2-4: intros [= <- <-]; apply Hstale; [rewrite ?installed_delete_cache; congruence|];
       intros u b' o Hr; by destruct (Hasked u b' o Hr) as (_ & _ & ?).
  intros Hi. pose proof (install_checked_outcome (cache_version meta) b u w2) as Ho. cbv zeta in Ho.
  rewrite Hi in Ho. destruct Ho as [((Hown & Hver & Hsig) & Hin & Hr)|(Hno & Hin & ->)].
  - left. exists u, b, w2. split_and!; [|congruence|exact Hr].
    apply read_cache_meta_some in Em as (dir & text & Hd & Ht & Hu & Hm).
    apply read_cache_bytes_some in Eb as (dir' & Hd' & Hb).
    constructor; [|by rewrite Hver| |done|done].
    + exists dir, text, meta. by split_and!.
    + exists w1, dir'. rewrite Hver. by split_and!.
  - apply Hstale; [congruence|]. intros u' b' o Hr. pose proof (Hmeta _ _ _ Hr) as Hv.
    destruct (Hasked u' b' o Hr) as (_ & [= ->] & [= -> ->]). apply Hno. by destruct Hr.
Qed.

(** ** the pending update *)

(** What is pending is an owned update with its version and the bytes of its download. *)
Definition pending_ok (su : SilentUpdater W) : Prop :=
  su_update_ready su = true -> exists u b, su_pending_update su = Some u /\ su_pending_bytes su = Some b /\
    su_pending_version su = Some (up_version u) /\ owned u /\ announces_break u = false.

Theorem pending_update_is_owned n w :
  pending_ok (start_background_check n (updater_new w)).
Proof.
  induction n as [|n IH]; cbn [start_background_check]; [done|].
  set (su := start_background_check n _) in *. clearbody su.
  unfold check_and_download. destruct uo_is_portable; [done|]. destruct (negb _); [done|].
  destruct (su_update_ready su) eqn:Er; [done|]. unfold pending_ok in *.
  destruct (uo_check (su_world su)) as [[[u| |]|] w1]; cbn; rewrite ?Er; try done.
  destruct (is_ok (validate_owned_update u)) eqn:Eo; cbn; rewrite ?Er; [|done].
  destruct (announces_break u) eqn:Eb; cbn; rewrite ?Er; [done|].
  destruct (uo_download u w1) as [[b|] w2]; cbn; rewrite ?Er; [|done].
  destruct (write_cache b (up_version u) w2) as [ok w3]. cbn. intros _. exists u, b. split_and!; try done.
  apply validate_exactly_owned. by destruct (validate_owned_update u) as [[]|].
Qed.
End installing.
