(* ===== verification/CoreManager.v ===== *)
(** * CoreManager: starting, stopping and reconfiguring the proxy core

    [src-tauri/src/core/manager/] ([mod], [state], [lifecycle], [config]), the validator's
    stateful part of [core/validate.rs], the generation of the runtime configuration in
    [config/config.rs] and the switch of the current profile in [cmd/profile.rs].

    The drafts are the abstract versioned objects that the draft cells refine.  A method is
    a computation over the managers' state: [await] marks the places where the code waits
    for something outside, [defer] the clean-up that runs however the block ends.  A future
    under [tokio::time::timeout] is dropped at one of its waits when the time is over:
    [cm_deadline] says at which, and whether what was waited for had taken effect.  Other
    tasks change the committed profile list only while this one waits ([cm_others]).  The
    set of children that could not be killed is a ghost ([cm_unkilled]).  The
    lifecycle lock and the update flag make the operations here exclude one another.

    The service, the core's processes, files and the clock are the class [CoreOs]; the
    Windows branches are taken when [windows] is true.  The tasks that copy the core's
    output to the log are left out. *)

From Stdlib Require Import Ascii String.
From S2P Require Import Prelude Text Yaml ProfileItem Profiles Enhance EnhancePipeline RuntimeConfig Draft Validation Verge.

Inductive RunningMode : Type := ModeService | ModeSidecar | ModeNotRunning.

#[global] Instance running_mode_eq_dec : EqDecision RunningMode.
Proof. solve_decision. Defined.

(** ** the system *)

Class CoreOs (W : Type) := {
  co_validation :: ValidationOs W;
  co_now : W -> Z;                                    (* milliseconds of a monotonic clock *)
  co_home_dir : W -> result string string;
  co_controller_ipc : string;
  co_enhance : W -> result (Mapping * gset string * gmap string ResultLog) string * W;
  co_save_yaml : string -> Mapping -> W -> result unit string * W;
  co_save_verge : IVerge -> W -> result unit string * W;
  co_save_profiles : IProfiles -> W -> result unit string * W;
  (* the core as a child: its name, directory, configuration file and control channel *)
  co_spawn : string -> string -> string -> string -> W -> result Z string * W;
  co_kill : Z -> W -> result unit string * W;
  co_create_job : Z -> W -> result Z string * W;
  co_close_job : Z -> W -> W;
  co_reload_config : string -> W -> result unit string * W;
  co_clear_logs : W -> W;
  co_sleep : Z -> W -> W;
  (* the system service *)
  co_service_ready : W -> bool * W;
  co_service_run : string -> W -> result unit string * W;
  co_service_stop : W -> result unit string * W;
  co_service_init : W -> result unit string * W;
  co_service_refresh : W -> result unit string * W;
  co_service_ipc_exists : W -> bool;
  co_is_admin : W -> bool;
  co_activate_nodes : W -> W;                         (* spawns [activate_selected_nodes] *)
  co_main_window : W -> bool;
  co_notify_profile_changed : string -> W -> W;
}.

(** ** the state *)

Record CoreState (W : Type) := {
  cm_world : W;
  cm_running_mode : RunningMode;
  cm_child_sidecar : option Z;
  cm_job_handle : option Z;
  cm_last_update : option Z;
  cm_config_update_in_progress : bool;
  cm_handoff_watcher_running : bool;
  cm_is_processing : bool;
  cm_switching_profile : bool;
  cm_umask : Z;
  cm_core_mode : RunningMode;
  cm_unkilled : gset Z;
  cm_notices : list (string * string);
  cm_runtime : Versioned IRuntime;
  cm_profiles : Versioned IProfiles;
  cm_verge : Versioned IVerge;
  cm_clash : Versioned Mapping;
  cm_deadline : option (nat * bool);
  cm_others : list (option (IProfiles -> IProfiles));
}.
Arguments cm_world {W} _.
Arguments cm_running_mode {W} _.
Arguments cm_child_sidecar {W} _.
Arguments cm_job_handle {W} _.
Arguments cm_last_update {W} _.
Arguments cm_config_update_in_progress {W} _.
Arguments cm_handoff_watcher_running {W} _.
Arguments cm_is_processing {W} _.
Arguments cm_switching_profile {W} _.
Arguments cm_umask {W} _.
Arguments cm_core_mode {W} _.
Arguments cm_unkilled {W} _.
Arguments cm_notices {W} _.
Arguments cm_runtime {W} _.
Arguments cm_profiles {W} _.
Arguments cm_verge {W} _.
Arguments cm_clash {W} _.
Arguments cm_deadline {W} _.
Arguments cm_others {W} _.


Definition cm_set_world {W} (x : W) (s : CoreState W) : CoreState W :=
  {| cm_world := x; cm_running_mode := cm_running_mode s; cm_child_sidecar := cm_child_sidecar s;
     cm_job_handle := cm_job_handle s; cm_last_update := cm_last_update s;
     cm_config_update_in_progress := cm_config_update_in_progress s;
     cm_handoff_watcher_running := cm_handoff_watcher_running s; cm_is_processing := cm_is_processing s;
     cm_switching_profile := cm_switching_profile s; cm_umask := cm_umask s; cm_core_mode := cm_core_mode s;
     cm_unkilled := cm_unkilled s; cm_notices := cm_notices s; cm_runtime := cm_runtime s; cm_profiles := cm_profiles s; cm_verge := cm_verge s;
     cm_clash := cm_clash s; cm_deadline := cm_deadline s; cm_others := cm_others s |}.
Definition cm_set_running_mode {W} (x : RunningMode) (s : CoreState W) : CoreState W :=
  {| cm_world := cm_world s; cm_running_mode := x; cm_child_sidecar := cm_child_sidecar s;
     cm_job_handle := cm_job_handle s; cm_last_update := cm_last_update s;
     cm_config_update_in_progress := cm_config_update_in_progress s;
     cm_handoff_watcher_running := cm_handoff_watcher_running s; cm_is_processing := cm_is_processing s;
     cm_switching_profile := cm_switching_profile s; cm_umask := cm_umask s; cm_core_mode := cm_core_mode s;
     cm_unkilled := cm_unkilled s; cm_notices := cm_notices s; cm_runtime := cm_runtime s; cm_profiles := cm_profiles s; cm_verge := cm_verge s;
     cm_clash := cm_clash s; cm_deadline := cm_deadline s; cm_others := cm_others s |}.
Definition cm_set_child_sidecar {W} (x : option Z) (s : CoreState W) : CoreState W :=
  {| cm_world := cm_world s; cm_running_mode := cm_running_mode s; cm_child_sidecar := x;
     cm_job_handle := cm_job_handle s; cm_last_update := cm_last_update s;
     cm_config_update_in_progress := cm_config_update_in_progress s;
     cm_handoff_watcher_running := cm_handoff_watcher_running s; cm_is_processing := cm_is_processing s;
     cm_switching_profile := cm_switching_profile s; cm_umask := cm_umask s; cm_core_mode := cm_core_mode s;
     cm_unkilled := cm_unkilled s; cm_notices := cm_notices s; cm_runtime := cm_runtime s; cm_profiles := cm_profiles s; cm_verge := cm_verge s;
     cm_clash := cm_clash s; cm_deadline := cm_deadline s; cm_others := cm_others s |}.
Definition cm_set_job_handle {W} (x : option Z) (s : CoreState W) : CoreState W :=
  {| cm_world := cm_world s; cm_running_mode := cm_running_mode s; cm_child_sidecar := cm_child_sidecar s;
     cm_job_handle := x; cm_last_update := cm_last_update s;
     cm_config_update_in_progress := cm_config_update_in_progress s;
     cm_handoff_watcher_running := cm_handoff_watcher_running s; cm_is_processing := cm_is_processing s;
     cm_switching_profile := cm_switching_profile s; cm_umask := cm_umask s; cm_core_mode := cm_core_mode s;
     cm_unkilled := cm_unkilled s; cm_notices := cm_notices s; cm_runtime := cm_runtime s; cm_profiles := cm_profiles s; cm_verge := cm_verge s;
     cm_clash := cm_clash s; cm_deadline := cm_deadline s; cm_others := cm_others s |}.
Definition cm_set_last_update {W} (x : option Z) (s : CoreState W) : CoreState W :=
  {| cm_world := cm_world s; cm_running_mode := cm_running_mode s; cm_child_sidecar := cm_child_sidecar s;
     cm_job_handle := cm_job_handle s; cm_last_update := x;
     cm_config_update_in_progress := cm_config_update_in_progress s;
     cm_handoff_watcher_running := cm_handoff_watcher_running s; cm_is_processing := cm_is_processing s;
     cm_switching_profile := cm_switching_profile s; cm_umask := cm_umask s; cm_core_mode := cm_core_mode s;
     cm_unkilled := cm_unkilled s; cm_notices := cm_notices s; cm_runtime := cm_runtime s; cm_profiles := cm_profiles s; cm_verge := cm_verge s;
     cm_clash := cm_clash s; cm_deadline := cm_deadline s; cm_others := cm_others s |}.
Definition cm_set_config_update_in_progress {W} (x : bool) (s : CoreState W) : CoreState W :=
  {| cm_world := cm_world s; cm_running_mode := cm_running_mode s; cm_child_sidecar := cm_child_sidecar s;
     cm_job_handle := cm_job_handle s; cm_last_update := cm_last_update s; cm_config_update_in_progress := x;
     cm_handoff_watcher_running := cm_handoff_watcher_running s; cm_is_processing := cm_is_processing s;
     cm_switching_profile := cm_switching_profile s; cm_umask := cm_umask s; cm_core_mode := cm_core_mode s;
     cm_unkilled := cm_unkilled s; cm_notices := cm_notices s; cm_runtime := cm_runtime s; cm_profiles := cm_profiles s; cm_verge := cm_verge s;
     cm_clash := cm_clash s; cm_deadline := cm_deadline s; cm_others := cm_others s |}.
Definition cm_set_handoff_watcher_running {W} (x : bool) (s : CoreState W) : CoreState W :=
  {| cm_world := cm_world s; cm_running_mode := cm_running_mode s; cm_child_sidecar := cm_child_sidecar s;
     cm_job_handle := cm_job_handle s; cm_last_update := cm_last_update s;
     cm_config_update_in_progress := cm_config_update_in_progress s; cm_handoff_watcher_running := x;
     cm_is_processing := cm_is_processing s; cm_switching_profile := cm_switching_profile s; cm_umask := cm_umask s;
     cm_core_mode := cm_core_mode s; cm_unkilled := cm_unkilled s; cm_notices := cm_notices s; cm_runtime := cm_runtime s;
     cm_profiles := cm_profiles s; cm_verge := cm_verge s; cm_clash := cm_clash s; cm_deadline := cm_deadline s;
     cm_others := cm_others s |}.
Definition cm_set_is_processing {W} (x : bool) (s : CoreState W) : CoreState W :=
  {| cm_world := cm_world s; cm_running_mode := cm_running_mode s; cm_child_sidecar := cm_child_sidecar s;
     cm_job_handle := cm_job_handle s; cm_last_update := cm_last_update s;
     cm_config_update_in_progress := cm_config_update_in_progress s;
     cm_handoff_watcher_running := cm_handoff_watcher_running s; cm_is_processing := x;
     cm_switching_profile := cm_switching_profile s; cm_umask := cm_umask s; cm_core_mode := cm_core_mode s;
     cm_unkilled := cm_unkilled s; cm_notices := cm_notices s; cm_runtime := cm_runtime s; cm_profiles := cm_profiles s; cm_verge := cm_verge s;
     cm_clash := cm_clash s; cm_deadline := cm_deadline s; cm_others := cm_others s |}.
Definition cm_set_switching_profile {W} (x : bool) (s : CoreState W) : CoreState W :=
  {| cm_world := cm_world s; cm_running_mode := cm_running_mode s; cm_child_sidecar := cm_child_sidecar s;
     cm_job_handle := cm_job_handle s; cm_last_update := cm_last_update s;
     cm_config_update_in_progress := cm_config_update_in_progress s;
     cm_handoff_watcher_running := cm_handoff_watcher_running s; cm_is_processing := cm_is_processing s;
     cm_switching_profile := x; cm_umask := cm_umask s; cm_core_mode := cm_core_mode s; cm_unkilled := cm_unkilled s; cm_notices := cm_notices s;
     cm_runtime := cm_runtime s; cm_profiles := cm_profiles s; cm_verge := cm_verge s; cm_clash := cm_clash s;
     cm_deadline := cm_deadline s; cm_others := cm_others s |}.
Definition cm_set_umask {W} (x : Z) (s : CoreState W) : CoreState W :=
  {| cm_world := cm_world s; cm_running_mode := cm_running_mode s; cm_child_sidecar := cm_child_sidecar s;
     cm_job_handle := cm_job_handle s; cm_last_update := cm_last_update s;
     cm_config_update_in_progress := cm_config_update_in_progress s;
     cm_handoff_watcher_running := cm_handoff_watcher_running s; cm_is_processing := cm_is_processing s;
     cm_switching_profile := cm_switching_profile s; cm_umask := x; cm_core_mode := cm_core_mode s;
     cm_unkilled := cm_unkilled s; cm_notices := cm_notices s; cm_runtime := cm_runtime s; cm_profiles := cm_profiles s; cm_verge := cm_verge s;
     cm_clash := cm_clash s; cm_deadline := cm_deadline s; cm_others := cm_others s |}.
Definition cm_set_core_mode {W} (x : RunningMode) (s : CoreState W) : CoreState W :=
  {| cm_world := cm_world s; cm_running_mode := cm_running_mode s; cm_child_sidecar := cm_child_sidecar s;
     cm_job_handle := cm_job_handle s; cm_last_update := cm_last_update s;
     cm_config_update_in_progress := cm_config_update_in_progress s;
     cm_handoff_watcher_running := cm_handoff_watcher_running s; cm_is_processing := cm_is_processing s;
     cm_switching_profile := cm_switching_profile s; cm_umask := cm_umask s; cm_core_mode := x;
     cm_unkilled := cm_unkilled s; cm_notices := cm_notices s; cm_runtime := cm_runtime s; cm_profiles := cm_profiles s; cm_verge := cm_verge s;
     cm_clash := cm_clash s; cm_deadline := cm_deadline s; cm_others := cm_others s |}.
Definition cm_set_unkilled {W} (x : gset Z) (s : CoreState W) : CoreState W :=
  {| cm_world := cm_world s; cm_running_mode := cm_running_mode s; cm_child_sidecar := cm_child_sidecar s;
     cm_job_handle := cm_job_handle s; cm_last_update := cm_last_update s;
     cm_config_update_in_progress := cm_config_update_in_progress s;
     cm_handoff_watcher_running := cm_handoff_watcher_running s; cm_is_processing := cm_is_processing s;
     cm_switching_profile := cm_switching_profile s; cm_umask := cm_umask s; cm_core_mode := cm_core_mode s;
     cm_unkilled := x; cm_notices := cm_notices s; cm_runtime := cm_runtime s; cm_profiles := cm_profiles s; cm_verge := cm_verge s;
     cm_clash := cm_clash s; cm_deadline := cm_deadline s; cm_others := cm_others s |}.
Definition cm_set_notices {W} (x : list (string * string)) (s : CoreState W) : CoreState W :=
  {| cm_world := cm_world s; cm_running_mode := cm_running_mode s; cm_child_sidecar := cm_child_sidecar s;
     cm_job_handle := cm_job_handle s; cm_last_update := cm_last_update s;
     cm_config_update_in_progress := cm_config_update_in_progress s;
     cm_handoff_watcher_running := cm_handoff_watcher_running s; cm_is_processing := cm_is_processing s;
     cm_switching_profile := cm_switching_profile s; cm_umask := cm_umask s; cm_core_mode := cm_core_mode s;
     cm_unkilled := cm_unkilled s; cm_notices := x; cm_runtime := cm_runtime s; cm_profiles := cm_profiles s; cm_verge := cm_verge s;
     cm_clash := cm_clash s; cm_deadline := cm_deadline s; cm_others := cm_others s |}.
Definition cm_set_runtime {W} (x : Versioned IRuntime) (s : CoreState W) : CoreState W :=
  {| cm_world := cm_world s; cm_running_mode := cm_running_mode s; cm_child_sidecar := cm_child_sidecar s;
     cm_job_handle := cm_job_handle s; cm_last_update := cm_last_update s;
     cm_config_update_in_progress := cm_config_update_in_progress s;
     cm_handoff_watcher_running := cm_handoff_watcher_running s; cm_is_processing := cm_is_processing s;
     cm_switching_profile := cm_switching_profile s; cm_umask := cm_umask s; cm_core_mode := cm_core_mode s;
     cm_unkilled := cm_unkilled s; cm_notices := cm_notices s; cm_runtime := x; cm_profiles := cm_profiles s; cm_verge := cm_verge s;
     cm_clash := cm_clash s; cm_deadline := cm_deadline s; cm_others := cm_others s |}.
Definition cm_set_profiles {W} (x : Versioned IProfiles) (s : CoreState W) : CoreState W :=
  {| cm_world := cm_world s; cm_running_mode := cm_running_mode s; cm_child_sidecar := cm_child_sidecar s;
     cm_job_handle := cm_job_handle s; cm_last_update := cm_last_update s;
     cm_config_update_in_progress := cm_config_update_in_progress s;
     cm_handoff_watcher_running := cm_handoff_watcher_running s; cm_is_processing := cm_is_processing s;
     cm_switching_profile := cm_switching_profile s; cm_umask := cm_umask s; cm_core_mode := cm_core_mode s;
     cm_unkilled := cm_unkilled s; cm_notices := cm_notices s; cm_runtime := cm_runtime s; cm_profiles := x; cm_verge := cm_verge s;
     cm_clash := cm_clash s; cm_deadline := cm_deadline s; cm_others := cm_others s |}.
Definition cm_set_verge {W} (x : Versioned IVerge) (s : CoreState W) : CoreState W :=
  {| cm_world := cm_world s; cm_running_mode := cm_running_mode s; cm_child_sidecar := cm_child_sidecar s;
     cm_job_handle := cm_job_handle s; cm_last_update := cm_last_update s;
     cm_config_update_in_progress := cm_config_update_in_progress s;
     cm_handoff_watcher_running := cm_handoff_watcher_running s; cm_is_processing := cm_is_processing s;
     cm_switching_profile := cm_switching_profile s; cm_umask := cm_umask s; cm_core_mode := cm_core_mode s;
     cm_unkilled := cm_unkilled s; cm_notices := cm_notices s; cm_runtime := cm_runtime s; cm_profiles := cm_profiles s; cm_verge := x;
     cm_clash := cm_clash s; cm_deadline := cm_deadline s; cm_others := cm_others s |}.
Definition cm_set_clash {W} (x : Versioned Mapping) (s : CoreState W) : CoreState W :=
  {| cm_world := cm_world s; cm_running_mode := cm_running_mode s; cm_child_sidecar := cm_child_sidecar s;
     cm_job_handle := cm_job_handle s; cm_last_update := cm_last_update s;
     cm_config_update_in_progress := cm_config_update_in_progress s;
     cm_handoff_watcher_running := cm_handoff_watcher_running s; cm_is_processing := cm_is_processing s;
     cm_switching_profile := cm_switching_profile s; cm_umask := cm_umask s; cm_core_mode := cm_core_mode s;
     cm_unkilled := cm_unkilled s; cm_notices := cm_notices s; cm_runtime := cm_runtime s; cm_profiles := cm_profiles s; cm_verge := cm_verge s;
     cm_clash := x; cm_deadline := cm_deadline s; cm_others := cm_others s |}.
Definition cm_set_deadline {W} (x : option (nat * bool)) (s : CoreState W) : CoreState W :=
  {| cm_world := cm_world s; cm_running_mode := cm_running_mode s; cm_child_sidecar := cm_child_sidecar s;
     cm_job_handle := cm_job_handle s; cm_last_update := cm_last_update s;
     cm_config_update_in_progress := cm_config_update_in_progress s;
     cm_handoff_watcher_running := cm_handoff_watcher_running s; cm_is_processing := cm_is_processing s;
     cm_switching_profile := cm_switching_profile s; cm_umask := cm_umask s; cm_core_mode := cm_core_mode s;
     cm_unkilled := cm_unkilled s; cm_notices := cm_notices s; cm_runtime := cm_runtime s; cm_profiles := cm_profiles s; cm_verge := cm_verge s;
     cm_clash := cm_clash s; cm_deadline := x; cm_others := cm_others s |}.
Definition cm_set_others {W} (x : list (option (IProfiles -> IProfiles))) (s : CoreState W) : CoreState W :=
  {| cm_world := cm_world s; cm_running_mode := cm_running_mode s; cm_child_sidecar := cm_child_sidecar s;
     cm_job_handle := cm_job_handle s; cm_last_update := cm_last_update s;
     cm_config_update_in_progress := cm_config_update_in_progress s;
     cm_handoff_watcher_running := cm_handoff_watcher_running s; cm_is_processing := cm_is_processing s;
     cm_switching_profile := cm_switching_profile s; cm_umask := cm_umask s; cm_core_mode := cm_core_mode s;
     cm_unkilled := cm_unkilled s; cm_notices := cm_notices s; cm_runtime := cm_runtime s; cm_profiles := cm_profiles s; cm_verge := cm_verge s;
     cm_clash := cm_clash s; cm_deadline := cm_deadline s; cm_others := x |}.

(** ** methods *)

(** An error of the code, or the end of a future that is dropped while it waits. *)
Inductive CoreError : Type := Failed (message : string) | Dropped.

Notation CM W := (M (CoreState W) CoreError).

(** [defer!] at the beginning of a block. *)
Definition defer {W A} (fin : CoreState W -> CoreState W) (m : CM W A) : CM W A :=
  fun s => let (r, s) := m s in (r, fin s).

(** A [Result] that is inspected; a dropped future does not go on. *)
Definition caught {W A} (m : CM W A) : CM W (result A string) :=
  fun s => match m s with
           | (Ok a, s) => (Ok (Ok a), s)
           | (Err (Failed e), s) => (Ok (Err e), s)
           | (Err Dropped, s) => (Err Dropped, s)
           end.

Definition failed {A} (r : result A string) : result A CoreError := map_err Failed r.

(** A modification of the committed profiles by another task. *)
Definition ve_commit {T} (v : T) (a : Versioned T) : Versioned T :=
  {| ve_committed := v; ve_version := S (ve_version a); ve_draft := ve_draft a; ve_readers := ve_readers a;
     ve_task := ve_task a |}.

Definition land {W} (s : CoreState W) : CoreState W :=
  match cm_others s with
  | [] => s
  | None :: rest => cm_set_others rest s
  | Some f :: rest =>
      cm_set_others rest (cm_set_profiles (ve_commit (f (ve_committed (cm_profiles s))) (cm_profiles s)) s)
  end.

(** A wait for [op]. *)
Definition await {W A} (op : W -> A * W) : CM W A := fun s =>
  let s := land s in
  match cm_deadline s with
  | Some (O, reached) => (Err Dropped, if reached : bool then cm_set_world (op (cm_world s)).2 s else s)
  | Some (S n, reached) =>
      let (a, w) := op (cm_world s) in (Ok a, cm_set_world w (cm_set_deadline (Some (n, reached)) s))
  | None => let (a, w) := op (cm_world s) in (Ok a, cm_set_world w s)
  end.

(** A wait for a call that can fail, with [?]. *)
Definition await_ok {W A} (op : W -> result A string * W) : CM W A := let! r := await op in lift (failed r).

(** A call that does not wait. *)
Definition call {W A} (op : W -> A * W) : CM W A :=
  fun s => let (a, w) := op (cm_world s) in (Ok a, cm_set_world w s).
Definition call_ok {W A} (op : W -> result A string * W) : CM W A := let! r := call op in lift (failed r).
Definition wait_unit {W} (f : W -> W) : CM W unit := await (fun w => (tt, f w)).
Definition look {W A} (f : W -> A) : CM W A := fun s => (Ok (f (cm_world s)), s).

(** [Draft::edit_draft], [apply], [discard] on one of the drafts. *)
Definition ve_edit {T} (f : T -> T) (a : Versioned T) : Versioned T := (versioned_step (DrEdit f 0) a).2.
Definition ve_apply {T} (a : Versioned T) : Versioned T := (versioned_step DrApply a).2.
Definition ve_discard {T} (a : Versioned T) : Versioned T := (versioned_step DrDiscard a).2.

Definition on_runtime {W} (f : Versioned IRuntime -> Versioned IRuntime) : CM W unit :=
  modify (fun s => cm_set_runtime (f (cm_runtime s)) s).
Definition on_profiles {W} (f : Versioned IProfiles -> Versioned IProfiles) : CM W unit :=
  modify (fun s => cm_set_profiles (f (cm_profiles s)) s).
Definition on_verge {W} (f : Versioned IVerge -> Versioned IVerge) : CM W unit :=
  modify (fun s => cm_set_verge (f (cm_verge s)) s).
Definition on_clash {W} (f : Versioned Mapping -> Versioned Mapping) : CM W unit :=
  modify (fun s => cm_set_clash (f (cm_clash s)) s).
Definition notice_message {W} (key message : string) : CM W unit :=
  modify (fun s => cm_set_notices (cm_notices s ++ [(key, message)]) s).

Section manager.
Context {W : Type} `{CoreOs W} `{MappingLib} (windows : bool).

Definition set_running_mode (mode : RunningMode) : CM W unit := modify (cm_set_running_mode mode).

(** [try_start_config_update]: the flag is swapped. *)
Definition try_start_config_update : CM W bool :=
  let! s := get in modify (cm_set_config_update_in_progress true) ;! ret (negb (cm_config_update_in_progress s)).
Definition finish_config_update (s : CoreState W) : CoreState W := cm_set_config_update_in_progress false s.

Definition take_child_sidecar : CM W (option Z) :=
  let! s := get in modify (cm_set_child_sidecar None) ;! ret (cm_child_sidecar s).

(** [set_job_handle]: the handle that is replaced is closed. *)
Definition set_job_handle (handle : option Z) : CM W unit :=
  let! s := get in
  match cm_job_handle s with
  | Some old => call (fun w => (tt, co_close_job old w))
  | None => ret tt
  end ;!
  modify (cm_set_job_handle handle).

(** ** generating the configuration *)

Inductive ConfigType : Type := ConfigRun | ConfigCheck.

Definition config_name (typ : ConfigType) : string :=
  match typ with ConfigRun => "clash-verge.yaml" | ConfigCheck => "clash-verge-check.yaml" end.

Definition home_dir : CM W string := let! r := look co_home_dir in lift (failed r).

Definition generate_file (typ : ConfigType) : CM W string :=
  let! dir := home_dir in
  let path := file_path dir (config_name typ) in
  let! s := get in
  let latest := rt_config (ve_latest (cm_runtime s)) in
  match match latest with Some c => Some c | None => rt_config (ve_committed (cm_runtime s)) end with
  | None => raise (Failed "failed to generate runtime config, might need to restart application")
  | Some config => await_ok (co_save_yaml path config) ;! ret path
  end.

Definition generate : CM W unit :=
  let! enhanced := await_ok co_enhance in
  let '(config, exists_keys, logs) := enhanced in
  let config := sanitize_tunnels_proxy config in
  on_runtime (ve_edit (fun _ => {| rt_config := Some config; rt_exists_keys := exists_keys; rt_chain_logs := logs |})).

(** ** the validator *)

Definition validate_config_internal_outcome (config_path : string) : CM W ValidationOutcome :=
  let! exiting := look os_is_exiting in
  if exiting : bool then ret (Skipped SkipExiting)
  else
    let! s := get in
    let clash_core := get_valid_clash_core (ve_latest (cm_verge s)) in
    let! app_dir := home_dir in
    let! output := await_ok (os_core_output clash_core ["-t"; "-d"; app_dir; "-f"; config_path]%string) in
    ret (output_outcome output).

Definition validate_config_file_outcome (config_path : string) (is_merge_file : option bool) : CM W ValidationOutcome :=
  let! exiting := look os_is_exiting in
  if exiting : bool then ret (Skipped SkipExiting)
  else
    let! found := look (os_path_exists config_path) in
    if negb found then ret (invalid_from_message (String.append "File not found: " config_path))
    else if bool_decide (is_merge_file = Some true) then look (validate_file_syntax_outcome config_path)
    else
      let! script := look (is_script_file config_path) in
      match script with
      | Err _ => validate_config_internal_outcome config_path
      | Ok true => look (validate_script_file_outcome config_path)
      | Ok false => validate_config_internal_outcome config_path
      end.

Definition validate_config_outcome : CM W ValidationOutcome :=
  let! s := get in
  modify (cm_set_is_processing true) ;!
  if cm_is_processing s then ret Busy
  else
    defer (cm_set_is_processing false)
      (let! config_path := generate_file ConfigCheck in
       validate_config_internal_outcome config_path).

(** ** processes *)

Definition umask (mask : Z) : CM W Z := let! s := get in modify (cm_set_umask mask) ;! ret (cm_umask s).

(** [kill] of a child.  The ghost set [cm_unkilled] has the children for which it
    answered an error. *)
Definition kill_child (pid : Z) : CM W (result unit string) :=
  let! killed := call (co_kill pid) in
  match killed with
  | Ok _ => ret killed
  | Err _ => modify (fun s => cm_set_unkilled ({[pid]} ∪ cm_unkilled s) s) ;! ret killed
  end.

(** The job that ties the child to the application. *)
Definition assign_job (pid : Z) : CM W unit :=
  let! job := call (co_create_job pid) in
  match job with
  | Ok job => set_job_handle (Some job)
  | Err job_error =>
      let! killed := kill_child pid in
      raise (Failed match killed with
                    | Ok _ => job_error
                    | Err kill_error =>
                        String.append "failed to configure Job Object for sidecar PID " (String.append (print_uint pid)
                          (String.append ": " (String.append job_error
                            (String.append "; failed to terminate child: " kill_error))))
                    end)
  end.

Definition start_core_by_sidecar : CM W unit :=
  let! config_file := generate_file ConfigRun in
  let! s := get in
  let clash_core := get_valid_clash_core (ve_latest (cm_verge s)) in
  let! config_dir := home_dir in
  let! previous_mask := (if windows then ret 0 else umask 7) in
  let! child := call_ok (co_spawn clash_core config_dir config_file co_controller_ipc) in
  (if windows then assign_job child else umask previous_mask ;! ret tt) ;!
  modify (cm_set_child_sidecar (Some child)) ;!
  set_running_mode ModeSidecar.

Definition stop_core_by_sidecar : CM W unit :=
  defer (cm_set_running_mode ModeNotRunning)
    (let! child := take_child_sidecar in
     match child with
     | Some child => (if windows then set_job_handle None else ret tt) ;! let! _ := kill_child child in ret tt
     | None => ret tt
     end).

(** The retries of the Windows build; the last error is answered. *)
Fixpoint service_start_retries (attempts : nat) (last_err : option string) (config_file : string) : CM W unit :=
  match attempts with
  | O => raise (Failed match last_err with Some e => e | None => "service start failed"%string end)
  | S attempts =>
      let! r := await (co_service_run config_file) in
      match r with
      | Ok _ => set_running_mode ModeService
      | Err e => wait_unit (co_sleep 300) ;! service_start_retries attempts (Some e) config_file
      end
  end.

Definition start_core_by_service : CM W unit :=
  let! config_file := generate_file ConfigRun in
  if windows then service_start_retries 5 None config_file
  else await_ok (co_service_run config_file) ;! set_running_mode ModeService.

Definition stop_core_by_service : CM W unit :=
  defer (cm_set_running_mode ModeNotRunning) (await_ok co_service_stop).

(** ** the lifecycle *)

Definition should_wait_for_service (tun_enabled service_ready is_admin : bool) : bool :=
  tun_enabled && negb service_ready && negb is_admin.

Definition tun_enabled : CM W bool :=
  let! s := get in ret (bool_decide (iv_enable_tun_mode (ve_latest (cm_verge s)) = Some true)).

(** One attempt of the wait: is the service ready now? *)
Definition service_attempt : CM W bool :=
  let! ready := await co_service_ready in
  if ready : bool then ret true
  else
    let! found := look co_service_ipc_exists in
    if negb found then ret false
    else
      let! connected := await co_service_init in
      if negb (is_ok connected) then ret false
      else (let! _ := await co_service_refresh in await co_service_ready).

Fixpoint service_attempts (retries : nat) : CM W unit :=
  let! ready := service_attempt in
  if ready : bool then ret tt
  else match retries with O => ret tt | S retries => wait_unit (co_sleep 200) ;! service_attempts retries end.

Definition wait_for_service_if_needed : CM W unit :=
  let! tun := tun_enabled in
  let! ready := await co_service_ready in
  let! is_admin := look co_is_admin in
  if should_wait_for_service tun ready is_admin then service_attempts 150 else ret tt.

Definition prepare_startup : CM W unit :=
  (if windows then wait_for_service_if_needed else ret tt) ;!
  let! ready := await co_service_ready in
  set_running_mode (if ready : bool then ModeService else ModeSidecar).

Definition after_core_process (s : CoreState W) : CoreState W := cm_set_core_mode (cm_running_mode s) s.

(** The watcher is a task of its own; here it is only marked as started. *)
Definition spawn_service_handoff_watcher : CM W unit :=
  let! needs_service := tun_enabled in
  if needs_service then modify (cm_set_handoff_watcher_running true) else ret tt.

Definition start_core_inner : CM W unit :=
  let! exiting := look os_is_exiting in
  if exiting : bool then ret tt
  else
    let! s := get in
    if negb (bool_decide (cm_running_mode s = ModeNotRunning)) then ret tt
    else
      prepare_startup ;!
      defer after_core_process
        (let! exiting := look os_is_exiting in
         if exiting : bool then set_running_mode ModeNotRunning
         else
           let! s := get in
           let! result := caught match cm_running_mode s with
                                 | ModeService => start_core_by_service
                                 | ModeNotRunning | ModeSidecar => start_core_by_sidecar
                                 end in
           match result with
           | Err e => set_running_mode ModeNotRunning ;! raise (Failed e)
           | Ok _ =>
               let! s := get in
               if windows && bool_decide (cm_running_mode s = ModeSidecar) then spawn_service_handoff_watcher else ret tt
           end).

Definition stop_core_inner : CM W unit :=
  wait_unit co_clear_logs ;!
  defer after_core_process
    (let! s := get in
     match cm_running_mode s with
     | ModeService => stop_core_by_service
     | ModeSidecar => stop_core_by_sidecar
     | ModeNotRunning => ret tt
     end).

(** [lifecycle_lock.lock().await] *)
Definition lifecycle_lock : CM W unit := wait_unit (fun w => w).

Definition start_core : CM W unit := lifecycle_lock ;! start_core_inner.
Definition stop_core : CM W unit := lifecycle_lock ;! stop_core_inner.
Definition restart_core : CM W unit := lifecycle_lock ;! stop_core_inner ;! start_core_inner.

Inductive HandoffOutcome : Type := HandoffNotReady | HandoffDone | HandoffFailed.

Definition try_handoff_sidecar_to_service : CM W HandoffOutcome :=
  let! found := look co_service_ipc_exists in
  if negb found then ret HandoffNotReady
  else
    let! connected := await co_service_init in
    if negb (is_ok connected) then ret HandoffNotReady
    else
      let! _ := await co_service_refresh in
      let! ready := await co_service_ready in
      if negb ready then ret HandoffNotReady
      else
        let! mine := try_start_config_update in
        if negb mine then ret HandoffNotReady
        else
          defer finish_config_update
            (lifecycle_lock ;!
             let! s := get in
             let! tun := tun_enabled in
             if negb (bool_decide (cm_running_mode s = ModeSidecar)) || negb tun then ret HandoffDone
             else
               stop_core_by_sidecar ;!
               let! started := caught start_core_by_service in
               match started with
               | Ok _ => ret HandoffDone
               | Err _ => let! _ := caught start_core_by_sidecar in ret HandoffFailed
               end).

(** One turn of the watcher: whether it ends. *)
Definition handoff_turn (started : Z) : CM W bool :=
  let! now := look co_now in
  if 120000 <=? saturating_sub now started then modify (cm_set_handoff_watcher_running false) ;! ret true
  else
    wait_unit (co_sleep 2000) ;!
    let! s := get in
    if negb (bool_decide (cm_running_mode s = ModeSidecar)) then modify (cm_set_handoff_watcher_running false) ;! ret true
    else
      let! outcome := try_handoff_sidecar_to_service in
      match outcome with
      | HandoffDone | HandoffFailed => modify (cm_set_handoff_watcher_running false) ;! ret true
      | HandoffNotReady => ret false
      end.

(** ** updates of the configuration *)

Definition use_default_config (error_key error_msg : string) : CM W unit :=
  let! dir := home_dir in
  let! s := get in
  on_runtime (ve_edit (fun _ => {| rt_config := Some (ve_latest (cm_clash s)); rt_exists_keys := ∅; rt_chain_logs := ∅ |})) ;!
  await_ok (co_save_yaml (file_path dir (config_name ConfigRun)) (ve_latest (cm_clash s))) ;!
  notice_message error_key error_msg.

Definition apply_config (path : string) : CM W unit :=
  let! reloaded := await (co_reload_config path) in
  match reloaded with
  | Ok _ => on_runtime ve_apply
  | Err _ =>
      let! restarted := caught restart_core in
      match restarted with
      | Ok _ => on_runtime ve_apply
      | Err err => on_runtime ve_discard ;! raise (Failed (String.append "Failed to apply config: " err))
      end
  end.

Definition apply_generate_config_inner : CM W ValidationOutcome :=
  let! validated := caught validate_config_outcome in
  match validated with
  | Ok Valid => let! run_path := generate_file ConfigRun in apply_config run_path ;! ret Valid
  | Ok outcome => on_runtime ve_discard ;! ret outcome
  | Err e => on_runtime ve_discard ;! raise (Failed e)
  end.

Definition manager_perform_config_update : CM W ValidationOutcome :=
  let! generated := caught generate in
  match generated with
  | Err message => on_runtime ve_discard ;! ret (invalid_from_message message)
  | Ok _ => apply_generate_config_inner
  end.

Definition CONFIG_UPDATE_DEBOUNCE : Z := 300.

Definition should_update_config : CM W bool :=
  let! now := look co_now in
  let! s := get in
  if is_some_and (cm_last_update s) (fun last => saturating_sub now last <? CONFIG_UPDATE_DEBOUNCE) then ret false
  else modify (cm_set_last_update (Some now)) ;! ret true.

Definition update_config_with_force (force : bool) : CM W ValidationOutcome :=
  let! exiting := look os_is_exiting in
  if exiting : bool then ret (Skipped SkipExiting)
  else
    let! mine := try_start_config_update in
    if negb mine then ret Busy
    else
      defer finish_config_update
        (let! due := (if force then ret true else should_update_config) in
         if negb due then ret (Skipped SkipDebounced)
         else
           (if force then let! now := look co_now in modify (cm_set_last_update (Some now)) else ret tt) ;!
           manager_perform_config_update).

Definition update_config_forced : CM W ValidationOutcome := update_config_with_force true.

Definition update_config_checked : CM W unit :=
  let! outcome := update_config_forced in
  if outcome_is_valid outcome then ret tt else raise (Failed (outcome_text outcome)).

Definition update_runtime_config (f : IRuntime -> IRuntime) : CM W ValidationOutcome :=
  let! mine := try_start_config_update in
  if negb mine then ret Busy
  else defer finish_config_update (on_runtime (ve_edit f) ;! apply_generate_config_inner).

Definition change_core (clash_core : string) : CM W unit :=
  if negb (bool_decide (clash_core ∈ VALID_CLASH_CORES))
  then raise (Failed (String.append "Invalid clash core: " clash_core))
  else
    on_verge (ve_edit (set_clash_core (Some clash_core))) ;!
    on_verge ve_apply ;!
    let! s := get in
    await_ok (co_save_verge (ve_latest (cm_verge s))) ;!
    update_config_checked.

(** [Config::generate_and_validate], the first configuration of the application. *)
Definition generate_and_validate : CM W (option (string * string)) :=
  let boot := "config_validate::boot_error"%string in
  let! generated := caught generate in
  match generated with
  | Err error_msg => use_default_config boot error_msg ;! ret (Some (boot, error_msg))
  | Ok _ =>
      let! written := caught (generate_file ConfigRun) in
      match written with
      | Ok _ =>
          let! validated := caught validate_config_outcome in
          match validated with
          | Ok Valid => ret None
          | Ok outcome => use_default_config boot (outcome_text outcome) ;! ret (Some (boot, outcome_text outcome))
          | Err _ =>
              use_default_config "config_validate::process_terminated" EmptyString ;!
              ret (Some ("config_validate::process_terminated"%string, EmptyString))
          end
      | Err _ =>
          use_default_config "config_validate::error" EmptyString ;!
          ret (Some ("config_validate::error"%string, EmptyString))
      end
  end.

(** ** switching the current profile *)

Definition only_current (c : option string) : IProfiles := {| current := c; items := None |}.

(** The restored list is saved by a task that is not waited for. *)
Definition restore_previous_profile (prev_profile : string) : CM W unit :=
  on_profiles (ve_edit (patch_config (only_current (Some prev_profile)))) ;!
  on_profiles ve_apply ;!
  let! s := get in
  let! _ := call (co_save_profiles (ve_committed (cm_profiles s))) in ret tt.

Definition discard_and_restore (current_profile : option string) : CM W unit :=
  on_profiles ve_discard ;!
  match current_profile with Some prev => restore_previous_profile prev | None => ret tt end.

(** [with_data_modify]: the permit is waited for; a change of the committed list between the
    copy and the exchange is an error. *)
Definition commit_current_profile (current : option string) : CM W unit :=
  on_profiles ve_discard ;!
  match current with
  | None => ret tt
  | Some current =>
      wait_unit (fun w => w) ;!
      let! s := get in
      let original := cm_profiles s in
      modify land ;!
      let! s := get in
      if bool_decide (ve_version (cm_profiles s) = ve_version original)
      then on_profiles (fun a => ve_commit (patch_config (only_current (Some current)) (ve_committed original)) a)
      else raise (Failed "Optimistic lock failed: Committed data has changed during async operation")
  end.

Definition handle_success (current_value : option string) : CM W ValidationOutcome :=
  commit_current_profile current_value ;!
  call (fun w => (tt, co_activate_nodes w)) ;!
  let! s := get in
  let! _ := await (co_save_profiles (ve_committed (cm_profiles s))) in
  let! window := look co_main_window in
  match current_value with
  | Some current => if window : bool then call (fun w => (tt, co_notify_profile_changed current w)) else ret tt
  | None => ret tt
  end ;!
  ret Valid.

Definition send_notice (n : option (string * string)) : CM W unit :=
  match n with Some (key, message) => notice_message key message | None => ret tt end.

Definition handle_validation_failure (outcome : ValidationOutcome) (current_profile : option string)
  : CM W ValidationOutcome :=
  discard_and_restore current_profile ;!
  send_notice (handle_validation_notice outcome TargetRuntime) ;!
  ret outcome.

Definition handle_update_error (message : string) (current_profile : option string) : CM W ValidationOutcome :=
  discard_and_restore current_profile ;!
  notice_message "config_validate::boot_error" message ;!
  ret (invalid_from_message message).

Definition timeout_msg : string := "配置更新超时(30秒)，可能是配置验证或核心通信阻塞".

Definition handle_timeout (current_profile : option string) : CM W ValidationOutcome :=
  discard_and_restore current_profile ;!
  notice_message "config_validate::timeout" timeout_msg ;!
  ret (invalid_from_message timeout_msg).

(** [tokio::time::timeout]: [None] when the future was dropped. *)
Definition timeout {A} (at_wait : option (nat * bool)) (m : CM W A) : CM W (option (result A string)) := fun s =>
  match m (cm_set_deadline at_wait s) with
  | (Ok a, s) => (Ok (Some (Ok a)), cm_set_deadline None s)
  | (Err (Failed e), s) => (Ok (Some (Err e)), cm_set_deadline None s)
  | (Err Dropped, s) => (Ok None, cm_set_deadline None s)
  end.

Definition perform_config_update (at_wait : option (nat * bool)) (current_value current_profile : option string)
  : CM W ValidationOutcome :=
  defer (cm_set_switching_profile false)
    (let! update_result := timeout at_wait update_config_forced in
     match update_result with
     | Some (Ok Valid) => handle_success current_value
     | Some (Ok outcome) => handle_validation_failure outcome current_profile
     | Some (Err e) => handle_update_error e current_profile
     | None => handle_timeout current_profile
     end).

Definition patch_profiles_config (at_wait : option (nat * bool)) (profiles : IProfiles) : CM W ValidationOutcome :=
  let! s := get in
  if cm_switching_profile s then ret Busy
  else
    modify (cm_set_switching_profile true) ;!
    on_profiles (ve_edit (patch_config profiles)) ;!
    perform_config_update at_wait (current profiles) (current (ve_committed (cm_profiles s))).

Definition patch_profiles_config_by_profile_index (at_wait : option (nat * bool)) (profile_index : string)
  : CM W ValidationOutcome :=
  patch_profiles_config at_wait (only_current (Some profile_index)).
End manager.
