(* ===== verification/CoreManagerSafety.v ===== *)
(** * CoreManagerSafety: what holds of the core manager

    A valid update leaves the core running the committed configuration and every other
    end leaves the committed one alone; a profile switch is atomic; the running mode tells
    which process runs.  Where the code falls short (a future dropped in the middle of a
    start, a run file that cannot be written, a child that cannot be spawned) the theorem
    says so. *)

From Stdlib Require Import Ascii String.
From S2P Require Import Prelude Text Yaml ProfileItem Profiles Enhance EnhancePipeline RuntimeConfig Draft Validation.
From S2P Require Import Verge CoreManager.

(** ** steps *)

Section rules.
Context {W : Type}.
Implicit Types s : CoreState W.

Lemma wp_defer {A} fin (m : CM W A) Q s : wp m (fun r s' => Q r (fin s')) s -> wp (defer fin m) Q s.
Proof. unfold wp, defer. by destruct (m s). Qed.

Lemma wp_caught {A} (m : CM W A) (Q : result (result A string) CoreError -> CoreState W -> Prop) s :
  wp m (fun r s' => match r with
                    | Ok a => Q (Ok (Ok a)) s'
                    | Err (Failed e) => Q (Ok (Err e)) s'
                    | Err Dropped => Q (Err Dropped) s'
                    end) s -> wp (caught m) Q s.
Proof. unfold wp, caught. by destruct (m s) as [[a|[e|]] s']. Qed.

Lemma wp_await {A} (op : W -> A * W) (Q : result A CoreError -> CoreState W -> Prop) s :
  (forall s1, s1 = land s ->
     Q (Err Dropped) s1 /\ Q (Err Dropped) (cm_set_world (op (cm_world s1)).2 s1) /\
     forall d, Q (Ok (op (cm_world s1)).1) (cm_set_world (op (cm_world s1)).2 (cm_set_deadline d s1))) ->
  wp (await op) Q s.
Proof.
  intros HQ. destruct (HQ _ eq_refl) as (H1 & H2 & H3). unfold wp, await. cbn zeta.
  destruct (cm_deadline (land s)) as [[[|n] [|]]|] eqn:Ed; cbn [fst snd]; try done;
    destruct (op (cm_world (land s))) as [a w] eqn:Eo; cbn [fst snd] in *; [apply H3..|].
  specialize (H3 None). replace (cm_set_deadline None (land s)) with (land s) in H3; [done|].
  rewrite <- Ed. by destruct (land s).
Qed.

Lemma wp_core_call {A} (op : W -> A * W) (Q : result A CoreError -> CoreState W -> Prop) s :
  Q (Ok (op (cm_world s)).1) (cm_set_world (op (cm_world s)).2 s) -> wp (call op) Q s.
Proof. unfold wp, call. by destruct (op (cm_world s)). Qed.

Lemma wp_look {A} (f : W -> A) (Q : result A CoreError -> CoreState W -> Prop) s :
  Q (Ok (f (cm_world s))) s -> wp (look f) Q s.
Proof. done. Qed.
End rules.

(** ** what a method leaves alone *)

(** A predicate that only the drafts decide: it is closed under every step of the lifecycle. *)
Record lifecycle_closed {W} (P : CoreState W -> Prop) : Prop := {
  lc_land s : P s -> P (land s);
  lc_world x s : P s -> P (cm_set_world x s);
  lc_deadline x s : P s -> P (cm_set_deadline x s);
  lc_running_mode x s : P s -> P (cm_set_running_mode x s);
  lc_child x s : P s -> P (cm_set_child_sidecar x s);
  lc_job x s : P s -> P (cm_set_job_handle x s);
  lc_umask x s : P s -> P (cm_set_umask x s);
  lc_unkilled x s : P s -> P (cm_set_unkilled x s);
  lc_core_mode x s : P s -> P (cm_set_core_mode x s);
  lc_watcher x s : P s -> P (cm_set_handoff_watcher_running x s);
  lc_processing x s : P s -> P (cm_set_is_processing x s);
  lc_progress x s : P s -> P (cm_set_config_update_in_progress x s);
  lc_last_update x s : P s -> P (cm_set_last_update x s);
}.

Section closed.
Context {W : Type} `{CoreOs W} `{MappingLib} (windows : bool) (P : CoreState W -> Prop).
Hypothesis HP : lifecycle_closed P.

Lemma preserves_await {A} (op : W -> A * W) : preserves P (await op).
Proof.
  intros s Hs. apply (wp_await op (fun _ => P)). intros s1 ->. apply (lc_land P HP) in Hs.
  split_and!; [done|by apply lc_world|]. intros d. by apply lc_world, lc_deadline.
Qed.
Lemma preserves_call {A} (op : W -> A * W) : preserves P (call op).
Proof. intros s Hs. apply (wp_core_call op (fun _ => P)). by apply lc_world. Qed.
Lemma preserves_look {A} (f : W -> A) : preserves P (look f).
Proof. by intros s. Qed.
Lemma preserves_defer {A} fin (m : CM W A) :
  (forall s, P s -> P (fin s)) -> preserves P m -> preserves P (defer fin m).
Proof. intros Hf Hm s Hs. unfold defer. specialize (Hm s Hs). destruct (m s). by apply Hf. Qed.
Lemma preserves_caught {A} (m : CM W A) : preserves P m -> preserves P (caught m).
Proof. intros Hm s Hs. unfold caught. specialize (Hm s Hs). by destruct (m s) as [[a|[e|]] s']. Qed.

Hint Resolve preserves_await preserves_call preserves_look : preserves.

Ltac closed :=
  repeat first
    [ apply preserves_bind; [|intros ?]
    | apply preserves_caught
    | apply preserves_defer; [intros ? ?; solve [by apply HP]|]
    | apply preserves_modify; intros ? ?; solve [by apply HP]
    | solve [eauto with preserves nocore]
    | match goal with |- preserves _ (match ?x with _ => _ end) => destruct x end
    | progress cbv zeta ].

Lemma closed_generate_file typ : preserves P (generate_file typ).
Proof. unfold generate_file, home_dir, await_ok. closed. Qed.
Hint Resolve closed_generate_file : preserves.

Lemma closed_validate : preserves P validate_config_outcome.
Proof. unfold validate_config_outcome, validate_config_internal_outcome, home_dir, await_ok. closed. Qed.

Lemma closed_set_job_handle h : preserves P (set_job_handle h).
Proof. unfold set_job_handle. closed. Qed.
Hint Resolve closed_set_job_handle : preserves.

Lemma closed_start_by_sidecar : preserves P (start_core_by_sidecar windows).
Proof. unfold start_core_by_sidecar, home_dir, umask, call_ok, assign_job, kill_child, set_running_mode. closed. Qed.
Lemma closed_stop_by_sidecar : preserves P (stop_core_by_sidecar windows).
Proof. unfold stop_core_by_sidecar, take_child_sidecar, kill_child. closed. Qed.
Lemma closed_retries n last file : preserves P (service_start_retries n last file).
Proof. revert last. induction n; intros last; cbn [service_start_retries]; unfold wait_unit, set_running_mode; closed. Qed.
Hint Resolve closed_retries closed_start_by_sidecar closed_stop_by_sidecar : preserves.
Lemma closed_start_by_service : preserves P (start_core_by_service windows).
Proof. unfold start_core_by_service, await_ok, set_running_mode. closed. Qed.
Lemma closed_service_attempts n : preserves P (service_attempts n).
Proof. induction n; cbn [service_attempts]; unfold service_attempt, wait_unit; closed. Qed.
Hint Resolve closed_start_by_service closed_service_attempts : preserves.
Lemma closed_prepare_startup : preserves P (prepare_startup windows).
Proof. unfold prepare_startup, wait_for_service_if_needed, tun_enabled, set_running_mode. closed. Qed.
Hint Resolve closed_prepare_startup : preserves.

Lemma closed_start_core_inner : preserves P (start_core_inner windows).
Proof.
  unfold start_core_inner, spawn_service_handoff_watcher, tun_enabled, set_running_mode, after_core_process. closed.
Qed.
Lemma closed_stop_core_inner : preserves P (stop_core_inner windows).
Proof. unfold stop_core_inner, stop_core_by_service, after_core_process, wait_unit, await_ok. closed. Qed.
Hint Resolve closed_start_core_inner closed_stop_core_inner : preserves.
Lemma closed_restart_core : preserves P (restart_core windows).
Proof. unfold restart_core, lifecycle_lock, wait_unit. closed. Qed.
Hint Resolve closed_restart_core closed_validate : preserves.

(** The update itself also changes the draft of the runtime configuration. *)
Hypothesis HR : forall x s, P s -> P (cm_set_runtime x s).

Lemma closed_on_runtime f : preserves P (on_runtime (W := W) f).
Proof. unfold on_runtime. apply preserves_modify. intros s Hs. by apply HR. Qed.
Hint Resolve closed_on_runtime : preserves.

Lemma closed_update_config force : preserves P (update_config_with_force windows force).
Proof.
  unfold update_config_with_force, try_start_config_update, should_update_config, finish_config_update,
    manager_perform_config_update, generate, apply_generate_config_inner, apply_config, await_ok. closed.
Qed.
End closed.

(** The steps up to a start: they concern neither the mode nor the child nor its job. *)
Record calm_closed {W} (P : CoreState W -> Prop) : Prop := {
  cc_land s : P s -> P (land s);
  cc_world x s : P s -> P (cm_set_world x s);
  cc_deadline x s : P s -> P (cm_set_deadline x s);
  cc_processing x s : P s -> P (cm_set_is_processing x s);
}.

Section calm.
Context {W : Type} `{CoreOs W} `{MappingLib} (windows : bool) (P : CoreState W -> Prop).
Hypothesis HP : calm_closed P.

Lemma calm_await {A} (op : W -> A * W) : preserves P (await op).
Proof.
  intros s Hs. apply (wp_await op (fun _ => P)). intros s1 ->. apply (cc_land P HP) in Hs.
  split_and!; [done|by apply cc_world|]. intros d. by apply cc_world, cc_deadline.
Qed.
Lemma calm_look {A} (f : W -> A) : preserves P (look f).
Proof. by intros s. Qed.
Hint Resolve calm_await calm_look : preserves.

Ltac calm :=
  repeat first
    [ apply preserves_bind; [|intros ?]
    | apply preserves_defer; [intros ? ?; solve [by apply HP]|]
    | apply preserves_modify; intros ? ?; solve [by apply HP]
    | solve [eauto with preserves nocore]
    | match goal with |- preserves _ (match ?x with _ => _ end) => destruct x end
    | progress cbv zeta ].

Lemma calm_generate_file typ : preserves P (generate_file typ).
Proof. unfold generate_file, home_dir, await_ok. calm. Qed.
Hint Resolve calm_generate_file : preserves.
Lemma calm_validate : preserves P validate_config_outcome.
Proof. unfold validate_config_outcome, validate_config_internal_outcome, home_dir, await_ok. calm. Qed.

Hypothesis HM : forall x s, P s -> P (cm_set_running_mode x s).
Lemma calm_service_attempts n : preserves P (service_attempts n).
Proof. induction n; cbn [service_attempts]; unfold service_attempt, wait_unit; calm. Qed.
Hint Resolve calm_service_attempts : preserves.
Lemma calm_prepare_startup : preserves P (prepare_startup windows).
Proof.
  unfold prepare_startup, wait_for_service_if_needed, tun_enabled, set_running_mode. calm.
  apply preserves_modify. intros s Hs. by apply HM.
Qed.
End calm.

(** ** the configuration the core runs *)

(** What the calls do: a file that was saved holds what was saved, a core that was started
    or reloaded has read its file, and putting the core into a job does not change what it
    runs. *)
Class CoreLaws (W : Type) `{CoreOs W} := {
  file_at : W -> string -> option Mapping;
  core_runs : W -> option Mapping;
  law_save path config w w' : co_save_yaml path config w = (Ok tt, w') -> file_at w' path = Some config;
  law_reload path w w' : co_reload_config path w = (Ok tt, w') -> core_runs w' = file_at w path;
  law_spawn core dir path ipc w pid w' : co_spawn core dir path ipc w = (Ok pid, w') -> core_runs w' = file_at w path;
  law_service_run path w w' : co_service_run path w = (Ok tt, w') -> core_runs w' = file_at w path;
  law_service_refuses path p w e w' : co_service_run path w = (Err e, w') -> file_at w' p = file_at w p;
  law_sleep t p w : file_at (co_sleep t w) p = file_at w p;
  law_create_job pid w job w' : co_create_job pid w = (Ok job, w') -> core_runs w' = core_runs w;
}.

(** A child is recorded in sidecar mode only, and a job only with a child. *)
Definition tidy {W} (s : CoreState W) : Prop :=
  (cm_running_mode s <> ModeSidecar -> cm_child_sidecar s = None) /\
  (cm_child_sidecar s = None -> cm_job_handle s = None).

Lemma land_world {W} (s : CoreState W) : cm_world (land s) = cm_world s.
Proof. unfold land. by destruct (cm_others s) as [|[f|] l]. Qed.
Lemma land_runtime {W} (s : CoreState W) : cm_runtime (land s) = cm_runtime s.
Proof. unfold land. by destruct (cm_others s) as [|[f|] l]. Qed.
Lemma land_mode {W} (s : CoreState W) : cm_running_mode (land s) = cm_running_mode s.
Proof. unfold land. by destruct (cm_others s) as [|[f|] l]. Qed.
Lemma land_child {W} (s : CoreState W) : cm_child_sidecar (land s) = cm_child_sidecar s.
Proof. unfold land. by destruct (cm_others s) as [|[f|] l]. Qed.
Lemma land_deadline {W} (s : CoreState W) : cm_deadline (land s) = cm_deadline s.
Proof. unfold land. by destruct (cm_others s) as [|[f|] l]. Qed.

Lemma land_unkilled {W} (s : CoreState W) : cm_unkilled (land s) = cm_unkilled s.
Proof. unfold land. by destruct (cm_others s) as [|[f|] l]. Qed.
Lemma land_job {W} (s : CoreState W) : cm_job_handle (land s) = cm_job_handle s.
Proof. unfold land. by destruct (cm_others s) as [|[f|] l]. Qed.

Create HintDb land.
#[export] Hint Rewrite @land_world @land_runtime @land_mode @land_child @land_deadline @land_unkilled @land_job : land.

Lemma runtime_closed {W} (v : Versioned IRuntime) : lifecycle_closed (fun s : CoreState W => cm_runtime s = v).
Proof. split; try done. intros s <-. apply land_runtime. Qed.

(** The step of a method of the manager. *)
Ltac core_step :=
  match goal with
  | |- wp (defer _ _) _ _ => apply wp_defer
  | |- wp (caught _) _ _ => apply wp_caught
  | |- wp (await _) _ _ => apply wp_await; intros ? ->; autorewrite with land; refine (conj _ (conj _ (fun _ => _)))
  | |- wp (call _) _ _ => apply wp_core_call
  | |- wp (look _) _ _ => apply wp_look
  | |- wp (await_ok _) _ _ => unfold await_ok
  | |- wp (call_ok _) _ _ => unfold call_ok
  | |- wp (wait_unit _) _ _ => unfold wait_unit
  | |- wp home_dir _ _ => unfold home_dir
  | |- wp (on_runtime _) _ _ => unfold on_runtime
  | |- wp (on_profiles _) _ _ => unfold on_profiles
  | |- wp (set_running_mode _) _ _ => unfold set_running_mode
  | |- wp (umask _) _ _ => unfold umask
  | _ => wp_step
  end; cbn beta iota zeta.

(** The steps up to the next wait. *)
Ltac calm_steps :=
  repeat match goal with
         | |- wp (await _) _ _ => fail 1
         | _ => core_step
         end.
Ltac kept := cbn; autorewrite with land; done.

(** What [generate_file] writes. *)
Definition chosen {W} (s : CoreState W) : option Mapping :=
  match rt_config (ve_latest (cm_runtime s)) with
  | Some c => Some c
  | None => rt_config (ve_committed (cm_runtime s))
  end.

Lemma tidy_closed {W} : calm_closed (tidy (W := W)).
Proof. split; try done. intros s. unfold tidy. by autorewrite with land. Qed.
Lemma jobless_closed {W} : calm_closed (fun s : CoreState W => cm_job_handle s = None).
Proof. split; try done. intros s. by autorewrite with land. Qed.

Section runs.
Context {W : Type} `{HL : CoreLaws W} `{MappingLib} (windows : bool).
Implicit Types s : CoreState W.

Lemma generate_file_spec typ s :
  wp (generate_file typ) (fun r s' => cm_runtime s' = cm_runtime s /\
    forall path, r = Ok path -> file_at (cm_world s') path = chosen s) s.
Proof.
  unfold generate_file. repeat core_step. destruct (co_home_dir (cm_world s)) as [dir|e]; cbn; [|done].
  repeat core_step. fold (chosen s). destruct (chosen s) as [c|]; [|by repeat core_step].
  repeat core_step; try (split; [kept|done]).
  destruct (co_save_yaml (file_path dir (config_name typ)) c (cm_world s)) as [[[]|e] w'] eqn:Es; cbn; [|split; [kept|done]].
  repeat core_step. split; [kept|]. intros path [= <-]. cbn. by eapply law_save.
Qed.

(** On Windows the child is put into a job; an earlier job there would be closed. *)
Lemma start_by_sidecar_runs s :
  (windows = true -> cm_job_handle s = None) ->
  wp (start_core_by_sidecar windows) (fun r s' => r = Ok tt -> core_runs (cm_world s') = chosen s) s.
Proof.
  intros Hj. unfold start_core_by_sidecar. core_step. eapply wp_mono.
  { apply wp_and; [apply generate_file_spec|].
    apply (preserves_wp (fun s => windows = true -> cm_job_handle s = None)); [|exact Hj].
    destruct windows; [|by intros ? ? ?]. intros s0 Hs0 _. by apply (calm_generate_file _ jobless_closed), Hs0. }
  intros [path|e] s1 [[_ Hf] Hj1]; [|done]. specialize (Hf path eq_refl). repeat core_step.
  destruct (co_home_dir (cm_world s1)) as [dir|e]; cbn; [|done]. core_step.
  eapply (wp_mono _ (fun r s2 => cm_world s2 = cm_world s1 /\ cm_job_handle s2 = cm_job_handle s1 /\ exists m, r = Ok m)).
  { destruct windows; repeat core_step; eauto. }
  intros ? s2 (Hw2 & Hj2 & m & ->). core_step. core_step. core_step. core_step. rewrite Hw2.
  match goal with |- context [co_spawn ?a ?b ?c ?d ?w] => destruct (co_spawn a b c d w) as [[pid|e] w'] eqn:Es end;
    cbn; repeat core_step; [|done].
  assert (Hruns : core_runs w' = chosen s) by (rewrite <- Hf; by eapply law_spawn).
  eapply (wp_mono _ (fun r s3 => r = Ok tt -> core_runs (cm_world s3) = chosen s)).
  { destruct windows; [|by repeat core_step]. unfold assign_job. repeat core_step. cbn [cm_world cm_set_world].
    destruct (co_create_job pid w') as [[job|e] w2] eqn:Ej; cbn [fst snd].
    - unfold set_job_handle. repeat core_step. cbn [cm_job_handle cm_set_world]. rewrite Hj2, Hj1 by done.
      repeat core_step. intros _. cbn. rewrite <- Hruns. by eapply law_create_job.
    - unfold kill_child. repeat core_step. case_match; by repeat core_step. }
  intros [[]|e] s3 Hs3; [|done]. repeat core_step. intros _. by apply Hs3.
Qed.

Lemma retries_run n last path s :
  wp (service_start_retries n last path)
    (fun r s' => r = Ok tt -> core_runs (cm_world s') = file_at (cm_world s) path) s.
Proof.
  revert last s. induction n as [|n IH]; intros last s; cbn [service_start_retries]; [by repeat core_step|].
  core_step. core_step; try done. destruct (co_service_run path (cm_world s)) as [[[]|e] w'] eqn:Es; cbn [fst snd].
  - repeat core_step. intros _. cbn. by eapply law_service_run.
  - core_step. core_step. core_step; try done. eapply wp_mono; [apply IH|]. cbn.
    intros r s' Hr Hok. rewrite (Hr Hok), law_sleep. by eapply law_service_refuses.
Qed.

Lemma start_by_service_runs s :
  wp (start_core_by_service windows) (fun r s' => r = Ok tt -> core_runs (cm_world s') = chosen s) s.
Proof.
  unfold start_core_by_service. core_step. eapply wp_mono; [apply generate_file_spec|].
  intros [path|e] s1 [_ Hf]; [|done]. specialize (Hf path eq_refl). destruct windows.
  { eapply wp_mono; [apply retries_run|]. intros r s' Hr Hok. by rewrite (Hr Hok). }
  repeat core_step; try done.
  destruct (co_service_run path (cm_world s1)) as [[[]|e] w'] eqn:Es; cbn; [|done].
  repeat core_step. intros _. cbn. rewrite <- Hf. by eapply law_service_run.
Qed.

Lemma chosen_runtime s s' : cm_runtime s' = cm_runtime s -> chosen s' = chosen s.
Proof. unfold chosen. by intros ->. Qed.

Lemma start_core_inner_runs s :
  cm_running_mode s = ModeNotRunning -> (windows = true -> cm_job_handle s = None) ->
  wp (start_core_inner windows) (fun r s' => r = Ok tt ->
    core_runs (cm_world s') = chosen s \/ os_is_exiting (cm_world s') = true) s.
Proof.
  intros Hm Hj. unfold start_core_inner. repeat core_step. destruct (os_is_exiting (cm_world s)) eqn:Ex; [by right|].
  repeat core_step. rewrite Hm. cbn [negb bool_decide]. rewrite bool_decide_eq_true_2 by done. cbn [negb].
  core_step. eapply wp_mono.
  { apply wp_and; [apply (preserves_wp _ _ _ (closed_prepare_startup windows _ (runtime_closed (cm_runtime s)))); done|].
    apply (preserves_wp (fun s => windows = true -> cm_job_handle s = None)); [|exact Hj].
    destruct windows; [|by intros ? ? ?]. intros s0 Hs0 _. apply (calm_prepare_startup true _ jobless_closed); auto. }
  intros [[]|e] s1 [Hr Hj1]; [|done]. repeat core_step. destruct (os_is_exiting (cm_world s1)) eqn:Ex1.
  { repeat core_step. by right. }
  repeat core_step. eapply (wp_mono _ (fun r s2 => r = Ok tt -> core_runs (cm_world s2) = chosen s)).
  { destruct (cm_running_mode s1).
    1: eapply wp_mono; [apply start_by_service_runs|].
    2, 3: eapply wp_mono; [by apply start_by_sidecar_runs|].
    all: intros r s2 Hs2 Hok; rewrite (Hs2 Hok); by apply chosen_runtime. }
  intros [[]|[e|]] s2 Hs2; repeat core_step; try done.
  specialize (Hs2 eq_refl). unfold spawn_service_handoff_watcher, tun_enabled.
  case_match; repeat core_step; try case_match; repeat core_step; intros _; left; exact Hs2.
Qed.

Lemma stop_core_inner_mode s :
  wp (stop_core_inner windows) (fun r s' => r = Ok tt -> cm_running_mode s' = ModeNotRunning /\
    ((windows = true -> tidy s) -> windows = true -> cm_job_handle s' = None)) s.
Proof.
  unfold stop_core_inner. repeat core_step; try done. cbn [cm_running_mode cm_set_world cm_set_deadline].
  rewrite land_mode. destruct (cm_running_mode s) eqn:Em; unfold stop_core_by_service, stop_core_by_sidecar.
  - repeat core_step; try done. destruct (co_service_stop _).1; [|done]. intros _. split; [done|].
    intros Ht Hw. destruct (Ht Hw) as [Hc Hj]. cbn. repeat (rewrite land_job; cbn). apply Hj, Hc. by rewrite Em.
  - repeat core_step. unfold take_child_sidecar. repeat core_step. cbn [cm_child_sidecar cm_set_world cm_set_deadline].
    rewrite land_child. destruct (cm_child_sidecar s) as [child|] eqn:Ec.
    + core_step. eapply (wp_mono _ (fun r s1 => r = Ok tt /\ (windows = true -> cm_job_handle s1 = None))).
      { destruct windows; [|by repeat core_step]. unfold set_job_handle. repeat core_step. by case_match; repeat core_step. }
      intros ? s1 [-> Hj]. unfold kill_child. repeat core_step. case_match; repeat core_step; by auto.
    + repeat core_step. intros _. split; [done|]. intros Ht Hw. destruct (Ht Hw) as [_ Hj]. cbn.
      autorewrite with land. by apply Hj.
  - repeat core_step. intros _. cbn. autorewrite with land. split; [done|]. intros Ht Hw.
    destruct (Ht Hw) as [Hc Hj]. apply Hj, Hc. by rewrite Em.
Qed.

Lemma restart_core_runs s :
  wp (restart_core windows) (fun r s' => cm_runtime s' = cm_runtime s /\
    (r = Ok tt -> (windows = true -> tidy s) ->
       core_runs (cm_world s') = chosen s \/ os_is_exiting (cm_world s') = true)) s.
Proof.
  apply wp_and; [apply (preserves_wp _ _ _ (closed_restart_core windows _ (runtime_closed _))); done|].
  unfold restart_core, lifecycle_lock. repeat core_step; try done. eapply wp_mono.
  { apply wp_and; [apply stop_core_inner_mode|].
    apply (preserves_wp _ _ _ (closed_stop_core_inner windows _ (runtime_closed (cm_runtime s)))). apply land_runtime. }
  intros [[]|e] s1 [Hm Hr]; [|done]. destruct (Hm eq_refl) as [Hmode Hjob].
  assert (Hstart : (windows = true -> tidy s) -> wp (start_core_inner windows) (fun r s' => r = Ok tt ->
    core_runs (cm_world s') = chosen s1 \/ os_is_exiting (cm_world s') = true) s1).
  { intros Ht. apply start_core_inner_runs; [done|]. apply Hjob. intros Hw. specialize (Ht Hw). revert Ht.
    unfold tidy. cbn. by autorewrite with land. }
  unfold wp in *. destruct (start_core_inner windows s1) as [r s2]. cbn in *. intros Hok Ht.
  destruct (Hstart Ht Hok) as [->|]; [left; by apply chosen_runtime|by right].
Qed.

(** The three ends of an application: applied, discarded, abandoned. *)
Lemma apply_config_spec path s :
  file_at (cm_world s) path = chosen s ->
  wp (apply_config windows path) (fun r s' =>
    match r with
    | Ok _ => cm_runtime s' = ve_apply (cm_runtime s) /\ ((windows = true -> tidy s) ->
              core_runs (cm_world s') = chosen s \/ os_is_exiting (cm_world s') = true)
    | Err (Failed _) => cm_runtime s' = ve_discard (cm_runtime s)
    | Err Dropped => cm_runtime s' = cm_runtime s
    end) s.
Proof.
  intros Hf. unfold apply_config. core_step. core_step; [kept..|].
  destruct (co_reload_config path (cm_world s)) as [[[]|e] w'] eqn:Er; cbn [fst snd]; repeat core_step.
  { split; [kept|left]. cbn. rewrite <- Hf. by eapply law_reload. }
  eapply wp_mono; [apply restart_core_runs|]. cbn. autorewrite with land.
  intros [[]|[e'|]] s1 [Hr Hs]; repeat core_step; cbn; rewrite ?Hr; try done.
  split; [done|]. intros Ht. destruct (Hs eq_refl) as [->|]; [|left|by right].
  - intros Hw. specialize (Ht Hw). revert Ht. unfold tidy. cbn. by autorewrite with land.
  - apply chosen_runtime. kept.
Qed.

(** What the update does to the runtime draft [v] it starts from, by its answer; [J] is
    what must be known of the jobs of earlier children. *)
Definition settled (J : Prop) (v : Versioned IRuntime) (r : result ValidationOutcome CoreError) (s' : CoreState W) : Prop :=
  match r with
  | Ok Valid => cm_runtime s' = ve_apply v /\ exists c, rt_config (ve_latest v) = Some c /\
                (J -> core_runs (cm_world s') = Some c \/ os_is_exiting (cm_world s') = true)
  | Ok (Invalid _ _) => cm_runtime s' = ve_discard v
  | _ => cm_runtime s' = v \/ cm_runtime s' = ve_discard v
  end.

Lemma apply_generate_spec s :
  is_some (rt_config (ve_latest (cm_runtime s))) = true ->
  wp (apply_generate_config_inner windows) (settled (windows = true -> tidy s) (cm_runtime s)) s.
Proof.
  intros Hc. unfold apply_generate_config_inner. repeat core_step. eapply wp_mono.
  { apply wp_and; [apply (preserves_wp _ _ _ (closed_validate _ (runtime_closed (cm_runtime s)))); done|].
    instantiate (1 := fun _ s1 => tidy s -> tidy s1). intros Ht. by apply (calm_validate _ tidy_closed). }
  intros [[|k m| |]|[e|]] s1 [Hr Ht1]; repeat core_step; cbn; rewrite ?Hr; try (by left); try (by right); try done.
  eapply wp_mono.
  { apply wp_and; [apply generate_file_spec|].
    instantiate (1 := fun _ s2 => tidy s1 -> tidy s2). intros Ht. by apply (calm_generate_file _ tidy_closed). }
  intros [path|e] s2 [[Hr2 Hf] Ht2]; [|left; congruence].
  core_step. eapply wp_mono.
  { apply apply_config_spec. rewrite (Hf path eq_refl). symmetry. by apply chosen_runtime. }
  intros [[]|[e|]] s3 Hs3; repeat core_step; cbn; rewrite Hr2, Hr in Hs3; [|by right|by left].
  destruct Hs3 as [Hs3 Hruns]. split; [done|].
  assert (Hch : chosen s2 = rt_config (ve_latest (cm_runtime s))).
  { unfold chosen. rewrite Hr2, Hr. by destruct (rt_config (ve_latest _)). }
  destruct (rt_config (ve_latest (cm_runtime s))) as [c|]; [|done]. exists c. split; [done|]. intros Hj.
  rewrite <- Hch. apply Hruns. auto.
Qed.

(** The runtime configuration that comes out of the enhancement in the world [w]. *)
Definition generated (w : W) (rt : IRuntime) : Prop :=
  exists config keys logs w', co_enhance w = (Ok (config, keys, logs), w') /\
    rt = {| rt_config := Some (sanitize_tunnels_proxy config); rt_exists_keys := keys; rt_chain_logs := logs |}.

Definition update_settled (s : CoreState W) (r : result ValidationOutcome CoreError) (s' : CoreState W) : Prop :=
  match r with
  | Ok Valid => ve_draft (cm_runtime s') = None /\ generated (cm_world s) (ve_committed (cm_runtime s')) /\
                ((windows = true -> tidy s) ->
                 core_runs (cm_world s') = rt_config (ve_committed (cm_runtime s')) \/
                 os_is_exiting (cm_world s') = true)
  | Ok (Invalid _ _) =>
      ve_draft (cm_runtime s') = None /\ ve_committed (cm_runtime s') = ve_committed (cm_runtime s)
  | _ => ve_committed (cm_runtime s') = ve_committed (cm_runtime s)
  end.

Lemma perform_update_spec s :
  wp (manager_perform_config_update windows) (update_settled s) s.
Proof.
  unfold manager_perform_config_update, generate. repeat core_step; try kept.
  destruct (co_enhance (cm_world s)) as [[[[config keys] logs]|e] w'] eqn:Ee; cbn [fst snd failed map_err]; repeat core_step.
  - eapply wp_mono; [by apply apply_generate_spec|]. cbn. autorewrite with land.
    intros [[|k m| |]|[e|]] s1; cbn.
    + intros (Hr & c & Hc & Hruns). rewrite Hr. cbn. split; [done|]. injection Hc as <-.
      split; [by exists config, keys, logs, w'|]. intros Ht. apply Hruns. intros Hw. specialize (Ht Hw). revert Ht.
      unfold tidy. cbn. by autorewrite with land.
    + intros ->. done.
    + by intros [->| ->].
    + by intros [->| ->].
    + by intros [->| ->].
    + by intros [->| ->].
  - cbn. autorewrite with land. done.
Qed.

Lemma update_settled_from s s1 r s' :
  cm_runtime s1 = cm_runtime s -> cm_world s1 = cm_world s -> (tidy s -> tidy s1) ->
  update_settled s1 r s' -> update_settled s r s'.
Proof. unfold update_settled. intros -> -> Ht. destruct r as [[|k m| |]|[]]; naive_solver. Qed.

Lemma update_config_spec force s :
  wp (update_config_with_force windows force) (update_settled s) s.
Proof.
  unfold update_config_with_force. repeat core_step. destruct (os_is_exiting (cm_world s)); [done|].
  unfold try_start_config_update. repeat core_step. destruct (negb _); [done|]. cbn [negb].
  set (same := fun s1 : CoreState W => cm_runtime s1 = cm_runtime s /\ cm_world s1 = cm_world s /\ (tidy s -> tidy s1)).
  repeat core_step. eapply (wp_mono _ (fun r s1 => same s1)).
  { destruct force; [done|]. unfold should_update_config. repeat core_step. by case_match; repeat core_step. }
  intros [[]|e] s1 (Hr & Hw & Ht); [|cbn; congruence|destruct e; cbn; congruence]. cbn [negb]. core_step.
  eapply (wp_mono _ (fun r s2 => r = Ok tt /\ same s2)).
  { destruct force; by repeat core_step. }
  intros ? s2 (-> & Hr2 & Hw2 & Ht2). eapply wp_mono; [apply perform_update_spec|].
  intros r s3 Hs. apply (update_settled_from s s2) in Hs; [|done..]. destruct r as [[]|[]]; exact Hs.
Qed.

(** C16: an update of the core's configuration that answers valid has committed
    a generated configuration and the core runs exactly it (or the application
    is exiting); one that answers invalid has dropped the draft, and every other
    answer, also a future dropped at a wait, leaves the committed configuration
    as it was. *)
Theorem update_applies_or_keeps_configuration force s r s' :
  update_config_with_force windows force s = (r, s') ->
  match r with
  | Ok Valid =>
      (* committed: what the enhancement made of the world the update started in *)
      ve_draft (cm_runtime s') = None /\ generated (cm_world s) (ve_committed (cm_runtime s')) /\
      (* and the core runs it *)
      ((windows = true -> tidy s) ->
       core_runs (cm_world s') = rt_config (ve_committed (cm_runtime s')) \/ os_is_exiting (cm_world s') = true)
  | Ok (Invalid _ _) =>
      ve_draft (cm_runtime s') = None /\ ve_committed (cm_runtime s') = ve_committed (cm_runtime s)
  | _ => ve_committed (cm_runtime s') = ve_committed (cm_runtime s)
  end.
Proof. apply (wp_run _ (update_settled s)), update_config_spec. Qed.

(** ** switching the profile *)

(** The modifications of other tasks, in the order in which they land. *)
Definition landed (fs : list (option (IProfiles -> IProfiles))) (p : IProfiles) : IProfiles :=
  fold_left (fun p f => match f with Some f => f p | None => p end) fs p.

Lemma landed_app fs gs p : landed (fs ++ gs) p = landed gs (landed fs p).
Proof. apply fold_left_app. Qed.

(** From [s0] to [s] only other tasks have changed the profile list. *)
Definition lands (s0 s : CoreState W) (fs : list (option (IProfiles -> IProfiles))) : Prop :=
  cm_others s0 = fs ++ cm_others s /\
  ve_committed (cm_profiles s) = landed fs (ve_committed (cm_profiles s0)) /\
  ve_draft (cm_profiles s) = ve_draft (cm_profiles s0).

Lemma lands_land s0 s fs : lands s0 s fs -> exists fs', lands s0 (land s) fs'.
Proof.
  intros (Ho & Hc & Hd). unfold land. destruct (cm_others s) as [|[f|] rest] eqn:Eo.
  - exists fs. by rewrite <- Eo in Ho.
  - exists (fs ++ [Some f]). split_and!; cbn; [by rewrite <- app_assoc|by rewrite landed_app, Hc|done].
  - exists (fs ++ [None]). split_and!; cbn; [by rewrite <- app_assoc|by rewrite landed_app, Hc|done].
Qed.

Lemma lands_closed s0 : lifecycle_closed (fun s => exists fs, lands s0 s fs).
Proof. split; try done. intros s (fs & Hl). by eapply lands_land. Qed.

Lemma wp_timeout {A} at_wait (m : CM W A) (Q : result (option (result A string)) CoreError -> CoreState W -> Prop) s :
  wp m (fun r s' => match r with
                    | Ok a => Q (Ok (Some (Ok a))) (cm_set_deadline None s')
                    | Err (Failed e) => Q (Ok (Some (Err e))) (cm_set_deadline None s')
                    | Err Dropped => Q (Ok None) (cm_set_deadline None s')
                    end) (cm_set_deadline at_wait s) -> wp (timeout at_wait m) Q s.
Proof. unfold wp, timeout. by destruct (m _) as [[a|[e|]] s']. Qed.

Lemma wp_await_forever {A} (op : W -> A * W) (Q : result A CoreError -> CoreState W -> Prop) s :
  cm_deadline s = None ->
  Q (Ok (op (cm_world s)).1) (cm_set_world (op (cm_world s)).2 (land s)) -> wp (await op) Q s.
Proof.
  intros Hd HQ. unfold wp, await. cbn zeta. rewrite land_deadline, Hd, land_world.
  by destruct (op (cm_world s)).
Qed.

(** The committed list with another current profile. *)
Definition switched (target : option string) (p : IProfiles) : IProfiles :=
  match target with Some c => patch_config (only_current (Some c)) p | None => p end.

Lemma discard_and_restore_spec prev s :
  wp (discard_and_restore prev) (fun r s' => r = Ok tt /\
    ve_draft (cm_profiles s') = None /\ cm_others s' = cm_others s /\ cm_runtime s' = cm_runtime s /\
    ve_committed (cm_profiles s') = switched prev (ve_committed (cm_profiles s))) s.
Proof. unfold discard_and_restore, restore_previous_profile. repeat core_step. by destruct prev; repeat core_step. Qed.

Lemma land_step (s : CoreState W) : exists fs, lands s (land s) fs /\
  (ve_version (cm_profiles (land s)) = ve_version (cm_profiles s) -> forall p, landed fs p = p) /\
  (ve_version (cm_profiles (land s)) <> ve_version (cm_profiles s) -> exists f, fs = [Some f]).
Proof.
  unfold land. destruct (cm_others s) as [|[f|] rest] eqn:Eo.
  - exists []. by split_and!.
  - exists [Some f]. split; [by split_and!|]. split; [cbn; lia|eauto].
  - exists [None]. by split_and!.
Qed.

(** How the list stands after the commit and after the end. *)
Definition committed_switch (target : option string) (s : CoreState W) (r : result unit CoreError) (s' : CoreState W) : Prop :=
  ve_draft (cm_profiles s') = None /\ cm_runtime s' = cm_runtime s /\ cm_deadline s' = None /\
  exists before, cm_others s = before ++ cm_others s' /\
    let list := landed before (ve_committed (cm_profiles s)) in
    match r with
    | Ok _ => ve_committed (cm_profiles s') = switched target list
    | Err _ => ve_committed (cm_profiles s') = list /\ is_some target = true /\
        (* the last of them landed between the copy and the exchange *)
        exists earlier f, before = earlier ++ [Some f]
    end.

Lemma commit_current_profile_spec target s :
  cm_deadline s = None -> wp (commit_current_profile target) (committed_switch target s) s.
Proof.
  intros Hd. unfold commit_current_profile. repeat core_step.
  destruct target as [c|]; [|core_step; split_and!; try done; by exists []].
  set (s0 := cm_set_profiles _ s). calm_steps. apply wp_await_forever; [done|]. calm_steps.
  destruct (land_step s0) as (fs & (Ho & Hc & Hdr) & _).
  set (s1 := cm_set_world _ (land s0)).
  destruct (land_step s1) as (gs & (Ho' & Hc' & Hdr') & Hv & Hnv).
  assert (Hothers : cm_others s = (fs ++ gs) ++ cm_others (land s1)).
  { rewrite <- app_assoc, <- Ho'. exact Ho. }
  case_bool_decide as Hver; repeat core_step; unfold committed_switch; cbn; autorewrite with land.
  - split_and!; [by rewrite Hdr'|kept|kept|]. exists (fs ++ gs). split; [done|].
    rewrite landed_app, Hv by done. by rewrite Hc.
  - split_and!; [by rewrite Hdr'|kept|kept|]. exists (fs ++ gs). split; [done|].
    split; [|split; [done|destruct (Hnv Hver) as [f ->]; eauto]].
    rewrite landed_app, Hc'. change (cm_profiles s1) with (cm_profiles (land s0)). by rewrite Hc.
Qed.

Lemma handle_success_spec target s :
  cm_deadline s = None ->
  wp (handle_success target) (fun r s' => ve_draft (cm_profiles s') = None /\ cm_runtime s' = cm_runtime s /\
    exists before after, cm_others s = before ++ after ++ cm_others s' /\
      let list := landed before (ve_committed (cm_profiles s)) in
      match r with
      | Ok o => o = Valid /\ ve_committed (cm_profiles s') = landed after (switched target list)
      | Err _ => after = [] /\ ve_committed (cm_profiles s') = list /\ is_some target = true /\
          exists earlier f, before = earlier ++ [Some f]
      end) s.
Proof.
  intros Hd. unfold handle_success. core_step. eapply wp_mono; [by apply commit_current_profile_spec|].
  intros [[]|e] s1 (Hdr & Hr & Hd1 & before & Ho & Hs).
  2: { split_and!; [done..|]. exists before, []. split; [done|]. by split. }
  calm_steps. apply wp_await_forever; [done|]. calm_steps.
  destruct (land_step (cm_set_world (co_activate_nodes (cm_world s1)) s1)) as (fs & (Ho' & Hc & Hdr') & _).
  eapply (wp_mono _ (fun r s' => r = Ok tt /\ cm_profiles s' = cm_profiles (land (cm_set_world (co_activate_nodes (cm_world s1)) s1)) /\
    cm_others s' = cm_others (land (cm_set_world (co_activate_nodes (cm_world s1)) s1)) /\ cm_runtime s' = cm_runtime s1)).
  { destruct target as [c|]; [case_match|]; repeat core_step; split_and!; try done; kept. }
  intros ? s2 (-> & Hp & Hoo & Hr2). repeat core_step. rewrite Hp, Hr2, Hoo, Hdr'. split_and!; [done..|].
  exists before, fs. split; [by rewrite Ho, <- Ho'|]. split; [done|]. rewrite Hc. cbn. by rewrite Hs.
Qed.

(** How a switch ends: the list is the committed one with what other tasks did to it
    meanwhile, and with the new or the previous current profile. *)
Definition switch_ended (profiles : IProfiles) (s : CoreState W) (r : result ValidationOutcome CoreError) (s' : CoreState W) : Prop :=
  cm_switching_profile s' = false /\ ve_draft (cm_profiles s') = None /\
  exists before after, cm_others s = before ++ after ++ cm_others s' /\
    let list := landed before (ve_committed (cm_profiles s)) in
    match r with
    | Ok Valid =>
        ve_committed (cm_profiles s') = landed after (switched (current profiles) list) /\
        generated (cm_world s) (ve_committed (cm_runtime s'))
    | Ok _ =>
        ve_committed (cm_profiles s') = switched (current (ve_committed (cm_profiles s))) list /\
        ve_committed (cm_runtime s') = ve_committed (cm_runtime s)
    | Err _ =>
        (* another task changed the list at the moment of the exchange: its list stands, and
           the runtime configuration is already the one of the new profile *)
        (exists earlier f, before = earlier ++ [Some f]) /\ after = [] /\
        ve_committed (cm_profiles s') = list /\ is_some (current profiles) = true /\
        generated (cm_world s) (ve_committed (cm_runtime s'))
    end.

Section ends.
Variables (profiles : IProfiles) (s s1 : CoreState W) (fs : list (option (IProfiles -> IProfiles))).
Hypothesis Hothers : cm_others s = fs ++ cm_others s1.
Hypothesis Hlist : ve_committed (cm_profiles s1) = landed fs (ve_committed (cm_profiles s)).

Lemma restore_ends (k : CM W unit) o :
  o <> Valid -> ve_committed (cm_runtime s1) = ve_committed (cm_runtime s) ->
  (forall s2, wp k (fun r s3 => r = Ok tt /\ cm_profiles s3 = cm_profiles s2 /\ cm_others s3 = cm_others s2 /\
     cm_runtime s3 = cm_runtime s2) s2) ->
  wp (discard_and_restore (current (ve_committed (cm_profiles s))) ;! k ;! ret o)
    (fun r s' => switch_ended profiles s r (cm_set_switching_profile false s')) s1.
Proof.
  intros Ho Hr Hk. core_step. eapply wp_mono; [apply discard_and_restore_spec|].
  intros ? s2 (-> & Hd & Hoo & Hrr & Hc). core_step. eapply wp_mono; [apply Hk|].
  intros ? s3 (-> & Hp3 & Ho3 & Hr3). core_step. unfold switch_ended. cbn. rewrite Hp3, Ho3, Hr3, Hoo, Hrr, Hc, Hd, Hlist.
  split_and!; [done..|]. exists fs, []. split; [done|]. by destruct o.
Qed.

Lemma success_ends :
  cm_deadline s1 = None -> generated (cm_world s) (ve_committed (cm_runtime s1)) ->
  wp (handle_success (current profiles))
    (fun r s' => switch_ended profiles s r (cm_set_switching_profile false s')) s1.
Proof.
  intros Hd Hg. eapply wp_mono; [by apply handle_success_spec|].
  intros r s2 (Hdr & Hr & before & after & Ho & Hs). split; [done|]. split; [done|].
  exists (fs ++ before), after. rewrite landed_app, <- Hlist. split; [by rewrite Hothers, Ho, <- app_assoc|].
  cbn [cm_runtime cm_profiles cm_set_switching_profile]. rewrite Hr.
  destruct r as [o|e]; cbn in Hs; [destruct Hs as [-> Hs]; by split|].
  destruct Hs as (-> & Hs & Ht & earlier & f & ->). split_and!; try done. exists (fs ++ earlier), f. by rewrite app_assoc.
Qed.
End ends.

End runs.

(** * The running mode tells which process runs

    Whatever the manager does, as long as no future is dropped in the middle of it: the mode
    is Sidecar exactly when a child is held, and no other child of the manager is alive.
    Children whose termination
    the system refused are forgotten by the manager and may be alive as well.  A future that
    is dropped during a start breaks this, and so do a run file that cannot
    be written for the draft and a failed spawn for the file mode mask. *)

(** The children that are alive: a spawn adds one, a kill that succeeds ends one, and
    nothing else adds any. *)
Class ProcessLaws (W : Type) `{CoreOs W} := {
  alive : W -> gset Z;
  law_alive_spawn core dir path ipc w :
    alive (co_spawn core dir path ipc w).2 ⊆
      alive w ∪ match (co_spawn core dir path ipc w).1 with Ok pid => {[pid]} | Err _ => ∅ end;
  law_alive_kill pid w :
    alive (co_kill pid w).2 ⊆ match (co_kill pid w).1 with Ok _ => alive w ∖ {[pid]} | Err _ => alive w end;
  law_alive_create_job pid w : alive (co_create_job pid w).2 ⊆ alive w;
  law_alive_close_job job w : alive (co_close_job job w) ⊆ alive w;
  law_alive_output core args w : alive (os_core_output core args w).2 ⊆ alive w;
  law_alive_enhance w : alive (co_enhance w).2 ⊆ alive w;
  law_alive_save_yaml path c w : alive (co_save_yaml path c w).2 ⊆ alive w;
  law_alive_save_verge v w : alive (co_save_verge v w).2 ⊆ alive w;
  law_alive_save_profiles p w : alive (co_save_profiles p w).2 ⊆ alive w;
  law_alive_reload path w : alive (co_reload_config path w).2 ⊆ alive w;
  law_alive_clear_logs w : alive (co_clear_logs w) ⊆ alive w;
  law_alive_sleep t w : alive (co_sleep t w) ⊆ alive w;
  law_alive_ready w : alive (co_service_ready w).2 ⊆ alive w;
  law_alive_run path w : alive (co_service_run path w).2 ⊆ alive w;
  law_alive_stop w : alive (co_service_stop w).2 ⊆ alive w;
  law_alive_init w : alive (co_service_init w).2 ⊆ alive w;
  law_alive_refresh w : alive (co_service_refresh w).2 ⊆ alive w;
  law_alive_activate w : alive (co_activate_nodes w) ⊆ alive w;
  law_alive_notify p w : alive (co_notify_profile_changed p w) ⊆ alive w;
}.

Create HintDb alive.
#[export] Hint Resolve law_alive_create_job law_alive_close_job law_alive_output law_alive_enhance law_alive_save_yaml
  law_alive_save_verge law_alive_save_profiles law_alive_reload law_alive_clear_logs law_alive_sleep law_alive_ready
  law_alive_run law_alive_stop law_alive_init law_alive_refresh law_alive_activate law_alive_notify : alive.

Section processes.
Context {W : Type} `{HL : ProcessLaws W} `{MappingLib} (windows : bool).
Implicit Types s : CoreState W.

(** ** methods that keep mode and child *)

(** Mode [m], child [c], no child alive outside [A] and those that could not be killed,
    and no time-out pending. *)
Record stands (m : RunningMode) (c : option Z) (A : gset Z) (s : CoreState W) : Prop := {
  st_mode : cm_running_mode s = m;
  st_child : cm_child_sidecar s = c;
  st_alive : alive (cm_world s) ⊆ A ∪ cm_unkilled s;
  st_deadline : cm_deadline s = None;
}.

(** From [P] the method ends in [P], not dropped. *)
Definition settles (P : CoreState W -> Prop) {A} (m : CM W A) : Prop :=
  forall s, P s -> wp m (fun r s' => P s' /\ r <> Err Dropped) s.

Section rules.
Context (P : CoreState W -> Prop).
Lemma settles_ret {A} (a : A) : settles P (ret a).
Proof. by intros s. Qed.
Lemma settles_failed {A} e : settles P (raise (Failed e) : CM W A).
Proof. by intros s. Qed.
Lemma settles_lift {A} (r : result A string) : settles P (lift (failed r)).
Proof. intros s. by destruct r. Qed.
Lemma settles_get : settles P (get : CM W (CoreState W)).
Proof. by intros s. Qed.
Lemma settles_look {A} (f : W -> A) : settles P (look f).
Proof. by intros s. Qed.
Lemma settles_modify f : (forall s, P s -> P (f s)) -> settles P (modify f : CM W unit).
Proof. intros Hf s Hs. by split; [apply Hf|]. Qed.
Lemma settles_bind {A B} (m : CM W A) (k : A -> CM W B) :
  settles P m -> (forall a, settles P (k a)) -> settles P (bind m k).
Proof.
  intros Hm Hk s Hs. core_step. eapply wp_mono; [by apply Hm|]. intros [a|e] s1 [H1 Hr]; [by apply Hk|]. split; [done|].
  intros [= ->]. done.
Qed.
Lemma settles_caught {A} (m : CM W A) : settles P m -> settles P (caught m).
Proof.
  intros Hm s Hs. core_step. eapply wp_mono; [by apply Hm|].
  intros [a|[e|]] s1 [H1 Hr]; [by split..|]. by destruct Hr.
Qed.
Lemma settles_defer {A} fin (m : CM W A) : (forall s, P s -> P (fin s)) -> settles P m -> settles P (defer fin m).
Proof. intros Hf Hm s Hs. core_step. eapply wp_mono; [by apply Hm|]. intros r s1 [H1 Hr]. by split; [apply Hf|]. Qed.
End rules.

Lemma settles_await {A} m c B (op : W -> A * W) :
  (forall w, alive (op w).2 ⊆ alive w) -> settles (stands m c B) (await op).
Proof.
  intros Ha s [Hm Hc Hal Hd]. apply wp_await_forever; [done|]. split; [|done].
  split; cbn; autorewrite with land; [done..| |done]. etransitivity; [apply Ha|done].
Qed.

Lemma settles_call {A} m c B (op : W -> A * W) :
  (forall w, alive (op w).2 ⊆ alive w) -> settles (stands m c B) (call op).
Proof. intros Ha s [Hm Hc Hal Hd]. core_step. split; [|done]. split; cbn; try done. etransitivity; [apply Ha|done]. Qed.

Ltac settle :=
  repeat match goal with
    | |- settles _ (bind _ _) => apply settles_bind; [|intros ?]
    | |- settles _ (caught _) => apply settles_caught
    | |- settles _ (defer _ _) => apply settles_defer; [by intros ? []|]
    | |- settles _ (modify _) => apply settles_modify; by intros ? []
    | |- settles _ (await _) => apply settles_await; intros ?; solve [cbn; auto with alive]
    | |- settles _ (call _) => apply settles_call; intros ?; solve [cbn; auto with alive]
    | |- settles _ (ret _) => apply settles_ret
    | |- settles _ (raise (Failed _)) => apply settles_failed
    | |- settles _ (lift (failed _)) => apply settles_lift
    | |- settles _ get => apply settles_get
    | |- settles _ (look _) => apply settles_look
    | |- settles _ (match ?x with _ => _ end) => destruct x
    | |- settles _ _ => solve [auto with alive nocore]
    | _ => progress cbv zeta
    end.

Lemma settles_generate_file m c B typ : settles (stands m c B) (generate_file typ).
Proof. unfold generate_file, home_dir, await_ok. settle. Qed.
Hint Resolve settles_generate_file : alive.

Lemma settles_validate m c B : settles (stands m c B) validate_config_outcome.
Proof. unfold validate_config_outcome, validate_config_internal_outcome, home_dir, await_ok. settle. Qed.
Hint Resolve settles_validate : alive.

Lemma set_job_handle_spec m c B h s :
  stands m c B s -> wp (set_job_handle h) (fun r s' => r = Ok tt /\ stands m c B s') s.
Proof.
  intros [Hm Hc Ha Hd]. unfold set_job_handle. calm_steps.
  destruct (cm_job_handle s) as [old|]; calm_steps; (split; [done|]); split; cbn; try done.
  etransitivity; [apply law_alive_close_job|done].
Qed.
Lemma settles_set_job m c B h : settles (stands m c B) (set_job_handle h).
Proof. unfold set_job_handle. settle. Qed.
Hint Resolve settles_set_job : alive.

Lemma settles_attempts m c B n : settles (stands m c B) (service_attempts n).
Proof. induction n; cbn [service_attempts]; unfold service_attempt, wait_unit; settle. Qed.
Hint Resolve settles_attempts : alive.

Lemma settles_wait m c B : settles (stands m c B) wait_for_service_if_needed.
Proof. unfold wait_for_service_if_needed, tun_enabled. settle. Qed.

(** ** starting and stopping *)

Definition idle (m : RunningMode) : CoreState W -> Prop := stands m None ∅.

(** The invariant. *)
Definition mode_tells (s : CoreState W) : Prop :=
  exists m c, stands m c (match c with Some pid => {[pid]} | None => ∅ end) s /\ (m = ModeSidecar <-> is_some c = true).

(** A kill leaves no child that is not accounted for. *)
Lemma kill_child_spec m pid s :
  stands m None {[pid]} s -> wp (kill_child pid) (fun r s' => idle m s' /\ exists killed, r = Ok killed) s.
Proof.
  intros [Hm Hc Ha Hd]. unfold kill_child. core_step. core_step. pose proof (law_alive_kill pid (cm_world s)) as Hk.
  destruct (co_kill pid (cm_world s)) as [[[]|e] w']; cbn in *; calm_steps;
    (split; [|eauto]); split; cbn in *; try done; set_solver.
Qed.

Lemma start_by_sidecar_spec m s :
  idle m s -> wp (start_core_by_sidecar windows) (fun r s' =>
    match r with Ok _ => mode_tells s' /\ cm_running_mode s' = ModeSidecar | Err (Failed _) => idle m s' | Err Dropped => False end) s.
Proof.
  intros Hs. unfold start_core_by_sidecar. core_step. eapply wp_mono; [by apply settles_generate_file|].
  intros [path|[e|]] s1 [Hs1 Hr1]; [|done|by destruct Hr1]. calm_steps.
  destruct (co_home_dir (cm_world s1)) as [dir|e]; cbn; [|done]. core_step.
  eapply (wp_mono _ (fun r s2 => idle m s2 /\ exists mask, r = Ok mask)).
  { destruct Hs1. destruct windows; calm_steps; (split; [done|eauto]). }
  intros ? s2 [Hs2 [mask ->]]. core_step. core_step.
  eapply (wp_mono _ (fun r s3 => match r with
    | Ok pid => stands m None {[pid]} s3 | Err (Failed _) => idle m s3 | Err Dropped => False end)).
  { destruct Hs2 as [Hm Hc Ha Hd]. calm_steps. set (core := get_valid_clash_core _).
    pose proof (law_alive_spawn core dir path co_controller_ipc (cm_world s2)) as Hlaw.
    destruct (co_spawn core dir path co_controller_ipc (cm_world s2)) as [[pid|e] w'] eqn:Es; cbn in *;
      split; cbn; try done; set_solver. }
  intros [pid|[e|]] s3 Hs3; [|done|done]. core_step.
  eapply (wp_mono _ (fun r s4 => match r with
    | Ok _ => stands m None {[pid]} s4 | Err (Failed _) => idle m s4 | Err Dropped => False end)).
  { destruct windows; [|destruct Hs3; by calm_steps]. unfold assign_job. calm_steps.
    pose proof (law_alive_create_job pid (cm_world s3)) as Hj. destruct (co_create_job pid (cm_world s3)) as [[job|e] w'].
    - eapply wp_mono; [apply (set_job_handle_spec m None {[pid]})|by intros ? s4 [-> Hs4]].
      destruct Hs3. split; cbn in *; try done. by etransitivity.
    - cbn. calm_steps. eapply wp_mono; [apply (kill_child_spec m pid)|by intros ? s4 [Hs4 [killed ->]]].
      destruct Hs3. split; cbn in *; try done. by etransitivity. }
  intros [[]|[e|]] s4 Hs4; [|done|done]. destruct Hs4. calm_steps. cbn. split; [|done].
  exists ModeSidecar, (Some pid). split; [by split|done].
Qed.

(** A start ends with the mode that tells, or with an error and nothing changed. *)
Definition started_or (m : RunningMode) (r : result unit CoreError) (s' : CoreState W) : Prop :=
  match r with Ok _ => mode_tells s' | Err (Failed _) => idle m s' | Err Dropped => False end.

Lemma service_mode_tells s : idle ModeService s -> mode_tells s.
Proof. intros Hs. by exists ModeService, None. Qed.
Lemma not_running_tells s : idle ModeNotRunning s -> mode_tells s.
Proof. intros Hs. by exists ModeNotRunning, None. Qed.

Lemma retries_spec m n last path s : idle m s -> wp (service_start_retries n last path) (started_or m) s.
Proof.
  revert last s. induction n as [|n IH]; intros last s Hs; cbn [service_start_retries]; [by calm_steps|].
  core_step. eapply wp_mono; [by apply (settles_await m None ∅); auto with alive|].
  intros [[[]|e]|[e|]] s1 [Hs1 Hr]; [|core_step|done|by destruct Hr].
  - calm_steps. apply service_mode_tells. by destruct Hs1.
  - eapply wp_mono; [by apply (settles_await m None ∅); cbn; auto with alive|].
    intros [[]|[e'|]] s2 [Hs2 Hr2]; [by apply IH|done|by destruct Hr2].
Qed.

Lemma start_by_service_spec m s : idle m s -> wp (start_core_by_service windows) (started_or m) s.
Proof.
  intros Hs. unfold start_core_by_service. core_step. eapply wp_mono; [by apply settles_generate_file|].
  intros [path|[e|]] s1 [Hs1 Hr1]; [|done|by destruct Hr1]. destruct windows; [by apply retries_spec|].
  calm_steps. eapply wp_mono; [by apply (settles_await m None ∅); auto with alive|].
  intros [r|[e|]] s2 [Hs2 Hr2]; [|done|by destruct Hr2]. calm_steps. destruct r as [[]|e]; cbn; [|done].
  calm_steps. apply service_mode_tells. by destruct Hs2.
Qed.

Lemma stop_by_sidecar_spec s : mode_tells s -> wp (stop_core_by_sidecar windows) (fun r s' => r = Ok tt /\ idle ModeNotRunning s') s.
Proof.
  intros (m & c & [Hm Hc Ha Hd] & _). unfold stop_core_by_sidecar, take_child_sidecar. calm_steps.
  rewrite Hc. destruct c as [pid|]; [|by calm_steps]. core_step.
  eapply (wp_mono _ (fun r s1 => r = Ok tt /\ stands m None {[pid]} s1)).
  { destruct windows; [by apply set_job_handle_spec|by calm_steps]. }
  intros ? s1 [-> Hs1]. core_step. eapply wp_mono; [by apply (kill_child_spec m pid)|].
  intros ? s2 [[] [killed ->]]. calm_steps. by split.
Qed.

Lemma settles_telling {A} (m : CM W A) :
  (forall mode c B, settles (stands mode c B) m) -> settles mode_tells m.
Proof.
  intros Hm s (mode & c & Hs & Hc). eapply wp_mono; [by eapply Hm|]. intros r s' [Hs' Hr]. split; [by exists mode, c|done].
Qed.

Lemma start_core_inner_telling : settles mode_tells (start_core_inner windows).
Proof.
  intros s Hs. unfold start_core_inner. calm_steps. destruct (os_is_exiting (cm_world s)); [by split|]. calm_steps.
  destruct (bool_decide_reflect (cm_running_mode s = ModeNotRunning)) as [Hm|Hm]; cbn [negb]; [|by split].
  assert (Hidle : idle ModeNotRunning s).
  { destruct Hs as (m & c & Hst & Hmc). assert (m = ModeNotRunning) as -> by (rewrite <- Hm; symmetry; apply Hst).
    destruct c; [|done]. by destruct Hmc as [_ Hmc]; specialize (Hmc eq_refl). }
  core_step. eapply (wp_mono _ (fun r s1 => match r with
    | Ok _ => exists m, idle m s1 | Err (Failed _) => idle ModeNotRunning s1 | Err Dropped => False end)).
  { unfold prepare_startup. core_step. eapply (wp_mono _ (fun r s1 => idle ModeNotRunning s1 /\ r <> Err Dropped)).
    - destruct windows; [|by calm_steps]. apply (settles_wait ModeNotRunning None ∅). done.
    - intros [[]|[e|]] s1 [[Hm1 Hc1 Ha1 Hd1] Hr]; [|done|by destruct Hr].
      core_step. apply wp_await_forever; [done|]. calm_steps.
      eexists. split; cbn; autorewrite with land; try done. etransitivity; [apply law_alive_ready|done]. }
  intros [[]|[e|]] s1 Hs1; [destruct Hs1 as [m Hs1]|by split; [apply not_running_tells|]|done]. calm_steps. destruct (os_is_exiting (cm_world s1)).
  { calm_steps. split; [|done]. apply not_running_tells. by destruct Hs1. }
  calm_steps. eapply (wp_mono _ (started_or m)).
  { destruct (cm_running_mode s1); [by apply start_by_service_spec|..];
      (eapply wp_mono; [by apply start_by_sidecar_spec|]); by intros [[]|[e|]] s2 Hs2; [destruct Hs2|..]. }
  intros [[]|[e|]] s2 Hs2; [|calm_steps|done].
  - calm_steps. assert (mode_tells (after_core_process s2)) as Ht.
    { destruct Hs2 as (m' & c & [] & Hmc). exists m', c. by split. }
    destruct (_ && _); [|by split]. unfold spawn_service_handoff_watcher, tun_enabled. calm_steps.
    case_bool_decide; calm_steps; (split; [|done]); [|exact Ht].
    destruct Hs2 as (m' & c & [] & Hmc). exists m', c. by split.
  - split; [|done]. apply not_running_tells. by destruct Hs2.
Qed.

Lemma stop_core_inner_telling : settles mode_tells (stop_core_inner windows).
Proof.
  unfold stop_core_inner. apply settles_bind; [apply settles_telling; intros; unfold wait_unit; settle|intros _].
  intros s Hs. calm_steps. destruct (cm_running_mode s) eqn:Em.
  - unfold stop_core_by_service. calm_steps. assert (Hidle : idle ModeService s).
    { destruct Hs as (m & c & Hst & Hmc). assert (m = ModeService) as -> by (rewrite <- Em; symmetry; apply Hst).
      destruct c; [|done]. by destruct Hmc as [_ Hmc]; specialize (Hmc eq_refl). }
    destruct Hidle as [Hm Hc Ha Hd]. apply wp_await_forever; [done|]. calm_steps.
    assert (alive (co_service_stop (cm_world s)).2 ⊆ ∅ ∪ cm_unkilled s) by (etransitivity; [apply law_alive_stop|done]).
    destruct (co_service_stop (cm_world s)) as [[[]|e] w']; cbn; (split; [|done]); apply not_running_tells;
      split; cbn; autorewrite with land; done.
  - eapply wp_mono; [by apply stop_by_sidecar_spec|]. intros ? s1 [-> []]. split; [|done]. by apply not_running_tells.
  - calm_steps. split; [|done]. destruct Hs as (m & c & [] & Hmc). exists m, c. by split.
Qed.

Lemma lock_telling : settles mode_tells (lifecycle_lock (W := W)).
Proof. apply settles_telling. intros. unfold lifecycle_lock, wait_unit. settle. Qed.

Lemma restart_telling : settles mode_tells (restart_core windows).
Proof.
  unfold restart_core. apply settles_bind; [apply lock_telling|intros _].
  apply settles_bind; [apply stop_core_inner_telling|intros _]. apply start_core_inner_telling.
Qed.

Create HintDb telling.

(** The sidecar is stopped, the service started, and on failure the sidecar again. *)
Lemma hand_over_telling : settles mode_tells
  (stop_core_by_sidecar windows ;!
   let! started := caught (start_core_by_service windows) in
   match started with
   | Ok _ => ret HandoffDone
   | Err _ => let! _ := caught (start_core_by_sidecar windows) in ret HandoffFailed
   end).
Proof.
  intros s Hs. core_step. eapply wp_mono; [by apply stop_by_sidecar_spec|]. intros ? s1 [-> Hs1].
  core_step. core_step. eapply wp_mono; [by apply start_by_service_spec|].
  intros [[]|[e|]] s2 Hs2; [by calm_steps| |done]. calm_steps. eapply wp_mono; [by apply start_by_sidecar_spec|].
  intros [[]|[e'|]] s3 Hs3; [|calm_steps|done]; (split; [|done]); [apply Hs3|by apply not_running_tells].
Qed.

Lemma timeout_telling {A} (m : CM W A) : settles mode_tells m -> settles mode_tells (timeout None m).
Proof.
  intros Hm s Hs. apply wp_timeout. assert (Hs0 : mode_tells (cm_set_deadline None s)).
  { destruct Hs as (m0 & c & [] & Hmc). exists m0, c. by split. }
  eapply wp_mono; [by apply Hm|]. intros [a|[e|]] s1 [Hs1 Hr]; [| |by destruct Hr];
    (split; [|done]); destruct Hs1 as (m0 & c & [] & Hmc); exists m0, c; by split.
Qed.

(** The landing of other tasks' changes does not concern the core. *)
Lemma land_telling (s : CoreState W) : mode_tells s -> mode_tells (land s).
Proof. intros (m & c & [] & Hmc). exists m, c. split; [|done]. split; autorewrite with land; done. Qed.

(** The same for methods that may start or stop the core on the way. *)
Ltac tell :=
  repeat match goal with
    | |- settles _ (bind (stop_core_by_sidecar _) _) => apply hand_over_telling
    | |- settles _ (bind _ _) => apply settles_bind; [|intros ?]
    | |- settles _ (caught _) => apply settles_caught
    | |- settles _ (defer _ _) => apply settles_defer; [intros ? (? & ? & [] & ?); do 2 eexists; by split|]
    | |- settles _ (modify land) => apply settles_modify; apply land_telling
    | |- settles _ (modify _) => apply settles_modify; intros ? (? & ? & [] & ?); do 2 eexists; by split
    | |- settles _ (timeout None _) => apply timeout_telling
    | |- settles _ (await _) => apply settles_telling; intros; settle
    | |- settles _ (call _) => apply settles_telling; intros; settle
    | |- settles _ (ret _) => apply settles_ret
    | |- settles _ (raise (Failed _)) => apply settles_failed
    | |- settles _ (lift (failed _)) => apply settles_lift
    | |- settles _ get => apply settles_get
    | |- settles _ (look _) => apply settles_look
    | |- settles _ (match ?x with _ => _ end) => destruct x
    | |- settles _ (wait_unit _) => unfold wait_unit
    | |- settles _ (generate_file _) => apply settles_telling; intros; apply settles_generate_file
    | |- settles _ validate_config_outcome => apply settles_telling; intros; apply settles_validate
    | |- settles _ _ => solve [auto with telling nocore]
    | _ => progress cbv zeta
    end.
Hint Resolve restart_telling start_core_inner_telling stop_core_inner_telling lock_telling : telling.

Lemma handoff_telling : settles mode_tells (try_handoff_sidecar_to_service windows).
Proof. unfold try_handoff_sidecar_to_service, try_start_config_update, finish_config_update, tun_enabled. tell. Qed.
Hint Resolve handoff_telling : telling.

Lemma apply_generate_telling : settles mode_tells (apply_generate_config_inner windows).
Proof. unfold apply_generate_config_inner, apply_config, on_runtime. tell. Qed.
Hint Resolve apply_generate_telling : telling.

Lemma update_telling force : settles mode_tells (update_config_with_force windows force).
Proof.
  unfold update_config_with_force, try_start_config_update, should_update_config, finish_config_update,
    manager_perform_config_update, generate, on_runtime, await_ok. tell.
Qed.
Hint Resolve update_telling : telling.

Lemma restore_telling prev : settles mode_tells (discard_and_restore prev : CM W unit).
Proof. unfold discard_and_restore, restore_previous_profile, on_profiles. tell. Qed.
Hint Resolve restore_telling : telling.

Lemma success_telling target : settles mode_tells (handle_success target : CM W _).
Proof.
  unfold handle_success, commit_current_profile, on_profiles. tell.
Qed.
Hint Resolve success_telling : telling.

Lemma switch_telling profiles : settles mode_tells (patch_profiles_config windows None profiles).
Proof.
  unfold patch_profiles_config, perform_config_update, handle_validation_failure, handle_update_error, handle_timeout,
    send_notice, notice_message, on_profiles, update_config_forced.
  tell.
Qed.
Hint Resolve switch_telling : telling.

(** ** every operation of the manager *)

Inductive CoreOp : Type :=
| OpStart | OpStop | OpRestart | OpHandoff | OpUpdate (force : bool) | OpUpdateRuntime (f : IRuntime -> IRuntime)
| OpChangeCore (clash_core : string) | OpUseDefault (key message : string) | OpBoot | OpSwitch (profiles : IProfiles).

Definition finished {A} (m : CM W A) : CM W unit := let! _ := caught m in ret tt.

Definition core_op (op : CoreOp) : CM W unit :=
  match op with
  | OpStart => finished (start_core windows)
  | OpStop => finished (stop_core windows)
  | OpRestart => finished (restart_core windows)
  | OpHandoff => finished (try_handoff_sidecar_to_service windows)
  | OpUpdate force => finished (update_config_with_force windows force)
  | OpUpdateRuntime f => finished (update_runtime_config windows f)
  | OpChangeCore c => finished (change_core windows c)
  | OpUseDefault key message => finished (use_default_config key message)
  | OpBoot => finished generate_and_validate
  | OpSwitch profiles => finished (patch_profiles_config windows None profiles)
  end.

Fixpoint core_run (ops : list CoreOp) (s : CoreState W) : CoreState W :=
  match ops with [] => s | op :: ops => core_run ops (core_op op s).2 end.

Lemma use_default_telling key message : settles mode_tells (use_default_config key message : CM W unit).
Proof. unfold use_default_config, home_dir, on_runtime, await_ok, notice_message. tell. Qed.
Hint Resolve use_default_telling : telling.

Lemma core_op_telling op : settles mode_tells (core_op op).
Proof.
  destruct op; unfold core_op, finished, start_core, stop_core, update_runtime_config, change_core, update_config_checked,
    update_config_forced, try_start_config_update, finish_config_update, generate_and_validate, generate, on_runtime, on_verge,
    await_ok; tell.
Qed.

End processes.

(** ** where the code falls short *)

Section shortcomings.
Context {W : Type} `{HL : ProcessLaws W} `{MappingLib}.
Implicit Types s : CoreState W.

Lemma wp_await_before {A} (op : W -> A * W) n b (Q : result A CoreError -> CoreState W -> Prop) s :
  cm_deadline s = Some (S n, b) ->
  Q (Ok (op (cm_world s)).1) (cm_set_world (op (cm_world s)).2 (cm_set_deadline (Some (n, b)) (land s))) -> wp (await op) Q s.
Proof.
  intros Hd HQ. unfold wp, await. cbn zeta. rewrite land_deadline, Hd, land_world. by destruct (op (cm_world s)).
Qed.

Lemma wp_await_dropped {A} (op : W -> A * W) (Q : result A CoreError -> CoreState W -> Prop) s :
  cm_deadline s = Some (O, false) -> Q (Err Dropped) (land s) -> wp (await op) Q s.
Proof. intros Hd HQ. unfold wp, await. cbn zeta. by rewrite land_deadline, Hd. Qed.

(** A start that finds a mode does nothing. *)
Lemma start_core_noop s :
  cm_deadline s = None -> cm_running_mode s <> ModeNotRunning -> start_core false s = (Ok tt, land s).
Proof.
  intros Hd Hm. unfold start_core, lifecycle_lock, wait_unit, bind, await. cbn zeta. rewrite land_deadline, Hd.
  replace (cm_set_world (cm_world (land s)) (land s)) with (land s) by (by destruct (land s)).
  unfold start_core_inner, bind, look, get. destruct (os_is_exiting _); [done|].
  rewrite land_mode, bool_decide_eq_false_2 by done. done.
Qed.

Lemma stop_core_inner_run s pid n :
  cm_running_mode s = ModeSidecar -> cm_child_sidecar s = Some pid -> cm_deadline s = Some (S n, false) ->
  wp (stop_core_inner false) (fun r s' => r = Ok tt /\ cm_running_mode s' = ModeNotRunning /\
    cm_child_sidecar s' = None /\ cm_deadline s' = Some (n, false) /\ cm_runtime s' = cm_runtime s /\
    cm_world s' = (co_kill pid (co_clear_logs (cm_world s))).2) s.
Proof.
  intros Hm Hc Hd. unfold stop_core_inner. calm_steps. eapply wp_await_before; [done|]. calm_steps.
  cbn [cm_running_mode cm_set_world cm_set_deadline]. rewrite land_mode, Hm.
  unfold stop_core_by_sidecar, take_child_sidecar. calm_steps.
  cbn [cm_child_sidecar cm_set_world cm_set_deadline]. rewrite land_child, Hc. unfold kill_child. calm_steps.
  case_match; calm_steps; split_and!; try done; cbn; autorewrite with land; done.
Qed.

(** A stop for which the system refuses to end the child answers success and has forgotten
    the child. *)
Theorem refused_kill_forgets_the_child s pid e w :
  cm_running_mode s = ModeSidecar -> cm_child_sidecar s = Some pid -> cm_deadline s = None ->
  co_kill pid (co_clear_logs (cm_world s)) = (Err e, w) ->
  exists s', stop_core false s = (Ok tt, s') /\ cm_running_mode s' = ModeNotRunning /\ cm_child_sidecar s' = None /\
    cm_world s' = w /\ pid ∈ cm_unkilled s'.
Proof.
  intros Hm Hc Hd Hk.
  assert (Hrun : wp (stop_core false) (fun r s' => r = Ok tt /\ cm_running_mode s' = ModeNotRunning /\
    cm_child_sidecar s' = None /\ cm_world s' = w /\ pid ∈ cm_unkilled s') s).
  { unfold stop_core, lifecycle_lock, stop_core_inner. calm_steps. apply wp_await_forever; [done|]. calm_steps.
    apply wp_await_forever; [cbn; by rewrite land_deadline|]. calm_steps.
    cbn [cm_running_mode cm_set_world]. rewrite land_mode. cbn [cm_running_mode cm_set_world]. rewrite land_mode, Hm.
    unfold stop_core_by_sidecar, take_child_sidecar. calm_steps.
    cbn [cm_child_sidecar cm_set_world]. rewrite land_child. cbn [cm_child_sidecar cm_set_world]. rewrite land_child, Hc.
    unfold kill_child. calm_steps. cbn [cm_world cm_set_world cm_set_child_sidecar fst snd]. rewrite Hk. cbn [fst snd]. calm_steps.
    split_and!; try done. cbn. set_solver. }
  unfold wp in Hrun. destruct (stop_core false s) as [r s']. cbn in Hrun. exists s'. destruct Hrun as (-> & ?). done.
Qed.

(** A start under a deadline that ends at its second wait. *)
Lemma start_core_inner_dropped s dir config :
  let w := (co_service_ready (cm_world s)).2 in
  os_is_exiting (cm_world s) = false -> os_is_exiting w = false -> co_home_dir w = Ok dir -> chosen s = Some config ->
  cm_running_mode s = ModeNotRunning -> cm_child_sidecar s = None -> cm_deadline s = Some (1%nat, false) ->
  wp (start_core_inner false) (fun r s' => r = Err Dropped /\ cm_running_mode s' <> ModeNotRunning /\
    cm_child_sidecar s' = None /\ cm_world s' = w) s.
Proof.
  intros w Hx Hx' Hdir Hch Hm Hc Hd. unfold start_core_inner. calm_steps. rewrite Hx. calm_steps. rewrite Hm.
  rewrite bool_decide_eq_true_2 by done. cbn [negb]. unfold prepare_startup. calm_steps.
  eapply wp_await_before; [done|]. calm_steps.
  set (mode := if _ : bool then ModeService else ModeSidecar). set (s1 := cm_set_running_mode mode _).
  assert (Hmode : cm_running_mode s1 <> ModeNotRunning) by (unfold s1, mode; cbn; by destruct (co_service_ready _).1).
  assert (Hw : cm_world s1 = w) by done. rewrite Hw, Hx'. calm_steps.
  assert (Hc1 : cm_child_sidecar s1 = None) by (unfold s1; cbn; by rewrite land_child).
  assert (Hch1 : chosen s1 = Some config) by (rewrite <- Hch; apply chosen_runtime; unfold s1; cbn; by rewrite land_runtime).
  assert (Hfile : wp (generate_file ConfigRun) (fun r s' => r = Err Dropped /\ s' = land s1) s1).
  { unfold generate_file. calm_steps. rewrite Hw, Hdir. cbn [failed map_err]. calm_steps. unfold chosen in Hch1. rewrite Hch1. calm_steps.
    by apply wp_await_dropped. }
  destruct (cm_running_mode s1) eqn:Em; [unfold start_core_by_service|unfold start_core_by_sidecar|done]; core_step;
    (eapply wp_mono; [exact Hfile|]); intros ? ? [-> ->]; cbn; autorewrite with land; by rewrite Em.
Qed.

(** C38: a restart of the core that is dropped by the time-out of a profile
    switch while the configuration file is written leaves the manager in a
    running mode with no child and no process alive, and a later start does
    nothing and answers success. *)
Theorem abandoned_restart_claims_a_core s pid dir config :
  let w := (co_kill pid (co_clear_logs (cm_world s))).2 in
  let w' := (co_service_ready w).2 in
  cm_running_mode s = ModeSidecar -> cm_child_sidecar s = Some pid -> alive (cm_world s) ⊆ {[pid]} ->
  pid ∉ alive w -> os_is_exiting w = false -> os_is_exiting w' = false -> co_home_dir w' = Ok dir -> chosen s = Some config ->
  (* the time is over while the new configuration file is written *)
  cm_deadline s = Some (3%nat, false) ->
  exists s', restart_core false s = (Err Dropped, s') /\
    cm_running_mode s' <> ModeNotRunning /\ cm_child_sidecar s' = None /\ alive (cm_world s') = ∅ /\
    exists s'', start_core false (cm_set_deadline None s') = (Ok tt, s'') /\
      cm_world s'' = cm_world s' /\ cm_child_sidecar s'' = None.
Proof.
  intros w w' Hm Hc Ha Hk Hx Hx' Hdir Hch Hd.
  assert (Hrun : wp (restart_core false) (fun r s' => r = Err Dropped /\ cm_running_mode s' <> ModeNotRunning /\
    cm_child_sidecar s' = None /\ cm_world s' = w') s).
  { unfold restart_core, lifecycle_lock. calm_steps. eapply wp_await_before; [done|]. calm_steps.
    eapply wp_mono; [apply (stop_core_inner_run _ pid 1); cbn; by autorewrite with land|].
    intros ? s1 (-> & Hm1 & Hc1 & Hd1 & Hr1 & Hw1). cbn in Hr1, Hw1. autorewrite with land in Hr1, Hw1.
    eapply wp_mono; [apply (start_core_inner_dropped s1 dir config); rewrite ?Hw1; try done|].
    - rewrite <- Hch. by apply chosen_runtime.
    - by rewrite Hw1. }
  unfold wp in Hrun. destruct (restart_core false s) as [r s'] eqn:Er. cbn in Hrun. destruct Hrun as (-> & Hm' & Hc' & Hw').
  exists s'. split_and!; try done.
  - rewrite Hw'. pose proof (law_alive_kill pid (co_clear_logs (cm_world s))) as Hlaw. pose proof (law_alive_clear_logs (cm_world s)).
    pose proof (law_alive_ready w). fold w in Hlaw. destruct (co_kill _ _).1; set_solver.
  - exists (land (cm_set_deadline None s')). split; [by apply start_core_noop|]. by autorewrite with land.
Qed.
(** When the run file cannot be written after a successful validation, the update fails but
    the draft stays: it is still what the next start or reload writes. *)
Theorem unwritable_run_file_keeps_the_draft windows s s1 dir config e w :
  validate_config_outcome s = (Ok Valid, s1) -> cm_deadline s1 = None ->
  co_home_dir (cm_world s1) = Ok dir -> chosen s = Some config ->
  co_save_yaml (file_path dir (config_name ConfigRun)) config (cm_world s1) = (Err e, w) ->
  exists s', apply_generate_config_inner windows s = (Err (Failed e), s') /\ cm_runtime s' = cm_runtime s.
Proof.
  intros Hv Hd Hdir Hch Hsave.
  assert (Hr : cm_runtime s1 = cm_runtime s).
  { change s1 with ((Ok (E := CoreError) Valid, s1).2). rewrite <- Hv.
    by apply (closed_validate _ (runtime_closed (cm_runtime s))). }
  assert (Hgen : generate_file ConfigRun s1 = (Err (Failed e), cm_set_world w (land s1))).
  { unfold generate_file, home_dir, bind, look, lift, get. rewrite Hdir. cbn [failed map_err].
    pose proof (chosen_runtime s s1 Hr) as Hc. unfold chosen in Hc, Hch. rewrite Hc, Hch.
    unfold await_ok, bind, await. cbn zeta. rewrite land_deadline, Hd, land_world, Hsave. done. }
  exists (cm_set_world w (land s1)). split; [|cbn; by rewrite land_runtime].
  unfold apply_generate_config_inner, bind at 1, caught. rewrite Hv. unfold bind at 1. by rewrite Hgen.
Qed.

(** When the core cannot be spawned, the file mode mask stays what it was set to for the
    child, and every file the application creates later is made with it. *)
Theorem failed_spawn_keeps_the_mask s s1 path dir e w :
  generate_file ConfigRun s = (Ok path, s1) -> co_home_dir (cm_world s1) = Ok dir ->
  co_spawn (get_valid_clash_core (ve_latest (cm_verge s1))) dir path co_controller_ipc (cm_world s1) = (Err e, w) ->
  exists s', start_core_by_sidecar false s = (Err (Failed e), s') /\ cm_umask s' = 7.
Proof.
  intros Hg Hdir Hspawn. exists (cm_set_world w (cm_set_umask 7 s1)). split; [|done].
  unfold start_core_by_sidecar, bind, home_dir, umask, look, lift, get, modify, bind. rewrite Hg, Hdir. cbn.
  unfold call_ok, call, bind. cbn. by rewrite Hspawn.
Qed.
End shortcomings.
