(* ===== verification/Hotkey.v ===== *)
(** * Hotkey: the global shortcuts

    [src-tauri/src/core/hotkey.rs]: the functions a shortcut can have and their names, what a
    press does, registration, and the update that registers the difference between the
    present list of hot keys and a new one.  A hot key is written [function,key].

    The shortcut manager of the windowing library is the class [ShortcutOs]; the order in
    which a [HashMap] is iterated is the class [MapOrder].  What the functions themselves do
    belongs to other components. *)

From Stdlib Require Import Ascii String.
From S2P Require Import Prelude Text Enhance.

Inductive HotkeyFunction : Type :=
| OpenOrCloseDashboard | ClashModeRule | ClashModeGlobal | ClashModeDirect | ToggleSystemProxy | ToggleTunMode
| EntryLightweightMode | ReactivateProfiles | Quit | Hide.

#[global] Instance HotkeyFunction_eq_dec : EqDecision HotkeyFunction.
Proof. solve_decision. Defined.

Definition hotkey_text (f : HotkeyFunction) : string :=
  match f with
  | OpenOrCloseDashboard => "open_or_close_dashboard"
  | ClashModeRule => "clash_mode_rule"
  | ClashModeGlobal => "clash_mode_global"
  | ClashModeDirect => "clash_mode_direct"
  | ToggleSystemProxy => "toggle_system_proxy"
  | ToggleTunMode => "toggle_tun_mode"
  | EntryLightweightMode => "entry_lightweight_mode"
  | ReactivateProfiles => "reactivate_profiles"
  | Quit => "quit"
  | Hide => "hide"
  end.

(** [Hide] exists on macOS only. *)
Definition hotkey_functions (macos : bool) : list HotkeyFunction :=
  [OpenOrCloseDashboard; ClashModeRule; ClashModeGlobal; ClashModeDirect; ToggleSystemProxy; ToggleTunMode;
   EntryLightweightMode; ReactivateProfiles; Quit] ++ (if macos then [Hide] else []).

Definition hotkey_from_str (macos : bool) (s : string) : option HotkeyFunction :=
  find (fun f => bool_decide (trim s = hotkey_text f)) (hotkey_functions macos).

Inductive SystemHotkey : Type := CmdQ | CmdW.
Definition system_text (h : SystemHotkey) : string := match h with CmdQ => "CMD+Q" | CmdW => "CMD+W" end.
Definition system_function (h : SystemHotkey) : HotkeyFunction := match h with CmdQ => Quit | CmdW => Hide end.

(** ** a press *)

Inductive ShortcutState : Type := Released | Pressed.

(** What the closure looks at when the key goes down. *)
Record PressView := {
  pv_key_is_q : bool;
  pv_window_focused : bool;          (* there is a main window and it has the focus *)
  pv_window_visible : bool;
  pv_enable_global_hotkey : option bool;
}.

(** Whether the function is executed, and the new value of [pressed]. *)
Definition on_shortcut_event (function : HotkeyFunction) (state : ShortcutState) (view : PressView) (pressed : bool)
  : bool * bool :=
  match state with
  | Released => (false, false)
  | Pressed =>
      if pressed then (false, true)
      else if pv_key_is_q view && bool_decide (function = Quit) then (pv_window_focused view, true)
      else if default true (pv_enable_global_hotkey view) then (true, true)
      else (pv_window_focused view && pv_window_visible view, true)
  end.

(** ** registration *)

Class ShortcutOs (W : Type) := {
  sc_is_registered : string -> W -> bool;
  sc_unregister : string -> W -> bool * W;
  sc_on_shortcut : string -> HotkeyFunction -> W -> bool * W;
  sc_unregister_all : W -> bool * W;
}.

Class MapOrder := { map_order : gmap string string -> list (string * string) }.
Class MapOrderLaws `{MapOrder} := { map_order_perm m : map_order m ≡ₚ map_to_list m }.

(** The first two parts between commas, the function and the key. *)
Definition hotkey_parts (hotkey : string) : option (string * string) :=
  match split hotkey ","%char with func :: key :: _ => Some (func, key) | _ => None end.

Definition get_map_from_vec (hotkeys : list string) : gmap string string :=
  fold_left (fun map hotkey => match hotkey_parts hotkey with
                               | Some (func, key) => <[trim key := trim func]> map
                               | None => map
                               end) hotkeys ∅.

Definition diff_old (new_map : gmap string string) (acc : list string * list (string * string)) (e : string * string)
  : list string * list (string * string) :=
  let '(del_list, add_list) := acc in
  match new_map !! e.1 with
  | Some new_func => if bool_decide (new_func = e.2) then acc else (del_list ++ [e.1], add_list ++ [(e.1, new_func)])
  | None => (del_list ++ [e.1], add_list)
  end.

Definition get_diff `{MapOrder} (old_map new_map : gmap string string) : list string * list (string * string) :=
  let '(del_list, add_list) := fold_left (diff_old new_map) (map_order old_map) ([], []) in
  (del_list, add_list ++ filter (fun e => old_map !! e.1 = None) (map_order new_map)).

Record Hotkey (W : Type) := { hk_current : list string; hk_world : W }.
Arguments hk_current {W} _.
Arguments hk_world {W} _.

Section hotkey.
Context {W : Type} `{ShortcutOs W} `{MapOrder} (macos : bool).

Definition hotkey_new (w : W) : Hotkey W := {| hk_current := []; hk_world := w |}.

Definition register_hotkey_with_function (hotkey : string) (function : HotkeyFunction) (w : W) : bool * W :=
  if sc_is_registered hotkey w
  then match sc_unregister hotkey w with
       | (true, w) => sc_on_shortcut hotkey function w
       | (false, w) => (false, w)
       end
  else sc_on_shortcut hotkey function w.

Definition register (hotkey func : string) (w : W) : bool * W :=
  match hotkey_from_str macos func with
  | Some function => register_hotkey_with_function hotkey function w
  | None => (false, w)
  end.

Definition unregister (hotkey : string) (w : W) : bool * W := sc_unregister hotkey w.

Definition register_system_hotkey (h : SystemHotkey) (w : W) : bool * W :=
  register_hotkey_with_function (system_text h) (system_function h) w.
Definition unregister_system_hotkey (h : SystemHotkey) (w : W) : bool * W := unregister (system_text h) w.

(** An invalid entry and one that cannot be registered are only logged. *)
Definition hotkey_init (skip : bool) (hotkeys : option (list string)) (hk : Hotkey W) : Hotkey W :=
  if skip then hk
  else match hotkeys with
       | None => hk
       | Some hotkeys =>
           {| hk_current := hotkeys;
              hk_world := fold_left (fun w hotkey => match hotkey_parts hotkey with
                                                     | Some (func, key) => (register key func w).2
                                                     | None => w
                                                     end) hotkeys (hk_world hk) |}
       end.

Definition hotkey_reset (hk : Hotkey W) : bool * Hotkey W :=
  let (ok, w) := sc_unregister_all (hk_world hk) in (ok, {| hk_current := hk_current hk; hk_world := w |}).

(** Registers until one fails. *)
Fixpoint register_list (l : list (string * string)) (w : W) : bool * W :=
  match l with
  | [] => (true, w)
  | (key, func) :: l => match register key func w with (true, w) => register_list l w | (false, w) => (false, w) end
  end.

Definition hotkey_update (new_hotkeys : list string) (hk : Hotkey W) : bool * Hotkey W :=
  let (del, add) := get_diff (get_map_from_vec (hk_current hk)) (get_map_from_vec new_hotkeys) in
  let w := fold_left (fun w key => (unregister key w).2) del (hk_world hk) in
  match register_list add w with
  | (true, w) => (true, {| hk_current := new_hotkeys; hk_world := w |})
  | (false, w) => (false, {| hk_current := hk_current hk; hk_world := w |})
  end.
End hotkey.

(** ** names *)

(** The name of a function reads back as the function, where the platform has it. *)
Theorem hotkey_names_read_back macos f : f ∈ hotkey_functions macos -> hotkey_from_str macos (hotkey_text f) = Some f.
Proof. destruct macos, f; intros Hin; try (vm_compute; reflexivity). by apply (bool_decide_eq_true_2 (_ ∈ _)) in Hin. Qed.

(** ** presses *)

(** A press that is held down executes the function at most once, whatever the manager
    repeats until the key is released. *)
Theorem repeated_press_is_ignored f view views pressed :
  let first := on_shortcut_event f Pressed view pressed in
  fold_left (fun acc v => let r := on_shortcut_event f Pressed v acc.2 in (acc.1 || r.1, r.2)) views first
    = (first.1, true).
Proof.
  cbn zeta. assert (Hf : (on_shortcut_event f Pressed view pressed).2 = true).
  { unfold on_shortcut_event. by repeat case_match. }
  destruct (on_shortcut_event f Pressed view pressed) as [done_ p]. cbn in Hf. subst p.
  induction views as [|v views IH]; [done|]. cbn. by rewrite orb_false_r.
Qed.

(** ** the difference *)

Section diff.
Context `{MapOrderLaws}.
Implicit Types old new : gmap string string.

(** A key of the old map whose function changes. *)
Definition moved new (e : string * string) : option (string * string) :=
  match new !! e.1 with
  | Some func => if bool_decide (func = e.2) then None else Some (e.1, func)
  | None => None
  end.

Lemma diff_old_spec new l : forall del add,
  fold_left (diff_old new) l (del, add) =
  (del ++ (filter (fun e => new !! e.1 <> Some e.2) l).*1, add ++ omap (moved new) l).
Proof.
  induction l as [|e l IH]; intros del add; cbn [fold_left omap list_omap].
  - by rewrite !app_nil_r.
  - rewrite filter_cons. unfold diff_old at 2. destruct (moved new e) as [p|] eqn:Hm; unfold moved in Hm;
      destruct (new !! e.1) as [func|] eqn:Hn; try case_bool_decide as Hf; simplify_eq.
    + rewrite decide_True by congruence. rewrite IH. cbn. by rewrite <- !app_assoc.
    + rewrite decide_False by (intros Hc; by apply Hc). apply IH.
    + rewrite decide_True by congruence. rewrite IH. cbn. by rewrite <- !app_assoc.
Qed.

Lemma map_order_elem m k v : (k, v) ∈ map_order m <-> m !! k = Some v.
Proof. rewrite map_order_perm. apply elem_of_map_to_list. Qed.

Lemma del_spec old new k : k ∈ (get_diff old new).1 <-> exists v, old !! k = Some v /\ new !! k <> Some v.
Proof.
  unfold get_diff. rewrite diff_old_spec. cbn. rewrite list_elem_of_fmap. split.
  - intros ([k' v] & -> & [Hn Hin]%list_elem_of_filter). apply map_order_elem in Hin. by exists v.
  - intros (v & Ho & Hn). exists (k, v). split; [done|]. apply list_elem_of_filter. by rewrite map_order_elem.
Qed.

Lemma add_spec old new k f : (k, f) ∈ (get_diff old new).2 <-> new !! k = Some f /\ old !! k <> Some f.
Proof.
  unfold get_diff. rewrite diff_old_spec. cbn. rewrite elem_of_app, list_elem_of_omap, list_elem_of_filter. split.
  - intros [([k' v] & Hin%map_order_elem & Hm)|[Ho Hin%map_order_elem]]; [|cbn in Ho; split; congruence].
    unfold moved in Hm. cbn in Hm. destruct (new !! k') as [g|] eqn:Hg; [|done].
    case_bool_decide; simplify_eq. split; congruence.
  - intros [Hn Ho]. destruct (old !! k) as [v|] eqn:Hk.
    + left. exists (k, v). rewrite map_order_elem. split; [done|]. unfold moved. cbn. rewrite Hn.
      by rewrite bool_decide_false by congruence.
    + right. by rewrite map_order_elem.
Qed.

Lemma get_diff_same m : get_diff m m = ([], []).
Proof.
  destruct (get_diff m m) as [del add] eqn:Hd. f_equal.
  - destruct del as [|k del]; [done|]. exfalso.
    assert (Hin : k ∈ (get_diff m m).1) by (rewrite Hd; left). apply del_spec in Hin as (v & ? & ?). done.
  - destruct add as [|[k f] add]; [done|]. exfalso.
    assert (Hin : (k, f) ∈ (get_diff m m).2) by (rewrite Hd; left). by apply add_spec in Hin as [? ?].
Qed.

Definition remove_keys (keys : list string) (m : gmap string string) : gmap string string :=
  fold_left (fun m k => delete k m) keys m.
Definition add_keys (l : list (string * string)) (m : gmap string string) : gmap string string :=
  fold_left (fun m e => <[e.1 := e.2]> m) l m.

Lemma remove_keys_lookup keys m k : remove_keys keys m !! k = if decide (k ∈ keys) then None else m !! k.
Proof.
  revert m. induction keys as [|k' keys IH]; intros m; [done|]. cbn.
  change (fold_left _ keys ?m') with (remove_keys keys m'). rewrite IH.
  destruct (decide (k = k')) as [->|Hne].
  - rewrite lookup_delete_eq. rewrite (decide_True (P := k' ∈ k' :: keys)) by left. by case_decide.
  - rewrite lookup_delete_ne by done. do 2 case_decide; set_solver.
Qed.

Lemma add_keys_lookup new l m k : (forall k f, (k, f) ∈ l -> new !! k = Some f) ->
  add_keys l m !! k = if decide (k ∈ l.*1) then new !! k else m !! k.
Proof.
  revert m. induction l as [|[k' f] l IH]; intros m Hl; [done|]. cbn [add_keys fold_left].
  change (fold_left _ l ?m') with (add_keys l m'). rewrite IH by set_solver. cbn.
  destruct (decide (k = k')) as [->|Hne].
  - rewrite lookup_insert_eq, (decide_True (P := k' ∈ k' :: l.*1)) by left.
    case_decide; [done|]. symmetry. apply Hl. left.
  - rewrite lookup_insert_ne by done. do 2 case_decide; set_solver.
Qed.

(** Unregistering the deleted and registering the added keys of the difference
    turns the old hot keys into the new ones, whatever order the maps are
    iterated in; a key with the same function in both is not touched. *)
Theorem hotkey_difference_is_exact old new :
  let (del, add) := get_diff old new in
  add_keys add (remove_keys del old) = new /\
  (forall k, k ∈ del -> is_Some (old !! k)) /\
  (forall k f, old !! k = Some f -> new !! k = Some f -> k ∉ del /\ k ∉ add.*1).
Proof.
  pose proof (del_spec old new) as Hd. pose proof (add_spec old new) as Ha.
  destruct (get_diff old new) as [del add]. cbn in Hd, Ha.
  assert (Hin : forall k, k ∈ add.*1 <-> exists f, new !! k = Some f /\ old !! k <> Some f).
  { intros k. rewrite list_elem_of_fmap. split.
    - intros ([k' f] & -> & Hf%Ha). by exists f.
    - intros (f & Hf%Ha). by exists (k, f). }
  split_and!.
  - apply map_eq. intros k. rewrite (add_keys_lookup new) by (intros ? ? ?; by apply Ha).
    rewrite remove_keys_lookup. case_decide as H1; [done|]. case_decide as H2.
    + apply Hd in H2 as (v & Ho & Hn). destruct (new !! k) as [f|] eqn:Hk; [|done].
      destruct H1. apply Hin. exists f. split; congruence.
    + destruct (new !! k) as [f|] eqn:Hk, (old !! k) as [g|] eqn:Ho; try done.
      * destruct (decide (f = g)) as [->|]; [done|]. destruct H1. apply Hin. exists f. split; congruence.
      * destruct H1. apply Hin. exists f. split; congruence.
      * destruct H2. apply Hd. exists g. by rewrite Hk.
  - intros k (v & Ho & _)%Hd. by exists v.
  - intros k f Ho Hn. split; [intros (v & ? & ?)%Hd|intros (g & ? & ?)%Hin]; congruence.
Qed.

(** After an update of the hot keys that fails, the record of the hot keys is
    the old one although its removed keys are unregistered, and asking for the
    old hot keys again does nothing. *)
Theorem failed_hotkey_update_cannot_be_undone {W} `{ShortcutOs W} macos new_hotkeys (hk : Hotkey W) :
  (hotkey_update macos new_hotkeys hk).1 = false ->
  let hk' := (hotkey_update macos new_hotkeys hk).2 in
  hk_current hk' = hk_current hk /\ hotkey_update macos (hk_current hk) hk' = (true, hk').
Proof.
  unfold hotkey_update at 1 2. destruct (get_diff _ _) as [del add]. destruct (register_list _ _ _) as [[] w]; [done|].
  intros _. cbn zeta. split; [done|]. unfold hotkey_update. by rewrite get_diff_same.
Qed.
End diff.
