(* ===== verification/AutoBackup.v ===== *)
(** * AutoBackup: automatic backups of the settings

    [src-tauri/src/module/auto_backup.rs].  A backup is made when a global profile changes
    and, if the user wants it, every so many hours by a task that is told of new settings
    over a [tokio::sync::watch] channel.  At most one backup is made in a minute; of the
    automatic backups the newest twenty are kept.

    The channel is modelled as its documentation has it: [send] fails and stores nothing
    while there is no receiver, and a receiver made by [subscribe] has seen the value of
    that moment.  The task and the triggers that wait for the lock take
    steps of their own, so that new settings and further triggers can come between them.  Making the archive, the directory and
    the wall clock are the class [BackupOs]. *)

From Stdlib Require Import Ascii String Sorted.
From S2P Require Import Prelude Text Validation Verge.

Definition DEFAULT_INTERVAL_HOURS : Z := 24.
Definition MIN_INTERVAL_HOURS : Z := 1.
Definition MAX_INTERVAL_HOURS : Z := 168.
Definition MIN_BACKUP_INTERVAL_SECS : Z := 60.
Definition AUTO_BACKUP_KEEP : nat := 20.
Definition AUTO_MARKER : string := "-auto-".

Inductive AutoBackupTrigger : Type := Scheduled | GlobalMerge | GlobalScript.

Definition slug (t : AutoBackupTrigger) : string :=
  match t with Scheduled => "scheduled" | GlobalMerge => "merge" | GlobalScript => "script" end.
Definition is_schedule (t : AutoBackupTrigger) : bool := match t with Scheduled => true | _ => false end.

Record AutoBackupSettings := { as_schedule_enabled : bool; as_interval_hours : Z; as_change_enabled : bool }.

Definition from_verge (verge : IVerge) : AutoBackupSettings :=
  let interval := default DEFAULT_INTERVAL_HOURS (iv_auto_backup_interval_hours verge) in
  {| as_schedule_enabled := default false (iv_enable_auto_backup_schedule verge);
     as_interval_hours := Z.max MIN_INTERVAL_HOURS (Z.min MAX_INTERVAL_HOURS interval);
     as_change_enabled := default true (iv_auto_backup_on_change verge) |}.

Definition AutoBackupSettings_default : AutoBackupSettings :=
  {| as_schedule_enabled := false; as_interval_hours := DEFAULT_INTERVAL_HOURS; as_change_enabled := true |}.

(** ** the backups in the directory *)

Record BackupEntry := {
  be_path : string;
  be_is_file : bool;
  be_name : option string;      (* [None]: not Unicode *)
  be_modified : Z;              (* seconds, 0 where it cannot be told *)
}.

Class BackupOs (W : Type) := {
  bo_timestamp : W -> Z;
  (* the local archive, named by the function given *)
  bo_create_local_backup : (string -> string) -> W -> result string string * W;
  bo_backup_dir : W -> result string string;
  bo_dir_exists : string -> W -> bool;
  (* the entries up to the end or an error, and whether the reading ended well; [None] when
     the directory cannot be opened *)
  bo_read_dir : string -> W -> option (list BackupEntry * bool);
  bo_remove_file : string -> W -> result unit string * W;
  bo_pass : Z -> W -> W;
}.

Definition append_auto_suffix (file_name slug : string) : string :=
  match rsplit_once file_name "."%char with
  | Some (stem, ext) =>
      String.append stem (String.append AUTO_MARKER (String.append slug (String.append "." ext)))
  | None => String.append file_name (String.append AUTO_MARKER slug)
  end.

(** The files the clean-up considers: path and time. *)
Definition auto_file (e : BackupEntry) : option (string * Z) :=
  if negb (be_is_file e) then None
  else match be_name e with
       | None => None
       | Some file_name =>
           if infix_bytes (bytes AUTO_MARKER) (bytes file_name) then Some (be_path e, be_modified e) else None
       end.

(** [sort_by_key], which is stable. *)
Fixpoint insert_by_time (f : string * Z) (l : list (string * Z)) : list (string * Z) :=
  match l with [] => [f] | g :: r => if f.2 <=? g.2 then f :: l else g :: insert_by_time f r end.
Definition sort_by_time (l : list (string * Z)) : list (string * Z) := foldr insert_by_time [] l.

Definition files_to_remove (files : list (string * Z)) : list (string * Z) :=
  if bool_decide (length files <= AUTO_BACKUP_KEEP)%nat then []
  else take (length files - AUTO_BACKUP_KEEP) (sort_by_time files).

Section backup.
Context {W : Type} `{BackupOs W}.

(** Whether it ended without an error; a file that cannot be removed is only logged. *)
Definition cleanup_auto_backups (w : W) : bool * W :=
  match bo_backup_dir w with
  | Err _ => (false, w)
  | Ok backup_dir =>
      if negb (bo_dir_exists backup_dir w) then (true, w)
      else match bo_read_dir backup_dir w with
           | None => (true, w)
           | Some (_, false) => (false, w)
           | Some (entries, true) =>
               (true, fold_left (fun w f => (bo_remove_file f.1 w).2) (files_to_remove (omap auto_file entries)) w)
           end
  end.

(** ** the manager *)

(** The scheduling task: before its first step, waiting for the channel, sleeping until a
    moment of the monotonic clock, inside [execute_trigger]; [seen] is the version its receiver has seen. *)
Inductive Runner : Type :=
| RunnerSpawned (seen : nat)
| RunnerWaiting (seen : nat)
| RunnerSleeping (current : AutoBackupSettings) (until : Z) (seen : nat)
| RunnerExecuting (current : AutoBackupSettings) (seen : nat).

Record AutoBackupManager := {
  am_world : W;
  am_clock : Z;
  am_settings : AutoBackupSettings;
  am_channel : AutoBackupSettings;
  am_version : nat;
  am_runner_started : bool;
  am_runner : option Runner;          (* the receiver lives in the task *)
  am_last_backup : Z;
  am_pending : list (AutoBackupTrigger * bool);   (* waiting for the lock; whether it is the task's *)
  am_backups : list (AutoBackupTrigger * Z);      (* what was made, the newest first *)
}.

Definition manager_global (w : W) : AutoBackupManager :=
  {| am_world := w; am_clock := 0; am_settings := AutoBackupSettings_default;
     am_channel := AutoBackupSettings_default; am_version := 0; am_runner_started := false; am_runner := None;
     am_last_backup := 0; am_pending := []; am_backups := [] |}.

Definition am_set_runner (r : option Runner) (m : AutoBackupManager) : AutoBackupManager :=
  {| am_world := am_world m; am_clock := am_clock m; am_settings := am_settings m; am_channel := am_channel m;
     am_version := am_version m; am_runner_started := am_runner_started m; am_runner := r;
     am_last_backup := am_last_backup m; am_pending := am_pending m;
     am_backups := am_backups m |}.

(** [watch::Sender::send] with its result ignored. *)
Definition channel_send (v : AutoBackupSettings) (m : AutoBackupManager) : AutoBackupManager :=
  match am_runner m with
  | None => m
  | Some _ =>
      {| am_world := am_world m; am_clock := am_clock m; am_settings := am_settings m; am_channel := v;
         am_version := S (am_version m); am_runner_started := am_runner_started m; am_runner := am_runner m;
         am_last_backup := am_last_backup m; am_pending := am_pending m;
     am_backups := am_backups m |}
  end.

Definition ensure_runner (m : AutoBackupManager) : AutoBackupManager :=
  if am_runner_started m then m
  else {| am_world := am_world m; am_clock := am_clock m; am_settings := am_settings m; am_channel := am_channel m;
          am_version := am_version m; am_runner_started := true; am_runner := Some (RunnerSpawned (am_version m));
          am_last_backup := am_last_backup m; am_pending := am_pending m;
     am_backups := am_backups m |}.

Definition maybe_start_runner (settings : AutoBackupSettings) (m : AutoBackupManager) : AutoBackupManager :=
  if as_schedule_enabled settings then ensure_runner m else m.

(** [refresh_settings]; [init] does the same. *)
Definition refresh_settings (verge : IVerge) (m : AutoBackupManager) : AutoBackupManager :=
  let settings := from_verge verge in
  let m := {| am_world := am_world m; am_clock := am_clock m; am_settings := settings; am_channel := am_channel m;
              am_version := am_version m; am_runner_started := am_runner_started m; am_runner := am_runner m;
              am_last_backup := am_last_backup m; am_pending := am_pending m;
     am_backups := am_backups m |} in
  maybe_start_runner settings (channel_send settings m).
Definition backup_init : IVerge -> AutoBackupManager -> AutoBackupManager := refresh_settings.

Definition saturating_i64_sub (a b : Z) : Z := Z.max (- i64_max - 1) (Z.min i64_max (a - b)).

Definition should_run_now (m : AutoBackupManager) : bool :=
  if am_last_backup m =? 0 then true
  else MIN_BACKUP_INTERVAL_SECS <=? saturating_i64_sub (bo_timestamp (am_world m)) (am_last_backup m).

Definition am_record (t : AutoBackupTrigger) (w : W) (m : AutoBackupManager) : AutoBackupManager :=
  {| am_world := (cleanup_auto_backups w).2; am_clock := am_clock m; am_settings := am_settings m;
     am_channel := am_channel m; am_version := am_version m; am_runner_started := am_runner_started m;
     am_runner := am_runner m; am_last_backup := bo_timestamp w; am_pending := am_pending m;
     am_backups := (t, bo_timestamp w) :: am_backups m |}.

Definition am_set_world (w : W) (m : AutoBackupManager) : AutoBackupManager :=
  {| am_world := w; am_clock := am_clock m; am_settings := am_settings m; am_channel := am_channel m;
     am_version := am_version m; am_runner_started := am_runner_started m; am_runner := am_runner m;
     am_last_backup := am_last_backup m; am_pending := am_pending m;
     am_backups := am_backups m |}.

Definition am_set_pending (p : list (AutoBackupTrigger * bool)) (m : AutoBackupManager) : AutoBackupManager :=
  {| am_world := am_world m; am_clock := am_clock m; am_settings := am_settings m; am_channel := am_channel m;
     am_version := am_version m; am_runner_started := am_runner_started m; am_runner := am_runner m;
     am_last_backup := am_last_backup m; am_pending := p; am_backups := am_backups m |}.

(** [execute_trigger] up to the lock: whether it goes on to take it. *)
Definition trigger_wanted (trigger : AutoBackupTrigger) (m : AutoBackupManager) : bool :=
  let snapshot := am_settings m in
  if is_schedule trigger && negb (as_schedule_enabled snapshot) then false
  else if negb (is_schedule trigger) && negb (as_change_enabled snapshot) then false
  else should_run_now m.

Definition begin_trigger (trigger : AutoBackupTrigger) (m : AutoBackupManager) : AutoBackupManager :=
  if trigger_wanted trigger m then am_set_pending (am_pending m ++ [(trigger, false)]) m else m.

(** The rest of it, holding the lock: the check is made again. *)
Definition locked_backup (trigger : AutoBackupTrigger) (m : AutoBackupManager) : AutoBackupManager :=
  if negb (should_run_now m) then m
  else
    match bo_create_local_backup (fun name => append_auto_suffix name (slug trigger)) (am_world m) with
    | (Err _, w) => am_set_world w m
    | (Ok _, w) => am_record trigger w m
    end.

(** The head of the loop in [run_scheduler]. *)
Definition runner_loop (current : AutoBackupSettings) (seen : nat) (m : AutoBackupManager) : AutoBackupManager :=
  am_set_runner (Some (if as_schedule_enabled current
                       then RunnerSleeping current (am_clock m + Z.min u64_max (as_interval_hours current * 3600)) seen
                       else RunnerWaiting seen)) m.

(** One step of the task, if it can take one; [changed_first] says which branch [select!]
    takes when both are ready.  The channel's sender is never dropped. *)
Definition runner_step (changed_first : bool) (m : AutoBackupManager) : AutoBackupManager :=
  match am_runner m with
  | None => m
  | Some (RunnerSpawned seen) => runner_loop (am_channel m) seen m
  | Some (RunnerWaiting seen) =>
      if bool_decide (seen = am_version m) then m else runner_loop (am_channel m) (am_version m) m
  | Some (RunnerSleeping current until seen) =>
      let changed := negb (bool_decide (seen = am_version m)) in
      let slept := until <=? am_clock m in
      if changed && (changed_first || negb slept) then runner_loop (am_channel m) (am_version m) m
      else if slept then
        if trigger_wanted Scheduled m
        then am_set_runner (Some (RunnerExecuting current seen))
               (am_set_pending (am_pending m ++ [(Scheduled, true)]) m)
        else runner_loop current seen m
      else m
  | Some (RunnerExecuting _ _) => m
  end.

(** A waiting trigger gets the lock; the task goes on with its loop after its own. *)
Definition lock_step (n : nat) (m : AutoBackupManager) : AutoBackupManager :=
  match am_pending m !! n with
  | None => m
  | Some (trigger, own) =>
      let m := locked_backup trigger (am_set_pending (delete n (am_pending m)) m) in
      match own, am_runner m with
      | true, Some (RunnerExecuting current seen) => runner_loop current seen m
      | _, _ => m
      end
  end.

Inductive BackupEvent : Type :=
| EvSettings (verge : IVerge)
| EvTrigger (t : AutoBackupTrigger)
| EvRunner (changed_first : bool)
| EvLocked (n : nat)
| EvTime (seconds : Z).

Definition backup_step (ev : BackupEvent) (m : AutoBackupManager) : AutoBackupManager :=
  match ev with
  | EvSettings verge => refresh_settings verge m
  | EvTrigger t => begin_trigger t m
  | EvRunner changed_first => runner_step changed_first m
  | EvLocked n => lock_step n m
  | EvTime seconds =>
      {| am_world := bo_pass (Z.max 0 seconds) (am_world m); am_clock := am_clock m + Z.max 0 seconds;
         am_settings := am_settings m; am_channel := am_channel m; am_version := am_version m;
         am_runner_started := am_runner_started m; am_runner := am_runner m; am_last_backup := am_last_backup m;
         am_pending := am_pending m;
     am_backups := am_backups m |}
  end.

Definition backup_run (evs : list BackupEvent) (m : AutoBackupManager) : AutoBackupManager :=
  fold_left (fun m ev => backup_step ev m) evs m.
End backup.
Arguments AutoBackupManager : clear implicits.

(** * What holds of the automatic backups

    Backups are at least a minute apart however the triggers interleave; the clean-up
    removes only automatic backups and keeps the newest twenty, and a backup made
    automatically is one it recognises.  The schedule does not begin with the settings that
    turn it on: they are lost in the channel, and the task waits for another change. *)

Lemma from_verge_interval verge : 1 <= as_interval_hours (from_verge verge) <= 168.
Proof. unfold from_verge. cbn. unfold MIN_INTERVAL_HOURS, MAX_INTERVAL_HOURS. lia. Qed.

(** ** names *)

(** A name made for an automatic backup is recognised by the clean-up. *)
Theorem auto_names_are_recognized file_name slug :
  infix_bytes (bytes AUTO_MARKER) (bytes (append_auto_suffix file_name slug)) = true.
Proof.
  apply infix_bytes_spec. unfold append_auto_suffix.
  destruct (rsplit_once file_name ".") as [[stem ext]|]; rewrite !bytes_append.
  - by exists (bytes stem), (bytes slug ++ bytes "." ++ bytes ext).
  - by exists (bytes file_name), (bytes slug).
Qed.

(** ** the clean-up *)

Definition older (f g : string * Z) : Prop := f.2 <= g.2.

Lemma insert_by_time_perm f l : insert_by_time f l ≡ₚ f :: l.
Proof.
  induction l as [|g l IH]; cbn; [done|]. destruct (f.2 <=? g.2); [done|]. rewrite IH. apply Permutation_swap.
Qed.

Lemma sort_by_time_perm l : sort_by_time l ≡ₚ l.
Proof. induction l as [|f l IH]; cbn; [done|]. by rewrite insert_by_time_perm, IH. Qed.

Lemma insert_by_time_sorted f l : StronglySorted older l -> StronglySorted older (insert_by_time f l).
Proof.
  induction 1 as [|g l Hs IH Hg]; cbn; [repeat constructor|].
  destruct (Z.leb_spec f.2 g.2) as [Hle|Hlt].
  - constructor; [by constructor|]. constructor; [done|]. eapply Forall_impl; [done|]. unfold older. intros. lia.
  - constructor; [done|]. rewrite insert_by_time_perm. constructor; [unfold older; lia|done].
Qed.

Lemma sort_by_time_sorted l : StronglySorted older (sort_by_time l).
Proof. induction l; cbn; [constructor|by apply insert_by_time_sorted]. Qed.

Lemma sorted_split l1 l2 : StronglySorted older (l1 ++ l2) -> forall f g, f ∈ l1 -> g ∈ l2 -> older f g.
Proof.
  induction l1 as [|h l1 IH]; cbn; [intros _ f g Hf; by apply elem_of_nil in Hf|].
  intros [Hs Hh]%StronglySorted_inv f g [->|Hf]%elem_of_cons Hg; [|by apply IH].
  rewrite Forall_forall in Hh. apply Hh, elem_of_app. by right.
Qed.

Lemma files_to_remove_spec files :
  exists kept, files ≡ₚ files_to_remove files ++ kept /\ length kept = Nat.min AUTO_BACKUP_KEEP (length files) /\
    forall f g, f ∈ files_to_remove files -> g ∈ kept -> older f g.
Proof.
  unfold files_to_remove. case_bool_decide as Hl.
  - exists files. split_and!; [done|lia|]. intros f g Hf. by apply elem_of_nil in Hf.
  - exists (drop (length files - AUTO_BACKUP_KEEP) (sort_by_time files)).
    pose proof (sort_by_time_perm files) as Hp. rewrite take_drop, length_drop.
    rewrite (Permutation_length Hp). split_and!; [by symmetry|lia|].
    apply sorted_split. rewrite take_drop. apply sort_by_time_sorted.
Qed.

(** The clean-up of automatic backups removes only files whose name has the
    marker, keeps the newest twenty of them (all where there are fewer), and
    removes none that is newer than one it keeps. *)
Theorem cleanup_keeps_newest_backups entries :
  let files := omap auto_file entries in
  exists kept, files ≡ₚ files_to_remove files ++ kept /\ length kept = Nat.min 20 (length files) /\
    (forall f g, f ∈ files_to_remove files -> g ∈ kept -> f.2 <= g.2) /\
    (forall f, f ∈ files_to_remove files -> exists e name, e ∈ entries /\ be_path e = f.1 /\ be_is_file e = true /\
       be_name e = Some name /\ infix_bytes (bytes AUTO_MARKER) (bytes name) = true).
Proof.
  intros files. destruct (files_to_remove_spec files) as (kept & Hp & Hl & Ho). exists kept.
  split_and!; [done|done|exact Ho|]. intros f Hf.
  assert (Hin : f ∈ files). { rewrite Hp. apply elem_of_app. by left. }
  apply list_elem_of_omap in Hin as (e & He & Ha). unfold auto_file in Ha.
  destruct (be_is_file e) eqn:Hfile; [|done]. destruct (be_name e) as [name|] eqn:Hn; [|done]. cbn in Ha.
  destruct (infix_bytes _ _) eqn:Hi; [|done]. injection Ha as <-. by exists e, name.
Qed.

(** ** the pace *)

(** The wall clock is not set back while a backup is made, and shows a date of this era. *)
Class BackupLaws (W : Type) `{BackupOs W} := {
  law_clock_range w : 0 < bo_timestamp w <= i64_max;
  law_create_time namer w name w' :
    bo_create_local_backup namer w = (Ok name, w') -> bo_timestamp w <= bo_timestamp w';
}.

(** Newest first, each at least a minute after the one before. *)
Fixpoint spaced (l : list (AutoBackupTrigger * Z)) : Prop :=
  match l with
  | [] => True
  | (_, t) :: l => match l with [] => True | (_, t') :: _ => t' + MIN_BACKUP_INTERVAL_SECS <= t end /\ spaced l
  end.

Section pace.
Context {W : Type} `{HL : BackupLaws W}.
Implicit Types m : AutoBackupManager W.

Definition paced m : Prop :=
  spaced (am_backups m) /\ Forall (fun b => 0 < b.2 <= i64_max) (am_backups m) /\
  am_last_backup m = match am_backups m with [] => 0 | (_, t) :: _ => t end.

Lemma locked_backup_paced t m : paced m -> paced (locked_backup t m).
Proof.
  intros (Hs & Hp & Hl). unfold locked_backup. destruct (should_run_now m) eqn:Hr; cbn [negb]; [|done].
  destruct (bo_create_local_backup _ _) as [[name|e] w] eqn:Hc; [|done].
  apply law_create_time in Hc. pose proof (law_clock_range (am_world m)) as Hw.
  split_and!; cbn; [|by constructor; [apply law_clock_range|]|done]. split; [|done].
  destruct (am_backups m) as [|[t' u] l]; [done|]. inversion_clear Hp as [|? ? Hu _]. cbn in Hu.
  unfold should_run_now in Hr. rewrite Hl in Hr. destruct (Z.eqb_spec u 0); [lia|].
  apply Z.leb_le in Hr. unfold saturating_i64_sub, MIN_BACKUP_INTERVAL_SECS in *. lia.
Qed.

Lemma backup_step_paced ev m : paced m -> paced (backup_step ev m).
Proof.
  intros Hm. destruct ev as [verge|t|b|n|d]; cbn.
  - unfold refresh_settings, maybe_start_runner, ensure_runner, channel_send. repeat case_match; done.
  - unfold begin_trigger. by case_match.
  - unfold runner_step, runner_loop. repeat case_match; done.
  - unfold lock_step. destruct (am_pending m !! n) as [[t own]|]; [|done].
    assert (Hl : paced (locked_backup t (am_set_pending (delete n (am_pending m)) m))) by (by apply locked_backup_paced).
    unfold runner_loop. repeat case_match; done.
  - done.
Qed.

(** However triggers, the scheduling task and changes of the settings
    interleave, two automatic backups made one after the other are at least a
    minute apart. *)
Theorem backups_are_a_minute_apart evs w : spaced (am_backups (backup_run evs (manager_global w))).
Proof.
  enough (forall m, paced m -> paced (backup_run evs m)) as Hr by (apply Hr; split_and!; done).
  induction evs as [|ev evs IH]; intros m Hm; [done|]. by apply IH, backup_step_paced.
Qed.
End pace.

(** ** the schedule *)

Section schedule.
Context {W : Type} `{BackupOs W}.
Implicit Types m : AutoBackupManager W.

(** Something other than a change of the settings; only the task itself asks for a scheduled
    backup. *)
Definition no_change (ev : BackupEvent) : Prop :=
  match ev with EvSettings _ | EvTrigger Scheduled => False | _ => True end.

(** The task has the default settings and waits for a first change. *)
Definition starved m : Prop :=
  (am_runner m = Some (RunnerSpawned 0) \/ am_runner m = Some (RunnerWaiting 0)) /\
  am_version m = 0%nat /\ am_channel m = AutoBackupSettings_default /\
  Forall (fun p => p.1 <> Scheduled) (am_pending m) /\ Forall (fun b => b.1 <> Scheduled) (am_backups m).

Lemma starved_locked t m : t <> Scheduled -> starved m -> starved (locked_backup t m).
Proof.
  intros Ht (Hr & Hv & Hc & Hp & Hb). unfold locked_backup. repeat case_match; try done.
  split_and!; try done. by constructor.
Qed.

Lemma starved_step ev m : no_change ev -> starved m -> starved (backup_step ev m).
Proof.
  intros Hev Hm. pose proof Hm as (Hr & Hv & Hc & Hp & Hb). destruct ev as [verge|t|b|n|d]; cbn [backup_step]; try done.
  - unfold begin_trigger. destruct (trigger_wanted t m); [|done]. split_and!; try done. apply Forall_app. split; [done|].
    constructor; [|constructor]. by destruct t.
  - unfold runner_step. destruct Hr as [-> | ->].
    + rewrite Hc. split_and!; try done. by right.
    + by rewrite Hv, bool_decide_true.
  - unfold lock_step. destruct (am_pending m !! n) as [[t own]|] eqn:Hn; [|done].
    assert (Ht : t <> Scheduled) by (by apply (Forall_lookup_1 _ _ _ _ Hp) in Hn).
    assert (Hl : starved (locked_backup t (am_set_pending (delete n (am_pending m)) m))).
    { apply starved_locked; [done|]. split_and!; try done. by apply Forall_delete. }
    pose proof Hl as ([Hq|Hq] & _); rewrite Hq; by destruct own.
Qed.

(** C37: when scheduled backups are turned on in the settings the application
    starts with, the settings never reach the scheduling task: however much time
    passes and whatever else is triggered, no scheduled backup is made until the
    settings change again. *)
Theorem schedule_waits_for_a_second_change verge evs w :
  iv_enable_auto_backup_schedule verge = Some true -> Forall no_change evs ->
  let m := backup_run evs (backup_init verge (manager_global w)) in
  as_schedule_enabled (am_settings (backup_init verge (manager_global w))) = true /\
  am_runner_started m = true /\ am_channel m = AutoBackupSettings_default /\
  Forall (fun b => b.1 <> Scheduled) (am_backups m).
Proof.
  intros Hs Hevs. set (m0 := backup_init verge (manager_global w)).
  assert (Hm0 : starved m0 /\ am_runner_started m0 = true /\ as_schedule_enabled (am_settings m0) = true).
  { unfold m0, backup_init, refresh_settings, maybe_start_runner, from_verge. rewrite Hs. cbn.
    split; [|done]. split; [by left|done]. }
  destruct Hm0 as (Hst & Hrs & Hset).
  enough (Hg : forall m, starved m -> am_runner_started m = true ->
    starved (backup_run evs m) /\ am_runner_started (backup_run evs m) = true).
  { destruct (Hg m0 Hst Hrs) as [(_ & _ & Hc & _ & Hb) Hr]. by split_and!. }
  clear m0 Hst Hrs Hset. induction Hevs as [|ev evs Hev _ IH]; intros m Hst Hrs; [done|].
  apply IH; [by apply starved_step|]. destruct ev as [|t|b|n|d]; cbn [backup_step]; try done.
  - unfold begin_trigger. by destruct (trigger_wanted t m).
  - unfold runner_step, runner_loop. by repeat case_match.
  - unfold lock_step, locked_backup, runner_loop. by repeat case_match.
Qed.
End schedule.
