(* ===== verification/SaveProfile.v ===== *)
(** * SaveProfile: saving and updating a profile

    [src-tauri/src/cmd/save_profile.rs] (a profile's file is replaced, checked, applied, and
    put back when the check or the application fails) and [feat/profile.rs] (a subscription
    is downloaded, with two fallbacks).  Both end in an update of the core's configuration.
    The profile files and the download are the class [ProfileFileOs]; the trace of which
    download was tried is not kept. *)

From Stdlib Require Import Ascii String.
From S2P Require Import Prelude Text Yaml ProfileItem Profiles Enhance EnhancePipeline RuntimeConfig Draft Validation.
From S2P Require Import Verge CoreManager CoreManagerSafety.

Class ProfileFileOs (W : Type) := {
  po_dir : W -> result string string;
  po_try_exists : string -> W -> result bool string;
  po_read : string -> W -> result string string;
  po_write : string -> string -> W -> result unit string * W;
  po_remove : string -> W -> result unit string * W;
  po_trigger_backup : string -> W -> W;
  po_refresh_clash : W -> W;
  (* [PrfItem::from_url] *)
  po_from_url : string -> option PrfOption -> W -> result PrfItem string * W;
  po_error_text : ProfileError -> string;
}.

Section saving.
Context {W : Type} `{CoreOs W} `{ProfileFileOs W} `{MappingLib} (windows : bool).

(** ** saving a file *)

Definition profile_affects_runtime (profiles : IProfiles) (index : string) : bool :=
  match current profiles with
  | None => false
  | Some current_uid =>
      if bool_decide (current_uid = index) then true
      else
        match get_item profiles current_uid with
        | Err _ => false
        | Ok item =>
            bool_decide (index ∈
              [default "Merge"%string (current_merge item); default "Script"%string (current_script item);
               default "Rules"%string (current_rules item); default "Proxies"%string (current_proxies item);
               default "Groups"%string (current_groups item)])
        end
  end.

Definition restore_original (path original_content : string) (original_existed : bool) : CM W unit :=
  if original_existed then await_ok (po_write path original_content) else await_ok (po_remove path).

Definition refresh_clash : CM W unit := call (fun w => (tt, po_refresh_clash w)).

Definition handle_saved_profile_file (path original_content : string)
  (original_existed is_merge_file is_script_file affects_runtime : bool) : CM W ValidationOutcome :=
  let target := if is_script_file then TargetScript else if is_merge_file then TargetMerge else TargetRuntime in
  let! validated := caught (validate_config_file_outcome path (Some is_merge_file)) in
  match validated with
  | Err e => restore_original path original_content original_existed ;! raise (Failed e)
  | Ok Valid =>
      if negb affects_runtime then ret Valid
      else
        let! updated := caught (update_config_forced windows) in
        match updated with
        | Ok Valid => refresh_clash ;! ret Valid
        | Ok outcome =>
            restore_original path original_content original_existed ;!
            send_notice (handle_validation_notice outcome TargetRuntime) ;!
            ret outcome
        | Err err => restore_original path original_content original_existed ;! raise (Failed err)
        end
  | Ok outcome =>
      restore_original path original_content original_existed ;!
      send_notice (handle_validation_notice outcome target) ;!
      ret outcome
  end.

Definition item_error (index : string) : string :=
  String.append "failed to get the profile item " (String "034"%char (String.append "uid:" (String.append index
    (String "034"%char EmptyString)))).

Definition latest_item (index : string) : CM W PrfItem :=
  let! s := get in lift (map_err (fun _ => Failed (item_error index)) (get_item (ve_latest (cm_profiles s)) index)).

Definition backup_trigger (index : string) : option string :=
  if bool_decide (index = "Merge"%string) then Some "GlobalMerge"%string
  else if bool_decide (index = "Script"%string) then Some "GlobalScript"%string else None.

Definition save_profile_file (index : string) (file_data : option string) : CM W ValidationOutcome :=
  match file_data with
  | None => ret Valid
  | Some file_data =>
      let! item := latest_item index in
      let is_merge_file := bool_decide (itype item = Some "merge"%string) in
      let! rel_path := lift (ok_or (file item) (Failed "file field is null")) in
      let is_script_file := bool_decide (itype item = Some "script"%string) || ends_with rel_path ".js" in
      let! s := get in
      let affects_runtime := profile_affects_runtime (ve_latest (cm_profiles s)) index in
      let! dir := look po_dir in
      let! dir := lift (failed dir) in
      let path := file_path dir rel_path in
      let! original_existed := await_ok (fun w => (po_try_exists path w, w)) in
      let! original_content := (if original_existed : bool then await_ok (fun w => (po_read path w, w)) else ret EmptyString) in
      await_ok (po_write path file_data) ;!
      let! changes_applied :=
        handle_saved_profile_file path original_content original_existed is_merge_file is_script_file affects_runtime in
      match backup_trigger index with
      | Some trigger =>
          if outcome_is_valid changes_applied then call (fun w => (tt, po_trigger_backup trigger w)) else ret tt
      | None => ret tt
      end ;!
      ret changes_applied
  end.

(** ** updating a subscription *)

Definition should_update_profile (u : string) (ignore_auto_update : bool) : CM W (option (string * option PrfOption)) :=
  let! item := latest_item u in
  if negb (bool_decide (itype item = Some "remote"%string)) then ret None
  else
    match item_url item with
    | None => raise (Failed "failed to get the profile item url")
    | Some url =>
        if negb ignore_auto_update && negb (allow_auto_update_enabled (item_option item)) then ret None
        else ret (Some (url, item_option item))
    end.

Definition PrfOption_default : PrfOption :=
  {| user_agent := None; with_proxy := None; self_proxy := None; update_interval := None; timeout_seconds := None;
     danger_accept_invalid_certs := None; allow_auto_update := None; opt_merge := None; opt_script := None;
     opt_rules := None; opt_proxies := None; opt_groups := None |}.

(** [merged_opt.get_or_insert_with(PrfOption::default)] with both proxy flags set. *)
Definition through (own system : bool) (o : option PrfOption) : option PrfOption :=
  let o := default PrfOption_default o in
  Some {| user_agent := user_agent o; with_proxy := Some system; self_proxy := Some own;
          update_interval := update_interval o; timeout_seconds := timeout_seconds o;
          danger_accept_invalid_certs := danger_accept_invalid_certs o; allow_auto_update := allow_auto_update o;
          opt_merge := opt_merge o; opt_script := opt_script o; opt_rules := opt_rules o; opt_proxies := opt_proxies o;
          opt_groups := opt_groups o |}.

Context `{ProfileFs W}.

(** [profiles_draft_update_item_safe] on the committed list. *)
Definition store_item (u : string) (item : PrfItem) : CM W unit := fun s =>
  match profiles_draft_update_item_safe u item {| pf_profiles := ve_committed (cm_profiles s); pf_world := cm_world s |} with
  | (Ok _, w) => (Ok tt, cm_set_world (pf_world w) (cm_set_profiles (ve_commit (pf_profiles w) (cm_profiles s)) s))
  | (Err e, w) => (Err (Failed (po_error_text e)), cm_set_world (pf_world w) s)
  end.

(** The downloads in their order; the last error when all of them fail. *)
Fixpoint try_downloads (u url profile_name : string) (attempts : list (option PrfOption * bool)) (last_err : string)
  : CM W (option string) :=
  match attempts with
  | [] => ret (Some last_err)
  | (o, noticed) :: attempts =>
      let! downloaded := await (po_from_url url o) in
      match downloaded with
      | Ok item =>
          store_item u item ;!
          (if noticed : bool then notice_message "update_with_clash_proxy" profile_name else ret tt) ;!
          ret None
      | Err err => try_downloads u url profile_name attempts err
      end
  end.

Definition perform_profile_update (u url : string) (opt option_ : option PrfOption) (is_mannual_trigger : bool) : CM W bool :=
  let merged_opt := PrfOption_merge opt option_ in
  let! s := get in
  let profiles := ve_latest (cm_profiles s) in
  let is_current := is_current_profile_index profiles u in
  let profile_name := default "UnKnown Profile"%string (get_name_by_uid profiles u) in
  let! last_err := try_downloads u url profile_name
    [(merged_opt, false); (through true false merged_opt, true); (through false true merged_opt, true)] EmptyString in
  match last_err with
  | Some last_err =>
      if is_mannual_trigger
      then notice_message "update_failed_even_with_clash" (String.append profile_name (String.append " - " last_err))
      else ret tt
  | None => ret tt
  end ;!
  ret is_current.

Definition update_profile (u : string) (option_ : option PrfOption) (auto_refresh ignore_auto_update is_mannual_trigger : bool)
  : CM W unit :=
  let! url_opt := should_update_profile u ignore_auto_update in
  let! should_refresh :=
    match url_opt with
    | Some (url, opt) => let! is_current := perform_profile_update u url opt option_ is_mannual_trigger in
                         ret (is_current && auto_refresh)
    | None => ret auto_refresh
    end in
  if should_refresh : bool
  then
    let! updated := caught (update_config_with_force windows is_mannual_trigger) in
    match updated with
    | Ok Valid => refresh_clash
    | Ok ((Skipped _ | Busy) as outcome) =>
        if negb is_mannual_trigger then ret tt else notice_message "update_failed" (outcome_text outcome)
    | Ok outcome => notice_message "update_failed" (outcome_text outcome)
    | Err err => notice_message "update_failed" err
    end
  else ret tt.
End saving.

(** ** what the manager's calls leave alone *)

(** A fact about the system that the calls of the core manager keep. *)
Record os_closed {W} `{CoreOs W} `{ProfileFileOs W} (F : W -> Prop) : Prop := {
  oc_output core args w : F w -> F (os_core_output core args w).2;
  oc_enhance w : F w -> F (co_enhance w).2;
  oc_save_yaml dir typ c w : F w -> F (co_save_yaml (file_path dir (config_name typ)) c w).2;
  oc_spawn core dir path ipc w : F w -> F (co_spawn core dir path ipc w).2;
  oc_kill pid w : F w -> F (co_kill pid w).2;
  oc_create_job pid w : F w -> F (co_create_job pid w).2;
  oc_close_job job w : F w -> F (co_close_job job w);
  oc_reload path w : F w -> F (co_reload_config path w).2;
  oc_clear_logs w : F w -> F (co_clear_logs w);
  oc_sleep t w : F w -> F (co_sleep t w);
  oc_ready w : F w -> F (co_service_ready w).2;
  oc_run path w : F w -> F (co_service_run path w).2;
  oc_stop w : F w -> F (co_service_stop w).2;
  oc_init w : F w -> F (co_service_init w).2;
  oc_refresh w : F w -> F (co_service_refresh w).2;
  oc_refresh_clash w : F w -> F (po_refresh_clash w);
  oc_backup t w : F w -> F (po_trigger_backup t w);
}.

Section frame.
Context {W : Type} `{CoreOs W} `{ProfileFileOs W} `{MappingLib} (windows : bool) (F : W -> Prop).
Hypothesis HF : os_closed F.

Let P (s : CoreState W) : Prop := F (cm_world s).

Lemma frame_await {A} (op : W -> A * W) : (forall w, F w -> F (op w).2) -> preserves P (await op).
Proof.
  intros Hop s Hs. apply (wp_await op (fun _ => P)). intros s1 ->. unfold P in *. cbn. autorewrite with land.
  split_and!; auto.
Qed.
Lemma frame_call {A} (op : W -> A * W) : (forall w, F w -> F (op w).2) -> preserves P (call op).
Proof. intros Hop s Hs. apply (wp_core_call op (fun _ => P)). by apply Hop. Qed.
Lemma frame_defer {A} fin (m : CM W A) : (forall s, cm_world (fin s) = cm_world s) -> preserves P m -> preserves P (defer fin m).
Proof. intros Hf Hm s Hs. unfold defer. specialize (Hm s Hs). destruct (m s). unfold P in *. cbn in *. by rewrite Hf. Qed.
Lemma frame_caught {A} (m : CM W A) : preserves P m -> preserves P (caught m).
Proof. intros Hm s Hs. unfold caught. specialize (Hm s Hs). by destruct (m s) as [[a|[e|]] s']. Qed.

Create HintDb frame.
Ltac framed :=
  repeat match goal with
    | |- preserves _ (bind _ _) => apply preserves_bind; [|intros ?]
    | |- preserves _ (caught _) => apply frame_caught
    | |- preserves _ (defer _ _) => apply frame_defer; [done|]
    | |- preserves _ (modify _) => apply preserves_modify; by intros ? ?
    | |- preserves _ (await _) => apply frame_await; intros ? ?; cbn; by try apply HF
    | |- preserves _ (call _) => apply frame_call; intros ? ?; cbn; by try apply HF
    | |- preserves _ (ret _) => apply preserves_ret
    | |- preserves _ (raise _) => apply preserves_raise
    | |- preserves _ (lift _) => apply preserves_lift
    | |- preserves _ get => apply preserves_get
    | |- preserves _ (look _) => by intros ? ?
    | |- preserves _ (match ?x with _ => _ end) => destruct x
    | |- preserves _ _ => solve [auto with frame nocore]
    | _ => progress cbv zeta
    end.

Lemma frame_generate_file typ : preserves P (generate_file typ).
Proof. unfold generate_file, home_dir, await_ok. framed. Qed.
Hint Resolve frame_generate_file : frame.

Lemma frame_internal path : preserves P (validate_config_internal_outcome path).
Proof. unfold validate_config_internal_outcome, home_dir, await_ok. framed. Qed.
Hint Resolve frame_internal : frame.
Lemma frame_validate : preserves P validate_config_outcome.
Proof. unfold validate_config_outcome. framed. Qed.
Lemma frame_validate_file path merge : preserves P (validate_config_file_outcome path merge).
Proof. unfold validate_config_file_outcome. framed. Qed.
Hint Resolve frame_validate frame_validate_file : frame.

Lemma frame_start_by_sidecar : preserves P (start_core_by_sidecar windows).
Proof. unfold start_core_by_sidecar, home_dir, umask, call_ok, assign_job, kill_child, set_job_handle, set_running_mode. framed. Qed.
Lemma frame_stop_by_sidecar : preserves P (stop_core_by_sidecar windows).
Proof. unfold stop_core_by_sidecar, take_child_sidecar, kill_child, set_job_handle. framed. Qed.
Lemma frame_retries n last file : preserves P (service_start_retries n last file).
Proof. revert last. induction n; intros last; cbn [service_start_retries]; unfold wait_unit, set_running_mode; framed; auto. Qed.
Hint Resolve frame_start_by_sidecar frame_stop_by_sidecar frame_retries : frame.
Lemma frame_start_by_service : preserves P (start_core_by_service windows).
Proof. unfold start_core_by_service, await_ok, set_running_mode. framed. Qed.
Lemma frame_attempts n : preserves P (service_attempts n).
Proof. induction n; cbn [service_attempts]; unfold service_attempt, wait_unit; framed; auto. Qed.
Hint Resolve frame_start_by_service frame_attempts : frame.
Lemma frame_start_core_inner : preserves P (start_core_inner windows).
Proof.
  unfold start_core_inner, prepare_startup, wait_for_service_if_needed, spawn_service_handoff_watcher, tun_enabled,
    set_running_mode. framed.
Qed.
Lemma frame_stop_core_inner : preserves P (stop_core_inner windows).
Proof. unfold stop_core_inner, stop_core_by_service, wait_unit, await_ok. framed. Qed.
Hint Resolve frame_start_core_inner frame_stop_core_inner : frame.

Lemma frame_update force : preserves P (update_config_with_force windows force).
Proof.
  unfold update_config_with_force, try_start_config_update, should_update_config, manager_perform_config_update, generate,
    apply_generate_config_inner, apply_config, restart_core, lifecycle_lock, wait_unit, on_runtime, await_ok. framed.
Qed.
End frame.

(** ** a save takes effect or is undone *)

(** The files of the profiles: a write, a removal and a read do what they say, and the calls
    of the manager leave them alone, except that it writes its own two files. *)
Class ProfileFileLaws (W : Type) `{CoreOs W} `{ProfileFileOs W} := {
  profile_at : string -> W -> option string;
  law_try_exists path w b : po_try_exists path w = Ok b -> b = is_some (profile_at path w);
  law_read path w c : po_read path w = Ok c -> profile_at path w = Some c;
  law_write path c w w' : po_write path c w = (Ok tt, w') -> profile_at path w' = Some c;
  law_remove path w w' : po_remove path w = (Ok tt, w') -> profile_at path w' = None;
  law_kept path v : (forall dir typ, path <> file_path dir (config_name typ)) -> os_closed (fun w => profile_at path w = v);
}.

Section atomic.
Context {W : Type} {CO : CoreOs W} {PO : ProfileFileOs W} {PL : ProfileFileLaws W} `{MappingLib} (windows : bool).
Variables (path : string) (original : option string).
Hypothesis Hpath : forall dir typ, path <> file_path dir (config_name typ).

Definition restored (s : CoreState W) : Prop := profile_at path (cm_world s) = original.

Lemma restore_original_spec content (existed : bool) s :
  original = (if existed then Some content else None) ->
  wp (restore_original path content existed) (fun r s' => r = Ok tt -> restored s') s.
Proof.
  intros Ho. unfold restore_original, restored. rewrite Ho. destruct existed; repeat core_step; try done.
  - destruct (po_write path content (cm_world s)) as [[[]|e] w] eqn:Ew; cbn; [|done]. intros _. by eapply law_write.
  - destruct (po_remove path (cm_world s)) as [[[]|e] w] eqn:Ew; cbn; [|done]. intros _. by eapply law_remove.
Qed.

(** The end of a save: the new content with a valid outcome, the original with any other. *)
Definition saved_or_restored (data : string) (r : result ValidationOutcome CoreError) (s' : CoreState W) : Prop :=
  match r with
  | Ok Valid => profile_at path (cm_world s') = Some data
  | Ok _ => restored s'
  | Err _ => True
  end.

(** An outcome that is not valid is answered after the original is back. *)
Lemma restore_then_answer data content (existed : bool) key o s :
  original = (if existed then Some content else None) -> o <> Valid ->
  wp (restore_original path content existed ;! send_notice key ;! ret o) (saved_or_restored data) s.
Proof.
  intros Ho Hv. core_step. eapply wp_mono; [by apply restore_original_spec|]. intros [[]|e] s1 Hs; [|done].
  specialize (Hs eq_refl). unfold send_notice, notice_message. destruct key as [[k m]|]; repeat core_step; by destruct o.
Qed.

Lemma restore_then_fail data content existed e s :
  wp (restore_original path content existed ;! raise (Failed e)) (saved_or_restored data) s.
Proof. core_step. eapply (wp_mono _ (fun _ _ => True)); [done|]. by intros [[]|e'] s1 _. Qed.

Lemma handle_saved_spec data content (existed merge script affects : bool) s :
  original = (if existed then Some content else None) -> profile_at path (cm_world s) = Some data ->
  wp (handle_saved_profile_file windows path content existed merge script affects) (saved_or_restored data) s.
Proof.
  intros Ho Hd. unfold handle_saved_profile_file. pose proof (law_kept path (Some data) Hpath) as HF. core_step. core_step.
  eapply wp_mono; [by apply (preserves_wp _ _ _ (frame_validate_file _ HF path (Some merge)))|].
  intros [[|k m|reason|]|[e|]] s1 Hs1; [|by apply restore_then_answer..|by apply restore_then_fail|done].
  destruct affects; cbn [negb]; [|by core_step]. core_step. core_step. unfold update_config_forced.
  eapply wp_mono; [by apply (preserves_wp _ _ _ (frame_update windows _ HF true))|].
  intros [[|k m|reason|]|[e|]] s2 Hs2; [|by apply restore_then_answer..|by apply restore_then_fail|done].
  unfold refresh_clash. repeat core_step. cbn. by apply (oc_refresh_clash _ HF).
Qed.
End atomic.

Section save.
Context {W : Type} {CO : CoreOs W} {PO : ProfileFileOs W} {PL : ProfileFileLaws W} `{MappingLib} (windows : bool).

(** C19: saving a profile's file answers valid only with the new content in the
    file, and every other outcome it answers has put the original content back,
    or removed the file where there was none. *)
Theorem saved_profile_is_applied_or_restored index data s o s' item rel dir :
  get_item (ve_latest (cm_profiles s)) index = Ok item -> file item = Some rel -> po_dir (cm_world s) = Ok dir ->
  (forall d typ, file_path dir rel <> file_path d (config_name typ)) ->
  save_profile_file windows index (Some data) s = (Ok o, s') ->
  profile_at (file_path dir rel) (cm_world s') =
    (if outcome_is_valid o then Some data else profile_at (file_path dir rel) (cm_world s)).
Proof.
  intros Hitem Hfile Hdir Hpath. set (path := file_path dir rel) in *.
  set (Q := saved_or_restored path (profile_at path (cm_world s)) data).
  cut (wp (save_profile_file windows index (Some data)) Q s).
  { intros Hw Hr. unfold wp in Hw. rewrite Hr in Hw. unfold Q, saved_or_restored, restored in Hw. cbn in Hw. by destruct o. }
  unfold save_profile_file, latest_item. repeat core_step. rewrite Hitem. cbn [map_err]. core_step. rewrite Hfile. cbn [ok_or].
  calm_steps. rewrite Hdir. cbn [failed map_err]. calm_steps. fold path. core_step; [done..|].
  cbn [fst snd]. calm_steps. destruct (po_try_exists path (cm_world s)) as [existed|e] eqn:Ee; cbn [failed map_err]; [|done].
  set (s1 := cm_set_world _ _). assert (Hw1 : cm_world s1 = cm_world s) by done.
  core_step. eapply (wp_mono _ (fun r s2 => match r with
    | Ok content => profile_at path (cm_world s) = (if existed then Some content else None) | Err _ => True end)).
  { apply law_try_exists in Ee. destruct existed; [|by core_step; destruct (profile_at path (cm_world s))].
    repeat core_step; try done. rewrite Hw1. destruct (po_read path (cm_world s)) as [c|e] eqn:Er; cbn; [|done].
    by eapply law_read. }
  intros [content|e] s2 Hc; [|done]. calm_steps. core_step; [done..|]. calm_steps.
  destruct (po_write path data (cm_world s2)) as [[[]|e] w] eqn:Ew; cbn [fst snd failed map_err]; [|done].
  core_step. eapply wp_mono.
  { apply (handle_saved_spec windows path (profile_at path (cm_world s)) Hpath data); [exact Hc|]. cbn. by eapply law_write. }
  intros [o1|e] s3 Hs3; [|done]. core_step.
  eapply (wp_mono _ (fun r s4 => r = Ok tt /\ forall v, profile_at path (cm_world s3) = v -> profile_at path (cm_world s4) = v)).
  { destruct (backup_trigger index); [destruct (outcome_is_valid o1)|]; calm_steps; (split; [done|]); try done.
    intros v. cbn. apply (oc_backup _ (law_kept path v Hpath)). }
  intros ? s4 [-> Hk]. core_step. unfold Q, saved_or_restored, restored in *. destruct o1; by apply Hk.
Qed.
End save.

Section update.
Context {W : Type} {CO : CoreOs W} {PO : ProfileFileOs W} {FS : ProfileFs W}.

Lemma land_nothing (s : CoreState W) : cm_others s = [] -> land s = s.
Proof. unfold land. by intros ->. Qed.

Lemma downloads_fail u url name attempts last (s : CoreState W) :
  (forall o w, is_ok (po_from_url url o w).1 = false) -> cm_others s = [] -> cm_deadline s = None ->
  wp (try_downloads u url name attempts last) (fun r s' => (exists e, r = Ok (Some e)) /\
    cm_profiles s' = cm_profiles s /\ cm_runtime s' = cm_runtime s) s.
Proof.
  intros Hfail. revert last s. induction attempts as [|[o noticed] attempts IH]; intros last s Ho Hd; cbn [try_downloads].
  { core_step. split_and!; eauto. }
  core_step. apply wp_await_forever; [done|]. specialize (Hfail o (cm_world s)). rewrite land_nothing by done.
  destruct (po_from_url url o (cm_world s)) as [[item|e] w]; [done|]. cbn.
  eapply wp_mono; [by apply IH|]. done.
Qed.

(** When no download succeeds, the profile list and the configuration stay as they are, and
    the answer is whether the profile is the current one. *)
Theorem failed_update_changes_no_profile u url opt option_ manual (s : CoreState W) :
  (forall o w, is_ok (po_from_url url o w).1 = false) -> cm_others s = [] -> cm_deadline s = None ->
  exists s', perform_profile_update u url opt option_ manual s =
      (Ok (is_current_profile_index (ve_latest (cm_profiles s)) u), s') /\
    cm_profiles s' = cm_profiles s /\ cm_runtime s' = cm_runtime s.
Proof.
  intros Hfail Ho Hd. set (Q := fun (r : result bool CoreError) (s' : CoreState W) =>
    r = Ok (is_current_profile_index (ve_latest (cm_profiles s)) u) /\
    cm_profiles s' = cm_profiles s /\ cm_runtime s' = cm_runtime s).
  cut (wp (perform_profile_update u url opt option_ manual) Q s).
  { unfold wp, Q. destruct (perform_profile_update _ _ _ _ _ s) as [r s']. cbn. intros (-> & Hp & Hr). by exists s'. }
  unfold perform_profile_update. calm_steps. eapply wp_mono; [by apply downloads_fail|].
  intros ? s1 ([e ->] & Hp & Hr). destruct manual; unfold notice_message; calm_steps; unfold Q; split_and!; done.
Qed.
End update.
