(* ===== verification/PatchSettings.v ===== *)
(** * PatchSettings: changing the settings of the core and of the application

    [src-tauri/src/feat/config.rs] and the change of the core's mode in [feat/clash.rs].  A
    patch is put into the draft, what it calls for is done (the core restarted or given a
    new configuration, the tray, the system proxy, the hot keys and so on brought up to
    date), and then the draft becomes the committed settings and is saved.

    The actions outside the core manager are the class [SettingsOs]; those whose failure the
    code passes on answer a result.  An error inside the block that computes the outcome
    leaves the whole function ([?] in a plain block), so the outcome the block has is never
    an error and the branch that discards the draft is never taken: the definitions keep
    the block and the branch as they are. *)

From Stdlib Require Import Ascii String Btauto.
From S2P Require Import Prelude Text Yaml ProfileItem Profiles Enhance EnhancePipeline RuntimeConfig ClashConfig Draft.
From S2P Require Import Validation Verge CoreManager CoreManagerSafety.

Class SettingsOs (W : Type) := {
  so_refresh_clash : W -> W;
  so_refresh_verge : W -> W;
  so_update_launch : W -> result unit string * W;
  so_set_locale : string -> W -> W;
  so_update_sysproxy : W -> result unit string * W;
  so_refresh_guard : W -> W;
  so_update_hotkeys : list string -> W -> result unit string * W;
  so_update_menu : W -> result unit string * W;
  so_update_icon : IVerge -> W -> result unit string * W;
  so_update_speed_task : bool -> W -> W;
  so_update_tooltip : W -> result unit string * W;
  so_update_click_behavior : W -> result unit string * W;
  so_update_menu_and_icon : W -> W;
  so_enable_auto_light_weight : W -> W;
  so_disable_auto_light_weight : W -> W;
  so_update_log_level : LevelFilter -> W -> result unit string * W;
  so_update_log_config : Z -> Z -> W -> result unit string * W;
  so_refresh_backup_settings : IVerge -> W -> W;
  so_save_clash : Mapping -> W -> result unit string * W;
  (* the control interface of the core *)
  so_patch_base_mode : string -> W -> result unit string * W;
  so_close_connections : W -> W;
}.

(** ** what a patch calls for *)

(** The flags are the bits of a [u16]. *)
Definition RESTART_CORE : Z := Z.shiftl 1 0.
Definition CLASH_CONFIG : Z := Z.shiftl 1 1.
Definition VERGE_CONFIG : Z := Z.shiftl 1 2.
Definition LAUNCH : Z := Z.shiftl 1 3.
Definition SYS_PROXY : Z := Z.shiftl 1 4.
Definition SYSTRAY_ICON : Z := Z.shiftl 1 5.
Definition HOTKEY : Z := Z.shiftl 1 6.
Definition SYSTRAY_MENU : Z := Z.shiftl 1 7.
Definition SYSTRAY_TOOLTIP : Z := Z.shiftl 1 8.
Definition SYSTRAY_CLICK_BEHAVIOR : Z := Z.shiftl 1 9.
Definition LIGHT_WEIGHT : Z := Z.shiftl 1 10.
Definition LANGUAGE : Z := Z.shiftl 1 11.
Definition LOG_LEVEL : Z := Z.shiftl 1 12.
Definition LOG_FILE : Z := Z.shiftl 1 13.
Definition GROUP_SYS_TRAY : Z := Z.lor (Z.lor SYSTRAY_MENU SYSTRAY_TOOLTIP) SYSTRAY_ICON.

Definition flags_insert (when_ : bool) (other flags : Z) : Z := if when_ then Z.lor flags other else flags.
Definition flags_contain (flags other : Z) : bool := Z.land flags other =? other.

Definition restart_core_needed (platform : Platform) (patch : IVerge) : bool :=
  (is_some (iv_verge_socks_enabled patch) || is_some (iv_verge_http_enabled patch)
   || is_some (iv_verge_socks_port patch) || is_some (iv_verge_port patch)
   || is_some (iv_verge_mixed_port patch) || is_some (iv_enable_external_controller patch))
  || match platform with
     | Windows => false
     | _ => is_some (iv_verge_redir_enabled patch) || is_some (iv_verge_redir_port patch)
     end
  || match platform with
     | Linux => is_some (iv_verge_tproxy_enabled patch) || is_some (iv_verge_tproxy_port patch)
                || bool_decide (iv_enable_tun_mode patch = Some true)
     | _ => false
     end.

Definition on_macos {A} (platform : Platform) (o : option A) : option A :=
  match platform with OtherUnix => o | _ => None end.

Definition determine_update_flags (platform : Platform) (patch : IVerge) : Z :=
  let tray_icon := on_macos platform (iv_tray_icon patch) in
  let enable_tray_speed := on_macos platform (iv_enable_tray_speed patch) in
  let f := 0 in
  let f := flags_insert (restart_core_needed platform patch) RESTART_CORE f in
  let f := flags_insert (is_some (iv_enable_tun_mode patch)) (Z.lor CLASH_CONFIG GROUP_SYS_TRAY) f in
  let f := flags_insert (is_some (iv_enable_global_hotkey patch) || is_some (iv_home_cards patch)) VERGE_CONFIG f in
  let f := flags_insert (is_some (iv_enable_auto_launch patch)) LAUNCH f in
  let f := flags_insert (is_some (iv_enable_system_proxy patch)) (Z.lor SYS_PROXY GROUP_SYS_TRAY) f in
  let f := flags_insert (is_some (iv_system_proxy_bypass patch) || is_some (iv_pac_file_content patch)
             || is_some (iv_proxy_auto_config patch) || is_some (iv_enable_proxy_guard patch)
             || is_some (iv_proxy_guard_duration patch)) SYS_PROXY f in
  let f := flags_insert (is_some (iv_language patch)) (Z.lor (Z.lor LANGUAGE SYSTRAY_MENU) SYSTRAY_TOOLTIP) f in
  let f := flags_insert (is_some (iv_common_tray_icon patch) || is_some (iv_sysproxy_tray_icon patch)
             || is_some (iv_tun_tray_icon patch) || is_some tray_icon || is_some enable_tray_speed) SYSTRAY_ICON f in
  let f := flags_insert (is_some (iv_hotkeys patch)) (Z.lor HOTKEY SYSTRAY_MENU) f in
  let f := flags_insert (is_some (iv_tray_event patch)) SYSTRAY_CLICK_BEHAVIOR f in
  let f := flags_insert (is_some (iv_enable_auto_light_weight_mode patch)) LIGHT_WEIGHT f in
  let f := flags_insert (is_some (iv_tray_proxy_groups_display_mode patch)) SYSTRAY_MENU f in
  let f := flags_insert (is_some (iv_app_log_level patch)) LOG_LEVEL f in
  let f := flags_insert (is_some (iv_app_log_max_size patch) || is_some (iv_app_log_max_count patch)) LOG_FILE f in
  flags_insert (is_some (iv_tray_inline_outbound_modes patch)) SYSTRAY_MENU f.

Section settings.
Context {W : Type} `{CoreOs W} `{SettingsOs W} `{MappingLib} (platform : Platform).

Let windows : bool := bool_decide (platform = Windows).

Definition when (flags flag : Z) (m : CM W unit) : CM W unit := if flags_contain flags flag then m else ret tt.
Definition run_unit (f : W -> W) : CM W unit := call (fun w => (tt, f w)).

Definition process_terminated_flags (flags : Z) (patch : IVerge) : CM W unit :=
  when flags RESTART_CORE (generate ;! restart_core windows) ;!
  when flags CLASH_CONFIG (update_config_checked windows ;! run_unit so_refresh_clash) ;!
  when flags VERGE_CONFIG (run_unit so_refresh_verge) ;!
  when flags LAUNCH (await_ok so_update_launch) ;!
  when flags LANGUAGE
    (match iv_language patch with Some language => run_unit (so_set_locale language) | None => ret tt end) ;!
  when flags SYS_PROXY (await_ok so_update_sysproxy ;! wait_unit so_refresh_guard) ;!
  when flags HOTKEY
    (match iv_hotkeys patch with Some hotkeys => await_ok (so_update_hotkeys hotkeys) | None => ret tt end) ;!
  when flags SYSTRAY_MENU (await_ok so_update_menu) ;!
  when flags SYSTRAY_ICON
    (let! s := get in
     await_ok (so_update_icon (ve_latest (cm_verge s))) ;!
     match on_macos platform (iv_enable_tray_speed patch) with
     | Some speed => run_unit (so_update_speed_task speed)
     | None => ret tt
     end) ;!
  when flags SYSTRAY_TOOLTIP (await_ok so_update_tooltip) ;!
  when flags SYSTRAY_CLICK_BEHAVIOR (await_ok so_update_click_behavior) ;!
  when flags LIGHT_WEIGHT
    (if default false (iv_enable_auto_light_weight_mode patch)
     then wait_unit so_enable_auto_light_weight else run_unit so_disable_auto_light_weight) ;!
  when flags LOG_LEVEL (call_ok (so_update_log_level (get_log_level patch))) ;!
  when flags LOG_FILE
    (await_ok (so_update_log_config (default 128 (iv_app_log_max_size patch)) (default 8 (iv_app_log_max_count patch)))).

Definition patch_verge (patch : IVerge) (not_save_file : bool) : CM W unit :=
  on_verge (ve_edit (verge_patch_config patch)) ;!
  let! process_flag_result :=
    (process_terminated_flags (determine_update_flags platform patch) patch ;! ret (Ok tt : result unit CoreError)) in
  match process_flag_result with
  | Err err => on_verge ve_discard ;! raise err
  | Ok _ =>
      on_verge ve_apply ;!
      let! s := get in
      wait_unit (so_refresh_backup_settings (ve_latest (cm_verge s))) ;!
      if not_save_file then ret tt
      else let! s := get in await_ok (co_save_verge (ve_committed (cm_verge s)))
  end.

(** The three ways a patch of the core's settings takes effect. *)
Definition activate_patch (patch : Mapping) : CM W unit :=
  (if contains_key "secret" patch || contains_key "external-controller" patch
   then generate ;! restart_core windows
   else if contains_key "allow-lan" patch then update_config_checked windows
   else
     (if contains_key "mode" patch then wait_unit so_update_menu_and_icon else ret tt) ;!
     on_runtime (ve_edit (runtime_patch_config patch)) ;!
     update_config_checked windows) ;!
  run_unit so_refresh_clash.

Definition patch_clash (patch : Mapping) : CM W unit :=
  on_clash (ve_edit (clash_patch_config patch)) ;!
  let! res := (activate_patch patch ;! ret (Ok tt : result unit CoreError)) in
  match res with
  | Ok _ =>
      on_clash ve_apply ;!
      let! s := get in
      await_ok (so_save_clash (ve_committed (cm_clash s)))
  | Err err => on_clash ve_discard ;! raise err
  end.

Definition change_clash_mode (mode : string) : CM W unit :=
  let mapping := insert_str "mode" (VString mode) [] in
  await_ok (so_patch_base_mode mode) ;!
  on_clash (ve_edit (clash_patch_config mapping)) ;!
  on_clash ve_apply ;!
  let! s := get in
  let! saved := await (so_save_clash (ve_committed (cm_clash s))) in
  (if is_ok saved then run_unit so_refresh_clash ;! wait_unit so_update_menu_and_icon else ret tt) ;!
  let! s := get in
  if default false (iv_auto_close_connection (ve_committed (cm_verge s))) then run_unit so_close_connections else ret tt.
End settings.

(** * What becomes of a patch of the settings

    The flags of a patch are exactly those its settings call for.  A patch whose actions all
    succeed is committed; one of whose actions fails is reported as an error and stays in
    the draft, although the code means to discard it. *)

(** ** the flags *)

Inductive UpdateFlag : Type :=
| FlagRestartCore | FlagClashConfig | FlagVergeConfig | FlagLaunch | FlagSysProxy | FlagIcon | FlagHotkey | FlagMenu
| FlagTooltip | FlagClick | FlagLightWeight | FlagLanguage | FlagLogLevel | FlagLogFile.

Definition flag_bits (f : UpdateFlag) : Z :=
  match f with
  | FlagRestartCore => RESTART_CORE | FlagClashConfig => CLASH_CONFIG | FlagVergeConfig => VERGE_CONFIG
  | FlagLaunch => LAUNCH | FlagSysProxy => SYS_PROXY | FlagIcon => SYSTRAY_ICON | FlagHotkey => HOTKEY
  | FlagMenu => SYSTRAY_MENU | FlagTooltip => SYSTRAY_TOOLTIP | FlagClick => SYSTRAY_CLICK_BEHAVIOR
  | FlagLightWeight => LIGHT_WEIGHT | FlagLanguage => LANGUAGE | FlagLogLevel => LOG_LEVEL | FlagLogFile => LOG_FILE
  end.

(** The settings a flag depends on, as whether the patch has them. *)
Definition flag_settings (platform : Platform) (p : IVerge) (f : UpdateFlag) : list bool :=
  let tray := [is_some (iv_enable_tun_mode p); is_some (iv_enable_system_proxy p)] in
  match f with
  | FlagRestartCore => [restart_core_needed platform p]
  | FlagClashConfig => [is_some (iv_enable_tun_mode p)]
  | FlagVergeConfig => [is_some (iv_enable_global_hotkey p); is_some (iv_home_cards p)]
  | FlagLaunch => [is_some (iv_enable_auto_launch p)]
  | FlagSysProxy => [is_some (iv_enable_system_proxy p); is_some (iv_system_proxy_bypass p);
      is_some (iv_pac_file_content p); is_some (iv_proxy_auto_config p); is_some (iv_enable_proxy_guard p);
      is_some (iv_proxy_guard_duration p)]
  | FlagIcon => tray ++ [is_some (iv_common_tray_icon p); is_some (iv_sysproxy_tray_icon p);
      is_some (iv_tun_tray_icon p); is_some (on_macos platform (iv_tray_icon p));
      is_some (on_macos platform (iv_enable_tray_speed p))]
  | FlagHotkey => [is_some (iv_hotkeys p)]
  | FlagMenu => tray ++ [is_some (iv_language p); is_some (iv_hotkeys p);
      is_some (iv_tray_proxy_groups_display_mode p); is_some (iv_tray_inline_outbound_modes p)]
  | FlagTooltip => tray ++ [is_some (iv_language p)]
  | FlagClick => [is_some (iv_tray_event p)]
  | FlagLightWeight => [is_some (iv_enable_auto_light_weight_mode p)]
  | FlagLanguage => [is_some (iv_language p)]
  | FlagLogLevel => [is_some (iv_app_log_level p)]
  | FlagLogFile => [is_some (iv_app_log_max_size p); is_some (iv_app_log_max_count p)]
  end.

Definition flag_index (f : UpdateFlag) : Z :=
  match f with
  | FlagRestartCore => 0 | FlagClashConfig => 1 | FlagVergeConfig => 2 | FlagLaunch => 3 | FlagSysProxy => 4
  | FlagIcon => 5 | FlagHotkey => 6 | FlagMenu => 7 | FlagTooltip => 8 | FlagClick => 9 | FlagLightWeight => 10
  | FlagLanguage => 11 | FlagLogLevel => 12 | FlagLogFile => 13
  end.

Lemma flags_contain_bit flags f : flags_contain flags (flag_bits f) = Z.testbit flags (flag_index f).
Proof.
  assert (flag_bits f = 2 ^ flag_index f) as -> by (by destruct f).
  assert (Hi : 0 <= flag_index f) by (by destruct f). unfold flags_contain.
  destruct (Z.eqb_spec (Z.land flags (2 ^ flag_index f)) (2 ^ flag_index f)) as [He|Hne].
  - rewrite <- (Z.pow2_bits_true (flag_index f) Hi), <- He, Z.land_spec, Z.pow2_bits_true by done.
    by rewrite andb_true_r.
  - symmetry. apply not_true_is_false. intros Ht. apply Hne, Z.bits_inj'. intros n Hn.
    rewrite Z.land_spec. destruct (Z.eq_dec (flag_index f) n) as [<-|Hd].
    + by rewrite Ht.
    + by rewrite Z.pow2_bits_false, andb_false_r by congruence.
Qed.

Lemma flags_insert_bit b other flags n :
  Z.testbit (flags_insert b other flags) n = Z.testbit flags n || (b && Z.testbit other n).
Proof. unfold flags_insert. destruct b; [apply Z.lor_spec|by rewrite orb_false_r]. Qed.

(** A flag is set exactly when the patch has one of the settings the flag is for, on every
    platform, and no other bit is set. *)
Theorem update_flags_are_exact platform patch f :
  flags_contain (determine_update_flags platform patch) (flag_bits f) = existsb id (flag_settings platform patch f).
Proof.
  rewrite flags_contain_bit. unfold determine_update_flags. rewrite !flags_insert_bit.
  destruct f; cbn -[is_some on_macos orb restart_core_needed]; rewrite ?andb_false_r, ?andb_true_r, ?orb_false_r; cbn [orb];
    unfold id; rewrite ?orb_assoc, ?orb_false_r; try reflexivity; btauto.
Qed.

(** ** the drafts outlive the actions *)

Lemma land_clash {W} (s : CoreState W) : cm_clash (land s) = cm_clash s.
Proof. unfold land. by destruct (cm_others s) as [|[f|] l]. Qed.
Lemma land_verge {W} (s : CoreState W) : cm_verge (land s) = cm_verge s.
Proof. unfold land. by destruct (cm_others s) as [|[f|] l]. Qed.
#[export] Hint Rewrite @land_clash @land_verge : land.

Section kept.
Context {W : Type} `{CoreOs W} `{SettingsOs W} `{MappingLib} (platform : Platform) (P : CoreState W -> Prop).
Hypothesis HP : lifecycle_closed P.
Hypothesis HR : forall x s, P s -> P (cm_set_runtime x s).

Lemma closed_generate : preserves P (generate (W := W)).
Proof.
  unfold generate, await_ok. apply preserves_bind; [apply preserves_bind|]; [by apply preserves_await|..].
  - intros r. apply preserves_lift.
  - intros [[c e] l]. by apply closed_on_runtime.
Qed.

Lemma closed_update_checked windows : preserves P (update_config_checked windows).
Proof.
  apply preserves_bind; [by apply closed_update_config|]. intros o. destruct (outcome_is_valid o); eauto with preserves.
Qed.

Lemma preserves_when flags flag (m : CM W unit) : preserves P m -> preserves P (when flags flag m).
Proof. intros Hm. unfold when. destruct (flags_contain flags flag); [done|apply preserves_ret]. Qed.

Ltac settled_steps :=
  repeat match goal with
    | |- preserves _ (when _ _ _) => apply preserves_when
    | |- preserves _ generate => by apply closed_generate
    | |- preserves _ (restart_core _) => by apply closed_restart_core
    | |- preserves _ (update_config_checked _) => by apply closed_update_checked
    | |- preserves _ (on_runtime _) => by apply closed_on_runtime
    | |- preserves _ (await _) => by apply preserves_await
    | |- preserves _ (call _) => by apply preserves_call
    | |- preserves _ (bind _ _) => apply preserves_bind; [|intros ?]
    | |- preserves _ (match ?x with _ => _ end) => destruct x
    | |- _ => solve [eauto with preserves nocore]
    | |- _ => progress unfold await_ok, call_ok, wait_unit, run_unit
    end.

Lemma closed_process_flags flags patch : preserves P (process_terminated_flags platform flags patch).
Proof. unfold process_terminated_flags. settled_steps. Qed.

Lemma closed_activate_patch patch : preserves P (activate_patch platform patch).
Proof. unfold activate_patch. settled_steps. Qed.
End kept.

Lemma clash_closed {W} (v : Versioned Mapping) : lifecycle_closed (fun s : CoreState W => cm_clash s = v).
Proof. split; try done. intros s <-. apply land_clash. Qed.
Lemma verge_closed {W} (v : Versioned IVerge) : lifecycle_closed (fun s : CoreState W => cm_verge s = v).
Proof. split; try done. intros s <-. apply land_verge. Qed.

Section patches.
Context {W : Type} `{CoreOs W} `{SettingsOs W} `{MappingLib} (platform : Platform).
Implicit Types s : CoreState W.

(** What a patch does to the draft it is put in, by the outcome of its actions. *)
Definition settled_patch {T} (f : T -> T) (actions answer : result unit CoreError) (before after : Versioned T) : Prop :=
  match actions with
  | Ok _ => ve_committed after = f (ve_latest before) /\ ve_draft after = None
  | Err e => answer = Err e /\ ve_committed after = ve_committed before /\ ve_draft after = Some (f (ve_latest before))
  end.

Lemma patch_verge_settles patch not_save_file s :
  settled_patch (verge_patch_config patch)
    (process_terminated_flags platform (determine_update_flags platform patch) patch
       (cm_set_verge (ve_edit (verge_patch_config patch) (cm_verge s)) s)).1
    (patch_verge platform patch not_save_file s).1
    (cm_verge s) (cm_verge (patch_verge platform patch not_save_file s).2).
Proof.
  set (s1 := cm_set_verge _ s).
  assert (Hk : wp (process_terminated_flags platform (determine_update_flags platform patch) patch)
    (fun _ s' => cm_verge s' = cm_verge s1) s1).
  { apply (preserves_wp (fun s' => cm_verge s' = cm_verge s1)); [|done].
    by apply closed_process_flags; [apply verge_closed|]. }
  change (wp (patch_verge platform patch not_save_file) (fun r s' => settled_patch (verge_patch_config patch)
    (process_terminated_flags platform (determine_update_flags platform patch) patch s1).1 r (cm_verge s) (cm_verge s')) s).
  unfold patch_verge, on_verge. do 2 core_step. fold s1. do 2 core_step. unfold wp in Hk |- * at 1.
  destruct (process_terminated_flags _ _ _ s1) as [[[]|e] s2]; cbn [fst snd] in *; cbn beta iota; rewrite ?Hk; [|done].
  destruct not_save_file; repeat core_step; do 4 (cbn; autorewrite with land; rewrite ?Hk); done.
Qed.

Lemma patch_clash_settles patch s :
  settled_patch (clash_patch_config patch)
    (activate_patch platform patch (cm_set_clash (ve_edit (clash_patch_config patch) (cm_clash s)) s)).1
    (patch_clash platform patch s).1 (cm_clash s) (cm_clash (patch_clash platform patch s).2).
Proof.
  set (s1 := cm_set_clash _ s).
  assert (Hk : wp (activate_patch platform patch) (fun _ s' => cm_clash s' = cm_clash s1) s1).
  { apply (preserves_wp (fun s' => cm_clash s' = cm_clash s1)); [|done].
    by apply closed_activate_patch; [apply clash_closed|]. }
  change (wp (patch_clash platform patch) (fun r s' => settled_patch (clash_patch_config patch)
    (activate_patch platform patch s1).1 r (cm_clash s) (cm_clash s')) s).
  unfold patch_clash, on_clash. do 2 core_step. fold s1. do 2 core_step. unfold wp in Hk |- * at 1.
  destruct (activate_patch _ _ s1) as [[[]|e] s2]; cbn [fst snd] in *; cbn beta iota; rewrite ?Hk; [|done].
  repeat core_step; cbn; autorewrite with land; cbn; by rewrite ?Hk.
Qed.

(** A patch of either kind is committed when all its actions succeed, and otherwise the
    error is answered and the patch stays in the draft over the unchanged settings. *)
Theorem settings_patch_settles s :
  (forall patch not_save_file,
     let s1 := cm_set_verge (ve_edit (verge_patch_config patch) (cm_verge s)) s in
     let (answer, s') := patch_verge platform patch not_save_file s in
     settled_patch (verge_patch_config patch)
       (process_terminated_flags platform (determine_update_flags platform patch) patch s1).1 answer
       (cm_verge s) (cm_verge s')) /\
  (forall patch,
     let s1 := cm_set_clash (ve_edit (clash_patch_config patch) (cm_clash s)) s in
     let (answer, s') := patch_clash platform patch s in
     settled_patch (clash_patch_config patch) (activate_patch platform patch s1).1 answer (cm_clash s) (cm_clash s')).
Proof.
  split.
  - intros patch b. pose proof (patch_verge_settles patch b s) as Hp. by destruct (patch_verge _ _ _ s).
  - intros patch. pose proof (patch_clash_settles patch s) as Hp. by destruct (patch_clash _ _ s).
Qed.

(** C36: a patch of the application's settings one of whose actions fails
    answers the error, but stays in the draft: the settings in use from then on
    contain it, and the next patch that succeeds commits it too. *)
Theorem failed_settings_patch_is_not_discarded patch not_save_file s e s1 :
  process_terminated_flags platform (determine_update_flags platform patch) patch
    (cm_set_verge (ve_edit (verge_patch_config patch) (cm_verge s)) s) = (Err e, s1) ->
  let s' := (patch_verge platform patch not_save_file s).2 in
  (patch_verge platform patch not_save_file s).1 = Err e /\
  ve_committed (cm_verge s') = ve_committed (cm_verge s) /\
  ve_latest (cm_verge s') = verge_patch_config patch (ve_latest (cm_verge s)) /\
  forall patch' not_save_file',
    (process_terminated_flags platform (determine_update_flags platform patch') patch'
       (cm_set_verge (ve_edit (verge_patch_config patch') (cm_verge s')) s')).1 = Ok tt ->
    ve_committed (cm_verge (patch_verge platform patch' not_save_file' s').2) =
      verge_patch_config patch' (verge_patch_config patch (ve_latest (cm_verge s))).
Proof.
  intros Hf s'. pose proof (patch_verge_settles patch not_save_file s) as Hp. rewrite Hf in Hp.
  destruct Hp as (Ha & Hc & Hd). fold s' in Hc, Hd.
  assert (Hl : ve_latest (cm_verge s') = verge_patch_config patch (ve_latest (cm_verge s))).
  { unfold ve_latest at 1. by rewrite Hd. }
  split_and!; try done. intros patch' b Ho. pose proof (patch_verge_settles patch' b s') as Hp.
  rewrite Ho in Hp. destruct Hp as [-> _]. by rewrite Hl.
Qed.

(** After a patch that restarts the core with a new secret or control address the committed
    runtime configuration is still the one before: the new one is only in the draft, from
    which the next update that fails removes it. *)
Theorem restarting_patch_leaves_runtime_uncommitted patch s :
  contains_key "secret" patch || contains_key "external-controller" patch = true ->
  ve_committed (cm_runtime (patch_clash platform patch s).2) = ve_committed (cm_runtime s).
Proof.
  intros Hp. set (P := fun s' => ve_committed (cm_runtime s') = ve_committed (cm_runtime s)).
  assert (HP : lifecycle_closed P). { split; try done. unfold P. intros x. by rewrite land_runtime. }
  enough (preserves P (patch_clash platform patch)) as Hk by (by apply (Hk s)).
  unfold patch_clash, activate_patch, on_clash, run_unit, generate, await_ok. rewrite Hp.
  repeat match goal with
    | |- preserves _ (restart_core _) => by apply closed_restart_core
    | |- preserves _ (await _) => by apply preserves_await
    | |- preserves _ (call _) => by apply preserves_call
    | |- preserves _ (on_runtime _) => by (apply preserves_modify; intros ? ?)
    | |- preserves _ (modify _) => by (apply preserves_modify; intros ? ?)
    | |- preserves _ (bind _ _) => apply preserves_bind; [|intros ?]
    | |- preserves _ (match ?x with _ => _ end) => destruct x
    | |- _ => solve [eauto with preserves nocore]
    end.
Qed.
End patches.
