(* ===== verification/DesktopServices.v ===== *)
(** * DesktopServices: the system proxy and the system service

    [src-tauri/src/core/sysopt.rs]: what the settings make of the operating system's proxy
    and of its guard, and in which order the two proxies are set.  [src-tauri/src/core/
    service.rs], the manager of the privileged service: its status, the operations that
    exclude one another, and the wait for the service's channel.

    Setting a proxy, the guard's thread, and the installers are the classes [ProxyOs] and
    [ServiceOs]; what the installers run is left out. *)

From Stdlib Require Import Ascii String.
From S2P Require Import Prelude Text Yaml Enhance ClashConfig Verge.

(** ** the system proxy *)

Record Sysproxy := { sp_enable : bool; sp_host : string; sp_port : Z; sp_bypass : string }.
Record Autoproxy := { ap_enable : bool; ap_url : string }.
Inductive GuardType : Type := GuardNone | GuardSysproxy (s : Sysproxy) | GuardAutoproxy (a : Autoproxy).
Inductive ProxyApplyStep : Type := StepSysproxy | StepAutoproxy.

Definition proxy_apply_steps (sys_enabled auto_enabled : bool) : list ProxyApplyStep :=
  if sys_enabled && negb auto_enabled then [StepAutoproxy; StepSysproxy] else [StepSysproxy; StepAutoproxy].

Definition proxy_apply_required (sys_enabled auto_enabled current_state_is_clear : bool) : bool :=
  sys_enabled || auto_enabled || negb current_state_is_clear.

Definition DEFAULT_BYPASS (platform : Platform) : string :=
  match platform with
  | Windows => "localhost;127.*;192.168.*;10.*;172.16.*;172.17.*;172.18.*;172.19.*;172.20.*;172.21.*;172.22.*;172.23.*;172.24.*;172.25.*;172.26.*;172.27.*;172.28.*;172.29.*;172.30.*;172.31.*;<local>"
  | Linux => "localhost,127.0.0.1,192.168.0.0/16,10.0.0.0/8,172.16.0.0/12,::1"
  | OtherUnix => "127.0.0.1,192.168.0.0/16,10.0.0.0/8,172.16.0.0/12,localhost,*.local,*.crashlytics.com,<local>"
  end.

Definition get_bypass (platform : Platform) (verge : IVerge) : string :=
  let use_default := default true (iv_use_default_bypass verge) in
  let custom_bypass := default ""%string (iv_system_proxy_bypass verge) in
  if is_empty custom_bypass then DEFAULT_BYPASS platform
  else if use_default then String.append (DEFAULT_BYPASS platform) (String "," custom_bypass)
  else custom_bypass.

Class ProxyOs (W : Type) := {
  px_system_enabled : W -> option bool;       (* [None]: it cannot be read *)
  px_auto_enabled : W -> option bool;
  px_set_system : Sysproxy -> W -> result unit string * W;
  px_set_auto : Autoproxy -> W -> result unit string * W;
  px_guard_start : Z -> W -> W;               (* with its interval in seconds *)
  px_guard_stop : W -> W;
}.

Record Sysopt (W : Type) := {
  sy_world : W;
  sy_reset_sysproxy : bool;
  sy_inner : Sysproxy * Autoproxy;
  sy_guard : GuardType;
}.
Arguments sy_world {W} _.
Arguments sy_reset_sysproxy {W} _.
Arguments sy_inner {W} _.
Arguments sy_guard {W} _.

Section sysopt.
Context {W : Type} `{ProxyOs W} (platform : Platform) (singleton_port : Z).

Definition sysopt_default (w : W) : Sysopt W :=
  {| sy_world := w; sy_reset_sysproxy := false;
     sy_inner := ({| sp_enable := false; sp_host := ""; sp_port := 0; sp_bypass := "" |},
                  {| ap_enable := false; ap_url := "" |});
     sy_guard := GuardNone |}.

Definition proxy_state_is_clear (w : W) : bool :=
  bool_decide (px_system_enabled w = Some false) && bool_decide (px_auto_enabled w = Some false).

(** Settings steps until one fails. *)
Fixpoint apply_steps (steps : list ProxyApplyStep) (sys : Sysproxy) (auto : Autoproxy) (w : W) : result unit string * W :=
  match steps with
  | [] => (Ok tt, w)
  | step :: steps =>
      match (match step with StepAutoproxy => px_set_auto auto w | StepSysproxy => px_set_system sys w end) with
      | (Ok _, w) => apply_steps steps sys auto w
      | (Err e, w) => (Err e, w)
      end
  end.

(** What the settings ask for: both proxies and the guard. *)
Definition wanted_proxy (verge : IVerge) (clash : Mapping) : Sysproxy * Autoproxy * GuardType :=
  let port := match iv_verge_mixed_port verge with Some port => port | None => guard_mixed_port clash end in
  let sys_enable := default false (iv_enable_system_proxy verge) in
  let pac_enable := default false (iv_proxy_auto_config verge) in
  let proxy_host := default "127.0.0.1"%string (iv_proxy_host verge) in
  let proxy_guard := default false (iv_enable_proxy_guard verge) in
  let sys e := {| sp_enable := e; sp_host := proxy_host; sp_port := port; sp_bypass := get_bypass platform verge |} in
  let auto e := {| ap_enable := e;
                   ap_url := String.append "http://" (String.append proxy_host
                               (String ":" (String.append (print_uint singleton_port) "/commands/pac"))) |} in
  if negb sys_enable then (sys false, auto false, GuardNone)
  else if pac_enable then (sys false, auto true, if proxy_guard then GuardAutoproxy (auto true) else GuardNone)
  else (sys true, auto false, if proxy_guard then GuardSysproxy (sys true) else GuardNone).

Definition update_sysproxy (verge : IVerge) (clash : Mapping) (sy : Sysopt W) : result unit string * Sysopt W :=
  let '(sys, auto, guard_type) := wanted_proxy verge clash in
  let settled w := {| sy_world := w; sy_reset_sysproxy := sy_reset_sysproxy sy; sy_inner := (sys, auto);
                      sy_guard := guard_type |} in
  if bool_decide (platform = OtherUnix)
     && negb (proxy_apply_required (sp_enable sys) (ap_enable auto) (proxy_state_is_clear (sy_world sy)))
  then (Ok tt, settled (sy_world sy))
  else
    let (r, w) := apply_steps (proxy_apply_steps (sp_enable sys) (ap_enable auto)) sys auto (sy_world sy) in
    (r, settled w).

Definition refresh_guard (verge : IVerge) (sy : Sysopt W) : Sysopt W :=
  let with_world w := {| sy_world := w; sy_reset_sysproxy := sy_reset_sysproxy sy; sy_inner := sy_inner sy;
                         sy_guard := sy_guard sy |} in
  if negb (default false (iv_enable_system_proxy verge)) then with_world (px_guard_stop (sy_world sy))
  else if negb (default false (iv_enable_proxy_guard verge)) then with_world (px_guard_stop (sy_world sy))
  else with_world (px_guard_start (default 30 (iv_proxy_guard_duration verge)) (sy_world sy)).

(** A reset that runs already makes another one a success without doing anything. *)
Definition reset_sysproxy (sy : Sysopt W) : result unit string * Sysopt W :=
  if sy_reset_sysproxy sy then (Ok tt, sy)
  else
    let '(sys, auto) := sy_inner sy in
    let sys := {| sp_enable := false; sp_host := sp_host sys; sp_port := sp_port sys; sp_bypass := sp_bypass sys |} in
    let auto := {| ap_enable := false; ap_url := ap_url auto |} in
    let (r, w) := apply_steps [StepSysproxy; StepAutoproxy] sys auto (sy_world sy) in
    (r, {| sy_world := w; sy_reset_sysproxy := false; sy_inner := (sys, auto); sy_guard := GuardNone |}).
End sysopt.

(** ** the manager of the service *)

Inductive ServiceStatus : Type :=
| SvReady | SvNeedsReinstall | SvInstallRequired | SvUninstallRequired | SvReinstallRequired | SvForceReinstallRequired
| SvUnavailable (reason : string).

Class ServiceOs (W : Type) := {
  sv_ipc_path_exists : W -> bool;
  sv_connect : W -> bool * W;
  sv_reinstall_needed : W -> bool * W;
  sv_install : W -> bool * W;
  sv_uninstall : W -> bool * W;
  sv_sleep : Z -> W -> W;                    (* milliseconds *)
  sv_update_menu : W -> bool * W;
}.

Record ServiceManager (W : Type) := { sm_world : W; sm_status : ServiceStatus; sm_operation_running : bool }.
Arguments sm_world {W} _.
Arguments sm_status {W} _.
Arguments sm_operation_running {W} _.

Section service.
Context {W : Type} `{ServiceOs W}.
Implicit Types m : ServiceManager W.

Definition service_manager (w : W) : ServiceManager W :=
  {| sm_world := w; sm_status := SvUnavailable "Need Checks"; sm_operation_running := false |}.

Definition set_status (st : ServiceStatus) m : ServiceManager W :=
  {| sm_world := sm_world m; sm_status := st; sm_operation_running := sm_operation_running m |}.
Definition sm_set_world (w : W) m : ServiceManager W :=
  {| sm_world := w; sm_status := sm_status m; sm_operation_running := sm_operation_running m |}.
Definition sm_set_running (b : bool) m : ServiceManager W :=
  {| sm_world := sm_world m; sm_status := sm_status m; sm_operation_running := b |}.

Definition IPC_RETRY_DELAY : Z := 250.
Definition IPC_MAX_RETRIES : nat := 20.

(** One attempt and [retries] more, a delay before each of them. *)
Fixpoint ipc_attempts (retries : nat) (w : W) : bool * W :=
  let (ok, w) := if sv_ipc_path_exists w then sv_connect w else (false, w) in
  if ok : bool then (true, w)
  else match retries with O => (false, w) | S retries => ipc_attempts retries (sv_sleep IPC_RETRY_DELAY w) end.

Definition wait_for_service_ipc m : bool * ServiceManager W :=
  let (ok, w) := ipc_attempts IPC_MAX_RETRIES (sm_world m) in
  let m := sm_set_world w m in
  if ok : bool then (true, set_status SvReady m)
  else (false, set_status (SvUnavailable "Waiting for service to be available") m).

(** The text is not a format string: it has the braces in it. *)
Definition service_init m : bool * ServiceManager W :=
  let (ok, w) := sv_connect (sm_world m) in
  let m := sm_set_world w m in
  if ok : bool then (true, m) else (false, set_status (SvUnavailable "服务连接失败: {e}") m).

Definition reinstall_service (w : W) : bool * W := let (_, w) := sv_uninstall w in sv_install w.

(** A command, and then the wait for the channel. *)
Definition command_and_wait (command : W -> bool * W) m : bool * ServiceManager W :=
  match command (sm_world m) with
  | (true, w) => wait_for_service_ipc (sm_set_world w m)
  | (false, w) => (false, sm_set_world w m)
  end.

Definition apply_service_status (status : ServiceStatus) m : bool * ServiceManager W :=
  let m := set_status status m in
  match status with
  | SvReady => (true, m)
  | SvNeedsReinstall | SvReinstallRequired | SvForceReinstallRequired => command_and_wait reinstall_service m
  | SvInstallRequired =>
      match command_and_wait sv_install m with
      | (false, m) => (false, m)
      | (true, m) =>
          let (needed, w) := sv_reinstall_needed (sm_world m) in
          let m := sm_set_world w m in
          if needed : bool then command_and_wait reinstall_service (set_status SvNeedsReinstall m) else (true, m)
      end
  | SvUninstallRequired =>
      match sv_uninstall (sm_world m) with
      | (true, w) => (true, set_status (SvUnavailable "Service Uninstalled") (sm_set_world w m))
      | (false, w) => (false, sm_set_world w m)
      end
  | SvUnavailable _ => (false, m)
  end.

Definition run_operation (operation : ServiceManager W -> bool * ServiceManager W) m : bool * ServiceManager W :=
  if sm_operation_running m then (false, m)
  else
    let (ok, m) := operation (sm_set_running true m) in
    let m := sm_set_running false m in
    if ok : bool then let (ok, w) := sv_update_menu (sm_world m) in (ok, sm_set_world w m) else (false, m).

Definition service_refresh m : bool * ServiceManager W :=
  run_operation (fun m =>
    let (needed, w) := sv_reinstall_needed (sm_world m) in
    apply_service_status (if needed : bool then SvNeedsReinstall else SvReady) (sm_set_world w m)) m.

Definition handle_service_status (status : ServiceStatus) m : bool * ServiceManager W :=
  run_operation (apply_service_status status) m.
End service.

(** ** what holds of them *)

(** Setting a proxy sets it; on Windows, turning the automatic proxy off also turns the
    system proxy off. *)
Class ProxyLaws (W : Type) `{ProxyOs W} := {
  system_on : W -> bool;
  auto_on : W -> bool;
  law_read_system w b : px_system_enabled w = Some b -> b = system_on w;
  law_read_auto w b : px_auto_enabled w = Some b -> b = auto_on w;
  law_set_system s w w' : px_set_system s w = (Ok tt, w') -> system_on w' = sp_enable s /\ auto_on w' = auto_on w;
  law_set_auto a w w' : px_set_auto a w = (Ok tt, w') ->
    auto_on w' = ap_enable a /\ (system_on w' = system_on w \/ (ap_enable a = false /\ system_on w' = false));
}.

Section proxy.
Context {W : Type} `{HL : ProxyLaws W} (platform : Platform) (singleton_port : Z).

(** The order of the steps is right whatever turning the automatic proxy off does. *)
Lemma apply_steps_spec sys auto w w' : sp_enable sys && ap_enable auto = false ->
  apply_steps (proxy_apply_steps (sp_enable sys) (ap_enable auto)) sys auto w = (Ok tt, w') ->
  system_on w' = sp_enable sys /\ auto_on w' = ap_enable auto.
Proof.
  intros Hne. unfold proxy_apply_steps. destruct (sp_enable sys) eqn:Hs, (ap_enable auto) eqn:Ha; try done; cbn.
  - destruct (px_set_auto auto w) as [[[]|e] w1] eqn:E1; [|done].
    destruct (px_set_system sys w1) as [[[]|e] w2] eqn:E2; [|done]. intros [= <-].
    apply law_set_auto in E1 as [E1 _]. apply law_set_system in E2 as [-> ->]. by rewrite E1.
  - destruct (px_set_system sys w) as [[[]|e] w1] eqn:E1; [|done].
    destruct (px_set_auto auto w1) as [[[]|e] w2] eqn:E2; [|done]. intros [= <-].
    apply law_set_system in E1 as [E1 _]. apply law_set_auto in E2 as [-> Hk]. rewrite Ha, E1, Hs in *.
    destruct Hk as [->|[? _]]; done.
  - destruct (px_set_system sys w) as [[[]|e] w1] eqn:E1; [|done].
    destruct (px_set_auto auto w1) as [[[]|e] w2] eqn:E2; [|done]. intros [= <-].
    apply law_set_system in E1 as [E1 _]. apply law_set_auto in E2 as [-> Hk]. rewrite E1, Hs in Hk.
    destruct Hk as [->|[_ ->]]; done.
Qed.

(** After an update that succeeds the system has the proxy the settings ask for and only
    that one: none when the proxy is off, the automatic one in PAC mode and the global one
    otherwise; and the guard watches nothing else. *)
Theorem system_proxy_follows_the_settings verge clash (sy sy' : Sysopt W) :
  update_sysproxy platform singleton_port verge clash sy = (Ok tt, sy') ->
  let on := default false (iv_enable_system_proxy verge) in
  let pac := default false (iv_proxy_auto_config verge) in
  system_on (sy_world sy') = on && negb pac /\ auto_on (sy_world sy') = on && pac /\
  match sy_guard sy' with
  | GuardNone => True
  | GuardSysproxy s => s = (sy_inner sy').1 /\ sp_enable s = true /\ system_on (sy_world sy') = true
  | GuardAutoproxy a => a = (sy_inner sy').2 /\ ap_enable a = true /\ auto_on (sy_world sy') = true
  end.
Proof.
  unfold update_sysproxy, wanted_proxy.
  destruct (default false (iv_enable_system_proxy verge)) eqn:Hon, (default false (iv_proxy_auto_config verge)) eqn:Hpac,
    (default false (iv_enable_proxy_guard verge)) eqn:Hg; cbn [negb andb];
    set (sys := {| sp_enable := _ |}); set (auto := {| ap_enable := _ |});
    match goal with |- context [if ?b then _ else _] => destruct b eqn:Hb end; cbn zeta.
  all: try (apply andb_true_iff in Hb as [_ Hb%negb_true_iff]; cbn in Hb).
  all: try (apply negb_false_iff, andb_true_iff in Hb as [H1%bool_decide_eq_true H2%bool_decide_eq_true];
            intros [= <-]; cbn; by rewrite <- (law_read_system _ _ H1), <- (law_read_auto _ _ H2)).
  all: try done.
  all: destruct (apply_steps _ sys auto _) as [[[]|e] w] eqn:Hs; [|done]; intros [= <-];
    apply apply_steps_spec in Hs as [H1 H2]; [|done]; cbn; by rewrite H1, H2.
Qed.
End proxy.

Section status.
Context {W : Type} `{ServiceOs W}.
Implicit Types m : ServiceManager W.

Lemma wait_for_service_ipc_ready m m' : wait_for_service_ipc m = (true, m') -> sm_status m' = SvReady.
Proof. unfold wait_for_service_ipc. destruct (ipc_attempts _ _) as [[] w]; by intros [= <-]. Qed.

Lemma command_and_wait_ready command m m' : command_and_wait command m = (true, m') -> sm_status m' = SvReady.
Proof. unfold command_and_wait. destruct (command _) as [[] w]; [apply wait_for_service_ipc_ready|done]. Qed.

Lemma apply_service_status_settles status m m' : apply_service_status status m = (true, m') ->
  sm_status m' = match status with SvUninstallRequired => SvUnavailable "Service Uninstalled" | _ => SvReady end.
Proof.
  destruct status; cbn; try apply command_and_wait_ready; try done.
  - by intros [= <-].
  - destruct (command_and_wait sv_install _) as [[] m1] eqn:Hc; [|done]. apply command_and_wait_ready in Hc.
    destruct (sv_reinstall_needed (sm_world m1)) as [[] w]; [apply command_and_wait_ready|]. by intros [= <-].
  - destruct (sv_uninstall (sm_world m)) as [[] w]; [|done]. by intros [= <-].
Qed.

(** An operation on the service that succeeds leaves it ready, or uninstalled when that was
    asked; no operation is running afterwards; and while one is running another is refused
    without doing anything. *)
Theorem service_operations_settle status m :
  (sm_operation_running m = true -> handle_service_status status m = (false, m)) /\
  (sm_operation_running m = false ->
     let (ok, m') := handle_service_status status m in
     sm_operation_running m' = false /\
     (ok = true -> sm_status m' =
        match status with SvUninstallRequired => SvUnavailable "Service Uninstalled" | _ => SvReady end)).
Proof.
  unfold handle_service_status, run_operation. split; [by intros ->|]. intros ->.
  destruct (apply_service_status status _) as [[] m1] eqn:Ha; [|done].
  apply apply_service_status_settles in Ha. cbn. by destruct (sv_update_menu (sm_world m1)).
Qed.
End status.
