(* ===== verification/Samples.v ===== *)
(** * Samples: concrete inputs

    A standard base64 codec, a small URL table and Ed25519/SHA-256 stand-ins
    that instantiate the library parameters of the model, with a v1 and a v2
    profile that validate: the inputs at which the theorems' hypotheses are
    shown to hold. *)

From Stdlib Require Import Ascii String.
From S2P Require Import Prelude Text NetState IpAddr Config ConfigV2 Ipc Sidecar DataPlane.
From S2P Require Import Policy Route RouteJournal RouteSafety.

(** ** base64, the standard alphabet with canonical padding *)

Definition b64_char (d : Z) : ascii :=
  ascii_of_N (Z.to_N (if d <? 26 then 65 + d else if d <? 52 then 71 + d
    else if d <? 62 then d - 4 else if d =? 62 then 43 else 47)).

Definition b64_value (c : ascii) : option Z :=
  let x := byte c in
  if (65 <=? x) && (x <=? 90) then Some (x - 65)
  else if (97 <=? x) && (x <=? 122) then Some (x - 71)
  else if (48 <=? x) && (x <=? 57) then Some (x + 4)
  else if x =? 43 then Some 62 else if x =? 47 then Some 63 else None.

Fixpoint b64_encode (l : list Z) : list ascii :=
  match l with
  | a :: b :: c :: l =>
      [b64_char (a / 4); b64_char ((a mod 4) * 16 + b / 16);
       b64_char ((b mod 16) * 4 + c / 64); b64_char (c mod 64)] ++ b64_encode l
  | [a; b] =>
      [b64_char (a / 4); b64_char ((a mod 4) * 16 + b / 16); b64_char ((b mod 16) * 4); "="%char]
  | [a] => [b64_char (a / 4); b64_char ((a mod 4) * 16); "="%char; "="%char]
  | [] => []
  end.

Fixpoint b64_decode (l : list ascii) : option (list Z) :=
  match l with
  | [] => Some []
  | [w; x; y; z] =>
      match b64_value w, b64_value x, b64_value y, b64_value z with
      | Some a, Some b, Some c, Some d =>
          Some [a * 4 + b / 16; (b mod 16) * 16 + c / 4; (c mod 4) * 64 + d]
      | Some a, Some b, Some c, None =>
          if bool_decide (z = "="%char) && (c mod 4 =? 0)
          then Some [a * 4 + b / 16; (b mod 16) * 16 + c / 4] else None
      | Some a, Some b, None, None =>
          if bool_decide (y = "="%char) && bool_decide (z = "="%char) && (b mod 16 =? 0)
          then Some [a * 4 + b / 16] else None
      | _, _, _, _ => None
      end
  | w :: x :: y :: z :: l =>
      match b64_value w, b64_value x, b64_value y, b64_value z, b64_decode l with
      | Some a, Some b, Some c, Some d, Some rest =>
          Some (a * 4 + b / 16 :: (b mod 16) * 16 + c / 4 :: (c mod 4) * 64 + d :: rest)
      | _, _, _, _, _ => None
      end
  | _ => None
  end.

#[global] Instance sample_base64 : Base64Lib := {
  BASE64_decode s := b64_decode (bytes s);
  BASE64_encode l := str (b64_encode l);
}.

Example b64_sample : BASE64_decode "aGVsbG8=" = Some [104; 101; 108; 108; 111].
Proof. vm_compute. reflexivity. Qed.

(** ** URLs *)

Record SampleUrl := {
  su_scheme : string;
  su_host : string;
  su_port : option Z;
  su_default : option Z;
  su_path : string;
}.

Definition sample_urls : list (string * SampleUrl) :=
  [ ("https://control.example.com/api"%string,
      {| su_scheme := "https"; su_host := "control.example.com"; su_port := None;
         su_default := Some 443; su_path := "/api" |});
    ("https://gw.example.com:4433"%string,
      {| su_scheme := "https"; su_host := "gw.example.com"; su_port := Some 4433;
         su_default := Some 4433; su_path := "/" |});
    ("wss://gw.example.com:8443/kynp"%string,
      {| su_scheme := "wss"; su_host := "gw.example.com"; su_port := Some 8443;
         su_default := Some 8443; su_path := "/kynp" |});
    ("tcp://gw.example.com:7000"%string,
      {| su_scheme := "tcp"; su_host := "gw.example.com"; su_port := Some 7000;
         su_default := Some 7000; su_path := "" |}) ].

#[global] Instance sample_url : UrlLib := {
  Url := SampleUrl;
  Url_parse s := option_map snd (find (fun p => bool_decide (p.1 = s)) sample_urls);
  scheme := su_scheme;
  username _ := ""%string;
  password _ := None;
  host_str u := Some (su_host u);
  port := su_port;
  port_or_known_default := su_default;
  path := su_path;
  query _ := None;
  fragment _ := None;
}.

(** ** profiles *)

Definition key_a : list Z := 9 :: replicate 31 0.
Definition key_b : list Z := 5 :: replicate 31 7.

Definition sample_profile : NetworkProfile := {|
  schema_version := 1;
  profile_id := "office";
  control_plane := "https://control.example.com/api";
  identity_ref := "keychain:office-device";
  site := {| site_id := "hq"; display_name := "Head office";
             private_cidrs := ["10.8.0.0/16"%string] |};
  tunnel := {| local_addresses := ["10.99.0.2/32"%string];
               peer_public_key := BASE64_encode key_a; keepalive_seconds := 25 |};
  transports := {| primary := Quic; fallbacks := [Wss; Tcp];
    endpoints := [ {| ep_transport := Quic; ep_url := "https://gw.example.com:4433" |};
                   {| ep_transport := Wss; ep_url := "wss://gw.example.com:8443/kynp" |};
                   {| ep_transport := Tcp; ep_url := "tcp://gw.example.com:7000" |} ] |};
  policy := {| connect_timeout_seconds := 10; health_interval_seconds := 5;
               fallback_threshold := 3 |};
|}.

Lemma sample_profile_valid : NetworkProfile_validate sample_profile = Ok tt.
Proof. vm_compute. reflexivity. Qed.

Definition sample_profile_v2 : ProductionNetworkProfileV2 := {|
  v2_schema_version := 2;
  v2_carrier_auth_version := 1;
  v2_profile_id := "office";
  v2_control_plane := "https://control.example.com/api";
  v2_identity_ref := "keychain:office-device";
  v2_site := {| v2_site_id := "hq"; v2_display_name := "Head office";
                v2_private_cidrs := ["10.8.0.0/16"; "10.9.0.0/24"]%string |};
  v2_tunnel := {| v2_local_addresses := ["10.99.0.2/32"%string];
                  v2_local_public_key := BASE64_encode key_a;
                  v2_peer_public_key := BASE64_encode key_b;
                  v2_keepalive_seconds := 25 |};
  v2_transports := {| v2_primary := QuicV2; v2_fallbacks := [WssV2; TcpV2];
    v2_endpoints := [ {| v2_transport := QuicV2; v2_url := "https://gw.example.com:4433" |};
                      {| v2_transport := WssV2; v2_url := "wss://gw.example.com:8443/kynp" |};
                      {| v2_transport := TcpV2; v2_url := "tcp://gw.example.com:7000" |} ] |};
  v2_policy := {| v2_connect_timeout_seconds := 10; v2_health_interval_seconds := 5;
                  v2_fallback_threshold := 3 |};
|}.

Lemma sample_profile_v2_valid : ProductionNetworkProfileV2_validate sample_profile_v2 = Ok tt.
Proof. vm_compute. reflexivity. Qed.

(** ** a signing scheme: a signature is the key followed by the message *)

Definition sample_payload_bytes : list Z := [112; 49].
Definition sample_signature : list Z :=
  key_a ++ signing_message "root-1" "ed25519" sample_payload_bytes.
Definition sample_encoded : list Z := [123; 125].

#[global] Instance sample_policy_lib : PolicyLib := {
  envelope_from_slice b :=
    if bool_decide (b = sample_encoded)
    then Some {| envelope_version := 2; env_key_id := "root-1"; algorithm := "ed25519";
                 payload_base64 := BASE64_encode sample_payload_bytes;
                 signature_base64 := BASE64_encode sample_signature |}
    else None;
  payload_from_slice b :=
    if bool_decide (b = sample_payload_bytes)
    then Some {| pl_issued_at := 100; pl_expires_at := 200; pl_revision := 7;
                 pl_profile := sample_profile |}
    else None;
  trust_bundle_from_slice _ := None;
  ed25519_verify pk message signature := bool_decide (signature = pk ++ message);
  sha256 b := replicate 32 (Z.of_nat (length b) mod 256);
}.

(** ** a file system in memory, and a codec for the journal document *)

Definition Disk : Type := gmap string FileObject.

Definition disk_metadata (p : string) (f : Disk) : result FileKind IoErrorKind :=
  match f !! p with Some o => Ok (kind_of o) | None => Err NotFound end.

Definition disk_write (t : string) (b : list Z) : M Disk IoErrorKind unit := fun f =>
  match f !! t with
  | Some (FileData b0) => (Ok tt, <[t := FileData (b0 ++ b)]> f)
  | _ => (Err OtherIo, f)
  end.

Definition disk_rename (t p : string) : M Disk IoErrorKind unit := fun f =>
  match f !! t with
  | Some o => (Ok tt, <[p := o]> (delete t f))
  | None => (Err NotFound, f)
  end.

(** Every file of this disk lives in the one directory ["state"]. *)
#[global] Instance disk : FileSystem Disk := {
  symlink_metadata := disk_metadata;
  fs_read p f := match f !! p with Some (FileData b) => Ok b | _ => Err OtherIo end;
  create_dir_all d f := (Ok tt, <[d := FileDir]> f);
  set_permissions _ _ f := (Ok tt, f);
  open_create_new t _ f := if f !! t then (Err OtherIo, f) else (Ok tt, <[t := FileData []]> f);
  write_all := disk_write;
  sync_all _ f := (Ok tt, f);
  fs_rename := disk_rename;
  remove_file t f := (Ok tt, delete t f);
  path_parent p := if bool_decide (p = "state"%string) then None else Some "state"%string;
  process_id := 4242;
}.

#[global] Program Instance disk_laws : FileSystemLaws Disk := {
  file_at f p := f !! p;
}.
Next Obligation.
  intros f p k. cbn. unfold disk_metadata. destruct (f !! p); [|done]. by intros [= <-].
Qed.
Next Obligation. intros f p. cbn. unfold disk_metadata. by destruct (f !! p). Qed.
Next Obligation. intros f p b. cbn. destruct (f !! p) as [[]|]; by intros [= <-]. Qed.
Next Obligation.
  intros f d p Hd. apply lookup_insert_ne. cbn in Hd. case_bool_decide; congruence.
Qed.
Next Obligation. done. Qed.
Next Obligation. intros f t m. cbn. destruct (f !! t); [done|]. intros _. apply lookup_insert_eq. Qed.
Next Obligation. intros f t m p Hp. cbn. destruct (f !! t); [done|]. by apply lookup_insert_ne. Qed.
Next Obligation.
  intros f t b b0. cbn. unfold disk_write. intros _ ->. apply lookup_insert_eq.
Qed.
Next Obligation.
  intros f t b p Hp. cbn. unfold disk_write. destruct (f !! t) as [[]|]; try done.
  by apply lookup_insert_ne.
Qed.
Next Obligation. done. Qed.
Next Obligation.
  intros f t p. cbn. unfold disk_rename. destruct (f !! t); [|done]. intros _. apply lookup_insert_eq.
Qed.
Next Obligation. intros f t p x. cbn. unfold disk_rename. by destruct (f !! t). Qed.
Next Obligation. intros f t p Hp. cbn. by apply lookup_delete_ne. Qed.

#[global] Instance ExistingRoute_countable : Countable ExistingRoute.
Proof.
  refine (inj_countable' (fun r => (er_destination r, er_interface r, er_gateway r))
    (fun p => {| er_destination := p.1.1; er_interface := p.1.2; er_gateway := p.2 |}) _).
  by intros [].
Defined.

Definition state_code (s : RouteTransactionState) : nat :=
  match s with Prepared => 0 | Applied => 1 | RolledBack => 2 end.
Definition state_of_code (n : nat) : RouteTransactionState :=
  match n with 0 => Prepared | 1 => Applied | _ => RolledBack end%nat.

#[global] Instance RouteJournalEntry_countable : Countable RouteJournalEntry.
Proof.
  refine (inj_countable' (fun e => (transaction_id e, je_profile_id e, desired_routes e,
      applied_routes e, pending_route e, previous_routes e, state_code (je_state e)))
    (fun '(a, b, c, d, e, f, g) => {| transaction_id := a; je_profile_id := b;
      desired_routes := c; applied_routes := d; pending_route := e; previous_routes := f;
      je_state := state_of_code g |}) _).
  by intros [? ? ? ? ? ? []].
Defined.

#[global] Instance sample_codec : JournalCodec := {
  document_from_slice b :=
    match b with
    | [v; Zpos p] => option_map (Build_RouteJournalDocument v) (decode p)
    | _ => None
    end;
  document_to_vec_pretty d := Some [rd_version d; Zpos (encode (rd_entries d))];
}.

#[global] Instance sample_codec_laws : JournalCodecLaws.
Proof. constructor. intros [v l] b [= <-]. cbn. by rewrite decode_encode. Qed.

Definition disk_journal : FileRouteJournal Disk := FileRouteJournal_new "state/routes.json" ∅ 0.
