(* ===== verification/Witnesses.v ===== *)
(** * Witnesses: theorems on profiles, supervision, data plane, routes and leases at
    concrete inputs, at which their hypotheses hold *)

From Stdlib Require Import Ascii String.
From S2P Require Import Prelude Text NetState IpAddr IpRoundTrip Config ConfigV2 Ipc Sidecar.
From S2P Require Import DataPlane Policy Route RouteJournal RouteSafety MacosRoute RouteHelper.
From S2P Require Import RouteHelperV3 Samples.

(** ** production profiles *)

Lemma production_profile_routes_private_only_witness :
  exists locals privates,
    Forall2 text_of (v2_local_addresses (v2_tunnel sample_profile_v2)) locals /\
    Forall2 text_of (v2_private_cidrs (v2_site sample_profile_v2)) privates /\
    routes_contract locals privates.
Proof.
  apply (production_profile_routes_private_only sample_profile_v2). vm_compute. reflexivity.
Defined.

(** ** supervision: a process that hands out one good handshake, then exits *)

Record Flaky := { fl_proof : string }.

#[global] Instance flaky_runtime : SidecarRuntime Flaky := {
  runtime_start ctx r := (Ok {| hs_protocol_version := NETWORK_IPC_PROTOCOL_VERSION;
    hs_instance_id := lc_instance_id ctx; hs_auth_proof := fl_proof r |}, r);
  runtime_status r := (Ok (ProcessExited false), r);
  runtime_stop r := (Ok tt, r);
}.

Definition flaky (proof : string) : SidecarController Flaky :=
  SidecarController_new {| fl_proof := proof |} RestartPolicy_default
    (SidecarLaunchContext_new "instance-1" []) "proof".

Definition flaky_running : SidecarController Flaky := (start 100 (flaky "proof")).2.
Definition flaky_crashed : SidecarController Flaky := (poll 200 flaky_running).2.

Lemma flaky_crashed_reach : reach RestartPolicy_default flaky_crashed [200] 200.
Proof.
  change [200] with (if observes_exit flaky_running then [] ++ [200] else []).
  apply (reach_poll _ _ _ 100); [|lia]. apply (reach_start _ _ _ 0); [|lia]. apply reach_new.
Defined.

Lemma restarts_are_rate_limited_witness :
  Z.of_nat (length (recent RestartPolicy_default 200 [200])) <= max_restarts RestartPolicy_default.
Proof.
  apply (restarts_are_rate_limited RestartPolicy_default flaky_crashed [200] 200).
  - apply flaky_crashed_reach.
  - vm_compute. discriminate.
  - vm_compute. discriminate.
Defined.

(** ** the data plane: every call answers, the carriers are healthy *)

Definition good_health : TransportHealth :=
  {| reachable := true; latency_ms := 10; jitter_ms := 1; packet_loss_percent := 0 |}.
Definition calm : Oracle := {| reply _ _ := Ok tt; sample _ _ := Ok good_health |}.
Definition stuck : Oracle :=
  {| reply _ c := match c with
                  | TransportDisconnect _ => Err SidecarUnavailable
                  | _ => Ok tt
                  end;
     sample _ _ := Ok good_health |}.

Definition session : list PlaneOp := [OpConnect sample_profile; OpSampleHealth sample_profile].

Lemma session_ok : Forall op_profile_ok session.
Proof.
  constructor; [exact I|]. constructor; [exact sample_profile_valid|constructor].
Defined.


(** Applications of the routes fail, everything else works. *)
Definition no_routes : Oracle :=
  {| reply _ c := match c with RoutesApply _ => Err RouteConflict | _ => Ok tt end;
     sample _ _ := Ok good_health |}.

(** A failed application of the routes leaves the carrier open: the calls are those of
    the repository's test route_apply_failure_rolls_back_and_stops_wireguard, none of
    them disconnects the carrier, and a second attempt connects another one beside it. *)
Example failed_apply_leaves_the_carrier :
  let once := run_ops no_routes [OpConnect sample_profile] in
  let twice := run_ops no_routes [OpConnect sample_profile; OpConnect sample_profile] in
  dp_state once = Disconnected /\ dp_active_transport once = None /\
  w_open (world once) = [Quic] /\ w_open (world twice) = [Quic; Quic] /\
  forallb (fun ev => negb (match event_call ev with TransportDisconnect _ => true | _ => false end))
    (dp_env twice) = true.
Proof. vm_compute. repeat split. Qed.

Lemma connect_connects_or_cleans_up_witness :
  dp_state (run_ops calm []) = Disconnected /\
  connected (dp_state (run_ops calm [OpConnect sample_profile])) = true.
Proof.
  split; [reflexivity|].
  destruct (connect_connects_or_cleans_up calm sample_profile []) as [Hok _];
    [by constructor|by constructor|reflexivity|].
  apply Hok. vm_compute. reflexivity.
Defined.

(** A live connection whose carrier refuses to close. *)
Definition live : DataPlaneController (list Event) :=
  run_ops stuck [OpConnect sample_profile].

Lemma failed_carrier_close_leaves_stale_transport_witness :
  dp_active_transport live = Some Quic /\
  dp_active_transport (@disconnect _ (logged_wireguard stuck) (logged_routes stuck)
                     (logged_transport stuck) live).2 = Some Quic.
Proof.
  split; [vm_compute; reflexivity|].
  destruct (failed_carrier_close_leaves_stale_transport stuck live Quic SidecarUnavailable)
    as (_ & _ & Ha); [vm_compute; reflexivity..|].
  exact Ha.
Defined.

(** ** signed policies *)

Definition sample_store : PolicyTrustStore :=
  {| public_keys := {["root-1"%string := key_a]} |}.

Example sample_policy_verifies :
  option_map vp_revision (match verify sample_store sample_encoded 150 with
    Ok v => Some v | Err _ => None end) = Some 7 /\
  is_ok (verify sample_store sample_encoded 200) = false.
Proof. vm_compute. split; reflexivity. Qed.

Lemma verify_accepts_exactly_authentic_witness :
  exists v payload, verify sample_store sample_encoded 150 = Ok v /\
    authentic sample_store sample_encoded v payload /\ vp_revision v = 7 /\
    vp_issued_at v <= 150 < vp_expires_at v.
Proof.
  destruct (verify sample_store sample_encoded 150) as [v|e] eqn:Hv; [|discriminate Hv].
  destruct (verify_accepts_exactly_authentic sample_store sample_encoded 150) as (Hok & _ & _).
  destruct (proj1 (Hok v) Hv) as ((payload & Ha) & _ & _ & Hw). exists v, payload.
  split; [reflexivity|]. split; [exact Ha|]. split; [|exact Hw].
  vm_compute in Hv. injection Hv as <-. reflexivity.
Defined.

(** ** routes *)

Definition office_vpn : RouteSpec :=
  {| rs_destination := "192.168.0.0/16"; rs_interface := "utun9" |}.
Definition table : Table := {[office_vpn]}.
Definition orchestrator := RouteOrchestrator_new table empty_journal.

Lemma journal_accounts_for_every_route_witness :
  let o' := run_route_ops [OpApply "tx-1" "office" [lan; lab]] orchestrator in
  table ⊆ installed (platform o') /\
  exists id e, contents (journal o') !! id = Some e /\ je_state e <> RolledBack /\
    (lan ∈ applied_routes e \/ pending_route e = Some lan).
Proof.
  intros o'.
  destruct (journal_accounts_for_every_route table [OpApply "tx-1" "office" [lan; lab]] orchestrator)
    as [Hb Ho].
  - constructor; [exact lan_specific|constructor].
  - apply fresh_balanced.
  - split; [exact Hb|]. apply Ho; refine (bool_decide_unpack _ _); vm_compute; exact I.
Defined.

Lemma apply_all_or_nothing_witness :
  installed (platform (apply "tx-1" "office" [lan; lab] orchestrator).2) =
  list_to_set [lan; lab] ∪ table.
Proof.
  destruct (apply_all_or_nothing table "tx-1" "office" [lan; lab] orchestrator) as [Hok _].
  - apply fresh_balanced.
  - exact lan_specific.
  - reflexivity.
  - destruct Hok as [Hi _]; [vm_compute; reflexivity|exact Hi].
Defined.

Lemma crash_anywhere_is_recovered_witness :
  installed (platform (recover_stale
    (restart (run_route_ops [OpApply "tx-1" "office" [lan; lab]] (dies_after 2 3 orchestrator)))).2)
  = table.
Proof.
  destruct (crash_anywhere_is_recovered table [OpApply "tx-1" "office" [lan; lab]] 2 3 orchestrator)
    as (_ & Hi & _).
  - apply table_serviceable.
  - constructor; [exact lan_specific|constructor].
  - apply fresh_balanced.
  - exact Hi.
Defined.

Definition net_of (s : string) : IpNetwork :=
  match IpNetwork_parse s with
  | Ok n => n
  | Err _ => {| net_bits := 0; network := 0; prefix := 0 |}
  end.

Lemma overlap_test_exact_witness :
  exists w a, destination_contains "10.8.0.0/16" w a /\ destination_contains "10.8.4.0/24" w a.
Proof.
  destruct (overlap_test_exact "10.8.0.0/16" "10.8.4.0/24" (net_of "10.8.0.0/16")
    (net_of "10.8.4.0/24")) as [Hex _]; [vm_compute; reflexivity..|].
  apply Hex. vm_compute. reflexivity.
Defined.

Definition sample_entry : RouteJournalEntry :=
  {| transaction_id := "tx-1"; je_profile_id := "office"; desired_routes := [lan];
     applied_routes := []; pending_route := Some lan; previous_routes := [];
     je_state := Prepared |}.

Lemma file_journal_saves_atomically_witness :
  (file_save sample_entry disk_journal).1 = Ok tt /\
  exists l', file_entries (file_save sample_entry disk_journal).2 = Ok l' /\
    by_id l' = <["tx-1"%string := sample_entry]> (by_id []).
Proof.
  split; [vm_compute; reflexivity|].
  destruct (file_journal_saves_atomically disk_journal sample_entry []) as (_ & Hok & _).
  - exists {| rd_version := 1; rd_entries := [] |}. split; [vm_compute; reflexivity|].
    split; [reflexivity|constructor].
  - vm_compute. reflexivity.
  - eexists. split; [vm_compute; reflexivity|].
    apply Hok; vm_compute; reflexivity.
Defined.

(** ** leases *)

Definition sample_owner : RouteLeaseOwnerV3 := {|
  o3_protocol_version := 3;
  o3_broker_protocol_version := 1;
  o3_broker_generation := 12;
  o3_sidecar_instance_id := "instance-0001";
  o3_lease_id := "lease-0001";
  o3_operation_id := "operation-1";
  o3_profile_revision := 7;
  o3_tunnel := {| interface_name := "utun4"; mtu := 1420; has_ipv4 := true; has_ipv6 := false;
                  instance_id := "instance-0001"; operation_id := "operation-1.prepare" |};
  o3_active_mihomo_tun_interfaces := ["utun9"%string];
  o3_private_cidrs := ["10.8.0.0/16"; "10.9.0.0/24"]%string;
|}.

Definition sample_record (s : RouteLeaseJournalState) (n : Z) : RouteLeaseJournalRecord :=
  {| jr_protocol_version := 3; jr_state := s; jr_transition := n; jr_owner := sample_owner |}.

Definition hold_granted : RouteLeaseTransition := acknowledge (sample_record HoldPending 1) Held.

Lemma lease_permits_one_mutation_witness :
  lease_reach (sample_record Held 2) /\
  permits_route_mutation (jr_state (sample_record LeaseApplied 3)) = false.
Proof.
  assert (Hr : lease_reach (sample_record Held 2)).
  { apply (lease_advanced (sample_record HoldPending 1)).
    - apply (lease_opened sample_owner). vm_compute. reflexivity.
    - exists hold_granted. vm_compute. reflexivity. }
  split; [exact Hr|].
  destruct (lease_permits_one_mutation (sample_record Held 2) (sample_record LeaseApplied 3) 1 Hr)
    as (_ & Hno & _).
  - apply (nsteps_l _ _ _ (sample_record LeaseApplied 3)); [|apply nsteps_O].
    exists (acknowledge (sample_record Held 2) LeaseApplied). vm_compute. reflexivity.
  - apply Hno; [lia|by left].
Defined.
