(* ===== verification/ProductionWitnesses.v ===== *)
(** * ProductionWitnesses: the theorems on the production path at concrete inputs

    Small runtimes, journals, brokers and helpers that keep the laws the theorems ask
    for, with executions in which their hypotheses hold. *)

From Stdlib Require Import Ascii String.
From S2P Require Import Prelude Text NetState IpAddr Config Ipc Sidecar RouteHelperV3 RouteV3Client.
From S2P Require Import ProductionSession ProductionController ProductionControllerSafety ProductionRouteV3.
From S2P Require Import SidecarTrust StdioRuntime StdioRuntimeSafety StdioTermination TunnelBroker.
From S2P Require Import RouteBoundary BrokerBoundRoute ServiceGate ProductionService ProductionServiceSafety ServiceOutcomes Samples.

(** ** the chain of authority *)

#[global] Instance sample_hmac : Hmac := { hmac_sign key message := firstn 2 key ++ firstn 2 message }.

Definition sample_material : SidecarLaunchMaterial :=
  {| lm_auth_token := replicate 32 7; lm_private_key := replicate 32 9 |}.
Definition sample_reference : TunnelBrokerSessionReference :=
  {| br_protocol_version := 1; br_generation := 4; br_sidecar_instance_id := "sidecar-0001" |}.
Definition sample_launch : BoundSidecarLaunch :=
  {| bl_reference := sample_reference;
     bl_context := {| lc_instance_id := "sidecar-0001"; lc_auth_token := replicate 32 7;
                      lc_private_key := replicate 32 9 |};
     bl_expected_auth_proof := "07076b79" |}.
Definition sample_handshake : SidecarHandshake :=
  {| hs_protocol_version := NETWORK_IPC_PROTOCOL_VERSION; hs_instance_id := "sidecar-0001";
     hs_auth_proof := "07076b79" |}.
Definition sample_receipt : ControllerStartReceipt :=
  {| sr_runtime_generation := 1; sr_broker_reference := sample_reference |}.
Definition sample_facts : TunnelDeviceFacts :=
  {| interface_name := "utun7"; mtu := 1420; has_ipv4 := true; has_ipv6 := false; instance_id := "sidecar-0001";
     operation_id := "operation-1.prepare" |}.

Lemma sample_bind : material_bind sample_material sample_reference = Ok sample_launch.
Proof. vm_compute. reflexivity. Qed.

Lemma route_authority_is_chained_witness :
  exists auth, authorize_routes sample_receipt sample_facts "lease-0001" "operation-1" = Ok auth /\
    ra_runtime_generation auth = 1 /\ lb_broker_generation (ra_binding auth) = 4.
Proof.
  eexists. split; [vm_compute; reflexivity|].
  destruct (route_authority_is_chained sample_material sample_reference sample_launch sample_handshake 1 None
    sample_receipt sample_facts "lease-0001" "operation-1" _ sample_bind ltac:(vm_compute; reflexivity)
    ltac:(vm_compute; reflexivity)) as (_ & _ & _ & _ & _ & Hg & _ & Hb & _).
  split; [exact Hg|exact Hb].
Defined.

(** ** the controller *)

(** A runtime that starts with a given handshake, answers no request, and stops when told. *)
Record Toy := { ty_handshake : SidecarHandshake; ty_child : bool; ty_starts : Z }.

Definition toy (child : bool) (starts : Z) : Toy :=
  {| ty_handshake := sample_handshake; ty_child := child; ty_starts := starts |}.

#[global] Instance toy_runtime : AsyncProductionRuntime Toy := {
  rt_start _ t := (Ok (ty_handshake t),
                   {| ty_handshake := ty_handshake t; ty_child := true; ty_starts := ty_starts t + 1 |});
  rt_request _ _ _ t := (Some (Err SidecarUnavailable), t);
  rt_status t := (Ok (if ty_child t then ProcessRunning else ProcessExited true), t);
  rt_stop _ t := (Some (Ok tt), {| ty_handshake := ty_handshake t; ty_child := false; ty_starts := ty_starts t |});
}.

#[global] Instance toy_laws : RuntimeLaws Toy.
Proof.
  refine {| child := ty_child; starts := ty_starts; rt_wf := fun _ => True |}; try done.
  - intros r b _. simpl. by destruct (ty_child r).
  - intros ctx r _. simpl. lia.
Defined.

Definition toy_controller : ProductionController Toy :=
  spawn_production_controller (toy false 0) (bl_context sample_launch) "07076b79".

Lemma toy_spawned : spawned toy_controller.
Proof. by exists (toy false 0), (bl_context sample_launch), "07076b79"%string, STOP_TIMEOUT, Reusable. Qed.

(** Started, and stopped again. *)
Definition toy_stopped : World Toy :=
  world_step (HActor true 1) (world_step (HActor true 0)
    (world_step (HSend CmdShutdown) (world_step (HSend CmdStart) (World_new toy_controller)))).

Lemma toy_stopped_reach : world_reach (World_new toy_controller) toy_stopped.
Proof. unfold toy_stopped. repeat constructor. Qed.

Lemma controller_invariant_witness :
  starts (pc_runtime (w_controller toy_stopped)) = 1 /\ pc_state (w_controller toy_stopped) <> Starting.
Proof.
  split; [vm_compute; reflexivity|].
  destruct (controller_invariant toy_controller toy_stopped toy_spawned toy_stopped_reach)
    as (_ & _ & Hs & _). exact Hs.
Defined.

Definition toy_retired : ProductionController Toy :=
  (dispatch true 2 CmdRetire (w_controller toy_stopped)).2.

Lemma retirement_is_final_witness :
  child (pc_runtime (w_controller (world_step (HSend CmdStart) (set_controller toy_retired toy_stopped)))) = false.
Proof.
  apply (retirement_is_final toy_controller toy_stopped true 2
    {| rr_runtime_generation := 1; rr_absence := Reaped |} toy_retired _ toy_spawned toy_stopped_reach).
  - vm_compute. reflexivity.
  - repeat constructor.
Defined.

Lemma broker_bound_launch_used_once_witness :
  exists receipt c', dispatch true 0 CmdStartBound
      (spawn_broker_bound_production_controller (toy false 0) sample_launch) = (Ok (ReStartBound (Ok receipt)), c') /\
    receipt = sample_receipt /\ starts (pc_runtime c') <= 1.
Proof.
  do 2 eexists. split; [vm_compute; reflexivity|].
  destruct (broker_bound_launch_used_once sample_launch (toy false 0)
    (World_new (spawn_broker_bound_production_controller (toy false 0) sample_launch)) ltac:(exact I) (wr_here _)) as [_ Hd].
  destruct (Hd true 0 _ _ ltac:(vm_compute; reflexivity)) as (Hr & _ & Hs & _).
  split; [exact Hr|exact Hs].
Defined.

Definition toy_request : IpcRequest :=
  {| rq_protocol_version := NETWORK_IPC_PROTOCOL_VERSION; rq_request_id := "request-1"; rq_payload := SampleHealth |}.
Definition toy_asked : World Toy := world_step (HHealth "operation-1" toy_request 1000) (World_new toy_controller).

Lemma cancel_reaches_one_request_witness :
  exists command rq token, command ∈ w_queue toy_asked /\ request_of command = Some ("operation-1"%string, rq, token).
Proof.
  destruct (cancel_reaches_one_request toy_controller toy_asked "operation-1" (cancel "operation-1" toy_asked).2
    toy_spawned (wr_step _ _ _ (wr_here _)) ltac:(vm_compute; reflexivity)) as (command & rq & token & Hq & Hr & _).
  exists command, rq, token. split; [exact Hq|exact Hr].
Defined.

Lemma shutdown_then_retire_succeeds_witness :
  pc_retired (w_controller (turns [(true, 0); (true, 1); (true, 2)]
    (world_step (HSend CmdRetire) (world_step (HSend CmdShutdown) toy_asked)))) = true.
Proof.
  apply (shutdown_then_retire_succeeds toy_controller toy_asked [(true, 0); (true, 1); (true, 2)]
    toy_spawned (wr_step _ _ _ (wr_here _))).
  - intros d r. reflexivity.
  - vm_compute. discriminate.
  - vm_compute. reflexivity.
Defined.

(** ** the lease session *)

(** A journal that keeps its last record, a broker with one hold, routes that are in or out. *)
#[global] Instance toy_journal : ProductionRouteV3Journal (option RouteLeaseJournalRecord) := {
  persist_durable r _ := (Ok tt, Some r);
}.
#[global] Instance toy_broker : ProductionRouteV3Broker bool := {
  hold_exact b _ := (Ok (confirmation_held b), true);
  release_exact b _ := (Ok (confirmation_released b), false);
}.
#[global] Instance toy_routes : ProductionRouteV3Mutation bool := {
  apply_exact _ _ := (Ok tt, true);
  rollback_and_prove_absent ref _ := (Ok {| ap_reference := ref |}, false);
}.
#[global] Instance toy_interlock : InterlockLaws (option RouteLeaseJournalRecord) bool bool.
Proof.
  refine {| durable := fun j => j; has_hold := fun b _ => b; installed := fun r _ => r |}; try done.
  intros r j. by right.
Defined.

Definition toy_authorization : BrokerRouteAuthorization :=
  {| ra_runtime_generation := 1;
     ra_binding := {| lb_broker_protocol_version := 1; lb_broker_generation := 4;
                      lb_sidecar_instance_id := "sidecar-0001"; lb_lease_id := "lease-0001";
                      lb_operation_id := "operation-1" |};
     ra_tunnel := sample_facts |}.

Definition toy_owner : RouteLeaseOwnerV3 :=
  owner_from_authorization toy_authorization 3 [] ["10.8.0.0/16"%string].
Definition toy_lease : Run (option RouteLeaseJournalRecord) bool bool :=
  {| rn_session := {| vs_authorization := toy_authorization; vs_owner := toy_owner;
                      vs_reference := from_owner toy_owner; vs_record := None |};
     rn_journal := None; rn_broker := false; rn_routes := false |}.
Definition toy_leased : Run (option RouteLeaseJournalRecord) bool bool := (ProductionRouteV3.connect toy_lease).2.

Lemma toy_leased_run : lease_run toy_leased.
Proof.
  apply lr_connect. apply (lr_new _ toy_authorization 3 [] ["10.8.0.0/16"%string]); vm_compute; reflexivity.
Qed.

Lemma lease_interlock_witness : routes_in toy_leased = true /\ held toy_leased = true.
Proof.
  assert (Hr : routes_in toy_leased = true) by (vm_compute; reflexivity). split; [exact Hr|].
  destruct (lease_interlock toy_leased toy_leased_run) as (_ & Hin & _). destruct (Hin Hr) as [Hh _]. exact Hh.
Defined.

Lemma lease_disconnect_completes_witness : (ProductionRouteV3.disconnect toy_leased).1 = Ok tt.
Proof.
  pose proof (lease_disconnect_completes toy_leased LeaseApplied toy_leased_run) as Hd.
  destruct (ProductionRouteV3.disconnect toy_leased) as [r s'].
  apply Hd; [by split_and!|vm_compute; reflexivity|discriminate].
Defined.

(** ** records of the sidecar's pipe *)

Lemma records_round_trip_witness :
  read_records (concat (map (fun r => r ++ [10]) [[123; 125]; [91; 93]])) = map Ok [[123; 125]; [91; 93]].
Proof.
  apply (records_round_trip [[123; 125]; [91; 93]]).
  apply Forall_forall. intros r [->|[->|[]%elem_of_nil]%elem_of_cons]%elem_of_cons;
    (split; [by apply (bool_decide_unpack _)|reflexivity]).
Defined.

(** ** the route boundary *)

(** A helper that keeps a list of leases. *)
Definition toy_status (state : RouteHelperV3State) (transition : Z) (reference : option RouteLeaseReferenceV3)
  : RouteHelperV3Status :=
  {| hs3_protocol_version := 3; hs3_state := state; hs3_transition := transition;
     hs3_reference := reference; hs3_error_code := None |}.

Notation Leases := (list RouteLeaseReferenceV3).

#[global] Instance toy_operations : RouteHelperV3Operations Leases unit := {
  op_discover _ w := (Ok (toy_status V3Idle 0 None), w);
  op_begin _ owner w := (Ok (toy_status V3Held 2 (Some (from_owner owner))), from_owner owner :: w);
  op_recover _ _ w := (Err InvalidStateTransition, w);
  op_apply _ r w := (Ok (toy_status V3Applied 3 (Some r)), w);
  op_rollback _ r w := (Ok (toy_status V3Released 5 (Some r)), filter (fun x => x <> r) w);
  op_heartbeat _ r w := (Ok (toy_status V3Applied 3 (Some r)), w);
  op_status _ r w := (Ok (toy_status V3Applied 3 (Some r)), w);
}.
#[global] Instance toy_helper_connect : RouteHelperV3Connect Leases unit := { op_connect w := (Ok tt, w) }.

#[global] Instance toy_helper_laws : HelperLaws Leases unit.
Proof.
  refine {| leased := fun w ref => bool_decide (ref ∈ w) |}; try done.
  - intros c owner w ref Hne. apply bool_decide_ext. simpl. rewrite elem_of_cons. tauto.
  - intros c r w ref Hne. apply bool_decide_ext. simpl. rewrite list_elem_of_filter. tauto.
  - intros c r w status _ _ _. apply bool_decide_eq_false_2. simpl. rewrite list_elem_of_filter. tauto.
Defined.

Definition toy_boundary : DeferredV3ProductionRouteBoundary Leases unit :=
  {| db_world := []; db_active := None; db_active_operation_id := None;
     db_retirement_issuer := {| boundary_incarnation := 6 |}; db_native_generation := 1;
     db_recovery_required := false; db_retired := false |}.

Lemma toy_boundary_fresh : fresh_boundary toy_boundary.
Proof. by exists 6. Qed.

Definition toy_calls : list BoundaryCall :=
  [CallApplyBound sample_profile "operation-1" sample_facts 3 snapshot_inactive sample_receipt].

Lemma boundary_applies_exactly_or_freezes_witness :
  applied_exactly toy_boundary "operation-1" sample_facts sample_receipt
    (rb_apply_broker_bound sample_profile "operation-1" sample_facts 3 snapshot_inactive sample_receipt toy_boundary).2.
Proof.
  apply (boundary_applies_exactly_or_freezes toy_boundary [] sample_profile "operation-1" sample_facts 3
    snapshot_inactive sample_receipt (Ok tt) _ toy_boundary_fresh).
  vm_compute. reflexivity.
Defined.

Definition toy_rolled_back : DeferredV3ProductionRouteBoundary Leases unit :=
  foldl (fun b call => boundary_step call b) toy_boundary (toy_calls ++ [CallRollback "operation-1"]).
Definition toy_gone : DeferredV3ProductionRouteBoundary Leases unit := (rb_try_retire toy_rolled_back).2.

Lemma toy_retires :
  rb_try_retire toy_rolled_back = (RetireRetired {| rt_boundary_incarnation := 6; rt_native_generation := 1 |}, toy_gone).
Proof. vm_compute. reflexivity. Qed.

Lemma boundary_retires_without_lease_witness :
  foldl (fun b call => boundary_step call b) toy_gone [CallHeartbeat "operation-1"] = toy_gone.
Proof.
  destruct (boundary_retires_without_lease toy_boundary _ _ toy_gone [CallHeartbeat "operation-1"]
    toy_boundary_fresh toy_retires) as (_ & Hf & _).
  exact Hf.
Defined.

(** ** the service *)

(** A sidecar that does what it is asked, and a Mihomo without a TUN. *)
Definition toy_answer (rq : IpcRequest) : IpcResponsePayload :=
  let status := fun state transport =>
    Status {| st_state := state; st_active_profile_id := Some "office"%string;
              st_active_transport := transport; st_last_error := None |} in
  match rq_payload rq with
  | PrepareTunnel =>
      TunnelPrepared {| interface_name := "utun7"; mtu := 1420; has_ipv4 := true; has_ipv6 := false;
                        instance_id := "sidecar-0001"; operation_id := rq_request_id rq |}
  | ConnectTransport transport => status (connected_state sample_profile transport) (Some transport)
  | SampleHealth =>
      Health {| nh_reachable := true; nh_latency_ms := 20; nh_jitter_ms := 2; nh_loss_percent := 0 |}
  | DisconnectTransport | StopTunnel | GetStatus => status Disconnected None
  | _ => Acknowledged
  end.

Definition toy_response (rq : IpcRequest) : IpcResponse :=
  {| rs_protocol_version := NETWORK_IPC_PROTOCOL_VERSION; rs_request_id := rq_request_id rq;
     rs_result := Ok (toy_answer rq) |}.

#[global] Instance toy_handle : ControllerHandle unit := {
  ch_start x := (Ok tt, x);
  ch_start_broker_bound x := (Ok sample_receipt, x);
  ch_request _ rq _ x := (Ok (toy_response rq), x);
  ch_sample_health _ rq _ x := (Ok (toy_response rq), x);
  ch_cancel _ x := (Ok tt, x);
  ch_poll x := (Ok Running, x);
  ch_shutdown x := (Ok tt, x);
}.
#[global] Instance toy_surroundings : ServiceSurroundings unit := {
  su_mihomo _ x := (Ok snapshot_inactive, x);
  su_cut_off x := (false, x);
}.

Notation ToyService := (@ProductionNetworkingService unit (DeferredV3ProductionRouteBoundary Leases unit)).

Definition toy_service : ToyService :=
  {| ps_config := {| sc_broker_bound := true; sc_profile := sample_profile; sc_instance_id := "sidecar-0001";
                     sc_profile_revision := 3; sc_timeout := 10000 |};
     ps_gate := ProductionMutationGate_new 5; ps_start_consumed := false; ps_routes := toy_boundary;
     ps_routes_active := false;
     ps_status := {| pn_state := Disconnected; pn_sidecar_state := Stopped;
                     pn_site := {| ss_id := "hq"; ss_display_name := "Head office"; ss_private_route_count := 1 |};
                     pn_active_transport := None; pn_health := None; pn_operation_id := None;
                     pn_last_error := None |};
     ps_route_heartbeat := None; ps_lifecycle := false; ps_request_sequence := 0; ps_operations := ∅;
     ps_active_operation := None; ps_operation_epoch := 0; ps_waiting := []; ps_world := tt;
     ps_trace := []; ps_others := []; ps_turns := [] |}.

Lemma toy_service_new :
  new_with_start_mode true sample_profile toy_boundary "sidecar-0001" 3 tt 5 = (Ok toy_service, 6).
Proof. vm_compute. reflexivity. Qed.

Definition toy_connected : ToyService := service_run [EvConnect "operation-1" [] []] toy_service.

Lemma toy_reached evs : service_reached (service_run evs toy_service).
Proof.
  exists true, sample_profile, toy_boundary, "sidecar-0001"%string, 3, tt, 5, 6, toy_service, evs.
  split; [exact toy_service_new|reflexivity].
Qed.

Lemma toy_connected_reached : service_reached toy_connected.
Proof. apply toy_reached. Qed.

Lemma toy_connected_primary : pn_state (ps_status toy_connected) = ConnectedPrimary.
Proof. vm_compute. reflexivity. Qed.

Lemma service_resources_in_order_witness :
  exists held, held_after (ps_trace toy_connected) = Some held.
Proof.
  destruct (service_resources_in_order toy_connected toy_connected_reached) as (held & Hh & _).
  exists held. exact Hh.
Defined.

Lemma connected_primary_is_not_stopping_witness :
  exists epoch, ps_active_operation toy_connected = Some epoch /\
    op_cancel_requested (operation_of epoch toy_connected) = false.
Proof.
  destruct (connected_primary_is_not_stopping toy_connected toy_connected_reached toy_connected_primary)
    as (epoch & Ha & Hc & _).
  exists epoch. split; [exact Ha|exact Hc].
Defined.

Lemma connect_outcome_witness :
  match connect "operation-1" (ps_set_others [] (ps_set_turns [] toy_service)) with
  | (Ok _, s') =>
      holds_exactly true true s' /\ pn_state (ps_status s') <> Disconnected /\
      exists epoch, operating epoch "operation-1" s'
  | (Err e, s') =>
      unchanged toy_service s' \/
      (holds_exactly false false s' /\ disconnected_with e s') \/
      stuck_with "operation-1" e s'
  end.
Proof. apply (connect_outcome toy_service "operation-1" [] [] (toy_reached [])). Defined.

Lemma disconnect_outcome_witness :
  match disconnect "operation-1" (ps_set_others [] (ps_set_turns [HealthTurn; LeaseTurn] toy_connected)) with
  | (Ok _, s') => holds_exactly false false s' /\ pn_state (ps_status s') = Disconnected
  | (Err e, s') => view s' = view toy_connected \/
      (pn_state (ps_status s') = Error /\ is_some (pn_operation_id (ps_status s')) = true /\
       is_some (pn_last_error (ps_status s')) = true)
  end.
Proof. apply (disconnect_outcome toy_connected "operation-1" [] [HealthTurn; LeaseTurn] toy_connected_reached). Defined.

(** The disconnection of the example succeeds. *)
Example toy_disconnects :
  (disconnect "operation-1" (ps_set_others [] (ps_set_turns [HealthTurn; LeaseTurn] toy_connected))).1 =
  Ok (pn_set_sidecar_state Stopped (ps_status toy_service)).
Proof. vm_compute. reflexivity. Qed.

(** A fallback that has just been found healthy, and a cancellation before it is published. *)
Definition toy_monitor : RouteMonitor :=
  {| mo_operation := 1; mo_cancelled := false; mo_transport := Quic; mo_failures := 3;
     mo_health_done := false; mo_lease_done := false |}.
Definition toy_falling_back : ToyService :=
  ps_set_others [[OtherCancel "operation-1"]]
    (ps_set_status (pn_set_state Reconnecting (ps_status toy_connected)) toy_connected).
Definition toy_health : NetworkHealth :=
  {| nh_reachable := true; nh_latency_ms := 20; nh_jitter_ms := 2; nh_loss_percent := 0 |}.

Lemma cancelled_fallback_is_published_witness :
  is_stopping (operation_of 1 (publish toy_monitor "operation-1"
    (published_fallback Wss toy_health PrimaryTransportUnavailable)
    (on_monitor (fun mo => mo_set_failures 0 (mo_set_transport Wss mo))) toy_falling_back).2) = true.
Proof.
  apply (cancelled_fallback_is_published toy_falling_back
    (service_cancel "operation-1" (ps_set_others [] toy_falling_back)).2 toy_monitor "operation-1" Wss toy_health
    PrimaryTransportUnavailable []).
  all: vm_compute; reflexivity.
Defined.

(** ** the sidecar's process *)

(** A machine with a clock and one broker session; nothing is ever read from a pipe,
    and no file can be opened. *)
Record Machine := { mc_clock : Z; mc_running : bool }.

Definition mc_wait (d : Z) (m : Machine) : Machine :=
  {| mc_clock := mc_clock m + Z.max 0 d; mc_running := mc_running m |}.

#[global] Instance machine_io : StdioIo Machine := {
  io_now m := (mc_clock m, m);
  io_sleep d m := (tt, mc_wait d m);
  io_write_line _ m := (true, m);
  io_recv_timeout d m := (RecvTimeout, mc_wait d m);
  io_spawn_reader m := (tt, m);
  io_cancel_requested _ m := (false, m);
}.
#[global] Instance machine_trust : TrustOs Machine := {
  os_open_nofollow _ m := (Err OpenOther, m);
  os_metadata _ m := (Err tt, m);
  os_read_to_end _ m := (Err tt, m);
  os_geteuid _ := 501;
  os_codesign_status _ m := (Err tt, m);
  os_codesign_output _ m := (Err tt, m);
  os_sha256 _ := [];
}.
#[global] Instance machine_json : SidecarJson := {
  json_bootstrap _ := Some [123; 125];
  json_request _ := Some [123; 125];
  json_response _ := None;
  json_handshake _ := None;
}.
#[global] Instance machine_processes : OsProcess Machine := {
  os_spawn _ m := (Some 1%nat, m);
  os_try_wait _ m := (Ok (if mc_running m then None else Some true), m);
  os_kill _ m := (Ok tt, {| mc_clock := mc_clock m; mc_running := false |});
}.

Lemma machine_verify path manifest (m : Machine) : (verify_macos_sidecar path manifest m).2 = m.
Proof. unfold verify_macos_sidecar. destruct (manifest_refused manifest); reflexivity. Qed.

#[global] Instance machine_clock : StdioClockLaws Machine LocalProcessLauncher LocalProcessControl.
Proof.
  refine {| clock := mc_clock |}; unfold forward; intros; cbn; try lia.
  - by rewrite machine_verify.
Defined.

Definition machine_runtime : StdioSidecarRuntime Machine LocalProcessLauncher LocalProcessControl :=
  with_launcher "/opt/kyclash/sidecar" {| ll_executable := "/opt/kyclash/sidecar" |}
    {| mc_clock := 0; mc_running := true |}.

Lemma stdio_calls_end_witness : (stdio_stop (Z.to_nat 7000) machine_runtime).1 <> Err Hang.
Proof.
  refine (proj1 (proj2 (proj2 (proj2 (stdio_calls_end (Z.to_nat 7000) machine_runtime _))))).
  unfold enough_fuel. rewrite Z2Nat.id by lia. vm_compute. split; discriminate.
Defined.

(** ** the broker's session *)

Definition machine_reply (state : Z) : NativeReply :=
  {| nb_transport_status := 0; nb_protocol_version := 1; nb_state := state; nb_error_code := 0;
     nb_broker_generation := 4; nb_input_fd := 5; nb_output_fd := 6;
     nb_sidecar_instance_id := bytes "sidecar-0001" ++ ["000"%char] |}.

Definition mc_set_running (v : bool) (m : Machine) : Machine := {| mc_clock := mc_clock m; mc_running := v |}.

#[global] Instance machine_broker : TunnelBrokerGeneration Machine := {
  bk_create m := (Ok tt, m);
  bk_start m := (machine_reply 1, mc_set_running true m);
  bk_status m := (machine_reply (if mc_running m then 1 else 0), m);
  bk_stop m := (machine_reply 0, mc_set_running false m);
}.

#[global] Instance machine_broker_laws : BrokerLaws Machine.
Proof.
  refine {| running := mc_running |}; unfold still; intros; cbn; try done.
  by rewrite machine_verify.
Defined.

Definition machine_off : Machine := {| mc_clock := 0; mc_running := false |}.
Definition machine_on : Machine := {| mc_clock := 0; mc_running := true |}.

Definition machine_launcher : PreparedTunnelBrokerLauncher :=
  {| pl_process := Some {| bp_runtime_generation := 0; bp_session := sample_reference; bp_input := Some 5;
                           bp_output := Some 6; bp_reaped := None; bp_recovery_only := false |};
     pl_reference := sample_reference |}.

Lemma machine_prepares : prepare machine_off = (Ok machine_launcher, machine_on).
Proof. vm_compute. reflexivity. Qed.

Notation BrokerRuntime := (StdioSidecarRuntime Machine PreparedTunnelBrokerLauncher TunnelBrokerProcessControl).

(** The session is prepared, never started, and shut down. *)
#[local] Hint Extern 0 (AsyncProductionRuntime BrokerRuntime) => exact (broker_runtime 8) : typeclass_instances.
Definition machine_shut : World BrokerRuntime :=
  world_step (HActor true 0) (world_step (HSend CmdShutdown)
    (World_new (spawn_broker_bound_production_controller
      (with_launcher "broker" machine_launcher machine_on) sample_launch))).
Definition machine_retired : ProductionController BrokerRuntime := (dispatch true 1 CmdRetire (w_controller machine_shut)).2.

Lemma machine_shut_reach :
  world_reach (World_new (spawn_broker_bound_production_controller
    (with_launcher "broker" machine_launcher machine_on) sample_launch)) machine_shut.
Proof. unfold machine_shut. repeat constructor. Qed.

Lemma machine_retires :
  dispatch true 1 CmdRetire (w_controller machine_shut) =
  (Ok (ReRetire (Ok {| rr_runtime_generation := 0; rr_absence := Reaped |})), machine_retired).
Proof. vm_compute. reflexivity. Qed.

Lemma retirement_ends_the_broker_session_witness :
  running (sr_world (pc_runtime (w_controller (set_controller machine_retired machine_shut)))) = false.
Proof.
  pose proof (fun w claimed now receipt c' w' => retirement_ends_the_broker_session 8 "broker" sample_launch
    machine_launcher machine_off machine_on w claimed now receipt c' w' machine_prepares) as Hend.
  destruct (Hend machine_shut true 1 _ machine_retired (set_controller machine_retired machine_shut)
    machine_shut_reach machine_retires (wr_here _)) as [Hr _].
  exact Hr.
Defined.
