(* ===== verification/ApplicationWitnesses.v ===== *)
(** * ApplicationWitnesses: concrete runs of the helper client and of the application's components

    A small route helper behind the bridge of the second protocol, with two faults to
    spend, and one run per theorem that has hypotheses. *)

From Stdlib Require Import Ascii String.
From S2P Require Import Prelude Text NetState Config Ipc RouteHelper ProductionSession.
From S2P Require Import RouteV3Client RouteBoundary RouteHelperClient RouteHelperClientSafety Samples.
From S2P Require Import Credentials HelperRegistration UnixRuntime Sidecar.

(** ** a route helper

    One lease at most, kept as the request that began it; while faults are left, a
    request that would change it answers an error instead. *)
#[export] Instance OwnerRequest_eq_dec : EqDecision OwnerRequest.
Proof. solve_decision. Defined.

Record HelperSim := {
  sim_lease : option OwnerRequest;
  sim_applied : bool;
  sim_clock : Z;
  sim_faults : Z;
}.

Definition sim_reply (state error : Z) : NativeReply :=
  {| n2_transport_status := 0; n2_protocol_version := 2; n2_state := state; n2_error_code := error |}.

Definition sim_state (s : HelperSim) : Z :=
  if sim_lease s then if sim_applied s then 2 else 1 else 0.

Definition sim_holds (s : HelperSim) (r : RouteLeaseReference) : bool :=
  bool_decide (owner_request_reference <$> sim_lease s = Some r).

Definition sim_set (lease : option OwnerRequest) (applied : bool) (faults : Z) (s : HelperSim)
  : HelperSim :=
  {| sim_lease := lease; sim_applied := applied; sim_clock := sim_clock s; sim_faults := faults |}.

Definition sim_fault (s : HelperSim) : NativeReply * HelperSim :=
  (sim_reply 4 6, sim_set (sim_lease s) (sim_applied s) (sim_faults s - 1) s).

#[export] Instance sim_native : NativeV2 HelperSim := {
  v2_create s := (7, s);
  v2_destroy _ s := s;
  v2_discover _ s := (sim_reply (sim_state s) 0, s);
  v2_owner _ q s :=
    if oq_method q =? 0 then
      if sim_lease s then (sim_reply 4 9, s)
      else
        let s' := sim_set (Some q) false (sim_faults s) s in
        if 0 <? sim_faults s then sim_fault s' else (sim_reply 1 0, s')
    else if bool_decide (sim_lease s = Some (begun_as q)) then (sim_reply (sim_state s) 0, s)
    else (sim_reply 4 9, s);
  v2_reference _ q s :=
    if negb (sim_holds s (request_reference q)) then (sim_reply 4 9, s)
    else if 0 <? sim_faults s then sim_fault s
    else if rq_method q =? 0 then (sim_reply 2 0, sim_set (sim_lease s) true (sim_faults s) s)
    else if rq_method q =? 1 then (sim_reply 0 0, sim_set None false (sim_faults s) s)
    else (sim_reply (sim_state s) 0, s);
}.

#[export] Instance sim_time : DiscoveryClock HelperSim := {
  clock_now s := (sim_clock s, s);
  clock_sleep d s := {| sim_lease := sim_lease s; sim_applied := sim_applied s;
                        sim_clock := sim_clock s + d; sim_faults := sim_faults s |};
}.

#[export] Program Instance sim_laws : BridgeLaws HelperSim := {
  bridge_held := sim_holds;
}.
Solve Obligations with done.
Next Obligation.
  intros h s r (_ & Hs & _). cbn in Hs |- *. unfold sim_state in Hs. unfold sim_holds.
  destruct (sim_lease s); [|done]. by destruct (sim_applied s).
Qed.
Next Obligation.
  intros h q s r. cbn. destruct (oq_method q =? 0); [|case_match; by left].
  destruct (sim_lease s) eqn:E; [by left|].
  destruct (0 <? sim_faults s); cbn; intros Hl; right; (split; [|done]);
    apply bool_decide_eq_true in Hl; cbn in Hl; congruence.
Qed.
Next Obligation.
  intros h q s r. cbn. destruct (sim_holds s (request_reference q)); cbn [negb]; [|by intros Hl; left].
  destruct (0 <? sim_faults s); cbn; [by intros Hl; left|].
  destruct (rq_method q =? 0); cbn; [by intros Hl; left|].
  destruct (rq_method q =? 1); cbn; [done|by intros Hl; left].
Qed.
Next Obligation.
  intros h q s Hm. cbn. rewrite Hm. destruct (sim_holds s (request_reference q)); cbn [negb].
  - destruct (0 <? sim_faults s); [intros (_ & ? & _); done|]. done.
  - intros (_ & ? & _). done.
Qed.

#[export] Program Instance sim_keeping : BridgeKeeping HelperSim := {
  bridge_kept s q applied := sim_lease s = Some q /\ sim_applied s = applied;
}.
Next Obligation.
  intros h q s Hm. cbn. rewrite Hm. cbn. destruct (sim_lease s); [by intros (_ & ? & _)|].
  destruct (0 <? sim_faults s); cbn; [by intros (_ & ? & _)|done].
Qed.
Next Obligation.
  intros h q s applied Hm. cbn. rewrite Hm. cbn. case_bool_decide as Hl; [|by destruct applied; intros (_ & ? & _)].
  intros (_ & Hs & _). split; [done|]. cbn in Hs. unfold sim_state in Hs. rewrite Hl in Hs.
  cbn. by destruct applied, (sim_applied s).
Qed.
Next Obligation.
  intros h q r s Hm [Hl Ha] Hr. cbn. rewrite Hm. destruct (sim_holds s (request_reference r)); cbn [negb];
    [|by intros (_ & ? & _)].
  destruct (0 <? sim_faults s); cbn; [by intros (_ & ? & _)|done].
Qed.

(** ** discovery, application and rollback *)

Definition sim_idle (faults : Z) : HelperSim :=
  {| sim_lease := None; sim_applied := false; sim_clock := 0; sim_faults := faults |}.

Definition sim_tunnel : TunnelDeviceFacts :=
  {| interface_name := "utun7"; mtu := 1420; has_ipv4 := true; has_ipv6 := false;
     instance_id := "sidecar-0001"; operation_id := "operation-1.prepare" |}.
Definition sim_owner : RouteLeaseOwner :=
  lease_owner sample_profile "operation-1" sim_tunnel 3 snapshot_inactive.

(** A boundary over the simulated helper. *)
Definition sim_boundary (s : HelperSim) : XpcProductionRouteBoundary HelperSim RouteHelperClient :=
  {| xb_world := {| tw_world := s; in_flight := 0 |}; xb_client := Some {| rhc_native := 7 |};
     xb_native_generation := 1; xb_retirement_issuer := {| boundary_incarnation := 5 |};
     xb_discovery_policy := policy_PRODUCTION; xb_active := None; xb_active_owner := None;
     xb_recovery_required := false; xb_mutations_blocked := false;
     xb_reconciliation_error := None; xb_retired := false |}.

Lemma sim_connects faults : (xb_connect (sim_idle faults, 5)).1 = Ok (sim_boundary (sim_idle faults)).
Proof. reflexivity. Qed.

Definition sim_call_apply : BoundaryCall :=
  CallApply sample_profile "operation-1" sim_tunnel 3 snapshot_inactive.

(** The boundary after an application whose [begin] and whose compensating rollback were
    both refused. *)
Definition sim_refused : XpcProductionRouteBoundary HelperSim RouteHelperClient :=
  xb_set_recovery true false (Some RouteRollbackFailed)
    (xb_set_active (Some (lease_reference sim_owner)) (Some sim_owner)
       (sim_boundary (sim_set (Some (owner_message 0 sim_owner)) false 0 (sim_idle 0)))).

Lemma sim_application_refused : boundary_step sim_call_apply (sim_boundary (sim_idle 2)) = sim_refused.
Proof. vm_compute. reflexivity. Qed.

(** The boundary after the retried rollback. *)
Definition sim_retried : XpcProductionRouteBoundary HelperSim RouteHelperClient :=
  xb_set_recovery false false (Some RouteRollbackFailed) (sim_boundary (sim_idle 0)).

Lemma sim_rollback_retried : xb_rollback "operation-1" sim_refused = (Ok tt, sim_retried).
Proof. vm_compute. reflexivity. Qed.

Lemma xpc_rollback_leaves_reconciliation_error_witness :
  xb_disposition sim_retried = RouteRecoveryOnly /\ (xb_try_retire sim_retried).1 = RetireRecoveryOnly.
Proof.
  assert (Hi : xb_inv sim_refused).
  { rewrite <- sim_application_refused. apply step_safe.
    apply (connect_safe policy_PRODUCTION (sim_idle 2) 5), sim_connects. }
  destruct (xpc_rollback_leaves_reconciliation_error sim_refused sim_retried "operation-1"
    RouteRollbackFailed Hi eq_refl sim_rollback_retried) as (_ & _ & Hd & Hr).
  split; [exact Hd|exact Hr].
Defined.

(** Applied, rolled back, retired: nothing is left with the helper. *)
Lemma xpc_boundary_retires_without_lease_witness :
  held (tw_world (xb_world (xb_try_retire (fold_left (fun b call => boundary_step call b)
    [sim_call_apply; CallHeartbeat "operation-1"; CallRollback "operation-1"]
    (sim_boundary (sim_idle 0)))).2)) (lease_reference sim_owner) = false.
Proof.
  destruct (xpc_boundary_retires_without_lease (sim_idle 0) 5 (sim_boundary (sim_idle 0))
    [sim_call_apply; CallHeartbeat "operation-1"; CallRollback "operation-1"]
    (sim_connects 0)) as [Hr _].
  apply (Hr {| rt_boundary_incarnation := 5; rt_native_generation := 1 |}).
  vm_compute. reflexivity.
Defined.

Definition sim_applied_boundary : XpcProductionRouteBoundary HelperSim RouteHelperClient :=
  xb_set_active (Some (lease_reference sim_owner)) (Some sim_owner)
    (sim_boundary (sim_set (Some (owner_message 0 sim_owner)) true 0 (sim_idle 0))).

Lemma sim_applies :
  xb_apply sample_profile "operation-1" sim_tunnel 3 snapshot_inactive (sim_boundary (sim_idle 0)) =
  (Ok tt, sim_applied_boundary).
Proof. vm_compute. reflexivity. Qed.

Lemma xpc_apply_is_acknowledged_witness :
  lease_kept (sim_set (Some (owner_message 0 sim_owner)) true 0 (sim_idle 0)) sim_owner true /\
  forall r, held (sim_set (Some (owner_message 0 sim_owner)) true 0 (sim_idle 0)) r = true ->
            r = lease_reference sim_owner.
Proof.
  destruct (xpc_apply_is_acknowledged (sim_idle 0) 5 (sim_boundary (sim_idle 0)) []
    sample_profile "operation-1" sim_tunnel 3 snapshot_inactive sim_applied_boundary
    (sim_connects 0) sim_applies) as (_ & Ha & Hh & _).
  split; [exact Ha|exact Hh].
Defined.

Lemma discovery_succeeds_exactly_witness :
  discover_authoritative_idle_with_timer {| rhc_native := 7 |} policy_PRODUCTION
    {| timer_deadline := 10 |} (sim_idle 0) = (Ok tt, sim_idle 0) /\
  backoff_at policy_PRODUCTION 5 = from_millis 200.
Proof.
  destruct (discovery_succeeds_exactly {| rhc_native := 7 |} policy_PRODUCTION
    {| timer_deadline := 10 |} (sim_idle 0)) as (Hd & _ & Hb).
  { unfold in_u. cbn. unfold DISCOVERY_MAX_ATTEMPTS, u16_max. lia. }
  split; [|exact (Hb 5%nat)].
  apply Hd. exists 0%nat, (sim_idle 0). split; [done|]. split; [done|].
  exists (sim_idle 0), (sim_idle 0). eexists. repeat split.
Defined.

(** ** the keychain *)

Definition device_reference : CredentialReference := {| keychain_account := "office-device" |}.
Definition empty_keychain : MemoryCredentialStore := {| values := ∅ |}.
Definition sample_generate : Meth MemoryCredentialStore (list Z) := ret (replicate 32 7).

Lemma wireguard_key_is_created_once_witness :
  let first := resolve_or_generate_with_status device_reference sample_generate empty_keychain in
  let second := resolve_or_generate_with_status device_reference sample_generate first.2 in
  first.1 = Ok (replicate 32 7, true) /\ second.1 = Ok (replicate 32 7, false) /\
  stored second.2 device_reference = Some (replicate 32 7).
Proof.
  intros first second. split; [vm_compute; reflexivity|]. split; [vm_compute; reflexivity|].
  assert (Hg : generates sample_generate).
  { split; [by intros s x v|]. by intros s v [= <-]. }
  destruct (wireguard_key_is_created_once device_reference sample_generate first.2 second.1 second.2
    Hg (surjective_pairing _)) as [_ Hs].
  apply (Hs (replicate 32 7) false). vm_compute. reflexivity.
Defined.

(** ** the two services *)

(** The registration codes of the helper and of the broker; [true]: the system refuses. *)
Definition Registrations : Type := Z * Z * bool.

#[export] Instance registrations_bridge : ServiceBridge Registrations := {
  bridge_route_helper_status w := (w.1.1, w);
  bridge_route_helper_register w := if w.2 then (1, w) else (0, (1, w.1.2, w.2));
  bridge_route_helper_unregister w := if w.2 then (1, w) else (0, (0, w.1.2, w.2));
  bridge_route_helper_open_settings w := w;
  bridge_tunnel_broker_status w := (w.1.2, w);
  bridge_tunnel_broker_register w := if w.2 then (1, w) else (0, (w.1.1, 1, w.2));
  bridge_tunnel_broker_unregister w := if w.2 then (1, w) else (0, (w.1.1, 0, w.2));
  bridge_verify_bundled_requirements w := (0, w);
}.

#[export] Instance registrations_laws : ServiceBridgeLaws Registrations.
Proof.
  refine {| helper_of w := map_registration_status w.1.1; broker_of w := map_registration_status w.1.2 |};
    intros [[h b] []]; done.
Defined.

Lemma broker_outlives_no_enabled_helper_witness :
  (unregister_privileged_networking_services ((1, 1, false) : Registrations)).2 = (0, 0, false) /\
  helper_of ((0, 0, false) : Registrations) <> Enabled.
Proof.
  assert (Hrun : unregister_privileged_networking_services ((1, 1, false) : Registrations) =
    (Ok {| route_helper := NotRegistered; tunnel_broker := NotRegistered; services_ready := false |},
     (0, 0, false))) by reflexivity.
  destruct (broker_outlives_no_enabled_helper _ _ _ Hrun) as (Hb & _ & _).
  split; [by rewrite Hrun|]. apply Hb; done.
Defined.

(** ** a sidecar behind a socket *)

(** The clock, the running children, whether a peer connects, and whether the standard
    input of a child is still open. *)
Record UnixSim := { us_clock : Z; us_alive : list Z; us_peer : bool; us_input : bool }.

#[export] Instance unix_sim : UnixOs UnixSim := {
  os_create_dir_all _ w := (Ok tt, w);
  os_set_permissions _ _ w := (Ok tt, w);
  os_path_kind _ w := (PathAbsent, w);
  os_remove_file _ w := (Ok tt, w);
  os_bind _ w := (Ok 3, w);
  os_set_nonblocking _ w := (Ok tt, w);
  os_accept _ w := if us_peer w then (Ok 4, w) else (Err WouldBlock, w);
  os_read_line _ w := (Ok "{}"%string, w);
  os_spawn _ _ w := (Ok 41, {| us_clock := us_clock w; us_alive := 41 :: us_alive w; us_peer := us_peer w;
                               us_input := us_input w |});
  os_take_stdin _ w := (Some 5, w);
  os_write_all _ _ w := (if us_input w then Ok tt else Err tt, w);
  os_try_wait _ w := (Ok None, w);
  os_kill c w := (Ok tt, {| us_clock := us_clock w; us_alive := filter (fun x => x <> c) (us_alive w);
                            us_peer := us_peer w; us_input := us_input w |});
  os_wait _ w := (Ok tt, w);
  os_now w := (us_clock w, w);
  os_sleep d w := {| us_clock := us_clock w + d; us_alive := us_alive w; us_peer := us_peer w;
                     us_input := us_input w |};
}.

#[export] Instance unix_sim_json : HandshakeJson := { handshake_from_str _ := None }.

#[export] Instance unix_sim_clock : UnixClockLaws UnixSim.
Proof.
  refine {| time_of := us_clock |}; cbn; intros; repeat case_match; cbn; try split; try done; lia.
Defined.

#[export] Instance unix_sim_processes : UnixChildAccount UnixSim.
Proof.
  refine {| left_alone w c := bool_decide (c ∈ us_alive w) |}; cbn.
  all: try done. intros exe args w c w' [= <- <-]. apply bool_decide_eq_true. left.
Defined.

Definition unix_idle (peer input : bool) : UnixSidecarRuntime UnixSim :=
  ur_with_handshake_timeout 30 (ur_new "/app/sidecar" "/run/kyclash"
    {| us_clock := 0; us_alive := []; us_peer := peer; us_input := input |}).
Definition unix_context : SidecarLaunchContext := SidecarLaunchContext_new "sidecar-0001" (replicate 32 1).

(** A silent child: the wait ends at the deadline and the child is gone. *)
Lemma unix_start_is_bounded_and_released_witness :
  let started := ur_start 4 unix_context (unix_idle false true) in
  started.1 = Err OperationTimedOut /\ ur_child started.2 = None /\ us_alive (ur_world started.2) = [].
Proof.
  intros started. split; [vm_compute; reflexivity|].
  destruct (unix_start_is_bounded_and_released 4 unix_context (unix_idle false true) started.2 started.1)
    as [_ Hc].
  - cbn. lia.
  - reflexivity.
  - apply surjective_pairing.
  - split; [|vm_compute; reflexivity]. apply Hc. vm_compute. reflexivity.
Defined.

