(* ===== verification/CommandWitnesses.v ===== *)
(** * CommandWitnesses: concrete runs of the production commands

    A small population of services behind the interfaces of the commands, and one run per
    theorem about them. *)

From Stdlib Require Import Ascii String.
From S2P Require Import Prelude Text NetState IpAddr Config Ipc Sidecar Policy PolicyIdentity PolicyIdentitySafety.
From S2P Require Import PolicyDisk ProductionSession ProductionController SidecarTrust StdioRuntime RouteV3Client.
From S2P Require Import TunnelBroker RouteBoundary BrokerBoundRoute PolicyCatalog Credentials ServiceGate.
From S2P Require Import ProductionService Composition Materialization CompositionSafety CommandState CommandSafety.
From S2P Require Import Samples ProductionWitnesses.

(** How many services were built, and those that retired. *)
Record Population := { po_built : Z; po_retired : list Z }.

Definition po_status : ProductionNetworkStatus :=
  {| pn_state := Disconnected; pn_sidecar_state := Stopped;
     pn_site := {| ss_id := "hq"; ss_display_name := "Head office"; ss_private_route_count := 1 |};
     pn_active_transport := None; pn_health := None; pn_operation_id := None; pn_last_error := None |}.

Definition po_receipt (s : Z) : ProductionServiceRetirementReceipt :=
  {| sv_service_generation := s; sv_route := {| rt_boundary_incarnation := s; rt_native_generation := 1 |};
     sv_controller := {| rr_runtime_generation := 1; rr_absence := NeverSpawned |} |}.

#[export] Instance population_services : NetworkingServices Population unit := {
  svc_status _ _ := po_status;
  svc_generation s _ := s;
  svc_disposition s w := if bool_decide (s ∈ po_retired w) then SdRetired else SdReusable;
  svc_reserve_connect s w := if bool_decide (s ∈ po_retired w) then (Err InvalidStateTransition, w) else (Ok 1, w);
  svc_abandon _ _ w := w;
  svc_connect_reserved _ _ _ w := (Ok po_status, w);
  svc_cancel _ _ w := (Ok tt, w);
  svc_disconnect _ _ w := (Ok po_status, w);
  svc_try_retire s w :=
    if bool_decide (s ∈ po_retired w) then (SrAlreadyRetired, w)
    else (SrRetired (po_receipt s), {| po_built := po_built w; po_retired := s :: po_retired w |});
  svc_diagnostics _ w := (Ok [], w);
  fct_initial_status _ := po_status;
  fct_build _ w := (Ok (po_built w), {| po_built := po_built w + 1; po_retired := po_retired w |});
}.

Definition po_variant (id : string) : VerifiedProductionPolicyVariant :=
  {| vv_summary := {| pv_catalog_id := id; pv_display_name := id; pv_revision := 3; pv_profile_sha256 := "";
                      pv_private_cidrs := BASE_ROUTES |}; vv_envelope_sha256 := "" |}.

#[export] Instance population_providers : NetworkingProviders Population unit unit := {
  prv_initialize _ w := (Ok tt, w);
  prv_verify_policy_variants _ w := (Ok [po_variant "base"; po_variant "base+.30"], w);
  prv_prepare_policy_variant _ id _ w :=
    if bool_decide (id = "base"%string) then
      (Ok {| pr_variants := [po_variant "base"; po_variant "base+.30"]; pr_selected := po_variant "base";
             pr_factory := tt |}, w)
    else if bool_decide (id = "base+.30"%string) then
      (Ok {| pr_variants := [po_variant "base"; po_variant "base+.30"]; pr_selected := po_variant "base+.30";
             pr_factory := tt |}, w)
    else (Err InvalidConfiguration, w);
}.

#[export] Instance population_laws : ServiceLaws Population unit unit.
Proof.
  refine {| retired w s := bool_decide (s ∈ po_retired w); known w s := true |};
    cbn; unfold advances; intros; repeat case_match; cbn in *; try done.
  - split; [|done]. intros s' Hs. apply bool_decide_eq_true in Hs. apply bool_decide_eq_true. by right.
  - simplify_eq. apply bool_decide_eq_true. by left.
  - by simplify_eq.
  - by simplify_eq.
Defined.

Definition no_services : Population := {| po_built := 100; po_retired := [] |}.
Definition connected_once : list (CommandEvent (P := unit)) :=
  [EvConfigure tt tt; EvInitialize; EvConnect (Ok tt); EvRunTask 0].

Definition after_connect := command_run connected_once (cmd_new (F := unit) (P := unit) no_services, []).
Definition after_selection := command_run [EvSelect "base+.30"; EvConnect (Ok tt)] after_connect.

Lemma run_pair evs st :
  command_run evs (st.1, st.2) = ((command_run (P := unit) evs st).1, (command_run evs st).2).
Proof. destruct st as [cs tasks]. apply surjective_pairing. Qed.

(** The service that a selection replaces has retired, and its record is kept. *)
Lemma replaced_service_is_retired_witness :
  cmd_service after_connect.1 = Some 100 /\ cmd_service after_selection.1 = Some 101 /\
  retired (cmd_world after_selection.1) 100 = true /\
  map re_service_generation (cmd_retired_evidence after_selection.1) = [100].
Proof.
  split; [vm_compute; reflexivity|]. split; [vm_compute; reflexivity|].
  split; [|vm_compute; reflexivity].
  destruct (replaced_service_is_retired no_services connected_once [EvSelect "base+.30"; EvConnect (Ok tt)]
    after_connect.1 after_connect.2 after_selection.1 after_selection.2) as (Hs & _ & _).
  - exact (surjective_pairing after_connect).
  - exact (run_pair _ after_connect).
  - destruct (Hs 100) as [Hc|Hr]; [vm_compute; reflexivity| |exact Hr].
    exfalso. assert (cmd_service after_selection.1 = Some 101) as Hn by (vm_compute; reflexivity).
    rewrite Hn in Hc. discriminate Hc.
Defined.

(** An unknown variant changes no slot. *)
Lemma selection_is_all_or_nothing_witness :
  let selected := select_policy_variant "base+.99" after_connect.1 in
  selected.1 = Err InvalidConfiguration /\
  cmd_service selected.2 = cmd_service after_connect.1 /\
  cmd_selected_variant selected.2 = cmd_selected_variant after_connect.1.
Proof.
  intros selected. assert (He : selected.1 = Err InvalidConfiguration) by (vm_compute; reflexivity).
  destruct (selection_is_all_or_nothing no_services connected_once after_connect.1 after_connect.2
    "base+.99" selected.1 selected.2) as [Hu _];
    [exact (surjective_pairing after_connect)|exact (surjective_pairing selected)|].
  split; [exact He|]. rewrite He in Hu. destruct Hu as (Hs & _ & Hv). split; [exact Hs|exact Hv].
Defined.

(** * An initialization, a selection and a materialization

    The small file system of the policy store with a bundle of resources beside it, a
    signing scheme and a manifest: both ways to a configuration run to their end there,
    and a service is materialized from one. *)

(** ** the bundle *)

(** The contents of the resources, by path. *)
Definition bundle : list (string * list Z) := [
  ("/app/resources/kyclash-networking-policy-keys.json", [99]);
  ("/app/resources/kyclash-networking-policy-v2.json", [0]);
  ("/app/resources/kyclash-networking-policy-catalog-v1.json", [98]);
  ("/app/resources/kyclash-networking-policy-base-v2.json", [0]);
  ("/app/resources/kyclash-networking-policy-base-30-v2.json", [1]);
  ("/app/resources/kyclash-networking-policy-base-31-v2.json", [2]);
  ("/app/resources/kyclash-networking-policy-base-both-v2.json", [3]);
  ("/app/resources/kyclash-network-sidecar-aarch64-apple-darwin.trust.json", [97])
]%string.

#[export] Instance bundle_os : ResourceOs PW := {
  ResourceFile := list Z;
  resource_open path w := (match assoc path bundle with Some bytes => Ok bytes | None => Err tt end, w);
  resource_metadata f w :=
    (Ok {| rm_is_file := true; rm_len := Z.of_nat (length f); rm_dev := 1; rm_ino := 9; rm_mtime := 0;
           rm_mtime_nsec := 0; rm_ctime := 0; rm_ctime_nsec := 0 |}, w);
  resource_read f n w := (Ok (take (Z.to_nat n) f), w);
  unix_now w := (150, w);
}.

#[export] Instance bundle_laws : ResourceLaws PW.
Proof. by constructor. Qed.

(** The profile of the variant number [k]. *)
Definition variant_profile (k : Z) : NetworkProfile := {|
  schema_version := 1;
  profile_id := "office";
  control_plane := "https://control.example.com/api";
  identity_ref := "keychain:office-device";
  site := {| site_id := "hq"; display_name := "Head office";
             private_cidrs := match LOCKED_VARIANTS !! Z.to_nat k with
                              | Some locked => lk_routes locked | None => [] end |};
  tunnel := tunnel sample_profile;
  transports := transports sample_profile;
  policy := policy sample_profile;
|}.

#[export] Instance bundle_policy_lib : PolicyLib := {
  envelope_from_slice b :=
    Some {| envelope_version := 2; env_key_id := "root-1"; algorithm := "ed25519";
            payload_base64 := BASE64_encode b;
            signature_base64 := BASE64_encode (key_a ++ signing_message "root-1" "ed25519" b) |};
  payload_from_slice b :=
    match b with
    | [k] => Some {| pl_issued_at := 100; pl_expires_at := 200; pl_revision := 7;
                     pl_profile := variant_profile k |}
    | _ => None
    end;
  trust_bundle_from_slice b :=
    if bool_decide (b = [99])
    then Some {| tb_schema_version := 1;
                 tb_keys := [{| tk_key_id := "root-1"; tk_public_key_base64 := BASE64_encode key_a |}] |}
    else None;
  ed25519_verify pk message signature := bool_decide (signature = pk ++ message);
  sha256 b := replicate 32 (Z.of_nat (length b) mod 256);
}.

#[export] Instance bundle_catalog_lib : CatalogLib := {
  catalog_from_slice b :=
    if bool_decide (b = [98])
    then Some {| cr_schema_version := 1; cr_revision := 7;
                 cr_entries := map (fun l => {| pe_id := lk_id l; pe_envelope_resource := lk_envelope_resource l |})
                                 LOCKED_VARIANTS |}
    else None;
  profile_to_vec p := Some [Z.of_nat (length (private_cidrs (site p)))];
}.

Definition bundle_manifest : SidecarTrustManifest :=
  {| tm_schema_version := 1; tm_sha256 := digest_of "a"; tm_architecture := "arm64"; tm_team_id := "TEAM1";
     tm_designated_requirement := "anchor apple generic" |}.

#[export] Instance bundle_manifest_lib : ManifestLib := {
  manifest_from_slice b := if bool_decide (b = [97]) then Some bundle_manifest else None;
}.

Definition bundle_provider : BundleProductionInitializationProvider :=
  {| bp_resource_dir := "/app"; bp_app_data_dir := "/data"; bp_now := None |}.

Definition bundle_configuration (k : Z) : VerifiedProductionConfiguration :=
  {| pc_profile := variant_profile k; pc_profile_revision := 7;
     pc_sidecar_executable := "/app/kyclash-network-sidecar"; pc_sidecar_trust := bundle_manifest |}.

Definition initialized := initialize_sync MacosAarch64 true 2 bundle_provider first_proc.

Lemma initialization_commits_only_verified_policy_witness :
  initialized.1 = Ok (Some (with_mihomo_source LiveMacosSource (factory_new (bundle_configuration 0)))) /\
  exists c now d, revision c = 7 /\ issued_at c <= now < expires_at c /\
    parsed (record_of (world initialized.2) d) = Ok (Some (Identity (record_of_candidate c))).
Proof.
  assert (Hr : initialized.1 =
    Ok (Some (with_mihomo_source LiveMacosSource (factory_new (bundle_configuration 0)))))
    by (vm_compute; reflexivity).
  split; [exact Hr|].
  destruct (initialization_commits_only_verified_policy MacosAarch64 true 2 bundle_provider first_proc
    initialized.1 initialized.2 (surjective_pairing initialized)) as (_ & Hok).
  destruct (Hok _ Hr) as (d & c & now & Hs & Ht & Hrec). exists c, now, d.
  split; [|split; [exact Ht|exact Hrec]].
  destruct Hs as (t & s0 & at' & s1 & tb & s2 & pb & s3 & t' & s4 & manifest & s5 & s6 & trust & verified & pl &
    _ & _ & _ & _ & _ & _ & _ & _ & _ & _ & _ & Hconf & ->).
  unfold configures in Hconf. cbn in Hconf |- *. by injection Hconf.
Defined.

(** ** a selected variant *)

Definition selected := prepare_policy_variant_sync MacosAarch64 true 2 bundle_provider "base+.31" None first_proc.

Lemma selected_variant_grants_locked_routes_witness :
  exists prepared, selected.1 = Ok (Some prepared) /\
    pv_catalog_id (vv_summary (pp_selected prepared)) = "base+.31"%string /\
    private_cidrs (site (pc_profile (df_configuration (pp_factory prepared)))) ≡ₚ BASE_ROUTES ++ [HOST_31].
Proof.
  assert (Hr : exists prepared, selected.1 = Ok (Some prepared) /\
    pv_catalog_id (vv_summary (pp_selected prepared)) = "base+.31"%string)
    by (vm_compute; eexists; split; reflexivity).
  destruct Hr as (prepared & Hr & Hid). exists prepared. split; [exact Hr|]. split; [exact Hid|].
  destruct (selected_variant_grants_locked_routes MacosAarch64 true 2 bundle_provider "base+.31" None first_proc
    selected.1 selected.2 (surjective_pairing selected)) as (_ & Hok).
  destruct (Hok _ Hr) as (d & c & now & Hs & _).
  destruct Hs as (t & s0 & fn & s1 & first & s2 & t' & s3 & manifest & s4 & s5 & cb & w1 & tb & w2 & w3 & env & w4 &
    res & trust & locked & policy & pl &
    _ & _ & _ & _ & _ & _ & _ & _ & _ & _ & _ & _ & Hin & Hl & _ & _ & Hp & Hconf & _).
  unfold configures in Hconf. rewrite Hconf. cbn. rewrite Hp.
  clear -Hin Hl. unfold LOCKED_VARIANTS in Hin. rewrite !elem_of_cons in Hin.
  destruct Hin as [->|[->|[->|[->|Hin]]]]; [discriminate Hl|discriminate Hl|reflexivity|discriminate Hl|].
  by apply elem_of_nil in Hin.
Defined.

(** ** a service *)

#[export] Instance memory_random : RandomSource MemoryCredentialStore := { fill_32 s := (Ok (replicate 32 5), s) }.

Lemma memory_random_generates : generates (S := MemoryCredentialStore) system_random.
Proof. split; [by intros s x v|]. by intros s v [= <-]. Qed.

Definition first_launch : MaterializeWorld MemoryCredentialStore Machine :=
  {| mw_store := {| values := ∅ |}; mw_next_incarnation := 1; mw_broker := machine_off |}.
Definition base_factory : DeferredProductionServiceFactory := factory_new (bundle_configuration 0).
Definition materialized := build_macos (V := Leases) (C := unit) base_factory [] first_launch.

Lemma broker_is_asked_last_witness :
  mc_running (mw_broker materialized.2) = true /\
  exists parts material, materialized.1 = Ok parts /\ sp_instance_id parts = "sidecar-0001"%string /\
    material_ready (bundle_configuration 0) (mw_store materialized.2) material.
Proof.
  assert (Hr : mc_running (mw_broker materialized.2) = true) by (vm_compute; reflexivity).
  split; [exact Hr|].
  assert (Hp : exists parts, materialized.1 = Ok parts /\ sp_instance_id parts = "sidecar-0001"%string)
    by (vm_compute; eexists; split; reflexivity).
  destruct Hp as (parts & Hp & Hi).
  destruct (broker_is_asked_last memory_random_generates base_factory [] first_launch
    materialized.1 materialized.2 (surjective_pairing materialized)) as ([Hb|[material Hm]] & _ & _).
  - exfalso. rewrite Hb in Hr. discriminate Hr.
  - exists parts, material. split; [exact Hp|]. split; [exact Hi|exact Hm].
Defined.
