(* ===== verification/DesktopWitnesses.v ===== *)
(** * DesktopWitnesses: concrete runs of the profile machinery

    A delay queue as a finite map, a directory as a list of names, mappings that remove by
    filtering and a script that tries to take over the control plane; one run per theorem
    about the timer, the limiter, the profile list and the enhancement. *)

From Stdlib Require Import Ascii String.
From S2P Require Import Prelude Text IpAddr Yaml ProfileItem Profiles SelectedNodes ProxyView ProxyViewSafety Enhance.
From S2P Require Import EnhancePipeline EnhanceSafety EnhanceOverrides RuntimeConfig ClashConfig Timer.
From S2P Require Import Limiter Draft Validation Verge Updater CoreManager CoreManagerSafety Hotkey AutoBackup.
From S2P Require Import SaveProfile PatchSettings.

(** ** the limiter *)

(** Two threads load the same last run; one of them passes, and a third call after the
    period passes again. *)
Definition limiter_events : list LimiterEvent :=
  [LeCall 1000; LeCall 1001; LeLoad 0; LeLoad 1; LeExchange 0; LeExchange 1; LeCall 1200; LeLoad 2; LeExchange 2].

Lemma limiter_passes_once_per_period_witness :
  lw_passed (limiter_run limiter_events (limiter_world 100)) = [1200; 1000] /\ (1000 + 100 <= 1200 \/ 1200 < 1000).
Proof.
  split; [reflexivity|]. apply (limiter_passes_once_per_period 100 limiter_events [] 1200 1000 []).
  - unfold u64_max. lia.
  - unfold limiter_events. repeat constructor; unfold u64_max; cbn; lia.
  - reflexivity.
Defined.

(** ** the timer *)

Notation map_queue := (gmap Z (string * Z)).

#[export] Instance map_delay_queue : DelayQueue map_queue := {
  dq_new := ∅;
  dq_insert uid d q := if d <=? 68719476 then let k := fresh (dom q) in Some (k, <[k := (uid, d)]> q) else None;
  dq_remove k q := match q !! k with Some _ => Some (delete k q) | None => None end;
  dq_reset k d q := match q !! k with
                    | Some (uid, _) => if d <=? 68719476 then Some (<[k := (uid, d)]> q) else None
                    | None => None
                    end;
  dq_expire k q := match q !! k with Some (uid, _) => Some (uid, delete k q) | None => None end;
}.

#[export] Instance map_delay_queue_laws : DelayQueueLaws map_queue.
Proof.
  refine {| dq_view q := fst <$> q; dq_longest := 68719476 |}; cbn.
  - by rewrite fmap_empty.
  - intros uid d q Hd. rewrite (proj2 (Z.leb_le _ _) Hd). eexists _, _. split; [done|].
    rewrite lookup_fmap, (not_elem_of_dom_1 _ _ (is_fresh (dom q))). split; [done|].
    by rewrite fmap_insert.
  - intros uid d q Hd. by rewrite (proj2 (Z.leb_gt _ _) Hd).
  - intros k q uid Hk. rewrite lookup_fmap in Hk. destruct (q !! k) as [e|]; [|done].
    eexists. split; [done|]. by rewrite fmap_delete.
  - intros k d q uid Hd Hk. rewrite lookup_fmap in Hk. destruct (q !! k) as [[u d']|] eqn:E; [|done].
    rewrite (proj2 (Z.leb_le _ _) Hd). eexists. split; [done|]. rewrite fmap_insert. cbn. apply insert_id. by rewrite lookup_fmap, E.
  - intros k q uid q' Hk. destruct (q !! k) as [[u d]|] eqn:E; [|done]. injection Hk as <- <-.
    rewrite lookup_fmap, E. split; [done|]. by rewrite fmap_delete.
Defined.

(** Two profiles; one is updated at once, the other is taken from the map meanwhile. *)
Definition timer_events : list SchedulerEvent :=
  [SeApply [("R1"%string, 60); ("R2"%string, 10)]; SeRunNow "R1"; SeApply [("R1"%string, 30)]; SeFinished 0].


Lemma timer_readded_profile_is_queued_twice_witness :
  exists (s : Scheduler map_queue) k1 k2, k1 <> k2 /\
    dq_view (sch_queue s) !! k1 = Some "R1"%string /\ dq_view (sch_queue s) !! k2 = Some "R1"%string.
Proof.
  destruct (timer_readded_profile_is_queued_twice (Q := map_queue) "R1" 60) as (s & k1 & k2 & _ & Hk);
    [vm_compute; discriminate|].
  by exists s, k1, k2.
Defined.

(** ** the profile list *)

(** The names in the only directory. *)
#[export] Instance directory_fs : ProfileFs (list string) := {
  app_profiles_dir w := (Ok "profiles"%string, w);
  fs_path_exists p w := (bool_decide (p = "profiles"%string \/ p ∈ w), w);
  fs_write p _ w := (Ok tt, p :: w);
  fs_remove_if_exists p w := (Ok tt, filter (fun q => q <> p) w);
  fs_read_dir _ w := (Ok (map (fun p => Ok {| de_name := Some (String.substring 9 (String.length p - 9) p);
                                             de_is_file := true |}) w), w);
  fs_save_profiles _ w := (Ok tt, w);
}.

#[export] Instance directory_fs_laws : ProfileFsLaws (list string).
Proof.
  refine {| on_disk w p := bool_decide (p ∈ w) |}; try done.
  intros q w p Hne. cbn. apply bool_decide_ext. rewrite list_elem_of_filter. by split; [intros []|].
Defined.

Definition named_item (u kind f : string) : PrfItem :=
  {| uid := Some u; itype := Some kind; item_name := Some u; file := Some f; desc := None; item_url := None;
     selected := None; extra := None; updated := None; item_option := None; home := None; file_data := None |}.

Definition two_profiles : IProfiles :=
  {| current := Some "R1"%string;
     items := Some [named_item "R1" "remote" "R1.yaml"; named_item "L2" "local" "L2.yaml"] |}.

Definition desktop_world : ProfileWorld (list string) :=
  {| pf_profiles := two_profiles;
     pf_world := map (file_path "profiles") ["R1.yaml"; "L2.yaml"; "R9abcdefgh.yaml"; "notes.txt"]%string |}.

(** The current profile is moved to the end and deleted: the other one becomes current. *)
Definition desktop_ops : list ProfileOp := [OpReorder "R1" "L2"; OpDelete "R1"].


Lemma reorder_with_unknown_id_drops_all_profiles_witness :
  items (pf_profiles desktop_world) <> Some [] /\
  (profiles_reorder_safe "R1" "gone" desktop_world).1 = Ok tt /\
  items (pf_profiles (profiles_reorder_safe "R1" "gone" desktop_world).2) = None.
Proof.
  split; [done|].
  rewrite (reorder_with_unknown_id_drops_all_profiles desktop_world "R1" "gone"); [done|right].
  unfold listed. cbn. rewrite !elem_of_cons, elem_of_nil. intuition congruence.
Defined.

Lemma cleanup_deletes_only_leftovers_witness :
  exists r w', cleanup_orphaned_files desktop_world = (r, w') /\ is_ok r = true /\
    pf_world w' = map (file_path "profiles") ["R1.yaml"; "L2.yaml"; "notes.txt"]%string /\
    on_disk (pf_world w') "profiles/R1.yaml" = true.
Proof.
  eexists _, _. split; [apply surjective_pairing|]. split; [vm_compute; reflexivity|].
  split; [vm_compute; reflexivity|].
  pose proof (cleanup_deletes_only_leftovers desktop_world _ _ "profiles"%string
    (surjective_pairing (cleanup_orphaned_files desktop_world))) as Hc.
  destruct Hc as [_ Hd]; [reflexivity|].
  destruct (Hd "R1.yaml"%string eq_refl) as [Hk|(_ & _ & Hno)]; [exact Hk|].
  destruct (Hno (named_item "R1" "remote" "R1.yaml")) as [Hf _]; [left|]. by destruct Hf.
Defined.

(** ** the enhancement *)

#[export] Instance filter_mapping : MappingLib := { m_remove k m := filter (fun e => e.1 <> k) m }.

#[export] Instance filter_mapping_laws : MappingLaws.
Proof. split. by intros. Defined.

Lemma mwf_by_evaluation m : bool_decide (NoDup m.*1) = true -> mwf m.
Proof. apply bool_decide_eq_true. Qed.

(** A script whose answer only sets the secret of the controller. *)
#[export] Instance taking_script : ScriptEngine := {
  use_script _ _ _ := Ok ([(VString "secret", VString "taken")], []);
  BUILTIN := [];
}.

Definition local_settings : ConfigValues :=
  {| cv_clash_config := [(VString "secret", VString "kept"); (VString "mixed-port", VNumber (PosInt 7897))];
     cv_clash_core := None; cv_enable_tun := false; cv_enable_builtin := false; cv_socks_enabled := false;
     cv_http_enabled := false; cv_enable_dns_settings := false; cv_redir_enabled := false;
     cv_tproxy_enabled := false; cv_enable_external_controller := false |}.


Definition dns_merge : Mapping :=
  [(VString "DNS", VMapping [(VString "enable", VBool true); (VString "ipv6", VBool false)])].
Definition dns_config : Mapping :=
  [(VString "dns", VMapping [(VString "ipv6", VBool true); (VString "listen", VString ":53")])].

Lemma merging_twice_is_merging_once_witness :
  get_str "dns" (use_merge dns_merge dns_config) =
    Some (VMapping [(VString "ipv6", VBool false); (VString "listen", VString ":53"); (VString "enable", VBool true)]) /\
  use_merge dns_merge (use_merge dns_merge dns_config) = use_merge dns_merge dns_config.
Proof.
  split; [vm_compute; reflexivity|]. apply (merging_twice_is_merging_once dns_merge dns_config).
  split; [by apply mwf_by_evaluation|]. split; [|done]. split; [by apply mwf_by_evaluation|done].
Defined.

Definition group (members : Sequence) : Mapping :=
  [(VString "name", VString "Proxy"); (VString "type", VString "select"); (VString "proxies", VSequence members)].
Definition grouped_config : Mapping :=
  [(VString "proxies", VSequence [VMapping [(VString "name", VString "hk")]; VMapping [(VString "name", VString "jp")]]);
   (VString "proxy-groups", VSequence [VMapping (group [VString "hk"; VString "jp"; VString "DIRECT"])])].

Definition drop_jp : SeqMap := {| prepend := []; append := []; seq_delete := ["jp"%string] |}.

Lemma deleted_proxy_is_gone_witness :
  get_str "proxy-groups" (use_seq drop_jp grouped_config "proxies") =
    Some (VSequence [VMapping (group [VString "hk"; VString "DIRECT"])]) /\
  exists l, get_str "proxies" (use_seq drop_jp grouped_config "proxies") = Some (VSequence l) /\
    forall item, item ∈ l -> ~ names_proxy "jp" item.
Proof.
  split; [vm_compute; reflexivity|]. apply (deleted_proxy_is_gone drop_jp grouped_config "jp").
  - by apply mwf_by_evaluation.
  - left.
  - cbn. apply not_elem_of_nil.
  - intros groups [= <-]. constructor; [by apply mwf_by_evaluation|constructor].
Defined.

(** The group still names the proxy that is gone. *)
Definition dangling_config : Mapping :=
  [(VString "proxies", VSequence [VMapping [(VString "name", VString "hk")]]);
   (VString "proxy-groups", VSequence [VMapping (group [VString "hk"; VString "jp"; VString "DIRECT"])])].

Lemma cleaned_groups_refer_to_existing_names_witness :
  get_str "proxy-groups" (cleanup_proxy_groups dangling_config) =
    Some (VSequence [VMapping (group [VString "hk"; VString "DIRECT"])]) /\
  ("hk"%string ∈ allowed_names (cleanup_proxy_groups dangling_config) \/
   exists uses p, get_str "use" (group [VString "hk"; VString "DIRECT"]) = Some (VSequence uses) /\ VString p ∈ uses).
Proof.
  assert (Hg : get_str "proxy-groups" (cleanup_proxy_groups dangling_config) =
    Some (VSequence [VMapping (group [VString "hk"; VString "DIRECT"])])) by (vm_compute; reflexivity).
  split; [exact Hg|].
  eapply (proj2 (cleaned_groups_refer_to_existing_names dangling_config _
    (VMapping (group [VString "hk"; VString "DIRECT"])) _ Hg ltac:(left) eq_refl)); [reflexivity|left].
Defined.

(** ** the view of the proxies *)

Definition proxy_named (name : string) (kind : ProxyType) (all : option (list string)) : Proxy :=
  {| px_name := name; px_type := kind; px_alive := true; px_all := all; px_now := None; px_fixed := None;
     px_hidden := None; px_icon := None; px_test_url := None; px_id := None; px_history := []; px_udp := false;
     px_xudp := false; px_tfo := false; px_mptcp := false; px_smux := false |}.

(** A group of a node of the core, a node of a provider and a name that is gone. *)
Definition small_report : ProxyViewInput :=
  {| runtime_group_order := ["Proxy"]%string;
     in_proxies := {[ "Proxy"%string := proxy_named "Proxy" Selector (Some ["DIRECT"; "hk"; "gone"]%string);
                      "DIRECT"%string := proxy_named "DIRECT" (OtherProxyType "Direct") None ]};
     in_providers := Some {[ "sub"%string := {| pd_vehicle_type := VtHTTP;
       pd_proxies := [proxy_named "hk" (OtherProxyType "Vmess") None]; pd_updated_at := None;
       pd_subscription_info := None |} ]} |}.

Lemma proxy_view_is_consistent_witness :
  map gv_members (vw_groups (build small_report)) =
    [[MemberNode "DIRECT" "c:0"; MemberNode "hk" "p:0:0"; MemberUnresolved "gone" Missing]] /\
  (forall g m, in_view (build small_report) g -> m ∈ gv_members g -> member_leads small_report (build small_report) m).
Proof.
  split; [vm_compute; reflexivity|]. apply (proxy_view_is_consistent small_report).
  split; [vm_compute; discriminate|]. split; [vm_compute; discriminate|].
  intros name provider [<- <-]%lookup_singleton_Some. vm_compute. discriminate.
Defined.

(** ** the running configuration *)

(** [jp] dialled through [us] before; the chain wants [hk] through [jp]. *)
Definition chained_proxies : Sequence :=
  [VMapping [(VString "name", VString "hk")];
   VMapping [(VString "name", VString "jp"); (VString "dialer-proxy", VString "us")]].

Definition chain_runtime : IRuntime :=
  rt_set_config [(VString "mode", VString "rule"); (VString "proxies", VSequence chained_proxies)] IRuntime_new.

Definition two_hops : list Value := [VString "jp"; VString "hk"].

Lemma proxy_chain_is_exact_witness :
  rt_config (update_proxy_chain_config (Some (VSequence two_hops)) chain_runtime) =
    Some [(VString "mode", VString "rule");
          (VString "proxies", VSequence
            [VMapping [(VString "name", VString "hk"); (VString "dialer-proxy", VString "jp")];
             VMapping [(VString "name", VString "jp")]])] /\
  exists config' proxies',
    rt_config (update_proxy_chain_config (Some (VSequence two_hops)) chain_runtime) = Some config' /\
    get_str "proxies" config' = Some (VSequence proxies') /\
    (forall k, k <> "proxies"%string ->
      get_str k config' = get_str k [(VString "mode", VString "rule"); (VString "proxies", VSequence chained_proxies)]) /\
    Forall2 (fun p p' =>
      (forall k, k <> "dialer-proxy"%string -> value_get k p' = value_get k p) /\
      dialer p' = predecessor None two_hops (value_get "name" p)) chained_proxies proxies'.
Proof.
  split; [vm_compute; reflexivity|]. apply (proxy_chain_is_exact chain_runtime _ chained_proxies two_hops).
  - reflexivity.
  - reflexivity.
  - repeat constructor; eexists; (split; [reflexivity|by apply mwf_by_evaluation]).
  - apply (bool_decide_eq_true_1 _). vm_compute. reflexivity.
  - apply (bool_decide_eq_true_1 _). vm_compute. reflexivity.
Defined.

(** One tunnel leaves through a proxy that is gone, the other through one that exists. *)
Definition tunnel (proxy : string) : Mapping := [(VString "address", VString "127.0.0.1:53"); (VString "proxy", VString proxy)].
Definition tunnels_config : Mapping :=
  [(VString "proxies", VSequence chained_proxies);
   (VString "tunnels", VSequence [VMapping (tunnel "gone"); VMapping (tunnel "hk")])].

Lemma tunnels_name_existing_proxies_witness :
  get_str "tunnels" (sanitize_tunnels_proxy tunnels_config) ≫= as_sequence =
    Some [VMapping [(VString "address", VString "127.0.0.1:53")]; VMapping (tunnel "hk")] /\
  "hk"%string ∈ valid_targets (sanitize_tunnels_proxy tunnels_config).
Proof.
  assert (Ht : get_str "tunnels" (sanitize_tunnels_proxy tunnels_config) ≫= as_sequence =
    Some [VMapping [(VString "address", VString "127.0.0.1:53")]; VMapping (tunnel "hk")]) by (vm_compute; reflexivity).
  split; [exact Ht|].
  apply (tunnels_name_existing_proxies tunnels_config _ (VMapping (tunnel "hk")) "hk"%string) with (2 := Ht).
  - intros item m Hin Hm. cbn in Hin. apply elem_of_cons in Hin as [->|Hin]; [|apply list_elem_of_singleton in Hin as ->];
      injection Hm as <-; by apply mwf_by_evaluation.
  - right. left.
  - reflexivity.
Defined.

(** * Concrete runs of the core manager

    A box with files, a core that reads its file when it is started or reloaded, and no
    system service; the profile list gets an entry from another task while the current
    profile is switched. *)

Record CoreBox := {
  cb_files : list (string * Mapping);
  cb_core : option Mapping;
  cb_alive : gset Z;
  cb_next : Z;
  cb_reloads : bool;
  cb_profiles : list (string * string);
}.

Definition box_read (b : CoreBox) (path : string) : option Mapping :=
  match find (fun f => bool_decide (f.1 = path)) (cb_files b) with Some f => Some f.2 | None => None end.

Definition box_with_core (core : option Mapping) (alive : gset Z) (next : Z) (b : CoreBox) : CoreBox :=
  {| cb_files := cb_files b; cb_core := core; cb_alive := alive; cb_next := next; cb_reloads := cb_reloads b; cb_profiles := cb_profiles b |}.

Definition box_profile (path : string) (b : CoreBox) : option string :=
  match find (fun f => bool_decide (f.1 = path)) (cb_profiles b) with Some f => Some f.2 | None => None end.

Definition box_with_profiles (l : list (string * string)) (b : CoreBox) : CoreBox :=
  {| cb_files := cb_files b; cb_core := cb_core b; cb_alive := cb_alive b; cb_next := cb_next b;
     cb_reloads := cb_reloads b; cb_profiles := l |}.

#[export] Instance box_validation : ValidationOs CoreBox := {
  os_is_exiting _ := false;
  os_path_exists path b := is_some (box_profile path b);
  os_read_to_string _ _ := Err "no such file"%string;
  os_parse_yaml _ := Ok tt;
  os_eval_script _ := Ok tt;
  os_core_output _ _ b := (Ok {| out_code := Some 0; out_stdout := []; out_stderr := [] |}, b);
}.

Definition rule_mode : Mapping := [(VString "mode", VString "rule")].

#[export] Instance box_os : CoreOs CoreBox := {
  co_validation := box_validation;
  co_now _ := 0;
  co_home_dir _ := Ok "/home"%string;
  co_controller_ipc := "/tmp/core.sock"%string;
  co_enhance b := (Ok (rule_mode, ∅, ∅), b);
  co_save_yaml path config b :=
    (Ok tt, {| cb_files := (path, config) :: cb_files b; cb_core := cb_core b; cb_alive := cb_alive b;
               cb_next := cb_next b; cb_reloads := cb_reloads b; cb_profiles := cb_profiles b |});
  co_save_verge _ b := (Ok tt, b);
  co_save_profiles _ b := (Ok tt, b);
  co_spawn _ _ path _ b :=
    (Ok (cb_next b), box_with_core (box_read b path) ({[cb_next b]} ∪ cb_alive b) (cb_next b + 1) b);
  co_kill pid b := (Ok tt, box_with_core (cb_core b) (cb_alive b ∖ {[pid]}) (cb_next b) b);
  co_create_job _ b := (Err "no jobs here"%string, b);
  co_close_job _ b := b;
  co_reload_config path b :=
    if cb_reloads b then (Ok tt, box_with_core (box_read b path) (cb_alive b) (cb_next b) b)
    else (Err "no answer"%string, b);
  co_clear_logs b := b;
  co_sleep _ b := b;
  co_service_ready b := (false, b);
  co_service_run _ b := (Err "no service"%string, b);
  co_service_stop b := (Err "no service"%string, b);
  co_service_init b := (Err "no service"%string, b);
  co_service_refresh b := (Err "no service"%string, b);
  co_service_ipc_exists _ := false;
  co_is_admin _ := false;
  co_activate_nodes b := b;
  co_main_window _ := false;
  co_notify_profile_changed _ b := b;
}.

#[export] Instance box_laws : CoreLaws CoreBox.
Proof.
  refine {| file_at := box_read; core_runs := cb_core |}; cbn.
  - intros path config w w' [= <-]. unfold box_read. cbn. by rewrite bool_decide_eq_true_2.
  - intros path w w'. by destruct (cb_reloads w); intros [= <-].
  - by intros core dir path ipc w pid w' [= <- <-].
  - done.
  - by intros path p w e w' [= _ <-].
  - done.
  - done.
Defined.

#[export] Instance box_processes : ProcessLaws CoreBox.
Proof.
  refine {| alive := cb_alive |}; cbn; try done; try set_solver.
  intros path w. by destruct (cb_reloads w).
Defined.

Definition box (reloads : bool) (alive : gset Z) : CoreBox :=
  {| cb_files := []; cb_core := None; cb_alive := alive; cb_next := 7; cb_reloads := reloads; cb_profiles := [] |}.

Definition remote (u : string) : PrfItem := named_item u "remote" (String.append u ".yaml").

Definition core_state (reloads : bool) : CoreState CoreBox := {|
  cm_world := box reloads ∅; cm_running_mode := ModeNotRunning; cm_child_sidecar := None; cm_job_handle := None;
  cm_last_update := None; cm_config_update_in_progress := false; cm_handoff_watcher_running := false;
  cm_is_processing := false; cm_switching_profile := false; cm_umask := 18; cm_core_mode := ModeNotRunning;
  cm_unkilled := ∅; cm_notices := []; cm_runtime := versioned_new IRuntime_new;
  cm_profiles := versioned_new {| current := Some "a"%string; items := Some [remote "a"; remote "b"] |};
  cm_verge := versioned_new IVerge_default;
  cm_clash := versioned_new []; cm_deadline := None; cm_others := [];
|}.

(** The core does not answer the reload and is restarted with the new configuration. *)
Lemma update_applies_or_keeps_configuration_witness :
  let s' := (update_config_with_force false true (core_state false)).2 in
  (update_config_with_force false true (core_state false)).1 = Ok Valid /\
  cb_core (cm_world s') = Some rule_mode /\
  ve_draft (cm_runtime s') = None /\ generated (box false ∅) (ve_committed (cm_runtime s')).
Proof.
  assert (Hr : (update_config_with_force false true (core_state false)).1 = Ok Valid) by (vm_compute; reflexivity).
  split; [exact Hr|]. split; [vm_compute; reflexivity|].
  destruct (update_applies_or_keeps_configuration false true (core_state false) (Ok Valid)
    (update_config_with_force false true (core_state false)).2) as (Hd & Hg & _).
  { rewrite <- Hr. apply surjective_pairing. }
  split; [exact Hd|exact Hg].
Defined.

(** Another task appends a profile while the update waits. *)
Definition append_c (p : IProfiles) : IProfiles :=
  {| current := current p; items := option_map (fun l => l ++ [remote "c"]) (items p) |}.

Definition switching : CoreState CoreBox := cm_set_others [None; Some append_c] (core_state true).


Definition core_ops : list CoreOp := [OpStart; OpRestart; OpSwitch (only_current (Some "b"%string)); OpUpdate true].


(** The core runs as process 7 and the time is over in the middle of its restart. *)
Definition restarting : CoreState CoreBox :=
  cm_set_deadline (Some (3%nat, false)) (cm_set_world (box false {[7]}) (cm_set_child_sidecar (Some 7)
    (cm_set_running_mode ModeSidecar
      (cm_set_runtime (versioned_new {| rt_config := Some rule_mode; rt_exists_keys := ∅; rt_chain_logs := ∅ |})
        (core_state false))))).

Lemma abandoned_restart_claims_a_core_witness :
  exists s', restart_core false restarting = (Err Dropped, s') /\
    cm_running_mode s' <> ModeNotRunning /\ cm_child_sidecar s' = None /\ alive (cm_world s') = ∅ /\
    exists s'', start_core false (cm_set_deadline None s') = (Ok tt, s'') /\
      cm_world s'' = cm_world s' /\ cm_child_sidecar s'' = None.
Proof.
  apply (abandoned_restart_claims_a_core restarting 7 "/home" rule_mode); try reflexivity. cbn. set_solver.
Defined.

(** ** saving a profile *)

#[export] Instance box_profile_files : ProfileFileOs CoreBox := {
  po_dir _ := Ok "/home/profiles"%string;
  po_try_exists path b := Ok (is_some (box_profile path b));
  po_read path b := ok_or (box_profile path b) "no such file"%string;
  po_write path c b := (Ok tt, box_with_profiles ((path, c) :: cb_profiles b) b);
  po_remove path b := (Ok tt, box_with_profiles (filter (fun f => f.1 <> path) (cb_profiles b)) b);
  po_trigger_backup _ b := b;
  po_refresh_clash b := b;
  po_from_url _ _ b := (Err "offline"%string, b);
  po_error_text _ := "error"%string;
}.

#[export] Instance box_profile_laws : ProfileFileLaws CoreBox.
Proof.
  refine {| profile_at := box_profile |}.
  - by intros path w b [= <-].
  - intros path w c. cbn. by intros Hr%ok_or_ok.
  - intros path c w w' [= <-]. unfold box_profile. cbn. by rewrite bool_decide_eq_true_2.
  - intros path w w' [= <-]. unfold box_profile. cbn. induction (cb_profiles w) as [|[q c] l IH]; [done|].
    rewrite filter_cons. case_decide as Hq; cbn in *; [|done]. by rewrite bool_decide_eq_false_2.
  - intros path v _. split; try done. intros p w. cbn. by destruct (cb_reloads w).
Defined.

Definition editing : CoreState CoreBox :=
  cm_set_world (box_with_profiles [("/home/profiles/a.yaml"%string, "old"%string)] (box true ∅)) (core_state true).

(** The current profile is edited: the new text is kept and the core reloads. *)
Lemma saved_profile_is_applied_or_restored_witness :
  let end_ := save_profile_file false "a" (Some "new"%string) editing in
  end_.1 = Ok Valid /\ profile_at "/home/profiles/a.yaml" (cm_world end_.2) = Some "new"%string.
Proof.
  assert (Hr : (save_profile_file false "a" (Some "new"%string) editing).1 = Ok Valid) by (vm_compute; reflexivity).
  split; [exact Hr|].
  apply (saved_profile_is_applied_or_restored false "a" "new" editing Valid
    (save_profile_file false "a" (Some "new"%string) editing).2 (remote "a") "a.yaml" "/home/profiles");
    [reflexivity..| |].
  - intros d typ He. apply (f_equal (fun p => ends_with p "a.yaml")) in He.
    assert (Hn : ends_with (file_path d (config_name typ)) "a.yaml" = false).
    { unfold ends_with, file_path. rewrite !bytes_append, !rev_app_distr. by destruct typ. }
    rewrite Hn in He. vm_compute in He. discriminate He.
  - rewrite <- Hr. apply surjective_pairing.
Defined.

(** ** an update *)

Definition hex64 : string := str (replicate 64 "a"%char).
Definition commit40 : string := str (replicate 40 "b"%char).

Definition next_manifest : OwnedUpdateManifest := {|
  om_version := "2.5.0"; om_notes := "notes"; om_pub_date := "2026-03-31";
  om_platforms := {[OWNED_PLATFORM := {| oa_url := expected_url "2.5.0"; oa_signature := "good"; oa_sha256 := hex64; oa_size := 3 |}]};
  om_kyclash := {| op_schema_version := 1; op_source_commit := commit40; op_rollback_version := "2.4.0";
                   op_channel := ChannelStable; op_sample := false |};
|}.

(** The signature "good" is on every archive; rollback versions are the shorter order of the tests. *)
#[export] Instance toy_update_lib : UpdateLib := {
  Json := OwnedUpdateManifest;
  json_manifest m := Some m;
  meta_print m := Some (bytes (cache_version m));
  meta_parse l := Some {| cache_version := str l; cache_downloaded_at := "now" |};
  SemVer := string;
  semver_parse v := Some v;
  semver_ltb a b := negb (version_lte b a);
  b64_decode s := Some (bytes s);
  MinisignKey := string;
  MinisignSignature := string;
  key_decode s := Some s;
  signature_decode s := Some s;
  minisign_verify _ _ s := bool_decide (s = "good"%string);
}.

Definition next_update : Update :=
  {| up_raw_json := next_manifest; up_version := "2.5.0"; up_download_url := expected_url "2.5.0";
     up_signature := "good"; up_body := None |}.

Notation installs := (list (Update * list ascii)).

#[export] Instance toy_update_os : UpdateOs installs := {
  uo_home_dir _ := Some "/home"%string;
  uo_create_dir _ w := (true, w);
  uo_write _ _ w := (true, w);
  uo_read path _ := Some (if bool_decide (path = "/home/update_cache/pending_update.json"%string) then bytes "2.5.0" else bytes "app");
  uo_exists _ _ := true;
  uo_remove_dir_all _ w := w;
  uo_now _ := "now"%string;
  uo_current_version := "2.4.7"%string;
  uo_public_key := Some "key"%string;
  uo_ask_user _ w := (true, w);
  uo_check w := (Some (CheckUpdate next_update), w);
  uo_download _ w := (Some (bytes "app"), w);
  uo_install u b w := (InstallDone, w ++ [(u, b)]);
  uo_is_portable := false;
  uo_auto_check _ := None;
  uo_notice _ _ w := w;
}.

#[export] Instance toy_install_laws : InstallLaws installs.
Proof. by refine {| installed := fun w : installs => w |}. Defined.

Lemma startup_installs_only_owned_newer_updates_witness :
  (try_install_on_startup ([] : installs)).1 = true /\
  length (try_install_on_startup ([] : installs)).2 = 1%nat /\
  install_outcome ([] : installs) (try_install_on_startup ([] : installs)).2 (try_install_on_startup ([] : installs)).1.
Proof.
  split; [vm_compute; reflexivity|]. split; [vm_compute; reflexivity|].
  apply (startup_installs_only_owned_newer_updates ([] : installs)). apply surjective_pairing.
Defined.

(** * The theorems on settings, backups and hot keys at concrete inputs

    A desktop whose start-up entry cannot be written, a backup directory with a clock, and a
    shortcut manager that refuses one key. *)

(** ** settings *)

#[export] Instance box_settings : SettingsOs CoreBox := {
  so_refresh_clash b := b;
  so_refresh_verge b := b;
  so_update_launch b := (Err "permission denied"%string, b);
  so_set_locale _ b := b;
  so_update_sysproxy b := (Ok tt, b);
  so_refresh_guard b := b;
  so_update_hotkeys _ b := (Ok tt, b);
  so_update_menu b := (Ok tt, b);
  so_update_icon _ b := (Ok tt, b);
  so_update_speed_task _ b := b;
  so_update_tooltip b := (Ok tt, b);
  so_update_click_behavior b := (Ok tt, b);
  so_update_menu_and_icon b := b;
  so_enable_auto_light_weight b := b;
  so_disable_auto_light_weight b := b;
  so_update_log_level _ b := (Ok tt, b);
  so_update_log_config _ _ b := (Ok tt, b);
  so_refresh_backup_settings _ b := b;
  so_save_clash _ b := (Ok tt, b);
  so_patch_base_mode _ b := (Ok tt, b);
  so_close_connections b := b;
}.

(** [enable_auto_launch], which cannot be done, and then the start page, which needs nothing. *)
Definition launch_patch : IVerge := {|
  iv_app_log_level := None; iv_app_log_max_size := None; iv_app_log_max_count := None; iv_language := None;
  iv_theme_mode := None; iv_tray_event := None; iv_env_type := None; iv_start_page := None;
  iv_startup_script := None; iv_traffic_graph := None; iv_enable_memory_usage := None;
  iv_enable_group_icon := None; iv_pause_render_traffic_stats_on_blur := None; iv_common_tray_icon := None;
  iv_tray_icon := None; iv_menu_icon := None; iv_menu_order := None; iv_notice_position := None;
  iv_collapse_navbar := None; iv_sysproxy_tray_icon := None; iv_tun_tray_icon := None;
  iv_enable_tun_mode := None; iv_enable_auto_launch := Some true; iv_enable_silent_start := None;
  iv_enable_system_proxy := None; iv_enable_proxy_guard := None; iv_enable_bypass_check := None;
  iv_enable_dns_settings := None; iv_use_default_bypass := None; iv_system_proxy_bypass := None;
  iv_proxy_guard_duration := None; iv_proxy_auto_config := None; iv_pac_file_content := None;
  iv_proxy_host := None; iv_theme_setting := None; iv_web_ui_list := None; iv_clash_core := None;
  iv_hotkeys := None; iv_enable_global_hotkey := None; iv_home_cards := None; iv_auto_close_connection := None;
  iv_auto_check_update := None; iv_default_latency_test := None; iv_default_latency_timeout := None;
  iv_enable_auto_delay_detection := None; iv_auto_delay_detection_interval_minutes := None;
  iv_enable_builtin_enhanced := None; iv_proxy_layout_column := None; iv_test_list := None;
  iv_auto_log_clean := None; iv_enable_auto_backup_schedule := None; iv_auto_backup_interval_hours := None;
  iv_auto_backup_on_change := None; iv_verge_redir_port := None; iv_verge_redir_enabled := None;
  iv_verge_tproxy_port := None; iv_verge_tproxy_enabled := None; iv_verge_mixed_port := None;
  iv_verge_socks_port := None; iv_verge_socks_enabled := None; iv_verge_port := None;
  iv_verge_http_enabled := None; iv_webdav_url := None; iv_webdav_username := None; iv_webdav_password := None;
  iv_enable_tray_speed := None; iv_tray_proxy_groups_display_mode := None;
  iv_tray_inline_outbound_modes := None; iv_enable_auto_light_weight_mode := None;
  iv_auto_light_weight_minutes := None; iv_enable_hover_jump_navigator := None;
  iv_hover_jump_navigator_delay := None; iv_enable_external_controller := None
|}.
Definition page_patch : IVerge := {|
  iv_app_log_level := None; iv_app_log_max_size := None; iv_app_log_max_count := None; iv_language := None;
  iv_theme_mode := None; iv_tray_event := None; iv_env_type := None; iv_start_page := Some "/proxies"%string;
  iv_startup_script := None; iv_traffic_graph := None; iv_enable_memory_usage := None;
  iv_enable_group_icon := None; iv_pause_render_traffic_stats_on_blur := None; iv_common_tray_icon := None;
  iv_tray_icon := None; iv_menu_icon := None; iv_menu_order := None; iv_notice_position := None;
  iv_collapse_navbar := None; iv_sysproxy_tray_icon := None; iv_tun_tray_icon := None;
  iv_enable_tun_mode := None; iv_enable_auto_launch := None; iv_enable_silent_start := None;
  iv_enable_system_proxy := None; iv_enable_proxy_guard := None; iv_enable_bypass_check := None;
  iv_enable_dns_settings := None; iv_use_default_bypass := None; iv_system_proxy_bypass := None;
  iv_proxy_guard_duration := None; iv_proxy_auto_config := None; iv_pac_file_content := None;
  iv_proxy_host := None; iv_theme_setting := None; iv_web_ui_list := None; iv_clash_core := None;
  iv_hotkeys := None; iv_enable_global_hotkey := None; iv_home_cards := None; iv_auto_close_connection := None;
  iv_auto_check_update := None; iv_default_latency_test := None; iv_default_latency_timeout := None;
  iv_enable_auto_delay_detection := None; iv_auto_delay_detection_interval_minutes := None;
  iv_enable_builtin_enhanced := None; iv_proxy_layout_column := None; iv_test_list := None;
  iv_auto_log_clean := None; iv_enable_auto_backup_schedule := None; iv_auto_backup_interval_hours := None;
  iv_auto_backup_on_change := None; iv_verge_redir_port := None; iv_verge_redir_enabled := None;
  iv_verge_tproxy_port := None; iv_verge_tproxy_enabled := None; iv_verge_mixed_port := None;
  iv_verge_socks_port := None; iv_verge_socks_enabled := None; iv_verge_port := None;
  iv_verge_http_enabled := None; iv_webdav_url := None; iv_webdav_username := None; iv_webdav_password := None;
  iv_enable_tray_speed := None; iv_tray_proxy_groups_display_mode := None;
  iv_tray_inline_outbound_modes := None; iv_enable_auto_light_weight_mode := None;
  iv_auto_light_weight_minutes := None; iv_enable_hover_jump_navigator := None;
  iv_hover_jump_navigator_delay := None; iv_enable_external_controller := None
|}.

Lemma failed_settings_patch_is_not_discarded_witness :
  let s := core_state true in
  let s1 := (patch_verge OtherUnix launch_patch false s).2 in
  let s2 := (patch_verge OtherUnix page_patch false s1).2 in
  (patch_verge OtherUnix launch_patch false s).1 = Err (Failed "permission denied") /\
  iv_enable_auto_launch (ve_latest (cm_verge s1)) = Some true /\
  iv_enable_auto_launch (ve_committed (cm_verge s2)) = Some true.
Proof.
  cbn zeta.
  destruct (failed_settings_patch_is_not_discarded OtherUnix launch_patch false (core_state true)
    (Failed "permission denied")
    (process_terminated_flags OtherUnix (determine_update_flags OtherUnix launch_patch) launch_patch
       (cm_set_verge (ve_edit (verge_patch_config launch_patch) (cm_verge (core_state true))) (core_state true))).2)
    as (Ha & _ & Hl & Hn); [vm_compute; reflexivity|].
  split; [exact Ha|]. split; [rewrite Hl; vm_compute; reflexivity|].
  rewrite Hn; [vm_compute; reflexivity|vm_compute; reflexivity].
Defined.

(** ** backups *)

(** A clock that starts in 2023; making a backup takes three seconds. *)
#[export] Instance clock_backups : BackupOs Z := {
  bo_timestamp w := Z.max 1 (Z.min i64_max w);
  bo_create_local_backup namer w := (Ok (namer "backup.zip"%string), w + 3);
  bo_backup_dir _ := Ok "/backups"%string;
  bo_dir_exists _ _ := false;
  bo_read_dir _ _ := None;
  bo_remove_file _ w := (Ok tt, w);
  bo_pass seconds w := w + seconds;
}.

#[export] Instance clock_laws : BackupLaws Z.
Proof. split; cbn; [unfold i64_max; lia|]. intros namer w name w' [= <- <-]. lia. Defined.

Definition scheduled_verge : IVerge := {|
  iv_app_log_level := None; iv_app_log_max_size := None; iv_app_log_max_count := None; iv_language := None;
  iv_theme_mode := None; iv_tray_event := None; iv_env_type := None; iv_start_page := None;
  iv_startup_script := None; iv_traffic_graph := None; iv_enable_memory_usage := None;
  iv_enable_group_icon := None; iv_pause_render_traffic_stats_on_blur := None; iv_common_tray_icon := None;
  iv_tray_icon := None; iv_menu_icon := None; iv_menu_order := None; iv_notice_position := None;
  iv_collapse_navbar := None; iv_sysproxy_tray_icon := None; iv_tun_tray_icon := None;
  iv_enable_tun_mode := None; iv_enable_auto_launch := None; iv_enable_silent_start := None;
  iv_enable_system_proxy := None; iv_enable_proxy_guard := None; iv_enable_bypass_check := None;
  iv_enable_dns_settings := None; iv_use_default_bypass := None; iv_system_proxy_bypass := None;
  iv_proxy_guard_duration := None; iv_proxy_auto_config := None; iv_pac_file_content := None;
  iv_proxy_host := None; iv_theme_setting := None; iv_web_ui_list := None; iv_clash_core := None;
  iv_hotkeys := None; iv_enable_global_hotkey := None; iv_home_cards := None; iv_auto_close_connection := None;
  iv_auto_check_update := None; iv_default_latency_test := None; iv_default_latency_timeout := None;
  iv_enable_auto_delay_detection := None; iv_auto_delay_detection_interval_minutes := None;
  iv_enable_builtin_enhanced := None; iv_proxy_layout_column := None; iv_test_list := None;
  iv_auto_log_clean := None; iv_enable_auto_backup_schedule := Some true; iv_auto_backup_interval_hours := Some 0;
  iv_auto_backup_on_change := None; iv_verge_redir_port := None; iv_verge_redir_enabled := None;
  iv_verge_tproxy_port := None; iv_verge_tproxy_enabled := None; iv_verge_mixed_port := None;
  iv_verge_socks_port := None; iv_verge_socks_enabled := None; iv_verge_port := None;
  iv_verge_http_enabled := None; iv_webdav_url := None; iv_webdav_username := None; iv_webdav_password := None;
  iv_enable_tray_speed := None; iv_tray_proxy_groups_display_mode := None;
  iv_tray_inline_outbound_modes := None; iv_enable_auto_light_weight_mode := None;
  iv_auto_light_weight_minutes := None; iv_enable_hover_jump_navigator := None;
  iv_hover_jump_navigator_delay := None; iv_enable_external_controller := None
|}.

Definition two_triggers : list BackupEvent :=
  [EvTrigger GlobalMerge; EvTrigger GlobalScript; EvLocked 0; EvLocked 0; EvTime 57; EvTrigger GlobalMerge; EvLocked 0;
   EvTime 3; EvTrigger GlobalMerge; EvLocked 0].

Lemma backups_are_a_minute_apart_witness :
  map snd (am_backups (backup_run two_triggers (manager_global 1700000000))) = [1700000066; 1700000003] /\
  spaced (am_backups (backup_run two_triggers (manager_global 1700000000))).
Proof. split; [vm_compute; reflexivity|apply (backups_are_a_minute_apart two_triggers 1700000000)]. Defined.

(** A month without a scheduled backup, then one hour after the settings are touched again. *)
Definition quiet_month : list BackupEvent :=
  [EvRunner true; EvTime 2592000; EvRunner true; EvTrigger GlobalMerge; EvLocked 0; EvRunner false].
Definition second_change : list BackupEvent :=
  [EvSettings scheduled_verge; EvRunner true; EvTime 3600; EvRunner true; EvLocked 0].

Lemma schedule_waits_for_a_second_change_witness :
  let m0 := backup_init scheduled_verge (manager_global 1700000000) in
  as_schedule_enabled (am_settings m0) = true /\ as_interval_hours (am_settings m0) = 1 /\
  map fst (am_backups (backup_run quiet_month m0)) = [GlobalMerge] /\
  Forall (fun b => b.1 <> Scheduled) (am_backups (backup_run quiet_month m0)) /\
  map fst (am_backups (backup_run second_change (backup_run quiet_month m0))) = [Scheduled; GlobalMerge].
Proof.
  cbn zeta.
  destruct (schedule_waits_for_a_second_change scheduled_verge quiet_month 1700000000) as (Hs & _ & _ & Hb);
    [reflexivity|repeat constructor|].
  split; [exact Hs|]. split; [reflexivity|]. split; [vm_compute; reflexivity|]. split; [exact Hb|].
  vm_compute. reflexivity.
Defined.

(** ** hot keys *)

(** The registered keys; the system keeps one for itself. *)
#[export] Instance set_shortcuts : ShortcutOs (gmap string HotkeyFunction) := {
  sc_is_registered key w := is_some (w !! key);
  sc_unregister key w := (is_some (w !! key), delete key w);
  sc_on_shortcut key f w := if bool_decide (key = "CTRL+ALT+DEL"%string) then (false, w) else (true, <[key := f]> w);
  sc_unregister_all w := (true, ∅);
}.

#[export] Instance listed_order : MapOrder := { map_order m := map_to_list m }.
#[export] Instance listed_laws : MapOrderLaws.
Proof. by split. Defined.

Definition one_hotkey : Hotkey (gmap string HotkeyFunction) :=
  {| hk_current := ["quit,CTRL+Q"%string]; hk_world := {["CTRL+Q"%string := Quit]} |}.

Lemma failed_hotkey_update_cannot_be_undone_witness :
  let hk := (hotkey_update true ["quit,CTRL+ALT+DEL"%string] one_hotkey).2 in
  (hotkey_update true ["quit,CTRL+ALT+DEL"%string] one_hotkey).1 = false /\
  hk_world hk !! "CTRL+Q"%string = None /\
  hotkey_update true ["quit,CTRL+Q"%string] hk = (true, hk).
Proof.
  cbn zeta. split; [vm_compute; reflexivity|]. split; [vm_compute; reflexivity|].
  apply (failed_hotkey_update_cannot_be_undone true ["quit,CTRL+ALT+DEL"%string] one_hotkey). vm_compute. reflexivity.
Defined.

Lemma hotkey_difference_is_exact_witness :
  get_diff {["CTRL+Q"%string := "quit"%string]} {["CTRL+W"%string := "quit"%string]} =
    (["CTRL+Q"%string], [("CTRL+W"%string, "quit"%string)]) /\
  add_keys [("CTRL+W"%string, "quit"%string)] (remove_keys ["CTRL+Q"%string] {["CTRL+Q"%string := "quit"%string]}) =
    {["CTRL+W"%string := "quit"%string]}.
Proof.
  assert (Hd : get_diff {["CTRL+Q"%string := "quit"%string]} {["CTRL+W"%string := "quit"%string]} =
    (["CTRL+Q"%string], [("CTRL+W"%string, "quit"%string)])) by (vm_compute; reflexivity).
  split; [exact Hd|].
  pose proof (hotkey_difference_is_exact {["CTRL+Q"%string := "quit"%string]} {["CTRL+W"%string := "quit"%string]}) as Hx.
  rewrite Hd in Hx. exact (proj1 Hx).
Defined.
